(* ===== verification/_CoqProject ===== *)
-Q . S2P
Prelude.v
GoTime.v
Proc.v
GoText.v
GoNet.v
Types.v
Checks.v
GoConv.v
Identity.v
Address.v
Expose.v
Ordered.v
Idempotency.v
Resources.v
Preset.v
Matcher.v
MatcherFacts.v
MatcherClaims.v
StateValidate.v
Codec.v
Samples.v
StateFacts.v
Operation.v
Transition.v
NodeOperation.v
ExposeStates.v
SwitchIntent.v
Provider.v
SwitchState.v
SwitchFacts.v
DeferredFacts.v
Switch.v
SwitchClaims.v
DeferredClaims.v
Rpc.v
RpcServer.v
RpcSamples.v
RpcClaims.v
Controller.v
ControllerFacts.v
NodeMutation.v
NodeMutationFacts.v
SwitchMutation.v
SwitchMutationFacts.v
SwitchRemote.v
SwitchAgreement.v
Store.v
StoreFacts.v
StoreClaims.v
Network.v
NetworkFacts.v
Watchdog.v
WatchdogFacts.v
WatchdogClaims.v
Loopback.v
Saga.v
SagaFacts.v
SagaClaims.v
LocalTx.v
LocalTxFacts.v
Convergence.v
ConvergenceFacts.v
ConvergenceClaims.v
Apply.v
ApplyFacts.v
Repair.v
SwitchApply.v
ExposePlan.v
Tunnel.v
ExposeSaga.v
ExposeGateway.v
ExposeRpc.v
ExposeSamples.v
ExposeSagaFacts.v
ExposeGatewayFacts.v
ExposeAgreement.v
ExposeRpcFacts.v
TunnelFacts.v
