(* ===== verification/Prelude.v ===== *)
(** * vpnctl: a verification development

    vpnctl manages a VPN gateway, its nodes and clients from one authoritative state
    file.  The core logic is written in Go:

    - [internal/model] holds the state, its validator and the rules by which one state
      may follow another, the node-side operation records, the idempotency history,
      the overlay address allocator, the expose route index and the strict JSON codec;
    - [internal/store/state.go] keeps the state on disk, replaced by compare-and-swap;
    - [internal/tunnel/allocator.go] hands out loopback ports to exposes;
    - [internal/operations/cross_host_saga.go] moves the gateway and a node together
      through persisted phases, and [local_transaction.go] moves one component of a host
      to its next generation and back;
    - [internal/operations/convergence.go] plans what separates the desired from the
      applied and the applied from the observed configuration; [apply.go] carries the
      first difference out, [repair.go] the second;
    - [internal/routing] composes presets of names and address blocks and compiles them
      to ordered rules for the node, its leak guard, the gateway resolver and clients;
    - [internal/transport] switches a node between its two transports: it plans the
      switch, makes the new path before it breaks the old one, undoes it when something
      fails, and defers the activation of a switch that was asked for on the other path;
    - [internal/control] decodes, authenticates and answers the requests nodes send to
      the gateway; [internal/controller] turns them and the requests of the local socket
      into changes of the state, one at a time;
    - [internal/operations/transport_switch_rpc.go] and [transport_switch_apply.go] are the
      node's side of a deferred switch: it asks the gateway, activates, and saves;
    - [internal/ingress/expose.go] and the expose files of [internal/operations] publish a
      service of a node at the gateway: the gateway plans and reserves, the node maps the
      service into the tunnel of [internal/tunnel], the gateway serves it, and both save;
      a removal goes the other way;
    - [internal/operations/watchdog.go] restores the network of a host, read and written
      by [internal/platform/linux/watchdog_network.go], unless a change of it is
      confirmed from a fresh SSH session in time.

    The parts meet in the state: the store decodes, validates and replaces it, allocators
    are restored from it, operations and idempotency records live in it, every change of
    it is a transition, the controller serializes the changes asked for, and sagas, local transactions and applies carry the operations it
    records out on the hosts, with the watchdog armed around network changes.

    ** Files

    - [Prelude]: errors, the result monad, Go loops with early return and their
      invariant rules, slices, 64-bit bounds, the tactics of the development.
    - [GoTime], [GoText], [GoConv], [GoNet]: what the code uses of [time],
      [strings], [strconv], [path/filepath], [regexp] (decided by derivatives and related to the language of the
      expression), [net], [net/netip], [net/url] and [encoding/base64].
    - [Proc]: programs that call out, with the calls they make logged; [wp] rules.
    - [Types]: the records and enumerations of types.go.  Field [F] of record [R] is
      written with a prefix, as in [node_ID]; a nil slice is [None].
    - [Checks], [Resources]: patterns, field checks and the Validate method of every
      resource (validate.go, secret_ref.go); [node_Validate] is [Node.Validate].
    - [Identity]: UUIDs, generation counters, lifecycle moves (transition.go).
    - [Address]: address.go.  [Expose]: expose.go.  [Idempotency]: idempotency.go.
    - [Ordered]: records in the canonical order of a text key, shared by components.
    - [StateValidate]: [State.Validate], one definition per loop, composed by
      [Validate] in the order of the code; [Samples] holds states it accepts and
      [StateFacts] what it guarantees.
    - [Codec]: codec.go.  The tokens of [encoding/json] and its two conversions are the
      classes [JSONTokens] and [JSONValue].
    - [Operation], [NodeOperation]: operation.go.  [Transition]: [ValidateTransition].
    - [Store], [StoreFacts], [StoreClaims]: state.go over a model of a directory on disk,
      the calls that preserve it, and what the store promises.
    - [Preset]: preset.go, composition.go and classification.go.  [Matcher]:
      matcher_ir.go; [MatcherFacts] relates its rules, for addresses and for names, to the
      clauses they come from, [MatcherClaims] per target and back to the documents.
    - [SwitchIntent]: switch_intent.go.  [Provider]: provider.go and manager.go.
      [SwitchState]: the states of a node before and after a switch (switch_workflow.go,
      deferred_switch_runtime.go); [SwitchFacts] holds examples and, with
      [DeferredFacts], what these states satisfy.
    - [Switch]: the workflows of switch_workflow.go, test_workflow.go and
      deferred_switch_runtime.go, against the classes [Providers], [SwitchStore] and
      [SwitchClock]; [SwitchClaims] describes their calls by scripts of stages and says,
      with [DeferredClaims], what they guarantee.
    - [Rpc]: rpc.go, protocol.go and json.go of [internal/control]: requests, responses,
      their decoding and validation, protocol versions ([rpc_Validate] is
      [RPCRequest.Validate]).  [RpcServer]: rpc_server.go and state_authorizer.go, against
      a clock, an authorizer and handlers; [RpcSamples] holds requests and the JSON of the
      examples, [RpcClaims] what the server guarantees.
    - [Controller], [ControllerFacts]: process.go of [internal/controller] and local.go of
      [internal/control], against classes for the state store, the observer, the lock and
      the clock.  [NodeMutation], [NodeMutationFacts]: mutation.go, against dispatchers
      given as functions.  [SwitchMutation], [SwitchMutationFacts]:
      transport_switch_mutation.go, the dispatcher that registers and finalizes switches.
    - [SwitchRemote]: transport_switch_rpc.go.  [SwitchAgreement]: the node and the gateway
      composed, from the request of one to the saved states of both.
    - [Network], [NetworkFacts]: watchdog_network.go with the parsers of
      discovery_parse.go it calls, against the class [ProbeRunner] of host commands.
    - [Watchdog], [WatchdogFacts], [WatchdogClaims]: watchdog.go over the same directory
      model, with timers, clock and session proof as an interface.
    - [Loopback]: allocator.go.
    - [Saga], [SagaFacts], [SagaClaims]: cross_host_saga.go.  The store, the adapter,
      the clock and the generator are the class [SagaHosts]; what they promise when
      nothing fails is [CooperativeHosts], which an in-memory store instantiates.
    - [LocalTx], [LocalTxFacts]: local_transaction.go, against the class
      [LocalComponent].
    - [Convergence], [ConvergenceFacts], [ConvergenceClaims]: convergence.go, against
      the class [ConvergenceHost].  [Apply], [ApplyFacts]: apply.go.  [Repair]:
      repair.go.
    - [SwitchApply]: transport_switch_apply.go, against the activation
      of the target, the gateway, the state and the convergence snapshot as interfaces.
    - [ExposePlan]: limits.go and expose.go of [internal/ingress].  [Tunnel], [TunnelFacts]:
      provider.go and readiness.go of [internal/tunnel].  [ExposeStates]: transitions that
      change the exposes only.
    - [ExposeSaga], [ExposeSagaFacts]: expose_create.go and expose_remove.go, against the
      classes [ExposeStateStore], [ExposeGatewayCoordinator], [ExposeNodeTunnel],
      [ExposeGatewayRemovalCoordinator] and [ExposeTunnelRemoval], and expose_catalog.go.
    - [ExposeGateway], [ExposeGatewayFacts]: expose_gateway.go, expose_remove_gateway.go
      and expose_gateway_system.go, against the class [GatewayExposeHosts] of the ingress,
      the certificate export and the ports; a section joins a node with the service.
    - [ExposeRpc], [ExposeRpcFacts]: expose_rpc.go, the node's client and the gateway's
      handler.  [ExposeAgreement] shows that node and gateway agree, [ExposeSamples] runs
      both on sample states.

    ** What the theorems show

    - State (StateFacts): in a state the validator accepts, identities are unique,
      references resolve, no request path is routed twice, live addresses are distinct,
      transports follow lifecycles and at most one gateway request is open.
    - Transitions (Transition): along any history of accepted transitions generations
      count the changes, invites are single use, credentials move one step at a time,
      open operations are durable and the handshake host changes only as staged.
    - Codec: the first pass accepts exactly the complete documents in which no object
      repeats a field.
    - Store (StoreClaims): wherever a call of a save fails or the machine stops, both
      files hold complete states; without failures the store refines a register with
      compare-and-swap; over any history the state and its predecessor are linked by an
      accepted transition.
    - Operations (Operation, NodeOperation): moves are accepted by the transition
      rules; a request is registered once, retried safely and stays pinned until its
      outcome is definitive.
    - Allocators (Address, Loopback, Identity): every reachable allocator assigns an
      address or port once, inside its range, first fit; snapshots restore.
    - Routes (Expose): the index refines the pairwise overlap test, which holds exactly
      when two routes select a common request.
    - Idempotency: pruning, replay and lookup, with the case of a full history.
    - Convergence (ConvergenceClaims): the changes and the drift of a plan are exactly the
      differences, each change owed to one pending operation; the planner refuses exactly
      the inputs with an unaccounted difference and ignores the order of its input.
    - Apply and repair (ApplyFacts, Repair): an executor runs at most once, for the
      approved plan if it is still current; results are well formed, and a repair that
      succeeds has converged.
    - Presets and matchers (MatcherClaims): a composition of documents
      decides as its documents do; the compiled rules, which stop at the first match,
      decide every address as the presets do, and every name when the lists are separable:
      no suffix that is also listed as a name lies below a wider suffix or is longer than
      240 characters, and there are fewer than 10^11 values.  A suffix below a wider one
      that is listed as a name loses its rule.
    - Switch states (SwitchIntent, SwitchFacts, DeferredFacts): the text of an
      intent and its identifiers determine each other; a switch is accepted exactly for
      a joined node with both transports, changes nothing else and can be switched back;
      a deferred switch is finalized exactly by the receipt that belongs to it.
    - Switch workflow (SwitchClaims, DeferredClaims): the old path is drained only after
      the new one is healthy and saved; after a failure the steps are undone in reverse;
      a test saves and activates nothing and removes what it prepared; a deferred
      activation can be rolled back.
    - Control protocol (RpcClaims): a handler is called, once, exactly for a well-formed,
      timely request of a supported version from the active node whose current certificate
      the connection verified; only valid answers are written.
    - Controller (ControllerFacts): a local mutation activates before it saves, saves at
      most once and rolls back exactly when the state is found unchanged; on a faithful
      host the runtime follows the stored state.
    - Node requests (NodeMutationFacts): a request is dispatched and saved at most once, as
      the candidate with its result in the history of its node; a dispatched request that
      cannot be recorded is refused; a retry of a saved one is answered from the history.
    - Switches on the gateway (SwitchMutationFacts): a switch that was dispatched is
      reconciled with its own answer; from a state where no node has two open switches no
      history of dispatched requests, and of other changes that add no switch operation,
      leads to one that has.
    - Both ends (SwitchAgreement): a finalization the gateway saved selects the same
      target on the gateway and on the node, which accepts the receipt it is sent.
    - Applying a switch (SwitchApply): unless the result is reported as uncertain,
      it is committed on gateway, node and snapshot, or nothing was saved and the activation
      is rolled back; a rollback that fails too may leave the target active and its error
      is joined.
    - Exposes on a node (ExposeSagaFacts): a creation publishes the
      expose as it was observed or calls the compensations of exactly the steps whose call
      succeeded, and joins the errors of those that fail, unless the gateway may have
      committed; a removal makes its calls in one order and stops at the first failure.
    - Exposes on the gateway (ExposeGatewayFacts, ExposeRpcFacts): the
      ingress serves the published exposes of the stored state, except where an error says
      so or a failed save took effect; a planned expose is exclusive and its reservation
      is granted; the requests of a node touch its own exposes only.  The deferred removal
      writes through an interface of which the source has no implementation and is not
      part of the first statement.  The client marks errors as possibly committed exactly
      when an answer arrived.
    - Both ends of an expose (ExposeAgreement): after a creation or a removal that succeeds
      node and gateway hold the same exposes of the node.
    - Tunnel (TunnelFacts): the mappings of a plan are those of the exposes that are not
      disabled, and the readiness of a node decides the published state.
    - Network (NetworkFacts): a restore issues only commands of checked shapes, on owned
      route tables, policy rules and allowed sysctls and with a checked nftables
      definition, in which a second table is not noticed; it tries every change and is
      successful only when every command was; a snapshot only reads.
    - Watchdog (WatchdogClaims): a transaction is never both committed and rolled back; a
      commit needs a fresh session in time on the allowed port; a rollback restores the
      recorded network; the timer starts once the record is on the disk.
    - Sagas (SagaClaims): for every store and adapter a phase is executed only after its
      absence was observed, saves form a compare-and-swap chain and the loop bound is
      never the reason to stop; with cooperating hosts the saga completes.  A drain
      with a fraction of a second never completes, and a request that carries the
      identity of a saga blocks the registration of others.
    - Local transactions (LocalTxFacts): a failed activation is undone and observed to
      be undone or reported as uncertain; a commit follows one exact sequence of calls;
      the component is asked to decide at most once.

    ** Conventions and bounds

    A Go error is modelled by the sentinels [errors.Is] finds in it and the path or
    context of its message; other message text is dropped.  Unsigned integers are [N]
    with [max_uint64] or a reduction modulo 2^64 where the code can overflow; durations
    and ports are [Z].  Strings are byte strings.  A [time.Time] is an instant in
    nanoseconds and a location.  Fuel: UUID allocation makes 32 attempts, [Resume] 8
    steps and the watchdog 16 attempts at an identifier because the code does; address
    and port searches run over the size of the pool; the walk over JSON tokens has one
    unit more than there are tokens; all are shown to be enough.  Sorting is stdpp's
    merge sort, which agrees with the stable or key-unique sorts of the code.
    The encoding of a state is a parameter; where a copy through it matters, the class
    [FaithfulStateCodec] says that a copy is the state, and [FaithfulGateway],
    [FaithfulNode] and [FaithfulHosts] say what stores, ingress and tunnel do when they
    report success; [ExposeSamples] and the instances beside the classes give examples.
    SHA-256, the YAML reader, the MIME type parser and [encoding/json] are parameters; a
    TLS connection is what the server reads of it, its version and the verified leaf.  The search for an
    address no narrower rule covers has one unit of fuel per bit of the address.
    A prefix is parsed where the code calls [netip.MustParsePrefix]; the default it is
    given in the model is never reached on validated matchers.  Detached contexts keep
    only the bound they put on a call.

    The disk: the contents of a file survive a crash once synced, otherwise they may be
    lost; of the directory operations since the last sync of the directory a crash keeps
    any subset, in order.  Every call may fail; a failed write leaves arbitrary bytes.  Critical sections
    under an advisory lock are atomic.

    ** Not modelled

    Routing policies, the configuration and the authorization of the tunnel, the rendering
    and activation of the ingress configuration, enrollment tokens, the status report and the
    restore of a gateway are not modelled.  Of the modelled files, the constructors that only check paths and nil
    dependencies, the manifest of rendered artifacts in convergence.go and the path and
    secret handling of the store are left out.  Command line, HTTP clients, TLS
    setup, sockets, rendering of configuration for external programs and the rest of the Linux platform
    layer are input and output and stay outside.  Contexts are reduced to the bound they
    put on a call; cancellation shows up as an error of the call.  Nil receivers,
    interfaces and contexts, which the code rejects first, cannot be written in the
    model; where the code looks at the context itself, whether it is cancelled by then is an
    argument. *)

From Corelib Require Export ssreflect.
From stdpp Require Export base gmap sets list strings numbers option sorting.
From Stdlib Require Export ZArith NArith Lia Bool.

Global Open Scope general_if_scope.
#[global] Set Default Goal Selector "!".
#[global] Set Warnings "-rewrite-rw,-clear-no-such-hyp,-register-all".

(** ** Errors and results

    A Go [error] is modelled by the sentinel it wraps (the part [errors.Is]
    observes) and the field path the message starts with; the rest of the
    message text is dropped. *)

Inductive sentinel :=
  | ErrGenerationOverflow | ErrIdentityCollision | ErrInvalidTransition
  | ErrOperationTransition | ErrPendingRequest | ErrIdempotencyRecordEvicted
  | ErrAddressPoolExhausted | ErrAddressConflict
  | ErrLoopbackPoolExhausted | ErrLoopbackPortConflict
  | ErrLocalTransactionInvalid | ErrLocalTransactionConflict
  | ErrLocalTransactionFinalize | ErrLocalTransactionRollback
  | ErrLocalTransactionUncertain
  | ErrCrossHostSagaInvalid | ErrCrossHostSagaConflict | ErrCrossHostSagaUncertain
  | ErrStateNotFound | ErrStateConflict
  | ErrConvergencePlanInvalid
  | ErrApplyInvalid | ErrApplyConflict | ErrApplyNodeAgentUnavailable | ErrApplyGatewayUnavailable
  | ErrRepairInvalid | ErrRepairConflict | ErrRepairNodeAgentUnavailable | ErrRepairGatewayUnavailable
  | ErrWatchdogTransactionNotFound | ErrWatchdogIDConflict | ErrWatchdogNotActivated
  | ErrWatchdogAlreadyCommitted | ErrWatchdogAlreadyRolledBack | ErrWatchdogExpired
  | ErrWatchdogOriginalSession | ErrWatchdogWrongSSHPort | ErrWatchdogConfirmationProof
  | ErrInvalidNetworkSnapshot
  | ErrTransportSwitchStale | ErrTransportSwitchTargetNotReady | ErrTransportSwitchCommitUncertain | ErrTransportTestStateChanged
  | ErrInvalidRPCRequest | ErrInvalidRPCResponse | ErrInvalidRPCIdentity | ErrGatewayMutationBusy
  | ErrTransportSwitchGatewayUnavailable | ErrTransportSwitchApplyUncertain | ErrConvergenceSnapshotConflict
  | ErrIngressLimitsInvalid | ErrExposeLimitInvalid | ErrUnsupportedExposeLimitOption
  | ErrExposeInvalidInput | ErrExposeNameConflict | ErrExposeRouteConflict | ErrExposeReservedPath | ErrExposeNonLoopbackOptIn
  | ErrExposePathGeneration | ErrExposeNamespaceInvalid | ErrPublicCertificateNotFound
  | ErrExposeGatewayUnavailable | ErrExposePlanStale | ErrExposeTunnelNotReady | ErrExposeOutcomeUncertain | ErrExposeSagaInvalid
  | ErrExposeNotFound | ErrExposeRemovalIncomplete
  | ExposeCommitPossible                  (** an error whose [CommitPossible] is true *)
  | ExposeCommitExcluded                  (** an error whose [CommitPossible] is false *)
  | ContextCanceled | ContextDeadlineExceeded.

#[export] Instance sentinel_eq_dec : EqDecision sentinel.
Proof. solve_decision. Defined.

Inductive error :=
  | Invalid (path : string)               (** [invalid(path, ...)] *)
  | Wrapped (context : string) (cause : error)   (** [fmt.Errorf("...: %w", err)] *)
  | Sentinel (s : sentinel)               (** [fmt.Errorf("%w: ...", ErrX)] *)
  | Message (text : string)               (** an error that wraps nothing *)
  | Join (first second : error).          (** [errors.Join] *)

#[export] Instance error_eq_dec : EqDecision error.
Proof. solve_decision. Defined.

(** [errors.Is] *)
Fixpoint errors_is (e : error) (s : sentinel) : bool :=
  match e with
  | Invalid _ | Message _ => false
  | Wrapped _ cause => errors_is cause s
  | Sentinel s' => bool_decide (s' = s)
  | Join a b => errors_is a s || errors_is b s
  end.

Inductive result (A : Type) :=
  | Ok (a : A)
  | Err (e : error).
Arguments Ok {A} a.
Arguments Err {A} e.

#[export] Instance result_eq_dec `{EqDecision A} : EqDecision (result A).
Proof. solve_decision. Defined.

#[export] Instance result_ret : MRet result := λ A a, Ok a.
#[export] Instance result_bind : MBind result := λ A B f m,
  match m with Ok a => f a | Err e => Err e end.
#[export] Instance result_fmap : FMap result := λ A B f m,
  match m with Ok a => Ok (f a) | Err e => Err e end.

(** [if bad { return err }] *)
Definition reject (bad : bool) (e : error) : result unit :=
  if bad then Err e else Ok ().

(** [if err := m; err != nil { return wrap(context, err) }] *)
Definition wrap {A} (context : string) (m : result A) : result A :=
  match m with Ok a => Ok a | Err e => Err (Wrapped context e) end.

Definition is_ok {A} (m : result A) : bool :=
  match m with Ok _ => true | Err _ => false end.

(** [for index, x := range xs { ... }] with early return; [s] carries the local
    variables the body updates. *)
Fixpoint range_loop {A S} (body : nat → A → S → result S) (index : nat) (xs : list A) (s : S) : result S :=
  match xs with
  | [] => Ok s
  | x :: xs' => s' ← body index x s; range_loop body (Datatypes.S index) xs' s'
  end.

Definition range {A S} (body : nat → A → S → result S) (xs : list A) (s : S) : result S :=
  range_loop body 0 xs s.

(** A loop that only checks: no local variable is updated. *)
Definition range_check {A} (body : nat → A → result unit) (xs : list A) : result unit :=
  range (λ i x _, body i x) xs ().

(** ** Inversion of results *)

Lemma bind_ok {A B} (m : result A) (f : A → result B) b :
  m ≫= f = Ok b ↔ ∃ a, m = Ok a ∧ f a = Ok b.
Proof. destruct m; cbn; naive_solver. Qed.

Lemma reject_ok bad e u : reject bad e = Ok u ↔ bad = false.
Proof. destruct bad, u; cbn; naive_solver. Qed.

Lemma reject_err bad e e' : reject bad e = Err e' ↔ bad = true ∧ e = e'.
Proof. destruct bad; cbn; naive_solver. Qed.

Lemma wrap_ok {A} c (m : result A) a : wrap c m = Ok a ↔ m = Ok a.
Proof. destruct m; cbn; naive_solver. Qed.

Lemma is_ok_true {A} (m : result A) : is_ok m = true ↔ ∃ a, m = Ok a.
Proof. destruct m; cbn; naive_solver. Qed.

Lemma ok_unit (m : result unit) u : m = Ok u ↔ m = Ok ().
Proof. by destruct u. Qed.

(** Turns the hypothesis [H : m = Ok _] on a chain of guards into the facts the
    guards establish. *)
Ltac ok_fact a Hm :=
  lazymatch type of Hm with
  | reject _ _ = Ok _ => apply reject_ok in Hm; try clear a
  | wrap _ _ = Ok _ => apply wrap_ok in Hm
  | _ => idtac
  end.
Ltac ok_step H :=
  lazymatch type of H with
  | mbind _ _ = Ok _ =>
      let a := fresh "a" in let Hm := fresh "G" in
      apply bind_ok in H; destruct H as [a [Hm H]]; cbn beta in H; ok_fact a Hm
  | reject _ _ = Ok _ => apply reject_ok in H
  | wrap _ _ = Ok _ => apply wrap_ok in H
  end.
Ltac ok_inv H := repeat (ok_step H).

(** The results of checks carry no information. *)
Ltac units := repeat match goal with u : unit |- _ => destruct u end.

(** Boolean tests of the code as propositions. *)
Ltac bool_facts :=
  repeat match goal with
  | H : context [negb (negb ?b)] |- _ => rewrite (negb_involutive b) in H
  | H : negb _ = false |- _ => apply negb_false_iff in H
  | H : negb _ = true |- _ => apply negb_true_iff in H
  | H : (_ || _) = false |- _ => apply orb_false_iff in H; destruct H
  | H : (_ && _) = true |- _ => apply andb_true_iff in H; destruct H
  | H : bool_decide _ = true |- _ => apply bool_decide_eq_true in H
  | H : bool_decide _ = false |- _ => apply bool_decide_eq_false in H
  | H : (_ =? _)%Z = true |- _ => apply Z.eqb_eq in H
  | H : (_ =? _)%Z = false |- _ => apply Z.eqb_neq in H
  | H : (_ <? _)%Z = true |- _ => apply Z.ltb_lt in H
  | H : (_ <? _)%Z = false |- _ => apply Z.ltb_ge in H
  | H : (_ <=? _)%Z = true |- _ => apply Z.leb_le in H
  | H : (_ <=? _)%Z = false |- _ => apply Z.leb_gt in H
  | H : (_ =? _)%N = true |- _ => apply N.eqb_eq in H
  | H : (_ =? _)%N = false |- _ => apply N.eqb_neq in H
  | H : (_ <? _)%N = true |- _ => apply N.ltb_lt in H
  | H : (_ <? _)%N = false |- _ => apply N.ltb_ge in H
  | H : (_ <=? _)%N = true |- _ => apply N.leb_le in H
  | H : (_ <=? _)%N = false |- _ => apply N.leb_gt in H
  end.

(** Splits a conjunction and closes the arithmetic and immediate parts. *)
Ltac ands := split_and?; try done; try lia.

Lemma range_loop_app {A S} (body : nat → A → S → result S) i xs ys s :
  range_loop body i (xs ++ ys) s = range_loop body i xs s ≫= range_loop body (i + length xs) ys.
Proof.
  revert i s. induction xs as [|x xs IH]; intros i s; cbn; [by rewrite Nat.add_0_r|].
  destruct (body i x s) as [s'|]; cbn; [|done]. by rewrite IH Nat.add_succ_comm.
Qed.

(** ** Loops

    A loop invariant is a relation between the consumed prefix and the local
    variables. *)
Section loops.
Context {A S : Type} (body : nat → A → S → result S).

Lemma range_loop_inv (P : list A → S → Prop) pre xs s0 s :
  (∀ p x q s s', pre ++ xs = p ++ x :: q → P p s → body (length p) x s = Ok s' → P (p ++ [x]) s') →
  P pre s0 →
  range_loop body (length pre) xs s0 = Ok s →
  P (pre ++ xs) s.
Proof.
  revert pre s0. induction xs as [|x xs IH]; intros pre s0 Hstep H0 Hl; cbn in Hl.
  - rewrite app_nil_r. by injection Hl as <-.
  - apply bind_ok in Hl as (s' & Hb & Hl).
    rewrite cons_middle app_assoc. apply (IH _ s').
    + intros p y q t t' Heq. apply (Hstep p y q). rewrite -Heq -app_assoc //.
    + exact (Hstep pre x xs s0 s' eq_refl H0 Hb).
    + rewrite length_app /= Nat.add_1_r //.
Qed.

Lemma range_inv (P : list A → S → Prop) xs s0 s :
  (∀ p x q s s', xs = p ++ x :: q → P p s → body (length p) x s = Ok s' → P (p ++ [x]) s') →
  P [] s0 → range body xs s0 = Ok s → P xs s.
Proof. intros Hs H0 Hr. by apply (range_loop_inv P [] xs s0 s). Qed.

(** A body that succeeds under the invariant makes the loop succeed. *)
Lemma range_loop_total (P : list A → S → Prop) pre xs s0 :
  (∀ p x q s, pre ++ xs = p ++ x :: q → P p s → ∃ s', body (length p) x s = Ok s' ∧ P (p ++ [x]) s') →
  P pre s0 → ∃ s, range_loop body (length pre) xs s0 = Ok s ∧ P (pre ++ xs) s.
Proof.
  revert pre s0. induction xs as [|x xs IH]; intros pre s0 Hstep H0; cbn.
  - exists s0. by rewrite app_nil_r.
  - destruct (Hstep pre x xs s0 eq_refl H0) as (s' & -> & Hs'). cbn.
    destruct (IH (pre ++ [x]) s') as (s & Hl & HP).
    + intros p y q t. rewrite -app_assoc. apply (Hstep p y q).
    + done.
    + exists s. rewrite -app_assoc in HP. split; [|done].
      rewrite length_app /= Nat.add_1_r in Hl. done.
Qed.

Lemma range_total (P : list A → S → Prop) xs s0 :
  (∀ p x q s, xs = p ++ x :: q → P p s → ∃ s', body (length p) x s = Ok s' ∧ P (p ++ [x]) s') →
  P [] s0 → ∃ s, range body xs s0 = Ok s ∧ P xs s.
Proof. intros Hs H0. by apply (range_loop_total P [] xs s0). Qed.
End loops.

Lemma range_check_ok {A} (body : nat → A → result unit) xs u :
  range_check body xs = Ok u ↔ ∀ i x, xs !! i = Some x → body i x = Ok ().
Proof.
  destruct u. unfold range_check. split.
  - intros H.
    refine (range_inv _ (λ p (_ : ()), ∀ i x, p !! i = Some x → body i x = Ok ()) xs () () _ _ H); [|done].
    intros p x q [] [] _ IH Hb i y Hy.
    apply lookup_app_Some in Hy as [Hy|[Hle Hy]]; [by apply IH|].
    apply list_lookup_singleton_Some in Hy as [Hi <-].
    by replace i with (length p) by lia.
  - intros H. destruct (range_total (λ i x (_ : ()), body i x) (λ _ _, True) xs ()) as ([] & Hr & _); [|done|done].
    intros p x q [] -> _. exists (). split; [|done]. apply H.
    by rewrite lookup_app_r // Nat.sub_diag.
Qed.

(** ** Programs with a single error *)

(** When it fails, it fails with [e]. *)
Definition only_err {A} (e : error) (m : result A) : Prop := match m with Ok _ => True | Err e' => e' = e end.

Create HintDb errs.

Section only_err.
Context (e : error).

Lemma only_err_ok {A} (a : A) : only_err e (Ok a).
Proof. done. Qed.
Lemma only_err_err {A} : only_err e (Err e : result A).
Proof. done. Qed.
Lemma only_err_reject b : only_err e (reject b e).
Proof. by destruct b. Qed.
Lemma only_err_bind {A B} (m : result A) (f : A → result B) : only_err e m → (∀ a, only_err e (f a)) → only_err e (m ≫= f).
Proof. destruct m as [a|]; cbn; [intros _ H; apply H|done]. Qed.
Lemma only_err_range {A S} (body : nat → A → S → result S) xs s :
  (∀ i x t, only_err e (body i x t)) → only_err e (range body xs s).
Proof.
  intros H. unfold range. generalize 0. revert s. induction xs as [|x xs IH]; intros s i; cbn; [done|]. apply only_err_bind; auto.
Qed.
Lemma only_err_range_check {A} (body : nat → A → result unit) xs :
  (∀ i x, only_err e (body i x)) → only_err e (range_check body xs).
Proof. intros H. apply only_err_range. auto. Qed.
End only_err.

#[export] Hint Resolve only_err_ok only_err_err only_err_reject only_err_bind only_err_range only_err_range_check : errs.

(** Two programs with the same successes and the same single error are equal. *)
Lemma only_err_ext {A} e (m n : result A) : only_err e m → only_err e n → (∀ a, m = Ok a ↔ n = Ok a) → m = n.
Proof.
  destruct m as [a|e1], n as [b|e2]; cbn; intros Hm Hn H.
  - symmetry. by apply H.
  - by discriminate (proj1 (H a) eq_refl).
  - by discriminate (proj2 (H b) eq_refl).
  - congruence.
Qed.

(** ** Slices

    A Go slice may be [nil]; the validators tell [nil] from empty. *)
Definition slice (A : Type) : Type := option (list A).
Definition items {A} (s : slice A) : list A := default [] s.
Definition is_nil {A} (s : slice A) : bool := match s with None => true | Some _ => false end.
(** [append(s, xs...)]: appending nothing to a nil slice stays nil. *)
Definition append {A} (s : slice A) (xs : list A) : slice A :=
  match s, xs with
  | None, [] => None
  | _, _ => Some (items s ++ xs)
  end.

Lemma items_append {A} (s : slice A) xs : items (append s xs) = items s ++ xs.
Proof. destruct s, xs; cbn; rewrite ?app_nil_r //. Qed.

(** ** Machine integers *)
Definition max_uint64 : N := 18446744073709551615.
Definition is_uint64 (n : N) : Prop := (n ≤ max_uint64)%N.
Definition max_int64 : Z := 9223372036854775807.
Definition min_int64 : Z := -9223372036854775808.
