(* ===== verification/GoTime.v ===== *)
(** * Go's [time] package, as vpnctl uses it

    A [time.Time] is an instant, counted in nanoseconds from the zero time
    (January 1, year 1, 00:00:00 UTC), and a location.  Monotonic clock readings
    are not modelled: every time vpnctl stores has been through [UTC()], [Truncate]
    or JSON, which drop them. *)

From S2P Require Import Prelude.

Local Open Scope Z_scope.

Inductive location :=
  | UTC
  | Zone (offset : Z).     (** another location, with the offset it has at the instant *)

#[export] Instance location_eq_dec : EqDecision location.
Proof. solve_decision. Defined.

Record time := Time { instant : Z; loc : location }.

#[export] Instance time_eq_dec : EqDecision time.
Proof. solve_decision. Defined.

(** [time.Duration], in nanoseconds. *)
Definition nanosecond : Z := 1.
Definition millisecond : Z := 1000000.
Definition second : Z := 1000000000.
Definition minute : Z := 60 * second.
Definition hour : Z := 60 * minute.

Definition zero_time : time := Time 0 UTC.
Definition IsZero (t : time) : bool := instant t =? 0.
Definition Before (t u : time) : bool := instant t <? instant u.
Definition After (t u : time) : bool := instant u <? instant t.
Definition Equal (t u : time) : bool := instant t =? instant u.
Definition Add (t : time) (d : Z) : time := Time (instant t + d) (loc t).
(** [Sub] saturates at the bounds of an [int64]. *)
Definition Sub (t u : time) : Z := Z.max min_int64 (Z.min max_int64 (instant t - instant u)).
Definition Nanosecond (t : time) : Z := instant t mod second.
Definition zone_offset (t : time) : Z := match loc t with UTC => 0 | Zone o => o end.
Definition in_utc (t : time) : bool := match loc t with UTC => true | Zone _ => false end.
Definition to_utc (t : time) : time := Time (instant t) UTC.
(** [t.Truncate(d)] rounds down to a multiple of [d] since the zero time. *)
Definition Truncate (t : time) (d : Z) : time := Time (instant t - instant t mod d) (loc t).

Lemma before_irrefl t : Before t t = false.
Proof. unfold Before. lia. Qed.

Lemma not_before t u : Before t u = false ↔ instant u ≤ instant t.
Proof. unfold Before. lia. Qed.

Lemma truncate_second_nanosecond t : Nanosecond (Truncate t second) = 0.
Proof.
  unfold Nanosecond, Truncate; cbn.
  rewrite -Zminus_mod_idemp_l Z.sub_diag //.
Qed.

Ltac time_facts := unfold Before, After, Equal, IsZero, Add, Nanosecond in *; cbn [instant loc] in *; bool_facts.
