(* ===== verification/Proc.v ===== *)
(** * Programs that call out

    The coordinators of [internal/operations] run against stores, adapters and a
    clock they do not control.  A program is a function of the outside world that
    also logs the calls it makes, so that a theorem can speak about the order of
    calls; [wp] is the verification-condition generator for such programs. *)

From S2P Require Import Prelude GoTime.

Local Open Scope list_scope.

(** [W] is the outside world, [E] the type of logged calls. *)
Definition proc (W E A : Type) : Type := W → A * list E * W.

#[export] Instance proc_ret {W E} : MRet (proc W E) := λ A a w, (a, [], w).
#[export] Instance proc_bind {W E} : MBind (proc W E) := λ A B f m w,
  let '(a, es, w1) := m w in
  let '(b, es', w2) := f a w1 in
  (b, es ++ es', w2).

(** One call, logged with its outcome. *)
Definition call {W E A} (f : W → A * W) (log : A → list E) : proc W E A := λ w,
  let '(a, w') := f w in (a, log a, w').

(** The postcondition [Q] holds of the outcome, the calls and the final world. *)
Definition wp {W E A} (m : proc W E A) (w : W) (Q : A → list E → W → Prop) : Prop :=
  let '(a, es, w') := m w in Q a es w'.

Section wp_rules.
Context {W E : Type}.

Lemma wp_ret {A} (a : A) (w : W) (Q : A → list E → W → Prop) : Q a [] w → wp (mret a) w Q.
Proof. done. Qed.

Lemma wp_bind {A B} (m : proc W E A) (f : A → proc W E B) w Q :
  wp m w (λ a es w1, wp (f a) w1 (λ b es' w2, Q b (es ++ es') w2)) → wp (m ≫= f) w Q.
Proof.
  unfold wp, mbind, proc_bind. destruct (m w) as [[a es] w1].
  by destruct (f a w1) as [[b es'] w2].
Qed.

Lemma wp_call {A} (f : W → A * W) (log : A → list E) w Q :
  (∀ a w', f w = (a, w') → Q a (log a) w') → wp (call f log) w Q.
Proof. unfold wp, call. destruct (f w) as [a w']. intros H. by apply H. Qed.

Lemma wp_mono {A} (m : proc W E A) w (Q Q' : A → list E → W → Prop) :
  wp m w Q → (∀ a es w', Q a es w' → Q' a es w') → wp m w Q'.
Proof. unfold wp. destruct (m w) as [[a es] w']. auto. Qed.

Lemma wp_run {A} (m : proc W E A) w Q a es w' : wp m w Q → m w = (a, es, w') → Q a es w'.
Proof. unfold wp. intros H Heq. by rewrite Heq in H. Qed.

Lemma wp_intro {A} (m : proc W E A) w (Q : A → list E → W → Prop) :
  (∀ a es w', m w = (a, es, w') → Q a es w') → wp m w Q.
Proof. unfold wp. destruct (m w) as [[a es] w']. auto. Qed.
End wp_rules.

(** Peels the leading operation of the program in the goal. *)
Ltac wp_step :=
  lazymatch goal with
  | |- wp (mbind _ _) _ _ => apply wp_bind
  | |- wp (mret _) _ _ => apply wp_ret
  | |- wp (call _ _) _ _ => apply wp_call; intros ? ? ?
  end.

(** ** Bounds and errors of calls *)

(** The context of a call: the caller's with a timeout or a deadline, or a fresh one
    ([context.Background]) with a timeout, which the caller cannot cancel. *)
Inductive call_bound := WithTimeout (limit : Z) | WithDeadline (at_ : time) | Detached (limit : Z).

Definition minimumLocalTransactionTimeout : Z := 10 * millisecond.
Definition maximumLocalTransactionTimeout : Z := 5 * minute.

(** [errors.Join(first, rest...)] where the entries of [rest] may be nil. *)
Definition errors_join (first : error) (rest : list (option error)) : error :=
  foldr (λ e acc, match e with Some e' => Join acc e' | None => acc end) first (rev rest).

Definition error_of {A} (m : result A) : option error := match m with Ok _ => None | Err e => Some e end.

Lemma errors_join_is first rest s : errors_is first s = true → errors_is (errors_join first rest) s = true.
Proof.
  unfold errors_join. intros H. induction (rev rest) as [|[e|] l IH]; cbn; [done|by rewrite IH|done].
Qed.

(** ** Early returns

    [if err != nil { return err }] after a call: the rest runs on success only. *)
Definition attempt {W E A B} (m : proc W E (result A)) (f : A → proc W E (result B)) : proc W E (result B) :=
  r ← m; match r with Ok a => f a | Err e => mret (Err e) end.

Lemma wp_attempt {W E A B} (m : proc W E (result A)) (f : A → proc W E (result B)) w (Q : result B → list E → W → Prop) :
  wp m w (λ r es w1, match r with Ok a => wp (f a) w1 (λ b es' w2, Q b (es ++ es') w2) | Err e => Q (Err e) es w1 end) →
  wp (attempt m f) w Q.
Proof.
  intros H. unfold attempt. apply wp_bind. eapply wp_mono; [exact H|]. intros [a|e] es w1 Hr; [done|]. apply wp_ret. by rewrite app_nil_r.
Qed.

Declare Scope proc_scope.
Delimit Scope proc_scope with proc.
Notation "x ←? m ; k" := (attempt m (λ x, k)) (at level 20, m at level 100, k at level 200, right associativity) : proc_scope.
Notation "' x ←? m ; k" := (attempt m (λ x : _, k)) (at level 20, x pattern, m at level 100, k at level 200, right associativity) : proc_scope.

(** ** Programs that run another program

    The calls of the inner program appear in the log of the outer one, tagged. *)
Definition tagged {W E E' A} (f : E → E') (m : proc W E A) : proc W E' A := λ w,
  let '(a, es, w') := m w in (a, f <$> es, w').

Lemma wp_tagged {W E E' A} (f : E → E') (m : proc W E A) w (Q : A → list E' → W → Prop) :
  wp m w (λ a es w', Q a (f <$> es) w') → wp (tagged f m) w Q.
Proof. unfold wp, tagged. by destruct (m w) as [[a es] w']. Qed.
