(* ===== verification/GoText.v ===== *)
(** * Go strings, the [strings] package and regular expressions

    A Go string is a byte sequence, modelled by [string] (a list of 8-bit
    [ascii]).  The regular expressions of the code are written as terms of [re]
    and decided by Brzozowski derivatives; [matches_lang] relates the matcher to
    the language of the expression. *)

From S2P Require Import Prelude.
From stdpp Require Import pretty.
From Stdlib Require Export Ascii.
From Stdlib Require Import OrdersEx.

Local Open Scope string_scope.

(** ** The [strings] package *)

Definition code (c : Ascii.ascii) : N := Ascii.N_of_ascii c.
Definition byte (n : N) : Ascii.ascii := Ascii.ascii_of_N n.

(** [s < t] on Go strings is bytewise lexicographic. *)
Definition str_lt (s t : string) : Prop := String.compare s t = Lt.
Definition str_ltb (s t : string) : bool :=
  match String.compare s t with Lt => true | _ => false end.
Definition str_leb (s t : string) : bool :=
  match String.compare s t with Gt => false | _ => true end.

Definition HasPrefix (s p : string) : bool := String.prefix p s.

Fixpoint HasSuffix (s p : string) : bool :=
  String.eqb s p || match s with EmptyString => false | String _ s' => HasSuffix s' p end.

Fixpoint str_forall (f : Ascii.ascii → bool) (s : string) : bool :=
  match s with EmptyString => true | String c s' => f c && str_forall f s' end.

Fixpoint str_exists (f : Ascii.ascii → bool) (s : string) : bool :=
  match s with EmptyString => false | String c s' => f c || str_exists f s' end.

Definition in_chars (chars : string) (c : Ascii.ascii) : bool := str_exists (Ascii.eqb c) chars.

(** [strings.ContainsAny(s, chars)] for ASCII [chars]. *)
Definition ContainsAny (s chars : string) : bool := str_exists (in_chars chars) s.

Fixpoint Contains (s sub : string) : bool :=
  HasPrefix s sub || match s with EmptyString => false | String _ s' => Contains s' sub end.

Definition lower_char (c : Ascii.ascii) : Ascii.ascii :=
  if ((65 <=? code c) && (code c <=? 90))%N then byte (code c + 32) else c.

(** [strings.ToLower] on ASCII text.  The code applies it to names that match an
    ASCII pattern, and to domains, where a non-ASCII byte is rejected whether or
    not it has a lower-case form. *)
Fixpoint ToLower (s : string) : string :=
  match s with EmptyString => "" | String c s' => String (lower_char c) (ToLower s') end.

(** [strings.Split(s, sep)] for a one-byte separator. *)
Fixpoint Split (s : string) (sep : Ascii.ascii) : list string :=
  match s with
  | EmptyString => [""]
  | String c s' =>
      if Ascii.eqb c sep then "" :: Split s' sep
      else match Split s' sep with
           | [] => [String c ""]
           | x :: xs => String c x :: xs
           end
  end.

(** [strings.Cut(s, sep)] for a one-byte separator: the text before and after the
    first separator, [None] when there is none. *)
Fixpoint Cut (s : string) (sep : Ascii.ascii) : option (string * string) :=
  match s with
  | EmptyString => None
  | String c s' =>
      if Ascii.eqb c sep then Some ("", s')
      else '(a, b) ← Cut s' sep; Some (String c a, b)
  end.

(** The text before and after the last separator ([strings.LastIndex]). *)
Fixpoint CutLast (s : string) (sep : Ascii.ascii) : option (string * string) :=
  match s with
  | EmptyString => None
  | String c s' =>
      match CutLast s' sep with
      | Some (a, b) => Some (String c a, b)
      | None => if Ascii.eqb c sep then Some ("", s') else None
      end
  end.

Fixpoint last_char (s : string) : option Ascii.ascii :=
  match s with
  | EmptyString => None
  | String c EmptyString => Some c
  | String _ s' => last_char s'
  end.

Definition head_char (s : string) : option Ascii.ascii :=
  match s with EmptyString => None | String c _ => Some c end.

(** The decimal representation of a natural number ([strconv.Itoa], [%d]). *)
Definition itoa (n : N) : string := pretty n.

Definition is_digit (c : Ascii.ascii) : bool := ((48 <=? code c) && (code c <=? 57))%N.
Definition digit_value (c : Ascii.ascii) : N := (code c - 48)%N.

Fixpoint digits_value (acc : N) (s : string) : option N :=
  match s with
  | EmptyString => Some acc
  | String c s' => if is_digit c then digits_value (acc * 10 + digit_value c) s' else None
  end.

(** [strconv.Atoi]: an optional sign, then at least one digit, within [int64]. *)
Definition Atoi (s : string) : option Z :=
  let '(neg, ds) :=
    match s with
    | String "+"%char ds => (false, ds)
    | String "-"%char ds => (true, ds)
    | _ => (false, s)
    end in
  if String.eqb ds "" then None
  else n ← digits_value 0 ds;
       let z := if neg : bool then (- Z.of_N n)%Z else Z.of_N n in
       if ((min_int64 <=? z) && (z <=? max_int64))%Z then Some z else None.

(** ** Regular expressions *)

Inductive re :=
  | Empty
  | Eps
  | Class (f : Ascii.ascii → bool)
  | Cat (r s : re)
  | Alt (r s : re)
  | Star (r : re).

(** Smart constructors keep derivatives small. *)
Definition cat (r s : re) : re :=
  match r with Empty => Empty | Eps => s | _ => match s with Empty => Empty | _ => Cat r s end end.
Definition alt (r s : re) : re :=
  match r with Empty => s | _ => match s with Empty => r | _ => Alt r s end end.

Fixpoint nullable (r : re) : bool :=
  match r with
  | Empty | Class _ => false
  | Eps | Star _ => true
  | Cat r s => nullable r && nullable s
  | Alt r s => nullable r || nullable s
  end.

Fixpoint deriv (c : Ascii.ascii) (r : re) : re :=
  match r with
  | Empty | Eps => Empty
  | Class f => if f c then Eps else Empty
  | Cat r s =>
      let d := cat (deriv c r) s in
      if nullable r then alt d (deriv c s) else d
  | Alt r s => alt (deriv c r) (deriv c s)
  | Star r => cat (deriv c r) (Star r)
  end.

(** [regexp.MatchString] for a pattern anchored at both ends. *)
Fixpoint matches (r : re) (s : string) : bool :=
  match s with
  | EmptyString => nullable r
  | String c s' => matches (deriv c r) s'
  end.

Definition chr (c : Ascii.ascii) : re := Class (Ascii.eqb c).
Fixpoint lit (s : string) : re :=
  match s with EmptyString => Eps | String c s' => Cat (chr c) (lit s') end.
(** [r{n}], [r{0,n}] and [r{m,m+n}] *)
Fixpoint times (r : re) (n : nat) : re := match n with O => Eps | S n => Cat r (times r n) end.
Fixpoint upto (r : re) (n : nat) : re := match n with O => Eps | S n => Alt Eps (Cat r (upto r n)) end.
Definition opt (r : re) : re := Alt Eps r.
Definition plus (r : re) : re := Cat r (Star r).

Definition between (a b : Ascii.ascii) (c : Ascii.ascii) : bool := ((code a <=? code c) && (code c <=? code b))%N.
Definition lower_alpha : Ascii.ascii → bool := between "a"%char "z"%char.
Definition upper_alpha : Ascii.ascii → bool := between "A"%char "Z"%char.
Definition hex_lower (c : Ascii.ascii) : bool := is_digit c || between "a"%char "f"%char c.

(** The language of an expression. *)
Inductive lang : re → string → Prop :=
  | lang_eps : lang Eps ""
  | lang_class f c : f c = true → lang (Class f) (String c "")
  | lang_cat r s u v : lang r u → lang s v → lang (Cat r s) (u +:+ v)
  | lang_alt_l r s u : lang r u → lang (Alt r s) u
  | lang_alt_r r s u : lang s u → lang (Alt r s) u
  | lang_star_nil r : lang (Star r) ""
  | lang_star r u v : lang r u → lang (Star r) v → lang (Star r) (u +:+ v).

Create HintDb regexp.
#[export] Hint Constructors lang : regexp.

Lemma str_app_cons c (s t : string) : String c s +:+ t = String c (s +:+ t).
Proof. done. Qed.

Lemma str_app_nil_l (s : string) : "" +:+ s = s.
Proof. done. Qed.

Lemma str_app_nil_r (s : string) : s +:+ "" = s.
Proof. induction s as [|c s IH]; [done|]. by rewrite str_app_cons IH. Qed.

Lemma str_app_assoc (a b c : string) : (a +:+ b) +:+ c = a +:+ (b +:+ c).
Proof. induction a as [|x a IH]; [done|]. by rewrite !str_app_cons IH. Qed.

Lemma lang_cat_inv r s u : lang (Cat r s) u → ∃ v w, u = v +:+ w ∧ lang r v ∧ lang s w.
Proof. inversion 1; subst; eauto 6. Qed.

Lemma nullable_lang r : nullable r = true ↔ lang r "".
Proof.
  split.
  - induction r as [| | |r IHr s IHs|r IHr s IHs|r IHr]; cbn; intros H; try discriminate; eauto with regexp.
    + apply andb_true_iff in H as [H1 H2]. change "" with ("" +:+ ""). eauto with regexp.
    + apply orb_true_iff in H as [H|H]; eauto with regexp.
  - intros H. remember "" as e eqn:He.
    induction H as [|f c Hc|r s u v H1 IH1 H2 IH2|r s u H IH|r s u H IH|r|r u v H1 IH1 H2 IH2]; cbn; try done.
    + destruct u; [|discriminate]. destruct v; [|discriminate]. rewrite IH1 // IH2 //.
    + by rewrite IH.
    + by rewrite IH // orb_true_r.
Qed.

Lemma lang_cat_smart r s u : lang (cat r s) u ↔ lang (Cat r s) u.
Proof.
  unfold cat. split.
  - destruct r as [| |f|a b|a b|a]; [by inversion 1| |destruct s; first [done|by inversion 1]..].
    intros H. change u with ("" +:+ u). eauto with regexp.
  - intros H. inversion H as [| |r' s' v w H1 H2 Heq| | | |]; subst.
    destruct r; inversion H1; subst; cbn; destruct s; try (by inversion H2); eauto with regexp.
Qed.

Lemma lang_alt_smart r s u : lang (alt r s) u ↔ lang (Alt r s) u.
Proof.
  unfold alt. split.
  - destruct r; destruct s; intros H; eauto with regexp.
  - intros H. inversion H; subst; destruct r; destruct s; try done; try (by inversion H3); eauto with regexp.
Qed.

Lemma deriv_lang c r u : lang (deriv c r) u ↔ lang r (String c u).
Proof.
  revert u. induction r as [| |f|r IHr s IHs|r IHr s IHs|r IHr]; intros u; cbn.
  - split; inversion 1.
  - split; inversion 1.
  - destruct (f c) eqn:Hf; split; inversion 1; subst; eauto with regexp; congruence.
  - assert (Hcat : lang (cat (deriv c r) s) u ↔ ∃ v w, u = v +:+ w ∧ lang r (String c v) ∧ lang s w).
    { rewrite lang_cat_smart. split.
      - inversion 1; subst. do 2 eexists. split_and!; [done|by apply IHr|done].
      - intros (v & w & -> & H1 & H2). apply IHr in H1. eauto with regexp. }
    assert (Hinv : lang (Cat r s) (String c u) ↔
      (∃ v w, u = v +:+ w ∧ lang r (String c v) ∧ lang s w) ∨ (lang r "" ∧ lang s (String c u))).
    { split.
      - intros (v & w & Heq & H1 & H2)%lang_cat_inv.
        destruct v as [|c' v]; [right; by rewrite str_app_nil_l in Heq; subst|].
        rewrite str_app_cons in Heq. simplify_eq. left. eauto 6.
      - intros [(v & w & -> & H1 & H2)|[H1 H2]].
        + change (String c (v +:+ w)) with (String c v +:+ w). eauto with regexp.
        + change (String c u) with ("" +:+ String c u). eauto with regexp. }
    destruct (nullable r) eqn:Hn.
    + rewrite lang_alt_smart Hinv. apply nullable_lang in Hn. split.
      * inversion 1; subst; [left; by apply Hcat|right; split; [done|by apply IHs]].
      * intros [H|[_ H]]; [apply lang_alt_l; by apply Hcat|apply lang_alt_r; by apply IHs].
    + rewrite Hcat Hinv. split; [by left|]. intros [H|[H _]]; [done|].
      apply nullable_lang in H. congruence.
  - rewrite lang_alt_smart. split.
    + inversion 1; subst; [apply lang_alt_l; by apply IHr|apply lang_alt_r; by apply IHs].
    + inversion 1; subst; [apply lang_alt_l; by apply IHr|apply lang_alt_r; by apply IHs].
  - rewrite lang_cat_smart. split.
    + intros (v & w & -> & H1%IHr & H2)%lang_cat_inv.
      change (String c (v +:+ w)) with (String c v +:+ w). eauto with regexp.
    + intros H. remember (Star r) as t eqn:Ht. remember (String c u) as x eqn:Hx. revert u Hx.
      induction H as [| | | | | |r' v w H1 _ H2 IH2]; intros t' Hx; simplify_eq.
      destruct v as [|c' v]; [by apply IH2|]. rewrite str_app_cons in Hx. simplify_eq.
      apply IHr in H1. eauto with regexp.
Qed.

(** The matcher decides the language. *)
Theorem matches_lang r s : matches r s = true ↔ lang r s.
Proof.
  revert r. induction s as [|c s IH]; intros r; cbn.
  - apply nullable_lang.
  - rewrite IH. apply deriv_lang.
Qed.

(** ** The order of Go strings *)

Definition str_le (s t : string) : Prop := str_leb s t = true.

#[export] Instance str_le_dec : RelDecision str_le.
Proof. intros s t. unfold str_le. apply _. Defined.

#[export] Instance str_lt_strict : StrictOrder str_lt.
Proof. apply String_as_OT.lt_strorder. Qed.

Lemma str_lt_irrefl s : ¬ str_lt s s.
Proof. apply (irreflexivity str_lt). Qed.

Lemma str_trichotomy s t : s = t ∨ str_lt s t ∨ str_lt t s.
Proof. destruct (String_as_OT.compare_spec s t); auto. Qed.

Lemma str_compare_eq s : String.compare s s = Eq.
Proof.
  destruct (String.compare s s) eqn:E; [done| |].
  - by apply str_lt_irrefl in E.
  - rewrite String.compare_antisym in E. destruct (String.compare s s) eqn:E'; try done.
    by apply str_lt_irrefl in E'.
Qed.

Lemma str_leb_spec s t : str_leb s t = true ↔ s = t ∨ str_lt s t.
Proof.
  unfold str_leb. split.
  - destruct (String.compare s t) eqn:E; [left; by apply String.compare_eq_iff|by right|done].
  - intros [->|H]; [by rewrite str_compare_eq|by rewrite H].
Qed.

Lemma str_ltb_spec s t : str_ltb s t = true ↔ str_lt s t.
Proof. unfold str_ltb, str_lt. destruct (String.compare s t); naive_solver. Qed.

Lemma str_leb_false s t : str_leb s t = false ↔ str_lt t s.
Proof.
  rewrite -not_true_iff_false str_leb_spec.
  destruct (str_trichotomy s t) as [->|[H|H]].
  - split; [naive_solver|]. intros []%str_lt_irrefl.
  - split; [naive_solver|]. intros H'. destruct (str_lt_irrefl s). by etrans.
  - split; [done|]. intros _ [->|H']; [by apply (str_lt_irrefl t)|]. destruct (str_lt_irrefl s). by etrans.
Qed.

#[export] Instance str_le_trans : Transitive str_le.
Proof.
  intros a b c Hab%str_leb_spec Hbc%str_leb_spec. apply str_leb_spec.
  destruct Hab as [->|Hab]; [done|]. destruct Hbc as [->|Hbc]; [by right|]. right. by etrans.
Qed.

#[export] Instance str_le_total : Total str_le.
Proof.
  intros a b. unfold str_le. rewrite !str_leb_spec. destruct (str_trichotomy a b) as [|[|]]; auto.
Qed.

#[export] Instance str_le_antisymm : AntiSymm (=) str_le.
Proof.
  intros a b Hab%str_leb_spec Hba%str_leb_spec.
  destruct Hab as [|Hab]; [done|]. destruct Hba as [|Hba]; [done|].
  destruct (str_lt_irrefl a). by etrans.
Qed.

(** ** Characters *)

(** Every character of the language of an expression has the property. *)
Fixpoint re_chars (p : ascii → bool) (r : re) : Prop :=
  match r with
  | Empty | Eps => True
  | Class f => ∀ c, f c = true → p c = true
  | Cat r s | Alt r s => re_chars p r ∧ re_chars p s
  | Star r => re_chars p r
  end.

Lemma str_forall_app p s t : str_forall p (s +:+ t) = str_forall p s && str_forall p t.
Proof. induction s as [|c s IH]; [done|]. rewrite str_app_cons. cbn. by rewrite IH andb_assoc. Qed.

Lemma lang_chars p r s : re_chars p r → lang r s → str_forall p s = true.
Proof.
  intros Hp H. induction H as [|f c Hc|r s u v _ IH1 _ IH2|r s u _ IH|r s u _ IH| |r u v _ IH1 _ IH2]; cbn in *.
  - done.
  - by rewrite (Hp c Hc).
  - destruct Hp. rewrite str_forall_app IH1 // IH2 //.
  - apply IH, Hp.
  - apply IH, Hp.
  - done.
  - rewrite str_forall_app IH1 // IH2 //.
Qed.

Lemma matches_chars p r s : re_chars p r → matches r s = true → str_forall p s = true.
Proof. rewrite matches_lang. apply lang_chars. Qed.

Lemma str_forall_impl (f g : ascii → bool) s : (∀ c, f c = true → g c = true) → str_forall f s = true → str_forall g s = true.
Proof. intros H. induction s as [|c s IH]; [done|]. cbn. rewrite !andb_true_iff. intros [Hc Hs]. auto. Qed.

Lemma str_forall_last f s c : str_forall f s = true → last_char s = Some c → f c = true.
Proof.
  induction s as [|d s IH]; cbn; [done|]. rewrite andb_true_iff. intros [Hd Hs]. destruct s; [by intros [= <-]|]. by apply IH.
Qed.

Lemma str_forall_not_exists f g s : (∀ c, f c = true → g c = false) → str_forall f s = true → str_exists g s = false.
Proof. intros H. induction s as [|c s IH]; [done|]. cbn. rewrite andb_true_iff orb_false_iff. intros [Hc Hs]. auto. Qed.

(** ** Numbers in text *)

Lemma pretty_char_digit x : (x < 10)%N → is_digit (pretty_N_char x) = true.
Proof. intros Hx. assert (Hall : Forall (λ n, is_digit (pretty_N_char (N.of_nat n)) = true) (seq 0 10)) by (by vm_compute; repeat constructor).
  rewrite Forall_forall in Hall. rewrite -(N2Nat.id x). apply Hall. apply elem_of_seq. lia.
Qed.

Lemma pretty_go_digits x s : str_forall is_digit s = true → str_forall is_digit (pretty_N_go x s) = true.
Proof.
  revert s. induction (N.lt_wf_0 x) as [x _ IH]; intros s Hs.
  destruct (decide (x = 0)%N) as [->|Hx]; [by rewrite pretty_N_go_0|]. rewrite pretty_N_go_step; [lia|].
  apply IH; [apply N.div_lt; lia|]. cbn. rewrite pretty_char_digit; [by apply N.mod_lt|done].
Qed.

Lemma pretty_go_length x s k : (x < 10 ^ N.of_nat k)%N → (String.length (pretty_N_go x s) ≤ k + String.length s)%nat.
Proof.
  revert x s. induction k as [|k IH]; intros x s Hx.
  - assert (x = 0)%N as -> by (change (10 ^ N.of_nat 0)%N with 1%N in Hx; lia). by rewrite pretty_N_go_0.
  - destruct (decide (x = 0)%N) as [->|Hne]; [rewrite pretty_N_go_0; lia|]. rewrite pretty_N_go_step; [lia|].
    specialize (IH (x `div` 10)%N (String (pretty_N_char (x `mod` 10)) s)). cbn [String.length] in IH.
    assert (Hd : (x `div` 10 < 10 ^ N.of_nat k)%N) by (apply N.Div0.div_lt_upper_bound; by rewrite -N.pow_succ_r' -Nat2N.inj_succ).
    specialize (IH Hd). lia.
Qed.

Lemma itoa_digits n : str_forall is_digit (itoa n) = true.
Proof. unfold itoa, pretty, pretty_N. case_decide; [done|]. by apply pretty_go_digits. Qed.

Lemma itoa_length n k : (0 < k)%nat → (n < 10 ^ N.of_nat k)%N → (String.length (itoa n) ≤ k)%nat.
Proof.
  intros Hk Hn. unfold itoa, pretty, pretty_N. case_decide; [cbn; lia|]. pose proof (pretty_go_length n "" k Hn) as H'. cbn [String.length] in H'. lia.
Qed.

(** Printing and reading a number. *)
Lemma digits_value_pretty x s : digits_value 0 (pretty_N_go x s) = digits_value x s.
Proof.
  revert s. induction (N.lt_wf_0 x) as [x _ IH]; intros s.
  destruct (decide (x = 0)%N) as [->|Hx]; [by rewrite pretty_N_go_0|]. rewrite pretty_N_go_step; [lia|].
  rewrite IH; [apply N.div_lt; lia|]. cbn [digits_value]. rewrite pretty_char_digit; [by apply N.mod_lt|]. f_equal.
  assert (Hd : digit_value (pretty_N_char (x `mod` 10)) = (x `mod` 10)%N).
  { pose proof (N.mod_lt x 10 ltac:(done)) as Hm. generalize dependent (x `mod` 10)%N. intros m Hm. destruct m as [|p]; [done|]. do 4 (try destruct p as [p|p|]); try done; lia. }
  rewrite Hd. pose proof (N.Div0.div_mod x 10). lia.
Qed.

Lemma digits_value_itoa n : digits_value 0 (itoa n) = Some n.
Proof. unfold itoa, pretty, pretty_N. case_decide; [by subst|]. by rewrite digits_value_pretty. Qed.

Lemma itoa_nonempty n : itoa n ≠ "".
Proof.
  intros H. pose proof (digits_value_itoa n) as Hd. rewrite H in Hd. cbn in Hd. assert (n = 0%N) as -> by congruence. done.
Qed.

Lemma itoa_inj n m : itoa n = itoa m → n = m.
Proof. intros H. pose proof (digits_value_itoa n) as Hn. rewrite H digits_value_itoa in Hn. congruence. Qed.
