(* ===== verification/GoNet.v ===== *)
(** * Go's network address and encoding packages, as vpnctl uses them

    [net/netip] addresses and prefixes (IPv4 and IPv6), [net.SplitHostPort],
    [net/url.Parse] and strict base64.  Addresses are their numeric value and
    width; the parsers follow the standard library's own scanning rules, so a
    theorem about acceptance is about the text an operator writes. *)

From S2P Require Import Prelude GoText.

Local Open Scope string_scope.
Local Open Scope list_scope.
Local Open Scope N_scope.

(** ** IPv4 text *)

(** One dotted field: no empty field, no leading zero, at most 255. *)
Definition parse_octet (s : string) : option N :=
  if String.eqb s "" then None
  else if (1 <? String.length s)%nat && bool_decide (head_char s = Some "0"%char) then None
  else v ← digits_value 0 s; if v <=? 255 then Some v else None.

Definition ipv4_of_octets (a b c d : N) : N := ((a * 256 + b) * 256 + c) * 256 + d.

(** [netip.parseIPv4] *)
Definition parse_ipv4 (s : string) : option N :=
  match Split s "."%char with
  | [fa; fb; fc; fd] =>
      a ← parse_octet fa; b ← parse_octet fb; c ← parse_octet fc; d ← parse_octet fd;
      Some (ipv4_of_octets a b c d)
  | _ => None
  end.

Definition octet (n : N) (i : N) : N := (n / 256 ^ i) mod 256.

(** [Addr.String] of an IPv4 address *)
Definition print_ipv4 (n : N) : string :=
  itoa (octet n 3) +:+ "." +:+ itoa (octet n 2) +:+ "." +:+ itoa (octet n 1) +:+ "." +:+ itoa (octet n 0).

(** ** IPv6 text *)

Definition hex_value (c : ascii) : option N :=
  if is_digit c then Some (code c - 48)
  else if between "a"%char "f"%char c then Some (code c - 87)
  else if between "A"%char "F"%char c then Some (code c - 55)
  else None.

(** The hexadecimal digits at the front: their value, how many, and the rest. *)
Fixpoint take_hex (s : string) (acc : N) (off : nat) : N * nat * string :=
  match s with
  | EmptyString => (acc, off, "")
  | String c s' =>
      match hex_value c with
      | Some v => take_hex s' (acc * 16 + v) (S off)
      | None => (acc, off, s)
      end
  end.

(** The body of [netip.parseIPv6]: [groups] are the 16-bit fields read so far and
    [ellipsis] the position of the double colon.  [fuel] is the number of fields
    still missing. *)
Fixpoint ipv6_fields (fuel : nat) (s : string) (groups : list N) (ellipsis : option nat)
    : option (list N * option nat * string) :=
  match fuel with
  | O => Some (groups, ellipsis, s)
  | S fuel' =>
      let '(acc, off, rest) := take_hex s 0 0%nat in
      if bool_decide (off = 0%nat) || (4 <? off)%nat then None
      else if bool_decide (head_char rest = Some "."%char) then
        if (negb (bool_decide (is_Some ellipsis)) && negb (bool_decide (length groups = 6%nat)))
           || (6 <? length groups)%nat then None
        else v4 ← parse_ipv4 s; Some (groups ++ [v4 / 65536; v4 mod 65536], ellipsis, "")
      else
        let groups' := groups ++ [acc] in
        match rest with
        | EmptyString => Some (groups', ellipsis, "")
        | String c rest' =>
            if negb (Ascii.eqb c ":"%char) || String.eqb rest' "" then None
            else if bool_decide (head_char rest' = Some ":"%char) then
              match ellipsis, rest' with
              | None, String _ EmptyString => Some (groups', Some (length groups'), "")
              | None, String _ rest'' => ipv6_fields fuel' rest'' groups' (Some (length groups'))
              | _, _ => None
              end
            else ipv6_fields fuel' rest' groups' ellipsis
        end
  end.

Definition groups_value (gs : list N) : N := foldl (λ acc g, acc * 65536 + g) 0 gs.

(** [netip.parseIPv6]: the 128-bit value and the zone *)
Definition parse_ipv6 (s : string) : option (N * string) :=
  '(body, zone) ←
    match Cut s "%"%char with
    | Some (_, EmptyString) => None
    | Some (b, z) => Some (b, z)
    | None => Some (s, "")
    end;
  if String.eqb body "::" then Some (0, zone)
  else
    '(groups, ellipsis, rest) ←
      match body with
      | String ":"%char (String ":"%char b) => ipv6_fields 8 b [] (Some 0%nat)
      | _ => ipv6_fields 8 body [] None
      end;
    if negb (String.eqb rest "") then None
    else if (length groups <? 8)%nat then
      match ellipsis with
      | None => None
      | Some e => Some (groups_value (take e groups ++ replicate (8 - length groups) 0 ++ drop e groups), zone)
      end
    else match ellipsis with Some _ => None | None => Some (groups_value groups, zone) end.

Definition hex_digit (v : N) : ascii := if v <? 10 then byte (48 + v) else byte (87 + v).

(** A 16-bit group without leading zeros *)
Definition hex16 (g : N) : string :=
  let ds := [g / 4096; (g / 256) mod 16; (g / 16) mod 16; g mod 16] in
  let trimmed := match ds with
    | [a; b; c; d] =>
        if negb (a =? 0) then ds else if negb (b =? 0) then [b; c; d]
        else if negb (c =? 0) then [c; d] else [d]
    | _ => ds
    end in
  foldr (λ v s, String (hex_digit v) s) "" trimmed.

Definition group (n : N) (i : nat) : N := (n / 65536 ^ N.of_nat (7 - i)) mod 65536.

Fixpoint zero_run (n : N) (i : nat) (fuel : nat) : nat :=
  match fuel with
  | O => 0%nat
  | S f => if group n i =? 0 then S (zero_run n (S i) f) else 0%nat
  end.

(** The first longest run of at least two zero groups: its start and length *)
Definition longest_zero_run (n : N) : option (nat * nat) :=
  foldl (λ best i,
    let l := zero_run n i (8 - i) in
    let len := match best with Some (_, l') => l' | None => 0%nat end in
    if (2 <=? l)%nat && (len <? l)%nat then Some (i, l) else best) None (seq 0 8).

Fixpoint join_groups (n : N) (idx : list nat) : string :=
  match idx with
  | [] => ""
  | [i] => hex16 (group n i)
  | i :: idx' => hex16 (group n i) +:+ ":" +:+ join_groups n idx'
  end.

(** [Addr.String] of an IPv6 address; an IPv4-mapped one keeps the dotted form *)
Definition print_ipv6 (n : N) (zone : string) : string :=
  let suffix := if String.eqb zone "" then "" else "%" +:+ zone in
  if n / 4294967296 =? 65535 then "::ffff:" +:+ print_ipv4 (n mod 4294967296) +:+ suffix
  else
    match longest_zero_run n with
    | None => join_groups n (seq 0 8) +:+ suffix
    | Some (i, l) => join_groups n (seq 0 i) +:+ "::" +:+ join_groups n (seq (i + l) (8 - (i + l))) +:+ suffix
    end.

(** ** [netip.Addr] and [netip.Prefix] *)

Inductive addr :=
  | V4 (n : N)
  | V6 (n : N) (zone : string).

#[export] Instance addr_eq_dec : EqDecision addr.
Proof. solve_decision. Defined.

Fixpoint first_of (chars s : string) : option ascii :=
  match s with
  | EmptyString => None
  | String c s' => if in_chars chars c then Some c else first_of chars s'
  end.

Definition ParseAddr (s : string) : option addr :=
  match first_of ".:%" s with
  | Some "."%char => V4 <$> parse_ipv4 s
  | Some ":"%char => (λ p, V6 p.1 p.2) <$> parse_ipv6 s
  | _ => None
  end.

Definition addr_string (a : addr) : string :=
  match a with V4 n => print_ipv4 n | V6 n z => print_ipv6 n z end.
Definition Is4 (a : addr) : bool := match a with V4 _ => true | V6 _ _ => false end.
Definition addr_width (a : addr) : N := match a with V4 _ => 32 | V6 _ _ => 128 end.
Definition addr_value (a : addr) : N := match a with V4 n | V6 n _ => n end.
Definition has_zone (a : addr) : bool := match a with V4 _ => false | V6 _ z => negb (String.eqb z "") end.

(** [IsGlobalUnicast] and [IsLoopback] of an IPv4 address *)
Definition is_loopback4 (n : N) : bool := octet n 3 =? 127.
Definition is_global_unicast4 (n : N) : bool :=
  negb (n =? 0) && negb (n =? 4294967295) && negb (is_loopback4 n)
  && negb (N.land (octet n 3) 240 =? 224) && negb ((octet n 3 =? 169) && (octet n 2 =? 254)).

Record netprefix := Prefix { prefix_addr : addr; prefix_bits : N }.

#[export] Instance netprefix_eq_dec : EqDecision netprefix.
Proof. solve_decision. Defined.

(** [netip.ParsePrefix]: the bits carry no sign and no leading zero. *)
Definition ParsePrefix (s : string) : option netprefix :=
  '(ip, bits) ← CutLast s "/"%char;
  a ← ParseAddr ip;
  if has_zone a then None
  else if (1 <? String.length bits)%nat && negb (match head_char bits with Some c => between "1"%char "9"%char c | None => false end)
  then None
  else z ← Atoi bits;
       if (z <? 0)%Z || (Z.of_N (addr_width a) <? z)%Z then None
       else Some (Prefix a (Z.to_N z)).

Definition prefix_string (p : netprefix) : string :=
  addr_string (prefix_addr p) +:+ "/" +:+ itoa (prefix_bits p).

(** The number of addresses in a prefix *)
Definition prefix_size (p : netprefix) : N := 2 ^ (addr_width (prefix_addr p) - prefix_bits p).

Definition mask_value (n size : N) : N := n / size * size.

Definition Masked (p : netprefix) : netprefix :=
  let size := prefix_size p in
  match prefix_addr p with
  | V4 n => Prefix (V4 (mask_value n size)) (prefix_bits p)
  | V6 n z => Prefix (V6 (mask_value n size) z) (prefix_bits p)
  end.

Definition prefix_contains (p : netprefix) (a : addr) : bool :=
  (addr_width (prefix_addr p) =? addr_width a) && negb (has_zone a)
  && (addr_value a / prefix_size p =? addr_value (prefix_addr p) / prefix_size p).

Definition Overlaps (p q : netprefix) : bool :=
  (addr_width (prefix_addr p) =? addr_width (prefix_addr q))
  && (let bits := N.min (prefix_bits p) (prefix_bits q) in
      let size := 2 ^ (addr_width (prefix_addr p) - bits) in
      addr_value (prefix_addr p) / size =? addr_value (prefix_addr q) / size).

(** ** [net.SplitHostPort] *)
Definition SplitHostPort (s : string) : option (string * string) :=
  '(before, port) ← CutLast s ":"%char;
  '(host, outer) ←
    match s with
    | String "["%char s' =>
        '(inside, after) ← Cut s' "]"%char;
        if String.eqb after (":" +:+ port) then Some (inside, after) else None
    | _ => if Contains before ":" then None else Some (before, s)
    end;
  (* the remaining brackets: one check from after the opening bracket, one from
     after the closing bracket *)
  let opened := match s with String "["%char s' => s' | _ => s end in
  if Contains opened "[" || Contains outer "]" then None
  else Some (host, port).

(** ** [net/url.Parse] *)

Record url := Url {
  Scheme : string;
  has_user : bool;
  Host : string;
  Path : string;
  RawQuery : string;
  Fragment : string
}.

Inductive url_mode := EncodePath | EncodeHost | EncodeFragment.

(** The bytes below 0x80 a host may hold unescaped *)
Definition host_char (c : ascii) : bool :=
  is_digit c || lower_alpha c || upper_alpha c || in_chars "!$&'()*+,;=:[]<>-_.~" c
  || Ascii.eqb c (byte 34).

(** [url.unescape] *)
Fixpoint unescape (mode : url_mode) (s : string) : option string :=
  match s with
  | EmptyString => Some ""
  | String c s' =>
      if Ascii.eqb c "%"%char then
        match s' with
        | String h (String l s'') =>
            hi ← hex_value h; lo ← hex_value l;
            (* below 0x80 a host may only escape the percent sign itself *)
            if (match mode with EncodeHost => (hi <? 8) && negb ((hi =? 2) && (lo =? 5)) | _ => false end)
            then None
            else String (byte (hi * 16 + lo)) <$> unescape mode s''
        | _ => None
        end
      else if (match mode with EncodeHost => (code c <? 128) && negb (host_char c) | _ => false end)
      then None
      else String c <$> unescape mode s'
  end.

(** [url.getScheme]: [None] is an error, [Some ("", s)] no scheme *)
Fixpoint get_scheme_at (i : nat) (whole acc s : string) : option (string * string) :=
  match s with
  | EmptyString => Some ("", whole)
  | String c s' =>
      if lower_alpha c || upper_alpha c then get_scheme_at (S i) whole (acc +:+ String c "") s'
      else if is_digit c || in_chars "+-." c then
        if bool_decide (i = 0%nat) then Some ("", whole) else get_scheme_at (S i) whole (acc +:+ String c "") s'
      else if Ascii.eqb c ":"%char then
        if bool_decide (i = 0%nat) then None else Some (acc, s')
      else Some ("", whole)
  end.

Definition valid_optional_port (s : string) : bool :=
  match s with
  | EmptyString => true
  | String c s' => Ascii.eqb c ":"%char && str_forall is_digit s'
  end.

(** [url.parseHost]; a bracketed host is an IPv6 literal with an optional port *)
Definition parse_host (h : string) : option string :=
  match h with
  | String "["%char _ =>
      '(inside, port) ← CutLast h "]"%char;
      if negb (valid_optional_port port) then None else unescape EncodeHost h
  | _ =>
      match CutLast h ":"%char with
      | Some (_, port) => if str_forall is_digit port then unescape EncodeHost h else None
      | None => unescape EncodeHost h
      end
  end.

(** [url.Parse].  User information is recorded only as present: its own escaping
    is not examined. *)
Definition url_parse (raw : string) : option url :=
  let '(u, frag) := default (raw, "") (Cut raw "#"%char) in
  if str_exists (λ c, (code c <? 32) || (code c =? 127)) u then None
  else
    fragment ← unescape EncodeFragment frag;
    '(scheme, rest) ← get_scheme_at 0 u "" u;
    let scheme := ToLower scheme in
    let '(rest, query) := default (rest, "") (Cut rest "?"%char) in
    match rest with
    | String "/"%char (String "/"%char r) =>
        if negb (String.eqb scheme "") || negb (HasPrefix rest "///") then
          let '(authority, p) := match Cut r "/"%char with Some (a, b) => (a, "/" +:+ b) | None => (r, "") end in
          let '(user, h) := match CutLast authority "@"%char with Some (_, h) => (true, h) | None => (false, authority) end in
          host ← parse_host h;
          path ← unescape EncodePath p;
          Some (Url scheme user host path query fragment)
        else path ← unescape EncodePath rest; Some (Url scheme false "" path query fragment)
    | String "/"%char _ => path ← unescape EncodePath rest; Some (Url scheme false "" path query fragment)
    | _ =>
        if negb (String.eqb scheme "") then Some (Url scheme false "" "" query fragment)
        else path ← unescape EncodePath rest; Some (Url scheme false "" path query fragment)
    end.

(** [URL.Hostname] and [URL.Port] *)
Definition split_host_port (h : string) : string * string :=
  let '(host, port) :=
    match CutLast h ":"%char with
    | Some (a, p) => if str_forall is_digit p then (a, p) else (h, "")
    | None => (h, "")
    end in
  match host with
  | String "["%char inner => if HasSuffix host "]" then (default inner (fst <$> CutLast inner "]"%char), port) else (host, port)
  | _ => (host, port)
  end.
Definition Hostname (u : url) : string := (split_host_port (Host u)).1.
Definition Port (u : url) : string := (split_host_port (Host u)).2.

(** ** Strict base64 *)

Definition base64_value (c : ascii) : option N :=
  if upper_alpha c then Some (code c - 65)
  else if lower_alpha c then Some (code c - 71)
  else if is_digit c then Some (code c + 4)
  else if Ascii.eqb c "+"%char then Some 62
  else if Ascii.eqb c "/"%char then Some 63
  else None.

(** [base64.StdEncoding.Strict().DecodeString], less the skipping of line breaks *)
Fixpoint base64_decode (s : string) : option (list N) :=
  match s with
  | EmptyString => Some []
  | String c1 (String c2 (String "="%char (String "="%char EmptyString))) =>
      v1 ← base64_value c1; v2 ← base64_value c2;
      if v2 mod 16 =? 0 then Some [v1 * 4 + v2 / 16] else None
  | String c1 (String c2 (String c3 (String "="%char EmptyString))) =>
      v1 ← base64_value c1; v2 ← base64_value c2; v3 ← base64_value c3;
      if v3 mod 4 =? 0 then Some [v1 * 4 + v2 / 16; (v2 mod 16) * 16 + v3 / 4] else None
  | String c1 (String c2 (String c3 (String c4 s'))) =>
      v1 ← base64_value c1; v2 ← base64_value c2; v3 ← base64_value c3; v4 ← base64_value c4;
      bs ← base64_decode s';
      Some ([v1 * 4 + v2 / 16; (v2 mod 16) * 16 + v3 / 4; (v3 mod 4) * 64 + v4] ++ bs)
  | _ => None
  end.

(** The text is the canonical encoding of exactly [n] bytes.  A strict decoder
    accepts one text per byte sequence once line breaks are excluded, so decoding
    without skipping them stands for comparing with the re-encoded bytes. *)
Definition canonical_base64 (n : nat) (s : string) : bool :=
  match base64_decode s with Some bs => bool_decide (length bs = n) | None => false end.

Definition base64url_alphabet : string := "ABCDEFGHIJKLMNOPQRSTUVWXYZabcdefghijklmnopqrstuvwxyz0123456789-_".
Definition base64url_char (v : N) : ascii := default "A"%char (String.get (N.to_nat v) base64url_alphabet).

(** [base64.RawURLEncoding.EncodeToString] *)
Fixpoint base64url_encode (bs : list N) : string :=
  match bs with
  | [] => ""
  | [a] => String (base64url_char (a / 4)) (String (base64url_char ((a mod 4) * 16)) "")
  | [a; b] => String (base64url_char (a / 4)) (String (base64url_char ((a mod 4) * 16 + b / 16)) (String (base64url_char ((b mod 16) * 4)) ""))
  | a :: b :: c :: rest =>
      String (base64url_char (a / 4)) (String (base64url_char ((a mod 4) * 16 + b / 16))
        (String (base64url_char ((b mod 16) * 4 + c / 64)) (String (base64url_char (c mod 64)) (base64url_encode rest))))
  end.

(** ** IPv4 round trips *)

Definition all_octets : list N := N.of_nat <$> seq 0 256.

Lemma elem_of_all_octets o : o < 256 → o ∈ all_octets.
Proof.
  intros Ho. apply list_elem_of_fmap. exists (N.to_nat o).
  split; [lia|]. apply elem_of_seq. lia.
Qed.

Lemma parse_itoa_octet o : o < 256 → parse_octet (itoa o) = Some o.
Proof.
  intros Ho%elem_of_all_octets.
  assert (Hall : forallb (λ o, bool_decide (parse_octet (itoa o) = Some o)) all_octets = true) by by vm_compute.
  rewrite forallb_forall in Hall. apply list_elem_of_In in Ho.
  by apply Hall, bool_decide_eq_true in Ho.
Qed.

(** The texts [parse_octet] accepts are the ones [itoa] prints: the candidates
    are the digit strings of length one to three. *)
Definition digit_chars : list ascii := (λ n, byte (48 + N.of_nat n)) <$> seq 0 10.

Definition short_digit_strings : list string :=
  a ← digit_chars;
  String a "" :: (b ← digit_chars; String a (String b "") :: (c ← digit_chars; [String a (String b (String c ""))])).

Lemma elem_of_digit_chars c : is_digit c = true → c ∈ digit_chars.
Proof. destruct c as [[] [] [] [] [] [] [] []]; vm_compute; intros ?; try discriminate; set_solver. Qed.

Lemma short_digit_strings_parse s o : s ∈ short_digit_strings → parse_octet s = Some o → itoa o = s.
Proof.
  intros Hs%list_elem_of_In Hp.
  assert (Hall : forallb (λ s, match parse_octet s with Some o => bool_decide (itoa o = s) | None => true end)
    short_digit_strings = true) by by vm_compute.
  rewrite forallb_forall in Hall. apply Hall in Hs. rewrite Hp in Hs. by apply bool_decide_eq_true in Hs.
Qed.

Lemma digits_value_lower acc s v : digits_value acc s = Some v → acc * 10 ^ N.of_nat (String.length s) ≤ v.
Proof.
  revert acc. induction s as [|c s IH]; intros acc; cbn [digits_value String.length].
  - intros [= <-]. cbn. lia.
  - destruct (is_digit c); [|done]. intros H%IH. rewrite Nat2N.inj_succ N.pow_succ_r'. nia.
Qed.

Lemma digits_value_digits acc s v : digits_value acc s = Some v → str_forall is_digit s = true.
Proof.
  revert acc. induction s as [|c s IH]; intros acc; cbn; [done|].
  destruct (is_digit c); [|done]. apply IH.
Qed.

Lemma parse_octet_short s o : parse_octet s = Some o → s ∈ short_digit_strings.
Proof.
  unfold parse_octet. intros H.
  destruct (String.eqb s "") eqn:He; [done|].
  destruct (_ && _) eqn:Hz; [done|].
  apply bind_Some in H as (v & Hd & Hv). destruct (v <=? 255) eqn:Hle; simplify_eq. bool_facts.
  pose proof (digits_value_digits _ _ _ Hd) as Hf.
  destruct s as [|a s]; [done|]. cbn in Hf. apply andb_true_iff in Hf as [Ha Hf].
  apply elem_of_digit_chars in Ha as Ha'.
  apply list_elem_of_bind. exists a. split; [|done].
  destruct s as [|b s]; [left|right].
  cbn in Hf. apply andb_true_iff in Hf as [Hb Hf].
  apply elem_of_digit_chars in Hb as Hb'. apply list_elem_of_bind. exists b. split; [|done].
  destruct s as [|c s]; [left|right].
  cbn in Hf. apply andb_true_iff in Hf as [Hc Hf].
  apply elem_of_digit_chars in Hc as Hc'. apply list_elem_of_bind. exists c. split; [|done].
  destruct s as [|d s]; [left|exfalso].
  (* a fourth digit after a non-zero first one exceeds 255 *)
  cbn [digits_value] in Hd. rewrite Ha Hb Hc in Hd.
  assert (1 ≤ digit_value a).
  { unfold digit_value. unfold is_digit, code in *. bool_facts.
    destruct (decide (N_of_ascii a = 48)) as [E|]; [|lia].
    apply (f_equal ascii_of_N) in E. rewrite ascii_N_embedding in E.
    subst a. by cbn in Hz. }
  destruct (is_digit d); [|done]. apply digits_value_lower in Hd.
  assert (1 ≤ 10 ^ N.of_nat (String.length s)) by (apply N.lt_pred_le, N.neq_0_lt_0, N.pow_nonzero; lia).
  nia.
Qed.

Lemma parse_octet_itoa s o : parse_octet s = Some o → itoa o = s ∧ o < 256.
Proof.
  intros H. split; [by eapply short_digit_strings_parse; [eapply parse_octet_short|]|].
  unfold parse_octet in H. destruct (String.eqb s ""); [done|]. destruct (_ && _); [done|].
  apply bind_Some in H as (v & _ & Hv). destruct (v <=? 255) eqn:Hle; simplify_eq. bool_facts. lia.
Qed.

Lemma split_app_sep a b sep : str_exists (λ c, Ascii.eqb c sep) a = false →
  Split (a +:+ String sep b) sep = a :: Split b sep.
Proof.
  induction a as [|c a IH]; intros H.
  - rewrite str_app_nil_l. cbn. by rewrite Ascii.eqb_refl.
  - cbn in H. apply orb_false_iff in H as [Hc H]. rewrite str_app_cons. cbn. by rewrite Hc IH.
Qed.

Lemma split_no_sep a sep : str_exists (λ c, Ascii.eqb c sep) a = false → Split a sep = [a].
Proof.
  induction a as [|c a IH]; intros H; [done|].
  cbn in H. apply orb_false_iff in H as [Hc H]. cbn. by rewrite Hc IH.
Qed.

Fixpoint join (sep : ascii) (l : list string) : string :=
  match l with [] => "" | [x] => x | x :: l' => x +:+ String sep (join sep l') end.

Lemma split_nonempty s sep : Split s sep ≠ [].
Proof. induction s as [|c s IH]; cbn; [done|]. destruct (Ascii.eqb c sep); [done|]. by destruct (Split s sep). Qed.

Lemma join_split s sep : join sep (Split s sep) = s.
Proof.
  induction s as [|c s IH]; [done|]. cbn.
  pose proof (split_nonempty s sep) as Hne.
  destruct (Ascii.eqb c sep) eqn:Hc.
  - apply Ascii.eqb_eq in Hc as ->. destruct (Split s sep) as [|x xs]; [done|].
    cbn [join] in *. by rewrite IH.
  - destruct (Split s sep) as [|x [|y ys]]; [done| |]; cbn [join] in *; rewrite ?str_app_cons -IH //.
Qed.

Lemma itoa_octet_no_dot o : o < 256 → str_exists (λ c, Ascii.eqb c "."%char) (itoa o) = false.
Proof.
  intros Ho%elem_of_all_octets.
  assert (Hall : forallb (λ o, negb (str_exists (λ c, Ascii.eqb c "."%char) (itoa o))) all_octets = true) by by vm_compute.
  rewrite forallb_forall in Hall. apply list_elem_of_In in Ho.
  by apply Hall, negb_true_iff in Ho.
Qed.

Lemma octet_lt n i : octet n i < 256.
Proof. unfold octet. apply N.mod_lt. lia. Qed.

Lemma ipv4_of_octets_octet n : n < 4294967296 →
  ipv4_of_octets (octet n 3) (octet n 2) (octet n 1) (octet n 0) = n.
Proof.
  intros Hn. unfold ipv4_of_octets, octet.
  change (256 ^ 3) with 16777216. change (256 ^ 2) with 65536. change (256 ^ 1) with 256. change (256 ^ 0) with 1.
  zify. Z.to_euclidean_division_equations. lia.
Qed.

Lemma octet_ipv4_of_octets a b c d : a < 256 → b < 256 → c < 256 → d < 256 →
  let n := ipv4_of_octets a b c d in
  octet n 3 = a ∧ octet n 2 = b ∧ octet n 1 = c ∧ octet n 0 = d ∧ n < 4294967296.
Proof.
  intros. unfold n, ipv4_of_octets, octet.
  change (256 ^ 3) with 16777216. change (256 ^ 2) with 65536. change (256 ^ 1) with 256. change (256 ^ 0) with 1.
  split_and!; zify; Z.to_euclidean_division_equations; lia.
Qed.

Lemma parse_print_ipv4 n : n < 4294967296 → parse_ipv4 (print_ipv4 n) = Some n.
Proof.
  intros Hn. unfold parse_ipv4, print_ipv4.
  rewrite !(str_app_cons "."%char) !str_app_nil_l.
  rewrite !split_app_sep ?split_no_sep; try (apply itoa_octet_no_dot, octet_lt).
  rewrite !parse_itoa_octet; try apply octet_lt. cbn [mbind option_bind].
  by rewrite ipv4_of_octets_octet.
Qed.

Lemma print_parse_ipv4 s n : parse_ipv4 s = Some n → print_ipv4 n = s ∧ n < 4294967296.
Proof.
  unfold parse_ipv4. intros H.
  destruct (Split s "."%char) as [|fa [|fb [|fc [|fd [|]]]]] eqn:Hs; try discriminate.
  apply bind_Some in H as (a & Ha & H). apply bind_Some in H as (b & Hb & H).
  apply bind_Some in H as (c & Hc & H). apply bind_Some in H as (d & Hd & H).
  apply parse_octet_itoa in Ha as [<- Ha], Hb as [<- Hb], Hc as [<- Hc], Hd as [<- Hd].
  injection H as <-. destruct (octet_ipv4_of_octets a b c d) as (H3 & H2 & H1 & H0 & Hlt); try done.
  split; [|done]. unfold print_ipv4. rewrite H3 H2 H1 H0.
  by rewrite -(join_split s "."%char) Hs.
Qed.

Lemma parse_ipv4_inj s t n : parse_ipv4 s = Some n → parse_ipv4 t = Some n → s = t.
Proof. intros [<- _]%print_parse_ipv4 [<- _]%print_parse_ipv4. done. Qed.
