(* ===== verification/Types.v ===== *)
(** * The state model ([internal/model/types.go])

    The authoritative state of a vpnctl host.  Every Go string enumeration is an
    inductive type with the source's constants as constructors and one
    constructor for any other string, which the validators reject.  A field of a
    record is named by the record's prefix and the Go field name; a pointer is an
    [option], a slice a [slice] (which may be nil), a [uint64] an [N] and an [int]
    or [int64] a [Z]. *)

From S2P Require Import Prelude GoTime.

Local Open Scope string_scope.

Inductive Role :=
  | RoleGateway | RoleNode
  | RoleUnsupported (raw : string).

#[export] Instance Role_eq_dec : EqDecision Role.
Proof. solve_decision. Defined.

Inductive DNSUpstreamScope :=
  | DNSUpstreamGateway | DNSUpstreamDirect
  | DNSUpstreamUnsupported (raw : string).

#[export] Instance DNSUpstreamScope_eq_dec : EqDecision DNSUpstreamScope.
Proof. solve_decision. Defined.

Inductive Lifecycle :=
  | LifecycleActive | LifecycleRevoked | LifecycleDeleted
  | LifecycleUnsupported (raw : string).

#[export] Instance Lifecycle_eq_dec : EqDecision Lifecycle.
Proof. solve_decision. Defined.

Inductive TargetKind :=
  | TargetNode | TargetClient
  | TargetUnsupported (raw : string).

#[export] Instance TargetKind_eq_dec : EqDecision TargetKind.
Proof. solve_decision. Defined.

Inductive TransportKind :=
  | TransportStandard | TransportRestricted
  | TransportKindUnsupported (raw : string).

#[export] Instance TransportKind_eq_dec : EqDecision TransportKind.
Proof. solve_decision. Defined.

Inductive TransportState :=
  | TransportActive | TransportStandby | TransportDegraded | TransportDisabled
  | TransportStateUnsupported (raw : string).

#[export] Instance TransportState_eq_dec : EqDecision TransportState.
Proof. solve_decision. Defined.

Inductive NetworkProtocol :=
  | ProtocolTCP | ProtocolUDP
  | ProtocolUnsupported (raw : string).

#[export] Instance NetworkProtocol_eq_dec : EqDecision NetworkProtocol.
Proof. solve_decision. Defined.

Inductive SelectorKind :=
  | SelectorDomain | SelectorDomainSuffix | SelectorIPCIDR
  | SelectorUnsupported (raw : string).

#[export] Instance SelectorKind_eq_dec : EqDecision SelectorKind.
Proof. solve_decision. Defined.

Inductive RouteMode :=
  | RouteExact | RoutePrefix
  | RouteUnsupported (raw : string).

#[export] Instance RouteMode_eq_dec : EqDecision RouteMode.
Proof. solve_decision. Defined.

Inductive ExposeState :=
  | ExposePending | ExposeReady | ExposeDegraded | ExposeDisabled
  | ExposeStateUnsupported (raw : string).

#[export] Instance ExposeState_eq_dec : EqDecision ExposeState.
Proof. solve_decision. Defined.

Inductive CertificateKind :=
  | CertificatePublicIngress | CertificateControlCA | CertificateControlServer
  | CertificateControlNode | CertificateTunnelServer
  | CertificateUnsupported (raw : string).

#[export] Instance CertificateKind_eq_dec : EqDecision CertificateKind.
Proof. solve_decision. Defined.

Inductive OperationType :=
  | OperationInit | OperationJoin | OperationApply | OperationRepair | OperationRotate
  | OperationRecover | OperationRevoke | OperationDelete | OperationTransportSwitch
  | OperationHandshakeHost | OperationExposeCreate | OperationExposeRemove
  | OperationCertificateRotate | OperationTrustRotate | OperationRestore | OperationUpdate
  | OperationUpdateRollback | OperationUninstall | OperationPurge
  | OperationTypeUnsupported (raw : string).

#[export] Instance OperationType_eq_dec : EqDecision OperationType.
Proof. solve_decision. Defined.

Inductive OperationState :=
  | OperationPending | OperationStaging | OperationActive | OperationDegraded | OperationFailed
  | OperationCompleted
  | OperationStateUnsupported (raw : string).

#[export] Instance OperationState_eq_dec : EqDecision OperationState.
Proof. solve_decision. Defined.

Inductive ResultStatus :=
  | ResultOK | ResultPending | ResultDegraded | ResultFailed
  | ResultUnsupported (raw : string).

#[export] Instance ResultStatus_eq_dec : EqDecision ResultStatus.
Proof. solve_decision. Defined.

Inductive LogScope :=
  | LogControl | LogTransport | LogRouting | LogDNS | LogTunnel | LogIngress | LogAll
  | LogScopeUnsupported (raw : string).

#[export] Instance LogScope_eq_dec : EqDecision LogScope.
Proof. solve_decision. Defined.

Inductive LogLevel :=
  | LogError | LogInfo | LogDebug | LogTrace
  | LogLevelUnsupported (raw : string).

#[export] Instance LogLevel_eq_dec : EqDecision LogLevel.
Proof. solve_decision. Defined.

Inductive LogDestination :=
  | LogToJournald | LogToFile
  | LogDestinationUnsupported (raw : string).

#[export] Instance LogDestination_eq_dec : EqDecision LogDestination.
Proof. solve_decision. Defined.

Inductive LogState :=
  | LogActive | LogExpired | LogDisabled
  | LogStateUnsupported (raw : string).

#[export] Instance LogState_eq_dec : EqDecision LogState.
Proof. solve_decision. Defined.

Inductive BackupState :=
  | BackupComplete
  | BackupStateUnsupported (raw : string).

#[export] Instance BackupState_eq_dec : EqDecision BackupState.
Proof. solve_decision. Defined.

Inductive InviteState :=
  | InviteActive | InviteCancelled | InviteConsumed
  | InviteStateUnsupported (raw : string).

#[export] Instance InviteState_eq_dec : EqDecision InviteState.
Proof. solve_decision. Defined.

Inductive HandshakeHostChangeState :=
  | HandshakeHostPrepared | HandshakeHostCommitted
  | HandshakeHostChangeUnsupported (raw : string).

#[export] Instance HandshakeHostChangeState_eq_dec : EqDecision HandshakeHostChangeState.
Proof. solve_decision. Defined.

Record DNSUpstreamState := MkDNSUpstreamState {
  dns_SchemaVersion : Z;
  dns_Scope : DNSUpstreamScope;
  dns_IPv4 : slice string
}.

#[export] Instance DNSUpstreamState_eq_dec : EqDecision DNSUpstreamState.
Proof. solve_decision. Defined.

Record Invite := MkInvite {
  inv_SchemaVersion : Z;
  inv_ID : string;
  inv_Purpose : string;
  inv_NodeName : string;
  inv_NodeID : string;
  inv_CredentialGeneration : N;
  inv_BindingFingerprint : string;
  inv_ControlProtocol : string;
  inv_GatewayEndpoint : string;
  inv_EnrollmentFingerprint : string;
  inv_SecretHash : string;
  inv_State : InviteState;
  inv_IssuedAt : time;
  inv_ExpiresAt : time;
  inv_CancelledAt : option time;
  inv_ConsumedAt : option time;
  inv_ConsumptionHash : string
}.

#[export] Instance Invite_eq_dec : EqDecision Invite.
Proof. solve_decision. Defined.

Record HandshakeHost := MkHandshakeHost {
  hh_SchemaVersion : Z;
  hh_ListVersion : Z;
  hh_CandidateID : string;
  hh_Hostname : string;
  hh_SelectedAt : time
}.

#[export] Instance HandshakeHost_eq_dec : EqDecision HandshakeHost.
Proof. solve_decision. Defined.

Record HandshakeHostChange := MkHandshakeHostChange {
  hc_SchemaVersion : Z;
  hc_OperationID : string;
  hc_State : HandshakeHostChangeState;
  hc_Previous : HandshakeHost;
  hc_Candidate : HandshakeHost;
  hc_AffectedNodeIDs : slice string;
  hc_AffectedClientIDs : slice string;
  hc_PreparedAt : time;
  hc_CommittedAt : option time;
  hc_RollbackExpiresAt : option time
}.

#[export] Instance HandshakeHostChange_eq_dec : EqDecision HandshakeHostChange.
Proof. solve_decision. Defined.

Record ManagedSwap := MkManagedSwap {
  swap_Path : string;
  swap_SizeBytes : Z;
  swap_Enabled : bool
}.

#[export] Instance ManagedSwap_eq_dec : EqDecision ManagedSwap.
Proof. solve_decision. Defined.

Record HostRecord := MkHostRecord {
  host_SchemaVersion : Z;
  host_ID : string;
  host_Role : Role;
  host_OS : string;
  host_OSVersion : string;
  host_Architecture : string;
  host_InitializedAt : time;
  host_PublicIPv4 : string;
  host_ExternalInterface : string;
  host_SSHPort : Z;
  host_ClientCIDR : string;
  host_NodeCIDR : string;
  host_ManagedSwap : option ManagedSwap
}.

#[export] Instance HostRecord_eq_dec : EqDecision HostRecord.
Proof. solve_decision. Defined.

Record IdempotencyRecord := MkIdempotencyRecord {
  idem_RequestID : string;
  idem_Operation : OperationType;
  idem_ResultStatus : ResultStatus;
  idem_ResultHash : string;
  idem_StateGeneration : N;
  idem_RecordedAt : time
}.

#[export] Instance IdempotencyRecord_eq_dec : EqDecision IdempotencyRecord.
Proof. solve_decision. Defined.

Record GatewayTrust := MkGatewayTrust {
  gw_GatewayID : string;
  gw_PublicIPv4 : string;
  gw_NodeCIDR : string;
  gw_GatewayOverlayIPv4 : string;
  gw_ControlProtocol : string;
  gw_EnrollmentFingerprint : string;
  gw_EnrollmentPublicKeyRef : string;
  gw_ControlCAFingerprints : slice string;
  gw_ControlCACertificateRefs : slice string;
  gw_TunnelCertificateFingerprint : string;
  gw_TunnelCertificateRef : string;
  gw_StandardPublicKey : string;
  gw_RestrictedServerCredentialRef : string;
  gw_LastKnownGatewayGeneration : N;
  gw_PendingRequestID : string
}.

#[export] Instance GatewayTrust_eq_dec : EqDecision GatewayTrust.
Proof. solve_decision. Defined.

Record Node := MkNode {
  node_SchemaVersion : Z;
  node_ID : string;
  node_Name : string;
  node_Lifecycle : Lifecycle;
  node_OverlayIPv4 : string;
  node_CredentialGeneration : N;
  node_ControlProtocol : string;
  node_AssignedPresets : slice string;
  node_ActiveTransport : TransportKind;
  node_IdempotencyRecords : slice IdempotencyRecord;
  node_Gateway : option GatewayTrust;
  node_CreatedAt : time;
  node_RevokedAt : option time
}.

#[export] Instance Node_eq_dec : EqDecision Node.
Proof. solve_decision. Defined.

Record Client := MkClient {
  client_SchemaVersion : Z;
  client_ID : string;
  client_Name : string;
  client_Platform : string;
  client_Lifecycle : Lifecycle;
  client_OverlayIPv4 : string;
  client_CredentialGeneration : N;
  client_AssignedPresets : slice string;
  client_ActiveTransport : TransportKind;
  client_CreatedAt : time;
  client_RevokedAt : option time
}.

#[export] Instance Client_eq_dec : EqDecision Client.
Proof. solve_decision. Defined.

Record Selector := MkSelector {
  sel_Kind : SelectorKind;
  sel_Value : string;
  sel_Exclude : bool
}.

#[export] Instance Selector_eq_dec : EqDecision Selector.
Proof. solve_decision. Defined.

Record Preset := MkPreset {
  preset_SchemaVersion : Z;
  preset_Name : string;
  preset_SourceHash : string;
  preset_EffectiveHash : string;
  preset_Selectors : slice Selector;
  preset_Generation : N;
  preset_AppliedAt : time
}.

#[export] Instance Preset_eq_dec : EqDecision Preset.
Proof. solve_decision. Defined.

Record Policy := MkPolicy {
  policy_SchemaVersion : Z;
  policy_TargetKind : TargetKind;
  policy_TargetID : string;
  policy_PresetNames : slice string;
  policy_Selectors : slice Selector;
  policy_EffectiveHash : string;
  policy_Generation : N
}.

#[export] Instance Policy_eq_dec : EqDecision Policy.
Proof. solve_decision. Defined.

Record Transport := MkTransport {
  tr_SchemaVersion : Z;
  tr_OwnerKind : TargetKind;
  tr_OwnerID : string;
  tr_Kind : TransportKind;
  tr_State : TransportState;
  tr_Provider : string;
  tr_Protocol : NetworkProtocol;
  tr_Port : Z;
  tr_CredentialGeneration : N;
  tr_CredentialRef : string;
  tr_PublicKey : string;
  tr_HandshakeHost : string;
  tr_ConfigHash : string
}.

#[export] Instance Transport_eq_dec : EqDecision Transport.
Proof. solve_decision. Defined.

Record Expose := MkExpose {
  expose_SchemaVersion : Z;
  expose_ID : string;
  expose_NodeID : string;
  expose_Name : string;
  expose_Upstream : string;
  expose_RouteMode : RouteMode;
  expose_Path : string;
  expose_BodyLimitBytes : Z;
  expose_UpstreamTimeoutSeconds : Z;
  expose_ConcurrentRequests : Z;
  expose_TunnelPort : Z;
  expose_State : ExposeState;
  expose_Generation : N;
  expose_CreatedAt : time
}.

#[export] Instance Expose_eq_dec : EqDecision Expose.
Proof. solve_decision. Defined.

Record Certificate := MkCertificate {
  cert_SchemaVersion : Z;
  cert_ID : string;
  cert_Kind : CertificateKind;
  cert_OwnerKind : string;
  cert_OwnerID : string;
  cert_Fingerprint : string;
  cert_SerialHex : string;
  cert_Subject : string;
  cert_SANs : slice string;
  cert_NotBefore : time;
  cert_NotAfter : time;
  cert_WarningDays : Z;
  cert_Generation : N;
  cert_CredentialGeneration : N;
  cert_CertificateRef : string;
  cert_PrivateKeyRef : string
}.

#[export] Instance Certificate_eq_dec : EqDecision Certificate.
Proof. solve_decision. Defined.

Record EnrollmentIdentity := MkEnrollmentIdentity {
  ident_SchemaVersion : Z;
  ident_Algorithm : string;
  ident_Fingerprint : string;
  ident_PublicKeyRef : string;
  ident_PrivateKeyRef : string;
  ident_Generation : N;
  ident_CreatedAt : time
}.

#[export] Instance EnrollmentIdentity_eq_dec : EqDecision EnrollmentIdentity.
Proof. solve_decision. Defined.

Record OperationStep := MkOperationStep {
  step_Name : string;
  step_State : OperationState;
  step_UpdatedAt : time
}.

#[export] Instance OperationStep_eq_dec : EqDecision OperationStep.
Proof. solve_decision. Defined.

Record Operation := MkOperation {
  op_SchemaVersion : Z;
  op_ID : string;
  op_Type : OperationType;
  op_State : OperationState;
  op_TargetKind : string;
  op_TargetID : string;
  op_RequestID : string;
  op_ExpectedGeneration : N;
  op_DesiredGeneration : N;
  op_Steps : slice OperationStep;
  op_ErrorCode : string;
  op_CreatedAt : time;
  op_UpdatedAt : time
}.

#[export] Instance Operation_eq_dec : EqDecision Operation.
Proof. solve_decision. Defined.

Record LoggingSession := MkLoggingSession {
  log_SchemaVersion : Z;
  log_ID : string;
  log_Scope : LogScope;
  log_Level : LogLevel;
  log_Destination : LogDestination;
  log_FilePath : string;
  log_State : LogState;
  log_StartedAt : time;
  log_ExpiresAt : time
}.

#[export] Instance LoggingSession_eq_dec : EqDecision LoggingSession.
Proof. solve_decision. Defined.

Record Backup := MkBackup {
  backup_SchemaVersion : Z;
  backup_ID : string;
  backup_State : BackupState;
  backup_Format : string;
  backup_Path : string;
  backup_SHA256 : string;
  backup_SizeBytes : Z;
  backup_StateGeneration : N;
  backup_PublicIPv4 : string;
  backup_CreatedAt : time
}.

#[export] Instance Backup_eq_dec : EqDecision Backup.
Proof. solve_decision. Defined.

Record ComponentPin := MkComponentPin {
  pin_Name : string;
  pin_Version : string;
  pin_Source : string;
  pin_Bundled : bool;
  pin_SHA256 : string;
  pin_Capabilities : slice string
}.

#[export] Instance ComponentPin_eq_dec : EqDecision ComponentPin.
Proof. solve_decision. Defined.

Record ComponentManifest := MkComponentManifest {
  manifest_SchemaVersion : Z;
  manifest_ManifestVersion : Z;
  manifest_VPNCTLVersion : string;
  manifest_ControlProtocols : slice string;
  manifest_StateSchemaMinimum : Z;
  manifest_StateSchemaMaximum : Z;
  manifest_TargetOS : string;
  manifest_TargetArchitecture : string;
  manifest_HandshakeHostListVersion : Z;
  manifest_MigrationReversible : bool;
  manifest_Components : slice ComponentPin
}.

#[export] Instance ComponentManifest_eq_dec : EqDecision ComponentManifest.
Proof. solve_decision. Defined.

Record State := MkState {
  st_SchemaVersion : Z;
  st_Generation : N;
  st_Host : HostRecord;
  st_HandshakeHost : option HandshakeHost;
  st_HandshakeHostChange : option HandshakeHostChange;
  st_EnrollmentIdentity : option EnrollmentIdentity;
  st_DNS : option DNSUpstreamState;
  st_Invites : slice Invite;
  st_Nodes : slice Node;
  st_Clients : slice Client;
  st_Presets : slice Preset;
  st_Policies : slice Policy;
  st_Transports : slice Transport;
  st_Exposes : slice Expose;
  st_Certificates : slice Certificate;
  st_Operations : slice Operation;
  st_Logging : slice LoggingSession;
  st_Backups : slice Backup;
  st_Components : ComponentManifest
}.

#[export] Instance State_eq_dec : EqDecision State.
Proof. solve_decision. Defined.

(** ** Constants *)

Definition StateSchemaVersion : Z := 1.
Definition ResourceSchemaVersion : Z := 1.
Definition ComponentManifestSchemaVersion : Z := 1.
Definition InviteTTL : Z := 15 * minute.
Definition MaximumDNSUpstreams : nat := 8.

Definition DefaultGatewayDNSUpstreams : slice string := Some ["1.1.1.1"; "8.8.8.8"]%string.

Definition EffectiveCredentialGeneration (c : Certificate) : N :=
  if (cert_CredentialGeneration c =? 0)%N then cert_Generation c else cert_CredentialGeneration c.

(** ** The string values of the enumerations the code concatenates or compares *)

Definition TargetKind_string (k : TargetKind) : string :=
  match k with TargetNode => "node" | TargetClient => "client" | TargetUnsupported raw => raw end.

Definition OperationType_string (t : OperationType) : string :=
  match t with
  | OperationInit => "init" | OperationJoin => "join" | OperationApply => "apply" | OperationRepair => "repair"
  | OperationRotate => "rotate" | OperationRecover => "recover" | OperationRevoke => "revoke" | OperationDelete => "delete"
  | OperationTransportSwitch => "transport-switch" | OperationHandshakeHost => "handshake-host-replace"
  | OperationExposeCreate => "expose-create" | OperationExposeRemove => "expose-remove"
  | OperationCertificateRotate => "certificate-rotate" | OperationTrustRotate => "trust-rotate"
  | OperationRestore => "restore" | OperationUpdate => "update" | OperationUpdateRollback => "update-rollback"
  | OperationUninstall => "uninstall" | OperationPurge => "purge" | OperationTypeUnsupported raw => raw
  end.
(** The conversion [OperationType(text)]. *)
Definition operation_of_text (text : string) : OperationType :=
  match list_find (λ operation, OperationType_string operation = text)
    [OperationInit; OperationJoin; OperationApply; OperationRepair; OperationRotate; OperationRecover; OperationRevoke; OperationDelete;
     OperationTransportSwitch; OperationHandshakeHost; OperationExposeCreate; OperationExposeRemove; OperationCertificateRotate;
     OperationTrustRotate; OperationRestore; OperationUpdate; OperationUpdateRollback; OperationUninstall; OperationPurge] with
  | Some (_, operation) => operation
  | None => OperationTypeUnsupported text
  end.
Definition RouteMode_string (m : RouteMode) : string :=
  match m with RouteExact => "exact" | RoutePrefix => "prefix" | RouteUnsupported raw => raw end.

Definition SelectorKind_string (k : SelectorKind) : string :=
  match k with
  | SelectorDomain => "domain" | SelectorDomainSuffix => "domain-suffix" | SelectorIPCIDR => "ip-cidr"
  | SelectorUnsupported raw => raw
  end.

(** ** Field updates *)

Definition set_node_Lifecycle (v : Lifecycle) (x : Node) : Node :=
  MkNode (node_SchemaVersion x) (node_ID x) (node_Name x) v (node_OverlayIPv4 x)
    (node_CredentialGeneration x) (node_ControlProtocol x) (node_AssignedPresets x)
    (node_ActiveTransport x) (node_IdempotencyRecords x) (node_Gateway x) (node_CreatedAt x)
    (node_RevokedAt x).

Definition set_node_RevokedAt (v : option time) (x : Node) : Node :=
  MkNode (node_SchemaVersion x) (node_ID x) (node_Name x) (node_Lifecycle x) (node_OverlayIPv4 x)
    (node_CredentialGeneration x) (node_ControlProtocol x) (node_AssignedPresets x)
    (node_ActiveTransport x) (node_IdempotencyRecords x) (node_Gateway x) (node_CreatedAt x) v.

Definition set_node_CredentialGeneration (v : N) (x : Node) : Node :=
  MkNode (node_SchemaVersion x) (node_ID x) (node_Name x) (node_Lifecycle x) (node_OverlayIPv4 x) v
    (node_ControlProtocol x) (node_AssignedPresets x) (node_ActiveTransport x) (node_IdempotencyRecords
    x) (node_Gateway x) (node_CreatedAt x) (node_RevokedAt x).

Definition set_node_IdempotencyRecords (v : slice IdempotencyRecord) (x : Node) : Node :=
  MkNode (node_SchemaVersion x) (node_ID x) (node_Name x) (node_Lifecycle x) (node_OverlayIPv4 x)
    (node_CredentialGeneration x) (node_ControlProtocol x) (node_AssignedPresets x)
    (node_ActiveTransport x) v (node_Gateway x) (node_CreatedAt x) (node_RevokedAt x).

Definition set_node_Gateway (v : option GatewayTrust) (x : Node) : Node :=
  MkNode (node_SchemaVersion x) (node_ID x) (node_Name x) (node_Lifecycle x) (node_OverlayIPv4 x)
    (node_CredentialGeneration x) (node_ControlProtocol x) (node_AssignedPresets x)
    (node_ActiveTransport x) (node_IdempotencyRecords x) v (node_CreatedAt x) (node_RevokedAt x).

Definition set_client_Lifecycle (v : Lifecycle) (x : Client) : Client :=
  MkClient (client_SchemaVersion x) (client_ID x) (client_Name x) (client_Platform x) v
    (client_OverlayIPv4 x) (client_CredentialGeneration x) (client_AssignedPresets x)
    (client_ActiveTransport x) (client_CreatedAt x) (client_RevokedAt x).

Definition set_client_RevokedAt (v : option time) (x : Client) : Client :=
  MkClient (client_SchemaVersion x) (client_ID x) (client_Name x) (client_Platform x) (client_Lifecycle
    x) (client_OverlayIPv4 x) (client_CredentialGeneration x) (client_AssignedPresets x)
    (client_ActiveTransport x) (client_CreatedAt x) v.

Definition set_client_CredentialGeneration (v : N) (x : Client) : Client :=
  MkClient (client_SchemaVersion x) (client_ID x) (client_Name x) (client_Platform x) (client_Lifecycle
    x) (client_OverlayIPv4 x) v (client_AssignedPresets x) (client_ActiveTransport x) (client_CreatedAt
    x) (client_RevokedAt x).

Definition set_gw_PendingRequestID (v : string) (x : GatewayTrust) : GatewayTrust :=
  MkGatewayTrust (gw_GatewayID x) (gw_PublicIPv4 x) (gw_NodeCIDR x) (gw_GatewayOverlayIPv4 x)
    (gw_ControlProtocol x) (gw_EnrollmentFingerprint x) (gw_EnrollmentPublicKeyRef x)
    (gw_ControlCAFingerprints x) (gw_ControlCACertificateRefs x) (gw_TunnelCertificateFingerprint x)
    (gw_TunnelCertificateRef x) (gw_StandardPublicKey x) (gw_RestrictedServerCredentialRef x)
    (gw_LastKnownGatewayGeneration x) v.

Definition set_gw_LastKnownGatewayGeneration (v : N) (x : GatewayTrust) : GatewayTrust :=
  MkGatewayTrust (gw_GatewayID x) (gw_PublicIPv4 x) (gw_NodeCIDR x) (gw_GatewayOverlayIPv4 x)
    (gw_ControlProtocol x) (gw_EnrollmentFingerprint x) (gw_EnrollmentPublicKeyRef x)
    (gw_ControlCAFingerprints x) (gw_ControlCACertificateRefs x) (gw_TunnelCertificateFingerprint x)
    (gw_TunnelCertificateRef x) (gw_StandardPublicKey x) (gw_RestrictedServerCredentialRef x) v
    (gw_PendingRequestID x).

Definition set_op_State (v : OperationState) (x : Operation) : Operation :=
  MkOperation (op_SchemaVersion x) (op_ID x) (op_Type x) v (op_TargetKind x) (op_TargetID x)
    (op_RequestID x) (op_ExpectedGeneration x) (op_DesiredGeneration x) (op_Steps x) (op_ErrorCode x)
    (op_CreatedAt x) (op_UpdatedAt x).

Definition set_op_UpdatedAt (v : time) (x : Operation) : Operation :=
  MkOperation (op_SchemaVersion x) (op_ID x) (op_Type x) (op_State x) (op_TargetKind x) (op_TargetID x)
    (op_RequestID x) (op_ExpectedGeneration x) (op_DesiredGeneration x) (op_Steps x) (op_ErrorCode x)
    (op_CreatedAt x) v.

Definition set_op_ErrorCode (v : string) (x : Operation) : Operation :=
  MkOperation (op_SchemaVersion x) (op_ID x) (op_Type x) (op_State x) (op_TargetKind x) (op_TargetID x)
    (op_RequestID x) (op_ExpectedGeneration x) (op_DesiredGeneration x) (op_Steps x) v (op_CreatedAt x)
    (op_UpdatedAt x).

Definition set_op_Steps (v : slice OperationStep) (x : Operation) : Operation :=
  MkOperation (op_SchemaVersion x) (op_ID x) (op_Type x) (op_State x) (op_TargetKind x) (op_TargetID x)
    (op_RequestID x) (op_ExpectedGeneration x) (op_DesiredGeneration x) v (op_ErrorCode x) (op_CreatedAt
    x) (op_UpdatedAt x).

Definition set_step_State (v : OperationState) (x : OperationStep) : OperationStep :=
  MkOperationStep (step_Name x) v (step_UpdatedAt x).

Definition set_step_UpdatedAt (v : time) (x : OperationStep) : OperationStep :=
  MkOperationStep (step_Name x) (step_State x) v.

Definition set_st_Generation (v : N) (x : State) : State :=
  MkState (st_SchemaVersion x) v (st_Host x) (st_HandshakeHost x) (st_HandshakeHostChange x)
    (st_EnrollmentIdentity x) (st_DNS x) (st_Invites x) (st_Nodes x) (st_Clients x) (st_Presets x)
    (st_Policies x) (st_Transports x) (st_Exposes x) (st_Certificates x) (st_Operations x) (st_Logging
    x) (st_Backups x) (st_Components x).

Definition set_st_Operations (v : slice Operation) (x : State) : State :=
  MkState (st_SchemaVersion x) (st_Generation x) (st_Host x) (st_HandshakeHost x)
    (st_HandshakeHostChange x) (st_EnrollmentIdentity x) (st_DNS x) (st_Invites x) (st_Nodes x)
    (st_Clients x) (st_Presets x) (st_Policies x) (st_Transports x) (st_Exposes x) (st_Certificates x) v
    (st_Logging x) (st_Backups x) (st_Components x).

Definition set_st_Nodes (v : slice Node) (x : State) : State :=
  MkState (st_SchemaVersion x) (st_Generation x) (st_Host x) (st_HandshakeHost x)
    (st_HandshakeHostChange x) (st_EnrollmentIdentity x) (st_DNS x) (st_Invites x) v (st_Clients x)
    (st_Presets x) (st_Policies x) (st_Transports x) (st_Exposes x) (st_Certificates x) (st_Operations
    x) (st_Logging x) (st_Backups x) (st_Components x).

Definition set_tr_State (v : TransportState) (x : Transport) : Transport :=
  MkTransport (tr_SchemaVersion x) (tr_OwnerKind x) (tr_OwnerID x) (tr_Kind x) v (tr_Provider x) (tr_Protocol x) (tr_Port x)
    (tr_CredentialGeneration x) (tr_CredentialRef x) (tr_PublicKey x) (tr_HandshakeHost x) (tr_ConfigHash x).

Definition set_node_ActiveTransport (v : TransportKind) (x : Node) : Node :=
  MkNode (node_SchemaVersion x) (node_ID x) (node_Name x) (node_Lifecycle x) (node_OverlayIPv4 x) (node_CredentialGeneration x)
    (node_ControlProtocol x) (node_AssignedPresets x) v (node_IdempotencyRecords x) (node_Gateway x) (node_CreatedAt x) (node_RevokedAt x).

Definition set_st_Transports (v : slice Transport) (x : State) : State :=
  MkState (st_SchemaVersion x) (st_Generation x) (st_Host x) (st_HandshakeHost x) (st_HandshakeHostChange x) (st_EnrollmentIdentity x)
    (st_DNS x) (st_Invites x) (st_Nodes x) (st_Clients x) (st_Presets x) (st_Policies x) v (st_Exposes x) (st_Certificates x)
    (st_Operations x) (st_Logging x) (st_Backups x) (st_Components x).
Definition set_st_Exposes (v : slice Expose) (x : State) : State :=
  MkState (st_SchemaVersion x) (st_Generation x) (st_Host x) (st_HandshakeHost x) (st_HandshakeHostChange x) (st_EnrollmentIdentity x)
    (st_DNS x) (st_Invites x) (st_Nodes x) (st_Clients x) (st_Presets x) (st_Policies x) (st_Transports x) v (st_Certificates x)
    (st_Operations x) (st_Logging x) (st_Backups x) (st_Components x).
Definition set_expose_State (v : ExposeState) (x : Expose) : Expose :=
  MkExpose (expose_SchemaVersion x) (expose_ID x) (expose_NodeID x) (expose_Name x) (expose_Upstream x) (expose_RouteMode x) (expose_Path x)
    (expose_BodyLimitBytes x) (expose_UpstreamTimeoutSeconds x) (expose_ConcurrentRequests x) (expose_TunnelPort x) v (expose_Generation x) (expose_CreatedAt x).
Definition set_expose_Generation (v : N) (x : Expose) : Expose :=
  MkExpose (expose_SchemaVersion x) (expose_ID x) (expose_NodeID x) (expose_Name x) (expose_Upstream x) (expose_RouteMode x) (expose_Path x)
    (expose_BodyLimitBytes x) (expose_UpstreamTimeoutSeconds x) (expose_ConcurrentRequests x) (expose_TunnelPort x) (expose_State x) v (expose_CreatedAt x).
