(* ===== verification/Checks.v ===== *)
(** * Field checks ([internal/model/validate.go], the primitive validators)

    The patterns and single-field checks every resource validator is built from.
    A check is a function into [result unit]; its error carries the field path. *)

From S2P Require Import Prelude GoTime GoText GoNet Types.

Local Open Scope string_scope.
Local Open Scope list_scope.

(** ** Patterns *)

Definition hex := Class hex_lower.
Definition alnum (c : ascii) : bool := lower_alpha c || upper_alpha c || is_digit c.
Definition lower_alnum (c : ascii) : bool := lower_alpha c || is_digit c.

Definition uuidPattern : re :=
  Cat (times hex 8) (Cat (chr "-"%char) (Cat (times hex 4) (Cat (chr "-"%char) (Cat (times hex 4)
    (Cat (chr "-"%char) (Cat (times hex 4) (Cat (chr "-"%char) (times hex 12)))))))).
Definition name_tail (c : ascii) : bool := alnum c || in_chars "._-" c.
Definition namePattern : re := Cat (Class alnum) (upto (Class name_tail) 62).
Definition secretRefPattern : re :=
  let kind := Class (λ c, lower_alnum c || in_chars "_-" c) in
  Cat (Class lower_alpha) (Cat kind (Cat (upto kind 30) (Cat (chr ":"%char)
    (Cat (Class alnum) (upto (Class name_tail) 127))))).
Definition hashPattern : re := times hex 64.
Definition fingerprintPattern : re := Cat (lit "sha256:") (times hex 64).
Definition serialPattern : re := Cat hex (upto hex 31).
Definition componentPattern : re :=
  Cat (Class lower_alpha) (upto (Class (λ c, lower_alnum c || in_chars "._-" c)) 62).
Definition candidateIDPattern : re :=
  Cat (Class lower_alpha) (upto (Class (λ c, lower_alnum c || in_chars "-" c)) 31).
Definition errorCodePattern : re := componentPattern.
Definition nonzero_number : re := Cat (Class (between "1"%char "9"%char)) (Star (Class is_digit)).
Definition protocolPattern : re :=
  Cat nonzero_number (Cat (chr "."%char) (Alt (chr "0"%char) nonzero_number)).
Definition base32_char (c : ascii) : bool := upper_alpha c || between "2"%char "7"%char c.
Definition inviteIDPattern : re := Cat (lit "inv-") (times (Class base32_char) 6).
Definition recoveryIDPattern : re := Cat (lit "rec-") (times (Class base32_char) 6).

(** ** White space

    [strings.TrimSpace(s) == ""]: the text is a sequence of UTF-8 encoded Unicode
    white space. *)
Definition bytes (l : list N) : string := foldr (λ n s, String (byte n) s) "" l.
Definition ascii_space (c : ascii) : bool := ((9 <=? code c) && (code c <=? 13) || (code c =? 32))%N.
Definition byte_range (a b : N) : re := Class (λ c, (a <=? code c) && (code c <=? b))%N.
Definition space_re : re :=
  foldr Alt Empty
    [ Class ascii_space; lit (bytes [194; 133]); lit (bytes [194; 160]); lit (bytes [225; 154; 128]);
      Cat (lit (bytes [226; 128])) (byte_range 128 138); lit (bytes [226; 128; 168]); lit (bytes [226; 128; 169]);
      lit (bytes [226; 128; 175]); lit (bytes [226; 129; 159]); lit (bytes [227; 128; 128]) ]%N.
Definition is_blank (s : string) : bool := matches (Star space_re) s.

Definition crlf : string := bytes [13; 10]%N.

(** ** Paths *)
Definition indexPath (path : string) (index : nat) : string := path +:+ "[" +:+ itoa (N.of_nat index) +:+ "]".
Definition targetKey (kind : TargetKind) (id : string) : string := TargetKind_string kind +:+ ":" +:+ id.

(** ** Checks *)

Definition validateSchema (got want : Z) : result unit := reject (negb (got =? want)%Z) (Invalid "schema_version").
Definition validateUUID (path value : string) : result unit := reject (negb (matches uuidPattern value)) (Invalid path).
Definition validateName (path value : string) : result unit := reject (negb (matches namePattern value)) (Invalid path).
Definition validateHash (path value : string) : result unit := reject (negb (matches hashPattern value)) (Invalid path).
Definition validateFingerprint (path value : string) : result unit := reject (negb (matches fingerprintPattern value)) (Invalid path).
Definition validateOpaqueRef (path value : string) : result unit := reject (negb (matches secretRefPattern value)) (Invalid path).

Definition validateTime (path : string) (value : time) : result unit :=
  reject (IsZero value) (Invalid path);;
  reject (negb (zone_offset value =? 0)%Z) (Invalid path).

(** A canonical IPv4 address: parsed, of the IPv4 family, and printed back. *)
Definition canonical_ipv4 (value : string) : option N :=
  match ParseAddr value with
  | Some (V4 n) => if String.eqb (print_ipv4 n) value then Some n else None
  | _ => None
  end.

Definition validateIPv4 (path value : string) : result unit :=
  match canonical_ipv4 value with Some _ => Ok () | None => Err (Invalid path) end.

Definition validateIPv4Prefix (path value : string) : result netprefix :=
  match ParsePrefix value with
  | Some p =>
      if negb (Is4 (prefix_addr p)) || negb (bool_decide (Masked p = p)) || negb (String.eqb (prefix_string p) value)
      then Err (Invalid path) else Ok p
  | None => Err (Invalid path)
  end.

Definition validateDomain (path value : string) : result unit :=
  reject (String.eqb value "" || negb (String.eqb value (ToLower value)) || (253 <? String.length value)%nat
          || HasPrefix value "." || HasSuffix value ".") (Invalid path);;
  range_check (λ _ label,
    reject (String.eqb label "" || (63 <? String.length label)%nat
            || bool_decide (head_char label = Some "-"%char) || bool_decide (last_char label = Some "-"%char))
      (Invalid path);;
    reject (negb (str_forall (λ c, lower_alnum c || Ascii.eqb c "-"%char) label)) (Invalid path))
    (Split value "."%char).

Definition validateUpstream (path value : string) : result unit :=
  match SplitHostPort value with
  | None => Err (Invalid path)
  | Some (host, portText) =>
      reject (String.eqb host "" || String.eqb portText "") (Invalid path);;
      match Atoi portText with
      | None => Err (Invalid path)
      | Some port =>
          reject ((port <? 1) || (65535 <? port))%Z (Invalid path);;
          match ParseAddr host with
          | Some address => reject (negb (String.eqb (addr_string address) host)) (Invalid path)
          | None => if String.eqb host "localhost" then Ok () else validateDomain path host
          end
      end
  end.

(** The body shared by the loops that collect the values seen so far. *)
Definition check_unique (key : string) (e : error) (seen : gset string) : result (gset string) :=
  reject (bool_decide (key ∈ seen)) e;; Ok ({[key]} ∪ seen).

Definition validateUniqueNames (path : string) (values : list string) : result unit :=
  _ ← range (λ index value seen,
    validateName (indexPath path index) value;;
    check_unique (ToLower value) (Invalid (indexPath path index)) seen) values ∅;
  Ok ().

Definition validateUniqueStrings (path : string) (values : list string) : result unit :=
  _ ← range (λ index value seen,
    reject (is_blank value || ContainsAny value crlf) (Invalid (indexPath path index));;
    check_unique value (Invalid (indexPath path index)) seen) values ∅;
  Ok ().

Definition validateUUIDSnapshot (path : string) (values : slice string) : result unit :=
  reject (is_nil values) (Invalid path);;
  _ ← range (λ index value seen,
    validateUUID (indexPath path index) value;;
    reject (bool_decide (value ∈ seen)) (Invalid (indexPath path index));;
    reject (match index with
            | O => false
            | S i => str_leb value (default "" (items values !! i))
            end) (Invalid path);;
    Ok ({[value]} ∪ seen : gset string)) (items values) ∅;
  Ok ().

Definition validOperationType (t : OperationType) : bool :=
  match t with OperationTypeUnsupported _ => false | _ => true end.
Definition validOperationState (s : OperationState) : bool :=
  match s with OperationStateUnsupported _ => false | _ => true end.
Definition validResultStatus (s : ResultStatus) : bool :=
  match s with ResultUnsupported _ => false | _ => true end.
Definition validOperationTarget (kind : string) : bool :=
  bool_decide (kind ∈ ["host"; "node"; "client"; "preset"; "policy"; "transport"; "expose"; "certificate"; "backup"]).

(** [equalStringSet]: equal as multisets, by sorting both. *)
Definition sort_strings (l : list string) : list string := merge_sort str_le l.

Definition equalStringSet (left right : list string) : bool :=
  bool_decide (length left = length right) && bool_decide (sort_strings left = sort_strings right).

(** ** What the checks establish *)

Lemma matches_empty_uuid : matches uuidPattern "" = false.
Proof. reflexivity. Qed.

Lemma validateUUID_ok path value u : validateUUID path value = Ok u ↔ matches uuidPattern value = true.
Proof. unfold validateUUID. rewrite reject_ok negb_false_iff //. Qed.

(** An identifier that passed [validateUUID] is never the empty string, which the
    code uses for "absent". *)
Lemma validateUUID_nonempty path value u : validateUUID path value = Ok u → value ≠ "".
Proof. intros H%validateUUID_ok ->. by rewrite matches_empty_uuid in H. Qed.

Lemma validateTime_ok path t u : validateTime path t = Ok u ↔ instant t ≠ 0%Z ∧ zone_offset t = 0%Z.
Proof.
  unfold validateTime, IsZero. split.
  - intros H. ok_inv H. bool_facts. done.
  - intros [H1 H2]. destruct u. rewrite (proj2 (Z.eqb_neq _ _) H1) H2 //.
Qed.

Lemma first_of_app_digits chars a s :
  str_exists (in_chars chars) a = false → first_of chars (a +:+ s) = first_of chars s.
Proof.
  induction a as [|c a IH]; intros H; [done|].
  cbn in H. apply orb_false_iff in H as [Hc H]. rewrite str_app_cons. cbn. by rewrite Hc IH.
Qed.

Lemma itoa_octet_plain o : (o < 256)%N → str_exists (in_chars ".:%") (itoa o) = false.
Proof.
  intros Ho%elem_of_all_octets.
  assert (Hall : forallb (λ o, negb (str_exists (in_chars ".:%") (itoa o))) all_octets = true) by by vm_compute.
  rewrite forallb_forall in Hall. apply list_elem_of_In in Ho.
  by apply Hall, negb_true_iff in Ho.
Qed.

(** [canonical_ipv4] accepts exactly the text of 32-bit addresses. *)
Lemma canonical_ipv4_spec s n : canonical_ipv4 s = Some n ↔ (n < 4294967296)%N ∧ s = print_ipv4 n.
Proof.
  unfold canonical_ipv4, ParseAddr. split.
  - destruct (first_of ".:%" s) as [c|]; [|done].
    destruct (decide (c = "."%char)) as [->|Hc].
    + destruct (parse_ipv4 s) as [m|] eqn:Hp; [|done]. cbn.
      apply print_parse_ipv4 in Hp as [Hs Hlt]. rewrite Hs String.eqb_refl. naive_solver.
    + destruct (decide (c = ":"%char)) as [->|Hc']; [by destruct (parse_ipv6 s)|].
      by destruct c as [[] [] [] [] [] [] [] []].
  - intros [Hn ->].
    replace (first_of ".:%" (print_ipv4 n)) with (Some "."%char).
    + rewrite parse_print_ipv4 //= String.eqb_refl //.
    + unfold print_ipv4. rewrite first_of_app_digits //. apply itoa_octet_plain, octet_lt.
Qed.

Lemma canonical_ipv4_inj s t n : canonical_ipv4 s = Some n → canonical_ipv4 t = Some n → s = t.
Proof. rewrite !canonical_ipv4_spec. intros [_ ->] [_ ->]. done. Qed.

(** The loops over a set of seen values accept exactly duplicate-free lists. *)
Lemma check_unique_ok key e seen seen' :
  check_unique key e seen = Ok seen' ↔ (key ∉ seen) ∧ seen' = {[key]} ∪ seen.
Proof.
  unfold check_unique. split.
  - intros H. ok_inv H. bool_facts. naive_solver.
  - intros [H ->]. rewrite bool_decide_eq_false_2 //.
Qed.

(** Any loop that checks each element and refuses a repeated key. *)
Lemma range_unique_ok {A K} `{Countable K} (body : nat → A → gset K → result (gset K)) (chk : nat → A → Prop) (key : A → K) xs s :
  (∀ i x seen seen', xs !! i = Some x →
     body i x seen = Ok seen' ↔ chk i x ∧ (key x ∉ seen) ∧ seen' = {[key x]} ∪ seen) →
  range body xs ∅ = Ok s ↔
  (∀ i x, xs !! i = Some x → chk i x) ∧ NoDup (key <$> xs) ∧ s = list_to_set (key <$> xs).
Proof.
  intros Hbody. set (P := λ p (seen : gset K), (∀ i x, p !! i = Some x → chk i x) ∧
    NoDup (key <$> p) ∧ seen = list_to_set (key <$> p)).
  assert (Hstep : ∀ p x seen, P p seen → chk (length p) x → (key x ∉ seen) → P (p ++ [x]) ({[key x]} ∪ seen)).
  { intros p x seen (Hc & Hn & ->) Hx Hk. split_and!.
    - intros i y [Hy|[Hi Hy]]%lookup_app_Some; [by apply Hc|].
      apply list_lookup_singleton_Some in Hy as [Hi' <-]. by replace i with (length p) by lia.
    - rewrite fmap_app. apply NoDup_app. cbn. split_and!; [done|set_solver|apply NoDup_singleton].
    - rewrite fmap_app list_to_set_app_L. set_solver. }
  assert (Hlast : ∀ p x q, xs = p ++ x :: q → xs !! length p = Some x).
  { intros p x q ->. by rewrite lookup_app_r // Nat.sub_diag. }
  split.
  - intros Hr. refine (range_inv _ P xs ∅ s _ _ Hr).
    + intros p x q seen seen' Heq HP Hb. apply Hbody in Hb as (? & ? & ->); [by apply Hstep|by eapply Hlast].
    + split_and!; [done|constructor|done].
  - intros (Hc & Hn & ->). destruct (range_total body P xs ∅) as (s & Hr & _ & _ & ->); [| |done].
    + intros p x q seen Heq HP. assert (Hl := Hlast _ _ _ Heq). exists ({[key x]} ∪ seen).
      assert (Hk : key x ∉ seen).
      { destruct HP as (_ & _ & ->). rewrite Heq fmap_app in Hn. apply NoDup_app in Hn as (_ & Hn & _).
        intros Hin. apply elem_of_list_to_set in Hin. apply (Hn _ Hin). cbn. left. }
      split; [apply Hbody; auto|apply Hstep; auto].
    + split_and!; [done|constructor|done].
Qed.

Lemma equalStringSet_spec l r : equalStringSet l r = true ↔ l ≡ₚ r.
Proof.
  unfold equalStringSet. rewrite andb_true_iff !bool_decide_eq_true. unfold sort_strings. split.
  - intros [_ H]. rewrite -(merge_sort_Permutation str_le l) -(merge_sort_Permutation str_le r) H //.
  - intros H. split; [by apply Permutation_length|].
    apply (StronglySorted_unique str_le).
    + apply (StronglySorted_merge_sort _ _).
    + apply (StronglySorted_merge_sort _ _).
    + rewrite !merge_sort_Permutation //.
Qed.
