(* ===== verification/GoConv.v ===== *)
(** * More of [strings] and [strconv], and [path/filepath]

    [strings.TrimSpace], [TrimPrefix], [TrimSuffix] and [Count], [strconv.ParseUint] with a
    base prefix, and the printing of integers; then paths, folded names and joined
    addresses. *)

From S2P Require Import Prelude GoTime GoText GoNet Types Checks.

Local Open Scope string_scope.
Local Open Scope list_scope.

(** ** Trimming *)

(** The text after one encoded white-space character, if it starts with one. *)
Definition strip_space (s : string) : option string :=
  match s with
  | EmptyString => None
  | String a s1 =>
      if ascii_space a then Some s1 else
      match s1 with
      | EmptyString => None
      | String b s2 =>
          if matches space_re (String a (String b "")) then Some s2 else
          match s2 with
          | EmptyString => None
          | String c s3 => if matches space_re (String a (String b (String c ""))) then Some s3 else None
          end
      end
  end.

Fixpoint trim_left_loop (fuel : nat) (s : string) : string :=
  match fuel with
  | O => s
  | S fuel => match strip_space s with Some s' => trim_left_loop fuel s' | None => s end
  end.
Definition trim_left (s : string) : string := trim_left_loop (String.length s) s.

(** What precedes the longest blank end. *)
Fixpoint trim_right (s : string) : string :=
  if is_blank s then "" else match s with EmptyString => "" | String c s' => String c (trim_right s') end.

Definition TrimSpace (s : string) : string := trim_right (trim_left s).

Fixpoint drop_chars (n : nat) (s : string) : string :=
  match n, s with S n, String _ s' => drop_chars n s' | _, _ => s end.
Fixpoint take_chars (n : nat) (s : string) : string :=
  match n, s with S n, String c s' => String c (take_chars n s') | _, _ => "" end.

Definition TrimPrefix (s p : string) : string := if HasPrefix s p then drop_chars (String.length p) s else s.
Definition TrimSuffix (s p : string) : string :=
  if HasSuffix s p then take_chars (String.length s - String.length p) s else s.

(** [strings.Count] of a non-empty substring: occurrences do not overlap. *)
Fixpoint count_loop (fuel : nat) (s sub : string) : nat :=
  match fuel with
  | O => 0%nat
  | S fuel =>
      match s with
      | EmptyString => 0%nat
      | String _ s' => if HasPrefix s sub then S (count_loop fuel (drop_chars (String.length sub) s) sub) else count_loop fuel s' sub
      end
  end.
Definition Count (s sub : string) : nat := count_loop (String.length s) s sub.

(** ** Numbers *)

(** [strconv.Itoa], [%d] *)
Definition Itoa (z : Z) : string := if (z <? 0)%Z then "-" +:+ itoa (Z.to_N (- z)) else itoa (Z.to_N z).

(** The value of a digit below 36. *)
Definition digit36 (c : ascii) : option N :=
  if is_digit c then Some (digit_value c)
  else if lower_alpha (lower_char c) then Some (code (lower_char c) - 87)%N else None.

Definition underscore : ascii := "_"%char.

(** The digits in a base, underscores skipped; [None] outside the range. *)
Fixpoint uint_digits (base maximum acc : N) (s : string) : option N :=
  match s with
  | EmptyString => Some acc
  | String c s' =>
      if Ascii.eqb c underscore then uint_digits base maximum acc s' else
      d ← digit36 c;
      if (base <=? d)%N || (maximum <? acc * base + d)%N then None else uint_digits base maximum (acc * base + d) s'
  end.

(** The base a literal names, and its digits. *)
Definition base_prefix (s : string) : N * string :=
  match s with
  | String "0"%char s1 =>
      match s1 with
      | String c (String _ _ as s2) =>
          let c := lower_char c in
          if Ascii.eqb c "b"%char then (2%N, s2) else if Ascii.eqb c "o"%char then (8%N, s2)
          else if Ascii.eqb c "x"%char then (16%N, s2) else (8%N, s1)
      | _ => (8%N, s1)
      end
  | _ => (10%N, s)
  end.

Inductive last_seen := SeenNothing | SeenDigit | SeenUnderscore | SeenOther.
Fixpoint underscores_between (hex : bool) (last : last_seen) (s : string) : bool :=
  match s with
  | EmptyString => match last with SeenUnderscore => false | _ => true end
  | String c s' =>
      if is_digit c || (hex && between "a"%char "f"%char (lower_char c)) then underscores_between hex SeenDigit s'
      else if Ascii.eqb c underscore then match last with SeenDigit => underscores_between hex SeenUnderscore s' | _ => false end
      else match last with SeenUnderscore => false | _ => underscores_between hex SeenOther s' end
  end.

(** [underscoreOK]: underscores only between digits, the base prefix counting as one. *)
Definition underscoreOK (s : string) : bool :=
  match s with
  | String "0"%char (String c s2) =>
      let c := lower_char c in
      if Ascii.eqb c "b"%char || Ascii.eqb c "o"%char then underscores_between false SeenDigit s2
      else if Ascii.eqb c "x"%char then underscores_between true SeenDigit s2
      else underscores_between false SeenNothing s
  | _ => underscores_between false SeenNothing s
  end.

(** [strconv.ParseUint(s, 0, bits)] with the largest value of the width. *)
Definition ParseUint0 (s : string) (maximum : N) : option N :=
  if String.eqb s "" then None else
  let '(base, digits) := base_prefix s in
  n ← uint_digits base maximum 0 digits;
  if str_exists (Ascii.eqb underscore) s && negb (underscoreOK s) then None else Some n.

(** [fmt.Sprintf("0x%08x", n)] of a 32-bit value. *)
Definition hex32 (n : N) : string :=
  "0x" +:+ foldr (λ i s, String (hex_digit ((n / 16 ^ i) mod 16)) s) "" [7; 6; 5; 4; 3; 2; 1; 0]%N.

Example trims : TrimSpace (bytes [32; 9; 49; 32; 50; 194; 160; 10]%N) = "1 2".
Proof. by vm_compute. Qed.
Example parses : map (λ s, ParseUint0 s 4294967295) ["0x0200_0000"; "017"; "0"; "0x"; "_1"; "4294967296"; "12"; "0b12"]
  = [Some 33554432; Some 15; Some 0; None; None; None; Some 12; None]%N.
Proof. by vm_compute. Qed.
Example prints : hex32 33554432 = "0x02000000".
Proof. by vm_compute. Qed.
Example counts : Count "aXaXa" "aXa" = 1%nat ∧ TrimSuffix (TrimPrefix "net.eth0.rp" "net.") ".rp" = "eth0".
Proof. by vm_compute. Qed.

(** * Paths, folded names and joined addresses

    What the exposes use of [path/filepath], of the case mappings of [strings] beyond ASCII
    text, and of [net.JoinHostPort]. *)

(** ** [path/filepath] on Unix *)

(** One segment of a path; the segments that are kept so far, the last one first. *)
Definition clean_step (rooted : bool) (out : list string) (segment : string) : list string :=
  if String.eqb segment "" || String.eqb segment "." then out
  else if String.eqb segment ".." then
    match out with
    | [] => if rooted then [] else [".."]
    | last :: rest => if String.eqb last ".." then ".." :: out else rest
    end
  else segment :: out.

Definition Clean (path : string) : string :=
  if String.eqb path "" then "." else
  let rooted := HasPrefix path "/" in
  let joined := join "/"%char (rev (foldl (clean_step rooted) [] (Split path "/"%char))) in
  if rooted then "/" +:+ joined else if String.eqb joined "" then "." else joined.

Fixpoint strip_trailing (fuel : nat) (path : string) : string :=
  match fuel with
  | O => path
  | S fuel => if HasSuffix path "/" then strip_trailing fuel (TrimSuffix path "/") else path
  end.

(** [filepath.Base]; a path of [n] bytes has at most [n] trailing slashes. *)
Definition Base (path : string) : string :=
  if String.eqb path "" then "." else
  let stripped := strip_trailing (String.length path) path in
  if String.eqb stripped "" then "/" else
  match CutLast stripped "/"%char with Some (_, base) => base | None => stripped end.

(** ** Case mappings *)

(** The text with two or three bytes replaced by one letter, and the ASCII letters in lower
    case. *)
Fixpoint map_case (two three : list (list N * ascii)) (s : string) : string :=
  match s with
  | EmptyString => ""
  | String a s1 =>
      match s1 with
      | EmptyString => String (lower_char a) ""
      | String b s2 =>
          match list_find (λ p, p.1 = [code a; code b]) two with
          | Some (_, (_, letter)) => String letter (map_case two three s2)
          | None =>
              match s2 with
              | EmptyString => String (lower_char a) (map_case two three s1)
              | String c s3 =>
                  match list_find (λ p, p.1 = [code a; code b; code c]) three with
                  | Some (_, (_, letter)) => String letter (map_case two three s3)
                  | None => String (lower_char a) (map_case two three s1)
                  end
              end
          end
      end
  end.

(** The Kelvin sign U+212A, the long s U+017F and the dotted I U+0130. *)
Definition kelvin_sign : list N * ascii := ([226; 132; 170]%N, "k"%char).
Definition long_s : list N * ascii := ([197; 191]%N, "s"%char).
Definition dotted_I : list N * ascii := ([196; 176]%N, "i"%char).

(** [strings.ToLower] as far as its result is ASCII text: no other letter has a lower-case
    form in ASCII. *)
Definition ToLowerUnicode (s : string) : string := map_case [dotted_I] [kelvin_sign] s.

(** [strings.EqualFold] where one of the texts is ASCII: no other letter folds to ASCII. *)
Definition EqualFold (s t : string) : bool := String.eqb (map_case [long_s] [kelvin_sign] s) (map_case [long_s] [kelvin_sign] t).

(** [net.JoinHostPort] *)
Definition JoinHostPort (host port : string) : string :=
  if Contains host ":" then "[" +:+ host +:+ "]:" +:+ port else host +:+ ":" +:+ port.
