(* ===== verification/Identity.v ===== *)
(** * Identities, generations and lifecycles ([internal/model/transition.go])

    UUID generation and collision-free allocation, the checked successor on
    generations, and the lifecycle moves of nodes and clients. *)

From S2P Require Import Prelude GoTime GoText GoNet Types Checks.

Local Open Scope string_scope.
Local Open Scope list_scope.

(** ** Generations *)

Definition NextGeneration (current : N) : result N :=
  if (current =? max_uint64)%N then Err (Sentinel ErrGenerationOverflow) else Ok (current + 1)%N.

(** ** UUIDs *)

Definition hex_byte (b : N) : string := String (hex_digit (b / 16)) (String (hex_digit (b mod 16)) "").
Definition hex_bytes (l : list N) : string := foldr (λ b s, hex_byte b +:+ s) "" l.

(** [raw[6] & 0x0f | 0x40] and [raw[8] & 0x3f | 0x80] *)
Definition stamp_version (raw : list N) : list N :=
  let raw := <[6%nat := N.lor (N.land (raw !!! 6%nat) 15) 64]> raw in
  <[8%nat := N.lor (N.land (raw !!! 8%nat) 63) 128]> raw.

(** [entropy] is what [io.ReadFull] delivers: sixteen bytes, or an error. *)
Definition newUUIDFrom (entropy : result (list N)) : result string :=
  raw ← wrap "read UUID entropy" entropy;
  let raw := stamp_version raw in
  let part i j := hex_bytes (take (j - i) (drop i raw)) in
  Ok (part 0 4 +:+ "-" +:+ part 4 6 +:+ "-" +:+ part 6 8 +:+ "-" +:+ part 8 10 +:+ "-" +:+ part 10 16)%nat.

Definition validateGeneratedUUID (id : string) : result unit :=
  wrap "generated UUID" (validateUUID "id" id);;
  reject (negb (bool_decide (String.get 14 id = Some "4"%char))
          || negb (match String.get 19 id with Some c => in_chars "89ab" c | None => false end))
    (Message "generated UUID").

(** A [UUIDGenerator] is a stateful function; [gen n] is the outcome of its call
    number [n], and the cursor counts the calls made so far. *)
Definition generator := nat → result string.

Definition UUIDCollisionRetryLimit : nat := 32.

Fixpoint allocate_loop (attempts : nat) (occupied : gset string) (gen : generator) (cursor : nat)
    : result (string * gset string) * nat :=
  match attempts with
  | O => (Err (Sentinel ErrIdentityCollision), cursor)
  | S attempts' =>
      match gen cursor with
      | Err e => (Err (Wrapped "generate UUID" e), S cursor)
      | Ok id =>
          match validateGeneratedUUID id with
          | Err e => (Err e, S cursor)
          | Ok _ =>
              if bool_decide (id ∈ occupied) then allocate_loop attempts' occupied gen (S cursor)
              else (Ok (id, {[id]} ∪ occupied), S cursor)
          end
      end
  end.

(** The identifier, the occupied set with it added, and the generator's cursor. *)
Definition AllocateUUID (occupied : gset string) (gen : generator) (cursor : nat)
    : result (string * gset string) * nat :=
  allocate_loop UUIDCollisionRetryLimit occupied gen cursor.

(** ** Lifecycles *)

Definition transitionError : error := Sentinel ErrInvalidTransition.

Definition transitionLifecycle (current requested : Lifecycle) (createdAt : time) (revokedAt : option time) (at_ : time)
    : result (Lifecycle * option time) :=
  if bool_decide (current = requested) then Ok (current, revokedAt)
  else match current, requested with
  | LifecycleActive, LifecycleRevoked =>
      match validateTime "revoked_at" at_ with
      | Err _ => Err transitionError
      | Ok _ => if Before at_ createdAt then Err transitionError else Ok (LifecycleRevoked, Some at_)
      end
  | LifecycleRevoked, LifecycleDeleted =>
      match revokedAt with
      | None => Err transitionError
      | Some t => Ok (LifecycleDeleted, Some t)
      end
  | _, _ => Err transitionError
  end.

Definition node_AdvanceCredentialGeneration (node : Node) : result Node :=
  reject (negb (bool_decide (node_Lifecycle node = LifecycleActive))) transitionError;;
  next ← wrap "node credential" (NextGeneration (node_CredentialGeneration node));
  Ok (set_node_CredentialGeneration next node).

Definition client_AdvanceCredentialGeneration (client : Client) : result Client :=
  reject (negb (bool_decide (client_Lifecycle client = LifecycleActive))) transitionError;;
  next ← wrap "client credential" (NextGeneration (client_CredentialGeneration client));
  Ok (set_client_CredentialGeneration next client).

Definition node_Revoke (node : Node) (at_ : time) : result Node :=
  '(lifecycle, revokedAt) ← transitionLifecycle (node_Lifecycle node) LifecycleRevoked (node_CreatedAt node) (node_RevokedAt node) at_;
  Ok (set_node_RevokedAt revokedAt (set_node_Lifecycle lifecycle node)).

Definition client_Revoke (client : Client) (at_ : time) : result Client :=
  '(lifecycle, revokedAt) ← transitionLifecycle (client_Lifecycle client) LifecycleRevoked (client_CreatedAt client) (client_RevokedAt client) at_;
  Ok (set_client_RevokedAt revokedAt (set_client_Lifecycle lifecycle client)).

Definition node_Delete (node : Node) : result Node :=
  '(lifecycle, revokedAt) ← transitionLifecycle (node_Lifecycle node) LifecycleDeleted (node_CreatedAt node) (node_RevokedAt node) zero_time;
  Ok (set_node_RevokedAt revokedAt (set_node_Lifecycle lifecycle node)).

Definition client_Delete (client : Client) : result Client :=
  '(lifecycle, revokedAt) ← transitionLifecycle (client_Lifecycle client) LifecycleDeleted (client_CreatedAt client) (client_RevokedAt client) zero_time;
  Ok (set_client_RevokedAt revokedAt (set_client_Lifecycle lifecycle client)).

(** ** Generations never wrap *)

Lemma NextGeneration_ok g g' : NextGeneration g = Ok g' ↔ (g ≠ max_uint64) ∧ g' = (g + 1)%N.
Proof. unfold NextGeneration. destruct (g =? max_uint64)%N eqn:E; bool_facts; naive_solver. Qed.

Lemma NextGeneration_uint64 g g' : is_uint64 g → NextGeneration g = Ok g' → is_uint64 g' ∧ (g < g')%N.
Proof. unfold is_uint64. intros Hg [Hne ->]%NextGeneration_ok. lia. Qed.

(** ** Allocation *)

(** The identifier is new, well formed and recorded; the generator was called at
    most [attempts] times, and every identifier it produced before was taken. *)
Lemma allocate_loop_ok attempts occupied gen cursor id occupied' cursor' :
  allocate_loop attempts occupied gen cursor = (Ok (id, occupied'), cursor') →
  (id ∉ occupied) ∧ occupied' = {[id]} ∪ occupied ∧ validateGeneratedUUID id = Ok () ∧
  (cursor < cursor' ≤ cursor + attempts)%nat ∧ gen (pred cursor') = Ok id ∧
  (∀ k, (cursor ≤ k < pred cursor')%nat → ∃ x, gen k = Ok x ∧ x ∈ occupied).
Proof.
  revert cursor. induction attempts as [|n IH]; intros cursor; cbn; [done|].
  destruct (gen cursor) as [x|] eqn:Hg; [|done].
  destruct (validateGeneratedUUID x) as [[]|] eqn:Hv; [|done].
  case_bool_decide as Hin.
  - intros (H1 & H2 & H3 & H4 & H5 & H6)%IH. split_and!; try done; try lia.
    intros k Hk. destruct (decide (k = cursor)) as [->|]; [eauto|]. apply H6. lia.
  - intros [= <- <- <-]. split_and!; try done; lia.
Qed.

(** Allocation succeeds as soon as a fresh identifier turns up within the retry
    limit. *)
Lemma allocate_loop_complete attempts occupied gen cursor k id :
  (k < attempts)%nat →
  (∀ j, (j < k)%nat → ∃ x, gen (cursor + j)%nat = Ok x ∧ validateGeneratedUUID x = Ok () ∧ x ∈ occupied) →
  gen (cursor + k)%nat = Ok id → validateGeneratedUUID id = Ok () → id ∉ occupied →
  allocate_loop attempts occupied gen cursor = (Ok (id, {[id]} ∪ occupied), S (cursor + k)).
Proof.
  revert cursor k. induction attempts as [|n IH]; intros cursor k Hk Hpre Hg Hv Hid; [lia|]. cbn.
  destruct k as [|k].
  - rewrite Nat.add_0_r in Hg. rewrite Hg Hv bool_decide_eq_false_2 // Nat.add_0_r //.
  - destruct (Hpre 0%nat) as (x & Hx & Hvx & Hin); [lia|]. rewrite Nat.add_0_r in Hx.
    rewrite Hx Hvx bool_decide_eq_true_2 //. rewrite -Nat.add_succ_comm in Hg.
    rewrite -Nat.add_succ_comm. apply IH; try done; [lia|].
    intros j Hj. rewrite Nat.add_succ_comm. apply Hpre. lia.
Qed.

(** ** Generated UUIDs are well formed *)

Lemma hex_digit_hex v : (v < 16)%N → hex_lower (hex_digit v) = true.
Proof.
  intros Hv. assert (Hall : forallb (λ v, hex_lower (hex_digit v)) (N.of_nat <$> seq 0 16) = true) by done.
  rewrite forallb_forall in Hall. apply Hall, list_elem_of_In, list_elem_of_fmap.
  exists (N.to_nat v). rewrite elem_of_seq. lia.
Qed.

Lemma lang_hex_char v s (r : re) : (v < 16)%N → lang r s → lang (Cat hex r) (String (hex_digit v) s).
Proof.
  intros Hv Hs. change (String (hex_digit v) s) with (String (hex_digit v) "" +:+ s).
  apply lang_cat; [|done]. apply lang_class. by apply hex_digit_hex.
Qed.

Lemma lang_hex_bytes l : Forall (λ b, b < 256)%N l → lang (times hex (2 * length l)) (hex_bytes l).
Proof.
  induction 1 as [|b l Hb Hl IH]; [constructor|].
  replace (2 * length (b :: l))%nat with (S (S (2 * length l))) by (cbn; lia).
  cbn [times hex_bytes foldr]. unfold hex_byte. rewrite !str_app_cons str_app_nil_l.
  apply lang_hex_char; [apply N.Div0.div_lt_upper_bound; lia|].
  apply lang_hex_char; [apply N.mod_lt; lia|done].
Qed.

(** The version and variant nibbles [stamp_version] writes *)
Lemma version_nibble b : (b < 256)%N → (N.lor (N.land b 15) 64 / 16 = 4)%N ∧ (N.lor (N.land b 15) 64 < 256)%N.
Proof.
  intros Hb%elem_of_all_octets%list_elem_of_In.
  assert (Hall : forallb (λ b, (N.lor (N.land b 15) 64 / 16 =? 4)%N && (N.lor (N.land b 15) 64 <? 256)%N) all_octets = true) by by vm_compute.
  rewrite forallb_forall in Hall. apply Hall in Hb. bool_facts. done.
Qed.

Lemma variant_nibble b : (b < 256)%N →
  in_chars "89ab" (hex_digit (N.lor (N.land b 63) 128 / 16)) = true ∧ (N.lor (N.land b 63) 128 < 256)%N.
Proof.
  intros Hb%elem_of_all_octets%list_elem_of_In.
  assert (Hall : forallb (λ b, in_chars "89ab" (hex_digit (N.lor (N.land b 63) 128 / 16)) && (N.lor (N.land b 63) 128 <? 256)%N) all_octets = true) by by vm_compute.
  rewrite forallb_forall in Hall. apply Hall in Hb. bool_facts. done.
Qed.

Lemma lang_times_app r m n u v : lang (times r m) u → lang (times r n) v → lang (times r (m + n)) (u +:+ v).
Proof.
  revert u. induction m as [|m IH]; intros u Hu Hv; cbn.
  - inversion Hu; subst. done.
  - apply lang_cat_inv in Hu as (a & b & -> & Ha & Hb). rewrite str_app_assoc. eauto with regexp.
Qed.

Lemma lang_chr c : lang (chr c) (String c "").
Proof. apply lang_class. apply Ascii.eqb_refl. Qed.

Lemma lang_cat_chr c r s : lang r s → lang (Cat (chr c) r) (String c s).
Proof. intros H. apply (lang_cat _ _ (String c "") s); [apply lang_chr|done]. Qed.

(** The version and variant bytes, in place. *)
Lemma stamp_version_spec raw : length raw = 16%nat → Forall (λ b, b < 256)%N raw →
  ∃ a0 a1 a2 a3 a4 a5 a6 a7 a8 a9 a10 a11 a12 a13 a14 a15,
    stamp_version raw = [a0; a1; a2; a3; a4; a5; a6; a7; a8; a9; a10; a11; a12; a13; a14; a15] ∧
    Forall (λ b, b < 256)%N (stamp_version raw) ∧ (a6 / 16 = 4)%N ∧ in_chars "89ab" (hex_digit (a8 / 16)) = true.
Proof.
  intros Hlen Hraw.
  do 16 (destruct raw as [|? raw]; [done|]). destruct raw; [|done]. clear Hlen.
  repeat match goal with H : Forall _ (_ :: _) |- _ => apply Forall_cons in H as [? H] end.
  match goal with H : (?b < 256)%N |- context [stamp_version [_; _; _; _; _; _; ?b; _; _; _; _; _; _; _; _; _]] =>
    destruct (version_nibble b H) end.
  match goal with H : (?b < 256)%N |- context [stamp_version [_; _; _; _; _; _; _; _; ?b; _; _; _; _; _; _; _]] =>
    destruct (variant_nibble b H) end.
  unfold stamp_version. cbn [lookup_total list_lookup_total insert list_insert].
  do 16 eexists. split; [reflexivity|]. split; [|done]. repeat (constructor; [done|]). done.
Qed.

(** Whatever sixteen bytes the entropy source delivers, the generated text is a
    canonical version 4 UUID. *)
Lemma newUUIDFrom_valid raw id : length raw = 16%nat → Forall (λ b, b < 256)%N raw →
  newUUIDFrom (Ok raw) = Ok id → validateGeneratedUUID id = Ok ().
Proof.
  intros Hlen Hraw H.
  destruct (stamp_version_spec raw Hlen Hraw) as
    (a0 & a1 & a2 & a3 & a4 & a5 & a6 & a7 & a8 & a9 & a10 & a11 & a12 & a13 & a14 & a15 & Hs & Hb & Hver & Hvar).
  unfold newUUIDFrom in H. cbn [wrap mbind result_bind] in H. rewrite Hs in H, Hb. injection H as <-.
  unfold validateGeneratedUUID. rewrite (proj2 (validateUUID_ok "id" _ ())); last first.
  - match goal with |- context [String.get _ ?t] => set (id := t) end.
    assert (H14 : String.get 14 id = Some (hex_digit (a6 / 16))) by reflexivity.
    assert (H19 : String.get 19 id = Some (hex_digit (a8 / 16))) by reflexivity.
    rewrite H14 H19 Hver Hvar //.
  - apply matches_lang. unfold uuidPattern. cbn [take drop Nat.sub].
    repeat match goal with H : Forall _ (_ :: _) |- _ => apply Forall_cons in H as [? H] end.
    apply lang_cat; [by apply (lang_hex_bytes [a0; a1; a2; a3]); auto|].
    rewrite str_app_cons str_app_nil_l. apply lang_cat_chr.
    apply lang_cat; [by apply (lang_hex_bytes [a4; a5]); auto|].
    rewrite str_app_cons str_app_nil_l. apply lang_cat_chr.
    apply lang_cat; [by apply (lang_hex_bytes [a6; a7]); auto|].
    rewrite str_app_cons str_app_nil_l. apply lang_cat_chr.
    apply lang_cat; [by apply (lang_hex_bytes [a8; a9]); auto|].
    rewrite str_app_cons str_app_nil_l. apply lang_cat_chr.
    by apply (lang_hex_bytes [a10; a11; a12; a13; a14; a15]); auto 7.
Qed.

(** A generator fed by an entropy source that delivers sixteen bytes per call. *)
Definition entropy_generator (draws : nat → list N) : generator := λ n, newUUIDFrom (Ok (draws n)).
Definition full_reads (draws : nat → list N) : Prop :=
  ∀ n, length (draws n) = 16%nat ∧ Forall (λ b, b < 256)%N (draws n).

Lemma allocate_loop_outcome attempts occupied draws cursor : full_reads draws →
  let gen := entropy_generator draws in
  (∃ id cursor', allocate_loop attempts occupied gen cursor = (Ok (id, {[id]} ∪ occupied), cursor')
     ∧ (id ∉ occupied) ∧ validateGeneratedUUID id = Ok ()) ∨
  (allocate_loop attempts occupied gen cursor = (Err (Sentinel ErrIdentityCollision), (cursor + attempts)%nat)
     ∧ ∀ k, (k < attempts)%nat → ∃ id, gen (cursor + k)%nat = Ok id ∧ id ∈ occupied).
Proof.
  intros Hd gen. revert cursor. induction attempts as [|n IH]; intros cursor; cbn [allocate_loop].
  { right. rewrite Nat.add_0_r. split; [done|lia]. }
  assert (∃ id, gen cursor = Ok id) as [id Hid] by (eexists; reflexivity).
  assert (Hv : validateGeneratedUUID id = Ok ()).
  { destruct (Hd cursor). by apply (newUUIDFrom_valid (draws cursor)). }
  rewrite Hid Hv. case_bool_decide as Hin; [|left; eauto].
  destruct (IH (S cursor)) as [Hok|[Hfail Hall]]; [by left|right].
  split; [rewrite Hfail; f_equal; lia|]. intros [|k] Hk; [rewrite Nat.add_0_r; eauto|].
  rewrite -Nat.add_succ_comm. apply Hall. lia.
Qed.

(** ** Lifecycles move forward *)

Inductive node_step (node node' : Node) : Prop :=
  | node_step_advance : node_AdvanceCredentialGeneration node = Ok node' → node_step node node'
  | node_step_revoke at_ : node_Revoke node at_ = Ok node' → node_step node node'
  | node_step_delete : node_Delete node = Ok node' → node_step node node'.

Definition lifecycle_rank (l : Lifecycle) : nat :=
  match l with LifecycleActive => 0 | LifecycleRevoked => 1 | LifecycleDeleted => 2 | LifecycleUnsupported _ => 3 end.

Lemma transitionLifecycle_ok current requested createdAt revokedAt at_ l r :
  transitionLifecycle current requested createdAt revokedAt at_ = Ok (l, r) →
  (l = current ∧ r = revokedAt) ∨
  (current = LifecycleActive ∧ l = LifecycleRevoked ∧ r = Some at_ ∧ validateTime "revoked_at" at_ = Ok () ∧ Before at_ createdAt = false) ∨
  (current = LifecycleRevoked ∧ l = LifecycleDeleted ∧ r = revokedAt ∧ is_Some revokedAt).
Proof.
  unfold transitionLifecycle. case_bool_decide; [naive_solver|].
  destruct current, requested; try done.
  - destruct (validateTime _ _) as [[]|] eqn:Ht; [|done]. destruct (Before at_ createdAt) eqn:Hb; [done|].
    intros [= <- <-]. right. left. done.
  - destruct revokedAt; [|done]. intros [= <- <-]. right. right. eauto.
Qed.

(** What one step may change. *)
Definition node_evolves (node node' : Node) : Prop :=
  node_ID node' = node_ID node ∧ node_CreatedAt node' = node_CreatedAt node ∧
  (lifecycle_rank (node_Lifecycle node) ≤ lifecycle_rank (node_Lifecycle node'))%nat ∧
  (node_CredentialGeneration node ≤ node_CredentialGeneration node')%N ∧
  (is_uint64 (node_CredentialGeneration node) → is_uint64 (node_CredentialGeneration node')) ∧
  (node_Lifecycle node ≠ LifecycleActive →
     node_CredentialGeneration node' = node_CredentialGeneration node ∧ node_RevokedAt node' = node_RevokedAt node).

Lemma node_evolves_step node node' : node_step node node' → node_evolves node node'.
Proof.
  intros [H|at_ H|H].
  - unfold node_AdvanceCredentialGeneration in H. ok_inv H. injection H as <-. apply negb_false_iff, bool_decide_eq_true in G.
    unfold node_evolves. cbn. rewrite G. split_and!; try done.
    + apply NextGeneration_ok in G0 as [_ ->]. lia.
    + intros Hu. by eapply NextGeneration_uint64.
  - unfold node_Revoke in H. ok_step H. destruct a as [l r]. injection H as <-.
    apply transitionLifecycle_ok in G as [[-> ->]|[(Ha & -> & -> & _)|(Ha & -> & -> & _)]]; unfold node_evolves; cbn; rewrite ?Ha; ands; naive_solver.
  - unfold node_Delete in H. ok_step H. destruct a as [l r]. injection H as <-.
    apply transitionLifecycle_ok in G as [[-> ->]|[(Ha & -> & -> & _)|(Ha & -> & -> & _)]]; unfold node_evolves; cbn; rewrite ?Ha; ands; naive_solver.
Qed.

#[export] Instance node_evolves_preorder : PreOrder node_evolves.
Proof.
  split; [done|]. intros x y z (H1 & H2 & H3 & H4 & H5 & H6) (K1 & K2 & K3 & K4 & K5 & K6). unfold node_evolves.
  split_and!; try congruence; try lia; [auto|]. intros Hx. destruct (H6 Hx) as [E1 E2].
  destruct K6 as [K6 K7]; [|by rewrite K6 K7 E1 E2].
  intros Hy. apply Hx. rewrite Hy in H3. destruct (node_Lifecycle x); cbn in H3; done || lia.
Qed.

(** ** Claims *)

(** With sixteen bytes of entropy per draw, [AllocateUUID] either returns a
    canonical version 4 UUID that was not in the occupied set and records it there,
    or reports a collision after exactly 32 draws that were all occupied.  No other
    outcome exists. *)
Theorem allocate_uuid_outcome occupied draws cursor : full_reads draws →
  let gen := entropy_generator draws in
  (∃ id cursor', AllocateUUID occupied gen cursor = (Ok (id, {[id]} ∪ occupied), cursor')
     ∧ (id ∉ occupied) ∧ validateGeneratedUUID id = Ok ()) ∨
  (AllocateUUID occupied gen cursor = (Err (Sentinel ErrIdentityCollision), (cursor + 32)%nat)
     ∧ ∀ k, (k < 32)%nat → ∃ id, gen (cursor + k)%nat = Ok id ∧ id ∈ occupied).
Proof. apply allocate_loop_outcome. Qed.

(** Over any sequence of credential advances, revocations and deletions of a node
    its identity and creation time are fixed, its lifecycle only moves forward, its
    credential generation never decreases and never leaves 64 bits, and from
    revocation on the generation and the revocation time are frozen. *)
Theorem node_lifecycle_forward_only node node' : rtc node_step node node' → node_evolves node node'.
Proof. induction 1 as [|x y z Hxy _ IH]; [reflexivity|]. etrans; [by apply node_evolves_step|done]. Qed.

(** ** Witnesses *)

Definition sample_draws (n : nat) : list N := replicate 15 17%N ++ [N.of_nat n mod 256]%N.

Lemma allocate_uuid_outcome_witness :
  full_reads sample_draws ∧
  (∃ id cursor', AllocateUUID ∅ (entropy_generator sample_draws) 0 = (Ok (id, {[id]} ∪ ∅), cursor')) .
Proof.
  assert (Hd : full_reads sample_draws).
  { intros n. split; [done|]. unfold sample_draws. cbn [replicate app].
    do 15 (constructor; [lia|]). constructor; [apply N.mod_lt; lia|constructor]. }
  split; [exact Hd|].
  destruct (allocate_uuid_outcome ∅ sample_draws 0 Hd) as [(id & c & H & _)|[_ H]]; [by exists id, c|].
  destruct (H 0%nat) as (id & _ & Hin); [lia|]. set_solver.
Defined.

Definition lifecycle_node : Node :=
  MkNode 1 "11111111-1111-4111-8111-111111111111" "edge" LifecycleActive "10.0.0.2" 1 "1.0" (Some [])
    TransportStandard (Some []) None (Time 63000000000000000000 UTC) None.
Definition rotated_node : Node := set_node_CredentialGeneration 2 lifecycle_node.
Definition revoked_node : Node :=
  set_node_RevokedAt (Some (Time 63000000001000000000 UTC)) (set_node_Lifecycle LifecycleRevoked rotated_node).
Definition deleted_node : Node := set_node_Lifecycle LifecycleDeleted revoked_node.

Lemma node_lifecycle_forward_only_witness : node_evolves lifecycle_node deleted_node.
Proof.
  apply (node_lifecycle_forward_only lifecycle_node deleted_node).
  apply (rtc_l _ _ rotated_node); [by apply node_step_advance|].
  apply (rtc_l _ _ revoked_node); [by apply (node_step_revoke _ _ (Time 63000000001000000000 UTC))|].
  apply rtc_once. by apply node_step_delete.
Defined.
