(* ===== verification/Address.v ===== *)
(** * The overlay address allocator ([internal/model/address.go])

    The gateway hands every node and every personal client one overlay address
    from its pool.  The allocator keeps two views of the same assignment, by
    identity ([assignments]) and by address ([used]); [wf] says they agree. *)

From S2P Require Import Prelude GoTime GoText GoNet Types Checks.

Local Open Scope string_scope.
Local Open Scope list_scope.
Local Open Scope N_scope.

Definition DefaultClientCIDR : string := "10.66.0.0/24".
Definition DefaultNodeCIDR : string := "10.67.0.0/24".

Record AddressAssignment := Assign {
  asg_Kind : TargetKind;
  asg_ID : string;
  asg_Address : string
}.

#[export] Instance AddressAssignment_eq_dec : EqDecision AddressAssignment.
Proof. solve_decision. Defined.

Record ipv4Pool := Pool { pool_prefix : netprefix; pool_first : N; pool_last : N }.

(** The Go maps keyed by target kind hold exactly the two kinds, one field each. *)
Record AddressAllocator := Allocator {
  client_pool : ipv4Pool;
  node_pool : ipv4Pool;
  assignments : gmap string AddressAssignment;
  used_client : gmap N string;
  used_node : gmap N string
}.

(** [uint32(x)] *)
Definition uint32 (n : N) : N := n mod 4294967296.

Definition newIPv4Pool (path value : string) : result ipv4Pool :=
  prefix ← validateIPv4Prefix path value;
  let base := addr_value (prefix_addr prefix) in
  let size := N.shiftl 1 (32 - prefix_bits prefix) in
  reject (size <? 4) (Invalid path);;
  Ok (Pool prefix (uint32 (base + 2)) (uint32 (base + size - 2))).

Definition pool (a : AddressAllocator) (kind : TargetKind) : result ipv4Pool :=
  match kind with
  | TargetClient => Ok (client_pool a)
  | TargetNode => Ok (node_pool a)
  | TargetUnsupported _ => Err (Message "unsupported address target")
  end.

Definition used (a : AddressAllocator) (kind : TargetKind) : gmap N string :=
  match kind with TargetClient => used_client a | TargetNode => used_node a | TargetUnsupported _ => ∅ end.

Definition set_used (a : AddressAllocator) (kind : TargetKind) (u : gmap N string) : AddressAllocator :=
  match kind with
  | TargetClient => Allocator (client_pool a) (node_pool a) (assignments a) u (used_node a)
  | TargetNode => Allocator (client_pool a) (node_pool a) (assignments a) (used_client a) u
  | TargetUnsupported _ => a
  end.

Definition set_assignments (a : AddressAllocator) (m : gmap string AddressAssignment) : AddressAllocator :=
  Allocator (client_pool a) (node_pool a) m (used_client a) (used_node a).

(** Both views of one assignment. *)
Definition assign (a : AddressAllocator) (kind : TargetKind) (id text : string) (address : N) : AddressAllocator :=
  set_used (set_assignments a (<[targetKey kind id := Assign kind id text]> (assignments a)))
    kind (<[address := id]> (used a kind)).

Definition Reserve (a : AddressAllocator) (kind : TargetKind) (id addressText : string) : result AddressAllocator :=
  p ← pool a kind;
  validateUUID "id" id;;
  match canonical_ipv4 addressText with
  | None => Err (Message "address: must be a canonical IPv4 address")
  | Some numeric =>
      reject (negb (prefix_contains (pool_prefix p) (V4 numeric)) || (numeric <? pool_first p) || (pool_last p <? numeric))
        (Sentinel ErrAddressConflict);;
      match assignments a !! targetKey kind id with
      | Some existing =>
          if String.eqb (asg_Address existing) addressText then Ok a else Err (Sentinel ErrAddressConflict)
      | None =>
          match used a kind !! numeric with
          | Some _ => Err (Sentinel ErrAddressConflict)
          | None => Ok (assign a kind id addressText numeric)
          end
      end
  end.

Definition NewAddressAllocator (clientCIDR nodeCIDR : string) (restored : list AddressAssignment) : result AddressAllocator :=
  clientPool ← newIPv4Pool "client_cidr" clientCIDR;
  nodePool ← newIPv4Pool "node_cidr" nodeCIDR;
  reject (Overlaps (pool_prefix clientPool) (pool_prefix nodePool)) (Sentinel ErrAddressConflict);;
  range (λ _ asg a, wrap "restore assignment" (Reserve a (asg_Kind asg) (asg_ID asg) (asg_Address asg)))
    restored (Allocator clientPool nodePool ∅ ∅ ∅).

(** [for candidate := first; candidate <= last; candidate++]: the first address
    that is not in use. *)
Fixpoint first_free (fuel : nat) (u : gmap N string) (candidate last : N) : option N :=
  match fuel with
  | O => None
  | S fuel' =>
      if candidate <=? last then
        match u !! candidate with
        | Some _ => first_free fuel' u (candidate + 1) last
        | None => Some candidate
        end
      else None
  end.

Definition Allocate (a : AddressAllocator) (kind : TargetKind) (id : string) : result (AddressAllocator * string) :=
  p ← pool a kind;
  validateUUID "id" id;;
  match assignments a !! targetKey kind id with
  | Some assignment => Ok (a, asg_Address assignment)
  | None =>
      match first_free (N.to_nat (pool_last p + 1 - pool_first p)) (used a kind) (pool_first p) (pool_last p) with
      | Some candidate =>
          let text := print_ipv4 (uint32 candidate) in
          Ok (assign a kind id text (uint32 candidate), text)
      | None => Err (Sentinel ErrAddressPoolExhausted)
      end
  end.

(** [netip.ParseAddr] of a stored address cannot fail; on failure Go would pass
    the zero address to [As4], which panics, so the model leaves [used] alone. *)
Definition Release (a : AddressAllocator) (kind : TargetKind) (id : string) : result (AddressAllocator * bool) :=
  _ ← pool a kind;
  validateUUID "id" id;;
  match assignments a !! targetKey kind id with
  | None => Ok (a, false)
  | Some assignment =>
      let u := match ParseAddr (asg_Address assignment) with
               | Some (V4 n) => delete n (used a kind)
               | _ => used a kind
               end in
      Ok (set_assignments (set_used a kind u) (delete (targetKey kind id) (assignments a)), true)
  end.

Definition Lookup (a : AddressAllocator) (kind : TargetKind) (id : string) : option string :=
  asg_Address <$> assignments a !! targetKey kind id.

(** The order of [Assignments]: by kind, then by identifier. *)
Definition asg_le (x y : AddressAssignment) : Prop :=
  if bool_decide (asg_Kind x = asg_Kind y) then str_le (asg_ID x) (asg_ID y)
  else str_le (TargetKind_string (asg_Kind x)) (TargetKind_string (asg_Kind y)).

#[export] Instance asg_le_dec : RelDecision asg_le.
Proof. intros x y. unfold asg_le. case_bool_decide; apply _. Defined.

Definition Assignments (a : AddressAllocator) : list AddressAssignment :=
  merge_sort asg_le (map_to_list (assignments a)).*2.

(** ** Well-formedness *)

(** A pool as [newIPv4Pool] builds it: an aligned IPv4 block of at least four
    addresses, less network, gateway and broadcast. *)
Definition pool_ok (p : ipv4Pool) : Prop :=
  ∃ base bits, pool_prefix p = Prefix (V4 base) bits ∧ bits ≤ 30 ∧
    base = mask_value base (2 ^ (32 - bits)) ∧ base + 2 ^ (32 - bits) ≤ 4294967296 ∧
    pool_first p = base + 2 ∧ pool_last p = base + 2 ^ (32 - bits) - 2.

Definition supported (kind : TargetKind) : Prop := kind = TargetClient ∨ kind = TargetNode.

Record wf (a : AddressAllocator) : Prop := {
  wf_client_pool : pool_ok (client_pool a);
  wf_node_pool : pool_ok (node_pool a);
  wf_disjoint : Overlaps (pool_prefix (client_pool a)) (pool_prefix (node_pool a)) = false;
  wf_assignment : ∀ key asg, assignments a !! key = Some asg →
    key = targetKey (asg_Kind asg) (asg_ID asg) ∧ matches uuidPattern (asg_ID asg) = true ∧
    ∃ p n, pool a (asg_Kind asg) = Ok p ∧ canonical_ipv4 (asg_Address asg) = Some n ∧
      pool_first p ≤ n ≤ pool_last p ∧ prefix_contains (pool_prefix p) (V4 n) = true ∧
      used a (asg_Kind asg) !! n = Some (asg_ID asg);
  wf_used : ∀ kind n id, used a kind !! n = Some id →
    ∃ asg, assignments a !! targetKey kind id = Some asg ∧ asg_Kind asg = kind ∧ asg_ID asg = id ∧
      canonical_ipv4 (asg_Address asg) = Some n
}.

(** ** Pools *)

Lemma shiftl_1_l k : N.shiftl 1 k = 2 ^ k.
Proof. by rewrite N.shiftl_1_l. Qed.

Lemma validateIPv4Prefix_ok path value p :
  validateIPv4Prefix path value = Ok p →
  ∃ n bits, p = Prefix (V4 n) bits ∧ bits ≤ 32 ∧ n < 4294967296 ∧ n = mask_value n (2 ^ (32 - bits)).
Proof.
  unfold validateIPv4Prefix. destruct (ParsePrefix value) as [q|] eqn:Hq; [|done].
  destruct (_ || _) eqn:Hc; [done|]. intros [= ->]. bool_facts.
  unfold ParsePrefix in Hq. apply bind_Some in Hq as ([ip bits] & _ & Hq). cbn in Hq.
  apply bind_Some in Hq as (ad & Ha & Hq). destruct (has_zone ad); [done|].
  destruct (_ && _); [done|]. apply bind_Some in Hq as (z & _ & Hq).
  destruct (_ || _) eqn:Hr; [done|]. injection Hq as <-. bool_facts.
  destruct ad as [n|]; [|done]. unfold Masked in *. cbn [prefix_addr prefix_bits addr_width] in *.
  assert (Hn : n < 4294967296).
  { unfold ParseAddr in Ha. destruct (first_of _ _) as [c|]; [|done].
    destruct (decide (c = "."%char)) as [->|].
    - destruct (parse_ipv4 ip) eqn:Hp; simplify_eq/=. by apply print_parse_ipv4 in Hp as [_ ?].
    - destruct (decide (c = ":"%char)) as [->|]; [by destruct (parse_ipv6 ip)|].
      by destruct c as [[] [] [] [] [] [] [] []]. }
  exists n, (Z.to_N z). split_and!; [done|lia|done|].
  match goal with H : Prefix _ _ = Prefix _ _ |- _ => injection H as H end.
  by unfold prefix_size in *; cbn in *.
Qed.

Lemma newIPv4Pool_ok path value p : newIPv4Pool path value = Ok p → pool_ok p.
Proof.
  unfold newIPv4Pool. intros H. ok_inv H. injection H as <-.
  apply validateIPv4Prefix_ok in G as (n & bits & -> & Hbits & Hn & Hmask). cbn in *.
  rewrite shiftl_1_l in G0 |- *. bool_facts.
  assert (Hb : bits ≤ 30).
  { destruct (decide (bits ≤ 30)); [done|].
    assert (2 ^ (32 - bits) ≤ 2 ^ 1) by (apply N.pow_le_mono_r; lia). cbn in *. lia. }
  set (size := 2 ^ (32 - bits)) in *.
  assert (Hsum : n + size ≤ 4294967296).
  { unfold mask_value in Hmask.
    assert (Hsz : 4294967296 = 2 ^ bits * size).
    { unfold size. rewrite -N.pow_add_r. by replace (bits + (32 - bits)) with 32 by lia. }
    assert (n / size < 2 ^ bits) by (apply N.Div0.div_lt_upper_bound; lia). nia. }
  exists n, bits. fold size. split_and!; try done; unfold uint32; cbn; rewrite N.mod_small; lia.
Qed.

(** ** The two views *)

Lemma pool_supported a kind p : pool a kind = Ok p → supported kind.
Proof. unfold supported. destruct kind; naive_solver. Qed.

Lemma used_supported a kind n id : used a kind !! n = Some id → supported kind.
Proof. unfold supported. destruct kind; cbn; rewrite ?lookup_empty; naive_solver. Qed.

Lemma targetKey_inj k1 k2 i1 i2 : supported k1 → supported k2 →
  targetKey k1 i1 = targetKey k2 i2 → k1 = k2 ∧ i1 = i2.
Proof.
  unfold targetKey. intros [->| ->] [->| ->]; cbn [TargetKind_string];
    rewrite !str_app_cons !str_app_nil_l; intros ?; by simplify_eq.
Qed.

Lemma assignments_assign a kind id text n :
  assignments (assign a kind id text n) = <[targetKey kind id := Assign kind id text]> (assignments a).
Proof. by destruct kind. Qed.

Lemma used_assign a kind id text n kind' : supported kind →
  used (assign a kind id text n) kind' = if decide (kind' = kind) then <[n := id]> (used a kind) else used a kind'.
Proof. intros [->| ->]; destruct kind'; cbn; case_decide; naive_solver. Qed.

Lemma pool_assign a kind id text n kind' : pool (assign a kind id text n) kind' = pool a kind'.
Proof. by destruct kind, kind'. Qed.

Lemma pools_assign a kind id text n :
  client_pool (assign a kind id text n) = client_pool a ∧ node_pool (assign a kind id text n) = node_pool a.
Proof. by destruct kind. Qed.

Lemma pool_pool_ok a kind p : wf a → pool a kind = Ok p → pool_ok p.
Proof. intros [] ?. destruct kind; naive_solver. Qed.

Lemma assign_wf a kind id text p n :
  wf a → pool a kind = Ok p → matches uuidPattern id = true → canonical_ipv4 text = Some n →
  pool_first p ≤ n ≤ pool_last p → prefix_contains (pool_prefix p) (V4 n) = true →
  assignments a !! targetKey kind id = None → used a kind !! n = None →
  wf (assign a kind id text n).
Proof.
  intros Hwf Hp Hid Hn Hrange Hcont Hnone Hfree.
  pose proof (pool_supported _ _ _ Hp) as Hsup.
  pose proof (pools_assign a kind id text n) as [Hc Hnp].
  constructor; rewrite ?Hc ?Hnp; try by destruct Hwf.
  - intros key asg. rewrite assignments_assign lookup_insert_Some.
    intros [[<- <-]|[Hne Hl]].
    { cbn. split_and!; [done|done|]. exists p, n. rewrite pool_assign used_assign // decide_True //.
      by rewrite lookup_insert_eq. }
    destruct (wf_assignment a Hwf _ _ Hl) as (-> & Hu & p' & n' & Hp' & Hn' & Hr' & Hc' & Hus).
    split_and!; [done|done|]. exists p', n'. rewrite pool_assign. ands.
    rewrite used_assign //. case_decide as Hk; [|done]. rewrite Hk in Hus.
    rewrite lookup_insert_ne //. intros ->. by rewrite Hfree in Hus.
  - intros kind' n' id'. rewrite used_assign //. case_decide as Hk.
    + subst kind'. rewrite lookup_insert_Some. intros [[<- <-]|[Hne Hu]].
      * eexists. rewrite assignments_assign lookup_insert_eq. naive_solver.
      * destruct (wf_used a Hwf _ _ _ Hu) as (asg & Hl & Hrest).
        exists asg. rewrite assignments_assign lookup_insert_ne //. intros Heq. by rewrite Heq Hl in Hnone.
    + intros Hu. destruct (wf_used a Hwf _ _ _ Hu) as (asg & Hl & Hrest).
      exists asg. rewrite assignments_assign lookup_insert_ne //. intros Heq. by rewrite Heq Hl in Hnone.
Qed.

(** [Reserve] either finds the same assignment or records a new one. *)
Lemma Reserve_ok a kind id text a' : Reserve a kind id text = Ok a' →
  ∃ p n, pool a kind = Ok p ∧ matches uuidPattern id = true ∧ canonical_ipv4 text = Some n ∧
    pool_first p ≤ n ≤ pool_last p ∧ prefix_contains (pool_prefix p) (V4 n) = true ∧
    ((a' = a ∧ ∃ asg, assignments a !! targetKey kind id = Some asg ∧ asg_Address asg = text) ∨
     (a' = assign a kind id text n ∧ assignments a !! targetKey kind id = None ∧ used a kind !! n = None)).
Proof.
  unfold Reserve. intros H. ok_inv H. apply validateUUID_ok in G0.
  destruct (canonical_ipv4 text) as [n|]; [|done]. ok_inv H.
  exists a0, n. bool_facts. ands.
  destruct (assignments a !! targetKey kind id) as [asg|] eqn:Ha.
  - left. destruct (String.eqb _ _) eqn:E; simplify_eq. apply String.eqb_eq in E. eauto.
  - right. destruct (used a kind !! n); naive_solver.
Qed.

Lemma Reserve_wf a kind id text a' : wf a → Reserve a kind id text = Ok a' → wf a'.
Proof.
  intros Hwf (p & n & Hp & Hid & Hn & Hr & Hc & [[-> _]|(-> & ? & ?)])%Reserve_ok; [done|].
  by eapply assign_wf.
Qed.

Lemma Reserve_lookup a kind id text a' : Reserve a kind id text = Ok a' → Lookup a' kind id = Some text.
Proof.
  intros (p & n & _ & _ & _ & _ & _ & [(-> & asg & Hl & <-)|(-> & _ & _)])%Reserve_ok; unfold Lookup.
  - by rewrite Hl.
  - by rewrite assignments_assign lookup_insert_eq.
Qed.

Lemma empty_allocator_wf cp np : pool_ok cp → pool_ok np →
  Overlaps (pool_prefix cp) (pool_prefix np) = false → wf (Allocator cp np ∅ ∅ ∅).
Proof.
  intros. constructor; cbn; try done.
  intros kind n id H'. pose proof (used_supported _ _ _ _ H') as [->| ->]; cbn in H'; by rewrite lookup_empty in H'.
Qed.

Lemma NewAddressAllocator_wf ccidr ncidr restored a : NewAddressAllocator ccidr ncidr restored = Ok a → wf a.
Proof.
  unfold NewAddressAllocator. intros H. ok_inv H.
  refine (range_inv _ (λ _ a, wf a) _ _ _ _ _ H).
  - intros p x q s s' _ Hs Hb. apply wrap_ok in Hb. by eapply Reserve_wf.
  - apply empty_allocator_wf; by eauto using newIPv4Pool_ok.
Qed.

(** ** First fit *)

Section first_free.
Context (u : gmap N string).

Lemma first_free_some fuel c last n : first_free fuel u c last = Some n →
  c ≤ n ≤ last ∧ u !! n = None ∧ ∀ m, c ≤ m < n → is_Some (u !! m).
Proof.
  revert c. induction fuel as [|f IH]; intros c; cbn; [done|].
  destruct (c <=? last) eqn:Hle; [|done]. bool_facts.
  destruct (u !! c) eqn:Hc.
  - intros (H1 & H2 & H3)%IH. ands.
    intros m Hm. destruct (decide (m = c)) as [->|]; [by eexists|]. apply H3. lia.
  - intros [= <-]. ands.
Qed.

Lemma first_free_none fuel c last : last + 1 - c ≤ N.of_nat fuel →
  first_free fuel u c last = None → ∀ m, c ≤ m ≤ last → is_Some (u !! m).
Proof.
  revert c. induction fuel as [|f IH]; intros c Hf; cbn; [lia|].
  destruct (c <=? last) eqn:Hle; bool_facts; [|lia].
  destruct (u !! c) eqn:Hc; [|done].
  intros H m Hm. destruct (decide (m = c)) as [->|]; [by eexists|]. apply (IH (c + 1)); [lia|done|lia].
Qed.
End first_free.

(** An address of a pool fits in 32 bits and belongs to the pool's prefix. *)
Lemma pool_range_bounds p n : pool_ok p → pool_first p ≤ n ≤ pool_last p →
  n < 4294967296 ∧ uint32 n = n ∧ prefix_contains (pool_prefix p) (V4 n) = true.
Proof.
  intros (base & bits & Hpre & Hbits & Hmask & Hsum & Hf & Hl) Hn. rewrite Hf Hl in Hn.
  assert (0 < 2 ^ (32 - bits)) by (apply N.neq_0_lt_0, N.pow_nonzero; lia).
  assert (Hlt : n < 4294967296) by lia.
  split_and!; [done|by unfold uint32; rewrite N.mod_small|].
  rewrite Hpre. unfold prefix_contains, prefix_size. cbn. apply N.eqb_eq.
  set (size := 2 ^ (32 - bits)) in *. unfold mask_value in Hmask.
  symmetry. apply (N.div_unique _ _ _ (n - base)); [lia|]. rewrite (N.mul_comm size) -Hmask. lia.
Qed.

(** [Allocate] returns the existing address, or the lowest free one. *)
Lemma Allocate_ok a kind id a' text : wf a → Allocate a kind id = Ok (a', text) →
  ∃ p, pool a kind = Ok p ∧ matches uuidPattern id = true ∧
    ((a' = a ∧ Lookup a kind id = Some text) ∨
     (∃ n, Lookup a kind id = None ∧ text = print_ipv4 n ∧ a' = assign a kind id text n ∧
        pool_first p ≤ n ≤ pool_last p ∧ used a kind !! n = None ∧
        ∀ m, pool_first p ≤ m < n → is_Some (used a kind !! m))).
Proof.
  unfold Allocate, Lookup. intros Hwf H. ok_inv H. apply validateUUID_ok in G0.
  exists a0. split_and!; [done|done|].
  destruct (assignments a !! targetKey kind id) as [asg|].
  - left. naive_solver.
  - right. destruct (first_free _ _ _ _) as [n|] eqn:Hff; [|done].
    apply first_free_some in Hff as (Hr & Hnone & Hmin).
    destruct (pool_range_bounds a0 n) as (_ & Hu & _); [by eapply pool_pool_ok|done|].
    rewrite Hu in H. simplify_eq. eexists n. ands.
Qed.

Lemma Allocate_wf a kind id a' text : wf a → Allocate a kind id = Ok (a', text) → wf a'.
Proof.
  intros Hwf H. destruct (Allocate_ok _ _ _ _ _ Hwf H) as (p & Hp & Hid & [[-> _]|(n & Hl & -> & -> & Hr & Hf & _)]); [done|].
  destruct (pool_range_bounds p n) as (Hlt & _ & Hc); [by eapply pool_pool_ok|done|].
  eapply assign_wf; try done.
  - by apply canonical_ipv4_spec.
  - unfold Lookup in Hl. by destruct (assignments a !! _).
Qed.

(** Allocation fails only when the pool has no free address left. *)
Lemma Allocate_exhausted a kind id p : pool a kind = Ok p → matches uuidPattern id = true →
  (∃ e, Allocate a kind id = Err e) ↔
  Lookup a kind id = None ∧ ∀ m, pool_first p ≤ m ≤ pool_last p → is_Some (used a kind !! m).
Proof.
  intros Hp Hid. unfold Allocate, Lookup. rewrite Hp. cbn.
  rewrite (proj2 (validateUUID_ok "id" id ()) Hid). cbn.
  destruct (assignments a !! targetKey kind id); cbn; [naive_solver|].
  destruct (first_free _ _ _ _) as [n|] eqn:Hff.
  - apply first_free_some in Hff as (Hr & Hnone & _). split; [naive_solver|].
    intros [_ Hall]. destruct (Hall n) as [? ?]; [lia|]. congruence.
  - split; [|eauto]. intros _. split; [done|]. eapply first_free_none; [|done]. lia.
Qed.

(** ** Release *)

Lemma canonical_ipv4_parse s n : canonical_ipv4 s = Some n → ParseAddr s = Some (V4 n).
Proof.
  unfold canonical_ipv4. destruct (ParseAddr s) as [[m|]|]; [|done|done].
  destruct (String.eqb _ _); naive_solver.
Qed.

Lemma used_unique a kind n id key asg : wf a → used a kind !! n = Some id →
  assignments a !! key = Some asg → asg_Kind asg = kind → canonical_ipv4 (asg_Address asg) = Some n →
  asg_ID asg = id ∧ key = targetKey kind id.
Proof.
  intros Hwf Hu Hl Hk Hc.
  destruct (wf_assignment a Hwf _ _ Hl) as (-> & _ & p & n' & _ & Hc' & _ & _ & Hu').
  by simplify_eq.
Qed.

Lemma Release_ok a kind id a' b : wf a → Release a kind id = Ok (a', b) →
  (b = false ∧ a' = a ∧ Lookup a kind id = None) ∨
  (b = true ∧ supported kind ∧ ∃ asg n, assignments a !! targetKey kind id = Some asg ∧ asg_Kind asg = kind ∧ asg_ID asg = id ∧
    canonical_ipv4 (asg_Address asg) = Some n ∧
    a' = set_assignments (set_used a kind (delete n (used a kind))) (delete (targetKey kind id) (assignments a))).
Proof.
  unfold Release, Lookup. intros Hwf H. ok_inv H.
  destruct (assignments a !! targetKey kind id) as [asg|] eqn:Hl; [right|naive_solver].
  pose proof (pool_supported _ _ _ G) as Hsup.
  destruct (wf_assignment a Hwf _ _ Hl) as (Hkey & _ & p & n & Hp & Hc & _ & _ & Hu).
  apply targetKey_inj in Hkey as [-> ->]; [|done|by eapply pool_supported].
  rewrite (canonical_ipv4_parse _ _ Hc) in H. simplify_eq. ands. by exists asg, n.
Qed.

Lemma used_release a kind m m' kind' : supported kind →
  used (set_assignments (set_used a kind m) m') kind' = if decide (kind' = kind) then m else used a kind'.
Proof. intros [->| ->]; destruct kind'; cbn; case_decide; naive_solver. Qed.

Lemma release_wf a kind asg n : wf a → supported kind →
  assignments a !! targetKey kind (asg_ID asg) = Some asg → asg_Kind asg = kind →
  canonical_ipv4 (asg_Address asg) = Some n →
  wf (set_assignments (set_used a kind (delete n (used a kind))) (delete (targetKey kind (asg_ID asg)) (assignments a))).
Proof.
  intros Hwf Hsup Hl Hk Hc.
  assert (Hpools : ∀ m m', client_pool (set_assignments (set_used a kind m) m') = client_pool a ∧
    node_pool (set_assignments (set_used a kind m) m') = node_pool a) by by destruct kind.
  assert (Hpool : ∀ m m' k, pool (set_assignments (set_used a kind m) m') k = pool a k) by by destruct kind.
  assert (Hu : used a kind !! n = Some (asg_ID asg)).
  { destruct (wf_assignment a Hwf _ _ Hl) as (_ & _ & p & n' & _ & Hc' & _ & _ & Hu). by simplify_eq. }
  constructor; rewrite ?(proj1 (Hpools _ _)) ?(proj2 (Hpools _ _)); try by destruct Hwf.
  - intros key x. cbn [assignments set_assignments]. rewrite lookup_delete_Some. intros [Hne Hx].
    destruct (wf_assignment a Hwf _ _ Hx) as (-> & Hid & p & n' & Hp & Hc' & Hr & Hct & Hux).
    ands. exists p, n'. rewrite Hpool used_release //. ands.
    case_decide as Hkk; [|done]. rewrite Hkk in Hux, Hne |- *.
    rewrite lookup_delete_ne //. intros ->. congruence.
  - intros kind' n' id. rewrite used_release //. cbn [assignments set_assignments]. intros Hx.
    assert (Hux : used a kind' !! n' = Some id).
    { case_decide; [subst|done]. by apply lookup_delete_Some in Hx as [_ ?]. }
    destruct (wf_used a Hwf _ _ _ Hux) as (x & Hlx & Hkx & Hix & Hcx).
    exists x. ands. rewrite lookup_delete_ne //. intros Heq. rewrite -Heq Hl in Hlx. simplify_eq.
    case_decide as Hd; [|done]. by rewrite lookup_delete_eq in Hx.
Qed.

Lemma Release_wf a kind id a' b : wf a → Release a kind id = Ok (a', b) → wf a'.
Proof.
  intros Hwf H. destruct (Release_ok _ _ _ _ _ Hwf H) as [(_ & -> & _)|(_ & Hs & asg & n & Hl & Hk & <- & Hc & ->)]; [done|].
  by apply release_wf.
Qed.

(** ** No address is shared *)

Lemma div_pow_compose n a b : n / 2 ^ (a + b) = n / 2 ^ a / 2 ^ b.
Proof. by rewrite N.pow_add_r N.Div0.div_div. Qed.

Lemma contains_overlaps p q n base bits base' bits' :
  p = Prefix (V4 base) bits → q = Prefix (V4 base') bits' → bits ≤ 32 → bits' ≤ 32 →
  prefix_contains p (V4 n) = true → prefix_contains q (V4 n) = true → Overlaps p q = true.
Proof.
  intros -> -> Hb Hb'. unfold prefix_contains, Overlaps, prefix_size. cbn. intros H1 H2. bool_facts.
  apply N.eqb_eq.
  assert (Hcommon : ∀ b m, b ≤ 32 → N.min bits bits' ≤ b → n / 2 ^ (32 - b) = m / 2 ^ (32 - b) →
    m / 2 ^ (32 - N.min bits bits') = n / 2 ^ (32 - N.min bits bits')).
  { intros b m Hb1 Hb2 Heq.
    replace (32 - N.min bits bits') with ((32 - b) + (b - N.min bits bits')) by lia.
    by rewrite !div_pow_compose Heq. }
  rewrite (Hcommon bits base) ?(Hcommon bits' base') //; lia.
Qed.

Lemma lookup_owner_unique a k1 k2 i1 i2 t : wf a → supported k1 → supported k2 →
  Lookup a k1 i1 = Some t → Lookup a k2 i2 = Some t → k1 = k2 ∧ i1 = i2.
Proof.
  unfold Lookup. intros Hwf Hs1 Hs2 H1 H2.
  destruct (assignments a !! targetKey k1 i1) as [x|] eqn:Hx; simplify_eq/=.
  destruct (assignments a !! targetKey k2 i2) as [y|] eqn:Hy; simplify_eq/=.
  destruct (wf_assignment a Hwf _ _ Hx) as (Kx & _ & p & n & Hp & Hc & _ & Hct & Hu).
  destruct (wf_assignment a Hwf _ _ Hy) as (Ky & _ & q & m & Hq & Hc' & _ & Hct' & Hu').
  apply targetKey_inj in Kx as [-> ->]; [|done|by eapply pool_supported].
  apply targetKey_inj in Ky as [-> ->]; [|done|by eapply pool_supported].
  rewrite H2 Hc in Hc'. simplify_eq.
  destruct (decide (asg_Kind x = asg_Kind y)) as [Hk|Hk].
  { rewrite Hk in Hu. rewrite Hu in Hu'. naive_solver. }
  exfalso.
  assert (Hov : Overlaps (pool_prefix p) (pool_prefix q) = true ∧ Overlaps (pool_prefix q) (pool_prefix p) = true).
  { destruct (pool_pool_ok _ _ _ Hwf Hp) as (b1 & s1 & E1 & ? & _).
    destruct (pool_pool_ok _ _ _ Hwf Hq) as (b2 & s2 & E2 & ? & _).
    split; eapply contains_overlaps; eauto; lia. }
  pose proof (wf_disjoint a Hwf) as Hd.
  destruct Hs1 as [E1|E1], Hs2 as [E2|E2]; rewrite E1 in Hk, Hp; rewrite E2 in Hk, Hq; cbn in Hp, Hq; simplify_eq; destruct Hov; congruence.
Qed.

(** ** Executions *)

Inductive step : AddressAllocator → AddressAllocator → Prop :=
  | step_reserve a kind id text a' : Reserve a kind id text = Ok a' → step a a'
  | step_allocate a kind id a' text : Allocate a kind id = Ok (a', text) → step a a'
  | step_release a kind id a' b : Release a kind id = Ok (a', b) → step a a'.

(** An allocator reached from a restored one by any sequence of operations.
    Failed operations leave the allocator as it was. *)
Definition reachable (a : AddressAllocator) : Prop :=
  ∃ ccidr ncidr restored a0, NewAddressAllocator ccidr ncidr restored = Ok a0 ∧ rtc step a0 a.

Lemma step_wf a a' : wf a → step a a' → wf a'.
Proof. intros Hwf H. inversion H; subst; eauto using Reserve_wf, Allocate_wf, Release_wf. Qed.

Lemma reachable_wf a : reachable a → wf a.
Proof.
  intros (c & n & r & a0 & H0%NewAddressAllocator_wf & Hstar).
  induction Hstar; eauto using step_wf.
Qed.

(** ** Restoring a snapshot *)

#[export] Instance asg_le_total : Total asg_le.
Proof.
  intros x y. unfold asg_le. rewrite (bool_decide_ext (asg_Kind y = asg_Kind x) (asg_Kind x = asg_Kind y)) //.
  case_bool_decide; apply (total str_le).
Qed.

(** The two views determine each other, so equal assignments make equal allocators. *)
Lemma wf_ext a b : wf a → wf b → client_pool a = client_pool b → node_pool a = node_pool b →
  assignments a = assignments b → a = b.
Proof.
  intros Ha Hb Hc Hn Hasg.
  assert (Hsub : ∀ a b kind n id, wf a → wf b → assignments a = assignments b →
    used a kind !! n = Some id → used b kind !! n = Some id).
  { clear. intros a b kind n id Ha Hb Hasg Hu.
    destruct (wf_used a Ha _ _ _ Hu) as (asg & Hl & <- & <- & Hc). rewrite Hasg in Hl.
    destruct (wf_assignment b Hb _ _ Hl) as (_ & _ & p & m & _ & Hc' & _ & _ & Hu'). by simplify_eq. }
  assert (Hused : ∀ kind, used a kind = used b kind).
  { intros kind. apply map_eq. intros n. apply option_eq. intros id. split; by eauto. }
  pose proof (Hused TargetClient). pose proof (Hused TargetNode).
  destruct a, b. cbn in *. by subst.
Qed.

Lemma elem_of_Assignments a asg : asg ∈ Assignments a ↔ ∃ key, assignments a !! key = Some asg.
Proof.
  unfold Assignments. rewrite merge_sort_Permutation list_elem_of_fmap. split.
  - intros ([k x] & -> & H%elem_of_map_to_list). eauto.
  - intros (k & H%elem_of_map_to_list). by exists (k, asg).
Qed.

Lemma NoDup_Assignments a : wf a → NoDup (Assignments a).
Proof.
  intros Hwf. unfold Assignments. rewrite merge_sort_Permutation.
  apply NoDup_fmap_2_strong; [|apply NoDup_map_to_list].
  intros [k1 x] [k2 y] H1%elem_of_map_to_list H2%elem_of_map_to_list. cbn. intros ->.
  apply wf_assignment in H1 as [-> _], H2 as [-> _]; done.
Qed.

(** The state of a restore that has replayed the prefix [pre] of a snapshot. *)
Definition replayed (a : AddressAllocator) (pre : list AddressAssignment) (s : AddressAllocator) : Prop :=
  wf s ∧ client_pool s = client_pool a ∧ node_pool s = node_pool a ∧
  ∀ key asg, assignments s !! key = Some asg ↔ asg ∈ pre ∧ assignments a !! key = Some asg.

Lemma replay_step a pre asg s : wf a → asg ∉ pre → asg ∈ Assignments a → replayed a pre s →
  ∃ s', Reserve s (asg_Kind asg) (asg_ID asg) (asg_Address asg) = Ok s' ∧ replayed a (pre ++ [asg]) s'.
Proof.
  intros Hwf Hnew (key & Hl)%elem_of_Assignments (Hs & Hcp & Hnp & Hdom).
  destruct (wf_assignment a Hwf _ _ Hl) as (Hkey & Hid & p & n & Hp & Hc & Hr & Hct & Hu).
  assert (Hps : pool s (asg_Kind asg) = Ok p) by (destruct (asg_Kind asg); cbn in *; congruence).
  assert (Hfresh : assignments s !! key = None).
  { destruct (assignments s !! key) as [x|] eqn:Hx; [|done]. apply Hdom in Hx as [Hin Hx]. naive_solver. }
  assert (Hfree : used s (asg_Kind asg) !! n = None).
  { destruct (used s (asg_Kind asg) !! n) as [id|] eqn:Hus; [|done].
    destruct (wf_used s Hs _ _ _ Hus) as (x & Hx & Hkx & Hix & Hcx). apply Hdom in Hx as Hx'. destruct Hx' as [Hin Hxa].
    destruct (used_unique a _ n _ _ x Hwf Hu Hxa Hkx Hcx) as [Hid' Hkey'].
    rewrite Hkey' -Hkey in Hx. congruence. }
  exists (assign s (asg_Kind asg) (asg_ID asg) (asg_Address asg) n). split.
  - unfold Reserve. rewrite Hps /= (proj2 (validateUUID_ok "id" _ ()) Hid) /= Hc.
    rewrite Hct -Hkey Hfresh Hfree /=. rewrite !(proj2 (N.ltb_ge _ _)) //; lia.
  - pose proof (pools_assign s (asg_Kind asg) (asg_ID asg) (asg_Address asg) n) as [Hc1 Hc2].
    split_and!; [|by rewrite Hc1|by rewrite Hc2|].
    { eapply assign_wf; eauto. by rewrite -Hkey. }
    intros key' x. rewrite assignments_assign -Hkey lookup_insert_Some elem_of_app list_elem_of_singleton Hdom.
    destruct asg as [k i t]; cbn in *. split.
    + intros [[<- <-]|[Hne [Hin Hx]]]; naive_solver.
    + intros [[Hin| ->] Hx].
      * right. split; [|done]. intros ->. naive_solver.
      * left. destruct (wf_assignment a Hwf _ _ Hx) as (-> & _). done.
Qed.

(** A snapshot restores in any order. *)
Lemma restore_snapshot a ccidr ncidr l : wf a →
  newIPv4Pool "client_cidr" ccidr = Ok (client_pool a) → newIPv4Pool "node_cidr" ncidr = Ok (node_pool a) →
  NoDup l → (∀ asg, asg ∈ l ↔ asg ∈ Assignments a) →
  NewAddressAllocator ccidr ncidr l = Ok a.
Proof.
  intros Hwf Hc Hn Hnd Hl. unfold NewAddressAllocator. rewrite Hc /= Hn /= (wf_disjoint a Hwf) /=.
  edestruct (range_total (λ (_ : nat) asg s, wrap "restore assignment" (Reserve s (asg_Kind asg) (asg_ID asg) (asg_Address asg)))
    (replayed a) l (Allocator (client_pool a) (node_pool a) ∅ ∅ ∅)) as (s & Hs & Hwfs & Hcp & Hnp & Hdom).
  - intros p x q s Heq Hs. rewrite Heq in Hnd.
    destruct (replay_step a p x s Hwf) as (s' & -> & ?); eauto.
    + apply NoDup_app in Hnd as (_ & Hd & _). intros Hin. by apply (Hd x Hin); left.
    + apply Hl. rewrite Heq. apply elem_of_app. right. left.
  - split_and!; [by apply empty_allocator_wf; destruct Hwf|done|done|].
    intros key asg. cbn. rewrite lookup_empty. set_solver.
  - etransitivity; [exact Hs|]. f_equal. apply wf_ext; try done.
    apply map_eq. intros key. apply option_eq. intros asg. rewrite Hdom. split; [naive_solver|].
    intros H. split; [|done]. apply Hl, elem_of_Assignments. eauto.
Qed.

(** What a restored allocator holds. *)
Lemma restored_contents ccidr ncidr l a : NewAddressAllocator ccidr ncidr l = Ok a →
  newIPv4Pool "client_cidr" ccidr = Ok (client_pool a) ∧ newIPv4Pool "node_cidr" ncidr = Ok (node_pool a) ∧
  wf a ∧ ∀ asg, asg ∈ l ↔ asg ∈ Assignments a.
Proof.
  intros H. pose proof (NewAddressAllocator_wf _ _ _ _ H) as Hwf. unfold NewAddressAllocator in H. ok_inv H. rename a0 into cp, a1 into np.
  assert (Hinv : client_pool a = cp ∧ node_pool a = np ∧ wf a ∧ ∀ asg, asg ∈ l ↔ asg ∈ Assignments a); [|naive_solver].
  refine (range_inv _ (λ p s, client_pool s = cp ∧ node_pool s = np ∧ wf s ∧ ∀ asg, asg ∈ p ↔ asg ∈ Assignments s) l _ a _ _ H).
  - intros p x q s s' _ (Hc & Hn & Hs & He) Hb%wrap_ok. assert (Hs' := Reserve_wf _ _ _ _ _ Hs Hb).
    apply Reserve_ok in Hb as (pl & n & Hp & Hid & Hcan & Hr & Hct & [(-> & asg & Hl & Ht)|(-> & Hnone & _)]).
    + split_and!; try done. intros y. rewrite elem_of_app list_elem_of_singleton He. split; [|by left].
      intros [?| ->]; [done|]. apply elem_of_Assignments. exists (targetKey (asg_Kind x) (asg_ID x)). rewrite Hl.
      destruct (wf_assignment s Hs _ _ Hl) as (Hk & _ & p' & _ & Hp' & _).
      apply targetKey_inj in Hk as [? ?]; [|by eapply pool_supported..]. destruct asg, x; cbn in *. congruence.
    + pose proof (pools_assign s (asg_Kind x) (asg_ID x) (asg_Address x) n) as [-> ->]. split_and!; try done.
      intros y. rewrite elem_of_app list_elem_of_singleton He !elem_of_Assignments.
      setoid_rewrite assignments_assign. setoid_rewrite lookup_insert_Some. split.
      * intros [[k Hk]| ->]; [|exists (targetKey (asg_Kind x) (asg_ID x)); left; by destruct x].
        exists k. right. split; [congruence|done].
      * intros [k [[_ <-]|[_ Hk]]]; [right; by destruct x|left; eauto].
  - split_and!; [done..|by apply empty_allocator_wf; eauto using newIPv4Pool_ok|].
    intros asg. rewrite elem_of_Assignments. cbn. setoid_rewrite lookup_empty. set_solver.
Qed.

Lemma Lookup_Assignments a asg : wf a → asg ∈ Assignments a →
  supported (asg_Kind asg) ∧ Lookup a (asg_Kind asg) (asg_ID asg) = Some (asg_Address asg).
Proof.
  intros Hwf (key & Hk)%elem_of_Assignments. destruct (wf_assignment a Hwf _ _ Hk) as (-> & _ & p & _ & Hp & _).
  split; [by eapply pool_supported|]. unfold Lookup. by rewrite Hk.
Qed.

(** ** Theorems *)

(** C37: no shared addresses.  In every allocator reached from a restored snapshot
    by any sequence of reservations, allocations and releases, an overlay address
    belongs to one identity: two identities of either kind that look up the same
    address are the same. *)
Theorem reachable_no_shared_address a k1 k2 i1 i2 text :
  reachable a → supported k1 → supported k2 →
  Lookup a k1 i1 = Some text → Lookup a k2 i2 = Some text → k1 = k2 ∧ i1 = i2.
Proof. intros Hwf%reachable_wf. by apply lookup_owner_unique. Qed.

(** Assigned addresses are usable.  In every reachable allocator an assigned
    address is the canonical text of an address inside its own pool, which is
    neither the network address, the gateway's (first host) address nor the
    broadcast address of the pool's prefix. *)
Theorem reachable_address_usable a kind id text :
  reachable a → supported kind → Lookup a kind id = Some text →
  ∃ p base bits n, pool a kind = Ok p ∧ pool_prefix p = Prefix (V4 base) bits ∧ text = print_ipv4 n ∧
    base + 2 ≤ n ∧ n < base + 2 ^ (32 - bits) - 1 ∧ prefix_contains (pool_prefix p) (V4 n) = true.
Proof.
  unfold Lookup. intros Hwf%reachable_wf Hsup Hl.
  destruct (assignments a !! targetKey kind id) as [asg|] eqn:Ha; simplify_eq/=.
  destruct (wf_assignment a Hwf _ _ Ha) as (Hkey & _ & p & n & Hp & Hc & Hr & Hct & _).
  apply targetKey_inj in Hkey as [-> _]; [|done|by eapply pool_supported].
  destruct (pool_pool_ok _ _ _ Hwf Hp) as (base & bits & Hpre & Hbits & _ & _ & Hf & Hlast).
  apply canonical_ipv4_spec in Hc as [_ Htext].
  assert (2 ^ 2 ≤ 2 ^ (32 - bits)) by (apply N.pow_le_mono_r; lia).
  exists p, base, bits, n. ands.
Qed.

(** First fit.  On a reachable allocator, allocation for a well-formed
    identity fails exactly when the identity holds no address and every usable
    address of the pool is taken.  When it succeeds, the identity holds the
    returned address, which is the one it held before or else the lowest free
    address of its pool, and no other identity's address changes. *)
Theorem allocate_first_fit a kind id p :
  reachable a → pool a kind = Ok p → matches uuidPattern id = true →
  ((∃ e, Allocate a kind id = Err e) ↔
     Lookup a kind id = None ∧ ∀ m, pool_first p ≤ m ≤ pool_last p → is_Some (used a kind !! m)) ∧
  (∀ a' text, Allocate a kind id = Ok (a', text) →
     Lookup a' kind id = Some text ∧
     (Lookup a kind id = Some text ∨
      ∃ n, Lookup a kind id = None ∧ text = print_ipv4 n ∧ pool_first p ≤ n ≤ pool_last p ∧
        used a kind !! n = None ∧ ∀ m, pool_first p ≤ m < n → is_Some (used a kind !! m)) ∧
     ∀ kind' id', supported kind' → (kind', id') ≠ (kind, id) → Lookup a' kind' id' = Lookup a kind' id').
Proof.
  intros Hwf%reachable_wf Hp Hid. split; [by apply Allocate_exhausted|].
  intros a' text H. destruct (Allocate_ok _ _ _ _ _ Hwf H) as (p' & Hp' & _ & Hcase).
  rewrite Hp in Hp'. injection Hp' as <-.
  destruct Hcase as [[-> Hl]|(n & Hl & -> & -> & Hr & Hfree & Hmin)]; [by auto|].
  split_and!.
  - by rewrite /Lookup assignments_assign lookup_insert_eq.
  - right. exists n. ands.
  - intros kind' id' Hsup Hne. rewrite /Lookup assignments_assign lookup_insert_ne //.
    intros Hk%targetKey_inj; [naive_solver|by eapply pool_supported|done].
Qed.

(** Releasing frees exactly one identity.  On a reachable allocator a release
    removes the identity's address, makes it available again, reports whether
    there was one, and keeps every other identity's address. *)
Theorem release_frees_only_target a kind id a' released :
  reachable a → Release a kind id = Ok (a', released) →
  Lookup a' kind id = None ∧
  (released = true ↔ is_Some (Lookup a kind id)) ∧
  (∀ text n, Lookup a kind id = Some text → canonical_ipv4 text = Some n → used a' kind !! n = None) ∧
  ∀ kind' id', supported kind' → (kind', id') ≠ (kind, id) → Lookup a' kind' id' = Lookup a kind' id'.
Proof.
  intros Hwf%reachable_wf H.
  destruct (Release_ok _ _ _ _ _ Hwf H) as [(-> & -> & Hl)|(-> & Hsup & asg & n & Hl & Hk & Hi & Hc & ->)].
  - rewrite Hl. by split_and!.
  - unfold Lookup. cbn [assignments set_assignments]. rewrite lookup_delete_eq Hl. split_and!; try done.
    + intros text m [= <-] Hm. rewrite Hc in Hm. simplify_eq.
      rewrite used_release // decide_True // lookup_delete_eq //.
    + intros kind' id' Hs Hne. rewrite lookup_delete_ne //. intros Hkey%targetKey_inj; naive_solver.
Qed.

(** Restore after snapshot.  Listing the assignments of a reachable allocator
    and restoring them, in any order, under the same pools gives back the same
    allocator, reservations and all. *)
Theorem restore_assignments_roundtrip a ccidr ncidr l :
  reachable a → l ≡ₚ Assignments a →
  newIPv4Pool "client_cidr" ccidr = Ok (client_pool a) → newIPv4Pool "node_cidr" ncidr = Ok (node_pool a) →
  NewAddressAllocator ccidr ncidr l = Ok a.
Proof.
  intros Hwf%reachable_wf Hl Hc Hn. apply restore_snapshot; [done..| |].
  - rewrite Hl. by apply NoDup_Assignments.
  - intros asg. by rewrite Hl.
Qed.

(** *** Witnesses *)

Definition sample_id (n : N) : string := "00000000-0000-4000-8000-00000000000" +:+ itoa n.
Definition or_empty (r : result AddressAllocator) : AddressAllocator :=
  match r with Ok a => a | Err _ => Allocator (Pool (Prefix (V4 0) 0) 0 0) (Pool (Prefix (V4 0) 0) 0 0) ∅ ∅ ∅ end.

(** One client and one node restored; the node pool has room for a single node. *)
Definition sample_allocator : AddressAllocator :=
  or_empty (NewAddressAllocator DefaultClientCIDR "10.67.0.0/30"
    [Assign TargetClient (sample_id 1) "10.66.0.2"; Assign TargetNode (sample_id 2) "10.67.0.2"]).

Lemma sample_new : NewAddressAllocator DefaultClientCIDR "10.67.0.0/30"
    [Assign TargetClient (sample_id 1) "10.66.0.2"; Assign TargetNode (sample_id 2) "10.67.0.2"] = Ok sample_allocator.
Proof. by vm_compute. Defined.

Lemma sample_reachable : reachable sample_allocator.
Proof. do 4 eexists. split; [exact sample_new|apply rtc_refl]. Defined.

Lemma reachable_no_shared_address_witness : TargetNode = TargetNode ∧ sample_id 2 = sample_id 2.
Proof.
  apply (reachable_no_shared_address sample_allocator TargetNode TargetNode _ _ "10.67.0.2" sample_reachable);
    first [by right|by vm_compute].
Defined.

Lemma reachable_address_usable_witness :
  ∃ p base bits n, pool sample_allocator TargetClient = Ok p ∧ pool_prefix p = Prefix (V4 base) bits ∧ "10.66.0.2" = print_ipv4 n ∧
    base + 2 ≤ n ∧ n < base + 2 ^ (32 - bits) - 1 ∧ prefix_contains (pool_prefix p) (V4 n) = true.
Proof.
  apply (reachable_address_usable sample_allocator TargetClient (sample_id 1)); [exact sample_reachable|by left|by vm_compute].
Defined.

(** The single usable node address is taken, so a second node is refused. *)
Lemma allocate_first_fit_witness : ∃ e, Allocate sample_allocator TargetNode (sample_id 3) = Err e.
Proof.
  apply (proj1 (allocate_first_fit sample_allocator TargetNode (sample_id 3) (node_pool sample_allocator)
    sample_reachable eq_refl ltac:(by vm_compute))).
  split; [by vm_compute|]. intros m Hm. assert (m = 172163074) as ->.
  { change (pool_first (node_pool sample_allocator)) with 172163074 in Hm.
    change (pool_last (node_pool sample_allocator)) with 172163074 in Hm. lia. }
  eexists. by vm_compute.
Defined.

Lemma release_frees_only_target_witness :
  ∃ a', Release sample_allocator TargetNode (sample_id 2) = Ok (a', true) ∧ Lookup a' TargetNode (sample_id 2) = None.
Proof.
  exists (match Release sample_allocator TargetNode (sample_id 2) with Ok (a, _) => a | Err _ => sample_allocator end).
  assert (H : Release sample_allocator TargetNode (sample_id 2) =
    Ok (match Release sample_allocator TargetNode (sample_id 2) with Ok (a, _) => a | Err _ => sample_allocator end, true)) by by vm_compute.
  split; [exact H|]. apply (release_frees_only_target _ _ _ _ _ sample_reachable H).
Defined.

Lemma restore_assignments_roundtrip_witness :
  NewAddressAllocator DefaultClientCIDR "10.67.0.0/30" (reverse (Assignments sample_allocator)) = Ok sample_allocator.
Proof.
  apply (restore_assignments_roundtrip _ _ _ _ sample_reachable); [apply reverse_Permutation|by vm_compute..].
Defined.
