(* ===== verification/Expose.v ===== *)
(** * Public routes of exposes ([internal/model/expose.go])

    The route grammar, the overlap test and the route index.  The index is a trie
    over path segments that detects conflicts without comparing pairs; it is
    proved equivalent to the pairwise test, and the pairwise test to the question
    it stands for: can one request path select both routes? *)

From S2P Require Import Prelude GoTime GoText GoNet Types Checks.

Local Open Scope string_scope.
Local Open Scope list_scope.

Definition ReservedExposePathPrefix : string := "/.well-known/vpnctl".
Definition ReservedEnrollmentPath : string := ReservedExposePathPrefix +:+ "/enroll".
Definition ReservedRecoveryPath : string := ReservedExposePathPrefix +:+ "/recover".
Definition ReservedHealthPath : string := ReservedExposePathPrefix +:+ "/health".

Definition MaximumExposeBodyLimitBytes : Z := 8 * 1024 * 1024.
Definition MaximumExposeUpstreamTimeoutSeconds : Z := 60.
Definition MaximumExposeConcurrentRequests : Z := 40.

Definition ValidateExposeName (value : string) : result unit := validateName "name" value.
Definition ValidateResourceID (value : string) : result unit := validateUUID "id" value.
Definition ValidateExposeUpstream (value : string) : result unit := validateUpstream "upstream" value.

(** ** The path grammar *)

Definition exposePathCharacter (c : ascii) : bool := alnum c || in_chars "-._~!$&'()*+,;=:@" c.

Definition forbidden_path_chars : string := "?#%\" +:+ crlf +:+ bytes [0%N].

Definition validateHTTPPath (path value : string) : result unit :=
  reject (negb (bool_decide (head_char value = Some "/"%char)) || (512 <? String.length value)%nat
          || ContainsAny value forbidden_path_chars || Contains value "//") (Invalid path);;
  let rest := match value with String _ rest => rest | EmptyString => "" end in
  range_check (λ _ segment, reject (String.eqb segment "." || String.eqb segment "..") (Invalid path)) (Split rest "/"%char);;
  reject (negb (str_forall (λ c, Ascii.eqb c "/"%char || exposePathCharacter c) rest)) (Invalid path).

Definition IsReservedExposePath (value : string) : bool :=
  String.eqb value ReservedExposePathPrefix || HasPrefix value (ReservedExposePathPrefix +:+ "/").

Definition ValidateExposePath (value : string) (mode : RouteMode) : result unit :=
  reject (match mode with RouteUnsupported _ => true | _ => false end) (Invalid "route_mode");;
  validateHTTPPath "path" value;;
  reject (bool_decide (mode = RoutePrefix) && negb (String.eqb value "/") && HasSuffix value "/") (Invalid "path");;
  reject (IsReservedExposePath value) (Invalid "path").

(** ** The overlap test *)

Definition exposePrefixContains (prefix candidate : string) : bool :=
  if String.eqb prefix "/" then HasPrefix candidate "/"
  else String.eqb candidate prefix || HasPrefix candidate (prefix +:+ "/").

Definition ExposeRoutesOverlap (firstMode : RouteMode) (firstPath : string) (secondMode : RouteMode) (secondPath : string) : bool :=
  match firstMode, secondMode with
  | RouteExact, RouteExact => String.eqb firstPath secondPath
  | RoutePrefix, RouteExact => exposePrefixContains firstPath secondPath
  | RouteExact, RoutePrefix => exposePrefixContains secondPath firstPath
  | RoutePrefix, RoutePrefix => exposePrefixContains firstPath secondPath || exposePrefixContains secondPath firstPath
  | _, _ => false
  end.

Definition exposePathSegments (value : string) : list string :=
  if String.eqb value "/" then []
  else match value with
       | String "/"%char trimmed => Split trimmed "/"%char
       | _ => Split value "/"%char
       end.

(** ** The route index *)

Inductive exposeRouteNode := RouteNode {
  children : gmap string exposeRouteNode;
  exactOwner : string;
  prefixOwner : string;
  firstOwner : string
}.

Definition newRouteNode : exposeRouteNode := RouteNode ∅ "" "" "".

(** [if current.firstOwner == "" { current.firstOwner = owner }] *)
Definition claim_first (owner : string) (n : exposeRouteNode) : exposeRouteNode :=
  RouteNode (children n) (exactOwner n) (prefixOwner n)
    (if String.eqb (firstOwner n) "" then owner else firstOwner n).

(** The walk of [Add]: the nodes on the way down are rebuilt on the way up, where
    the code's [visited] loop sets [firstOwner].  The second component is the
    owner of a conflicting route, or empty; on a conflict the nodes created so
    far stay, without owners. *)
Fixpoint add_walk (n : exposeRouteNode) (segments : list string) (mode : RouteMode) (owner : string)
    : exposeRouteNode * string :=
  match segments with
  | [] =>
      if negb (String.eqb (prefixOwner n) "") then (n, prefixOwner n)
      else match mode with
      | RouteExact =>
          if negb (String.eqb (exactOwner n) "") then (n, exactOwner n)
          else (claim_first owner (RouteNode (children n) owner (prefixOwner n) (firstOwner n)), "")
      | RoutePrefix =>
          if negb (String.eqb (firstOwner n) "") then (n, firstOwner n)
          else (claim_first owner (RouteNode (children n) (exactOwner n) owner (firstOwner n)), "")
      | RouteUnsupported _ => (claim_first owner n, "")
      end
  | segment :: rest =>
      if negb (String.eqb (prefixOwner n) "") then (n, prefixOwner n)
      else
        let child := default newRouteNode (children n !! segment) in
        let '(child', conflict) := add_walk child rest mode owner in
        let n' := RouteNode (<[segment := child']> (children n)) (exactOwner n) (prefixOwner n) (firstOwner n) in
        if String.eqb conflict "" then (claim_first owner n', "") else (n', conflict)
  end.

(** [ExposeRouteIndex.Add] on the index with root [n] *)
Definition Add_route (n : exposeRouteNode) (mode : RouteMode) (path owner : string) : result (exposeRouteNode * string) :=
  reject (String.eqb owner "") (Message "expose route index and owner are required");;
  ValidateExposePath path mode;;
  Ok (add_walk n (exposePathSegments path) mode owner).

(** ** Paths and segments *)

Lemma eqb_str_true s t : String.eqb s t = true ↔ s = t.
Proof. apply String.eqb_eq. Qed.

Lemma eqb_str_false s t : String.eqb s t = false ↔ s ≠ t.
Proof. apply String.eqb_neq. Qed.

Lemma HasPrefix_spec s p : HasPrefix s p = true ↔ ∃ r, s = p +:+ r.
Proof.
  unfold HasPrefix. revert s. induction p as [|c p IH]; intros s; cbn.
  - split; [|by destruct s]. intros _. by exists s.
  - destruct s as [|d s]; cbn.
    + split; [done|]. by intros [r [=]].
    + destruct (Ascii.ascii_dec c d) as [->|Hne].
      * rewrite IH. split; intros [r Hr]; exists r; rewrite str_app_cons in Hr |- *; by simplify_eq.
      * split; [done|]. intros [r Hr]. rewrite str_app_cons in Hr. by simplify_eq.
Qed.

Lemma split_app a b sep : Split (a +:+ String sep b) sep = Split a sep ++ Split b sep.
Proof.
  induction a as [|c a IH].
  - rewrite str_app_nil_l. cbn. by rewrite Ascii.eqb_refl.
  - rewrite str_app_cons. cbn. rewrite IH. destruct (Ascii.eqb c sep); [done|].
    pose proof (split_nonempty a sep). by destruct (Split a sep).
Qed.

Lemma join_app sep l k : l ≠ [] → k ≠ [] → join sep (l ++ k) = join sep l +:+ String sep (join sep k).
Proof.
  intros Hl Hk. induction l as [|x l IH]; [done|]. destruct l as [|y l].
  - cbn. destruct k; [done|]. done.
  - change (join sep ((x :: y :: l) ++ k)) with (x +:+ String sep (join sep ((y :: l) ++ k))).
    rewrite IH // -(str_app_cons sep) -str_app_assoc //.
Qed.

Lemma split_inj a b sep : Split a sep = Split b sep → a = b.
Proof. intros H. by rewrite -(join_split a sep) -(join_split b sep) H. Qed.

(** An absolute path: what [validateHTTPPath] guarantees of the first byte. *)
Definition absolute (p : string) : Prop := head_char p = Some "/"%char.

Lemma absolute_cases p : absolute p → p = "/" ∨ ∃ a, a ≠ "" ∧ p = String "/"%char a ∧ exposePathSegments p = Split a "/"%char.
Proof.
  unfold absolute. destruct p as [|c a]; [done|]. cbn. intros [= ->].
  destruct (decide (a = "")) as [->|Ha]; [by left|]. right. exists a. split_and!; [done|done|].
  unfold exposePathSegments. rewrite (proj2 (eqb_str_false _ _)) //. intros [=]; done.
Qed.

Lemma segments_inj p q : absolute p → absolute q → exposePathSegments p = exposePathSegments q → p = q.
Proof.
  intros [->|(a & Ha & -> & Hp)]%absolute_cases [->|(b & Hb & -> & Hq)]%absolute_cases; [done| | |].
  - rewrite Hq. cbn. intros H. by destruct (split_nonempty b "/"%char).
  - rewrite Hp. cbn. intros H. by destruct (split_nonempty a "/"%char).
  - rewrite Hp Hq. by intros ->%split_inj.
Qed.

(** Segment-aware containment is the prefix order on segment lists. *)
Lemma exposePrefixContains_spec p q : absolute p → absolute q →
  exposePrefixContains p q = true ↔ exposePathSegments p `prefix_of` exposePathSegments q.
Proof.
  intros Hp Hq. unfold exposePrefixContains.
  destruct (absolute_cases p Hp) as [->|(a & Ha & -> & Hsp)].
  { cbn. destruct q as [|c q]; [done|]. cbn in Hq. injection Hq as ->. split; [intros _; apply prefix_nil|].
    intros _. apply HasPrefix_spec. by exists q. }
  rewrite Hsp (proj2 (eqb_str_false (String "/"%char a) "/")); [congruence|].
  rewrite orb_true_iff eqb_str_true HasPrefix_spec.
  destruct (absolute_cases q Hq) as [->|(b & Hb & -> & Hsq)].
  { cbn. split.
    - intros [[=]|[r Hr]]; [by subst|]. rewrite !str_app_cons in Hr. injection Hr as Hr. destruct a; by rewrite ?str_app_cons in Hr.
    - intros H%prefix_nil_inv. by destruct (split_nonempty a "/"%char). }
  rewrite Hsq. split.
  - intros [[= ->]|[r Hr]]; [done|].
    rewrite !str_app_cons in Hr. injection Hr as Hr. rewrite Hr str_app_assoc str_app_cons str_app_nil_l.
    rewrite split_app. by apply prefix_app_r.
  - intros [k Hk]. destruct (decide (k = [])) as [->|Hkn].
    + rewrite app_nil_r in Hk. left. f_equal. by apply split_inj in Hk.
    + right. exists (join "/"%char k). rewrite -(join_split b "/"%char) Hk join_app //; [apply split_nonempty|].
      by rewrite join_split !str_app_cons str_app_assoc str_app_cons str_app_nil_l.
Qed.

(** ** What the trie stores

    The owner fields of the node reached by a list of segments; a node that does
    not exist has empty owners. *)
Fixpoint node_at (n : exposeRouteNode) (segs : list string) : option exposeRouteNode :=
  match segs with
  | [] => Some n
  | s :: segs' => c ← children n !! s; node_at c segs'
  end.

Definition field_at (f : exposeRouteNode → string) (n : exposeRouteNode) (segs : list string) : string :=
  match node_at n segs with Some m => f m | None => "" end.

Abbreviation exact_at := (field_at exactOwner).
Abbreviation prefix_at := (field_at prefixOwner).
Abbreviation first_at := (field_at firstOwner).

Lemma node_at_new segs : segs ≠ [] → node_at newRouteNode segs = None.
Proof. destruct segs; [done|]. intros _. cbn. by rewrite lookup_empty. Qed.

Lemma field_at_child (f : exposeRouteNode → string) n s q : f newRouteNode = "" →
  field_at f n (s :: q) = field_at f (default newRouteNode (children n !! s)) q.
Proof.
  intros Hf. unfold field_at. cbn. destruct (children n !! s) as [c|]; [done|]. cbn.
  destruct q; [done|]. by rewrite node_at_new.
Qed.

Lemma field_at_insert (f : exposeRouteNode → string) n s c e p o s' q :
  field_at f (RouteNode (<[s := c]> (children n)) e p o) (s' :: q) =
  if decide (s' = s) then field_at f c q else field_at f n (s' :: q).
Proof.
  unfold field_at. cbn. destruct (decide (s' = s)) as [->|].
  - by rewrite lookup_insert_eq.
  - by rewrite lookup_insert_ne.
Qed.

(** A refused route changes no owner, and the reported owner is stored on the
    path: as a prefix route of an ancestor, or at the end of the path. *)
Lemma add_walk_conflict n segs mode owner n' c :
  add_walk n segs mode owner = (n', c) → c ≠ "" →
  (∀ q, exact_at n' q = exact_at n q ∧ prefix_at n' q = prefix_at n q ∧ first_at n' q = first_at n q) ∧
  ((∃ p, p `prefix_of` segs ∧ prefix_at n p = c) ∨
   (mode = RouteExact ∧ exact_at n segs = c) ∨ (mode = RoutePrefix ∧ first_at n segs = c)).
Proof.
  revert n n' c. induction segs as [|s segs IH]; intros n n' c H Hc; cbn in H.
  - destruct (String.eqb (prefixOwner n) "") eqn:Hp; cbn in H.
    2:{ simplify_eq. split; [done|]. left. by exists []. }
    destruct mode; [destruct (String.eqb (exactOwner n) "")|destruct (String.eqb (firstOwner n) "")|];
      cbn in H; simplify_eq; naive_solver.
  - destruct (String.eqb (prefixOwner n) "") eqn:Hp; cbn in H.
    2:{ simplify_eq. split; [done|]. left. exists []. split; [apply prefix_nil|done]. }
    destruct (add_walk _ segs mode owner) as [child' conflict] eqn:Hw.
    destruct (String.eqb conflict "") eqn:Hcf; simplify_eq.
    destruct (IH _ _ _ Hw Hc) as [Hsame Hwhere]. split.
    + intros [|s' q]; [done|]. rewrite !field_at_insert. case_decide; [|done]. subst.
      rewrite !field_at_child //.
    + destruct Hwhere as [(p & Hpre & Ho)|[[? Ho]|[? Ho]]].
      * left. exists (s :: p). rewrite field_at_child //. split; [by apply prefix_cons|done].
      * right; left. by rewrite field_at_child.
      * right; right. by rewrite field_at_child.
Qed.

Lemma first_owner_claim (owner first : string) (q segs : list string) : q `prefix_of` segs →
  (if String.eqb first "" then owner else first) = if decide (q `prefix_of` segs ∧ first = "") then owner else first.
Proof.
  intros Hq. destruct (String.eqb first "") eqn:Hf.
  - rewrite decide_True //. by apply eqb_str_true in Hf.
  - rewrite decide_False //. intros [_ ->]. done.
Qed.

(** An accepted route met no owner that overlaps it, and is recorded: its own
    owner at the end of the path and [firstOwner] along it. *)
Definition inserted (n : exposeRouteNode) (segs : list string) (mode : RouteMode) (owner : string) (n' : exposeRouteNode) : Prop :=
  (∀ p, p `prefix_of` segs → prefix_at n p = "") ∧
  (mode = RouteExact → exact_at n segs = "") ∧ (mode = RoutePrefix → first_at n segs = "") ∧
  (∀ q, exact_at n' q = if decide (q = segs ∧ mode = RouteExact) then owner else exact_at n q) ∧
  (∀ q, prefix_at n' q = if decide (q = segs ∧ mode = RoutePrefix) then owner else prefix_at n q) ∧
  (∀ q, first_at n' q = if decide (q `prefix_of` segs ∧ first_at n q = "") then owner else first_at n q).

Lemma add_walk_leaf_ok n mode owner n' :
  add_walk n [] mode owner = (n', "") → mode = RouteExact ∨ mode = RoutePrefix → inserted n [] mode owner n'.
Proof.
  intros H Hm. cbn in H. unfold inserted.
  destruct (String.eqb (prefixOwner n) "") eqn:Hp; cbn in H; [|injection H as _ Hx; by rewrite Hx in Hp]. apply eqb_str_true in Hp.
  assert (Hnil : ∀ q : list string, q `prefix_of` [] → q = []) by (intros q; apply prefix_nil_inv).
  destruct Hm as [->| ->].
  - destruct (String.eqb (exactOwner n) "") eqn:He; cbn in H; [|injection H as _ Hx; by rewrite Hx in He].
    injection H as <-. apply eqb_str_true in He.
    split_and!; try done.
    + by intros p ->%Hnil.
    + intros [|]; case_decide; naive_solver.
    + intros [|]; case_decide; naive_solver.
    + intros [|s q].
      * unfold field_at. cbn [node_at claim_first firstOwner]. by apply first_owner_claim.
      * case_decide as Hd; [|done]. by destruct Hd as [?%Hnil _].
  - destruct (String.eqb (firstOwner n) "") eqn:He; cbn in H; [|injection H as _ Hx; by rewrite Hx in He].
    injection H as <-. apply eqb_str_true in He.
    split_and!; try done.
    + by intros p ->%Hnil.
    + intros [|]; case_decide; naive_solver.
    + intros [|]; case_decide; naive_solver.
    + intros [|s q].
      * unfold field_at. cbn [node_at]. rewrite decide_True //. cbn. by rewrite He.
      * case_decide as Hd; [|done]. by destruct Hd as [?%Hnil _].
Qed.

Lemma add_walk_ok n segs mode owner n' :
  add_walk n segs mode owner = (n', "") → mode = RouteExact ∨ mode = RoutePrefix → inserted n segs mode owner n'.
Proof.
  intros H Hm. revert n n' H. induction segs as [|s segs IH]; intros n n' H; [by apply add_walk_leaf_ok|]. cbn in H. unfold inserted.
  destruct (String.eqb (prefixOwner n) "") eqn:Hp; cbn in H; [|injection H as _ Hx; by rewrite Hx in Hp]. apply eqb_str_true in Hp.
  destruct (add_walk _ segs mode owner) as [child' conflict] eqn:Hw.
  destruct (String.eqb conflict "") eqn:Hcf; [|injection H as _ Hx; by rewrite Hx in Hcf].
  injection H as <-. apply eqb_str_true in Hcf as ->.
  destruct (IH _ _ Hw) as (H1 & H2 & H3 & H4 & H5 & H6).
  split_and!.
  - intros [|s' p] Hpre; [done|]. apply prefix_cons_inv_1 in Hpre as Hs. apply prefix_cons_inv_2 in Hpre. subst s'.
    rewrite field_at_child //. by apply H1.
  - intros ?. rewrite field_at_child //. by apply H2.
  - intros ?. rewrite field_at_child //. by apply H3.
  - intros [|s' q]; [done|]. cbn [claim_first children]. unfold claim_first. rewrite field_at_insert.
    destruct (decide (s' = s)) as [->|Hne].
    + rewrite H4 field_at_child //. repeat case_decide; naive_solver.
    + rewrite decide_False //. naive_solver.
  - intros [|s' q]; [done|]. unfold claim_first. rewrite field_at_insert.
    destruct (decide (s' = s)) as [->|Hne].
    + rewrite H5 field_at_child //. repeat case_decide; naive_solver.
    + rewrite decide_False //. naive_solver.
  - intros [|s' q].
    + unfold field_at. cbn [node_at claim_first firstOwner]. apply first_owner_claim, prefix_nil.
    + unfold claim_first. rewrite field_at_insert. destruct (decide (s' = s)) as [->|Hne].
      * rewrite H6 field_at_child //. apply decide_ext. split.
        -- intros [? ?]. split; [by apply prefix_cons|done].
        -- intros [?%prefix_cons_inv_2 ?]. done.
      * rewrite decide_False //. intros [?%prefix_cons_inv_1 _]. done.
Qed.

(** ** The abstract index: a list of accepted routes *)

Record route := Route { rt_mode : RouteMode; rt_path : string; rt_owner : string }.

Definition segs (r : route) : list string := exposePathSegments (rt_path r).
Definition overlap (r s : route) : bool := ExposeRoutesOverlap (rt_mode r) (rt_path r) (rt_mode s) (rt_path s).

(** What [Add] checks of a route before it walks. *)
Definition route_ok (r : route) : Prop :=
  (rt_mode r = RouteExact ∨ rt_mode r = RoutePrefix) ∧ absolute (rt_path r) ∧ rt_owner r ≠ "".

Record represents (n : exposeRouteNode) (R : list route) : Prop := {
  rep_ok : Forall route_ok R;
  rep_exact r : r ∈ R → rt_mode r = RouteExact → exact_at n (segs r) = rt_owner r;
  rep_exact_inv q : exact_at n q ≠ "" → ∃ r, r ∈ R ∧ rt_mode r = RouteExact ∧ segs r = q ∧ rt_owner r = exact_at n q;
  rep_prefix r : r ∈ R → rt_mode r = RoutePrefix → prefix_at n (segs r) = rt_owner r;
  rep_prefix_inv q : prefix_at n q ≠ "" → ∃ r, r ∈ R ∧ rt_mode r = RoutePrefix ∧ segs r = q ∧ rt_owner r = prefix_at n q;
  rep_first r q : r ∈ R → q `prefix_of` segs r → first_at n q ≠ "";
  rep_first_inv q : first_at n q ≠ "" → ∃ r, r ∈ R ∧ q `prefix_of` segs r ∧ rt_owner r = first_at n q
}.

Lemma ValidateExposePath_ok path mode u : ValidateExposePath path mode = Ok u →
  (mode = RouteExact ∨ mode = RoutePrefix) ∧ absolute path.
Proof.
  unfold ValidateExposePath. intros H. ok_inv H. unfold validateHTTPPath in G0. ok_inv G0. bool_facts.
  split; [|done]. destruct mode; auto; done.
Qed.

Lemma overlap_segments r s : route_ok r → route_ok s →
  overlap r s = true ↔
  match rt_mode r, rt_mode s with
  | RouteExact, RouteExact => segs r = segs s
  | RoutePrefix, RouteExact => segs r `prefix_of` segs s
  | RouteExact, RoutePrefix => segs s `prefix_of` segs r
  | _, _ => segs r `prefix_of` segs s ∨ segs s `prefix_of` segs r
  end.
Proof.
  intros (Hm & Ha & _) (Hm' & Ha' & _). unfold overlap, ExposeRoutesOverlap, segs.
  destruct Hm as [->| ->], Hm' as [->| ->].
  - rewrite eqb_str_true. split; [by intros ->|]. by apply segments_inj.
  - by apply exposePrefixContains_spec.
  - by apply exposePrefixContains_spec.
  - by rewrite orb_true_iff !exposePrefixContains_spec.
Qed.

Lemma represents_new : represents newRouteNode [].
Proof.
  assert (Hnew : ∀ f q, f newRouteNode = "" → field_at f newRouteNode q = "").
  { intros f [|s q] Hf; [done|]. unfold field_at. by rewrite node_at_new. }
  constructor; try (by intros ? ?%not_elem_of_nil); try (by intros ? ? ?%not_elem_of_nil); [done|..];
    intros q Hq; by rewrite Hnew in Hq.
Qed.

(** A conflict reported by the walk names an overlapping route. *)
Lemma add_walk_conflict_overlap n R new n' c : represents n R → route_ok new →
  add_walk n (segs new) (rt_mode new) (rt_owner new) = (n', c) → c ≠ "" →
  represents n' R ∧ ∃ r, r ∈ R ∧ rt_owner r = c ∧ overlap r new = true.
Proof.
  intros Hrep Hnew H Hc.
  destruct (add_walk_conflict _ _ _ _ _ _ H Hc) as [Hsame Hwhere].
  assert (Hrep' : represents n' R).
  { destruct Hrep. constructor; [done|..]; intros; setoid_rewrite (proj1 (Hsame _)) ||
      setoid_rewrite (proj1 (proj2 (Hsame _))) || setoid_rewrite (proj2 (proj2 (Hsame _))); eauto.
    - apply rep_exact_inv0. by rewrite -(proj1 (Hsame _)).
    - apply rep_prefix_inv0. by rewrite -(proj1 (proj2 (Hsame _))).
    - apply rep_first_inv0. by rewrite -(proj2 (proj2 (Hsame _))). }
  split; [done|]. pose proof (rep_ok n R Hrep) as Hok. rewrite Forall_forall in Hok.
  destruct Hwhere as [(p & Hpre & Ho)|[[Hm Ho]|[Hm Ho]]].
  - destruct (rep_prefix_inv n R Hrep p) as (r & Hr & Hmr & Hs & Hor); [by rewrite Ho|].
    exists r. split_and!; [done|by rewrite Hor|]. apply overlap_segments; [by apply Hok|done|].
    rewrite Hmr Hs. destruct (rt_mode new); auto.
  - destruct (rep_exact_inv n R Hrep (segs new)) as (r & Hr & Hmr & Hs & Hor); [by rewrite Ho|].
    exists r. split_and!; [done|by rewrite Hor|]. apply overlap_segments; [by apply Hok|done|].
    by rewrite Hmr Hm Hs.
  - destruct (rep_first_inv n R Hrep (segs new)) as (r & Hr & Hs & Hor); [by rewrite Ho|].
    exists r. split_and!; [done|by rewrite Hor|]. apply overlap_segments; [by apply Hok|done|].
    rewrite Hm. destruct (rt_mode r); auto.
Qed.

(** An accepted route overlaps none of the routes the trie represents. *)
Lemma add_walk_ok_disjoint n R new n' : represents n R → route_ok new →
  add_walk n (segs new) (rt_mode new) (rt_owner new) = (n', "") → ∀ r, r ∈ R → overlap r new = false.
Proof.
  intros Hrep Hnew H r Hr. destruct (add_walk_ok _ _ _ _ _ H (proj1 Hnew)) as (H1 & H2 & H3 & _).
  pose proof (rep_ok n R Hrep) as Hok. rewrite Forall_forall in Hok. pose proof (Hok r Hr) as Hrok.
  pose proof (proj2 (proj2 Hrok)) as Hro.
  apply not_true_iff_false. rewrite overlap_segments //.
  destruct Hrok as ([Hmr|Hmr] & _ & _), Hnew as ([Hmn|Hmn] & _ & _); rewrite Hmr Hmn.
  - intros Heq. apply Hro. by rewrite -(rep_exact n R Hrep r) // Heq H2.
  - intros Hpre. eapply (rep_first n R Hrep); eauto.
  - intros Hpre. apply Hro. by rewrite -(rep_prefix n R Hrep r) // H1.
  - intros [Hpre|Hpre].
    + apply Hro. by rewrite -(rep_prefix n R Hrep r) // H1.
    + eapply (rep_first n R Hrep); eauto.
Qed.

Lemma add_walk_ok_represents n R new n' : represents n R → route_ok new →
  add_walk n (segs new) (rt_mode new) (rt_owner new) = (n', "") → represents n' (R ++ [new]).
Proof.
  intros Hrep Hnew H. pose proof (proj2 (proj2 Hnew)) as Ho.
  destruct (add_walk_ok _ _ _ _ _ H (proj1 Hnew)) as (H1 & H2 & H3 & H4 & H5 & H6).
  constructor.
  - apply Forall_app. split; [by destruct Hrep|by constructor].
  - intros r [Hr|Hr]%elem_of_app Hm; rewrite H4.
    + destruct (decide (_ ∧ _)) as [Hd|Hd]; [|by apply (rep_exact n R)]. destruct Hd as [Hs Hmn].
      pose proof (rep_exact n R Hrep r Hr Hm) as He. rewrite Hs H2 // in He.
      pose proof (rep_ok n R Hrep) as Hok. rewrite Forall_forall in Hok. by destruct (Hok r Hr) as (_ & _ & []).
    + apply list_elem_of_singleton in Hr as ->. destruct (decide (_ ∧ _)); naive_solver.
  - intros q. rewrite H4. destruct (decide (_ ∧ _)) as [Hd|Hd].
    + intros _. exists new. rewrite elem_of_app list_elem_of_singleton. naive_solver.
    + intros Hq. destruct (rep_exact_inv n R Hrep q Hq) as (r & Hr & ?). exists r. rewrite elem_of_app. naive_solver.
  - intros r [Hr|Hr]%elem_of_app Hm; rewrite H5.
    + destruct (decide (_ ∧ _)) as [Hd|Hd]; [|by apply (rep_prefix n R)]. destruct Hd as [Hs Hmn].
      pose proof (rep_prefix n R Hrep r Hr Hm) as He. rewrite Hs H1 // in He.
      pose proof (rep_ok n R Hrep) as Hok. rewrite Forall_forall in Hok. by destruct (Hok r Hr) as (_ & _ & []).
    + apply list_elem_of_singleton in Hr as ->. destruct (decide (_ ∧ _)); naive_solver.
  - intros q. rewrite H5. destruct (decide (_ ∧ _)) as [Hd|Hd].
    + intros _. exists new. rewrite elem_of_app list_elem_of_singleton. naive_solver.
    + intros Hq. destruct (rep_prefix_inv n R Hrep q Hq) as (r & Hr & ?). exists r. rewrite elem_of_app. naive_solver.
  - intros r q [Hr|Hr]%elem_of_app Hq; rewrite H6; destruct (decide (_ ∧ _)) as [Hd|Hd]; try done.
    + by apply (rep_first n R Hrep r).
    + apply list_elem_of_singleton in Hr as ->. naive_solver.
  - intros q. rewrite H6. destruct (decide (_ ∧ _)) as [Hd|Hd].
    + intros _. exists new. rewrite elem_of_app list_elem_of_singleton. naive_solver.
    + intros Hq. destruct (rep_first_inv n R Hrep q Hq) as (r & Hr & ?). exists r. rewrite elem_of_app. naive_solver.
Qed.

(** ** Theorems *)

(** The request paths a route selects: an exact route its own path, a prefix route
    the subtree below it. *)
Definition selects (r : route) (request : string) : bool :=
  match rt_mode r with
  | RouteExact => String.eqb request (rt_path r)
  | RoutePrefix => exposePrefixContains (rt_path r) request
  | RouteUnsupported _ => false
  end.

(** An index built by [Add] calls, with the routes it accepted. *)
Inductive indexed : exposeRouteNode → list route → Prop :=
  | indexed_new : indexed newRouteNode []
  | indexed_accept n R mode path owner n' :
      indexed n R → Add_route n mode path owner = Ok (n', "") → indexed n' (R ++ [Route mode path owner])
  | indexed_refuse n R mode path owner n' conflict :
      indexed n R → Add_route n mode path owner = Ok (n', conflict) → conflict ≠ "" → indexed n' R.

Lemma Add_route_ok n mode path owner n' c : Add_route n mode path owner = Ok (n', c) →
  route_ok (Route mode path owner) ∧ add_walk n (exposePathSegments path) mode owner = (n', c).
Proof.
  unfold Add_route. intros H. ok_inv H. apply ValidateExposePath_ok in G0 as [? ?].
  apply eqb_str_false in G. injection H as H. by repeat split.
Qed.

Lemma indexed_represents n R : indexed n R → represents n R.
Proof.
  induction 1 as [|n R mode path owner n' _ IH H|n R mode path owner n' c _ IH H Hc]; [apply represents_new|..].
  - apply Add_route_ok in H as [Hok H]. by apply (add_walk_ok_represents n R (Route mode path owner)).
  - apply Add_route_ok in H as [Hok H]. by eapply (add_walk_conflict_overlap n R (Route mode path owner)).
Qed.

(** Refinement of the route index.  On an index that accepted the routes [R],
    [Add] reports no conflict exactly when the new route overlaps none of [R] by
    the pairwise test; a reported conflict is the owner of an overlapping route
    of [R]. *)
Theorem route_index_detects_overlap n R mode path owner n' conflict :
  indexed n R → Add_route n mode path owner = Ok (n', conflict) →
  (conflict = "" ↔ Forall (λ r, overlap r (Route mode path owner) = false) R) ∧
  (conflict ≠ "" → ∃ r, r ∈ R ∧ rt_owner r = conflict ∧ overlap r (Route mode path owner) = true).
Proof.
  intros Hrep%indexed_represents [Hok H]%Add_route_ok.
  pose proof (add_walk_conflict_overlap n R (Route mode path owner) n' conflict Hrep Hok H) as Hconf.
  split; [split|].
  - intros ->. apply Forall_forall. by eapply add_walk_ok_disjoint.
  - intros Hall. destruct (decide (conflict = "")) as [|Hne]; [done|].
    destruct (Hconf Hne) as [_ (r & Hr & _ & Ho)]. rewrite Forall_forall in Hall. by rewrite Hall in Ho.
  - intros Hne. by destruct (Hconf Hne) as [_ ?].
Qed.

Lemma selects_segments r q : route_ok r → absolute q →
  selects r q = true ↔
  match rt_mode r with RouteExact => segs r = exposePathSegments q | _ => segs r `prefix_of` exposePathSegments q end.
Proof.
  intros (Hm & Ha & _) Hq. unfold selects, segs. destruct Hm as [->| ->].
  - rewrite eqb_str_true. split; [by intros ->|]. intros H. symmetry. by apply segments_inj.
  - by apply exposePrefixContains_spec.
Qed.

Lemma overlap_comm r s : overlap r s = overlap s r.
Proof.
  unfold overlap, ExposeRoutesOverlap. destruct (rt_mode r), (rt_mode s); try done.
  - apply String.eqb_sym.
  - apply orb_comm.
Qed.

Lemma selects_self r : route_ok r → selects r (rt_path r) = true.
Proof.
  intros Hr. pose proof Hr as (_ & Ha & _). rewrite selects_segments //. fold (segs r). by destruct (rt_mode r).
Qed.

Lemma overlap_common_request r s : route_ok r → route_ok s →
  overlap r s = true ↔ ∃ request, absolute request ∧ selects r request = true ∧ selects s request = true.
Proof.
  intros Hr Hs. rewrite overlap_segments //.
  pose proof (selects_self r Hr) as Hselr. pose proof (selects_self s Hs) as Hsels.
  pose proof Hr as (Hmr & Har & _). pose proof Hs as (Hms & Has & _). split.
  - assert (Hup : segs r `prefix_of` segs s → rt_mode r = RoutePrefix → selects r (rt_path s) = true).
    { intros Hpre Hm. rewrite selects_segments // Hm //. }
    assert (Hdown : segs s `prefix_of` segs r → rt_mode s = RoutePrefix → selects s (rt_path r) = true).
    { intros Hpre Hm. rewrite selects_segments // Hm //. }
    destruct Hmr as [Hmr|Hmr], Hms as [Hms|Hms]; rewrite Hmr Hms.
    + intros H. exists (rt_path r). split_and!; [done|done|]. rewrite selects_segments // Hms //.
    + intros H. exists (rt_path r). auto.
    + intros H. exists (rt_path s). auto.
    + intros [H|H]; [exists (rt_path s)|exists (rt_path r)]; auto.
  - intros (q & Hq & H1 & H2). rewrite !selects_segments // in H1 H2.
    destruct Hmr as [Hmr|Hmr], Hms as [Hms|Hms]; rewrite Hmr in H1 |- *; rewrite Hms in H2 |- *.
    + by rewrite H1 H2.
    + by rewrite H1.
    + by rewrite H2.
    + by eapply prefix_weak_total.
Qed.

(** Meaning of the overlap test.  Two routes with absolute paths overlap
    exactly when some absolute request path is selected by both, so the test is
    also symmetric. *)
Theorem overlap_iff_common_request r s : route_ok r → route_ok s →
  (overlap r s = true ↔ ∃ request, absolute request ∧ selects r request = true ∧ selects s request = true)
  ∧ overlap r s = overlap s r.
Proof. intros Hr Hs. split; [by apply overlap_common_request|apply overlap_comm]. Qed.

Lemma indexed_unambiguous n R i j r s request :
  indexed n R → R !! i = Some r → R !! j = Some s → absolute request →
  selects r request = true → selects s request = true → i = j.
Proof.
  intros Hidx. revert i j r s. induction Hidx as [|n R mode path owner n' Hn IH H|]; intros i j r s Hi Hj Hq Hr Hs; [done| |by eauto].
  destruct (Add_route_ok _ _ _ _ _ _ H) as [Hok Hw]. apply indexed_represents in Hn as Hrep.
  pose proof (add_walk_ok_disjoint n R (Route mode path owner) n' Hrep Hok Hw) as Hdis.
  assert (Hnew : ∀ t, t ∈ R → selects t request = true → selects (Route mode path owner) request = true → False).
  { intros t Ht H1 H2. specialize (Hdis t Ht).
    pose proof (rep_ok n R Hrep) as Hall. rewrite Forall_forall in Hall.
    rewrite (proj2 (overlap_common_request t _ (Hall t Ht) Hok)) // in Hdis. by exists request. }
  apply lookup_app_Some in Hi as [Hi|[Hli Hi]], Hj as [Hj|[Hlj Hj]].
  - by eapply IH.
  - apply list_lookup_singleton_Some in Hj as [_ <-]. exfalso. by apply (Hnew r); [by eapply list_elem_of_lookup_2|..].
  - apply list_lookup_singleton_Some in Hi as [_ <-]. exfalso. by apply (Hnew s); [by eapply list_elem_of_lookup_2|..].
  - apply list_lookup_singleton_Some in Hi as [Hi _], Hj as [Hj _]. lia.
Qed.

(** Unambiguous routing.  Whatever sequence of [Add] calls built an index, no
    request path is selected by two of the routes it accepted. *)
Theorem indexed_routes_unambiguous n R i j r s request :
  indexed n R → R !! i = Some r → R !! j = Some s → absolute request →
  selects r request = true → selects s request = true → i = j.
Proof. apply indexed_unambiguous. Qed.

(** *** Witnesses *)

Definition root_of (r : result (exposeRouteNode * string)) : exposeRouteNode :=
  match r with Ok (n, _) => n | Err _ => newRouteNode end.

Definition sample_index_1 : exposeRouteNode := root_of (Add_route newRouteNode RoutePrefix "/api" "a").
Definition sample_index_2 : exposeRouteNode := root_of (Add_route sample_index_1 RouteExact "/apiv2" "b").
Definition sample_index_3 : exposeRouteNode := root_of (Add_route sample_index_2 RouteExact "/api/hook" "c").
Definition sample_routes : list route := [Route RoutePrefix "/api" "a"; Route RouteExact "/apiv2" "b"].

Lemma sample_indexed : indexed sample_index_2 sample_routes.
Proof.
  apply (indexed_accept sample_index_1 [Route RoutePrefix "/api" "a"]); [|by vm_compute].
  apply (indexed_accept newRouteNode []); [apply indexed_new|by vm_compute].
Defined.

(** A route below an indexed prefix is refused in favour of the prefix's owner. *)
Lemma route_index_detects_overlap_witness :
  Add_route sample_index_2 RouteExact "/api/hook" "c" = Ok (sample_index_3, "a") ∧
  ∃ r, r ∈ sample_routes ∧ rt_owner r = "a" ∧ overlap r (Route RouteExact "/api/hook" "c") = true.
Proof.
  assert (H : Add_route sample_index_2 RouteExact "/api/hook" "c" = Ok (sample_index_3, "a")) by by vm_compute.
  split; [exact H|].
  apply (proj2 (route_index_detects_overlap _ _ _ _ _ _ _ sample_indexed H)). done.
Defined.

Lemma overlap_iff_common_request_witness :
  ∃ request, absolute request ∧ selects (Route RoutePrefix "/api" "a") request = true
    ∧ selects (Route RouteExact "/api/hook" "c") request = true.
Proof.
  apply (proj1 (overlap_iff_common_request (Route RoutePrefix "/api" "a") (Route RouteExact "/api/hook" "c")
    ltac:(repeat split; auto) ltac:(repeat split; auto))).
  reflexivity.
Defined.

Lemma indexed_routes_unambiguous_witness : (0 = 0)%nat.
Proof.
  apply (indexed_routes_unambiguous sample_index_2 sample_routes 0 0
    (Route RoutePrefix "/api" "a") (Route RoutePrefix "/api" "a") "/api/hook" sample_indexed); reflexivity.
Defined.
