(* ===== verification/Ordered.v ===== *)
(** * Canonical order by a text key

    Several components keep records in the ascending order of a text key: they sort
    with [sort.Slice], refuse neighbours with equal keys, index the records by the key
    in a map and walk the sorted union of the keys of two maps.  The definitions are
    generic in the record and its key; the facts are shared by the components. *)

From S2P Require Import Prelude GoText GoNet GoTime Types Checks.

Local Open Scope string_scope.
Local Open Scope list_scope.

Section ordered.
Context {A : Type} (order : A → string).

Definition order_le (x y : A) : Prop := str_le (order x) (order y).

#[export] Instance order_le_dec : RelDecision order_le.
Proof. intros x y. unfold order_le. apply _. Defined.
#[export] Instance order_le_trans : Transitive order_le.
Proof. intros x y z. unfold order_le. apply transitivity. Qed.
#[export] Instance order_le_total : Total order_le.
Proof. intros x y. apply str_le_total. Qed.

(** [sort.Slice] by the key.  The code refuses equal keys before or after sorting, so
    that the instability of the sort is not observable. *)
Definition sort_by (l : list A) : list A := merge_sort order_le l.

(** [for index := 1; index < len(l); index++ { if key(l[index]) == key(l[index-1]) ... }] *)
Fixpoint reject_neighbours (e : error) (l : list A) : result unit :=
  match l with
  | x :: ((y :: _) as rest) => reject (String.eqb (order y) (order x)) e;; reject_neighbours e rest
  | _ => Ok ()
  end.

(** The loop that fills a map. *)
Definition by_key (l : list A) : gmap string A := foldl (λ m x, <[order x := x]> m) ∅ l.

Lemma sort_by_perm l : sort_by l ≡ₚ l.
Proof. apply merge_sort_Permutation. Qed.

Lemma sort_by_sorted l : StronglySorted order_le (sort_by l).
Proof. apply (StronglySorted_merge_sort _ _). Qed.

Lemma elem_of_sort_by l x : x ∈ sort_by l ↔ x ∈ l.
Proof. by rewrite sort_by_perm. Qed.

Lemma order_perm (l k : list A) : l ≡ₚ k → (order <$> l) ≡ₚ (order <$> k).
Proof. by intros ->. Qed.

Lemma reject_neighbours_ok e l u : StronglySorted order_le l →
  reject_neighbours e l = Ok u ↔ StronglySorted str_lt (order <$> l).
Proof.
  destruct u. induction 1 as [|x l Hl IH Hx]; [by split; constructor|].
  destruct l as [|y l]; [split; [|done]; intros _; repeat constructor|].
  cbn [reject_neighbours fmap list_fmap].
  rewrite bind_ok. split.
  - intros ([] & Hr%reject_ok & Hn). apply IH in Hn. apply String.eqb_neq in Hr.
    constructor; [done|]. apply Forall_cons in Hx as [Hxy _].
    apply str_leb_spec in Hxy as [Hxy|Hxy]; [congruence|].
    constructor; [done|]. apply StronglySorted_inv in Hn as [_ Hn].
    eapply Forall_impl; [exact Hn|]. intros z Hz. cbn. by etrans.
  - intros [Hn Hlt]%StronglySorted_inv. exists (). split; [|by apply IH].
    apply reject_ok, String.eqb_neq. apply Forall_cons in Hlt as [Hlt _]. intros Heq.
    rewrite Heq in Hlt. by apply str_lt_irrefl in Hlt.
Qed.

Lemma sorted_lt_NoDup (l : list string) : StronglySorted str_lt l → NoDup l.
Proof.
  induction 1 as [|x l Hl IH Hx]; constructor; [|done]. intros Hin.
  rewrite Forall_forall in Hx. apply Hx in Hin. by apply str_lt_irrefl in Hin.
Qed.

Lemma sort_by_lt l : NoDup (order <$> l) → StronglySorted str_lt (order <$> sort_by l).
Proof.
  intros Hnd. rewrite -(order_perm _ _ (sort_by_perm l)) in Hnd. revert Hnd.
  induction (sort_by_sorted l) as [|x k Hk IH Hx]; [constructor|].
  intros [Hnx Hnd]%NoDup_cons. constructor; [by apply IH|].
  rewrite Forall_forall. intros z (y & -> & Hy)%list_elem_of_fmap.
  rewrite Forall_forall in Hx. specialize (Hx _ Hy). apply str_leb_spec in Hx as [Hx|Hx]; [|done].
  destruct Hnx. apply list_elem_of_fmap. eauto.
Qed.

(** Sorting and refusing equal neighbours accepts exactly the lists without a
    repeated key. *)
Lemma sorted_unique_ok e l u : reject_neighbours e (sort_by l) = Ok u ↔ NoDup (order <$> l).
Proof.
  rewrite reject_neighbours_ok; [apply sort_by_sorted|]. split.
  - intros H%sorted_lt_NoDup. by rewrite (order_perm _ _ (sort_by_perm l)) in H.
  - apply sort_by_lt.
Qed.

Lemma reject_neighbours_err e l e' : reject_neighbours e l = Err e' → e' = e.
Proof.
  induction l as [|x [|y l] IH]; [done|done|]. cbn [reject_neighbours].
  destruct (String.eqb (order y) (order x)); cbn; [by intros [= <-]|apply IH].
Qed.

(** Two sorted lists with the same members and distinct keys are the same list. *)
Lemma order_sorted_unique l k : StronglySorted str_lt (order <$> l) → StronglySorted str_lt (order <$> k) →
  (∀ x, x ∈ l ↔ x ∈ k) → l = k.
Proof.
  revert k. induction l as [|x l IH]; intros [|y k] Hl Hk Heq; [done| | |].
  - assert (H : y ∈ @nil A) by (apply Heq; left). by apply not_elem_of_nil in H.
  - assert (H : x ∈ @nil A) by (apply Heq; left). by apply not_elem_of_nil in H.
  - apply StronglySorted_inv in Hl as [Hl Hx]. apply StronglySorted_inv in Hk as [Hk Hy].
    rewrite Forall_forall in Hx. rewrite Forall_forall in Hy.
    assert (Hbelow : ∀ z m, z ∈ m → order z ∈ order <$> m) by (intros; apply list_elem_of_fmap; eauto).
    assert (x = y) as ->.
    { assert (Hxk : x ∈ y :: k) by (apply Heq; left). assert (Hyl : y ∈ x :: l) by (apply Heq; left).
      apply elem_of_cons in Hxk as [|Hxk]; [done|]. apply elem_of_cons in Hyl as [|Hyl]; [done|].
      destruct (str_lt_irrefl (order x)). etrans; [by apply Hx, Hbelow|by apply Hy, Hbelow]. }
    f_equal. apply IH; [done|done|]. intros z. specialize (Heq z). rewrite !elem_of_cons in Heq.
    assert (Hnl : y ∉ l) by (intros H%Hbelow%Hx; by apply str_lt_irrefl in H).
    assert (Hnk : y ∉ k) by (intros H%Hbelow%Hy; by apply str_lt_irrefl in H).
    naive_solver.
Qed.

Lemma sort_by_unique l k : NoDup (order <$> l) → l ≡ₚ k → sort_by l = sort_by k.
Proof.
  intros Hnd Hp. apply order_sorted_unique.
  - by apply sort_by_lt.
  - apply sort_by_lt. by rewrite -(order_perm _ _ Hp).
  - intros x. by rewrite !elem_of_sort_by Hp.
Qed.

Lemma sort_by_fixed l : StronglySorted str_lt (order <$> l) → sort_by l = l.
Proof.
  intros Hl. apply order_sorted_unique; [by apply sort_by_lt, sorted_lt_NoDup|done|].
  intros x. apply elem_of_sort_by.
Qed.

(** ** Indexing by the key *)

Lemma by_key_snoc l x : by_key (l ++ [x]) = <[order x := x]> (by_key l).
Proof. unfold by_key. by rewrite foldl_app. Qed.

Lemma by_key_some l k x : by_key l !! k = Some x → x ∈ l ∧ order x = k.
Proof.
  induction l as [|y l IH] using rev_ind; [done|]. rewrite by_key_snoc.
  intros [[<- <-]|[_ H]]%lookup_insert_Some; [set_solver|]. apply IH in H. set_solver.
Qed.

Lemma by_key_lookup l k x : NoDup (order <$> l) → by_key l !! k = Some x ↔ x ∈ l ∧ order x = k.
Proof.
  intros Hnd. split; [apply by_key_some|]. intros [Hx <-].
  induction l as [|y l IH] using rev_ind; [by apply not_elem_of_nil in Hx|].
  rewrite fmap_app in Hnd. apply NoDup_app in Hnd as (Hnd & Hdis & _). rewrite by_key_snoc.
  apply elem_of_app in Hx as [Hx| ->%list_elem_of_singleton]; [|by rewrite lookup_insert_eq].
  rewrite lookup_insert_ne; [|by apply IH]. intros Heq. apply (Hdis (order x)).
  - apply list_elem_of_fmap. eauto.
  - rewrite -Heq. by left.
Qed.

Lemma by_key_none l k : by_key l !! k = None ↔ ∀ x, x ∈ l → order x ≠ k.
Proof.
  induction l as [|y l IH] using rev_ind; [cbn; rewrite lookup_empty; set_solver|].
  rewrite by_key_snoc lookup_insert_None IH. set_solver.
Qed.

Lemma by_key_perm l k : NoDup (order <$> l) → l ≡ₚ k → by_key l = by_key k.
Proof.
  intros Hnd Hp. apply map_eq. intros i. apply option_eq. intros x.
  rewrite (by_key_lookup l) // (by_key_lookup k) -?(order_perm _ _ Hp) // Hp //.
Qed.
End ordered.

(** ** The keys of two maps *)

Definition union_keys {A B} (left : gmap string A) (right : gmap string B) : list string :=
  sort_strings ((map_to_list left).*1 ++ filter (λ key, left !! key = None) (map_to_list right).*1).

Lemma elem_of_keys {A} (m : gmap string A) k : k ∈ (map_to_list m).*1 ↔ is_Some (m !! k).
Proof.
  rewrite list_elem_of_fmap. split.
  - intros ([k' x] & -> & H%elem_of_map_to_list). eauto.
  - intros [x H]. exists (k, x). split; [done|by apply elem_of_map_to_list].
Qed.

Lemma elem_of_union_keys {A B} (l : gmap string A) (r : gmap string B) k :
  k ∈ union_keys l r ↔ is_Some (l !! k) ∨ is_Some (r !! k).
Proof.
  unfold union_keys, sort_strings. rewrite merge_sort_Permutation elem_of_app list_elem_of_filter !elem_of_keys.
  rewrite eq_None_not_Some. destruct (l !! k); naive_solver.
Qed.

Lemma union_keys_sorted {A B} (l : gmap string A) (r : gmap string B) : StronglySorted str_lt (union_keys l r).
Proof.
  set (keys := (map_to_list l).*1 ++ filter (λ key, l !! key = None) (map_to_list r).*1).
  assert (Hnd : NoDup (id <$> keys)).
  { rewrite list_fmap_id. apply NoDup_app. split_and!.
    - apply NoDup_fst_map_to_list.
    - intros k Hk. rewrite list_elem_of_filter eq_None_not_Some. rewrite elem_of_keys in Hk. tauto.
    - apply NoDup_filter, NoDup_fst_map_to_list. }
  apply sort_by_lt in Hnd. by rewrite list_fmap_id in Hnd.
Qed.

(** ** Ascending lists *)

Lemma sorted_lt_next (l : list string) i x y : StronglySorted str_lt l → l !! i = Some x → l !! S i = Some y → str_lt x y.
Proof.
  intros Hs. revert i. induction Hs as [|z l Hs IH Hz]; intros i; [done|].
  destruct i as [|i]; cbn; [|by apply IH]. intros [= <-] Hy. rewrite Forall_forall in Hz. apply Hz. by eapply list_elem_of_lookup_2.
Qed.

Lemma sorted_filter_fmap {A} (f : A → string) (P : A → Prop) `{∀ x, Decision (P x)} (l : list A) :
  StronglySorted str_lt (f <$> l) → StronglySorted str_lt (f <$> filter P l).
Proof.
  induction l as [|x l IH]; [done|]. cbn. intros [Hs Hx]%StronglySorted_inv. destruct (decide (P x)); [|by apply IH].
  cbn. constructor; [by apply IH|]. rewrite !Forall_forall in Hx |- *. intros y (z & -> & Hz)%list_elem_of_fmap.
  apply Hx, list_elem_of_fmap. exists z. split; [done|]. by apply list_elem_of_filter in Hz as [_ ?].
Qed.

(** The check [index > 0 && key(x) <= key(xs[index-1])] never fires on an ascending list. *)
Lemma ascending_check {A} (f : A → string) (xs p q : list A) x : StronglySorted str_lt (f <$> xs) → xs = p ++ x :: q →
  match length p with
  | O => false
  | S i => match xs !! i with Some previous => str_leb (f x) (f previous) | None => false end
  end = false.
Proof.
  intros Hs ->. destruct (length p) as [|i] eqn:Hl; [done|]. destruct ((p ++ x :: q) !! i) as [y|] eqn:Hy; [|done].
  apply str_leb_false. apply (sorted_lt_next _ i _ _ Hs); rewrite list_lookup_fmap; [by rewrite Hy|].
  rewrite -Hl lookup_app_r // Nat.sub_diag //.
Qed.

(** And a loop that performs it establishes the order. *)
Lemma ascending_from_checks {A} (f : A → string) (xs : list A) :
  (∀ i x y, xs !! i = Some x → xs !! S i = Some y → str_leb (f y) (f x) = false) → StronglySorted str_lt (f <$> xs).
Proof.
  intros H. induction xs as [|x xs IH]; [constructor|]. cbn.
  assert (Hs : StronglySorted str_lt (f <$> xs)) by (apply IH; intros i; apply (H (S i))).
  constructor; [done|]. destruct xs as [|y xs]; [constructor|]. specialize (H 0 x y eq_refl eq_refl). apply str_leb_false in H.
  constructor; [done|]. apply StronglySorted_inv in Hs as [_ Hs]. eapply Forall_impl; [exact Hs|]. intros z Hz. cbn. by etrans.
Qed.
