(* ===== verification/Idempotency.v ===== *)
(** * Idempotency histories ([internal/model/idempotency.go])

    The gateway keeps, per node, the results of recent mutations so that a
    retried request is answered and not executed again.  The history is bounded
    in age and number and canonically ordered. *)

From S2P Require Import Prelude GoTime GoText GoNet Types Checks.

Local Open Scope string_scope.
Local Open Scope list_scope.

Definition IdempotencyMaxRecords : nat := 1024.
Definition IdempotencyMaxAge : Z := 30 * 24 * hour.

Definition idem_Validate (r : IdempotencyRecord) : result unit :=
  validateUUID "request_id" (idem_RequestID r);;
  reject (negb (validOperationType (idem_Operation r))) (Invalid "operation");;
  reject (negb (validResultStatus (idem_ResultStatus r))) (Invalid "result_status");;
  validateHash "result_hash" (idem_ResultHash r);;
  reject (idem_StateGeneration r =? 0)%N (Invalid "state_generation");;
  validateTime "recorded_at" (idem_RecordedAt r).

(** The comparison passed to [sort.Slice]: by time, then by request. *)
Definition idem_less (x y : IdempotencyRecord) : bool :=
  if negb (Equal (idem_RecordedAt x) (idem_RecordedAt y)) then Before (idem_RecordedAt x) (idem_RecordedAt y)
  else str_ltb (idem_RequestID x) (idem_RequestID y).

Definition idem_le (x y : IdempotencyRecord) : Prop := idem_less y x = false.

#[export] Instance idem_le_dec : RelDecision idem_le.
Proof. intros x y. unfold idem_le. apply _. Defined.

(** [sort.Search(n, f)]: binary search for the first index at which [f] holds.
    The interval shrinks at every step, so [n] steps are enough. *)
Fixpoint search_loop (fuel : nat) (f : nat → bool) (i j : nat) : nat :=
  match fuel with
  | O => i
  | S fuel' =>
      if (i <? j)%nat then
        let h := ((i + j) / 2)%nat in
        if negb (f h) then search_loop fuel' f (S h) j else search_loop fuel' f i h
      else i
  end.

Definition Search (n : nat) (f : nat → bool) : nat := search_loop n f 0 n.

(** Not older than the retention window; a record exactly at the cutoff stays. *)
Definition retained (now : time) (r : IdempotencyRecord) : bool :=
  negb (Before (idem_RecordedAt r) (Add now (- IdempotencyMaxAge))).

(** The last [n] elements. *)
Definition lastn {A} (n : nat) (l : list A) : list A := drop (length l - n) l.

Definition PruneIdempotencyRecords (records : list IdempotencyRecord) (now : time) : result (list IdempotencyRecord) :=
  validateTime "now" now;;
  _ ← range (λ index record seen,
    wrap (indexPath "records" index) (idem_Validate record);;
    reject (After (idem_RecordedAt record) now) (Invalid (indexPath "records" index +:+ ".recorded_at"));;
    check_unique (idem_RequestID record) (Invalid (indexPath "records" index +:+ ".request_id")) seen)
    records ∅;
  let canonical := merge_sort idem_le records in
  let firstRetained := Search (length canonical)
    (λ index, match canonical !! index with Some r => retained now r | None => true end) in
  let canonical := drop firstRetained canonical in
  Ok (if (IdempotencyMaxRecords <? length canonical)%nat then lastn IdempotencyMaxRecords canonical else canonical).

Definition find_request (requestID : string) (records : list IdempotencyRecord) : option IdempotencyRecord :=
  snd <$> list_find (λ r, idem_RequestID r = requestID) records.

(** The updated node, the result to answer with, and whether it is a replay. *)
Definition StoreIdempotencyResult (node : Node) (record : IdempotencyRecord) (now : time)
    : result (Node * IdempotencyRecord * bool) :=
  idem_Validate record;;
  validateTime "now" now;;
  reject (After (idem_RecordedAt record) now) (Invalid "recorded_at");;
  reject (Before (idem_RecordedAt record) (Add now (- IdempotencyMaxAge))) (Invalid "recorded_at");;
  pruned ← wrap "prune idempotency history" (PruneIdempotencyRecords (items (node_IdempotencyRecords node)) now);
  match find_request (idem_RequestID record) pruned with
  | Some prior => Ok (set_node_IdempotencyRecords (Some pruned) node, prior, true)
  | None =>
      updated ← wrap "prune updated idempotency history" (PruneIdempotencyRecords (pruned ++ [record]) now);
      Ok (set_node_IdempotencyRecords (Some updated) node, record, false)
  end.

Definition FindIdempotencyResult (node : Node) (requestID : string) (now : time) : result IdempotencyRecord :=
  validateUUID "request_id" requestID;;
  pruned ← wrap "prune idempotency history" (PruneIdempotencyRecords (items (node_IdempotencyRecords node)) now);
  match find_request requestID pruned with
  | Some record => Ok record
  | None => Err (Sentinel ErrIdempotencyRecordEvicted)
  end.

Definition validateIdempotencyHistory (records : slice IdempotencyRecord) : result unit :=
  reject (is_nil records) (Invalid "records");;
  reject (IdempotencyMaxRecords <? length (items records))%nat (Invalid "records");;
  _ ← range (λ index record seen,
    wrap (indexPath "records" index) (idem_Validate record);;
    reject (match index with
            | O => false
            | S i => match items records !! i with
                     | None => false
                     | Some previous =>
                         Before (idem_RecordedAt record) (idem_RecordedAt previous)
                         || (Equal (idem_RecordedAt record) (idem_RecordedAt previous)
                             && str_leb (idem_RequestID record) (idem_RequestID previous))
                     end
            end) (Invalid "records");;
    check_unique (idem_RequestID record) (Invalid (indexPath "records" index +:+ ".request_id")) seen)
    (items records) ∅;
  Ok ().

(** ** The order *)

Lemma idem_le_spec x y : idem_le x y ↔
  (instant (idem_RecordedAt x) < instant (idem_RecordedAt y))%Z ∨
  instant (idem_RecordedAt x) = instant (idem_RecordedAt y) ∧ str_le (idem_RequestID x) (idem_RequestID y).
Proof.
  unfold idem_le, idem_less, Equal, Before, str_le.
  destruct (instant (idem_RecordedAt y) =? instant (idem_RecordedAt x))%Z eqn:E; cbn; bool_facts.
  - rewrite -not_true_iff_false str_ltb_spec str_leb_spec.
    destruct (str_trichotomy (idem_RequestID x) (idem_RequestID y)) as [Hs|[Hs|Hs]].
    + rewrite Hs. split; [by auto|]. intros _ []%str_lt_irrefl.
    + split; [by auto|]. intros _ Hs'. by destruct (str_lt_irrefl (idem_RequestID x)); etrans.
    + split; [done|]. intros [?|[_ [Heq|Hs']]]; [lia| |].
      * rewrite Heq in Hs. by destruct (str_lt_irrefl _ Hs).
      * by destruct (str_lt_irrefl (idem_RequestID x)); etrans.
  - rewrite Z.ltb_ge. split; [left; lia|]. intros [?|[? ?]]; lia.
Qed.

#[export] Instance idem_le_trans : Transitive idem_le.
Proof.
  intros x y z. rewrite !idem_le_spec. intros [?|[? Hxy]] [?|[? Hyz]]; [left; lia..|].
  right. split; [lia|]. by etrans.
Qed.

#[export] Instance idem_le_total : Total idem_le.
Proof.
  intros x y. pose proof (idem_le_spec x y). pose proof (idem_le_spec y x).
  pose proof (total str_le (idem_RequestID x) (idem_RequestID y)) as Hid.
  pose proof (Z.lt_trichotomy (instant (idem_RecordedAt x)) (instant (idem_RecordedAt y))). naive_solver.
Qed.

(** ** Binary search *)

Lemma search_loop_spec fuel f i j n :
  (i ≤ j ≤ n → j - i ≤ fuel →
  (∀ k, k < i → f k = false) → (∀ k, j ≤ k < n → f k = true) →
  (∀ k l, k ≤ l < n → f k = true → f l = true) →
  let r := search_loop fuel f i j in i ≤ r ≤ j ∧ (∀ k, k < r → f k = false) ∧ (∀ k, r ≤ k < n → f k = true))%nat.
Proof.
  revert i j. induction fuel as [|fuel IH]; intros i j Hij Hf Hlo Hhi Hmono; cbn [search_loop].
  - assert (i = j) as <- by lia. cbn. ands.
  - destruct (i <? j)%nat eqn:E; [apply Nat.ltb_lt in E|apply Nat.ltb_ge in E; assert (i = j) as <- by lia; cbn; ands].
    assert (Hh : (i ≤ (i + j) / 2 < j)%nat) by (split; [apply Nat.div_le_lower_bound|apply Nat.Div0.div_lt_upper_bound]; lia).
    set (h := ((i + j) / 2)%nat) in *. destruct (f h) eqn:Hfh; cbn [negb].
    + destruct (IH i h) as (H1 & H2 & H3); [lia|lia|done| |done|ands].
      intros k Hk. by apply (Hmono h k).
    + destruct (IH (S h) j) as (H1 & H2 & H3); [lia|lia| |done|done|ands].
      intros k Hk. destruct (f k) eqn:Hfk; [|done]. rewrite (Hmono k h) // in Hfh. lia.
Qed.

Lemma Search_spec n f : (∀ k l, k ≤ l < n → f k = true → f l = true)%nat →
  let r := Search n f in (r ≤ n ∧ (∀ k, k < r → f k = false) ∧ (∀ k, r ≤ k < n → f k = true))%nat.
Proof.
  intros Hmono r. destruct (search_loop_spec n f 0 n n) as (H1 & H2 & H3); [lia..|done|]. unfold r, Search. ands.
Qed.

(** ** Pruning as a specification: sort, drop the expired, keep the newest *)

Definition pruned (records : list IdempotencyRecord) (now : time) : list IdempotencyRecord :=
  lastn IdempotencyMaxRecords (filter (λ r, retained now r = true) (merge_sort idem_le records)).

Lemma retained_mono now x y : idem_le x y → retained now x = true → retained now y = true.
Proof.
  rewrite idem_le_spec. unfold retained, Before. intros H Hx. bool_facts. apply negb_true_iff, Z.ltb_ge. lia.
Qed.

Lemma sorted_merge l : StronglySorted idem_le (merge_sort idem_le l).
Proof. apply (StronglySorted_merge_sort _ _). Qed.

Lemma lastn_small {A} n (l : list A) : (length l ≤ n)%nat → lastn n l = l.
Proof. intros. unfold lastn. by replace (length l - n)%nat with 0%nat by lia. Qed.

Lemma StronglySorted_lookup_le {A} (R : relation A) (l : list A) i j x y :
  StronglySorted R l → l !! i = Some x → l !! j = Some y → (i < j)%nat → R x y.
Proof.
  intros Hs. revert i j. induction Hs as [|a l Hs IH Hall]; intros i j Hi Hj Hij; [done|].
  destruct j as [|j]; [lia|]. cbn in Hj. destruct i as [|i]; cbn in Hi.
  - simplify_eq. rewrite Forall_forall in Hall. apply Hall. by eapply list_elem_of_lookup_2.
  - apply (IH i j); [done|done|lia].
Qed.

Lemma filter_none {A} (P : A → Prop) `{∀ x, Decision (P x)} (l : list A) : Forall (λ x, ¬ P x) l → filter P l = [].
Proof. induction 1 as [|x l Hx _ IH]; [done|]. by rewrite filter_cons_False. Qed.

Lemma filter_every {A} (P : A → Prop) `{∀ x, Decision (P x)} (l : list A) : Forall P l → filter P l = l.
Proof. induction 1 as [|x l Hx _ IH]; [done|]. by rewrite filter_cons_True // IH. Qed.

(** On a sorted list the binary search finds the boundary, so dropping up to it is
    filtering. *)
Lemma drop_search_filter now l : StronglySorted idem_le l →
  drop (Search (length l) (λ index, match l !! index with Some r => retained now r | None => true end)) l
  = filter (λ r, retained now r = true) l.
Proof.
  intros Hs. set (f := λ index, match l !! index with Some r => retained now r | None => true end).
  destruct (Search_spec (length l) f) as (Hle & Hlo & Hhi).
  { intros i j Hij. unfold f. destruct (l !! i) as [x|] eqn:Hi; [|apply lookup_ge_None in Hi; lia].
    destruct (l !! j) as [y|] eqn:Hj; [|done]. destruct (decide (i = j)) as [->|]; [by simplify_eq|].
    apply retained_mono. apply (StronglySorted_lookup_le idem_le l i j); try done. lia. }
  set (r := Search (length l) f) in *.
  rewrite -{2}(take_drop r l) filter_app filter_none ?filter_every //.
  - apply Forall_lookup. intros i x Hx. apply lookup_take_Some in Hx as [Hx Hi].
    generalize (Hlo i Hi). unfold f. by rewrite Hx => ->.
  - apply Forall_lookup. intros i x Hx. rewrite lookup_drop in Hx.
    generalize (Hhi (r + i)%nat). unfold f. rewrite Hx. apply lookup_lt_Some in Hx. intros Hr. apply Hr. lia.
Qed.

(** What the loop at the head of [PruneIdempotencyRecords] accepts. *)
Definition prunable (records : list IdempotencyRecord) (now : time) : Prop :=
  (∀ r, r ∈ records → idem_Validate r = Ok () ∧ After (idem_RecordedAt r) now = false) ∧
  NoDup (idem_RequestID <$> records).

Lemma prune_loop_ok records now s :
  range (λ index record seen,
    wrap (indexPath "records" index) (idem_Validate record);;
    reject (After (idem_RecordedAt record) now) (Invalid (indexPath "records" index +:+ ".recorded_at"));;
    check_unique (idem_RequestID record) (Invalid (indexPath "records" index +:+ ".request_id")) seen) records ∅ = Ok s ↔
  prunable records now ∧ s = list_to_set (idem_RequestID <$> records).
Proof.
  rewrite (range_unique_ok _ (λ _ r, idem_Validate r = Ok () ∧ After (idem_RecordedAt r) now = false) idem_RequestID).
  - intros i x seen seen' _. split; [intros H'; ok_inv H'; apply check_unique_ok in H'; destruct a; tauto|].
    intros ((-> & Ha) & Hk & ->). cbn. rewrite Ha. by apply check_unique_ok.
  - unfold prunable. setoid_rewrite list_elem_of_lookup. naive_solver.
Qed.

Lemma Prune_ok records now l :
  PruneIdempotencyRecords records now = Ok l ↔
  validateTime "now" now = Ok () ∧ prunable records now ∧ l = pruned records now.
Proof.
  unfold PruneIdempotencyRecords, pruned. rewrite drop_search_filter; [apply sorted_merge|].
  set (kept := filter _ _).
  assert ((if (IdempotencyMaxRecords <? length kept)%nat then lastn IdempotencyMaxRecords kept else kept)
    = lastn IdempotencyMaxRecords kept) as ->.
  { destruct (_ <? _)%nat eqn:E; [done|]. apply Nat.ltb_ge in E. by rewrite lastn_small. }
  split.
  - intros H. ok_step H. destruct a. ok_step H. apply prune_loop_ok in G0 as [? _]. by simplify_eq.
  - intros (-> & Hp & ->). cbn [mbind result_bind].
    by rewrite (proj2 (prune_loop_ok records now _) (conj Hp eq_refl)).
Qed.

(** ** What the pruned history holds *)

Lemma lastn_elem {A} n (l : list A) x : x ∈ lastn n l → x ∈ l.
Proof. intros H. rewrite -(take_drop (length l - n) l). apply elem_of_app. by right. Qed.

Lemma lastn_length {A} n (l : list A) : length (lastn n l) = Nat.min n (length l).
Proof. unfold lastn. rewrite length_drop. lia. Qed.

Lemma StronglySorted_app_inv {A} (R : relation A) l k : StronglySorted R (l ++ k) →
  StronglySorted R k ∧ ∀ x y, x ∈ l → y ∈ k → R x y.
Proof.
  induction l as [|a l IH]; cbn; [split; [done|set_solver]|].
  inversion_clear 1 as [|? ? Hs Hall]. destruct (IH Hs) as [Hk Hlk]. split; [done|].
  intros x y [->|Hx]%elem_of_cons Hy; [|by apply Hlk]. rewrite Forall_forall in Hall. apply Hall, elem_of_app. by right.
Qed.

Lemma StronglySorted_filter {A} (R : relation A) P `{∀ x : A, Decision (P x)} l :
  StronglySorted R l → StronglySorted R (filter P l).
Proof.
  induction 1 as [|a l Hs IH Hall]; [constructor|]. rewrite filter_cons. destruct (decide (P a)); [|done].
  constructor; [done|]. rewrite !Forall_forall in Hall |- *. intros x [_ Hx]%list_elem_of_filter. by apply Hall.
Qed.

Lemma lastn_split {A} n (l : list A) : ∃ old, l = old ++ lastn n l.
Proof. exists (take (length l - n) l). by rewrite take_drop. Qed.

Lemma pruned_sorted records now : StronglySorted idem_le (pruned records now).
Proof.
  unfold pruned. destruct (lastn_split IdempotencyMaxRecords (filter (λ r, retained now r = true) (merge_sort idem_le records))) as [old Hold].
  apply (StronglySorted_app_inv idem_le old). rewrite -Hold. apply StronglySorted_filter, sorted_merge.
Qed.

Lemma kept_elem records now r :
  r ∈ filter (λ r, retained now r = true) (merge_sort idem_le records) ↔ r ∈ records ∧ retained now r = true.
Proof. rewrite list_elem_of_filter merge_sort_Permutation. tauto. Qed.

Lemma pruned_elem records now r : r ∈ pruned records now → r ∈ records ∧ retained now r = true.
Proof. intros H%lastn_elem. by apply kept_elem. Qed.

Lemma pruned_newest records now r x : r ∈ records → retained now r = true → (r ∉ pruned records now) →
  x ∈ pruned records now → idem_le r x.
Proof.
  unfold pruned. intros Hr Hret Hout Hx.
  destruct (lastn_split IdempotencyMaxRecords (filter (λ r, retained now r = true) (merge_sort idem_le records))) as [old Hold].
  assert (Hs : StronglySorted idem_le (filter (λ r, retained now r = true) (merge_sort idem_le records)))
    by apply StronglySorted_filter, sorted_merge.
  rewrite Hold in Hs. apply StronglySorted_app_inv in Hs as [_ Hs]. apply Hs; [|done].
  assert (Hin := proj2 (kept_elem records now r) (conj Hr Hret)). rewrite Hold in Hin.
  by apply elem_of_app in Hin as [?|?].
Qed.

Lemma pruned_full records now r : r ∈ records → retained now r = true → (r ∉ pruned records now) →
  length (pruned records now) = IdempotencyMaxRecords.
Proof.
  unfold pruned. intros Hr Hret Hout. rewrite lastn_length.
  destruct (decide (length (filter (λ r, retained now r = true) (merge_sort idem_le records)) ≤ IdempotencyMaxRecords)%nat) as [Hle|]; [|lia].
  rewrite lastn_small // in Hout. destruct Hout. by apply kept_elem.
Qed.

Lemma pruned_length records now : (length (pruned records now) ≤ IdempotencyMaxRecords)%nat.
Proof. unfold pruned. rewrite lastn_length. lia. Qed.

Lemma sublist_map {A B} (f : A → B) l k : sublist l k → sublist (f <$> l) (f <$> k).
Proof. induction 1; cbn; by constructor. Qed.

Lemma pruned_NoDup records now : NoDup (idem_RequestID <$> records) → NoDup (idem_RequestID <$> pruned records now).
Proof.
  intros Hn. apply (sublist_NoDup _ (idem_RequestID <$> merge_sort idem_le records)).
  - by rewrite merge_sort_Permutation.
  - apply sublist_map. unfold pruned, lastn. etrans; [apply sublist_drop|apply sublist_filter].
Qed.

Lemma pruned_prunable records now now' : prunable records now → (instant now ≤ instant now')%Z →
  prunable (pruned records now) now'.
Proof.
  intros [Hv Hn] Hle. split; [|by apply pruned_NoDup].
  intros r [Hr _]%pruned_elem. destruct (Hv r Hr) as [? Ha]. split; [done|].
  unfold After in *. bool_facts. apply Z.ltb_ge. lia.
Qed.

Lemma canonical_history l : (length l ≤ IdempotencyMaxRecords)%nat → (∀ r, r ∈ l → idem_Validate r = Ok ()) →
  StronglySorted idem_le l → NoDup (idem_RequestID <$> l) → validateIdempotencyHistory (Some l) = Ok ().
Proof.
  intros Hlen Hv Hs Hn. unfold validateIdempotencyHistory. change (items (Some l)) with l. cbn [is_nil reject mbind result_bind].
  rewrite (proj2 (Nat.ltb_ge _ _) Hlen). cbn [reject mbind result_bind].
  rewrite (proj2 (range_unique_ok _ (λ _ r, idem_Validate r = Ok ()) idem_RequestID l (list_to_set (idem_RequestID <$> l)) _)) //.
  - intros i x seen seen' Hx.
    match goal with |- context [reject ?b _] => assert (b = false) as -> end.
    { destruct i as [|i]; [done|]. destruct (l !! i) as [y|] eqn:Hy; [|done].
      assert (Hyx : idem_le y x) by (apply (StronglySorted_lookup_le idem_le l i (S i)); [done..|lia]).
      assert (Hne : idem_RequestID y ≠ idem_RequestID x).
      { intros Heq. assert (i = S i); [|lia]. apply (NoDup_lookup (idem_RequestID <$> l) i (S i) (idem_RequestID x) Hn);
          rewrite list_lookup_fmap; [rewrite Hy; cbn; congruence|by rewrite Hx]. }
      apply idem_le_spec in Hyx. unfold Before, Equal. apply orb_false_iff. split; [apply Z.ltb_ge; lia|].
      destruct Hyx as [Hlt|[Heq Hid]]; apply andb_false_iff; [left; apply Z.eqb_neq; lia|right].
      apply not_true_iff_false. intros Hle. apply Hne. by apply (anti_symm str_le). }
    cbn. split.
    + intros H'. ok_step H'. destruct a. apply check_unique_ok in H'. tauto.
    + intros (-> & Hk & ->). cbn. by apply check_unique_ok.
  - split; [|done]. intros i x Hx. apply Hv. by eapply list_elem_of_lookup_2.
Qed.

Lemma pruned_history records now : prunable records now → validateIdempotencyHistory (Some (pruned records now)) = Ok ().
Proof.
  intros [Hv Hn]. apply canonical_history; [apply pruned_length| |apply pruned_sorted|by apply pruned_NoDup].
  intros r [Hr _]%pruned_elem. by apply Hv.
Qed.

Lemma find_request_some id l r : find_request id l = Some r → r ∈ l ∧ idem_RequestID r = id.
Proof.
  unfold find_request. destruct (list_find _ l) as [[i x]|] eqn:E; cbn; [|done]. intros [= <-].
  apply list_find_Some in E as (Hi & Hid & _). split; [by eapply list_elem_of_lookup_2|done].
Qed.

Lemma find_request_in l r : NoDup (idem_RequestID <$> l) → r ∈ l → find_request (idem_RequestID r) l = Some r.
Proof.
  intros Hn Hr. destruct (find_request (idem_RequestID r) l) as [x|] eqn:E.
  - apply find_request_some in E as [Hx Hid]. f_equal.
    apply list_elem_of_lookup in Hx as [i Hi]. apply list_elem_of_lookup in Hr as [j Hj].
    assert (i = j) as ->; [|congruence].
    apply (NoDup_lookup (idem_RequestID <$> l) i j (idem_RequestID r) Hn); rewrite list_lookup_fmap ?Hi ?Hj /= ?Hid //.
  - unfold find_request in E. apply fmap_None, list_find_None in E. rewrite Forall_forall in E. by destruct (E r Hr).
Qed.

Lemma find_request_none id l : find_request id l = None ↔ (id ∉ idem_RequestID <$> l).
Proof.
  unfold find_request. rewrite fmap_None list_find_None Forall_forall list_elem_of_fmap. naive_solver.
Qed.

(** A successful store, in terms of the specification of pruning. *)
Lemma Store_ok node record now node' answer replayed :
  StoreIdempotencyResult node record now = Ok (node', answer, replayed) →
  let before := pruned (items (node_IdempotencyRecords node)) now in
  validateTime "now" now = Ok () ∧ idem_Validate record = Ok () ∧ After (idem_RecordedAt record) now = false ∧
  retained now record = true ∧ prunable (items (node_IdempotencyRecords node)) now ∧
  ((replayed = true ∧ find_request (idem_RequestID record) before = Some answer ∧
      node' = set_node_IdempotencyRecords (Some before) node) ∨
   (replayed = false ∧ find_request (idem_RequestID record) before = None ∧ answer = record ∧
      node' = set_node_IdempotencyRecords (Some (pruned (before ++ [record]) now)) node)).
Proof.
  intros H before. unfold StoreIdempotencyResult in H. ok_inv H. destruct a, a0.
  apply Prune_ok in G3 as (_ & Hp & ->). fold before in H.
  split_and!; [done..|by unfold retained; rewrite G2|done|].
  destruct (find_request _ _) eqn:E; [left; clear -E H; inversion H; subst; by rewrite -E|right].
  ok_step H. apply Prune_ok in G3 as (_ & _ & ->). by simplify_eq.
Qed.

Lemma merge_sort_unique l l' : NoDup (idem_RequestID <$> l) → l ≡ₚ l' → StronglySorted idem_le l' →
  merge_sort idem_le l = l'.
Proof.
  intros Hn Hp Hs.
  apply (StronglySorted_unique_strong idem_le); [|apply sorted_merge|done|by rewrite merge_sort_Permutation].
  intros x y Hx Hy Hxy Hyx. rewrite merge_sort_Permutation in Hx. rewrite -Hp in Hy.
  assert (Hid : idem_RequestID x = idem_RequestID y).
  { apply idem_le_spec in Hxy, Hyx. destruct Hxy as [|[? Hxy]], Hyx as [|[? Hyx]]; [lia..|]. by apply (anti_symm str_le). }
  pose proof (find_request_in l x Hn Hx) as E1. pose proof (find_request_in l y Hn Hy) as E2. congruence.
Qed.

(** With room in the history a result inside the retention window is kept. *)
Lemma pruned_with_room records now r : (length records ≤ IdempotencyMaxRecords)%nat →
  r ∈ records → retained now r = true → r ∈ pruned records now.
Proof.
  intros Hlen Hr Hret. unfold pruned. rewrite lastn_small; [|by apply kept_elem].
  etrans; [apply length_filter|]. by rewrite merge_sort_Permutation.
Qed.

(** A full history drops a result older than everything it holds. *)
Lemma pruned_full_of_newer records now r : length records = IdempotencyMaxRecords → pruned records now = records →
  retained now r = true → NoDup (idem_RequestID <$> records ++ [r]) → (∀ x, x ∈ records → idem_le r x) →
  pruned (records ++ [r]) now = records.
Proof.
  intros Hlen Hfix Hret Hn Hle. unfold pruned.
  assert (merge_sort idem_le (records ++ [r]) = r :: records) as ->.
  { apply merge_sort_unique; [done|by rewrite -Permutation_cons_append|].
    constructor; [rewrite -Hfix; apply pruned_sorted|by apply Forall_forall]. }
  rewrite filter_every.
  - constructor; [done|]. apply Forall_forall. intros x Hx. rewrite -Hfix in Hx. by apply pruned_elem in Hx as [_ ?].
  - unfold lastn. cbn [length]. rewrite Hlen. by replace (S IdempotencyMaxRecords - IdempotencyMaxRecords)%nat with 1%nat by lia.
Qed.

Lemma pruned_idempotent records now : NoDup (idem_RequestID <$> records) → pruned (pruned records now) now = pruned records now.
Proof.
  intros Hn. set (l := pruned records now).
  assert (Hl : filter (λ r, retained now r = true) (merge_sort idem_le l) = l).
  { rewrite (merge_sort_unique l l); [by apply pruned_NoDup|done|apply pruned_sorted|].
    apply filter_every, Forall_forall. intros r Hr. by apply pruned_elem in Hr as [_ ?]. }
  unfold pruned at 1. rewrite Hl. apply lastn_small, pruned_length.
Qed.

Lemma append_prunable history record now : prunable history now → idem_Validate record = Ok () →
  After (idem_RecordedAt record) now = false → find_request (idem_RequestID record) history = None →
  prunable (history ++ [record]) now.
Proof.
  intros [Hv Hn] Hr Ha Hf%find_request_none. split.
  - intros r [Hin|[->|[]%not_elem_of_nil]%elem_of_cons]%elem_of_app; auto.
  - rewrite fmap_app. apply NoDup_app. split_and!; [done| |apply NoDup_singleton].
    intros id Hid [->|[]%not_elem_of_nil]%elem_of_cons. done.
Qed.

Lemma Find_pruned node requestID now :
  matches uuidPattern requestID = true → validateTime "now" now = Ok () → prunable (items (node_IdempotencyRecords node)) now →
  FindIdempotencyResult node requestID now =
    match find_request requestID (pruned (items (node_IdempotencyRecords node)) now) with
    | Some r => Ok r | None => Err (Sentinel ErrIdempotencyRecordEvicted) end.
Proof.
  intros Hid Ht Hp. unfold FindIdempotencyResult. rewrite (proj2 (validateUUID_ok _ _ ()) Hid). cbn [mbind result_bind].
  by rewrite (proj2 (Prune_ok _ now _) (conj Ht (conj Hp eq_refl))).
Qed.

Lemma idem_Validate_id r : idem_Validate r = Ok () → matches uuidPattern (idem_RequestID r) = true.
Proof. unfold idem_Validate. intros H. ok_step H. by apply validateUUID_ok in G. Qed.

(** ** Claims *)

(** [PruneIdempotencyRecords] on a history without duplicates, future or malformed
    records returns a history that [validateIdempotencyHistory] accepts, made of
    unexpired records of the input only, and drops an unexpired record only when the
    result is at the limit of 1024 and everything in it is newer. *)
Theorem prune_keeps_newest_unexpired records now :
  validateTime "now" now = Ok () → prunable records now →
  ∃ l, PruneIdempotencyRecords records now = Ok l ∧ validateIdempotencyHistory (Some l) = Ok () ∧
    (∀ r, r ∈ l → r ∈ records ∧ retained now r = true) ∧
    (∀ r, r ∈ records → retained now r = true → (r ∉ l) →
       length l = IdempotencyMaxRecords ∧ ∀ x, x ∈ l → idem_le r x).
Proof.
  intros Ht Hp. exists (pruned records now). split_and!.
  - by apply Prune_ok.
  - by apply pruned_history.
  - intros r. apply pruned_elem.
  - intros r Hr Hret Hout. split; [by eapply pruned_full|]. intros x. by apply pruned_newest.
Qed.

(** A successful [StoreIdempotencyResult] changes only the node's history, leaves
    it canonical, and answers either with a result the history already held for the
    same request (a replay) or, when it held none, with the supplied result. *)
Theorem store_replays_or_records node record now node' answer replayed :
  StoreIdempotencyResult node record now = Ok (node', answer, replayed) →
  node' = set_node_IdempotencyRecords (node_IdempotencyRecords node') node ∧
  validateIdempotencyHistory (node_IdempotencyRecords node') = Ok () ∧
  idem_RequestID answer = idem_RequestID record ∧
  (if replayed then answer ∈ items (node_IdempotencyRecords node)
   else answer = record ∧
     ∀ r, r ∈ pruned (items (node_IdempotencyRecords node)) now → idem_RequestID r ≠ idem_RequestID record).
Proof.
  intros (Ht & Hr & Ha & Hret & Hp & [(-> & Hf & ->)|(-> & Hf & -> & ->)])%Store_ok; cbn; (split; [done|]).
  - split; [by apply pruned_history|]. apply find_request_some in Hf as [Hf Hid]. split; [done|].
    by apply pruned_elem in Hf as [? _].
  - split; [apply pruned_history, append_prunable; [by apply pruned_prunable|done..]|]. split_and!; [done..|].
    intros r Hin Hid. apply find_request_none in Hf. apply Hf. rewrite -Hid. by apply list_elem_of_fmap_2.
Qed.

(** A request whose first result was recorded with room in the history is never
    executed twice inside the retention window: any later [StoreIdempotencyResult]
    for the same request identifier answers with the first result, as a replay. *)
Theorem stored_result_is_replayed node first now node' retry later :
  StoreIdempotencyResult node first now = Ok (node', first, false) →
  (length (pruned (items (node_IdempotencyRecords node)) now) < IdempotencyMaxRecords)%nat →
  (instant now ≤ instant later)%Z → validateTime "now" later = Ok () → retained later first = true →
  idem_Validate retry = Ok () → idem_RequestID retry = idem_RequestID first →
  After (idem_RecordedAt retry) later = false → retained later retry = true →
  ∃ node'', StoreIdempotencyResult node' retry later = Ok (node'', first, true).
Proof.
  intros Hs Hroom Hle Hl Hrf Hv Hid Ha Hrr.
  apply Store_ok in Hs as (Ht & Hr & Ha' & Hret & Hp & [(? & _)|(_ & Hf & _ & ->)]); [done|].
  set (before := pruned _ now) in *.
  assert (Hp' : prunable (before ++ [first]) now) by (apply append_prunable; [by apply pruned_prunable|done..]).
  assert (Hin : first ∈ pruned (pruned (before ++ [first]) now) later).
  { apply pruned_with_room; [apply pruned_length| |done].
    apply pruned_with_room; [rewrite length_app /=; lia|set_solver|done]. }
  assert (Hpl := pruned_prunable _ now later Hp' Hle).
  eexists. unfold StoreIdempotencyResult. unfold retained in Hrr. apply negb_true_iff in Hrr.
  rewrite Hv Hl Ha Hrr. cbn [reject mbind result_bind node_IdempotencyRecords set_node_IdempotencyRecords items default].
  rewrite (proj2 (Prune_ok _ later _) (conj Hl (conj Hpl eq_refl))). cbn [wrap mbind result_bind].
  rewrite Hid find_request_in //. apply pruned_NoDup, Hpl.
Qed.

(** What a fresh store makes findable: with room in the history
    [FindIdempotencyResult] returns the stored result; in a full history of newer
    results the store reports success and the history is left without it, so the
    lookup reports eviction. *)
Theorem store_then_find node record now node' answer :
  StoreIdempotencyResult node record now = Ok (node', answer, false) →
  let before := pruned (items (node_IdempotencyRecords node)) now in
  ((length before < IdempotencyMaxRecords)%nat →
     FindIdempotencyResult node' (idem_RequestID record) now = Ok record) ∧
  (length before = IdempotencyMaxRecords → (∀ x, x ∈ before → idem_le record x) →
     node_IdempotencyRecords node' = Some before ∧
     FindIdempotencyResult node' (idem_RequestID record) now = Err (Sentinel ErrIdempotencyRecordEvicted)).
Proof.
  intros Hs before. apply Store_ok in Hs as (Ht & Hr & Ha & Hret & Hp & [(? & _)|(_ & Hf & _ & ->)]); [done|].
  fold before in Hf |- *.
  assert (Hp' : prunable (before ++ [record]) now) by (apply append_prunable; [by apply pruned_prunable|done..]).
  assert (Hfind := Find_pruned (set_node_IdempotencyRecords (Some (pruned (before ++ [record]) now)) node)
    (idem_RequestID record) now (idem_Validate_id _ Hr) Ht (pruned_prunable _ _ now Hp' ltac:(lia))).
  cbn [node_IdempotencyRecords set_node_IdempotencyRecords items default from_option id] in Hfind |- *.
  rewrite Hfind pruned_idempotent; [apply Hp'|]. split.
  - intros Hroom. rewrite find_request_in //; [apply pruned_NoDup, Hp'|].
    apply pruned_with_room; [rewrite length_app /=; lia|set_solver|done].
  - intros Hfull Hnew. rewrite pruned_full_of_newer //; [by apply pruned_idempotent, Hp|apply Hp'|]. by rewrite Hf.
Qed.

(** ** Witnesses *)

Definition day (n : Z) : time := Time ((738000 + n) * 24 * hour) UTC.
Definition sample_result (id : string) (recorded : time) : IdempotencyRecord :=
  MkIdempotencyRecord id OperationExposeCreate ResultOK
    "0123456789abcdef0123456789abcdef0123456789abcdef0123456789abcdef" 7 recorded.
Definition request_a : string := "00000000-0000-4000-8000-00000000000a".
Definition request_b : string := "00000000-0000-4000-8000-00000000000b".
Definition sample_history : list IdempotencyRecord := [sample_result request_a (day 0)].
Definition sample_node : Node :=
  MkNode 1 "11111111-1111-4111-8111-111111111111" "edge" LifecycleActive "10.0.0.2" 1 "1.0" (Some [])
    TransportStandard (Some sample_history) None (day 0) None.
Definition sample_stored (now : time) (r : IdempotencyRecord) : Node :=
  match StoreIdempotencyResult sample_node r now with Ok (n, _, _) => n | Err _ => sample_node end.

Lemma sample_prunable : prunable sample_history (day 3).
Proof.
  split.
  - intros r [->|[]%not_elem_of_nil]%elem_of_cons. split; by vm_compute.
  - apply (bool_decide_eq_true_1 (NoDup _)). by vm_compute.
Qed.

Lemma prune_keeps_newest_unexpired_witness :
  ∃ l, PruneIdempotencyRecords sample_history (day 3) = Ok l ∧ validateIdempotencyHistory (Some l) = Ok ().
Proof.
  destruct (prune_keeps_newest_unexpired sample_history (day 3) ltac:(by vm_compute) sample_prunable) as (l & H1 & H2 & _).
  by exists l.
Defined.

Lemma store_replays_or_records_witness :
  idem_RequestID (sample_result request_a (day 0)) = request_a ∧ sample_result request_a (day 0) ∈ sample_history.
Proof.
  destruct (store_replays_or_records sample_node (sample_result request_a (day 2)) (day 3)
    (sample_stored (day 3) (sample_result request_a (day 2))) (sample_result request_a (day 0)) true
    ltac:(by vm_compute)) as (_ & _ & H1 & H2).
  split; [exact H1|exact H2].
Defined.

Lemma stored_result_is_replayed_witness :
  ∃ node'', StoreIdempotencyResult (sample_stored (day 3) (sample_result request_b (day 2)))
    (sample_result request_b (day 20)) (day 21) = Ok (node'', sample_result request_b (day 2), true).
Proof.
  apply (stored_result_is_replayed sample_node (sample_result request_b (day 2)) (day 3)
    (sample_stored (day 3) (sample_result request_b (day 2)))); try by vm_compute.
  - apply Nat.ltb_lt. by vm_compute.
Defined.

Lemma store_then_find_witness :
  FindIdempotencyResult (sample_stored (day 3) (sample_result request_b (day 2))) request_b (day 3)
  = Ok (sample_result request_b (day 2)).
Proof.
  apply (store_then_find sample_node (sample_result request_b (day 2)) (day 3)
    (sample_stored (day 3) (sample_result request_b (day 2))) (sample_result request_b (day 2)) ltac:(by vm_compute)).
  apply Nat.ltb_lt. by vm_compute.
Defined.
