(* ===== verification/Resources.v ===== *)
(** * Resource validators ([internal/model/validate.go], the [Validate] methods)

    One definition per resource, with the guards in the order of the source.  The
    checks across resources are in [StateValidate]. *)

From S2P Require Import Prelude GoTime GoText GoNet Types Checks Identity Address Expose Idempotency.

Local Open Scope string_scope.
Local Open Scope list_scope.

(** Boolean tests, those on strings included, as propositions. *)
Ltac facts :=
  units; bool_facts;
  repeat match goal with
  | H : String.eqb _ _ = true |- _ => apply String.eqb_eq in H
  | H : String.eqb _ _ = false |- _ => apply String.eqb_neq in H
  | H : (_ <? _)%nat = false |- _ => apply Nat.ltb_ge in H
  | H : (_ =? _)%nat = true |- _ => apply Nat.eqb_eq in H
  | H : (_ =? _)%nat = false |- _ => apply Nat.eqb_neq in H
  end.

(** [filepath.IsAbs] on Unix *)
Definition IsAbs (path : string) : bool := HasPrefix path "/".

(** ** Networks and handshake hosts *)

Definition dns_Validate (dns : DNSUpstreamState) : result unit :=
  validateSchema (dns_SchemaVersion dns) ResourceSchemaVersion;;
  reject (match dns_Scope dns with DNSUpstreamUnsupported _ => true | _ => false end) (Invalid "scope");;
  reject (is_nil (dns_IPv4 dns) || (length (items (dns_IPv4 dns)) =? 0)%nat
          || (MaximumDNSUpstreams <? length (items (dns_IPv4 dns)))%nat) (Invalid "ipv4");;
  _ ← range (λ index value seen,
    reject (match ParseAddr value with
            | Some (V4 n) => negb (is_global_unicast4 n) || is_loopback4 n || negb (String.eqb (print_ipv4 n) value)
            | _ => true
            end) (Invalid (indexPath "ipv4" index));;
    check_unique value (Invalid (indexPath "ipv4" index)) seen) (items (dns_IPv4 dns)) ∅;
  Ok ().

Definition hh_Validate (host : HandshakeHost) : result unit :=
  validateSchema (hh_SchemaVersion host) ResourceSchemaVersion;;
  reject (hh_ListVersion host <? 1)%Z (Invalid "list_version");;
  reject (negb (matches candidateIDPattern (hh_CandidateID host))) (Invalid "candidate_id");;
  validateDomain "hostname" (hh_Hostname host);;
  validateTime "selected_at" (hh_SelectedAt host).

Definition hc_Validate (change : HandshakeHostChange) : result unit :=
  validateSchema (hc_SchemaVersion change) ResourceSchemaVersion;;
  validateUUID "operation_id" (hc_OperationID change);;
  reject (match hc_State change with HandshakeHostChangeUnsupported _ => true | _ => false end) (Invalid "state");;
  wrap "previous" (hh_Validate (hc_Previous change));;
  wrap "candidate" (hh_Validate (hc_Candidate change));;
  reject (bool_decide (hc_Previous change = hc_Candidate change)
          || String.eqb (hh_Hostname (hc_Previous change)) (hh_Hostname (hc_Candidate change))) (Invalid "candidate");;
  reject (negb (hh_ListVersion (hc_Previous change) =? hh_ListVersion (hc_Candidate change))%Z) (Invalid "candidate.list_version");;
  validateUUIDSnapshot "affected_node_ids" (hc_AffectedNodeIDs change);;
  validateUUIDSnapshot "affected_client_ids" (hc_AffectedClientIDs change);;
  validateTime "prepared_at" (hc_PreparedAt change);;
  reject (negb (bool_decide (hh_SelectedAt (hc_Candidate change) = hc_PreparedAt change))) (Invalid "candidate.selected_at");;
  match hc_State change with
  | HandshakeHostPrepared =>
      reject (bool_decide (hc_CommittedAt change ≠ None) || bool_decide (hc_RollbackExpiresAt change ≠ None)) (Invalid "committed_at")
  | HandshakeHostCommitted =>
      match hc_CommittedAt change, hc_RollbackExpiresAt change with
      | Some committed, Some expires =>
          validateTime "committed_at" committed;;
          validateTime "rollback_expires_at" expires;;
          reject (Before committed (hc_PreparedAt change) || negb (After expires committed)) (Invalid "rollback_expires_at")
      | _, _ => Err (Invalid "committed_at")
      end
  | HandshakeHostChangeUnsupported _ => Ok ()
  end.

Definition host_Validate (host : HostRecord) : result unit :=
  validateSchema (host_SchemaVersion host) ResourceSchemaVersion;;
  validateUUID "id" (host_ID host);;
  reject (match host_Role host with RoleUnsupported _ => true | _ => false end) (Invalid "role");;
  reject (negb (String.eqb (host_OS host) "ubuntu") || negb (String.eqb (host_OSVersion host) "24.04")
          || negb (String.eqb (host_Architecture host) "amd64")) (Invalid "platform");;
  validateTime "initialized_at" (host_InitializedAt host);;
  reject (match host_ManagedSwap host with
          | Some swap => negb (IsAbs (swap_Path swap)) || (swap_SizeBytes swap <=? 0)%Z
          | None => false
          end) (Invalid "managed_swap");;
  if bool_decide (host_Role host = RoleGateway) then
    validateIPv4 "public_ipv4" (host_PublicIPv4 host);;
    reject (is_blank (host_ExternalInterface host)
            || ContainsAny (host_ExternalInterface host) (" /" +:+ bytes [9%N] +:+ crlf)) (Invalid "external_interface");;
    reject ((host_SSHPort host <? 1) || (65535 <? host_SSHPort host))%Z (Invalid "ssh_port");;
    clientPool ← newIPv4Pool "client_cidr" (host_ClientCIDR host);
    nodePool ← newIPv4Pool "node_cidr" (host_NodeCIDR host);
    reject (Overlaps (pool_prefix clientPool) (pool_prefix nodePool)) (Invalid "client_cidr")
  else
    reject (negb (String.eqb (host_PublicIPv4 host) "") || negb (String.eqb (host_ExternalInterface host) "")
            || negb (host_SSHPort host =? 0)%Z || negb (String.eqb (host_ClientCIDR host) "")
            || negb (String.eqb (host_NodeCIDR host) "")) (Invalid "role").

(** ** Nodes and clients *)

Definition validateResource (schema : Z) (id name : string) (lifecycle : Lifecycle) (overlayIPv4 : string)
    (credentialGeneration : N) (activeTransport : TransportKind) (createdAt : time) (revokedAt : option time) : result unit :=
  validateSchema schema ResourceSchemaVersion;;
  validateUUID "id" id;;
  validateName "name" name;;
  reject (match lifecycle with LifecycleUnsupported _ => true | _ => false end) (Invalid "lifecycle");;
  validateIPv4 "overlay_ipv4" overlayIPv4;;
  reject (credentialGeneration =? 0)%N (Invalid "credential_generation");;
  reject (match activeTransport with TransportKindUnsupported _ => true | _ => false end) (Invalid "active_transport");;
  validateTime "created_at" createdAt;;
  if bool_decide (lifecycle = LifecycleActive) then
    reject (bool_decide (revokedAt ≠ None)) (Invalid "revoked_at")
  else match revokedAt with
  | None => Err (Invalid "revoked_at")
  | Some revoked =>
      validateTime "revoked_at" revoked;;
      reject (Before revoked createdAt) (Invalid "revoked_at")
  end.

(** [netip.Addr.Next] as text: the address after the last one is invalid. *)
Definition next_ipv4 (n : N) : string := if (n =? 4294967295)%N then "invalid IP" else print_ipv4 (n + 1).

Definition gw_Validate (trust : GatewayTrust) : result unit :=
  validateUUID "gateway_id" (gw_GatewayID trust);;
  validateIPv4 "public_ipv4" (gw_PublicIPv4 trust);;
  prefix ← validateIPv4Prefix "node_cidr" (gw_NodeCIDR trust);
  validateIPv4 "gateway_overlay_ipv4" (gw_GatewayOverlayIPv4 trust);;
  reject (match canonical_ipv4 (gw_GatewayOverlayIPv4 trust) with
          | Some n => negb (prefix_contains prefix (V4 n))
          | None => true
          end || negb (String.eqb (next_ipv4 (addr_value (prefix_addr prefix))) (gw_GatewayOverlayIPv4 trust)))
    (Invalid "gateway_overlay_ipv4");;
  reject (negb (matches protocolPattern (gw_ControlProtocol trust))) (Invalid "control_protocol");;
  validateFingerprint "enrollment_fingerprint" (gw_EnrollmentFingerprint trust);;
  validateOpaqueRef "enrollment_public_key_ref" (gw_EnrollmentPublicKeyRef trust);;
  let fingerprints := items (gw_ControlCAFingerprints trust) in
  let refs := items (gw_ControlCACertificateRefs trust) in
  reject ((length fingerprints =? 0)%nat || (2 <? length fingerprints)%nat) (Invalid "control_ca_fingerprints");;
  reject (negb (length refs =? length fingerprints)%nat) (Invalid "control_ca_certificate_refs");;
  _ ← range (λ index fingerprint '(seen, seenRefs),
    validateFingerprint (indexPath "control_ca_fingerprints" index) fingerprint;;
    seen ← check_unique fingerprint (Invalid (indexPath "control_ca_fingerprints" index)) seen;
    let certificateRef := default "" (refs !! index) in
    validateOpaqueRef (indexPath "control_ca_certificate_refs" index) certificateRef;;
    seenRefs ← check_unique certificateRef (Invalid (indexPath "control_ca_certificate_refs" index)) seenRefs;
    Ok (seen, seenRefs)) fingerprints (∅, ∅);
  validateFingerprint "tunnel_certificate_fingerprint" (gw_TunnelCertificateFingerprint trust);;
  validateOpaqueRef "tunnel_certificate_ref" (gw_TunnelCertificateRef trust);;
  reject (negb (canonical_base64 32 (gw_StandardPublicKey trust))) (Invalid "standard_public_key");;
  validateOpaqueRef "restricted_server_credential_ref" (gw_RestrictedServerCredentialRef trust);;
  reject (gw_LastKnownGatewayGeneration trust =? 0)%N (Invalid "last_known_gateway_generation");;
  if String.eqb (gw_PendingRequestID trust) "" then Ok ()
  else validateUUID "pending_request_id" (gw_PendingRequestID trust).

Definition node_Validate (node : Node) : result unit :=
  validateResource (node_SchemaVersion node) (node_ID node) (node_Name node) (node_Lifecycle node) (node_OverlayIPv4 node)
    (node_CredentialGeneration node) (node_ActiveTransport node) (node_CreatedAt node) (node_RevokedAt node);;
  validateUniqueNames "assigned_presets" (items (node_AssignedPresets node));;
  reject (is_nil (node_AssignedPresets node)) (Invalid "assigned_presets");;
  reject (negb (String.eqb (node_ControlProtocol node) "") && negb (matches protocolPattern (node_ControlProtocol node)))
    (Invalid "control_protocol");;
  wrap "idempotency_records" (validateIdempotencyHistory (node_IdempotencyRecords node));;
  match node_Gateway node with
  | Some trust => wrap "gateway" (gw_Validate trust)
  | None => Ok ()
  end.

Definition client_Validate (client : Client) : result unit :=
  validateResource (client_SchemaVersion client) (client_ID client) (client_Name client) (client_Lifecycle client)
    (client_OverlayIPv4 client) (client_CredentialGeneration client) (client_ActiveTransport client)
    (client_CreatedAt client) (client_RevokedAt client);;
  reject (is_blank (client_Platform client) || (63 <? String.length (client_Platform client))%nat) (Invalid "platform");;
  reject (is_nil (client_AssignedPresets client)) (Invalid "assigned_presets");;
  validateUniqueNames "assigned_presets" (items (client_AssignedPresets client)).

(** ** Routing *)

Definition selector_key (selector : Selector) : string :=
  SelectorKind_string (sel_Kind selector) +:+ ":" +:+ sel_Value selector +:+ (if sel_Exclude selector then ":true" else ":false").

Definition validateSelectors (selectors : list Selector) : result unit :=
  _ ← range (λ index selector seen,
    let path := indexPath "selectors" index in
    match sel_Kind selector with
    | SelectorDomain | SelectorDomainSuffix => validateDomain (path +:+ ".value") (sel_Value selector)
    | SelectorIPCIDR =>
        match ParsePrefix (sel_Value selector) with
        | Some prefix => reject (negb (String.eqb (prefix_string prefix) (sel_Value selector))
                                 || negb (bool_decide (Masked prefix = prefix))) (Invalid (path +:+ ".value"))
        | None => Err (Invalid (path +:+ ".value"))
        end
    | SelectorUnsupported _ => Err (Invalid (path +:+ ".kind"))
    end;;
    check_unique (selector_key selector) (Invalid path) seen) selectors ∅;
  Ok ().

Definition selector_Validate (selector : Selector) : result unit := validateSelectors [selector].

Definition preset_Validate (preset : Preset) : result unit :=
  validateSchema (preset_SchemaVersion preset) ResourceSchemaVersion;;
  validateName "name" (preset_Name preset);;
  validateHash "source_hash" (preset_SourceHash preset);;
  validateHash "effective_hash" (preset_EffectiveHash preset);;
  reject (preset_Generation preset =? 0)%N (Invalid "generation");;
  validateTime "applied_at" (preset_AppliedAt preset);;
  reject (length (items (preset_Selectors preset)) =? 0)%nat (Invalid "selectors");;
  validateSelectors (items (preset_Selectors preset)).

Definition policy_Validate (policy : Policy) : result unit :=
  validateSchema (policy_SchemaVersion policy) ResourceSchemaVersion;;
  reject (match policy_TargetKind policy with TargetUnsupported _ => true | _ => false end) (Invalid "target_kind");;
  validateUUID "target_id" (policy_TargetID policy);;
  reject (is_nil (policy_PresetNames policy) || is_nil (policy_Selectors policy)) (Invalid "policy");;
  validateUniqueNames "preset_names" (items (policy_PresetNames policy));;
  validateSelectors (items (policy_Selectors policy));;
  validateHash "effective_hash" (policy_EffectiveHash policy);;
  reject (policy_Generation policy =? 0)%N (Invalid "generation");;
  reject ((length (items (policy_PresetNames policy)) =? 0)%nat && negb (length (items (policy_Selectors policy)) =? 0)%nat)
    (Invalid "selectors").

(** ** Transports and exposes *)

Definition transport_Validate (transport : Transport) : result unit :=
  validateSchema (tr_SchemaVersion transport) ResourceSchemaVersion;;
  reject (match tr_OwnerKind transport with TargetUnsupported _ => true | _ => false end) (Invalid "owner_kind");;
  validateUUID "owner_id" (tr_OwnerID transport);;
  reject (match tr_Kind transport with TransportKindUnsupported _ => true | _ => false end) (Invalid "kind");;
  reject (match tr_State transport with TransportStateUnsupported _ => true | _ => false end) (Invalid "state");;
  reject (tr_CredentialGeneration transport =? 0)%N (Invalid "credential_generation");;
  validateOpaqueRef "credential_ref" (tr_CredentialRef transport);;
  validateHash "config_hash" (tr_ConfigHash transport);;
  match tr_Kind transport with
  | TransportStandard =>
      reject (negb (String.eqb (tr_Provider transport) "wireguard") || negb (bool_decide (tr_Protocol transport = ProtocolUDP))
              || negb (tr_Port transport =? 51820)%Z || negb (String.eqb (tr_HandshakeHost transport) "")
              || is_blank (tr_PublicKey transport)) (Invalid "kind")
  | TransportRestricted =>
      reject (negb (String.eqb (tr_Provider transport) "mihomo") || negb (bool_decide (tr_Protocol transport = ProtocolTCP))
              || negb (tr_Port transport =? 8443)%Z) (Invalid "kind");;
      validateDomain "handshake_host" (tr_HandshakeHost transport);;
      reject (negb (String.eqb (tr_PublicKey transport) "")) (Invalid "public_key")
  | TransportKindUnsupported _ => Ok ()
  end.

Definition expose_Validate (expose : Expose) : result unit :=
  validateSchema (expose_SchemaVersion expose) ResourceSchemaVersion;;
  validateUUID "id" (expose_ID expose);;
  validateUUID "node_id" (expose_NodeID expose);;
  (if String.eqb (expose_Name expose) "" then Ok () else validateName "name" (expose_Name expose));;
  validateUpstream "upstream" (expose_Upstream expose);;
  ValidateExposePath (expose_Path expose) (expose_RouteMode expose);;
  reject ((expose_BodyLimitBytes expose <? 1) || (MaximumExposeBodyLimitBytes <? expose_BodyLimitBytes expose))%Z
    (Invalid "body_limit_bytes");;
  reject ((expose_UpstreamTimeoutSeconds expose <? 1)
          || (MaximumExposeUpstreamTimeoutSeconds <? expose_UpstreamTimeoutSeconds expose))%Z
    (Invalid "upstream_timeout_seconds");;
  reject ((expose_ConcurrentRequests expose <? 1) || (MaximumExposeConcurrentRequests <? expose_ConcurrentRequests expose))%Z
    (Invalid "concurrent_requests");;
  reject ((expose_TunnelPort expose <? 1024) || (65535 <? expose_TunnelPort expose))%Z (Invalid "tunnel_port");;
  reject (match expose_State expose with ExposeStateUnsupported _ => true | _ => false end) (Invalid "state");;
  reject (expose_Generation expose =? 0)%N (Invalid "generation");;
  validateTime "created_at" (expose_CreatedAt expose).

(** ** Trust *)

Definition cert_Validate (certificate : Certificate) : result unit :=
  validateSchema (cert_SchemaVersion certificate) ResourceSchemaVersion;;
  validateUUID "id" (cert_ID certificate);;
  reject (match cert_Kind certificate with CertificateUnsupported _ => true | _ => false end) (Invalid "kind");;
  reject (negb (String.eqb (cert_OwnerKind certificate) "host") && negb (String.eqb (cert_OwnerKind certificate) "node"))
    (Invalid "owner_kind");;
  validateUUID "owner_id" (cert_OwnerID certificate);;
  validateFingerprint "fingerprint" (cert_Fingerprint certificate);;
  reject (negb (matches serialPattern (cert_SerialHex certificate))) (Invalid "serial_hex");;
  reject (is_blank (cert_Subject certificate) || ContainsAny (cert_Subject certificate) crlf) (Invalid "subject");;
  reject (is_nil (cert_SANs certificate)) (Invalid "sans");;
  reject (negb (bool_decide (cert_Kind certificate = CertificateControlCA)) && (length (items (cert_SANs certificate)) =? 0)%nat)
    (Invalid "sans");;
  validateUniqueStrings "sans" (items (cert_SANs certificate));;
  validateTime "not_before" (cert_NotBefore certificate);;
  validateTime "not_after" (cert_NotAfter certificate);;
  reject (negb (After (cert_NotAfter certificate) (cert_NotBefore certificate))) (Invalid "not_after");;
  reject ((cert_WarningDays certificate <? 1) || (365 <? cert_WarningDays certificate))%Z (Invalid "warning_days");;
  reject (cert_Generation certificate =? 0)%N (Invalid "generation");;
  reject (negb (cert_CredentialGeneration certificate =? 0)%N && negb (bool_decide (cert_Kind certificate = CertificateControlNode)))
    (Invalid "credential_generation");;
  validateOpaqueRef "certificate_ref" (cert_CertificateRef certificate);;
  (if String.eqb (cert_PrivateKeyRef certificate) "" then Ok ()
   else validateOpaqueRef "private_key_ref" (cert_PrivateKeyRef certificate));;
  reject (bool_decide (cert_Kind certificate = CertificateControlNode) && negb (String.eqb (cert_OwnerKind certificate) "node"))
    (Invalid "owner_kind");;
  reject (negb (bool_decide (cert_Kind certificate = CertificateControlNode)) && negb (String.eqb (cert_OwnerKind certificate) "host"))
    (Invalid "owner_kind").

Definition ident_Validate (identity : EnrollmentIdentity) : result unit :=
  validateSchema (ident_SchemaVersion identity) ResourceSchemaVersion;;
  reject (negb (String.eqb (ident_Algorithm identity) "Ed25519")) (Invalid "algorithm");;
  validateFingerprint "fingerprint" (ident_Fingerprint identity);;
  validateOpaqueRef "public_key_ref" (ident_PublicKeyRef identity);;
  validateOpaqueRef "private_key_ref" (ident_PrivateKeyRef identity);;
  reject (String.eqb (ident_PublicKeyRef identity) (ident_PrivateKeyRef identity)) (Invalid "public_key_ref");;
  reject (ident_Generation identity =? 0)%N (Invalid "generation");;
  validateTime "created_at" (ident_CreatedAt identity).

(** ** Invites *)

Definition validateInviteEndpoint (value purpose : string) : result unit :=
  let wantedPath := if String.eqb purpose "recover" then ReservedRecoveryPath else ReservedEnrollmentPath in
  match url_parse value with
  | None => Err (Invalid "gateway_endpoint")
  | Some endpoint =>
      reject (negb (String.eqb (Scheme endpoint) "https") || has_user endpoint || negb (String.eqb (RawQuery endpoint) "")
              || negb (String.eqb (Fragment endpoint) "") || negb (String.eqb (Port endpoint) "")
              || negb (String.eqb (Path endpoint) wantedPath)) (Invalid "gateway_endpoint");;
      reject (match canonical_ipv4 (Hostname endpoint) with Some _ => false | None => true end) (Invalid "gateway_endpoint")
  end.

Definition validateInviteTerminalTime (path : string) (value issuedAt : time) : result unit :=
  validateTime path value;;
  reject (Before value issuedAt) (Invalid path).

(** The binding of the invite to its purpose. *)
Definition invite_purpose (invite : Invite) : string :=
  if String.eqb (inv_Purpose invite) "" then "enroll" else inv_Purpose invite.

Definition invite_binding (invite : Invite) : result unit :=
  let purpose := invite_purpose invite in
  if String.eqb purpose "enroll" then
    reject (negb (matches inviteIDPattern (inv_ID invite))) (Invalid "id");;
    reject (negb (String.eqb (inv_NodeID invite) "") || negb (inv_CredentialGeneration invite =? 0)%N
            || negb (String.eqb (inv_BindingFingerprint invite) "")) (Invalid "purpose")
  else if String.eqb purpose "recover" then
    reject (negb (matches recoveryIDPattern (inv_ID invite))) (Invalid "id");;
    validateUUID "node_id" (inv_NodeID invite);;
    reject (inv_CredentialGeneration invite =? 0)%N (Invalid "credential_generation");;
    validateFingerprint "binding_fingerprint" (inv_BindingFingerprint invite)
  else Err (Invalid "purpose").

Definition invite_terminal (invite : Invite) : result unit :=
  match inv_State invite with
  | InviteActive =>
      reject (bool_decide (inv_CancelledAt invite ≠ None) || bool_decide (inv_ConsumedAt invite ≠ None)
              || negb (String.eqb (inv_ConsumptionHash invite) "")) (Invalid "state")
  | InviteCancelled =>
      match inv_CancelledAt invite with
      | None => Err (Invalid "state")
      | Some cancelled =>
          reject (bool_decide (inv_ConsumedAt invite ≠ None) || negb (String.eqb (inv_ConsumptionHash invite) "")) (Invalid "state");;
          validateInviteTerminalTime "cancelled_at" cancelled (inv_IssuedAt invite)
      end
  | InviteConsumed =>
      match inv_ConsumedAt invite with
      | None => Err (Invalid "state")
      | Some consumed =>
          reject (bool_decide (inv_CancelledAt invite ≠ None) || String.eqb (inv_ConsumptionHash invite) "") (Invalid "state");;
          validateHash "consumption_hash" (inv_ConsumptionHash invite);;
          validateInviteTerminalTime "consumed_at" consumed (inv_IssuedAt invite);;
          reject (negb (Before consumed (inv_ExpiresAt invite))) (Invalid "consumed_at")
      end
  | InviteStateUnsupported _ => Err (Invalid "state")
  end.

Definition invite_Validate (invite : Invite) : result unit :=
  validateSchema (inv_SchemaVersion invite) ResourceSchemaVersion;;
  invite_binding invite;;
  validateName "node_name" (inv_NodeName invite);;
  reject (negb (matches protocolPattern (inv_ControlProtocol invite))) (Invalid "control_protocol");;
  validateInviteEndpoint (inv_GatewayEndpoint invite) (invite_purpose invite);;
  validateFingerprint "enrollment_fingerprint" (inv_EnrollmentFingerprint invite);;
  validateHash "secret_hash" (inv_SecretHash invite);;
  validateTime "issued_at" (inv_IssuedAt invite);;
  validateTime "expires_at" (inv_ExpiresAt invite);;
  reject (negb (Equal (inv_ExpiresAt invite) (Add (inv_IssuedAt invite) InviteTTL))) (Invalid "expires_at");;
  invite_terminal invite.

(** ** Operations *)

Definition step_Validate (step : OperationStep) : result unit :=
  reject (negb (matches componentPattern (step_Name step))) (Invalid "name");;
  reject (negb (validOperationState (step_State step))) (Invalid "state");;
  validateTime "updated_at" (step_UpdatedAt step).

Definition op_Validate (operation : Operation) : result unit :=
  validateSchema (op_SchemaVersion operation) ResourceSchemaVersion;;
  validateUUID "id" (op_ID operation);;
  reject (negb (validOperationType (op_Type operation))) (Invalid "type");;
  reject (negb (validOperationState (op_State operation))) (Invalid "state");;
  reject (negb (Bool.eqb (String.eqb (op_TargetKind operation) "") (String.eqb (op_TargetID operation) ""))) (Invalid "target");;
  (if String.eqb (op_TargetID operation) "" then Ok () else
     reject (negb (validOperationTarget (op_TargetKind operation))) (Invalid "target_kind");;
     reject (is_blank (op_TargetID operation) || (128 <? String.length (op_TargetID operation))%nat
             || ContainsAny (op_TargetID operation) crlf) (Invalid "target_id"));;
  (if String.eqb (op_RequestID operation) "" then Ok () else validateUUID "request_id" (op_RequestID operation));;
  reject (op_DesiredGeneration operation <? op_ExpectedGeneration operation)%N (Invalid "desired_generation");;
  validateTime "created_at" (op_CreatedAt operation);;
  validateTime "updated_at" (op_UpdatedAt operation);;
  reject (Before (op_UpdatedAt operation) (op_CreatedAt operation)) (Invalid "updated_at");;
  reject (if bool_decide (op_State operation = OperationFailed) then negb (matches errorCodePattern (op_ErrorCode operation))
          else negb (String.eqb (op_ErrorCode operation) "")) (Invalid "error_code");;
  reject (is_nil (op_Steps operation)) (Invalid "steps");;
  _ ← range (λ index step stepNames,
    wrap (indexPath "steps" index) (step_Validate step);;
    check_unique (step_Name step) (Invalid (indexPath "steps" index +:+ ".name")) stepNames) (items (op_Steps operation)) ∅;
  Ok ().

(** ** Logging, backups and components *)

Definition log_Validate (session : LoggingSession) : result unit :=
  validateSchema (log_SchemaVersion session) ResourceSchemaVersion;;
  validateUUID "id" (log_ID session);;
  reject (match log_Scope session with LogScopeUnsupported _ => true | _ => false end) (Invalid "scope");;
  reject (match log_Level session with LogLevelUnsupported _ => true | _ => false end) (Invalid "level");;
  reject (match log_Destination session with LogDestinationUnsupported _ => true | _ => false end) (Invalid "destination");;
  reject (if bool_decide (log_Destination session = LogToFile) then negb (IsAbs (log_FilePath session))
          else negb (String.eqb (log_FilePath session) "")) (Invalid "file_path");;
  reject (match log_State session with LogStateUnsupported _ => true | _ => false end) (Invalid "state");;
  validateTime "started_at" (log_StartedAt session);;
  validateTime "expires_at" (log_ExpiresAt session);;
  let duration := Sub (log_ExpiresAt session) (log_StartedAt session) in
  reject ((duration <=? 0) || (hour <? duration))%Z (Invalid "expires_at").

Definition backup_Validate (backup : Backup) : result unit :=
  validateSchema (backup_SchemaVersion backup) ResourceSchemaVersion;;
  validateUUID "id" (backup_ID backup);;
  reject (negb (bool_decide (backup_State backup = BackupComplete))) (Invalid "state");;
  reject (negb (String.eqb (backup_Format backup) "vpnctl-backup-v1")) (Invalid "format");;
  reject (negb (IsAbs (backup_Path backup))) (Invalid "path");;
  validateHash "sha256" (backup_SHA256 backup);;
  reject ((backup_SizeBytes backup <=? 0)%Z || (backup_StateGeneration backup =? 0)%N) (Invalid "size_bytes");;
  validateIPv4 "public_ipv4" (backup_PublicIPv4 backup);;
  validateTime "created_at" (backup_CreatedAt backup).

Definition pin_Validate (component : ComponentPin) : result unit :=
  reject (negb (matches componentPattern (pin_Name component))) (Invalid "name");;
  reject (is_blank (pin_Version component) || ContainsAny (pin_Version component) crlf) (Invalid "version");;
  reject (is_blank (pin_Source component) || ContainsAny (pin_Source component) crlf) (Invalid "source");;
  (if pin_Bundled component then validateHash "sha256" (pin_SHA256 component)
   else if String.eqb (pin_SHA256 component) "" then Ok () else validateHash "sha256" (pin_SHA256 component));;
  reject (length (items (pin_Capabilities component)) =? 0)%nat (Invalid "capabilities");;
  range_check (λ index capability,
    reject (negb (matches componentPattern capability)) (Invalid (indexPath "capabilities" index))) (items (pin_Capabilities component));;
  validateUniqueStrings "capabilities" (items (pin_Capabilities component)).

(** The major version of a protocol; [strconv.Atoi] saturates on overflow and the
    caller drops its error. *)
Definition protocol_major (protocol : string) : Z :=
  let majorText := match Cut protocol "."%char with Some (before, _) => before | None => protocol end in
  default max_int64 (Atoi majorText).

Definition manifest_Validate (manifest : ComponentManifest) : result unit :=
  let protocols := items (manifest_ControlProtocols manifest) in
  validateSchema (manifest_SchemaVersion manifest) ComponentManifestSchemaVersion;;
  reject (negb (manifest_ManifestVersion manifest =? 1)%Z) (Invalid "manifest_version");;
  reject (is_blank (manifest_VPNCTLVersion manifest)
          || ContainsAny (manifest_VPNCTLVersion manifest) (" " +:+ bytes [9%N] +:+ crlf)) (Invalid "vpnctl_version");;
  reject (length protocols =? 0)%nat (Invalid "control_protocols");;
  reject (2 <? length protocols)%nat (Invalid "control_protocols");;
  validateUniqueStrings "control_protocols" protocols;;
  majors ← range (λ index protocol majors,
    reject (negb (matches protocolPattern protocol)) (Invalid (indexPath "control_protocols" index));;
    Ok (majors ++ [protocol_major protocol])) protocols [];
  reject (match majors with [current; previous] => negb (previous =? current - 1)%Z | _ => false end) (Invalid "control_protocols");;
  reject ((manifest_StateSchemaMinimum manifest <? 1)
          || (manifest_StateSchemaMaximum manifest <? manifest_StateSchemaMinimum manifest))%Z (Invalid "state_schema_minimum");;
  reject (negb (String.eqb (manifest_TargetOS manifest) "ubuntu 24.04")
          || negb (String.eqb (manifest_TargetArchitecture manifest) "amd64")) (Invalid "target");;
  reject (manifest_HandshakeHostListVersion manifest <? 1)%Z (Invalid "handshake_host_list_version");;
  reject (length (items (manifest_Components manifest)) =? 0)%nat (Invalid "components");;
  _ ← range (λ index component seen,
    wrap (indexPath "components" index) (pin_Validate component);;
    check_unique (pin_Name component) (Invalid (indexPath "components" index +:+ ".name")) seen)
    (items (manifest_Components manifest)) ∅;
  Ok ().

(** ** Secret references ([internal/model/secret_ref.go]) *)

Definition ParseSecretRef (value : string) : result string :=
  validateOpaqueRef "secret_ref" value;; Ok value.

Definition NewSecretRef (kind id : string) : result string := ParseSecretRef (kind +:+ ":" +:+ id).

Definition ref_Parts (reference : string) : result (string * string) :=
  _ ← ParseSecretRef reference;
  match Cut reference ":"%char with
  | Some parts => Ok parts
  | None => Err (Message "secret reference has no separator")
  end.

(** Texts that are not normalized pass: a signed or zero-padded port, and an endpoint
    with an upper-case scheme and an empty query. *)
Example lenient_texts :
  validateUpstream "upstream" "localhost:+80" = Ok () ∧ validateUpstream "upstream" "localhost:0080" = Ok () ∧
  validateInviteEndpoint "HTTPS://203.0.113.7/.well-known/vpnctl/enroll?" "enroll" = Ok ().
Proof. split_and!; vm_compute; reflexivity. Qed.
