(* ===== verification/Preset.v ===== *)
(** * Routing presets ([internal/routing/preset.go], [composition.go], [classification.go])

    A preset document lists selectors to include and to exclude; presets compose as the
    union of independently evaluated "include minus exclude" clauses.  The YAML decoder is a
    parameter. *)

From S2P Require Import Prelude GoText GoConv GoNet GoTime Types Checks Resources.

Local Open Scope string_scope.
Local Open Scope list_scope.

(** ** Documents *)

Definition PresetDocumentSchemaVersion : Z := 1.
Definition PresetMaximumDocumentBytes : nat := 256 * 1024.
Definition PresetMaximumSelectors : nat := 4096.

Record PresetDocumentSelector := MkPresetDocumentSelector { ds_Type : SelectorKind; ds_Value : string }.

Record PresetDocument := MkPresetDocument {
  pd_SchemaVersion : Z;
  pd_Name : string;
  pd_Include : slice PresetDocumentSelector;
  pd_Exclude : slice PresetDocumentSelector
}.

(** The selectors of a preset in canonical order. *)
Record PresetAST := MkPresetAST {
  ast_SchemaVersion : Z;
  ast_Name : string;
  ast_Selectors : slice Selector
}.

Definition preset_name_char (index : nat) (c : ascii) : bool :=
  lower_alpha c || upper_alpha c || is_digit c
  || ((0 <? index)%nat && (Ascii.eqb c "."%char || Ascii.eqb c "_"%char || Ascii.eqb c "-"%char)).

Fixpoint preset_name_chars (index : nat) (s : string) : bool :=
  match s with EmptyString => true | String c s' => preset_name_char index c && preset_name_chars (S index) s' end.

Definition newlines : string := String "000"%char (String "013"%char (String "010"%char "")).

Definition validatePresetName (value : string) : result unit :=
  reject (String.eqb value "" || (63 <? String.length value)%nat || negb (String.eqb (TrimSpace value) value) || ContainsAny value newlines)
    (Message "preset name length");;
  reject (negb (preset_name_chars 0 value)) (Message "preset name characters").

Definition presetSelectorLess (left right : Selector) : bool :=
  if negb (Bool.eqb (sel_Exclude left) (sel_Exclude right)) then negb (sel_Exclude left)
  else if negb (String.eqb (SelectorKind_string (sel_Kind left)) (SelectorKind_string (sel_Kind right)))
  then str_ltb (SelectorKind_string (sel_Kind left)) (SelectorKind_string (sel_Kind right))
  else str_ltb (sel_Value left) (sel_Value right).

(** The order [sort.Slice] uses. *)
Definition selector_le (left right : Selector) : Prop := presetSelectorLess right left = false.
#[export] Instance selector_le_dec : RelDecision selector_le.
Proof. intros x y. unfold selector_le. apply _. Defined.

(** [index > 0 && !presetSelectorLess(selectors[index-1], selector)] *)
Definition selector_unsorted (selectors : list Selector) (index : nat) (selector : Selector) : bool :=
  match index with
  | O => false
  | S i => match selectors !! i with Some previous => negb (presetSelectorLess previous selector) | None => false end
  end.

Definition ast_Validate (ast : PresetAST) : result unit :=
  reject (negb (ast_SchemaVersion ast =? PresetDocumentSchemaVersion)%Z) (Message "preset AST schema_version");;
  validatePresetName (ast_Name ast);;
  let selectors := items (ast_Selectors ast) in
  reject ((length selectors =? 0)%nat || (PresetMaximumSelectors <? length selectors)%nat) (Message "preset AST selector count");;
  includeCount ← range (λ index selector includeCount,
    wrap "selectors" (selector_Validate selector);;
    let includeCount := if negb (sel_Exclude selector) then S includeCount else includeCount in
    reject (selector_unsorted selectors index selector) (Message "preset AST selectors must be strictly sorted and unique");;
    Ok includeCount) selectors 0;
  reject (includeCount =? 0)%nat (Message "preset AST requires at least one include selector").

(** The key of a selector in the set of duplicates. *)
Definition document_key (selector : Selector) : string :=
  SelectorKind_string (sel_Kind selector) +:+ String "000"%char (sel_Value selector)
    +:+ String "000"%char (if sel_Exclude selector then "true" else "false").

Definition appendSelectors (exclude : bool) (values : list PresetDocumentSelector) (s : list Selector * gset string)
    : result (list Selector * gset string) :=
  range (λ _ value '(selectors, seen),
    let selector := MkSelector (ds_Type value) (ds_Value value) exclude in
    wrap (if exclude then "exclude" else "include") (selector_Validate selector);;
    seen' ← check_unique (document_key selector) (Message "preset duplicates a selector") seen;
    Ok (selectors ++ [selector], seen')) values s.

Definition Normalize (document : PresetDocument) : result PresetAST :=
  reject (negb (pd_SchemaVersion document =? PresetDocumentSchemaVersion)%Z) (Message "unsupported preset schema_version");;
  validatePresetName (pd_Name document);;
  reject (is_nil (pd_Include document) || is_nil (pd_Exclude document)) (Message "preset include and exclude must be present");;
  let include := items (pd_Include document) in let exclude := items (pd_Exclude document) in
  reject (length include =? 0)%nat (Message "preset must contain at least one include selector");;
  reject (PresetMaximumSelectors <? length include + length exclude)%nat (Message "preset exceeds total selectors");;
  included ← appendSelectors false include ([], ∅);
  collected ← appendSelectors true exclude included;
  let ast := MkPresetAST PresetDocumentSchemaVersion (pd_Name document) (Some (merge_sort selector_le collected.1)) in
  ast_Validate ast;;
  Ok ast.

(** ** YAML

    What the code looks at in a parsed node, and the two passes of the decoder over the
    text. *)
Inductive yaml_kind := MappingNode | SequenceNode | ScalarNode | AliasNode | DocumentNode.
Inductive yaml_node := MkYAMLNode (kind : yaml_kind) (tag anchor : string) (alias : bool) (content : list yaml_node).

Definition node_kind (n : yaml_node) : yaml_kind := let '(MkYAMLNode k _ _ _ _) := n in k.
Definition node_tag (n : yaml_node) : string := let '(MkYAMLNode _ t _ _ _) := n in t.
Definition node_anchor (n : yaml_node) : string := let '(MkYAMLNode _ _ a _ _) := n in a.
Definition node_has_alias (n : yaml_node) : bool := let '(MkYAMLNode _ _ _ a _) := n in a.
Definition node_content (n : yaml_node) : list yaml_node := let '(MkYAMLNode _ _ _ _ c) := n in c.

#[export] Instance yaml_kind_eq_dec : EqDecision yaml_kind.
Proof. solve_decision. Defined.

(** What the second call of [Decode] reports. *)
Inductive yaml_rest := YAMLEOF | YAMLDocument | YAMLError (e : error).

Class YAMLReader := {
  decode_node : string → result (yaml_node * yaml_rest);
  decode_known_fields : string → result (PresetDocument * yaml_rest)
}.

Definition single_document (rest : yaml_rest) : result unit :=
  match rest with
  | YAMLEOF => Ok ()
  | YAMLDocument => Err (Message "preset YAML must contain exactly one document")
  | YAMLError e => Err (Wrapped "trailing preset YAML" e)
  end.

Definition yaml_tags : list string := [""; "!!map"; "!!seq"; "!!str"; "!!int"].

Fixpoint rejectYAMLIndirection (node : yaml_node) : result unit :=
  let '(MkYAMLNode kind tag anchor alias content) := node in
  reject (bool_decide (kind = AliasNode) || alias || negb (String.eqb anchor "")) (Message "preset YAML aliases and anchors");;
  reject (bool_decide (tag ∉ yaml_tags)) (Message "preset YAML tag");;
  (fix children (nodes : list yaml_node) : result unit :=
     match nodes with [] => Ok () | child :: nodes => rejectYAMLIndirection child;; children nodes end) content.

Section yaml.
Context `{!YAMLReader}.

Definition validatePresetYAMLShape (data : string) : result unit :=
  '(root, rest) ← wrap "parse preset YAML" (decode_node data);
  match node_content root with
  | [node] =>
      reject (negb (bool_decide (node_kind node = MappingNode))) (Message "preset YAML root must be a mapping");;
      rejectYAMLIndirection node
  | _ => Err (Message "preset YAML root must be a mapping")
  end;;
  single_document rest.

Definition DecodePresetDocument (data : string) : result PresetAST :=
  reject (String.length data =? 0)%nat (Message "preset YAML document is empty");;
  reject (PresetMaximumDocumentBytes <? String.length data)%nat (Message "preset YAML document exceeds the maximum");;
  reject (str_exists (Ascii.eqb "000"%char) data) (Message "preset YAML document contains a NUL byte");;
  validatePresetYAMLShape data;;
  '(document, rest) ← wrap "decode preset YAML" (decode_known_fields data);
  single_document rest;;
  Normalize document.
End yaml.

(** ** Composition *)

Record PresetSelection := MkPresetSelection {
  ps_Name : string;
  ps_Includes : slice Selector;
  ps_Excludes : slice Selector
}.

Record PresetComposition := MkPresetComposition { pc_Presets : slice PresetSelection }.

Definition validateCompositionSelectors (selectors : list Selector) (exclude : bool) : result unit :=
  range_check (λ index selector,
    reject (negb (Bool.eqb (sel_Exclude selector) exclude)) (Message "inconsistent exclusion state");;
    wrap "selectors" (selector_Validate selector);;
    reject (selector_unsorted selectors index selector) (Message "selectors must be strictly sorted and unique")) selectors.

(** The comparison of a name with the one before it. *)
Definition check_name_order (names : list string) (index : nat) (name : string) : result unit :=
  match index with
  | O => Ok ()
  | S i =>
      match names !! i with
      | Some previous =>
          reject (String.eqb (ToLower previous) (ToLower name)) (Message "preset composition duplicates name");;
          reject (str_ltb (ToLower name) (ToLower previous)) (Message "preset composition names must be sorted")
      | None => Ok ()
      end
  end.

Definition pc_Validate (composition : PresetComposition) : result unit :=
  reject (is_nil (pc_Presets composition)) (Message "preset composition must contain a present presets array");;
  let presets := items (pc_Presets composition) in
  range_check (λ index preset,
    wrap "presets" (validatePresetName (ps_Name preset));;
    check_name_order (ps_Name <$> presets) index (ps_Name preset);;
    reject (is_nil (ps_Includes preset) || is_nil (ps_Excludes preset)) (Message "include and exclude arrays must be present");;
    reject (length (items (ps_Includes preset)) =? 0)%nat (Message "preset requires at least one include selector");;
    reject (PresetMaximumSelectors <? length (items (ps_Includes preset)) + length (items (ps_Excludes preset)))%nat
      (Message "preset exceeds total selectors");;
    validateCompositionSelectors (items (ps_Includes preset)) false;;
    validateCompositionSelectors (items (ps_Excludes preset)) true) presets.

(** The loop over the selectors of one preset. *)
Definition split_selectors (preset : PresetAST) : PresetSelection :=
  foldl (λ selection selector,
    if sel_Exclude selector
    then MkPresetSelection (ps_Name selection) (ps_Includes selection) (append (ps_Excludes selection) [selector])
    else MkPresetSelection (ps_Name selection) (append (ps_Includes selection) [selector]) (ps_Excludes selection))
    (MkPresetSelection (ast_Name preset) (Some []) (Some [])) (items (ast_Selectors preset)).

Definition selection_le (left right : PresetSelection) : Prop := str_le (ToLower (ps_Name left)) (ToLower (ps_Name right)).
#[export] Instance selection_le_dec : RelDecision selection_le.
Proof. intros x y. unfold selection_le. apply _. Defined.

Definition NormalizePresetComposition (presets : slice PresetAST) : result PresetComposition :=
  reject (is_nil presets) (Message "preset composition input must be a present array");;
  selections ← range (λ _ preset selections,
    wrap "preset" (ast_Validate preset);;
    Ok (selections ++ [split_selectors preset])) (items presets) [];
  let composition := MkPresetComposition (Some (merge_sort selection_le selections)) in
  pc_Validate composition;;
  Ok composition.

(** ** Destinations *)

(** [domain == suffix || strings.HasSuffix(domain, "."+suffix)] *)
Definition under_suffix (domain suffix : string) : bool := String.eqb domain suffix || HasSuffix domain ("." +:+ suffix).

(** [Addr.Unmap]: an IPv4-mapped IPv6 address becomes the IPv4 address. *)
Definition Unmap (a : addr) : addr :=
  match a with
  | V4 n => V4 n
  | V6 n zone => if (n / 2 ^ 32 =? 65535)%N then V4 (n mod 2 ^ 32) else V6 n zone
  end.

(** A destination address: [None] is the invalid zero address. *)
Definition destination (address : option addr) : result addr :=
  match address with
  | Some a => if has_zone a then Err (Message "IP destination must be a valid unzoned address") else Ok (Unmap a)
  | None => Err (Message "IP destination must be a valid unzoned address")
  end.

Definition valid_destination (domain : string) : result unit :=
  wrap "domain destination" (selector_Validate (MkSelector SelectorDomain domain false)).

Definition composition_selects (composition : PresetComposition) (test : Selector → bool) : bool :=
  existsb (λ preset, existsb test (items (ps_Includes preset)) && negb (existsb test (items (ps_Excludes preset))))
    (items (pc_Presets composition)).

Definition domain_test (domain : string) (selector : Selector) : bool :=
  match sel_Kind selector with
  | SelectorDomain => String.eqb domain (sel_Value selector)
  | SelectorDomainSuffix => under_suffix domain (sel_Value selector)
  | _ => false
  end.

Definition address_test (address : addr) (selector : Selector) : bool :=
  match sel_Kind selector with
  | SelectorIPCIDR => match ParsePrefix (sel_Value selector) with Some prefix => prefix_contains prefix address | None => false end
  | _ => false
  end.

Definition pc_SelectsDomain (composition : PresetComposition) (domain : string) : result bool :=
  pc_Validate composition;;
  valid_destination domain;;
  Ok (composition_selects composition (domain_test domain)).

Definition pc_SelectsIP (composition : PresetComposition) (address : option addr) : result bool :=
  pc_Validate composition;;
  address ← destination address;
  Ok (composition_selects composition (address_test address)).

(** ** What classification can see *)

Definition ClassificationBoundarySchemaVersion : Z := 1.

Record ClassificationBoundary := MkClassificationBoundary {
  cb_SchemaVersion : Z;
  cb_DomainSelectors : Z;
  cb_AddressSelectors : Z;
  cb_SelectedAction : string;
  cb_UnmatchedAction : string;
  cb_ClassicDNS : string;
  cb_DoH : string;
  cb_DoT : string;
  cb_HardcodedIP : string;
  cb_GlobalDoHDotBlocked : bool
}.

Definition boundary_report (domains addresses : Z) : ClassificationBoundary :=
  MkClassificationBoundary ClassificationBoundarySchemaVersion domains addresses "gateway_or_block" "direct" "managed"
    "domain_hidden_unless_address_selected" "domain_hidden_unless_address_selected" "address_selector_required" false.

Definition InspectClassificationBoundary (selectors : slice Selector) : result ClassificationBoundary :=
  reject (is_nil selectors) (Message "classification selectors must be a present array");;
  range (λ _ selector report,
    wrap "classification selector" (selector_Validate selector);;
    Ok (match sel_Kind selector with
        | SelectorDomain | SelectorDomainSuffix => boundary_report (cb_DomainSelectors report + 1) (cb_AddressSelectors report)
        | SelectorIPCIDR => boundary_report (cb_DomainSelectors report) (cb_AddressSelectors report + 1)
        | SelectorUnsupported _ => report
        end)) (items selectors) (boundary_report 0 0).

Definition cb_Validate (report : ClassificationBoundary) : result unit :=
  reject (negb (cb_SchemaVersion report =? ClassificationBoundarySchemaVersion)%Z || (cb_DomainSelectors report <? 0)%Z
    || (cb_AddressSelectors report <? 0)%Z || negb (String.eqb (cb_SelectedAction report) "gateway_or_block")
    || negb (String.eqb (cb_UnmatchedAction report) "direct") || negb (String.eqb (cb_ClassicDNS report) "managed")
    || negb (String.eqb (cb_DoH report) "domain_hidden_unless_address_selected")
    || negb (String.eqb (cb_DoT report) "domain_hidden_unless_address_selected")
    || negb (String.eqb (cb_HardcodedIP report) "address_selector_required") || cb_GlobalDoHDotBlocked report)
    (Message "invalid classification boundary report").
