(* ===== verification/Matcher.v ===== *)
(** * Matchers ([internal/routing/matcher_ir.go])

    A composition of presets is compiled to canonical clauses, and the clauses to ordered
    decision rules for the data planes: the first rule that matches a destination decides.
    A rule is added for every term of a clause, with the decision the clauses make for a
    probe that only the rule's own term and wider terms match. *)

From S2P Require Import Prelude GoText GoConv GoNet GoTime Types Checks Resources Preset.

Local Open Scope string_scope.
Local Open Scope list_scope.

Definition MatcherIRSchemaVersion : Z := 1.

Record MatcherTerms := MkMatcherTerms {
  mt_Domains : slice string;
  mt_DomainSuffixes : slice string;
  mt_IPv4CIDRs : slice string;
  mt_IPv6CIDRs : slice string
}.

Record MatcherClause := MkMatcherClause {
  mc_Name : string;
  mc_Includes : MatcherTerms;
  mc_Excludes : MatcherTerms
}.

Record MatcherIR := MkMatcherIR { ir_SchemaVersion : Z; ir_Clauses : slice MatcherClause }.

(** [netip.MustParsePrefix]; the code applies it to validated values only, which parse. *)
Definition MustParsePrefix (value : string) : netprefix := default (Prefix (V4 0) 0) (ParsePrefix value).

Definition sorted_slice (values : slice string) : slice string := merge_sort str_le <$> values.

(** ** Clauses *)

Definition compileMatcherTerms (selectors : list Selector) : MatcherTerms :=
  let terms := foldl (λ terms selector,
    let '(MkMatcherTerms domains suffixes ipv4 ipv6) := terms in
    let value := sel_Value selector in
    match sel_Kind selector with
    | SelectorDomain => MkMatcherTerms (append domains [value]) suffixes ipv4 ipv6
    | SelectorDomainSuffix => MkMatcherTerms domains (append suffixes [value]) ipv4 ipv6
    | SelectorIPCIDR =>
        if Is4 (prefix_addr (MustParsePrefix value))
        then MkMatcherTerms domains suffixes (append ipv4 [value]) ipv6
        else MkMatcherTerms domains suffixes ipv4 (append ipv6 [value])
    | SelectorUnsupported _ => terms
    end) (MkMatcherTerms (Some []) (Some []) (Some []) (Some [])) selectors in
  MkMatcherTerms (sorted_slice (mt_Domains terms)) (sorted_slice (mt_DomainSuffixes terms))
    (sorted_slice (mt_IPv4CIDRs terms)) (sorted_slice (mt_IPv6CIDRs terms)).

(** [index > 0 && values[index-1] >= value] *)
Definition string_unsorted (values : list string) (index : nat) (value : string) : bool :=
  match index with
  | O => false
  | S i => match values !! i with Some previous => str_leb value previous | None => false end
  end.

Definition validateSortedMatcherDomains (kind : SelectorKind) (values : list string) : result unit :=
  range_check (λ index value,
    wrap "domains" (selector_Validate (MkSelector kind value false));;
    reject (string_unsorted values index value) (Message "must be strictly sorted and unique")) values.

Definition validateSortedMatcherCIDRs (values : list string) (ipv4 : bool) : result unit :=
  range_check (λ index value,
    reject (match ParsePrefix value with
            | None => true
            | Some prefix => negb (String.eqb (prefix_string prefix) value) || negb (bool_decide (Masked prefix = prefix))
                             || negb (Bool.eqb (Is4 (prefix_addr prefix)) ipv4)
            end) (Message "must be a canonical prefix");;
    reject (string_unsorted values index value) (Message "must be strictly sorted and unique")) values.

Definition mt_validate (terms : MatcherTerms) : result nat :=
  reject (is_nil (mt_Domains terms) || is_nil (mt_DomainSuffixes terms) || is_nil (mt_IPv4CIDRs terms) || is_nil (mt_IPv6CIDRs terms))
    (Message "matcher arrays must be present");;
  validateSortedMatcherDomains SelectorDomain (items (mt_Domains terms));;
  validateSortedMatcherDomains SelectorDomainSuffix (items (mt_DomainSuffixes terms));;
  validateSortedMatcherCIDRs (items (mt_IPv4CIDRs terms)) true;;
  validateSortedMatcherCIDRs (items (mt_IPv6CIDRs terms)) false;;
  Ok (length (items (mt_Domains terms)) + length (items (mt_DomainSuffixes terms))
      + length (items (mt_IPv4CIDRs terms)) + length (items (mt_IPv6CIDRs terms)))%nat.

Definition ir_Validate (ir : MatcherIR) : result unit :=
  reject (negb (ir_SchemaVersion ir =? MatcherIRSchemaVersion)%Z) (Message "unsupported matcher IR schema_version");;
  reject (is_nil (ir_Clauses ir)) (Message "matcher IR clauses must be a present array");;
  let clauses := items (ir_Clauses ir) in
  range_check (λ index clause,
    wrap "clauses" (validatePresetName (mc_Name clause));;
    reject (string_unsorted ((λ c, ToLower (mc_Name c)) <$> clauses) index (ToLower (mc_Name clause)))
      (Message "matcher IR clause names must be strictly sorted and unique");;
    includeCount ← mt_validate (mc_Includes clause);
    excludeCount ← mt_validate (mc_Excludes clause);
    reject (includeCount =? 0)%nat (Message "requires at least one include matcher");;
    reject (PresetMaximumSelectors <? includeCount + excludeCount)%nat (Message "exceeds total matchers")) clauses.

Definition CompileMatcherIR (composition : PresetComposition) : result MatcherIR :=
  wrap "validate matcher composition" (pc_Validate composition);;
  let ir := MkMatcherIR MatcherIRSchemaVersion
    (Some ((λ preset, MkMatcherClause (ps_Name preset) (compileMatcherTerms (items (ps_Includes preset)))
                        (compileMatcherTerms (items (ps_Excludes preset)))) <$> items (pc_Presets composition))) in
  wrap "validate compiled matcher IR" (ir_Validate ir);;
  Ok ir.

(** ** The decision of the clauses *)

Definition matchesDomain (terms : MatcherTerms) (domain : string) : bool :=
  existsb (String.eqb domain) (items (mt_Domains terms)) || existsb (under_suffix domain) (items (mt_DomainSuffixes terms)).

Definition matchesIP (terms : MatcherTerms) (address : addr) : bool :=
  existsb (λ value, prefix_contains (MustParsePrefix value) address)
    (items (if Is4 address then mt_IPv4CIDRs terms else mt_IPv6CIDRs terms)).

Definition ir_selectsDomain (ir : MatcherIR) (domain : string) : bool :=
  existsb (λ clause, matchesDomain (mc_Includes clause) domain && negb (matchesDomain (mc_Excludes clause) domain)) (items (ir_Clauses ir)).

Definition ir_selectsIP (ir : MatcherIR) (address : addr) : bool :=
  existsb (λ clause, matchesIP (mc_Includes clause) address && negb (matchesIP (mc_Excludes clause) address)) (items (ir_Clauses ir)).

Definition ir_SelectsDomain (ir : MatcherIR) (domain : string) : result bool :=
  ir_Validate ir;;
  valid_destination domain;;
  Ok (ir_selectsDomain ir domain).

Definition ir_SelectsIP (ir : MatcherIR) (address : option addr) : result bool :=
  ir_Validate ir;;
  address ← destination address;
  Ok (ir_selectsIP ir address).

(** ** Decision rules *)

Record MatcherDecisionRule := MkMatcherDecisionRule {
  rule_Kind : SelectorKind;
  rule_Value : string;
  rule_Selected : bool
}.

Record matcherDecisionProgram := MkMatcherDecisionProgram {
  mp_schemaVersion : Z;
  mp_domain : list MatcherDecisionRule;
  mp_ipv4 : list MatcherDecisionRule;
  mp_ipv6 : list MatcherDecisionRule
}.

(** The values of a field over the includes and excludes of all clauses. *)
Definition all_values (field : MatcherTerms → slice string) (ir : MatcherIR) : list string :=
  clause ← items (ir_Clauses ir); terms ← [mc_Includes clause; mc_Excludes clause]; items (field terms).

Definition sortedMatcherKeys (values : gset string) : list string := merge_sort str_le (elements values).

(** More labels first, then longer, then in the order of text. *)
Definition suffix_less (left right : string) : bool :=
  let leftLabels := Count left "." in let rightLabels := Count right "." in
  if negb (leftLabels =? rightLabels)%nat then (rightLabels <? leftLabels)%nat
  else if negb (String.length left =? String.length right)%nat then (String.length right <? String.length left)%nat
  else str_ltb left right.
Definition suffix_le (left right : string) : Prop := suffix_less right left = false.
#[export] Instance suffix_le_dec : RelDecision suffix_le.
Proof. intros x y. unfold suffix_le. apply _. Defined.

(** [for character := first; character <= last; character++] *)
Definition letters (first last : N) : list string := (λ i, String (byte (first + N.of_nat i)) "") <$> seq 0 (S (N.to_nat (last - first))).

Definition probe_labels (count : nat) : list string :=
  letters 97 122 ++ letters 48 57 ++ ((λ index, "v" +:+ itoa (N.of_nat index)) <$> seq 0 (S count)).

Definition uncoveredDomainForMatcherSuffix (suffix : string) (exact suffixes : gset string) : option string :=
  if negb (bool_decide (suffix ∈ exact)) then Some suffix
  else List.find (λ candidate,
         is_ok (selector_Validate (MkSelector SelectorDomain candidate false))
         && negb (bool_decide (candidate ∈ exact))
         && negb (existsb (λ descendant, negb (String.eqb descendant suffix) && under_suffix candidate descendant) (elements suffixes)))
         ((λ label, label +:+ "." +:+ suffix) <$> probe_labels (size exact + size suffixes)).

Definition compileDomainDecisionRules (ir : MatcherIR) : list MatcherDecisionRule :=
  let exact : gset string := list_to_set (all_values mt_Domains ir) in
  let suffixes : gset string := list_to_set (all_values mt_DomainSuffixes ir) in
  let exactValues := sortedMatcherKeys exact in
  let suffixValues := merge_sort suffix_le (sortedMatcherKeys suffixes) in
  ((λ value, MkMatcherDecisionRule SelectorDomain value (ir_selectsDomain ir value)) <$> exactValues)
  ++ omap (λ value,
       (λ probe, MkMatcherDecisionRule SelectorDomainSuffix value (ir_selectsDomain ir probe))
         <$> uncoveredDomainForMatcherSuffix value exact suffixes) suffixValues.

(** [splitMatcherPrefix]: the two halves of a prefix that is not a single address. *)
Definition with_value (a : addr) (n : N) : addr := match a with V4 _ => V4 n | V6 _ zone => V6 n zone end.

Definition splitMatcherPrefix (prefix : netprefix) : netprefix * netprefix :=
  let bits := (prefix_bits prefix + 1)%N in
  let address := prefix_addr prefix in
  let raw := N.setbit (addr_value address) (addr_width address - bits) in
  (Masked (Prefix address bits), Masked (Prefix (with_value address raw) bits)).

(** The recursion ends because every half has one more bit; the fuel is the width. *)
Fixpoint uncovered_address (fuel : nat) (prefix : netprefix) (covered : list netprefix) : option addr :=
  match covered with
  | [] => Some (prefix_addr prefix)
  | _ =>
      if (prefix_bits prefix =? addr_width (prefix_addr prefix))%N then None
      else match fuel with
      | O => None
      | S fuel =>
          let try half :=
            if bool_decide (half ∈ covered) then None
            else uncovered_address fuel half
                   (filter (λ candidate, (prefix_bits half <? prefix_bits candidate)%N = true ∧ prefix_contains half (prefix_addr candidate) = true) covered) in
          let halves := splitMatcherPrefix prefix in
          match try halves.1 with Some address => Some address | None => try halves.2 end
      end
  end.

Definition uncoveredMatcherAddress (prefix : netprefix) (covered : list netprefix) : option addr :=
  uncovered_address (N.to_nat (addr_width (prefix_addr prefix))) prefix covered.

(** More bits first, then in the order of addresses. *)
Definition prefix_less (left right : netprefix) : bool :=
  if negb (prefix_bits left =? prefix_bits right)%N then (prefix_bits right <? prefix_bits left)%N
  else (addr_value (prefix_addr left) <? addr_value (prefix_addr right))%N.
Definition prefix_le (left right : netprefix) : Prop := prefix_less right left = false.
#[export] Instance prefix_le_dec : RelDecision prefix_le.
Proof. intros x y. unfold prefix_le. apply _. Defined.

Definition compile_family (ir : MatcherIR) (values : list string) : list MatcherDecisionRule :=
  let set : gmap string netprefix := foldl (λ m value, <[value := MustParsePrefix value]> m) ∅ values in
  let prefixes := merge_sort prefix_le (snd <$> map_to_list set) in
  omap (λ prefix,
    let covered := filter (λ candidate, (prefix_bits prefix <? prefix_bits candidate)%N = true ∧ prefix_contains prefix (prefix_addr candidate) = true) prefixes in
    (λ probe, MkMatcherDecisionRule SelectorIPCIDR (prefix_string prefix) (ir_selectsIP ir probe)) <$> uncoveredMatcherAddress prefix covered)
    prefixes.

Definition compileIPDecisionRules (ir : MatcherIR) : list MatcherDecisionRule * list MatcherDecisionRule :=
  (compile_family ir (all_values mt_IPv4CIDRs ir), compile_family ir (all_values mt_IPv6CIDRs ir)).

Definition compileMatcherDecisionProgram (ir : MatcherIR) : result matcherDecisionProgram :=
  wrap "validate matcher IR" (ir_Validate ir);;
  let domain := compileDomainDecisionRules ir in
  let '(ipv4, ipv6) := compileIPDecisionRules ir in
  Ok (MkMatcherDecisionProgram MatcherIRSchemaVersion domain ipv4 ipv6).

(** ** The decision of the rules *)

Definition rule_matches_domain (domain : string) (rule : MatcherDecisionRule) : bool :=
  match rule_Kind rule with
  | SelectorDomain => String.eqb domain (rule_Value rule)
  | SelectorDomainSuffix => under_suffix domain (rule_Value rule)
  | _ => false
  end.

(** [for _, rule := range rules { if matches { return rule.Selected } }; return false] *)
Definition first_decision (test : MatcherDecisionRule → bool) (rules : list MatcherDecisionRule) : bool :=
  match List.find test rules with Some rule => rule_Selected rule | None => false end.

Definition selectDomainDecision (rules : list MatcherDecisionRule) (domain : string) : result bool :=
  valid_destination domain;;
  Ok (first_decision (rule_matches_domain domain) rules).

Definition mp_selectsDomain (program : matcherDecisionProgram) (domain : string) : result bool :=
  reject (negb (mp_schemaVersion program =? MatcherIRSchemaVersion)%Z) (Message "matcher target is not compiled");;
  selectDomainDecision (mp_domain program) domain.

Definition mp_selectsIP (program : matcherDecisionProgram) (address : option addr) : result bool :=
  reject (negb (mp_schemaVersion program =? MatcherIRSchemaVersion)%Z) (Message "matcher target is not compiled");;
  address ← destination address;
  let rules := if Is4 address then mp_ipv4 program else mp_ipv6 program in
  Ok (first_decision (λ rule, prefix_contains (MustParsePrefix (rule_Value rule)) address) rules).

(** ** The targets *)

Record NodeRoutingMatchers := MkNodeRoutingMatchers { nr_program : matcherDecisionProgram }.
Record NFTablesLeakGuardMatchers := MkNFTablesLeakGuardMatchers { lg_program : matcherDecisionProgram }.
Record GatewayDNSMatchers := MkGatewayDNSMatchers { gd_schemaVersion : Z; gd_domain : list MatcherDecisionRule }.
Record ClashMatchers := MkClashMatchers { cl_program : matcherDecisionProgram }.

Definition CompileNodeRoutingMatchers (ir : MatcherIR) : result NodeRoutingMatchers :=
  program ← compileMatcherDecisionProgram ir; Ok (MkNodeRoutingMatchers program).
Definition CompileNFTablesLeakGuardMatchers (ir : MatcherIR) : result NFTablesLeakGuardMatchers :=
  program ← compileMatcherDecisionProgram ir; Ok (MkNFTablesLeakGuardMatchers program).
Definition CompileGatewayDNSMatchers (ir : MatcherIR) : result GatewayDNSMatchers :=
  program ← compileMatcherDecisionProgram ir; Ok (MkGatewayDNSMatchers MatcherIRSchemaVersion (mp_domain program)).
Definition CompileClashMatchers (ir : MatcherIR) : result ClashMatchers :=
  program ← compileMatcherDecisionProgram ir; Ok (MkClashMatchers program).

Definition nr_SelectsDomain (matcher : NodeRoutingMatchers) : string → result bool := mp_selectsDomain (nr_program matcher).
Definition nr_SelectsIP (matcher : NodeRoutingMatchers) : option addr → result bool := mp_selectsIP (nr_program matcher).
Definition lg_SelectsResolvedDomain (matcher : NFTablesLeakGuardMatchers) : string → result bool := mp_selectsDomain (lg_program matcher).
Definition lg_SelectsIP (matcher : NFTablesLeakGuardMatchers) : option addr → result bool := mp_selectsIP (lg_program matcher).
Definition gd_SelectsDomain (matcher : GatewayDNSMatchers) (domain : string) : result bool :=
  reject (negb (gd_schemaVersion matcher =? MatcherIRSchemaVersion)%Z) (Message "gateway DNS matchers are not compiled");;
  selectDomainDecision (gd_domain matcher) domain.
Definition cl_SelectsDomain (matcher : ClashMatchers) : string → result bool := mp_selectsDomain (cl_program matcher).
Definition cl_SelectsIP (matcher : ClashMatchers) : option addr → result bool := mp_selectsIP (cl_program matcher).
Definition clashRules (matcher : ClashMatchers) : list MatcherDecisionRule :=
  mp_domain (cl_program matcher) ++ mp_ipv4 (cl_program matcher) ++ mp_ipv6 (cl_program matcher).
