(* ===== verification/MatcherFacts.v ===== *)
(** * Matchers: blocks of addresses, names and ordered rules

    A prefix is a block of a partition of the addresses, blocks of two partitions are nested
    or disjoint, and the search for an uncovered address is complete.  The second
    half is about names, their suffixes and the probes below them. *)

From S2P Require Import Prelude GoText GoConv GoNet GoTime Types Checks Ordered Expose Resources Preset Matcher.

Local Open Scope string_scope.
Local Open Scope list_scope.

(** ** The first rule of an ordered list *)

(** When the rules come from items of falling rank and the matching item of highest rank
    emits a rule with the decision, the first rule decides so. *)
Lemma first_decision_ranked {A} (emit : A → option MatcherDecisionRule) (t : MatcherDecisionRule → bool) (test : A → bool) (rank : A → N) (l : list A) goal :
  (∀ x r, x ∈ l → emit x = Some r → t r = test x) →
  (∀ x, x ∈ l → test x = true → (∀ y, y ∈ l → test y = true → (rank y ≤ rank x)%N) → ∃ r, emit x = Some r ∧ rule_Selected r = goal) →
  StronglySorted (λ x y, (rank y ≤ rank x)%N) l →
  ((∀ x, x ∈ l → test x = false) → goal = false) →
  first_decision t (omap emit l) = goal.
Proof.
  intros Ht Hbest Hs Hnone. unfold first_decision. induction l as [|x l IH]; [symmetry; apply Hnone; by intros x Hx%elem_of_nil|].
  apply StronglySorted_inv in Hs as [Hs Hx]. destruct (test x) eqn:Etest.
  - destruct (Hbest x ltac:(left) Etest) as (r & Hr & <-).
    { intros y [->|Hy]%elem_of_cons _; [done|]. rewrite Forall_forall in Hx. by apply Hx. }
    cbn. rewrite Hr. cbn. by rewrite (Ht x r ltac:(left) Hr) Etest.
  - assert (IH' : match List.find t (omap emit l) with Some r => rule_Selected r | None => false end = goal).
    { apply IH; [| |done|].
      - intros y r Hy. apply Ht. by right.
      - intros y Hy Hty Hmax. apply Hbest; [by right|done|]. intros z [->|Hz]%elem_of_cons Hz'; [congruence|]. by apply Hmax.
      - intros Hl. apply Hnone. intros y [->|Hy]%elem_of_cons; [done|by apply Hl]. }
    cbn. destruct (emit x) as [r|] eqn:Er; [|done]. cbn. by rewrite (Ht x r ltac:(left) Er) Etest.
Qed.

(** ** Blocks of addresses *)

(** The block of the partition by [p]'s size in which [a] lies. *)
Definition cell (p : netprefix) (a : addr) : N := (addr_value a / prefix_size p)%N.

Definition same_family (a b : addr) : Prop := Is4 a = Is4 b.

(** What [validateSortedMatcherCIDRs] establishes of a prefix. *)
Record block (p : netprefix) : Prop := {
  block_masked : Masked p = p;
  block_bits : (prefix_bits p ≤ addr_width (prefix_addr p))%N;
  block_zone : has_zone (prefix_addr p) = false
}.

Lemma family_width a b : addr_width a = addr_width b ↔ same_family a b.
Proof. unfold same_family. destruct a, b; cbn; split; done. Qed.

Lemma contains_spec p a : prefix_contains p a = true ↔
  same_family (prefix_addr p) a ∧ has_zone a = false ∧ cell p a = cell p (prefix_addr p).
Proof.
  unfold prefix_contains, cell. rewrite !andb_true_iff !N.eqb_eq negb_true_iff family_width. tauto.
Qed.

Lemma size_pos p : (prefix_size p ≠ 0)%N.
Proof. unfold prefix_size. by apply N.pow_nonzero. Qed.

(** A coarser partition does not tell apart what a finer one does not. *)
Lemma cell_coarse p q a b : same_family (prefix_addr p) (prefix_addr q) → (prefix_bits p ≤ prefix_bits q)%N →
  (prefix_bits q ≤ addr_width (prefix_addr q))%N → cell q a = cell q b → cell p a = cell p b.
Proof.
  unfold cell. intros Hf%family_width Hb Hw Hq.
  assert (Hs : prefix_size p = (prefix_size q * 2 ^ (prefix_bits q - prefix_bits p))%N).
  { unfold prefix_size. rewrite Hf -N.pow_add_r. f_equal. lia. }
  rewrite Hs -!N.Div0.div_div. by rewrite Hq.
Qed.

Lemma contains_own p : block p → prefix_contains p (prefix_addr p) = true.
Proof. intros [_ _ Hz]. by apply contains_spec. Qed.

(** Blocks with a common address are nested. *)
Lemma contains_nested p q a b : block q → (prefix_bits p ≤ prefix_bits q)%N →
  prefix_contains p a = true → prefix_contains q a = true → prefix_contains q b = true → prefix_contains p b = true.
Proof.
  intros Hq Hb (Hf & Hz & Hp)%contains_spec (Hf' & _ & Hqa)%contains_spec (Hf'' & Hzb & Hqb)%contains_spec.
  apply contains_spec. unfold same_family in *. split_and!; [congruence|done|]. rewrite -Hp.
  apply (cell_coarse p q); [unfold same_family; congruence|done|apply Hq|congruence].
Qed.

Lemma masked_value p : block p → (cell p (prefix_addr p) * prefix_size p)%N = addr_value (prefix_addr p).
Proof.
  intros [Hm _ _]. unfold cell. destruct p as [[n|n z] bits]; cbn in *.
  - injection Hm as Hm. exact Hm.
  - injection Hm as Hm. exact Hm.
Qed.

(** Blocks of one size with a common address are equal. *)
Lemma contains_same p q a : block p → block q → prefix_bits p = prefix_bits q →
  prefix_contains p a = true → prefix_contains q a = true → p = q.
Proof.
  intros Hp Hq Hb (Hf & Hz & Ha)%contains_spec (Hf' & _ & Ha')%contains_spec.
  assert (Hfam : same_family (prefix_addr p) (prefix_addr q)) by (unfold same_family in *; congruence).
  assert (Hs : prefix_size p = prefix_size q) by (unfold prefix_size; by rewrite Hb (proj2 (family_width _ _) Hfam)).
  assert (Hv : addr_value (prefix_addr p) = addr_value (prefix_addr q)).
  { rewrite -(masked_value p Hp) -(masked_value q Hq) -Ha -Ha' Hs. unfold cell. by rewrite Hs. }
  destruct p as [[n|n z] b], q as [[n'|n' z'] b']; cbn in *; try done; subst; [done|].
  apply block_zone in Hp, Hq. cbn in Hp, Hq. apply negb_false_iff, String.eqb_eq in Hp, Hq. by subst.
Qed.

(** ** Halves *)

Lemma setbit_even m : N.setbit (2 * m) 0 = (2 * m + 1)%N.
Proof. by destruct m. Qed.

Lemma mask_cell n size : (size ≠ 0)%N → (mask_value n size / size = n / size)%N.
Proof. intros. unfold mask_value. by apply N.div_mul. Qed.

(** The cell of the upper half follows the cell of the lower one. *)
Lemma upper_cell n k : (n / 2 ^ (k + 1) * 2 ^ (k + 1) = n)%N →
  (n / 2 ^ k = 2 * (n / 2 ^ (k + 1)) ∧ N.setbit n k / 2 ^ k = 2 * (n / 2 ^ (k + 1)) + 1)%N.
Proof.
  intros Hn. set (m := (n / 2 ^ (k + 1))%N) in *.
  assert (Hdiv : (n / 2 ^ k = 2 * m)%N).
  { rewrite -Hn N.pow_add_r N.pow_1_r. replace (m * (2 ^ k * 2))%N with (2 * m * 2 ^ k)%N by ring. apply N.div_mul, N.pow_nonzero. done. }
  split; [done|]. rewrite -setbit_even -Hdiv -!N.shiftr_div_pow2. apply N.bits_inj. intros j.
  rewrite N.shiftr_spec'. destruct (decide (j = 0%N)) as [->|Hj].
  - by rewrite !N.setbit_eq.
  - rewrite !N.setbit_neq; [lia|lia|]. by rewrite N.shiftr_spec'.
Qed.

Lemma half_cells c m : (c / 2 = m ↔ c = 2 * m ∨ c = 2 * m + 1)%N.
Proof.
  split; [|intros [->| ->]].
  - intros <-. pose proof (N.Div0.div_mod c 2) as Hd. pose proof (N.mod_lt c 2 ltac:(done)) as Hm.
    destruct (decide (c mod 2 = 0)%N) as [Hz|Hz]; [left|right]; revert Hd Hm Hz; generalize (c mod 2)%N (c / 2)%N; lia.
  - by rewrite N.mul_comm N.div_mul.
  - symmetry. apply (N.div_unique _ _ _ 1%N); lia.
Qed.

Lemma masked_block a bits : has_zone a = false → (bits ≤ addr_width a)%N → block (Masked (Prefix a bits)).
Proof.
  intros Hz Hb. set (p := Prefix a bits).
  assert (Hm : Masked (Masked p) = Masked p).
  { assert (Hs : prefix_size (Masked p) = prefix_size p) by (unfold Masked, prefix_size, p; by destruct a).
    unfold Masked at 1. rewrite Hs. unfold Masked, p in *; destruct a; cbn; f_equal; f_equal; unfold mask_value; by rewrite N.div_mul; [apply size_pos|]. }
  split; [exact Hm| |]; unfold p; by destruct a.
Qed.

(** The two halves of a block that is not one address. *)
Lemma split_blocks p : block p → (prefix_bits p < addr_width (prefix_addr p))%N →
  let l := (splitMatcherPrefix p).1 in let r := (splitMatcherPrefix p).2 in
  block l ∧ block r ∧ prefix_bits l = (prefix_bits p + 1)%N ∧ prefix_bits r = (prefix_bits p + 1)%N ∧
  same_family (prefix_addr l) (prefix_addr p) ∧ same_family (prefix_addr r) (prefix_addr p) ∧
  ∀ a, prefix_contains p a = prefix_contains l a || prefix_contains r a.
Proof.
  intros Hp Hb l r. pose proof (block_zone _ Hp) as Hz.
  assert (Hl : block l) by (apply masked_block; [done|lia]).
  assert (Hr : block r) by (apply masked_block; destruct (prefix_addr p); cbn in *; try done; lia).
  assert (Hlf : same_family (prefix_addr l) (prefix_addr p)) by (unfold l, same_family; by destruct p as [[] ?]).
  assert (Hrf : same_family (prefix_addr r) (prefix_addr p)) by (unfold r, same_family; by destruct p as [[] ?]).
  assert (Hlb : prefix_bits l = (prefix_bits p + 1)%N) by (unfold l; by destruct p as [[] ?]).
  assert (Hrb : prefix_bits r = (prefix_bits p + 1)%N) by (unfold r; by destruct p as [[] ?]).
  split_and!; [done..|]. intros a. apply eq_true_iff_eq. rewrite orb_true_iff !contains_spec.
  set (k := (addr_width (prefix_addr p) - (prefix_bits p + 1))%N).
  assert (Hs : prefix_size p = (2 ^ (k + 1))%N) by (unfold prefix_size, k; f_equal; lia).
  assert (Hsl : prefix_size l = (2 ^ k)%N) by (unfold prefix_size; by rewrite Hlb (proj2 (family_width _ _) Hlf)).
  assert (Hsr : prefix_size r = (2 ^ k)%N) by (unfold prefix_size; by rewrite Hrb (proj2 (family_width _ _) Hrf)).
  destruct (upper_cell (addr_value (prefix_addr p)) k) as [Hlo Hhi]; [rewrite -Hs; exact (masked_value p Hp)|].
  assert (Hcl : cell l (prefix_addr l) = (2 * cell p (prefix_addr p))%N).
  { unfold cell. rewrite Hsl Hs -Hlo. unfold l. destruct p as [[n|n z] b]; apply mask_cell, N.pow_nonzero; done. }
  assert (Hcr : cell r (prefix_addr r) = (2 * cell p (prefix_addr p) + 1)%N).
  { unfold cell. rewrite Hsr Hs -Hhi. unfold r. destruct p as [[n|n z] b]; apply mask_cell, N.pow_nonzero; done. }
  assert (Hcp : cell p a = (cell l a / 2)%N) by (unfold cell; rewrite Hs Hsl N.Div0.div_div N.pow_add_r N.pow_1_r //).
  assert (Hrl : cell r a = cell l a) by (unfold cell; by rewrite Hsr Hsl).
  rewrite Hcl Hcr Hcp Hrl half_cells. unfold same_family in *. rewrite Hlf Hrf. tauto.
Qed.

(** ** The search for an uncovered address *)

Definition inside (p : netprefix) (covered : list netprefix) : Prop :=
  ∀ c, c ∈ covered → block c ∧ (prefix_bits p < prefix_bits c)%N ∧ prefix_contains p (prefix_addr c) = true.

Definition avoids (covered : list netprefix) (a : addr) : Prop := ∀ c, c ∈ covered → prefix_contains c a = false.

Definition settles_gap (p : netprefix) (covered : list netprefix) (found : option addr) : Prop :=
  match found with
  | Some a => prefix_contains p a = true ∧ avoids covered a
  | None => ∀ a, prefix_contains p a = true → ¬ avoids covered a
  end.

(** What the code passes down to a half. *)
Definition within (half : netprefix) (covered : list netprefix) : list netprefix :=
  filter (λ candidate, (prefix_bits half <? prefix_bits candidate)%N = true ∧ prefix_contains half (prefix_addr candidate) = true) covered.

Lemma within_inside half covered : (∀ c, c ∈ covered → block c) → inside half (within half covered).
Proof. intros Hc c [[Hb%N.ltb_lt Hi] Hin]%list_elem_of_filter. auto. Qed.

(** Inside a half that is not itself covered, only the blocks within it matter. *)
Lemma within_avoids p half covered a : block half → prefix_bits half = (prefix_bits p + 1)%N → inside p covered → half ∉ covered →
  prefix_contains half a = true → avoids (within half covered) a ↔ avoids covered a.
Proof.
  intros Hh Hb Hin Hnot Ha. split; intros Hav c Hc.
  - destruct (Hin c Hc) as (Hbl & Hlt & _). destruct (prefix_contains c a) eqn:Hca; [exfalso|done].
    destruct (decide (prefix_bits c = prefix_bits half)) as [Heq|Hne].
    + by rewrite (contains_same c half a Hbl Hh Heq Hca Ha) in Hc.
    + assert (Hi : prefix_contains half (prefix_addr c) = true)
        by (apply (contains_nested half c a); [done|lia|done|done|by apply contains_own]).
      rewrite (Hav c) in Hca; [|done]. apply list_elem_of_filter. split; [|done]. split; [apply N.ltb_lt; lia|done].
  - apply Hav. by apply list_elem_of_filter in Hc as [_ Hc].
Qed.

Lemma uncovered_address_settles fuel p covered : block p → inside p covered →
  (addr_width (prefix_addr p) - prefix_bits p ≤ N.of_nat fuel)%N → settles_gap p covered (uncovered_address fuel p covered).
Proof.
  revert p covered. induction fuel as [|fuel IH]; intros p covered Hp Hin Hf.
  all: destruct covered as [|c0 covered']; [cbn; split; [by apply contains_own|intros c Hc; by apply elem_of_nil in Hc]|];
    remember (c0 :: covered') as covered eqn:Hcov; assert (Hc0 : c0 ∈ covered) by (subst; left);
    destruct (Hin c0 Hc0) as (Hb0 & Hlt0 & (Hfam0 & _)%contains_spec);
    pose proof (block_bits _ Hb0) as Hw0; rewrite -(proj2 (family_width _ _) Hfam0) in Hw0.
  - rewrite Hcov. cbn. rewrite -Hcov. case_match eqn:E; [apply N.eqb_eq in E|]; lia.
  - destruct (split_blocks p Hp ltac:(lia)) as (Hl & Hr & Hlb & Hrb & Hlf & Hrf & Hsplit).
    assert (Hhalf : ∀ half, block half → prefix_bits half = (prefix_bits p + 1)%N → same_family (prefix_addr half) (prefix_addr p) →
      settles_gap half covered (if bool_decide (half ∈ covered) then None else uncovered_address fuel half (within half covered))).
    { intros half Hh Hhb Hhf. case_bool_decide as Hc.
      - intros a Ha Hav. by rewrite (Hav half Hc) in Ha.
      - pose proof (IH half (within half covered) Hh ltac:(by apply within_inside; intros c Hc'; apply (Hin c Hc'))) as IH'.
        rewrite (proj2 (family_width _ _) Hhf) in IH'. specialize (IH' ltac:(lia)). unfold settles_gap in *.
        destruct (uncovered_address fuel half (within half covered)) as [a|].
        + destruct IH' as [Ha Hav]. split; [done|]. by apply (within_avoids p half).
        + intros a Ha Hav. apply (IH' a Ha). by apply (within_avoids p half). }
    pose proof (Hhalf _ Hl Hlb Hlf) as H1. pose proof (Hhalf _ Hr Hrb Hrf) as H2. clear Hhalf.
    rewrite Hcov. cbn [uncovered_address]. rewrite -Hcov. rewrite (proj2 (N.eqb_neq _ _)); [lia|].
    fold (within (splitMatcherPrefix p).1 covered) (within (splitMatcherPrefix p).2 covered).
    destruct (if bool_decide ((splitMatcherPrefix p).1 ∈ covered) then _ else _) as [a|].
    + destruct H1 as [Ha Hav]. split; [by rewrite Hsplit Ha|done].
    + destruct (if bool_decide ((splitMatcherPrefix p).2 ∈ covered) then _ else _) as [a|].
      * destruct H2 as [Ha Hav]. split; [by rewrite Hsplit Ha orb_true_r|done].
      * intros a Ha. rewrite Hsplit in Ha. apply orb_true_iff in Ha as [Ha|Ha]; [by apply H1|by apply H2].
Qed.

(** ** What validation establishes *)

Definition valid_name (value : string) : Prop := validateDomain (indexPath "selectors" 0 +:+ ".value") value = Ok ().

Definition cidr_ok (ipv4 : bool) (value : string) : Prop :=
  ∃ p, ParsePrefix value = Some p ∧ prefix_string p = value ∧ block p ∧ Is4 (prefix_addr p) = ipv4.

Lemma parsed_block value p : ParsePrefix value = Some p → Masked p = p → block p.
Proof.
  unfold ParsePrefix. destruct (CutLast value _) as [[ip bits]|]; [|done]. cbn. destruct (ParseAddr ip) as [a|]; [|done]. cbn.
  destruct (has_zone a) eqn:Hz; [done|]. case_match; [done|]. destruct (Atoi bits) as [z|]; [|done]. cbn.
  destruct (_ || _) eqn:Hb; [done|]. intros [= <-] Hm. split; [done| |done]. bool_facts. cbn. lia.
Qed.

Lemma selector_ok kind value exclude : selector_Validate (MkSelector kind value exclude) = Ok () ↔
  match kind with
  | SelectorDomain | SelectorDomainSuffix => valid_name value
  | SelectorIPCIDR => ∃ ipv4, cidr_ok ipv4 value
  | SelectorUnsupported _ => False
  end.
Proof.
  unfold selector_Validate, validateSelectors, range. cbn [range_loop sel_Kind sel_Value]. set (key := selector_key _). clearbody key.
  assert (Hu : ∀ e, check_unique key e ∅ = Ok ({[key]} ∪ ∅)) by (intros e; unfold check_unique; by rewrite bool_decide_eq_false_2; [set_solver|]).
  assert (Hdone : ∀ (m : result unit), (_ ← (s' ← (m;; check_unique key (Invalid (indexPath "selectors" 0)) ∅); Ok s'); Ok ()) = Ok () ↔ m = Ok ()).
  { intros [[]|e]; cbn; [by rewrite Hu|done]. }
  destruct kind as [| | |raw]; [exact (Hdone _)|exact (Hdone _)| |by cbn].
  rewrite Hdone. destruct (ParsePrefix value) as [p|] eqn:Hp; [|split; [done|intros (ipv4 & q & Hq & _); congruence]].
  rewrite reject_ok orb_false_iff !negb_false_iff String.eqb_eq bool_decide_eq_true. split.
  - intros [Hs Hm]. exists (Is4 (prefix_addr p)), p. split_and!; [done|done|by eapply parsed_block|done].
  - intros (ipv4 & q & Hq & Hs & Hb & _). assert (q = p) as -> by congruence. split; [done|]. apply Hb.
Qed.

Lemma sorted_loop_ok (values : list string) (check : string → result unit) e :
  range_check (λ index value, check value;; reject (string_unsorted values index value) e) values = Ok () →
  StronglySorted str_lt values ∧ ∀ v, v ∈ values → check v = Ok ().
Proof.
  intros Hr. assert (Hc := proj1 (range_check_ok _ _ _) Hr). clear Hr. split.
  - rewrite -(list_fmap_id values). apply (ascending_from_checks id). intros i x y Hx Hy. specialize (Hc (S i) y Hy).
    apply bind_ok in Hc as (_ & _ & Hc%reject_ok). cbn in Hc. by rewrite Hx in Hc.
  - intros v [i Hi]%list_elem_of_lookup. specialize (Hc i v Hi). by apply bind_ok in Hc as ([] & Hc & _).
Qed.

Lemma domains_ok kind values : kind = SelectorDomain ∨ kind = SelectorDomainSuffix → validateSortedMatcherDomains kind values = Ok () →
  StronglySorted str_lt values ∧ ∀ v, v ∈ values → valid_name v.
Proof.
  intros Hk Hv. apply sorted_loop_ok in Hv as [Hs Hv]. split; [done|]. intros v Hin. specialize (Hv v Hin). apply wrap_ok, selector_ok in Hv.
  by destruct Hk as [-> | ->].
Qed.

Lemma cidrs_ok values ipv4 : validateSortedMatcherCIDRs values ipv4 = Ok () → StronglySorted str_lt values ∧ ∀ v, v ∈ values → cidr_ok ipv4 v.
Proof.
  intros Hv. apply sorted_loop_ok in Hv as [Hs Hv]. split; [done|]. intros v Hin. specialize (Hv v Hin). apply reject_ok in Hv.
  destruct (ParsePrefix v) as [p|] eqn:Hp; [|done]. bool_facts. exists p. split_and!; [done|by apply String.eqb_eq|by eapply parsed_block|by apply eqb_prop].
Qed.

(** The fields of the terms of a valid clause. *)
Record terms_ok (terms : MatcherTerms) : Prop := {
  terms_domains : StronglySorted str_lt (items (mt_Domains terms)) ∧ ∀ v, v ∈ items (mt_Domains terms) → valid_name v;
  terms_suffixes : StronglySorted str_lt (items (mt_DomainSuffixes terms)) ∧ ∀ v, v ∈ items (mt_DomainSuffixes terms) → valid_name v;
  terms_ipv4 : StronglySorted str_lt (items (mt_IPv4CIDRs terms)) ∧ ∀ v, v ∈ items (mt_IPv4CIDRs terms) → cidr_ok true v;
  terms_ipv6 : StronglySorted str_lt (items (mt_IPv6CIDRs terms)) ∧ ∀ v, v ∈ items (mt_IPv6CIDRs terms) → cidr_ok false v
}.

Lemma mt_validate_ok terms n : mt_validate terms = Ok n → terms_ok terms.
Proof.
  intros ([] & _ & ([] & H1 & ([] & H2 & ([] & H3 & ([] & H4 & _)%bind_ok)%bind_ok)%bind_ok)%bind_ok)%bind_ok. split.
  - exact (domains_ok _ _ (or_introl eq_refl) H1).
  - exact (domains_ok _ _ (or_intror eq_refl) H2).
  - exact (cidrs_ok _ _ H3).
  - exact (cidrs_ok _ _ H4).
Qed.

Lemma elem_of_all_values field ir v : v ∈ all_values field ir ↔
  ∃ clause, clause ∈ items (ir_Clauses ir) ∧ (v ∈ items (field (mc_Includes clause)) ∨ v ∈ items (field (mc_Excludes clause))).
Proof.
  unfold all_values. rewrite list_elem_of_bind. setoid_rewrite list_elem_of_bind. split.
  - intros (clause & (terms & Hv & Ht) & Hc). exists clause. split; [done|]. set_solver.
  - intros (clause & Hc & [Hv|Hv]); exists clause; (split; [|done]); eexists; (split; [exact Hv|]); set_solver.
Qed.

Lemma ir_terms_ok ir clause : ir_Validate ir = Ok () → clause ∈ items (ir_Clauses ir) → terms_ok (mc_Includes clause) ∧ terms_ok (mc_Excludes clause).
Proof.
  unfold ir_Validate. intros H [i Hi]%list_elem_of_lookup. ok_inv H. pose proof (proj1 (range_check_ok _ _ _) H i clause Hi) as Hc.
  cbn beta in Hc. ok_inv Hc. split; by eapply mt_validate_ok.
Qed.

Lemma all_values_ok {field ir} (P : string → Prop) v : ir_Validate ir = Ok () →
  (∀ terms, terms_ok terms → ∀ v, v ∈ items (field terms) → P v) → v ∈ all_values field ir → P v.
Proof.
  intros Hir HP (clause & Hc & Hv)%elem_of_all_values. destruct (ir_terms_ok ir clause Hir Hc) as [Hi He]. destruct Hv as [Hv|Hv]; [exact (HP _ Hi v Hv)|exact (HP _ He v Hv)].
Qed.

(** ** Address rules decide as the clauses *)

Lemma must_parse ipv4 value : cidr_ok ipv4 value →
  let p := MustParsePrefix value in block p ∧ Is4 (prefix_addr p) = ipv4 ∧ MustParsePrefix (prefix_string p) = p.
Proof. intros (p & Hp & Hs & Hb & Hf). unfold MustParsePrefix. rewrite Hp. cbn. by rewrite Hs Hp. Qed.

(** The values of the family of an address. *)
Definition family_values (ipv4 : bool) (ir : MatcherIR) : list string :=
  if ipv4 then all_values mt_IPv4CIDRs ir else all_values mt_IPv6CIDRs ir.

Lemma family_values_ok ir ipv4 v : ir_Validate ir = Ok () → v ∈ family_values ipv4 ir → cidr_ok ipv4 v.
Proof.
  intros Hir. destruct ipv4; apply (all_values_ok (cidr_ok _)); try done; intros terms Ht; apply Ht.
Qed.

(** Clauses only see which of their prefixes contain an address. *)
Lemma selectsIP_agree ir a b : Is4 a = Is4 b →
  (∀ v, v ∈ family_values (Is4 a) ir → prefix_contains (MustParsePrefix v) a = prefix_contains (MustParsePrefix v) b) →
  ir_selectsIP ir a = ir_selectsIP ir b.
Proof.
  intros Hf Hv. unfold ir_selectsIP.
  assert (Hm : ∀ clause terms, clause ∈ items (ir_Clauses ir) → terms = mc_Includes clause ∨ terms = mc_Excludes clause → matchesIP terms a = matchesIP terms b).
  { intros clause terms Hc Ht. unfold matchesIP. rewrite -Hf. set (l := items _). assert (Hl : ∀ v, v ∈ l → v ∈ family_values (Is4 a) ir).
    { intros v Hin. unfold l in Hin. destruct (Is4 a); cbn; apply elem_of_all_values; exists clause; destruct Ht; subst; auto. }
    clearbody l. induction l as [|v l IH]; [done|]. cbn. rewrite (Hv v); [apply Hl; left|]. rewrite IH; [|done]. intros w Hw. apply Hl. by right. }
  induction (items (ir_Clauses ir)) as [|clause clauses IH]; [done|]. cbn.
  rewrite !(Hm clause); [left|auto|left|auto|]. rewrite IH; [|done]. intros c t Hc. apply Hm. by right.
Qed.

Lemma selectsIP_none ir a : (∀ v, v ∈ family_values (Is4 a) ir → prefix_contains (MustParsePrefix v) a = false) → ir_selectsIP ir a = false.
Proof.
  intros Hv. unfold ir_selectsIP. apply not_true_is_false. intros (clause & Hc & [Hm _]%andb_true_iff)%existsb_exists.
  apply existsb_exists in Hm as (v & Hin & Hco). rewrite Hv in Hco; [|done].
  apply list_elem_of_In in Hc, Hin. destruct (Is4 a); cbn; apply elem_of_all_values; eauto.
Qed.

(** The prefixes a family is compiled from. *)
Definition family_prefixes (values : list string) : list netprefix :=
  merge_sort prefix_le (snd <$> map_to_list (foldl (λ m value, <[value := MustParsePrefix value]> m) (∅ : gmap string netprefix) values)).

Lemma foldl_values_lookup values (m : gmap string netprefix) v p :
  (foldl (λ m value, <[value := MustParsePrefix value]> m) m values : gmap string netprefix) !! v = Some p ↔
  (v ∈ values ∧ p = MustParsePrefix v) ∨ ((v ∉ values) ∧ m !! v = Some p).
Proof.
  revert m. induction values as [|w values IH]; intros m; cbn.
  - split; [intros H; right; split; [by apply not_elem_of_nil|done]|]. by intros [[[]%elem_of_nil _]|[_ ?]].
  - rewrite IH elem_of_cons. destruct (decide (v = w)) as [->|Hne]; [rewrite lookup_insert_eq|rewrite lookup_insert_ne //].
    + destruct (decide (w ∈ values)); naive_solver.
    + naive_solver.
Qed.

Lemma elem_of_family_prefixes values p : p ∈ family_prefixes values ↔ ∃ v, v ∈ values ∧ p = MustParsePrefix v.
Proof.
  unfold family_prefixes. rewrite merge_sort_Permutation list_elem_of_fmap. split.
  - intros ([v q] & -> & Hin%elem_of_map_to_list). apply foldl_values_lookup in Hin as [[? ->]|[_ Hin]]; [by exists v|]. by rewrite lookup_empty in Hin.
  - intros (v & Hv & ->). exists (v, MustParsePrefix v). split; [done|]. apply elem_of_map_to_list, foldl_values_lookup. by left.
Qed.

#[export] Instance prefix_le_trans : Transitive prefix_le.
Proof.
  intros p q r. unfold prefix_le, prefix_less.
  destruct (N.eqb_spec (prefix_bits q) (prefix_bits p)), (N.eqb_spec (prefix_bits r) (prefix_bits q)), (N.eqb_spec (prefix_bits r) (prefix_bits p));
    cbn; rewrite ?N.ltb_ge; lia.
Qed.
#[export] Instance prefix_le_total : Total prefix_le.
Proof.
  intros p q. unfold prefix_le, prefix_less. rewrite (N.eqb_sym (prefix_bits p)).
  destruct (N.eqb_spec (prefix_bits q) (prefix_bits p)); cbn; rewrite !N.ltb_ge; lia.
Qed.

Lemma family_prefixes_ranked values : StronglySorted (λ x y, (prefix_bits y ≤ prefix_bits x)%N) (family_prefixes values).
Proof.
  assert (Hs : StronglySorted prefix_le (family_prefixes values)) by apply (StronglySorted_merge_sort _ _).
  induction Hs as [|p l Hl IH Hp]; constructor; [done|]. eapply Forall_impl; [exact Hp|]. intros q. unfold prefix_le, prefix_less.
  destruct (N.eqb_spec (prefix_bits q) (prefix_bits p)); cbn; rewrite ?N.ltb_ge; lia.
Qed.

(** The rules of a family decide as the clauses. *)
Lemma family_decides ir a : ir_Validate ir = Ok () → has_zone a = false →
  first_decision (λ rule, prefix_contains (MustParsePrefix (rule_Value rule)) a) (compile_family ir (family_values (Is4 a) ir)) = ir_selectsIP ir a.
Proof.
  intros Hir Hz. set (values := family_values (Is4 a) ir). unfold compile_family. fold (family_prefixes values).
  assert (Hok : ∀ p, p ∈ family_prefixes values → block p ∧ Is4 (prefix_addr p) = Is4 a ∧ MustParsePrefix (prefix_string p) = p).
  { intros p (v & Hv & ->)%elem_of_family_prefixes. by eapply must_parse, family_values_ok. }
  apply (first_decision_ranked _ _ (λ p, prefix_contains p a) prefix_bits).
  - intros p r Hp (probe & _ & ->)%fmap_Some. cbn [rule_Value]. by destruct (Hok p Hp) as (_ & _ & ->).
  - intros p Hp Ha Hmax. fold (within p (family_prefixes values)). destruct (Hok p Hp) as (Hb & Hf & _).
    assert (Hin : inside p (within p (family_prefixes values))) by (apply within_inside; intros c Hc; apply (Hok c Hc)).
    pose proof (uncovered_address_settles (N.to_nat (addr_width (prefix_addr p))) p _ Hb Hin ltac:(lia)) as Hgap.
    change (settles_gap p (within p (family_prefixes values)) (uncoveredMatcherAddress p (within p (family_prefixes values)))) in Hgap.
    destruct (uncoveredMatcherAddress p _) as [probe|]; [destruct Hgap as [Hpr Hav]|].
    + eexists. split; [done|]. cbn. symmetry. pose proof (proj1 (contains_spec _ _) Hpr) as (Hfp & Hzp & _). unfold same_family in Hfp.
      apply selectsIP_agree; [congruence|]. intros v Hv. assert (Hq : MustParsePrefix v ∈ family_prefixes values) by (apply elem_of_family_prefixes; eauto).
      set (q := MustParsePrefix v) in *. destruct (Hok q Hq) as (Hbq & Hfq & _). apply eq_true_iff_eq.
      destruct (decide (prefix_bits q ≤ prefix_bits p)%N) as [Hle|Hgt].
      * split; intros Hc; (eapply (contains_nested q p); [done|done|exact Hc|done|done]).
      * split; intros Hc; exfalso; [specialize (Hmax q Hq Hc); lia|].
        assert (Hav' := Hav q). rewrite Hc in Hav'. discriminate Hav'. apply list_elem_of_filter. split; [|done]. split; [apply N.ltb_lt; lia|].
        eapply (contains_nested p q); [done|lia|exact Hpr|done|by apply contains_own].
    + exfalso. apply (Hgap a Ha). intros c [[Hlt%N.ltb_lt _] Hc]%list_elem_of_filter. destruct (prefix_contains c a) eqn:Hca; [|done].
      specialize (Hmax c Hc Hca). lia.
  - apply family_prefixes_ranked.
  - intros Hno. apply selectsIP_none. intros v Hv. apply Hno, elem_of_family_prefixes. eauto.
Qed.

(** * Matchers: names, their suffixes and probes

    A name is under its suffixes, which form a chain ordered by the number of labels.  A
    probe under a suffix that no other term covers is found whenever the suffix has no wider
    suffix among the terms; otherwise none is. *)

(** ** Strings *)

Lemma HasSuffix_spec s p : HasSuffix s p = true ↔ ∃ x, s = x +:+ p.
Proof.
  induction s as [|c s IH]; cbn [HasSuffix]; rewrite orb_true_iff String.eqb_eq.
  - split; [intros [<-|?]; [by exists ""|done]|]. intros ([|? ?] & Hx); [by left|done].
  - rewrite IH. split.
    + intros [<-|(x & ->)]; [by exists ""|by exists (String c x)].
    + intros ([|d x] & Hx); [by left|]. right. injection Hx as _ Hx. by exists x.
Qed.

Lemma app_aligned (x y s t : string) : x +:+ s = y +:+ t → (∃ z, s = z +:+ t) ∨ (∃ z, t = z +:+ s).
Proof.
  revert y. induction x as [|c x IH]; intros y H.
  - left. by exists y.
  - destruct y as [|d y]; [right; by exists (String c x)|]. injection H as _ H. by apply (IH y).
Qed.

Lemma str_length_app (s t : string) : String.length (s +:+ t) = (String.length s + String.length t)%nat.
Proof. induction s as [|c s IH]; [done|]. by rewrite str_app_cons; cbn; rewrite IH. Qed.

Lemma Count_cons c s : Count (String c s) "." = ((if Ascii.eqb c "." then 1 else 0) + Count s ".")%nat.
Proof.
  unfold Count. cbn [String.length count_loop]. unfold HasPrefix. cbn [String.prefix drop_chars String.length].
  destruct (Ascii.ascii_dec "." c) as [<-|Hne]; [rewrite Ascii.eqb_refl; by destruct s|].
  assert (E : Ascii.eqb c "." = false) by (apply Ascii.eqb_neq; congruence). by rewrite E.
Qed.

Lemma Count_app s t : Count (s +:+ t) "." = (Count s "." + Count t ".")%nat.
Proof. induction s as [|c s IH]; [done|]. rewrite str_app_cons !Count_cons IH. lia. Qed.

(** ** Suffixes of names *)

Lemma under_spec d s : under_suffix d s = true ↔ d = s ∨ ∃ x, d = x +:+ "." +:+ s.
Proof. unfold under_suffix. by rewrite orb_true_iff String.eqb_eq HasSuffix_spec. Qed.

Lemma under_refl s : under_suffix s s = true.
Proof. apply under_spec. by left. Qed.

Lemma under_trans a b c : under_suffix a b = true → under_suffix b c = true → under_suffix a c = true.
Proof.
  rewrite !under_spec. intros [->|(x & ->)] [->|(y & ->)]; [by left|right; by exists y|right; by exists x|].
  right. exists (x +:+ "." +:+ y). by rewrite !str_app_assoc.
Qed.

Lemma dot_app s : "." +:+ s = String "." s.
Proof. done. Qed.

(** Two suffixes of a name are comparable. *)
Lemma under_chain d s t : under_suffix d s = true → under_suffix d t = true → under_suffix s t = true ∨ under_suffix t s = true.
Proof.
  rewrite !under_spec. intros [->|(x & ->)]; [auto|]. intros [<-|(y & Hy)]; [right; eauto|]. rewrite !dot_app in Hy. apply app_aligned in Hy as [(z & Hz)|(z & Hz)].
  - destruct z as [|c z]; [rewrite str_app_nil_l in Hz; injection Hz as ->; by left; left|]. rewrite str_app_cons in Hz. injection Hz as _ ->. left. right. by exists z.
  - destruct z as [|c z]; [rewrite str_app_nil_l in Hz; injection Hz as ->; by left; left|]. rewrite str_app_cons in Hz. injection Hz as _ ->. right. right. by exists z.
Qed.

Lemma under_labels d s : under_suffix d s = true → d = s ∨ (Count s "." < Count d ".")%nat.
Proof. intros [->|(x & ->)]%under_spec; [by left|]. right. rewrite dot_app Count_app Count_cons. cbn. lia. Qed.

Lemma under_child label suffix s : str_exists (λ c, Ascii.eqb c ".") label = false → under_suffix (label +:+ "." +:+ suffix) s = true →
  s = label +:+ "." +:+ suffix ∨ under_suffix suffix s = true.
Proof.
  intros Hl Hs. destruct (under_chain _ s suffix Hs) as [Hc|Hc]; [apply under_spec; right; by exists label| |by right].
  apply under_spec in Hc as [->|(x & ->)]; [right; apply under_refl|]. apply under_spec in Hs as [Hs|(y & Hs)]; [by left|].
  exfalso. apply (f_equal (λ t, Count t ".")) in Hs. rewrite !Count_app in Hs.
  assert (Hz : Count label "." = 0%nat).
  { clear -Hl. induction label as [|c label IH]; [done|]. cbn in Hl. apply orb_false_iff in Hl as [Hc Hl]. by rewrite Count_cons Hc IH. }
  assert (Hd : Count "." "." = 1%nat) by done. rewrite Hz Hd in Hs. lia.
Qed.

(** ** Names with one more label *)

Definition label_ok (label : string) : Prop :=
  label ≠ "" ∧ (String.length label ≤ 63)%nat ∧ head_char label ≠ Some "-"%char ∧ last_char label ≠ Some "-"%char ∧
  str_forall (λ c, lower_alnum c || Ascii.eqb c "-"%char) label = true.

Lemma valid_name_spec v : valid_name v ↔
  v ≠ "" ∧ v = ToLower v ∧ (String.length v ≤ 253)%nat ∧ HasPrefix v "." = false ∧ HasSuffix v "." = false ∧
  ∀ label, label ∈ Split v "."%char → label_ok label.
Proof.
  unfold valid_name, validateDomain. generalize (indexPath "selectors" 0 +:+ ".value") as path. intros path. rewrite bind_ok. split.
  - intros ([] & H1%reject_ok & H2). bool_facts. split_and!; [by apply String.eqb_neq|by apply String.eqb_eq|by apply Nat.ltb_ge|done|done|].
    intros label [i Hi]%list_elem_of_lookup. pose proof (proj1 (range_check_ok _ _ _) H2 i label Hi) as Hl. cbn beta in Hl.
    apply bind_ok in Hl as ([] & Hl%reject_ok & Hc%reject_ok). bool_facts.
    split_and!; [by apply String.eqb_neq|by apply Nat.ltb_ge|done|done|done].
  - intros (Hne & Hlow & Hlen & Hp & Hs & Hl). exists (). split.
    + apply reject_ok. rewrite Hp Hs !orb_false_iff. split_and!; [by apply String.eqb_neq| |by apply Nat.ltb_ge|done|done].
      apply negb_false_iff. by apply String.eqb_eq.
    + apply range_check_ok. intros i label Hi. destruct (Hl label) as (H1 & H2 & H3 & H4 & H5); [by eapply list_elem_of_lookup_2|].
      apply bind_ok. exists (). split; apply reject_ok; [|by rewrite H5].
      rewrite !bool_decide_eq_false_2 // !orb_false_iff. split_and!; [by apply String.eqb_neq|by apply Nat.ltb_ge|done|done].
Qed.

Lemma ToLower_app s t : ToLower (s +:+ t) = ToLower s +:+ ToLower t.
Proof. induction s as [|c s IH]; [done|]. rewrite str_app_cons. cbn [ToLower]. by rewrite IH. Qed.

(** A label of a letter and digits. *)
Definition plain_label (label : string) : Prop := ∃ c s, label = String c s ∧ lower_alpha c = true ∧ str_forall is_digit s = true.

Lemma lower_alnum_plain c : lower_alnum c = true → lower_char c = c ∧ Ascii.eqb c "."%char = false ∧ c ≠ "-"%char.
Proof. destruct c as [[] [] [] [] [] [] [] []]; vm_compute; split_and?; done. Qed.

Lemma plain_label_chars label : plain_label label → str_forall lower_alnum label = true ∧ label ≠ "".
Proof.
  intros (c & s & -> & Hc & Hs). split; [|done]. cbn. unfold lower_alnum at 1. rewrite Hc. cbn.
  apply (str_forall_impl is_digit); [|done]. intros d Hd. unfold lower_alnum. by rewrite Hd orb_true_r.
Qed.

Lemma plain_label_no_dot label : plain_label label → str_exists (λ c, Ascii.eqb c "."%char) label = false.
Proof. intros [Hc _]%plain_label_chars. by apply (str_forall_not_exists lower_alnum); [|done]; intros c (_ & ? & _)%lower_alnum_plain. Qed.

Lemma plain_label_ok label : plain_label label → (String.length label ≤ 63)%nat → label_ok label.
Proof.
  intros [Hc Hne]%plain_label_chars Hlen. split_and!; [done|done| | |].
  - destruct label as [|c s]; [done|]. cbn in *. apply andb_true_iff in Hc as [(_ & _ & Hc)%lower_alnum_plain _]. congruence.
  - intros Hl. apply (str_forall_last _ _ _ Hc) in Hl. by apply lower_alnum_plain in Hl as (_ & _ & ?).
  - apply (str_forall_impl lower_alnum); [|done]. intros c ->. done.
Qed.

Lemma plain_label_lower label : plain_label label → ToLower label = label.
Proof.
  intros [Hc _]%plain_label_chars. induction label as [|c s IH]; [done|]. cbn in *. apply andb_true_iff in Hc as [(Hl & _)%lower_alnum_plain Hs].
  by rewrite Hl IH.
Qed.

Lemma child_valid label suffix : plain_label label → (String.length label ≤ 63)%nat → valid_name suffix →
  (String.length label + 1 + String.length suffix ≤ 253)%nat → valid_name (label +:+ "." +:+ suffix).
Proof.
  intros Hp Hl (Hne & Hlow & Hlen & _ & Hs & Hlabels)%valid_name_spec Htotal. apply valid_name_spec.
  pose proof (plain_label_no_dot _ Hp) as Hdot. split_and!.
  - by destruct Hp as (c & s & -> & _).
  - rewrite dot_app !ToLower_app plain_label_lower //. cbn [ToLower]. by rewrite -Hlow.
  - rewrite !str_length_app. cbn [String.length]. lia.
  - destruct Hp as (c & s & -> & Hc & _). rewrite str_app_cons. unfold HasPrefix. cbn. case_match; [subst; done|done].
  - apply not_true_is_false. intros (x & Hx)%HasSuffix_spec. rewrite -str_app_assoc in Hx. apply app_aligned in Hx as [(z & ->)|(z & Hz)].
    + apply not_true_iff_false in Hs. apply Hs, HasSuffix_spec. by exists z.
    + destruct z as [|c z]; [rewrite str_app_nil_l in Hz; by subst|]. rewrite str_app_cons in Hz. injection Hz as _ Hz. by destruct z, suffix.
  - rewrite dot_app split_app_sep //. intros l [->|Hin]%elem_of_cons; [by apply plain_label_ok|by apply Hlabels].
Qed.

(** ** Probes *)

Lemma app_cancel_r (x y s : string) : x +:+ s = y +:+ s → x = y.
Proof.
  intros H. assert (Hl := f_equal String.length H). rewrite !str_length_app in Hl. revert y H Hl.
  induction x as [|c x IH]; intros [|d y] H Hl; cbn in Hl; [done|lia|lia|]. rewrite !str_app_cons in H. injection H as -> H. f_equal. apply IH; [done|lia].
Qed.

Definition numbered (suffix : string) (index : nat) : string := ("v" +:+ itoa (N.of_nat index)) +:+ "." +:+ suffix.

Lemma numbered_plain index : plain_label ("v" +:+ itoa (N.of_nat index)).
Proof. exists "v"%char, (itoa (N.of_nat index)). split_and!; [done|done|apply itoa_digits]. Qed.

Lemma numbered_inj suffix i j : numbered suffix i = numbered suffix j → i = j.
Proof.
  intros Hr%app_cancel_r. rewrite !str_app_cons !str_app_nil_l in Hr. injection Hr as Hr. apply itoa_inj in Hr. by apply Nat2N.inj.
Qed.

(** The terms of a compiled set. *)
Section probes.
Context (suffix : string) (exact suffixes : gset string).

Lemma letters_no_dot label count : label ∈ probe_labels count → str_exists (λ c, Ascii.eqb c "."%char) label = false.
Proof.
  unfold probe_labels. rewrite !elem_of_app. intros [H|[H|H]].
  - assert (Hall : Forall (λ l, str_exists (λ c, Ascii.eqb c "."%char) l = false) (letters 97 122)) by (by vm_compute; repeat constructor).
    rewrite Forall_forall in Hall. by apply Hall.
  - assert (Hall : Forall (λ l, str_exists (λ c, Ascii.eqb c "."%char) l = false) (letters 48 57)) by (by vm_compute; repeat constructor).
    rewrite Forall_forall in Hall. by apply Hall.
  - apply list_elem_of_fmap in H as (index & -> & _). apply plain_label_no_dot, numbered_plain.
Qed.

(** A probe is under its suffix and, apart from it, under no suffix that is not wider. *)
Lemma probe_sound probe : uncoveredDomainForMatcherSuffix suffix exact suffixes = Some probe →
  under_suffix probe suffix = true ∧ (probe ∉ exact) ∧
  (((suffix ∉ exact) ∧ probe = suffix) ∨ (suffix ∈ exact) ∧ ∀ t, t ∈ suffixes → t ≠ suffix → under_suffix probe t = false).
Proof.
  unfold uncoveredDomainForMatcherSuffix. case_bool_decide as Hin; cbn [negb]; [|intros [= <-]; split_and!; [apply under_refl|done|by left]].
  intros (Hp & Hc)%find_some. apply list_elem_of_In, list_elem_of_fmap in Hp as (label & -> & Hl). bool_facts.
  split_and!; [apply under_spec; right; by exists label|done|]. right. split; [done|]. intros t Ht Hne.
  apply not_true_is_false. intros Hu. match goal with H : existsb _ _ = false |- _ => apply not_true_iff_false in H; apply H end.
  apply existsb_exists. exists t. split; [by apply list_elem_of_In, elem_of_elements|]. apply andb_true_iff. split; [|done].
  apply negb_true_iff. by apply String.eqb_neq.
Qed.

(** A listed suffix with a wider one gets no probe. *)
Lemma probe_shadowed t : suffix ∈ exact → t ∈ suffixes → t ≠ suffix → under_suffix suffix t = true →
  uncoveredDomainForMatcherSuffix suffix exact suffixes = None.
Proof.
  intros Hin Ht Hne Hu. destruct (uncoveredDomainForMatcherSuffix _ _ _) as [probe|] eqn:Hp; [exfalso|done].
  apply probe_sound in Hp as (Hps & _ & [[? _]|[_ Hp]]); [done|]. specialize (Hp t Ht Hne).
  by rewrite (under_trans _ _ _ Hps Hu) in Hp.
Qed.

(** Otherwise there are more numbered labels than terms. *)
Lemma probe_found : valid_name suffix → (String.length suffix ≤ 240)%nat → (N.of_nat (size exact + size suffixes) < 10 ^ 11)%N →
  (∀ t, t ∈ suffixes → under_suffix suffix t = true → t = suffix) → ∃ probe, uncoveredDomainForMatcherSuffix suffix exact suffixes = Some probe.
Proof.
  intros Hv Hlen Hcount Hwide. destruct (uncoveredDomainForMatcherSuffix _ _ _) as [probe|] eqn:Hp; [by exists probe|exfalso].
  unfold uncoveredDomainForMatcherSuffix in Hp. case_bool_decide as Hin; cbn [negb] in Hp; [|done]. set (count := (size exact + size suffixes)%nat) in *.
  set (K := numbered suffix <$> seq 0 (S count)).
  assert (Hsub : K ⊆ elements exact ++ elements suffixes).
  { intros k (index & -> & Hi%elem_of_seq)%list_elem_of_fmap. apply elem_of_app. rewrite !elem_of_elements.
    assert (Hl : (String.length (itoa (N.of_nat index)) ≤ 11)%nat) by (apply itoa_length; [lia|]; change (N.of_nat 11) with 11%N; lia).
    assert (Hvalid : valid_name (numbered suffix index)).
    { apply child_valid; [apply numbered_plain|cbn [String.length String.append]; rewrite ?str_length_app; cbn; lia|done|]. rewrite str_length_app. cbn [String.length]. lia. }
    assert (Hk : In (numbered suffix index) ((λ label, label +:+ "." +:+ suffix) <$> probe_labels count)).
    { apply list_elem_of_In, list_elem_of_fmap. eexists. split; [done|]. unfold probe_labels. rewrite !elem_of_app. right. right.
      apply list_elem_of_fmap. exists index. split; [done|]. apply elem_of_seq. lia. }
    pose proof (find_none _ _ Hp _ Hk) as Hf. cbn beta in Hf. rewrite (proj2 (selector_ok SelectorDomain _ _) Hvalid) in Hf. cbn [is_ok andb] in Hf.
    apply andb_false_iff in Hf as [Hf|Hf]; [left; by apply negb_false_iff, bool_decide_eq_true in Hf|right].
    apply negb_false_iff, existsb_exists in Hf as (t & Ht & [Hne Hu]%andb_true_iff). apply list_elem_of_In, elem_of_elements in Ht.
    apply negb_true_iff, String.eqb_neq in Hne. apply under_child in Hu as [Heq|Hu]; [by rewrite /numbered -Heq|by rewrite (Hwide t Ht Hu) in Hne|].
    apply plain_label_no_dot, numbered_plain. }
  assert (Hnd : NoDup K) by (apply NoDup_fmap_2_strong; [intros i j _ _; apply numbered_inj|apply NoDup_seq]).
  pose proof (submseteq_length _ _ (NoDup_submseteq _ _ Hnd Hsub)) as Hle.
  unfold K in Hle. rewrite length_fmap length_seq length_app in Hle. unfold count in Hle. unfold size, set_size in Hle. cbn in Hle. lia.
Qed.
End probes.
