(* ===== verification/MatcherClaims.v ===== *)
(** * Matchers: what the compiled rules decide

    The clauses decide as the composition of presets they are compiled from, and the ordered
    rules of every target decide as the clauses: for all addresses, and for all names when the
    lists are separable.  A suffix that is also listed as a name and lies under a wider
    suffix gets no rule, and unlisted names directly below it are decided by the wider one.  The second half follows
    the decisions back to the preset documents. *)

From S2P Require Import Prelude GoText GoConv GoNet GoTime Types Checks Ordered Resources Preset Matcher MatcherFacts.

Local Open Scope string_scope.
Local Open Scope list_scope.

(** ** Name rules decide as the clauses *)

Lemma existsb_ext {A} (f g : A → bool) l : (∀ x, x ∈ l → f x = g x) → existsb f l = existsb g l.
Proof. induction l as [|x l IH]; intros H; cbn; [done|]. rewrite H; [left|]. rewrite IH; [|done]. intros y Hy. apply H. by right. Qed.

(** The values of a field, as the sets of the compiler. *)
Abbreviation exacts ir := (all_values mt_Domains ir).
Abbreviation wides ir := (all_values mt_DomainSuffixes ir).

(** Clauses only see whether a name is listed and the suffixes it is under. *)
Lemma selectsDomain_agree ir d p : (∀ v, v ∈ exacts ir → String.eqb d v = String.eqb p v) →
  (∀ t, t ∈ wides ir → under_suffix d t = under_suffix p t) → ir_selectsDomain ir d = ir_selectsDomain ir p.
Proof.
  intros He Hs. unfold ir_selectsDomain. apply existsb_ext. intros clause Hc.
  assert (Hm : ∀ terms, terms = mc_Includes clause ∨ terms = mc_Excludes clause → matchesDomain terms d = matchesDomain terms p).
  { intros terms Ht. unfold matchesDomain. f_equal; apply existsb_ext; intros v Hv; [apply He|apply Hs];
      apply elem_of_all_values; exists clause; destruct Ht; subst; auto. }
  rewrite !Hm; auto.
Qed.

Lemma selectsDomain_none ir d : (d ∉ exacts ir) → (∀ t, t ∈ wides ir → under_suffix d t = false) → ir_selectsDomain ir d = false.
Proof.
  intros He Hs. apply not_true_is_false. intros (clause & Hc%list_elem_of_In & [Hm _]%andb_true_iff)%existsb_exists.
  apply orb_true_iff in Hm as [(v & Hv%list_elem_of_In & Hd)%existsb_exists|(v & Hv%list_elem_of_In & Hd)%existsb_exists].
  - apply String.eqb_eq in Hd as <-. apply He, elem_of_all_values. eauto.
  - rewrite Hs in Hd; [|done]. apply elem_of_all_values. eauto.
Qed.

#[export] Instance suffix_le_trans : Transitive suffix_le.
Proof.
  intros p q r. unfold suffix_le, suffix_less.
  destruct (Nat.eqb_spec (Count q ".") (Count p ".")), (Nat.eqb_spec (Count r ".") (Count q ".")), (Nat.eqb_spec (Count r ".") (Count p "."));
    cbn [negb]; rewrite ?Nat.ltb_ge; try lia.
  destruct (Nat.eqb_spec (String.length q) (String.length p)), (Nat.eqb_spec (String.length r) (String.length q)), (Nat.eqb_spec (String.length r) (String.length p));
    cbn [negb]; rewrite ?Nat.ltb_ge -?not_true_iff_false ?str_ltb_spec; try lia.
  intros Hqp Hrq Hrp. destruct (str_trichotomy q p) as [->|[?|H]]; [done|done|]. apply Hrq. by etrans.
Qed.
#[export] Instance suffix_le_total : Total suffix_le.
Proof.
  intros p q. unfold suffix_le, suffix_less. rewrite (Nat.eqb_sym (Count p ".")) (Nat.eqb_sym (String.length p)).
  destruct (Nat.eqb_spec (Count q ".") (Count p ".")); cbn [negb]; rewrite ?Nat.ltb_ge; [|lia].
  destruct (Nat.eqb_spec (String.length q) (String.length p)); cbn [negb]; rewrite ?Nat.ltb_ge; [|lia].
  rewrite -!not_true_iff_false !str_ltb_spec. destruct (str_trichotomy p q) as [->|[H|H]].
  - left. apply str_lt_irrefl.
  - left. intros H'. apply (str_lt_irrefl p). by etrans.
  - right. intros H'. apply (str_lt_irrefl p). by etrans.
Qed.

Definition suffix_list (ir : MatcherIR) : list string :=
  merge_sort suffix_le (sortedMatcherKeys (list_to_set (wides ir))).

Lemma elem_of_suffix_list ir t : t ∈ suffix_list ir ↔ t ∈ wides ir.
Proof. unfold suffix_list, sortedMatcherKeys. rewrite !merge_sort_Permutation elem_of_elements. apply elem_of_list_to_set. Qed.

Lemma suffix_list_ranked ir : StronglySorted (λ x y, (N.of_nat (Count y ".") ≤ N.of_nat (Count x "."))%N) (suffix_list ir).
Proof.
  assert (Hs : StronglySorted suffix_le (suffix_list ir)) by apply (StronglySorted_merge_sort _ _).
  induction Hs as [|p l Hl IH Hp]; constructor; [done|]. eapply Forall_impl; [exact Hp|]. intros q. unfold suffix_le, suffix_less.
  destruct (Nat.eqb_spec (Count q ".") (Count p ".")); cbn [negb]; rewrite ?Nat.ltb_ge; lia.
Qed.

(** No suffix that is also listed as a name is under a wider suffix, names are not close to
    the length limit, and labels up to "v99999999999" can be formed. *)
Definition separable (ir : MatcherIR) : Prop :=
  (N.of_nat (length (exacts ir) + length (wides ir)) < 10 ^ 11)%N ∧
  ∀ s, s ∈ wides ir → s ∈ exacts ir → (String.length s ≤ 240)%nat ∧ ∀ t, t ∈ wides ir → under_suffix s t = true → t = s.

Lemma size_list_to_set_le (l : list string) : (size (list_to_set l : gset string) ≤ length l)%nat.
Proof.
  unfold size, set_size. apply submseteq_length, NoDup_submseteq; [apply NoDup_elements|]. intros x. by rewrite elem_of_elements elem_of_list_to_set.
Qed.

(** The deepest suffix of a name that is not listed decides about it as about its probe. *)
Lemma deepest_decides ir d s probe : (d ∉ exacts ir) → s ∈ wides ir → under_suffix d s = true →
  (∀ t, t ∈ wides ir → under_suffix d t = true → (Count t "." ≤ Count s ".")%nat) →
  (s ∈ exacts ir → ∀ t, t ∈ wides ir → under_suffix s t = true → t = s) →
  uncoveredDomainForMatcherSuffix s (list_to_set (exacts ir)) (list_to_set (wides ir)) = Some probe →
  ir_selectsDomain ir probe = ir_selectsDomain ir d.
Proof.
  intros Hd Hs Hu Hmax Hwide (Hps & Hpe & Hcase)%probe_sound. rewrite elem_of_list_to_set in Hpe.
  apply selectsDomain_agree.
  - intros v Hv. rewrite (proj2 (String.eqb_neq probe v)); [congruence|]. symmetry. apply String.eqb_neq. congruence.
  - intros t Ht. assert (Hdt : under_suffix d t = true ↔ under_suffix s t = true).
    { split; [|by apply under_trans]. intros Ht'. destruct (under_chain d s t Hu Ht') as [H|H]; [done|].
      destruct (under_labels t s H) as [->|Hlt]; [apply under_refl|]. specialize (Hmax t Ht Ht'). lia. }
    apply eq_true_iff_eq. rewrite Hdt. destruct Hcase as [[_ ->]|[Hin Hno]]; [done|]. rewrite elem_of_list_to_set in Hin. split; intros Ht'.
    + destruct (decide (t = s)) as [->|Hne]; [apply under_refl|]. rewrite Hno in Ht'; [by apply elem_of_list_to_set|done|done].
    + by rewrite (Hwide Hin t Ht Ht').
Qed.

(** The rule of a suffix, if it gets one. *)
Definition suffix_rule (ir : MatcherIR) (value : string) : option MatcherDecisionRule :=
  (λ probe, MkMatcherDecisionRule SelectorDomainSuffix value (ir_selectsDomain ir probe)) <$>
    uncoveredDomainForMatcherSuffix value (list_to_set (exacts ir)) (list_to_set (wides ir)).

(** A name that is not listed is decided by the rules of the suffixes. *)
Lemma unlisted_decision ir d : (d ∉ exacts ir) →
  first_decision (rule_matches_domain d) (compileDomainDecisionRules ir) = first_decision (rule_matches_domain d) (omap (suffix_rule ir) (suffix_list ir)).
Proof.
  intros Hd. unfold compileDomainDecisionRules, first_decision. set (E := sortedMatcherKeys _). fold (suffix_list ir). fold (suffix_rule ir).
  assert (Hn : d ∉ E) by (unfold E, sortedMatcherKeys; by rewrite merge_sort_Permutation elem_of_elements elem_of_list_to_set).
  generalize (omap (suffix_rule ir) (suffix_list ir)). intros rest. clearbody E. induction E as [|v E IH]; [done|]. cbn [fmap list_fmap app List.find].
  unfold rule_matches_domain at 1. cbn [rule_Kind rule_Value]. rewrite (proj2 (String.eqb_neq d v)); [set_solver|]. apply IH. set_solver.
Qed.

Lemma domain_decides ir d : ir_Validate ir = Ok () → separable ir →
  first_decision (rule_matches_domain d) (compileDomainDecisionRules ir) = ir_selectsDomain ir d.
Proof.
  intros Hir [Hcount Hsep]. unfold compileDomainDecisionRules, first_decision. set (E := sortedMatcherKeys _).
  assert (HE : ∀ v, v ∈ E ↔ v ∈ exacts ir) by (intros v; unfold E, sortedMatcherKeys; by rewrite merge_sort_Permutation elem_of_elements elem_of_list_to_set).
  destruct (decide (d ∈ exacts ir)) as [Hd|Hd].
  - apply HE in Hd. clear HE. generalize (omap (λ value, (λ probe, MkMatcherDecisionRule SelectorDomainSuffix value (ir_selectsDomain ir probe)) <$>
      uncoveredDomainForMatcherSuffix value (list_to_set (exacts ir)) (list_to_set (wides ir))) (suffix_list ir)).
    clearbody E. intros rest. induction E as [|v E IH]; [by apply elem_of_nil in Hd|]. cbn [fmap list_fmap app List.find]. unfold rule_matches_domain at 1. cbn [rule_Kind rule_Value].
    destruct (String.eqb_spec d v) as [<-|Hne]; [done|]. apply IH. by apply elem_of_cons in Hd as [?|?].
  - rewrite -/(first_decision _ _) -/(compileDomainDecisionRules ir) (unlisted_decision ir d Hd).
    apply (first_decision_ranked _ (rule_matches_domain d) (under_suffix d) (λ s, N.of_nat (Count s "."))).
    + intros s r Hs (probe & _ & ->)%fmap_Some. done.
    + intros s Hs%elem_of_suffix_list Hu Hmax.
      assert (Hprobe : ∃ probe, uncoveredDomainForMatcherSuffix s (list_to_set (exacts ir)) (list_to_set (wides ir)) = Some probe).
      { destruct (decide (s ∈ exacts ir)) as [Hin|Hin].
        - destruct (Hsep s Hs Hin) as [Hlen Hw]. apply probe_found; [|done| |intros t Ht%elem_of_list_to_set; by apply Hw].
          + apply (all_values_ok (field := mt_DomainSuffixes) valid_name s Hir); [|done]. intros terms Ht. apply (terms_suffixes _ Ht).
          + pose proof (size_list_to_set_le (exacts ir)). pose proof (size_list_to_set_le (wides ir)). lia.
        - exists s. unfold uncoveredDomainForMatcherSuffix. rewrite bool_decide_eq_false_2; [by rewrite elem_of_list_to_set|done]. }
      destruct Hprobe as [probe Hp]. unfold suffix_rule. rewrite Hp. eexists. split; [done|]. cbn [rule_Selected]. apply (deepest_decides ir d s probe); try done.
      * intros t Ht Hut. specialize (Hmax t). rewrite elem_of_suffix_list in Hmax. specialize (Hmax Ht Hut). lia.
      * intros Hin. apply (Hsep s Hs Hin).
    + apply suffix_list_ranked.
    + intros Hno. apply selectsDomain_none; [done|]. intros t Ht. by apply Hno, elem_of_suffix_list.
Qed.

(** ** Clauses decide as the composition *)

Definition selector_lt (x y : Selector) : Prop := presetSelectorLess x y = true.

Lemma selector_lt_spec x y : selector_lt x y ↔
  (sel_Exclude x = false ∧ sel_Exclude y = true) ∨
  (sel_Exclude x = sel_Exclude y ∧
    (str_lt (SelectorKind_string (sel_Kind x)) (SelectorKind_string (sel_Kind y)) ∨
     (SelectorKind_string (sel_Kind x) = SelectorKind_string (sel_Kind y) ∧ str_lt (sel_Value x) (sel_Value y)))).
Proof.
  unfold selector_lt, presetSelectorLess. set (kx := SelectorKind_string (sel_Kind x)). set (ky := SelectorKind_string (sel_Kind y)).
  assert (Hsame : (if negb (String.eqb kx ky) then str_ltb kx ky else str_ltb (sel_Value x) (sel_Value y)) = true ↔
    str_lt kx ky ∨ (kx = ky ∧ str_lt (sel_Value x) (sel_Value y))).
  { destruct (String.eqb_spec kx ky) as [->|Hne]; cbn [negb]; rewrite str_ltb_spec; [|naive_solver]. pose proof (str_lt_irrefl ky). naive_solver. }
  destruct (sel_Exclude x), (sel_Exclude y); cbn [Bool.eqb negb]; rewrite ?Hsame; naive_solver.
Qed.

#[export] Instance selector_lt_trans : Transitive selector_lt.
Proof.
  intros x y z. rewrite !selector_lt_spec. intros [[? ?]|(E1 & H1)] [[? ?]|(E2 & H2)]; try (left; split; congruence).
  right. split; [congruence|]. destruct H1 as [H1|[K1 H1]], H2 as [H2|[K2 H2]].
  - left. by etrans.
  - left. by rewrite -K2.
  - left. by rewrite K1.
  - right. split; [congruence|by etrans].
Qed.

(** A relation between neighbours that is transitive holds throughout. *)
Lemma neighbours_sorted {A} (R : relation A) `{!Transitive R} l :
  (∀ i x y, l !! i = Some x → l !! S i = Some y → R x y) → StronglySorted R l.
Proof.
  intros H. induction l as [|x l IH]; constructor; [apply IH; intros i; apply (H (S i))|].
  assert (Hs : StronglySorted R l) by (apply IH; intros i; apply (H (S i))). destruct l as [|y l]; constructor; [by apply (H 0)|].
  apply StronglySorted_inv in Hs as [_ Hs]. eapply Forall_impl; [exact Hs|]. intros z Hz. etrans; [by apply (H 0)|done].
Qed.

Lemma sorted_next {A} (R : relation A) l i x y : StronglySorted R l → l !! i = Some x → l !! S i = Some y → R x y.
Proof.
  intros Hs. revert i. induction Hs as [|z l Hl IH Hz]; intros [|i] Hx Hy; cbn in *; [done..| |by eapply IH].
  injection Hx as ->. rewrite Forall_forall in Hz. apply Hz. by eapply list_elem_of_lookup_2.
Qed.

Definition has_kind (kind : SelectorKind) (s : Selector) : Prop := sel_Kind s = kind.
#[export] Instance has_kind_dec kind s : Decision (has_kind kind s).
Proof. unfold has_kind. apply _. Defined.
Definition has_family (ipv4 : bool) (s : Selector) : Prop := sel_Kind s = SelectorIPCIDR ∧ Is4 (prefix_addr (MustParsePrefix (sel_Value s))) = ipv4.
#[export] Instance has_family_dec ipv4 s : Decision (has_family ipv4 s).
Proof. unfold has_family. apply _. Defined.

(** The values of the selectors that satisfy [P], in their order. *)
Definition values_of (P : Selector → Prop) `{!∀ s, Decision (P s)} (l : list Selector) : list string := sel_Value <$> filter P l.

Lemma values_cons P `{!∀ s, Decision (P s)} s l : values_of P (s :: l) = (if decide (P s) then [sel_Value s] else []) ++ values_of P l.
Proof. unfold values_of. cbn. rewrite /filter /=. by destruct (decide (P s)). Qed.

Lemma compiled_terms l : compileMatcherTerms l =
  MkMatcherTerms (Some (merge_sort str_le (values_of (has_kind SelectorDomain) l))) (Some (merge_sort str_le (values_of (has_kind SelectorDomainSuffix) l)))
    (Some (merge_sort str_le (values_of (has_family true) l))) (Some (merge_sort str_le (values_of (has_family false) l))).
Proof.
  unfold compileMatcherTerms. set (f := λ terms selector, _).
  assert (H : ∀ l a b c d, foldl f (MkMatcherTerms (Some a) (Some b) (Some c) (Some d)) l =
    MkMatcherTerms (Some (a ++ values_of (has_kind SelectorDomain) l)) (Some (b ++ values_of (has_kind SelectorDomainSuffix) l))
      (Some (c ++ values_of (has_family true) l)) (Some (d ++ values_of (has_family false) l))).
  { clear l. induction l as [|s l IH]; intros a b c d; [by rewrite !app_nil_r|]. cbn [foldl]. rewrite !values_cons.
    assert (Hf : f (MkMatcherTerms (Some a) (Some b) (Some c) (Some d)) s =
      MkMatcherTerms (Some (a ++ if decide (has_kind SelectorDomain s) then [sel_Value s] else []))
        (Some (b ++ if decide (has_kind SelectorDomainSuffix s) then [sel_Value s] else []))
        (Some (c ++ if decide (has_family true s) then [sel_Value s] else [])) (Some (d ++ if decide (has_family false s) then [sel_Value s] else []))).
    { repeat case_decide; unfold f, has_kind, has_family in *; destruct (sel_Kind s); try done; destruct (Is4 _); rewrite ?app_nil_r; naive_solver. }
    by rewrite Hf IH -!app_assoc. }
  by rewrite H.
Qed.

Record selectors_ok (exclude : bool) (l : list Selector) : Prop := {
  selectors_sorted : StronglySorted selector_lt l;
  selectors_excluded : ∀ s, s ∈ l → sel_Exclude s = exclude;
  selectors_valid : ∀ s, s ∈ l → selector_Validate s = Ok ()
}.

Lemma validateCompositionSelectors_ok l exclude : validateCompositionSelectors l exclude = Ok () → selectors_ok exclude l.
Proof.
  intros H. pose proof (proj1 (range_check_ok _ _ _) H) as Hc. clear H.
  assert (Hi : ∀ i s, l !! i = Some s → sel_Exclude s = exclude ∧ selector_Validate s = Ok () ∧ selector_unsorted l i s = false).
  { intros i s Hs. specialize (Hc i s Hs). cbn beta in Hc. apply bind_ok in Hc as ([] & H1%reject_ok & ([] & H2%wrap_ok & H3%reject_ok)%bind_ok).
    apply negb_false_iff, eqb_prop in H1. done. }
  split.
  - apply neighbours_sorted; [apply _|]. intros i x y Hx Hy. destruct (Hi (S i) y Hy) as (_ & _ & Hu). cbn in Hu. rewrite Hx in Hu. by apply negb_false_iff in Hu.
  - intros s [i Hs]%list_elem_of_lookup. by apply (Hi i).
  - intros s [i Hs]%list_elem_of_lookup. by apply (Hi i).
Qed.

Lemma string_unsorted_false values i v : StronglySorted str_lt values → values !! i = Some v → string_unsorted values i v = false.
Proof.
  intros Hs Hv. destruct i as [|i]; [done|]. cbn. destruct (values !! i) as [w|] eqn:Hw; [|done]. apply str_leb_false. by apply (sorted_lt_next values i).
Qed.

Lemma sorted_loop_complete values (check : string → result unit) e : StronglySorted str_lt values → (∀ v, v ∈ values → check v = Ok ()) →
  range_check (λ index value, check value;; reject (string_unsorted values index value) e) values = Ok ().
Proof.
  intros Hs Hc. apply range_check_ok. intros i v Hv. rewrite Hc; [by eapply list_elem_of_lookup_2|]. cbn. apply reject_ok. by apply string_unsorted_false.
Qed.

Lemma sort_strict l : NoDup l → StronglySorted str_lt (merge_sort str_le l).
Proof.
  intros Hnd. rewrite -(merge_sort_Permutation str_le l) in Hnd. assert (Hs : StronglySorted str_le (merge_sort str_le l)) by apply (StronglySorted_merge_sort _ _).
  induction Hs as [|x k Hk IH Hx]; constructor.
  - apply IH. by apply NoDup_cons in Hnd as [_ ?].
  - apply NoDup_cons in Hnd as [Hx' _]. rewrite Forall_forall in Hx. apply Forall_forall. intros y Hy. specialize (Hx y Hy).
    apply str_leb_spec in Hx as [->|Hx]; done.
Qed.

(** Selectors of one kind are in the order of their values. *)
Lemma values_sorted exclude kind P `{!∀ s, Decision (P s)} l : selectors_ok exclude l → (∀ s, P s → sel_Kind s = kind) → NoDup (values_of P l).
Proof.
  intros [Hs He _] HP. apply sorted_lt_NoDup. unfold values_of. induction Hs as [|x l Hl IH Hx]; [constructor|].
  assert (Hrest : StronglySorted str_lt (sel_Value <$> filter P l)) by (apply IH; intros s Hs; apply He; by right).
  cbn. rewrite /filter /=. fold (filter P l). destruct (decide (P x)) as [Hpx|_]; [|done]. cbn. constructor; [done|].
  apply Forall_forall. intros v (y & -> & [Hpy Hy]%list_elem_of_filter)%list_elem_of_fmap. rewrite Forall_forall in Hx. specialize (Hx y Hy).
  apply selector_lt_spec in Hx. rewrite (HP x Hpx) (HP y Hpy) (He x) in Hx; [left|]. rewrite (He y) in Hx; [by right|].
  destruct Hx as [[-> ?]|[_ [Hx|[_ Hx]]]]; [done|by apply str_lt_irrefl in Hx|done].
Qed.

Lemma selector_classes s : selector_Validate s = Ok () →
  match sel_Kind s with
  | SelectorDomain | SelectorDomainSuffix => valid_name (sel_Value s)
  | SelectorIPCIDR => cidr_ok (Is4 (prefix_addr (MustParsePrefix (sel_Value s)))) (sel_Value s)
  | SelectorUnsupported _ => False
  end.
Proof.
  destruct s as [kind value exclude]. rewrite selector_ok. cbn [sel_Kind sel_Value]. destruct kind; try done.
  intros (ipv4 & Hc). destruct (must_parse ipv4 value Hc) as (_ & Hf & _). by rewrite Hf.
Qed.

Lemma class_count l : (∀ s, s ∈ l → selector_Validate s = Ok ()) →
  (length (values_of (has_kind SelectorDomain) l) + length (values_of (has_kind SelectorDomainSuffix) l)
   + length (values_of (has_family true) l) + length (values_of (has_family false) l))%nat = length l.
Proof.
  intros Hv. induction l as [|s l IH]; [done|]. rewrite !values_cons !length_app. specialize (IH ltac:(intros x Hx; apply Hv; by right)).
  pose proof (selector_classes s (Hv s ltac:(left))) as Hc. cbn [length]. rewrite -IH.
  repeat case_decide; unfold has_kind, has_family in *; destruct (sel_Kind s); try done; try (destruct (Is4 _); naive_solver); cbn [length]; lia.
Qed.

Lemma compiled_valid exclude l : selectors_ok exclude l → mt_validate (compileMatcherTerms l) = Ok (length l).
Proof.
  intros Hok. rewrite compiled_terms. unfold mt_validate. cbn [mt_Domains mt_DomainSuffixes mt_IPv4CIDRs mt_IPv6CIDRs is_nil orb items default reject].
  assert (Hin : ∀ P `{!∀ s, Decision (P s)} v, v ∈ merge_sort str_le (values_of P l) → ∃ s, s ∈ l ∧ P s ∧ v = sel_Value s).
  { intros P HP v. rewrite merge_sort_Permutation. intros (s & -> & [Hs Hl]%list_elem_of_filter)%list_elem_of_fmap. eauto. }
  assert (Hd : validateSortedMatcherDomains SelectorDomain (merge_sort str_le (values_of (has_kind SelectorDomain) l)) = Ok ()).
  { apply sorted_loop_complete; [apply sort_strict, (values_sorted exclude SelectorDomain); [done|by intros s]|].
    intros v (s & Hs & Hk & ->)%Hin. apply wrap_ok, selector_ok. pose proof (selector_classes s (selectors_valid _ _ Hok s Hs)) as Hc. by rewrite Hk in Hc. }
  assert (Hx : validateSortedMatcherDomains SelectorDomainSuffix (merge_sort str_le (values_of (has_kind SelectorDomainSuffix) l)) = Ok ()).
  { apply sorted_loop_complete; [apply sort_strict, (values_sorted exclude SelectorDomainSuffix); [done|by intros s]|].
    intros v (s & Hs & Hk & ->)%Hin. apply wrap_ok, selector_ok. pose proof (selector_classes s (selectors_valid _ _ Hok s Hs)) as Hc. by rewrite Hk in Hc. }
  assert (Hc : ∀ ipv4, validateSortedMatcherCIDRs (merge_sort str_le (values_of (has_family ipv4) l)) ipv4 = Ok ()).
  { intros ipv4. apply sorted_loop_complete; [apply sort_strict, (values_sorted exclude SelectorIPCIDR); [done|by intros s [? _]]|].
    intros v (s & Hs & [Hk Hf] & ->)%Hin. pose proof (selector_classes s (selectors_valid _ _ Hok s Hs)) as Hcl. rewrite Hk Hf in Hcl.
    destruct Hcl as (p & -> & -> & Hb & ->). apply reject_ok. rewrite String.eqb_refl (bool_decide_eq_true_2 _ (block_masked _ Hb)). by destruct ipv4. }
  rewrite Hd Hx !Hc. cbn [mbind result_bind]. f_equal. rewrite !(Permutation_length (merge_sort_Permutation str_le _)). apply class_count, Hok.
Qed.

Lemma existsb_values P `{!∀ s, Decision (P s)} (f : string → bool) (l : list Selector) :
  existsb f (merge_sort str_le (values_of P l)) = true ↔ ∃ s, s ∈ l ∧ P s ∧ f (sel_Value s) = true.
Proof.
  rewrite existsb_exists. setoid_rewrite <-list_elem_of_In. setoid_rewrite merge_sort_Permutation. split.
  - intros (v & (s & -> & [Hs Hl]%list_elem_of_filter)%list_elem_of_fmap & Hf). eauto.
  - intros (s & Hs & HP & Hf). exists (sel_Value s). split; [|done]. apply list_elem_of_fmap. exists s. split; [done|]. by apply list_elem_of_filter.
Qed.

Lemma compiled_domain l d : matchesDomain (compileMatcherTerms l) d = existsb (domain_test d) l.
Proof.
  rewrite compiled_terms. unfold matchesDomain. cbn [mt_Domains mt_DomainSuffixes items default]. apply eq_true_iff_eq.
  rewrite orb_true_iff !existsb_values existsb_exists. setoid_rewrite <-list_elem_of_In. unfold domain_test, has_kind. split.
  - intros [(s & Hs & Hk & Hf)|(s & Hs & Hk & Hf)]; exists s; (split; [done|]); by rewrite Hk.
  - intros (s & Hs & Hf). destruct (sel_Kind s) eqn:Hk; try done; [left|right]; exists s; by rewrite Hk.
Qed.

Lemma compiled_address exclude l a : selectors_ok exclude l → matchesIP (compileMatcherTerms l) a = existsb (address_test a) l.
Proof.
  intros Hok. rewrite compiled_terms. unfold matchesIP. cbn [mt_IPv4CIDRs mt_IPv6CIDRs].
  assert (Hfam : items (if Is4 a then Some (merge_sort str_le (values_of (has_family true) l)) else Some (merge_sort str_le (values_of (has_family false) l)))
    = merge_sort str_le (values_of (has_family (Is4 a)) l)) by (by destruct (Is4 a)).
  rewrite Hfam. apply eq_true_iff_eq. rewrite existsb_values existsb_exists. setoid_rewrite <-list_elem_of_In. unfold address_test.
  assert (Hparse : ∀ s, s ∈ l → sel_Kind s = SelectorIPCIDR → ParsePrefix (sel_Value s) = Some (MustParsePrefix (sel_Value s))).
  { intros s Hs Hk. pose proof (selector_classes s (selectors_valid _ _ Hok s Hs)) as Hc. rewrite Hk in Hc. destruct Hc as (p & Hp & _).
    unfold MustParsePrefix. by rewrite Hp. }
  split.
  - intros (s & Hs & [Hk _] & Hf). exists s. split; [done|]. by rewrite Hk (Hparse s Hs Hk).
  - intros (s & Hs & Hf). destruct (sel_Kind s) eqn:Hk; try done. rewrite (Hparse s Hs Hk) in Hf. exists s. split_and!; [done| |done].
    split; [done|]. by apply contains_spec in Hf as [Hfam' _].
Qed.

(** What a valid composition holds. *)
Lemma pc_Validate_ok c : pc_Validate c = Ok () → is_nil (pc_Presets c) = false ∧ ∀ i preset, items (pc_Presets c) !! i = Some preset →
  validatePresetName (ps_Name preset) = Ok () ∧ check_name_order (ps_Name <$> items (pc_Presets c)) i (ps_Name preset) = Ok () ∧
  (length (items (ps_Includes preset)) ≠ 0 ∧ length (items (ps_Includes preset)) + length (items (ps_Excludes preset)) ≤ PresetMaximumSelectors)%nat ∧
  selectors_ok false (items (ps_Includes preset)) ∧ selectors_ok true (items (ps_Excludes preset)).
Proof.
  intros ([] & Hnil%reject_ok & H)%bind_ok. split; [done|]. intros i preset Hi. pose proof (proj1 (range_check_ok _ _ _) H i preset Hi) as Hc. cbn beta in Hc.
  apply bind_ok in Hc as ([] & H1%wrap_ok & ([] & H2 & ([] & _ & ([] & H3%reject_ok & ([] & H4%reject_ok & ([] & H5 & H6)%bind_ok)%bind_ok)%bind_ok)%bind_ok)%bind_ok).
  apply Nat.eqb_neq in H3. apply Nat.ltb_ge in H4. split_and!; [done|done|done|done|by apply validateCompositionSelectors_ok..].
Qed.

Lemma name_order_sorted (names : list string) i name : check_name_order names i name = Ok () → string_unsorted (ToLower <$> names) i (ToLower name) = false.
Proof.
  destruct i as [|i]; [done|]. cbn. rewrite list_lookup_fmap. destruct (names !! i) as [previous|]; [|done]. cbn.
  intros ([] & Hne%reject_ok & Hlt%reject_ok)%bind_ok. apply String.eqb_neq in Hne. apply str_leb_false.
  destruct (str_trichotomy (ToLower previous) (ToLower name)) as [?|[?|Hc]]; [done|done|]. apply str_ltb_spec in Hc. congruence.
Qed.

Definition compiled_clauses (c : PresetComposition) : MatcherIR := MkMatcherIR MatcherIRSchemaVersion
  (Some ((λ preset, MkMatcherClause (ps_Name preset) (compileMatcherTerms (items (ps_Includes preset)))
                      (compileMatcherTerms (items (ps_Excludes preset)))) <$> items (pc_Presets c))).

Lemma compiled_ir_valid c : pc_Validate c = Ok () → ir_Validate (compiled_clauses c) = Ok ().
Proof.
  intros [_ Hc]%pc_Validate_ok. unfold ir_Validate, compiled_clauses. cbn [ir_SchemaVersion ir_Clauses is_nil items default reject Z.eqb negb MatcherIRSchemaVersion].
  change (1 =? 1)%Z with true. cbn [negb reject mbind result_bind]. apply range_check_ok. intros i clause Hi.
  rewrite list_lookup_fmap in Hi. apply fmap_Some in Hi as (preset & Hi & ->). destruct (Hc i preset Hi) as (Hn & Ho & [H0 Hm] & Hinc & Hexc).
  cbn [mc_Name mc_Includes mc_Excludes]. rewrite (compiled_valid _ _ Hinc) (compiled_valid _ _ Hexc).
  apply bind_ok. exists (). split; [by apply wrap_ok|]. apply bind_ok. exists (). split.
  - apply reject_ok. apply name_order_sorted in Ho. rewrite -Ho. by rewrite -!list_fmap_compose.
  - cbn [mbind result_bind]. apply bind_ok. exists (). split; apply reject_ok; [by apply Nat.eqb_neq|by apply Nat.ltb_ge].
Qed.

Lemma CompileMatcherIR_ok c : pc_Validate c = Ok () → CompileMatcherIR c = Ok (compiled_clauses c).
Proof. intros Hc. unfold CompileMatcherIR. fold (compiled_clauses c). by rewrite Hc (compiled_ir_valid c Hc). Qed.

Lemma compiled_selects c : pc_Validate c = Ok () →
  (∀ d, ir_selectsDomain (compiled_clauses c) d = composition_selects c (domain_test d)) ∧ (∀ a, ir_selectsIP (compiled_clauses c) a = composition_selects c (address_test a)).
Proof.
  intros [_ Hc]%pc_Validate_ok. unfold ir_selectsDomain, ir_selectsIP, composition_selects, compiled_clauses. cbn [ir_Clauses items default].
  assert (Hmap : ∀ (f : MatcherClause → bool) (g : PresetSelection → MatcherClause) l, existsb f (g <$> l) = existsb (λ x, f (g x)) l)
    by (intros f g l; induction l as [|x l IH]; cbn; [done|by rewrite IH]).
  split; intros d; rewrite Hmap; apply existsb_ext; intros preset [i Hi]%list_elem_of_lookup; cbn [mc_Includes mc_Excludes].
  - by rewrite !compiled_domain.
  - destruct (Hc i preset Hi) as (_ & _ & _ & Hinc & Hexc). by rewrite (compiled_address _ _ _ Hinc) (compiled_address _ _ _ Hexc).
Qed.

(** ** The targets *)

Lemma destination_unzoned address a : destination address = Ok a → has_zone a = false.
Proof.
  unfold destination. destruct address as [[n|n z]|]; [by intros [= <-]| |done]. destruct (has_zone (V6 n z)) eqn:Hz; [done|].
  intros [= <-]. unfold Unmap. by case_match.
Qed.

(** The program of valid clauses. *)
Definition compiled_program (ir : MatcherIR) : matcherDecisionProgram :=
  MkMatcherDecisionProgram MatcherIRSchemaVersion (compileDomainDecisionRules ir)
    (compile_family ir (all_values mt_IPv4CIDRs ir)) (compile_family ir (all_values mt_IPv6CIDRs ir)).

Lemma compile_program_ok ir : ir_Validate ir = Ok () → compileMatcherDecisionProgram ir = Ok (compiled_program ir).
Proof. intros Hir. unfold compileMatcherDecisionProgram. by rewrite Hir. Qed.

Lemma program_addresses ir address : ir_Validate ir = Ok () → mp_selectsIP (compiled_program ir) address = ir_SelectsIP ir address.
Proof.
  intros Hir. unfold ir_SelectsIP. rewrite Hir. unfold mp_selectsIP. cbn [mp_schemaVersion compiled_program]. change (MatcherIRSchemaVersion =? MatcherIRSchemaVersion)%Z with true.
  cbn [negb reject mbind result_bind]. destruct (destination address) as [a|e] eqn:Hd; [|done]. cbn [mp_ipv4 mp_ipv6 compiled_program].
  cbn [mbind result_bind]. rewrite -(family_decides ir a Hir (destination_unzoned _ _ Hd)). by destruct (Is4 a).
Qed.

Lemma program_names ir domain : ir_Validate ir = Ok () → separable ir → mp_selectsDomain (compiled_program ir) domain = ir_SelectsDomain ir domain.
Proof.
  intros Hir Hsep. unfold ir_SelectsDomain. rewrite Hir. unfold mp_selectsDomain, selectDomainDecision. cbn [mp_schemaVersion mp_domain compiled_program].
  change (MatcherIRSchemaVersion =? MatcherIRSchemaVersion)%Z with true. cbn [negb reject mbind result_bind]. by rewrite (domain_decides ir domain Hir Hsep).
Qed.

Lemma clauses_decide c : pc_Validate c = Ok () →
  (∀ d, ir_SelectsDomain (compiled_clauses c) d = pc_SelectsDomain c d) ∧ (∀ a, ir_SelectsIP (compiled_clauses c) a = pc_SelectsIP c a).
Proof.
  intros Hc. destruct (compiled_selects c Hc) as [Hd Ha]. unfold ir_SelectsDomain, ir_SelectsIP, pc_SelectsDomain, pc_SelectsIP.
  rewrite Hc (compiled_ir_valid c Hc). split; intros x; cbn [mbind result_bind]; [by rewrite Hd|]. destruct (destination x); cbn [mbind result_bind]; [by rewrite Ha|done].
Qed.

(** C32: a valid composition of presets compiles, and for every destination address the node
    routing, the leak guard and the client export decide exactly as the presets do, each as
    the union of its includes minus its excludes; errors for invalid addresses included. *)
Theorem address_rules_decide_as_presets c : pc_Validate c = Ok () → ∃ ir node guard clash,
  CompileMatcherIR c = Ok ir ∧ CompileNodeRoutingMatchers ir = Ok node ∧ CompileNFTablesLeakGuardMatchers ir = Ok guard ∧ CompileClashMatchers ir = Ok clash ∧
  ∀ address, nr_SelectsIP node address = pc_SelectsIP c address ∧ lg_SelectsIP guard address = pc_SelectsIP c address ∧
             cl_SelectsIP clash address = pc_SelectsIP c address.
Proof.
  intros Hc. pose proof (compiled_ir_valid c Hc) as Hir. destruct (clauses_decide c Hc) as [_ Ha].
  exists (compiled_clauses c), (MkNodeRoutingMatchers (compiled_program (compiled_clauses c))),
    (MkNFTablesLeakGuardMatchers (compiled_program (compiled_clauses c))), (MkClashMatchers (compiled_program (compiled_clauses c))).
  unfold CompileNodeRoutingMatchers, CompileNFTablesLeakGuardMatchers, CompileClashMatchers. rewrite (compile_program_ok _ Hir).
  split_and!; [by apply CompileMatcherIR_ok|done..|]. intros address. rewrite -Ha. split_and!; by apply program_addresses.
Qed.

(** C31: for names, a valid composition compiles, and every target, the gateway resolver
    included, decides exactly as the presets do when the lists are separable: no suffix that
    is also listed as a name is below a wider suffix or longer than 240 characters, and
    there are fewer than 10^11 values. *)
Theorem name_rules_decide_as_presets c : pc_Validate c = Ok () → ∃ ir node guard dns clash,
  CompileMatcherIR c = Ok ir ∧ CompileNodeRoutingMatchers ir = Ok node ∧ CompileNFTablesLeakGuardMatchers ir = Ok guard ∧
  CompileGatewayDNSMatchers ir = Ok dns ∧ CompileClashMatchers ir = Ok clash ∧
  (separable ir → ∀ domain, nr_SelectsDomain node domain = pc_SelectsDomain c domain ∧ lg_SelectsResolvedDomain guard domain = pc_SelectsDomain c domain ∧
     gd_SelectsDomain dns domain = pc_SelectsDomain c domain ∧ cl_SelectsDomain clash domain = pc_SelectsDomain c domain).
Proof.
  intros Hc. pose proof (compiled_ir_valid c Hc) as Hir. destruct (clauses_decide c Hc) as [Hd _]. set (program := compiled_program (compiled_clauses c)).
  exists (compiled_clauses c), (MkNodeRoutingMatchers program), (MkNFTablesLeakGuardMatchers program),
    (MkGatewayDNSMatchers MatcherIRSchemaVersion (mp_domain program)), (MkClashMatchers program).
  unfold CompileNodeRoutingMatchers, CompileNFTablesLeakGuardMatchers, CompileGatewayDNSMatchers, CompileClashMatchers. rewrite (compile_program_ok _ Hir).
  split_and!; [by apply CompileMatcherIR_ok|done..|]. intros Hsep domain. rewrite -Hd. split_and!; by apply (program_names _ domain Hir Hsep).
Qed.

(** ** Suffixes that are also listed as names *)

Definition name_terms (names suffixes : list string) : MatcherTerms := MkMatcherTerms (Some names) (Some suffixes) (Some []) (Some []).

(** One preset selects a name and everything below it, another everything but a zone that
    holds the name. *)
Definition shadowing_clauses : MatcherIR := MkMatcherIR 1 (Some [
  MkMatcherClause "own" (name_terms ["a.example.com"] ["a.example.com"]) (name_terms [] []);
  MkMatcherClause "rest" (name_terms [] ["com"]) (name_terms [] ["example.com"])]).

(** [s] is the deepest listed suffix of the name, and [t] the next wider one. *)
Record deepest_suffixes (ir : MatcherIR) (domain s t : string) : Prop := {
  ds_deepest : s ∈ wides ir ∧ under_suffix domain s = true ∧ ∀ u, u ∈ wides ir → under_suffix domain u = true → under_suffix s u = true;
  ds_next : t ∈ wides ir ∧ t ≠ s ∧ under_suffix s t = true ∧ ∀ u, u ∈ wides ir → u ≠ s → under_suffix s u = true → under_suffix t u = true
}.

Lemma omap_skip {A B} (f : A → option B) (P : A → Prop) `{∀ x, Decision (P x)} (l : list A) : (∀ x, x ∈ l → ¬ P x → f x = None) → omap f l = omap f (filter P l).
Proof.
  induction l as [|x l IH]; intros Hl; [done|]. rewrite filter_cons. assert (IH' := IH (λ y Hy, Hl y (list_elem_of_further _ _ _ Hy))).
  destruct (decide (P x)) as [Hx|Hx]; cbn; rewrite IH'; [done|]. by rewrite (Hl x ltac:(left) Hx).
Qed.

Lemma ranked_filter {A} (R : A → A → Prop) (P : A → Prop) `{∀ x, Decision (P x)} (l : list A) : StronglySorted R l → StronglySorted R (filter P l).
Proof.
  induction 1 as [|x l Hl IH Hx]; [constructor|]. rewrite filter_cons. destruct (decide (P x)); [|done]. constructor; [done|].
  rewrite !Forall_forall in Hx |- *. intros y [_ Hy]%list_elem_of_filter. by apply Hx.
Qed.

(** Without a rule for [s] the next suffix decides. *)
Lemma next_suffix_decides ir domain s t : deepest_suffixes ir domain s t → s ∈ exacts ir → (t ∉ exacts ir) → (domain ∉ exacts ir) →
  first_decision (rule_matches_domain domain) (compileDomainDecisionRules ir) = ir_selectsDomain ir t.
Proof.
  intros [(Hs & Hds & Hdeep) (Ht & Hne & Hst & Hnext)] He Hte Hde. rewrite (unlisted_decision ir domain Hde).
  assert (Hdt : under_suffix domain t = true) by (by eapply under_trans).
  rewrite (omap_skip _ (λ u, u ≠ s)).
  { intros u _ Hu. assert (u = s) as -> by (by apply dec_stable). unfold suffix_rule. by rewrite (probe_shadowed s _ _ t) //; apply elem_of_list_to_set. }
  apply (first_decision_ranked _ (rule_matches_domain domain) (under_suffix domain) (λ s, N.of_nat (Count s "."))).
  - intros u r _ (probe & _ & ->)%fmap_Some. done.
  - intros u [Hus Hu%elem_of_suffix_list]%list_elem_of_filter Hdu Hmax.
    specialize (Hmax t). rewrite list_elem_of_filter elem_of_suffix_list in Hmax. specialize (Hmax (conj Hne Ht) Hdt).
    destruct (under_labels t u (Hnext u Hu Hus (Hdeep u Hu Hdu))) as [->|Hlt]; [|lia]. unfold suffix_rule, uncoveredDomainForMatcherSuffix.
    rewrite bool_decide_eq_false_2; [by rewrite elem_of_list_to_set|]. by eexists.
  - apply ranked_filter, suffix_list_ranked.
  - intros Hno. specialize (Hno t). rewrite list_elem_of_filter elem_of_suffix_list in Hno. by rewrite Hno in Hdt.
Qed.

(** C34: a suffix [s] that is also listed as a name and lies under a wider suffix gets no
    rule, whatever the clauses say about it.  Every name that is not listed itself and has
    [s] as its deepest suffix is then decided as the next wider suffix [t], when [t] is not
    listed as a name, so as the clauses decide for [t], whatever they decide for the name. *)
Theorem shadowed_suffix_is_dropped ir domain s t : ir_Validate ir = Ok () → valid_destination domain = Ok () → deepest_suffixes ir domain s t →
  s ∈ exacts ir → (t ∉ exacts ir) → (domain ∉ exacts ir) →
  ∃ program, compileMatcherDecisionProgram ir = Ok program ∧
    (∀ rule, rule ∈ mp_domain program → rule_Kind rule = SelectorDomainSuffix → rule_Value rule ≠ s) ∧
    mp_selectsDomain program domain = Ok (ir_selectsDomain ir t).
Proof.
  intros Hir Hdest Hd He Hte Hde. exists (compiled_program ir). split_and!; [by apply compile_program_ok| |].
  - destruct Hd as [(Hs & _) (Ht & Hne & Hst & _)]. intros rule Hr Hk <-. cbn [mp_domain compiled_program] in Hr.
    apply elem_of_app in Hr as [(v & -> & _)%list_elem_of_fmap|(v & _ & (probe & Hp & ->)%fmap_Some)%list_elem_of_omap]; [done|]. cbn [rule_Value] in *.
    rewrite (probe_shadowed v _ _ t) in Hp; [by apply elem_of_list_to_set|by apply elem_of_list_to_set|done|done|done].
  - unfold mp_selectsDomain, selectDomainDecision. cbn [mp_schemaVersion mp_domain compiled_program].
    change (MatcherIRSchemaVersion =? MatcherIRSchemaVersion)%Z with true. cbn [negb reject mbind result_bind]. rewrite Hdest. cbn [mbind result_bind].
    by rewrite (next_suffix_decides ir domain s t).
Qed.

(** * Routing presets: from documents to decisions

    Normalizing a document keeps its selectors, each once, in canonical order; normalizing a
    composition succeeds exactly when the names differ.  The composition then decides as the
    documents list: a destination is selected when some document includes it and does not
    exclude it, whatever the order of documents and selectors. *)

(** ** Documents *)

Definition as_selector (exclude : bool) (value : PresetDocumentSelector) : Selector := MkSelector (ds_Type value) (ds_Value value) exclude.

Lemma appendSelectors_ok exclude values s s' : appendSelectors exclude values s = Ok s' → s'.1 = s.1 ++ (as_selector exclude <$> values).
Proof.
  intros H. refine (range_inv _ (λ p (t : list Selector * gset string), t.1 = s.1 ++ (as_selector exclude <$> p)) values s s' _ _ H); [|by rewrite app_nil_r].
  intros p x q [sels seen] t _ Ht Hb. apply bind_ok in Hb as ([] & _ & (seen' & _ & [= <-])%bind_ok). cbn in *. by rewrite Ht fmap_app app_assoc.
Qed.

(** What a valid preset holds. *)
Record ast_ok (ast : PresetAST) : Prop := {
  ast_name : validatePresetName (ast_Name ast) = Ok ();
  ast_sorted : StronglySorted selector_lt (items (ast_Selectors ast));
  ast_valid : ∀ s, s ∈ items (ast_Selectors ast) → selector_Validate s = Ok ();
  ast_size : (length (items (ast_Selectors ast)) ≤ PresetMaximumSelectors)%nat;
  ast_includes : ∃ s, s ∈ items (ast_Selectors ast) ∧ sel_Exclude s = false
}.

Lemma ast_Validate_ok ast : ast_Validate ast = Ok () → ast_ok ast.
Proof.
  intros ([] & _ & ([] & Hn & ([] & Hlen%reject_ok & (count & Hr & Hc%reject_ok)%bind_ok)%bind_ok)%bind_ok)%bind_ok.
  apply orb_false_iff in Hlen as [_ Hlen%Nat.ltb_ge]. apply Nat.eqb_neq in Hc. set (l := items (ast_Selectors ast)) in *.
  assert (Hinv : (∀ i s, l !! i = Some s → selector_Validate s = Ok () ∧ selector_unsorted l i s = false) ∧ (count ≠ 0 → ∃ s, s ∈ l ∧ sel_Exclude s = false)).
  { refine (range_inv _ (λ p n, (∀ i s, p !! i = Some s → selector_Validate s = Ok () ∧ selector_unsorted l i s = false) ∧
      (n ≠ 0 → ∃ s, s ∈ p ∧ sel_Exclude s = false)) l 0 count _ _ Hr); [|split; [done|lia]].
    intros p x q n n' _ [Hi Hn'] Hb. apply bind_ok in Hb as ([] & Hv%wrap_ok & ([] & Hu%reject_ok & [= <-])%bind_ok). split.
    - intros i s [Hs|[Hle Hs]]%lookup_app_Some; [by apply Hi|]. apply list_lookup_singleton_Some in Hs as [H0 <-]. by replace i with (length p) by lia.
    - intros Hne. destruct (sel_Exclude x) eqn:He; cbn [negb] in Hne; [|exists x; split; [set_solver|done]].
      destruct (Hn' Hne) as (s & Hs & Hx). exists s. split; [set_solver|done]. }
  destruct Hinv as [Hi Hx]. split; [done| | |done|by apply Hx].
  - apply neighbours_sorted; [apply _|]. intros i x y Hlx Hly. destruct (Hi (S i) y Hly) as [_ Hu]. cbn in Hu. rewrite Hlx in Hu. by apply negb_false_iff in Hu.
  - intros s [i Hs]%list_elem_of_lookup. by apply (Hi i).
Qed.

Lemma Normalize_ok document ast : Normalize document = Ok ast →
  ast_Name ast = pd_Name document ∧ ast_Validate ast = Ok () ∧
  items (ast_Selectors ast) ≡ₚ (as_selector false <$> items (pd_Include document)) ++ (as_selector true <$> items (pd_Exclude document)).
Proof.
  intros ([] & _ & ([] & _ & ([] & _ & ([] & _ & ([] & _ & (inc & H1 & (col & H2 & ([] & Hv & [= <-])%bind_ok)%bind_ok)%bind_ok)%bind_ok)%bind_ok)%bind_ok)%bind_ok)%bind_ok.
  split_and!; [done|done|]. cbn [ast_Selectors items default]. rewrite merge_sort_Permutation (appendSelectors_ok _ _ _ _ H2) (appendSelectors_ok _ _ _ _ H1). done.
Qed.

(** ** Compositions *)

Lemma split_selectors_spec ast : split_selectors ast =
  MkPresetSelection (ast_Name ast) (Some (filter (λ s, sel_Exclude s = false) (items (ast_Selectors ast))))
    (Some (filter (λ s, sel_Exclude s = true) (items (ast_Selectors ast)))).
Proof.
  unfold split_selectors. generalize (items (ast_Selectors ast)). intros l.
  assert (H : ∀ a b, foldl (λ selection selector,
    if sel_Exclude selector
    then MkPresetSelection (ps_Name selection) (ps_Includes selection) (append (ps_Excludes selection) [selector])
    else MkPresetSelection (ps_Name selection) (append (ps_Includes selection) [selector]) (ps_Excludes selection))
    (MkPresetSelection (ast_Name ast) (Some a) (Some b)) l =
    MkPresetSelection (ast_Name ast) (Some (a ++ filter (λ s, sel_Exclude s = false) l)) (Some (b ++ filter (λ s, sel_Exclude s = true) l))).
  { induction l as [|s l IH]; intros a b; [by rewrite !app_nil_r|]. cbn [foldl]. rewrite !filter_cons.
    destruct (sel_Exclude s) eqn:He; cbn [append ps_Includes ps_Excludes ps_Name items default]; rewrite IH -app_assoc; by repeat case_decide. }
  by rewrite (H [] []).
Qed.

Lemma sorted_filter {A} (R : relation A) (P : A → Prop) `{!∀ x, Decision (P x)} l : StronglySorted R l → StronglySorted R (filter P l).
Proof.
  induction 1 as [|x l Hl IH Hx]; [constructor|]. rewrite filter_cons. case_decide; [|done]. constructor; [done|].
  rewrite !Forall_forall in Hx |- *. intros y [_ Hy]%list_elem_of_filter. by apply Hx.
Qed.

Lemma filtered_ok ast exclude : ast_ok ast → selectors_ok exclude (filter (λ s, sel_Exclude s = exclude) (items (ast_Selectors ast))).
Proof.
  intros Hok. split; [apply sorted_filter, Hok| |]; intros s [He Hs]%list_elem_of_filter; [done|]. by apply (ast_valid _ Hok).
Qed.

Lemma selectors_ok_validate exclude l : selectors_ok exclude l → validateCompositionSelectors l exclude = Ok ().
Proof.
  intros [Hs He Hv]. apply range_check_ok. intros i s Hi. pose proof (list_elem_of_lookup_2 _ _ _ Hi) as Hin. rewrite (He s Hin) (Hv s Hin) eqb_reflx.
  cbn [negb reject wrap mbind result_bind]. apply reject_ok. destruct i as [|i]; [done|]. cbn. destruct (l !! i) as [x|] eqn:Hx; [|done].
  apply negb_false_iff. exact (sorted_next selector_lt l i x s Hs Hx Hi).
Qed.

(** The lower-case names of presets. *)
Definition folded_names (asts : list PresetAST) : list string := (λ ast, ToLower (ast_Name ast)) <$> asts.

#[export] Instance selection_le_trans : Transitive selection_le.
Proof. intros x y z. unfold selection_le. apply transitivity. Qed.
#[export] Instance selection_le_total : Total selection_le.
Proof. intros x y. apply str_le_total. Qed.

Definition composed (asts : list PresetAST) : PresetComposition := MkPresetComposition (Some (merge_sort selection_le (split_selectors <$> asts))).

Lemma sorted_names_ok (l : list PresetSelection) : StronglySorted selection_le l →
  (∀ i x, l !! i = Some x → check_name_order (ps_Name <$> l) i (ps_Name x) = Ok ()) ↔ NoDup ((λ x, ToLower (ps_Name x)) <$> l).
Proof.
  intros Hs. split.
  - intros Hc. apply sorted_lt_NoDup. apply (ascending_from_checks (λ x, ToLower (ps_Name x))). intros i x y Hx Hy.
    specialize (Hc (S i) y Hy). cbn in Hc. rewrite list_lookup_fmap Hx in Hc. apply bind_ok in Hc as ([] & Hne%reject_ok & Hlt%reject_ok).
    apply String.eqb_neq in Hne. apply str_leb_false. pose proof (sorted_next _ _ _ _ _ Hs Hx Hy) as Hle. apply str_leb_spec in Hle as [?|?]; done.
  - intros Hnd i y Hy. destruct i as [|i]; [done|]. cbn. rewrite list_lookup_fmap. destruct (l !! i) as [x|] eqn:Hx; [|done]. cbn.
    pose proof (sorted_next _ _ _ _ _ Hs Hx Hy) as Hle. apply str_leb_spec in Hle as [Heq|Hlt].
    + exfalso. assert (i = S i); [|lia]. eapply (NoDup_lookup _ _ _ (ToLower (ps_Name x)) Hnd); rewrite list_lookup_fmap ?Hx ?Hy //. cbn. by rewrite -Heq.
    + apply bind_ok. exists (). split; apply reject_ok.
      * apply String.eqb_neq. intros Heq. rewrite Heq in Hlt. by apply str_lt_irrefl in Hlt.
      * apply not_true_iff_false. rewrite str_ltb_spec. intros Hlt'. apply (str_lt_irrefl (ToLower (ps_Name y))). by etrans.
Qed.

Lemma composed_sorted asts : StronglySorted selection_le (items (pc_Presets (composed asts))).
Proof. apply (StronglySorted_merge_sort _ _). Qed.

Lemma elem_of_composed asts x : x ∈ items (pc_Presets (composed asts)) ↔ ∃ ast, ast ∈ asts ∧ x = split_selectors ast.
Proof. cbn [items default pc_Presets composed]. rewrite merge_sort_Permutation list_elem_of_fmap. naive_solver. Qed.

Lemma composed_names asts : ((λ x, ToLower (ps_Name x)) <$> items (pc_Presets (composed asts))) ≡ₚ folded_names asts.
Proof.
  cbn [items default pc_Presets composed]. rewrite merge_sort_Permutation -list_fmap_compose. unfold folded_names. apply reflexive_eq, list_fmap_ext.
  intros _ ast _. cbn. by rewrite split_selectors_spec.
Qed.

(** Each selection of valid presets passes the checks that do not concern its neighbours. *)
Lemma split_ok ast : ast_ok ast → let x := split_selectors ast in
  validatePresetName (ps_Name x) = Ok () ∧ is_nil (ps_Includes x) || is_nil (ps_Excludes x) = false ∧ (length (items (ps_Includes x)) =? 0)%nat = false ∧
  (PresetMaximumSelectors <? length (items (ps_Includes x)) + length (items (ps_Excludes x)))%nat = false ∧
  validateCompositionSelectors (items (ps_Includes x)) false = Ok () ∧ validateCompositionSelectors (items (ps_Excludes x)) true = Ok ().
Proof.
  intros Hok. rewrite split_selectors_spec. cbn [ps_Name ps_Includes ps_Excludes is_nil orb items default]. set (l := items (ast_Selectors ast)).
  split_and!; [apply Hok|done| | |by apply selectors_ok_validate, filtered_ok..].
  - apply Nat.eqb_neq. destruct (ast_includes _ Hok) as (s & Hs & He). intros Hz%nil_length_inv. unfold id in Hz.
    assert (Hin : s ∈ filter (λ s, sel_Exclude s = false) l) by (by apply list_elem_of_filter). rewrite Hz in Hin. by apply elem_of_nil in Hin.
  - apply Nat.ltb_ge. apply (Nat.le_trans _ (length l)); [|apply (ast_size _ Hok)]. unfold id. clearbody l. clear Hok. induction l as [|s l IH]; [done|]. rewrite !filter_cons.
    repeat case_decide; cbn [length]; try lia. congruence.
Qed.

Lemma composed_valid asts : (∀ ast, ast ∈ asts → ast_ok ast) → pc_Validate (composed asts) = Ok () ↔ NoDup (folded_names asts).
Proof.
  intros Hok. rewrite -composed_names -sorted_names_ok; [apply composed_sorted|]. set (l := items (pc_Presets (composed asts))). split.
  - intros Hv. apply pc_Validate_ok in Hv as [_ Hv]. intros i x Hx. by apply (Hv i x).
  - intros Hn. unfold pc_Validate. cbn [is_nil pc_Presets composed reject mbind result_bind]. apply range_check_ok. intros i x Hx.
    assert (Hin : x ∈ l) by (by eapply list_elem_of_lookup_2). apply elem_of_composed in Hin as (ast & Hast & ->).
    destruct (split_ok ast (Hok ast Hast)) as (H1 & H2 & H3 & H4 & H5 & H6). specialize (Hn i _ Hx). unfold l in Hn. cbn [pc_Presets composed] in Hn.
    rewrite H1 Hn H2 H3 H4 H5 H6. done.
Qed.

Lemma NormalizePresetComposition_spec asts c : NormalizePresetComposition (Some asts) = Ok c ↔
  (∀ ast, ast ∈ asts → ast_Validate ast = Ok ()) ∧ NoDup (folded_names asts) ∧ c = composed asts.
Proof.
  unfold NormalizePresetComposition. cbn [is_nil reject items default mbind result_bind].
  set (body := λ (_ : nat) preset selections, _).
  assert (Hloop : ∀ sels, range body asts [] = Ok sels ↔ (∀ ast, ast ∈ asts → ast_Validate ast = Ok ()) ∧ sels = split_selectors <$> asts).
  { intros sels. split.
    - intros H. refine (range_inv body (λ p sels, (∀ ast, ast ∈ p → ast_Validate ast = Ok ()) ∧ sels = split_selectors <$> p) asts [] sels _ _ H);
        [|split; [by intros ast Hast%elem_of_nil|done]].
      intros p x q t t' _ [Hp ->] Hb. apply bind_ok in Hb as ([] & Hv%wrap_ok & [= <-]). split; [|by rewrite fmap_app].
      intros ast [Hin|Hin%list_elem_of_singleton]%elem_of_app; [by apply Hp|by subst].
    - intros [Hall ->]. destruct (range_total body (λ p sels, sels = split_selectors <$> p) asts []) as (sels & -> & ->); [|done|done].
      intros p x q s -> ->. unfold body. rewrite Hall; [set_solver|]. eexists. split; [done|]. by rewrite fmap_app. }
  rewrite bind_ok. split.
  - intros (sels & [Hall ->]%Hloop & ([] & Hv & [= <-])%bind_ok). split_and!; [done| |done].
    apply composed_valid; [|exact Hv]. intros ast Hast. by apply ast_Validate_ok, Hall.
  - intros (Hall & Hnd & ->). exists (split_selectors <$> asts). split; [by apply Hloop|]. apply bind_ok. exists (). split; [|done].
    apply composed_valid; [|done]. intros ast Hast. by apply ast_Validate_ok, Hall.
Qed.

(** ** What documents list *)

Definition doc_selects (test : Selector → bool) (document : PresetDocument) : bool :=
  existsb test (as_selector false <$> items (pd_Include document)) && negb (existsb test (as_selector true <$> items (pd_Exclude document))).

Lemma existsb_perm {A} (f : A → bool) l k : l ≡ₚ k → existsb f l = existsb f k.
Proof. induction 1; cbn; [done|congruence|destruct (f x), (f y); done|congruence]. Qed.

Lemma existsb_filter {A} (f : A → bool) (P : A → Prop) `{!∀ x, Decision (P x)} l : existsb f (filter P l) = existsb (λ x, bool_decide (P x) && f x) l.
Proof. induction l as [|x l IH]; [done|]. rewrite filter_cons. cbn. case_decide; [rewrite bool_decide_eq_true_2 //|rewrite bool_decide_eq_false_2 //]; cbn; by rewrite IH. Qed.

Lemma existsb_fmap {A B} (f : B → bool) (g : A → B) l : existsb f (g <$> l) = existsb (λ x, f (g x)) l.
Proof. induction l as [|x l IH]; cbn; [done|by rewrite IH]. Qed.

Lemma existsb_false {A} (f : A → bool) l : (∀ x, f x = false) → existsb f l = false.
Proof. intros Hf. induction l as [|x l IH]; cbn; [done|]. by rewrite Hf. Qed.

Lemma items_some {A} (l : list A) : items (Some l) = l.
Proof. done. Qed.

(** The two halves of the selectors of a normalized document. *)
Lemma normalized_sections document ast test : Normalize document = Ok ast →
  existsb test (items (ps_Includes (split_selectors ast))) = existsb test (as_selector false <$> items (pd_Include document)) ∧
  existsb test (items (ps_Excludes (split_selectors ast))) = existsb test (as_selector true <$> items (pd_Exclude document)).
Proof.
  intros (_ & _ & Hp)%Normalize_ok. rewrite split_selectors_spec. cbn [ps_Includes ps_Excludes]. rewrite !items_some !existsb_filter. split; rewrite (existsb_perm _ _ _ Hp) existsb_app !existsb_fmap.
  - rewrite (existsb_false _ (items (pd_Exclude document))); [done|]. rewrite orb_false_r. done.
  - by rewrite (existsb_false _ (items (pd_Include document))).
Qed.

Lemma composed_selects documents asts test : Forall2 (λ document ast, Normalize document = Ok ast) documents asts →
  composition_selects (composed asts) test = existsb (doc_selects test) documents.
Proof.
  intros Hall. unfold composition_selects, composed. cbn [pc_Presets]. rewrite items_some (existsb_perm _ _ _ (merge_sort_Permutation _ _)) existsb_fmap. induction Hall as [|document ast documents asts Hn _ IH]; [done|].
  cbn [existsb]. rewrite IH. f_equal. destruct (normalized_sections document ast test Hn) as [-> ->]. done.
Qed.

(** Presets normalized from documents compose exactly when their names differ without
    regard to case, and a composition selects a name or an address exactly when some document
    lists it to include and does not list it to exclude. *)
Theorem documents_decide documents asts : Forall2 (λ document ast, Normalize document = Ok ast) documents asts →
  ((∃ c, NormalizePresetComposition (Some asts) = Ok c) ↔ NoDup ((λ document, ToLower (pd_Name document)) <$> documents)) ∧
  ∀ c, NormalizePresetComposition (Some asts) = Ok c → pc_Validate c = Ok () ∧
    (∀ domain, pc_SelectsDomain c domain = (valid_destination domain;; Ok (existsb (doc_selects (domain_test domain)) documents))) ∧
    (∀ address, pc_SelectsIP c address = (a ← destination address; Ok (existsb (doc_selects (address_test a)) documents))).
Proof.
  intros Hall. assert (Hvalid : ∀ ast, ast ∈ asts → ast_Validate ast = Ok ()).
  { intros ast [i Hi]%list_elem_of_lookup. destruct (Forall2_lookup_r _ _ _ _ _ Hall Hi) as (document & _ & (_ & Hv & _)%Normalize_ok). done. }
  assert (Hnames : folded_names asts = (λ document, ToLower (pd_Name document)) <$> documents).
  { clear Hvalid. induction Hall as [|document ast documents asts (Hn & _)%Normalize_ok _ IH]; [done|]. unfold folded_names in *. cbn. by rewrite IH Hn. }
  rewrite -Hnames. split.
  - setoid_rewrite NormalizePresetComposition_spec. naive_solver.
  - intros c (_ & Hnd & ->)%NormalizePresetComposition_spec.
    assert (Hv : pc_Validate (composed asts) = Ok ()) by (apply composed_valid; [intros ast Hast; by apply ast_Validate_ok, Hvalid|done]).
    split; [done|]. unfold pc_SelectsDomain, pc_SelectsIP. rewrite Hv. cbn [mbind result_bind].
    split; intros x; [|destruct (destination x); cbn [mbind result_bind]; [|done]]; by rewrite (composed_selects documents asts _ Hall).
Qed.

(** ** Witnesses *)

Definition sample_documents : list PresetDocument := [
  MkPresetDocument 1 "Video" (Some [MkPresetDocumentSelector SelectorDomainSuffix "example.org"; MkPresetDocumentSelector SelectorIPCIDR "10.0.0.0/8"])
    (Some [MkPresetDocumentSelector SelectorDomain "cdn.example.org"; MkPresetDocumentSelector SelectorIPCIDR "10.128.0.0/9"]);
  MkPresetDocument 1 "chat" (Some [MkPresetDocumentSelector SelectorDomain "cdn.example.org"; MkPresetDocumentSelector SelectorIPCIDR "2001:db8::/32"]) (Some [])].

Definition sample_asts : list PresetAST := omap (λ document, match Normalize document with Ok ast => Some ast | Err _ => None end) sample_documents.
Definition sample_composition : PresetComposition := Eval vm_compute in composed sample_asts.

Lemma sample_normalized : Forall2 (λ document ast, Normalize document = Ok ast) sample_documents sample_asts.
Proof. repeat constructor; by vm_compute. Qed.

Lemma sample_composed : NormalizePresetComposition (Some sample_asts) = Ok sample_composition.
Proof. by vm_compute. Qed.

Lemma documents_decide_witness :
  pc_SelectsDomain sample_composition "cdn.example.org" = Ok true ∧ pc_SelectsIP sample_composition (Some (V4 (10 * 2 ^ 24 + 2 ^ 23))) = Ok false.
Proof.
  destruct (documents_decide sample_documents sample_asts sample_normalized) as [_ H].
  destruct (H sample_composition sample_composed) as (_ & Hd & Ha). rewrite Hd Ha. split; by vm_compute.
Defined.

Lemma address_rules_decide_as_presets_witness : ∃ ir node, CompileMatcherIR sample_composition = Ok ir ∧ CompileNodeRoutingMatchers ir = Ok node ∧
  nr_SelectsIP node (Some (V4 (10 * 2 ^ 24))) = Ok true ∧ nr_SelectsIP node (Some (V4 (10 * 2 ^ 24 + 2 ^ 23))) = Ok false.
Proof.
  destruct (address_rules_decide_as_presets sample_composition) as (ir & node & guard & clash & Hir & Hn & _ & _ & H); [by vm_compute|].
  exists ir, node. destruct (H (Some (V4 (10 * 2 ^ 24)))) as [-> _]. destruct (H (Some (V4 (10 * 2 ^ 24 + 2 ^ 23)))) as [-> _].
  split_and!; [done|done|by vm_compute..].
Defined.

Lemma name_rules_decide_as_presets_witness : ∃ ir dns, CompileMatcherIR sample_composition = Ok ir ∧ CompileGatewayDNSMatchers ir = Ok dns ∧
  gd_SelectsDomain dns "www.example.org" = Ok true.
Proof.
  destruct (name_rules_decide_as_presets sample_composition) as (ir & node & guard & dns & clash & Hir & _ & _ & Hd & _ & H); [by vm_compute|].
  exists ir, dns. assert (Hsep : separable ir).
  { rewrite CompileMatcherIR_ok in Hir; [by vm_compute|]. assert (ir = compiled_clauses sample_composition) as -> by congruence. split; [by vm_compute|].
    change (wides (compiled_clauses sample_composition)) with ["example.org"]. change (exacts (compiled_clauses sample_composition)) with ["cdn.example.org"; "cdn.example.org"].
    intros s ->%list_elem_of_singleton Hin. apply elem_of_cons in Hin as [Hin|[Hin|Hin]%elem_of_cons]; [discriminate Hin|discriminate Hin|apply elem_of_nil in Hin; contradiction]. }
  destruct (H Hsep "www.example.org") as (_ & _ & -> & _). split_and!; [done|done|by vm_compute].
Defined.

(** The clauses select the name, the rules do not. *)
Lemma shadowed_suffix_is_dropped_witness : ir_SelectsDomain shadowing_clauses "x.a.example.com" = Ok true ∧
  ∃ program, compileMatcherDecisionProgram shadowing_clauses = Ok program ∧ mp_selectsDomain program "x.a.example.com" = Ok false.
Proof.
  split; [by vm_compute|]. destruct (shadowed_suffix_is_dropped shadowing_clauses "x.a.example.com" "a.example.com" "example.com") as (program & Hp & _ & Hd).
  - by vm_compute.
  - by vm_compute.
  - assert (Hw : wides shadowing_clauses = ["a.example.com"; "com"; "example.com"]) by by vm_compute.
    assert (Hall : ∀ P : string → Prop, P "a.example.com" → P "com" → P "example.com" → ∀ u, u ∈ wides shadowing_clauses → P u).
    { rewrite Hw. intros P H1 H2 H3 u Hu. rewrite !elem_of_cons elem_of_nil in Hu. naive_solver. }
    split; (split_and!; [rewrite Hw; set_solver|try done..|intros u Hu; pattern u; apply Hall; [by vm_compute..|exact Hu]]).
  - by vm_compute; left.
  - change (exacts shadowing_clauses) with ["a.example.com"]. set_solver.
  - change (exacts shadowing_clauses) with ["a.example.com"]. set_solver.
  - exists program. by split; [|rewrite Hd; vm_compute].
Defined.
