(* ===== verification/StateValidate.v ===== *)
(** * The state validator ([internal/model/validate.go], [State.Validate])

    [State.Validate] is one long function; here each of its loops is a definition
    and [Validate] runs them in the order of the source, handing the maps a loop
    builds to the ones after it. *)

From S2P Require Import Prelude GoTime GoText GoNet Types Checks Identity Address Expose Idempotency Resources.

Local Open Scope string_scope.
Local Open Scope list_scope.

#[export] Instance TransportKind_countable : Countable TransportKind.
Proof.
  refine (inj_countable' (λ k, match k with
    | TransportStandard => inl true | TransportRestricted => inl false | TransportKindUnsupported raw => inr raw end)
    (λ s, match s with inl true => TransportStandard | inl false => TransportRestricted | inr raw => TransportKindUnsupported raw end) _).
  by intros [].
Defined.

Definition terminalOperationState (s : OperationState) : bool :=
  bool_decide (s = OperationFailed) || bool_decide (s = OperationCompleted).

Definition targetExists (kind : TargetKind) (id : string) (nodes : gmap string Node) (clients : gmap string Client) : bool :=
  match kind with
  | TargetNode => bool_decide (is_Some (nodes !! id))
  | TargetClient => bool_decide (is_Some (clients !! id))
  | TargetUnsupported _ => false
  end.

(** ** Host, components and identities *)

Definition validate_dns (state : State) : result unit :=
  match st_DNS state with
  | None => Ok ()
  | Some dns =>
      wrap "dns" (dns_Validate dns);;
      let wantScope := if bool_decide (host_Role (st_Host state) = RoleGateway) then DNSUpstreamGateway else DNSUpstreamDirect in
      reject (negb (bool_decide (dns_Scope dns = wantScope))) (Invalid "dns.scope")
  end.

Definition validate_handshake_host (state : State) : result unit :=
  match st_HandshakeHost state with
  | None => Ok ()
  | Some host =>
      wrap "handshake_host" (hh_Validate host);;
      reject (negb (hh_ListVersion host =? manifest_HandshakeHostListVersion (st_Components state))%Z)
        (Invalid "handshake_host.list_version")
  end.

Definition validate_enrollment_identity (state : State) : result unit :=
  match st_EnrollmentIdentity state with
  | None => Ok ()
  | Some identity =>
      reject (negb (bool_decide (host_Role (st_Host state) = RoleGateway))) (Invalid "enrollment_signing_identity");;
      wrap "enrollment_signing_identity" (ident_Validate identity)
  end.

Definition missing_collection (state : State) : bool :=
  is_nil (st_Invites state) || is_nil (st_Nodes state) || is_nil (st_Clients state) || is_nil (st_Presets state)
  || is_nil (st_Policies state) || is_nil (st_Transports state) || is_nil (st_Exposes state)
  || is_nil (st_Certificates state) || is_nil (st_Operations state) || is_nil (st_Logging state) || is_nil (st_Backups state).

Definition validate_head (state : State) : result unit :=
  validateSchema (st_SchemaVersion state) StateSchemaVersion;;
  reject (st_Generation state =? 0)%N (Invalid "generation");;
  wrap "host" (host_Validate (st_Host state));;
  validate_dns state;;
  wrap "components" (manifest_Validate (st_Components state));;
  reject (negb (String.eqb (manifest_TargetOS (st_Components state)) (host_OS (st_Host state) +:+ " " +:+ host_OSVersion (st_Host state)))
          || negb (String.eqb (manifest_TargetArchitecture (st_Components state)) (host_Architecture (st_Host state))))
    (Invalid "components");;
  reject ((st_SchemaVersion state <? manifest_StateSchemaMinimum (st_Components state))
          || (manifest_StateSchemaMaximum (st_Components state) <? st_SchemaVersion state))%Z (Invalid "components");;
  validate_handshake_host state;;
  validate_enrollment_identity state;;
  reject (missing_collection state) (Invalid "state").

(** ** Invites, nodes and clients *)

Definition validate_invites (state : State) : result unit :=
  _ ← range (λ index invite inviteIDs,
    wrap (indexPath "invites" index) (invite_Validate invite);;
    reject (negb (bool_decide (host_Role (st_Host state) = RoleGateway))) (Invalid (indexPath "invites" index));;
    reject (match st_EnrollmentIdentity state with
            | None => true
            | Some identity => negb (String.eqb (inv_EnrollmentFingerprint invite) (ident_Fingerprint identity))
            end) (Invalid (indexPath "invites" index +:+ ".enrollment_fingerprint"));;
    check_unique (inv_ID invite) (Invalid (indexPath "invites" index +:+ ".id")) inviteIDs) (items (st_Invites state)) ∅;
  Ok ().

(** A joined node's address is a non-gateway address of the gateway's block. *)
Definition overlay_inside (node : Node) : bool :=
  match node_Gateway node with
  | None => true
  | Some trust =>
      match ParsePrefix (gw_NodeCIDR trust), ParseAddr (node_OverlayIPv4 node), ParseAddr (gw_GatewayOverlayIPv4 trust) with
      | Some prefix, Some address, Some gateway => prefix_contains prefix address && negb (bool_decide (address = gateway))
      | _, _, _ => false
      end
  end.

Definition validate_node_records (generation : N) (path : string) (node : Node) : result unit :=
  range_check (λ recordIndex record,
    let recordPath := path +:+ "." +:+ indexPath "idempotency_records" recordIndex in
    reject (generation <? idem_StateGeneration record)%N (Invalid (recordPath +:+ ".state_generation"));;
    reject (Before (idem_RecordedAt record) (node_CreatedAt node)) (Invalid (recordPath +:+ ".recorded_at")))
    (items (node_IdempotencyRecords node)).

(** The maps [nodes] and [nodeNames]; the owner of a name is kept for the message
    only, so the second is a set. *)
Definition validate_nodes (state : State) : result (gmap string Node * gset string) :=
  range (λ index node '(nodes, nodeNames),
    wrap (indexPath "nodes" index) (node_Validate node);;
    reject (negb (overlay_inside node)) (Invalid (indexPath "nodes" index +:+ ".overlay_ipv4"));;
    validate_node_records (st_Generation state) (indexPath "nodes" index) node;;
    reject (bool_decide (is_Some ((nodes : gmap string Node) !! node_ID node))) (Invalid (indexPath "nodes" index +:+ ".id"));;
    let nodes := <[node_ID node := node]> nodes in
    if bool_decide (node_Lifecycle node = LifecycleDeleted) then Ok (nodes, nodeNames)
    else nodeNames ← check_unique (ToLower (node_Name node)) (Invalid (indexPath "nodes" index +:+ ".name")) nodeNames;
         Ok (nodes, nodeNames)) (items (st_Nodes state)) (∅, ∅).

Definition validate_recovery_invites (state : State) (nodes : gmap string Node) : result unit :=
  range_check (λ index invite,
    if String.eqb (inv_Purpose invite) "recover" then
      reject (negb (bool_decide (is_Some (nodes !! inv_NodeID invite)))) (Invalid (indexPath "invites" index +:+ ".node_id"))
    else Ok ()) (items (st_Invites state)).

Definition validate_clients (state : State) : result (gmap string Client * gset string) :=
  range (λ index client '(clients, clientNames),
    wrap (indexPath "clients" index) (client_Validate client);;
    reject (bool_decide (is_Some ((clients : gmap string Client) !! client_ID client))) (Invalid (indexPath "clients" index +:+ ".id"));;
    let clients := <[client_ID client := client]> clients in
    if bool_decide (client_Lifecycle client = LifecycleDeleted) then Ok (clients, clientNames)
    else clientNames ← check_unique (ToLower (client_Name client)) (Invalid (indexPath "clients" index +:+ ".name")) clientNames;
         Ok (clients, clientNames)) (items (st_Clients state)) (∅, ∅).

(** Every address in use: those of the resources that are not deleted. *)
Definition live_assignments (state : State) : list AddressAssignment :=
  ((λ n, Assign TargetNode (node_ID n) (node_OverlayIPv4 n)) <$>
     filter (λ n, node_Lifecycle n ≠ LifecycleDeleted) (items (st_Nodes state))) ++
  ((λ c, Assign TargetClient (client_ID c) (client_OverlayIPv4 c)) <$>
     filter (λ c, client_Lifecycle c ≠ LifecycleDeleted) (items (st_Clients state))).

Definition validate_addresses (state : State) : result unit :=
  if bool_decide (host_Role (st_Host state) = RoleGateway) then
    _ ← wrap "addresses" (NewAddressAllocator (host_ClientCIDR (st_Host state)) (host_NodeCIDR (st_Host state)) (live_assignments state));
    Ok ()
  else Ok ().

(** ** Presets and policies *)

Definition validate_presets (state : State) : result (gset string) :=
  range (λ index preset presets,
    wrap (indexPath "presets" index) (preset_Validate preset);;
    check_unique (ToLower (preset_Name preset)) (Invalid (indexPath "presets" index +:+ ".name")) presets)
    (items (st_Presets state)) ∅.

Definition validate_policies (state : State) (nodes : gmap string Node) (clients : gmap string Client) (presets : gset string)
    : result (gmap string Policy) :=
  range (λ index policy policies,
    wrap (indexPath "policies" index) (policy_Validate policy);;
    let key := targetKey (policy_TargetKind policy) (policy_TargetID policy) in
    reject (bool_decide (is_Some ((policies : gmap string Policy) !! key))) (Invalid (indexPath "policies" index));;
    reject (negb (targetExists (policy_TargetKind policy) (policy_TargetID policy) nodes clients))
      (Invalid (indexPath "policies" index +:+ ".target_id"));;
    range_check (λ _ name, reject (negb (bool_decide (ToLower name ∈ presets))) (Invalid (indexPath "policies" index +:+ ".preset_names")))
      (items (policy_PresetNames policy));;
    Ok (<[key := policy]> policies)) (items (st_Policies state)) ∅.

Definition presets_match (policies : gmap string Policy) (kind : TargetKind) (id : string) (assigned : slice string) : bool :=
  match policies !! targetKey kind id with
  | Some policy => equalStringSet (items (policy_PresetNames policy)) (items assigned)
  | None => (length (items assigned) =? 0)%nat
  end.

Definition validate_node_presets (state : State) (policies : gmap string Policy) : result unit :=
  range_check (λ _ node, reject (negb (presets_match policies TargetNode (node_ID node) (node_AssignedPresets node))) (Invalid "nodes"))
    (items (st_Nodes state)).

Definition validate_client_presets (state : State) (policies : gmap string Policy) : result unit :=
  range_check (λ _ client,
    reject (negb (presets_match policies TargetClient (client_ID client) (client_AssignedPresets client))) (Invalid "clients"))
    (items (st_Clients state)).

(** The preset snapshots of a node host are the ones assigned to it. *)
Definition validate_snapshots (state : State) : result unit :=
  if bool_decide (host_Role (st_Host state) = RoleNode) then
    match items (st_Nodes state) with
    | [] => reject (negb (length (items (st_Presets state)) =? 0)%nat) (Invalid "presets")
    | node :: _ =>
        let assigned : gset string := list_to_set (ToLower <$> items (node_AssignedPresets node)) in
        reject (negb (length (items (st_Presets state)) =? size assigned)%nat) (Invalid "presets");;
        range_check (λ _ preset, reject (negb (bool_decide (ToLower (preset_Name preset) ∈ assigned))) (Invalid "presets"))
          (items (st_Presets state))
    end
  else Ok ().

(** ** Transports *)

Definition owner_generation (kind : TargetKind) (id : string) (nodes : gmap string Node) (clients : gmap string Client) : N :=
  if bool_decide (kind = TargetNode) then from_option node_CredentialGeneration 0%N (nodes !! id)
  else from_option client_CredentialGeneration 0%N (clients !! id).

(** [transportStates]; [transportKinds] always holds the keys of its entries. *)
Definition transport_states := gmap string (gmap TransportKind TransportState).

Definition validate_transports (state : State) (nodes : gmap string Node) (clients : gmap string Client) : result transport_states :=
  range (λ index transport (states : transport_states),
    wrap (indexPath "transports" index) (transport_Validate transport);;
    reject (negb (targetExists (tr_OwnerKind transport) (tr_OwnerID transport) nodes clients))
      (Invalid (indexPath "transports" index +:+ ".owner_id"));;
    reject (bool_decide (tr_Kind transport = TransportRestricted) &&
            match st_HandshakeHost state with
            | None => true
            | Some host => negb (String.eqb (tr_HandshakeHost transport) (hh_Hostname host))
            end) (Invalid (indexPath "transports" index +:+ ".handshake_host"));;
    reject (negb (tr_CredentialGeneration transport =? owner_generation (tr_OwnerKind transport) (tr_OwnerID transport) nodes clients)%N)
      (Invalid (indexPath "transports" index +:+ ".credential_generation"));;
    let owner := targetKey (tr_OwnerKind transport) (tr_OwnerID transport) in
    let ownerStates := default ∅ (states !! owner) in
    reject (bool_decide (is_Some (ownerStates !! tr_Kind transport))) (Invalid (indexPath "transports" index +:+ ".kind"));;
    Ok (<[owner := <[tr_Kind transport := tr_State transport]> ownerStates]> states)) (items (st_Transports state)) ∅.

Definition validateActiveTransport (kind : TargetKind) (id : string) (active : TransportKind) (lifecycle : Lifecycle)
    (states : transport_states) : result unit :=
  let ownerStates := default ∅ (states !! targetKey kind id) in
  if bool_decide (ownerStates = ∅) then reject (bool_decide (lifecycle = LifecycleActive)) (Invalid "transports")
  else
    reject (bool_decide (lifecycle = LifecycleDeleted)) (Invalid "transports");;
    if bool_decide (lifecycle = LifecycleRevoked) then
      reject (negb (bool_decide (map_Forall (λ _ s, s = TransportDisabled) ownerStates))) (Invalid "transports")
    else
      reject (negb (match ownerStates !! active with
                    | Some s => bool_decide (s = TransportActive) || bool_decide (s = TransportDegraded)
                    | None => false
                    end)) (Invalid "transports");;
      reject (negb (bool_decide (map_Forall (λ k s, k = active ∨ s = TransportStandby) ownerStates))) (Invalid "transports").

Definition validate_active_transports (state : State) (states : transport_states) : result unit :=
  range_check (λ _ node, validateActiveTransport TargetNode (node_ID node) (node_ActiveTransport node) (node_Lifecycle node) states)
    (items (st_Nodes state));;
  range_check (λ _ client,
    validateActiveTransport TargetClient (client_ID client) (client_ActiveTransport client) (client_Lifecycle client) states)
    (items (st_Clients state)).

(** ** Exposes *)

Record expose_seen := ExposeSeen {
  exposeIDs : gset string;
  exposeTunnelPorts : gset Z;
  activeExposeRoutes : exposeRouteNode;
  activeExposeRouteKeys : gset string;
  exposeNames : gset (string * string)       (** node and lower-case name *)
}.

Definition expose_key (expose : Expose) : string := RouteMode_string (expose_RouteMode expose) +:+ ":" +:+ expose_Path expose.

(** The route of an expose that is not disabled enters the index. *)
Definition claim_route (path : string) (expose : Expose) (index : exposeRouteNode) (keys : gset string)
    : result (exposeRouteNode * gset string) :=
  if bool_decide (expose_State expose = ExposeDisabled) then Ok (index, keys)
  else
    reject (bool_decide (expose_key expose ∈ keys)) (Invalid path);;
    '(index', prior) ← wrap path (Add_route index (expose_RouteMode expose) (expose_Path expose) (expose_ID expose));
    reject (negb (String.eqb prior "")) (Invalid path);;
    Ok (index', {[expose_key expose]} ∪ keys).

Definition claim_name (path : string) (expose : Expose) (names : gset (string * string)) : result (gset (string * string)) :=
  if String.eqb (expose_Name expose) "" then Ok names
  else
    let key := (expose_NodeID expose, ToLower (expose_Name expose)) in
    reject (bool_decide (key ∈ names)) (Invalid path);;
    Ok ({[key]} ∪ names).

Definition validate_exposes (state : State) (nodes : gmap string Node) : result expose_seen :=
  range (λ index expose seen,
    let path := indexPath "exposes" index in
    wrap path (expose_Validate expose);;
    match nodes !! expose_NodeID expose with
    | None => Err (Invalid (path +:+ ".node_id"))
    | Some node =>
        reject (negb (bool_decide (node_Lifecycle node = LifecycleActive)) && negb (bool_decide (expose_State expose = ExposeDisabled)))
          (Invalid (path +:+ ".state"))
    end;;
    exposeIDs ← check_unique (expose_ID expose) (Invalid (path +:+ ".id")) (exposeIDs seen);
    reject (bool_decide (expose_TunnelPort expose ∈ exposeTunnelPorts seen)) (Invalid (path +:+ ".tunnel_port"));;
    let exposeTunnelPorts := {[expose_TunnelPort expose]} ∪ exposeTunnelPorts seen in
    '(routes, keys) ← claim_route (path +:+ ".path") expose (activeExposeRoutes seen) (activeExposeRouteKeys seen);
    names ← claim_name (path +:+ ".name") expose (exposeNames seen);
    Ok (ExposeSeen exposeIDs exposeTunnelPorts routes keys names))
    (items (st_Exposes state)) (ExposeSeen ∅ ∅ newRouteNode ∅ ∅).

(** ** Certificates, operations, logging and backups *)

Definition validate_certificates (state : State) (nodes : gmap string Node) : result unit :=
  _ ← range (λ index certificate certificateIDs,
    wrap (indexPath "certificates" index) (cert_Validate certificate);;
    certificateIDs ← check_unique (cert_ID certificate) (Invalid (indexPath "certificates" index +:+ ".id")) certificateIDs;
    reject (if String.eqb (cert_OwnerKind certificate) "node" then negb (bool_decide (is_Some (nodes !! cert_OwnerID certificate)))
            else negb (String.eqb (cert_OwnerKind certificate) "host") || negb (String.eqb (cert_OwnerID certificate) (host_ID (st_Host state))))
      (Invalid (indexPath "certificates" index +:+ ".owner_id"));;
    Ok certificateIDs) (items (st_Certificates state)) ∅;
  Ok ().

Definition validate_operations (state : State) : result (gmap string Operation * gset string) :=
  range (λ index operation '(operations, requestIDs),
    wrap (indexPath "operations" index) (op_Validate operation);;
    reject (bool_decide (is_Some ((operations : gmap string Operation) !! op_ID operation))) (Invalid (indexPath "operations" index +:+ ".id"));;
    let operations := <[op_ID operation := operation]> operations in
    if String.eqb (op_RequestID operation) "" then Ok (operations, requestIDs)
    else requestIDs ← check_unique (op_RequestID operation) (Invalid (indexPath "operations" index +:+ ".request_id")) requestIDs;
         Ok (operations, requestIDs)) (items (st_Operations state)) (∅, ∅).

Definition validateHandshakeHostChange (state : State) (operations : gmap string Operation) : result unit :=
  match st_HandshakeHostChange state with
  | None => Ok ()
  | Some change =>
      reject (negb (bool_decide (host_Role (st_Host state) = RoleGateway))) (Invalid "handshake_host_change");;
      wrap "handshake_host_change" (hc_Validate change);;
      let listVersion := manifest_HandshakeHostListVersion (st_Components state) in
      reject (negb (hh_ListVersion (hc_Previous change) =? listVersion)%Z || negb (hh_ListVersion (hc_Candidate change) =? listVersion)%Z)
        (Invalid "handshake_host_change");;
      match operations !! hc_OperationID change with
      | None => Err (Invalid "handshake_host_change.operation_id")
      | Some operation =>
          reject (negb (bool_decide (op_Type operation = OperationHandshakeHost))
                  || negb (String.eqb (op_TargetKind operation) "transport")
                  || negb (String.eqb (op_TargetID operation) (hh_CandidateID (hc_Candidate change))))
            (Invalid "handshake_host_change.operation_id");;
          match hc_State change with
          | HandshakeHostPrepared =>
              reject (negb (bool_decide (st_HandshakeHost state = Some (hc_Previous change)))
                      || negb (bool_decide (op_State operation = OperationPending))) (Invalid "handshake_host_change")
          | HandshakeHostCommitted =>
              reject (negb (bool_decide (st_HandshakeHost state = Some (hc_Candidate change)))
                      || negb (bool_decide (op_State operation = OperationActive))) (Invalid "handshake_host_change")
          | HandshakeHostChangeUnsupported _ => Ok ()
          end
      end
  end.

(** The scopes of the active sessions, newest first. *)
Definition validate_logging (state : State) : result (gset string * list LogScope) :=
  range (λ index session '(loggingIDs, scopes),
    wrap (indexPath "logging" index) (log_Validate session);;
    loggingIDs ← check_unique (log_ID session) (Invalid (indexPath "logging" index +:+ ".id")) loggingIDs;
    if negb (bool_decide (log_State session = LogActive)) then Ok (loggingIDs, scopes)
    else
      reject (bool_decide (log_Scope session ∈ scopes)) (Invalid (indexPath "logging" index +:+ ".scope"));;
      reject (bool_decide (log_Scope session = LogAll) && negb (length scopes =? 0)%nat) (Invalid (indexPath "logging" index +:+ ".scope"));;
      reject (bool_decide (LogAll ∈ scopes)) (Invalid (indexPath "logging" index +:+ ".scope"));;
      Ok (loggingIDs, log_Scope session :: scopes)) (items (st_Logging state)) (∅, []).

Definition validate_backups (state : State) : result unit :=
  _ ← range (λ index backup backupIDs,
    wrap (indexPath "backups" index) (backup_Validate backup);;
    check_unique (backup_ID backup) (Invalid (indexPath "backups" index +:+ ".id")) backupIDs) (items (st_Backups state)) ∅;
  Ok ().

(** ** The role of the host *)

(** Every request that is still open is the one the node recorded as pending. *)
Definition validate_pending (state : State) (pendingRequestID : string) : result unit :=
  matchedPending ← range (λ index operation matchedPending,
    if String.eqb (op_RequestID operation) "" || terminalOperationState (op_State operation) then Ok matchedPending
    else
      reject (String.eqb pendingRequestID "" || negb (String.eqb (op_RequestID operation) pendingRequestID))
        (Invalid (indexPath "operations" index +:+ ".request_id"));;
      Ok true) (items (st_Operations state)) false;
  reject (negb (String.eqb pendingRequestID "") && negb matchedPending) (Invalid "nodes[0].gateway.pending_request_id").

Definition validate_local (state : State) (localID : string) : result unit :=
  range_check (λ index policy,
    reject (negb (bool_decide (policy_TargetKind policy = TargetNode)) || negb (String.eqb (policy_TargetID policy) localID))
      (Invalid (indexPath "policies" index))) (items (st_Policies state));;
  range_check (λ index transport,
    reject (negb (bool_decide (tr_OwnerKind transport = TargetNode)) || negb (String.eqb (tr_OwnerID transport) localID))
      (Invalid (indexPath "transports" index))) (items (st_Transports state));;
  range_check (λ index expose, reject (negb (String.eqb (expose_NodeID expose) localID)) (Invalid (indexPath "exposes" index)))
    (items (st_Exposes state)).

Definition validate_role (state : State) : result unit :=
  match host_Role (st_Host state) with
  | RoleGateway =>
      range_check (λ index node, reject (bool_decide (node_Gateway node ≠ None)) (Invalid (indexPath "nodes" index +:+ ".gateway")))
        (items (st_Nodes state))
  | RoleNode =>
      reject (1 <? length (items (st_Nodes state)))%nat (Invalid "nodes");;
      reject (negb (length (items (st_Invites state)) =? 0)%nat || negb (length (items (st_Clients state)) =? 0)%nat
              || negb (length (items (st_Backups state)) =? 0)%nat) (Invalid "host.role");;
      match items (st_Nodes state) with
      | [node] =>
          match node_Gateway node with
          | None => Err (Invalid "nodes[0].gateway")
          | Some trust =>
              reject (negb (length (items (node_IdempotencyRecords node)) =? 0)%nat) (Invalid "nodes[0].idempotency_records");;
              validate_pending state (gw_PendingRequestID trust)
          end;;
          validate_local state (node_ID node)
      | _ => validate_local state ""
      end
  | RoleUnsupported _ => Ok ()
  end.

Definition Validate (state : State) : result unit :=
  validate_head state;;
  validate_invites state;;
  '(nodes, _) ← validate_nodes state;
  validate_recovery_invites state nodes;;
  '(clients, _) ← validate_clients state;
  validate_addresses state;;
  presets ← validate_presets state;
  policies ← validate_policies state nodes clients presets;
  validate_node_presets state policies;;
  validate_snapshots state;;
  validate_client_presets state policies;;
  states ← validate_transports state nodes clients;
  validate_active_transports state states;;
  _ ← validate_exposes state nodes;
  validate_certificates state nodes;;
  '(operations, _) ← validate_operations state;
  validateHandshakeHostChange state operations;;
  _ ← validate_logging state;
  validate_backups state;;
  validate_role state.

(** [AddressAllocatorFromState] ([internal/model/address.go]) restores the same
    addresses in another order: clients before nodes. *)
Definition restored_assignments (state : State) : list AddressAssignment :=
  ((λ c, Assign TargetClient (client_ID c) (client_OverlayIPv4 c)) <$>
     filter (λ c, client_Lifecycle c ≠ LifecycleDeleted) (items (st_Clients state))) ++
  ((λ n, Assign TargetNode (node_ID n) (node_OverlayIPv4 n)) <$>
     filter (λ n, node_Lifecycle n ≠ LifecycleDeleted) (items (st_Nodes state))).

Definition AddressAllocatorFromState (state : State) : result AddressAllocator :=
  wrap "validate state" (Validate state);;
  reject (negb (bool_decide (host_Role (st_Host state) = RoleGateway))) (Message "address allocator requires gateway state");;
  NewAddressAllocator (host_ClientCIDR (st_Host state)) (host_NodeCIDR (st_Host state)) (restored_assignments state).
