(* ===== verification/Codec.v ===== *)
(** * The strict JSON codec ([internal/model/codec.go])

    Documents are read twice: once as tokens, to reject a repeated field at any depth, and once
    into the value.  The tokens and the two conversions are [encoding/json]'s. *)

From S2P Require Import Prelude GoTime GoText GoNet Types Checks Resources StateValidate.

Local Open Scope string_scope.
Local Open Scope list_scope.

(** ** Tokens of a [json.Decoder] *)

Inductive delimiter := ObjectOpen | ObjectClose | ArrayOpen | ArrayClose.
#[export] Instance delimiter_dec : EqDecision delimiter.
Proof. solve_decision. Defined.

Inductive token := Delim (d : delimiter) | Text (s : string) | Scalar.

(** What [Decode] finds after the first document. *)
Inductive rest_of_input := AtEOF | AnotherDocument | TrailingError (e : error).

Class JSONTokens := {
  (** The tokens of the text, and the error after them unless the text ends there. *)
  tokens : string → list token * option error
}.
Class JSONValue (T : Type) := {
  marshal : T → result string;
  (** The first document with unknown fields refused, and what follows it. *)
  decode : string → result (T * rest_of_input)
}.

Definition EOF : error := Message "EOF".
Definition newline : string := bytes [10%N].

Section codec.
Context `{!JSONTokens}.

(** The token [closing] next, or an error. *)
Definition expect (closing : delimiter) (message : string) (stop : error) (ts : list token) : result (list token) :=
  match ts with
  | [] => Err stop
  | Delim d :: ts => if decide (d = closing) then Ok ts else Err (Message message)
  | _ :: _ => Err (Message message)
  end.

(** [decoder.More()]: the next token does not close a value; without one the error is next. *)
Definition More (ts : list token) : bool :=
  match ts with Delim ObjectClose :: _ | Delim ArrayClose :: _ | [] => false | _ => true end.

(** Every call consumes a token, so fuel above the number of tokens is enough. *)
Fixpoint walkJSONValue (fuel : nat) (stop : error) (ts : list token) : result (list token) :=
  match fuel with
  | O => Err (Message "out of fuel")
  | S fuel =>
      match ts with
      | [] => Err stop
      | Text _ :: ts | Scalar :: ts => Ok ts
      | Delim ObjectOpen :: ts => walk_members fuel stop [] ts
      | Delim ArrayOpen :: ts => walk_elements fuel stop ts
      | Delim _ :: _ => Err (Message "unexpected JSON delimiter")
      end
  end
with walk_members (fuel : nat) (stop : error) (keys : list string) (ts : list token) : result (list token) :=
  match fuel with
  | O => Err (Message "out of fuel")
  | S fuel =>
      if More ts then
        match ts with
        | [] => Err stop
        | Text key :: ts =>
            if decide (key ∈ keys) then Err (Message "duplicate JSON field")
            else ts ← walkJSONValue fuel stop ts; walk_members fuel stop (key :: keys) ts
        | _ :: _ => Err (Message "object key is not a string")
        end
      else expect ObjectClose "invalid JSON object closing token" stop ts
  end
with walk_elements (fuel : nat) (stop : error) (ts : list token) : result (list token) :=
  match fuel with
  | O => Err (Message "out of fuel")
  | S fuel =>
      if More ts then ts ← walkJSONValue fuel stop ts; walk_elements fuel stop ts
      else expect ArrayClose "invalid JSON array closing token" stop ts
  end.

Definition rejectDuplicateObjectKeys (data : string) : result unit :=
  let '(ts, stop) := tokens data in
  rest ← walkJSONValue (S (length ts)) (default EOF stop) ts;
  match rest, stop with
  | _ :: _, _ => Err (Message "multiple JSON documents")
  | [], Some e => Err (Wrapped "trailing JSON" e)
  | [], None => Ok ()
  end.

Section values.
Context {T : Type} `{!JSONValue T}.

Definition decodeStrict (data : string) : result T :=
  rejectDuplicateObjectKeys data;;
  '(value, rest) ← decode data;
  match rest with
  | AtEOF => Ok value
  | AnotherDocument => Err (Message "multiple JSON documents")
  | TrailingError e => Err (Wrapped "trailing JSON" e)
  end.

Definition encodeIndented (value : T) : result string := data ← marshal value; Ok (data +:+ newline).
End values.

Definition DecodeState `{!JSONValue State} (data : string) : result State :=
  state ← wrap "decode state" (decodeStrict data);
  wrap "validate state" (Validate state);;
  Ok state.

Definition EncodeState `{!JSONValue State} (state : State) : result string :=
  wrap "validate state" (Validate state);;
  encodeIndented state.

Definition DecodePreset `{!JSONValue Preset} (data : string) : result Preset :=
  preset ← wrap "decode preset" (decodeStrict data);
  wrap "validate preset" (preset_Validate preset);;
  Ok preset.

Definition EncodePreset `{!JSONValue Preset} (preset : Preset) : result string :=
  wrap "validate preset" (preset_Validate preset);;
  encodeIndented preset.

Definition DecodeComponentManifest `{!JSONValue ComponentManifest} (data : string) : result ComponentManifest :=
  manifest ← wrap "decode component manifest" (decodeStrict data);
  wrap "validate component manifest" (manifest_Validate manifest);;
  Ok manifest.

Definition EncodeComponentManifest `{!JSONValue ComponentManifest} (manifest : ComponentManifest) : result string :=
  wrap "validate component manifest" (manifest_Validate manifest);;
  encodeIndented manifest.

(** ** Documents without repeated fields *)

Inductive is_value : list token → Prop :=
  | value_text s : is_value [Text s]
  | value_scalar : is_value [Scalar]
  | value_object ms : is_members [] ms → is_value (Delim ObjectOpen :: ms ++ [Delim ObjectClose])
  | value_array es : is_elements es → is_value (Delim ArrayOpen :: es ++ [Delim ArrayClose])
with is_members : list string → list token → Prop :=
  | members_nil keys : is_members keys []
  | members_cons keys key v ms : (key ∉ keys) → is_value v → is_members (key :: keys) ms → is_members keys (Text key :: v ++ ms)
with is_elements : list token → Prop :=
  | elements_nil : is_elements []
  | elements_cons v es : is_value v → is_elements es → is_elements (v ++ es).

Scheme is_value_mut := Minimality for is_value Sort Prop
  with is_members_mut := Minimality for is_members Sort Prop
  with is_elements_mut := Minimality for is_elements Sort Prop.
Combined Scheme document_ind from is_value_mut, is_members_mut, is_elements_mut.

Lemma expect_ok closing message stop ts rest : expect closing message stop ts = Ok rest ↔ ts = Delim closing :: rest.
Proof.
  unfold expect. destruct ts as [|[d|s|] ts]; [naive_solver| |naive_solver|naive_solver]. destruct (decide (d = closing)) as [->|]; naive_solver.
Qed.

Lemma value_more v rest : is_value v → More (v ++ rest) = true.
Proof. by inversion 1. Qed.

(** What is consumed is a value, the rest of an object, or the rest of an array. *)
Lemma walk_sound fuel stop :
  (∀ ts rest, walkJSONValue fuel stop ts = Ok rest → ∃ v, is_value v ∧ ts = v ++ rest) ∧
  (∀ keys ts rest, walk_members fuel stop keys ts = Ok rest → ∃ ms, is_members keys ms ∧ ts = ms ++ Delim ObjectClose :: rest) ∧
  (∀ ts rest, walk_elements fuel stop ts = Ok rest → ∃ es, is_elements es ∧ ts = es ++ Delim ArrayClose :: rest).
Proof.
  induction fuel as [|fuel (IHv & IHm & IHe)]; [done|]. split_and!.
  - intros [|[[]|s|] ts] rest; cbn [walkJSONValue]; [done|..].
    + intros (ms & Hms & ->)%IHm. exists (Delim ObjectOpen :: ms ++ [Delim ObjectClose]). split; [by constructor|]. by rewrite /= -app_assoc.
    + done.
    + intros (es & Hes & ->)%IHe. exists (Delim ArrayOpen :: es ++ [Delim ArrayClose]). split; [by constructor|]. by rewrite /= -app_assoc.
    + done.
    + intros [= <-]. exists [Text s]. split; [constructor|done].
    + intros [= <-]. exists [Scalar]. split; [constructor|done].
  - intros keys ts rest. cbn [walk_members]. destruct (More ts) eqn:Hmore.
    + destruct ts as [|[d|key|] ts]; [done|done| |done]. destruct (decide (key ∈ keys)) as [|Hnew]; [done|].
      intros (ts' & (v & Hv & ->)%IHv & (ms & Hms & ->)%IHm)%bind_ok. exists (Text key :: v ++ ms). split; [by constructor|]. by rewrite /= -app_assoc.
    + intros ->%expect_ok. exists []. split; [constructor|done].
  - intros ts rest. cbn [walk_elements]. destruct (More ts) eqn:Hmore.
    + intros (ts' & (v & Hv & ->)%IHv & (es & Hes & ->)%IHe)%bind_ok. exists (v ++ es). split; [by constructor|]. by rewrite -app_assoc.
    + intros ->%expect_ok. exists []. split; [constructor|done].
Qed.

(** Enough fuel: more than the number of tokens to consume. *)
Lemma walk_complete stop :
  (∀ v, is_value v → ∀ fuel rest, length v < fuel → walkJSONValue fuel stop (v ++ rest) = Ok rest) ∧
  (∀ keys ms, is_members keys ms → ∀ fuel rest, length ms < fuel → walk_members fuel stop keys (ms ++ Delim ObjectClose :: rest) = Ok rest) ∧
  (∀ es, is_elements es → ∀ fuel rest, S (length es) < fuel → walk_elements fuel stop (es ++ Delim ArrayClose :: rest) = Ok rest).
Proof.
  apply document_ind.
  - by intros s [|fuel] rest; cbn; [lia|].
  - by intros [|fuel] rest; cbn; [lia|].
  - intros ms _ IH [|fuel] rest Hf; cbn in *; [lia|]. rewrite length_app in Hf. cbn in Hf. rewrite -app_assoc. apply IH. lia.
  - intros es _ IH [|fuel] rest Hf; cbn in *; [lia|]. rewrite length_app in Hf. cbn in Hf. rewrite -app_assoc. apply IH. lia.
  - by intros keys [|fuel] rest Hf; cbn in *; [lia|].
  - intros keys key v ms Hnew _ IHv _ IHm [|fuel] rest Hf; cbn in *; [lia|]. rewrite length_app in Hf.
    destruct (decide (key ∈ keys)); [done|]. rewrite -app_assoc IHv; [lia|]. cbn. apply IHm. lia.
  - by intros [|fuel] rest Hf; cbn in *; [lia|].
  - intros v es Hv IHv _ IHe [|fuel] rest Hf; cbn in *; [lia|]. rewrite length_app in Hf. assert (0 < length v) by (by inversion Hv; cbn; lia).
    rewrite -app_assoc value_more; [done|]. rewrite IHv; [lia|]. cbn. apply IHe. lia.
Qed.

(** The strict decoder's first pass accepts exactly the texts whose tokens are one
    complete document, with nothing after it, in which no object at any depth repeats a
    field; the walk never runs out of fuel on such a text. *)
Theorem rejectDuplicateObjectKeys_exact data :
  rejectDuplicateObjectKeys data = Ok () ↔ is_value (tokens data).1 ∧ (tokens data).2 = None.
Proof.
  unfold rejectDuplicateObjectKeys. destruct (tokens data) as [ts stop]. cbn [fst snd]. split.
  - intros (rest & (v & Hv & ->)%walk_sound & Hend)%bind_ok. destruct rest; [|done]. destruct stop; [done|]. by rewrite app_nil_r.
  - intros [Hv ->]. destruct (walk_complete EOF) as [Hw _]. specialize (Hw ts Hv (S (length ts)) []). rewrite app_nil_r in Hw.
    cbn [default]. by rewrite Hw; [lia|].
Qed.
End codec.
