(* ===== verification/Samples.v ===== *)
(** * Sample states

    Concrete states of a gateway and of a joined node, accepted by the validator;
    the witnesses of the theorems about states evaluate on them. *)

From S2P Require Import Prelude GoTime GoText GoNet Types Checks Identity Address Expose Idempotency Resources StateValidate.

Local Open Scope string_scope.
Local Open Scope list_scope.

Definition uuid (tail : string) : string := "00000000-0000-4000-8000-0000000000" +:+ tail.
Definition sample_hash : string := "0123456789abcdef0123456789abcdef0123456789abcdef0123456789abcdef".
Definition sample_fingerprint : string := "sha256:" +:+ sample_hash.
Definition sample_manifest : ComponentManifest :=
  MkComponentManifest 1 1 "1.4.0" (Some ["2.0"; "1.3"]) 1 1 "ubuntu 24.04" "amd64" 3 true
    (Some [MkComponentPin "wireguard" "1.0" "ubuntu" false "" (Some ["tunnel"])]).
Definition sample_host : HostRecord :=
  MkHostRecord 1 (uuid "01") RoleGateway "ubuntu" "24.04" "amd64" (day 0) "203.0.113.7" "eth0" 22
    "10.66.0.0/24" "10.67.0.0/24" None.
Definition gateway_node (tail name address : string) : Node :=
  MkNode 1 (uuid tail) name LifecycleActive address 1 "2.0" (Some []) TransportStandard
    (Some sample_history) None (day 0) None.
Definition sample_client : Client :=
  MkClient 1 (uuid "21") "laptop" "linux" LifecycleActive "10.66.0.2" 1 (Some ["work"]) TransportStandard (day 1) None.
Definition standard_transport (kind : TargetKind) (tail : string) (s : TransportState) : Transport :=
  MkTransport 1 kind (uuid tail) TransportStandard s "wireguard" ProtocolUDP 51820 1 "wg_key:key" "cHVibGlj" "" sample_hash.
Definition sample_expose (tail node path : string) (mode : RouteMode) (port : Z) : Expose :=
  MkExpose 1 (uuid tail) (uuid node) "" "localhost:8080" mode path 1024 30 4 port ExposeReady 1 (day 2).
Definition sample_selector : Selector := MkSelector SelectorDomainSuffix "example.com" false.
Definition sample_operation : Operation :=
  MkOperation 1 (uuid "41") OperationExposeCreate OperationCompleted "expose" (uuid "31") (uuid "42") 4 5
    (Some [MkOperationStep "publish" OperationCompleted (day 2)]) "" (day 2) (day 2).
Definition sample_state : State :=
  MkState 1 9 sample_host None None None None (Some [])
    (Some [gateway_node "11" "edge" "10.67.0.2"; gateway_node "12" "core" "10.67.0.3"])
    (Some [sample_client])
    (Some [MkPreset 1 "work" sample_hash sample_hash (Some [sample_selector]) 1 (day 1)])
    (Some [MkPolicy 1 TargetClient (uuid "21") (Some ["work"]) (Some [sample_selector]) sample_hash 1])
    (Some [standard_transport TargetNode "11" TransportActive; standard_transport TargetNode "12" TransportDegraded;
           standard_transport TargetClient "21" TransportActive])
    (Some [sample_expose "31" "11" "/api" RoutePrefix 20001; sample_expose "32" "12" "/apiv2" RouteExact 20002])
    (Some []) (Some [sample_operation]) (Some []) (Some []) sample_manifest.

(** ** A joined node with an open request *)

Definition sample_trust (pending : string) : GatewayTrust :=
  MkGatewayTrust (uuid "01") "203.0.113.7" "10.67.0.0/24" "10.67.0.1" "2.0" sample_fingerprint "enroll_key:public"
    (Some [sample_fingerprint]) (Some ["control_ca:one"]) sample_fingerprint "tunnel_cert:one"
    "AAAAAAAAAAAAAAAAAAAAAAAAAAAAAAAAAAAAAAAAAAA=" "restricted:server" 4 pending.
Definition joined_node (pending : string) : Node :=
  MkNode 1 (uuid "11") "edge" LifecycleActive "10.67.0.2" 1 "2.0" (Some []) TransportStandard (Some [])
    (Some (sample_trust pending)) (day 0) None.
Definition node_host : HostRecord :=
  MkHostRecord 1 (uuid "02") RoleNode "ubuntu" "24.04" "amd64" (day 0) "" "" 0 "" "" None.
Definition open_operation : Operation :=
  MkOperation 1 (uuid "41") OperationExposeCreate OperationPending "expose" "api" (uuid "42") 4 5
    (Some [MkOperationStep "submit" OperationPending (day 2); MkOperationStep "apply" OperationPending (day 2)]) "" (day 2) (day 2).
Definition node_state (generation : N) (pending : string) (operations : list Operation) : State :=
  MkState 1 generation node_host None None None None (Some []) (Some [joined_node pending]) (Some []) (Some []) (Some [])
    (Some [standard_transport TargetNode "11" TransportActive]) (Some []) (Some []) (Some operations) (Some []) (Some [])
    sample_manifest.
Definition idle_node_state : State := node_state 3 "" [].
Definition busy_node_state : State := node_state 4 (uuid "42") [open_operation].

Lemma sample_state_valid : Validate sample_state = Ok ().
Proof. by vm_compute. Qed.

Lemma idle_node_state_valid : Validate idle_node_state = Ok ().
Proof. by vm_compute. Qed.

Lemma busy_node_state_valid : Validate busy_node_state = Ok ().
Proof. by vm_compute. Qed.
