(* ===== verification/StateFacts.v ===== *)
(** * What a valid state guarantees

    The consequences of [State.Validate] the rest of the program relies on:
    identities are unique, references resolve, addresses and routes do not
    collide, transports agree with lifecycles. *)

From S2P Require Import Prelude GoTime GoText GoNet Types Checks Identity Address Expose Idempotency Resources StateValidate Samples.

Local Open Scope string_scope.
Local Open Scope list_scope.

(** ** Maps and sets built by a loop *)

Section collections.
Context {A K : Type} `{Countable K} (key : A → K).

(** The map holds the consumed elements under their keys. *)
Definition keyed (p : list A) (m : gmap K A) : Prop :=
  NoDup (key <$> p) ∧ ∀ k x, m !! k = Some x ↔ x ∈ p ∧ key x = k.

Lemma keyed_nil : keyed [] ∅.
Proof. split; [constructor|]. intros k x. rewrite lookup_empty. set_solver. Qed.

Lemma keyed_none p m x : keyed p m → m !! key x = None → key x ∉ key <$> p.
Proof.
  intros [_ Hm] Hx Hin. apply list_elem_of_fmap in Hin as (y & Hk & Hy).
  assert (m !! key x = Some y) by (apply Hm; auto). congruence.
Qed.

Lemma keyed_snoc p m x : keyed p m → m !! key x = None → keyed (p ++ [x]) (<[key x := x]> m).
Proof.
  intros Hk Hx. assert (Hnew := keyed_none p m x Hk Hx). destruct Hk as [Hn Hm]. split.
  - rewrite fmap_app. apply NoDup_app. split_and!; [done|set_solver|apply NoDup_singleton].
  - intros k y. rewrite lookup_insert_Some elem_of_app list_elem_of_singleton Hm. split.
    + intros [[<- <-]|[_ [? ?]]]; auto.
    + intros [[Hy| ->] <-]; [|auto]. right. split; [|auto]. intros Heq. apply Hnew. rewrite Heq.
      by apply list_elem_of_fmap_2.
Qed.

Lemma keyed_lookup p m x : keyed p m → x ∈ p → m !! key x = Some x.
Proof. intros [_ Hm] Hx. by apply Hm. Qed.

Lemma keyed_is_Some p m k : keyed p m → is_Some (m !! k) ↔ ∃ x, x ∈ p ∧ key x = k.
Proof. intros [_ Hm]. split; intros [x Hx]; exists x; by apply Hm. Qed.

(** The set holds the keys of the consumed elements that satisfy [P]. *)
Definition distinct (P : A → Prop) `{∀ x, Decision (P x)} (p : list A) (s : gset K) : Prop :=
  NoDup (key <$> filter P p) ∧ s = list_to_set (key <$> filter P p).

Context (P : A → Prop) `{∀ x, Decision (P x)}.

Lemma distinct_nil : distinct P [] ∅.
Proof. split; [constructor|done]. Qed.

Lemma distinct_skip p s x : distinct P p s → ¬ P x → distinct P (p ++ [x]) s.
Proof. intros Hd Hx. unfold distinct. by rewrite filter_app filter_cons_False // app_nil_r. Qed.

Lemma distinct_snoc p s x : distinct P p s → P x → (key x ∉ s) → distinct P (p ++ [x]) ({[key x]} ∪ s).
Proof.
  intros [Hn ->] Hx Hk. unfold distinct. rewrite filter_app filter_cons_True // fmap_app. split.
  - apply NoDup_app. split_and!; [done| |apply NoDup_singleton]. intros k Hin.
    cbn. rewrite list_elem_of_singleton. intros ->. apply Hk. by apply elem_of_list_to_set.
  - rewrite list_to_set_app_L. set_solver.
Qed.
End collections.

(** Every element of a loop's list was consumed after its own check. *)
Lemma Forall_snoc_inv {A} (P : A → Prop) p x : (∀ y, y ∈ p → P y) → P x → ∀ y, y ∈ p ++ [x] → P y.
Proof. intros Hp Hx y [?| ->%list_elem_of_singleton]%elem_of_app; auto. Qed.

(** ** The loops of [Validate] *)

Definition live_node (n : Node) : Prop := node_Lifecycle n ≠ LifecycleDeleted.
Definition live_client (c : Client) : Prop := client_Lifecycle c ≠ LifecycleDeleted.
#[export] Instance live_node_dec n : Decision (live_node n) := _.
#[export] Instance live_client_dec c : Decision (live_client c) := _.

Lemma validate_nodes_ok state nodes names : validate_nodes state = Ok (nodes, names) →
  keyed node_ID (items (st_Nodes state)) nodes ∧
  distinct (ToLower ∘ node_Name) live_node (items (st_Nodes state)) names ∧
  ∀ n, n ∈ items (st_Nodes state) → node_Validate n = Ok () ∧ overlay_inside n = true ∧
    ∀ r, r ∈ items (node_IdempotencyRecords n) →
      (idem_StateGeneration r ≤ st_Generation state)%N ∧ (instant (node_CreatedAt n) ≤ instant (idem_RecordedAt r))%Z.
Proof.
  intros Hr. unfold validate_nodes in Hr.
  refine (range_inv _ (λ p '(nodes, names), keyed node_ID p nodes ∧ distinct (ToLower ∘ node_Name) live_node p names ∧
    ∀ n, n ∈ p → _) _ (∅, ∅) (nodes, names) _ _ Hr).
  2:{ split_and!; [apply keyed_nil|apply distinct_nil|set_solver]. }
  clear. intros p n q [m s] [m' s'] _ (Hk & Hd & Ha) Hb. cbn beta iota in Hb. ok_inv Hb. bool_facts.
  apply eq_None_not_Some in G2. units. unfold validate_node_records in G1. rewrite range_check_ok in G1.
  assert (Hn : node_Validate n = Ok () ∧ overlay_inside n = true ∧
    ∀ r, r ∈ items (node_IdempotencyRecords n) →
      (idem_StateGeneration r ≤ st_Generation state)%N ∧ (instant (node_CreatedAt n) ≤ instant (idem_RecordedAt r))%Z).
  { split_and!; [done..|]. intros r [i Hi]%list_elem_of_lookup. apply G1 in Hi. ok_inv Hi. time_facts. lia. }
  case_bool_decide as Hl.
  - injection Hb as <- <-. split_and!; [by apply keyed_snoc| |by apply Forall_snoc_inv].
    apply distinct_skip; [done|]. by intros [].
  - ok_step Hb. injection Hb as <- <-. apply check_unique_ok in G3 as [Hnew ->].
    split_and!; [by apply keyed_snoc| |by apply Forall_snoc_inv]. by apply (distinct_snoc (ToLower ∘ node_Name)).
Qed.

Lemma validate_clients_ok state clients names : validate_clients state = Ok (clients, names) →
  keyed client_ID (items (st_Clients state)) clients ∧
  distinct (ToLower ∘ client_Name) live_client (items (st_Clients state)) names ∧
  ∀ c, c ∈ items (st_Clients state) → client_Validate c = Ok ().
Proof.
  intros Hr. unfold validate_clients in Hr.
  refine (range_inv _ (λ p '(clients, names), keyed client_ID p clients ∧ distinct (ToLower ∘ client_Name) live_client p names ∧
    ∀ c, c ∈ p → _) _ (∅, ∅) (clients, names) _ _ Hr).
  2:{ split_and!; [apply keyed_nil|apply distinct_nil|set_solver]. }
  clear. intros p c q [m s] [m' s'] _ (Hk & Hd & Ha) Hb. cbn beta iota in Hb. ok_inv Hb. bool_facts. units.
  apply eq_None_not_Some in G0. case_bool_decide as Hl.
  - injection Hb as <- <-. split_and!; [by apply keyed_snoc| |by apply Forall_snoc_inv].
    apply distinct_skip; [done|]. by intros [].
  - ok_step Hb. injection Hb as <- <-. apply check_unique_ok in G1 as [Hnew ->].
    split_and!; [by apply keyed_snoc| |by apply Forall_snoc_inv]. by apply (distinct_snoc (ToLower ∘ client_Name)).
Qed.

Definition has_request (o : Operation) : Prop := op_RequestID o ≠ "".
#[export] Instance has_request_dec o : Decision (has_request o) := _.

Lemma validate_operations_ok state operations requests : validate_operations state = Ok (operations, requests) →
  keyed op_ID (items (st_Operations state)) operations ∧
  distinct op_RequestID has_request (items (st_Operations state)) requests ∧
  ∀ o, o ∈ items (st_Operations state) → op_Validate o = Ok ().
Proof.
  intros Hr. unfold validate_operations in Hr.
  refine (range_inv _ (λ p '(operations, requests), keyed op_ID p operations ∧ distinct op_RequestID has_request p requests ∧
    ∀ o, o ∈ p → _) _ (∅, ∅) (operations, requests) _ _ Hr).
  2:{ split_and!; [apply keyed_nil|apply distinct_nil|set_solver]. }
  clear. intros p o q [m s] [m' s'] _ (Hk & Hd & Ha) Hb. cbn beta iota in Hb. ok_inv Hb. bool_facts. units.
  apply eq_None_not_Some in G0. destruct (String.eqb_spec (op_RequestID o) "") as [Hl|Hl].
  - injection Hb as <- <-. split_and!; [by apply keyed_snoc| |by apply Forall_snoc_inv].
    apply distinct_skip; [done|]. by intros [].
  - ok_step Hb. injection Hb as <- <-. apply check_unique_ok in G1 as [Hnew ->].
    split_and!; [by apply keyed_snoc| |by apply Forall_snoc_inv]. by apply (distinct_snoc op_RequestID).
Qed.

Definition policy_target (p : Policy) : string := targetKey (policy_TargetKind p) (policy_TargetID p).

Lemma validate_policies_ok state nodes clients presets policies :
  validate_policies state nodes clients presets = Ok policies →
  keyed policy_target (items (st_Policies state)) policies ∧
  ∀ p, p ∈ items (st_Policies state) → policy_Validate p = Ok () ∧
    targetExists (policy_TargetKind p) (policy_TargetID p) nodes clients = true ∧
    ∀ name, name ∈ items (policy_PresetNames p) → ToLower name ∈ presets.
Proof.
  intros Hr. unfold validate_policies in Hr.
  refine (range_inv _ (λ p policies, keyed policy_target p policies ∧ ∀ x, x ∈ p → _) _ ∅ policies _ _ Hr).
  2:{ split; [apply keyed_nil|set_solver]. }
  clear. intros p x q m m' _ (Hk & Ha) Hb. cbn beta in Hb. ok_inv Hb. bool_facts. units.
  injection Hb as <-. rewrite range_check_ok in G2. apply eq_None_not_Some in G0.
  split; [by apply (keyed_snoc policy_target)|]. apply Forall_snoc_inv; [done|]. split_and!; [done..|].
  intros name [i Hi]%list_elem_of_lookup. apply G2 in Hi. ok_inv Hi. by bool_facts.
Qed.

Lemma validate_presets_ok state presets : validate_presets state = Ok presets →
  NoDup ((ToLower ∘ preset_Name) <$> items (st_Presets state)) ∧
  presets = list_to_set ((ToLower ∘ preset_Name) <$> items (st_Presets state)) ∧
  ∀ p, p ∈ items (st_Presets state) → preset_Validate p = Ok ().
Proof.
  unfold validate_presets. rewrite (range_unique_ok _ (λ _ p, preset_Validate p = Ok ()) (ToLower ∘ preset_Name)).
  - intros i x seen seen' _. split; [intros H; ok_inv H; apply check_unique_ok in H; units; tauto|].
    intros (-> & H & ->). cbn. by apply check_unique_ok.
  - intros (Hc & Hn & ->). split_and!; [done..|]. intros p [i Hi]%list_elem_of_lookup. by eapply Hc.
Qed.

Lemma validate_certificates_ok state nodes : validate_certificates state nodes = Ok () →
  NoDup (cert_ID <$> items (st_Certificates state)) ∧
  ∀ c, c ∈ items (st_Certificates state) → cert_Validate c = Ok () ∧
    (if String.eqb (cert_OwnerKind c) "node" then is_Some (nodes !! cert_OwnerID c) else cert_OwnerID c = host_ID (st_Host state)).
Proof.
  unfold validate_certificates. intros H. ok_step H.
  apply (range_unique_ok _ (λ _ c, cert_Validate c = Ok () ∧
    (if String.eqb (cert_OwnerKind c) "node" then is_Some (nodes !! cert_OwnerID c)
     else cert_OwnerKind c = "host" ∧ cert_OwnerID c = host_ID (st_Host state))) cert_ID) in G.
  - destruct G as (Hc & Hn & _). split; [done|]. intros c [i Hi]%list_elem_of_lookup. apply Hc in Hi.
    destruct (String.eqb _ "node"); tauto.
  - intros i x seen seen' _. split.
    + intros H'. ok_inv H'. units. apply check_unique_ok in G1 as [? ->]. injection H' as <-. split; [|done].
      split; [done|]. by destruct (String.eqb _ "node"); facts.
    + intros ((-> & Ho) & Hk & ->). cbn [wrap mbind result_bind].
      rewrite (proj2 (check_unique_ok _ _ _ _) (conj Hk eq_refl)). cbn [mbind result_bind].
      destruct (String.eqb _ "node"); [rewrite bool_decide_eq_true_2 //|]. destruct Ho as [-> ->]. by rewrite !String.eqb_refl.
Qed.

(** *** Transports *)

Definition tr_owner (t : Transport) : string := targetKey (tr_OwnerKind t) (tr_OwnerID t).
Definition states_of (states : transport_states) (owner : string) : gmap TransportKind TransportState :=
  default ∅ (states !! owner).

(** What is checked of each transport. *)
Definition transport_agrees (state : State) (nodes : gmap string Node) (clients : gmap string Client) (t : Transport) : Prop :=
  transport_Validate t = Ok () ∧ targetExists (tr_OwnerKind t) (tr_OwnerID t) nodes clients = true ∧
  tr_CredentialGeneration t = owner_generation (tr_OwnerKind t) (tr_OwnerID t) nodes clients ∧
  (tr_Kind t = TransportRestricted → ∃ host, st_HandshakeHost state = Some host ∧ tr_HandshakeHost t = hh_Hostname host).

Lemma validate_transports_ok state nodes clients states : validate_transports state nodes clients = Ok states →
  NoDup ((λ t, (tr_owner t, tr_Kind t)) <$> items (st_Transports state)) ∧
  (∀ o k s, states_of states o !! k = Some s ↔
     ∃ t, t ∈ items (st_Transports state) ∧ tr_owner t = o ∧ tr_Kind t = k ∧ tr_State t = s) ∧
  ∀ t, t ∈ items (st_Transports state) → transport_agrees state nodes clients t.
Proof.
  intros Hr. unfold validate_transports in Hr.
  refine (range_inv _ (λ p (states : transport_states), NoDup ((λ t, (tr_owner t, tr_Kind t)) <$> p) ∧
    (∀ o k s, states_of states o !! k = Some s ↔ ∃ t, t ∈ p ∧ tr_owner t = o ∧ tr_Kind t = k ∧ tr_State t = s) ∧
    ∀ t, t ∈ p → transport_agrees state nodes clients t) _ ∅ states _ _ Hr).
  2:{ split_and!; [constructor| |set_solver]. intros o k s. split; [by rewrite /states_of lookup_empty|set_solver]. }
  clear. intros p t q m m' _ (Hn & Hm & Ha) Hb. cbn beta in Hb. ok_inv Hb. injection Hb as <-. facts.
  apply eq_None_not_Some in G3. fold (tr_owner t) in G3 |- *. fold (states_of m (tr_owner t)) in G3 |- *. split_and!.
  - rewrite fmap_app. apply NoDup_app. split_and!; [done| |apply NoDup_singleton].
    intros x (t' & -> & Ht')%list_elem_of_fmap Heq%list_elem_of_singleton. injection Heq as Ho Hk.
    assert (states_of m (tr_owner t) !! tr_Kind t = Some (tr_State t')) by (apply Hm; eauto). congruence.
  - intros o k s. setoid_rewrite elem_of_app. setoid_rewrite list_elem_of_singleton.
    destruct (decide (o = tr_owner t)) as [->|Ho].
    + unfold states_of at 1. rewrite lookup_insert_eq /= lookup_insert_Some. split.
      * intros [[<- <-]|[_ (t' & ?)%Hm]]; [exists t; auto|exists t'; tauto].
      * intros (t' & [Ht'| ->] & Ho & <- & <-); [right|by left]. rewrite -Ho in G3 |- *.
        assert (Hs : states_of m (tr_owner t') !! tr_Kind t' = Some (tr_State t')) by (apply Hm; eauto).
        split; [congruence|done].
    + unfold states_of. rewrite lookup_insert_ne // -/(states_of m o) Hm. split; [intros (t' & ?); exists t'; tauto|].
      intros (t' & [Ht'| ->] & ?); [by exists t'|naive_solver].
  - apply Forall_snoc_inv; [done|]. split_and!; [done..|]. intros Hk.
    rewrite Hk /= in G1. destruct (st_HandshakeHost state) as [host|]; [|done]. exists host. by facts.
Qed.

(** The transports of an owner, by its lifecycle. *)
Definition transports_follow (ts : list Transport) (owner : string) (active : TransportKind) (lifecycle : Lifecycle) : Prop :=
  match lifecycle with
  | LifecycleActive =>
      (∃ t, t ∈ ts ∧ tr_owner t = owner ∧ tr_Kind t = active ∧ (tr_State t = TransportActive ∨ tr_State t = TransportDegraded)) ∧
      (∀ t, t ∈ ts → tr_owner t = owner → tr_Kind t ≠ active → tr_State t = TransportStandby)
  | LifecycleRevoked => ∀ t, t ∈ ts → tr_owner t = owner → tr_State t = TransportDisabled
  | LifecycleDeleted => ∀ t, t ∈ ts → tr_owner t ≠ owner
  | LifecycleUnsupported _ => True
  end.

Lemma validateActiveTransport_ok kind id active lifecycle states ts :
  (∀ o k s, states_of states o !! k = Some s ↔ ∃ t, t ∈ ts ∧ tr_owner t = o ∧ tr_Kind t = k ∧ tr_State t = s) →
  validateActiveTransport kind id active lifecycle states = Ok () → transports_follow ts (targetKey kind id) active lifecycle.
Proof.
  intros Hst. unfold validateActiveTransport. fold (states_of states (targetKey kind id)). set (owner := targetKey kind id).
  assert (Hin : ∀ t, t ∈ ts → tr_owner t = owner → states_of states owner !! tr_Kind t = Some (tr_State t)).
  { intros t Ht Ho. apply Hst. eauto. }
  case_bool_decide as He; intros H.
  - ok_inv H. facts. assert (Hnone : ∀ t, t ∈ ts → tr_owner t ≠ owner).
    { intros t Ht Ho. specialize (Hin t Ht Ho). by rewrite He lookup_empty in Hin. }
    destruct lifecycle; cbn; naive_solver.
  - ok_step H. facts. case_bool_decide as Hr.
    + ok_inv H. facts. rewrite Hr. cbn. intros t Ht Ho. by apply (H (tr_Kind t)), Hin.
    + ok_inv H. facts. destruct lifecycle; cbn; try done. split.
      * destruct (states_of states owner !! active) as [s|] eqn:Hs; [|done]. apply Hst in Hs as (t & ? & ? & ? & <-).
        apply orb_true_iff in G0. rewrite !bool_decide_eq_true in G0. eauto 10.
      * intros t Ht Ho Hne. by destruct (H _ _ (Hin t Ht Ho)).
Qed.

(** *** Exposes *)

Definition active_expose (e : Expose) : Prop := expose_State e ≠ ExposeDisabled.
#[export] Instance active_expose_dec e : Decision (active_expose e) := _.
Definition named_expose (e : Expose) : Prop := expose_Name e ≠ "".
#[export] Instance named_expose_dec e : Decision (named_expose e) := _.
Definition route_of (e : Expose) : route := Route (expose_RouteMode e) (expose_Path e) (expose_ID e).
Definition expose_local_name (e : Expose) : string * string := (expose_NodeID e, ToLower (expose_Name e)).
Definition hosted (nodes : gmap string Node) (e : Expose) : Prop :=
  ∃ node, nodes !! expose_NodeID e = Some node ∧ (node_Lifecycle node ≠ LifecycleActive → expose_State e = ExposeDisabled).

Lemma claim_route_ok path e index keys index' keys' R : claim_route path e index keys = Ok (index', keys') →
  indexed index (route_of <$> filter active_expose R) → indexed index' (route_of <$> filter active_expose (R ++ [e])).
Proof.
  unfold claim_route. intros H Hi. rewrite filter_app fmap_app. case_bool_decide as Hd.
  - injection H as <- _. rewrite filter_cons_False; [by intros []|]. by rewrite app_nil_r.
  - ok_step H. ok_step H. destruct a as [n prior]. ok_inv H. facts. injection H as <- _. rewrite filter_cons_True //.
    apply (indexed_accept index); [done|]. by rewrite -G1.
Qed.

Lemma claim_name_ok path e names names' p : claim_name path e names = Ok names' →
  distinct expose_local_name named_expose p names → distinct expose_local_name named_expose (p ++ [e]) names'.
Proof.
  unfold claim_name. intros H Hd. destruct (String.eqb_spec (expose_Name e) "") as [He|He].
  - injection H as <-. apply distinct_skip; [done|]. by intros [].
  - ok_inv H. facts. injection H as <-. by apply (distinct_snoc expose_local_name).
Qed.

Lemma NoDup_snoc {A B} (f : A → B) p x : NoDup (f <$> p) → (∀ y, y ∈ p → f y ≠ f x) → NoDup (f <$> p ++ [x]).
Proof.
  intros Hp Hx. rewrite fmap_app. apply NoDup_app. split_and!; [done| |apply NoDup_singleton].
  intros k (y & -> & Hy)%list_elem_of_fmap Heq%list_elem_of_singleton. by apply (Hx y).
Qed.

(** The sets hold the values of the exposes consumed so far. *)
Definition exposes_seen (nodes : gmap string Node) (p : list Expose) (seen : expose_seen) : Prop :=
  NoDup (expose_ID <$> p) ∧ exposeIDs seen = list_to_set (expose_ID <$> p) ∧
  NoDup (expose_TunnelPort <$> p) ∧ exposeTunnelPorts seen = list_to_set (expose_TunnelPort <$> p) ∧
  indexed (activeExposeRoutes seen) (route_of <$> filter active_expose p) ∧
  distinct expose_local_name named_expose p (exposeNames seen) ∧
  ∀ e, e ∈ p → expose_Validate e = Ok () ∧ hosted nodes e.

Lemma validate_exposes_ok state nodes seen : validate_exposes state nodes = Ok seen →
  exposes_seen nodes (items (st_Exposes state)) seen.
Proof.
  intros Hr. unfold validate_exposes in Hr. refine (range_inv _ (exposes_seen nodes) _ _ seen _ _ Hr).
  2:{ unfold exposes_seen. split_and!; cbn; [constructor|done|constructor|done|constructor|apply distinct_nil|set_solver]. }
  clear. intros p e q [ids ports routes keys names] s' _ (Hi & Hie & Hp & Hpe & Hx & Hn & Ha) Hb.
  cbn [exposeIDs exposeTunnelPorts activeExposeRoutes activeExposeRouteKeys exposeNames] in *. ok_inv Hb.
  apply check_unique_ok in G1 as [Hnew ->]. destruct a2 as [routes' keys']. ok_inv Hb. injection Hb as <-. facts.
  apply claim_route_ok with (R := p) in G3; [|done]. apply claim_name_ok with (p := p) in G1; [|done].
  unfold exposes_seen. cbn. split_and!.
  - apply NoDup_snoc; [done|]. intros y Hy Heq. apply Hnew. rewrite Hie -Heq. by apply elem_of_list_to_set, list_elem_of_fmap_2.
  - rewrite fmap_app list_to_set_app_L Hie. set_solver.
  - apply NoDup_snoc; [done|]. intros y Hy Heq. apply G2. rewrite Hpe -Heq. by apply elem_of_list_to_set, list_elem_of_fmap_2.
  - rewrite fmap_app list_to_set_app_L Hpe. set_solver.
  - done.
  - done.
  - apply Forall_snoc_inv; [done|]. split; [done|]. destruct (nodes !! expose_NodeID e) as [node|] eqn:Hnode; [|done].
    exists node. split; [done|]. intros Hl. ok_inv G0. rewrite bool_decide_eq_false_2 //= in G0. by facts.
Qed.

(** *** Invites, logging and backups *)

Lemma validate_invites_ok state : validate_invites state = Ok () →
  NoDup (inv_ID <$> items (st_Invites state)) ∧
  ∀ i, i ∈ items (st_Invites state) → invite_Validate i = Ok () ∧ host_Role (st_Host state) = RoleGateway ∧
    ∃ identity, st_EnrollmentIdentity state = Some identity ∧ inv_EnrollmentFingerprint i = ident_Fingerprint identity.
Proof.
  unfold validate_invites. intros H. ok_step H.
  apply (range_inv _ (λ p seen, distinct inv_ID (λ _, True) p seen ∧ ∀ i, i ∈ p → invite_Validate i = Ok () ∧
    host_Role (st_Host state) = RoleGateway ∧
    ∃ identity, st_EnrollmentIdentity state = Some identity ∧ inv_EnrollmentFingerprint i = ident_Fingerprint identity)) in G.
  - destruct G as [[Hn _] Ha]. split; [|done]. rewrite filter_every // in Hn. by apply Forall_forall.
  - clear. intros p x q s s' _ [Hd Ha] Hb. ok_inv Hb. apply check_unique_ok in Hb as [Hnew ->]. facts.
    split; [by apply (distinct_snoc inv_ID)|]. apply Forall_snoc_inv; [done|]. split_and!; [done..|].
    destruct (st_EnrollmentIdentity state) as [identity|]; [|done]. exists identity. by facts.
  - split; [apply distinct_nil|set_solver].
Qed.

Definition active_log (s : LoggingSession) : Prop := log_State s = LogActive.
#[export] Instance active_log_dec s : Decision (active_log s) := _.

Lemma validate_logging_ok state ids scopes : validate_logging state = Ok (ids, scopes) →
  NoDup (log_ID <$> items (st_Logging state)) ∧
  NoDup (log_Scope <$> filter active_log (items (st_Logging state))) ∧
  (LogAll ∈ log_Scope <$> filter active_log (items (st_Logging state)) → length (filter active_log (items (st_Logging state))) = 1%nat) ∧
  ∀ s, s ∈ items (st_Logging state) → log_Validate s = Ok ().
Proof.
  intros Hr. unfold validate_logging in Hr.
  assert (Hinv : distinct log_ID (λ _, True) (items (st_Logging state)) ids ∧
    scopes = reverse (log_Scope <$> filter active_log (items (st_Logging state))) ∧ NoDup scopes ∧
    (LogAll ∈ scopes → length scopes = 1%nat) ∧ ∀ s, s ∈ items (st_Logging state) → log_Validate s = Ok ()).
  { refine (range_inv _ (λ p '(ids, scopes), distinct log_ID (λ _, True) p ids ∧
      scopes = reverse (log_Scope <$> filter active_log p) ∧ NoDup scopes ∧
      (LogAll ∈ scopes → length scopes = 1%nat) ∧ ∀ s, s ∈ p → log_Validate s = Ok ()) _ (∅, []) (ids, scopes) _ _ Hr).
    2:{ split_and!; [apply distinct_nil|done|constructor|set_solver|set_solver]. }
    clear. intros p x q [s sc] [s' sc'] _ (Hd & Hsc & Hn & Hall & Ha) Hb. cbn beta iota in Hb. ok_step Hb. ok_step Hb.
    apply check_unique_ok in G0 as [Hnew ->]. rewrite filter_app fmap_app reverse_app -Hsc.
    assert (Hd' := distinct_snoc log_ID (λ _, True) p s x Hd I Hnew). units.
    destruct (bool_decide (log_State x = LogActive)) eqn:E; cbn [negb] in Hb; apply bool_decide_eq_true in E || apply bool_decide_eq_false in E.
    - ok_inv Hb. facts. injection Hb as <- <-. rewrite filter_cons_True //. split_and!; [done|done|by constructor| |by apply Forall_snoc_inv].
      intros [Heq|?]%elem_of_cons; [|done]. rewrite -Heq bool_decide_eq_true_2 //= in G1. facts. cbn. lia.
    - injection Hb as <- <-. rewrite filter_cons_False //. split_and!; [done..|by apply Forall_snoc_inv]. }
  destruct Hinv as ([Hn _] & -> & Hns & Hall & Ha). rewrite reverse_Permutation in Hns. rewrite elem_of_reverse length_reverse length_fmap in Hall.
  rewrite filter_every in Hn; [by apply Forall_forall|]. done.
Qed.

Lemma validate_backups_ok state : validate_backups state = Ok () →
  NoDup (backup_ID <$> items (st_Backups state)) ∧ ∀ b, b ∈ items (st_Backups state) → backup_Validate b = Ok ().
Proof.
  unfold validate_backups. intros H. ok_step H.
  apply (range_unique_ok _ (λ _ b, backup_Validate b = Ok ()) backup_ID) in G.
  - destruct G as (Hc & Hn & _). split; [done|]. intros b [i Hi]%list_elem_of_lookup. by eapply Hc.
  - intros i x seen seen' _. split; [intros H'; ok_inv H'; apply check_unique_ok in H'; units; tauto|].
    intros (-> & Hk & ->). cbn. by apply check_unique_ok.
Qed.

(** ** [Validate] as a whole *)

Record valid_parts (state : State) (nodes : gmap string Node) (clients : gmap string Client) (presets : gset string)
    (policies : gmap string Policy) (states : transport_states) (operations : gmap string Operation) : Prop := {
  vp_head : validate_head state = Ok ();
  vp_invites : validate_invites state = Ok ();
  vp_nodes : ∃ names, validate_nodes state = Ok (nodes, names);
  vp_recovery : validate_recovery_invites state nodes = Ok ();
  vp_clients : ∃ names, validate_clients state = Ok (clients, names);
  vp_addresses : validate_addresses state = Ok ();
  vp_presets : validate_presets state = Ok presets;
  vp_policies : validate_policies state nodes clients presets = Ok policies;
  vp_node_presets : validate_node_presets state policies = Ok ();
  vp_snapshots : validate_snapshots state = Ok ();
  vp_client_presets : validate_client_presets state policies = Ok ();
  vp_transports : validate_transports state nodes clients = Ok states;
  vp_active : validate_active_transports state states = Ok ();
  vp_exposes : ∃ seen, validate_exposes state nodes = Ok seen;
  vp_certificates : validate_certificates state nodes = Ok ();
  vp_operations : ∃ requests, validate_operations state = Ok (operations, requests);
  vp_handshake : validateHandshakeHostChange state operations = Ok ();
  vp_logging : ∃ r, validate_logging state = Ok r;
  vp_backups : validate_backups state = Ok ();
  vp_role : validate_role state = Ok ()
}.

Lemma Validate_parts state : Validate state = Ok () ↔
  ∃ nodes clients presets policies states operations, valid_parts state nodes clients presets policies states operations.
Proof.
  unfold Validate. split.
  - intros H. ok_step H. ok_step H. ok_step H. destruct a1 as [nodes nn]. ok_step H. ok_step H. destruct a2 as [clients cn].
    do 8 ok_step H. ok_step H. ok_step H. ok_step H. destruct a12 as [operations reqs]. ok_inv H. units.
    eexists nodes, clients, _, _, _, operations. constructor; eauto.
  - intros (nodes & clients & presets & policies & states & operations & [? ? [? ?] ? [? ?] ? ? ? ? ? ? ? ? [? ?] ? [? ?] ? [? ?] ? ?]).
    repeat match goal with H : ?m = Ok _ |- context [?m] => rewrite H; cbn [mbind result_bind] end. done.
Qed.

(** Everything the loops establish, for a valid state. *)
Lemma valid_collections state nodes clients presets policies states operations :
  valid_parts state nodes clients presets policies states operations →
  keyed node_ID (items (st_Nodes state)) nodes ∧ keyed client_ID (items (st_Clients state)) clients ∧
  keyed op_ID (items (st_Operations state)) operations ∧ keyed policy_target (items (st_Policies state)) policies.
Proof.
  intros [_ _ [? Hn] _ [? Hc] _ _ Hp _ _ _ _ _ _ _ [? Ho] _ _ _ _].
  apply validate_nodes_ok in Hn as [? _]. apply validate_clients_ok in Hc as [? _].
  apply validate_operations_ok in Ho as [? _]. by apply validate_policies_ok in Hp as [? _].
Qed.

(** The live resources' addresses are restored by [validate_addresses]. *)
Lemma valid_allocator state : Validate state = Ok () → host_Role (st_Host state) = RoleGateway →
  ∃ a, NewAddressAllocator (host_ClientCIDR (st_Host state)) (host_NodeCIDR (st_Host state)) (live_assignments state) = Ok a.
Proof.
  intros (nodes & clients & presets & policies & states & operations & Hv)%Validate_parts Hr.
  pose proof (vp_addresses _ _ _ _ _ _ _ Hv) as Ha. unfold validate_addresses in Ha. rewrite Hr bool_decide_eq_true_2 // in Ha.
  ok_inv Ha. eauto.
Qed.

Lemma live_assignments_permutation state : live_assignments state ≡ₚ restored_assignments state.
Proof. apply Permutation_app_comm. Qed.

Lemma NoDup_live_assignments state : Validate state = Ok () → NoDup (live_assignments state).
Proof.
  intros (nodes & clients & presets & policies & states & operations & Hv)%Validate_parts.
  apply valid_collections in Hv as ([Hn _] & [Hc _] & _). unfold live_assignments. apply NoDup_app. split_and!.
  - apply (NoDup_fmap_1 asg_ID). rewrite -list_fmap_compose. eapply sublist_NoDup; [exact Hn|]. apply sublist_map, sublist_filter.
  - intros x (n & -> & _)%list_elem_of_fmap (c & [=] & _)%list_elem_of_fmap.
  - apply (NoDup_fmap_1 asg_ID). rewrite -list_fmap_compose. eapply sublist_NoDup; [exact Hc|]. apply sublist_map, sublist_filter.
Qed.

(** ** Claims *)

(** In a valid state identities are unique: the identifiers of nodes, clients,
    invites, exposes, certificates, operations, logging sessions and backups, the
    request identifiers of operations, the names of live nodes, of live clients and
    of presets up to case, the policy per target, the transport kind per owner, the
    expose name per node and the loopback port per expose. *)
Theorem valid_identities_unique state : Validate state = Ok () →
  NoDup (node_ID <$> items (st_Nodes state)) ∧ NoDup (client_ID <$> items (st_Clients state)) ∧
  NoDup (inv_ID <$> items (st_Invites state)) ∧ NoDup (expose_ID <$> items (st_Exposes state)) ∧
  NoDup (cert_ID <$> items (st_Certificates state)) ∧ NoDup (op_ID <$> items (st_Operations state)) ∧
  NoDup (log_ID <$> items (st_Logging state)) ∧ NoDup (backup_ID <$> items (st_Backups state)) ∧
  NoDup (op_RequestID <$> filter has_request (items (st_Operations state))) ∧
  NoDup ((ToLower ∘ node_Name) <$> filter live_node (items (st_Nodes state))) ∧
  NoDup ((ToLower ∘ client_Name) <$> filter live_client (items (st_Clients state))) ∧
  NoDup ((ToLower ∘ preset_Name) <$> items (st_Presets state)) ∧
  NoDup (policy_target <$> items (st_Policies state)) ∧
  NoDup ((λ t, (tr_owner t, tr_Kind t)) <$> items (st_Transports state)) ∧
  NoDup (expose_local_name <$> filter named_expose (items (st_Exposes state))) ∧
  NoDup (expose_TunnelPort <$> items (st_Exposes state)).
Proof.
  intros (nodes & clients & presets & policies & states & operations & Hv)%Validate_parts.
  destruct Hv as [_ Hi [? Hn] _ [? Hc] _ Hpr Hp _ _ _ Ht _ [? He] Hce [? Ho] _ [[? ?] Hl] Hb _].
  apply validate_invites_ok in Hi as [? _]. apply validate_nodes_ok in Hn as ([? _] & [? _] & _).
  apply validate_clients_ok in Hc as ([? _] & [? _] & _). apply validate_presets_ok in Hpr as (? & _).
  apply validate_policies_ok in Hp as ([? _] & _). apply validate_transports_ok in Ht as (? & _).
  apply validate_exposes_ok in He as (? & _ & ? & _ & _ & [? _] & _). apply validate_certificates_ok in Hce as [? _].
  apply validate_operations_ok in Ho as ([? _] & [? _] & _). apply validate_logging_ok in Hl as (? & _).
  apply validate_backups_ok in Hb as [? _]. by split_and!.
Qed.

(** In a valid state references resolve: a policy's target and presets, a
    transport's owner (whose credential generation it carries), an expose's node
    (active, unless the expose is disabled), a node certificate's node and a recovery
    invite's node all exist, and restricted transports use the selected handshake
    host. *)
Theorem valid_references_resolve state : Validate state = Ok () →
  (∀ p, p ∈ items (st_Policies state) →
     (∀ name, name ∈ items (policy_PresetNames p) → ∃ x, x ∈ items (st_Presets state) ∧ ToLower (preset_Name x) = ToLower name) ∧
     match policy_TargetKind p with
     | TargetNode => ∃ n, n ∈ items (st_Nodes state) ∧ node_ID n = policy_TargetID p
     | TargetClient => ∃ c, c ∈ items (st_Clients state) ∧ client_ID c = policy_TargetID p
     | TargetUnsupported _ => False
     end) ∧
  (∀ t, t ∈ items (st_Transports state) →
     (tr_Kind t = TransportRestricted → ∃ h, st_HandshakeHost state = Some h ∧ tr_HandshakeHost t = hh_Hostname h) ∧
     match tr_OwnerKind t with
     | TargetNode => ∃ n, n ∈ items (st_Nodes state) ∧ node_ID n = tr_OwnerID t ∧ tr_CredentialGeneration t = node_CredentialGeneration n
     | TargetClient => ∃ c, c ∈ items (st_Clients state) ∧ client_ID c = tr_OwnerID t ∧ tr_CredentialGeneration t = client_CredentialGeneration c
     | TargetUnsupported _ => False
     end) ∧
  (∀ e, e ∈ items (st_Exposes state) → ∃ n, n ∈ items (st_Nodes state) ∧ node_ID n = expose_NodeID e ∧
     (node_Lifecycle n ≠ LifecycleActive → expose_State e = ExposeDisabled)) ∧
  (∀ c, c ∈ items (st_Certificates state) → cert_OwnerKind c = "node" → ∃ n, n ∈ items (st_Nodes state) ∧ node_ID n = cert_OwnerID c) ∧
  (∀ i, i ∈ items (st_Invites state) → inv_Purpose i = "recover" → ∃ n, n ∈ items (st_Nodes state) ∧ node_ID n = inv_NodeID i).
Proof.
  intros (nodes & clients & presets & policies & states & operations & Hv)%Validate_parts.
  destruct (valid_collections _ _ _ _ _ _ _ Hv) as (Hkn & Hkc & _).
  destruct Hv as [_ _ _ Hri _ _ Hpr Hp _ _ _ Ht _ [? He] Hce _ _ _ _ _].
  apply validate_presets_ok in Hpr as (_ & -> & _). apply validate_policies_ok in Hp as [_ Hp].
  apply validate_transports_ok in Ht as (_ & _ & Ht). apply validate_exposes_ok in He as (_ & _ & _ & _ & _ & _ & He).
  apply validate_certificates_ok in Hce as [_ Hce]. unfold validate_recovery_invites in Hri. rewrite range_check_ok in Hri.
  split_and!.
  - intros p Hin. apply Hp in Hin as (_ & Hx & Hnames). split.
    + intros name Hname. apply Hnames, elem_of_list_to_set, list_elem_of_fmap in Hname as (y & ? & ?). eauto.
    + destruct (policy_TargetKind p); cbn in Hx; [..|done]; apply bool_decide_eq_true in Hx;
        [by apply (keyed_is_Some node_ID _ _ _ Hkn)|by apply (keyed_is_Some client_ID _ _ _ Hkc)].
  - intros t (_ & Hx & Hg & Hh)%Ht. split; [done|]. unfold owner_generation in Hg.
    destruct (tr_OwnerKind t); cbn in Hx, Hg; [..|done]; apply bool_decide_eq_true in Hx as [y Hy]; rewrite Hy /= in Hg.
    + apply Hkn in Hy as [? ?]. eauto.
    + apply Hkc in Hy as [? ?]. eauto.
  - intros e (_ & n & Hn & Hl)%He. apply Hkn in Hn as [? ?]. eauto.
  - intros c [_ Hx]%Hce Hk. rewrite Hk in Hx. by apply (keyed_is_Some node_ID _ _ _ Hkn).
  - intros i [k Hk]%list_elem_of_lookup Hpu. apply Hri in Hk. rewrite Hpu /= in Hk. ok_inv Hk. facts.
    by apply (keyed_is_Some node_ID _ _ _ Hkn).
Qed.

(** C7: in a valid state no request path is routed to two exposes: two exposes that
    are not disabled and both select an absolute request path are the same. *)
Theorem valid_routes_unambiguous state e f request : Validate state = Ok () →
  e ∈ items (st_Exposes state) → f ∈ items (st_Exposes state) → active_expose e → active_expose f →
  absolute request → selects (route_of e) request = true → selects (route_of f) request = true → e = f.
Proof.
  intros (nodes & clients & presets & policies & states & operations & Hv)%Validate_parts He Hf Hae Haf Hreq Hse Hsf.
  destruct (vp_exposes _ _ _ _ _ _ _ Hv) as [seen Hx]. apply validate_exposes_ok in Hx as (_ & _ & _ & _ & Hi & _).
  assert (Hin : ∀ x, x ∈ items (st_Exposes state) → active_expose x →
    ∃ i, filter active_expose (items (st_Exposes state)) !! i = Some x).
  { intros x Hx Hax. by apply list_elem_of_lookup, list_elem_of_filter. }
  destruct (Hin e He Hae) as [i Hie], (Hin f Hf Haf) as [j Hjf].
  assert (i = j) as ->; [|congruence].
  eapply (indexed_unambiguous _ _ i j (route_of e) (route_of f) request Hi); rewrite ?list_lookup_fmap ?Hie ?Hjf //.
Qed.

(** In a valid gateway state no two live nodes or clients share an overlay
    address. *)
Theorem valid_addresses_distinct state x y : Validate state = Ok () → host_Role (st_Host state) = RoleGateway →
  x ∈ live_assignments state → y ∈ live_assignments state → asg_Address x = asg_Address y → x = y.
Proof.
  intros Hv Hr Hx Hy Heq. destruct (valid_allocator state Hv Hr) as [a Ha].
  apply restored_contents in Ha as (_ & _ & Hwf & Hl). apply Hl in Hx, Hy.
  destruct (Lookup_Assignments a x Hwf Hx) as [Sx Lx], (Lookup_Assignments a y Hwf Hy) as [Sy Ly]. rewrite -Heq in Ly.
  destruct (lookup_owner_unique a _ _ _ _ _ Hwf Sx Sy Lx Ly). destruct x, y; cbn in *; congruence.
Qed.

(** In a valid state transports follow lifecycles, for nodes and clients alike: an
    active owner's selected transport exists and is active or degraded while its
    others are on standby, a revoked owner's transports are disabled and a deleted
    owner has none. *)
Theorem valid_transports_follow_lifecycle state : Validate state = Ok () →
  (∀ n, n ∈ items (st_Nodes state) → transports_follow (items (st_Transports state)) (targetKey TargetNode (node_ID n))
     (node_ActiveTransport n) (node_Lifecycle n)) ∧
  (∀ c, c ∈ items (st_Clients state) → transports_follow (items (st_Transports state)) (targetKey TargetClient (client_ID c))
     (client_ActiveTransport c) (client_Lifecycle c)).
Proof.
  intros (nodes & clients & presets & policies & states & operations & Hv)%Validate_parts.
  destruct Hv as [_ _ _ _ _ _ _ _ _ _ _ Ht Ha _ _ _ _ _ _ _]. apply validate_transports_ok in Ht as (_ & Hst & _).
  unfold validate_active_transports in Ha. ok_step Ha. rewrite range_check_ok in Ha. rewrite range_check_ok in G.
  split; intros x [i Hi]%list_elem_of_lookup; eapply validateActiveTransport_ok; eauto.
Qed.

(** [AddressAllocatorFromState] succeeds on every valid gateway state and holds
    exactly the addresses of its live nodes and clients. *)
Theorem allocator_from_valid_state state : Validate state = Ok () → host_Role (st_Host state) = RoleGateway →
  ∃ a, AddressAllocatorFromState state = Ok a ∧ ∀ x, x ∈ Assignments a ↔ x ∈ live_assignments state.
Proof.
  intros Hv Hr. destruct (valid_allocator state Hv Hr) as [a Ha].
  apply restored_contents in Ha as (Hc & Hn & Hwf & Hl). exists a. split; [|naive_solver].
  unfold AddressAllocatorFromState. rewrite Hv Hr. cbn [wrap mbind result_bind]. rewrite bool_decide_eq_true_2 //=.
  apply restore_snapshot; [done..| |].
  - rewrite -live_assignments_permutation. by apply NoDup_live_assignments.
  - intros x. by rewrite -live_assignments_permutation.
Qed.

Lemma validate_pending_ok state pending : validate_pending state pending = Ok () →
  (∀ o, o ∈ items (st_Operations state) → has_request o → terminalOperationState (op_State o) = false →
     op_RequestID o = pending) ∧
  (pending ≠ "" → ∃ o, o ∈ items (st_Operations state) ∧ op_RequestID o = pending ∧ terminalOperationState (op_State o) = false).
Proof.
  unfold validate_pending. intros H. ok_step H. ok_inv H.
  apply (range_inv _ (λ p matched, (∀ o, o ∈ p → has_request o → terminalOperationState (op_State o) = false →
     op_RequestID o = pending) ∧ (matched = true → ∃ o, o ∈ p ∧ op_RequestID o = pending ∧ terminalOperationState (op_State o) = false))) in G.
  - destruct G as [Ha Hm]. split; [done|]. intros Hp. apply Hm. destruct (String.eqb_spec pending ""); [done|]. cbn in H. by destruct a.
  - clear. intros p x q s s' _ [Ha Hm] Hb. destruct (_ || _) eqn:E.
    + injection Hb as <-. split.
      * intros o [?| ->%list_elem_of_singleton]%elem_of_app; [by apply Ha|]. intros Hreq Hterm. rewrite Hterm orb_false_r in E. by facts.
      * intros (o & ? & ?)%Hm. exists o. set_solver.
    + ok_step Hb. injection Hb as <-. facts. split.
      * intros o [?| ->%list_elem_of_singleton]%elem_of_app; [by apply Ha|done].
      * intros _. exists x. set_solver.
  - split; [set_solver|done].
Qed.

Lemma single_pending state node trust : Validate state = Ok () →
  host_Role (st_Host state) = RoleNode → items (st_Nodes state) = [node] → node_Gateway node = Some trust →
  (∀ o, o ∈ items (st_Operations state) → has_request o → terminalOperationState (op_State o) = false →
     op_RequestID o = gw_PendingRequestID trust) ∧
  (gw_PendingRequestID trust ≠ "" → ∃ o, o ∈ items (st_Operations state) ∧ terminalOperationState (op_State o) = false ∧
     ∀ o', o' ∈ items (st_Operations state) → op_RequestID o' = gw_PendingRequestID trust ↔ o' = o).
Proof.
  intros (nodes & clients & presets & policies & states & operations & Hv)%Validate_parts Hr Hn Hg.
  destruct (vp_operations _ _ _ _ _ _ _ Hv) as [reqs Ho]. apply validate_operations_ok in Ho as (_ & [Hreq _] & _).
  pose proof (vp_role _ _ _ _ _ _ _ Hv) as Hrole. unfold validate_role in Hrole. rewrite Hr Hn Hg in Hrole.
  do 3 ok_step Hrole. ok_step G1. units. apply validate_pending_ok in G1 as [Hall Hex]. split; [done|].
  intros Hp. destruct (Hex Hp) as (o & Hin & Hid & Hopen). exists o. split_and!; [done..|].
  intros o' Hin'. split; [|by intros ->]. intros Hid'.
  assert (Hf : ∀ x, x ∈ items (st_Operations state) → op_RequestID x = gw_PendingRequestID trust →
    ∃ i, filter has_request (items (st_Operations state)) !! i = Some x).
  { intros x Hx Hxid. apply list_elem_of_lookup, list_elem_of_filter. split; [|done]. unfold has_request. congruence. }
  destruct (Hf o Hin Hid) as [i Hi], (Hf o' Hin' Hid') as [j Hj].
  assert (i = j) as ->; [|congruence].
  apply (NoDup_lookup _ i j (gw_PendingRequestID trust) Hreq); rewrite list_lookup_fmap ?Hi ?Hj /= ?Hid ?Hid' //.
Qed.

(** On a joined node at most one gateway request is open, and it is the one the
    node recorded as pending: an open operation with a request identifier carries the
    pending identifier, and a pending identifier belongs to exactly one open
    operation. *)
Theorem valid_single_pending_request state node trust : Validate state = Ok () →
  host_Role (st_Host state) = RoleNode → items (st_Nodes state) = [node] → node_Gateway node = Some trust →
  (∀ o, o ∈ items (st_Operations state) → has_request o → terminalOperationState (op_State o) = false →
     op_RequestID o = gw_PendingRequestID trust) ∧
  (gw_PendingRequestID trust ≠ "" → ∃ o, o ∈ items (st_Operations state) ∧ terminalOperationState (op_State o) = false ∧
     ∀ o', o' ∈ items (st_Operations state) → op_RequestID o' = gw_PendingRequestID trust ↔ o' = o).
Proof. apply single_pending. Qed.

(** ** Witnesses *)

Definition expose_a : Expose := sample_expose "31" "11" "/api" RoutePrefix 20001.

Lemma valid_identities_unique_witness : NoDup (node_ID <$> items (st_Nodes sample_state)).
Proof. apply (valid_identities_unique sample_state sample_state_valid). Defined.

Lemma valid_references_resolve_witness : ∃ n, n ∈ items (st_Nodes sample_state) ∧ node_ID n = expose_NodeID expose_a.
Proof.
  destruct (valid_references_resolve sample_state sample_state_valid) as (_ & _ & He & _).
  destruct (He expose_a) as (n & H1 & H2 & _); [left|]. by exists n.
Defined.

Lemma valid_routes_unambiguous_witness : expose_a = expose_a.
Proof.
  apply (valid_routes_unambiguous sample_state expose_a expose_a "/api/v1" sample_state_valid); by (left || vm_compute).
Defined.

Lemma valid_addresses_distinct_witness :
  Assign TargetNode (uuid "11") "10.67.0.2" = Assign TargetNode (uuid "11") "10.67.0.2".
Proof.
  apply (valid_addresses_distinct sample_state _ _ sample_state_valid); [done|left|left|done].
Defined.

Lemma valid_transports_follow_lifecycle_witness :
  transports_follow (items (st_Transports sample_state)) (targetKey TargetClient (uuid "21")) TransportStandard LifecycleActive.
Proof. apply (valid_transports_follow_lifecycle sample_state sample_state_valid) with (c := sample_client). left. Defined.

Lemma allocator_from_valid_state_witness : ∃ a, AddressAllocatorFromState sample_state = Ok a.
Proof. destruct (allocator_from_valid_state sample_state sample_state_valid eq_refl) as (a & H & _). by exists a. Defined.

Lemma valid_single_pending_request_witness : op_RequestID open_operation = uuid "42".
Proof.
  apply (valid_single_pending_request busy_node_state (joined_node (uuid "42")) (sample_trust (uuid "42")) busy_node_state_valid);
    try reflexivity; [left|by vm_compute].
Defined.
