(* ===== verification/Operation.v ===== *)
(** * Operations ([internal/model/operation.go])

    The state machine of a durable operation and of its steps, and the check that
    one stored version of an operation may follow another
    ([internal/model/transition.go], [validateOperationEvolution]). *)

From S2P Require Import Prelude GoTime GoText GoNet Types Checks Identity Address Expose Idempotency Resources StateValidate Samples.

Local Open Scope string_scope.
Local Open Scope list_scope.

Definition canTransitionOperation (current next : OperationState) : bool :=
  match current with
  | OperationPending =>
      match next with
      | OperationStaging | OperationActive | OperationDegraded | OperationFailed | OperationCompleted => true
      | _ => false
      end
  | OperationStaging =>
      match next with OperationActive | OperationDegraded | OperationFailed | OperationCompleted => true | _ => false end
  | OperationActive => match next with OperationDegraded | OperationFailed | OperationCompleted => true | _ => false end
  | OperationDegraded =>
      match next with OperationStaging | OperationActive | OperationFailed | OperationCompleted => true | _ => false end
  | _ => false
  end.

Definition operationTransitionError : error := Sentinel ErrOperationTransition.

Definition op_Transition (operation : Operation) (next : OperationState) (at_ : time) (errorCode : string) : result Operation :=
  wrap "validate operation" (op_Validate operation);;
  if bool_decide (op_State operation = next) then
    if (bool_decide (next = OperationFailed) && String.eqb (op_ErrorCode operation) errorCode)
       || (negb (bool_decide (next = OperationFailed)) && String.eqb errorCode "")
    then Ok operation else Err operationTransitionError
  else
    reject (negb (canTransitionOperation (op_State operation) next)) operationTransitionError;;
    validateTime "updated_at" at_;;
    reject (Before at_ (op_UpdatedAt operation)) operationTransitionError;;
    let operation := set_op_ErrorCode errorCode (set_op_UpdatedAt at_ (set_op_State next operation)) in
    wrap "validate transitioned operation" (op_Validate operation);;
    Ok operation.

Definition op_TransitionStep (operation : Operation) (name : string) (next : OperationState) (at_ : time) : result Operation :=
  wrap "validate operation" (op_Validate operation);;
  reject (terminalOperationState (op_State operation)) operationTransitionError;;
  match list_find (λ step, step_Name step = name) (items (op_Steps operation)) with
  | None => Err operationTransitionError
  | Some (index, step) =>
      if bool_decide (step_State step = next) then Ok operation
      else
        reject (negb (canTransitionOperation (step_State step) next)) operationTransitionError;;
        validateTime "updated_at" at_;;
        reject (Before at_ (step_UpdatedAt step) || Before at_ (op_UpdatedAt operation)) operationTransitionError;;
        let steps := <[index := set_step_UpdatedAt at_ (set_step_State next step)]> (items (op_Steps operation)) in
        Ok (set_op_UpdatedAt at_ (set_op_Steps (Some steps) operation))
  end.

Record OperationIntent := MkOperationIntent {
  intent_Type : OperationType;
  intent_TargetKind : string;
  intent_TargetID : string;
  intent_StepNames : slice string
}.

Definition intent_Validate (intent : OperationIntent) : result unit :=
  reject (negb (validOperationType (intent_Type intent))) (Invalid "type");;
  reject (negb (Bool.eqb (String.eqb (intent_TargetKind intent) "") (String.eqb (intent_TargetID intent) ""))) (Invalid "target");;
  (if String.eqb (intent_TargetID intent) "" then Ok () else
     reject (negb (validOperationTarget (intent_TargetKind intent))) (Invalid "target_kind");;
     reject (is_blank (intent_TargetID intent) || (128 <? String.length (intent_TargetID intent))%nat
             || ContainsAny (intent_TargetID intent) crlf) (Invalid "target_id"));;
  reject (is_nil (intent_StepNames intent)) (Invalid "step_names");;
  _ ← range (λ index name seen,
    reject (negb (matches componentPattern name)) (Invalid (indexPath "step_names" index));;
    check_unique name (Invalid (indexPath "step_names" index)) seen) (items (intent_StepNames intent)) ∅;
  Ok ().

(** What may differ between two stored versions of a step. *)
Definition step_evolution (oldStep newStep : OperationStep) : result unit :=
  reject (negb (String.eqb (step_Name oldStep) (step_Name newStep))) transitionError;;
  reject (Before (step_UpdatedAt newStep) (step_UpdatedAt oldStep)) transitionError;;
  if bool_decide (step_State oldStep = step_State newStep)
  then reject (negb (Equal (step_UpdatedAt oldStep) (step_UpdatedAt newStep))) transitionError
  else reject (negb (canTransitionOperation (step_State oldStep) (step_State newStep))) transitionError.

Definition validateOperationEvolution (before after : Operation) : result unit :=
  reject (negb (bool_decide (op_Type before = op_Type after)) || negb (String.eqb (op_TargetKind before) (op_TargetKind after))
          || negb (String.eqb (op_TargetID before) (op_TargetID after)) || negb (String.eqb (op_RequestID before) (op_RequestID after))
          || negb (op_ExpectedGeneration before =? op_ExpectedGeneration after)%N
          || negb (op_DesiredGeneration before =? op_DesiredGeneration after)%N
          || negb (Equal (op_CreatedAt before) (op_CreatedAt after))) transitionError;;
  reject (Before (op_UpdatedAt after) (op_UpdatedAt before)) transitionError;;
  reject (negb (bool_decide (op_State before = op_State after)) && negb (canTransitionOperation (op_State before) (op_State after)))
    transitionError;;
  reject (negb (length (items (op_Steps before)) =? length (items (op_Steps after)))%nat) transitionError;;
  range_check (λ index oldStep,
    match items (op_Steps after) !! index with
    | Some newStep => step_evolution oldStep newStep
    | None => Err transitionError
    end) (items (op_Steps before)).

(** ** The state machine *)

Lemma terminal_spec s : terminalOperationState s = true ↔ s = OperationFailed ∨ s = OperationCompleted.
Proof. unfold terminalOperationState. rewrite orb_true_iff !bool_decide_eq_true //. Qed.

Lemma terminal_stuck s next : terminalOperationState s = true → canTransitionOperation s next = false.
Proof. by intros [->| ->]%terminal_spec. Qed.

Lemma canTransition_valid current next : canTransitionOperation current next = true →
  validOperationState current = true ∧ validOperationState next = true ∧ current ≠ next.
Proof. by destruct current, next. Qed.

(** [op_Validate] reads the step list only through its own loop. *)
Lemma op_steps_loop steps s :
  range (λ index step stepNames,
    wrap (indexPath "steps" index) (step_Validate step);;
    check_unique (step_Name step) (Invalid (indexPath "steps" index +:+ ".name")) stepNames) steps ∅ = Ok s ↔
  (∀ i x, steps !! i = Some x → step_Validate x = Ok ()) ∧ NoDup (step_Name <$> steps) ∧ s = list_to_set (step_Name <$> steps).
Proof.
  apply (range_unique_ok _ (λ _ x, step_Validate x = Ok ()) step_Name). intros i x seen seen' _. split.
  - intros H'. ok_inv H'. apply check_unique_ok in H'. units. tauto.
  - intros (-> & Hk & ->). cbn. by apply check_unique_ok.
Qed.

Lemma op_Validate_steps operation : op_Validate operation = Ok () →
  (∀ i x, items (op_Steps operation) !! i = Some x → step_Validate x = Ok ()) ∧ NoDup (step_Name <$> items (op_Steps operation)).
Proof.
  unfold op_Validate. intros H. do 14 ok_step H. apply op_steps_loop in G12. tauto.
Qed.

Lemma op_Validate_time operation : op_Validate operation = Ok () →
  (instant (op_CreatedAt operation) ≤ instant (op_UpdatedAt operation))%Z ∧ validOperationState (op_State operation) = true.
Proof. unfold op_Validate. intros H. do 14 ok_step H. facts. time_facts. done. Qed.

(** Replacing the steps and the update time of a valid operation. *)
Lemma op_Validate_update operation steps at_ : op_Validate operation = Ok () →
  validateTime "updated_at" at_ = Ok () → (instant (op_CreatedAt operation) ≤ instant at_)%Z →
  (∀ i x, steps !! i = Some x → step_Validate x = Ok ()) → NoDup (step_Name <$> steps) →
  op_Validate (set_op_UpdatedAt at_ (set_op_Steps (Some steps) operation)) = Ok ().
Proof.
  intros H Ht Hle Hs Hn. unfold op_Validate in *. do 14 ok_step H. units.
  change (items (op_Steps (set_op_UpdatedAt at_ (set_op_Steps (Some steps) operation)))) with steps.
  cbn [set_op_UpdatedAt set_op_Steps op_SchemaVersion op_ID op_Type op_State op_TargetKind op_TargetID op_RequestID
       op_ExpectedGeneration op_DesiredGeneration op_Steps op_ErrorCode op_CreatedAt op_UpdatedAt].
  rewrite G G0 G1 G2 G3 G4 G5 G6 G7 Ht G10. cbn [reject mbind result_bind is_nil].
  assert (Before at_ (op_CreatedAt operation) = false) as -> by (apply not_before; lia). cbn [reject mbind result_bind].
  by rewrite (proj2 (op_steps_loop steps _) (conj Hs (conj Hn eq_refl))).
Qed.

(** A successful [TransitionStep] that is not a repetition. *)
Lemma op_TransitionStep_ok operation name next at_ operation' : op_TransitionStep operation name next at_ = Ok operation' →
  op_Validate operation = Ok () ∧ terminalOperationState (op_State operation) = false ∧
  (operation' = operation ∨
   ∃ index step, items (op_Steps operation) !! index = Some step ∧ step_Name step = name ∧
     canTransitionOperation (step_State step) next = true ∧ validateTime "updated_at" at_ = Ok () ∧
     (instant (step_UpdatedAt step) ≤ instant at_)%Z ∧ (instant (op_UpdatedAt operation) ≤ instant at_)%Z ∧
     operation' = set_op_UpdatedAt at_ (set_op_Steps
       (Some (<[index := set_step_UpdatedAt at_ (set_step_State next step)]> (items (op_Steps operation)))) operation)).
Proof.
  unfold op_TransitionStep. intros H. ok_step H. ok_step H. units. split_and!; [done..|].
  destruct (list_find _ _) as [[index step]|] eqn:Hf; [|done]. apply list_find_Some in Hf as (Hi & Hname & _).
  case_bool_decide; [left; by injection H|right]. ok_inv H. injection H as <-. facts. time_facts. exists index, step. by split_and!.
Qed.

Lemma step_names_insert (steps : list OperationStep) index step step' : steps !! index = Some step → step_Name step' = step_Name step →
  step_Name <$> <[index := step']> steps = step_Name <$> steps.
Proof.
  intros Hi Hn. rewrite list_fmap_insert list_insert_id // Hn list_lookup_fmap Hi //.
Qed.

Lemma op_TransitionStep_valid operation name next at_ operation' :
  op_TransitionStep operation name next at_ = Ok operation' → op_Validate operation' = Ok ().
Proof.
  intros (Hv & _ & [->|(index & step & Hi & _ & Hcan & Ht & Hs & Hle & ->)])%op_TransitionStep_ok; [done|].
  destruct (op_Validate_steps _ Hv) as [Hsteps Hnames]. destruct (op_Validate_time _ Hv) as [Hct _].
  apply op_Validate_update; [done..|lia| |].
  - intros i x [(-> & <- & _)|[_ Hx]]%list_lookup_insert_Some; [|by eapply Hsteps].
    specialize (Hsteps _ _ Hi). unfold step_Validate in *. ok_inv Hsteps. cbn. rewrite G.
    by rewrite (proj1 (proj2 (canTransition_valid _ _ Hcan))).
  - by rewrite (step_names_insert _ _ step).
Qed.

(** ** Evolution *)

Lemma step_evolution_refl s : step_evolution s s = Ok ().
Proof.
  unfold step_evolution. rewrite String.eqb_refl before_irrefl bool_decide_eq_true_2 //. by rewrite /Equal Z.eqb_refl.
Qed.

Lemma evolution_steps before after :
  op_Type before = op_Type after → op_TargetKind before = op_TargetKind after → op_TargetID before = op_TargetID after →
  op_RequestID before = op_RequestID after → op_ExpectedGeneration before = op_ExpectedGeneration after →
  op_DesiredGeneration before = op_DesiredGeneration after → op_CreatedAt before = op_CreatedAt after →
  (instant (op_UpdatedAt before) ≤ instant (op_UpdatedAt after))%Z →
  (op_State before = op_State after ∨ canTransitionOperation (op_State before) (op_State after) = true) →
  length (items (op_Steps before)) = length (items (op_Steps after)) →
  (∀ i x y, items (op_Steps before) !! i = Some x → items (op_Steps after) !! i = Some y → step_evolution x y = Ok ()) →
  validateOperationEvolution before after = Ok ().
Proof.
  intros H1 H2 H3 H4 H5 H6 H7 H8 H9 H10 H11. unfold validateOperationEvolution.
  rewrite H1 H2 H3 H4 H5 H6 H7 H10 !String.eqb_refl !N.eqb_refl Nat.eqb_refl /Equal Z.eqb_refl.
  rewrite (bool_decide_eq_true_2 (op_Type after = op_Type after) eq_refl) /= (proj2 (not_before _ _) H8) /=.
  assert (negb (bool_decide (op_State before = op_State after)) && negb (canTransitionOperation (op_State before) (op_State after)) = false) as ->.
  { destruct H9 as [H9|H9]; rewrite H9; [by rewrite bool_decide_eq_true_2|by rewrite andb_false_r]. }
  cbn. apply range_check_ok. intros i x Hx. destruct (items (op_Steps after) !! i) as [y|] eqn:Hy; [by eapply H11|].
  apply lookup_ge_None in Hy. apply lookup_lt_Some in Hx. lia.
Qed.

Lemma op_Transition_ok operation next at_ errorCode operation' : op_Transition operation next at_ errorCode = Ok operation' →
  op_Validate operation = Ok () ∧ op_Validate operation' = Ok () ∧
  (operation' = operation ∨
   canTransitionOperation (op_State operation) next = true ∧ (instant (op_UpdatedAt operation) ≤ instant at_)%Z ∧
   operation' = set_op_ErrorCode errorCode (set_op_UpdatedAt at_ (set_op_State next operation))).
Proof.
  unfold op_Transition. intros H. ok_step H. units. split; [done|]. case_bool_decide as Hs.
  - destruct (_ || _); [|done]. injection H as <-. auto.
  - ok_inv H. units. injection H as <-. facts. time_facts. split; [done|right]. by split_and!.
Qed.

(** One move of the operation or of one of its steps. *)
Inductive op_step (operation operation' : Operation) : Prop :=
  | op_step_move next at_ errorCode : op_Transition operation next at_ errorCode = Ok operation' → op_step operation operation'
  | op_step_plan name next at_ : op_TransitionStep operation name next at_ = Ok operation' → op_step operation operation'.

Lemma evolution_refl operation : validateOperationEvolution operation operation = Ok ().
Proof.
  apply evolution_steps; try done; [by left|]. intros i x y Hx Hy. simplify_eq. apply step_evolution_refl.
Qed.

Lemma op_step_evolution operation operation' : op_step operation operation' → validateOperationEvolution operation operation' = Ok ().
Proof.
  intros [next at_ ec (_ & _ & [->|(Hcan & Hle & ->)])%op_Transition_ok|
          name next at_ (Hv & _ & [->|(index & step & Hi & _ & Hcan & Ht & Hs & Hle & ->)])%op_TransitionStep_ok].
  - apply evolution_refl.
  - apply evolution_steps; try done; [by right|]. intros i x y Hx Hy. change (items (op_Steps operation) !! i = Some y) in Hy. simplify_eq. apply step_evolution_refl.
  - apply evolution_refl.
  - apply evolution_steps; try done; [by left|by rewrite /= length_insert|]. intros i x y Hx Hy.
    apply list_lookup_insert_Some in Hy as [(-> & <- & _)|[_ Hy]]; simplify_eq; [|apply step_evolution_refl].
    unfold step_evolution. cbn. rewrite String.eqb_refl (proj2 (not_before _ _) Hs) /=.
    rewrite bool_decide_eq_false_2; [by apply canTransition_valid|]. by rewrite Hcan.
Qed.

(** ** Claims *)

(** A move of a valid operation by [Transition] or [TransitionStep] gives a valid
    operation with the same identifier, and [validateOperationEvolution] accepts the
    pair, so type, target, request, generations and step plan are kept and update
    times do not go back. *)
Theorem operation_moves_are_accepted operation operation' :
  op_Validate operation = Ok () → op_step operation operation' →
  op_Validate operation' = Ok () ∧ validateOperationEvolution operation operation' = Ok () ∧ op_ID operation' = op_ID operation.
Proof.
  intros Hv Hs. split_and!; [|by apply op_step_evolution|].
  - destruct Hs as [next at_ ec (_ & ? & _)%op_Transition_ok|name next at_ ?%op_TransitionStep_valid]; done.
  - destruct Hs as [next at_ ec (_ & _ & [->|(_ & _ & ->)])%op_Transition_ok|
      name next at_ (_ & _ & [->|(index & step & _ & _ & _ & _ & _ & _ & ->)])%op_TransitionStep_ok]; done.
Qed.

(** Completed and failed are final: no sequence of moves changes a terminal
    operation in any field. *)
Theorem terminal_operation_frozen operation operation' :
  terminalOperationState (op_State operation) = true → rtc op_step operation operation' → operation' = operation.
Proof.
  intros Ht Hs. induction Hs as [|x y z Hxy _ IH]; [done|]. assert (y = x) as ->; [|by apply IH].
  destruct Hxy as [next at_ ec (_ & _ & [->|(Hcan & _)])%op_Transition_ok|name next at_ (_ & Hopen & _)%op_TransitionStep_ok]; [done|..].
  - by rewrite terminal_stuck in Hcan.
  - congruence.
Qed.

(** ** Witnesses *)

Definition staged_operation : Operation := set_op_UpdatedAt (day 3) (set_op_State OperationStaging open_operation).
Definition failed_operation : Operation :=
  set_op_ErrorCode "timeout" (set_op_UpdatedAt (day 4) (set_op_State OperationFailed staged_operation)).

Lemma operation_moves_are_accepted_witness : validateOperationEvolution open_operation staged_operation = Ok ().
Proof.
  apply (operation_moves_are_accepted open_operation staged_operation); [by vm_compute|].
  apply (op_step_move _ _ OperationStaging (day 3) ""). by vm_compute.
Defined.

Lemma terminal_operation_frozen_witness : failed_operation = failed_operation.
Proof.
  apply (terminal_operation_frozen failed_operation failed_operation eq_refl), rtc_once.
  apply (op_step_move _ _ OperationFailed (day 5) "timeout"). by vm_compute.
Defined.
