(* ===== verification/Transition.v ===== *)
(** * State transitions ([internal/model/transition.go], [ValidateTransition])

    The check every stored state must pass against its predecessor, one definition
    per helper of the source, and what a history of accepted transitions preserves. *)

From S2P Require Import Prelude GoTime GoText GoNet Types Checks Identity Address Expose Idempotency Resources StateValidate Samples StateFacts Operation.

Local Open Scope string_scope.
Local Open Scope list_scope.

(** [m := make(map); for _, x := range xs { m[key(x)] = x }]: the last one wins. *)
Definition index_by {A} (key : A → string) (xs : list A) : gmap string A :=
  foldl (λ m x, <[key x := x]> m) ∅ xs.

(** ** Nodes and clients *)

Definition validateResourceTransition (oldName newName oldIP newIP : string) (allowAddressMigration : bool)
    (oldCreatedAt newCreatedAt : time) (oldLifecycle newLifecycle : Lifecycle)
    (oldCredentialGeneration newCredentialGeneration : N) : result unit :=
  reject (negb (String.eqb oldIP newIP) && negb allowAddressMigration) transitionError;;
  reject (negb (Equal oldCreatedAt newCreatedAt)) transitionError;;
  reject (negb (bool_decide (oldLifecycle = newLifecycle)) &&
          negb ((bool_decide (oldLifecycle = LifecycleActive) && bool_decide (newLifecycle = LifecycleRevoked))
                || (bool_decide (oldLifecycle = LifecycleRevoked) && bool_decide (newLifecycle = LifecycleDeleted)))) transitionError;;
  reject (newCredentialGeneration <? oldCredentialGeneration)%N transitionError;;
  if (oldCredentialGeneration <? newCredentialGeneration)%N then
    expected ← wrap "credential" (NextGeneration oldCredentialGeneration);
    reject (negb (newCredentialGeneration =? expected)%N) transitionError;;
    reject (negb (bool_decide (newLifecycle = LifecycleActive))) transitionError;;
    reject (negb (String.eqb oldName newName)) transitionError
  else Ok ().

Definition policyFor (policies : list Policy) (kind : TargetKind) (id : string) : option Policy :=
  snd <$> list_find (λ p, policy_TargetKind p = kind ∧ policy_TargetID p = id) policies.

Definition exposeIDsForNode (exposes : list Expose) (nodeID : string) : list string :=
  expose_ID <$> filter (λ e, expose_NodeID e = nodeID) exposes.

Definition validateIdempotencyTransition (before after : Node) : result unit :=
  let retained := index_by idem_RequestID (items (node_IdempotencyRecords after)) in
  range_check (λ _ old,
    reject (match retained !! idem_RequestID old with
            | Some current => negb (bool_decide (current = old))
            | None => false
            end) transitionError) (items (node_IdempotencyRecords before)).

Definition node_transition (before after : State) (old node : Node) : result unit :=
  validateResourceTransition (node_Name old) (node_Name node) (node_OverlayIPv4 old) (node_OverlayIPv4 node)
    (negb (String.eqb (host_NodeCIDR (st_Host before)) (host_NodeCIDR (st_Host after))))
    (node_CreatedAt old) (node_CreatedAt node) (node_Lifecycle old) (node_Lifecycle node)
    (node_CredentialGeneration old) (node_CredentialGeneration node);;
  (if (node_CredentialGeneration node =? node_CredentialGeneration old)%N then Ok () else
     reject (negb (equalStringSet (items (node_AssignedPresets old)) (items (node_AssignedPresets node)))) transitionError;;
     reject (negb (bool_decide (policyFor (items (st_Policies before)) TargetNode (node_ID node)
                                = policyFor (items (st_Policies after)) TargetNode (node_ID node)))) transitionError;;
     reject (negb (equalStringSet (exposeIDsForNode (items (st_Exposes before)) (node_ID node))
                                  (exposeIDsForNode (items (st_Exposes after)) (node_ID node)))) transitionError);;
  validateIdempotencyTransition old node.

Definition validateNodeTransitions (before after : State) : result unit :=
  let previous := index_by node_ID (items (st_Nodes before)) in
  let current := index_by node_ID (items (st_Nodes after)) in
  range_check (λ _ node,
    match previous !! node_ID node with
    | None =>
        reject (negb (bool_decide (node_Lifecycle node = LifecycleActive)) || negb (node_CredentialGeneration node =? 1)%N) transitionError;;
        reject (negb (length (items (node_IdempotencyRecords node)) =? 0)%nat) transitionError
    | Some old => node_transition before after old node
    end) (items (st_Nodes after));;
  reject (negb (bool_decide (map_Forall (λ id node, is_Some (current !! id) ∨ node_Lifecycle node ≠ LifecycleActive) previous)))
    transitionError.

Definition client_transition (before after : State) (old client : Client) : result unit :=
  validateResourceTransition (client_Name old) (client_Name client) (client_OverlayIPv4 old) (client_OverlayIPv4 client)
    (negb (String.eqb (host_ClientCIDR (st_Host before)) (host_ClientCIDR (st_Host after))))
    (client_CreatedAt old) (client_CreatedAt client) (client_Lifecycle old) (client_Lifecycle client)
    (client_CredentialGeneration old) (client_CredentialGeneration client);;
  if (client_CredentialGeneration client =? client_CredentialGeneration old)%N then Ok () else
    reject (negb (equalStringSet (items (client_AssignedPresets old)) (items (client_AssignedPresets client)))) transitionError;;
    reject (negb (bool_decide (policyFor (items (st_Policies before)) TargetClient (client_ID client)
                               = policyFor (items (st_Policies after)) TargetClient (client_ID client)))) transitionError.

Definition validateClientTransitions (before after : State) : result unit :=
  let previous := index_by client_ID (items (st_Clients before)) in
  let current := index_by client_ID (items (st_Clients after)) in
  range_check (λ _ client,
    match previous !! client_ID client with
    | None => reject (negb (bool_decide (client_Lifecycle client = LifecycleActive)) || negb (client_CredentialGeneration client =? 1)%N)
                transitionError
    | Some old => client_transition before after old client
    end) (items (st_Clients after));;
  reject (negb (bool_decide (map_Forall (λ id client, is_Some (current !! id) ∨ client_Lifecycle client ≠ LifecycleActive) previous)))
    transitionError.

(** ** Invites *)

Definition same_invite (old invite : Invite) : bool :=
  (inv_SchemaVersion old =? inv_SchemaVersion invite)%Z && String.eqb (inv_ID old) (inv_ID invite)
  && String.eqb (inv_Purpose old) (inv_Purpose invite) && String.eqb (inv_NodeName old) (inv_NodeName invite)
  && String.eqb (inv_NodeID old) (inv_NodeID invite) && (inv_CredentialGeneration old =? inv_CredentialGeneration invite)%N
  && String.eqb (inv_BindingFingerprint old) (inv_BindingFingerprint invite)
  && String.eqb (inv_ControlProtocol old) (inv_ControlProtocol invite)
  && String.eqb (inv_GatewayEndpoint old) (inv_GatewayEndpoint invite)
  && String.eqb (inv_EnrollmentFingerprint old) (inv_EnrollmentFingerprint invite)
  && String.eqb (inv_SecretHash old) (inv_SecretHash invite)
  && Equal (inv_IssuedAt old) (inv_IssuedAt invite) && Equal (inv_ExpiresAt old) (inv_ExpiresAt invite).

Definition validateInviteTransitions (before after : list Invite) : result unit :=
  let previous := index_by inv_ID before in
  let current : gset string := list_to_set (inv_ID <$> after) in
  range_check (λ _ invite,
    match previous !! inv_ID invite with
    | None =>
        reject (negb (bool_decide (inv_State invite = InviteActive)) || bool_decide (inv_CancelledAt invite ≠ None)
                || bool_decide (inv_ConsumedAt invite ≠ None) || negb (String.eqb (inv_ConsumptionHash invite) "")) transitionError
    | Some old =>
        reject (negb (same_invite old invite)) transitionError;;
        match inv_State old with
        | InviteActive => reject (match inv_State invite with InviteStateUnsupported _ => true | _ => false end) transitionError
        | InviteCancelled | InviteConsumed => reject (negb (bool_decide (old = invite))) transitionError
        | InviteStateUnsupported _ => Ok ()
        end
    end) after;;
  range_check (λ _ invite, reject (negb (bool_decide (inv_ID invite ∈ current))) transitionError) before.

(** ** Versioned resources *)

Definition by_generation {A} (key : A → string) (generation : A → N) (xs : list A) : gmap string N :=
  foldl (λ m x, <[key x := generation x]> m) ∅ xs.

Definition presetsByName : list Preset → gmap string N := by_generation (λ p, ToLower (preset_Name p)) preset_Generation.
Definition policiesByTarget : list Policy → gmap string N := by_generation policy_target policy_Generation.
Definition exposesByID : list Expose → gmap string N := by_generation expose_ID expose_Generation.
Definition certificatesByID : list Certificate → gmap string N := by_generation cert_ID cert_Generation.

(** One resource; the loop over the map has no order, so the first error found may
    be that of any resource that has one. *)
Definition versioned_step (previous : option N) (current : N) : result unit :=
  match previous with
  | None => reject (negb (current =? 1)%N) transitionError
  | Some previous =>
      reject (current <? previous)%N transitionError;;
      if (previous <? current)%N then
        expected ← NextGeneration previous;
        reject (negb (current =? expected)%N) transitionError
      else Ok ()
  end.

Definition validateVersionedTransitions (before after : gmap string N) : result unit :=
  range_check (λ _ '(id, current), versioned_step (before !! id) current) (map_to_list after).

Definition validateExposeTransitions (before after : list Expose) : result unit :=
  let previous := index_by expose_ID before in
  validateVersionedTransitions (exposesByID before) (exposesByID after);;
  range_check (λ _ expose,
    match previous !! expose_ID expose with
    | None => Ok ()
    | Some old => reject (negb (String.eqb (expose_NodeID old) (expose_NodeID expose))
                          || negb (Equal (expose_CreatedAt old) (expose_CreatedAt expose))) transitionError
    end) after.

Definition validateCertificateTransitions (before after : list Certificate) : result unit :=
  let previous := index_by cert_ID before in
  validateVersionedTransitions (certificatesByID before) (certificatesByID after);;
  range_check (λ _ certificate,
    match previous !! cert_ID certificate with
    | None => Ok ()
    | Some old =>
        reject (negb (bool_decide (cert_Kind old = cert_Kind certificate))
                || negb (String.eqb (cert_OwnerKind old) (cert_OwnerKind certificate))
                || negb (String.eqb (cert_OwnerID old) (cert_OwnerID certificate))) transitionError;;
        reject (negb (cert_CredentialGeneration old =? cert_CredentialGeneration certificate)%N) transitionError
    end) after.

(** ** Handshake host replacement *)

Definition validateHandshakeHostChangeTransition (before after : State) : result unit :=
  let selectionChanged := negb (bool_decide (st_HandshakeHost before = st_HandshakeHost after)) in
  if bool_decide (host_Role (st_Host before) = RoleNode) then
    reject (bool_decide (st_HandshakeHostChange after ≠ None)) transitionError
  else if bool_decide (st_HandshakeHostChange before = st_HandshakeHostChange after) then
    reject selectionChanged transitionError
  else match st_HandshakeHostChange before, st_HandshakeHostChange after with
  | None, Some current => reject (negb (bool_decide (hc_State current = HandshakeHostPrepared)) || selectionChanged) transitionError
  | Some old, current =>
      match hc_State old, current with
      | HandshakeHostPrepared, Some current =>
          reject (negb (bool_decide (hc_State current = HandshakeHostCommitted))
                  || negb (String.eqb (hc_OperationID old) (hc_OperationID current))
                  || negb (bool_decide (hc_Previous old = hc_Previous current))
                  || negb (bool_decide (hc_Candidate old = hc_Candidate current))
                  || negb (bool_decide (hc_AffectedNodeIDs old = hc_AffectedNodeIDs current))
                  || negb (bool_decide (hc_AffectedClientIDs old = hc_AffectedClientIDs current))
                  || negb (Equal (hc_PreparedAt old) (hc_PreparedAt current)) || negb selectionChanged) transitionError
      | HandshakeHostCommitted, None =>
          reject (negb selectionChanged || negb (bool_decide (st_HandshakeHost after = Some (hc_Previous old)))) transitionError
      | HandshakeHostCommitted, Some current =>
          reject (negb (bool_decide (hc_State current = HandshakeHostPrepared)) || selectionChanged
                  || negb (bool_decide (st_HandshakeHost after = Some (hc_Candidate old)))
                  || String.eqb (hc_OperationID current) (hc_OperationID old)) transitionError
      | _, _ => Err transitionError
      end
  | None, None => Err transitionError
  end.

(** ** Operations, logging sessions and backups *)

Definition new_operation_ok (operation : Operation) : result unit :=
  reject (negb (bool_decide (op_State operation = OperationPending)) || negb (Equal (op_UpdatedAt operation) (op_CreatedAt operation)))
    transitionError;;
  range_check (λ _ step,
    reject (negb (bool_decide (step_State step = OperationPending)) || negb (Equal (step_UpdatedAt step) (op_CreatedAt operation)))
      transitionError) (items (op_Steps operation)).

Definition validate_operation_records (before after : list Operation) : result unit :=
  let operations := index_by op_ID before in
  let current : gset string := list_to_set (op_ID <$> after) in
  range_check (λ _ operation,
    match operations !! op_ID operation with
    | None => new_operation_ok operation
    | Some old => validateOperationEvolution old operation
    end) after;;
  range_check (λ _ operation,
    reject (negb (bool_decide (op_ID operation ∈ current)) && negb (terminalOperationState (op_State operation))) transitionError) before.

Definition same_session (old session : LoggingSession) : bool :=
  bool_decide (log_Scope old = log_Scope session) && bool_decide (log_Level old = log_Level session)
  && bool_decide (log_Destination old = log_Destination session) && String.eqb (log_FilePath old) (log_FilePath session)
  && Equal (log_StartedAt old) (log_StartedAt session) && Equal (log_ExpiresAt old) (log_ExpiresAt session).

Definition validate_logging_records (before after : list LoggingSession) : result unit :=
  let logging := index_by log_ID before in
  let current : gset string := list_to_set (log_ID <$> after) in
  range_check (λ _ session,
    match logging !! log_ID session with
    | None => reject (negb (bool_decide (log_State session = LogActive))) transitionError
    | Some old =>
        reject (negb (same_session old session)) transitionError;;
        reject (negb (bool_decide (log_State old = log_State session))
                && (negb (bool_decide (log_State old = LogActive))
                    || (negb (bool_decide (log_State session = LogExpired)) && negb (bool_decide (log_State session = LogDisabled)))))
          transitionError
    end) after;;
  range_check (λ _ session,
    reject (negb (bool_decide (log_ID session ∈ current)) && bool_decide (log_State session = LogActive)) transitionError) before.

Definition validate_backup_records (before after : list Backup) : result unit :=
  let backups := index_by backup_ID before in
  range_check (λ _ backup,
    match backups !! backup_ID backup with
    | Some old => reject (negb (bool_decide (old = backup))) transitionError
    | None => Ok ()
    end) after.

Definition validateStableRecordIdentities (before after : State) : result unit :=
  validate_operation_records (items (st_Operations before)) (items (st_Operations after));;
  validate_logging_records (items (st_Logging before)) (items (st_Logging after));;
  validate_backup_records (items (st_Backups before)) (items (st_Backups after)).

(** ** The whole check *)

Definition ValidateTransition (before after : State) : result unit :=
  wrap "before state" (Validate before);;
  expectedGeneration ← wrap "state" (NextGeneration (st_Generation before));
  reject (negb (st_Generation after =? expectedGeneration)%N) transitionError;;
  reject (negb (String.eqb (host_ID (st_Host before)) (host_ID (st_Host after)))) transitionError;;
  reject (negb (bool_decide (host_Role (st_Host before) = host_Role (st_Host after)))) transitionError;;
  reject (negb (Equal (host_InitializedAt (st_Host before)) (host_InitializedAt (st_Host after)))) transitionError;;
  reject (negb (is_ok (Validate after))) transitionError;;
  validateNodeTransitions before after;;
  validateClientTransitions before after;;
  validateInviteTransitions (items (st_Invites before)) (items (st_Invites after));;
  validateVersionedTransitions (presetsByName (items (st_Presets before))) (presetsByName (items (st_Presets after)));;
  validateVersionedTransitions (policiesByTarget (items (st_Policies before))) (policiesByTarget (items (st_Policies after)));;
  validateExposeTransitions (items (st_Exposes before)) (items (st_Exposes after));;
  validateCertificateTransitions (items (st_Certificates before)) (items (st_Certificates after));;
  reject (match st_EnrollmentIdentity before with
          | None => false
          | Some _ => negb (bool_decide (st_EnrollmentIdentity before = st_EnrollmentIdentity after))
          end) transitionError;;
  validateHandshakeHostChangeTransition before after;;
  validateStableRecordIdentities before after.

(** ** Lookups in the indexes *)

Lemma index_by_keyed {A} (key : A → string) xs : NoDup (key <$> xs) → keyed key xs (index_by key xs).
Proof.
  induction xs as [|x xs IH] using rev_ind; intros Hn; [apply keyed_nil|].
  rewrite fmap_app in Hn. apply NoDup_app in Hn as (Hn & Hd & _). unfold index_by. rewrite foldl_app. cbn.
  specialize (IH Hn). apply (keyed_snoc key); [done|]. fold (index_by key xs).
  destruct (index_by key xs !! key x) as [y|] eqn:E; [|done]. apply IH in E as [Hy Hk].
  exfalso. apply (Hd (key y)); [by apply list_elem_of_fmap_2|]. cbn. rewrite Hk. left.
Qed.

Lemma index_by_in {A} (key : A → string) xs x : NoDup (key <$> xs) → x ∈ xs → index_by key xs !! key x = Some x.
Proof. intros Hn Hx. by apply (keyed_lookup key xs); [apply index_by_keyed|]. Qed.

Lemma index_by_some {A} (key : A → string) xs k x : NoDup (key <$> xs) → index_by key xs !! k = Some x → x ∈ xs ∧ key x = k.
Proof. intros Hn Hx. by apply (index_by_keyed key xs Hn). Qed.

Lemma by_generation_index {A} (key : A → string) g xs : by_generation key g xs = g <$> index_by key xs.
Proof.
  induction xs as [|x xs IH] using rev_ind; [by rewrite /by_generation /index_by /= fmap_empty|].
  unfold by_generation, index_by in *. by rewrite !foldl_app /= IH fmap_insert.
Qed.

(** ** One accepted transition *)

Definition accepted (before after : State) : Prop := ValidateTransition before after = Ok ().

Record transition_parts (before after : State) : Prop := {
  tp_before : Validate before = Ok ();
  tp_after : Validate after = Ok ();
  tp_generation : NextGeneration (st_Generation before) = Ok (st_Generation after);
  tp_host : host_ID (st_Host before) = host_ID (st_Host after) ∧ host_Role (st_Host before) = host_Role (st_Host after) ∧
    instant (host_InitializedAt (st_Host before)) = instant (host_InitializedAt (st_Host after));
  tp_nodes : validateNodeTransitions before after = Ok ();
  tp_clients : validateClientTransitions before after = Ok ();
  tp_invites : validateInviteTransitions (items (st_Invites before)) (items (st_Invites after)) = Ok ();
  tp_presets : validateVersionedTransitions (presetsByName (items (st_Presets before))) (presetsByName (items (st_Presets after))) = Ok ();
  tp_policies : validateVersionedTransitions (policiesByTarget (items (st_Policies before))) (policiesByTarget (items (st_Policies after))) = Ok ();
  tp_exposes : validateExposeTransitions (items (st_Exposes before)) (items (st_Exposes after)) = Ok ();
  tp_certificates : validateCertificateTransitions (items (st_Certificates before)) (items (st_Certificates after)) = Ok ();
  tp_identity : ∀ i, st_EnrollmentIdentity before = Some i → st_EnrollmentIdentity after = Some i;
  tp_handshake : validateHandshakeHostChangeTransition before after = Ok ();
  tp_records : validateStableRecordIdentities before after = Ok ()
}.

Lemma accepted_parts before after : accepted before after → transition_parts before after.
Proof.
  unfold accepted, ValidateTransition. intros H. do 16 ok_step H. facts. time_facts. subst.
  constructor; try done.
  - match goal with H : is_ok _ = true |- _ => by apply is_ok_true in H as [[] ?] end.
  - intros i Hi. rewrite Hi in G13. facts. congruence.
Qed.

(** The identities of a valid state, by collection. *)
Lemma valid_NoDup state : Validate state = Ok () →
  NoDup (node_ID <$> items (st_Nodes state)) ∧ NoDup (client_ID <$> items (st_Clients state)) ∧
  NoDup (inv_ID <$> items (st_Invites state)) ∧ NoDup (op_ID <$> items (st_Operations state)).
Proof.
  intros (nodes & clients & presets & policies & states & operations & Hv)%Validate_parts.
  pose proof (validate_invites_ok _ (vp_invites _ _ _ _ _ _ _ Hv)) as [? _].
  by destruct (valid_collections _ _ _ _ _ _ _ Hv) as ([? _] & [? _] & [? _] & _).
Qed.

Lemma valid_invites state invite : Validate state = Ok () → invite ∈ items (st_Invites state) → invite_Validate invite = Ok ().
Proof.
  intros (nodes & clients & presets & policies & states & operations & Hv)%Validate_parts Hin.
  apply (validate_invites_ok _ (vp_invites _ _ _ _ _ _ _ Hv)). done.
Qed.

Lemma invite_state_supported invite raw : invite_Validate invite = Ok () → inv_State invite ≠ InviteStateUnsupported raw.
Proof. unfold invite_Validate. intros H Hs. do 10 ok_step H. unfold invite_terminal in H. by rewrite Hs in H. Qed.

(** An invite is never dropped, keeps its secret, and is frozen once used. *)
Lemma invite_step before after invite : accepted before after → invite ∈ items (st_Invites before) →
  ∃ invite', invite' ∈ items (st_Invites after) ∧ same_invite invite invite' = true ∧
    (inv_State invite ≠ InviteActive → invite' = invite).
Proof.
  intros Ha Hin. apply accepted_parts in Ha. pose proof (tp_invites _ _ Ha) as H.
  destruct (valid_NoDup _ (tp_before _ _ Ha)) as (_ & _ & Hnb & _).
  pose proof (valid_invites _ _ (tp_before _ _ Ha) Hin) as Hv.
  unfold validateInviteTransitions in H. ok_step H. rewrite range_check_ok in H. rewrite range_check_ok in G.
  apply list_elem_of_lookup in Hin as [i Hi]. pose proof (H _ _ Hi) as Hkept. ok_inv Hkept. facts.
  apply elem_of_list_to_set, list_elem_of_fmap in Hkept as (invite' & Hid & Hin').
  exists invite'. split; [done|]. apply list_elem_of_lookup in Hin' as [j Hj]. pose proof (G _ _ Hj) as Hok.
  rewrite -Hid (index_by_in inv_ID _ invite Hnb) in Hok; [by eapply list_elem_of_lookup_2|]. ok_step Hok. facts. split; [done|].
  intros Hs. destruct (inv_State invite) eqn:E; [done|..].
  - ok_inv Hok. by facts.
  - ok_inv Hok. by facts.
  - by destruct (invite_state_supported invite raw).
Qed.

(** ** Histories *)

Lemma same_invite_secret a b : same_invite a b = true →
  inv_ID a = inv_ID b ∧ inv_SecretHash a = inv_SecretHash b ∧ inv_NodeName a = inv_NodeName b ∧
  inv_Purpose a = inv_Purpose b ∧ inv_NodeID a = inv_NodeID b ∧ instant (inv_ExpiresAt a) = instant (inv_ExpiresAt b).
Proof. unfold same_invite. intros H. facts. time_facts. done. Qed.

(** C1: along any history of accepted transitions the generation counts them exactly
    and never leaves 64 bits, every state after the first is valid, and the host's
    identity, role and initialization time and the enrollment signing identity are
    fixed. *)
Theorem history_counts_generations n before after : nsteps accepted n before after → is_uint64 (st_Generation before) →
  st_Generation after = (st_Generation before + N.of_nat n)%N ∧ is_uint64 (st_Generation after) ∧
  (n ≠ 0%nat → Validate after = Ok ()) ∧
  host_ID (st_Host after) = host_ID (st_Host before) ∧ host_Role (st_Host after) = host_Role (st_Host before) ∧
  instant (host_InitializedAt (st_Host after)) = instant (host_InitializedAt (st_Host before)) ∧
  (∀ i, st_EnrollmentIdentity before = Some i → st_EnrollmentIdentity after = Some i).
Proof.
  intros Hs. induction Hs as [s|n x y z Hxy Hyz IH]; intros Hu.
  - rewrite N.add_0_r. by split_and!.
  - apply accepted_parts in Hxy as [_ Hy Hg (Hid & Hr & Hi) _ _ _ _ _ _ _ He _ _].
    destruct (NextGeneration_uint64 _ _ Hu Hg) as [Hu' _]. apply NextGeneration_ok in Hg as [_ Hg].
    destruct (IH Hu') as (E & Hz & Hv & Hid' & Hr' & Hi' & He'). split_and!; try congruence; try lia; [|auto].
    intros _. destruct n; [|by apply Hv]. by inversion Hyz; subst.
Qed.

(** C5: single use of invites.  Along any history of accepted transitions an invite is
    never removed and keeps its identifier, secret, purpose, target and expiry; once
    consumed or cancelled its record never changes again. *)
Theorem invites_are_single_use before after invite : rtc accepted before after → invite ∈ items (st_Invites before) →
  ∃ invite', invite' ∈ items (st_Invites after) ∧
    (inv_ID invite' = inv_ID invite ∧ inv_SecretHash invite' = inv_SecretHash invite ∧ inv_NodeName invite' = inv_NodeName invite ∧
     inv_Purpose invite' = inv_Purpose invite ∧ inv_NodeID invite' = inv_NodeID invite ∧
     instant (inv_ExpiresAt invite') = instant (inv_ExpiresAt invite)) ∧
    (inv_State invite ≠ InviteActive → invite' = invite).
Proof.
  intros Hs. revert invite. induction Hs as [s|x y z Hxy _ IH]; intros invite Hin; [by exists invite|].
  destruct (invite_step _ _ _ Hxy Hin) as (i1 & H1 & Hsame%same_invite_secret & Hfix).
  destruct (IH i1 H1) as (i2 & H2 & Hkeep & Hfix'). exists i2. split; [done|]. split; [intuition congruence|].
  intros Hne. rewrite (Hfix Hne) in Hfix'. auto.
Qed.

(** *** Credentials *)

(** What a transition may do to a node or client it keeps. *)
Definition resource_evolves (oldLifecycle newLifecycle : Lifecycle) (oldGeneration newGeneration : N) : Prop :=
  (newLifecycle = oldLifecycle ∨ (oldLifecycle = LifecycleActive ∧ newLifecycle = LifecycleRevoked)
     ∨ (oldLifecycle = LifecycleRevoked ∧ newLifecycle = LifecycleDeleted)) ∧
  (newGeneration = oldGeneration ∨ (newGeneration = oldGeneration + 1)%N ∧ newLifecycle = LifecycleActive).

Lemma validateResourceTransition_ok on nn oi ni allow oc nc ol nl og ng :
  validateResourceTransition on nn oi ni allow oc nc ol nl og ng = Ok () →
  resource_evolves ol nl og ng ∧ instant oc = instant nc ∧ (allow = false → oi = ni) ∧ (og ≠ ng → on = nn).
Proof.
  unfold validateResourceTransition. intros H. do 4 ok_step H. unfold resource_evolves.
  assert (Hg : (ng = og ∨ (ng = og + 1)%N ∧ nl = LifecycleActive) ∧ (og ≠ ng → on = nn)).
  { destruct (og <? ng)%N eqn:E; [|facts; split; [left; lia|lia]].
    ok_inv H. facts. apply NextGeneration_ok in G3 as [_ ->]. auto. }
  destruct Hg as [Hg Hname]. facts. time_facts. split_and!; try done.
  - apply andb_false_iff in G1. rewrite !negb_false_iff orb_true_iff !andb_true_iff !bool_decide_eq_true in G1. naive_solver.
  - intros ->. rewrite andb_true_r in G. by facts.
Qed.

(** An accepted transition treats credentials safely.  A node present before and
    after keeps its creation time, its lifecycle moves forward by at most one stage
    and its credential generation by at most one, and only while active; a rotation
    keeps its name, its assigned presets, its policy and the identities of its
    exposes; its overlay address changes only together with the address block; and
    an active node cannot disappear. *)
Theorem node_credentials_evolve before after node : accepted before after → node ∈ items (st_Nodes before) →
  (∀ node', node' ∈ items (st_Nodes after) → node_ID node' = node_ID node →
     resource_evolves (node_Lifecycle node) (node_Lifecycle node') (node_CredentialGeneration node) (node_CredentialGeneration node') ∧
     instant (node_CreatedAt node) = instant (node_CreatedAt node') ∧
     (host_NodeCIDR (st_Host before) = host_NodeCIDR (st_Host after) → node_OverlayIPv4 node' = node_OverlayIPv4 node) ∧
     (node_CredentialGeneration node' ≠ node_CredentialGeneration node →
        node_Name node' = node_Name node ∧ items (node_AssignedPresets node) ≡ₚ items (node_AssignedPresets node') ∧
        policyFor (items (st_Policies before)) TargetNode (node_ID node) = policyFor (items (st_Policies after)) TargetNode (node_ID node) ∧
        exposeIDsForNode (items (st_Exposes before)) (node_ID node) ≡ₚ exposeIDsForNode (items (st_Exposes after)) (node_ID node))) ∧
  (node_Lifecycle node = LifecycleActive → ∃ node', node' ∈ items (st_Nodes after) ∧ node_ID node' = node_ID node).
Proof.
  intros Ha%accepted_parts Hin. pose proof (tp_nodes _ _ Ha) as H.
  destruct (valid_NoDup _ (tp_before _ _ Ha)) as (Hnb & _). destruct (valid_NoDup _ (tp_after _ _ Ha)) as (Hna & _).
  unfold validateNodeTransitions in H. ok_step H. rewrite range_check_ok in G. ok_inv H. facts. split.
  - intros node' [i Hi]%list_elem_of_lookup Hid. apply G in Hi. rewrite Hid (index_by_in node_ID _ node Hnb Hin) in Hi.
    unfold node_transition in Hi. ok_step Hi. ok_step Hi. units. rewrite Hid in G1.
    apply validateResourceTransition_ok in G0 as (Hev & Hc & Hip & Hname). split_and!; [done..| |].
    + intros Hcidr. symmetry. apply Hip. by rewrite Hcidr String.eqb_refl.
    + intros Hne. rewrite (proj2 (N.eqb_neq _ _) Hne) in G1. ok_inv G1. facts.
      rewrite -!equalStringSet_spec. split_and!; [|done..]. symmetry. by apply Hname.
  - intros Hl. destruct (H _ _ (index_by_in node_ID _ node Hnb Hin)) as [[node' Hn]|]; [|done].
    apply (index_by_some node_ID) in Hn as [? ?]; [|done]. eauto.
Qed.

(** *** Operations *)

(** An accepted transition never loses an open operation and never revives a
    finished one: an operation that is neither failed nor completed is still there
    afterwards as a permitted successor of itself, a finished one that is kept stays
    in its final state, and a new operation starts pending. *)
Theorem operations_are_durable before after : accepted before after →
  (∀ o, o ∈ items (st_Operations before) → terminalOperationState (op_State o) = false →
     ∃ o', o' ∈ items (st_Operations after) ∧ op_ID o' = op_ID o ∧ validateOperationEvolution o o' = Ok ()) ∧
  (∀ o o', o ∈ items (st_Operations before) → o' ∈ items (st_Operations after) → op_ID o' = op_ID o →
     terminalOperationState (op_State o) = true → op_State o' = op_State o) ∧
  (∀ o', o' ∈ items (st_Operations after) → (op_ID o' ∉ op_ID <$> items (st_Operations before)) → op_State o' = OperationPending).
Proof.
  intros Ha%accepted_parts. pose proof (tp_records _ _ Ha) as H.
  destruct (valid_NoDup _ (tp_before _ _ Ha)) as (_ & _ & _ & Hnb). unfold validateStableRecordIdentities in H. ok_step H.
  unfold validate_operation_records in G. ok_step G. rewrite range_check_ok in G0. units. rewrite range_check_ok in G.
  assert (Hev : ∀ o o', o ∈ items (st_Operations before) → o' ∈ items (st_Operations after) → op_ID o' = op_ID o →
    validateOperationEvolution o o' = Ok ()).
  { intros o o' Ho [i Hi]%list_elem_of_lookup Hid. apply G0 in Hi. by rewrite Hid (index_by_in op_ID _ o Hnb Ho) in Hi. }
  split_and!.
  - intros o Ho Hopen. assert (Ho' := Ho). apply list_elem_of_lookup in Ho' as [i Hi]. apply G in Hi. ok_inv Hi.
    rewrite Hopen andb_true_r in Hi. facts. apply elem_of_list_to_set, list_elem_of_fmap in Hi as (o' & Hid & Ho'). eauto.
  - intros o o' Ho Ho' Hid Ht. specialize (Hev o o' Ho Ho' Hid). unfold validateOperationEvolution in Hev. do 3 ok_step Hev.
    rewrite (terminal_stuck _ _ Ht) andb_true_r in G3. by facts.
  - intros o' [i Hi]%list_elem_of_lookup Hnew. apply G0 in Hi. destruct (index_by op_ID _ !! op_ID o') as [o|] eqn:E.
    + apply (index_by_some op_ID) in E as [Ho Hid]; [|done]. destruct Hnew. rewrite -Hid. by apply list_elem_of_fmap_2.
    + unfold new_operation_ok in Hi. ok_step Hi. by facts.
Qed.

(** *** The handshake host *)

Lemma committed_selection state change : Validate state = Ok () → st_HandshakeHostChange state = Some change →
  (hc_State change = HandshakeHostPrepared → st_HandshakeHost state = Some (hc_Previous change)) ∧
  (hc_State change = HandshakeHostCommitted → st_HandshakeHost state = Some (hc_Candidate change)).
Proof.
  intros (nodes & clients & presets & policies & states & operations & Hv)%Validate_parts Hc.
  pose proof (vp_handshake _ _ _ _ _ _ _ Hv) as H. unfold validateHandshakeHostChange in H. rewrite Hc in H. do 3 ok_step H.
  destruct (operations !! hc_OperationID change) as [o|]; [|done]. ok_step H.
  split; intros Hs; rewrite Hs in H; ok_inv H; by facts.
Qed.

(** On a gateway the selected handshake host changes only by committing a prepared
    replacement, to the candidate that was reviewed, or by rolling a committed one
    back, to the exact host it replaced. *)
Theorem handshake_host_changes_are_staged before after : accepted before after →
  host_Role (st_Host before) = RoleGateway → st_HandshakeHost after ≠ st_HandshakeHost before →
  ∃ change, st_HandshakeHostChange before = Some change ∧
    ((hc_State change = HandshakeHostPrepared ∧ st_HandshakeHost before = Some (hc_Previous change) ∧
        st_HandshakeHost after = Some (hc_Candidate change) ∧
        ∃ change', st_HandshakeHostChange after = Some change' ∧ hc_State change' = HandshakeHostCommitted
          ∧ hc_OperationID change' = hc_OperationID change) ∨
     (hc_State change = HandshakeHostCommitted ∧ st_HandshakeHost before = Some (hc_Candidate change) ∧
        st_HandshakeHost after = Some (hc_Previous change) ∧ st_HandshakeHostChange after = None)).
Proof.
  intros Ha%accepted_parts Hr Hne. pose proof (tp_handshake _ _ Ha) as H. unfold validateHandshakeHostChangeTransition in H.
  rewrite Hr bool_decide_eq_false_2 // (bool_decide_eq_false_2 (st_HandshakeHost before = _)) // in H. cbn [negb] in H.
  case_bool_decide as Heq; [ok_inv H; done|].
  destruct (st_HandshakeHostChange before) as [change|] eqn:Eb; [|destruct (st_HandshakeHostChange after); [|done]; ok_inv H; facts; done].
  exists change. split; [done|]. destruct (committed_selection _ _ (tp_before _ _ Ha) Eb) as [Hp Hc].
  destruct (hc_State change) eqn:Es, (st_HandshakeHostChange after) as [change'|] eqn:Ea; try done; ok_inv H; facts; try done.
  - left. destruct (committed_selection _ _ (tp_after _ _ Ha) Ea) as [_ Hc']. split_and!; [done|auto| |by exists change'].
    rewrite Hc' //. congruence.
  - right. auto.
Qed.

(** ** Witnesses *)

Definition next_state : State := set_st_Generation 10 sample_state.

Lemma next_accepted : accepted sample_state next_state.
Proof. by vm_compute. Qed.

Lemma history_counts_generations_witness : st_Generation next_state = 10%N.
Proof.
  apply (history_counts_generations 1 sample_state next_state); [by apply nsteps_once, next_accepted|].
  unfold is_uint64, max_uint64. cbn. lia.
Defined.

Lemma node_credentials_evolve_witness :
  ∃ node', node' ∈ items (st_Nodes next_state) ∧ node_ID node' = node_ID (gateway_node "11" "edge" "10.67.0.2").
Proof.
  apply (node_credentials_evolve sample_state next_state (gateway_node "11" "edge" "10.67.0.2") next_accepted); [left|reflexivity].
Defined.

Lemma operations_are_durable_witness : op_State sample_operation = OperationCompleted.
Proof.
  destruct (operations_are_durable sample_state next_state next_accepted) as (_ & H & _).
  apply (H sample_operation sample_operation); [left|left|reflexivity|reflexivity].
Defined.

(** A gateway with an invite and a staged handshake-host replacement. *)
Definition sample_identity : EnrollmentIdentity :=
  MkEnrollmentIdentity 1 "Ed25519" sample_fingerprint "enroll_key:public" "enroll_key:private" 1 (day 0).
Definition sample_invite (s : InviteState) (consumed : option time) (hash : string) : Invite :=
  MkInvite 1 "inv-ABC234" "enroll" "edge" "" 0 "" "2.0" "https://203.0.113.7/.well-known/vpnctl/enroll" sample_fingerprint
    sample_hash s (day 3) (Add (day 3) InviteTTL) None consumed hash.
Definition active_invite : Invite := sample_invite InviteActive None "".
Definition consumed_invite : Invite := sample_invite InviteConsumed (Some (Add (day 3) minute)) sample_hash.
Definition handshake_host (id name : string) (at_ : time) : HandshakeHost := MkHandshakeHost 1 3 id name at_.
Definition old_handshake : HandshakeHost := handshake_host "first" "www.example.com" (day 1).
Definition new_handshake : HandshakeHost := handshake_host "second" "www.example.org" (day 3).
Definition sample_change (s : HandshakeHostChangeState) (committed expires : option time) : HandshakeHostChange :=
  MkHandshakeHostChange 1 (uuid "51") s old_handshake new_handshake (Some []) (Some []) (day 3) committed expires.
Definition handshake_operation (s : OperationState) (updated : time) : Operation :=
  MkOperation 1 (uuid "51") OperationHandshakeHost s "transport" "second" "" 0 0 (Some []) "" (day 3) updated.
Definition gateway_state (generation : N) (host : HandshakeHost) (change : HandshakeHostChange) (invite : Invite) (o : Operation) : State :=
  MkState 1 generation sample_host (Some host) (Some change) (Some sample_identity) None (Some [invite]) (Some []) (Some [])
    (Some []) (Some []) (Some []) (Some []) (Some []) (Some [o]) (Some []) (Some []) sample_manifest.
Definition prepared_state : State :=
  gateway_state 5 old_handshake (sample_change HandshakeHostPrepared None None) consumed_invite (handshake_operation OperationPending (day 3)).
Definition committed_state : State :=
  gateway_state 6 new_handshake (sample_change HandshakeHostCommitted (Some (day 4)) (Some (day 5))) consumed_invite
    (handshake_operation OperationActive (day 4)).
Definition invited_state : State :=
  gateway_state 4 old_handshake (sample_change HandshakeHostPrepared None None) active_invite (handshake_operation OperationPending (day 3)).

Lemma commit_accepted : accepted prepared_state committed_state.
Proof. by vm_compute. Qed.

Lemma consume_accepted : accepted invited_state prepared_state.
Proof. by vm_compute. Qed.

Lemma invites_are_single_use_witness :
  ∃ invite', invite' ∈ items (st_Invites committed_state) ∧ inv_ID invite' = "inv-ABC234".
Proof.
  destruct (invites_are_single_use invited_state committed_state active_invite) as (i & Hi & (Hid & _) & _).
  - apply (rtc_l _ _ prepared_state); [exact consume_accepted|apply rtc_once; exact commit_accepted].
  - left.
  - exists i. split; [exact Hi|exact Hid].
Defined.

Lemma handshake_host_changes_are_staged_witness : ∃ change, st_HandshakeHostChange prepared_state = Some change.
Proof.
  destruct (handshake_host_changes_are_staged prepared_state committed_state commit_accepted eq_refl) as (c & Hc & _).
  - intros [=].
  - by exists c.
Defined.
