(* ===== verification/NodeOperation.v ===== *)
(** * Requests of a node to its gateway ([internal/model/operation.go])

    A joined node registers a request durably before sending it and keeps its
    identifier until the outcome is definitive. *)

From S2P Require Import Prelude GoTime GoText GoNet Types Checks Identity Address Expose Idempotency Resources StateValidate Samples StateFacts Operation Transition.

Local Open Scope string_scope.
Local Open Scope list_scope.

(** [state.Host.Role == RoleNode && len(state.Nodes) == 1 && state.Nodes[0].Gateway != nil] *)
Definition enrolled_node (state : State) : option (Node * GatewayTrust) :=
  if bool_decide (host_Role (st_Host state) = RoleNode) then
    match items (st_Nodes state) with
    | [node] => (node,.) <$> node_Gateway node
    | _ => None
    end
  else None.

Definition find_operation (requestID : string) (operations : list Operation) : option (nat * Operation) :=
  list_find (λ o, op_RequestID o = requestID) operations.

Definition PendingNodeOperation (state : State) : result (option Operation) :=
  wrap "validate node state" (Validate state);;
  match enrolled_node state with
  | None => Err (Message "pending node operation requires an enrolled node state")
  | Some (_, trust) =>
      if String.eqb (gw_PendingRequestID trust) "" then Ok None
      else match find_operation (gw_PendingRequestID trust) (items (st_Operations state)) with
           | Some (_, operation) => Ok (Some operation)
           | None => Err (Sentinel ErrPendingRequest)
           end
  end.

Definition occupied_ids (operations : list Operation) : gset string :=
  foldl (λ occupied o,
    let occupied := {[op_ID o]} ∪ occupied in
    if String.eqb (op_RequestID o) "" then occupied else {[op_RequestID o]} ∪ occupied) ∅ operations.

Definition new_operation (intent : OperationIntent) (at_ : time) (operationID requestID : string) (expected desired : N) : Operation :=
  MkOperation ResourceSchemaVersion operationID (intent_Type intent) OperationPending (intent_TargetKind intent)
    (intent_TargetID intent) requestID expected desired
    (Some ((λ name, MkOperationStep name OperationPending at_) <$> items (intent_StepNames intent))) "" at_ at_.

(** The candidate state: one more operation, the request recorded as pending. *)
Definition register (state : State) (node : Node) (trust : GatewayTrust) (generation : N) (operation : Operation) : State :=
  set_st_Nodes (Some [set_node_Gateway (Some (set_gw_PendingRequestID (op_RequestID operation) trust)) node])
    (set_st_Operations (Some (items (st_Operations state) ++ [operation])) (set_st_Generation generation state)).

(** What follows the two identifiers; no further call of the generator. *)
Definition begin_candidate (state : State) (node : Node) (trust : GatewayTrust) (intent : OperationIntent) (at_ : time)
    (operationID requestID : string) : result (State * Operation) :=
  desiredGeneration ← wrap "desired gateway" (NextGeneration (gw_LastKnownGatewayGeneration trust));
  localGeneration ← wrap "local state" (NextGeneration (st_Generation state));
  let operation := new_operation intent at_ operationID requestID (gw_LastKnownGatewayGeneration trust) desiredGeneration in
  wrap "validate new operation" (op_Validate operation);;
  let candidate := register state node trust localGeneration operation in
  wrap "persist pending node operation" (ValidateTransition state candidate);;
  Ok (candidate, operation).

(** The state to store, the operation, and whether it was already registered;
    with the generator's cursor. *)
Definition BeginNodeOperation (state : State) (intent : OperationIntent) (at_ : time) (gen : generator) (cursor : nat)
    : result (State * Operation * bool) * nat :=
  match wrap "validate node state" (Validate state) with
  | Err e => (Err e, cursor)
  | Ok _ =>
  match enrolled_node state with
  | None => (Err (Message "begin node operation requires an enrolled node state"), cursor)
  | Some (node, trust) =>
  match PendingNodeOperation state with
  | Err e => (Err e, cursor)
  | Ok (Some pending) => (Ok (state, pending, true), cursor)
  | Ok None =>
  match intent_Validate intent;; validateTime "created_at" at_ with
  | Err e => (Err e, cursor)
  | Ok _ =>
  match AllocateUUID (occupied_ids (items (st_Operations state))) gen cursor with
  | (Err e, cursor) => (Err (Wrapped "allocate operation ID" e), cursor)
  | (Ok (operationID, occupied), cursor) =>
  match AllocateUUID occupied gen cursor with
  | (Err e, cursor) => (Err (Wrapped "allocate request ID" e), cursor)
  | (Ok (requestID, _), cursor) =>
      (('(candidate, operation) ← begin_candidate state node trust intent at_ operationID requestID;
        Ok (candidate, operation, false)), cursor)
  end end end end end end.

Definition AdvancePendingNodeOperation (state : State) (requestID : string) (next : OperationState)
    (resultingGatewayGeneration : N) (errorCode : string) (at_ : time) : result (State * Operation) :=
  wrap "validate node state" (Validate state);;
  match enrolled_node state with
  | None => Err (Message "advance node operation requires an enrolled node state")
  | Some (node, trust) =>
      reject (negb (String.eqb (gw_PendingRequestID trust) requestID)) (Sentinel ErrPendingRequest);;
      reject (resultingGatewayGeneration =? 0)%N (Message "resulting gateway generation must be positive");;
      match find_operation requestID (items (st_Operations state)) with
      | None => Err (Sentinel ErrPendingRequest)
      | Some (operationIndex, operation) =>
          updated ← op_Transition operation next at_ errorCode;
          let trust' := if (gw_LastKnownGatewayGeneration trust <? resultingGatewayGeneration)%N
                        then set_gw_LastKnownGatewayGeneration resultingGatewayGeneration trust else trust in
          let trust' := if terminalOperationState next then set_gw_PendingRequestID "" trust' else trust' in
          if bool_decide (updated = operation) && bool_decide (trust' = trust) then Ok (state, updated)
          else
            localGeneration ← wrap "local state" (NextGeneration (st_Generation state));
            let candidate :=
              set_st_Nodes (Some [set_node_Gateway (Some trust') node])
                (set_st_Operations (Some (<[operationIndex := updated]> (items (st_Operations state))))
                  (set_st_Generation localGeneration state)) in
            wrap "persist node operation phase" (ValidateTransition state candidate);;
            Ok (candidate, updated)
      end
  end.

(** ** The state of a joined node *)

Lemma enrolled_node_spec state node trust : enrolled_node state = Some (node, trust) ↔
  host_Role (st_Host state) = RoleNode ∧ items (st_Nodes state) = [node] ∧ node_Gateway node = Some trust.
Proof.
  unfold enrolled_node. case_bool_decide; [|naive_solver].
  destruct (items (st_Nodes state)) as [|n [|]]; [naive_solver| |naive_solver].
  destruct (node_Gateway n) eqn:E; cbn; naive_solver.
Qed.

(** The states Begin and Advance write: the local node's trust, the operations and the
    generation are replaced. *)
Definition update (state : State) (node : Node) (trust : GatewayTrust) (generation : N) (operations : list Operation) : State :=
  set_st_Nodes (Some [set_node_Gateway (Some trust) node])
    (set_st_Operations (Some operations) (set_st_Generation generation state)).

(** The states a switch of transports writes replace the selection and the transports too. *)
Definition update_node (trust : GatewayTrust) (active : TransportKind) (node : Node) : Node :=
  set_node_ActiveTransport active (set_node_Gateway (Some trust) node).
Definition update_with (state : State) (node : Node) (trust : GatewayTrust) (active : TransportKind) (transports : slice Transport)
    (generation : N) (operations : list Operation) : State :=
  set_st_Transports transports (set_st_Nodes (Some [update_node trust active node])
    (set_st_Operations (Some operations) (set_st_Generation generation state))).

Lemma update_same state node trust generation operations :
  update state node trust generation operations
  = update_with state node trust (node_ActiveTransport node) (st_Transports state) generation operations.
Proof. by destruct state, node. Qed.

Lemma validateResource_active schema id name lifecycle overlay credentials active active' created revoked :
  (∀ raw, active' ≠ TransportKindUnsupported raw) →
  validateResource schema id name lifecycle overlay credentials active created revoked = Ok () →
  validateResource schema id name lifecycle overlay credentials active' created revoked = Ok ().
Proof.
  intros Ha H. unfold validateResource in *. do 8 ok_step H. units. rewrite G G0 G1 G2 G3 G4. cbn [reject mbind result_bind].
  destruct active' as [| |raw]; [..|by destruct (Ha raw)]; cbn [reject mbind result_bind]; by rewrite G6.
Qed.

Lemma range_ext {A S} (body body' : nat → A → S → result S) xs s :
  (∀ i x s, body i x s = body' i x s) → range body xs s = range body' xs s.
Proof.
  intros H. unfold range. generalize 0%nat. revert s. induction xs as [|x xs IH]; intros s i; cbn; [done|].
  rewrite H. destruct (body' i x s); cbn; [apply IH|done].
Qed.

Lemma bool_decide_refl {A} `{EqDecision A} (x : A) : bool_decide (x = x) = true.
Proof. by apply bool_decide_eq_true. Qed.

(** Collections a transition leaves alone pass their checks. *)
Lemma versioned_refl m : validateVersionedTransitions m m = Ok ().
Proof.
  unfold validateVersionedTransitions. apply range_check_ok. intros i [id g] Hg%list_elem_of_lookup_2%elem_of_map_to_list.
  unfold versioned_step. by rewrite Hg N.ltb_irrefl.
Qed.

Lemma expose_transitions_refl exposes : NoDup (expose_ID <$> exposes) → validateExposeTransitions exposes exposes = Ok ().
Proof.
  intros Hn. unfold validateExposeTransitions. rewrite versioned_refl. cbn [mbind result_bind]. apply range_check_ok.
  intros i x Hx%list_elem_of_lookup_2. by rewrite (index_by_in expose_ID) // String.eqb_refl /Equal Z.eqb_refl.
Qed.

Lemma certificate_transitions_refl certificates : NoDup (cert_ID <$> certificates) →
  validateCertificateTransitions certificates certificates = Ok ().
Proof.
  intros Hn. unfold validateCertificateTransitions. rewrite versioned_refl. cbn [mbind result_bind]. apply range_check_ok.
  intros i x Hx%list_elem_of_lookup_2. rewrite (index_by_in cert_ID) // !String.eqb_refl N.eqb_refl. by rewrite bool_decide_eq_true_2.
Qed.

Lemma logging_records_refl sessions : NoDup (log_ID <$> sessions) → validate_logging_records sessions sessions = Ok ().
Proof.
  intros Hn. unfold validate_logging_records. apply bind_ok. exists (). split.
  - apply range_check_ok. intros i x Hx%list_elem_of_lookup_2. rewrite (index_by_in log_ID) //. unfold same_session.
    by rewrite !bool_decide_refl String.eqb_refl /Equal !Z.eqb_refl.
  - apply range_check_ok. intros i x Hx%list_elem_of_lookup_2. rewrite bool_decide_eq_true_2 //.
    by apply elem_of_list_to_set, list_elem_of_fmap_2.
Qed.

Lemma valid_more_NoDup state : Validate state = Ok () →
  NoDup (expose_ID <$> items (st_Exposes state)) ∧ NoDup (cert_ID <$> items (st_Certificates state)) ∧
  NoDup (log_ID <$> items (st_Logging state)).
Proof.
  intros (nodes & clients & presets & policies & states & operations & Hv)%Validate_parts.
  destruct (vp_exposes _ _ _ _ _ _ _ Hv) as [? He]. apply validate_exposes_ok in He as (? & _).
  destruct (validate_certificates_ok _ _ (vp_certificates _ _ _ _ _ _ _ Hv)) as [? _].
  destruct (vp_logging _ _ _ _ _ _ _ Hv) as [[? ?] Hl]. by apply validate_logging_ok in Hl as (? & _).
Qed.

Section node_update.
Context (state : State) (node : Node) (trust trust' : GatewayTrust) (generation : N) (operations : list Operation).
Context (Hvalid : Validate state = Ok ()) (Henrolled : enrolled_node state = Some (node, trust)).
Context (Htrust : gw_Validate trust' = Ok ()) (Hcidr : gw_NodeCIDR trust' = gw_NodeCIDR trust)
  (Hoverlay : gw_GatewayOverlayIPv4 trust' = gw_GatewayOverlayIPv4 trust).
Context (Hgeneration : generation ≠ 0%N).
Context (active : TransportKind) (transports : slice Transport).
Context (Hactive : ∀ raw, active ≠ TransportKindUnsupported raw) (Hpresent : is_nil transports = false).

Let node' := update_node trust' active node.
Let state' := update_with state node trust' active transports generation operations.

Lemma update_head : validate_head state = Ok () → validate_head state' = Ok ().
Proof.
  unfold validate_head. intros H. do 9 ok_step H. ok_inv H. units. unfold state'.
  cbn [update_with set_st_Transports set_st_Nodes set_st_Operations set_st_Generation st_SchemaVersion st_Host st_Components st_Generation].
  change (validate_dns _) with (validate_dns state). change (validate_handshake_host _) with (validate_handshake_host state).
  change (validate_enrollment_identity _) with (validate_enrollment_identity state).
  rewrite G. apply N.eqb_neq in Hgeneration. rewrite Hgeneration G1 G2 G3 G4 G5 G6 G7. cbn [reject wrap mbind result_bind].
  unfold missing_collection in *. facts. cbn. rewrite Hpresent.
  repeat match goal with H : is_nil _ = false |- _ => rewrite H; clear H end. done.
Qed.

Lemma update_node_Validate : node_Validate node = Ok () → node_Validate node' = Ok ().
Proof.
  unfold node_Validate. intros H. do 5 ok_step H. units. unfold node', update_node.
  cbn [set_node_ActiveTransport set_node_Gateway node_SchemaVersion node_ID node_Name node_Lifecycle node_OverlayIPv4 node_CredentialGeneration
       node_ControlProtocol node_AssignedPresets node_ActiveTransport node_IdempotencyRecords node_Gateway node_CreatedAt node_RevokedAt].
  by rewrite (validateResource_active _ _ _ _ _ _ _ active _ _ Hactive G) G0 G1 G2 G3 Htrust.
Qed.

Lemma update_overlay_inside : overlay_inside node' = overlay_inside node.
Proof.
  apply enrolled_node_spec in Henrolled as (_ & _ & Hg). unfold overlay_inside, node'. cbn. by rewrite Hg Hcidr Hoverlay.
Qed.

(** A node host holds no invites, clients, backups or idempotency records, and no
    gateway-side change. *)
Lemma node_host_empty : items (st_Invites state) = [] ∧ items (st_Clients state) = [] ∧ items (st_Backups state) = [] ∧
  items (node_IdempotencyRecords node) = [] ∧ st_HandshakeHostChange state = None ∧
  validate_pending state (gw_PendingRequestID trust) = Ok () ∧ validate_local state (node_ID node) = Ok ().
Proof.
  apply enrolled_node_spec in Henrolled as (Hr & Hn & Hg).
  apply Validate_parts in Hvalid as (nodes & clients & presets & policies & states & ops & Hv).
  pose proof (vp_role _ _ _ _ _ _ _ Hv) as H. unfold validate_role in H. rewrite Hr Hn Hg in H. do 3 ok_step H. ok_step G1.
  pose proof (vp_handshake _ _ _ _ _ _ _ Hv) as Hh. unfold validateHandshakeHostChange in Hh. rewrite Hr in Hh.
  facts. split_and!; try done; try by apply nil_length_inv. by destruct (st_HandshakeHostChange state).
Qed.

Lemma update_nodes nodes names : validate_nodes state = Ok (nodes, names) →
  validate_nodes state' = Ok (update_node trust' active <$> nodes, names).
Proof.
  destruct node_host_empty as (_ & _ & _ & Hrec & _). pose proof Henrolled as (Hr & Hn & Hg)%enrolled_node_spec.
  unfold validate_nodes. rewrite Hn. change (items (st_Nodes state')) with [node']. unfold range. cbn [range_loop].
  intros H. ok_step H. destruct a as [m s]. injection H as <- <-. do 4 ok_step G. units.
  rewrite (update_node_Validate G0) update_overlay_inside. apply negb_false_iff in G1. rewrite G1.
  cbn [wrap reject negb mbind result_bind].
  assert (validate_node_records (st_Generation state') (indexPath "nodes" 0) node' = Ok ()) as ->.
  { apply range_check_ok. change (items (node_IdempotencyRecords node')) with (items (node_IdempotencyRecords node)). by rewrite Hrec. }
  cbn [mbind result_bind]. rewrite G3. cbn [reject mbind result_bind].
  change (node_Lifecycle node') with (node_Lifecycle node). change (node_Name node') with (node_Name node).
  change (node_ID node') with (node_ID node).
  case_bool_decide; [|ok_step G; rewrite G4; cbn [mbind result_bind]]; injection G as <- <-;
    rewrite fmap_insert fmap_empty //.
Qed.

Lemma update_targetExists kind id nodes clients :
  targetExists kind id (update_node trust' active <$> nodes) clients = targetExists kind id nodes clients.
Proof. destruct kind; cbn; [|done..]. apply bool_decide_ext. by rewrite lookup_fmap fmap_is_Some. Qed.

Lemma update_owner_generation kind id nodes clients :
  owner_generation kind id (update_node trust' active <$> nodes) clients = owner_generation kind id nodes clients.
Proof. unfold owner_generation. case_bool_decide; [|done]. rewrite lookup_fmap. by destruct (nodes !! id). Qed.

Lemma update_policies nodes clients presets :
  validate_policies state' (update_node trust' active <$> nodes) clients presets = validate_policies state nodes clients presets.
Proof. unfold validate_policies. apply range_ext. intros i x s. by rewrite update_targetExists. Qed.

Lemma update_transports nodes clients : transports = st_Transports state →
  validate_transports state' (update_node trust' active <$> nodes) clients = validate_transports state nodes clients.
Proof.
  intros Ht. unfold validate_transports. change (st_Transports state') with transports. rewrite Ht.
  apply range_ext. intros i x s. by rewrite update_targetExists update_owner_generation.
Qed.

Lemma update_exposes nodes :
  validate_exposes state' (update_node trust' active <$> nodes) = validate_exposes state nodes.
Proof. unfold validate_exposes. apply range_ext. intros i x s. rewrite lookup_fmap. by destruct (nodes !! expose_NodeID x). Qed.

Lemma update_certificates nodes :
  validate_certificates state' (update_node trust' active <$> nodes) = validate_certificates state nodes.
Proof.
  unfold validate_certificates. f_equal. apply range_ext. intros i x s. rewrite lookup_fmap.
  by rewrite (bool_decide_ext (is_Some (update_node trust' active <$> nodes !! cert_OwnerID x)) _ (fmap_is_Some _ _)).
Qed.

Lemma update_with_valid : (∃ m reqs, validate_operations state' = Ok (m, reqs)) →
  validate_pending state' (gw_PendingRequestID trust') = Ok () →
  (∀ nodes clients states, validate_transports state nodes clients = Ok states → validate_active_transports state states = Ok () →
    ∃ states', validate_transports state' (update_node trust' active <$> nodes) clients = Ok states' ∧ validate_active_transports state' states' = Ok ()) →
  validate_local state' (node_ID node) = Ok () → Validate state' = Ok ().
Proof.
  intros (m & reqs & Hops) Hpend Htr Hloc. destruct node_host_empty as (Hi & Hc & Hb & Hrec & Hh & _ & _).
  pose proof Henrolled as (Hr & Hn & Hg)%enrolled_node_spec.
  pose proof Hvalid as (nodes & clients & presets & policies & states & ops & [H1 H2 [nn H3] H4 [cn H5] H6 H7 H8 H9 H10 H11 H12 H13 H14 H15 _ _ H18 H19 _])%Validate_parts.
  destruct (Htr _ _ _ H12 H13) as (states' & Ht1 & Ht2).
  apply Validate_parts. exists (update_node trust' active <$> nodes), clients, presets, policies, states', m. constructor.
  - by apply update_head.
  - done.
  - exists nn. by apply update_nodes.
  - apply range_check_ok. change (items (st_Invites state')) with (items (st_Invites state)). by rewrite Hi.
  - by exists cn.
  - unfold validate_addresses. change (host_Role (st_Host state')) with (host_Role (st_Host state)). by rewrite Hr.
  - done.
  - by rewrite update_policies.
  - unfold validate_node_presets in *. by rewrite Hn in H9.
  - unfold validate_snapshots in *. by rewrite Hn in H10.
  - done.
  - exact Ht1.
  - exact Ht2.
  - by rewrite update_exposes.
  - by rewrite update_certificates.
  - by exists reqs.
  - unfold validateHandshakeHostChange. change (st_HandshakeHostChange state') with (st_HandshakeHostChange state). by rewrite Hh.
  - done.
  - done.
  - unfold validate_role. change (host_Role (st_Host state')) with (host_Role (st_Host state)).
    change (items (st_Nodes state')) with [node']. change (items (st_Invites state')) with (items (st_Invites state)).
    change (items (st_Clients state')) with (items (st_Clients state)). change (items (st_Backups state')) with (items (st_Backups state)).
    rewrite Hr Hi Hc Hb. cbn [length Nat.eqb Nat.ltb Nat.leb negb orb reject mbind result_bind].
    change (node_Gateway node') with (Some trust'). change (items (node_IdempotencyRecords node')) with (items (node_IdempotencyRecords node)).
    rewrite Hrec Hpend. exact Hloc.
Qed.

Lemma update_node_transitions : validateNodeTransitions state state' = Ok ().
Proof.
  destruct node_host_empty as (_ & _ & _ & Hrec & _). pose proof Henrolled as (Hr & Hn & Hg)%enrolled_node_spec.
  unfold validateNodeTransitions. rewrite Hn. change (items (st_Nodes state')) with [node'].
  unfold index_by. cbn [foldl]. change (node_ID node') with (node_ID node).
  apply bind_ok. exists (). split.
  - apply range_check_ok. intros i x [-> <-]%list_lookup_singleton_Some. change (node_ID node') with (node_ID node). rewrite lookup_insert_eq.
    unfold node_transition, validateResourceTransition, validateIdempotencyTransition. rewrite Hrec.
    cbn [node' update_node set_node_ActiveTransport set_node_Gateway node_SchemaVersion node_ID node_Name node_Lifecycle node_OverlayIPv4 node_CredentialGeneration
         node_ControlProtocol node_AssignedPresets node_ActiveTransport node_IdempotencyRecords node_Gateway node_CreatedAt node_RevokedAt].
    rewrite !String.eqb_refl /Equal Z.eqb_refl N.ltb_irrefl N.eqb_refl. by rewrite bool_decide_eq_true_2.
  - rewrite bool_decide_eq_true_2 //. intros id n [[<- <-]|[_ H]]%lookup_insert_Some; [|by rewrite lookup_empty in H].
    left. by rewrite lookup_insert_eq.
Qed.

Lemma update_with_accepted : NextGeneration (st_Generation state) = Ok generation → Validate state' = Ok () →
  validate_operation_records (items (st_Operations state)) operations = Ok () → accepted state state'.
Proof.
  intros Hgen Hv' Hops. destruct node_host_empty as (Hi & Hc & Hb & _ & Hh & _). pose proof Henrolled as (Hr & Hn & Hg)%enrolled_node_spec.
  unfold accepted, ValidateTransition. rewrite Hvalid Hgen Hv' update_node_transitions.
  change (st_Host state') with (st_Host state). change (st_Generation state') with generation.
  cbn [wrap is_ok negb reject mbind result_bind]. rewrite N.eqb_refl String.eqb_refl bool_decide_eq_true_2 // /Equal Z.eqb_refl.
  cbn [negb reject mbind result_bind].
  assert (validateClientTransitions state state' = Ok ()) as ->.
  { unfold validateClientTransitions. change (items (st_Clients state')) with (items (st_Clients state)). by rewrite Hc. }
  change (items (st_Invites state')) with (items (st_Invites state)). rewrite Hi. cbn [mbind result_bind].
  change (items (st_Presets state')) with (items (st_Presets state)). change (items (st_Policies state')) with (items (st_Policies state)).
  change (items (st_Exposes state')) with (items (st_Exposes state)). change (items (st_Certificates state')) with (items (st_Certificates state)).
  destruct (valid_more_NoDup _ Hvalid) as (Hne & Hnc & Hnl).
  rewrite !versioned_refl expose_transitions_refl // certificate_transitions_refl //.
  change (st_EnrollmentIdentity state') with (st_EnrollmentIdentity state). rewrite bool_decide_refl.
  unfold validateHandshakeHostChangeTransition, validateStableRecordIdentities. rewrite Hr bool_decide_refl.
  change (st_HandshakeHostChange state') with (st_HandshakeHostChange state). rewrite Hh.
  change (items (st_Operations state')) with operations. rewrite Hops.
  change (items (st_Logging state')) with (items (st_Logging state)). rewrite logging_records_refl //.
  change (items (st_Backups state')) with (items (st_Backups state)). rewrite Hb.
  by destruct (st_EnrollmentIdentity state).
Qed.
End node_update.

(** Begin and Advance keep the selection and the transports. *)
Section plain_update.
Context (state : State) (node : Node) (trust trust' : GatewayTrust) (generation : N) (operations : list Operation).
Context (Hvalid : Validate state = Ok ()) (Henrolled : enrolled_node state = Some (node, trust)).
Context (Htrust : gw_Validate trust' = Ok ()) (Hcidr : gw_NodeCIDR trust' = gw_NodeCIDR trust)
  (Hoverlay : gw_GatewayOverlayIPv4 trust' = gw_GatewayOverlayIPv4 trust) (Hgeneration : generation ≠ 0%N).

Lemma node_selection : (∀ raw, node_ActiveTransport node ≠ TransportKindUnsupported raw) ∧ is_nil (st_Transports state) = false.
Proof.
  pose proof Hvalid as (nodes & clients & presets & policies & states & ops & Hv)%Validate_parts.
  pose proof Henrolled as (Hr & Hn & Hg)%enrolled_node_spec. split.
  - destruct (vp_nodes _ _ _ _ _ _ _ Hv) as [names Hnodes]. apply validate_nodes_ok in Hnodes as (_ & _ & Ha).
    destruct (Ha node) as (Hval & _); [rewrite Hn; left|]. unfold node_Validate in Hval. do 5 ok_step Hval. unfold validateResource in G.
    do 8 ok_step G. intros raw Hraw. by rewrite Hraw in G10.
  - pose proof (vp_head _ _ _ _ _ _ _ Hv) as H. unfold validate_head in H. do 9 ok_step H. ok_inv H. unfold missing_collection in *. by facts.
Qed.

Lemma update_valid : (∃ m reqs, validate_operations (update state node trust' generation operations) = Ok (m, reqs)) →
  validate_pending (update state node trust' generation operations) (gw_PendingRequestID trust') = Ok () →
  Validate (update state node trust' generation operations) = Ok ().
Proof.
  destruct node_selection as [Ha Hp]. rewrite update_same. intros Ho Hpend. apply (update_with_valid state node trust); try done.
  - intros nodes clients states Ht Hac. exists states. rewrite update_transports //. split; [done|].
    pose proof Henrolled as (_ & Hn & _)%enrolled_node_spec. unfold validate_active_transports in *. by rewrite Hn in Hac.
  - by destruct (node_host_empty state node trust Hvalid Henrolled) as (_ & _ & _ & _ & _ & _ & Hloc).
Qed.

Lemma update_accepted : NextGeneration (st_Generation state) = Ok generation →
  Validate (update state node trust' generation operations) = Ok () →
  validate_operation_records (items (st_Operations state)) operations = Ok () → accepted state (update state node trust' generation operations).
Proof. destruct node_selection as [Ha Hp]. rewrite update_same. by apply (update_with_accepted state node trust). Qed.
End plain_update.

(** ** Registering a request *)

Definition uses_id (id : string) (o : Operation) : Prop := op_ID o = id ∨ has_request o ∧ op_RequestID o = id.

Lemma occupied_ids_spec operations id : id ∈ occupied_ids operations ↔ ∃ o, o ∈ operations ∧ uses_id id o.
Proof.
  induction operations as [|o operations IH] using rev_ind; [set_solver|].
  assert (Hone : id ∈ occupied_ids (operations ++ [o]) ↔ uses_id id o ∨ id ∈ occupied_ids operations).
  { unfold occupied_ids. rewrite foldl_app. cbn. unfold uses_id, has_request.
    destruct (String.eqb_spec (op_RequestID o) ""); set_solver. }
  rewrite Hone IH. split.
  - intros [Hu|(x & Hx & Hu)]; [exists o|exists x]; (split; [set_solver|done]).
  - intros (x & [Hx| ->%list_elem_of_singleton]%elem_of_app & Hu); [right; by exists x|by left].
Qed.

(** The new operation is valid when the intent and the identifiers are. *)
Lemma new_operation_valid intent at_ operationID requestID expected desired :
  intent_Validate intent = Ok () → validateTime "created_at" at_ = Ok () → matches uuidPattern operationID = true →
  matches uuidPattern requestID = true → (expected ≤ desired)%N →
  op_Validate (new_operation intent at_ operationID requestID expected desired) = Ok ().
Proof.
  unfold intent_Validate. intros H Ht Ho Hr Hle. do 5 ok_step H. units. unfold op_Validate, new_operation.
  cbn [op_SchemaVersion op_ID op_Type op_State op_TargetKind op_TargetID op_RequestID
       op_ExpectedGeneration op_DesiredGeneration op_Steps op_ErrorCode op_CreatedAt op_UpdatedAt].
  rewrite /validateUUID Ho Hr G G0 G1 before_irrefl. apply N.ltb_ge in Hle. rewrite Hle.
  assert (validateTime "updated_at" at_ = Ok ()) as -> by (apply validateTime_ok in Ht; by apply validateTime_ok).
  rewrite Ht. cbn [validateSchema Z.eqb negb reject validOperationState mbind result_bind is_nil].
  change (validateSchema _ _) with (@Ok unit ()). rewrite (bool_decide_eq_false_2 (OperationPending = OperationFailed)) //.
  cbn [mbind result_bind String.eqb negb reject].
  assert ((if String.eqb requestID "" then Ok () else Ok ()) = @Ok unit ()) as -> by by destruct (String.eqb requestID "").
  cbn [mbind result_bind]. set (steps := (λ name, _) <$> items (intent_StepNames intent)). change (items (Some steps)) with steps.
  apply (range_unique_ok _ (λ _ name, matches componentPattern name = true) id) in G3 as (Hc & Hn & _).
  - rewrite (proj2 (op_steps_loop steps (list_to_set (step_Name <$> steps)))) //. split_and!; [| |done].
    + unfold steps. intros i x (name & -> & Hi)%list_lookup_fmap_Some. apply Hc in Hi. unfold step_Validate. cbn.
      rewrite Hi. cbn. apply validateTime_ok in Ht. by apply validateTime_ok.
    + unfold steps. by rewrite -list_fmap_compose.
  - intros i x seen seen' _. split.
    + intros H'. ok_inv H'. facts. by apply check_unique_ok in H'.
    + intros (-> & Hk & ->). cbn [negb reject mbind result_bind]. by apply check_unique_ok.
Qed.

(** Appending one valid operation with fresh identifiers. *)
Lemma append_operation state state' operation : Validate state = Ok () →
  items (st_Operations state') = items (st_Operations state) ++ [operation] →
  op_Validate operation = Ok () → op_RequestID operation ≠ "" →
  (∀ o, o ∈ items (st_Operations state) → ¬ uses_id (op_ID operation) o ∧ ¬ uses_id (op_RequestID operation) o) →
  ∃ m reqs, validate_operations state' = Ok (m, reqs).
Proof.
  intros (nodes & clients & presets & policies & states & ops & Hv)%Validate_parts Hops Hop Hreq Hfresh.
  destruct (vp_operations _ _ _ _ _ _ _ Hv) as [reqs Ho]. assert (Ho' := Ho).
  apply validate_operations_ok in Ho' as (Hk & [Hd ->] & _). unfold validate_operations in *. rewrite Hops.
  unfold range in *. rewrite range_loop_app Ho. cbn [mbind result_bind range_loop]. rewrite Hop. cbn [wrap mbind result_bind].
  assert (ops !! op_ID operation = None) as ->.
  { destruct (ops !! op_ID operation) as [o|] eqn:E; [|done]. apply Hk in E as [Hin Hid]. destruct (Hfresh o Hin) as [Hf _]. destruct Hf. by left. }
  rewrite (bool_decide_eq_false_2 (is_Some None)); [by intros []|]. cbn [reject mbind result_bind].
  destruct (String.eqb_spec (op_RequestID operation) ""); [done|]. match goal with |- context [check_unique ?k ?e ?s] => rewrite (proj2 (check_unique_ok k e s ({[k]} ∪ s))); [|by eauto] end.
  split; [|done]. rewrite elem_of_list_to_set list_elem_of_fmap. intros (o & Hid & [Hr Hin]%list_elem_of_filter).
  destruct (Hfresh o Hin) as [_ Hf]. destruct Hf. by right.
Qed.

Lemma gw_Validate_pending trust requestID : gw_Validate trust = Ok () → requestID = "" ∨ matches uuidPattern requestID = true →
  gw_Validate (set_gw_PendingRequestID requestID trust) = Ok ().
Proof.
  unfold gw_Validate. intros H Hid. do 16 ok_step H. units.
  cbn [set_gw_PendingRequestID gw_GatewayID gw_PublicIPv4 gw_NodeCIDR gw_GatewayOverlayIPv4 gw_ControlProtocol gw_EnrollmentFingerprint
       gw_EnrollmentPublicKeyRef gw_ControlCAFingerprints gw_ControlCACertificateRefs gw_TunnelCertificateFingerprint
       gw_TunnelCertificateRef gw_StandardPublicKey gw_RestrictedServerCredentialRef gw_LastKnownGatewayGeneration gw_PendingRequestID].
  rewrite G G0 G1. cbn [mbind result_bind]. rewrite G2 G3 G4 G5 G6 G7 G8. cbn [reject mbind result_bind]. rewrite G9.
  cbn [mbind result_bind]. rewrite G10 G11 G12 G13 G14. cbn [reject mbind result_bind].
  destruct Hid as [->|Hid]; [done|]. destruct (String.eqb requestID ""); [done|]. by apply validateUUID_ok.
Qed.

Lemma enrolled_trust_valid state node trust : Validate state = Ok () → enrolled_node state = Some (node, trust) →
  gw_Validate trust = Ok () ∧ gw_LastKnownGatewayGeneration trust ≠ 0%N.
Proof.
  intros (nodes & clients & presets & policies & states & ops & Hv)%Validate_parts (Hr & Hn & Hg)%enrolled_node_spec.
  destruct (vp_nodes _ _ _ _ _ _ _ Hv) as [names Hnodes]. apply validate_nodes_ok in Hnodes as (_ & _ & Ha).
  destruct (Ha node) as (Hval & _); [rewrite Hn; left|]. unfold node_Validate in Hval. do 5 ok_step Hval. rewrite Hg in Hval. ok_inv Hval.
  split; [done|]. unfold gw_Validate in Hval. do 16 ok_step Hval. by facts.
Qed.

Lemma pending_outcome state node trust : Validate state = Ok () → enrolled_node state = Some (node, trust) →
  PendingNodeOperation state = Ok (if String.eqb (gw_PendingRequestID trust) "" then None
    else snd <$> find_operation (gw_PendingRequestID trust) (items (st_Operations state))) ∧
  (gw_PendingRequestID trust ≠ "" → ∃ i o, find_operation (gw_PendingRequestID trust) (items (st_Operations state)) = Some (i, o) ∧
     op_RequestID o = gw_PendingRequestID trust ∧ terminalOperationState (op_State o) = false).
Proof.
  intros Hv He. assert (Hex : gw_PendingRequestID trust ≠ "" →
    ∃ i o, find_operation (gw_PendingRequestID trust) (items (st_Operations state)) = Some (i, o) ∧
     op_RequestID o = gw_PendingRequestID trust ∧ terminalOperationState (op_State o) = false).
  { intros Hp. pose proof He as (Hr & Hn & Hg)%enrolled_node_spec.
    destruct (single_pending state node trust Hv Hr Hn Hg) as [_ Hsome]. destruct (Hsome Hp) as (o & Hin & Hopen & Huniq).
    destruct (list_find_elem_of (λ o, op_RequestID o = gw_PendingRequestID trust) (items (st_Operations state)) o) as [[i x] Hx]; [done| |].
    - by apply Huniq.
    - exists i, x. split; [exact Hx|]. apply list_find_Some in Hx as (Hi & Hid & _). split; [done|].
      by rewrite (proj1 (Huniq x (list_elem_of_lookup_2 _ _ _ Hi)) Hid). }
  split; [|done]. unfold PendingNodeOperation. rewrite Hv He. cbn [wrap mbind result_bind].
  destruct (String.eqb_spec (gw_PendingRequestID trust) "") as [|Hne]; [done|]. destruct (Hex Hne) as (i & o & -> & _). done.
Qed.

Lemma register_pending operations operation :
  (∀ o, o ∈ operations → has_request o → terminalOperationState (op_State o) = true) →
  op_State operation = OperationPending → op_RequestID operation ≠ "" → ∀ state,
  items (st_Operations state) = operations ++ [operation] → validate_pending state (op_RequestID operation) = Ok ().
Proof.
  intros Hdone Hs Hreq state Hops. unfold validate_pending. rewrite Hops. unfold range. rewrite range_loop_app.
  match goal with |- context [range_loop ?b 0 operations false] => assert (range_loop b 0 operations false = Ok false) as -> end.
  { clear -Hdone. generalize 0%nat. induction operations as [|o operations IH]; intros i; cbn; [done|].
    assert (String.eqb (op_RequestID o) "" || terminalOperationState (op_State o) = true) as ->.
    { destruct (String.eqb_spec (op_RequestID o) ""); [done|]. rewrite Hdone //; by left. }
    cbn. apply IH. intros x Hx. apply Hdone. by right. }
  cbn [mbind result_bind range_loop]. rewrite Hs. destruct (String.eqb_spec (op_RequestID operation) ""); [done|].
  cbn. by rewrite String.eqb_refl.
Qed.

Lemma register_accepted state node trust intent at_ operationID requestID desired generation :
  let operation := new_operation intent at_ operationID requestID (gw_LastKnownGatewayGeneration trust) desired in
  Validate state = Ok () → enrolled_node state = Some (node, trust) → gw_PendingRequestID trust = "" →
  op_Validate operation = Ok () → matches uuidPattern requestID = true → NextGeneration (st_Generation state) = Ok generation →
  (operationID ∉ occupied_ids (items (st_Operations state))) → (requestID ∉ occupied_ids (items (st_Operations state))) →
  accepted state (register state node trust generation operation).
Proof.
  intros operation Hv He Hp Hop Hreq Hgen Hf1 Hf2. rewrite occupied_ids_spec in Hf1. rewrite occupied_ids_spec in Hf2.
  pose proof He as (Hr & Hn & Hg)%enrolled_node_spec. destruct (enrolled_trust_valid _ _ _ Hv He) as [Ht _].
  assert (Hne : requestID ≠ "") by (intros ->; by rewrite matches_empty_uuid in Hreq).
  assert (Hg0 : generation ≠ 0%N) by (apply NextGeneration_ok in Hgen as [_ ->]; lia).
  assert (Ht' := gw_Validate_pending trust requestID Ht (or_intror Hreq)).
  apply (update_accepted _ _ trust); [done..| |].
  - apply (update_valid _ _ trust); [done..| |].
    + apply (append_operation state _ operation); try done. intros o Ho. split; intros Hu; [apply Hf1|apply Hf2]; by exists o.
    + apply (register_pending (items (st_Operations state)) operation); try done.
      intros o Ho Hreqo. destruct (terminalOperationState (op_State o)) eqn:E; [done|].
      destruct (single_pending state node trust Hv Hr Hn Hg) as [Hall _]. specialize (Hall o Ho Hreqo E). by rewrite Hp in Hall.
  - unfold validate_operation_records. destruct (valid_NoDup _ Hv) as (_ & _ & _ & Hnd). apply bind_ok. exists (). split.
    + apply range_check_ok. intros i x [Hx|[_ [_ <-]%list_lookup_singleton_Some]]%lookup_app_Some.
      * rewrite (index_by_in op_ID) //; [by eapply list_elem_of_lookup_2|]. apply evolution_refl.
      * destruct (index_by op_ID (items (st_Operations state)) !! op_ID operation) as [o|] eqn:E.
        { apply (index_by_some op_ID) in E as [Ho Hid]; [|done]. destruct Hf1. exists o. split; [done|by left]. }
        unfold new_operation_ok. cbn [operation new_operation op_State op_UpdatedAt op_CreatedAt op_Steps].
        rewrite bool_decide_refl /Equal Z.eqb_refl. cbn [negb orb reject mbind result_bind]. apply range_check_ok.
        intros j y (name & -> & _)%list_lookup_fmap_Some. cbn. by rewrite Z.eqb_refl.
    + apply range_check_ok. intros i x Hx%list_elem_of_lookup_2. rewrite bool_decide_eq_true_2 //.
      apply elem_of_list_to_set, list_elem_of_fmap_2, elem_of_app. by left.
Qed.

Lemma AllocateUUID_fresh occupied gen cursor id occupied' cursor' : AllocateUUID occupied gen cursor = (Ok (id, occupied'), cursor') →
  (id ∉ occupied) ∧ occupied' = {[id]} ∪ occupied ∧ matches uuidPattern id = true.
Proof.
  intros (H1 & H2 & H3 & _)%allocate_loop_ok. split_and!; [done..|]. unfold validateGeneratedUUID in H3. ok_step H3.
  by apply validateUUID_ok in G.
Qed.

Lemma accepted_enrolled state node trust generation operations : enrolled_node state = Some (node, trust) →
  ∀ trust', enrolled_node (update state node trust' generation operations) = Some (set_node_Gateway (Some trust') node, trust').
Proof. intros (Hr & _)%enrolled_node_spec trust'. by apply enrolled_node_spec. Qed.

(** The registered request is what the new state reports as pending. *)
Lemma register_is_pending state node trust generation operation : enrolled_node state = Some (node, trust) →
  Validate (register state node trust generation operation) = Ok () → op_RequestID operation ≠ "" →
  (∀ o, o ∈ items (st_Operations state) → op_RequestID o ≠ op_RequestID operation) →
  PendingNodeOperation (register state node trust generation operation) = Ok (Some operation).
Proof.
  intros He Hv Hne Hfresh. unfold PendingNodeOperation. rewrite Hv.
  change (register state node trust generation operation) with
    (update state node (set_gw_PendingRequestID (op_RequestID operation) trust) generation (items (st_Operations state) ++ [operation])).
  rewrite (accepted_enrolled _ _ _ _ _ He). cbn [wrap mbind result_bind gw_PendingRequestID set_gw_PendingRequestID].
  destruct (String.eqb_spec (op_RequestID operation) ""); [done|].
  change (items (st_Operations _)) with (items (st_Operations state) ++ [operation]). unfold find_operation.
  rewrite list_find_app_r; [|by cbn; rewrite decide_True].
  apply list_find_None, Forall_forall. exact Hfresh.
Qed.

Lemma begin_outcome state intent at_ gen cursor state' operation existing cursor' :
  BeginNodeOperation state intent at_ gen cursor = (Ok (state', operation, existing), cursor') →
  PendingNodeOperation state' = Ok (Some operation) ∧
  if existing then state' = state ∧ cursor' = cursor
  else accepted state state' ∧ items (st_Operations state') = items (st_Operations state) ++ [operation] ∧
    op_State operation = OperationPending ∧ op_ID operation ≠ op_RequestID operation ∧
    ∀ o, o ∈ items (st_Operations state) → ¬ uses_id (op_ID operation) o ∧ ¬ uses_id (op_RequestID operation) o.
Proof.
  unfold BeginNodeOperation. destruct (Validate state) as [[]|] eqn:Hv; cbn [wrap]; [|done].
  destruct (enrolled_node state) as [[node trust]|] eqn:He; [|done].
  destruct (PendingNodeOperation state) as [[pending|]|] eqn:Hp; [|..|done].
  { intros [= <- <- <- <-]. done. }
  destruct (intent_Validate intent;; validateTime "created_at" at_) as [[]|] eqn:Hi; [|done].
  destruct (AllocateUUID _ gen cursor) as [[[id1 occ1]|] c1] eqn:H1; [|done].
  destruct (AllocateUUID occ1 gen c1) as [[[id2 occ2]|] c2] eqn:H2; [|done].
  apply AllocateUUID_fresh in H1 as (Hf1 & -> & Hm1). apply AllocateUUID_fresh in H2 as (Hf2 & _ & Hm2).
  apply not_elem_of_union in Hf2 as [Hne Hf2]. rewrite not_elem_of_singleton in Hne.
  intros [= H <-]. ok_step H. destruct a as [candidate op]. injection H as <- <- <-.
  unfold begin_candidate in G. ok_inv G. units. injection G as <- <-. unfold occupied_ids in *.
  fold (occupied_ids (items (st_Operations state))) in Hf1, Hf2. rewrite occupied_ids_spec in Hf1. rewrite occupied_ids_spec in Hf2.
  assert (Hreq : id2 ≠ "") by (intros ->; by rewrite matches_empty_uuid in Hm2).
  split.
  - apply register_is_pending; [done|by apply (tp_after _ _ (accepted_parts _ _ G3))|done|]. intros o Ho Heq. apply Hf2. exists o.
    split; [done|]. cbn in Heq. right. split; [|done]. unfold has_request. congruence.
  - split_and!; [done..|cbn; congruence|]. cbn. intros o Ho. split; intros Hu; [apply Hf1|apply Hf2]; by exists o.
Qed.

(** ** Claims *)

(** [BeginNodeOperation] registers a request at most once.  When it reports an
    existing request it changes nothing and does not call the identifier generator,
    and the operation is the pending one.  Otherwise the returned state is an accepted
    successor in which the returned operation is the pending one, in state pending,
    and its two identifiers are distinct and used by no earlier operation. *)
Theorem begin_registers_once state intent at_ gen cursor state' operation existing cursor' :
  BeginNodeOperation state intent at_ gen cursor = (Ok (state', operation, existing), cursor') →
  PendingNodeOperation state' = Ok (Some operation) ∧
  if existing then state' = state ∧ cursor' = cursor
  else accepted state state' ∧ items (st_Operations state') = items (st_Operations state) ++ [operation] ∧
    op_State operation = OperationPending ∧ op_ID operation ≠ op_RequestID operation ∧
    ∀ o, o ∈ items (st_Operations state) → ¬ uses_id (op_ID operation) o ∧ ¬ uses_id (op_RequestID operation) o.
Proof. apply begin_outcome. Qed.

(** [BeginNodeOperation] cannot fail for reasons of its own.  On a valid, joined
    node without a pending request, a valid intent and time, two identifiers from the
    generator and generations below the 64-bit maximum, it succeeds. *)
Theorem begin_succeeds state node trust intent at_ gen cursor id1 occ1 c1 id2 occ2 c2 :
  Validate state = Ok () → enrolled_node state = Some (node, trust) → gw_PendingRequestID trust = "" →
  intent_Validate intent = Ok () → validateTime "created_at" at_ = Ok () →
  AllocateUUID (occupied_ids (items (st_Operations state))) gen cursor = (Ok (id1, occ1), c1) →
  AllocateUUID occ1 gen c1 = (Ok (id2, occ2), c2) →
  gw_LastKnownGatewayGeneration trust ≠ max_uint64 → st_Generation state ≠ max_uint64 →
  ∃ state' operation, BeginNodeOperation state intent at_ gen cursor = (Ok (state', operation, false), c2).
Proof.
  intros Hv He Hp Hi Ht H1 H2 Hg1 Hg2. unfold BeginNodeOperation. rewrite Hv He. cbn [wrap].
  rewrite (proj1 (pending_outcome _ _ _ Hv He)) Hp. cbn [String.eqb]. rewrite Hi Ht. cbn [mbind result_bind]. rewrite H1 H2.
  apply AllocateUUID_fresh in H1 as (Hf1 & -> & Hm1). apply AllocateUUID_fresh in H2 as (Hf2 & _ & Hm2).
  apply not_elem_of_union in Hf2 as [_ Hf2].
  assert (Hn1 := proj2 (NextGeneration_ok _ _) (conj Hg1 eq_refl)). assert (Hn2 := proj2 (NextGeneration_ok _ _) (conj Hg2 eq_refl)).
  assert (Hop := new_operation_valid intent at_ id1 id2 (gw_LastKnownGatewayGeneration trust) (gw_LastKnownGatewayGeneration trust + 1)
    Hi Ht Hm1 Hm2 ltac:(lia)).
  assert (Hacc := register_accepted state node trust intent at_ id1 id2 _ _ Hv He Hp Hop Hm2 Hn2 Hf1 Hf2).
  eexists _, _. unfold begin_candidate. rewrite Hn1 Hn2. cbn [wrap mbind result_bind]. rewrite Hop. cbn [wrap mbind result_bind].
  unfold accepted in Hacc. by rewrite Hacc.
Qed.

(** Retries are safe.  After a successful [BeginNodeOperation], a second call on
    the stored state, for any intent, at any time and with any generator, returns the
    same state and operation as already registered. *)
Theorem begin_again_returns_pending state intent at_ gen cursor state' operation existing cursor' intent2 at2 gen2 cursor2 :
  BeginNodeOperation state intent at_ gen cursor = (Ok (state', operation, existing), cursor') →
  BeginNodeOperation state' intent2 at2 gen2 cursor2 = (Ok (state', operation, true), cursor2).
Proof.
  intros [Hp _]%begin_outcome. unfold BeginNodeOperation. assert (Hp' := Hp). unfold PendingNodeOperation in Hp'.
  destruct (Validate state') as [[]|]; [|done]. cbn [wrap mbind result_bind] in Hp' |- *.
  destruct (enrolled_node state') as [[node trust]|]; [|done]. by rewrite Hp.
Qed.

Lemma Advance_ok state requestID next generation errorCode at_ state' operation :
  AdvancePendingNodeOperation state requestID next generation errorCode at_ = Ok (state', operation) →
  ∃ node trust index old trust', enrolled_node state = Some (node, trust) ∧ gw_PendingRequestID trust = requestID ∧
    find_operation requestID (items (st_Operations state)) = Some (index, old) ∧
    op_Transition old next at_ errorCode = Ok operation ∧
    gw_LastKnownGatewayGeneration trust' = N.max (gw_LastKnownGatewayGeneration trust) generation ∧
    gw_PendingRequestID trust' = (if terminalOperationState next then "" else requestID) ∧
    ((state' = state ∧ operation = old ∧ trust' = trust) ∨
     (∃ g, accepted state state' ∧
        state' = update state node trust' g (<[index := operation]> (items (st_Operations state))))).
Proof.
  unfold AdvancePendingNodeOperation. intros H. ok_step H. destruct (enrolled_node state) as [[node trust]|] eqn:He; [|done].
  ok_step H. ok_step H. destruct (find_operation _ _) as [[index old]|] eqn:Hf; [|done]. ok_step H. rename a0 into updated.
  set (trust1 := if (gw_LastKnownGatewayGeneration trust <? generation)%N
                 then set_gw_LastKnownGatewayGeneration generation trust else trust) in *.
  set (trust2 := if terminalOperationState next then set_gw_PendingRequestID "" trust1 else trust1) in *.
  assert (Hgen : gw_LastKnownGatewayGeneration trust2 = N.max (gw_LastKnownGatewayGeneration trust) generation).
  { unfold trust2, trust1. destruct (N.ltb_spec (gw_LastKnownGatewayGeneration trust) generation), (terminalOperationState next); cbn; lia. }
  assert (Hpend : gw_PendingRequestID trust2 = if terminalOperationState next then "" else requestID).
  { unfold trust2, trust1. facts. destruct (terminalOperationState next); [done|]. by destruct (_ <? _)%N. }
  exists node, trust, index, old, trust2. facts.
  destruct (bool_decide (updated = old) && bool_decide (trust2 = trust)) eqn:E.
  - injection H as <- <-. facts. split_and!; try done. left. by split_and!.
  - ok_inv H. units. injection H as <- <-. split_and!; try done. right. eexists. by split.
Qed.

(** [AdvancePendingNodeOperation] keeps the request pinned until its outcome is
    definitive: on success the operation carrying the request is in the requested
    state, the known gateway generation never decreases and covers the reported one,
    the pending identifier is cleared exactly by a completed or failed result, and the
    state is either untouched or an accepted successor. *)
Theorem advance_keeps_request_pinned state requestID next generation errorCode at_ state' operation :
  AdvancePendingNodeOperation state requestID next generation errorCode at_ = Ok (state', operation) →
  op_State operation = next ∧ op_RequestID operation = requestID ∧ operation ∈ items (st_Operations state') ∧
  (state' = state ∨ accepted state state') ∧
  ∃ node trust node' trust', enrolled_node state = Some (node, trust) ∧ enrolled_node state' = Some (node', trust') ∧
    gw_PendingRequestID trust = requestID ∧
    gw_LastKnownGatewayGeneration trust' = N.max (gw_LastKnownGatewayGeneration trust) generation ∧
    gw_PendingRequestID trust' = (if terminalOperationState next then "" else requestID).
Proof.
  intros (node & trust & index & old & trust' & He & Hp & Hf & Ht & Hg & Hp' & Hcase)%Advance_ok.
  apply list_find_Some in Hf as (Hi & Hid & _).
  assert (Hstate : op_State operation = next ∧ op_RequestID operation = requestID).
  { unfold op_Transition in Ht. ok_step Ht. case_bool_decide as Hs.
    - destruct (_ || _); [|done]. injection Ht as <-. done.
    - ok_inv Ht. injection Ht as <-. done. }
  destruct Hstate as [Hs Hr]. destruct Hcase as [(-> & -> & ->)|(g & Hacc & ->)].
  - split_and!; [done..|by eapply list_elem_of_lookup_2|by left|]. exists node, trust, node, trust. by split_and!.
  - split_and!; [done..| |by right|].
    + change (operation ∈ <[index:=operation]> (items (st_Operations state))). apply list_elem_of_lookup. exists index.
      apply list_lookup_insert_eq. by eapply lookup_lt_Some.
    + exists node, trust, (set_node_Gateway (Some trust') node), trust'. split_and!; try done. by eapply accepted_enrolled.
Qed.

(** ** Witnesses *)

Definition sample_intent : OperationIntent := MkOperationIntent OperationExposeCreate "expose" "api" (Some ["submit"; "apply"]).
Definition fresh_draws : generator := entropy_generator sample_draws.
Definition begun : result (State * Operation * bool) * nat := BeginNodeOperation idle_node_state sample_intent (day 2) fresh_draws 0.
Definition begun_state : State := match begun with (Ok (s, _, _), _) => s | _ => idle_node_state end.
Definition begun_operation : Operation := match begun with (Ok (_, o, _), _) => o | _ => open_operation end.
Definition allocated (a : result (string * gset string) * nat) : string * gset string :=
  match a.1 with Ok x => x | Err _ => ("", ∅) end.
Definition first_allocation := AllocateUUID (occupied_ids (items (st_Operations idle_node_state))) fresh_draws 0.
Definition second_allocation := AllocateUUID (allocated first_allocation).2 fresh_draws first_allocation.2.

Lemma allocated_eta a : is_ok a.1 = true → a = (Ok ((allocated a).1, (allocated a).2), a.2).
Proof. destruct a as [[[]|] ?]; done. Qed.

Lemma begin_registers_once_witness : accepted idle_node_state begun_state.
Proof.
  destruct (begin_registers_once idle_node_state sample_intent (day 2) fresh_draws 0 begun_state begun_operation false 2
    ltac:(by vm_compute)) as (_ & H & _). exact H.
Defined.

Lemma begin_succeeds_witness :
  ∃ state' operation, BeginNodeOperation idle_node_state sample_intent (day 2) fresh_draws 0
    = (Ok (state', operation, false), second_allocation.2).
Proof.
  apply (begin_succeeds idle_node_state (joined_node "") (sample_trust "") sample_intent (day 2) fresh_draws 0
    (allocated first_allocation).1 (allocated first_allocation).2 first_allocation.2
    (allocated second_allocation).1 (allocated second_allocation).2 second_allocation.2 idle_node_state_valid);
    [by vm_compute|by vm_compute|by vm_compute|by vm_compute|apply (allocated_eta first_allocation); by vm_compute|
     apply (allocated_eta second_allocation); by vm_compute|by vm_compute|by vm_compute].
Defined.

Lemma begin_again_returns_pending_witness :
  BeginNodeOperation begun_state sample_intent (day 5) fresh_draws 7 = (Ok (begun_state, begun_operation, true), 7%nat).
Proof.
  apply (begin_again_returns_pending idle_node_state sample_intent (day 2) fresh_draws 0 begun_state begun_operation false 2).
  by vm_compute.
Defined.

Definition advanced : result (State * Operation) := AdvancePendingNodeOperation busy_node_state (uuid "42") OperationCompleted 6 "" (day 3).
Definition advanced_state : State := match advanced with Ok (s, _) => s | Err _ => busy_node_state end.
Definition advanced_operation : Operation := match advanced with Ok (_, o) => o | Err _ => open_operation end.

Lemma advance_keeps_request_pinned_witness : op_State advanced_operation = OperationCompleted.
Proof.
  apply (advance_keeps_request_pinned busy_node_state (uuid "42") OperationCompleted 6 "" (day 3) advanced_state advanced_operation).
  by vm_compute.
Defined.

(** On an idle node the empty request identifier equals the (empty) pending one, and an
    operation that carries no request is advanced as if the gateway had reported on it. *)
Definition local_repair : Operation :=
  MkOperation 1 (uuid "43") OperationRepair OperationPending "" "" "" 4 5 (Some []) "" (day 1) (day 1).
Definition repairing_state : State := node_state 3 "" [local_repair].

Example empty_request_advances_local_operation : is_ok (Validate repairing_state) = true ∧
  match AdvancePendingNodeOperation repairing_state "" OperationStaging 6 "" (day 3) with
  | Ok (_, o) => op_ID o = op_ID local_repair ∧ op_State o = OperationStaging
  | Err _ => False
  end.
Proof. split; vm_compute; [reflexivity|by split]. Qed.
