(* ===== verification/ExposeStates.v ===== *)
(** * Changes of exposes that are accepted

    Which sets of exposes a state may hold, and that a gateway state whose exposes alone
    change is accepted when the new ones are such a set and each evolved by one step. *)

From S2P Require Import Prelude GoTime GoText GoNet Types Checks Identity Address Expose Idempotency Resources StateValidate Samples StateFacts Operation Transition.

Local Open Scope string_scope.
Local Open Scope list_scope.

(** ** Sets of exposes *)

Record exposes_fit (nodes : gmap string Node) (X : list Expose) : Prop := {
  fit_ids : NoDup (expose_ID <$> X);
  fit_ports : NoDup (expose_TunnelPort <$> X);
  fit_routes e f : e ∈ X → f ∈ X → active_expose e → active_expose f → expose_ID e ≠ expose_ID f → overlap (route_of e) (route_of f) = false;
  fit_names : NoDup (expose_local_name <$> filter named_expose X);
  fit_each e : e ∈ X → expose_Validate e = Ok () ∧ hosted nodes e
}.

Lemma expose_valid_parts e : expose_Validate e = Ok () →
  matches uuidPattern (expose_ID e) = true ∧ matches uuidPattern (expose_NodeID e) = true ∧
  ValidateExposePath (expose_Path e) (expose_RouteMode e) = Ok () ∧ (1024 ≤ expose_TunnelPort e ≤ 65535)%Z ∧ expose_Generation e ≠ 0%N.
Proof.
  unfold expose_Validate. intros H. do 12 ok_step H. facts. apply validateUUID_ok in G0, G1. units. by split_and!.
Qed.

Lemma valid_route e : expose_Validate e = Ok () → route_ok (route_of e).
Proof.
  intros (Hid & _ & Hp & _)%expose_valid_parts. apply ValidateExposePath_ok in Hp as [Hm Ha]. split_and!; [done..|].
  cbn. intros Heq. by rewrite Heq in Hid.
Qed.

(** A route overlaps itself, so two routes with one key overlap. *)
Lemma same_key_overlaps e f : expose_Validate e = Ok () → expose_Validate f = Ok () → expose_key e = expose_key f → overlap (route_of e) (route_of f) = true.
Proof.
  intros He Hf Hk. assert (He' := valid_route e He). assert (Hf' := valid_route f Hf).
  assert (Heq : expose_RouteMode e = expose_RouteMode f ∧ expose_Path e = expose_Path f).
  { destruct He' as ([Hm|Hm] & _), Hf' as ([Hm'|Hm'] & _); cbn in Hm, Hm'; unfold expose_key in Hk; rewrite Hm Hm' in Hk |- *; cbn in Hk; by simplify_eq. }
  destruct Heq as [Hm Hp]. apply (overlap_common_request _ _ He' Hf'). exists (expose_Path e).
  split_and!; [apply He'|by apply selects_self|]. rewrite Hp. by apply selects_self.
Qed.

(** What the loop over the exposes has seen. *)
Definition seen_keys (nodes : gmap string Node) (p : list Expose) (seen : expose_seen) : Prop :=
  exposes_seen nodes p seen ∧ activeExposeRouteKeys seen = list_to_set (expose_key <$> filter active_expose p).

Lemma claim_route_fits nodes p e path seen : exposes_fit nodes (p ++ [e]) → seen_keys nodes p seen →
  ∃ index, claim_route path e (activeExposeRoutes seen) (activeExposeRouteKeys seen) =
    Ok (index, list_to_set (expose_key <$> filter active_expose (p ++ [e]))).
Proof.
  intros Hfit [Hs Hk]. destruct Hs as (_ & _ & _ & _ & Hi & _ & Hall). unfold claim_route. rewrite filter_app fmap_app list_to_set_app_L.
  case_bool_decide as Hd.
  { rewrite filter_cons_False; [by intros Hne|]. exists (activeExposeRoutes seen). by rewrite Hk right_id_L. }
  rewrite filter_cons_True // list_to_set_singleton_L comm_L -Hk.
  assert (He : expose_Validate e = Ok ()) by (eapply fit_each; [done|set_solver]).
  assert (Hdis : ∀ f, f ∈ p → active_expose f → overlap (route_of f) (route_of e) = false).
  { intros f Hf Ha. eapply fit_routes; [done|set_solver|set_solver|done|done|]. intros Heq.
    pose proof (fit_ids _ _ Hfit) as Hn. rewrite fmap_app in Hn. apply NoDup_app in Hn as (_ & Hn & _).
    apply (Hn (expose_ID f)); [by apply list_elem_of_fmap_2|]. rewrite Heq. set_solver. }
  rewrite bool_decide_eq_false_2.
  { rewrite Hk elem_of_list_to_set. intros (f & Hkey & [Ha Hf]%list_elem_of_filter)%list_elem_of_fmap.
    assert (Ho := same_key_overlaps f e (proj1 (Hall f Hf)) He (eq_sym Hkey)). by rewrite Hdis in Ho. }
  cbn [reject mbind result_bind]. destruct (Add_route (activeExposeRoutes seen) (expose_RouteMode e) (expose_Path e) (expose_ID e)) as [[n c]|er] eqn:Hadd.
  - assert (c = "") as ->; [|by exists n].
    apply (route_index_detects_overlap _ _ _ _ _ _ _ Hi Hadd). apply Forall_fmap, Forall_forall. intros f [Ha Hf]%list_elem_of_filter. by apply Hdis.
  - unfold Add_route in Hadd. destruct (expose_valid_parts e He) as (Hid & _ & Hp & _). rewrite Hp in Hadd.
    destruct (String.eqb_spec (expose_ID e) "") as [Heq|]; [by rewrite Heq in Hid|done].
Qed.

Lemma claim_name_fits nodes p e path seen : exposes_fit nodes (p ++ [e]) → exposes_seen nodes p seen → ∃ names, claim_name path e (exposeNames seen) = Ok names.
Proof.
  intros Hfit (_ & _ & _ & _ & _ & [Hn ->] & _). unfold claim_name. destruct (String.eqb_spec (expose_Name e) "") as [|Hne]; [by eexists|].
  pose proof (fit_names _ _ Hfit) as Hd. rewrite filter_app filter_cons_True // fmap_app in Hd. apply NoDup_app in Hd as (_ & Hd & _).
  rewrite bool_decide_eq_false_2; [|by eexists]. rewrite elem_of_list_to_set. intros Hin. apply (Hd _ Hin). set_solver.
Qed.

Lemma exposes_fit_prefix nodes p q : exposes_fit nodes (p ++ q) → exposes_fit nodes p.
Proof.
  intros [Hi Hp Hr Hn Ha]. rewrite fmap_app in Hi. rewrite fmap_app in Hp. rewrite filter_app fmap_app in Hn. constructor.
  - by apply NoDup_app in Hi as [? _].
  - by apply NoDup_app in Hp as [? _].
  - intros e f He Hf. apply Hr; set_solver.
  - by apply NoDup_app in Hn as [? _].
  - intros e He. apply Ha. set_solver.
Qed.

(** The validator accepts every such set. *)
Lemma exposes_fit_accepted nodes state X : exposes_fit nodes X →
  ∃ seen, validate_exposes (set_st_Exposes (Some X) state) nodes = Ok seen ∧ seen_keys nodes X seen.
Proof.
  induction X as [|e p IH] using rev_ind; intros Hfit.
  { eexists. split; [reflexivity|]. split; [|done]. by apply (validate_exposes_ok (set_st_Exposes (Some []) state)). }
  destruct (IH (exposes_fit_prefix _ _ _ Hfit)) as (seen & Hr & Hs). destruct (claim_route_fits nodes p e (indexPath "exposes" (length p) +:+ ".path") seen Hfit Hs) as [index Hroute].
  pose proof Hs as [Hseen _]. destruct (claim_name_fits nodes p e (indexPath "exposes" (length p) +:+ ".name") seen Hfit Hseen) as [names Hname].
  assert (Hacc : ∃ seen', validate_exposes (set_st_Exposes (Some (p ++ [e])) state) nodes = Ok seen' ∧
    activeExposeRouteKeys seen' = list_to_set (expose_key <$> filter active_expose (p ++ [e]))).
  { unfold validate_exposes in Hr |- *. cbn [st_Exposes set_st_Exposes items default] in Hr |- *. unfold range in Hr |- *. rewrite range_loop_app Hr.
    cbn [mbind result_bind range_loop]. rewrite Nat.add_0_l.
    destruct (fit_each _ _ Hfit e) as (He & node & Hnode & Hlife); [set_solver|]. rewrite He Hnode. cbn [wrap mbind result_bind].
    assert (negb (bool_decide (node_Lifecycle node = LifecycleActive)) && negb (bool_decide (expose_State e = ExposeDisabled)) = false) as ->.
    { destruct (decide (node_Lifecycle node = LifecycleActive)) as [Hl|Hl]; [by rewrite (bool_decide_eq_true_2 _ Hl)|]. rewrite (bool_decide_eq_true_2 _ (Hlife Hl)). by rewrite andb_false_r. }
    destruct Hseen as (_ & Hids & _ & Hports & _). cbn [reject mbind result_bind]. unfold check_unique.
    assert (Hnew : ∀ {B} `{Countable B} (f : Expose → B), NoDup (f <$> p ++ [e]) → f e ∉ (list_to_set (f <$> p) : gset B)).
    { intros B ? ? f Hn. rewrite fmap_app in Hn. apply NoDup_app in Hn as (_ & Hn & _). rewrite elem_of_list_to_set. intros Hin. apply (Hn _ Hin). set_solver. }
    rewrite Hids Hports !bool_decide_eq_false_2; [apply Hnew, (fit_ports _ _ Hfit)|apply Hnew, (fit_ids _ _ Hfit)|].
    cbn [reject mbind result_bind]. rewrite Hroute. cbn [mbind result_bind]. rewrite Hname. cbn [mbind result_bind]. by eexists. }
  destruct Hacc as (seen' & Ha & Hk). exists seen'. split; [done|]. split; [|done]. by apply (validate_exposes_ok (set_st_Exposes (Some (p ++ [e])) state)).
Qed.

(** And only those. *)
Lemma validate_exposes_fit state nodes seen : validate_exposes state nodes = Ok seen → exposes_fit nodes (items (st_Exposes state)).
Proof.
  intros (Hi & _ & Hp & _ & Hx & [Hn _] & Ha)%validate_exposes_ok. constructor; [done|done| |done|done].
  intros e f He Hf Hae Haf Hne. apply not_true_iff_false. intros Ho. apply overlap_common_request in Ho as (q & Hq & H1 & H2); [|by apply valid_route, Ha..].
  assert (Hin : ∀ x, x ∈ items (st_Exposes state) → active_expose x → ∃ i, filter active_expose (items (st_Exposes state)) !! i = Some x).
  { intros x Hx' Hax. apply list_elem_of_lookup. by apply list_elem_of_filter. }
  destruct (Hin e He Hae) as [i Hi'], (Hin f Hf Haf) as [j Hj].
  assert (i = j) as -> by (eapply (indexed_unambiguous _ _ i j (route_of e) (route_of f) q Hx); rewrite ?list_lookup_fmap ?Hi' ?Hj //).
  rewrite Hi' in Hj. by injection Hj as ->.
Qed.

(** ** A state that only its exposes change *)

(** What a record of a node's history needs to be unique. *)
Lemma history_NoDup records : validateIdempotencyHistory records = Ok () → NoDup (idem_RequestID <$> items records).
Proof.
  unfold validateIdempotencyHistory. intros H. do 3 ok_step H.
  eapply (range_unique_ok _ (λ index record, idem_Validate record = Ok () ∧ match index with
    | O => false
    | S i => match items records !! i with
             | None => false
             | Some previous => Before (idem_RecordedAt record) (idem_RecordedAt previous)
                 || (Equal (idem_RecordedAt record) (idem_RecordedAt previous) && str_leb (idem_RequestID record) (idem_RequestID previous))
             end
    end = false) idem_RequestID) in G1; [tauto|].
  intros i x seen seen' Hx. split.
  - intros K. ok_inv K. apply check_unique_ok in K. units. tauto.
  - intros ([Hv Hb] & Hk & ->). rewrite Hv. cbn [wrap mbind result_bind]. rewrite Hb. cbn [reject mbind result_bind]. by apply check_unique_ok.
Qed.

Lemma node_history node : node_Validate node = Ok () → NoDup (idem_RequestID <$> items (node_IdempotencyRecords node)).
Proof. unfold node_Validate. intros H. do 5 ok_step H. apply history_NoDup. by facts. Qed.

(** The checks of the records a change of exposes leaves alone. *)
Lemma reject_same {A} `{EqDecision A} (x : A) e : reject (negb (bool_decide (x = x))) e = Ok ().
Proof. by rewrite bool_decide_eq_true_2. Qed.

Lemma then_ok {A} (m : result unit) (k : result A) a : m = Ok () → k = Ok a → (m;; k) = Ok a.
Proof. by intros -> ->. Qed.

Lemma Equal_refl t : Equal t t = true.
Proof. apply Z.eqb_refl. Qed.

Lemma resource_unchanged name ip migration created lifecycle generation :
  validateResourceTransition name name ip ip migration created created lifecycle lifecycle generation generation = Ok ().
Proof.
  unfold validateResourceTransition. rewrite !String.eqb_refl Equal_refl N.ltb_irrefl (bool_decide_eq_true_2 (lifecycle = lifecycle)) //.
Qed.

Lemma records_unchanged node : node_Validate node = Ok () → validateIdempotencyTransition node node = Ok ().
Proof.
  intros Hn%node_history. unfold validateIdempotencyTransition. apply range_check_ok. intros i r Hr.
  rewrite (index_by_in idem_RequestID _ r Hn); [by eapply list_elem_of_lookup_2|]. apply reject_same.
Qed.

Lemma records_NoDup state : Validate state = Ok () →
  NoDup (cert_ID <$> items (st_Certificates state)) ∧ NoDup (log_ID <$> items (st_Logging state)) ∧
  NoDup (backup_ID <$> items (st_Backups state)) ∧ NoDup (expose_ID <$> items (st_Exposes state)).
Proof.
  intros (nodes & clients & presets & policies & states & operations & Hv)%Validate_parts.
  destruct Hv as [_ _ _ _ _ _ _ _ _ _ _ _ _ [? He] Hce _ _ [[? ?] Hl] Hb _].
  apply validate_exposes_ok in He as [? _]. apply validate_certificates_ok in Hce as [? _]. apply validate_logging_ok in Hl as (? & _).
  by apply validate_backups_ok in Hb as [? _].
Qed.

Section unchanged.
Context (before after : State) (Hv : Validate before = Ok ()).

Lemma nodes_unchanged : st_Nodes after = st_Nodes before → validateNodeTransitions before after = Ok ().
Proof.
  intros Hs. destruct (valid_NoDup _ Hv) as (Hn & _). apply Validate_parts in Hv as (nodes & clients & presets & policies & states & operations & Hp).
  destruct (vp_nodes _ _ _ _ _ _ _ Hp) as [names Ha]. apply validate_nodes_ok in Ha as (_ & _ & Ha). unfold validateNodeTransitions. rewrite Hs.
  apply then_ok; [apply range_check_ok|].
  - intros i node Hi. apply list_elem_of_lookup_2 in Hi. rewrite (index_by_in node_ID _ node Hn Hi). unfold node_transition.
    rewrite resource_unchanged N.eqb_refl. cbn [mbind result_bind]. apply records_unchanged. by destruct (Ha node Hi).
  - rewrite bool_decide_eq_true_2 //. intros id node Hx. left. by exists node.
Qed.

Lemma clients_unchanged : st_Clients after = st_Clients before → validateClientTransitions before after = Ok ().
Proof.
  intros Hs. destruct (valid_NoDup _ Hv) as (_ & Hn & _). unfold validateClientTransitions. rewrite Hs.
  apply then_ok; [apply range_check_ok|].
  - intros i client Hi. apply list_elem_of_lookup_2 in Hi. rewrite (index_by_in client_ID _ client Hn Hi). unfold client_transition.
    by rewrite resource_unchanged N.eqb_refl.
  - rewrite bool_decide_eq_true_2 //. intros id client Hx. left. by exists client.
Qed.

Lemma invites_unchanged : validateInviteTransitions (items (st_Invites before)) (items (st_Invites before)) = Ok ().
Proof.
  destruct (valid_NoDup _ Hv) as (_ & _ & Hn & _). unfold validateInviteTransitions. cbv zeta. apply then_ok; apply range_check_ok.
  - intros i invite Hi. apply list_elem_of_lookup_2 in Hi. rewrite (index_by_in inv_ID _ invite Hn Hi).
    assert (same_invite invite invite = true) as ->.
    { unfold same_invite. rewrite !Z.eqb_refl !N.eqb_refl !String.eqb_refl !Equal_refl //. }
    destruct (inv_State invite) as [| | |raw] eqn:Es; [done|apply reject_same..|done].
  - intros i invite Hi%list_elem_of_lookup_2.
    rewrite bool_decide_eq_true_2 //. by apply elem_of_list_to_set, list_elem_of_fmap_2.
Qed.

Lemma versions_unchanged (versions : gmap string N) : validateVersionedTransitions versions versions = Ok ().
Proof.
  apply range_check_ok. intros i [id current] Hi%list_elem_of_lookup_2%elem_of_map_to_list. rewrite Hi. cbn. by rewrite N.ltb_irrefl.
Qed.

Lemma certificates_unchanged : validateCertificateTransitions (items (st_Certificates before)) (items (st_Certificates before)) = Ok ().
Proof.
  destruct (records_NoDup before Hv) as (Hn & _). unfold validateCertificateTransitions. cbv zeta. rewrite versions_unchanged. cbn [mbind result_bind].
  apply range_check_ok. intros i certificate Hi%list_elem_of_lookup_2. rewrite (index_by_in cert_ID _ certificate Hn Hi).
  rewrite bool_decide_eq_true_2 // !String.eqb_refl N.eqb_refl //.
Qed.

Lemma history_unchanged : validateStableRecordIdentities before before = Ok ().
Proof.
  destruct (valid_NoDup _ Hv) as (_ & _ & _ & Ho). destruct (records_NoDup before Hv) as (_ & Hl & Hb & _). unfold validateStableRecordIdentities.
  assert (validate_operation_records (items (st_Operations before)) (items (st_Operations before)) = Ok ()) as ->.
  { unfold validate_operation_records. cbv zeta. apply then_ok; apply range_check_ok.
    - intros i operation Hi%list_elem_of_lookup_2. rewrite (index_by_in op_ID _ operation Ho Hi). apply evolution_refl.
    - intros i operation Hi%list_elem_of_lookup_2.
      rewrite bool_decide_eq_true_2 //. by apply elem_of_list_to_set, list_elem_of_fmap_2. }
  assert (validate_logging_records (items (st_Logging before)) (items (st_Logging before)) = Ok ()) as ->.
  { unfold validate_logging_records. cbv zeta. apply then_ok; apply range_check_ok.
    - intros i session Hi%list_elem_of_lookup_2. rewrite (index_by_in log_ID _ session Hl Hi) /same_session !Equal_refl String.eqb_refl
        (bool_decide_eq_true_2 (log_Scope session = _)) // (bool_decide_eq_true_2 (log_Level session = _)) //
        (bool_decide_eq_true_2 (log_Destination session = _)) // (bool_decide_eq_true_2 (log_State session = log_State session)) //.
    - intros i session Hi%list_elem_of_lookup_2.
      rewrite bool_decide_eq_true_2 //. by apply elem_of_list_to_set, list_elem_of_fmap_2. }
  cbn [mbind result_bind]. apply range_check_ok. intros i backup Hi%list_elem_of_lookup_2. rewrite (index_by_in backup_ID _ backup Hb Hi). apply reject_same.
Qed.

Lemma handshake_unchanged : st_HandshakeHost after = st_HandshakeHost before → st_HandshakeHostChange after = st_HandshakeHostChange before →
  host_Role (st_Host before) = RoleGateway → validateHandshakeHostChangeTransition before after = Ok ().
Proof.
  intros Hh Hc Hr. unfold validateHandshakeHostChangeTransition. rewrite Hr Hh Hc bool_decide_eq_false_2 //
    (bool_decide_eq_true_2 (st_HandshakeHostChange before = _)) // (bool_decide_eq_true_2 (st_HandshakeHost before = _)) //.
Qed.
End unchanged.

(** One step of an expose; a new one starts at generation 1. *)
Definition evolved (old : option Expose) (e : Expose) : Prop :=
  match old with
  | None => expose_Generation e = 1%N
  | Some old => expose_NodeID old = expose_NodeID e ∧ instant (expose_CreatedAt old) = instant (expose_CreatedAt e) ∧
      (expose_Generation e = expose_Generation old ∨ NextGeneration (expose_Generation old) = Ok (expose_Generation e))
  end.

Lemma exposes_evolve before X : NoDup (expose_ID <$> before) → NoDup (expose_ID <$> X) →
  (∀ e, e ∈ X → evolved (index_by expose_ID before !! expose_ID e) e) → validateExposeTransitions before X = Ok ().
Proof.
  intros Hb Hx Hall. unfold validateExposeTransitions. cbv zeta. apply then_ok; apply range_check_ok.
  - intros i [id current] Hi%list_elem_of_lookup_2%elem_of_map_to_list. cbn beta iota.
    unfold exposesByID in *. rewrite by_generation_index lookup_fmap in Hi. rewrite by_generation_index lookup_fmap.
    apply fmap_Some in Hi as (e & He & ->). apply index_by_some in He as [He <-]; [|done]. specialize (Hall e He).
    destruct (index_by expose_ID before !! expose_ID e) as [old|]; cbn in *; [|by rewrite Hall].
    destruct Hall as (_ & _ & [->|Hg]); [by rewrite N.ltb_irrefl|]. rewrite Hg. apply NextGeneration_ok in Hg as [_ ->].
    rewrite (proj2 (N.ltb_ge (_ + 1) _)); [lia|]. cbn [reject mbind result_bind]. rewrite N.eqb_refl. by destruct (_ <? _)%N.
  - intros i e Hi%list_elem_of_lookup_2. specialize (Hall e Hi). destruct (index_by expose_ID before !! expose_ID e) as [old|]; [|done].
    destruct Hall as (-> & Hc & _). rewrite String.eqb_refl /Equal Hc Z.eqb_refl //.
Qed.

(** The generation is read only as a bound of the recorded ones. *)
Lemma later_nodes state g nodes names : (st_Generation state ≤ g)%N → validate_nodes state = Ok (nodes, names) →
  validate_nodes (set_st_Generation g state) = Ok (nodes, names).
Proof.
  intros Hg. unfold validate_nodes, range. cbn [set_st_Generation st_Nodes st_Generation]. generalize (∅ : gmap string Node, ∅ : gset string), 0%nat.
  induction (items (st_Nodes state)) as [|node rest IH]; intros acc i H; [done|]. cbn [range_loop] in H |- *. ok_step H.
  destruct acc as [m s]. ok_step G. ok_step G. ok_step G. rewrite G0 G1. cbn [mbind result_bind].
  assert (validate_node_records g (indexPath "nodes" i) node = Ok ()) as ->.
  { unfold validate_node_records in G2 |- *. units. rewrite range_check_ok in G2. apply range_check_ok. intros j r Hr. specialize (G2 j r Hr).
    cbn beta zeta in G2 |- *. ok_step G2. rewrite (proj2 (N.ltb_ge _ _)); [facts; lia|]. done. }
  cbn [mbind result_bind]. rewrite G. cbn [mbind result_bind]. by apply IH.
Qed.

Definition with_exposes (X : list Expose) (g : N) (state : State) : State := set_st_Exposes (Some X) (set_st_Generation g state).

Lemma head_exposes state X g : g ≠ 0%N → validate_head state = Ok () → validate_head (with_exposes X g state) = Ok ().
Proof.
  unfold validate_head. intros Hg H. do 9 ok_step H. units. apply then_ok; [done|].
  apply then_ok; [by apply N.eqb_neq in Hg; cbn; rewrite Hg|].
  do 7 (apply then_ok; [first [assumption | apply wrap_ok; assumption | apply reject_ok; assumption]|]).
  apply reject_ok in H as H'. clear H. unfold missing_collection in H'. facts. apply reject_ok. unfold missing_collection.
  cbn [with_exposes set_st_Exposes set_st_Generation st_Invites st_Nodes st_Clients st_Presets st_Policies st_Transports st_Exposes st_Certificates
       st_Operations st_Logging st_Backups].
  by repeat match goal with K : is_nil _ = false |- _ => rewrite K; clear K end.
Qed.

(** Such a state is valid. *)
Lemma exposes_valid state X g : Validate state = Ok () → host_Role (st_Host state) = RoleGateway → NextGeneration (st_Generation state) = Ok g →
  (∀ nodes, keyed node_ID (items (st_Nodes state)) nodes → exposes_fit nodes X) → Validate (with_exposes X g state) = Ok ().
Proof.
  intros (nodes & clients & presets & policies & states & operations & Hp)%Validate_parts Hr [Hm ->]%NextGeneration_ok Hfit.
  destruct Hp as [Hhead ? [names Hnodes] ? ? ? ? ? ? ? ? ? ? [seen He] ? ? ? ? ? Hrole]. apply Validate_parts.
  exists nodes, clients, presets, policies, states, operations. constructor; try done.
  - apply head_exposes; [lia|done].
  - exists names. apply later_nodes; [lia|done].
  - destruct (exposes_fit_accepted nodes (set_st_Generation (st_Generation state + 1) state) X) as (s & Hs & _); [|by exists s].
    apply Hfit. by apply validate_nodes_ok in Hnodes as [? _].
  - unfold validate_role in Hrole |- *. change (st_Host (with_exposes X (st_Generation state + 1) state)) with (st_Host state). by rewrite Hr in Hrole |- *.
Qed.

(** And it follows the old one. *)
Lemma exposes_accepted state X g : Validate state = Ok () → host_Role (st_Host state) = RoleGateway → NextGeneration (st_Generation state) = Ok g →
  (∀ nodes, keyed node_ID (items (st_Nodes state)) nodes → exposes_fit nodes X) →
  (∀ e, e ∈ X → evolved (index_by expose_ID (items (st_Exposes state)) !! expose_ID e) e) → accepted state (with_exposes X g state).
Proof.
  intros Hv Hr Hg Hfit Hall. pose proof (exposes_valid _ _ _ Hv Hr Hg Hfit) as Hv'. unfold accepted, ValidateTransition. rewrite Hv Hg.
  cbn [wrap mbind result_bind]. change (st_Host (with_exposes X g state)) with (st_Host state). change (st_Generation (with_exposes X g state)) with g.
  rewrite N.eqb_refl String.eqb_refl (bool_decide_eq_true_2 (host_Role (st_Host state) = _)) // Equal_refl Hv'. cbn [is_ok negb reject mbind result_bind].
  rewrite nodes_unchanged // clients_unchanged // invites_unchanged // versions_unchanged versions_unchanged.
  cbn [mbind result_bind]. rewrite exposes_evolve //; [by apply records_NoDup| |].
  { destruct (records_NoDup _ Hv') as (_ & _ & _ & Hn). done. }
  rewrite certificates_unchanged // handshake_unchanged //. cbn [mbind result_bind].
  destruct (st_EnrollmentIdentity state) eqn:E; cbn; rewrite ?E ?bool_decide_eq_true_2 //; by apply history_unchanged.
Qed.
