(* ===== verification/SwitchIntent.v ===== *)
(** * Identity of a transport switch ([internal/transport/switch_intent.go])

    A switch that waits for the gateway is retained as an operation whose target is the text
    of the intent: node, transport and the two node generations.  Requests, operations and
    finalizations have identifiers derived from it by a hash, so that a retry carries the
    same ones.  Texts and intents determine each other, and so do identifiers. *)

From S2P Require Import Prelude GoText GoConv GoNet GoTime Types Checks Identity Expose.

Local Open Scope string_scope.
Local Open Scope list_scope.

(** [sha256.Sum256] *)
Class Sha256 := {
  Sum256 : string → list N;
  Sum256_length text : length (Sum256 text) = 32%nat;
  Sum256_bytes text : Forall (λ b, (b < 256)%N) (Sum256 text)
}.

Definition isTransportKind (kind : TransportKind) : bool :=
  match kind with TransportStandard | TransportRestricted => true | TransportKindUnsupported _ => false end.

(** The text of a kind. *)
Definition kind_text (kind : TransportKind) : string :=
  match kind with TransportStandard => "standard" | TransportRestricted => "restricted" | TransportKindUnsupported raw => raw end.
(** The conversion [model.TransportKind(text)]. *)
Definition kind_of_text (text : string) : TransportKind :=
  if String.eqb text "standard" then TransportStandard
  else if String.eqb text "restricted" then TransportRestricted
  else TransportKindUnsupported text.

Definition transportSwitchIntentVersion : string := "v1".

Inductive SwitchMutationAction := SwitchMutationRegister | SwitchMutationFinalize | SwitchMutationUnsupported (raw : string).
#[export] Instance SwitchMutationAction_eq_dec : EqDecision SwitchMutationAction.
Proof. solve_decision. Defined.

Definition SwitchOperationStepNames : list string := ["stage"; "activate-private"; "confirm-private"; "publish-public"; "drain"; "finalize"].

Record SwitchIntentTarget := MkSwitchIntentTarget {
  it_NodeID : string;
  it_Target : TransportKind;
  it_ExpectedNodeGeneration : N;
  it_DesiredNodeGeneration : N
}.

Record DeferredSwitchRequest := MkDeferredSwitchRequest {
  sr_Action : SwitchMutationAction;
  sr_Current : TransportKind;
  sr_Target : TransportKind;
  sr_ExpectedNodeGeneration : N;
  sr_DesiredNodeGeneration : N;
  sr_OperationID : string
}.

Record DeferredSwitchReceipt := MkDeferredSwitchReceipt {
  dsr_OperationID : string;
  dsr_RequestID : string;
  dsr_NodeID : string;
  dsr_Current : TransportKind;
  dsr_Target : TransportKind;
  dsr_GatewayGeneration : N;
  dsr_DesiredGatewayGeneration : N;
  dsr_ExpectedNodeGeneration : N;
  dsr_DesiredNodeGeneration : N
}.

Record FinalizedSwitchReceipt := MkFinalizedSwitchReceipt {
  fr_OperationID : string;
  fr_RequestID : string;
  fr_NodeID : string;
  fr_Previous : TransportKind;
  fr_Active : TransportKind;
  fr_ExpectedGatewayGeneration : N;
  fr_GatewayGeneration : N;
  fr_ExpectedNodeGeneration : N;
  fr_DesiredNodeGeneration : N
}.

(** ** Intents *)

Definition it_Validate (target : SwitchIntentTarget) : result unit :=
  wrap "transport switch node ID" (ValidateResourceID (it_NodeID target));;
  reject (negb (isTransportKind (it_Target target))) (Message "transport switch target is invalid");;
  reject (it_ExpectedNodeGeneration target =? 0)%N (Message "expected node generation must be positive");;
  match pending ← NextGeneration (it_ExpectedNodeGeneration target); NextGeneration pending with
  | Ok desired => reject (negb (desired =? it_DesiredNodeGeneration target)%N) (Message "node generations are inconsistent")
  | Err _ => Err (Message "node generations are inconsistent")
  end.

Definition it_String (target : SwitchIntentTarget) : string :=
  transportSwitchIntentVersion +:+ ":" +:+ it_NodeID target +:+ ":" +:+ kind_text (it_Target target) +:+ ":"
    +:+ itoa (it_ExpectedNodeGeneration target) +:+ ":" +:+ itoa (it_DesiredNodeGeneration target).

Definition NewSwitchIntentTarget (nodeID : string) (target : TransportKind) (expectedNodeGeneration : N) : result SwitchIntentTarget :=
  pending ← wrap "desired node" (NextGeneration expectedNodeGeneration);
  desired ← wrap "desired node" (NextGeneration pending);
  let value := MkSwitchIntentTarget nodeID target expectedNodeGeneration desired in
  it_Validate value;;
  Ok value.

(** [strconv.ParseUint(text, 10, 64)] *)
Definition ParseUint10 (text : string) : option N :=
  if String.eqb text "" then None
  else n ← digits_value 0 text; if (max_uint64 <? n)%N then None else Some n.

(** A generation in the text: the number must print as it was read. *)
Definition parse_generation (text : string) : result N :=
  match ParseUint10 text with
  | Some n => if String.eqb (itoa n) text then Ok n else Err (Message "node generation is invalid")
  | None => Err (Message "node generation is invalid")
  end.

Definition ParseSwitchIntentTarget (value : string) : result SwitchIntentTarget :=
  match Split value ":"%char with
  | [version; nodeID; kind; expectedText; desiredText] =>
      reject (negb (String.eqb version transportSwitchIntentVersion)) (Message "transport switch intent target is invalid");;
      expected ← parse_generation expectedText;
      desired ← parse_generation desiredText;
      let result := MkSwitchIntentTarget nodeID (kind_of_text kind) expected desired in
      it_Validate result;;
      reject (negb (String.eqb (it_String result) value)) (Message "transport switch intent target is not canonical");;
      Ok result
  | _ => Err (Message "transport switch intent target is invalid")
  end.

(** ** Identifiers *)

Definition uuidFromDigest (digest : list N) (version : N) : string :=
  let value := take 16 digest in
  let value := <[6%nat := N.lor (N.land (value !!! 6%nat) 15) (N.shiftl version 4 mod 256)]> value in
  let value := <[8%nat := N.lor (N.land (value !!! 8%nat) 63) 128]> value in
  let part i j := hex_bytes (take (j - i) (drop i value)) in
  (part 0 4 +:+ "-" +:+ part 4 6 +:+ "-" +:+ part 6 8 +:+ "-" +:+ part 8 10 +:+ "-" +:+ part 10 16)%nat.

Section identifiers.
Context `{!Sha256}.

Definition SwitchRequestID (target : SwitchIntentTarget) (current : TransportKind) (expectedGatewayGeneration : N) : result string :=
  reject (negb (is_ok (it_Validate target)) || negb (isTransportKind current) || bool_decide (current = it_Target target)
          || (expectedGatewayGeneration =? 0)%N) (Message "transport switch request identity input is invalid");;
  Ok (uuidFromDigest (Sum256 ("vpnctl-v2:transport-switch:" +:+ it_String target +:+ ":" +:+ kind_text current +:+ ":" +:+ itoa expectedGatewayGeneration)) 4).

Definition SwitchOperationID (requestID : string) : result string :=
  wrap "transport switch request ID" (ValidateResourceID requestID);;
  Ok (uuidFromDigest (Sum256 ("vpnctl-v2:transport-switch-operation:" +:+ requestID)) 4).

Definition SwitchFinalizeRequestID (operationID : string) (desiredNodeGeneration expectedGatewayGeneration : N) : result string :=
  reject (negb (is_ok (ValidateResourceID operationID)) || (desiredNodeGeneration =? 0)%N || (expectedGatewayGeneration =? 0)%N)
    (Message "transport switch finalization identity input is invalid");;
  Ok (uuidFromDigest (Sum256 ("vpnctl-v2:transport-switch-finalize:" +:+ operationID +:+ ":" +:+ itoa desiredNodeGeneration +:+ ":"
    +:+ itoa expectedGatewayGeneration)) 4).

(** ** Requests and receipts *)

Definition sr_IntentTarget (request : DeferredSwitchRequest) (nodeID : string) : result SwitchIntentTarget :=
  reject (negb (isTransportKind (sr_Current request)) || negb (isTransportKind (sr_Target request)) || bool_decide (sr_Current request = sr_Target request))
    (Message "deferred transport switch requires different transports");;
  NewSwitchIntentTarget nodeID (sr_Target request) (sr_ExpectedNodeGeneration request).

Definition sr_ValidateRegistration (request : DeferredSwitchRequest) (nodeID : string) (expectedGatewayGeneration : N) (requestID : string)
    : result SwitchIntentTarget :=
  match sr_IntentTarget request nodeID with
  | Err _ => Err (Message "deferred transport switch registration is invalid")
  | Ok intent =>
      reject (negb (bool_decide (sr_Action request = SwitchMutationRegister)) || negb (sr_DesiredNodeGeneration request =? 0)%N
              || negb (String.eqb (sr_OperationID request) "")) (Message "deferred transport switch registration is invalid");;
      match SwitchRequestID intent (sr_Current request) expectedGatewayGeneration with
      | Ok wantRequestID => reject (negb (String.eqb wantRequestID requestID)) (Message "registration identity is invalid");; Ok intent
      | Err _ => Err (Message "registration identity is invalid")
      end
  end.

Definition sr_ValidateFinalization (request : DeferredSwitchRequest) (nodeID : string) (expectedGatewayGeneration : N) (requestID : string)
    : result SwitchIntentTarget :=
  match sr_IntentTarget request nodeID with
  | Err _ => Err (Message "transport switch finalization is invalid")
  | Ok intent =>
      reject (negb (bool_decide (sr_Action request = SwitchMutationFinalize)) || String.eqb (sr_OperationID request) ""
              || negb (sr_DesiredNodeGeneration request =? it_DesiredNodeGeneration intent)%N
              || negb (isTransportKind (sr_Current request)) || bool_decide (sr_Current request = sr_Target request))
        (Message "transport switch finalization is invalid");;
      reject (negb (is_ok (ValidateResourceID (sr_OperationID request)))) (Message "finalization operation ID is invalid");;
      match SwitchFinalizeRequestID (sr_OperationID request) (it_DesiredNodeGeneration intent) expectedGatewayGeneration with
      | Ok wantRequestID => reject (negb (String.eqb wantRequestID requestID)) (Message "finalization identity is invalid");; Ok intent
      | Err _ => Err (Message "finalization identity is invalid")
      end
  end.

(** [NextGeneration] as the code uses it before looking at the error: zero with it. *)
Definition next_or_zero (generation : N) : N := match NextGeneration generation with Ok n => n | Err _ => 0%N end.

Definition fr_Validate (receipt : FinalizedSwitchReceipt) : result unit :=
  wrap "transport switch operation ID" (ValidateResourceID (fr_OperationID receipt));;
  wrap "transport switch finalization request ID" (ValidateResourceID (fr_RequestID receipt));;
  wrap "transport switch node ID" (ValidateResourceID (fr_NodeID receipt));;
  let pending := NextGeneration (fr_ExpectedNodeGeneration receipt) in
  let desired := NextGeneration (next_or_zero (fr_ExpectedNodeGeneration receipt)) in
  match SwitchFinalizeRequestID (fr_OperationID receipt) (fr_DesiredNodeGeneration receipt) (fr_ExpectedGatewayGeneration receipt) with
  | Err _ => Err (Message "transport switch finalization receipt is invalid")
  | Ok wantRequestID =>
      reject (negb (is_ok pending)
              || negb (match desired with Ok desiredNodeGeneration => desiredNodeGeneration =? fr_DesiredNodeGeneration receipt | Err _ => false end)%N
              || negb (String.eqb wantRequestID (fr_RequestID receipt))
              || negb (isTransportKind (fr_Previous receipt)) || negb (isTransportKind (fr_Active receipt))
              || bool_decide (fr_Previous receipt = fr_Active receipt) || (fr_ExpectedGatewayGeneration receipt =? 0)%N
              || (fr_GatewayGeneration receipt <=? fr_ExpectedGatewayGeneration receipt)%N)
        (Message "transport switch finalization receipt is invalid")
  end.

Definition dsr_Validate (receipt : DeferredSwitchReceipt) : result unit :=
  wrap "transport switch operation ID" (ValidateResourceID (dsr_OperationID receipt));;
  wrap "transport switch request ID" (ValidateResourceID (dsr_RequestID receipt));;
  match SwitchOperationID (dsr_RequestID receipt) with
  | Err _ => Err (Message "operation and request IDs are inconsistent")
  | Ok wantOperationID => reject (negb (String.eqb wantOperationID (dsr_OperationID receipt))) (Message "operation and request IDs are inconsistent")
  end;;
  match NewSwitchIntentTarget (dsr_NodeID receipt) (dsr_Target receipt) (dsr_ExpectedNodeGeneration receipt) with
  | Err _ => Err (Message "deferred transport switch receipt is invalid")
  | Ok intent =>
      reject (negb (it_DesiredNodeGeneration intent =? dsr_DesiredNodeGeneration receipt)%N || negb (isTransportKind (dsr_Current receipt))
              || bool_decide (dsr_Current receipt = dsr_Target receipt) || (dsr_GatewayGeneration receipt <? 2)%N)
        (Message "deferred transport switch receipt is invalid")
  end;;
  match NextGeneration (dsr_GatewayGeneration receipt) with
  | Ok desiredGateway => reject (negb (desiredGateway =? dsr_DesiredGatewayGeneration receipt)%N) (Message "gateway generations are inconsistent")
  | Err _ => Err (Message "gateway generations are inconsistent")
  end.
End identifiers.

(** * Identity of a transport switch: round trips and stable identifiers *)

Lemma no_colon_split s t : str_forall (λ c, negb (Ascii.eqb c ":"%char)) s = true → Split (s +:+ ":" +:+ t) ":"%char = s :: Split t ":"%char.
Proof.
  intros Hs. apply split_app_sep. revert Hs. apply str_forall_not_exists. intros c Hc. by apply negb_true_iff in Hc.
Qed.

Lemma uuid_no_colon id : ValidateResourceID id = Ok () → str_forall (λ c, negb (Ascii.eqb c ":"%char)) id = true.
Proof.
  intros Hid%validateUUID_ok. revert Hid. apply matches_chars. cbn -[Ascii.eqb].
  split_and!; try exact I; intros c Hc; apply negb_true_iff, Ascii.eqb_neq; intros ->; done.
Qed.

Lemma digits_no_colon s : str_forall is_digit s = true → str_forall (λ c, negb (Ascii.eqb c ":"%char)) s = true.
Proof. apply str_forall_impl. intros c Hc. apply negb_true_iff, Ascii.eqb_neq. intros ->. done. Qed.

Lemma kind_text_inverse kind : isTransportKind kind = true → kind_of_text (kind_text kind) = kind ∧ str_forall (λ c, negb (Ascii.eqb c ":"%char)) (kind_text kind) = true.
Proof. by destruct kind. Qed.

Lemma parse_generation_itoa n : (n ≤ max_uint64)%N → parse_generation (itoa n) = Ok n.
Proof.
  intros Hn. unfold parse_generation, ParseUint10. rewrite (proj2 (String.eqb_neq (itoa n) "") (itoa_nonempty n)) digits_value_itoa. cbn [mbind option_bind].
  rewrite (proj2 (N.ltb_ge _ _) Hn) String.eqb_refl. done.
Qed.

Lemma parse_generation_ok text n : parse_generation text = Ok n → text = itoa n ∧ (n ≤ max_uint64)%N.
Proof.
  unfold parse_generation, ParseUint10. destruct (String.eqb text ""); [done|]. destruct (digits_value 0 text) as [m|]; [|done]. cbn.
  destruct (max_uint64 <? m)%N eqn:Hm; [done|]. destruct (String.eqb_spec (itoa m) text) as [<-|]; [|done]. intros [= <-]. apply N.ltb_ge in Hm. done.
Qed.

Lemma it_Validate_ok t : it_Validate t = Ok () ↔
  ValidateResourceID (it_NodeID t) = Ok () ∧ isTransportKind (it_Target t) = true ∧ it_ExpectedNodeGeneration t ≠ 0%N ∧
  (it_ExpectedNodeGeneration t ≠ max_uint64 ∧ it_ExpectedNodeGeneration t + 1 ≠ max_uint64 ∧ it_DesiredNodeGeneration t = it_ExpectedNodeGeneration t + 2)%N.
Proof.
  unfold it_Validate, NextGeneration. split.
  - intros ([] & H1%wrap_ok & ([] & H2%reject_ok & ([] & H3%reject_ok & H4)%bind_ok)%bind_ok)%bind_ok. bool_facts.
    destruct (N.eqb_spec (it_ExpectedNodeGeneration t) max_uint64); [done|]. cbn [mbind result_bind] in H4.
    destruct (N.eqb_spec (it_ExpectedNodeGeneration t + 1) max_uint64); [done|]. apply reject_ok in H4. bool_facts. split_and!; try done; lia.
  - intros (H1 & H2 & H3 & H4 & H5 & H6). rewrite H1 H2 (proj2 (N.eqb_neq _ _) H3) (proj2 (N.eqb_neq _ _) H4). cbn [wrap negb reject mbind result_bind].
    rewrite (proj2 (N.eqb_neq _ _) H5). apply reject_ok, negb_false_iff, N.eqb_eq. lia.
Qed.

Lemma intent_text value t : ParseSwitchIntentTarget value = Ok t ↔
  value = it_String t ∧ it_Validate t = Ok () ∧ (it_ExpectedNodeGeneration t ≤ max_uint64 ∧ it_DesiredNodeGeneration t ≤ max_uint64)%N.
Proof.
  unfold ParseSwitchIntentTarget. split.
  - destruct (Split value ":"%char) as [|v [|n [|k [|e [|d [|]]]]]]; try done.
    intros ([] & _ & (expected & He%parse_generation_ok & (desired & Hd%parse_generation_ok & ([] & Hv & ([] & Hs%reject_ok & [= <-])%bind_ok)%bind_ok)%bind_ok)%bind_ok)%bind_ok.
    apply negb_false_iff, String.eqb_eq in Hs. split_and!; [done|done|apply He|apply Hd].
  - intros (-> & Hv & Hbe & Hbd). pose proof Hv as Hv'. apply it_Validate_ok in Hv' as (Hid & Hk & _). destruct (kind_text_inverse _ Hk) as [Hinv Hkc].
    assert (Hsplit : Split (it_String t) ":"%char = [transportSwitchIntentVersion; it_NodeID t; kind_text (it_Target t);
      itoa (it_ExpectedNodeGeneration t); itoa (it_DesiredNodeGeneration t)]).
    { unfold it_String. rewrite !no_colon_split; [done|by apply uuid_no_colon|done|by apply digits_no_colon, itoa_digits|].
      rewrite split_no_sep; [|done]. apply (str_forall_not_exists is_digit); [|apply itoa_digits]. intros c Hc. apply Ascii.eqb_neq. by intros ->. }
    rewrite Hsplit. rewrite !parse_generation_itoa // Hinv. cbn [reject mbind result_bind String.eqb negb]. rewrite String.eqb_refl. cbn [negb reject mbind result_bind].
    assert (Ht : MkSwitchIntentTarget (it_NodeID t) (it_Target t) (it_ExpectedNodeGeneration t) (it_DesiredNodeGeneration t) = t) by (by destruct t).
    rewrite Ht Hv String.eqb_refl. done.
Qed.

(** C33: an intent is read back from its text, and nothing else is read: a text parses to an
    intent exactly when it is the text of that intent, the intent is valid and its
    generations fit into 64 bits. *)
Theorem intent_text_roundtrip value t : ParseSwitchIntentTarget value = Ok t ↔
  value = it_String t ∧ it_Validate t = Ok () ∧ (it_ExpectedNodeGeneration t ≤ max_uint64 ∧ it_DesiredNodeGeneration t ≤ max_uint64)%N.
Proof. apply intent_text. Qed.

Section identifiers.
Context `{!Sha256}.

Lemma uuidFromDigest_valid text : ValidateResourceID (uuidFromDigest (Sum256 text) 4) = Ok ().
Proof.
  assert (Hu : newUUIDFrom (Ok (take 16 (Sum256 text))) = Ok (uuidFromDigest (Sum256 text) 4)) by done.
  apply newUUIDFrom_valid in Hu.
  - apply bind_ok in Hu as ([] & Hv%wrap_ok & _). exact Hv.
  - rewrite length_take Sum256_length. done.
  - apply Forall_take, Sum256_bytes.
Qed.

Lemma new_intent nodeID target expected : ValidateResourceID nodeID = Ok () → isTransportKind target = true → (0 < expected)%N → (expected + 2 ≤ max_uint64)%N →
  NewSwitchIntentTarget nodeID target expected = Ok (MkSwitchIntentTarget nodeID target expected (expected + 2)) ∧
  it_Validate (MkSwitchIntentTarget nodeID target expected (expected + 2)) = Ok ().
Proof.
  intros Hid Hk Hpos Hmax. assert (Hv : it_Validate (MkSwitchIntentTarget nodeID target expected (expected + 2)) = Ok ())
    by (apply it_Validate_ok; cbn; split_and!; [done|done|lia..]).
  split; [|done]. unfold NewSwitchIntentTarget, NextGeneration. rewrite (proj2 (N.eqb_neq expected _)); [lia|]. cbn [wrap mbind result_bind].
  rewrite (proj2 (N.eqb_neq (expected + 1) _)); [lia|]. cbn [wrap mbind result_bind]. replace (expected + 1 + 1)%N with (expected + 2)%N by lia. by rewrite Hv.
Qed.

Lemma request_id intent current gateway : it_Validate intent = Ok () → isTransportKind current = true → current ≠ it_Target intent → gateway ≠ 0%N →
  ∃ id, SwitchRequestID intent current gateway = Ok id ∧ ValidateResourceID id = Ok ().
Proof.
  intros Hv Hk Hne Hg. unfold SwitchRequestID. rewrite Hv Hk (bool_decide_eq_false_2 _ Hne) (proj2 (N.eqb_neq _ _) Hg). cbn [is_ok negb orb reject mbind result_bind].
  eexists. split; [done|]. apply uuidFromDigest_valid.
Qed.

Lemma operation_id request : ValidateResourceID request = Ok () → ∃ id, SwitchOperationID request = Ok id ∧ ValidateResourceID id = Ok ().
Proof. intros Hr. unfold SwitchOperationID. rewrite Hr. eexists. split; [done|]. apply uuidFromDigest_valid. Qed.

Lemma finalize_id operation desired gateway : ValidateResourceID operation = Ok () → desired ≠ 0%N → gateway ≠ 0%N →
  ∃ id, SwitchFinalizeRequestID operation desired gateway = Ok id ∧ ValidateResourceID id = Ok ().
Proof.
  intros Ho Hd Hg. unfold SwitchFinalizeRequestID. rewrite Ho (proj2 (N.eqb_neq _ _) Hd) (proj2 (N.eqb_neq _ _) Hg). cbn [is_ok negb orb reject mbind result_bind].
  eexists. split; [done|]. apply uuidFromDigest_valid.
Qed.

(** The check of an identifier that ends both validations. *)
Lemma identity_check {A} (want got : string) e (a : A) : (reject (negb (String.eqb want got)) e;; Ok a) = Ok a ↔ got = want.
Proof. destruct (String.eqb_spec want got); cbn; naive_solver. Qed.

(** For two different transports and a node generation with room for two more, the
    intent, the request identifier and the operation identifier exist; the gateway accepts
    the registration under that identifier and no other, likewise the finalization at every
    gateway generation; and the receipts for both pass validation. *)
Theorem switch_identity_is_stable nodeID current target expected gateway :
  ValidateResourceID nodeID = Ok () → isTransportKind current = true → isTransportKind target = true → current ≠ target →
  (0 < expected)%N → (expected + 2 ≤ max_uint64)%N → (0 < gateway)%N →
  ∃ intent requestID operationID,
    NewSwitchIntentTarget nodeID target expected = Ok intent ∧ SwitchRequestID intent current gateway = Ok requestID ∧ SwitchOperationID requestID = Ok operationID ∧
    (∀ id, sr_ValidateRegistration (MkDeferredSwitchRequest SwitchMutationRegister current target expected 0 "") nodeID gateway id = Ok intent ↔ id = requestID) ∧
    (∀ g, (2 ≤ g < max_uint64)%N → dsr_Validate (MkDeferredSwitchReceipt operationID requestID nodeID current target g (g + 1) expected (expected + 2)) = Ok ()) ∧
    ∀ g, (0 < g)%N → ∃ finalizeID,
      (∀ id, sr_ValidateFinalization (MkDeferredSwitchRequest SwitchMutationFinalize current target expected (expected + 2) operationID) nodeID g id = Ok intent ↔ id = finalizeID) ∧
      ∀ g', (g < g')%N → fr_Validate (MkFinalizedSwitchReceipt operationID finalizeID nodeID current target g g' expected (expected + 2)) = Ok ().
Proof.
  intros Hid Hc Ht Hne Hpos Hmax Hg. destruct (new_intent nodeID target expected Hid Ht Hpos Hmax) as [Hnew Hv].
  set (intent := MkSwitchIntentTarget nodeID target expected (expected + 2)) in *.
  destruct (request_id intent current gateway Hv Hc Hne ltac:(lia)) as (requestID & Hr & Hrv). destruct (operation_id requestID Hrv) as (operationID & Ho & Hov).
  assert (Hnext : ∀ n, n ≠ max_uint64 → NextGeneration n = Ok (n + 1)%N) by (intros n Hn; unfold NextGeneration; by rewrite (proj2 (N.eqb_neq _ _) Hn)).
  assert (Hone : bool_decide (current = target) = false) by (by apply bool_decide_eq_false_2).
  assert (Hintent : ∀ a d o, sr_IntentTarget (MkDeferredSwitchRequest a current target expected d o) nodeID = Ok intent)
    by (intros a d o; unfold sr_IntentTarget; cbn [sr_Current sr_Target sr_ExpectedNodeGeneration]; by rewrite Hc Ht Hone Hnew).
  exists intent, requestID, operationID. split_and!; [done|done|done| | |].
  - intros id. unfold sr_ValidateRegistration. rewrite Hintent. cbn [sr_Action sr_DesiredNodeGeneration sr_OperationID sr_Current].
    rewrite Hr bool_decide_eq_true_2 //. cbn [negb orb reject mbind result_bind N.eqb String.eqb]. apply identity_check.
  - intros g [Hg1 Hg2]. unfold dsr_Validate. cbn. rewrite Hov Hrv Ho Hnew. cbn [wrap mbind result_bind]. rewrite String.eqb_refl Hc Hone.
    cbn [negb reject mbind result_bind orb it_DesiredNodeGeneration intent]. rewrite N.eqb_refl (proj2 (N.ltb_ge _ _) Hg1) (Hnext g ltac:(lia)) N.eqb_refl. done.
  - intros g Hgp. destruct (finalize_id operationID (expected + 2)%N g Hov ltac:(lia) ltac:(lia)) as (finalizeID & Hf & Hfv). exists finalizeID. split.
    + intros id. unfold sr_ValidateFinalization. rewrite Hintent. cbn [sr_Action sr_DesiredNodeGeneration sr_OperationID sr_Current sr_Target it_DesiredNodeGeneration intent].
      rewrite bool_decide_eq_true_2 // N.eqb_refl Hc Hone Hov Hf. assert (Hoe : String.eqb operationID "" = false).
      { apply String.eqb_neq. intros ->. by vm_compute in Hov. }
      rewrite Hoe. cbn [negb orb reject mbind result_bind is_ok]. apply identity_check.
    + intros g' Hlt. unfold fr_Validate, next_or_zero. cbn. rewrite Hov Hfv Hid (Hnext expected ltac:(lia)) (Hnext (expected + 1)%N ltac:(lia)) Hf Hc Ht Hone.
      cbn [wrap mbind result_bind is_ok]. replace (expected + 1 + 1)%N with (expected + 2)%N by lia. rewrite N.eqb_refl String.eqb_refl.
      rewrite (proj2 (N.eqb_neq g 0) ltac:(lia)) (proj2 (N.leb_gt g' g) ltac:(lia)). done.
Qed.
End identifiers.

(** ** Witnesses *)

(** Any function to 32 bytes will do. *)
#[local] Instance sample_sum : Sha256.
Proof. refine {| Sum256 text := replicate 32 (N.of_nat (String.length text) mod 256)%N |}; intros text.
  - apply length_replicate.
  - apply Forall_replicate. by apply N.mod_lt.
Defined.

Lemma switch_identity_is_stable_witness :
  ∃ requestID, SwitchRequestID (MkSwitchIntentTarget "0b1d4e6a-1111-4a2b-8c3d-000000000001" TransportRestricted 4 6) TransportStandard 9 = Ok requestID ∧
    sr_ValidateRegistration (MkDeferredSwitchRequest SwitchMutationRegister TransportStandard TransportRestricted 4 0 "")
      "0b1d4e6a-1111-4a2b-8c3d-000000000001" 9 requestID = Ok (MkSwitchIntentTarget "0b1d4e6a-1111-4a2b-8c3d-000000000001" TransportRestricted 4 6).
Proof.
  destruct (switch_identity_is_stable "0b1d4e6a-1111-4a2b-8c3d-000000000001" TransportStandard TransportRestricted 4 9)
    as (intent & requestID & operationID & Hi & Hr & _ & Hreg & _); [by vm_compute|done|done|done|done|by vm_compute|done|].
  assert (Hi' : intent = MkSwitchIntentTarget "0b1d4e6a-1111-4a2b-8c3d-000000000001" TransportRestricted 4 6) by (vm_compute in Hi; congruence).
  rewrite Hi' in Hr, Hreg. exists requestID. split; [exact Hr|]. by apply Hreg.
Defined.
