(* ===== verification/Provider.v ===== *)
(** * Transport providers ([internal/transport/provider.go], [manager.go])

    A provider owns one transport implementation; the manager knows which of the two is
    selected and asks for their health without ever choosing between them.  Providers are
    the class [Providers]; candidates are opaque but for their descriptor. *)

From S2P Require Import Prelude GoText GoConv GoNet GoTime Proc Types Checks Resources Identity Expose SwitchIntent.

Local Open Scope string_scope.
Local Open Scope list_scope.

(** ** Descriptors and observations *)

Record CandidateDescriptor := MkCandidateDescriptor {
  cd_OwnerKind : TargetKind;
  cd_OwnerID : string;
  cd_Kind : TransportKind;
  cd_CredentialGeneration : N;
  cd_ConfigHash : string
}.
#[export] Instance CandidateDescriptor_eq_dec : EqDecision CandidateDescriptor.
Proof. solve_decision. Defined.

Definition DescriptorFromTransport (value : Transport) : CandidateDescriptor :=
  MkCandidateDescriptor (tr_OwnerKind value) (tr_OwnerID value) (tr_Kind value) (tr_CredentialGeneration value) (tr_ConfigHash value).

(** [strings.TrimSpace(text) == ""] *)
Definition blank (text : string) : bool := String.eqb (TrimSpace text) "".

Definition owner_supported (kind : TargetKind) : bool := match kind with TargetNode | TargetClient => true | TargetUnsupported _ => false end.

Definition descriptor_Validate (descriptor : CandidateDescriptor) : result unit :=
  reject (negb (owner_supported (cd_OwnerKind descriptor))) (Message "unsupported transport owner kind");;
  reject (blank (cd_OwnerID descriptor)) (Message "transport owner ID is required");;
  reject (negb (isTransportKind (cd_Kind descriptor))) (Message "unsupported transport kind");;
  reject (cd_CredentialGeneration descriptor =? 0)%N (Message "transport credential generation must be positive");;
  reject (negb (String.length (cd_ConfigHash descriptor) =? 64)%nat) (Message "transport config hash must be a digest");;
  reject (negb (str_forall hex_lower (cd_ConfigHash descriptor))) (Message "transport config hash must be a digest").

(** The request to render one transport. *)
Record RenderRequest := MkRenderRequest { rq_Transport : Transport }.
Definition rq_Validate (request : RenderRequest) : result unit :=
  wrap "validate transport render request" (transport_Validate (rq_Transport request)).

(** Whose transport is meant. *)
Record TransportIdentity := MkTransportIdentity {
  id_OwnerKind : TargetKind;
  id_OwnerID : string;
  id_CredentialGeneration : N
}.
#[export] Instance TransportIdentity_eq_dec : EqDecision TransportIdentity.
Proof. solve_decision. Defined.

Definition IdentityFromTransport (value : Transport) : TransportIdentity :=
  MkTransportIdentity (tr_OwnerKind value) (tr_OwnerID value) (tr_CredentialGeneration value).

Definition id_Validate (identity : TransportIdentity) : result unit :=
  reject (negb (owner_supported (id_OwnerKind identity))) (Message "unsupported transport owner kind");;
  reject (blank (id_OwnerID identity)) (Message "transport owner ID is required");;
  reject (id_CredentialGeneration identity =? 0)%N (Message "transport credential generation must be positive").

Record DrainRequest := MkDrainRequest { dq_Identity : TransportIdentity; dq_Deadline : time }.

Definition dq_Validate (request : DrainRequest) (now : time) : result unit :=
  id_Validate (dq_Identity request);;
  reject (IsZero (dq_Deadline request) || negb (Before now (dq_Deadline request))) (Message "transport drain deadline must be in the future").

Inductive RuntimeRole := RuntimeActive | RuntimeStandby | RuntimeRoleUnsupported (raw : string).
#[export] Instance RuntimeRole_eq_dec : EqDecision RuntimeRole.
Proof. solve_decision. Defined.

Inductive HealthCondition := HealthHealthy | HealthDegraded | HealthUnavailable | HealthConditionUnsupported (raw : string).
#[export] Instance HealthCondition_eq_dec : EqDecision HealthCondition.
Proof. solve_decision. Defined.

(** [Health] *)
Record TransportHealth := MkTransportHealth {
  he_Identity : TransportIdentity;
  he_Kind : TransportKind;
  he_Role : RuntimeRole;
  he_Condition : HealthCondition;
  he_Code : string
}.

Definition he_Validate (health : TransportHealth) : result unit :=
  id_Validate (he_Identity health);;
  reject (negb (isTransportKind (he_Kind health))) (Message "unsupported transport kind");;
  reject (match he_Role health with RuntimeRoleUnsupported _ => true | _ => false end) (Message "unsupported transport runtime role");;
  reject (match he_Condition health with HealthConditionUnsupported _ => true | _ => false end) (Message "unsupported transport health condition");;
  reject (blank (he_Code health)) (Message "transport health code is required").

Inductive ProbeState := ProbePassed | ProbeFailed | ProbeStateUnsupported (raw : string).
#[export] Instance ProbeState_eq_dec : EqDecision ProbeState.
Proof. solve_decision. Defined.

(** [ProbeResult] of one path of the transport. *)
Record PathProbe := MkPathProbe { pb_State : ProbeState; pb_Code : string }.

Definition pb_Validate (probe : PathProbe) : result unit :=
  reject (match pb_State probe with ProbeStateUnsupported _ => true | _ => false end) (Message "unsupported transport probe state");;
  reject (blank (pb_Code probe)) (Message "transport probe code is required").

Record TestResult := MkTestResult {
  te_Control : PathProbe;
  te_ReverseTunnel : PathProbe;
  te_SelectedTCP : PathProbe;
  te_SelectedUDP : PathProbe
}.

Definition te_Validate (result : TestResult) : Prelude.result unit :=
  range_check (λ _ probe, wrap "probe" (pb_Validate probe)) [te_Control result; te_ReverseTunnel result; te_SelectedTCP result; te_SelectedUDP result].

Definition te_Ready (result : TestResult) : bool :=
  is_ok (te_Validate result) && bool_decide (pb_State (te_Control result) = ProbePassed) && bool_decide (pb_State (te_ReverseTunnel result) = ProbePassed)
  && bool_decide (pb_State (te_SelectedTCP result) = ProbePassed) && bool_decide (pb_State (te_SelectedUDP result) = ProbePassed).

(** ** Providers

    [P] are the providers, [C] the candidates they render ([None] is a nil candidate), [W]
    the world they act on.  Every call is bounded by a context. *)
Class Providers (W P C : Type) := {
  provider_Kind : P → TransportKind;
  Descriptor : C → CandidateDescriptor;
  provider_Render : P → call_bound → RenderRequest → W → result (option C) * W;
  provider_Prepare : P → call_bound → C → W → result unit * W;
  provider_Validate : P → call_bound → C → W → result unit * W;
  (** The report is returned beside the error. *)
  provider_StartTest : P → call_bound → C → W → (TestResult * option error) * W;
  provider_Activate : P → call_bound → C → W → result unit * W;
  provider_Health : P → call_bound → TransportIdentity → W → result TransportHealth * W;
  provider_Drain : P → call_bound → DrainRequest → W → result unit * W;
  provider_Rollback : P → call_bound → C → W → result unit * W
}.

(** The calls a workflow makes, with their outcome. *)
Inductive provider_event (P C : Type) :=
  | Rendered (p : P) (t : Transport) (r : result (option C))
  | Prepared (p : P) (c : C) (r : result unit)
  | CandidateChecked (p : P) (c : C) (r : result unit)
  | Tested (p : P) (c : C) (checks : TestResult) (failure : option error)
  | ActivationTried (p : P) (c : C) (r : result unit)
  | HealthSeen (p : P) (r : result TransportHealth)
  | DrainTried (p : P) (q : DrainRequest) (r : result unit)
  | RolledBack (p : P) (c : C) (r : result unit)
  | StateRead (r : result State)
  | StateWritten (expected : N) (candidate : State) (r : result unit).
Arguments Rendered {P C}.
Arguments Prepared {P C}.
Arguments CandidateChecked {P C}.
Arguments Tested {P C}.
Arguments ActivationTried {P C}.
Arguments HealthSeen {P C}.
Arguments DrainTried {P C}.
Arguments RolledBack {P C}.
Arguments StateRead {P C}.
Arguments StateWritten {P C}.

(** ** Selections and the registry *)

Record Selection := MkSelection { sl_Active : TransportKind; sl_Standby : TransportKind }.

Definition NewSelection (active : TransportKind) : result Selection :=
  reject (negb (isTransportKind active)) (Message "unsupported active transport");;
  Ok (MkSelection active (if bool_decide (active = TransportStandard) then TransportRestricted else TransportStandard)).

Definition sl_Validate (selection : Selection) : result unit :=
  reject (negb (isTransportKind (sl_Active selection))) (Message "unsupported active transport");;
  reject (negb (isTransportKind (sl_Standby selection))) (Message "unsupported standby transport");;
  reject (bool_decide (sl_Active selection = sl_Standby selection)) (Message "active and standby transport must differ").

Section manager.
Context {W P C : Type} `{!Providers W P C}.

(** The map of the registry. *)
Record Registry := MkRegistry { rg_providers : list (TransportKind * P) }.

Definition lookup_kind (kind : TransportKind) (providers : list (TransportKind * P)) : option P :=
  snd <$> List.find (λ entry, bool_decide (entry.1 = kind)) providers.

(** [None] is a nil provider. *)
Definition NewRegistry (providers : list (option P)) : result Registry :=
  registered ← range (λ _ provider registered,
    match provider with
    | None => Err (Message "transport provider is nil")
    | Some provider =>
        let kind := provider_Kind provider in
        reject (negb (isTransportKind kind)) (Message "transport provider has unsupported kind");;
        reject (match lookup_kind kind registered with Some _ => true | None => false end) (Message "duplicate transport provider");;
        Ok (registered ++ [(kind, provider)])
    end) providers [];
  range_check (λ _ kind, reject (match lookup_kind kind registered with Some _ => false | None => true end) (Message "transport provider is required"))
    [TransportStandard; TransportRestricted];;
  Ok (MkRegistry registered).

Definition registry_Provider (registry : Registry) (kind : TransportKind) : result P :=
  match lookup_kind kind (rg_providers registry) with Some provider => Ok provider | None => Err (Message "transport provider is not registered") end.

Record Manager := MkManager { mg_identity : TransportIdentity; mg_selection : Selection; mg_registry : Registry }.

Definition NewManager (identity : TransportIdentity) (selection : Selection) (registry : Registry) : result Manager :=
  id_Validate identity;;
  sl_Validate selection;;
  Ok (MkManager identity selection registry).

Definition validateHealth (manager : Manager) (health : TransportHealth) (kind : TransportKind) (role : RuntimeRole) : result unit :=
  he_Validate health;;
  reject (negb (bool_decide (he_Identity health = mg_identity manager))) (Message "health for a different transport identity");;
  reject (negb (bool_decide (he_Kind health = kind))) (Message "health for a different transport");;
  reject (negb (bool_decide (he_Role health = role))) (Message "transport reports another role").

Definition transport_run (A : Type) : Type := proc W (provider_event P C) A.

(** A call that yields an error ends the program with it. *)
Definition and_then {A B} (m : transport_run (result A)) (k : A → transport_run (result B)) : transport_run (result B) :=
  r ← m; match r with Err e => mret (Err e) | Ok a => k a end.

Definition ask_health (manager : Manager) (bound : call_bound) (kind : TransportKind) (role : RuntimeRole) : transport_run (result TransportHealth) :=
  match registry_Provider (mg_registry manager) kind with
  | Err e => mret (Err e)
  | Ok provider =>
      and_then (call (provider_Health provider bound (mg_identity manager)) (λ r, [HealthSeen provider r]) ≫= λ r, mret (wrap "observe transport" r))
        (λ health, mret (wrap "observe transport" (validateHealth manager health kind role);; Ok health))
  end.

Definition ObserveActive (manager : Manager) (bound : call_bound) : transport_run (result TransportHealth) :=
  ask_health manager bound (sl_Active (mg_selection manager)) RuntimeActive.

(** The active transport is observed first; the observations made before an error are
    dropped by the callers. *)
Definition CheckSteadyState (manager : Manager) (bound : call_bound) : transport_run (result (TransportHealth * TransportHealth)) :=
  and_then (ask_health manager bound (sl_Active (mg_selection manager)) RuntimeActive) (λ active,
  and_then (ask_health manager bound (sl_Standby (mg_selection manager)) RuntimeStandby) (λ standby, mret (Ok (active, standby)))).
End manager.
Arguments Registry P : clear implicits.
Arguments Manager P : clear implicits.
