(* ===== verification/SwitchState.v ===== *)
(** * States of a transport switch ([internal/transport/switch_workflow.go])

    The pure part of the workflow: the pair of transports of the local node, the state in
    which the other one is selected, and the state that finalizes a switch the gateway has
    confirmed. *)

From S2P Require Import Prelude GoText GoConv GoNet GoTime Types Checks Identity Expose Resources StateValidate Operation Transition NodeOperation SwitchIntent.

Local Open Scope string_scope.
Local Open Scope list_scope.

(** A transport of the node that is configured. *)
Definition configured_for (nodeID : string) (t : Transport) : bool :=
  bool_decide (tr_OwnerKind t = TargetNode) && String.eqb (tr_OwnerID t) nodeID && negb (bool_decide (tr_State t = TransportDisabled)).

Definition local_transports (nodeID : string) (transports : list Transport) : gmap TransportKind Transport :=
  foldl (λ m t, if configured_for nodeID t then <[tr_Kind t := t]> m else m) ∅ transports.

Definition localNodeSwitchPair (state : State) : result (Node * gmap TransportKind Transport) :=
  match items (st_Nodes state) with
  | [node] =>
      reject (negb (bool_decide (host_Role (st_Host state) = RoleNode)) || negb (bool_decide (node_Lifecycle node = LifecycleActive))
              || match node_Gateway node with None => true | Some _ => false end) (Message "requires one joined active local node");;
      let transports := local_transports (node_ID node) (items (st_Transports state)) in
      range_check (λ _ required, reject (match transports !! required with Some _ => false | None => true end)
        (Message "requires configured standard and restricted transports")) [TransportStandard; TransportRestricted];;
      Ok (node, transports)
  | _ => Err (Message "requires one joined active local node")
  end.

(** [transports[kind].State == TransportStandby], false for a missing entry. *)
Definition is_standby (transports : gmap TransportKind Transport) (kind : TransportKind) : bool :=
  match transports !! kind with Some t => bool_decide (tr_State t = TransportStandby) | None => false end.

Definition switch_node (nodeID : string) (target : TransportKind) (node : Node) : Node :=
  if String.eqb (node_ID node) nodeID then set_node_ActiveTransport target node else node.

Definition switch_transport (nodeID : string) (previous target : TransportKind) (t : Transport) : Transport :=
  if negb (bool_decide (tr_OwnerKind t = TargetNode)) || negb (String.eqb (tr_OwnerID t) nodeID) then t
  else if bool_decide (tr_Kind t = previous) then set_tr_State TransportStandby t
  else if bool_decide (tr_Kind t = target) then set_tr_State TransportActive t
  else t.

Definition switchedNodeState (before : State) (nodeID : string) (previous target : TransportKind) : result State :=
  nextGeneration ← wrap "advance transport switch state generation" (NextGeneration (st_Generation before));
  let candidate := set_st_Transports (append None (switch_transport nodeID previous target <$> items (st_Transports before)))
    (set_st_Nodes (append None (switch_node nodeID target <$> items (st_Nodes before))) (set_st_Generation nextGeneration before)) in
  wrap "build transport switch state" (ValidateTransition before candidate);;
  Ok candidate.

Definition DesiredNodeSwitchState (before : State) (target : TransportKind) : result State :=
  wrap "validate node transport switch source" (Validate before);;
  reject (negb (isTransportKind target)) (Message "unsupported transport switch target");;
  '(node, transports) ← localNodeSwitchPair before;
  if bool_decide (target = node_ActiveTransport node) then Ok before else
  reject (negb (is_standby transports target)) (Message "transport switch target must be standby");;
  switchedNodeState before (node_ID node) (node_ActiveTransport node) target.

(** ** Switches that wait for the gateway *)

Definition stale : error := Sentinel ErrTransportSwitchStale.

(** The checks of the retained operation against the state. *)
Definition retained_intent (current : State) (operation : Operation) : result SwitchIntentTarget :=
  retained ← PendingNodeOperation current;
  reject (negb (bool_decide (retained = Some operation)) || negb (bool_decide (op_Type operation = OperationTransportSwitch))
          || negb (bool_decide (op_State operation = OperationPending)) || negb (String.eqb (op_TargetKind operation) "transport")) stale;;
  match ParseSwitchIntentTarget (op_TargetID operation) with
  | Err _ => Err stale
  | Ok intent =>
      reject (negb (match items (st_Nodes current) with node :: _ => String.eqb (it_NodeID intent) (node_ID node) | [] => false end)) stale;;
      match NextGeneration (it_ExpectedNodeGeneration intent), NextGeneration (st_Generation current) with
      | Ok pendingGeneration, Ok desiredGeneration =>
          reject (negb (pendingGeneration =? st_Generation current)%N || negb (desiredGeneration =? it_DesiredNodeGeneration intent)%N) stale;;
          Ok intent
      | _, _ => Err stale
      end
  end.

Definition DeferredSwitchDesiredState (current : State) (operation : Operation) : result (State * SwitchIntentTarget) :=
  wrap "validate deferred transport switch state" (Validate current);;
  intent ← retained_intent current operation;
  match localNodeSwitchPair current with
  | Err _ => Err stale
  | Ok (node, transports) =>
      reject (negb (String.eqb (node_ID node) (it_NodeID intent)) || bool_decide (node_ActiveTransport node = it_Target intent)
              || negb (is_standby transports (it_Target intent))) stale;;
      candidate ← switchedNodeState current (node_ID node) (node_ActiveTransport node) (it_Target intent);
      reject (negb (st_Generation candidate =? it_DesiredNodeGeneration intent)%N) stale;;
      Ok (candidate, intent)
  end.

(** Every step of the operation is completed, then the operation itself. *)
Definition complete_operation (step_label label : string) (operation : Operation) (at_ : time) : result Operation :=
  completed ← range (λ _ step completed, wrap step_label (op_TransitionStep completed (step_Name step) OperationCompleted at_))
    (items (op_Steps operation)) operation;
  wrap label (op_Transition completed OperationCompleted at_ "").

Definition completeDeferredSwitchOperation : Operation → time → result Operation :=
  complete_operation "complete deferred transport switch step" "complete deferred transport switch operation".

Section finalize.
Context `{!Sha256}.

Definition FinalizeDeferredSwitchNodeState (current : State) (operation : Operation) (receipt : FinalizedSwitchReceipt) (at_ : time)
    : result (State * Operation) :=
  wrap "validate transport switch finalization receipt" (fr_Validate receipt);;
  '(desired, intent) ← DeferredSwitchDesiredState current operation;
  match items (st_Nodes current) with
  | [] => Err stale
  | node :: _ =>
      match node_Gateway node with
      | None => Err stale
      | Some gateway =>
          reject (negb (String.eqb (fr_OperationID receipt) (op_ID operation)) || negb (String.eqb (fr_NodeID receipt) (node_ID node))
                  || negb (bool_decide (fr_Previous receipt = node_ActiveTransport node)) || negb (bool_decide (fr_Active receipt = it_Target intent))
                  || negb (fr_ExpectedNodeGeneration receipt =? it_ExpectedNodeGeneration intent)%N
                  || negb (fr_DesiredNodeGeneration receipt =? it_DesiredNodeGeneration intent)%N
                  || (fr_GatewayGeneration receipt <? gw_LastKnownGatewayGeneration gateway)%N) stale;;
          completed ← completeDeferredSwitchOperation operation (to_utc at_);
          match list_find (λ o, op_ID o = op_ID operation) (items (st_Operations desired)) with
          | None => Err stale
          | Some (operationIndex, _) =>
              let trust := set_gw_PendingRequestID "" (set_gw_LastKnownGatewayGeneration (fr_GatewayGeneration receipt) gateway) in
              let desired := set_st_Operations (Some (<[operationIndex := completed]> (items (st_Operations desired)))) desired in
              let desired := set_st_Nodes (Some (alter (set_node_Gateway (Some trust)) 0 (items (st_Nodes desired)))) desired in
              wrap "finalize deferred node transport switch" (ValidateTransition current desired);;
              Ok (desired, completed)
          end
      end
  end.
End finalize.
