(* ===== verification/SwitchFacts.v ===== *)
(** * The states of a switch: samples and facts

    A joined node with both transports, and the same node while it retains a switch that
    the gateway registered; the witnesses of the theorems about switches evaluate on them.  Then what the states
    before and after a switch satisfy. *)

From S2P Require Import Prelude GoText GoConv GoNet GoTime Types Checks Identity Address Expose Idempotency Resources StateValidate Samples StateFacts Operation Transition NodeOperation SwitchIntent SwitchState.

Local Open Scope string_scope.
Local Open Scope list_scope.

(** Any function to 32 bytes will do for the hash. *)
#[export] Instance length_sum : Sha256.
Proof. refine {| Sum256 text := replicate 32 (N.of_nat (String.length text) mod 256)%N |}; intros text.
  - apply length_replicate.
  - apply Forall_replicate. by apply N.mod_lt.
Defined.

Definition restricted_transport (tail : string) (s : TransportState) : Transport :=
  MkTransport 1 TargetNode (uuid tail) TransportRestricted s "mihomo" ProtocolTCP 8443 1 "restricted:key" "" "www.example.com" sample_hash.

(** The selection of [standard] with a restricted standby. *)
Definition pair_state (generation : N) (pending : string) (operations : list Operation) : State :=
  MkState 1 generation node_host (Some old_handshake) None None None (Some []) (Some [joined_node pending]) (Some []) (Some []) (Some [])
    (Some [standard_transport TargetNode "11" TransportDegraded; restricted_transport "11" TransportStandby])
    (Some []) (Some []) (Some operations) (Some []) (Some []) sample_manifest.
Definition idle_pair_state : State := pair_state 4 "" [].

Definition sample_intent_target : SwitchIntentTarget := MkSwitchIntentTarget (uuid "11") TransportRestricted 4 6.
Definition get_ok (r : result string) : string := match r with Ok x => x | Err _ => "" end.
Definition switch_request : string := get_ok (SwitchRequestID sample_intent_target TransportStandard 9).
Definition switch_operation_id : string := get_ok (SwitchOperationID switch_request).
Definition retained_operation : Operation :=
  MkOperation 1 switch_operation_id OperationTransportSwitch OperationPending "transport" (it_String sample_intent_target) switch_request 9 11
    (Some ((λ name, MkOperationStep name OperationPending (day 2)) <$> SwitchOperationStepNames)) "" (day 2) (day 2).
Definition awaiting_state : State := pair_state 5 switch_request [retained_operation].
Definition finalized_receipt : FinalizedSwitchReceipt :=
  MkFinalizedSwitchReceipt switch_operation_id (get_ok (SwitchFinalizeRequestID switch_operation_id 6 12)) (uuid "11")
    TransportStandard TransportRestricted 12 13 4 6.

Lemma idle_pair_state_valid : Validate idle_pair_state = Ok ().
Proof. by vm_compute. Qed.

Lemma awaiting_state_valid : Validate awaiting_state = Ok ().
Proof. by vm_compute. Qed.

(** * Facts about the states of a switch

    A node state in which both transports are configured can always be switched: the
    candidate passes every check of the validator and of the transition. *)

(** ** Completeness of the transport checks *)

Lemma range_succeeds {A S} (body : nat → A → S → result S) (P : list A → S → Prop) xs s0 :
  P [] s0 → (∀ p x q s, xs = p ++ x :: q → P p s → ∃ s', body (length p) x s = Ok s' ∧ P (p ++ [x]) s') → ∃ s, range body xs s0 = Ok s.
Proof. intros H0 Hs. destruct (range_total body P xs s0 Hs H0) as (s & ? & _). by exists s. Qed.

Lemma validate_transports_complete state nodes clients :
  NoDup ((λ t, (tr_owner t, tr_Kind t)) <$> items (st_Transports state)) →
  (∀ t, t ∈ items (st_Transports state) → transport_agrees state nodes clients t) →
  ∃ states, validate_transports state nodes clients = Ok states.
Proof.
  intros Hn Ha. unfold validate_transports. apply (range_succeeds _ (λ p (states : transport_states),
    ∀ o k s, states_of states o !! k = Some s → ∃ t, t ∈ p ∧ tr_owner t = o ∧ tr_Kind t = k)).
  { intros o k s. by rewrite /states_of lookup_empty. }
  intros p t q m Heq Hm. rewrite Heq in Hn, Ha. destruct (Ha t) as (Hv & Ht & Hg & Hh); [set_solver|].
  rewrite Hv Ht Hg N.eqb_refl. cbn [wrap negb reject mbind result_bind].
  assert (Hk : bool_decide (tr_Kind t = TransportRestricted) && match st_HandshakeHost state with
     | None => true | Some host => negb (String.eqb (tr_HandshakeHost t) (hh_Hostname host)) end = false).
  { case_bool_decide as Hr; [|done]. destruct (Hh Hr) as (host & -> & ->). by rewrite String.eqb_refl. }
  rewrite Hk. cbn [reject mbind result_bind]. fold (tr_owner t). fold (states_of m (tr_owner t)).
  rewrite bool_decide_eq_false_2.
  { intros [s (t' & Hin & Ho & Hk')%Hm]. rewrite fmap_app fmap_cons in Hn. apply NoDup_app in Hn as (_ & Hd & _).
    apply (Hd (tr_owner t, tr_Kind t)); [|left]. rewrite -Ho -Hk'. by apply (list_elem_of_fmap_2 (λ t, (tr_owner t, tr_Kind t))). }
  eexists. split; [done|]. intros o k s. destruct (decide (o = tr_owner t)) as [->|Hne].
  - unfold states_of at 1. rewrite lookup_insert_eq /= lookup_insert_Some. intros [[<- _]|[_ (t' & ?)%Hm]]; [exists t|exists t']; set_solver.
  - unfold states_of. rewrite lookup_insert_ne // -/(states_of m o). intros (t' & ?)%Hm. exists t'. set_solver.
Qed.

Lemma validateActiveTransport_complete kind id active states ts :
  (∀ o k s, states_of states o !! k = Some s ↔ ∃ t, t ∈ ts ∧ tr_owner t = o ∧ tr_Kind t = k ∧ tr_State t = s) →
  transports_follow ts (targetKey kind id) active LifecycleActive → validateActiveTransport kind id active LifecycleActive states = Ok ().
Proof.
  intros Hst ((t & Ht & Ho & Hk & Hs) & Hother). unfold validateActiveTransport. fold (states_of states (targetKey kind id)).
  assert (Ha : states_of states (targetKey kind id) !! active = Some (tr_State t)) by (apply Hst; eauto).
  rewrite (bool_decide_eq_false_2 (_ = ∅)); [intros He; by rewrite He lookup_empty in Ha|]. rewrite Ha.
  rewrite (bool_decide_eq_false_2 (LifecycleActive = LifecycleDeleted)) // (bool_decide_eq_false_2 (LifecycleActive = LifecycleRevoked)) //.
  cbn [reject mbind result_bind].
  assert (bool_decide (tr_State t = TransportActive) || bool_decide (tr_State t = TransportDegraded) = true) as ->.
  { rewrite orb_true_iff !bool_decide_eq_true. done. }
  cbn [negb reject mbind result_bind]. rewrite bool_decide_eq_true_2 //. intros k s (t' & Ht' & Ho' & <- & <-)%Hst.
  destruct (decide (tr_Kind t' = active)); [by left|right]. by apply Hother.
Qed.

Lemma NoDup_key_inj {A K} (key : A → K) l x y : NoDup (key <$> l) → x ∈ l → y ∈ l → key x = key y → x = y.
Proof.
  intros Hn [i Hi]%list_elem_of_lookup [j Hj]%list_elem_of_lookup Heq. assert (i = j) as ->; [|congruence].
  eapply NoDup_lookup; [exact Hn| |]; rewrite list_lookup_fmap ?Hi ?Hj /= ?Heq //.
Qed.

(** ** The transports of a joined node *)

Section local_node.
Context (state : State) (node : Node) (trust : GatewayTrust).
Context (Hvalid : Validate state = Ok ()) (Henrolled : enrolled_node state = Some (node, trust)).
Let ts := items (st_Transports state).

Lemma local_owner t : t ∈ ts → tr_OwnerKind t = TargetNode ∧ tr_OwnerID t = node_ID node.
Proof.
  intros [i Ht]%list_elem_of_lookup. destruct (node_host_empty _ _ _ Hvalid Henrolled) as (_ & _ & _ & _ & _ & _ & Hloc).
  unfold validate_local in Hloc. do 2 ok_step Hloc. pose proof (proj1 (range_check_ok _ _ _) G0 i t Ht) as Hb. cbn beta in Hb. ok_inv Hb.
  by facts.
Qed.

Lemma local_checked : ∃ nodes clients states, validate_transports state nodes clients = Ok states ∧ validate_active_transports state states = Ok ().
Proof. pose proof Hvalid as (nodes & clients & ? & ? & states & ? & Hv)%Validate_parts. exists nodes, clients, states. by destruct Hv. Qed.

Lemma local_valid t : t ∈ ts → transport_Validate t = Ok ().
Proof. intros Ht. destruct local_checked as (nodes & clients & states & (_ & _ & Ha)%validate_transports_ok & _). by destruct (Ha t Ht). Qed.

Lemma local_supported t : t ∈ ts → isTransportKind (tr_Kind t) = true.
Proof.
  intros H%local_valid. unfold transport_Validate in H. do 4 ok_step H. by destruct (tr_Kind t).
Qed.

Lemma local_kinds : NoDup (tr_Kind <$> ts).
Proof.
  destruct local_checked as (nodes & clients & states & (Hn & _ & _)%validate_transports_ok & _). fold ts in Hn.
  assert (Hf : (λ t, (tr_owner t, tr_Kind t)) <$> ts = pair (targetKey TargetNode (node_ID node)) <$> (tr_Kind <$> ts)).
  { rewrite -list_fmap_compose. apply list_fmap_ext. intros i t Ht%list_elem_of_lookup_2. destruct (local_owner t Ht) as [Ho Hi].
    unfold compose, tr_owner. by rewrite Ho Hi. }
  rewrite Hf in Hn. by apply NoDup_fmap_1 in Hn.
Qed.

Lemma local_follow : node_Lifecycle node = LifecycleActive →
  transports_follow ts (targetKey TargetNode (node_ID node)) (node_ActiveTransport node) LifecycleActive.
Proof.
  intros Hl. destruct local_checked as (nodes & clients & states & (_ & Hst & _)%validate_transports_ok & Hac).
  pose proof Henrolled as (_ & Hn & _)%enrolled_node_spec. unfold validate_active_transports in Hac. do 1 ok_step Hac. rewrite Hn in G.
  pose proof (proj1 (range_check_ok _ _ _) G 0%nat node eq_refl) as Hb. cbn beta in Hb. rewrite Hl in Hb.
  by eapply validateActiveTransport_ok.
Qed.

(** ** The switched state is valid *)

Context (target : TransportKind) (Hlife : node_Lifecycle node = LifecycleActive) (Hkind : isTransportKind target = true)
  (Hother : target ≠ node_ActiveTransport node) (Hconfigured : target ∈ tr_Kind <$> ts).
Let sw := switch_transport (node_ID node) (node_ActiveTransport node) target.

Lemma switch_transport_keeps t : tr_owner (sw t) = tr_owner t ∧ tr_Kind (sw t) = tr_Kind t ∧ tr_OwnerKind (sw t) = tr_OwnerKind t ∧
  tr_OwnerID (sw t) = tr_OwnerID t ∧ tr_CredentialGeneration (sw t) = tr_CredentialGeneration t ∧ tr_HandshakeHost (sw t) = tr_HandshakeHost t.
Proof. unfold sw, switch_transport. repeat case_match; by destruct t. Qed.

Lemma switch_transport_valid t : transport_Validate t = Ok () → transport_Validate (sw t) = Ok ().
Proof.
  assert (Hset : ∀ s, (∀ raw, s ≠ TransportStateUnsupported raw) → transport_Validate t = Ok () → transport_Validate (set_tr_State s t) = Ok ()).
  { intros s Hs. unfold transport_Validate. cbn [set_tr_State tr_SchemaVersion tr_OwnerKind tr_OwnerID tr_Kind tr_State
      tr_CredentialGeneration tr_CredentialRef tr_ConfigHash tr_Provider tr_Protocol tr_Port tr_HandshakeHost tr_PublicKey].
    intros H. do 8 ok_step H. units. rewrite G G0 G1 G2 G4 G5 G6. destruct s as [| | | |raw]; [exact H..|by destruct (Hs raw)]. }
  unfold sw, switch_transport. repeat case_match; auto.
Qed.

(** The active transport becomes a standby and the target active. *)
Lemma switch_transport_state t : t ∈ ts →
  tr_State (sw t) = if decide (tr_Kind t = target) then TransportActive else TransportStandby.
Proof.
  intros Ht. destruct (local_owner t Ht) as [Ho Hi]. unfold sw, switch_transport. rewrite Ho Hi String.eqb_refl bool_decide_eq_true_2 //.
  cbn [negb orb]. case_bool_decide as Hp.
  - rewrite decide_False; [congruence|]. by destruct t.
  - case_bool_decide as Hk; [rewrite decide_True //; by destruct t|]. rewrite decide_False //.
    destruct (local_follow Hlife) as [_ Hf]. apply Hf; [done| |done]. unfold tr_owner. by rewrite Ho Hi.
Qed.

Lemma switched_follow : transports_follow (sw <$> ts) (targetKey TargetNode (node_ID node)) target LifecycleActive.
Proof.
  split.
  - apply list_elem_of_fmap in Hconfigured as (t & Hk & Ht). exists (sw t). destruct (switch_transport_keeps t) as (Ho & Hk' & _).
    destruct (local_owner t Ht) as [Hok Hoi]. split_and!; [by apply list_elem_of_fmap_2|rewrite Ho /tr_owner; congruence|congruence|].
    left. rewrite switch_transport_state // decide_True //.
  - intros x (t & -> & Ht)%list_elem_of_fmap Ho Hk. destruct (switch_transport_keeps t) as (_ & Hk' & _).
    rewrite switch_transport_state // decide_False //. congruence.
Qed.

Lemma switched_checks trust' generation operations nodes clients states :
  validate_transports state nodes clients = Ok states →
  let state' := update_with state node trust' target (Some (sw <$> ts)) generation operations in
  ∃ states', validate_transports state' (update_node trust' target <$> nodes) clients = Ok states' ∧ validate_active_transports state' states' = Ok ().
Proof.
  intros (Hn & _ & Ha)%validate_transports_ok state'. fold ts in Hn, Ha.
  destruct (validate_transports_complete state' (update_node trust' target <$> nodes) clients) as [states' Hs'].
  - change (items (st_Transports state')) with (sw <$> ts). rewrite -list_fmap_compose.
    rewrite (list_fmap_ext _ (λ t, (tr_owner t, tr_Kind t)) ts) //. intros i t _. unfold compose. by destruct (switch_transport_keeps t) as (-> & -> & _).
  - change (items (st_Transports state')) with (sw <$> ts). intros x (t & -> & Ht)%list_elem_of_fmap. destruct (Ha t Ht) as (H1 & H2 & H3 & H4).
    destruct (switch_transport_keeps t) as (_ & Hk & Ho & Hi & Hc & Hh). unfold transport_agrees. rewrite Hk Ho Hi Hc Hh.
    rewrite update_targetExists update_owner_generation. split_and!; [by apply switch_transport_valid|done..].
  - exists states'. split; [done|]. apply validate_transports_ok in Hs' as (_ & Hst & _).
    unfold validate_active_transports. change (items (st_Nodes state')) with [update_node trust' target node].
    change (items (st_Clients state')) with (items (st_Clients state)). destruct (node_host_empty _ _ _ Hvalid Henrolled) as (_ & -> & _).
    apply bind_ok. exists (). split; [|done]. apply range_check_ok. intros i n [-> <-]%list_lookup_singleton_Some.
    change (node_Lifecycle (update_node trust' target node)) with (node_Lifecycle node). rewrite Hlife.
    apply (validateActiveTransport_complete _ _ _ _ (sw <$> ts)); [exact Hst|exact switched_follow].
Qed.

Lemma switched_local trust' generation operations :
  validate_local (update_with state node trust' target (Some (sw <$> ts)) generation operations) (node_ID node) = Ok ().
Proof.
  destruct (node_host_empty _ _ _ Hvalid Henrolled) as (_ & _ & _ & _ & _ & _ & Hloc). unfold validate_local in *. do 2 ok_step Hloc. units.
  cbn [update_with set_st_Transports set_st_Nodes set_st_Operations set_st_Generation st_Policies st_Exposes st_Transports].
  rewrite G. cbn [mbind result_bind]. apply bind_ok. exists (). split; [|exact Hloc]. apply range_check_ok.
  intros i x Hx%list_elem_of_lookup_2. apply list_elem_of_fmap in Hx as (t & -> & Ht). destruct (local_owner t Ht) as [Hok Hoi].
  destruct (switch_transport_keeps t) as (_ & _ & -> & -> & _). by rewrite Hok Hoi String.eqb_refl bool_decide_eq_true_2.
Qed.

Lemma target_supported raw : target ≠ TransportKindUnsupported raw.
Proof. by destruct target. Qed.

Lemma transports_present : is_nil (Some (sw <$> ts)) = false.
Proof. done. Qed.

(** The selection is switched together with any valid change of the trust and the operations. *)
Lemma switch_accepted trust' generation operations :
  let state' := update_with state node trust' target (Some (sw <$> ts)) generation operations in
  gw_Validate trust' = Ok () → gw_NodeCIDR trust' = gw_NodeCIDR trust → gw_GatewayOverlayIPv4 trust' = gw_GatewayOverlayIPv4 trust →
  NextGeneration (st_Generation state) = Ok generation → (∃ m reqs, validate_operations state' = Ok (m, reqs)) →
  validate_pending state' (gw_PendingRequestID trust') = Ok () → validate_operation_records (items (st_Operations state)) operations = Ok () →
  accepted state state'.
Proof.
  intros state' Hg Hc Ho Hgen Hops Hpend Hrec. assert (Hnz : generation ≠ 0%N).
  { unfold NextGeneration in Hgen. destruct (_ =? max_uint64)%N; [done|]. injection Hgen as <-. lia. }
  apply (update_with_accepted state node trust); try done; try exact target_supported.
  apply (update_with_valid state node trust); try done; try exact target_supported; try apply switched_local.
  intros nodes clients states Ht _. by apply (switched_checks _ _ _ _ _ states).
Qed.
End local_node.

(** ** The pair of transports *)

Definition switchable (state : State) (node : Node) : Prop :=
  (∃ trust, enrolled_node state = Some (node, trust)) ∧ node_Lifecycle node = LifecycleActive ∧
  TransportStandard ∈ tr_Kind <$> items (st_Transports state) ∧ TransportRestricted ∈ tr_Kind <$> items (st_Transports state).

Lemma local_transports_spec nodeID ts k t : NoDup (tr_Kind <$> ts) →
  local_transports nodeID ts !! k = Some t ↔ t ∈ ts ∧ configured_for nodeID t = true ∧ tr_Kind t = k.
Proof.
  unfold local_transports. induction ts as [|x ts IH] using rev_ind; intros Hn; [set_solver|]. rewrite fmap_app in Hn.
  apply NoDup_app in Hn as (Hn & Hd & _). rewrite foldl_app. cbn [foldl]. specialize (IH Hn).
  assert (Hnew : ∀ y, y ∈ ts → tr_Kind y ≠ tr_Kind x).
  { intros y Hy Heq. apply (Hd (tr_Kind x)); [rewrite -Heq; by apply list_elem_of_fmap_2|left]. }
  destruct (configured_for nodeID x) eqn:Hx.
  - rewrite lookup_insert_Some IH elem_of_app list_elem_of_singleton. split; [naive_solver|].
    intros ([Hin| ->] & Hc & <-); [right|by left]. split; [by apply not_eq_sym, Hnew|done].
  - rewrite IH elem_of_app list_elem_of_singleton. split; [naive_solver|]. intros ([?| ->] & ? & ?); [done|congruence].
Qed.

Section pair.
Context (state : State) (Hvalid : Validate state = Ok ()).

Lemma local_configured node trust t : enrolled_node state = Some (node, trust) → node_Lifecycle node = LifecycleActive →
  t ∈ items (st_Transports state) → configured_for (node_ID node) t = true.
Proof.
  intros He Hl Ht. destruct (local_owner _ _ _ Hvalid He t Ht) as [Ho Hi]. unfold configured_for. rewrite Ho Hi String.eqb_refl bool_decide_eq_true_2 //.
  rewrite bool_decide_eq_false_2 //. intros Hs. destruct (local_follow _ _ _ Hvalid He Hl) as [(a & Ha & _ & Hk & Has) Hf].
  destruct (decide (tr_Kind t = node_ActiveTransport node)) as [Heq|Hne].
  - assert (t = a) as ->; [|rewrite Hs in Has; by destruct Has].
    apply (NoDup_key_inj tr_Kind (items (st_Transports state))); [by eapply local_kinds|done..|congruence].
  - rewrite Hf // in Hs. unfold tr_owner. by rewrite Ho Hi.
Qed.

Lemma pair_lookup node trust k t : enrolled_node state = Some (node, trust) → node_Lifecycle node = LifecycleActive →
  local_transports (node_ID node) (items (st_Transports state)) !! k = Some t ↔ t ∈ items (st_Transports state) ∧ tr_Kind t = k.
Proof.
  intros He Hl. rewrite local_transports_spec; [by eapply local_kinds|]. split; [tauto|]. intros [Ht Hk].
  split_and!; [done|by eapply local_configured|done].
Qed.

Lemma pair_present node trust k : enrolled_node state = Some (node, trust) → node_Lifecycle node = LifecycleActive →
  is_Some (local_transports (node_ID node) (items (st_Transports state)) !! k) ↔ k ∈ tr_Kind <$> items (st_Transports state).
Proof.
  intros He Hl. rewrite list_elem_of_fmap. split.
  - intros [t Ht]. rewrite (pair_lookup node trust) // in Ht. destruct Ht. by exists t.
  - intros (t & -> & Ht). exists t. by rewrite (pair_lookup node trust).
Qed.

Lemma localNodeSwitchPair_ok node transports : localNodeSwitchPair state = Ok (node, transports) ↔
  switchable state node ∧ transports = local_transports (node_ID node) (items (st_Transports state)).
Proof.
  unfold localNodeSwitchPair, switchable. split.
  - destruct (items (st_Nodes state)) as [|n [|]] eqn:Hn; try done. intros H. do 2 ok_step H. injection H as -> <-.
    facts. destruct (node_Gateway node) as [trust|] eqn:Hg; [|done].
    assert (He : enrolled_node state = Some (node, trust)) by by apply enrolled_node_spec.
    pose proof (proj1 (range_check_ok _ _ _) G0 0%nat _ eq_refl) as Ks. pose proof (proj1 (range_check_ok _ _ _) G0 1%nat _ eq_refl) as Kr.
    cbn beta in Ks, Kr. split; [|done]. split_and!; [by exists trust|done|..]; apply (pair_present node trust); try done.
    + destruct (_ !! TransportStandard); [by eexists|done].
    + destruct (_ !! TransportRestricted); [by eexists|done].
  - intros [([trust He] & Hl & Hs & Hr) ->]. pose proof He as (Hrole & -> & Hg)%enrolled_node_spec.
    rewrite Hrole Hl Hg. rewrite !bool_decide_eq_true_2 //. cbn [negb orb reject mbind result_bind].
    apply (pair_present node trust) in Hs as [s Hs]; [|done..]. apply (pair_present node trust) in Hr as [r Hr]; [|done..].
    unfold range_check, range. cbn [range_loop]. by rewrite Hs Hr.
Qed.

(** In a valid state the transport that is not selected is a standby. *)
Lemma pair_standby node trust target : enrolled_node state = Some (node, trust) → node_Lifecycle node = LifecycleActive →
  target ∈ tr_Kind <$> items (st_Transports state) → target ≠ node_ActiveTransport node →
  is_standby (local_transports (node_ID node) (items (st_Transports state))) target = true.
Proof.
  intros He Hl Hin Hne. apply (pair_present node trust) in Hin as [t Ht]; [|done..]. unfold is_standby. rewrite Ht.
  apply (pair_lookup node trust) in Ht as [Hin <-]; [|done..]. apply bool_decide_eq_true_2.
  destruct (local_follow _ _ _ Hvalid He Hl) as [_ Hf]. apply Hf; [done| |done].
  destruct (local_owner _ _ _ Hvalid He t Hin) as [Ho Hi]. unfold tr_owner. by rewrite Ho Hi.
Qed.
End pair.

(** ** The switched state *)

Definition switched (state : State) (node : Node) (target : TransportKind) : State :=
  set_st_Transports (Some (switch_transport (node_ID node) (node_ActiveTransport node) target <$> items (st_Transports state)))
    (set_st_Nodes (Some [set_node_ActiveTransport target node]) (set_st_Generation (st_Generation state + 1) state)).

Lemma present_collections state : Validate state = Ok () → is_Some (st_Operations state) ∧ is_Some (st_Transports state).
Proof.
  intros (nodes & clients & ? & ? & ? & ? & Hv)%Validate_parts. pose proof (vp_head _ _ _ _ _ _ _ Hv) as H. unfold validate_head in H.
  do 9 ok_step H. ok_inv H. unfold missing_collection in *. facts. destruct (st_Operations state), (st_Transports state); try done; split; by eexists.
Qed.

Section switch.
Context (state : State) (node : Node) (trust : GatewayTrust) (target : TransportKind).
Context (Hvalid : Validate state = Ok ()) (Henrolled : enrolled_node state = Some (node, trust)).

Lemma switched_update : switched state node target
  = update_with state node trust target (Some (switch_transport (node_ID node) (node_ActiveTransport node) target <$> items (st_Transports state)))
      (st_Generation state + 1) (items (st_Operations state)).
Proof.
  destruct (present_collections _ Hvalid) as [[ops Ho] _]. pose proof Henrolled as (_ & _ & Hg)%enrolled_node_spec.
  unfold switched, update_with, update_node. rewrite Ho. destruct state, node. cbn in *. by rewrite Ho Hg.
Qed.

Lemma operation_records_refl operations : NoDup (op_ID <$> operations) → validate_operation_records operations operations = Ok ().
Proof.
  intros Hn. unfold validate_operation_records. apply bind_ok. exists (). split.
  - apply range_check_ok. intros i x Hx%list_elem_of_lookup_2. rewrite (index_by_in op_ID) //. apply evolution_refl.
  - apply range_check_ok. intros i x Hx%list_elem_of_lookup_2. rewrite bool_decide_eq_true_2 //.
    by apply elem_of_list_to_set, list_elem_of_fmap_2.
Qed.

Lemma switched_accepted : node_Lifecycle node = LifecycleActive → isTransportKind target = true → target ≠ node_ActiveTransport node →
  target ∈ tr_Kind <$> items (st_Transports state) → st_Generation state ≠ max_uint64 → accepted state (switched state node target).
Proof.
  intros Hl Hk Hne Hin Hg. rewrite switched_update. destruct (enrolled_trust_valid _ _ _ Hvalid Henrolled) as [Ht _].
  destruct (node_host_empty _ _ _ Hvalid Henrolled) as (_ & _ & _ & _ & _ & Hpend & _).
  pose proof Hvalid as (? & ? & ? & ? & ? & ops & Hv)%Validate_parts. destruct (vp_operations _ _ _ _ _ _ _ Hv) as [reqs Hops].
  apply (switch_accepted state node trust); try done.
  - unfold NextGeneration. by apply N.eqb_neq in Hg as ->.
  - exists ops, reqs. exact Hops.
  - apply operation_records_refl. by destruct (valid_NoDup _ Hvalid) as (_ & _ & _ & ?).
Qed.

Lemma supported_active : isTransportKind (node_ActiveTransport node) = true.
Proof. destruct (node_selection _ _ _ Hvalid Henrolled) as [Ha _]. destruct (node_ActiveTransport node); [done..|by edestruct Ha]. Qed.

(** Of the two kinds the one that is not selected is the other one. *)
Lemma kinds_configured : switchable state node → ∀ k, isTransportKind k = true → k ∈ tr_Kind <$> items (st_Transports state).
Proof. intros (_ & _ & Hs & Hr) [| |] Hk; done. Qed.

Lemma switchedNodeState_exact after : switchable state node → isTransportKind target = true → target ≠ node_ActiveTransport node →
  switchedNodeState state (node_ID node) (node_ActiveTransport node) target = Ok after ↔
  st_Generation state ≠ max_uint64 ∧ after = switched state node target.
Proof.
  intros Hs Hk Hne. pose proof Henrolled as (_ & Hn & _)%enrolled_node_spec. unfold switchedNodeState. rewrite Hn.
  change (append None (switch_node (node_ID node) target <$> [node])) with (Some [switch_node (node_ID node) target node]).
  unfold switch_node. rewrite String.eqb_refl.
  assert (Ht : append None (switch_transport (node_ID node) (node_ActiveTransport node) target <$> items (st_Transports state))
    = Some (switch_transport (node_ID node) (node_ActiveTransport node) target <$> items (st_Transports state))).
  { pose proof (kinds_configured Hs target Hk) as Hin. destruct (items (st_Transports state)); [by apply not_elem_of_nil in Hin|done]. }
  rewrite Ht. unfold NextGeneration. destruct (N.eqb_spec (st_Generation state) max_uint64) as [Heq|Hg]; cbn [wrap mbind result_bind]; [naive_solver|].
  change (set_st_Transports _ _) with (switched state node target). pose proof Hs as (_ & Hl & _).
  rewrite (switched_accepted Hl Hk Hne (kinds_configured Hs target Hk) Hg). cbn [wrap mbind result_bind]. naive_solver.
Qed.
End switch.

(** Selecting a transport of a valid node state succeeds exactly for a joined active
    node on which both transports are configured, unless the 64-bit generation is used up:
    no check of the candidate ever fails.  Selecting the active transport changes nothing;
    otherwise the result is the state of the next generation in which only the selection
    and the roles of the two transports are exchanged, and it is an accepted transition. *)
Theorem desired_switch_exact before target after : Validate before = Ok () →
  (DesiredNodeSwitchState before target = Ok after ↔
   isTransportKind target = true ∧ ∃ node, switchable before node ∧
     (target = node_ActiveTransport node ∧ after = before ∨
      target ≠ node_ActiveTransport node ∧ st_Generation before ≠ max_uint64 ∧ after = switched before node target)) ∧
  (DesiredNodeSwitchState before target = Ok after → after ≠ before → accepted before after).
Proof.
  intros Hv. assert (Hiff : DesiredNodeSwitchState before target = Ok after ↔
   isTransportKind target = true ∧ ∃ node, switchable before node ∧
     (target = node_ActiveTransport node ∧ after = before ∨
      target ≠ node_ActiveTransport node ∧ st_Generation before ≠ max_uint64 ∧ after = switched before node target)).
  { unfold DesiredNodeSwitchState. rewrite Hv. cbn [wrap mbind result_bind].
    destruct (isTransportKind target) eqn:Hk; cbn [negb reject mbind result_bind]; [|naive_solver].
    destruct (localNodeSwitchPair before) as [[node transports]|e] eqn:Hp; cbn [mbind result_bind].
    - apply localNodeSwitchPair_ok in Hp as [Hs ->]; [|done]. pose proof Hs as ([trust He] & Hl & _).
      assert (Huniq : ∀ n, switchable before n → n = node).
      { intros n ([t' He'] & _). rewrite He in He'. congruence. }
      case_bool_decide as Ha; [naive_solver|]. rewrite (pair_standby before Hv node trust) //; [by apply (kinds_configured before node)|].
      cbn [negb reject mbind result_bind]. rewrite (switchedNodeState_exact before node trust) //. naive_solver.
    - split; [done|]. intros (_ & node & Hs & _). by rewrite (proj2 (localNodeSwitchPair_ok before Hv node _) (conj Hs eq_refl)) in Hp. }
  split; [exact Hiff|]. intros (Hk & node & Hs & [[_ ->]|(Hne & Hg & ->)])%Hiff Hneq; [done|].
  pose proof Hs as ([trust He] & Hl & _). apply (switched_accepted before node trust); try done. by apply (kinds_configured before node).
Qed.

(** ** Switching back *)

Definition recovered (t : Transport) : Transport := if decide (tr_State t = TransportDegraded) then set_tr_State TransportActive t else t.
Definition switched_back (state : State) : State :=
  set_st_Generation (st_Generation state + 2) (set_st_Transports (Some (recovered <$> items (st_Transports state))) state).

Section back.
Context (state : State) (node : Node) (trust : GatewayTrust) (target : TransportKind).
Context (Hvalid : Validate state = Ok ()) (Henrolled : enrolled_node state = Some (node, trust)).
Context (Hswitchable : switchable state node) (Hkind : isTransportKind target = true) (Hother : target ≠ node_ActiveTransport node).
Let node' := set_node_ActiveTransport target node.

Lemma switched_kinds : tr_Kind <$> items (st_Transports (switched state node target)) = tr_Kind <$> items (st_Transports state).
Proof.
  unfold switched. cbn [set_st_Transports st_Transports items]. rewrite -list_fmap_compose. apply list_fmap_ext. intros i t _. unfold compose.
  by destruct (switch_transport_keeps node target t) as (_ & -> & _).
Qed.

Lemma switched_switchable : switchable (switched state node target) node'.
Proof.
  pose proof Hswitchable as (_ & Hl & Hs & Hr). pose proof Henrolled as (Hrole & _ & Hg)%enrolled_node_spec.
  unfold switchable. rewrite switched_kinds. split_and!; [|exact Hl|exact Hs|exact Hr]. exists trust. by apply enrolled_node_spec.
Qed.

Lemma switch_twice t : t ∈ items (st_Transports state) →
  switch_transport (node_ID node) target (node_ActiveTransport node) (switch_transport (node_ID node) (node_ActiveTransport node) target t) = recovered t.
Proof.
  intros Ht. destruct (local_owner _ _ _ Hvalid Henrolled t Ht) as [Ho Hi]. pose proof Hswitchable as (_ & Hl & _).
  destruct (local_follow _ _ _ Hvalid Henrolled Hl) as [(a & Ha & _ & Hk & Has) Hf].
  unfold switch_transport at 2. rewrite Ho Hi String.eqb_refl bool_decide_eq_true_2 //. cbn [negb orb]. unfold recovered.
  case_bool_decide as Hp.
  - assert (t = a) as <-. { apply (NoDup_key_inj tr_Kind (items (st_Transports state))); [by eapply local_kinds|done..|congruence]. }
    unfold switch_transport. cbn [set_tr_State tr_OwnerKind tr_OwnerID tr_Kind]. rewrite Ho Hi String.eqb_refl bool_decide_eq_true_2 //.
    cbn [negb orb]. rewrite bool_decide_eq_false_2; [congruence|]. rewrite bool_decide_eq_true_2 //.
    destruct t; cbn in *. by destruct Has as [->| ->].
  - assert (Hs : tr_State t = TransportStandby). { apply Hf; [done| |done]. unfold tr_owner. by rewrite Ho Hi. }
    assert (tr_Kind t = target) as Hkt.
    { pose proof (local_supported _ Hvalid t Ht). pose proof (supported_active _ _ _ Hvalid Henrolled).
      destruct (tr_Kind t), target, (node_ActiveTransport node); done. }
    rewrite bool_decide_eq_true_2 //. unfold switch_transport. cbn [set_tr_State tr_OwnerKind tr_OwnerID tr_Kind].
    rewrite Ho Hi String.eqb_refl bool_decide_eq_true_2 //. cbn [negb orb]. rewrite bool_decide_eq_true_2 // decide_False; [by rewrite Hs|].
    destruct t; cbn in *. by rewrite Hs.
Qed.

Lemma switched_twice : switched (switched state node target) node' (node_ActiveTransport node) = switched_back state.
Proof.
  pose proof Henrolled as (_ & Hn & _)%enrolled_node_spec. unfold switched at 1. unfold switched_back. cbn [node' set_node_ActiveTransport node_ID node_ActiveTransport].
  assert (Ht : switch_transport (node_ID node) target (node_ActiveTransport node) <$> items (st_Transports (switched state node target))
    = recovered <$> items (st_Transports state)).
  { unfold switched. cbn [set_st_Transports st_Transports items]. rewrite -list_fmap_compose. apply list_fmap_ext.
    intros i t Hi%list_elem_of_lookup_2. by apply switch_twice. }
  rewrite Ht. unfold switched. clear Ht. assert (Hs : st_Nodes state = Some [node]).
  { destruct (st_Nodes state) as [l|]; [cbn in Hn; by rewrite Hn|done]. }
  destruct state, node. cbn in *. rewrite Hs -N.add_assoc. done.
Qed.
End back.

(** A switch can be undone: from the switched state the previously active transport is
    selected again, in the generation after it, and the state is then the original one but
    for its generation and for the previously active transport, which is active even if it
    was degraded before. *)
Theorem switch_back_restores before target after : Validate before = Ok () → DesiredNodeSwitchState before target = Ok after →
  after ≠ before → (st_Generation before + 2 ≤ max_uint64)%N →
  ∃ node, items (st_Nodes before) = [node] ∧ node_ActiveTransport <$> items (st_Nodes after) = [target] ∧
    DesiredNodeSwitchState after (node_ActiveTransport node) = Ok (switched_back before).
Proof.
  intros Hv Hd Hne Hg. destruct (desired_switch_exact before target after Hv) as [Hiff Hacc]. assert (Hv' := Hacc Hd Hne).
  apply Hiff in Hd as (Hk & node & Hs & [[_ ->]|(Hother & _ & ->)]); [done|]. pose proof Hs as ([trust He] & _).
  pose proof He as (_ & Hn & _)%enrolled_node_spec. exists node. split_and!; [done|done|].
  apply desired_switch_exact; [exact (tp_after _ _ (accepted_parts _ _ Hv'))|]. split; [by eapply supported_active|].
  exists (set_node_ActiveTransport target node). split; [by eapply switched_switchable|]. right. split_and!.
  - cbn. congruence.
  - change (st_Generation (switched before node target)) with (st_Generation before + 1)%N. lia.
  - symmetry. by eapply switched_twice.
Qed.

(** ** Witnesses *)

Definition restricted_state : State := switched idle_pair_state (joined_node "") TransportRestricted.

Lemma desired_switch_exact_witness : accepted idle_pair_state restricted_state ∧ st_Generation restricted_state = 5%N.
Proof.
  split; [|done]. apply (desired_switch_exact idle_pair_state TransportRestricted restricted_state idle_pair_state_valid).
  - by vm_compute.
  - intros Heq%(f_equal st_Generation). done.
Defined.

Lemma switch_back_restores_witness : ∃ node, items (st_Nodes idle_pair_state) = [node] ∧
  node_ActiveTransport <$> items (st_Nodes restricted_state) = [TransportRestricted] ∧
  DesiredNodeSwitchState restricted_state (node_ActiveTransport node) = Ok (switched_back idle_pair_state).
Proof.
  apply (switch_back_restores idle_pair_state TransportRestricted restricted_state idle_pair_state_valid).
  - by vm_compute.
  - intros Heq%(f_equal st_Generation). done.
  - done.
Defined.
