(* ===== verification/DeferredFacts.v ===== *)
(** * Facts about deferred switches

    Completing an operation with all its steps, the state a retained switch asks for, and
    the state that finalizes it. *)

From S2P Require Import Prelude GoText GoConv GoNet GoTime Types Checks Identity Address Expose Idempotency Resources StateValidate Samples StateFacts Operation Transition NodeOperation SwitchIntent SwitchState SwitchFacts.

Local Open Scope string_scope.
Local Open Scope list_scope.

(** ** Completing an operation *)

Definition finish_step (at_ : time) (step : OperationStep) : OperationStep :=
  if decide (step_State step = OperationCompleted) then step else set_step_UpdatedAt at_ (set_step_State OperationCompleted step).
Definition can_finish (at_ : time) (step : OperationStep) : Prop :=
  step_State step = OperationCompleted ∨
  canTransitionOperation (step_State step) OperationCompleted = true ∧ (instant (step_UpdatedAt step) ≤ instant at_)%Z.
Definition finished (at_ : time) (operation : Operation) : Operation :=
  set_op_ErrorCode "" (set_op_UpdatedAt at_ (set_op_State OperationCompleted
    (set_op_Steps (Some (finish_step at_ <$> items (op_Steps operation))) operation))).

Section complete.
Context (operation : Operation) (at_ : time) (Hvalid : op_Validate operation = Ok ()) (Hpending : op_State operation = OperationPending).
Let steps := items (op_Steps operation).

(** The operation after the steps [p] were completed, at some moment. *)
Definition finishing (t : time) (p q : list OperationStep) : Operation :=
  set_op_UpdatedAt t (set_op_Steps (Some ((finish_step at_ <$> p) ++ q)) operation).

Lemma finish_name s : step_Name (finish_step at_ s) = step_Name s.
Proof. unfold finish_step. by case_decide. Qed.

Lemma finishing_names p q : steps = p ++ q → NoDup (step_Name <$> (finish_step at_ <$> p) ++ q).
Proof.
  intros Heq. destruct (op_Validate_steps _ Hvalid) as [_ Hn]. fold steps in Hn. rewrite Heq in Hn.
  rewrite fmap_app -list_fmap_compose (list_fmap_ext _ step_Name); [intros i x _; apply finish_name|]. by rewrite -fmap_app.
Qed.

Lemma finish_valid s : step_Validate s = Ok () → validateTime "updated_at" at_ = Ok () → step_Validate (finish_step at_ s) = Ok ().
Proof. unfold finish_step. case_decide; [done|]. intros Hs Ht. unfold step_Validate in *. ok_inv Hs. cbn. by rewrite G. Qed.

Lemma found_step (p : list OperationStep) x q (l : list OperationStep) : NoDup (step_Name <$> l ++ x :: q) → length l = length p →
  list_find (λ step, step_Name step = step_Name x) (l ++ x :: q) = Some (length p, x).
Proof.
  intros Hn Hl. rewrite list_find_app_r.
  - rewrite fmap_app in Hn. apply NoDup_app in Hn as (_ & Hd & _). apply list_find_None, Forall_forall. intros y Hy Heq.
    apply (Hd (step_Name x)); [rewrite -Heq; by apply list_elem_of_fmap_2|left].
  - cbn. rewrite decide_True //. cbn. by rewrite ?Nat.add_0_r Hl.
Qed.

Lemma step_exact p x q t cur : steps = p ++ x :: q → op_Validate (finishing t p (x :: q)) = Ok () →
  op_TransitionStep (finishing t p (x :: q)) (step_Name x) OperationCompleted at_ = Ok cur ↔
  can_finish at_ x ∧ (step_State x ≠ OperationCompleted → validateTime "updated_at" at_ = Ok () ∧ (instant t ≤ instant at_)%Z) ∧
  cur = finishing (if decide (step_State x = OperationCompleted) then t else at_) (p ++ [x]) q.
Proof.
  intros Heq Hv. unfold op_TransitionStep. rewrite Hv. cbn [wrap mbind result_bind].
  change (op_State (finishing t p (x :: q))) with (op_State operation). rewrite Hpending. cbn [terminalOperationState reject mbind result_bind].
  change (items (op_Steps (finishing t p (x :: q)))) with ((finish_step at_ <$> p) ++ x :: q).
  change (reject (terminalOperationState OperationPending) operationTransitionError) with (@Ok unit ()). cbn [mbind result_bind].
  rewrite (found_step p x q); [by apply finishing_names|by rewrite length_fmap|]. unfold can_finish.
  case_bool_decide as Hs.
  - rewrite decide_True //. assert (Hf : finishing t (p ++ [x]) q = finishing t p (x :: q)).
    { unfold finishing. rewrite fmap_app /= /finish_step decide_True // -app_assoc //. }
    rewrite Hf. naive_solver.
  - rewrite decide_False //. destruct (canTransitionOperation (step_State x) OperationCompleted) eqn:Hc; cbn [negb reject mbind result_bind]; [|naive_solver].
    destruct (validateTime "updated_at" at_) as [[]|] eqn:Ht; cbn [mbind result_bind]; [|naive_solver].
    change (op_UpdatedAt (finishing t p (x :: q))) with t. unfold Before.
    assert (Hf : set_op_UpdatedAt at_ (set_op_Steps (Some (<[length p:=set_step_UpdatedAt at_ (set_step_State OperationCompleted x)]> ((finish_step at_ <$> p) ++ x :: q)))
        (finishing t p (x :: q))) = finishing at_ (p ++ [x]) q).
    { assert (Hx : set_step_UpdatedAt at_ (set_step_State OperationCompleted x) = finish_step at_ x) by (unfold finish_step; rewrite decide_False //).
      rewrite Hx. unfold finishing. rewrite fmap_app -app_assoc insert_app_r_alt; [by rewrite length_fmap|]. by rewrite length_fmap Nat.sub_diag. }
    rewrite Hf. destruct (Z.ltb_spec (instant at_) (instant (step_UpdatedAt x))); cbn [orb reject mbind result_bind]; [split; [done|intros ([?|[_ ?]] & _); [done|lia]]|].
    destruct (Z.ltb_spec (instant at_) (instant t)); cbn [reject mbind result_bind]; [split; [done|intros (_ & Hx & _); destruct (Hx Hs); lia]|].
    naive_solver.
Qed.

Definition in_time : Prop := validateTime "updated_at" at_ = Ok () ∧ (instant (op_UpdatedAt operation) ≤ instant at_)%Z.
(** The moment of the last change: none yet, or [at_]. *)
Definition moment (t : time) (p : list OperationStep) : Prop :=
  t = op_UpdatedAt operation ∧ finish_step at_ <$> p = p ∨ t = at_ ∧ in_time.

Lemma finishing_valid t p q : steps = p ++ q → moment t p → op_Validate (finishing t p q) = Ok ().
Proof.
  intros Heq Ht. destruct (op_Validate_steps _ Hvalid) as [Hs _]. destruct (op_Validate_time _ Hvalid) as [Hc _].
  assert (Hold : validateTime "updated_at" (op_UpdatedAt operation) = Ok ()) by (unfold op_Validate in Hvalid; do 14 ok_step Hvalid; by units).
  assert (Hin : ∀ y, y ∈ p ++ q → step_Validate y = Ok ()) by (rewrite -Heq; intros y [j Hj]%list_elem_of_lookup; by eapply Hs).
  apply op_Validate_update; [done| | | |by apply finishing_names].
  - by destruct Ht as [[-> _]|[-> [? _]]].
  - destruct Ht as [[-> _]|[-> [_ ?]]]; lia.
  - intros i x [Hx|Hx]%list_elem_of_lookup_2%elem_of_app; [|apply Hin; set_solver].
    destruct Ht as [[_ Ht]|[_ [Ht _]]]; [rewrite Ht in Hx; apply Hin; set_solver|].
    apply list_elem_of_fmap in Hx as (y & -> & Hy). apply finish_valid; [apply Hin; set_solver|done].
Qed.

Lemma finishing_step p x q t cur : steps = p ++ x :: q → moment t p →
  op_TransitionStep (finishing t p (x :: q)) (step_Name x) OperationCompleted at_ = Ok cur →
  can_finish at_ x ∧ ∃ t', moment t' (p ++ [x]) ∧ cur = finishing t' (p ++ [x]) q.
Proof.
  intros Heq Ht H%step_exact; [|done|by apply finishing_valid]. destruct H as (Hc & Hlate & ->). split; [done|]. eexists. split; [|done].
  destruct (decide (step_State x = OperationCompleted)) as [Hs|Hs].
  - destruct Ht as [[-> Hp]|?]; [left|by right]. split; [done|]. rewrite fmap_app Hp /= /finish_step decide_True //.
  - right. split; [done|]. destruct (Hlate Hs) as [Hv Hle]. destruct Ht as [[-> _]|[_ ?]]; [by split|done].
Qed.

Lemma finished_valid : in_time → op_Validate (finished at_ operation) = Ok ().
Proof.
  intros Hin. assert (Hnil : steps = steps ++ []) by by rewrite app_nil_r.
  assert (Hfin := finishing_valid at_ steps [] Hnil (or_intror (conj eq_refl Hin))).
  unfold op_Validate in *. do 14 ok_step Hfin. units.
  unfold finished. cbn [set_op_ErrorCode set_op_State set_op_UpdatedAt set_op_Steps op_SchemaVersion op_ID op_Type op_State op_TargetKind op_TargetID op_RequestID
       op_ExpectedGeneration op_DesiredGeneration op_Steps op_ErrorCode op_CreatedAt op_UpdatedAt finishing] in *.
  rewrite app_nil_r in G11, G12. rewrite G G0 G1 G3 G4 G5 G6 G7 G8 G9 G11. fold steps. by rewrite G12.
Qed.

Lemma finishing_move t : moment t steps → (op_Transition (finishing t steps []) OperationCompleted at_ "" = Ok (finished at_ operation) ∧ in_time) ∨
  ((¬ in_time) ∧ ∃ e, op_Transition (finishing t steps []) OperationCompleted at_ "" = Err e).
Proof.
  intros Ht. assert (Hnil : steps = steps ++ []) by by rewrite app_nil_r. assert (Hv := finishing_valid t steps [] Hnil Ht).
  unfold op_Transition. rewrite Hv. change (op_State (finishing t steps [])) with (op_State operation). rewrite Hpending.
  cbn [wrap mbind result_bind]. rewrite bool_decide_eq_false_2 //. cbn [canTransitionOperation negb reject mbind result_bind].
  change (op_UpdatedAt (finishing t steps [])) with t. unfold in_time in *.
  destruct (validateTime "updated_at" at_) as [[]|e] eqn:Hat; cbn [mbind result_bind]; [|right; split; [naive_solver|by eexists]].
  unfold Before. destruct (Z.ltb_spec (instant at_) (instant t)) as [Hlt|Hge]; cbn [reject mbind result_bind].
  { right. split; [|by eexists]. intros [_ Hle]. destruct Ht as [[-> _]|[-> _]]; lia. }
  left. assert (Hin : in_time). { split; [done|]. destruct Ht as [[-> _]|[_ [_ ?]]]; lia. }
  split; [|split; [done|apply Hin]]. set (c := set_op_ErrorCode _ _). assert (Hc : c = finished at_ operation).
  { unfold c, finished, finishing. rewrite app_nil_r. by destruct operation. }
  by rewrite Hc (finished_valid Hin).
Qed.

Lemma finishing_start : ∃ t, moment t [] ∧ operation = finishing t [] (drop 0 steps).
Proof.
  exists (op_UpdatedAt operation). split; [by left|]. unfold finishing. cbn [drop fmap list_fmap app]. rewrite /steps.
  assert (Hs : is_nil (op_Steps operation) = false) by (unfold op_Validate in Hvalid; do 14 ok_step Hvalid; by facts).
  destruct operation as [? ? ? ? ? ? ? ? ? [l|] ? ? ?]; [done|done].
Qed.

Lemma finish_time t p : in_time → moment t p → ∀ x : OperationStep, step_State x ≠ OperationCompleted →
  validateTime "updated_at" at_ = Ok () ∧ (instant t ≤ instant at_)%Z.
Proof. intros [Hv Hle] Ht x _. split; [done|]. by destruct Ht as [[-> _]|[-> _]]. Qed.

Lemma complete_exact l1 l2 c : complete_operation l1 l2 operation at_ = Ok c ↔ Forall (can_finish at_) steps ∧ in_time ∧ c = finished at_ operation.
Proof.
  unfold complete_operation. fold steps. split.
  - intros H. ok_step H. apply wrap_ok in H.
    assert (Hinv : Forall (can_finish at_) steps ∧ ∃ t, moment t steps ∧ a = finishing t steps (drop (length steps) steps)).
    { refine (range_inv _ (λ p cur, Forall (can_finish at_) p ∧ ∃ t, moment t p ∧ cur = finishing t p (drop (length p) steps)) steps operation a _ _ G).
      - intros p x q cur cur' Heq (Hf & t & Ht & ->) Hb%wrap_ok. rewrite Heq drop_app_length in Hb.
        apply finishing_step in Hb as (Hc & t' & Ht' & ->); [|done..]. split; [by apply Forall_app_2; [|constructor]|]. exists t'. split; [done|].
        rewrite Heq. replace (p ++ x :: q) with ((p ++ [x]) ++ q) by by rewrite -app_assoc. by rewrite drop_app_length.
      - split; [constructor|exact finishing_start]. }
    destruct Hinv as (Hf & t & Ht & ->). rewrite drop_all in H. destruct (finishing_move t Ht) as [[He Hin]|[_ [e He]]]; [|congruence].
    rewrite He in H. by injection H as <-.
  - intros (Hf & Hin & ->).
    assert (Hr : ∃ t, moment t steps ∧ range (λ _ step completed, wrap l1 (op_TransitionStep completed (step_Name step) OperationCompleted at_)) steps operation = Ok (finishing t steps [])).
    { destruct (range_total (λ _ step completed, wrap l1 (op_TransitionStep completed (step_Name step) OperationCompleted at_))
        (λ p cur, ∃ t, moment t p ∧ cur = finishing t p (drop (length p) steps)) steps operation) as (cur & Hr & t & Ht & ->); [| |exists t; by rewrite drop_all in Hr].
      - intros p x q cur Heq (t & Ht & ->). rewrite Heq drop_app_length. rewrite Heq in Hf. apply Forall_app in Hf as [_ [Hx _]%Forall_cons].
        assert (Hs := proj2 (step_exact p x q t _ Heq (finishing_valid t p _ Heq Ht)) (conj Hx (conj (finish_time t p Hin Ht x) eq_refl))).
        rewrite Hs. eexists. split; [done|]. apply finishing_step in Hs as (_ & t' & Ht' & ->); [|done..]. exists t'. split; [done|].
        replace (p ++ x :: q) with ((p ++ [x]) ++ q) by by rewrite -app_assoc. by rewrite drop_app_length.
      - exact finishing_start. }
    destruct Hr as (t & Ht & ->). cbn [mbind result_bind]. apply wrap_ok. by destruct (finishing_move t Ht) as [[? _]|[? _]].
Qed.
End complete.

(** ** Replacing the retained operation *)

Lemma validate_operations_complete state : NoDup (op_ID <$> items (st_Operations state)) →
  NoDup (op_RequestID <$> filter has_request (items (st_Operations state))) →
  (∀ o, o ∈ items (st_Operations state) → op_Validate o = Ok ()) → ∃ m reqs, validate_operations state = Ok (m, reqs).
Proof.
  intros Hid Hreq Hv. assert (Hr : ∃ r, validate_operations state = Ok r); [|destruct Hr as [[m reqs] ?]; by exists m, reqs].
  unfold validate_operations. apply (range_succeeds _ (λ p (r : gmap string Operation * gset string),
    (∀ id o, r.1 !! id = Some o → o ∈ p ∧ op_ID o = id) ∧ ∀ id, id ∈ r.2 → ∃ o, o ∈ p ∧ has_request o ∧ op_RequestID o = id)).
  { split; [by intros id o Ho|set_solver]. }
  intros p x q [m reqs] Heq [Hm Hr]. rewrite Heq in Hid, Hreq, Hv. rewrite Hv; [set_solver|]. cbn [wrap mbind result_bind].
  rewrite bool_decide_eq_false_2.
  { intros [o [Ho Hi]%Hm]. rewrite fmap_app in Hid. apply NoDup_app in Hid as (_ & Hd & _). apply (Hd (op_ID x)); [|left].
    rewrite -Hi. by apply list_elem_of_fmap_2. }
  cbn [reject mbind result_bind].
  assert (Hm' : ∀ id o, (<[op_ID x := x]> m : gmap string Operation) !! id = Some o → o ∈ p ++ [x] ∧ op_ID o = id).
  { intros id o [[<- <-]|[_ [? ?]%Hm]]%lookup_insert_Some; set_solver. }
  destruct (String.eqb_spec (op_RequestID x) "") as [He|Hne].
  - eexists. split; [done|]. split; [exact Hm'|]. intros id (o & ? & ?)%Hr. exists o. set_solver.
  - assert (Hu : check_unique (op_RequestID x) (Invalid (indexPath "operations" (length p) +:+ ".request_id")) reqs = Ok ({[op_RequestID x]} ∪ reqs)).
    { apply check_unique_ok. split; [|done]. intros (o & Ho & Hh & Hid')%Hr. rewrite filter_app filter_cons_True // fmap_app in Hreq.
      apply NoDup_app in Hreq as (_ & Hd & _). apply (Hd (op_RequestID x)); [|left]. rewrite -Hid'. apply list_elem_of_fmap_2, list_elem_of_filter. done. }
    rewrite Hu. cbn [mbind result_bind]. eexists. split; [done|]. split; [exact Hm'|]. cbn [snd].
    intros id [->%elem_of_singleton|(o & ? & ?)%Hr]%elem_of_union; [exists x|exists o]; set_solver.
Qed.

Section retained.
Context (state : State) (Hvalid : Validate state = Ok ()) (i : nat) (old new : Operation).
Let ops := items (st_Operations state).
Context (Hat : ops !! i = Some old) (Hnew : op_Validate new = Ok ()) (Hid : op_ID new = op_ID old) (Hreq : op_RequestID new = op_RequestID old).

Lemma insert_map {A B} (f : A → B) (l : list A) j x y : l !! j = Some x → f y = f x → f <$> <[j := y]> l = f <$> l.
Proof. intros Hj Hf. rewrite list_fmap_insert list_insert_id // Hf list_lookup_fmap Hj //. Qed.

Lemma filter_request (l : list Operation) : op_RequestID <$> filter has_request l = filter (λ r, r ≠ "") (op_RequestID <$> l).
Proof.
  induction l as [|o l IH]; [done|]. cbn [fmap list_fmap]. destruct (decide (has_request o)) as [H|H].
  - rewrite filter_cons_True // filter_cons_True // fmap_cons IH //.
  - rewrite filter_cons_False // filter_cons_False // IH //.
Qed.

Lemma replaced_operations state' : items (st_Operations state') = <[i := new]> ops → ∃ m reqs, validate_operations state' = Ok (m, reqs).
Proof.
  intros Heq. pose proof Hvalid as (? & ? & ? & ? & ? & m & Hv)%Validate_parts. destruct (vp_operations _ _ _ _ _ _ _ Hv) as [reqs Ho].
  apply validate_operations_ok in Ho as (_ & [Hd _] & Hall). destruct (valid_NoDup _ Hvalid) as (_ & _ & _ & Hn). fold ops in Hd, Hall, Hn.
  apply validate_operations_complete; rewrite Heq.
  - by rewrite (insert_map op_ID _ _ old).
  - by rewrite filter_request (insert_map op_RequestID _ _ old) // -filter_request.
  - intros o [j [(-> & <- & _)|[_ Hj]]%list_lookup_insert_Some]%list_elem_of_lookup; [done|]. by eapply Hall, list_elem_of_lookup_2.
Qed.

Lemma replaced_records : validateOperationEvolution old new = Ok () → validate_operation_records ops (<[i := new]> ops) = Ok ().
Proof.
  intros He. destruct (valid_NoDup _ Hvalid) as (_ & _ & _ & Hn). fold ops in Hn. unfold validate_operation_records. apply bind_ok. exists (). split.
  - apply range_check_ok. intros j x [(-> & <- & _)|[_ Hx%list_elem_of_lookup_2]]%list_lookup_insert_Some.
    + rewrite Hid (index_by_in op_ID) //. by eapply list_elem_of_lookup_2.
    + rewrite (index_by_in op_ID) //. apply evolution_refl.
  - apply range_check_ok. intros j x Hx%list_elem_of_lookup_2. rewrite bool_decide_eq_true_2 //.
    rewrite (insert_map op_ID _ _ old) //. by apply elem_of_list_to_set, list_elem_of_fmap_2.
Qed.
End retained.

(** ** Retained switches *)

(** The node retains the operation as its pending request, and nothing changed since. *)
Record awaits (current : State) (operation : Operation) (intent : SwitchIntentTarget) (node : Node) : Prop := {
  aw_switchable : switchable current node;
  aw_pending : PendingNodeOperation current = Ok (Some operation);
  aw_type : op_Type operation = OperationTransportSwitch ∧ op_State operation = OperationPending ∧ op_TargetKind operation = "transport";
  aw_intent : ParseSwitchIntentTarget (op_TargetID operation) = Ok intent;
  aw_node : it_NodeID intent = node_ID node;
  aw_target : it_Target intent ≠ node_ActiveTransport node;
  aw_generation : st_Generation current = (it_ExpectedNodeGeneration intent + 1)%N
}.

Lemma parsed_intent text intent : ParseSwitchIntentTarget text = Ok intent → it_Validate intent = Ok ().
Proof.
  unfold ParseSwitchIntentTarget. intros H. destruct (Split text ":"%char) as [|? [|? [|? [|? [|? [|]]]]]]; try done. ok_inv H. injection H as <-. by units.
Qed.

Section deferred.
Context (current : State) (operation : Operation) (Hvalid : Validate current = Ok ()).

Lemma awaits_intent intent node : awaits current operation intent node →
  isTransportKind (it_Target intent) = true ∧ st_Generation current ≠ max_uint64 ∧ it_DesiredNodeGeneration intent = (st_Generation current + 1)%N.
Proof.
  intros Ha. pose proof (parsed_intent _ _ (aw_intent _ _ _ _ Ha)) as (_ & Hk & _ & _ & Hg & Hd)%it_Validate_ok. rewrite (aw_generation _ _ _ _ Ha).
  split_and!; [done|done|lia].
Qed.

Lemma retained_intent_exact intent : retained_intent current operation = Ok intent ↔
  PendingNodeOperation current = Ok (Some operation) ∧ (op_Type operation = OperationTransportSwitch ∧ op_State operation = OperationPending ∧ op_TargetKind operation = "transport") ∧
  ParseSwitchIntentTarget (op_TargetID operation) = Ok intent ∧ (∃ node rest, items (st_Nodes current) = node :: rest ∧ it_NodeID intent = node_ID node) ∧
  st_Generation current = (it_ExpectedNodeGeneration intent + 1)%N.
Proof.
  unfold retained_intent. split.
  - intros H. ok_step H. ok_step H. destruct (ParseSwitchIntentTarget (op_TargetID operation)) as [i|] eqn:Hp; [|done]. ok_step H.
    destruct (NextGeneration (it_ExpectedNodeGeneration i)) as [p|] eqn:H1; [|done]. destruct (NextGeneration (st_Generation current)) as [d|] eqn:H2; [|done].
    ok_step H. injection H as <-. facts. apply NextGeneration_ok in H1 as [_ ->]. destruct (items (st_Nodes current)) as [|node rest]; [done|].
    apply String.eqb_eq in G1. subst a. split_and!; [done..| |by symmetry]. by exists node, rest.
  - intros (Hpend & (Ht & Hs & Hk) & Hp & (node & rest & Hn & Hi) & Hg). pose proof (parsed_intent _ _ Hp) as (_ & _ & _ & Hmax & Hmax' & Hd)%it_Validate_ok.
    rewrite Hpend Ht Hs Hk Hp Hn Hi !String.eqb_refl. cbn [mbind result_bind]. rewrite !bool_decide_eq_true_2 //. cbn [negb orb reject mbind result_bind].
    unfold NextGeneration. rewrite Hg (proj2 (N.eqb_neq _ _) Hmax) (proj2 (N.eqb_neq _ _) Hmax') Hd N.eqb_refl.
    rewrite (proj2 (N.eqb_eq (it_ExpectedNodeGeneration intent + 1 + 1) (it_ExpectedNodeGeneration intent + 2))); [lia|done].
Qed.

Lemma deferred_exact candidate intent : DeferredSwitchDesiredState current operation = Ok (candidate, intent) ↔
  ∃ node, awaits current operation intent node ∧ candidate = switched current node (it_Target intent).
Proof.
  unfold DeferredSwitchDesiredState. rewrite Hvalid. cbn [wrap mbind result_bind]. split.
  - intros (i & (Hpend & Ht & Hp & _ & Hg)%retained_intent_exact & H)%bind_ok.
    destruct (localNodeSwitchPair current) as [[node transports]|] eqn:Hl; [|done]. apply localNodeSwitchPair_ok in Hl as [Hs ->]; [|done].
    do 3 ok_step H. injection H as <- <-. facts. pose proof Hs as ([trust He] & _).
    pose proof (parsed_intent _ _ Hp) as (_ & Hk & _)%it_Validate_ok. apply (switchedNodeState_exact current node trust) in G0 as [_ ->]; try done; try by apply not_eq_sym.
    exists node. split; [|done]. split; try done.
  - intros (node & Ha & ->). destruct (awaits_intent _ _ Ha) as (Hk & Hmax & Hd). destruct Ha as [Hs Hpend Ht Hp Hi Hne Hg].
    pose proof Hs as ([trust He] & Hl & _). pose proof He as (_ & Hn & _)%enrolled_node_spec.
    rewrite (proj2 (retained_intent_exact intent)); [split_and!; eauto; tauto|]. cbn [mbind result_bind].
    rewrite (proj2 (localNodeSwitchPair_ok current Hvalid node _) (conj Hs eq_refl)).
    rewrite Hi String.eqb_refl bool_decide_eq_false_2; [by apply not_eq_sym|]. rewrite (pair_standby current Hvalid node trust) //; [by apply (kinds_configured current node)|].
    cbn [negb orb reject mbind result_bind]. rewrite (proj2 (switchedNodeState_exact current node trust _ Hvalid He _ Hs Hk Hne) (conj Hmax eq_refl)).
    cbn [mbind result_bind]. change (st_Generation (switched current node (it_Target intent))) with (st_Generation current + 1)%N. by rewrite Hd N.eqb_refl.
Qed.
End deferred.

(** ** Finalizing *)

Lemma gw_Validate_generation trust generation : gw_Validate trust = Ok () → generation ≠ 0%N →
  gw_Validate (set_gw_LastKnownGatewayGeneration generation trust) = Ok ().
Proof.
  unfold gw_Validate. intros H Hg. do 16 ok_step H. units.
  cbn [set_gw_LastKnownGatewayGeneration gw_GatewayID gw_PublicIPv4 gw_NodeCIDR gw_GatewayOverlayIPv4 gw_ControlProtocol gw_EnrollmentFingerprint
       gw_EnrollmentPublicKeyRef gw_ControlCAFingerprints gw_ControlCACertificateRefs gw_TunnelCertificateFingerprint
       gw_TunnelCertificateRef gw_StandardPublicKey gw_RestrictedServerCredentialRef gw_LastKnownGatewayGeneration gw_PendingRequestID].
  rewrite G G0 G1. cbn [mbind result_bind]. rewrite G2 G3 G4 G5 G6 G7 G8. cbn [reject mbind result_bind]. rewrite G9.
  cbn [mbind result_bind]. rewrite G10 G11 G12 G13 (proj2 (N.eqb_neq _ _) Hg). cbn [reject mbind result_bind]. exact H.
Qed.

Lemma none_pending state : (∀ o, o ∈ items (st_Operations state) → has_request o → terminalOperationState (op_State o) = true) →
  validate_pending state "" = Ok ().
Proof.
  intros Hall. unfold validate_pending.
  destruct (range_total (λ index operation matchedPending,
    if String.eqb (op_RequestID operation) "" || terminalOperationState (op_State operation) then Ok matchedPending
    else reject (String.eqb "" "" || negb (String.eqb (op_RequestID operation) "")) (Invalid (indexPath "operations" index +:+ ".request_id"));; Ok true)
    (λ _ b, b = false) (items (st_Operations state)) false) as (b & Hr & ->); [|done|by rewrite Hr].
  intros p o q b Heq ->. exists false. split; [|done].
  assert (String.eqb (op_RequestID o) "" || terminalOperationState (op_State o) = true) as ->; [|done].
  destruct (String.eqb_spec (op_RequestID o) ""); [done|]. rewrite Hall //. rewrite Heq. set_solver.
Qed.

Lemma finished_evolution operation at_ : op_Validate operation = Ok () → op_State operation = OperationPending →
  Forall (can_finish at_) (items (op_Steps operation)) → in_time operation at_ → validateOperationEvolution operation (finished at_ operation) = Ok ().
Proof.
  intros Hv Hs Hf [_ Hle]. apply evolution_steps; try done.
  - right. by rewrite Hs.
  - cbn. by rewrite length_fmap.
  - intros i x y Hx (z & -> & Hz)%list_lookup_fmap_Some. rewrite Hz in Hx. injection Hx as ->. rewrite Forall_forall in Hf.
    destruct (Hf x) as [Hc|[Hc Ht]]; [by eapply list_elem_of_lookup_2|unfold finish_step; rewrite decide_True //; by apply step_evolution_refl|].
    destruct (canTransition_valid _ _ Hc) as (_ & _ & Hne). unfold finish_step. rewrite decide_False //.
    unfold step_evolution. cbn. rewrite String.eqb_refl (proj2 (not_before _ _) Ht) /=. rewrite bool_decide_eq_false_2 //. by rewrite Hc.
Qed.

(** The state of the node after the gateway confirmed the switch. *)
Definition confirmed_trust (generation : N) (trust : GatewayTrust) : GatewayTrust :=
  set_gw_PendingRequestID "" (set_gw_LastKnownGatewayGeneration generation trust).
Definition finalized (current : State) (node : Node) (trust : GatewayTrust) (target : TransportKind) (generation : N) (index : nat) (completed : Operation) : State :=
  update_with current node (confirmed_trust generation trust) target
    (Some (switch_transport (node_ID node) (node_ActiveTransport node) target <$> items (st_Transports current)))
    (st_Generation current + 1) (<[index := completed]> (items (st_Operations current))).

Section finalize.
Context (current : State) (operation : Operation) (intent : SwitchIntentTarget) (node : Node) (trust : GatewayTrust).
Context (Hvalid : Validate current = Ok ()) (Hawaits : awaits current operation intent node) (Henrolled : enrolled_node current = Some (node, trust)).

Lemma retained_at : op_Validate operation = Ok () ∧ ∃ index, list_find (λ o, op_ID o = op_ID operation) (items (st_Operations current)) = Some (index, operation) ∧
  ∀ j o, items (st_Operations current) !! j = Some o → has_request o → terminalOperationState (op_State o) = false → j = index.
Proof.
  pose proof Henrolled as (Hr & Hn & Hg)%enrolled_node_spec. destruct (valid_NoDup _ Hvalid) as (_ & _ & _ & Hnd).
  destruct (pending_outcome _ _ _ Hvalid Henrolled) as [Hp Hex]. rewrite (aw_pending _ _ _ _ Hawaits) in Hp.
  destruct (String.eqb_spec (gw_PendingRequestID trust) "") as [|Hne]; [done|]. destruct (Hex Hne) as (k & o & Hf & Hid & Hopen).
  rewrite Hf in Hp. injection Hp as <-. apply list_find_Some in Hf as (Hk & _ & _). assert (Hin := list_elem_of_lookup_2 _ _ _ Hk).
  destruct (single_pending current node trust Hvalid Hr Hn Hg) as [Hall Hsome]. destruct (Hsome Hne) as (o' & _ & _ & Huniq).
  assert (operation = o') as <- by by apply Huniq.
  split. { pose proof Hvalid as (? & ? & ? & ? & ? & m & Hv)%Validate_parts. destruct (vp_operations _ _ _ _ _ _ _ Hv) as [reqs Ho].
    apply validate_operations_ok in Ho as (_ & _ & Ha). by apply Ha. }
  destruct (list_find_elem_of (λ o, op_ID o = op_ID operation) (items (st_Operations current)) operation) as [[index x] Hx]; [done..|].
  apply list_find_Some in Hx as Hx'. destruct Hx' as (Hi & Hidx & _).
  assert (x = operation) as -> by (apply (NoDup_key_inj op_ID (items (st_Operations current))); [done|by eapply list_elem_of_lookup_2|done..]).
  exists index. split; [exact Hx|]. intros j o Hj Hreq Ho. assert (o = operation) as ->.
  { apply Huniq; [by eapply list_elem_of_lookup_2|]. apply Hall; [by eapply list_elem_of_lookup_2|done..]. }
  eapply (NoDup_lookup (op_ID <$> items (st_Operations current))); [done|rewrite list_lookup_fmap Hj //|rewrite list_lookup_fmap Hi //].
Qed.

Lemma finalized_accepted generation index at_ : list_find (λ o, op_ID o = op_ID operation) (items (st_Operations current)) = Some (index, operation) →
  generation ≠ 0%N → Forall (can_finish at_) (items (op_Steps operation)) → in_time operation at_ →
  accepted current (finalized current node trust (it_Target intent) generation index (finished at_ operation)).
Proof.
  intros Hx Hg Hf Ht. destruct (awaits_intent current operation intent node Hawaits) as (Hk & Hmax & _). pose proof Hawaits as [Hs _ (_ & Hpend & _) _ _ Hne _].
  pose proof Hs as (_ & Hl & _). destruct (enrolled_trust_valid _ _ _ Hvalid Henrolled) as [Htv _]. destruct retained_at as (Hov & i & Hx' & Huniq).
  rewrite Hx in Hx'. injection Hx' as <-. apply list_find_Some in Hx as (Hi & _ & _). apply (switch_accepted current node trust); try done.
  - by apply (kinds_configured current node).
  - apply gw_Validate_pending; [by apply gw_Validate_generation|by left].
  - unfold NextGeneration. by rewrite (proj2 (N.eqb_neq _ _) Hmax).
  - apply (replaced_operations current Hvalid index operation (finished at_ operation)); try done. by apply finished_valid.
  - apply none_pending. change (items (st_Operations _)) with (<[index := finished at_ operation]> (items (st_Operations current))).
    intros o [j [(-> & <- & _)|[Hj Ho]]%list_lookup_insert_Some]%list_elem_of_lookup Hreq; [done|].
    destruct (terminalOperationState (op_State o)) eqn:E; [done|]. by specialize (Huniq j o Ho Hreq E).
  - apply (replaced_records current Hvalid index operation); try done. by apply finished_evolution.
Qed.
End finalize.

(** The receipt of the gateway is for this operation, selection and pair of generations. *)
Definition receipt_matches (receipt : FinalizedSwitchReceipt) (operation : Operation) (intent : SwitchIntentTarget) (node : Node) (trust : GatewayTrust) : Prop :=
  fr_OperationID receipt = op_ID operation ∧ fr_NodeID receipt = node_ID node ∧ fr_Previous receipt = node_ActiveTransport node ∧
  fr_Active receipt = it_Target intent ∧ fr_ExpectedNodeGeneration receipt = it_ExpectedNodeGeneration intent ∧
  fr_DesiredNodeGeneration receipt = it_DesiredNodeGeneration intent ∧ (gw_LastKnownGatewayGeneration trust ≤ fr_GatewayGeneration receipt)%N.

Section finalization.
Context `{!Sha256}.

Lemma fr_generation receipt : fr_Validate receipt = Ok () → fr_GatewayGeneration receipt ≠ 0%N.
Proof.
  unfold fr_Validate. intros Hr. do 3 ok_step Hr. destruct (SwitchFinalizeRequestID _ _ _); [|done]. ok_inv Hr. facts. lia.
Qed.

Lemma receipt_check receipt operation intent node trust e :
  reject (negb (String.eqb (fr_OperationID receipt) (op_ID operation)) || negb (String.eqb (fr_NodeID receipt) (node_ID node))
    || negb (bool_decide (fr_Previous receipt = node_ActiveTransport node)) || negb (bool_decide (fr_Active receipt = it_Target intent))
    || negb (fr_ExpectedNodeGeneration receipt =? it_ExpectedNodeGeneration intent)%N
    || negb (fr_DesiredNodeGeneration receipt =? it_DesiredNodeGeneration intent)%N
    || (fr_GatewayGeneration receipt <? gw_LastKnownGatewayGeneration trust)%N) e = Ok () ↔ receipt_matches receipt operation intent node trust.
Proof.
  unfold receipt_matches. rewrite reject_ok !orb_false_iff !negb_false_iff !String.eqb_eq !bool_decide_eq_true !N.eqb_eq N.ltb_ge. tauto.
Qed.

Lemma found_index current index operation i : Validate current = Ok () → items (st_Operations current) !! index = Some operation →
  list_find (λ o, op_ID o = op_ID operation) (items (st_Operations current)) = Some (i, operation) → index = i.
Proof.
  intros Hv Hi (Hj & _ & _)%list_find_Some. destruct (valid_NoDup _ Hv) as (_ & _ & _ & Hnd).
  eapply (NoDup_lookup (op_ID <$> items (st_Operations current))); [done|rewrite list_lookup_fmap Hi //|rewrite list_lookup_fmap Hj //].
Qed.

Lemma final_shape current node trust trust' target operations : Validate current = Ok () → enrolled_node current = Some (node, trust) →
  let desired := set_st_Operations (Some operations) (switched current node target) in
  set_st_Nodes (Some (alter (set_node_Gateway (Some trust')) 0%nat (items (st_Nodes desired)))) desired
  = update_with current node trust' target (Some (switch_transport (node_ID node) (node_ActiveTransport node) target <$> items (st_Transports current)))
      (st_Generation current + 1) operations.
Proof. intros _ _. by destruct current, node. Qed.

Lemma finalize_iff current operation receipt at_ after completed : Validate current = Ok () →
  FinalizeDeferredSwitchNodeState current operation receipt at_ = Ok (after, completed) ↔
   fr_Validate receipt = Ok () ∧ ∃ intent node trust index, awaits current operation intent node ∧ enrolled_node current = Some (node, trust) ∧
     receipt_matches receipt operation intent node trust ∧
     Forall (can_finish (to_utc at_)) (items (op_Steps operation)) ∧ in_time operation (to_utc at_) ∧
     items (st_Operations current) !! index = Some operation ∧
     completed = finished (to_utc at_) operation ∧
     after = finalized current node trust (it_Target intent) (fr_GatewayGeneration receipt) index completed.
Proof.
  intros Hv. unfold FinalizeDeferredSwitchNodeState. destruct (fr_Validate receipt) as [[]|e] eqn:Hr; cbn [wrap mbind result_bind]; [|naive_solver].
  split.
  - intros K. ok_step K. destruct a as [desired intent]. apply deferred_exact in G as (node & Ha & ->); [|done].
    pose proof (aw_switchable _ _ _ _ Ha) as ([trust He] & _). pose proof He as (_ & Hn & Hg)%enrolled_node_spec. rewrite Hn Hg in K.
    destruct (retained_at current operation intent node trust Hv Ha He) as (Hov & i & Hx & _).
    apply bind_ok in K as ([] & Hm%receipt_check & K). ok_step K. apply complete_exact in G as (Hf & Ht & ->); [|done|by apply Ha].
    change (items (st_Operations (switched current node (it_Target intent)))) with (items (st_Operations current)) in K. rewrite Hx in K.
    ok_step K. injection K as <- <-. split; [done|]. exists intent, node, trust, i. split_and!; [done..|by apply list_find_Some in Hx as (? & _)|done|].
    by apply (final_shape current node trust).
  - intros (_ & intent & node & trust & index & Ha & He & Hm & Hf & Ht & Hi & -> & ->). pose proof He as (_ & Hn & Hg)%enrolled_node_spec.
    destruct (retained_at current operation intent node trust Hv Ha He) as (Hov & i & Hx & _). assert (index = i) as -> by (eapply found_index; [exact Hv|exact Hi|exact Hx]).
    rewrite (proj2 (deferred_exact current operation Hv _ intent) (ex_intro _ node (conj Ha eq_refl))). cbn [mbind result_bind].
    rewrite Hn Hg (proj2 (receipt_check _ _ _ _ _ _) Hm). cbn [mbind result_bind]. unfold completeDeferredSwitchOperation.
    assert (Hc : complete_operation "complete deferred transport switch step" "complete deferred transport switch operation" operation (to_utc at_) = Ok (finished (to_utc at_) operation)).
    { apply complete_exact; [done|by apply Ha|done]. }
    rewrite Hc. cbn [mbind result_bind]. change (items (st_Operations (switched current node (it_Target intent)))) with (items (st_Operations current)).
    rewrite Hx. cbn zeta. rewrite (final_shape current node trust) //. assert (Hacc := finalized_accepted current operation intent node trust Hv Ha He
      (fr_GatewayGeneration receipt) i (to_utc at_) Hx (fr_generation _ Hr) Hf Ht). unfold accepted, finalized in Hacc. by rewrite Hacc.
Qed.

(** C30: The node finalizes a deferred switch exactly when it still retains the pending
    operation with nothing changed since, the receipt of the gateway is valid and matches
    operation, node, selection and generations, and the clock is not behind the operation:
    no check of the resulting state ever fails.  The result is the next generation in which
    the selection is switched, the operation and its steps are completed, the pending
    request is cleared and the generation of the gateway is remembered; it is an accepted
    transition after which the same call is refused. *)
Theorem finalization_exact current operation receipt at_ after completed : Validate current = Ok () →
  (FinalizeDeferredSwitchNodeState current operation receipt at_ = Ok (after, completed) ↔
   fr_Validate receipt = Ok () ∧ ∃ intent node trust index, awaits current operation intent node ∧ enrolled_node current = Some (node, trust) ∧
     receipt_matches receipt operation intent node trust ∧
     Forall (can_finish (to_utc at_)) (items (op_Steps operation)) ∧ in_time operation (to_utc at_) ∧
     items (st_Operations current) !! index = Some operation ∧
     completed = finished (to_utc at_) operation ∧
     after = finalized current node trust (it_Target intent) (fr_GatewayGeneration receipt) index completed) ∧
  (FinalizeDeferredSwitchNodeState current operation receipt at_ = Ok (after, completed) →
   accepted current after ∧ PendingNodeOperation after = Ok None ∧
   ∀ at', FinalizeDeferredSwitchNodeState after operation receipt at' = Err stale).
Proof.
  intros Hv. assert (Hiff := finalize_iff current operation receipt at_ after completed Hv). split; [exact Hiff|].
  intros (Hr & intent & node & trust & index & Haw & He & _ & Hf & Ht & Hi & -> & ->)%Hiff.
  destruct (retained_at current operation intent node trust Hv Haw He) as (_ & i & Hx & _).
  assert (index = i) as -> by (eapply found_index; [exact Hv|exact Hi|exact Hx]).
  assert (Hacc : accepted current (finalized current node trust (it_Target intent) (fr_GatewayGeneration receipt) i (finished (to_utc at_) operation))).
  { apply (finalized_accepted current operation intent node trust); try done. by apply fr_generation. }
  assert (Hpend : PendingNodeOperation (finalized current node trust (it_Target intent) (fr_GatewayGeneration receipt) i (finished (to_utc at_) operation)) = Ok None).
  { unfold PendingNodeOperation. rewrite (tp_after _ _ (accepted_parts _ _ Hacc)). cbn [wrap mbind result_bind]. pose proof He as (Hrole & _)%enrolled_node_spec.
    by rewrite (proj2 (enrolled_node_spec _ (update_node (confirmed_trust (fr_GatewayGeneration receipt) trust) (it_Target intent) node) (confirmed_trust (fr_GatewayGeneration receipt) trust))). }
  split_and!; [done|done|]. intros at'. unfold FinalizeDeferredSwitchNodeState, DeferredSwitchDesiredState, retained_intent.
  by rewrite Hr (tp_after _ _ (accepted_parts _ _ Hacc)) Hpend.
Qed.
End finalization.

(** ** Witness *)

Definition completed_operation : Operation := finished (day 3) retained_operation.
Definition settled_state : State :=
  finalized awaiting_state (joined_node switch_request) (sample_trust switch_request) TransportRestricted 13 0 completed_operation.

Lemma finalization_exact_witness : accepted awaiting_state settled_state ∧ PendingNodeOperation settled_state = Ok None ∧ op_State completed_operation = OperationCompleted.
Proof.
  destruct (finalization_exact awaiting_state retained_operation finalized_receipt (day 3) settled_state completed_operation awaiting_state_valid) as [_ H].
  destruct H as (Ha & Hp & _); [vm_compute; reflexivity|]. split; [exact Ha|]. split; [exact Hp|reflexivity].
Defined.
