(* ===== verification/Switch.v ===== *)
(** * Switching and testing transports

    The workflows of [internal/transport/switch_workflow.go], [test_workflow.go] and
    [deferred_switch_runtime.go].  A switch is planned from the state of the node, approved,
    and applied make-before-break: the target is staged, tested and activated before the
    old path is drained, and the state is saved last.  A test stages the target and always
    removes it.  A deferred activation runs the same workflow over a state in memory. *)

From S2P Require Import Prelude GoText GoConv GoNet GoTime Proc Types Checks Resources Identity Expose StateValidate Codec Operation Transition NodeOperation SwitchIntent Provider SwitchState.

Local Open Scope string_scope.
Local Open Scope list_scope.

(** ** Limits *)

Definition minimumTransportTestTimeout : Z := 10 * millisecond.
Definition maximumTransportTestTimeout : Z := 5 * minute.
Definition DefaultTransportSwitchTimeout : Z := 90 * second.
Definition DefaultTransportSwitchStepTimeout : Z := 30 * second.
Definition DefaultTransportSwitchDrainTimeout : Z := 10 * second.
Definition DefaultTransportSwitchRollbackTimeout : Z := 10 * second.
Definition DefaultTransportTestTimeout : Z := 45 * second.
Definition DefaultTransportTestStepTimeout : Z := 30 * second.
Definition DefaultTransportTestCleanupTimeout : Z := 10 * second.

(** A limit of zero stands for its default. *)
Definition or_default (limit default : Z) : Z := if (limit =? 0)%Z then default else limit.

Definition check_limit (limit : Z) : result unit :=
  reject ((limit <? minimumTransportTestTimeout) || (maximumTransportTestTimeout <? limit))%Z (Message "transport timeout is out of range").

Record SwitchLimits := MkSwitchLimits { swl_Total : Z; swl_Step : Z; swl_Drain : Z; swl_Rollback : Z }.

Definition switch_normalized (limits : SwitchLimits) : result SwitchLimits :=
  let limits := MkSwitchLimits (or_default (swl_Total limits) DefaultTransportSwitchTimeout) (or_default (swl_Step limits) DefaultTransportSwitchStepTimeout)
    (or_default (swl_Drain limits) DefaultTransportSwitchDrainTimeout) (or_default (swl_Rollback limits) DefaultTransportSwitchRollbackTimeout) in
  range_check (λ _ limit, check_limit limit) [swl_Total limits; swl_Step limits; swl_Drain limits; swl_Rollback limits];;
  reject ((swl_Total limits <? swl_Step limits) || (swl_Total limits <? swl_Drain limits))%Z (Message "step and drain timeouts must not exceed total timeout");;
  Ok limits.

Record TestLimits := MkTestLimits { tl_Total : Z; tl_Step : Z; tl_Cleanup : Z }.

Definition test_normalized (limits : TestLimits) : result TestLimits :=
  let limits := MkTestLimits (or_default (tl_Total limits) DefaultTransportTestTimeout) (or_default (tl_Step limits) DefaultTransportTestStepTimeout)
    (or_default (tl_Cleanup limits) DefaultTransportTestCleanupTimeout) in
  range_check (λ _ limit, check_limit limit) [tl_Total limits; tl_Step limits; tl_Cleanup limits];;
  reject (tl_Total limits <? tl_Step limits)%Z (Message "step timeout must not exceed total timeout");;
  Ok limits.

(** ** Plans and results *)

Record SwitchPlan := MkSwitchPlan {
  swp_NodeID : string;
  swp_Current : TransportKind;
  swp_Target : TransportKind;
  swp_ExpectedStateGeneration : N;
  swp_NextStateGeneration : N;
  swp_Changed : bool;
  swp_before : State;
  swp_candidate : State;
  swp_beforeRaw : string
}.

Record SwitchResult := MkSwitchResult {
  swr_NodeID : string;
  swr_Previous : TransportKind;
  swr_Active : TransportKind;
  swr_Changed : bool;
  swr_StateGeneration : N;
  swr_ActiveHealth : TransportHealth
}.

(** The state of the node: [SwitchStateStore]; the tester only reads. *)
Class SwitchStore (W : Type) := {
  state_Load : W → result State * W;
  state_Save : N → State → W → result unit * W
}.
(** [time.Now] *)
Class SwitchClock (W : Type) := { clock_Now : W → time * W }.

Section workflow.
Context {W P C : Type} `{!Providers W P C, !SwitchStore W, !SwitchClock W, !JSONValue State}.
Abbreviation run A := (transport_run (W := W) (P := P) (C := C) A).

Record NodeSwitcher := MkNodeSwitcher { sw_registry : Registry P; sw_limits : SwitchLimits }.

Definition NewNodeSwitcher (registry : Registry P) (limits : SwitchLimits) : result NodeSwitcher :=
  normalized ← switch_normalized limits;
  Ok (MkNodeSwitcher registry normalized).

Definition read_state : run (result State) := call state_Load (λ r, [StateRead r]).

(** A call with its context, logged, its error wrapped. *)
Definition provider_call {A} (f : W → result A * W) (log : result A → provider_event P C) (label : string) : run (result A) :=
  r ← call f (λ r, [log r]); mret (wrap label r).

(** [transports[kind]]: the zero value for a missing kind. *)
Definition zero_transport : Transport :=
  MkTransport 0 (TargetUnsupported "") "" (TransportKindUnsupported "") (TransportStateUnsupported "") "" (ProtocolUnsupported "") 0 0 "" "" "" "".
Definition transport_of (transports : gmap TransportKind Transport) (kind : TransportKind) : Transport :=
  default zero_transport (transports !! kind).

(** ** Planning *)

Definition switch_Plan (targetKind : TransportKind) : run (result SwitchPlan) :=
  if negb (isTransportKind targetKind) then mret (Err (Message "unsupported transport switch target")) else
  loaded ← read_state;
  mret (before ← wrap "load node state before transport switch" loaded;
    beforeRaw ← wrap "validate node state before transport switch" (EncodeState before);
    '(node, transports) ← localNodeSwitchPair before;
    let plan next changed candidate :=
      MkSwitchPlan (node_ID node) (node_ActiveTransport node) targetKind (st_Generation before) next changed before candidate beforeRaw in
    if bool_decide (targetKind = node_ActiveTransport node) then Ok (plan (st_Generation before) false before) else
    reject (negb (is_standby transports targetKind)) (Message "transport switch target must be standby");;
    candidate ← switchedNodeState before (node_ID node) (node_ActiveTransport node) targetKind;
    Ok (plan (st_Generation candidate) true candidate)).

(** ** Applying *)

Definition switchCandidate (step : Z) (provider : P) (transport : Transport) (label : string) : run (result C) :=
  and_then (provider_call (provider_Render provider (WithTimeout step) (MkRenderRequest transport)) (Rendered provider transport) label) (λ candidate,
  mret (wrap label (match candidate with
    | None => Err (Message "provider returned nil candidate")
    | Some candidate =>
        reject (negb (bool_decide (Descriptor candidate = DescriptorFromTransport transport))) (Message "provider returned a different candidate descriptor");;
        Ok candidate
    end))).

(** The pair of a switch: the old path and the target, each with its candidate. *)
Record SwitchPair := MkSwitchPair { pr_oldProvider : P; pr_oldCandidate : C; pr_targetProvider : P; pr_targetCandidate : C }.

(** The previous path is restored before the failed target is removed, under one context
    the caller cannot cancel. *)
Definition compensate (rollback : Z) (pair : SwitchPair) (cause : error) : run error :=
  restored ← call (provider_Activate (pr_oldProvider pair) (Detached rollback) (pr_oldCandidate pair))
    (λ r, [ActivationTried (pr_oldProvider pair) (pr_oldCandidate pair) r]);
  match restored with
  | Err e => mret (errors_join cause [Some (Wrapped "restore previous transport before target cleanup" e)])
  | Ok _ =>
      cleaned ← call (provider_Rollback (pr_targetProvider pair) (Detached rollback) (pr_targetCandidate pair))
        (λ r, [RolledBack (pr_targetProvider pair) (pr_targetCandidate pair) r]);
      mret (errors_join cause [error_of (wrap "remove failed target transport candidate" cleaned)])
  end.

Definition same_encoding (x y : result string) : bool :=
  match x, y with Ok a, Ok b => String.eqb a b | _, _ => false end.

Definition reconcileCommitFailure (rollback : Z) (pair : SwitchPair) (before candidate : State) (saveErr : error) : run error :=
  loaded ← read_state;
  let uncertain_commit := errors_join (Sentinel ErrTransportSwitchCommitUncertain) [Some saveErr; error_of loaded] in
  match loaded with
  | Err _ => mret uncertain_commit
  | Ok loaded =>
      if same_encoding (EncodeState loaded) (EncodeState candidate)
      then mret (Wrapped "candidate generation is active after save error" (Sentinel ErrTransportSwitchCommitUncertain))
      else if same_encoding (EncodeState loaded) (EncodeState before)
      then compensate rollback pair (Wrapped "commit transport switch state" saveErr)
      else mret uncertain_commit
  end.

(** The target is prepared, validated and tested; nothing is selected yet. *)
Definition stage_target (step : Z) (pair : SwitchPair) : run (result unit) :=
  let provider := pr_targetProvider pair in
  let candidate := pr_targetCandidate pair in
  and_then (provider_call (provider_Prepare provider (WithTimeout step) candidate) (Prepared provider candidate) "prepare target transport") (λ _,
  and_then (provider_call (provider_Validate provider (WithTimeout step) candidate) (CandidateChecked provider candidate) "validate target transport") (λ _,
  '(checks, failure) ← call (provider_StartTest provider (WithTimeout step) candidate) (λ r, [Tested provider candidate r.1 r.2]);
  mret (match failure with
    | Some e => Err (Wrapped "test target transport" e)
    | None =>
        wrap "validate target transport checks" (te_Validate checks);;
        reject (negb (te_Ready checks)) (Sentinel ErrTransportSwitchTargetNotReady)
    end))).

(** A staged target that is not activated is removed. *)
Definition staged_or_removed (limits : SwitchLimits) (pair : SwitchPair) : run (result unit) :=
  staged ← stage_target (swl_Step limits) pair;
  match staged with
  | Ok _ => mret (Ok ())
  | Err e =>
      removed ← call (provider_Rollback (pr_targetProvider pair) (Detached (swl_Rollback limits)) (pr_targetCandidate pair))
        (λ r, [RolledBack (pr_targetProvider pair) (pr_targetCandidate pair) r]);
      mret (Err (errors_join e [error_of (wrap "remove staged target transport candidate" removed)]))
  end.

Definition condition_ready (health : TransportHealth) : result unit :=
  reject (negb (bool_decide (he_Condition health = HealthHealthy))) (Sentinel ErrTransportSwitchTargetNotReady).

(** The target becomes active and healthy. *)
Definition activate_target (limits : SwitchLimits) (manager : Manager P) (pair : SwitchPair) (target : TransportKind) : run (result unit) :=
  let provider := pr_targetProvider pair in
  let candidate := pr_targetCandidate pair in
  and_then (provider_call (provider_Activate provider (WithTimeout (swl_Step limits)) candidate) (ActivationTried provider candidate) "activate target transport") (λ _,
  and_then (provider_call (provider_Health provider (WithTimeout (swl_Step limits)) (mg_identity manager)) (HealthSeen provider) "health-check active target transport") (λ health,
  mret (wrap "health-check active target transport" (validateHealth manager health target RuntimeActive);;
        condition_ready health))).

(** The previous path is drained, then both roles are checked. *)
Definition drain_previous (limits : SwitchLimits) (manager : Manager P) (pair : SwitchPair) (target : TransportKind) : run (result TransportHealth) :=
  drainStarted ← call clock_Now (λ _, []);
  let request := MkDrainRequest (mg_identity manager) (Add drainStarted (swl_Drain limits)) in
  and_then (mret (dq_Validate request drainStarted)) (λ _,
  and_then (provider_call (provider_Drain (pr_oldProvider pair) (WithDeadline (dq_Deadline request)) request) (DrainTried (pr_oldProvider pair) request) "drain previous transport") (λ _,
  and_then (mret (targetSelection ← NewSelection target; NewManager (mg_identity manager) targetSelection (mg_registry manager))) (λ targetManager,
  and_then (steady ← CheckSteadyState targetManager (WithTimeout (swl_Step limits)); mret (wrap "verify switched transport roles" steady)) (λ steady,
  mret (condition_ready steady.1;; Ok steady.1))))).

(** From the activation on, every failure restores the previous path. *)
Definition switch_traffic (limits : SwitchLimits) (manager : Manager P) (pair : SwitchPair) (target : TransportKind) (current candidate : State)
    : run (result TransportHealth) :=
  moved ← and_then (activate_target limits manager pair target) (λ _, drain_previous limits manager pair target);
  match moved with
  | Err cause => e ← compensate (swl_Rollback limits) pair cause; mret (Err e)
  | Ok health =>
      saved ← call (state_Save (st_Generation current) candidate) (λ r, [StateWritten (st_Generation current) candidate r]);
      match saved with
      | Err saveErr => e ← reconcileCommitFailure (swl_Rollback limits) pair current candidate saveErr; mret (Err e)
      | Ok _ => mret (Ok health)
      end
  end.

Definition node_identity (node : Node) : TransportIdentity := MkTransportIdentity TargetNode (node_ID node) (node_CredentialGeneration node).

(** The checks of an approved plan against the state it is applied to. *)
Definition check_plan (plan : SwitchPlan) (current : State) : result (Node * gmap TransportKind Transport) :=
  currentRaw ← wrap "validate node state before applying transport switch" (EncodeState current);
  reject (String.eqb (swp_beforeRaw plan) "" || negb (String.eqb currentRaw (swp_beforeRaw plan))
          || negb (swp_ExpectedStateGeneration plan =? st_Generation current)%N) (Sentinel ErrTransportSwitchStale);;
  '(node, transports) ← localNodeSwitchPair current;
  reject (negb (String.eqb (swp_NodeID plan) (node_ID node)) || negb (bool_decide (swp_Current plan = node_ActiveTransport node))
          || negb (isTransportKind (swp_Target plan)) || negb (Bool.eqb (swp_Changed plan) (negb (bool_decide (swp_Target plan = swp_Current plan)))))
    (Message "transport switch plan is invalid");;
  Ok (node, transports).

(** The checks of a plan that changes the selection. *)
Definition check_change (plan : SwitchPlan) (current : State) (transports : gmap TransportKind Transport) : result unit :=
  reject (negb (swp_NextStateGeneration plan =? (st_Generation current + 1) mod 2 ^ 64)%N || negb (is_standby transports (swp_Target plan)))
    (Message "transport switch plan is invalid");;
  wrap "transport switch candidate is invalid" (ValidateTransition current (swp_candidate plan)).

(** Both candidates are rendered before anything is staged. *)
Definition render_pair (switcher : NodeSwitcher) (plan : SwitchPlan) (transports : gmap TransportKind Transport) : run (result SwitchPair) :=
  let step := swl_Step (sw_limits switcher) in
  match oldProvider ← registry_Provider (sw_registry switcher) (swp_Current plan);
        targetProvider ← registry_Provider (sw_registry switcher) (swp_Target plan);
        Ok (oldProvider, targetProvider) with
  | Err e => mret (Err e)
  | Ok (oldProvider, targetProvider) =>
      and_then (switchCandidate step oldProvider (transport_of transports (swp_Current plan)) "render current transport rollback candidate") (λ oldCandidate,
      and_then (switchCandidate step targetProvider (transport_of transports (swp_Target plan)) "render target transport candidate") (λ targetCandidate,
      mret (Ok (MkSwitchPair oldProvider oldCandidate targetProvider targetCandidate))))
  end.

Definition switch_Apply (switcher : NodeSwitcher) (plan : SwitchPlan) : run (result SwitchResult) :=
  and_then (loaded ← read_state; mret (wrap "load node state before applying transport switch" loaded)) (λ current,
  match '(node, transports) ← check_plan plan current;
        selection ← NewSelection (node_ActiveTransport node);
        manager ← NewManager (node_identity node) selection (sw_registry switcher);
        Ok (node, transports, manager) with
  | Err e => mret (Err e)
  | Ok (node, transports, manager) =>
      let limits := sw_limits switcher in
      if negb (swp_Changed plan) then
        and_then (ObserveActive manager (WithTimeout (swl_Step limits))) (λ health,
        mret (Ok (MkSwitchResult (node_ID node) (swp_Current plan) (swp_Current plan) false (st_Generation current) health)))
      else
        and_then (mret (check_change plan current transports)) (λ _,
        and_then (render_pair switcher plan transports) (λ pair,
        and_then (staged_or_removed limits pair) (λ _,
        and_then (switch_traffic limits manager pair (swp_Target plan) current (swp_candidate plan)) (λ health,
        mret (Ok (MkSwitchResult (node_ID node) (swp_Current plan) (swp_Target plan) true (st_Generation (swp_candidate plan)) health))))))
  end).

(** ** Testing *)

Record TestExecution := MkTestExecution {
  ex_Target : CandidateDescriptor;
  ex_Selection : Selection;
  ex_StateGeneration : N;
  ex_CredentialGeneration : N;
  ex_Checks : TestResult;
  ex_Cleaned : bool
}.

Definition zero_probe : PathProbe := MkPathProbe (ProbeStateUnsupported "") "".
Definition zero_checks : TestResult := MkTestResult zero_probe zero_probe zero_probe zero_probe.
Definition zero_execution : TestExecution :=
  MkTestExecution (DescriptorFromTransport zero_transport) (MkSelection (TransportKindUnsupported "") (TransportKindUnsupported "")) 0 0 zero_checks false.
Definition set_ex_StateGeneration (generation : N) (e : TestExecution) : TestExecution :=
  MkTestExecution (ex_Target e) (ex_Selection e) generation (ex_CredentialGeneration e) (ex_Checks e) (ex_Cleaned e).
Definition set_ex_Checks (checks : TestResult) (e : TestExecution) : TestExecution :=
  MkTestExecution (ex_Target e) (ex_Selection e) (ex_StateGeneration e) (ex_CredentialGeneration e) checks (ex_Cleaned e).
Definition set_ex_Cleaned (e : TestExecution) : TestExecution :=
  MkTestExecution (ex_Target e) (ex_Selection e) (ex_StateGeneration e) (ex_CredentialGeneration e) (ex_Checks e) true.

Definition ex_Ready (execution : TestExecution) : bool := ex_Cleaned execution && te_Ready (ex_Checks execution).

Record NodeTester := MkNodeTester { nt_registry : Registry P; nt_limits : TestLimits }.

Definition NewNodeTester (registry : Registry P) (limits : TestLimits) : result NodeTester :=
  normalized ← test_normalized limits;
  Ok (MkNodeTester registry normalized).

Definition validateTestTarget (manager : Manager P) (target : Transport) : result unit :=
  wrap "validate transport test target" (transport_Validate target);;
  reject (negb (bool_decide (IdentityFromTransport target = mg_identity manager))) (Message "target does not belong to the manager identity");;
  if bool_decide (tr_Kind target = sl_Active (mg_selection manager)) then
    reject (negb (bool_decide (tr_State target = TransportActive)) && negb (bool_decide (tr_State target = TransportDegraded)))
      (Message "selected active transport test target must be active or degraded")
  else
    reject (negb (bool_decide (tr_Kind target = sl_Standby (mg_selection manager)))) (Message "target is outside the configured pair");;
    reject (negb (bool_decide (tr_State target = TransportStandby))) (Message "selected standby transport test target must be standby").

(** The stages of a test after rendering, without the cleanup. *)
Definition test_stages (step : Z) (provider : P) (candidate : C) (execution : TestExecution) : run (TestExecution * option error) :=
  prepared ← provider_call (provider_Prepare provider (WithTimeout step) candidate) (Prepared provider candidate) "prepare transport test candidate";
  match prepared with
  | Err e => mret (execution, Some e)
  | Ok _ =>
      checked ← provider_call (provider_Validate provider (WithTimeout step) candidate) (CandidateChecked provider candidate) "validate transport test candidate";
      match checked with
      | Err e => mret (execution, Some e)
      | Ok _ =>
          '(checks, failure) ← call (provider_StartTest provider (WithTimeout step) candidate) (λ r, [Tested provider candidate r.1 r.2]);
          let execution := set_ex_Checks checks execution in
          mret (execution, match failure with
            | Some e => Some (Wrapped "run transport test probes" e)
            | None => error_of (wrap "validate transport test result" (te_Validate checks))
            end)
      end
  end.

(** [errors.Join(first, second)] where the first may be nil. *)
Definition join_failure (first : option error) (second : error) : option error :=
  Some (match first with Some e => Join e second | None => second end).

Definition TestTransport (manager : Manager P) (target : Transport) (limits : TestLimits) : run (TestExecution * option error) :=
  match normalized ← test_normalized limits; validateTestTarget manager target;; Ok normalized with
  | Err e => mret (zero_execution, Some e)
  | Ok normalized =>
      let execution := MkTestExecution (DescriptorFromTransport target) (mg_selection manager) 0
        (id_CredentialGeneration (mg_identity manager)) zero_checks false in
      match registry_Provider (mg_registry manager) (tr_Kind target) with
      | Err e => mret (execution, Some e)
      | Ok provider =>
          rendered ← switchCandidate (tl_Step normalized) provider target "render transport test candidate";
          match rendered with
          | Err e => mret (execution, Some e)
          | Ok candidate =>
              '(execution, failure) ← test_stages (tl_Step normalized) provider candidate execution;
              cleaned ← call (provider_Rollback provider (Detached (tl_Cleanup normalized)) candidate) (λ r, [RolledBack provider candidate r]);
              mret (match cleaned with
                | Err e => (execution, join_failure failure (Wrapped "remove transport test candidate" e))
                | Ok _ => (set_ex_Cleaned execution, failure)
                end)
          end
      end
  end.

Definition localNodeTestTarget (state : State) (targetKind : TransportKind) : result (Node * Transport) :=
  '(node, foundKinds) ← localNodeSwitchPair state;
  match foundKinds !! targetKind with
  | Some target => Ok (node, target)
  | None => Err (Message "transport test target is not configured")
  end.

Definition tester_Test (tester : NodeTester) (targetKind : TransportKind) : run (TestExecution * option error) :=
  if negb (isTransportKind targetKind) then mret (zero_execution, Some (Message "unsupported transport test target")) else
  loaded ← read_state;
  match before ← wrap "load node state before transport test" loaded;
        beforeBytes ← wrap "validate node state before transport test" (EncodeState before);
        '(node, target) ← localNodeTestTarget before targetKind;
        selection ← NewSelection (node_ActiveTransport node);
        manager ← NewManager (node_identity node) selection (nt_registry tester);
        Ok (before, beforeBytes, target, manager) with
  | Err e => mret (zero_execution, Some e)
  | Ok (before, beforeBytes, target, manager) =>
      '(execution, failure) ← TestTransport manager target (nt_limits tester);
      let execution := set_ex_StateGeneration (st_Generation before) execution in
      after ← read_state;
      mret (match after with
        | Err e => (execution, join_failure failure (Wrapped "load node state after transport test" e))
        | Ok after =>
            match EncodeState after with
            | Err e => (execution, join_failure failure (Wrapped "validate node state after transport test" e))
            | Ok afterBytes =>
                if String.eqb afterBytes beforeBytes then (execution, failure)
                else (execution, join_failure failure (Sentinel ErrTransportTestStateChanged))
            end
        end)
  end.
End workflow.
Arguments NodeSwitcher P : clear implicits.
Arguments NodeTester P : clear implicits.
Arguments SwitchPair P C : clear implicits.

(** ** Deferred activations

    The switch waits for the gateway: the providers act, but the state is one in memory. *)

Section deferred.
Context {W P C : Type} `{!Providers W P C, !SwitchClock W, !JSONValue State}.
Abbreviation run A := (transport_run (W := W) (P := P) (C := C) A).

(** A call on the first component of the world. *)
Definition beside {A} (f : W → A * W) (ws : W * State) : A * (W * State) := let '(a, w) := f ws.1 in (a, (w, ws.2)).

#[local] Instance ephemeral_providers : Providers (W * State) P C := {
  provider_Kind := provider_Kind;
  Descriptor := Descriptor;
  provider_Render p b r := beside (provider_Render p b r);
  provider_Prepare p b c := beside (provider_Prepare p b c);
  provider_Validate p b c := beside (provider_Validate p b c);
  provider_StartTest p b c := beside (provider_StartTest p b c);
  provider_Activate p b c := beside (provider_Activate p b c);
  provider_Health p b i := beside (provider_Health p b i);
  provider_Drain p b q := beside (provider_Drain p b q);
  provider_Rollback p b c := beside (provider_Rollback p b c)
}.
#[local] Instance ephemeral_clock : SwitchClock (W * State) := { clock_Now := beside clock_Now }.

(** [ephemeralSwitchStore] *)
Definition ephemeral_save (expectedGeneration : N) (candidate state : State) : result unit * State :=
  if negb (st_Generation state =? expectedGeneration)%N then (Err stale, state) else
  match ValidateTransition state candidate with
  | Err e => (Err e, state)
  | Ok _ => (Ok (), candidate)
  end.
#[local] Instance ephemeral_store : SwitchStore (W * State) := {
  state_Load ws := (Ok ws.2, ws);
  state_Save expectedGeneration candidate ws :=
    let '(r, state) := ephemeral_save expectedGeneration candidate ws.2 in (r, (ws.1, state))
}.

(** A workflow over the state in memory. *)
Definition in_memory {A} (m : transport_run (W := W * State) (P := P) (C := C) A) (state : State) : run (A * State) := λ w,
  let '(a, es, ws) := m (w, state) in (a, ws.2, es, ws.1).

Record DeferredNodeRuntime := MkDeferredNodeRuntime { dr_registry : Registry P; dr_limits : SwitchLimits }.

Definition NewDeferredNodeRuntime (registry : Registry P) (limits : SwitchLimits) : result DeferredNodeRuntime :=
  normalized ← switch_normalized limits;
  Ok (MkDeferredNodeRuntime registry normalized).

Record DeferredSwitchActivation := MkDeferredSwitchActivation {
  da_store : State;
  da_switcher : NodeSwitcher P;
  da_previous : TransportKind;
  da_result : SwitchResult
}.

(** [current.Nodes[0].ActiveTransport] after the pair was found. *)
Definition first_active (state : State) : TransportKind :=
  match items (st_Nodes state) with node :: _ => node_ActiveTransport node | [] => TransportKindUnsupported "" end.

Definition deferred_Activate (runtime : DeferredNodeRuntime) (current : State) (operation : Operation) : run (result DeferredSwitchActivation) :=
  match '(desired, intent) ← DeferredSwitchDesiredState current operation;
        switcher ← NewNodeSwitcher (dr_registry runtime) (dr_limits runtime);
        Ok (desired, intent, switcher) with
  | Err e => mret (Err e)
  | Ok (desired, intent, switcher) =>
      '(planned, store) ← in_memory (switch_Plan (it_Target intent)) current;
      match planned with
      | Err e => mret (Err e)
      | Ok plan =>
          if negb (same_encoding (EncodeState (swp_candidate plan)) (EncodeState desired)) then mret (Err stale) else
          '(applied, store) ← in_memory (switch_Apply switcher plan) store;
          mret (result ← applied;
            reject (negb (swr_Changed result) || negb (bool_decide (swr_Previous result = first_active current))
                    || negb (bool_decide (swr_Active result = it_Target intent))
                    || negb (swr_StateGeneration result =? it_DesiredNodeGeneration intent)%N
                    || negb (bool_decide (he_Condition (swr_ActiveHealth result) = HealthHealthy)))
              (Message "deferred transport switch runtime returned an invalid activation result");;
            Ok (MkDeferredSwitchActivation store switcher (swr_Previous result) result))
      end
  end.

Definition set_da_store (store : State) (activation : DeferredSwitchActivation) : DeferredSwitchActivation :=
  MkDeferredSwitchActivation store (da_switcher activation) (da_previous activation) (da_result activation).

Definition deferred_Rollback (activation : DeferredSwitchActivation) : run (result unit * DeferredSwitchActivation) :=
  '(planned, store) ← in_memory (switch_Plan (da_previous activation)) (da_store activation);
  match planned with
  | Err e => mret (Err e, set_da_store store activation)
  | Ok plan =>
      '(applied, store) ← in_memory (switch_Apply (da_switcher activation) plan) store;
      mret (result ← applied;
        reject (negb (bool_decide (swr_Active result = da_previous activation))) (Message "rollback did not restore the previous selection"),
        set_da_store store activation)
  end.
End deferred.
Arguments DeferredNodeRuntime P : clear implicits.
Arguments DeferredSwitchActivation P : clear implicits.
