(* ===== verification/SwitchClaims.v ===== *)
(** * The calls of a switch and of a test

    What a switch does to the providers and to the state is a trace of calls.  A script
    lists the calls of the workflow in order, each with the answer that lets it go on; a
    trace follows a script when it stops at the first call that is not answered so.  The
    theorems about a switch, its undoing and a test are stated with scripts. *)

From S2P Require Import Prelude GoText GoConv GoNet GoTime Proc Types Checks Identity Address Expose Resources StateValidate Codec Samples StateFacts Operation Transition NodeOperation SwitchIntent Provider SwitchState SwitchFacts Switch.

Local Open Scope string_scope.
Local Open Scope list_scope.

(** ** Scripts *)

Record stage (E : Type) := Stage { made : E → Prop; good : E → Prop }.
Arguments Stage {E}.
Arguments made {E}.
Arguments good {E}.

(** The flag says that the script was completed. *)
Inductive follows {E : Type} : list (stage E) → list E → bool → Prop :=
  | follows_done : follows [] [] true
  | follows_stop script : follows script [] false
  | follows_bad s script e : made s e → follows (s :: script) [e] false
  | follows_good s script e es b : made s e → good s e → follows script es b → follows (s :: script) (e :: es) b.
#[export] Hint Constructors follows : core.

Lemma follows_app {E} (s1 s2 : list (stage E)) es1 es2 b : follows s1 es1 true → follows s2 es2 b → follows (s1 ++ s2) (es1 ++ es2) b.
Proof. remember true as t. intros H. revert Heqt. induction H; cbn; intros; try done; eauto. Qed.

Lemma follows_part {E} (s1 s2 : list (stage E)) es : follows s1 es false → follows (s1 ++ s2) es false.
Proof. remember false as t. intros H. revert Heqt. induction H; cbn; intros; try done; eauto. Qed.

Section runs.
Context {W P C : Type} `{!Providers W P C}.
Abbreviation run A := (transport_run (W := W) (P := P) (C := C) A).
Abbreviation event := (provider_event P C).

(** Every run of the program follows the script, completely when it succeeds; then its
    value and its calls are as promised. *)
Definition runs {A} (m : run (result A)) (script : list (stage event)) (post : A → list event → Prop) : Prop :=
  ∀ w, wp m w (λ r es _, follows script es (is_ok r) ∧ ∀ a, r = Ok a → post a es).
Definition whatever {A} (a : A) (es : list event) : Prop := True.

Lemma runs_ret {A} (r : result A) (post : A → list event → Prop) : (∀ a, r = Ok a → post a []) → runs (mret r) [] post.
Proof. intros Hp w. apply wp_ret. split; [|exact Hp]. destruct r; constructor. Qed.

Lemma runs_and_then {A B} (m : run (result A)) (k : A → run (result B)) s1 s2 (Q : A → list event → Prop) (R : B → list event → Prop) :
  runs m s1 Q → (∀ a es, Q a es → runs (k a) s2 (λ b es', R b (es ++ es'))) → runs (and_then m k) (s1 ++ s2) R.
Proof.
  intros Hm Hk w. unfold and_then. apply wp_bind. eapply wp_mono; [apply Hm|]. intros [a|e] es w1 [Hf Hq]; cbn [is_ok] in *.
  - eapply wp_mono; [by apply (Hk a es), Hq|]. intros r es' w2 [Hf' Hr]. split; [by apply follows_app|done].
  - apply wp_ret. rewrite app_nil_r. split; [by apply follows_part|done].
Qed.

(** One call and the check of its answer. *)
Lemma runs_call {A B} (f : W → result A * W) (log : result A → event) label (check : A → result B) (Q : B → list event → Prop) :
  (∀ a b, check a = Ok b → Q b [log (Ok a)]) →
  runs (and_then (provider_call f log label) (λ a, mret (check a)))
    [Stage (λ e, ∃ r, e = log r) (λ e, ∃ a b, e = log (Ok a) ∧ check a = Ok b)] Q.
Proof.
  intros HQ w. unfold and_then, provider_call. apply wp_bind, wp_bind, wp_call. intros r w1 _. apply wp_ret.
  destruct r as [a|e]; cbn [wrap].
  - apply wp_ret. cbn. destruct (check a) as [b|e] eqn:Hc; cbn; (split; [|naive_solver]).
    + apply follows_good; [naive_solver|naive_solver|constructor].
    + apply follows_bad. naive_solver.
  - apply wp_ret. cbn. split; [|done]. apply follows_bad. naive_solver.
Qed.

Lemma runs_mono {A} (m : run (result A)) script (Q Q' : A → list event → Prop) : runs m script Q → (∀ a es, Q a es → Q' a es) → runs m script Q'.
Proof. intros Hm Hq w. eapply wp_mono; [apply Hm|]. intros r es w' [Hf Ha]. split; [done|]. intros a Hr. by apply Hq, Ha. Qed.

Lemma runs_provider_call {A} (f : W → result A * W) (log : result A → event) label :
  runs (provider_call f log label) [Stage (λ e, ∃ r, e = log r) (λ e, ∃ a, e = log (Ok a))] (λ a es, es = [log (Ok a)]).
Proof.
  intros w. unfold provider_call. apply wp_bind, wp_call. intros r w1 _. apply wp_ret.
  destruct r as [a|e]; cbn; (split; [|naive_solver]); [apply follows_good; [naive_solver|naive_solver|constructor]|apply follows_bad; naive_solver].
Qed.

Lemma runs_quiet {A B} (f : W → A * W) (k : A → run (result B)) script Q :
  (∀ a, runs (k a) script Q) → runs (call f (λ _, []) ≫= k) script Q.
Proof. intros Hk w. apply wp_bind, wp_call. intros a w1 _. apply Hk. Qed.

Lemma runs_wrap {A} (m : run (result A)) label script Q : runs m script Q → runs (r ← m; mret (wrap label r)) script Q.
Proof.
  intros Hm w. apply wp_bind. eapply wp_mono; [apply Hm|]. intros r es w1 [Hf Hq]. apply wp_ret. rewrite app_nil_r. by destruct r.
Qed.

Lemma runs_check {A B} (r : result A) (k : A → run (result B)) script Q : (∀ a, r = Ok a → runs (k a) script Q) → runs (and_then (mret r) k) script Q.
Proof.
  intros Hk. apply (runs_and_then _ _ [] script (λ a es, r = Ok a ∧ es = [])); [apply runs_ret; auto|].
  intros a es [Ha ->]. by apply Hk.
Qed.

(** ** The script of a switch *)

Section script.
Context (pair : SwitchPair P C) (manager : Manager P) (target : TransportKind).

(** A call that must succeed. *)
Definition must (log : result unit → event) : stage event := Stage (λ e, ∃ r, e = log r) (λ e, e = log (Ok ())).

Definition healthy (h : TransportHealth) : Prop :=
  he_Validate h = Ok () ∧ he_Identity h = mg_identity manager ∧ he_Kind h = target ∧ he_Role h = RuntimeActive ∧ he_Condition h = HealthHealthy.
Definition must_be_healthy : stage event :=
  Stage (λ e, ∃ r, e = HealthSeen (pr_targetProvider pair) r) (λ e, ∃ h, e = HealthSeen (pr_targetProvider pair) (Ok h) ∧ healthy h).
Definition must_be_active : stage event :=
  Stage (λ e, ∃ r, e = HealthSeen (pr_targetProvider pair) r)
    (λ e, ∃ h, e = HealthSeen (pr_targetProvider pair) (Ok h) ∧ he_Validate h = Ok () ∧ he_Identity h = mg_identity manager ∧ he_Kind h = target ∧ he_Role h = RuntimeActive).
Definition must_be_standby : stage event :=
  Stage (λ e, ∃ r, e = HealthSeen (pr_oldProvider pair) r)
    (λ e, ∃ h, e = HealthSeen (pr_oldProvider pair) (Ok h) ∧ he_Validate h = Ok () ∧ he_Identity h = mg_identity manager ∧ he_Role h = RuntimeStandby).
Definition must_be_ready : stage event :=
  Stage (λ e, ∃ checks failure, e = Tested (pr_targetProvider pair) (pr_targetCandidate pair) checks failure)
    (λ e, ∃ checks, e = Tested (pr_targetProvider pair) (pr_targetCandidate pair) checks None ∧ te_Ready checks = true).
Definition must_drain : stage event :=
  Stage (λ e, ∃ q r, e = DrainTried (pr_oldProvider pair) q r ∧ dq_Identity q = mg_identity manager)
    (λ e, ∃ q, e = DrainTried (pr_oldProvider pair) q (Ok ())).

Definition staging_script : list (stage event) :=
  [must (Prepared (pr_targetProvider pair) (pr_targetCandidate pair)); must (CandidateChecked (pr_targetProvider pair) (pr_targetCandidate pair)); must_be_ready].
Definition moving_script : list (stage event) :=
  [must (ActivationTried (pr_targetProvider pair) (pr_targetCandidate pair)); must_be_healthy; must_drain; must_be_active; must_be_standby].

Lemma runs_must (f : W → result unit * W) (log : result unit → event) label : runs (provider_call f log label) [must log] (λ _ es, es = [log (Ok ())]).
Proof.
  intros w. eapply wp_mono; [apply runs_provider_call|]. intros r es w' [Hf Hq]. split; [|by intros [] ?; apply Hq]. clear -Hf. unfold must.
  inversion Hf as [|?|? ? ? Hm|? ? ? ? ? Hm Hg Hd]; subst; try done; [by constructor|]. apply follows_good; [done| |].
  - destruct Hg as [[] ->]. done.
  - by inversion Hd.
Qed.

Lemma runs_stage_target step : runs (stage_target step pair) staging_script whatever.
Proof.
  unfold stage_target, staging_script. apply (runs_and_then _ _ [_] [_; _] whatever); [by eapply runs_mono; [apply runs_must|]|]. intros [] ? _.
  apply (runs_and_then _ _ [_] [_] whatever); [by eapply runs_mono; [apply runs_must|]|]. intros [] ? _ w. apply wp_bind, wp_call. intros [checks failure] w1 _.
  apply wp_ret. cbn [app fst snd]. split; [|done]. destruct failure as [e|]; cbn [is_ok]; [apply follows_bad; eexists _, _; done|].
  destruct (te_Validate checks) as [[]|e] eqn:Hv; cbn [wrap mbind result_bind is_ok]; [|apply follows_bad; eexists _, _; done].
  destruct (te_Ready checks) eqn:Hr; cbn [negb reject is_ok]; [|apply follows_bad; eexists _, _; done].
  apply follows_good; [eexists _, _; done|by exists checks|constructor].
Qed.

Lemma validateHealth_ok (m : Manager P) h kind role : validateHealth m h kind role = Ok () ↔
  he_Validate h = Ok () ∧ he_Identity h = mg_identity m ∧ he_Kind h = kind ∧ he_Role h = role.
Proof.
  unfold validateHealth. destruct (he_Validate h) as [[]|e]; cbn [mbind result_bind]; [|naive_solver].
  destruct (decide (he_Identity h = mg_identity m)) as [Hi|Hi]; [rewrite (bool_decide_eq_true_2 _ Hi)|rewrite (bool_decide_eq_false_2 _ Hi)];
    cbn [negb reject mbind result_bind]; [|naive_solver].
  destruct (decide (he_Kind h = kind)) as [Hk|Hk]; [rewrite (bool_decide_eq_true_2 _ Hk)|rewrite (bool_decide_eq_false_2 _ Hk)];
    cbn [negb reject mbind result_bind]; [|naive_solver].
  rewrite reject_ok negb_false_iff bool_decide_eq_true. naive_solver.
Qed.

Lemma condition_ready_ok h : condition_ready h = Ok () ↔ he_Condition h = HealthHealthy.
Proof. unfold condition_ready. rewrite reject_ok negb_false_iff bool_decide_eq_true //. Qed.

Lemma follows_weaken (s s' : stage event) (e : list event) b : (∀ x, made s x → made s' x) → (∀ x, good s x → good s' x) →
  follows [s] e b → follows [s'] e b.
Proof.
  intros Hm Hg Hf. inversion Hf as [|?|? ? ? Hx|? ? ? ? ? Hx Hy Hz]; subst; [constructor|by apply follows_bad, Hm|].
  apply follows_good; [by apply Hm|by apply Hg|done].
Qed.

Lemma runs_weaken {A} (m : run (result A)) s s' Q : (∀ x, made s x → made s' x) → (∀ x, good s x → good s' x) → runs m [s] Q → runs m [s'] Q.
Proof. intros Hm Hg Hr w. eapply wp_mono; [apply Hr|]. intros r es w' [Hf Hq]. split; [by eapply follows_weaken|done]. Qed.

Context `{!SwitchClock W} (limits : SwitchLimits).

Lemma runs_activate : runs (activate_target limits manager pair target)
  [must (ActivationTried (pr_targetProvider pair) (pr_targetCandidate pair)); must_be_healthy] (λ _ es, ∃ h, es = [ActivationTried (pr_targetProvider pair) (pr_targetCandidate pair) (Ok ()); HealthSeen (pr_targetProvider pair) (Ok h)]).
Proof.
  unfold activate_target. apply (runs_and_then _ _ [_] [_] (λ _ es, es = [ActivationTried (pr_targetProvider pair) (pr_targetCandidate pair) (Ok ())])); [apply runs_must|].
  intros [] es ->. eapply runs_weaken; [..|apply runs_call]; [done| |by intros h ? _; exists h].
  intros e (h & b & -> & Hb). exists h. split; [done|]. apply bind_ok in Hb as ([] & (Hv & Hi & Hk & Hr)%wrap_ok%validateHealth_ok & Hc).
  destruct b. apply condition_ready_ok in Hc. by split_and!.
Qed.

Lemma runs_ask_health (m : Manager P) bound kind role provider : registry_Provider (mg_registry m) kind = Ok provider →
  runs (ask_health m bound kind role)
    [Stage (λ e, ∃ r, e = HealthSeen provider r)
      (λ e, ∃ h, e = HealthSeen provider (Ok h) ∧ he_Validate h = Ok () ∧ he_Identity h = mg_identity m ∧ he_Kind h = kind ∧ he_Role h = role)]
    (λ h es, es = [HealthSeen provider (Ok h)] ∧ he_Validate h = Ok () ∧ he_Identity h = mg_identity m ∧ he_Kind h = kind ∧ he_Role h = role).
Proof.
  intros Hp. unfold ask_health. rewrite Hp.
  eapply runs_weaken; [..|apply (runs_call (provider_Health provider bound (mg_identity m)) (HealthSeen provider) "observe transport"
    (λ health, wrap "observe transport" (validateHealth m health kind role);; Ok health))]; cbn [made good].
  - done.
  - intros e (h & b & -> & Hb). exists h. split; [done|]. apply bind_ok in Hb as ([] & Hv%wrap_ok%validateHealth_ok & _). done.
  - intros h b ([] & Hv%wrap_ok%validateHealth_ok & [= <-])%bind_ok. done.
Qed.

Definition other (kind : TransportKind) : TransportKind := if bool_decide (kind = TransportStandard) then TransportRestricted else TransportStandard.
Context (Htarget : registry_Provider (mg_registry manager) target = Ok (pr_targetProvider pair)).
Context (Hold : registry_Provider (mg_registry manager) (other target) = Ok (pr_oldProvider pair)).

Lemma runs_drain : runs (drain_previous limits manager pair target) [must_drain; must_be_active; must_be_standby]
  (λ h es, healthy h ∧ ∃ q h', es = [DrainTried (pr_oldProvider pair) q (Ok ()); HealthSeen (pr_targetProvider pair) (Ok h); HealthSeen (pr_oldProvider pair) (Ok h')]).
Proof.
  unfold drain_previous. apply runs_quiet. intros now. apply runs_check. intros [] _. set (q := MkDrainRequest _ _).
  apply (runs_and_then _ _ [_] [_; _] (λ _ es, es = [DrainTried (pr_oldProvider pair) q (Ok ())])).
  { eapply runs_weaken; [..|apply runs_must]; cbn [made good must must_drain]; [|by intros e ->; exists q]. intros e [r ->]. by exists q, r. }
  intros [] es ->. apply runs_check. intros tm Htm. apply bind_ok in Htm as (sel & Hsel & Htm). unfold NewSelection in Hsel. ok_inv Hsel. injection Hsel as <-.
  unfold NewManager in Htm. ok_inv Htm. injection Htm as <-. cbn [mg_identity mg_registry mg_selection sl_Active sl_Standby].
  rewrite -(app_nil_r [must_be_active; must_be_standby]).
  apply (runs_and_then _ _ _ [] (λ '(h, h') es, es = [HealthSeen (pr_targetProvider pair) (Ok h); HealthSeen (pr_oldProvider pair) (Ok h')] ∧
    he_Validate h = Ok () ∧ he_Identity h = mg_identity manager ∧ he_Kind h = target ∧ he_Role h = RuntimeActive)).
  - apply runs_wrap. unfold CheckSteadyState. cbn [mg_selection sl_Active sl_Standby].
    apply (runs_and_then _ _ [_] [_] (λ h es, es = [HealthSeen (pr_targetProvider pair) (Ok h)] ∧ he_Validate h = Ok () ∧ he_Identity h = mg_identity manager ∧ he_Kind h = target ∧ he_Role h = RuntimeActive)).
    { eapply runs_weaken; [..|exact (runs_ask_health (MkManager (mg_identity manager) _ (mg_registry manager)) _ _ _ _ Htarget)]; done. }
    intros h es (-> & Hh). rewrite -(app_nil_r [must_be_standby]).
    apply (runs_and_then _ _ [_] [] (λ h' es, es = [HealthSeen (pr_oldProvider pair) (Ok h')])).
    { eapply runs_weaken; [..|eapply runs_mono; [exact (runs_ask_health (MkManager (mg_identity manager) _ (mg_registry manager)) _ _ _ _ Hold)|by intros h' es' [-> _]]].
      - done.
      - intros e (h' & -> & ? & ? & _ & ?). by exists h'. }
    intros h' es ->. apply runs_ret. intros [x y] [= <- <-]. done.
  - intros [h h'] es (-> & Hv & Hi & Hk & Hr). apply runs_ret. cbn [fst]. intros x Hx. apply bind_ok in Hx as ([] & Hc%condition_ready_ok & [= <-]).
    split; [by split_and!|]. by exists q, h'.
Qed.

Lemma runs_moving : runs (and_then (activate_target limits manager pair target) (λ _, drain_previous limits manager pair target)) moving_script
  (λ h es, healthy h ∧ length es = 5%nat ∧ es !! 3%nat = Some (HealthSeen (pr_targetProvider pair) (Ok h))).
Proof.
  eapply (runs_and_then _ _ [_; _] [_; _; _]); [apply runs_activate|]. intros [] es [h0 ->]. eapply runs_mono; [apply runs_drain|].
  intros h es (Hh & q & h' & ->). done.
Qed.
End script.

(** ** Events of a followed script *)

Lemma follows_made (script : list (stage event)) es b e : follows script es b → e ∈ es → ∃ s, s ∈ script ∧ made s e.
Proof.
  induction 1 as [|?|s script x Hm|s script x es b Hm _ _ IH]; intros He; try set_solver.
Qed.

Lemma first_call {A B} (f : W → result A * W) (log : result A → event) label (k : A → run (result B)) w :
  wp (and_then (provider_call f log label) k) w (λ _ es _, ∃ r rest, es = log r :: rest).
Proof.
  unfold and_then, provider_call. apply wp_bind, wp_bind, wp_call. intros r w1 _. apply wp_ret. apply wp_intro. intros b es w' _.
  by exists r, es.
Qed.

Lemma first_of_and_then {A B} (m : run (result A)) (k : A → run (result B)) (first : event → Prop) w :
  wp m w (λ _ es _, ∃ e rest, es = e :: rest ∧ first e) → wp (and_then m k) w (λ _ es _, ∃ e rest, es = e :: rest ∧ first e).
Proof.
  intros Hm. unfold and_then. apply wp_bind. eapply wp_mono; [exact Hm|]. intros r es w1 (e & rest & -> & He). apply wp_intro.
  intros b es' w' _. by exists e, (rest ++ es').
Qed.

Lemma activation_first limits manager pair target w (B : Type) (k : unit → run (result B)) :
  wp (and_then (activate_target limits manager pair target) k) w
    (λ _ es _, ∃ e rest, es = e :: rest ∧ ∃ r, e = ActivationTried (pr_targetProvider pair) (pr_targetCandidate pair) r).
Proof.
  apply first_of_and_then. unfold activate_target. eapply wp_mono; [apply first_call|]. intros _ es w' (r & rest & ->). eauto 10.
Qed.

(** ** Undoing *)

Context `{!SwitchStore W, !SwitchClock W, !JSONValue State}.

Section undo.
Context (pair : SwitchPair P C).

(** The previous path is tried first, and the target removed once it is back. *)
Definition compensation (undo : list event) : Prop :=
  (∃ e, undo = [ActivationTried (pr_oldProvider pair) (pr_oldCandidate pair) (Err e)]) ∨
  ∃ r, undo = [ActivationTried (pr_oldProvider pair) (pr_oldCandidate pair) (Ok ()); RolledBack (pr_targetProvider pair) (pr_targetCandidate pair) r].

Lemma compensate_spec rollback cause w : wp (compensate rollback pair cause) w (λ _ es _, compensation es).
Proof.
  unfold compensate. apply wp_bind, wp_call. intros [[]|e] w1 _.
  - apply wp_bind, wp_call. intros r w2 _. apply wp_ret. cbn. right. by exists r.
  - apply wp_ret. left. by exists e.
Qed.

(** After a failed save the state is read again: unless it is the old one, the outcome is
    reported as uncertain and nothing is touched. *)
Definition reconciled (before : State) (e : error) (undo : list event) : Prop :=
  (∃ x, undo = [StateRead x] ∧ errors_is e ErrTransportSwitchCommitUncertain = true) ∨
  ∃ read rest, undo = StateRead (Ok read) :: rest ∧ same_encoding (EncodeState read) (EncodeState before) = true ∧ compensation rest.

Lemma reconcile_spec rollback before candidate saveErr w :
  wp (reconcileCommitFailure rollback pair before candidate saveErr) w (λ e es _, reconciled before e es).
Proof.
  unfold reconcileCommitFailure, read_state. apply wp_bind, wp_call. intros [read|e] w1 _.
  - destruct (same_encoding (EncodeState read) (EncodeState candidate)).
    { apply wp_ret. left. by eexists. }
    destruct (same_encoding (EncodeState read) (EncodeState before)) eqn:Hb.
    + eapply wp_mono; [apply compensate_spec|]. intros e' es w2 Hc. right. by exists read, es.
    + apply wp_ret. left. eexists. split; [done|]. by apply errors_join_is.
  - apply wp_ret. left. eexists. split; [done|]. by apply errors_join_is.
Qed.

Context (manager : Manager P) (target : TransportKind) (limits : SwitchLimits) (current candidate : State).
Context (Htarget : registry_Provider (mg_registry manager) target = Ok (pr_targetProvider pair)).
Context (Hold : registry_Provider (mg_registry manager) (other target) = Ok (pr_oldProvider pair)).

Definition save_event : result unit → event := StateWritten (st_Generation current) candidate.
Definition switch_script : list (stage event) := staging_script pair ++ moving_script pair manager target ++ [must save_event].

Definition tried_activation (es : list event) : Prop := ∃ r, ActivationTried (pr_targetProvider pair) (pr_targetCandidate pair) r ∈ es.
Definition tried_save (es : list event) : Prop := ∃ r, save_event r ∈ es.
(** The only save was the last call, and it failed. *)
Definition failed_save (es : list event) : Prop := ∃ before e, es = before ++ [save_event (Err e)] ∧ ¬ tried_save before.

(** What follows the calls of the script. *)
Definition undone {A} (fwd undo : list event) (r : result A) : Prop :=
  match r with
  | Ok _ => undo = []
  | Err e =>
      ¬ tried_activation fwd ∧ ¬ tried_save fwd ∧ (∃ x, undo = [RolledBack (pr_targetProvider pair) (pr_targetCandidate pair) x]) ∨
      tried_activation fwd ∧ ¬ tried_save fwd ∧ compensation undo ∨
      tried_activation fwd ∧ failed_save fwd ∧ reconciled current e undo
  end.

(** The state is saved only when the target was seen healthy after the drain. *)
Definition saved_healthy (fwd : list event) : Prop :=
  tried_save fwd → ∃ h, fwd !! 6%nat = Some (HealthSeen (pr_targetProvider pair) (Ok h)) ∧ healthy manager target h.

Lemma staging_quiet es b : follows (staging_script pair) es b → ¬ tried_activation es ∧ ¬ tried_save es.
Proof.
  intros Hf. split; intros [r Hr]; destruct (follows_made _ _ _ _ Hf Hr) as (s & Hs & Hm);
    repeat (apply elem_of_cons in Hs as [->|Hs]; [cbn in Hm; naive_solver|]); by apply not_elem_of_nil in Hs.
Qed.

Lemma moving_unsaved es b : follows (moving_script pair manager target) es b → ¬ tried_save es.
Proof.
  intros Hf [r Hr]. destruct (follows_made _ _ _ _ Hf Hr) as (s & Hs & Hm).
  repeat (apply elem_of_cons in Hs as [->|Hs]; [cbn in Hm; naive_solver|]). by apply not_elem_of_nil in Hs.
Qed.

Lemma switch_traffic_spec w : wp (switch_traffic limits manager pair target current candidate) w (λ r es _, ∃ fwd undo, es = fwd ++ undo ∧
  follows (moving_script pair manager target ++ [must save_event]) fwd (is_ok r) ∧ tried_activation fwd ∧
  (tried_save fwd → ∃ h, fwd !! 3%nat = Some (HealthSeen (pr_targetProvider pair) (Ok h)) ∧ healthy manager target h) ∧
  match r with Ok h => undo = [] ∧ healthy manager target h | Err e => ¬ tried_save fwd ∧ compensation undo ∨ failed_save fwd ∧ reconciled current e undo end).
Proof.
  unfold switch_traffic. apply wp_bind. apply wp_intro. intros moved es w1 Hrun.
  destruct (wp_run _ _ _ _ _ _ (runs_moving pair manager target limits Htarget Hold w) Hrun) as [Hf Hok].
  destruct (wp_run _ _ _ _ _ _ (activation_first limits manager pair target w _ _) Hrun) as (e0 & rest & Hes & r0 & ->).
  assert (Hact : tried_activation es) by (exists r0; rewrite Hes; left). assert (Hns := moving_unsaved _ _ Hf).
  destruct moved as [h|cause]; cbn [is_ok] in Hf.
  - destruct (Hok h eq_refl) as (Hh & Hlen & H3). apply wp_bind, wp_call. intros saved w2 _.
    assert (Hs : (es ++ [save_event saved]) !! 3%nat = Some (HealthSeen (pr_targetProvider pair) (Ok h))) by (apply lookup_app_l_Some; exact H3).
    destruct saved as [[]|saveErr].
    + apply wp_ret. exists (es ++ [save_event (Ok ())]), []. rewrite !app_nil_r. split_and!; try done; [|exists r0; set_solver|intros _; by exists h].
      apply follows_app; [done|]. apply follows_good; [by eexists|done|constructor].
    + apply wp_bind. eapply wp_mono; [apply reconcile_spec|]. intros e' es' w3 Hrec. apply wp_ret. exists (es ++ [save_event (Err saveErr)]), es'.
      rewrite app_nil_r -!app_assoc. split_and!; [done| |exists r0; set_solver|intros _; by exists h|].
      * apply follows_app; [done|]. apply follows_bad. by eexists.
      * right. split; [|done]. by exists es, saveErr.
  - apply wp_bind. eapply wp_mono; [apply compensate_spec|]. intros e' es' w2 Hc. apply wp_ret. exists es, es'. rewrite app_nil_r.
    split_and!; [done|by apply follows_part|done|done|by left].
Qed.
End undo.
End runs.

(** * What a switch and a test of a transport do

    The theorems about the workflows of [internal/transport]: the order of the calls of a
    switch and how a failed one is undone, and what a test leaves behind. *)

Section claims.
Context {W P C : Type} `{!Providers W P C, !SwitchStore W, !SwitchClock W, !JSONValue State}.
Abbreviation run A := (transport_run (W := W) (P := P) (C := C) A).
Abbreviation event := (provider_event P C).

(** Calls that change nothing. *)
Definition harmless (e : event) : Prop := match e with StateRead _ | Rendered _ _ _ => True | _ => False end.

(** A rendered candidate is the one of the transport. *)
Definition renders (t : Transport) (c : C) : Prop := Descriptor c = DescriptorFromTransport t.

Lemma switchCandidate_spec step provider t label w : wp (switchCandidate step provider t label) w (λ r es _,
  Forall harmless es ∧ ∀ c, r = Ok c → es = [Rendered provider t (Ok (Some c))] ∧ renders t c).
Proof.
  unfold switchCandidate, and_then, provider_call. apply wp_bind, wp_bind, wp_call. intros r w1 _. apply wp_ret.
  destruct r as [[c|]|e]; cbn [wrap]; apply wp_ret; cbn [app]; (split; [by repeat constructor|]); [|done..].
  intros x Hx%wrap_ok. apply bind_ok in Hx as ([] & Hd & [= <-]). by apply reject_ok, negb_false_iff, bool_decide_eq_true in Hd.
Qed.

(** The pair was rendered from the two transports by the providers of the registry. *)
Record rendered_pair (switcher : NodeSwitcher P) (plan : SwitchPlan) (transports : gmap TransportKind Transport) (pair : SwitchPair P C) : Prop := {
  rp_old : registry_Provider (sw_registry switcher) (swp_Current plan) = Ok (pr_oldProvider pair);
  rp_target : registry_Provider (sw_registry switcher) (swp_Target plan) = Ok (pr_targetProvider pair);
  rp_oldCandidate : renders (transport_of transports (swp_Current plan)) (pr_oldCandidate pair);
  rp_targetCandidate : renders (transport_of transports (swp_Target plan)) (pr_targetCandidate pair)
}.
Definition render_events (plan : SwitchPlan) (transports : gmap TransportKind Transport) (pair : SwitchPair P C) : list event :=
  [Rendered (pr_oldProvider pair) (transport_of transports (swp_Current plan)) (Ok (Some (pr_oldCandidate pair)));
   Rendered (pr_targetProvider pair) (transport_of transports (swp_Target plan)) (Ok (Some (pr_targetCandidate pair)))].

Lemma render_pair_spec switcher plan transports w : wp (render_pair switcher plan transports) w (λ r es _,
  Forall harmless es ∧ ∀ pair, r = Ok pair → es = render_events plan transports pair ∧ rendered_pair switcher plan transports pair).
Proof.
  unfold render_pair. destruct (registry_Provider _ (swp_Current plan)) as [old|] eqn:Ho; cbn [mbind result_bind]; [|by apply wp_ret].
  destruct (registry_Provider _ (swp_Target plan)) as [new|] eqn:Ht; cbn [mbind result_bind]; [|by apply wp_ret].
  unfold and_then. apply wp_bind. eapply wp_mono; [apply switchCandidate_spec|]. intros [oc|e] es w1 [Hh Hc].
  2:{ apply wp_ret. rewrite app_nil_r. by split. }
  destruct (Hc oc eq_refl) as [-> Hoc]. apply wp_bind. eapply wp_mono; [apply switchCandidate_spec|]. intros [tc|e] es' w2 [Hh' Hc'].
  2:{ apply wp_ret. rewrite app_nil_r. split; [by apply Forall_app_2|done]. }
  destruct (Hc' tc eq_refl) as [-> Htc]. apply wp_ret. split; [by repeat constructor|]. intros pair [= <-]. done.
Qed.

Lemma staged_spec limits (pair : SwitchPair P C) w : wp (staged_or_removed limits pair) w (λ r es _, ∃ fwd undo, es = fwd ++ undo ∧
  follows (staging_script pair) fwd (is_ok r) ∧
  match r with Ok _ => undo = [] | Err _ => ∃ x, undo = [RolledBack (pr_targetProvider pair) (pr_targetCandidate pair) x] end).
Proof.
  unfold staged_or_removed. apply wp_bind. eapply wp_mono; [apply runs_stage_target|]. intros [[]|e] es w1 [Hf _].
  - apply wp_ret. exists es, []. by rewrite app_nil_r.
  - apply wp_bind, wp_call. intros r w2 _. apply wp_ret. exists es, [RolledBack (pr_targetProvider pair) (pr_targetCandidate pair) r].
    cbn. split_and!; [done|done|by exists r].
Qed.

(** The run of a plan that changes the selection: nothing but reading and rendering, or the
    script of the switch and what undoes it. *)
Definition switch_run (switcher : NodeSwitcher P) (plan : SwitchPlan) (es : list event) (r : result SwitchResult) : Prop :=
  (∃ e, r = Err e) ∧ Forall harmless es ∨
  ∃ current node transports pair fwd undo manager,
    es = StateRead (Ok current) :: render_events plan transports pair ++ fwd ++ undo ∧
    check_plan plan current = Ok (node, transports) ∧ check_change plan current transports = Ok () ∧
    rendered_pair switcher plan transports pair ∧ mg_identity manager = node_identity node ∧
    follows (switch_script pair manager (swp_Target plan) current (swp_candidate plan)) fwd (is_ok r) ∧
    saved_healthy pair manager (swp_Target plan) current (swp_candidate plan) fwd ∧
    undone pair current (swp_candidate plan) fwd undo r ∧
    (∀ result, r = Ok result → result = MkSwitchResult (node_ID node) (swp_Current plan) (swp_Target plan) true
       (st_Generation (swp_candidate plan)) (swr_ActiveHealth result) ∧ healthy manager (swp_Target plan) (swr_ActiveHealth result)).

Lemma check_plan_ok plan current node transports : check_plan plan current = Ok (node, transports) →
  localNodeSwitchPair current = Ok (node, transports) ∧ EncodeState current = Ok (swp_beforeRaw plan) ∧
  swp_ExpectedStateGeneration plan = st_Generation current ∧ swp_Current plan = node_ActiveTransport node ∧
  isTransportKind (swp_Target plan) = true ∧ swp_Changed plan = negb (bool_decide (swp_Target plan = swp_Current plan)).
Proof.
  unfold check_plan. intros (raw & He%wrap_ok & ([] & Hr%reject_ok & ([n ts] & Hl & ([] & Hp%reject_ok & [= -> ->])%bind_ok)%bind_ok)%bind_ok)%bind_ok.
  rewrite !orb_false_iff !negb_false_iff String.eqb_eq N.eqb_eq in Hr. destruct Hr as [[_ ->] Hg].
  rewrite !orb_false_iff !negb_false_iff in Hp. destruct Hp as [[[_ Hc%bool_decide_eq_true] Hk] Hch%eqb_prop]. done.
Qed.

Lemma plan_other plan current node transports selection : check_plan plan current = Ok (node, transports) → NewSelection (node_ActiveTransport node) = Ok selection →
  swp_Changed plan = true → other (swp_Target plan) = swp_Current plan.
Proof.
  intros (_ & _ & _ & Hc & Hk & Hch)%check_plan_ok Hs Hchanged. apply bind_ok in Hs as ([] & Ha%reject_ok%negb_false_iff & _).
  rewrite Hchanged in Hch. symmetry in Hch. apply negb_true_iff, bool_decide_eq_false in Hch. rewrite -Hc in Ha. unfold other.
  destruct (swp_Target plan), (swp_Current plan); try done; by case_bool_decide.
Qed.

Lemma follows_length {E} (script : list (stage E)) es : follows script es true → length es = length script.
Proof. remember true as t. intros Hf. revert Heqt. induction Hf; cbn; intros; try done. f_equal. by apply IHHf. Qed.

Lemma joined_save (pair : SwitchPair P C) current candidate sf mf : ¬ tried_save current candidate sf →
  tried_save (P := P) (C := C) current candidate (sf ++ mf) ↔ tried_save current candidate mf.
Proof.
  intros Hn. split; intros [r Hr].
  - apply elem_of_app in Hr as [Hr|Hr]; [destruct Hn|]; by exists r.
  - exists r. set_solver.
Qed.

(** The rest of a switch whose target was staged. *)
Lemma switch_finished switcher plan current node transports pair sf mf undo manager r w :
  check_plan plan current = Ok (node, transports) → check_change plan current transports = Ok () →
  rendered_pair switcher plan transports pair → mg_identity manager = node_identity node →
  follows (staging_script pair) sf true →
  follows (moving_script pair manager (swp_Target plan) ++ [must (save_event current (swp_candidate plan))]) mf (is_ok r) →
  tried_activation pair mf →
  (tried_save current (swp_candidate plan) mf →
    ∃ h, mf !! 3%nat = Some (HealthSeen (pr_targetProvider pair) (Ok h)) ∧ healthy manager (swp_Target plan) h) →
  match r with
  | Ok h => undo = [] ∧ healthy manager (swp_Target plan) h
  | Err e => ¬ tried_save current (swp_candidate plan) mf ∧ compensation pair undo ∨ failed_save current (swp_candidate plan) mf ∧ reconciled pair current e undo
  end →
  wp (match r with Err e => mret (Err e) | Ok health =>
        mret (Ok (MkSwitchResult (node_ID node) (swp_Current plan) (swp_Target plan) true (st_Generation (swp_candidate plan)) health)) end : run (result SwitchResult)) w
    (λ r' es' _, switch_run switcher plan (StateRead (Ok current) :: render_events plan transports pair ++ sf ++ (mf ++ undo) ++ es') r').
Proof.
  intros Hcp Hcc Hpair Hid Hsf Hmf Hact Hsave Hend. destruct (staging_quiet pair current (swp_candidate plan) _ _ Hsf) as [_ Hns].
  assert (Hact' : tried_activation pair (sf ++ mf)) by (destruct Hact as [x Hx]; exists x; set_solver).
  assert (Hsh : saved_healthy pair manager (swp_Target plan) current (swp_candidate plan) (sf ++ mf)).
  { intros Hs%joined_save; [|done..]. destruct (Hsave Hs) as (h & H3 & Hh). exists h. split; [|done].
    rewrite lookup_app_r (follows_length _ _ Hsf); [cbn; lia|exact H3]. }
  destruct r as [h|e]; apply wp_ret; rewrite app_nil_r; right; exists current, node, transports, pair, (sf ++ mf), undo, manager;
    rewrite -!app_assoc; (split_and!; [done..|by apply follows_app|done| |]).
  - by destruct Hend.
  - intros result [= <-]. split; [done|]. by destruct Hend.
  - right. destruct Hend as [[Hs Hc]|[(before & e' & -> & Hs) Hc]]; [left; split_and!; [done|by rewrite joined_save|done]|right].
    split_and!; [done| |done]. exists (sf ++ before), e'. rewrite app_assoc. split; [done|by rewrite joined_save].
  - done.
Qed.

Lemma switch_apply_spec switcher plan w : swp_Changed plan = true → wp (switch_Apply switcher plan) w (λ r es _, switch_run switcher plan es r).
Proof.
  intros Hch. unfold switch_Apply, read_state. unfold and_then at 1. apply wp_bind, wp_bind, wp_call. intros [current|e] w1 _; apply wp_ret; cbn [wrap app].
  2:{ apply wp_ret. left. split; [by eexists|by repeat constructor]. }
  assert (Herr : ∀ (e : error) w', wp (mret (Err e) : run (result SwitchResult)) w' (λ r es' _, switch_run switcher plan (StateRead (Ok current) :: es') r)).
  { intros e w'. apply wp_ret. left. split; [by eexists|by repeat constructor]. }
  destruct (check_plan plan current) as [[node transports]|e] eqn:Hcp; [|apply Herr]. cbn [mbind result_bind].
  destruct (NewSelection (node_ActiveTransport node)) as [selection|e] eqn:Hsel; [|apply Herr]. cbn [mbind result_bind].
  destruct (NewManager (node_identity node) selection (sw_registry switcher)) as [manager|e] eqn:Hman; [|apply Herr]. cbn [mbind result_bind].
  assert (Hmg : mg_identity manager = node_identity node ∧ mg_registry manager = sw_registry switcher).
  { unfold NewManager in Hman. ok_inv Hman. by injection Hman as <-. }
  destruct Hmg as [Hid Hreg]. rewrite Hch. cbn [negb]. unfold and_then at 1. apply wp_bind, wp_ret. cbn [app].
  destruct (check_change plan current transports) as [[]|e] eqn:Hcc; [|apply Herr].
  unfold and_then at 1. apply wp_bind. eapply wp_mono; [apply render_pair_spec|]. intros [pair|e] es w2 [Hh Hp].
  2:{ apply wp_ret. rewrite app_nil_r. left. split; [by eexists|by constructor]. }
  destruct (Hp pair eq_refl) as [-> Hpair]. unfold and_then at 1. apply wp_bind. eapply wp_mono; [apply staged_spec|].
  intros [[]|e] es w3 (sf & su & -> & Hsf & Hsu); cbn [is_ok] in Hsf; destruct (staging_quiet pair current (swp_candidate plan) _ _ Hsf) as [Hna Hns].
  2:{ apply wp_ret. rewrite app_nil_r. right. exists current, node, transports, pair, sf, su, manager. split_and!; [done|done|done|done|done|by apply follows_part|intros Hs; by destruct Hns|left; by split_and!|done]. }
  subst su. rewrite app_nil_r. unfold and_then. apply wp_bind.
  assert (Hold : registry_Provider (mg_registry manager) (other (swp_Target plan)) = Ok (pr_oldProvider pair)).
  { rewrite (plan_other plan current node transports selection) // Hreg. apply Hpair. }
  assert (Htarget : registry_Provider (mg_registry manager) (swp_Target plan) = Ok (pr_targetProvider pair)) by (rewrite Hreg; apply Hpair).
  eapply wp_mono; [by apply switch_traffic_spec|]. intros r es w4 (mf & undo & -> & Hmf & Hact & Hsave & Hend).
  apply (switch_finished switcher plan current node transports pair sf mf undo manager); try done.
Qed.

(** C22: Whatever the providers and the state store answer, applying a plan that changes the
    selection either only reads the state and renders the two candidates, and fails, or it
    makes these calls in this order, stopping at the first that is not answered as it should:
    prepare, validate and test the target, activate it, see it healthy and active, drain the
    old path, see the target active and the old path on standby, and save exactly the planned
    state over the loaded generation, only if the target was healthy after the drain.  A
    switch succeeds exactly when all of this was done, and then nothing else is.  Otherwise: a
    target that was not yet activated is removed; after its activation the old path is
    activated again and only then the target removed; and after a failed save this happens
    only if the state read back is the old one, else the outcome is reported as uncertain and
    nothing is touched. *)
Theorem switch_is_make_before_break switcher plan w r es w' :
  switch_Apply switcher plan w = (r, es, w') → swp_Changed plan = true → switch_run switcher plan es r.
Proof. intros Hrun Hch. exact (wp_run _ _ _ _ _ _ (switch_apply_spec switcher plan w Hch) Hrun). Qed.

(** ** Tests *)

Definition test_script (provider : P) (candidate : C) : list (stage event) :=
  [must (Prepared provider candidate); must (CandidateChecked provider candidate);
   Stage (λ e, ∃ checks failure, e = Tested provider candidate checks failure)
     (λ e, ∃ checks, e = Tested provider candidate checks None ∧ te_Validate checks = Ok ())].

Lemma test_stages_spec step provider candidate execution w : wp (test_stages step provider candidate execution) w (λ '(ex, failure) es _,
  follows (test_script provider candidate) es (match failure with None => true | Some _ => false end) ∧
  ex_Cleaned ex = ex_Cleaned execution ∧ ex_Target ex = ex_Target execution ∧ ex_Selection ex = ex_Selection execution ∧
  ∀ checks, Tested provider candidate checks None ∈ es → ex_Checks ex = checks).
Proof.
  unfold test_stages, provider_call. apply wp_bind, wp_bind, wp_call. intros [[]|e] w1 _; apply wp_ret; cbn [wrap app].
  2:{ apply wp_ret. split_and!; try done; [apply follows_bad; by eexists|set_solver]. }
  apply wp_bind, wp_bind, wp_call. intros [[]|e] w2 _; apply wp_ret; cbn [wrap app].
  2:{ apply wp_ret. split_and!; try done; [|set_solver]. apply follows_good; [by eexists|done|]. apply follows_bad; by eexists. }
  apply wp_bind, wp_call. intros [checks failure] w3 _. apply wp_ret. cbn [app fst snd]. split_and!; try done; [|set_solver].
  apply follows_good; [by eexists|done|]. apply follows_good; [by eexists|done|].
  destruct failure as [e|]; cbn [is_ok]; [apply follows_bad; by eexists _, _|].
  destruct (te_Validate checks) as [[]|e] eqn:Hv; cbn [wrap error_of]; [|apply follows_bad; by eexists _, _].
  apply follows_good; [by eexists _, _|by exists checks|constructor].
Qed.

(** The staged part of a test and its cleanup. *)
Definition test_run (t : Transport) (es : list event) (execution : TestExecution) (failure : option error) : Prop :=
  (∃ e, failure = Some e) ∧ Forall harmless es ∧ ex_Cleaned execution = false ∨
  ∃ provider candidate stages x b, es = Rendered provider t (Ok (Some candidate)) :: stages ++ [RolledBack provider candidate x] ∧ renders t candidate ∧
    follows (test_script provider candidate) stages b ∧ ex_Cleaned execution = is_ok x ∧
    (failure = None ↔ b = true ∧ x = Ok ()) ∧
    ∀ checks, Tested provider candidate checks None ∈ stages → ex_Checks execution = checks.

Lemma TestTransport_spec manager target limits w : wp (TestTransport manager target limits) w (λ '(ex, failure) es _, test_run target es ex failure).
Proof.
  unfold TestTransport. destruct (normalized ← test_normalized limits; validateTestTarget manager target;; Ok normalized) as [normalized|e].
  2:{ apply wp_ret. left. split_and!; [by eexists|constructor|done]. }
  destruct (registry_Provider (mg_registry manager) (tr_Kind target)) as [provider|e].
  2:{ apply wp_ret. left. split_and!; [by eexists|constructor|done]. }
  apply wp_bind. eapply wp_mono; [apply switchCandidate_spec|]. intros [candidate|e] es w1 [Hh Hc].
  2:{ apply wp_ret. rewrite app_nil_r. left. split_and!; [by eexists|done|done]. }
  destruct (Hc candidate eq_refl) as [-> Hr]. apply wp_bind. eapply wp_mono; [apply test_stages_spec|].
  intros [ex failure] es w2 (Hf & Hcl & _ & _ & Hck). apply wp_bind, wp_call. intros x w3 _. cbn [ex_Cleaned] in Hcl.
  destruct x as [[]|e]; apply wp_ret; right.
  - exists provider, candidate, es, (Ok ()), (match failure with None => true | Some _ => false end). split_and!; try done. by destruct failure; naive_solver.
  - exists provider, candidate, es, (Err e), (match failure with None => true | Some _ => false end). split_and!; try done. naive_solver.
Qed.

(** A test of the local node. *)
Definition node_test (kind : TransportKind) (es : list event) (execution : TestExecution) (failure : option error) : Prop :=
  (∃ e, failure = Some e) ∧ Forall harmless es ∧ ex_Cleaned execution = false ∨
  ∃ before node t provider candidate stages x y b,
    es = StateRead (Ok before) :: Rendered provider t (Ok (Some candidate)) :: stages ++ [RolledBack provider candidate x; StateRead y] ∧
    localNodeTestTarget before kind = Ok (node, t) ∧ renders t candidate ∧
    follows (test_script provider candidate) stages b ∧ ex_Cleaned execution = is_ok x ∧ ex_StateGeneration execution = st_Generation before ∧
    (failure = None ↔ b = true ∧ x = Ok () ∧ ∃ after, y = Ok after ∧ same_encoding (EncodeState after) (EncodeState before) = true) ∧
    ∀ checks, Tested provider candidate checks None ∈ stages → ex_Checks execution = checks.

Lemma join_failure_some first second : ∃ e, join_failure first second = Some e.
Proof. by eexists. Qed.

(** The comparison of the state after the test decides. *)
Lemma test_compared kind before node t beforeBytes ex failure es y : localNodeTestTarget before kind = Ok (node, t) → EncodeState before = Ok beforeBytes →
  test_run t es ex failure →
  let '(ex', failure') := match y with
    | Err e => (set_ex_StateGeneration (st_Generation before) ex, join_failure failure (Wrapped "load node state after transport test" e))
    | Ok after => match EncodeState after with
        | Err e => (set_ex_StateGeneration (st_Generation before) ex, join_failure failure (Wrapped "validate node state after transport test" e))
        | Ok afterBytes => if String.eqb afterBytes beforeBytes then (set_ex_StateGeneration (st_Generation before) ex, failure)
            else (set_ex_StateGeneration (st_Generation before) ex, join_failure failure (Sentinel ErrTransportTestStateChanged))
        end
    end in
  node_test kind (StateRead (Ok before) :: es ++ [StateRead y]) ex' failure'.
Proof.
  intros Ht Hb Hrun. set (out := match y with Err _ => _ | Ok _ => _ end).
  assert (Hout : out.1 = set_ex_StateGeneration (st_Generation before) ex ∧
    (out.2 = failure ∧ (∃ after, y = Ok after ∧ same_encoding (EncodeState after) (EncodeState before) = true) ∨
     (∃ e, out.2 = Some e) ∧ ¬ ∃ after, y = Ok after ∧ same_encoding (EncodeState after) (EncodeState before) = true)).
  { unfold out. rewrite Hb. destruct y as [after|e]; [|split; [done|right; split; [apply join_failure_some|naive_solver]]].
    destruct (EncodeState after) as [bytes|e] eqn:Ha; [|split; [done|right; split; [apply join_failure_some|]]; intros (? & [= <-] & Hs); by rewrite Ha in Hs].
    destruct (String.eqb bytes beforeBytes) eqn:He; split; try done; [left; split; [done|]; exists after; by rewrite Ha|].
    right. split; [apply join_failure_some|]. intros (? & [= <-] & Hs). rewrite Ha in Hs. cbn in Hs. by rewrite He in Hs. }
  clearbody out. destruct out as [ex' failure']. cbn [fst snd] in Hout. destruct Hout as [-> Hcase].
  destruct Hrun as [([e ->] & Hh & Hc)|(provider & candidate & stages & x & b & -> & Hr & Hf & Hc & Hiff & Hck)].
  - left. split_and!; [by destruct Hcase as [[-> _]|[? _]]; eauto| |exact Hc]. constructor; [done|]. apply Forall_app_2; [done|by repeat constructor].
  - right. exists before, node, t, provider, candidate, stages, x, y, b. cbn [app]. rewrite -app_assoc.
    split_and!; [done..| |exact Hck]. destruct Hcase as [[-> Hs]|[[e ->] Hs]]; naive_solver.
Qed.

Lemma tester_spec tester kind w : wp (tester_Test tester kind) w (λ '(ex, failure) es _, node_test kind es ex failure).
Proof.
  unfold tester_Test, read_state. destruct (isTransportKind kind); cbn [negb].
  2:{ apply wp_ret. left. split_and!; [by eexists|constructor|done]. }
  apply wp_bind, wp_call. intros loaded w1 _.
  destruct (before ← _; _) as [[[[before beforeBytes] target] manager]|e] eqn:Hpre.
  2:{ apply wp_ret. left. split_and!; [by eexists|by repeat constructor|done]. }
  apply bind_ok in Hpre as (before' & ->%wrap_ok & Hpre). apply bind_ok in Hpre as (bytes & Hb%wrap_ok & Hpre).
  apply bind_ok in Hpre as ([node t] & Ht & Hpre). apply bind_ok in Hpre as (sel & _ & Hpre). apply bind_ok in Hpre as (m & _ & [= -> -> -> ->]).
  apply wp_bind. eapply wp_mono; [apply TestTransport_spec|]. intros [ex failure] es w2 Hrun. apply wp_bind, wp_call. intros y w3 _. apply wp_ret.
  rewrite app_nil_r. pose proof (test_compared kind before node target beforeBytes ex failure es y Ht Hb Hrun) as Hcmp. revert Hcmp.
  match goal with |- (let '(_, _) := ?out in _) → _ => by destruct out end.
Qed.

(** A test of a transport never activates, drains or saves anything: it reads the state,
    renders the target, prepares, validates and probes it, stopping at the first failure, and
    once preparing was tried it always removes the candidate before it reads the state again.
    It reports success exactly when every probe answered with a valid report, the candidate
    was removed and the state encodes as before; the report of the probes is the provider's. *)
Theorem test_leaves_nothing tester kind w execution failure es w' :
  tester_Test tester kind w = ((execution, failure), es, w') →
  node_test kind es execution failure.
Proof. intros Hrun. exact (wp_run _ _ _ _ _ _ (tester_spec tester kind w) Hrun). Qed.
End claims.

(** ** Witnesses

    Providers that obey: one of them is the runtime selection, the other is on standby. *)

Record sample_world := SampleWorld { world_state : State; world_active : TransportKind }.

Definition sample_health (kind : TransportKind) (identity : TransportIdentity) (w : sample_world) : TransportHealth :=
  MkTransportHealth identity kind (if bool_decide (world_active w = kind) then RuntimeActive else RuntimeStandby) HealthHealthy "ok".
Definition passed : PathProbe := MkPathProbe ProbePassed "ok".

#[export] Instance obedient : Providers sample_world TransportKind CandidateDescriptor := {
  provider_Kind p := p;
  Descriptor c := c;
  provider_Render _ _ request w := (Ok (Some (DescriptorFromTransport (rq_Transport request))), w);
  provider_Prepare _ _ _ w := (Ok (), w);
  provider_Validate _ _ _ w := (Ok (), w);
  provider_StartTest _ _ _ w := ((MkTestResult passed passed passed passed, None), w);
  provider_Activate p _ _ w := (Ok (), SampleWorld (world_state w) p);
  provider_Health p _ identity w := (Ok (sample_health p identity w), w);
  provider_Drain _ _ _ w := (Ok (), w);
  provider_Rollback _ _ _ w := (Ok (), w)
}.
#[export] Instance sample_store : SwitchStore sample_world := {
  state_Load w := (Ok (world_state w), w);
  state_Save _ candidate w := (Ok (), SampleWorld candidate (world_active w))
}.
#[export] Instance sample_clock : SwitchClock sample_world := { clock_Now w := (Idempotency.day 5, w) }.
#[export] Instance state_text : JSONValue State := { marshal s := Ok (itoa (st_Generation s)); decode _ := Err EOF }.

Definition sample_registry : Registry TransportKind := MkRegistry [(TransportStandard, TransportStandard); (TransportRestricted, TransportRestricted)].
Definition sample_switcher : NodeSwitcher TransportKind := MkNodeSwitcher sample_registry (MkSwitchLimits (90 * second) (30 * second) (10 * second) (10 * second)).
Definition sample_plan : SwitchPlan :=
  MkSwitchPlan (uuid "11") TransportStandard TransportRestricted 4 5 true idle_pair_state restricted_state
    (match EncodeState idle_pair_state with Ok text => text | Err _ => "" end).
Definition first_world : sample_world := SampleWorld idle_pair_state TransportStandard.
Definition sample_run := switch_Apply sample_switcher sample_plan first_world.
Definition sample_tester : NodeTester TransportKind := MkNodeTester sample_registry (MkTestLimits (45 * second) (30 * second) (10 * second)).
Definition sample_test := tester_Test sample_tester TransportRestricted first_world.

Lemma planned : switch_Plan TransportRestricted first_world = (Ok sample_plan, [StateRead (Ok idle_pair_state)] : list (provider_event TransportKind CandidateDescriptor), first_world).
Proof. by vm_compute. Qed.

Lemma switch_is_make_before_break_witness : switch_run sample_switcher sample_plan sample_run.1.2 sample_run.1.1 ∧
  is_ok sample_run.1.1 = true ∧ world_state sample_run.2 = restricted_state.
Proof.
  split_and!; [|vm_compute; reflexivity..].
  apply (switch_is_make_before_break sample_switcher sample_plan first_world sample_run.1.1 sample_run.1.2 sample_run.2); [|reflexivity].
  fold sample_run. by destruct sample_run as [[r es] w'].
Defined.

Lemma test_leaves_nothing_witness : node_test TransportRestricted sample_test.1.2 sample_test.1.1.1 sample_test.1.1.2 ∧
  sample_test.1.1.2 = None ∧ ex_Ready sample_test.1.1.1 = true.
Proof.
  split_and!; [|vm_compute; reflexivity..].
  apply (test_leaves_nothing sample_tester TransportRestricted first_world sample_test.1.1.1 sample_test.1.1.2 sample_test.1.2 sample_test.2).
  fold sample_test. by destruct sample_test as [[[ex f] es] w'].
Defined.
