(* ===== verification/DeferredClaims.v ===== *)
(** * Deferred activations

    A switch that waits for the gateway runs over a state in memory.  The state in memory is
    determined by the calls that were made, so the theorems about the calls of a switch say
    what it holds. *)

From S2P Require Import Prelude GoText GoConv GoNet GoTime Proc Types Checks Identity Address Expose Resources StateValidate Codec Samples StateFacts Operation Transition NodeOperation SwitchIntent Provider SwitchState SwitchFacts DeferredFacts Switch SwitchClaims.

Local Open Scope string_scope.
Local Open Scope list_scope.

Section deferred.
Context {W P C : Type} `{!Providers W P C, !SwitchClock W, !JSONValue State}.
Abbreviation run A := (transport_run (W := W) (P := P) (C := C) A).
Abbreviation inner A := (transport_run (W := W * State) (P := P) (C := C) A).
Abbreviation event := (provider_event P C).
#[local] Existing Instances ephemeral_providers ephemeral_clock ephemeral_store.

(** The state in memory after the calls. *)
Definition written (e : event) (s : State) : State := match e with StateWritten _ candidate (Ok _) => candidate | _ => s end.
Definition stored (es : list event) (s : State) : State := foldl (λ s e, written e s) s es.

Definition tracks {A} (m : inner A) : Prop := ∀ ws, wp m ws (λ _ es ws', ws'.2 = stored es ws.2).

Lemma tracks_ret {A} (a : A) : tracks (mret a).
Proof. intros ws. by apply wp_ret. Qed.

Lemma tracks_bind {A B} (m : inner A) (k : A → inner B) : tracks m → (∀ a, tracks (k a)) → tracks (m ≫= k).
Proof.
  intros Hm Hk ws. apply wp_bind. eapply wp_mono; [apply Hm|]. intros a es ws1 H1. eapply wp_mono; [apply Hk|].
  intros b es' ws2 H2. rewrite H2 H1. unfold stored. by rewrite foldl_app.
Qed.

Lemma tracks_and_then {A B} (m : inner (result A)) (k : A → inner (result B)) : tracks m → (∀ a, tracks (k a)) → tracks (and_then m k).
Proof. intros Hm Hk. apply tracks_bind; [done|]. intros [a|e]; [done|apply tracks_ret]. Qed.

(** Calls of the providers and of the clock leave the state in memory alone. *)
Lemma tracks_call {A} (f : W → A * W) (log : A → list event) : (∀ a s, stored (log a) s = s) → tracks (call (beside f) log).
Proof. intros Hlog ws. apply wp_call. intros a ws' Hc. unfold beside in Hc. destruct (f ws.1) as [b w']. injection Hc as <- <-. cbn. by rewrite Hlog. Qed.

Lemma tracks_read : tracks (call state_Load (λ r, [StateRead r])).
Proof. intros ws. apply wp_call. by intros a ws' [= <- <-]. Qed.

Lemma tracks_save g c : tracks (call (state_Save g c) (λ r, [StateWritten g c r])).
Proof.
  intros ws. apply wp_call. intros r ws' Hs. cbn in Hs. unfold ephemeral_save in Hs.
  destruct (negb _); [by injection Hs as <- <-|]. destruct (ValidateTransition ws.2 c) as [[]|e]; by injection Hs as <- <-.
Qed.

Lemma tracks_provider_call {A} (f : W → result A * W) (log : result A → event) label : (∀ a s, written (log a) s = s) → tracks (provider_call (beside f) log label).
Proof. intros Hlog. apply tracks_bind; [by apply tracks_call|intros; apply tracks_ret]. Qed.

Ltac track :=
  repeat match goal with
  | |- tracks (match ?x with _ => _ end) => destruct x
  | |- tracks (mret _) => apply tracks_ret
  | |- tracks (and_then _ _) => apply tracks_and_then; [|intros ?]
  | |- tracks (provider_call _ _ _) => by apply tracks_provider_call
  | |- tracks (mbind _ _) => apply tracks_bind; [|intros ?]
  | |- tracks (call state_Load _) => apply tracks_read
  | |- tracks (call (state_Save _ _) _) => apply tracks_save
  | |- tracks (call _ _) => by apply tracks_call
  end.

Lemma tracks_health manager bound kind role : tracks (ask_health manager bound kind role).
Proof. unfold ask_health. track. Qed.

Lemma tracks_render step (provider : P) t label : tracks (switchCandidate step provider t label).
Proof. unfold switchCandidate. track. Qed.

Lemma tracks_compensate rollback (pair : SwitchPair P C) cause : tracks (compensate rollback pair cause).
Proof. unfold compensate. track. Qed.

Lemma tracks_apply switcher plan : tracks (switch_Apply switcher plan).
Proof.
  unfold switch_Apply, ObserveActive, render_pair, staged_or_removed, stage_target, switch_traffic, activate_target, drain_previous, CheckSteadyState,
    reconcileCommitFailure, read_state.
  repeat (track; try apply tracks_health; try apply tracks_render; try apply tracks_compensate).
Qed.

(** ** Planning in memory *)

Definition plan_for (s : State) (raw : string) (node : Node) (target : TransportKind) : SwitchPlan :=
  if bool_decide (target = node_ActiveTransport node)
  then MkSwitchPlan (node_ID node) (node_ActiveTransport node) target (st_Generation s) (st_Generation s) false s s raw
  else MkSwitchPlan (node_ID node) (node_ActiveTransport node) target (st_Generation s) (st_Generation s + 1) true s (switched s node target) raw.

Lemma encoded_valid s raw : EncodeState s = Ok raw → Validate s = Ok ().
Proof. intros ([] & H%wrap_ok & _)%bind_ok. done. Qed.

Lemma plan_spec target s (w : W) r s' (es : list event) w' : in_memory (switch_Plan target) s w = (r, s', es, w') → s' = s ∧ w' = w ∧
  ∀ plan, r = Ok plan ↔ ∃ raw node, EncodeState s = Ok raw ∧ isTransportKind target = true ∧ switchable s node ∧
    (target ≠ node_ActiveTransport node → st_Generation s ≠ max_uint64) ∧ plan = plan_for s raw node target.
Proof.
  unfold in_memory, switch_Plan, read_state. destruct (isTransportKind target) eqn:Hk; cbn [negb].
  2:{ intros [= <- <- <- <-]. split_and!; [done..|]. intros plan. naive_solver. }
  cbn -[EncodeState localNodeSwitchPair switchedNodeState]. intros [= <- <- <- <-]. split_and!; [done..|]. intros plan.
  destruct (EncodeState s) as [raw|e] eqn:He; cbn [wrap mbind result_bind]; [|naive_solver]. assert (Hv := encoded_valid s raw He).
  destruct (localNodeSwitchPair s) as [[node transports]|e] eqn:Hp; cbn [mbind result_bind].
  2:{ split; [done|]. intros (? & node & _ & _ & Hs & _). by rewrite (proj2 (localNodeSwitchPair_ok s Hv node _) (conj Hs eq_refl)) in Hp. }
  apply localNodeSwitchPair_ok in Hp as [Hs ->]; [|done]. pose proof Hs as ([trust Hen] & Hl & _).
  assert (Huniq : ∀ n, switchable s n → n = node) by (intros n ([t' He'] & _); rewrite Hen in He'; congruence).
  unfold plan_for. case_bool_decide as Ha.
  - split; [intros [= <-]; exists raw, node; rewrite bool_decide_eq_true_2 //|]. intros (? & n & [= <-] & _ & ->%Huniq & _ & ->). by rewrite bool_decide_eq_true_2.
  - rewrite (pair_standby s Hv node trust) //; [by apply (kinds_configured s node)|]. cbn [negb reject mbind result_bind]. split.
    + intros (candidate & [Hg ->]%(switchedNodeState_exact s node trust) & [= <-])%bind_ok; try done. exists raw, node. by rewrite bool_decide_eq_false_2.
    + intros (? & n & [= <-] & _ & ->%Huniq & Hg & ->). rewrite bool_decide_eq_false_2 //.
      by rewrite (proj2 (switchedNodeState_exact s node trust _ Hv Hen _ Hs Hk Ha) (conj (Hg Ha) eq_refl)).
Qed.

(** ** Applying in memory *)

Lemma stored_none es s : (∀ g c, StateWritten g c (Ok ()) ∉ es) → stored es s = s.
Proof.
  revert s. induction es as [|e es IH]; intros s Hn; [done|]. change (stored (e :: es) s) with (stored es (written e s)). rewrite IH; [intros g c Hin; by apply (Hn g c); right|].
  destruct e as [| | | | | | | | |g c [[]|]]; try done. destruct (Hn g c). left.
Qed.

Lemma last_saved (script : list (stage event)) (log : result unit → event) es : follows (script ++ [must log]) es true → ∃ before, es = before ++ [log (Ok ())].
Proof.
  revert es. induction script as [|s script IH]; intros es; cbn; inversion 1 as [| | |? ? e es' ? Hm Hg Hf]; subst.
  - inversion Hf; subst. cbn in Hg. subst e. by exists [].
  - destruct (IH _ Hf) as [before ->]. by exists (e :: before).
Qed.

Lemma only_save (pair : SwitchPair P C) manager target current candidate fwd b g c r :
  follows (switch_script pair manager target current candidate) fwd b → StateWritten g c r ∈ fwd →
  (StateWritten g c r : event) = save_event current candidate r.
Proof.
  intros Hf Hin. destruct (follows_made _ _ _ _ Hf Hin) as (st & Hst & Hm). unfold switch_script in Hst.
  repeat (apply elem_of_cons in Hst as [->|Hst]; [cbn in Hm; first [naive_solver | by destruct Hm as [? [= -> -> ->]]]|]).
  by apply not_elem_of_nil in Hst.
Qed.

Lemma undo_unsaved (pair : SwitchPair P C) undo g c : compensation pair undo → StateWritten g c (Ok ()) ∉ undo.
Proof. intros [[e ->]|[r ->]]; set_solver. Qed.

Lemma reconciled_unsaved (pair : SwitchPair P C) before e undo g c : reconciled pair before e undo → StateWritten g c (Ok ()) ∉ undo.
Proof.
  intros [(x & -> & _)|(read & rest & -> & _ & Hc)]; [set_solver|]. apply not_elem_of_cons. split; [done|by apply undo_unsaved with pair].
Qed.

Lemma apply_in_memory switcher plan s (w : W) r s' (es : list event) w' : in_memory (switch_Apply switcher plan) s w = (r, s', es, w') → swp_Changed plan = true →
  (∃ result, r = Ok result ∧ s' = swp_candidate plan ∧ swr_Changed result = true ∧ swr_Previous result = swp_Current plan ∧
     swr_Active result = swp_Target plan ∧ swr_StateGeneration result = st_Generation (swp_candidate plan) ∧ he_Condition (swr_ActiveHealth result) = HealthHealthy) ∨
  (∃ e, r = Err e) ∧ s' = s ∧ ∀ g c, StateWritten g c (Ok ()) ∉ es.
Proof.
  unfold in_memory. destruct (switch_Apply switcher plan (w, s)) as [[r0 es0] ws] eqn:Hrun. intros [= <- <- <- <-] Hch.
  assert (Hst := wp_run _ _ _ _ _ _ (tracks_apply switcher plan (w, s)) Hrun). cbn [snd] in Hst. rewrite Hst.
  destruct (wp_run _ _ _ _ _ _ (switch_apply_spec switcher plan (w, s) Hch) Hrun)
    as [[[e ->] Hh]|(current & node & transports & pair & fwd & undo & manager & -> & _ & _ & _ & _ & Hf & _ & Hu & Hres)].
  - right. assert (Hn : ∀ g c, StateWritten g c (Ok ()) ∉ es0) by (intros g c Hin; rewrite Forall_forall in Hh; by apply (Hh _ Hin)).
    split_and!; [by eexists|by apply stored_none|done].
  - destruct r0 as [result|e]; cbn [is_ok] in Hf.
    + left. destruct (Hres result eq_refl) as [Hr Hh]. cbn in Hu. subst undo. rewrite app_nil_r. exists result. rewrite Hr. cbn [swr_Changed swr_Previous swr_Active swr_StateGeneration].
      split_and!; try done; [|apply Hh]. unfold switch_script in Hf. rewrite app_assoc in Hf. apply last_saved in Hf as [before ->].
      unfold stored. cbn [foldl]. by rewrite !foldl_app.
    + right. set (all := StateRead (Ok current) :: _). assert (Hn : ∀ g c, StateWritten g c (Ok ()) ∉ all); [|split_and!; [by eexists|by apply stored_none|done]].
      intros g c. unfold all. rewrite not_elem_of_cons !not_elem_of_app. cbn in Hu.
      assert (Hfwd : (StateWritten g c (Ok ()) ∉ fwd) ∧ (StateWritten g c (Ok ()) ∉ undo)).
      { destruct Hu as [(_ & Hn & x & ->)|[(_ & Hn & Hc)|(_ & (before & e' & Heq & Hn) & Hc)]].
        - split; [|set_solver]. intros Hin. apply Hn. exists (Ok ()). by rewrite -(only_save _ _ _ _ _ _ _ _ _ _ Hf Hin).
        - split; [|by apply undo_unsaved with pair]. intros Hin. apply Hn. exists (Ok ()). by rewrite -(only_save _ _ _ _ _ _ _ _ _ _ Hf Hin).
        - split; [|by apply (reconciled_unsaved pair current e)]. intros Hin. assert (Hs := only_save _ _ _ _ _ _ _ _ _ _ Hf Hin).
          rewrite Heq in Hin. apply elem_of_app in Hin as [Hin|Hin%list_elem_of_singleton]; [|done]. apply Hn. exists (Ok ()). by rewrite -Hs. }
      split_and!; [done|set_solver|apply Hfwd|apply Hfwd].
Qed.

(** ** Activation and rollback *)

Lemma plan_quiet target s (w : W) r s' (es : list event) w' g c : in_memory (switch_Plan target) s w = (r, s', es, w') → StateWritten g c (Ok ()) ∉ es.
Proof.
  unfold in_memory, switch_Plan, read_state. destruct (isTransportKind target); cbn [negb].
  - cbn -[EncodeState localNodeSwitchPair switchedNodeState]. intros [= _ _ <- _]. set_solver.
  - intros [= _ _ <- _]. set_solver.
Qed.

(** A plan that changes nothing only asks the active provider for its health. *)
Lemma unchanged_spec switcher plan ws : swp_Changed plan = false → wp (switch_Apply switcher plan : inner (result SwitchResult)) ws (λ r es _,
  (∀ g c, StateWritten g c (Ok ()) ∉ es) ∧ ∀ result, r = Ok result → swr_Active result = swp_Current plan).
Proof.
  intros Hch. unfold switch_Apply, read_state. unfold and_then at 1. apply wp_bind, wp_bind, wp_call. intros [current|e] ws1 _; apply wp_ret; cbn [wrap app].
  2:{ apply wp_ret. split; [set_solver|done]. }
  destruct (_ ≫= _) as [[[node transports] manager]|e]; [|apply wp_ret; split; [set_solver|done]].
  rewrite Hch. cbn [negb]. unfold ObserveActive, ask_health. destruct (registry_Provider _ _) as [provider|e].
  2:{ apply wp_bind, wp_ret. apply wp_ret. split; [set_solver|done]. }
  unfold and_then. apply wp_bind, wp_bind, wp_bind, wp_call. intros [h|e] ws2 _; apply wp_ret; cbn [wrap].
  2:{ apply wp_ret. apply wp_ret. split; [set_solver|done]. }
  apply wp_ret. destruct (_ ≫= _) as [h'|e]; apply wp_ret; (split; [set_solver|]); [by intros result [= <-]|done].
Qed.

Lemma unchanged_in_memory switcher plan s (w : W) r s' (es : list event) w' : in_memory (switch_Apply switcher plan) s w = (r, s', es, w') →
  swp_Changed plan = false → s' = s ∧ ∀ result, r = Ok result → swr_Active result = swp_Current plan.
Proof.
  unfold in_memory. destruct (switch_Apply switcher plan (w, s)) as [[r0 es0] ws] eqn:Hrun. intros [= <- <- <- <-] Hch.
  assert (Hst := wp_run _ _ _ _ _ _ (tracks_apply switcher plan (w, s)) Hrun). cbn [snd] in Hst. rewrite Hst.
  destruct (wp_run _ _ _ _ _ _ (unchanged_spec switcher plan (w, s) Hch) Hrun) as [Hq Hr]. split; [by apply stored_none|done].
Qed.

Lemma deferred_Activate_spec runtime current operation w : wp (deferred_Activate runtime current operation) w (λ r es _,
  match r with
  | Err _ => ∀ g c, StateWritten g c (Ok ()) ∉ es
  | Ok a => ∃ node intent, awaits current operation intent node ∧ da_store a = switched current node (it_Target intent) ∧
      da_previous a = node_ActiveTransport node ∧ (∃ raw, EncodeState (da_store a) = Ok raw) ∧ Validate current = Ok ()
  end).
Proof.
  unfold deferred_Activate. destruct (Validate current) as [[]|e] eqn:Hv.
  2:{ unfold DeferredSwitchDesiredState. rewrite Hv. apply wp_ret. set_solver. }
  destruct (DeferredSwitchDesiredState current operation) as [[desired intent]|e] eqn:Hd; [|apply wp_ret; set_solver]. cbn [mbind result_bind].
  destruct (NewNodeSwitcher _ _) as [switcher|e]; [|apply wp_ret; set_solver]. cbn [mbind result_bind].
  apply (deferred_exact current operation Hv) in Hd as (node & Ha & ->). apply wp_bind, wp_intro. intros [planned store] es w1 Hplan.
  destruct (plan_spec _ _ _ _ _ _ _ Hplan) as (-> & -> & Hiff).
  destruct planned as [plan|e]; [|apply wp_ret; rewrite app_nil_r; intros g c; by apply (plan_quiet _ _ _ _ _ _ _ g c Hplan)].
  destruct (proj1 (Hiff plan) eq_refl) as (raw & n & Hraw & Hk & Hs & Hg & Hplaneq).
  assert (n = node) as ->. { pose proof (aw_switchable _ _ _ _ Ha) as ([t He] & _). pose proof Hs as ([t' He'] & _). rewrite He in He'. congruence. }
  unfold plan_for in Hplaneq. rewrite bool_decide_eq_false_2 in Hplaneq; [apply Ha|].
  destruct (same_encoding _ _) eqn:Hsame; cbn [negb]; [|apply wp_ret; rewrite app_nil_r; intros g c; by apply (plan_quiet _ _ _ _ _ _ _ g c Hplan)].
  apply wp_bind, wp_intro. intros [applied store] es2 w2 Happ. apply wp_ret. rewrite app_nil_r.
  assert (Hch : swp_Changed plan = true) by by rewrite Hplaneq.
  destruct (apply_in_memory _ _ _ _ _ _ _ _ Happ Hch) as [(result & -> & -> & H1 & H2 & H3 & H4 & H5)|([e ->] & -> & Hq)].
  - pose proof (aw_switchable _ _ _ _ Ha) as ([t He] & _). pose proof He as (_ & Hn & _)%enrolled_node_spec.
    destruct (awaits_intent current operation intent node Ha) as (_ & _ & Hdes).
    cbn [mbind result_bind]. rewrite H1 H2 H3 H4 H5 Hplaneq. cbn [swp_Current swp_Target swp_candidate]. unfold first_active. rewrite Hn.
    change (st_Generation (switched current node (it_Target intent))) with (st_Generation current + 1)%N. rewrite Hdes N.eqb_refl !bool_decide_eq_true_2 //.
    cbn [negb orb reject mbind result_bind da_store da_previous]. exists node, intent. rewrite Hplaneq in Hsame. cbn [swp_candidate] in Hsame.
    split_and!; try done. destruct (EncodeState (switched current node (it_Target intent))) as [x|]; [by exists x|discriminate].
  - cbn [mbind result_bind]. intros g c. rewrite not_elem_of_app. split; [by apply (plan_quiet _ _ _ _ _ _ _ g c Hplan)|done].
Qed.

Lemma rollback_spec (a : DeferredSwitchActivation P) w : wp (deferred_Rollback a) w (λ '(r, a') es _,
  (∃ raw node, EncodeState (da_store a) = Ok raw ∧ switchable (da_store a) node ∧
     (da_previous a ≠ node_ActiveTransport node ∧ r = Ok () ∧ da_store a' = switched (da_store a) node (da_previous a) ∨
      da_previous a = node_ActiveTransport node ∧ da_store a' = da_store a)) ∨
  (∃ e, r = Err e) ∧ da_store a' = da_store a).
Proof.
  unfold deferred_Rollback. apply wp_bind, wp_intro. intros [planned store] es w1 Hplan.
  destruct (plan_spec _ _ _ _ _ _ _ Hplan) as (-> & -> & Hiff). destruct planned as [plan|e]; [|apply wp_ret; right; split; [by eexists|done]].
  destruct (proj1 (Hiff plan) eq_refl) as (raw & node & Hraw & _ & Hs & _ & Heq). apply wp_bind, wp_intro. intros [applied store] es2 w2 Happ. apply wp_ret.
  unfold plan_for in Heq. case_bool_decide as Hp.
  - destruct (unchanged_in_memory _ _ _ _ _ _ _ _ Happ) as [-> _]; [by rewrite Heq|]. left. exists raw, node. split_and!; [done..|by right].
  - destruct (apply_in_memory _ _ _ _ _ _ _ _ Happ) as [(result & -> & -> & _ & _ & Hact & _)|([e ->] & -> & _)]; [by rewrite Heq| |].
    + left. exists raw, node. split_and!; [done..|left]. rewrite Heq in Hact |- *. cbn [swp_Target] in Hact. cbn [mbind result_bind].
      rewrite Hact bool_decide_eq_true_2 //.
    + right. split; [by eexists|done].
Qed.

(** A deferred activation keeps the state of the node apart: it is returned exactly when
    the switch over the state in memory went through, so no switch is left without a handle
    to undo it, and it then holds the state the retained operation asks for.  Undoing it is
    always possible to plan; a rollback that succeeds leaves the original state but for two
    generations and the recovery of a degraded transport, and one that fails can be tried
    again from the same state. *)
Theorem deferred_activation_is_reversible runtime current operation w r es w' :
  deferred_Activate runtime current operation w = (r, es, w') →
  match r with
  | Err _ => ∀ g c, StateWritten g c (Ok ()) ∉ es
  | Ok a => ∃ node intent, awaits current operation intent node ∧ da_store a = switched current node (it_Target intent) ∧
      accepted current (da_store a) ∧ da_previous a = node_ActiveTransport node ∧
      ((st_Generation current + 2 ≤ max_uint64)%N → ∀ (w2 : W),
        (∃ plan (es2 : list event), in_memory (switch_Plan (da_previous a)) (da_store a) w2 = (Ok plan, da_store a, es2, w2)) ∧
        ∀ r2 a2 es2 w3, deferred_Rollback a w2 = (r2, a2, es2, w3) →
          r2 = Ok () ∧ da_store a2 = switched_back current ∨ (∃ e, r2 = Err e) ∧ da_store a2 = da_store a)
  end.
Proof.
  intros Hrun. assert (Hspec := wp_run _ _ _ _ _ _ (deferred_Activate_spec runtime current operation w) Hrun). destruct r as [a|e]; [|exact Hspec].
  destruct Hspec as (node & intent & Ha & Hst & Hprev & [raw Hraw] & Hv). pose proof (aw_switchable _ _ _ _ Ha) as Hs. pose proof Hs as ([trust He] & Hl & _).
  destruct (awaits_intent current operation intent node Ha) as (Hk & Hmax & _). pose proof (aw_target _ _ _ _ Ha) as Hne.
  assert (Hacc : accepted current (switched current node (it_Target intent))).
  { apply (switched_accepted current node trust); try done. by apply (kinds_configured current node). }
  exists node, intent. rewrite Hst. split_and!; [done..|]. intros Hg w2.
  assert (Hs' := switched_switchable current node trust (it_Target intent) He Hs). set (node' := set_node_ActiveTransport (it_Target intent) node) in Hs'.
  rewrite Hst in Hraw. split.
  - destruct (in_memory (P := P) (C := C) (switch_Plan (da_previous a)) (switched current node (it_Target intent)) w2) as [[[r2 s2] es2] w3] eqn:Hplan.
    destruct (plan_spec _ _ _ _ _ _ _ Hplan) as (-> & -> & Hiff). rewrite Hprev in Hiff.
    exists (plan_for (switched current node (it_Target intent)) raw node' (node_ActiveTransport node)), es2. do 3 f_equal. apply Hiff.
    exists raw, node'. split_and!; [done|by eapply supported_active|done| |done]. intros _.
    change (st_Generation (switched current node (it_Target intent))) with (st_Generation current + 1)%N. lia.
  - intros r2 a2 es2 w3 Hroll. assert (Hspec := wp_run _ _ _ _ _ _ (rollback_spec a w2) Hroll). cbn beta iota in Hspec. rewrite Hst Hprev in Hspec.
    destruct Hspec as [(raw2 & n & _ & Hn & Hcase)|[Herr Hsame]]; [|by right].
    assert (n = node') as ->. { pose proof Hs' as ([t1 H1] & _). destruct Hn as ([t2 H2] & _). rewrite H1 in H2. congruence. }
    destruct Hcase as [(_ & -> & ->)|[Hbad _]]; [left; split; [done|]|by destruct Hne].
    by apply (switched_twice current node trust (it_Target intent)).
Qed.
End deferred.

(** ** Witness *)

Definition sample_runtime : DeferredNodeRuntime TransportKind := MkDeferredNodeRuntime sample_registry (sw_limits sample_switcher).
Definition sample_activation_run := deferred_Activate (W := sample_world) sample_runtime awaiting_state retained_operation first_world.
Definition sample_activated : DeferredSwitchActivation TransportKind :=
  match sample_activation_run.1.1 with Ok a => a | Err _ => MkDeferredSwitchActivation idle_pair_state sample_switcher TransportStandard
    (MkSwitchResult "" TransportStandard TransportStandard false 0 (sample_health TransportStandard (node_identity (joined_node "")) first_world)) end.
Definition sample_rollback := deferred_Rollback (W := sample_world) sample_activated sample_activation_run.2.

Lemma deferred_activation_is_reversible_witness : sample_rollback.1.1.1 = Ok () ∧ da_store sample_rollback.1.1.2 = switched_back awaiting_state.
Proof.
  pose proof (deferred_activation_is_reversible sample_runtime awaiting_state retained_operation first_world sample_activation_run.1.1 sample_activation_run.1.2
    sample_activation_run.2) as H.
  assert (Hrun : sample_activation_run.1.1 = Ok sample_activated) by (vm_compute; reflexivity). rewrite Hrun in H.
  assert (Heta : deferred_Activate sample_runtime awaiting_state retained_operation first_world = (Ok sample_activated, sample_activation_run.1.2, sample_activation_run.2)).
  { rewrite -Hrun. fold sample_activation_run. by destruct sample_activation_run as [[? ?] ?]. }
  destruct (H Heta) as (node & intent & _ & _ & _ & _ & Hback).
  assert (Hbound : (st_Generation awaiting_state + 2 ≤ max_uint64)%N) by (vm_compute; discriminate).
  destruct (Hback Hbound sample_activation_run.2) as [_ Hroll].
  destruct (Hroll sample_rollback.1.1.1 sample_rollback.1.1.2 sample_rollback.1.2 sample_rollback.2) as [?|[[e He] _]].
  - fold sample_rollback. by destruct sample_rollback as [[[? ?] ?] ?].
  - done.
  - assert (Hok : is_ok sample_rollback.1.1.1 = true) by (vm_compute; reflexivity). by rewrite He in Hok.
Defined.
