(* ===== verification/Rpc.v ===== *)
(** * The control protocol ([internal/control/rpc.go], [protocol.go], [json.go])

    Nodes ask the gateway for changes by requests in JSON.  This file holds requests and
    responses with their validators, the decoder that bounds the nesting of a document, and
    the registry that sends a request to the handler of its protocol version. *)

From S2P Require Import Prelude GoTime GoText GoNet GoConv Proc Types Checks StateValidate Codec SwitchIntent.

Local Open Scope string_scope.
Local Open Scope list_scope.

Definition RPCSchemaVersion : Z := 1.
Definition RPCMaximumRequestBytes : nat := 64 * 1024.
Definition RPCMaximumResponseBytes : nat := 256 * 1024.
Definition RPCMaximumJSONDepth : nat := 32.
Definition RPCClockSkew : Z := 120 * second.
Definition RPCNonceBytes : nat := 16.
Definition RPCContentType : string := "application/json".

(** The codes of [net/http]. *)
Definition StatusOK : Z := 200.
Definition StatusNoContent : Z := 204.
Definition StatusMultipleChoices : Z := 300.
Definition StatusBadRequest : Z := 400.
Definition StatusForbidden : Z := 403.
Definition StatusNotFound : Z := 404.
Definition StatusMethodNotAllowed : Z := 405.
Definition StatusConflict : Z := 409.
Definition StatusRequestEntityTooLarge : Z := 413.
Definition StatusUnsupportedMediaType : Z := 415.
Definition StatusUnprocessableEntity : Z := 422.
Definition StatusInternalServerError : Z := 500.
Definition StatusServiceUnavailable : Z := 503.

Definition rpcOperationPattern : re :=
  Cat (Class lower_alpha) (Cat (Star (Class lower_alnum)) (Star (Cat (Class (in_chars ".-")) (plus (Class lower_alnum))))).
Definition rpcCodePattern : re := Cat (Class lower_alpha) (Star (Class (λ c, lower_alnum c || Ascii.eqb c "_"%char))).

(** ** Requests and responses *)

Record RPCRequest := MkRPCRequest {
  rq_ProtocolMajor : Z;
  rq_ProtocolMinor : Z;
  rq_RequestID : string;
  rq_ExpectedStateGeneration : N;
  rq_NodeID : string;
  rq_CredentialGeneration : N;
  rq_Timestamp : time;
  rq_Nonce : string;
  rq_Operation : string;
  rq_Payload : string
}.

(** [None] is a nil map. *)
Record RPCResponse := MkRPCResponse {
  rs_SchemaVersion : Z;
  rs_ProtocolMajor : Z;
  rs_ProtocolMinor : Z;
  rs_Category : string;
  rs_AuthoritativeGeneration : N;
  rs_ResourceIDs : option (gmap string string);
  rs_Warnings : slice string;
  rs_RequiresAction : slice string;
  rs_ResultHash : string;
  rs_ErrorCode : string;
  rs_Message : string;
  rs_Data : string
}.
#[export] Instance RPCResponse_eq_dec : EqDecision RPCResponse.
Proof. solve_decision. Defined.

Definition set_version (major minor : Z) (r : RPCResponse) : RPCResponse :=
  MkRPCResponse (rs_SchemaVersion r) major minor (rs_Category r) (rs_AuthoritativeGeneration r) (rs_ResourceIDs r) (rs_Warnings r)
    (rs_RequiresAction r) (rs_ResultHash r) (rs_ErrorCode r) (rs_Message r) (rs_Data r).
Definition set_failure (code message : string) (r : RPCResponse) : RPCResponse :=
  MkRPCResponse (rs_SchemaVersion r) (rs_ProtocolMajor r) (rs_ProtocolMinor r) (rs_Category r) (rs_AuthoritativeGeneration r) (rs_ResourceIDs r)
    (rs_Warnings r) (rs_RequiresAction r) (rs_ResultHash r) code message (rs_Data r).
Definition set_ResultHash (hash : string) (r : RPCResponse) : RPCResponse :=
  MkRPCResponse (rs_SchemaVersion r) (rs_ProtocolMajor r) (rs_ProtocolMinor r) (rs_Category r) (rs_AuthoritativeGeneration r) (rs_ResourceIDs r)
    (rs_Warnings r) (rs_RequiresAction r) hash (rs_ErrorCode r) (rs_Message r) (rs_Data r).

Record RPCPeer := MkRPCPeer { peer_NodeID : string; peer_CertificateFingerprint : string }.

Record RPCHandlerResult := MkRPCHandlerResult { hr_StatusCode : Z; hr_Response : RPCResponse }.

Definition NewRPCResponse (category : string) (authoritativeGeneration : N) (data : string) : RPCResponse :=
  let data := if String.eqb data "" then "{}" else data in
  MkRPCResponse RPCSchemaVersion 1 0 category authoritativeGeneration (Some ∅) (Some []) (Some []) "" "" "" data.

Definition rpcFailure (category code message : string) : RPCResponse := set_failure code message (NewRPCResponse category 0 "{}").

Definition rpcFailureForVersion (request : RPCRequest) (category code message : string) : RPCResponse :=
  set_version (rq_ProtocolMajor request) (rq_ProtocolMinor request) (rpcFailure category code message).

(** ** The decoder *)

Section documents.
Context `{!JSONTokens}.

(** As [walkJSONValue], with the depth of the value bounded. *)
Fixpoint walkJSONDepth (fuel depth maximumDepth : nat) (stop : error) (ts : list token) : result (list token) :=
  match fuel with
  | O => Err (Message "out of fuel")
  | S fuel =>
      if (maximumDepth <? depth)%nat then Err (Message "JSON nesting exceeds the limit") else
      match ts with
      | [] => Err stop
      | Text _ :: ts | Scalar :: ts => Ok ts
      | Delim ObjectOpen :: ts => walk_members_depth fuel depth maximumDepth stop [] ts
      | Delim ArrayOpen :: ts => walk_elements_depth fuel depth maximumDepth stop ts
      | Delim _ :: _ => Err (Message "unexpected JSON delimiter")
      end
  end
with walk_members_depth (fuel depth maximumDepth : nat) (stop : error) (keys : list string) (ts : list token) : result (list token) :=
  match fuel with
  | O => Err (Message "out of fuel")
  | S fuel =>
      if More ts then
        match ts with
        | [] => Err stop
        | Text key :: ts =>
            if decide (key ∈ keys) then Err (Message "duplicate JSON field")
            else ts ← walkJSONDepth fuel (S depth) maximumDepth stop ts; walk_members_depth fuel depth maximumDepth stop (key :: keys) ts
        | _ :: _ => Err (Message "object key is not a string")
        end
      else expect ObjectClose "invalid JSON object closing token" stop ts
  end
with walk_elements_depth (fuel depth maximumDepth : nat) (stop : error) (ts : list token) : result (list token) :=
  match fuel with
  | O => Err (Message "out of fuel")
  | S fuel =>
      if More ts then ts ← walkJSONDepth fuel (S depth) maximumDepth stop ts; walk_elements_depth fuel depth maximumDepth stop ts
      else expect ArrayClose "invalid JSON array closing token" stop ts
  end.

Definition decodeStrictJSONWithDepth {T} `{!JSONValue T} (data : string) (maximumDepth : nat) : result T :=
  reject (maximumDepth <? 1)%nat (Message "maximum JSON depth must be positive");;
  let '(ts, stop) := tokens data in
  rest ← walkJSONDepth (S (length ts)) 1 maximumDepth (default EOF stop) ts;
  match rest, stop with
  | _ :: _, _ => Err (Message "multiple JSON documents")
  | [], Some e => Err (Wrapped "trailing JSON" e)
  | [], None =>
      '(value, rest) ← decode data;
      match rest with AtEOF => Ok value | _ => Err (Message "trailing JSON") end
  end.

(** The value of an object decoded into a map; [None] when the document is [null]. *)
Context `{!JSONValue (option (gmap string string))}.

Definition validateJSONObject (data : string) : result unit :=
  let trimmed := TrimSpace data in
  reject ((String.length trimmed <? 2)%nat || negb (bool_decide (head_char trimmed = Some "{"%char))) (Message "must be a JSON object");;
  object ← decodeStrictJSONWithDepth (T := option (gmap string string)) trimmed RPCMaximumJSONDepth;
  match object with None => Err (Message "must not be null") | Some _ => Ok () end.

Definition DecodeRPCPayload {T} `{!JSONValue T} (data : string) : result T :=
  wrap "invalid RPC payload" (validateJSONObject data);;
  wrap "invalid RPC payload" (decodeStrictJSONWithDepth data RPCMaximumJSONDepth).

(** ** Validators *)

Definition safeRPCText (value : string) (maximum : nat) : bool :=
  negb (String.eqb value "") && (String.length value <=? maximum)%nat && String.eqb (TrimSpace value) value
  && negb (ContainsAny value (bytes [0; 13; 10]%N)).

Definition base64url_value (c : ascii) : option N :=
  if Ascii.eqb c "-"%char then Some 62%N
  else if Ascii.eqb c "_"%char then Some 63%N
  else if upper_alpha c || lower_alpha c || is_digit c then base64_value c
  else None.

(** [base64.RawURLEncoding.DecodeString], less the skipping of line breaks; the unused bits
    of the last character must be zero for the text to be what the bytes encode to. *)
Fixpoint base64url_decode (s : string) : option (list N) :=
  match s with
  | EmptyString => Some []
  | String c1 (String c2 EmptyString) =>
      v1 ← base64url_value c1; v2 ← base64url_value c2;
      if (v2 mod 16 =? 0)%N then Some [(v1 * 4 + v2 / 16)%N] else None
  | String c1 (String c2 (String c3 EmptyString)) =>
      v1 ← base64url_value c1; v2 ← base64url_value c2; v3 ← base64url_value c3;
      if (v3 mod 4 =? 0)%N then Some [(v1 * 4 + v2 / 16)%N; ((v2 mod 16) * 16 + v3 / 4)%N] else None
  | String c1 (String c2 (String c3 (String c4 s'))) =>
      v1 ← base64url_value c1; v2 ← base64url_value c2; v3 ← base64url_value c3; v4 ← base64url_value c4;
      bs ← base64url_decode s';
      Some ([(v1 * 4 + v2 / 16)%N; ((v2 mod 16) * 16 + v3 / 4)%N; ((v3 mod 4) * 64 + v4)%N] ++ bs)
  | _ => None
  end.

(** Decoding and comparing with the encoding of the bytes. *)
Definition canonical_base64url (n : nat) (s : string) : bool :=
  match base64url_decode s with Some bs => bool_decide (length bs = n) | None => false end.

Definition rpc_Validate (request : RPCRequest) : result unit :=
  let bad := Sentinel ErrInvalidRPCRequest in
  reject (String.eqb (rq_Payload request) "" || (RPCMaximumRequestBytes <? String.length (rq_Payload request))%nat) bad;;
  reject ((rq_ProtocolMajor request <? 1) || (rq_ProtocolMinor request <? 0))%Z bad;;
  reject (negb (matches uuidPattern (rq_RequestID request))) bad;;
  reject (negb (matches uuidPattern (rq_NodeID request))) bad;;
  reject (rq_CredentialGeneration request =? 0)%N bad;;
  reject (IsZero (rq_Timestamp request)) bad;;
  reject (negb (canonical_base64url RPCNonceBytes (rq_Nonce request))) bad;;
  reject (negb (matches rpcOperationPattern (rq_Operation request))) bad;;
  match validateJSONObject (rq_Payload request) with Ok _ => Ok () | Err _ => Err bad end.

Definition rpc_categories : list string := ["success"; "validation"; "conflict"; "unavailable"; "internal"].

(** A hash with or without its prefix. *)
Definition result_hash_ok (hash : string) : bool := matches (times hex 64) (TrimPrefix hash "sha256:").

Definition rs_Validate (response : RPCResponse) : result unit :=
  let bad := Sentinel ErrInvalidRPCResponse in
  reject (negb (rs_SchemaVersion response =? RPCSchemaVersion)%Z) bad;;
  reject ((rs_ProtocolMajor response <? 1) || (rs_ProtocolMinor response <? 0))%Z bad;;
  reject (negb (bool_decide (rs_Category response ∈ rpc_categories))) bad;;
  reject (match rs_ResourceIDs response with None => true | Some _ => false end || is_nil (rs_Warnings response) || is_nil (rs_RequiresAction response)) bad;;
  reject (String.eqb (rs_Data response) "" || (RPCMaximumResponseBytes <? String.length (rs_Data response))%nat) bad;;
  let ids := map_to_list (default ∅ (rs_ResourceIDs response)) in
  reject ((256 <? length ids)%nat || (256 <? length (items (rs_Warnings response)))%nat || (256 <? length (items (rs_RequiresAction response)))%nat) bad;;
  range_check (λ _ entry, reject (negb (matches rpcCodePattern entry.1) || negb (safeRPCText entry.2 256)) bad) ids;;
  range_check (λ _ warning, reject (negb (safeRPCText warning 4096)) bad) (items (rs_Warnings response));;
  range_check (λ _ action, reject (negb (safeRPCText action 4096)) bad) (items (rs_RequiresAction response));;
  reject (negb (String.eqb (rs_ResultHash response) "") && negb (result_hash_ok (rs_ResultHash response))) bad;;
  (if String.eqb (rs_Category response) "success"
   then reject (negb (String.eqb (rs_ErrorCode response) "") || negb (String.eqb (rs_Message response) "")) bad
   else reject (negb (matches rpcCodePattern (rs_ErrorCode response)) || negb (safeRPCText (rs_Message response) 4096)) bad);;
  match validateJSONObject (rs_Data response) with Ok _ => Ok () | Err _ => Err bad end.

Definition validateRPCHandlerResult (result : RPCHandlerResult) : Prelude.result unit :=
  let status := hr_StatusCode result in
  reject ((status <? StatusOK) || (599 <? status) || (status =? StatusNoContent)
          || ((StatusMultipleChoices <=? status) && (status <? StatusBadRequest)))%Z (Message "handler status code is invalid");;
  rs_Validate (hr_Response result);;
  reject (String.eqb (rs_Category (hr_Response result)) "success" && (StatusBadRequest <=? status)%Z) (Message "successful RPC response requires a success HTTP status");;
  reject (negb (String.eqb (rs_Category (hr_Response result)) "success") && (status <? StatusBadRequest)%Z)
    (Message "failed RPC response requires an error HTTP status").

Definition DecodeRPCRequest `{!JSONValue RPCRequest} (data : string) : result RPCRequest :=
  reject (String.eqb data "" || (RPCMaximumRequestBytes <? String.length data)%nat) (Sentinel ErrInvalidRPCRequest);;
  match decodeStrictJSONWithDepth data RPCMaximumJSONDepth with
  | Err _ => Err (Sentinel ErrInvalidRPCRequest)
  | Ok request => rpc_Validate request;; Ok request
  end.

Definition DecodeRPCResponse `{!JSONValue RPCResponse} (data : string) : result RPCResponse :=
  reject (String.eqb data "" || (RPCMaximumResponseBytes <? String.length data)%nat) (Sentinel ErrInvalidRPCResponse);;
  match decodeStrictJSONWithDepth data RPCMaximumJSONDepth with
  | Err _ => Err (Sentinel ErrInvalidRPCResponse)
  | Ok response => rs_Validate response;; Ok response
  end.
End documents.

(** ** Protocol versions *)

Record RPCProtocolVersion := MkRPCProtocolVersion { pv_Major : Z; pv_Minor : Z }.

Definition pv_String (version : RPCProtocolVersion) : string := Itoa (pv_Major version) +:+ "." +:+ Itoa (pv_Minor version).

(** More than one character, the first a zero. *)
Definition leading_zero (text : string) : bool := (1 <? String.length text)%nat && bool_decide (head_char text = Some "0"%char).

Definition ParseRPCProtocolVersion (value : string) : result RPCProtocolVersion :=
  match Cut value "."%char with
  | None => Err (Message "control protocol must be canonical major.minor")
  | Some (majorText, minorText) =>
      reject (String.eqb majorText "" || String.eqb minorText "" || Contains minorText "." || leading_zero majorText || leading_zero minorText)
        (Message "control protocol must be canonical major.minor");;
      match Atoi majorText, Atoi minorText with
      | Some major, Some minor =>
          reject ((major <? 1) || (minor <? 0))%Z (Message "control protocol must be canonical major.minor");;
          Ok (MkRPCProtocolVersion major minor)
      | _, _ => Err (Message "control protocol must be canonical major.minor")
      end
  end.

Definition rpcPath (major : Z) (operation : string) : string := "/rpc/v" +:+ Itoa major +:+ "/" +:+ operation.

Definition rpcOperationFromPath (rawPath rawQuery path : string) : option (Z * string) :=
  if negb (String.eqb rawPath "") || negb (String.eqb rawQuery "") || negb (HasPrefix path "/rpc/v") then None else
  match Cut (TrimPrefix path "/rpc/v") "/"%char with
  | None => None
  | Some (majorText, operation) =>
      if String.eqb majorText "" || leading_zero majorText || negb (matches rpcOperationPattern operation) then None else
      match Atoi majorText with
      | Some major => if (major <? 1)%Z then None else Some (major, operation)
      | None => None
      end
  end.

(** ** The registry *)

Section registry.
(** Handlers act on a world [W] and log events [E]. *)
Context {W E : Type}.

Definition RPCHandler : Type := RPCPeer → RPCRequest → proc W E (result RPCHandlerResult).

(** [None] is a nil handler. *)
Record RPCProtocolRegistration := MkRPCProtocolRegistration { rr_MaximumVersion : RPCProtocolVersion; rr_Handler : option RPCHandler }.

Record RPCProtocolRegistry := MkRPCProtocolRegistry { reg_current : RPCProtocolRegistration; reg_previous : option RPCProtocolRegistration }.

Definition validateProtocolRegistration (registration : RPCProtocolRegistration) : result unit :=
  let version := rr_MaximumVersion registration in
  reject ((pv_Major version <? 1)%Z || (pv_Minor version <? 0)%Z || match rr_Handler registration with None => true | Some _ => false end)
    (Message "control protocol registration is invalid").

Definition NewRPCProtocolRegistry (current : RPCProtocolRegistration) (previous : option RPCProtocolRegistration) : result RPCProtocolRegistry :=
  validateProtocolRegistration current;;
  match previous with
  | None => Ok (MkRPCProtocolRegistry current None)
  | Some previous =>
      validateProtocolRegistration previous;;
      reject (negb (pv_Major (rr_MaximumVersion previous) =? pv_Major (rr_MaximumVersion current) - 1)%Z)
        (Message "previous control protocol major must immediately precede current major");;
      Ok (MkRPCProtocolRegistry current (Some previous))
  end.

Definition NewRPCProtocolRegistryFromVersions (versions : list string) (handlers : gmap Z RPCHandler) : result RPCProtocolRegistry :=
  reject ((length versions <? 1) || (2 <? length versions))%nat (Message "control protocol registry requires current and at most one previous version");;
  parsed ← range (λ _ value parsed,
    version ← wrap "control protocol version" (ParseRPCProtocolVersion value);
    reject (match handlers !! pv_Major version with None => true | Some _ => false end) (Message "control protocol major has no handler");;
    Ok (parsed ++ [version])) versions [];
  let registration version := MkRPCProtocolRegistration version (handlers !! pv_Major version) in
  match parsed with
  | [current] => NewRPCProtocolRegistry (registration current) None
  | current :: previous :: _ => NewRPCProtocolRegistry (registration current) (Some (registration previous))
  | [] => Err (Message "control protocol registry requires current and at most one previous version")
  end.

Definition SupportedVersions (registry : RPCProtocolRegistry) : list RPCProtocolVersion :=
  rr_MaximumVersion (reg_current registry) :: match reg_previous registry with Some previous => [rr_MaximumVersion previous] | None => [] end.

Definition registration (registry : RPCProtocolRegistry) (major : Z) : option RPCProtocolRegistration :=
  if (pv_Major (rr_MaximumVersion (reg_current registry)) =? major)%Z then Some (reg_current registry) else
  match reg_previous registry with
  | Some previous => if (pv_Major (rr_MaximumVersion previous) =? major)%Z then Some previous else None
  | None => None
  end.

Definition incompatibleProtocolResult (request : RPCRequest) (supported : list RPCProtocolVersion) : RPCHandlerResult :=
  let response := set_version (rq_ProtocolMajor request) (rq_ProtocolMinor request)
    (set_failure "incompatible_protocol" "the gateway does not support the requested control protocol version" (NewRPCResponse "conflict" 0 "{}")) in
  MkRPCHandlerResult StatusConflict
    (MkRPCResponse (rs_SchemaVersion response) (rs_ProtocolMajor response) (rs_ProtocolMinor response) (rs_Category response)
      (rs_AuthoritativeGeneration response) (rs_ResourceIDs response) (Some ((λ version, "supported:" +:+ pv_String version) <$> supported))
      (Some ["update vpnctl to a mutually supported control protocol"]) (rs_ResultHash response) (rs_ErrorCode response) (rs_Message response)
      (rs_Data response)).

(** The call of a handler, after the calls it makes itself. *)
Inductive registry_event :=
  | HandlerCalled (peer : RPCPeer) (request : RPCRequest) (r : result RPCHandlerResult)
  | HandlerEvent (e : E).

Definition invoke (handler : RPCHandler) (peer : RPCPeer) (request : RPCRequest) : proc W registry_event (result RPCHandlerResult) := λ w,
  let '(r, es, w') := handler peer request w in (r, (HandlerEvent <$> es) ++ [HandlerCalled peer request r], w').

Definition registry_HandleRPC (registry : RPCProtocolRegistry) (peer : RPCPeer) (request : RPCRequest) : proc W registry_event (result RPCHandlerResult) :=
  match rr_Handler (reg_current registry) with
  | None => mret (Err (Message "control protocol registry is incomplete"))
  | Some _ =>
      match registration registry (rq_ProtocolMajor request) with
      | None => mret (Ok (incompatibleProtocolResult request (SupportedVersions registry)))
      | Some entry =>
          if (pv_Minor (rr_MaximumVersion entry) <? rq_ProtocolMinor request)%Z
          then mret (Ok (incompatibleProtocolResult request (SupportedVersions registry)))
          else match rr_Handler entry with
          | None => mret (Err (Message "nil handler"))
          | Some handler =>
              r ← invoke handler peer request;
              mret (result ← r;
                Ok (MkRPCHandlerResult (hr_StatusCode result)
                      (set_version (rq_ProtocolMajor request) (rq_ProtocolMinor request) (hr_Response result))))
          end
      end
  end.
End registry.
Arguments RPCHandler W E : clear implicits.
Arguments RPCProtocolRegistry W E : clear implicits.
Arguments registry_event E : clear implicits.

Example signed_version : ParseRPCProtocolVersion "+1.-0" = Ok (MkRPCProtocolVersion 1 0).
Proof. by vm_compute. Qed.
