(* ===== verification/RpcServer.v ===== *)
(** * The control server ([internal/control/rpc_server.go], [state_authorizer.go])

    One request over mutual TLS: its identity, path, size and time are checked, the request
    is decoded and authorized against the state of the gateway, and only then handed to the
    registry.  The answer is encoded once, within a limit.  Listening, the configuration of
    TLS and the parsing of certificates are left out; what they deliver is the input here. *)

From S2P Require Import Prelude GoTime GoText GoNet GoConv Proc Types Checks Identity StateValidate Codec SwitchIntent Rpc.

Local Open Scope string_scope.
Local Open Scope list_scope.

(** ** Identities of peers *)

(** The fields of an [x509.Certificate] the code reads; URIs are given by their text. *)
Record x509_certificate := Mkx509 {
  x_Ed25519 : bool;
  x_URIs : list string;
  x_DNSNames : list string;
  x_IPAddresses : list string;
  x_EmailAddresses : list string;
  x_Raw : string
}.

Definition controlIdentityURI (kind id : string) : result string :=
  reject (negb (String.eqb kind "gateway") && negb (String.eqb kind "node")) (Message "unsupported identity kind");;
  reject (negb (matches uuidPattern id)) (Message "identity ID must be a canonical UUID");;
  Ok ("urn:vpnctl:" +:+ kind +:+ ":" +:+ id).

Definition node_urn : string := "urn:vpnctl:node:".

Section server.
Context `{!Sha256}.

Definition rpcPeerFromCertificate (certificate : x509_certificate) : result RPCPeer :=
  match x_URIs certificate with
  | [value] =>
      reject (negb (x_Ed25519 certificate) || negb (bool_decide (x_DNSNames certificate = [])) || negb (bool_decide (x_IPAddresses certificate = []))
              || negb (bool_decide (x_EmailAddresses certificate = []))) (Sentinel ErrInvalidRPCIdentity);;
      reject (negb (HasPrefix value node_urn)) (Sentinel ErrInvalidRPCIdentity);;
      let nodeID := TrimPrefix value node_urn in
      match controlIdentityURI "node" nodeID with
      | Err _ => Err (Sentinel ErrInvalidRPCIdentity)
      | Ok expected =>
          reject (negb (String.eqb expected value)) (Sentinel ErrInvalidRPCIdentity);;
          Ok (MkRPCPeer nodeID ("sha256:" +:+ hex_bytes (Sum256 (x_Raw certificate))))
      end
  | _ => Err (Sentinel ErrInvalidRPCIdentity)
  end.

(** ** Requests as they arrive *)

Definition VersionTLS13 : Z := 772.

Record tls_state := MkTlsState {
  tls_VerifiedChains : list (list x509_certificate);
  tls_PeerCertificates : list x509_certificate;
  tls_Version : Z;
  tls_NegotiatedProtocol : string
}.

(** [ht_Body] is the whole body, or the error of reading it. *)
Record http_request := MkHttpRequest {
  ht_TLS : option tls_state;
  ht_RawPath : string;
  ht_RawQuery : string;
  ht_Path : string;
  ht_Method : string;
  ht_ProtoMajor : Z;
  ht_ProtoMinor : Z;
  ht_ContentType : string;
  ht_ContentLength : Z;
  ht_Body : result string
}.

Definition rpcOperationFromRequest (request : http_request) : option (Z * string) :=
  rpcOperationFromPath (ht_RawPath request) (ht_RawQuery request) (ht_Path request).

(** [mime.ParseMediaType]: the media type without its parameters. *)
Class MediaTypes := { ParseMediaType : string → result string }.

Record rpcLimits := MkRpcLimits { lim_maximumRequestBytes : nat; lim_maximumResponseBytes : nat }.
Definition defaultRPCLimits : rpcLimits := MkRpcLimits RPCMaximumRequestBytes RPCMaximumResponseBytes.

(** Reading stops one byte after the maximum. *)
Definition readBoundedBody (body : result string) (maximum : nat) : result string :=
  data ← body; reject (maximum <? String.length data)%nat (Message "body is too large");; Ok data.

Record RPCAuthorization := MkRPCAuthorization { az_Authorized : bool; az_Denial : RPCHandlerResult }.

(** ** The server *)

Context `{!JSONTokens, !JSONValue (option (gmap string string)), !JSONValue RPCRequest, !JSONValue RPCResponse, !MediaTypes}.

(** A step of the server either goes on or answers with a status and a response. *)
Inductive served (A : Type) := Continue (a : A) | Answer (status : Z) (response : RPCResponse).
Arguments Continue {A}.
Arguments Answer {A}.
#[local] Instance served_bind : MBind served := λ A B f m, match m with Continue a => f a | Answer status response => Answer status response end.

Definition refuse (bad : bool) (status : Z) (response : RPCResponse) : served unit := if bad then Answer status response else Continue ().
Definition or_answer {A} (m : option A) (status : Z) (response : RPCResponse) : served A := match m with Some a => Continue a | None => Answer status response end.
Definition good {A} (m : result A) : option A := match m with Ok a => Some a | Err _ => None end.

(** The first peer certificate of a verified TLS 1.3 connection that speaks HTTP/1.1. *)
Definition verified_leaf (connection : option tls_state) : option x509_certificate :=
  match connection with
  | None => None
  | Some state =>
      if bool_decide (tls_VerifiedChains state = []) || negb (tls_Version state =? VersionTLS13)%Z
         || negb (String.eqb (tls_NegotiatedProtocol state) "http/1.1") then None
      else head (tls_PeerCertificates state)
  end.

(** The checks of [ServeHTTP] before the clock is read. *)
Definition screen (limits : rpcLimits) (request : http_request) : served (RPCPeer * RPCRequest) :=
  leaf ← or_answer (verified_leaf (ht_TLS request)) StatusForbidden
    (rpcFailure "validation" "mtls_required" "a verified node mTLS identity is required");
  peer ← or_answer (good (rpcPeerFromCertificate leaf)) StatusForbidden
    (rpcFailure "validation" "invalid_identity" "the node certificate identity is invalid");
  '(pathMajor, operation) ← or_answer (rpcOperationFromRequest request) StatusNotFound
    (rpcFailure "validation" "invalid_endpoint" "the control RPC endpoint is invalid");
  refuse (negb (String.eqb (ht_Method request) "POST") || negb (ht_ProtoMajor request =? 1)%Z || negb (ht_ProtoMinor request =? 1)%Z)
    StatusMethodNotAllowed (rpcFailure "validation" "invalid_http" "control RPC requires POST over HTTP/1.1");;
  refuse (match ParseMediaType (ht_ContentType request) with Ok mediaType => negb (String.eqb mediaType RPCContentType) | Err _ => true end)
    StatusUnsupportedMediaType (rpcFailure "validation" "invalid_content_type" "control RPC requires application/json");;
  refuse (Z.of_nat (lim_maximumRequestBytes limits) <? ht_ContentLength request)%Z StatusRequestEntityTooLarge
    (rpcFailure "validation" "request_too_large" "the control RPC request exceeds its size limit");;
  body ← or_answer (good (readBoundedBody (ht_Body request) (lim_maximumRequestBytes limits))) StatusRequestEntityTooLarge
    (rpcFailure "validation" "request_too_large" "the control RPC request exceeds its size limit");
  envelope ← or_answer (good (DecodeRPCRequest body)) StatusBadRequest
    (rpcFailure "validation" "invalid_request" "the control RPC request is invalid");
  refuse (negb (String.eqb (rq_Operation envelope) operation)) StatusBadRequest
    (rpcFailure "validation" "operation_mismatch" "the path and request operation differ");;
  refuse (negb (rq_ProtocolMajor envelope =? pathMajor)%Z) StatusConflict
    (rpcFailureForVersion envelope "conflict" "protocol_path_mismatch" "the path and request protocol majors differ");;
  refuse (negb (String.eqb (rq_NodeID envelope) (peer_NodeID peer))) StatusForbidden
    (rpcFailure "validation" "identity_mismatch" "the certificate and request node identities differ");;
  Continue (peer, envelope).

Definition outside_window (envelope : RPCRequest) (now : time) : bool :=
  Before (rq_Timestamp envelope) (Add now (- RPCClockSkew)) || After (rq_Timestamp envelope) (Add now RPCClockSkew).

(** What is written: the status and the encoded response. *)
Definition writeResponse (limits : rpcLimits) (status : Z) (response : RPCResponse) : Z * string :=
  match rs_Validate response;; marshal response with
  | Ok encoded =>
      if (lim_maximumResponseBytes limits <? String.length encoded)%nat
      then (StatusInternalServerError, default "" (good (marshal (rpcFailure "internal" "response_too_large" "the control RPC response exceeded its safety boundary"))))
      else (status, encoded)
  | Err _ => (StatusInternalServerError, default "" (good (marshal (rpcFailure "internal" "response_too_large" "the control RPC response exceeded its safety boundary"))))
  end.

Section serving.
Context {W E : Type}.

(** The decisions of the server: the authorizer was asked, a handler was called; the calls
    these make come before, inside. *)
Inductive serve_event :=
  | Asked (peer : RPCPeer) (request : RPCRequest) (r : result RPCAuthorization)
  | Handled (peer : RPCPeer) (request : RPCRequest) (r : result RPCHandlerResult)
  | Within (e : E).

Record RPCServer := MkRPCServer {
  srv_protocols : RPCProtocolRegistry W E;
  srv_authorizer : RPCPeer → RPCRequest → proc W E (result RPCAuthorization);
  srv_now : W → time * W;
  srv_limits : rpcLimits
}.

Definition from_registry (e : registry_event E) : serve_event :=
  match e with HandlerCalled peer request r => Handled peer request r | HandlerEvent e => Within e end.

Definition decision {A} (m : proc W E A) (log : A → serve_event) : proc W serve_event A := λ w,
  let '(a, es, w') := m w in (a, (Within <$> es) ++ [log a], w').

Definition same_version (request : RPCRequest) (response : RPCResponse) : bool :=
  (rs_ProtocolMajor response =? rq_ProtocolMajor request)%Z && (rs_ProtocolMinor response =? rq_ProtocolMinor request)%Z.

(** The answer to what the registry returned. *)
Definition answer_of (envelope : RPCRequest) (result : Prelude.result RPCHandlerResult) : Z * RPCResponse :=
  match result with
  | Err _ => (StatusInternalServerError, rpcFailure "internal" "handler_failed" "the control RPC request could not be completed")
  | Ok result =>
      if negb (is_ok (rs_Validate (hr_Response result))) then (StatusInternalServerError, hr_Response result) else
      if negb (same_version envelope (hr_Response result))
      then (StatusInternalServerError, rpcFailureForVersion envelope "internal" "protocol_response_mismatch" "the control RPC handler returned a mismatched protocol version") else
      if negb (is_ok (validateRPCHandlerResult result))
      then (StatusInternalServerError, rpcFailure "internal" "handler_failed" "the control RPC request could not be completed") else
      (hr_StatusCode result, hr_Response result)
  end.

(** The answer to a request that is not authorized. *)
Definition denial_of (envelope : RPCRequest) (denial : RPCHandlerResult) : Z * RPCResponse :=
  if negb (is_ok (validateRPCHandlerResult denial)) || negb (same_version envelope (hr_Response denial))
  then (StatusInternalServerError, rpcFailureForVersion envelope "internal" "authorization_failed" "the control RPC identity could not be authorized")
  else (hr_StatusCode denial, hr_Response denial).

Definition serve (server : RPCServer) (request : http_request) : proc W serve_event (Z * RPCResponse) :=
  match screen (srv_limits server) request with
  | Answer status response => mret (status, response)
  | Continue (peer, envelope) =>
      now ← call (srv_now server) (λ _, []);
      if outside_window envelope (to_utc now)
      then mret (StatusBadRequest, rpcFailure "validation" "timestamp_outside_window" "the control RPC timestamp is outside the accepted window") else
      authorization ← decision (srv_authorizer server peer envelope) (Asked peer envelope);
      match authorization with
      | Err _ => mret (StatusInternalServerError, rpcFailureForVersion envelope "internal" "authorization_failed" "the control RPC identity could not be authorized")
      | Ok authorization =>
          if negb (az_Authorized authorization) then mret (denial_of envelope (az_Denial authorization)) else
          result ← tagged from_registry (registry_HandleRPC (srv_protocols server) peer envelope);
          mret (answer_of envelope result)
      end
  end.

Definition ServeHTTP (server : RPCServer) (request : http_request) : proc W serve_event (Z * string) :=
  '(status, response) ← serve server request;
  mret (writeResponse (srv_limits server) status response).
End serving.
End server.
Arguments Continue {A}.
Arguments Answer {A}.
Arguments serve_event E : clear implicits.
Arguments RPCServer W E : clear implicits.

(** ** Authorization against the state of the gateway *)

Inductive state_event :=
  | StateLoaded (r : result State)
  | StateSaved (expected : N) (candidate : State) (r : result unit).

Section authorizer.
Context {W : Type} (load : W → result State * W).

Definition deniedStateRPC (request : RPCRequest) (statusCode : Z) (category : string) (generation : N) (code message : string) : RPCAuthorization :=
  MkRPCAuthorization false (MkRPCHandlerResult statusCode
    (set_failure code message (set_version (rq_ProtocolMajor request) (rq_ProtocolMinor request) (NewRPCResponse category generation "{}")))).

(** A listed certificate of the current credentials of the node. *)
Definition current_certificate (node : Node) (peer : RPCPeer) (certificate : Certificate) : bool :=
  bool_decide (cert_Kind certificate = CertificateControlNode) && String.eqb (cert_OwnerKind certificate) "node"
  && String.eqb (cert_OwnerID certificate) (node_ID node) && (EffectiveCredentialGeneration certificate =? node_CredentialGeneration node)%N
  && String.eqb (cert_Fingerprint certificate) (peer_CertificateFingerprint peer).

Definition authorize_in (state : State) (peer : RPCPeer) (request : RPCRequest) : RPCAuthorization :=
  match snd <$> list_find (λ node, node_ID node = peer_NodeID peer) (items (st_Nodes state)) with
  | None => deniedStateRPC request StatusForbidden "validation" (st_Generation state) "node_inactive" "the authenticated node is not active"
  | Some node =>
      if negb (bool_decide (node_Lifecycle node = LifecycleActive))
      then deniedStateRPC request StatusForbidden "validation" (st_Generation state) "node_inactive" "the authenticated node is not active" else
      if negb (rq_CredentialGeneration request =? node_CredentialGeneration node)%N
      then deniedStateRPC request StatusForbidden "validation" (st_Generation state) "credential_generation_mismatch" "the node credential generation is not current" else
      if existsb (current_certificate node peer) (items (st_Certificates state))
      then MkRPCAuthorization true (MkRPCHandlerResult 0 (MkRPCResponse 0 0 0 "" 0 None None None "" "" "" ""))
      else deniedStateRPC request StatusForbidden "validation" (st_Generation state) "credential_not_authorized" "the node certificate is not current"
  end.

Definition AuthorizeRPC (peer : RPCPeer) (request : RPCRequest) : proc W state_event (result RPCAuthorization) :=
  if String.eqb (peer_NodeID peer) "" || negb (String.eqb (peer_NodeID peer) (rq_NodeID request))
  then mret (Ok (deniedStateRPC request StatusForbidden "validation" 0 "identity_mismatch" "the certificate and request node identities differ")) else
  loaded ← call load (λ r, [StateLoaded r]);
  match loaded with
  | Err _ => mret (Ok (deniedStateRPC request StatusServiceUnavailable "unavailable" 0 "authorization_unavailable" "authoritative node identity state is unavailable"))
  | Ok state => mret (Ok (authorize_in state peer request))
  end.
End authorizer.
