(* ===== verification/RpcSamples.v ===== *)
(** * Samples of control requests

    A gateway with an active node and its certificate, a request of that node over verified
    TLS, and a codec under which it decodes; the witnesses of the theorems about control
    requests evaluate on them. *)

From S2P Require Import Prelude GoTime GoText GoNet Proc Types Checks Identity Idempotency Resources StateValidate Codec Samples Transition SwitchIntent SwitchFacts Rpc RpcServer.

Local Open Scope string_scope.
Local Open Scope list_scope.

Definition peer_leaf : x509_certificate := Mkx509 true [node_urn +:+ uuid "11"] [] [] [] "der".
Definition sample_peer : RPCPeer := MkRPCPeer (uuid "11") ("sha256:" +:+ hex_bytes (Sum256 "der")).

Definition peer_certificate : Certificate :=
  MkCertificate 1 (uuid "61") CertificateControlNode "node" (uuid "11") (peer_CertificateFingerprint sample_peer) "01" "CN=node"
    (Some [node_urn +:+ uuid "11"]) (day 0) (day 900) 180 1 1 "control_cert:node" "".

(** A gateway with the operations; node [11] has both transports. *)
Definition gateway_state (generation : N) (operations : list Operation) : State :=
  MkState 1 generation sample_host (Some old_handshake) None None None (Some [])
    (Some [gateway_node "11" "edge" "10.67.0.2"; gateway_node "12" "core" "10.67.0.3"]) (Some []) (Some []) (Some [])
    (Some [standard_transport TargetNode "11" TransportActive; restricted_transport "11" TransportStandby;
           standard_transport TargetNode "12" TransportActive])
    (Some []) (Some [peer_certificate]) (Some operations) (Some []) (Some []) sample_manifest.

Lemma gateway_state_valid : Validate (gateway_state 9 []) = Ok ().
Proof. by vm_compute. Qed.

Definition sample_nonce : string := "AAECAwQFBgcICQoLDA0ODw".
Definition control_request (requestID : string) (generation : N) (operation : string) : RPCRequest :=
  MkRPCRequest 1 0 requestID generation (uuid "11") 1 (day 5) sample_nonce operation "{}".

(** Every text is an object without fields. *)
#[export] Instance empty_objects : JSONTokens := { tokens _ := ([Delim ObjectOpen; Delim ObjectClose], None) }.
#[export] Instance empty_map : JSONValue (option (gmap string string)) := { marshal _ := Ok "{}"; decode _ := Ok (Some ∅, AtEOF) }.
#[export] Instance response_text : JSONValue RPCResponse := {
  marshal response := Ok (rs_Category response +:+ " " +:+ rs_ErrorCode response +:+ rs_Data response);
  decode _ := Err EOF
}.
#[export] Instance request_text : JSONValue RPCRequest := {
  marshal _ := Ok "{}";
  decode _ := Ok (control_request (uuid "71") 9 "expose-create", AtEOF)
}.
#[export] Instance plain_types : MediaTypes := { ParseMediaType text := Ok text }.

Definition http_post : http_request :=
  MkHttpRequest (Some (MkTlsState [[peer_leaf]] [peer_leaf] VersionTLS13 "http/1.1")) "" "" "/rpc/v1/expose-create" "POST" 1 1
    RPCContentType 2 (Ok "{}").
