(* ===== verification/RpcClaims.v ===== *)
(** * What the control server guarantees

    A request reaches a handler exactly when it came over verified TLS from the node it names,
    is fresh and of a supported version, and the state of the gateway lists the certificate among the current credentials
    of an active node; whatever is written is a valid response whose status fits it. *)

From S2P Require Import Prelude GoTime GoText GoNet GoConv Proc Types Checks Identity Expose Idempotency StateValidate Codec Samples SwitchIntent SwitchFacts Rpc RpcServer RpcSamples.

Local Open Scope string_scope.
Local Open Scope list_scope.

Lemma drop_chars_app p r : drop_chars (String.length p) (p +:+ r) = r.
Proof. by induction p as [|c p IH]; [destruct r|]. Qed.

Lemma TrimPrefix_app p r : TrimPrefix (p +:+ r) p = r.
Proof. unfold TrimPrefix. rewrite (proj2 (HasPrefix_spec (p +:+ r) p)); [by exists r|]. apply drop_chars_app. Qed.

Section claims.
Context `{!Sha256, !JSONTokens, !JSONValue (option (gmap string string)), !JSONValue RPCRequest, !JSONValue RPCResponse, !MediaTypes}.

(** ** Identities *)

(** The identity a certificate of a node carries. *)
Definition certified_identity (leaf : x509_certificate) (peer : RPCPeer) : Prop :=
  x_Ed25519 leaf = true ∧ x_URIs leaf = [node_urn +:+ peer_NodeID peer] ∧ x_DNSNames leaf = [] ∧ x_IPAddresses leaf = [] ∧
  x_EmailAddresses leaf = [] ∧ matches uuidPattern (peer_NodeID peer) = true ∧
  peer_CertificateFingerprint peer = "sha256:" +:+ hex_bytes (Sum256 (x_Raw leaf)).

Lemma controlIdentityURI_node id uri : controlIdentityURI "node" id = Ok uri ↔ matches uuidPattern id = true ∧ uri = node_urn +:+ id.
Proof. unfold controlIdentityURI. cbn. destruct (matches uuidPattern id); cbn; naive_solver. Qed.

Lemma peer_ok leaf peer : rpcPeerFromCertificate leaf = Ok peer ↔ certified_identity leaf peer.
Proof.
  unfold rpcPeerFromCertificate, certified_identity. destruct (x_URIs leaf) as [|value [|]]; [naive_solver| |naive_solver]. split.
  - intros K. ok_inv K. bool_facts. apply HasPrefix_spec in G0 as [id ->]. rewrite TrimPrefix_app in K.
    destruct (controlIdentityURI "node" id) as [expected|] eqn:E; [|done]. apply controlIdentityURI_node in E as [Hid ->].
    ok_inv K. injection K as <-. done.
  - intros (-> & [= ->] & -> & -> & -> & Hid & Hf). destruct peer as [id fingerprint]. cbn [peer_NodeID peer_CertificateFingerprint] in *.
    rewrite (proj2 (HasPrefix_spec (node_urn +:+ id) node_urn)); [by exists id|]. rewrite TrimPrefix_app !bool_decide_eq_true_2 //.
    rewrite (proj2 (controlIdentityURI_node id (node_urn +:+ id)) (conj Hid eq_refl)) String.eqb_refl. cbn. by rewrite Hf.
Qed.

(** ** Requests the server takes in *)

(** The envelope of a request from the node a peer certificate names. *)
Definition admissible (limits : rpcLimits) (request : http_request) (peer : RPCPeer) (envelope : RPCRequest) : Prop :=
  ∃ connection leaf rest body,
    ht_TLS request = Some connection ∧ tls_VerifiedChains connection ≠ [] ∧ tls_Version connection = VersionTLS13 ∧
    tls_NegotiatedProtocol connection = "http/1.1" ∧ tls_PeerCertificates connection = leaf :: rest ∧ certified_identity leaf peer ∧
    rpcOperationFromRequest request = Some (rq_ProtocolMajor envelope, rq_Operation envelope) ∧
    ht_Method request = "POST" ∧ ht_ProtoMajor request = 1%Z ∧ ht_ProtoMinor request = 1%Z ∧
    ParseMediaType (ht_ContentType request) = Ok RPCContentType ∧ (ht_ContentLength request ≤ Z.of_nat (lim_maximumRequestBytes limits))%Z ∧
    ht_Body request = Ok body ∧ (String.length body ≤ lim_maximumRequestBytes limits)%nat ∧ DecodeRPCRequest body = Ok envelope ∧
    rq_NodeID envelope = peer_NodeID peer.

Lemma served_ok {A B} (m : served A) (k : A → served B) b :
  served_bind A B k m = Continue b ↔ ∃ a, m = Continue a ∧ k a = Continue b.
Proof. destruct m; cbn; naive_solver. Qed.
Lemma or_answer_ok {A} (m : option A) status response a : or_answer m status response = Continue a ↔ m = Some a.
Proof. destruct m; cbn; naive_solver. Qed.
Lemma refuse_ok bad status response u : refuse bad status response = Continue u ↔ bad = false.
Proof. destruct bad, u; cbn; naive_solver. Qed.
Lemma good_ok {A} (m : result A) a : good m = Some a ↔ m = Ok a.
Proof. destruct m; cbn; naive_solver. Qed.

Lemma verified_leaf_ok connection leaf : verified_leaf connection = Some leaf ↔ ∃ state rest, connection = Some state ∧ tls_VerifiedChains state ≠ [] ∧
  tls_Version state = VersionTLS13 ∧ tls_NegotiatedProtocol state = "http/1.1" ∧ tls_PeerCertificates state = leaf :: rest.
Proof.
  unfold verified_leaf. destruct connection as [state|]; [|naive_solver]. destruct (_ || _) eqn:E.
  - split; [done|]. intros (? & ? & [= <-] & Hc & Hv & Hp & _). exfalso. rewrite Hv Hp bool_decide_eq_false_2 // in E.
  - bool_facts. destruct (tls_PeerCertificates state) as [|x rest] eqn:Ec; cbn [head]; split.
    + done.
    + intros (? & ? & [= <-] & _ & _ & _ & Hp). congruence.
    + intros [= ->]. exists state, rest. split_and!; try done. by apply String.eqb_eq.
    + intros (? & ? & [= <-] & _ & _ & _ & Hp). congruence.
Qed.

Lemma body_ok body maximum data : readBoundedBody body maximum = Ok data ↔ body = Ok data ∧ (String.length data ≤ maximum)%nat.
Proof.
  unfold readBoundedBody. destruct body as [text|]; cbn [mbind result_bind]; [|naive_solver]. destruct (Nat.ltb_spec maximum (String.length text)); cbn [reject mbind result_bind]; split.
  - done.
  - intros [[= ->] Hl]. lia.
  - intros [= ->]. done.
  - by intros [[= ->] _].
Qed.

Lemma screen_ok limits request peer envelope : screen limits request = Continue (peer, envelope) ↔ admissible limits request peer envelope.
Proof.
  unfold screen, admissible. split.
  - intros (leaf & Hleaf & K)%served_ok. apply or_answer_ok, verified_leaf_ok in Hleaf as (state & rest & Htls & Hc & Hv & Hp & Hl).
    apply served_ok in K as (peer' & Hpeer & K). apply or_answer_ok, good_ok, peer_ok in Hpeer.
    apply served_ok in K as ([major operation] & Hop%or_answer_ok & K). apply served_ok in K as ([] & Hm%refuse_ok & K).
    apply served_ok in K as ([] & Ht%refuse_ok & K). apply served_ok in K as ([] & Hcl%refuse_ok & K).
    apply served_ok in K as (body & (Hb & Hlen)%or_answer_ok%good_ok%body_ok & K). apply served_ok in K as (env & Henv%or_answer_ok%good_ok & K).
    apply served_ok in K as ([] & Ho%refuse_ok & K). apply served_ok in K as ([] & Hmaj%refuse_ok & K). apply served_ok in K as ([] & Hn%refuse_ok & [= -> ->]).
    apply orb_false_iff in Hm as [[Hm Hp1]%orb_false_iff Hp2]. bool_facts. apply String.eqb_eq in Ho, Hn, Hm. destruct (ParseMediaType (ht_ContentType request)) as [media|]; [|done]. bool_facts.
    apply String.eqb_eq in Ht as ->. exists state, leaf, rest, body. rewrite Ho Hmaj. done.
  - intros (state & leaf & rest & body & Htls & Hc & Hv & Hp & Hl & Hid & Hop & Hm & E1 & E2 & Ht & Hcl & Hb & Hlen & Henv & Hn).
    rewrite (proj2 (verified_leaf_ok (ht_TLS request) leaf)); [eauto 10|]. cbn [or_answer mbind served_bind]. rewrite (proj2 (peer_ok leaf peer) Hid) Hop Hm E1 E2 Ht.
    cbn [good or_answer mbind served_bind refuse negb orb]. rewrite !String.eqb_refl (proj2 (Z.ltb_ge _ _) Hcl) (proj2 (body_ok _ _ body) (conj Hb Hlen)).
    cbn [good or_answer mbind served_bind refuse negb orb]. rewrite Henv. cbn [good or_answer mbind served_bind]. rewrite !String.eqb_refl Z.eqb_refl Hn String.eqb_refl. done.
Qed.

(** ** Credentials in the state of the gateway *)

(** The first node with the identity of the peer is active, the request carries its credential
    generation, and the certificate of the peer is listed for it. *)
Definition current_credentials (state : State) (peer : RPCPeer) (envelope : RPCRequest) : Prop :=
  ∃ index node certificate,
    list_find (λ node, node_ID node = peer_NodeID peer) (items (st_Nodes state)) = Some (index, node) ∧ node_Lifecycle node = LifecycleActive ∧
    rq_CredentialGeneration envelope = node_CredentialGeneration node ∧ certificate ∈ items (st_Certificates state) ∧
    cert_Kind certificate = CertificateControlNode ∧ cert_OwnerKind certificate = "node" ∧ cert_OwnerID certificate = node_ID node ∧
    EffectiveCredentialGeneration certificate = node_CredentialGeneration node ∧ cert_Fingerprint certificate = peer_CertificateFingerprint peer.

Lemma current_certificate_ok node peer certificate : current_certificate node peer certificate = true ↔
  cert_Kind certificate = CertificateControlNode ∧ cert_OwnerKind certificate = "node" ∧ cert_OwnerID certificate = node_ID node ∧
  EffectiveCredentialGeneration certificate = node_CredentialGeneration node ∧ cert_Fingerprint certificate = peer_CertificateFingerprint peer.
Proof. unfold current_certificate. rewrite !andb_true_iff bool_decide_eq_true !String.eqb_eq N.eqb_eq. tauto. Qed.

Lemma authorize_in_ok state peer envelope : az_Authorized (authorize_in state peer envelope) = true ↔ current_credentials state peer envelope.
Proof.
  unfold authorize_in, current_credentials. destruct (list_find _ _) as [[index node]|] eqn:Ef; cbn [fmap option_fmap option_map snd]; [|naive_solver].
  destruct (bool_decide (node_Lifecycle node = LifecycleActive)) eqn:Ea; cbn [negb]; bool_facts; [|naive_solver].
  destruct (N.eqb_spec (rq_CredentialGeneration envelope) (node_CredentialGeneration node)) as [Eg|]; cbn [negb]; [|naive_solver].
  destruct (existsb _ _) eqn:Ec.
  - split; [intros _|done]. apply existsb_exists in Ec as (certificate & Hin%list_elem_of_In & Hc%current_certificate_ok). exists index, node, certificate. done.
  - split; [done|]. intros (i & n & certificate & [= <- <-] & _ & _ & Hin & Hc%current_certificate_ok). apply not_true_iff_false in Ec. destruct Ec.
    apply existsb_exists. exists certificate. split; [by apply list_elem_of_In|done].
Qed.

(** ** Serving *)

Section serving.
Context {W E : Type} (registry : RPCProtocolRegistry W E) (load : W → result State * W) (now : W → time * W) (limits : rpcLimits) (inject : state_event → E).

(** The server whose authorizer reads the state of the gateway. *)
Definition state_server : RPCServer W E := MkRPCServer registry (λ peer request, tagged inject (AuthorizeRPC load peer request)) now limits.

Definition is_handled (e : serve_event E) : bool := match e with Handled _ _ _ => true | _ => false end.

Lemma within_not_handled (es : list E) : filter (λ e, is_handled e = true) (Within <$> es) = [].
Proof. by induction es. Qed.

(** The answer of the authorizer of an admitted request. *)
Lemma authorize_run peer envelope w : matches uuidPattern (peer_NodeID peer) = true → rq_NodeID envelope = peer_NodeID peer →
  tagged inject (AuthorizeRPC load peer envelope) w =
    let '(loaded, w') := load w in
    (Ok (match loaded with
         | Ok state => authorize_in state peer envelope
         | Err _ => deniedStateRPC envelope StatusServiceUnavailable "unavailable" 0 "authorization_unavailable" "authoritative node identity state is unavailable"
         end), [inject (StateLoaded loaded)], w').
Proof.
  intros Hid Hn. unfold tagged, AuthorizeRPC. rewrite Hn String.eqb_refl.
  assert (String.eqb (peer_NodeID peer) "" = false) as -> by (apply String.eqb_neq; intros Heq; by rewrite Heq in Hid).
  cbn [negb orb]. unfold mbind, proc_bind, call. destruct (load w) as [[state|] w']; done.
Qed.

(** The handler the registry has for the version of a request. *)
Definition serves (envelope : RPCRequest) (handler : RPCHandler W E) : Prop :=
  rr_Handler (reg_current registry) ≠ None ∧ ∃ entry, rr_Handler entry = Some handler ∧
    pv_Major (rr_MaximumVersion entry) = rq_ProtocolMajor envelope ∧ (rq_ProtocolMinor envelope ≤ pv_Minor (rr_MaximumVersion entry))%Z ∧
    (entry = reg_current registry ∨
     pv_Major (rr_MaximumVersion (reg_current registry)) ≠ rq_ProtocolMajor envelope ∧ reg_previous registry = Some entry).

Lemma found_registration major entry : registration registry major = Some entry ↔ pv_Major (rr_MaximumVersion entry) = major ∧
  (entry = reg_current registry ∨ pv_Major (rr_MaximumVersion (reg_current registry)) ≠ major ∧ reg_previous registry = Some entry).
Proof.
  unfold registration. destruct (Z.eqb_spec (pv_Major (rr_MaximumVersion (reg_current registry))) major); [naive_solver|].
  destruct (reg_previous registry) as [previous|]; [|naive_solver]. destruct (Z.eqb_spec (pv_Major (rr_MaximumVersion previous)) major); naive_solver.
Qed.

(** The registry calls the one handler that serves the request, once, or nothing. *)
Lemma registry_run peer envelope w r es w' : registry_HandleRPC registry peer envelope w = (r, es, w') →
  (∃ handler a hes, serves envelope handler ∧ handler peer envelope w = (a, hes, w') ∧ es = (HandlerEvent <$> hes) ++ [HandlerCalled peer envelope a]) ∨
  ((∀ handler, ¬ serves envelope handler) ∧ es = [] ∧ w' = w).
Proof.
  unfold registry_HandleRPC, serves. destruct (rr_Handler (reg_current registry)) as [current|]; [|intros [= <- <- <-]; right; naive_solver].
  destruct (registration registry (rq_ProtocolMajor envelope)) as [entry|] eqn:Er.
  2:{ intros [= <- <- <-]. right. split; [|done]. intros handler (_ & e & _ & Hm & _ & He). by rewrite (proj2 (found_registration _ e) (conj Hm He)) in Er. }
  assert (Hone : ∀ e, pv_Major (rr_MaximumVersion e) = rq_ProtocolMajor envelope → e = reg_current registry ∨
    pv_Major (rr_MaximumVersion (reg_current registry)) ≠ rq_ProtocolMajor envelope ∧ reg_previous registry = Some e → e = entry).
  { intros e Hm He. rewrite (proj2 (found_registration _ e) (conj Hm He)) in Er. by injection Er. }
  apply found_registration in Er as [Hmajor Hentry]. destruct (Z.ltb_spec (pv_Minor (rr_MaximumVersion entry)) (rq_ProtocolMinor envelope)) as [Hlt|Hge].
  { intros [= <- <- <-]. right. split; [|done]. intros handler (_ & e & _ & Hm & Hle & He). rewrite (Hone e Hm He) in Hle. lia. }
  destruct (rr_Handler entry) as [handler|] eqn:Eh.
  - unfold mbind, proc_bind, invoke. destruct (handler peer envelope w) as [[a hes] w1] eqn:Erun. intros [= <- <- <-]. left.
    exists handler, a, hes. rewrite app_nil_r. split_and!; [done|by exists entry|done|done].
  - intros [= <- <- <-]. right. split; [|done]. intros handler (_ & e & Hh & Hm & _ & He). rewrite (Hone e Hm He) in Hh. congruence.
Qed.

(** The request of a node that is to be handled in world [w2]. *)
Definition to_handle (request : http_request) (w : W) (peer : RPCPeer) (envelope : RPCRequest) (handler : RPCHandler W E) (w2 : W) : Prop :=
  admissible limits request peer envelope ∧ serves envelope handler ∧ ∃ at_ w1 state, now w = (at_, w1) ∧
    (instant at_ - RPCClockSkew ≤ instant (rq_Timestamp envelope) ≤ instant at_ + RPCClockSkew)%Z ∧
    load w1 = (Ok state, w2) ∧ current_credentials state peer envelope.

(** One call of the handler, which is all that happened since the state was loaded. *)
Definition handled_once (es : list (serve_event E)) (w' : W) (peer : RPCPeer) (envelope : RPCRequest) (handler : RPCHandler W E) (w2 : W) : Prop :=
  ∃ a hes before, handler peer envelope w2 = (a, hes, w') ∧ es = before ++ (Within <$> hes) ++ [Handled peer envelope a] ∧
    filter (λ e, is_handled e = true) before = [].

(** No handler was called, and the world changed by reading the clock and the state only. *)
Definition not_handled (w : W) (es : list (serve_event E)) (w' : W) : Prop :=
  filter (λ e, is_handled e = true) es = [] ∧ (w' = w ∨ ∃ at_ w1, now w = (at_, w1) ∧ (w' = w1 ∨ ∃ loaded, load w1 = (loaded, w'))).

Lemma to_handle_unique request w peer envelope handler w2 peer' envelope' handler' w2' : to_handle request w peer envelope handler w2 →
  to_handle request w peer' envelope' handler' w2' → peer = peer' ∧ envelope = envelope' ∧ handler = handler' ∧ w2 = w2'.
Proof.
  intros (Hp%screen_ok & (_ & e & Hh & Hm & _ & He) & ? & ? & ? & Hn & _ & Hl & _) (Hp'%screen_ok & (_ & e' & Hh' & Hm' & _ & He') & ? & ? & ? & Hn' & _ & Hl' & _).
  rewrite Hp in Hp'. injection Hp' as <- <-. rewrite Hn in Hn'. injection Hn' as <- <-. rewrite Hl in Hl'. injection Hl' as <- <-.
  assert (Some e = Some e') as [= <-]; [|split_and!; congruence].
  by rewrite -(proj2 (found_registration (rq_ProtocolMajor envelope) e) (conj Hm He)) -(proj2 (found_registration _ e') (conj Hm' He')).
Qed.

Lemma in_window envelope at_ : outside_window envelope (to_utc at_) = false ↔
  (instant at_ - RPCClockSkew ≤ instant (rq_Timestamp envelope) ≤ instant at_ + RPCClockSkew)%Z.
Proof. unfold outside_window, Before, After, Add, to_utc. cbn [instant]. rewrite orb_false_iff !Z.ltb_ge. lia. Qed.

Lemma serve_handled request w answer es w' : serve state_server request w = (answer, es, w') →
  (∃ peer envelope handler w2, to_handle request w peer envelope handler w2 ∧ handled_once es w' peer envelope handler w2) ∨
  ((∀ peer envelope handler w2, ¬ to_handle request w peer envelope handler w2) ∧ not_handled w es w').
Proof.
  unfold serve. cbn [srv_limits srv_now srv_authorizer srv_protocols state_server]. destruct (screen limits request) as [[peer envelope]|status response] eqn:Es.
  2: { intros [= <- <- <-]. right. split; [|split; [done|by left]]. intros p e handler w2 [Hp%screen_ok _]. by rewrite Es in Hp. }
  assert (Hadm := proj1 (screen_ok limits request peer envelope) Es). assert (Hone : ∀ p e, admissible limits request p e → p = peer ∧ e = envelope).
  { intros p e Hp%screen_ok. rewrite Es in Hp. by injection Hp as -> ->. }
  destruct (Hadm) as (? & ? & ? & ? & _ & _ & _ & _ & _ & (_ & _ & _ & _ & _ & Huuid & _) & _ & _ & _ & _ & _ & _ & _ & _ & _ & Hnode).
  unfold mbind at 1, proc_bind at 1, call. destruct (now w) as [at_ w1] eqn:En. cbn [app].
  destruct (outside_window envelope (to_utc at_)) eqn:Ew.
  { intros [= <- <- <-]. right. split; [|split; [done|right; exists at_, w1; auto]].
    intros p e handler w2 ([-> ->]%Hone & _ & ? & ? & ? & Hn & Hw%in_window & _). rewrite En in Hn. injection Hn as <- <-. congruence. }
  unfold mbind, proc_bind, decision. rewrite (authorize_run peer envelope w1 Huuid Hnode). destruct (load w1) as [loaded w2] eqn:El.
  set (authorization := match loaded with Ok _ => _ | Err _ => _ end).
  assert (Hauth : az_Authorized authorization = true ↔ ∃ state, loaded = Ok state ∧ current_credentials state peer envelope).
  { unfold authorization. destruct loaded as [state|]; [rewrite authorize_in_ok; naive_solver|cbn; naive_solver]. }
  assert (Hquiet : ∀ es, filter (λ e, is_handled e = true) es = [] → not_handled w es w2).
  { intros l Hl. split; [done|right; exists at_, w1; split; [done|right; by exists loaded]]. }
  destruct (az_Authorized authorization) eqn:Ea; cbn [negb].
  - unfold tagged. destruct (registry_HandleRPC registry peer envelope w2) as [[r es2] w3] eqn:Er. intros [= <- <- <-]. destruct (proj1 Hauth eq_refl) as (state & -> & Hcur).
    apply registry_run in Er as [(handler & a & hes & Hserves & Hrun & ->)|(Hnone & -> & ->)]; rewrite app_nil_r.
    + left. exists peer, envelope, handler, w2. split; [split_and!; [done..|exists at_, w1, state; by rewrite in_window in Ew]|].
      eexists a, hes, [_; _]. split_and!; [done|rewrite fmap_app -list_fmap_compose; reflexivity|by rewrite !filter_cons_False].
    + right. split; [|apply Hquiet; by rewrite !filter_cons_False]. intros p e handler w4 ([-> ->]%Hone & Hserves & _). by eapply Hnone.
  - intros [= <- <- <-]. right. split; [|apply Hquiet; by rewrite !filter_cons_False].
    intros p e handler w4 ([-> ->]%Hone & _ & ? & ? & state & Hn & _ & Hl & Hcur). rewrite En in Hn. injection Hn as <- <-. rewrite El in Hl. injection Hl as -> ->.
    assert (false = true) by (apply Hauth; eauto). done.
Qed.
End serving.

Lemma ServeHTTP_run {W E} (server : RPCServer W E) request w written es w' : ServeHTTP server request w = (written, es, w') →
  ∃ status response, serve server request w = ((status, response), es, w') ∧ written = writeResponse (srv_limits server) status response.
Proof.
  unfold ServeHTTP, mbind, proc_bind. destruct (serve server request w) as [[[status response] es1] w1]. intros [= <- <- <-].
  exists status, response. by rewrite app_nil_r.
Qed.

(** C23: the server calls a handler exactly when the request came over verified TLS 1.3 from
    the node the certificate and the envelope name, is well formed, within 120 seconds of the
    clock, of a protocol version the registry has a handler for, and the state of the gateway
    lists the certificate among the current credentials of that active node.  Then it calls
    that handler once, for this node and envelope, and nothing else changes the world after
    the state was loaded; otherwise it calls none and only the clock and the state are read. *)
Theorem handled_exactly_when_authorized {W E} (registry : RPCProtocolRegistry W E) load now limits inject request w written es w' :
  ServeHTTP (state_server registry load now limits inject) request w = (written, es, w') →
  (∀ peer envelope handler w2, to_handle registry load now limits request w peer envelope handler w2 → handled_once es w' peer envelope handler w2) ∧
  ((∀ peer envelope handler w2, ¬ to_handle registry load now limits request w peer envelope handler w2) → not_handled load now w es w').
Proof.
  intros (status & response & Hs & _)%ServeHTTP_run. apply serve_handled in Hs as [(peer & envelope & handler & w2 & Ht & Hh)|[Hnone Hn]].
  - split; [|intros Hnone; by destruct (Hnone _ _ _ _ Ht)]. intros peer' envelope' handler' w2' Ht'. by destruct (to_handle_unique _ _ _ _ _ _ _ _ _ _ _ _ _ _ Ht Ht') as (-> & -> & -> & ->).
  - split; [|done]. intros peer envelope handler w2 Ht. by destruct (Hnone _ _ _ _ Ht).
Qed.

(** ** Answers *)

(** The category of a failure, with a status of failures. *)
Definition failing (status : Z) (response : RPCResponse) : Prop := (StatusBadRequest ≤ status ≤ 599)%Z ∧ rs_Category response ≠ "success".

Lemma failing_fits status response : failing status response → rs_Validate response = Ok () →
  validateRPCHandlerResult (MkRPCHandlerResult status response) = Ok ().
Proof.
  unfold failing, validateRPCHandlerResult, StatusBadRequest, StatusOK, StatusNoContent, StatusMultipleChoices. cbn [hr_StatusCode hr_Response].
  intros [Hs Hc] ->. rewrite (proj2 (String.eqb_neq _ _) Hc).
  repeat match goal with |- context [(?a <? ?b)%Z] => destruct (Z.ltb_spec a b) | |- context [(?a =? ?b)%Z] => destruct (Z.eqb_spec a b) end; try lia; rewrite ?andb_false_r; reflexivity.
Qed.

(** A status that fits the response if the response is valid. *)
Definition fits (answer : Z * RPCResponse) : Prop :=
  rs_Validate answer.2 = Ok () → validateRPCHandlerResult (MkRPCHandlerResult answer.1 answer.2) = Ok ().

Lemma failure_fits status category code message : (StatusBadRequest ≤ status ≤ 599)%Z → category ≠ "success" → fits (status, rpcFailure category code message).
Proof. intros Hs Hc Hv. apply (failing_fits _ _); [by split|exact Hv]. Qed.
Lemma versioned_fits status envelope category code message : (StatusBadRequest ≤ status ≤ 599)%Z → category ≠ "success" →
  fits (status, rpcFailureForVersion envelope category code message).
Proof. intros Hs Hc Hv. apply (failing_fits _ _); [by split|exact Hv]. Qed.

Ltac fits_now :=
  lazymatch goal with
  | |- fits (_, rpcFailure _ _ _) => apply failure_fits
  | |- fits (_, rpcFailureForVersion _ _ _ _) => apply versioned_fits
  end; [unfold StatusBadRequest; vm_compute; split; discriminate|discriminate].

Lemma served_answer {A B} (m : served A) (k : A → served B) (P : Z → RPCResponse → Prop) :
  (∀ s r, m = Answer s r → P s r) → (∀ a s r, k a = Answer s r → P s r) → ∀ s r, served_bind A B k m = Answer s r → P s r.
Proof. intros Hm Hk s r. destruct m as [a|s' r']; cbn; [apply Hk|]. intros [= <- <-]. by apply Hm. Qed.
Lemma refuse_answer bad status response s r : refuse bad status response = Answer s r → s = status ∧ r = response.
Proof. destruct bad; cbn; naive_solver. Qed.
Lemma or_answer_answer {A} (m : option A) status response s r : or_answer m status response = Answer s r → s = status ∧ r = response.
Proof. destruct m; cbn; naive_solver. Qed.

Lemma screen_fits limits request status response : screen limits request = Answer status response → fits (status, response).
Proof.
  set (P := λ s r, fits (s, r)). change (fits (status, response)) with (P status response). revert status response. unfold screen.
  do 2 (apply (served_answer _ _ P); [intros ? ? [-> ->]%or_answer_answer; unfold P; fits_now|intros ?]).
  apply (served_answer _ _ P); [intros ? ? [-> ->]%or_answer_answer; unfold P; fits_now|intros [major operation]].
  do 3 (apply (served_answer _ _ P); [intros ? ? [-> ->]%refuse_answer; unfold P; fits_now|intros _]).
  do 2 (apply (served_answer _ _ P); [intros ? ? [-> ->]%or_answer_answer; unfold P; fits_now|intros ?]).
  do 3 (apply (served_answer _ _ P); [intros ? ? [-> ->]%refuse_answer; unfold P; fits_now|intros _]).
  done.
Qed.

Lemma answer_fits envelope r : fits (answer_of envelope r).
Proof.
  unfold answer_of. destruct r as [[status response]|]; [|fits_now]. cbn [hr_StatusCode hr_Response].
  destruct (is_ok (rs_Validate response)) eqn:Ev; cbn [negb].
  2: { unfold fits. cbn [fst snd]. intros K. by rewrite K in Ev. }
  destruct (same_version envelope response); cbn [negb]; [|fits_now].
  destruct (validateRPCHandlerResult (MkRPCHandlerResult status response)) as [[]|] eqn:Ef; cbn [is_ok negb]; [|fits_now]. by intros _.
Qed.

Lemma denial_fits envelope denial : fits (denial_of envelope denial).
Proof.
  unfold denial_of. destruct denial as [status response]. cbn [hr_StatusCode hr_Response].
  destruct (validateRPCHandlerResult (MkRPCHandlerResult status response)) as [[]|] eqn:Ef; cbn [is_ok negb orb]; [|fits_now].
  destruct (same_version envelope response); cbn [negb orb]; [by intros _|fits_now].
Qed.

Lemma serve_fits {W E} (server : RPCServer W E) request w answer es w' : serve server request w = (answer, es, w') → fits answer.
Proof.
  unfold serve. destruct (screen _ _) as [[peer envelope]|status response] eqn:Es.
  2: { intros [= <- _ _]. by eapply screen_fits. }
  unfold mbind, proc_bind, call. destruct (srv_now server w) as [at_ w1]. destruct (outside_window envelope (to_utc at_)).
  { intros [= <- _ _]. fits_now. }
  destruct (decision _ _ w1) as [[[authorization|] es1] w2]; [|intros [= <- _ _]; fits_now].
  destruct (az_Authorized authorization); cbn [negb].
  - destruct (tagged _ _ w2) as [[r es2] w3]. intros [= <- _ _]. apply answer_fits.
  - intros [= <- _ _]. apply denial_fits.
Qed.

(** The answer when a response cannot be sent. *)
Definition last_resort : Z * string :=
  (StatusInternalServerError, default "" (good (marshal (rpcFailure "internal" "response_too_large" "the control RPC response exceeded its safety boundary")))).

(** C35: whatever the authorizer and the handlers return, the server writes either its fixed
    internal failure or the encoding of a valid response within the limit, under a status that
    agrees with its category. *)
Theorem only_valid_answers_are_written {W E} (server : RPCServer W E) request w written es w' :
  ServeHTTP server request w = (written, es, w') →
  written = last_resort ∨
  ∃ response, rs_Validate response = Ok () ∧ marshal response = Ok written.2 ∧
    (String.length written.2 ≤ lim_maximumResponseBytes (srv_limits server))%nat ∧
    validateRPCHandlerResult (MkRPCHandlerResult written.1 response) = Ok ().
Proof.
  intros (status & response & Hs%serve_fits & ->)%ServeHTTP_run. unfold writeResponse.
  destruct (rs_Validate response) as [[]|] eqn:Ev; cbn [mbind result_bind]; [|by left]. destruct (marshal response) as [encoded|] eqn:Em; [|by left].
  destruct (Nat.ltb_spec (lim_maximumResponseBytes (srv_limits server)) (String.length encoded)); [by left|]. right. exists response.
  split_and!; [done..|]. by apply Hs.
Qed.
End claims.

(** ** Witnesses *)

Definition sample_handler : RPCHandler State state_event := λ _ _, mret (Ok (MkRPCHandlerResult StatusOK (NewRPCResponse "success" 9 "{}"))).
Definition sample_protocols : RPCProtocolRegistry State state_event :=
  MkRPCProtocolRegistry (MkRPCProtocolRegistration (MkRPCProtocolVersion 1 0) (Some sample_handler)) None.
Definition sample_load (w : State) : result State * State := (Ok w, w).
Definition sample_now (w : State) : time * State := (day 5, w).
Abbreviation sample_served := (ServeHTTP (state_server sample_protocols sample_load sample_now defaultRPCLimits id) http_post (gateway_state 9 [])).

Lemma sample_served_run : sample_served = (sample_served.1.1, sample_served.1.2, sample_served.2).
Proof. by destruct (sample_served) as [[? ?] ?]. Qed.

Lemma sample_to_handle : to_handle sample_protocols sample_load sample_now defaultRPCLimits http_post (gateway_state 9 []) sample_peer
  (control_request (uuid "71") 9 "expose-create") sample_handler (gateway_state 9 []).
Proof.
  split; [by apply screen_ok; vm_compute|]. split.
  - split; [done|]. exists (MkRPCProtocolRegistration (MkRPCProtocolVersion 1 0) (Some sample_handler)). split_and!; [done|done|cbn; lia|by left].
  - exists (day 5), (gateway_state 9 []), (gateway_state 9 []). split_and!; [done|by vm_compute|by vm_compute|done|].
    apply authorize_in_ok. by vm_compute.
Qed.

Lemma handled_exactly_when_authorized_witness : handled_once sample_served.1.2 sample_served.2 sample_peer (control_request (uuid "71") 9 "expose-create")
  sample_handler (gateway_state 9 []).
Proof.
  exact (proj1 (handled_exactly_when_authorized sample_protocols sample_load sample_now defaultRPCLimits id http_post (gateway_state 9 []) _ _ _ sample_served_run)
    _ _ _ _ sample_to_handle).
Defined.

Lemma only_valid_answers_are_written_witness : sample_served.1.1 = last_resort ∨ ∃ response, rs_Validate response = Ok () ∧ marshal response = Ok sample_served.1.1.2.
Proof.
  destruct (only_valid_answers_are_written _ _ _ _ _ _ sample_served_run) as [Hl|(response & Hv & Hm & _)]; [by left|right].
  exists response. split; [exact Hv|exact Hm].
Defined.
