(* ===== verification/Controller.v ===== *)
(** * The controller of the gateway ([internal/controller/process.go], [internal/control/local.go])

    The controller is the only writer of the gateway state.  Local commands reach it through
    a socket; a mutation loads the state, prepares a candidate, activates it on the host,
    saves the state and undoes the activation when the state could not be saved.  Requests of
    a mutation are serialized by a lock.  Here are its handlers, from the bytes of a request
    to the response; sockets, events for the log and the locks of files are left out. *)

From S2P Require Import Prelude GoTime GoText GoNet GoConv Proc Types Checks StateValidate Codec Rpc RpcServer.

Local Open Scope string_scope.
Local Open Scope list_scope.

(** ** Requests and responses of the socket *)

Definition LocalSchemaVersion : Z := 1.
Definition LocalMaximumBytes : nat := 64 * 1024.
Definition LocalTimeout : Z := 5 * second.
Definition LocalMaximumMutationTimeout : Z := 60 * second.
Definition maximumJSONDepth : nat := 32.

Inductive LocalMethod := LocalObserve | LocalMutate | LocalMethodUnsupported (raw : string).

Record LocalRequest := MkLocalRequest {
  lq_SchemaVersion : Z;
  lq_Method : LocalMethod;
  lq_Operation : string;
  lq_ExpectedGeneration : N;
  lq_Payload : string
}.

Record LocalResponse := MkLocalResponse {
  lr_SchemaVersion : Z;
  lr_OK : bool;
  lr_Generation : N;
  lr_ErrorCode : string;
  lr_Message : string;
  lr_Data : string
}.

Definition localFailureWithGeneration (code message : string) (generation : N) : LocalResponse :=
  MkLocalResponse LocalSchemaVersion false generation code message "".
Definition localFailure (code message : string) : LocalResponse := localFailureWithGeneration code message 0.
Definition local_success (generation : N) (data : string) : LocalResponse := MkLocalResponse LocalSchemaVersion true generation "" "" data.

Definition DecodeLocalRequest `{!JSONTokens, !JSONValue LocalRequest} (data : string) : result LocalRequest :=
  request ← decodeStrictJSONWithDepth data maximumJSONDepth;
  reject (negb (lq_SchemaVersion request =? LocalSchemaVersion)%Z) (Message "unsupported local request schema");;
  Ok request.

Definition DecodeLocalResponse `{!JSONTokens, !JSONValue LocalResponse} (data : string) : result LocalResponse :=
  response ← decodeStrictJSONWithDepth data maximumJSONDepth;
  reject (negb (lr_SchemaVersion response =? LocalSchemaVersion)%Z) (Message "unsupported local response schema");;
  Ok response.

Definition localOperationPattern : re := rpcOperationPattern.

(** ** The host of the controller *)

Record UnitObservation := MkUnitObservation { uo_Name : string; uo_LoadState : string; uo_ActiveState : string; uo_SubState : string }.
Record Observation := MkObservation { ob_ObservedAt : time; ob_Units : slice UnitObservation; ob_Issues : slice string }.

Class ControllerStateStore (W : Type) := {
  cs_Load : W → result State * W;
  cs_Save : N → State → W → result unit * W
}.
(** An observation is returned beside the error. *)
Class PassiveObserver (W : Type) := { Observe : State → W → (Observation * option error) * W }.
(** [AcquireGatewayMutationLock] without waiting, and the function it returns. *)
Class MutationLock (W : Type) := {
  acquire_lock : W → result unit * W;
  release_lock : W → W
}.
Class ControllerClock (W : Type) := { runtime_Now : W → time * W }.

Section prepared.
Context {W : Type}.

(** [None] is a nil function. *)
Record PreparedMutation := MkPreparedMutation {
  pm_Candidate : State;
  pm_Data : string;
  pm_Changed : bool;
  pm_RuntimeOnly : bool;
  pm_Timeout : Z;
  pm_Apply : option (call_bound → W → result unit * W);
  pm_Rollback : option (call_bound → W → result unit * W);
  pm_Result : option (W → string * W)
}.

(** A [MutationDispatcher], and one that is also a [PreparedMutationDispatcher]. *)
Inductive LocalDispatcher :=
  | PlainDispatcher (Dispatch : State → string → string → W → result (State * string) * W)
  | PreparedDispatcher (Prepare : State → string → string → W → result PreparedMutation * W).
End prepared.
Arguments PreparedMutation W : clear implicits.
Arguments LocalDispatcher W : clear implicits.

(** The calls of the controller, with their outcome. *)
Inductive controller_event :=
  | StateCall (e : state_event)
  | ObserverAsked (state : State) (r : Observation * option error)
  | LockTried (r : result unit)
  | LockReleased
  | MutationDispatched (operation payload : string) (r : result State)
  | MutationPrepared (operation payload : string) (r : result State)
  | RuntimeApplied (bound : call_bound) (r : result unit)
  | RuntimeRolledBack (bound : call_bound) (r : result unit).

Section controller.
Context {W : Type} `{!ControllerStateStore W, !PassiveObserver W, !MutationLock W, !ControllerClock W}.

(** The controller and the world it acts on: what it saw last, which starts empty. *)
Record Controller := MkController { ctl_host : W; ctl_lastState : option State; ctl_lastObserve : option Observation }.

Definition run (A : Type) : Type := proc Controller controller_event A.

Definition on_host {A} (f : W → A * W) (log : A → list controller_event) : run A :=
  call (λ c, let '(a, w) := f (ctl_host c) in (a, MkController w (ctl_lastState c) (ctl_lastObserve c))) log.

Definition load_state : run (result State) := on_host cs_Load (λ r, [StateCall (StateLoaded r)]).
Definition save_state (expected : N) (candidate : State) : run (result unit) :=
  on_host (cs_Save expected candidate) (λ r, [StateCall (StateSaved expected candidate r)]).

Definition last_generation (c : Controller) : N := match ctl_lastState c with Some state => st_Generation state | None => 0%N end.

Definition recordObservation (state : State) : run unit :=
  '(observed, failure) ← on_host (Observe state) (λ r, [ObserverAsked state r]);
  at_ ← (if IsZero (ob_ObservedAt observed) then (now ← on_host runtime_Now (λ _, []); mret (to_utc now)) else mret (ob_ObservedAt observed));
  let issues := match failure with Some _ => items (ob_Issues observed) ++ ["observation_failed"] | None => items (ob_Issues observed) end in
  let observed := MkObservation at_ (Some (items (ob_Units observed))) (Some issues) in
  call (λ c, ((), if (last_generation c <=? st_Generation state)%N then MkController (ctl_host c) (Some state) (Some observed) else c)) (λ _, []).

(** ** Local mutations *)

Definition or_object (data : string) : string := if String.eqb data "" then "{}" else data.

(** The outcome of a state that could not be saved: the candidate may be stored all the same,
    the state may be unknown, or unchanged; only then the runtime is rolled back. *)
Definition recover_save (state : State) (prepared : PreparedMutation W) (rollback : call_bound → W → result unit * W) (failure : error) : run LocalResponse :=
  loaded ← load_state;
  let fail code message generation := mret (localFailureWithGeneration code message generation) in
  let ambiguous := fail "rollback_failed" "authoritative state outcome is ambiguous; runtime was left on the prepared candidate" (st_Generation state) in
  match loaded with
  | Err _ => ambiguous
  | Ok observed =>
      if bool_decide (observed = pm_Candidate prepared) then
        _ ← recordObservation observed;
        fail "state_write_failed" "authoritative state activation completed without a durable success acknowledgement" (st_Generation observed)
      else if negb (bool_decide (observed = state)) then ambiguous else
        undone ← on_host (rollback (Detached LocalTimeout)) (λ r, [RuntimeRolledBack (Detached LocalTimeout) r]);
        match undone with
        | Err _ => fail "rollback_failed" "runtime rollback failed after authoritative state write failure" (st_Generation state)
        | Ok _ =>
            if errors_is failure ErrStateConflict then fail "generation_conflict" "authoritative state generation conflict" (st_Generation state)
            else fail "state_write_failed" "authoritative state could not be committed" (st_Generation state)
        end
  end.

(** Activation, result and commit of a prepared mutation that changes something. *)
Definition commit_prepared (state : State) (prepared : PreparedMutation W) (apply rollback : call_bound → W → result unit * W) (timeout : Z) : run LocalResponse :=
  applied ← on_host (apply (Detached timeout)) (λ r, [RuntimeApplied (Detached timeout) r]);
  match applied with
  | Err _ => mret (localFailureWithGeneration "runtime_apply_failed" "operation runtime could not be activated" (st_Generation state))
  | Ok _ =>
      data ← match pm_Result prepared with
             | Some result => data ← on_host result (λ _, []); mret (or_object data)
             | None => mret (or_object (pm_Data prepared))
             end;
      if pm_RuntimeOnly prepared then
        _ ← recordObservation state;
        mret (local_success (st_Generation state) data)
      else
        saved ← save_state (st_Generation state) (pm_Candidate prepared);
        match saved with
        | Err failure => recover_save state prepared rollback failure
        | Ok _ =>
            _ ← recordObservation (pm_Candidate prepared);
            mret (local_success (st_Generation (pm_Candidate prepared)) data)
        end
  end.

Definition applyPreparedMutation (state : State) (request : LocalRequest) (Prepare : State → string → string → W → result (PreparedMutation W) * W) : run LocalResponse :=
  let fail message := mret (localFailureWithGeneration "mutation_failed" message (st_Generation state)) in
  preparation ← on_host (Prepare state (lq_Operation request) (lq_Payload request))
    (λ r, [MutationPrepared (lq_Operation request) (lq_Payload request) (pm_Candidate <$> r)]);
  match preparation with
  | Err _ => fail "local mutation was rejected"
  | Ok prepared =>
      if negb (pm_Changed prepared) then mret (local_success (st_Generation state) (or_object (pm_Data prepared))) else
      match pm_Apply prepared, pm_Rollback prepared with
      | Some apply, Some rollback =>
          if pm_RuntimeOnly prepared && negb (bool_decide (pm_Candidate prepared = state)) then fail "runtime-only mutation changed authoritative state" else
          let timeout := if (pm_Timeout prepared <=? 0)%Z then LocalTimeout else pm_Timeout prepared in
          if (LocalMaximumMutationTimeout <? timeout)%Z then fail "local mutation timeout is unsupported" else
          commit_prepared state prepared apply rollback timeout
      | _, _ => fail "local mutation was rejected"
      end
  end.

Definition dispatchMutation (state : State) (request : LocalRequest) (Dispatch : State → string → string → W → result (State * string) * W) : run LocalResponse :=
  dispatched ← on_host (Dispatch state (lq_Operation request) (lq_Payload request))
    (λ r, [MutationDispatched (lq_Operation request) (lq_Payload request) (fst <$> r)]);
  match dispatched with
  | Err _ => mret (localFailureWithGeneration "mutation_failed" "local mutation was rejected" (st_Generation state))
  | Ok (candidate, data) =>
      saved ← save_state (st_Generation state) candidate;
      match saved with
      | Err failure =>
          if errors_is failure ErrStateConflict
          then mret (localFailureWithGeneration "generation_conflict" "authoritative state generation conflict" (st_Generation state))
          else mret (localFailureWithGeneration "state_write_failed" "authoritative state could not be committed" (st_Generation state))
      | Ok _ =>
          _ ← recordObservation candidate;
          mret (local_success (st_Generation candidate) (or_object data))
      end
  end.

(** What happens while both locks are held. *)
Definition locked_mutation (dispatcher : LocalDispatcher W) (request : LocalRequest) : run LocalResponse :=
  loaded ← load_state;
  match loaded with
  | Err _ => mret (localFailure "state_unavailable" "authoritative state could not be loaded")
  | Ok state =>
      if negb (lq_ExpectedGeneration request =? 0)%N && negb (lq_ExpectedGeneration request =? st_Generation state)%N
      then mret (localFailureWithGeneration "generation_conflict" "authoritative state generation changed" (st_Generation state)) else
      match dispatcher with
      | PreparedDispatcher Prepare => applyPreparedMutation state request Prepare
      | PlainDispatcher Dispatch => dispatchMutation state request Dispatch
      end
  end.

Definition mutateResponse (dispatcher : option (LocalDispatcher W)) (request : LocalRequest) : run LocalResponse :=
  let unsupported := localFailure "unsupported_operation" "local mutation operation is unsupported" in
  match dispatcher with
  | None => mret unsupported
  | Some dispatcher =>
      if negb (matches localOperationPattern (lq_Operation request)) then mret unsupported else
      locked ← on_host acquire_lock (λ r, [LockTried r]);
      match locked with
      | Err e =>
          if errors_is e ErrGatewayMutationBusy then mret (localFailure "mutation_busy" "another gateway mutation is active")
          else mret (localFailure "mutation_lock_unavailable" "gateway mutation lock is unavailable")
      | Ok _ =>
          response ← locked_mutation dispatcher request;
          _ ← on_host (λ w, ((), release_lock w)) (λ _, [LockReleased]);
          mret response
      end
  end.

(** ** Observation *)

Record observe_data := MkObserveData { od_Role : Role; od_Observation : Observation }.

Definition observeResponse `{!JSONValue observe_data} : run LocalResponse :=
  loaded ← load_state;
  match loaded with
  | Err _ => mret (localFailure "state_unavailable" "authoritative state could not be loaded")
  | Ok state =>
      _ ← recordObservation state;
      '(last, observation) ← call (λ c, ((ctl_lastState c, ctl_lastObserve c), c)) (λ _, []);
      match last, observation with
      | Some last, Some observation =>
          match marshal (MkObserveData (host_Role (st_Host last)) observation) with
          | Err _ => mret (localFailure "internal" "controller could not encode observation")
          | Ok data => mret (local_success (st_Generation last) data)
          end
      | _, _ => mret (localFailure "internal" "controller could not encode observation")
      end
  end.

(** The response to the bytes read from a connection. *)
Definition handleConnection `{!JSONTokens, !JSONValue LocalRequest, !JSONValue observe_data} (dispatcher : option (LocalDispatcher W)) (read : result string)
    : run LocalResponse :=
  match read with
  | Err _ => mret (localFailure "read_failed" "local request could not be read")
  | Ok data =>
      if (LocalMaximumBytes <? String.length data)%nat then mret (localFailure "request_too_large" "local request exceeds the size limit") else
      match DecodeLocalRequest data with
      | Err _ => mret (localFailure "invalid_request" "local request is invalid")
      | Ok request =>
          match lq_Method request with
          | LocalObserve => observeResponse
          | LocalMutate => mutateResponse dispatcher request
          | LocalMethodUnsupported _ => mret (localFailure "unsupported_method" "local request method is unsupported")
          end
      end
  end.
End controller.
Arguments Controller W : clear implicits.
Arguments run W A : clear implicits.

(** What is sent: the response and a line break, or the failure to encode it. *)
Definition local_writeResponse `{!JSONValue LocalResponse} (response : LocalResponse) : string :=
  let failure := default "" (good (marshal (localFailure "internal" "controller could not encode response"))) in
  match marshal response with
  | Ok encoded => if (LocalMaximumBytes <? String.length encoded)%nat then failure +:+ newline else encoded +:+ newline
  | Err _ => failure +:+ newline
  end.
