(* ===== verification/ControllerFacts.v ===== *)
(** * What the controller guarantees

    Every step of a local mutation is taken between the acquisition and the release of the
    lock and follows one script; on a host that does what it reports, the runtime is that of
    the stored state afterwards, unless a failed rollback is reported. *)

From S2P Require Import Prelude GoTime GoText Proc Types Checks Idempotency Samples StateValidate Codec Transition SwitchIntent SwitchFacts Rpc RpcServer RpcSamples Controller.

Local Open Scope string_scope.
Local Open Scope list_scope.

(** Observations are only recorded; the other calls are the steps of a mutation. *)
Definition is_step (e : controller_event) : bool := match e with ObserverAsked _ _ => false | _ => true end.
Definition steps (es : list controller_event) : list controller_event := filter (λ e, is_step e = true) es.

Lemma steps_app es es' : steps (es ++ es') = steps es ++ steps es'.
Proof. apply filter_app. Qed.

(** ** Scripts *)

(** The steps that end a prepared mutation of [state], and the response. *)
Inductive commit_script (state candidate : State) (runtime_only : bool) (timeout : Z) : list controller_event → LocalResponse → Prop :=
  | apply_fails e :
      commit_script state candidate runtime_only timeout [RuntimeApplied (Detached timeout) (Err e)]
        (localFailureWithGeneration "runtime_apply_failed" "operation runtime could not be activated" (st_Generation state))
  | runtime_repaired data : runtime_only = true →
      commit_script state candidate runtime_only timeout [RuntimeApplied (Detached timeout) (Ok ())] (local_success (st_Generation state) data)
  | state_committed data : runtime_only = false →
      commit_script state candidate runtime_only timeout
        [RuntimeApplied (Detached timeout) (Ok ()); StateCall (StateSaved (st_Generation state) candidate (Ok ()))]
        (local_success (st_Generation candidate) data)
  | commit_unknown e r message : runtime_only = false → (∀ observed, r = Ok observed → observed ≠ candidate ∧ observed ≠ state) →
      commit_script state candidate runtime_only timeout
        [RuntimeApplied (Detached timeout) (Ok ()); StateCall (StateSaved (st_Generation state) candidate (Err e)); StateCall (StateLoaded r)]
        (localFailureWithGeneration "rollback_failed" message (st_Generation state))
  | commit_unacknowledged e message : runtime_only = false →
      commit_script state candidate runtime_only timeout
        [RuntimeApplied (Detached timeout) (Ok ()); StateCall (StateSaved (st_Generation state) candidate (Err e)); StateCall (StateLoaded (Ok candidate))]
        (localFailureWithGeneration "state_write_failed" message (st_Generation candidate))
  | commit_undone e r code message : runtime_only = false → candidate ≠ state → (code = "rollback_failed" ↔ is_ok r = false) →
      commit_script state candidate runtime_only timeout
        [RuntimeApplied (Detached timeout) (Ok ()); StateCall (StateSaved (st_Generation state) candidate (Err e)); StateCall (StateLoaded (Ok state));
         RuntimeRolledBack (Detached LocalTimeout) r]
        (localFailureWithGeneration code message (st_Generation state)).

(** The steps after the state was loaded. *)
Inductive mutation_script (state : State) (request : LocalRequest) : list controller_event → LocalResponse → Prop :=
  | generation_changed code message : lq_ExpectedGeneration request ≠ 0%N → lq_ExpectedGeneration request ≠ st_Generation state →
      mutation_script state request [] (localFailureWithGeneration code message (st_Generation state))
  | preparation_refused r message :
      mutation_script state request [MutationPrepared (lq_Operation request) (lq_Payload request) r]
        (localFailureWithGeneration "mutation_failed" message (st_Generation state))
  | nothing_to_change candidate data :
      mutation_script state request [MutationPrepared (lq_Operation request) (lq_Payload request) (Ok candidate)] (local_success (st_Generation state) data)
  | prepared_commit candidate runtime_only timeout es response : (0 < timeout ≤ LocalMaximumMutationTimeout)%Z → (runtime_only = true → candidate = state) →
      commit_script state candidate runtime_only timeout es response →
      mutation_script state request (MutationPrepared (lq_Operation request) (lq_Payload request) (Ok candidate) :: es) response
  | dispatch_refused e message :
      mutation_script state request [MutationDispatched (lq_Operation request) (lq_Payload request) (Err e)]
        (localFailureWithGeneration "mutation_failed" message (st_Generation state))
  | dispatch_unsaved candidate e code message :
      mutation_script state request [MutationDispatched (lq_Operation request) (lq_Payload request) (Ok candidate); StateCall (StateSaved (st_Generation state) candidate (Err e))]
        (localFailureWithGeneration code message (st_Generation state))
  | dispatch_saved candidate data :
      mutation_script state request [MutationDispatched (lq_Operation request) (lq_Payload request) (Ok candidate); StateCall (StateSaved (st_Generation state) candidate (Ok ()))]
        (local_success (st_Generation candidate) data).

Section scripts.
Context {W : Type} `{!ControllerStateStore W, !PassiveObserver W, !MutationLock W, !ControllerClock W}.

Lemma wp_host {A} (f : W → A * W) log (c : Controller W) (Q : A → list controller_event → Controller W → Prop) :
  (∀ a w, f (ctl_host c) = (a, w) → Q a (log a) (MkController w (ctl_lastState c) (ctl_lastObserve c))) → wp (on_host f log) c Q.
Proof. intros HQ. unfold on_host, wp, call. destruct (f (ctl_host c)) as [a w] eqn:E. by apply HQ. Qed.

(** Recording an observation takes no step and keeps what the observer and the clock keep. *)
Lemma wp_record (P : W → Prop) state c (Q : unit → list controller_event → Controller W → Prop) :
  (∀ s w a w', P w → Observe s w = (a, w') → P w') → (∀ w t w', P w → runtime_Now w = (t, w') → P w') → P (ctl_host c) →
  (∀ es c', steps es = [] → P (ctl_host c') → Q () es c') → wp (recordObservation state) c Q.
Proof.
  intros Hobs Hnow Hc HQ. unfold recordObservation. apply wp_bind, wp_host. intros [observed failure] w Ho.
  assert (Hw : P w) by (by eapply Hobs). apply wp_bind.
  destruct (IsZero (ob_ObservedAt observed)).
  - apply wp_bind, wp_host. intros t w' Ht. apply wp_ret, wp_call. intros [] c' [= <-]. apply HQ; [done|]. destruct (_ <=? _)%N; cbn; by eapply Hnow.
  - apply wp_ret, wp_call. intros [] c' [= <-]. apply HQ; [done|]. by destruct (_ <=? _)%N.
Qed.

Lemma wp_record_script state c (Q : unit → list controller_event → Controller W → Prop) :
  (∀ es c', steps es = [] → Q () es c') → wp (recordObservation state) c Q.
Proof. intros HQ. apply (wp_record (λ _, True)); auto. Qed.

Lemma recover_script state prepared rollback e timeout c (Q : LocalResponse → list controller_event → Prop) :
  let saved := StateCall (StateSaved (st_Generation state) (pm_Candidate prepared) (Err e)) in
  pm_RuntimeOnly prepared = false →
  (∀ es response, commit_script state (pm_Candidate prepared) false timeout (RuntimeApplied (Detached timeout) (Ok ()) :: saved :: es) response → Q response es) →
  wp (recover_save state prepared rollback e) c (λ response es _, Q response (steps es)).
Proof.
  intros saved Hro HQ. unfold recover_save. apply wp_bind, wp_host. intros [observed|failure] w Hl.
  2: { apply wp_ret, (HQ _ _). by apply commit_unknown. }
  destruct (bool_decide (observed = pm_Candidate prepared)) eqn:Ec; bool_facts.
  - subst observed. apply wp_bind, wp_record_script. intros es c' Hes. apply wp_ret. rewrite steps_app app_nil_r Hes. cbn. apply (HQ _ _). by apply commit_unacknowledged.
  - destruct (bool_decide (observed = state)) eqn:Es; cbn [negb]; bool_facts.
    + subst observed. apply wp_bind, wp_host. intros [[]|u] w' Hr.
      * destruct (errors_is e ErrStateConflict); apply wp_ret, (HQ _ _), commit_undone; naive_solver.
      * apply wp_ret, (HQ _ _), commit_undone; naive_solver.
    + apply wp_ret, (HQ _ _), commit_unknown; naive_solver.
Qed.

Lemma commit_follows state prepared apply_ rollback timeout c :
  wp (commit_prepared state prepared apply_ rollback timeout) c (λ response es _,
    commit_script state (pm_Candidate prepared) (pm_RuntimeOnly prepared) timeout (steps es) response).
Proof.
  unfold commit_prepared. apply wp_bind, wp_host. intros [[]|e] w Ha; [|apply wp_ret; constructor].
  set (Q := λ response es, commit_script state (pm_Candidate prepared) (pm_RuntimeOnly prepared) timeout (RuntimeApplied (Detached timeout) (Ok ()) :: es) response).
  assert (Hrest : ∀ data c', wp (if pm_RuntimeOnly prepared
      then _ ← recordObservation state; mret (local_success (st_Generation state) data)
      else saved ← save_state (st_Generation state) (pm_Candidate prepared);
        match saved with
        | Err failure => recover_save state prepared rollback failure
        | Ok _ => _ ← recordObservation (pm_Candidate prepared); mret (local_success (st_Generation (pm_Candidate prepared)) data)
        end) c' (λ response es _, Q response (steps es))).
  { intros data c'. unfold Q. destruct (pm_RuntimeOnly prepared) eqn:Hro.
    - apply wp_bind, wp_record_script. intros es c'' Hes. apply wp_ret. rewrite steps_app app_nil_r Hes. by constructor.
    - apply wp_bind, wp_host. intros [[]|e] w' Hs.
      + apply wp_bind, wp_record_script. intros es c'' Hes. apply wp_ret. rewrite !steps_app Hes. by constructor.
      + eapply wp_mono; [apply (recover_script state prepared rollback e timeout _ (λ response es,
          commit_script state (pm_Candidate prepared) false timeout (RuntimeApplied (Detached timeout) (Ok ()) :: StateCall (StateSaved (st_Generation state) (pm_Candidate prepared) (Err e)) :: es) response)); done|].
        intros response es c'' Hr. exact Hr. }
  destruct (pm_Result prepared) as [result|].
  - apply wp_bind, wp_bind, wp_host. intros data w' _. apply wp_ret. eapply wp_mono; [apply Hrest|]. intros response es c' Hr. exact Hr.
  - apply wp_bind, wp_ret. eapply wp_mono; [apply Hrest|]. intros response es c' Hr. exact Hr.
Qed.

Lemma prepared_follows state request Prepare c : (lq_ExpectedGeneration request = 0 ∨ lq_ExpectedGeneration request = st_Generation state)%N →
  wp (applyPreparedMutation state request Prepare) c (λ response es _, mutation_script state request (steps es) response).
Proof.
  intros Hgen. unfold applyPreparedMutation. apply wp_bind, wp_host. intros [prepared|e] w Hp; [|apply wp_ret, preparation_refused].
  destruct (pm_Changed prepared); cbn [negb]; [|apply wp_ret, nothing_to_change].
  destruct (pm_Apply prepared) as [apply_|]; [|apply wp_ret, preparation_refused]. destruct (pm_Rollback prepared) as [rollback|]; [|apply wp_ret, preparation_refused].
  destruct (pm_RuntimeOnly prepared && _) eqn:Ero; [apply wp_ret, preparation_refused|].
  set (timeout := if (pm_Timeout prepared <=? 0)%Z then LocalTimeout else pm_Timeout prepared).
  destruct (Z.ltb_spec LocalMaximumMutationTimeout timeout) as [|Ht]; [apply wp_ret, preparation_refused|].
  eapply wp_mono; [apply commit_follows|]. intros response es c' Hs.
  refine (prepared_commit state request _ _ _ _ _ _ _ Hs).
  - split; [|exact Ht]. unfold timeout. destruct (Z.leb_spec (pm_Timeout prepared) 0); [done|lia].
  - intros Hro. rewrite Hro in Ero. cbn [andb] in Ero. by bool_facts.
Qed.

Lemma dispatch_follows state request Dispatch c :
  wp (dispatchMutation state request Dispatch) c (λ response es _, mutation_script state request (steps es) response).
Proof.
  unfold dispatchMutation. apply wp_bind, wp_host. intros [[candidate data]|e] w Hd; [|apply wp_ret, dispatch_refused].
  apply wp_bind, wp_host. intros [[]|e] w' Hs.
  - apply wp_bind, wp_record_script. intros es c' Hes. apply wp_ret. rewrite !steps_app Hes. by constructor.
  - destruct (errors_is e ErrStateConflict); apply wp_ret, dispatch_unsaved.
Qed.

(** The steps while the locks are held. *)
Definition section_script (request : LocalRequest) (es : list controller_event) (response : LocalResponse) : Prop :=
  (∃ e code message, es = [StateCall (StateLoaded (Err e))] ∧ response = localFailure code message) ∨
  ∃ state rest, es = StateCall (StateLoaded (Ok state)) :: rest ∧ mutation_script state request rest response.

Lemma section_follows dispatcher request c :
  wp (locked_mutation dispatcher request) c (λ response es _, section_script request (steps es) response).
Proof.
  unfold locked_mutation. apply wp_bind, wp_host. intros [state|e] w Hl; [|apply wp_ret; left; by repeat eexists].
  assert (Hin : ∀ m : run W LocalResponse, (∀ c', wp m c' (λ response es _, mutation_script state request (steps es) response)) →
    ∀ c', wp m c' (λ response es _, section_script request (steps ([StateCall (StateLoaded (Ok state))] ++ es)) response)).
  { intros m Hm c'. eapply wp_mono; [apply Hm|]. intros response es c'' Hs. right. exists state, (steps es). done. }
  destruct (_ && _) eqn:Eg; bool_facts; apply Hin; intros c'.
  - by apply wp_ret, generation_changed.
  - destruct dispatcher as [Dispatch|Prepare]; [apply dispatch_follows|apply prepared_follows].
    apply andb_false_iff in Eg as [Eg|Eg]; bool_facts; auto.
Qed.
End scripts.

(** Every mutation asked for over the socket takes its steps between the acquisition and
    the release of the lock: it loads the state, prepares or dispatches a candidate, activates
    it before it saves it, saves it at most once at the generation that was loaded, and rolls
    back exactly when the save failed and the state is found unchanged; the response reports
    success exactly when nothing was to change or the last step succeeded. *)
Theorem local_mutation_follows_script `{!ControllerStateStore W, !PassiveObserver W, !MutationLock W, !ControllerClock W} dispatcher request (c : Controller W) response es c' :
  mutateResponse dispatcher request c = (response, es, c') →
  (∃ code message, response = localFailure code message ∧ (steps es = [] ∨ ∃ e, steps es = [LockTried (Err e)])) ∨
  ∃ inner, steps es = LockTried (Ok ()) :: inner ++ [LockReleased] ∧ section_script request inner response.
Proof.
  intros Hm. refine (wp_run (mutateResponse dispatcher request) c (λ response es _, _) response es c' _ Hm). clear Hm. unfold mutateResponse.
  destruct dispatcher as [dispatcher|]; [|apply wp_ret; left; repeat eexists; by left].
  destruct (negb _); [apply wp_ret; left; repeat eexists; by left|]. apply wp_bind, wp_host. intros [[]|e] w Hl.
  - apply wp_bind. eapply wp_mono; [apply section_follows|]. intros r es' c'' Hs. apply wp_bind, wp_host. intros [] w' _. apply wp_ret. right.
    exists (steps es'). split; [|exact Hs]. by rewrite !steps_app.
  - destruct (errors_is e ErrGatewayMutationBusy); apply wp_ret; left; repeat eexists; right; by eexists.
Qed.

(** ** A host that does what it reports *)

Section faithful.
Context {W : Type} `{!ControllerStateStore W, !PassiveObserver W, !MutationLock W, !ControllerClock W}.
(** The state on the disk, and the state whose runtime is active. *)
Variables stored active : W → State.

Definition keeps (w w' : W) : Prop := stored w' = stored w ∧ active w' = active w.

Class FaithfulHost : Prop := {
  load_faithful w r w' : cs_Load w = (r, w') → keeps w w' ∧ ∀ state, r = Ok state → state = stored w;
  (** A failed save may have replaced the file. *)
  save_faithful expected candidate w r w' : cs_Save expected candidate w = (r, w') →
    active w' = active w ∧ match r with Ok _ => stored w' = candidate | Err _ => stored w' = stored w ∨ stored w' = candidate end;
  observe_faithful state w r w' : Observe state w = (r, w') → keeps w w';
  now_faithful w t w' : runtime_Now w = (t, w') → keeps w w';
  acquire_faithful w r w' : acquire_lock w = (r, w') → keeps w w';
  release_faithful w : keeps w (release_lock w)
}.

(** Applying activates the candidate or leaves the runtime as it was; rolling back activates
    the state the mutation was prepared from. *)
Record faithful_mutation (state : State) (prepared : PreparedMutation W) : Prop := {
  apply_faithful apply_ bound w r w' : pm_Apply prepared = Some apply_ → apply_ bound w = (r, w') →
    stored w' = stored w ∧ active w' = match r with Ok _ => pm_Candidate prepared | Err _ => active w end;
  rollback_faithful rollback bound w r w' : pm_Rollback prepared = Some rollback → rollback bound w = (r, w') →
    stored w' = stored w ∧ (r = Ok () → active w' = state);
  result_faithful result w data w' : pm_Result prepared = Some result → result w = (data, w') → keeps w w'
}.

Definition faithful_preparation (Prepare : State → string → string → W → result (PreparedMutation W) * W) : Prop :=
  ∀ state operation payload w r w', Prepare state operation payload w = (r, w') → keeps w w' ∧ ∀ prepared, r = Ok prepared → faithful_mutation state prepared.

Context `{!FaithfulHost}.

(** The runtime is that of the stored state, whose generation the response names. *)
Definition consistent (w : W) (response : LocalResponse) : Prop :=
  lr_ErrorCode response = "rollback_failed" ∨ active w = stored w ∧ lr_Generation response = st_Generation (stored w).

Lemma wp_record_keeps state c w (Q : unit → list controller_event → Controller W → Prop) : keeps w (ctl_host c) →
  (∀ es c', keeps w (ctl_host c') → Q () es c') → wp (recordObservation state) c Q.
Proof.
  intros Hk HQ. apply (wp_record (keeps w)); [..|exact Hk|intros es c' _; apply HQ].
  - intros s w1 a w2 [E1 E2] [E3 E4]%observe_faithful. split; congruence.
  - intros w1 t w2 [E1 E2] [E3 E4]%now_faithful. split; congruence.
Qed.

Lemma recover_consistent state prepared rollback e c : faithful_mutation state prepared → pm_Rollback prepared = Some rollback →
  active (ctl_host c) = pm_Candidate prepared → stored (ctl_host c) = state ∨ stored (ctl_host c) = pm_Candidate prepared →
  wp (recover_save state prepared rollback e) c (λ response _ c', consistent (ctl_host c') response).
Proof.
  intros Hf Hr Hact Hst. unfold recover_save. apply wp_bind, wp_host. intros [observed|failure] w Hl; [|apply wp_ret; by left].
  apply load_faithful in Hl as [[Es Ea] Hl]. specialize (Hl observed eq_refl) as ->. destruct (bool_decide (_ = pm_Candidate prepared)) eqn:Ec; bool_facts.
  - apply wp_bind, (wp_record_keeps _ _ w); [done|]. intros es c' [Es' Ea']. apply wp_ret. right. cbn in Es', Ea'. split; [congruence|]. cbn. congruence.
  - destruct (bool_decide (_ = state)) eqn:Ep; cbn [negb]; bool_facts; [|apply wp_ret; by left].
    apply wp_bind, wp_host. intros [[]|u] w' Hu; [|apply wp_ret; by left]. apply (rollback_faithful _ _ Hf _ _ _ _ _ Hr) in Hu as [Es' Ea'].
    specialize (Ea' eq_refl). cbn [ctl_host] in *. destruct (errors_is e ErrStateConflict); apply wp_ret; right; cbn; split; congruence.
Qed.

Lemma commit_consistent state prepared apply_ rollback timeout c : faithful_mutation state prepared → pm_Apply prepared = Some apply_ → pm_Rollback prepared = Some rollback →
  (pm_RuntimeOnly prepared = true → pm_Candidate prepared = state) → stored (ctl_host c) = state → active (ctl_host c) = state →
  wp (commit_prepared state prepared apply_ rollback timeout) c (λ response _ c', consistent (ctl_host c') response).
Proof.
  intros Hf Ha Hr Hro Hst Hact. unfold commit_prepared. apply wp_bind, wp_host. intros r w Happly.
  apply (apply_faithful _ _ Hf _ _ _ _ _ Ha) in Happly as [Es Ea]. destruct r as [[]|e]; [|apply wp_ret; right; cbn; split; congruence].
  assert (Hrest : ∀ data c', keeps w (ctl_host c') → wp (if pm_RuntimeOnly prepared
      then _ ← recordObservation state; mret (local_success (st_Generation state) data)
      else saved ← save_state (st_Generation state) (pm_Candidate prepared);
        match saved with
        | Err failure => recover_save state prepared rollback failure
        | Ok _ => _ ← recordObservation (pm_Candidate prepared); mret (local_success (st_Generation (pm_Candidate prepared)) data)
        end) c' (λ response _ c', consistent (ctl_host c') response)).
  { intros data c' [Es' Ea']. destruct (pm_RuntimeOnly prepared).
    - apply wp_bind, (wp_record_keeps _ _ w); [done|]. intros es c'' [Es2 Ea2]. apply wp_ret. right. specialize (Hro eq_refl). cbn. split; congruence.
    - apply wp_bind, wp_host. intros [[]|e] w' Hs; apply save_faithful in Hs as [Ea2 Es2].
      + apply wp_bind, (wp_record_keeps _ _ w'); [done|]. intros es c'' [Es3 Ea3]. apply wp_ret. right. cbn. split; congruence.
      + apply recover_consistent; try done; cbn [ctl_host]; [congruence|]. destruct Es2 as [Es2|Es2]; [left|right]; congruence. }
  destruct (pm_Result prepared) as [result|] eqn:Eres.
  - apply wp_bind, wp_bind, wp_host. intros data w' Hd. apply (result_faithful _ _ Hf _ _ _ _ Eres) in Hd. by apply wp_ret, Hrest.
  - by apply wp_bind, wp_ret, Hrest.
Qed.

Lemma prepared_consistent state request Prepare c : faithful_preparation Prepare → stored (ctl_host c) = state → active (ctl_host c) = state →
  wp (applyPreparedMutation state request Prepare) c (λ response _ c', consistent (ctl_host c') response).
Proof.
  intros Hprep Hst Hact. unfold applyPreparedMutation. apply wp_bind, wp_host. intros r w Hp. apply Hprep in Hp as [[Es Ea] Hf].
  assert (Hstay : ∀ response c', ctl_host c' = w → lr_Generation response = st_Generation state → consistent (ctl_host c') response).
  { intros response c' -> Hg. right. split; congruence. }
  destruct r as [prepared|e]; [|by apply wp_ret, Hstay]. specialize (Hf prepared eq_refl). destruct (pm_Changed prepared); cbn [negb]; [|by apply wp_ret, Hstay].
  destruct (pm_Apply prepared) as [apply_|] eqn:Eapply; [|by apply wp_ret, Hstay]. destruct (pm_Rollback prepared) as [rollback|] eqn:Eroll; [|by apply wp_ret, Hstay].
  destruct (pm_RuntimeOnly prepared && _) eqn:Ero; [by apply wp_ret, Hstay|]. destruct (_ <? _)%Z; [by apply wp_ret, Hstay|].
  apply commit_consistent; try done; cbn [ctl_host]; [|congruence|congruence]. intros Hro. rewrite Hro in Ero. cbn [andb] in Ero. by bool_facts.
Qed.

Lemma section_consistent request Prepare c : faithful_preparation Prepare → active (ctl_host c) = stored (ctl_host c) →
  wp (locked_mutation (PreparedDispatcher Prepare) request) c (λ response _ c', consistent (ctl_host c') response ∨
    active (ctl_host c') = stored (ctl_host c') ∧ ∃ code message, response = localFailure code message).
Proof.
  intros Hprep Hact. unfold locked_mutation. apply wp_bind, wp_host. intros r w Hl. apply load_faithful in Hl as [[Es Ea] Hl].
  destruct r as [state|e]; [|apply wp_ret; right; cbn; split; [congruence|by repeat eexists]]. specialize (Hl state eq_refl) as ->.
  destruct (_ && _); [apply wp_ret; left; right; cbn; split; congruence|].
  eapply wp_mono; [apply prepared_consistent; cbn; [done|congruence..]|]. intros response es c' Hc. by left.
Qed.
End faithful.

(** C25: on a host that does what it reports, a mutation that starts with the runtime of the
    stored state ends with it, whatever calls fail and even if a failed save replaced the
    file, unless the response is "rollback_failed"; and the response names the generation
    that is stored, or none when the state was not read. *)
Theorem runtime_follows_state `{!ControllerStateStore W, !PassiveObserver W, !MutationLock W, !ControllerClock W} (stored active : W → State) Prepare request
    (c : Controller W) response es c' :
  FaithfulHost stored active → faithful_preparation stored active Prepare → active (ctl_host c) = stored (ctl_host c) →
  mutateResponse (Some (PreparedDispatcher Prepare)) request c = (response, es, c') →
  lr_ErrorCode response = "rollback_failed" ∨
  active (ctl_host c') = stored (ctl_host c') ∧
    (lr_Generation response = st_Generation (stored (ctl_host c')) ∨ ∃ code message, response = localFailure code message).
Proof.
  intros Hhost Hprep Hact Hm. refine (wp_run (mutateResponse _ request) c (λ response _ c', _) response es c' _ Hm). clear Hm. unfold mutateResponse.
  destruct (negb _); [apply wp_ret; right; split; [done|right; by repeat eexists]|]. apply wp_bind, wp_host. intros r w [Es Ea]%(acquire_faithful stored active).
  destruct r as [[]|e].
  - apply wp_bind. eapply wp_mono; [apply (section_consistent stored active); cbn; [done|congruence]|]. intros r es' c'' Hc. apply wp_bind, wp_host. intros [] w' [= <-].
    destruct (release_faithful stored active (ctl_host c'')) as [Es' Ea']. apply wp_ret. cbn [ctl_host]. unfold consistent in Hc. rewrite Es' Ea'. naive_solver.
  - destruct (errors_is e ErrGatewayMutationBusy); apply wp_ret; right; cbn; (split; [congruence|right; by repeat eexists]).
Qed.

(** ** Witnesses *)

(** A disk whose save replaces the file and then fails, and a host with the runtime of a state. *)
Record sample_host_world := SampleHost { sh_stored : State; sh_active : State }.
#[local] Instance forgetful_store : ControllerStateStore sample_host_world := {
  cs_Load w := (Ok (sh_stored w), w);
  cs_Save _ candidate w := (Err (Message "sync"), SampleHost candidate (sh_active w))
}.
#[local] Instance blind_observer : PassiveObserver sample_host_world := { Observe _ w := ((MkObservation zero_time None None, None), w) }.
#[local] Instance free_lock : MutationLock sample_host_world := { acquire_lock w := (Ok (), w); release_lock w := w }.
#[local] Instance day_clock : ControllerClock sample_host_world := { runtime_Now w := (day 5, w) }.

Definition sample_prepare (state : State) (operation payload : string) (w : sample_host_world) : result (PreparedMutation sample_host_world) * sample_host_world :=
  (Ok (MkPreparedMutation (gateway_state 10 []) "" true false 0
    (Some (λ _ w, (Ok (), SampleHost (sh_stored w) (gateway_state 10 [])))) (Some (λ _ w, (Ok (), SampleHost (sh_stored w) state))) None), w).

Lemma sample_faithful : FaithfulHost sh_stored sh_active.
Proof. split; unfold keeps; cbn; intros; simplify_eq; naive_solver. Qed.

Lemma sample_prepare_faithful : faithful_preparation sh_stored sh_active sample_prepare.
Proof.
  intros state operation payload w r w' [= <- <-]. split; [done|]. intros prepared [= <-]. split; unfold keeps; cbn; intros; simplify_eq; naive_solver.
Qed.

Definition sample_local_request : LocalRequest := MkLocalRequest 1 LocalMutate "dns.set" 9 "{}".
Definition sample_controller : Controller sample_host_world := MkController (SampleHost (gateway_state 9 []) (gateway_state 9 [])) None None.
Abbreviation sample_mutation := (mutateResponse (Some (PreparedDispatcher sample_prepare)) sample_local_request sample_controller).

Lemma sample_mutation_run : sample_mutation = (sample_mutation.1.1, sample_mutation.1.2, sample_mutation.2).
Proof. by destruct (sample_mutation) as [[? ?] ?]. Qed.

Lemma sample_mutation_response : lr_ErrorCode sample_mutation.1.1 = "state_write_failed" ∧ lr_Generation sample_mutation.1.1 = 10%N.
Proof. by vm_compute. Qed.

Lemma local_mutation_follows_script_witness : ∃ inner, steps sample_mutation.1.2 = LockTried (Ok ()) :: inner ++ [LockReleased].
Proof.
  destruct (local_mutation_follows_script _ _ _ _ _ _ sample_mutation_run) as [(code & message & Hr & _)|(inner & Hs & _)]; [|by exists inner].
  exfalso. destruct sample_mutation_response as [_ Hg]. rewrite Hr in Hg. discriminate Hg.
Defined.

Lemma runtime_follows_state_witness : sh_active (ctl_host sample_mutation.2) = sh_stored (ctl_host sample_mutation.2).
Proof.
  destruct (runtime_follows_state sh_stored sh_active sample_prepare sample_local_request sample_controller _ _ _ sample_faithful sample_prepare_faithful eq_refl sample_mutation_run)
    as [Hr|[Ha _]]; [|exact Ha]. exfalso. destruct sample_mutation_response as [Hc _]. rewrite Hr in Hc. discriminate Hc.
Defined.
