(* ===== verification/NodeMutation.v ===== *)
(** * Requests of nodes that change the gateway state ([internal/controller/mutation.go])

    A request carries an identifier and the generation it was made for.  A retained result
    answers it again; a request for the current generation is dispatched once, its result is
    recorded in the history of the node and both are saved together; a request for an older
    generation whose result was evicted is only reconciled with the current state. *)

From S2P Require Import Prelude GoTime GoText GoNet GoConv Proc Types Checks Identity Idempotency StateValidate Codec SwitchIntent Rpc RpcServer Controller.

Local Open Scope string_scope.
Local Open Scope list_scope.

(** ** Results *)

Record NodeMutationResult := MkNodeMutationResult { nm_Status : ResultStatus; nm_Response : RPCResponse }.

Definition validNodeMutationOperation (operation : OperationType) : bool :=
  match operation with
  | OperationInit | OperationJoin | OperationApply | OperationRepair | OperationRotate | OperationRevoke | OperationDelete | OperationTransportSwitch
  | OperationExposeCreate | OperationExposeRemove | OperationCertificateRotate | OperationTrustRotate | OperationRestore | OperationUpdate
  | OperationUninstall | OperationPurge => true
  | _ => false
  end.

Definition validMutationStatus (status : ResultStatus) : bool :=
  match status with ResultOK | ResultPending | ResultDegraded | ResultFailed => true | ResultUnsupported _ => false end.

Definition mutationHTTPStatus (category : string) : Z :=
  if String.eqb category "success" then StatusOK
  else if String.eqb category "validation" then StatusUnprocessableEntity
  else if String.eqb category "conflict" then StatusConflict
  else if String.eqb category "unavailable" then StatusServiceUnavailable
  else StatusInternalServerError.

Definition mutationFailure (request : RPCRequest) (statusCode : Z) (category : string) (generation : N) (code message : string) : RPCHandlerResult :=
  MkRPCHandlerResult statusCode
    (set_failure code message (set_version (rq_ProtocolMajor request) (rq_ProtocolMinor request) (NewRPCResponse category generation "{}"))).

(** The fields a result is hashed from. *)
Record hash_material := MkHashMaterial {
  hm_Status : ResultStatus;
  hm_Category : string;
  hm_ResourceIDs : option (gmap string string);
  hm_Warnings : slice string;
  hm_RequiresAction : slice string;
  hm_ErrorCode : string;
  hm_Message : string;
  hm_Data : string
}.
Record replay_data := MkReplayData { rd_Replayed : bool; rd_ResultStatus : ResultStatus }.

Section results.
Context `{!Sha256, !JSONTokens, !JSONValue (option (gmap string string)), !JSONValue hash_material, !JSONValue replay_data}.

Definition mutationResultHash (status : ResultStatus) (response : RPCResponse) : result string :=
  encoded ← wrap "encode mutation result hash material" (marshal (MkHashMaterial status (rs_Category response) (rs_ResourceIDs response)
    (rs_Warnings response) (rs_RequiresAction response) (rs_ErrorCode response) (rs_Message response) (rs_Data response)));
  Ok (hex_bytes (Sum256 encoded)).

(** A response with every collection present and the version of the request. *)
Definition filled_response (request : RPCRequest) (generation : N) (response : RPCResponse) : RPCResponse :=
  MkRPCResponse (if (rs_SchemaVersion response =? 0)%Z then RPCSchemaVersion else rs_SchemaVersion response)
    (rq_ProtocolMajor request) (rq_ProtocolMinor request) (rs_Category response) generation
    (Some (default ∅ (rs_ResourceIDs response))) (Some (items (rs_Warnings response))) (Some (items (rs_RequiresAction response)))
    "" (rs_ErrorCode response) (rs_Message response) (or_object (rs_Data response)).

Definition is_failed (status : ResultStatus) : bool := match status with ResultFailed => true | _ => false end.

Definition normalizeMutationResult (request : RPCRequest) (generation : N) (result : NodeMutationResult) : Prelude.result RPCResponse :=
  reject (generation =? 0)%N (Message "result generation must be positive");;
  reject (negb (validMutationStatus (nm_Status result))) (Message "result status is invalid");;
  let response := filled_response request generation (nm_Response result) in
  reject (is_failed (nm_Status result) && String.eqb (rs_Category response) "success") (Message "failed result cannot use success category");;
  reject (negb (is_failed (nm_Status result)) && negb (String.eqb (rs_Category response) "success")) (Message "non-failed result must use success category");;
  rs_Validate response;;
  hash ← mutationResultHash (nm_Status result) response;
  let response := set_ResultHash hash response in
  rs_Validate response;;
  Ok response.

Definition storedMutationResult (request : RPCRequest) (record : IdempotencyRecord) : RPCHandlerResult :=
  let data := default "" (good (marshal (MkReplayData true (idem_ResultStatus record)))) in
  let '(statusCode, response) :=
    if is_failed (idem_ResultStatus record)
    then (StatusInternalServerError, set_failure "stored_failure" "the retained mutation result is failed" (NewRPCResponse "internal" (idem_StateGeneration record) data))
    else (StatusOK, NewRPCResponse "success" (idem_StateGeneration record) data) in
  MkRPCHandlerResult statusCode (set_ResultHash (idem_ResultHash record) (set_version (rq_ProtocolMajor request) (rq_ProtocolMinor request) response)).

(** ** The handler *)

(** Construction of candidates and reconciliation for one family of resources. *)
Record NodeMutationDispatcher (W : Type) := MkNodeMutationDispatcher {
  nd_Dispatch : State → RPCRequest → W → Prelude.result (State * NodeMutationResult) * W;
  nd_Reconcile : State → RPCRequest → W → Prelude.result (NodeMutationResult * bool) * W
}.
Arguments nd_Dispatch {W}.
Arguments nd_Reconcile {W}.

(** The calls of the handler: those of the controller, and those to the dispatcher. *)
Inductive mutation_event :=
  | ControllerCall (e : controller_event)
  | NodeDispatched (state : State) (request : RPCRequest) (r : Prelude.result (State * NodeMutationResult))
  | NodeReconciled (state : State) (request : RPCRequest) (r : Prelude.result (NodeMutationResult * bool)).

Section handler.
Context {W : Type} `{!ControllerStateStore W, !PassiveObserver W, !ControllerClock W}.

Definition mutation_run (A : Type) : Type := proc (Controller W) mutation_event A.

Definition dispatcher_call {A} (f : W → A * W) (log : A → mutation_event) : mutation_run A :=
  call (λ c, let '(a, w) := f (ctl_host c) in (a, MkController w (ctl_lastState c) (ctl_lastObserve c))) (λ a, [log a]).

Definition node_index (nodeID : string) (state : State) : option (nat * Node) :=
  list_find (λ node, node_ID node = nodeID) (items (st_Nodes state)).

Definition fail_with (request : RPCRequest) (statusCode : Z) (category : string) (generation : N) (code message : string) : mutation_run (result RPCHandlerResult) :=
  mret (Ok (mutationFailure request statusCode category generation code message)).

Definition answered (response : RPCResponse) : RPCHandlerResult := MkRPCHandlerResult (mutationHTTPStatus (rs_Category response)) response.

Definition reconciled_warning : string := "idempotency history was evicted; current resource state was reconciled".
Definition with_warning (warning : string) (response : RPCResponse) : RPCResponse :=
  MkRPCResponse (rs_SchemaVersion response) (rs_ProtocolMajor response) (rs_ProtocolMinor response) (rs_Category response) (rs_AuthoritativeGeneration response)
    (rs_ResourceIDs response) (append (rs_Warnings response) [warning]) (rs_RequiresAction response) (rs_ResultHash response) (rs_ErrorCode response)
    (rs_Message response) (rs_Data response).

Definition reconcileEvicted (dispatcher : NodeMutationDispatcher W) (state : State) (request : RPCRequest) : mutation_run (result RPCHandlerResult) :=
  reconciled ← dispatcher_call (nd_Reconcile dispatcher state request) (NodeReconciled state request);
  match reconciled with
  | Err _ => fail_with request StatusServiceUnavailable "unavailable" (st_Generation state) "reconciliation_unavailable" "current resource state could not be reconciled"
  | Ok (outcome, determined) =>
      if negb determined then
        fail_with request StatusConflict "conflict" (st_Generation state) "uncertain_request_conflict" "the stale request is not retained and its effect cannot be proven"
      else
        match normalizeMutationResult request (st_Generation state) (MkNodeMutationResult (nm_Status outcome) (with_warning reconciled_warning (nm_Response outcome))) with
        | Err _ => fail_with request StatusInternalServerError "internal" (st_Generation state) "invalid_reconciliation_result" "resource reconciliation produced an invalid result"
        | Ok response => mret (Ok (answered response))
        end
  end.

(** The candidate with the record of the result in the history of its node. *)
Inductive recorded := Recorded (candidate : State) | RecordReplayed (prior : IdempotencyRecord) | RecordRefused.
Definition record_result (candidate : State) (index : nat) (node : Node) (record : IdempotencyRecord) (now : time) : recorded :=
  match StoreIdempotencyResult node record now with
  | Err _ => RecordRefused
  | Ok (_, prior, true) => RecordReplayed prior
  | Ok (updated, _, false) => Recorded (set_st_Nodes (Some (<[index := updated]> (items (st_Nodes candidate)))) candidate)
  end.

(** Dispatch, record and commit of a request for the current generation. *)
Definition commit_mutation (dispatcher : NodeMutationDispatcher W) (state : State) (request : RPCRequest) (operation : OperationType) (now : time)
    : mutation_run (result RPCHandlerResult) :=
  let generation := st_Generation state in
  let internal code message := fail_with request StatusInternalServerError "internal" generation code message in
  dispatched ← dispatcher_call (nd_Dispatch dispatcher state request) (NodeDispatched state request);
  match dispatched with
  | Err _ => fail_with request StatusUnprocessableEntity "validation" generation "mutation_rejected" "the requested mutation was rejected"
  | Ok (candidate, outcome) =>
      match normalizeMutationResult request (st_Generation candidate) outcome with
      | Err _ => internal "invalid_mutation_result" "the mutation produced an invalid result"
      | Ok response =>
          match node_index (rq_NodeID request) candidate with
          | None => internal "invalid_mutation_result" "the mutation removed its idempotency owner"
          | Some (index, node) =>
              let record := MkIdempotencyRecord (rq_RequestID request) operation (nm_Status outcome) (rs_ResultHash response) (st_Generation candidate) now in
              match record_result candidate index node record now with
              | RecordRefused => internal "idempotency_write_failed" "the mutation result could not be recorded"
              | RecordReplayed prior =>
                  if negb (bool_decide (idem_Operation prior = operation))
                  then fail_with request StatusConflict "conflict" generation "request_id_conflict" "request_id was already used for another operation"
                  else mret (Ok (storedMutationResult request prior))
              | Recorded candidate =>
                  saved ← tagged ControllerCall (save_state generation candidate);
                  match saved with
                  | Err e =>
                      if errors_is e ErrStateConflict
                      then fail_with request StatusConflict "conflict" generation "generation_conflict" "authoritative state changed before commit"
                      else internal "state_write_failed" "authoritative state could not be committed"
                  | Ok _ =>
                      _ ← tagged ControllerCall (recordObservation candidate);
                      mret (Ok (answered response))
                  end
              end
          end
      end
  end.

(** A request after the state was loaded. *)
Definition answer_in_state (dispatcher : NodeMutationDispatcher W) (state : State) (request : RPCRequest) (operation : OperationType) : mutation_run (result RPCHandlerResult) :=
  let generation := st_Generation state in
  match node_index (rq_NodeID request) state with
  | None => fail_with request StatusConflict "conflict" generation "node_not_found" "the node has no authoritative gateway record"
  | Some (_, node) =>
      clock ← tagged ControllerCall (on_host runtime_Now (λ _, []));
      let now := to_utc clock in
      match FindIdempotencyResult node (rq_RequestID request) now with
      | Ok stored =>
          if negb (bool_decide (idem_Operation stored = operation))
          then fail_with request StatusConflict "conflict" generation "request_id_conflict" "request_id was already used for another operation"
          else mret (Ok (storedMutationResult request stored))
      | Err e =>
          if negb (errors_is e ErrIdempotencyRecordEvicted)
          then fail_with request StatusInternalServerError "internal" generation "idempotency_unavailable" "idempotency history could not be inspected"
          else if (rq_ExpectedStateGeneration request <? generation)%N then reconcileEvicted dispatcher state request
          else if negb (rq_ExpectedStateGeneration request =? generation)%N
          then fail_with request StatusConflict "conflict" generation "generation_conflict" "expected_state_generation does not match authoritative state"
          else commit_mutation dispatcher state request operation now
      end
  end.

(** [cancelled] is whether the context was cancelled by the time the lock was taken. *)
Definition node_HandleRPC (dispatcher : NodeMutationDispatcher W) (cancelled : bool) (request : RPCRequest) : mutation_run (result RPCHandlerResult) :=
  if (rq_ExpectedStateGeneration request =? 0)%N
  then fail_with request StatusUnprocessableEntity "validation" 0 "expected_generation_required" "expected_state_generation must be positive" else
  let operation := operation_of_text (rq_Operation request) in
  if negb (validNodeMutationOperation operation)
  then fail_with request StatusUnprocessableEntity "validation" 0 "unsupported_operation" "the requested mutation operation is unsupported" else
  if cancelled then fail_with request StatusServiceUnavailable "unavailable" 0 "request_cancelled" "the mutation request was cancelled before dispatch" else
  loaded ← tagged ControllerCall load_state;
  match loaded with
  | Err _ => fail_with request StatusServiceUnavailable "unavailable" 0 "state_unavailable" "authoritative state could not be loaded"
  | Ok state => answer_in_state dispatcher state request operation
  end.
End handler.
End results.
Arguments NodeMutationDispatcher W : clear implicits.
Arguments MkNodeMutationDispatcher {W}.
Arguments nd_Dispatch {W}.
Arguments nd_Reconcile {W}.
