(* ===== verification/NodeMutationFacts.v ===== *)
(** * What the handling of node requests guarantees

    Every request follows one script of calls: it is answered from the history, reconciled
    without a change, or dispatched once and, when its result can be recorded, saved once; a retry of a saved request
    is answered from the history alone. *)

From S2P Require Import Prelude GoTime GoText GoNet GoConv Proc Types Checks Identity Idempotency StateValidate Codec Samples SwitchIntent SwitchFacts Rpc RpcServer RpcSamples Controller ControllerFacts NodeMutation.

Local Open Scope string_scope.
Local Open Scope list_scope.

(** Observations are only recorded. *)
Definition is_mutation_step (e : mutation_event) : bool := match e with ControllerCall (ObserverAsked _ _) => false | _ => true end.
Definition mutation_steps (es : list mutation_event) : list mutation_event := filter (λ e, is_mutation_step e = true) es.

Lemma mutation_steps_app es es' : mutation_steps (es ++ es') = mutation_steps es ++ mutation_steps es'.
Proof. apply filter_app. Qed.

Lemma mutation_steps_tagged es : mutation_steps (ControllerCall <$> es) = ControllerCall <$> steps es.
Proof.
  induction es as [|e es IH]; [done|]. rewrite fmap_cons. unfold mutation_steps, steps in *. rewrite !filter_cons IH. by destruct e.
Qed.

Section scripts.
Context `{!Sha256, !JSONTokens, !JSONValue (option (gmap string string)), !JSONValue hash_material, !JSONValue replay_data}.

Definition failed_answer (request : RPCRequest) (result : RPCHandlerResult) : Prop :=
  ∃ status category generation code message, category ≠ "success" ∧ status ≠ StatusOK ∧
    result = mutationFailure request status category generation code message.

(** The history of the node was inspected and does not hold the request. *)
Definition unretained (state : State) (request : RPCRequest) (now : time) : Prop :=
  ∃ index node e, node_index (rq_NodeID request) state = Some (index, node) ∧ FindIdempotencyResult node (rq_RequestID request) now = Err e ∧
    errors_is e ErrIdempotencyRecordEvicted = true.

Abbreviation read state := (ControllerCall (StateCall (StateLoaded (Ok state)))).
Abbreviation written generation candidate r := (ControllerCall (StateCall (StateSaved generation candidate r))).

(** The history of a node holds a result of the request that is kept at [now]. *)
Definition in_history (node : Node) (request : RPCRequest) (now : time) (prior : IdempotencyRecord) : Prop :=
  prior ∈ pruned (items (node_IdempotencyRecords node)) now ∧ idem_RequestID prior = rq_RequestID request.

Definition record_of (request : RPCRequest) (outcome : NodeMutationResult) (response : RPCResponse) (candidate : State) (now : time) : IdempotencyRecord :=
  MkIdempotencyRecord (rq_RequestID request) (operation_of_text (rq_Operation request)) (nm_Status outcome) (rs_ResultHash response) (st_Generation candidate) now.

(** Why a dispatched request is not saved: the dispatcher refused it, its result is invalid,
    its candidate lost the node, the history cannot take the record, or the history of the
    candidate holds a result of the same request for another operation. *)
Definition unsavable (request : RPCRequest) (now : time) (r : result (State * NodeMutationResult)) : Prop :=
  ∀ candidate outcome response index node, r = Ok (candidate, outcome) → normalizeMutationResult request (st_Generation candidate) outcome = Ok response →
    node_index (rq_NodeID request) candidate = Some (index, node) →
    (∃ e, StoreIdempotencyResult node (record_of request outcome response candidate now) now = Err e) ∨
    (∃ prior, in_history node request now prior ∧ idem_Operation prior ≠ operation_of_text (rq_Operation request)).

(** The candidate in which the record was added to the history of the node at [index] and
    the history pruned. *)
Definition with_record (candidate : State) (index : nat) (node : Node) (record : IdempotencyRecord) (now : time) : State :=
  let history := pruned (pruned (items (node_IdempotencyRecords node)) now ++ [record]) now in
  set_st_Nodes (Some (<[index := set_node_IdempotencyRecords (Some history) node]> (items (st_Nodes candidate)))) candidate.

Inductive handling (request : RPCRequest) : list mutation_event → RPCHandlerResult → Prop :=
  | refused_unread result : failed_answer request result → handling request [] result
  | state_unreadable e result : failed_answer request result → handling request [ControllerCall (StateCall (StateLoaded (Err e)))] result
  | refused_in_state state result : failed_answer request result → handling request [read state] result
  | answered_from_history state now index node stored :
      node_index (rq_NodeID request) state = Some (index, node) → FindIdempotencyResult node (rq_RequestID request) now = Ok stored →
      idem_Operation stored = operation_of_text (rq_Operation request) →
      handling request [read state] (storedMutationResult request stored)
  | only_reconciled state now r result : unretained state request now → (rq_ExpectedStateGeneration request < st_Generation state)%N →
      failed_answer request result ∨ (∃ outcome response, r = Ok (outcome, true) ∧ result = answered response ∧
        normalizeMutationResult request (st_Generation state) (MkNodeMutationResult (nm_Status outcome) (with_warning reconciled_warning (nm_Response outcome))) = Ok response) →
      handling request [read state; NodeReconciled state request r] result
  | dispatched_refused state now r result : unretained state request now → rq_ExpectedStateGeneration request = st_Generation state →
      unsavable request now r → failed_answer request result → handling request [read state; NodeDispatched state request r] result
  | dispatched_replayed state now candidate outcome index node prior :
      unretained state request now → rq_ExpectedStateGeneration request = st_Generation state →
      node_index (rq_NodeID request) candidate = Some (index, node) → in_history node request now prior →
      idem_Operation prior = operation_of_text (rq_Operation request) →
      handling request [read state; NodeDispatched state request (Ok (candidate, outcome))] (storedMutationResult request prior)
  | dispatched_and_saved state now candidate outcome response index node r result :
      let record := record_of request outcome response candidate now in
      unretained state request now → rq_ExpectedStateGeneration request = st_Generation state → zone_offset now = 0%Z →
      normalizeMutationResult request (st_Generation candidate) outcome = Ok response → node_index (rq_NodeID request) candidate = Some (index, node) →
      (∀ prior, ¬ in_history node request now prior) → is_ok (StoreIdempotencyResult node record now) = true →
      match r with Ok _ => result = answered response | Err _ => failed_answer request result end →
      handling request [read state; NodeDispatched state request (Ok (candidate, outcome));
                        written (st_Generation state) (with_record candidate index node record now) r] result.

(** What is recorded, in terms of the history of the node. *)
Lemma record_result_cases candidate index node record now request : idem_RequestID record = rq_RequestID request →
  match record_result candidate index node record now with
  | Recorded final => final = with_record candidate index node record now ∧ (∀ prior, ¬ in_history node request now prior) ∧
      is_ok (StoreIdempotencyResult node record now) = true
  | RecordReplayed prior => in_history node request now prior
  | RecordRefused => ∃ e, StoreIdempotencyResult node record now = Err e
  end.
Proof.
  intros Hid. unfold record_result, in_history. destruct (StoreIdempotencyResult node record now) as [[[node' answer] replayed]|e] eqn:Es; [|by exists e].
  apply Store_ok in Es as (_ & _ & _ & _ & _ & [(-> & Hf & _)|(-> & Hf & _ & ->)]).
  - rewrite -Hid. by apply find_request_some in Hf.
  - split_and!; [done| |done]. intros prior [Hin Hp]. apply find_request_none in Hf. apply Hf. rewrite Hid -Hp. by apply list_elem_of_fmap_2.
Qed.

Section handler.
Context {W : Type} `{!ControllerStateStore W, !PassiveObserver W, !ControllerClock W}.

Lemma failed_intro request status category generation code message : category ≠ "success" → status ≠ StatusOK →
  failed_answer request (mutationFailure request status category generation code message).
Proof. intros Hc Hs. by exists status, category, generation, code, message. Qed.

Ltac failed := apply failed_intro; [discriminate|unfold StatusOK; vm_compute; discriminate].

Lemma wp_dispatcher {A} (f : W → A * W) log (c : Controller W) (Q : A → list mutation_event → Controller W → Prop) :
  (∀ a w, f (ctl_host c) = (a, w) → Q a [log a] (MkController w (ctl_lastState c) (ctl_lastObserve c))) → wp (dispatcher_call f log) c Q.
Proof. intros HQ. unfold dispatcher_call, wp, call. destruct (f (ctl_host c)) as [a w] eqn:E. by apply HQ. Qed.

Lemma reconcile_script (dispatcher : NodeMutationDispatcher W) state request now c : unretained state request now → (rq_ExpectedStateGeneration request < st_Generation state)%N →
  wp (reconcileEvicted dispatcher state request) c (λ r es _, ∃ result, r = Ok result ∧ handling request (read state :: mutation_steps es) result).
Proof.
  intros Hu Hg. unfold reconcileEvicted. apply wp_bind, wp_dispatcher. intros [[outcome determined]|e] w Hr.
  - destruct determined; cbn [negb].
    + destruct (normalizeMutationResult _ _ _) as [response|] eqn:En; apply wp_ret; eexists; (split; [reflexivity|]); apply (only_reconciled _ _ now _ _ Hu Hg); [right; eauto|left; failed].
    + apply wp_ret. eexists. split; [reflexivity|]. apply (only_reconciled _ _ now _ _ Hu Hg). left. failed.
  - apply wp_ret. eexists. split; [reflexivity|]. apply (only_reconciled _ _ now _ _ Hu Hg). left. failed.
Qed.

Lemma commit_script_of (dispatcher : NodeMutationDispatcher W) state request now c : unretained state request now → rq_ExpectedStateGeneration request = st_Generation state → zone_offset now = 0%Z →
  wp (commit_mutation dispatcher state request (operation_of_text (rq_Operation request)) now) c
    (λ r es _, ∃ result, r = Ok result ∧ handling request (read state :: mutation_steps es) result).
Proof.
  intros Hu Hg Hz. unfold commit_mutation. apply wp_bind, wp_dispatcher. intros r w Hd.
  assert (Hrefused : ∀ status category code message, category ≠ "success" → status ≠ StatusOK → unsavable request now r → ∀ c',
    wp (fail_with (W := W) request status category (st_Generation state) code message) c' (λ answer es _, ∃ result, answer = Ok result ∧
      handling request (read state :: mutation_steps (NodeDispatched state request r :: es)) result)).
  { intros status category code message Hc Hs Hr c'. apply wp_ret. eexists. split; [reflexivity|]. apply (dispatched_refused _ _ now _ _ Hu Hg Hr). by apply failed_intro. }
  assert (Hinternal : StatusInternalServerError ≠ StatusOK) by done.
  destruct r as [[candidate outcome]|e]; [|by apply Hrefused].
  destruct (normalizeMutationResult request (st_Generation candidate) outcome) as [response|] eqn:En.
  2: { apply Hrefused; [done..|]. intros ? ? ? ? ? [= <- <-] Hn. congruence. }
  destruct (node_index (rq_NodeID request) candidate) as [[index node]|] eqn:Ei.
  2: { apply Hrefused; [done..|]. intros ? ? ? ? ? [= <- <-] _ Hi. congruence. }
  cbv zeta. fold (record_of request outcome response candidate now).
  assert (Hcases := record_result_cases candidate index node (record_of request outcome response candidate now) now request eq_refl).
  destruct (record_result _ _ _ _ _) as [final|prior|].
  - destruct Hcases as (-> & Hnew & Hstore). apply wp_bind, wp_tagged, wp_host. intros [[]|e] w' Hs.
    + apply wp_bind, wp_tagged, wp_record_script. intros es c' Hes. apply wp_ret. eexists. split; [reflexivity|].
      rewrite !mutation_steps_app !mutation_steps_tagged Hes. by apply (dispatched_and_saved request state now candidate outcome response index node).
    + destruct (errors_is e ErrStateConflict); apply wp_ret; eexists; (split; [reflexivity|]);
        apply (dispatched_and_saved request state now candidate outcome response index node); try done; failed.
  - case_bool_decide as Hop; cbn [negb].
    + apply wp_ret. eexists. split; [reflexivity|]. by apply (dispatched_replayed request state now candidate outcome index node).
    + apply Hrefused; [done..|]. intros ? ? ? ? ? [= <- <-] Hn [= <- <-]%(λ H, eq_trans (eq_sym Ei) H). right. by exists prior.
  - apply Hrefused; [done..|]. intros ? ? ? ? ? [= <- <-] Hn [= <- <-]%(λ H, eq_trans (eq_sym Ei) H). left.
    rewrite En in Hn. injection Hn as <-. exact Hcases.
Qed.

Lemma state_script (dispatcher : NodeMutationDispatcher W) state request c :
  wp (answer_in_state dispatcher state request (operation_of_text (rq_Operation request))) c
    (λ r es _, ∃ result, r = Ok result ∧ handling request (read state :: mutation_steps es) result).
Proof.
  unfold answer_in_state. destruct (node_index (rq_NodeID request) state) as [[index node]|] eqn:Ei.
  2: { apply wp_ret. eexists. split; [reflexivity|]. apply refused_in_state. failed. }
  apply wp_bind, wp_tagged, wp_host. intros clock w _. cbv zeta. set (now := to_utc clock).
  destruct (FindIdempotencyResult node (rq_RequestID request) now) as [stored|e] eqn:Ef.
  - destruct (negb _) eqn:Eo; bool_facts; apply wp_ret; eexists; (split; [reflexivity|]); [apply refused_in_state; failed|].
    by apply (answered_from_history _ state now index node).
  - destruct (errors_is e ErrIdempotencyRecordEvicted) eqn:Ee; cbn [negb].
    2: { apply wp_ret. eexists. split; [reflexivity|]. apply refused_in_state. failed. }
    assert (Hu : unretained state request now) by (by exists index, node, e).
    destruct (N.ltb_spec (rq_ExpectedStateGeneration request) (st_Generation state)) as [Hlt|Hge].
    + eapply wp_mono; [by apply (reconcile_script _ _ _ now)|]. intros r es c' Hr. exact Hr.
    + destruct (N.eqb_spec (rq_ExpectedStateGeneration request) (st_Generation state)) as [Heq|Hne]; cbn [negb].
      * eapply wp_mono; [by apply (commit_script_of _ _ _ now)|]. intros r es c' Hr. exact Hr.
      * apply wp_ret. eexists. split; [reflexivity|]. apply refused_in_state. failed.
Qed.

Lemma handler_script (dispatcher : NodeMutationDispatcher W) cancelled request c :
  wp (node_HandleRPC dispatcher cancelled request) c (λ r es _, ∃ result, r = Ok result ∧ handling request (mutation_steps es) result).
Proof.
  unfold node_HandleRPC.
  assert (Hearly : ∀ status category code message, category ≠ "success" → status ≠ StatusOK → ∀ c',
    wp (fail_with (W := W) request status category 0 code message) c' (λ r es _, ∃ result, r = Ok result ∧ handling request (mutation_steps es) result)).
  { intros status category code message Hc Hs c'. apply wp_ret. eexists. split; [reflexivity|]. apply refused_unread. by apply failed_intro. }
  destruct (_ =? 0)%N; [apply Hearly; [discriminate|unfold StatusOK; vm_compute; discriminate]|].
  destruct (negb _); [apply Hearly; [discriminate|unfold StatusOK; vm_compute; discriminate]|].
  destruct cancelled; [apply Hearly; [discriminate|unfold StatusOK; vm_compute; discriminate]|]. clear Hearly.
  apply wp_bind, wp_tagged, wp_host. intros [state|e] w Hl.
  - eapply wp_mono; [apply state_script|]. intros r es c' Hr. exact Hr.
  - apply wp_ret. eexists. split; [reflexivity|]. apply state_unreadable. failed.
Qed.

Lemma node_mutation_script_holds (dispatcher : NodeMutationDispatcher W) cancelled request c r es c' :
  node_HandleRPC dispatcher cancelled request c = (r, es, c') → ∃ result, r = Ok result ∧ handling request (mutation_steps es) result.
Proof. intros Hr. exact (wp_run _ _ _ _ _ _ (handler_script dispatcher cancelled request c) Hr). Qed.

(** C24: a request of a node is always answered, after one of these scripts: nothing or only
    the state was read, and the answer is a refusal or the result the history holds; the
    state was read and the request reconciled, because it is older and its result was
    evicted; or the request, made for exactly this generation and not retained, was
    dispatched once.  A dispatched request is refused when its result cannot be recorded;
    answered with the record when the history of the candidate already holds one; and
    otherwise saved once, at that generation, as the candidate with the result added to the
    history of the node and the history pruned.  Success is answered only from a history, from a reconciliation or
    after that save. *)
Theorem node_mutation_follows_script (dispatcher : NodeMutationDispatcher W) cancelled request c r es c' :
  node_HandleRPC dispatcher cancelled request c = (r, es, c') → ∃ result, r = Ok result ∧ handling request (mutation_steps es) result.
Proof. apply node_mutation_script_holds. Qed.

(** ** Retries *)

Lemma list_find_replace (P : Node → Prop) `{∀ x, Decision (P x)} l i x y : list_find P l = Some (i, x) → P y → list_find P (<[i:=y]> l) = Some (i, y).
Proof.
  intros (Hi & Hx & Hj)%list_find_Some Hy. apply list_find_Some. split_and!; [apply list_lookup_insert_eq; by eapply lookup_lt_Some|done|].
  intros j z Hz Hlt. rewrite list_lookup_insert_ne in Hz; [lia|]. by eapply Hj.
Qed.

(** A record in a stored history is found later, for thirty days. *)
Lemma stored_record_found node record node' answer now later kept : StoreIdempotencyResult node record now = Ok (node', answer, false) →
  kept ∈ items (node_IdempotencyRecords node') → (instant now ≤ instant later)%Z → validateTime "now" later = Ok () → retained later kept = true →
  FindIdempotencyResult node' (idem_RequestID kept) later = Ok kept.
Proof.
  intros (Ht & Hr & Ha & Hret & Hp & [(? & _)|(_ & Hf & _ & ->)])%Store_ok Hin Hle Hlater Hkept; [done|]. cbn [node_IdempotencyRecords set_node_IdempotencyRecords items default] in Hin.
  assert (Hp' : prunable (pruned (items (node_IdempotencyRecords node)) now ++ [record]) now) by (apply append_prunable; [by apply pruned_prunable|done..]).
  pose proof (pruned_prunable _ now later Hp' Hle) as Hpl. destruct (proj1 Hpl kept Hin) as [Hv _].
  rewrite Find_pruned; [by apply idem_Validate_id|done|exact Hpl|]. cbn [node_IdempotencyRecords set_node_IdempotencyRecords items default from_option id].
  rewrite find_request_in //; [apply pruned_NoDup, Hpl|]. apply pruned_with_room; [apply pruned_length|exact Hin|done].
Qed.

(** The saved candidate holds the node that [StoreIdempotencyResult] yields. *)
Lemma with_record_ok request outcome response candidate index node now : let record := record_of request outcome response candidate now in
  node_index (node_ID node) candidate = Some (index, node) → (∀ prior, ¬ in_history node request now prior) →
  is_ok (StoreIdempotencyResult node record now) = true →
  ∃ node', StoreIdempotencyResult node record now = Ok (node', record, false) ∧
    node_index (node_ID node) (with_record candidate index node record now) = Some (index, node').
Proof.
  intros record Hi Hnew [[[node' answer] replayed] Es]%is_ok_true. pose proof (Store_ok _ _ _ _ _ _ Es) as (_ & _ & _ & _ & _ & [(_ & Hf & _)|(-> & _ & -> & ->)]).
  - apply find_request_some in Hf as Hf. by destruct (Hnew answer).
  - eexists. split; [exact Es|]. unfold node_index, with_record in *. cbn. by eapply list_find_replace.
Qed.

Lemma saved_in_steps generation final r es : written generation final r ∈ es → written generation final r ∈ mutation_steps es.
Proof. intros Hin. unfold mutation_steps. by apply list_elem_of_filter. Qed.

Lemma normalized_response request generation outcome response : normalizeMutationResult request generation outcome = Ok response →
  rs_AuthoritativeGeneration response = generation ∧ (rs_Category response = "success" ↔ nm_Status outcome ≠ ResultFailed).
Proof.
  unfold normalizeMutationResult. intros K. ok_inv K. injection K as <-. cbn [rs_AuthoritativeGeneration rs_Category set_ResultHash filled_response].
  split; [done|]. destruct (nm_Status outcome); cbn [is_failed negb andb] in *; bool_facts; rewrite ?String.eqb_eq ?String.eqb_neq in G1, G2; naive_solver.
Qed.

Lemma category_status category : mutationHTTPStatus category = StatusOK ↔ category = "success".
Proof.
  unfold mutationHTTPStatus. destruct (String.eqb_spec category "success"); [done|].
  repeat match goal with |- context [if ?b then _ else _] => destruct b end; unfold StatusOK; vm_compute; naive_solver.
Qed.

Lemma saved_operation (dispatcher : NodeMutationDispatcher W) cancelled request c r es c' e : node_HandleRPC dispatcher cancelled request c = (r, es, c') → e ∈ es →
  validNodeMutationOperation (operation_of_text (rq_Operation request)) = true.
Proof.
  unfold node_HandleRPC, fail_with. intros Hr Hin. destruct (_ =? 0)%N; [injection Hr as <- <- <-; by apply not_elem_of_nil in Hin|].
  destruct (validNodeMutationOperation _); [done|]. injection Hr as <- <- <-. by apply not_elem_of_nil in Hin.
Qed.

(** What a saved request went through. *)
Lemma saved_handling request es result generation final : handling request es result → written generation final (Ok ()) ∈ es →
  ∃ now candidate outcome response index node, zone_offset now = 0%Z ∧ normalizeMutationResult request (st_Generation candidate) outcome = Ok response ∧
    node_index (rq_NodeID request) candidate = Some (index, node) ∧ (∀ prior, ¬ in_history node request now prior) ∧
    is_ok (StoreIdempotencyResult node (record_of request outcome response candidate now) now) = true ∧
    final = with_record candidate index node (record_of request outcome response candidate now) now ∧ result = answered response.
Proof.
  intros Hh Hin. destruct Hh; rewrite ?elem_of_cons in Hin; try (exfalso; set_solver).
  destruct Hin as [?|[?|[Heq|?]]]; [done|done| |set_solver]. injection Heq as -> -> <-.
  by exists now, candidate, outcome, response, index, node.
Qed.

(** The record a node keeps for a request is the one that was stored. *)
Lemma kept_record node record node' now kept : StoreIdempotencyResult node record now = Ok (node', record, false) →
  kept ∈ items (node_IdempotencyRecords node') → idem_RequestID kept = idem_RequestID record → kept = record.
Proof.
  intros (_ & _ & _ & _ & _ & [(? & _)|(_ & Hf & _ & ->)])%Store_ok Hin Hid; [done|]. cbn [node_IdempotencyRecords set_node_IdempotencyRecords items default] in Hin.
  apply pruned_elem in Hin as [[Hin|Hin%list_elem_of_singleton]%elem_of_app _]; [|done]. exfalso. apply find_request_none in Hf. apply Hf, list_elem_of_fmap. by exists kept.
Qed.

(** C26: once a request was saved, a retry of it that reads the saved state is answered from
    the history without a dispatch, a reconciliation or a save, as long as its record is
    kept, at most thirty days: with the hash, the generation and the success or failure of
    the first answer. *)
Theorem retry_is_answered_from_history (dispatcher dispatcher' : NodeMutationDispatcher W) cancelled request c first es c' generation final :
  node_HandleRPC dispatcher cancelled request c = (Ok first, es, c') → written generation final (Ok ()) ∈ es →
  ∃ index node, node_index (rq_NodeID request) final = Some (index, node) ∧
  ∀ record retry c2 w2 now w3, record ∈ items (node_IdempotencyRecords node) → idem_RequestID record = rq_RequestID request →
    rq_RequestID retry = rq_RequestID request → rq_NodeID retry = rq_NodeID request → rq_Operation retry = rq_Operation request →
    rq_ExpectedStateGeneration retry ≠ 0%N → cs_Load (ctl_host c2) = (Ok final, w2) → runtime_Now w2 = (now, w3) → IsZero now = false →
    (instant (idem_RecordedAt record) ≤ instant now)%Z → retained now record = true →
    ∃ c3, node_HandleRPC dispatcher' false retry c2 = (Ok (storedMutationResult retry record), [read final], c3) ∧
      idem_ResultHash record = rs_ResultHash (hr_Response first) ∧ idem_StateGeneration record = rs_AuthoritativeGeneration (hr_Response first) ∧
      (hr_StatusCode (storedMutationResult retry record) = StatusOK ↔ hr_StatusCode first = StatusOK).
Proof.
  intros Hrun Hin. pose proof (saved_operation _ _ _ _ _ _ _ _ Hrun Hin) as Hvalid.
  destruct (node_mutation_script_holds dispatcher cancelled request c _ _ _ Hrun) as (result & [= <-] & Hh).
  apply saved_in_steps, (saved_handling _ _ _ _ _ Hh) in Hin as (at_ & candidate & outcome & response & index & node & Hz & Hn & Hi & Hnew & Hr & -> & ->).
  assert (Hid : node_ID node = rq_NodeID request) by (by apply list_find_Some in Hi as (_ & ? & _)). rewrite -Hid in Hi.
  destruct (with_record_ok _ _ _ _ _ _ _ Hi Hnew Hr) as (node' & Hstore & Hfinal). exists index, node'. rewrite -Hid. split; [exact Hfinal|].
  intros record retry c2 w2 now w3 Hrec Hrid Hq Hnode Hop Hexp Hload Hnow Hzero Hle Hkept.
  assert (Hsame := kept_record _ _ _ _ _ Hstore Hrec Hrid). pose proof (stored_record_found _ _ _ _ _ (to_utc now) record Hstore Hrec) as Hfind.
  rewrite Hrid -Hq in Hfind. specialize (Hfind ltac:(subst record; exact Hle)). rewrite /validateTime in Hfind.
  specialize (Hfind ltac:(unfold IsZero, to_utc in *; cbn [instant zone_offset loc]; by rewrite Hzero) Hkept).
  destruct (normalized_response _ _ _ _ Hn) as [Hgen Hcat]. eexists. split_and!.
  - unfold node_HandleRPC. rewrite (proj2 (N.eqb_neq _ _) Hexp) Hop Hvalid. cbn [negb].
    unfold mbind, proc_bind, tagged, load_state, on_host, call. rewrite Hload. cbn [ctl_host].
    unfold answer_in_state. rewrite Hnode Hfinal. unfold mbind, proc_bind, tagged, on_host, call. cbn [ctl_host]. rewrite Hnow. cbv zeta.
    rewrite Hfind bool_decide_eq_true_2; [by subst record|]. reflexivity.
  - by subst record.
  - by subst record.
  - cbn [hr_StatusCode answered]. rewrite category_status Hcat. unfold storedMutationResult. subst record. cbn [idem_ResultStatus record_of].
    destruct (nm_Status outcome); cbn [is_failed]; cbn; unfold StatusInternalServerError, StatusOK; naive_solver.
Qed.
End handler.
End scripts.

(** ** Witnesses *)

(** A gateway whose world is its state, replaced by compare-and-swap, on the fifth day. *)
#[export] Instance memory_states : ControllerStateStore State := {
  cs_Load w := (Ok w, w);
  cs_Save expected candidate w := if (expected =? st_Generation w)%N then (Ok (), candidate) else (Err (Sentinel ErrStateConflict), w)
}.
#[export] Instance memory_observer : PassiveObserver State := { Observe _ w := ((MkObservation zero_time None None, None), w) }.
#[export] Instance memory_clock : ControllerClock State := { runtime_Now w := (day 5, w) }.
#[export] Instance material_text : JSONValue hash_material := { marshal m := Ok (hm_Category m +:+ hm_Data m); decode _ := Err EOF }.
#[export] Instance replay_text : JSONValue replay_data := { marshal _ := Ok "{}"; decode _ := Err EOF }.

(** A dispatcher that only counts. *)
Definition counting_dispatcher : NodeMutationDispatcher State :=
  MkNodeMutationDispatcher
    (λ state request w, (Ok (set_st_Generation (st_Generation state + 1) state, MkNodeMutationResult ResultOK (NewRPCResponse "success" 0 "")), w))
    (λ state request w, (Ok (MkNodeMutationResult ResultOK (NewRPCResponse "success" 0 ""), false), w)).

Definition sample_node_request : RPCRequest := control_request (uuid "71") 9 "expose-create".
Definition idle_controller (state : State) : Controller State := MkController state None None.
Abbreviation first_answer := (node_HandleRPC counting_dispatcher false sample_node_request (idle_controller (gateway_state 9 []))).
Definition first_result : RPCHandlerResult := match first_answer.1.1 with Ok result => result | Err _ => mutationFailure sample_node_request 0 "" 0 "" "" end.
Definition saved_state : State := ctl_host first_answer.2.
Definition saved_record : IdempotencyRecord :=
  MkIdempotencyRecord (uuid "71") OperationExposeCreate ResultOK (rs_ResultHash (hr_Response first_result)) 10 (day 5).
Definition recorded_node : Node := set_node_IdempotencyRecords (Some (sample_history ++ [saved_record])) (gateway_node "11" "edge" "10.67.0.2").

Lemma first_answer_run : first_answer = (Ok first_result, first_answer.1.2, first_answer.2).
Proof. by vm_compute. Qed.

Lemma first_answer_saved : first_answer.1.2 !! 2%nat = Some (ControllerCall (StateCall (StateSaved 9 saved_state (Ok ())))).
Proof. by vm_compute. Qed.

Lemma recorded_node_at : node_index (uuid "11") saved_state = Some (0%nat, recorded_node).
Proof. by vm_compute. Qed.

Lemma node_mutation_follows_script_witness : handling sample_node_request (mutation_steps first_answer.1.2) first_result ∧ hr_StatusCode first_result = StatusOK.
Proof.
  destruct (node_mutation_follows_script _ _ _ _ _ _ _ first_answer_run) as (result & Hr & Hh). injection Hr as <-. split; [exact Hh|]. vm_compute. reflexivity.
Defined.

Lemma retry_is_answered_from_history_witness : ∃ c, node_HandleRPC counting_dispatcher false sample_node_request (idle_controller saved_state) =
  (Ok (storedMutationResult sample_node_request saved_record), [ControllerCall (StateCall (StateLoaded (Ok saved_state)))], c).
Proof.
  destruct (retry_is_answered_from_history counting_dispatcher counting_dispatcher false sample_node_request _ _ _ _ 9%N saved_state first_answer_run
    (list_elem_of_lookup_2 _ _ _ first_answer_saved)) as (index & node & Hi & Hretry).
  injection (eq_trans (eq_sym Hi) recorded_node_at) as _ ->.
  destruct (Hretry saved_record sample_node_request (idle_controller saved_state) saved_state (day 5) saved_state) as (c & Hc & _); try reflexivity.
  - right. left.
  - discriminate.
  - by exists c.
Defined.
