(* ===== verification/SwitchMutation.v ===== *)
(** * Transport switches on the gateway ([internal/controller/transport_switch_mutation.go])

    The dispatcher of the requests that register and finalize a deferred switch.  A
    registration appends a pending operation and changes no selection; a finalization
    completes that operation and changes the selection of the node.  Both can be
    reconciled with a later state. *)

From S2P Require Import Prelude GoTime GoText GoNet GoConv Proc Types Checks Identity Expose Resources StateValidate Codec Operation Transition SwitchIntent SwitchState Rpc RpcServer Controller NodeMutation.

Local Open Scope string_scope.
Local Open Scope list_scope.

(** ** Checks *)

(** The states of the configured transports of a node by kind. *)
Definition selection_states (state : State) (nodeID : string) : result (gmap TransportKind TransportState) :=
  range (λ _ t states,
    if configured_for nodeID t then
      match states !! tr_Kind t with
      | Some _ => Err (Message "authoritative node transport set is ambiguous")
      | None => Ok (<[tr_Kind t := tr_State t]> states)
      end
    else Ok states) (items (st_Transports state)) ∅.

Definition validateTransportSwitchSelection (state : State) (node : Node) (current target : TransportKind) : result unit :=
  reject (negb (bool_decide (node_Lifecycle node = LifecycleActive)) || negb (bool_decide (node_ActiveTransport node = current)))
    (Message "authoritative node transport differs from the reviewed plan");;
  states ← selection_states state (node_ID node);
  reject (negb (size states =? 2)%nat || negb (bool_decide (states !! current = Some TransportActive))
          || negb (bool_decide (states !! target = Some TransportStandby)))
    (Message "transport switch requires one active current and one standby target").

(** A switch that is not over: the registration refuses a second one for its node. *)
Definition open_switch (operation : Operation) : bool :=
  bool_decide (op_Type operation = OperationTransportSwitch) && negb (bool_decide (op_State operation = OperationCompleted))
  && negb (bool_decide (op_State operation = OperationFailed)).

Definition no_open_switch (nodeID : string) (operations : list Operation) : result unit :=
  range_check (λ _ operation,
    if negb (open_switch operation) then Ok () else
    match ParseSwitchIntentTarget (op_TargetID operation) with
    | Ok retained =>
        reject (negb (String.eqb (op_TargetKind operation) "transport")) (Message "authoritative transport switch operation is invalid");;
        reject (String.eqb (it_NodeID retained) nodeID) (Message "node already has a non-terminal transport switch")
    | Err _ => Err (Message "authoritative transport switch operation is invalid")
    end) operations.

Definition completeTransportSwitchOperation : Operation → time → result Operation :=
  complete_operation "complete transport switch step" "complete transport switch operation".

Section dispatcher.
Context `{!Sha256, !JSONTokens, !JSONValue (option (gmap string string)), !JSONValue DeferredSwitchRequest, !JSONValue DeferredSwitchReceipt,
          !JSONValue FinalizedSwitchReceipt}.

Definition validateDeferredTransportSwitchRequest (state : State) (request : RPCRequest) : result (DeferredSwitchRequest * SwitchIntentTarget * Node) :=
  reject (negb (is_ok (Validate state)) || negb (bool_decide (host_Role (st_Host state) = RoleGateway))) (Message "transport switch requires valid gateway state");;
  match DecodeRPCPayload (T:=DeferredSwitchRequest) (rq_Payload request) with
  | Err _ => Err (Message "transport switch payload is invalid")
  | Ok payload =>
      intent ← sr_IntentTarget payload (rq_NodeID request);
      match node_index (rq_NodeID request) state with
      | Some (_, node) => Ok (payload, intent, node)
      | None => Err (Message "transport switch node does not exist")
      end
  end.

Definition retained_switch_ok (operation : Operation) (intent : SwitchIntentTarget) : bool :=
  bool_decide (op_Type operation = OperationTransportSwitch) && String.eqb (op_TargetKind operation) "transport"
  && String.eqb (op_TargetID operation) (it_String intent) && is_ok (NextGeneration (op_ExpectedGeneration operation))
  && match NextGeneration (next_or_zero (op_ExpectedGeneration operation)) with
     | Ok desired => (op_DesiredGeneration operation =? desired)%N
     | Err _ => false
     end
  && match SwitchOperationID (op_RequestID operation) with Ok derived => String.eqb derived (op_ID operation) | Err _ => false end.

Definition retainedTransportSwitchOperation (state : State) (operationID : string) (intent : SwitchIntentTarget) : result (nat * Operation) :=
  match list_find (λ operation, op_ID operation = operationID) (items (st_Operations state)) with
  | None => Err (Message "transport switch operation does not exist")
  | Some (index, operation) =>
      reject (negb (retained_switch_ok operation intent)) (Message "retained transport switch operation is invalid");;
      Ok (index, operation)
  end.

(** ** Results *)

Definition set_resource_ids (ids : gmap string string) (response : RPCResponse) : RPCResponse :=
  MkRPCResponse (rs_SchemaVersion response) (rs_ProtocolMajor response) (rs_ProtocolMinor response) (rs_Category response)
    (rs_AuthoritativeGeneration response) (Some ids) (rs_Warnings response) (rs_RequiresAction response) (rs_ResultHash response)
    (rs_ErrorCode response) (rs_Message response) (rs_Data response).
Definition set_category (category : string) (response : RPCResponse) : RPCResponse :=
  MkRPCResponse (rs_SchemaVersion response) (rs_ProtocolMajor response) (rs_ProtocolMinor response) category
    (rs_AuthoritativeGeneration response) (rs_ResourceIDs response) (rs_Warnings response) (rs_RequiresAction response) (rs_ResultHash response)
    (rs_ErrorCode response) (rs_Message response) (rs_Data response).

Definition transportSwitchMutationResult (receipt : DeferredSwitchReceipt) (status : ResultStatus) : result NodeMutationResult :=
  dsr_Validate receipt;;
  encoded ← marshal receipt;
  let response := set_resource_ids (<["operation_id" := dsr_OperationID receipt]> {["node_id" := dsr_NodeID receipt]})
    (NewRPCResponse "success" (dsr_GatewayGeneration receipt) encoded) in
  Ok (MkNodeMutationResult status
    (if is_failed status then set_failure "transport_switch_failed" "the retained transport switch operation failed" (set_category "conflict" response)
     else response)).

Definition finalizedTransportSwitchMutationResult (receipt : FinalizedSwitchReceipt) : result NodeMutationResult :=
  fr_Validate receipt;;
  encoded ← marshal receipt;
  Ok (MkNodeMutationResult ResultOK
    (set_resource_ids (<["operation_id" := fr_OperationID receipt]> {["node_id" := fr_NodeID receipt]})
      (NewRPCResponse "success" (fr_GatewayGeneration receipt) encoded))).

(** [NodeMutationResult{}] *)
Definition zero_mutation_result : NodeMutationResult :=
  MkNodeMutationResult (ResultUnsupported "") (MkRPCResponse 0 0 0 "" 0 None None None "" "" "" "").

(** ** Registration *)

Definition switch_operation (operationID requestID : string) (intent : SwitchIntentTarget) (expected desired : N) (at_ : time) : Operation :=
  MkOperation ResourceSchemaVersion operationID OperationTransportSwitch OperationPending "transport" (it_String intent) requestID expected desired
    (Some ((λ name, MkOperationStep name OperationPending at_) <$> SwitchOperationStepNames)) "" at_ at_.

(** What is known before the clock is read: the operation ID and the two generations. *)
Definition registration_checks (state : State) (request : RPCRequest) (payload : DeferredSwitchRequest) (node : Node) : result (string * N * N) :=
  sr_ValidateRegistration payload (node_ID node) (rq_ExpectedStateGeneration request) (rq_RequestID request);;
  validateTransportSwitchSelection state node (sr_Current payload) (sr_Target payload);;
  operationID ← SwitchOperationID (rq_RequestID request);
  no_open_switch (node_ID node) (items (st_Operations state));;
  registrationGeneration ← NextGeneration (st_Generation state);
  desiredGatewayGeneration ← NextGeneration registrationGeneration;
  Ok (operationID, registrationGeneration, desiredGatewayGeneration).

Definition registered_state (state : State) (generation : N) (operation : Operation) : State :=
  set_st_Operations (append (append None (items (st_Operations state))) [operation])
    (set_st_Nodes (append None (items (st_Nodes state))) (set_st_Generation generation state)).

Definition register_switch (state : State) (request : RPCRequest) (payload : DeferredSwitchRequest) (intent : SwitchIntentTarget) (node : Node)
    (operationID : string) (registrationGeneration desiredGatewayGeneration : N) (at_ : time) : result (State * NodeMutationResult) :=
  let operation := switch_operation operationID (rq_RequestID request) intent (st_Generation state) desiredGatewayGeneration at_ in
  wrap "validate transport switch operation" (op_Validate operation);;
  let candidate := registered_state state registrationGeneration operation in
  wrap "register transport switch operation" (ValidateTransition state candidate);;
  result ← transportSwitchMutationResult
    (MkDeferredSwitchReceipt (op_ID operation) (op_RequestID operation) (node_ID node) (sr_Current payload) (sr_Target payload)
      registrationGeneration desiredGatewayGeneration (it_ExpectedNodeGeneration intent) (it_DesiredNodeGeneration intent)) ResultPending;
  Ok (candidate, result).

(** ** Finalization *)

Definition finalization_checks (state : State) (request : RPCRequest) (payload : DeferredSwitchRequest) (intent : SwitchIntentTarget) (node : Node)
    : result (nat * Operation) :=
  sr_ValidateFinalization payload (node_ID node) (rq_ExpectedStateGeneration request) (rq_RequestID request);;
  validateTransportSwitchSelection state node (sr_Current payload) (sr_Target payload);;
  '(operationIndex, operation) ← retainedTransportSwitchOperation state (sr_OperationID payload) intent;
  reject (negb (bool_decide (op_State operation = OperationPending))) (Message "transport switch operation is not pending");;
  Ok (operationIndex, operation).

Definition selected_state (state : State) (generation : N) (nodeID : string) (current target : TransportKind) (operationIndex : nat) (completed : Operation) : State :=
  set_st_Operations (append None (<[operationIndex := completed]> (items (st_Operations state))))
    (set_st_Transports (append None (switch_transport nodeID current target <$> items (st_Transports state)))
      (set_st_Nodes (append None (switch_node nodeID target <$> items (st_Nodes state))) (set_st_Generation generation state))).

Definition finalization_receipt (operation : Operation) (request : RPCRequest) (payload : DeferredSwitchRequest) (intent : SwitchIntentTarget) (node : Node)
    (generation : N) : FinalizedSwitchReceipt :=
  MkFinalizedSwitchReceipt (op_ID operation) (rq_RequestID request) (node_ID node) (sr_Current payload) (sr_Target payload)
    (rq_ExpectedStateGeneration request) generation (it_ExpectedNodeGeneration intent) (it_DesiredNodeGeneration intent).

Definition finalize_switch (state : State) (request : RPCRequest) (payload : DeferredSwitchRequest) (intent : SwitchIntentTarget) (node : Node)
    (operationIndex : nat) (operation : Operation) (at_ : time) : result (State * NodeMutationResult) :=
  completed ← completeTransportSwitchOperation operation at_;
  generation ← NextGeneration (st_Generation state);
  let candidate := selected_state state generation (node_ID node) (sr_Current payload) (sr_Target payload) operationIndex completed in
  wrap "finalize transport switch operation" (ValidateTransition state candidate);;
  result ← finalizedTransportSwitchMutationResult (finalization_receipt operation request payload intent node (st_Generation candidate));
  Ok (candidate, result).

(** ** Reconciliation *)

Definition status_of_operation (s : OperationState) : ResultStatus :=
  match s with OperationDegraded => ResultDegraded | OperationFailed => ResultFailed | OperationCompleted => ResultOK | _ => ResultPending end.

Definition reconcileTransportSwitchRegistration (state : State) (request : RPCRequest) (payload : DeferredSwitchRequest) (intent : SwitchIntentTarget)
    (node : Node) : result (NodeMutationResult * bool) :=
  sr_ValidateRegistration payload (node_ID node) (rq_ExpectedStateGeneration request) (rq_RequestID request);;
  operationID ← SwitchOperationID (rq_RequestID request);
  match list_find (λ operation, op_ID operation = operationID) (items (st_Operations state)) with
  | None => Ok (zero_mutation_result, false)
  | Some (_, operation) =>
      reject (negb (bool_decide (op_Type operation = OperationTransportSwitch)) || negb (String.eqb (op_TargetKind operation) "transport")
              || negb (String.eqb (op_TargetID operation) (it_String intent)) || negb (String.eqb (op_RequestID operation) (rq_RequestID request))
              || negb (op_ExpectedGeneration operation =? rq_ExpectedStateGeneration request)%N)
        (Message "retained transport switch operation conflicts with the request");;
      let registrationGeneration := next_or_zero (op_ExpectedGeneration operation) in
      reject (negb (is_ok (NextGeneration (op_ExpectedGeneration operation)))
              || negb (match NextGeneration registrationGeneration with Ok desired => (op_DesiredGeneration operation =? desired)%N | Err _ => false end))
        (Message "retained transport switch generations are invalid");;
      result ← transportSwitchMutationResult
        (MkDeferredSwitchReceipt (op_ID operation) (op_RequestID operation) (node_ID node) (sr_Current payload) (sr_Target payload)
          registrationGeneration (op_DesiredGeneration operation) (it_ExpectedNodeGeneration intent) (it_DesiredNodeGeneration intent))
        (status_of_operation (op_State operation));
      Ok (result, true)
  end.

Definition reconcileTransportSwitchFinalization (state : State) (request : RPCRequest) (payload : DeferredSwitchRequest) (intent : SwitchIntentTarget)
    (node : Node) : result (NodeMutationResult * bool) :=
  sr_ValidateFinalization payload (node_ID node) (rq_ExpectedStateGeneration request) (rq_RequestID request);;
  '(_, operation) ← retainedTransportSwitchOperation state (sr_OperationID payload) intent;
  if negb (bool_decide (op_State operation = OperationCompleted)) then Ok (zero_mutation_result, false) else
  wrap "completed transport switch selection is invalid" (validateTransportSwitchSelection state node (sr_Target payload) (sr_Current payload));;
  result ← finalizedTransportSwitchMutationResult (finalization_receipt operation request payload intent node (st_Generation state));
  Ok (result, true).

(** ** The dispatcher *)

Section host.
Context {W : Type} (now : W → time * W).

Definition dispatchRegistration (state : State) (request : RPCRequest) (payload : DeferredSwitchRequest) (intent : SwitchIntentTarget) (node : Node) (w : W)
    : result (State * NodeMutationResult) * W :=
  match registration_checks state request payload node with
  | Err e => (Err e, w)
  | Ok (operationID, registrationGeneration, desiredGatewayGeneration) =>
      let '(at_, w) := now w in
      (register_switch state request payload intent node operationID registrationGeneration desiredGatewayGeneration (to_utc at_), w)
  end.

Definition dispatchFinalization (state : State) (request : RPCRequest) (payload : DeferredSwitchRequest) (intent : SwitchIntentTarget) (node : Node) (w : W)
    : result (State * NodeMutationResult) * W :=
  match finalization_checks state request payload intent node with
  | Err e => (Err e, w)
  | Ok (operationIndex, operation) =>
      let '(at_, w) := now w in (finalize_switch state request payload intent node operationIndex operation (to_utc at_), w)
  end.

(** [cancelled] is whether the context was cancelled by the time the request was checked. *)
Definition switch_Dispatch (cancelled : bool) (state : State) (request : RPCRequest) (w : W) : result (State * NodeMutationResult) * W :=
  if negb (String.eqb (rq_Operation request) (OperationType_string OperationTransportSwitch)) then (Err (Message "unsupported transport switch operation"), w) else
  match validateDeferredTransportSwitchRequest state request with
  | Err e => (Err e, w)
  | Ok (payload, intent, node) =>
      if cancelled then (Err (Message "context canceled"), w) else
      match sr_Action payload with
      | SwitchMutationRegister => dispatchRegistration state request payload intent node w
      | SwitchMutationFinalize => dispatchFinalization state request payload intent node w
      | SwitchMutationUnsupported _ => (Err (Message "unsupported transport switch mutation action"), w)
      end
  end.

Definition switch_Reconcile (cancelled : bool) (state : State) (request : RPCRequest) (w : W) : result (NodeMutationResult * bool) * W :=
  (('(payload, intent, node) ← validateDeferredTransportSwitchRequest state request;
    reject cancelled (Message "context canceled");;
    match sr_Action payload with
    | SwitchMutationRegister => reconcileTransportSwitchRegistration state request payload intent node
    | SwitchMutationFinalize => reconcileTransportSwitchFinalization state request payload intent node
    | SwitchMutationUnsupported _ => Err (Message "unsupported transport switch mutation action")
    end), w).

Definition TransportSwitchMutationDispatcher (cancelled : bool) : NodeMutationDispatcher W :=
  MkNodeMutationDispatcher (switch_Dispatch cancelled) (switch_Reconcile cancelled).
End host.
End dispatcher.
