(* ===== verification/SwitchMutationFacts.v ===== *)
(** * Facts about switches on the gateway

    A switch that was dispatched is reconciled with its own answer, a dispatched request gives no node a
    second open switch, and the selection changes exactly where it was asked for. *)

From S2P Require Import Prelude GoTime GoText GoNet GoConv Proc Types Checks Identity Address Expose Idempotency Resources StateValidate Codec Samples StateFacts Operation Transition NodeOperation SwitchIntent SwitchState SwitchFacts DeferredFacts Rpc RpcServer RpcSamples Controller NodeMutation NodeMutationFacts SwitchMutation.

Local Open Scope string_scope.
Local Open Scope list_scope.

(** ** The selection of a node *)

(** The configured transports of a node. *)
Definition configured (nodeID : string) (state : State) : list Transport := filter (λ t, configured_for nodeID t = true) (items (st_Transports state)).

Record selects (ts : list Transport) (m : gmap TransportKind TransportState) : Prop := {
  sel_kinds : NoDup (tr_Kind <$> ts);
  sel_dom : dom m = list_to_set (tr_Kind <$> ts);
  sel_state : ∀ t, t ∈ ts → m !! tr_Kind t = Some (tr_State t)
}.

Lemma selects_snoc ts m t : selects ts m → m !! tr_Kind t = None → selects (ts ++ [t]) (<[tr_Kind t := tr_State t]> m).
Proof.
  intros [Hn Hd Hs] Hm. assert (Hnew : tr_Kind t ∉ tr_Kind <$> ts) by (apply not_elem_of_dom in Hm; rewrite Hd in Hm; set_solver).
  split.
  - rewrite fmap_app. apply NoDup_app. split_and!; [done|set_solver|apply NoDup_singleton].
  - rewrite dom_insert_L Hd fmap_app list_to_set_app_L. set_solver.
  - intros t' [Ht|Ht%list_elem_of_singleton]%elem_of_app; [|by rewrite Ht lookup_insert_eq].
    rewrite lookup_insert_ne; [|by apply Hs]. intros Heq. apply Hnew. rewrite Heq. by apply list_elem_of_fmap_2.
Qed.

Lemma selects_nil : selects [] ∅.
Proof. split; [constructor|done|]. by intros t ?%not_elem_of_nil. Qed.

Lemma selection_states_ok state nodeID m : selection_states state nodeID = Ok m → selects (configured nodeID state) m.
Proof.
  intros Hr. refine (range_inv _ (λ p m, selects (filter (λ t, configured_for nodeID t = true) p) m) _ ∅ m _ selects_nil Hr).
  intros p t q m1 m2 _ Hm Hb. rewrite filter_app filter_cons filter_nil. destruct (configured_for nodeID t) eqn:Ec; cbn [decide] in *.
  - destruct (m1 !! tr_Kind t) eqn:El; [done|]. injection Hb as <-. by apply selects_snoc.
  - injection Hb as <-. by rewrite app_nil_r.
Qed.

Lemma selection_states_total state nodeID : NoDup (tr_Kind <$> configured nodeID state) → ∃ m, selection_states state nodeID = Ok m ∧ selects (configured nodeID state) m.
Proof.
  intros Hn. apply (range_total _ (λ p m, selects (filter (λ t, configured_for nodeID t = true) p) m)); [|apply selects_nil]. intros p t q m Heq Hm. rewrite filter_app filter_cons filter_nil. unfold configured in Hn. rewrite Heq filter_app filter_cons in Hn.
  destruct (configured_for nodeID t) eqn:Ec; cbn [decide] in *; [|exists m; by rewrite app_nil_r].
  rewrite fmap_app fmap_cons in Hn. apply NoDup_app in Hn as (_ & Hd & _).
  assert (Hl : m !! tr_Kind t = None) by (apply not_elem_of_dom; rewrite (sel_dom _ _ Hm); set_solver).
  rewrite Hl. eexists. split; [done|]. by apply selects_snoc.
Qed.

(** The node is active on [current] and could be switched to [target]. *)
Record selected (state : State) (node : Node) (current target : TransportKind) : Prop := {
  sd_active : node_Lifecycle node = LifecycleActive;
  sd_current : node_ActiveTransport node = current;
  sd_kinds : NoDup (tr_Kind <$> configured (node_ID node) state);
  sd_two : length (configured (node_ID node) state) = 2%nat;
  sd_used : ∃ t, t ∈ configured (node_ID node) state ∧ tr_Kind t = current ∧ tr_State t = TransportActive;
  sd_standby : ∃ t, t ∈ configured (node_ID node) state ∧ tr_Kind t = target ∧ tr_State t = TransportStandby
}.

Lemma selects_size ts m : selects ts m → size m = length ts.
Proof. intros [Hn Hd _]. rewrite -size_dom Hd size_list_to_set // length_fmap //. Qed.

Lemma selects_lookup ts m k s : selects ts m → m !! k = Some s ↔ ∃ t, t ∈ ts ∧ tr_Kind t = k ∧ tr_State t = s.
Proof.
  intros Hm. split.
  - intros Hl. assert (Hk : k ∈ dom m) by by apply elem_of_dom. rewrite (sel_dom _ _ Hm) in Hk. apply elem_of_list_to_set, list_elem_of_fmap in Hk as (t & -> & Ht).
    exists t. rewrite (sel_state _ _ Hm t Ht) in Hl. by injection Hl.
  - intros (t & Ht & <- & <-). by apply (sel_state _ _ Hm).
Qed.

Lemma selection_ok state node current target : validateTransportSwitchSelection state node current target = Ok () ↔ selected state node current target.
Proof.
  unfold validateTransportSwitchSelection. split.
  - intros H. ok_step H. ok_step H. apply reject_ok in H. apply selection_states_ok in G0. rewrite (selects_size _ _ G0) in H. facts.
    split; try done; [apply G0|by apply (selects_lookup _ _ _ _ G0)..].
  - intros [Hl Hc Hn H2 Hu Hs]. rewrite Hl Hc !bool_decide_eq_true_2 //. cbn [negb orb reject mbind result_bind].
    destruct (selection_states_total state (node_ID node) Hn) as (m & -> & Hm). cbn [mbind result_bind].
    apply reject_ok. rewrite (selects_size _ _ Hm) !orb_false_iff !negb_false_iff Nat.eqb_eq !bool_decide_eq_true !(selects_lookup _ _ _ _ Hm). done.
Qed.

Lemma filter_fmap_in {A} (P : A → Prop) `{∀ x, Decision (P x)} (f : A → A) (l : list A) : (∀ x, x ∈ l → P (f x) ↔ P x) → filter P (f <$> l) = f <$> filter P l.
Proof.
  induction l as [|x l IH]; intros Hf; [done|]. rewrite fmap_cons !filter_cons IH; [intros y Hy; apply Hf; by right|].
  assert (Hx := Hf x (list_elem_of_here _ _)). destruct (decide (P (f x))), (decide (P x)); naive_solver.
Qed.

Lemma valid_transports state : Validate state = Ok () → NoDup ((λ t, (tr_owner t, tr_Kind t)) <$> items (st_Transports state)).
Proof. intros (nodes & clients & ? & ? & states & ? & Hv)%Validate_parts. by apply (validate_transports_ok _ _ _ _ (vp_transports _ _ _ _ _ _ _ Hv)). Qed.

Lemma valid_operation state o : Validate state = Ok () → o ∈ items (st_Operations state) → op_Validate o = Ok ().
Proof.
  intros (? & ? & ? & ? & ? & m & Hv)%Validate_parts. destruct (vp_operations _ _ _ _ _ _ _ Hv) as [reqs Ho].
  apply validate_operations_ok in Ho as (_ & _ & Ha). by apply Ha.
Qed.

Lemma found_operation state i o : Validate state = Ok () → items (st_Operations state) !! i = Some o →
  list_find (λ x, op_ID x = op_ID o) (items (st_Operations state)) = Some (i, o).
Proof.
  intros Hv Hi. destruct (valid_NoDup _ Hv) as (_ & _ & _ & Hnd). destruct (list_find_elem_of (λ x, op_ID x = op_ID o) (items (st_Operations state)) o) as [[j x] Hx];
    [by eapply list_elem_of_lookup_2|done|].
  rewrite Hx. apply list_find_Some in Hx as (Hj & Hid & _). assert (j = i) as ->; [|by rewrite Hi in Hj; injection Hj as ->].
  eapply (NoDup_lookup (op_ID <$> items (st_Operations state))); [done|rewrite list_lookup_fmap Hj //|rewrite list_lookup_fmap Hi /= Hid //].
Qed.

Lemma configured_elem nodeID state t : t ∈ configured nodeID state ↔
  t ∈ items (st_Transports state) ∧ tr_OwnerKind t = TargetNode ∧ tr_OwnerID t = nodeID ∧ tr_State t ≠ TransportDisabled.
Proof.
  unfold configured, configured_for. rewrite list_elem_of_filter !andb_true_iff negb_true_iff bool_decide_eq_true bool_decide_eq_false String.eqb_eq. tauto.
Qed.

Lemma registered_parts state generation operation (candidate := registered_state state generation operation) :
  items (st_Nodes candidate) = items (st_Nodes state) ∧ items (st_Operations candidate) = items (st_Operations state) ++ [operation] ∧
  st_Transports candidate = st_Transports state.
Proof. split_and!; [exact (items_append None _)|etrans; [exact (items_append _ _)|f_equal; exact (items_append None _)]|done]. Qed.

Lemma selected_parts state generation nodeID current target index completed (candidate := selected_state state generation nodeID current target index completed) :
  items (st_Nodes candidate) = switch_node nodeID target <$> items (st_Nodes state) ∧ items (st_Operations candidate) = <[index := completed]> (items (st_Operations state)) ∧
  items (st_Transports candidate) = switch_transport nodeID current target <$> items (st_Transports state).
Proof. split_and!; exact (items_append None _). Qed.

Section reselect.
Context (state : State) (node : Node) (current target : TransportKind) (Hvalid : Validate state = Ok ()) (Hselected : selected state node current target).
Context (generation : N) (index : nat) (completed : Operation).
Let candidate := selected_state state generation (node_ID node) current target index completed.

Lemma switch_transport_configured t : t ∈ items (st_Transports state) →
  configured_for (node_ID node) (switch_transport (node_ID node) current target t) = true ↔ configured_for (node_ID node) t = true.
Proof.
  intros Ht. assert (Hone : ∀ k s, (∃ u, u ∈ configured (node_ID node) state ∧ tr_Kind u = k ∧ tr_State u = s) → tr_OwnerKind t = TargetNode →
    tr_OwnerID t = node_ID node → tr_Kind t = k → configured_for (node_ID node) t = true).
  { intros k s (u & Hu & Hk & _) Ho Hi Hkt. assert (t = u) as ->; [|by apply list_elem_of_filter in Hu as [? _]]. apply configured_elem in Hu as (Hu & Hou & Hiu & _).
    apply (NoDup_key_inj (λ t, (tr_owner t, tr_Kind t)) (items (st_Transports state))); [by apply valid_transports|done|done|]. unfold tr_owner. congruence. }
  unfold switch_transport. destruct (bool_decide_reflect (tr_OwnerKind t = TargetNode)) as [Ho|]; [|done].
  destruct (String.eqb_spec (tr_OwnerID t) (node_ID node)) as [Hi|]; [|done]. cbn [negb orb].
  assert (Hset : ∀ s, s ≠ TransportDisabled → configured_for (node_ID node) (set_tr_State s t) = true).
  { intros s Hs. unfold configured_for. cbn. rewrite Ho Hi String.eqb_refl (bool_decide_eq_false_2 (s = _)) //. }
  case_bool_decide as Hc; [|case_bool_decide as Hk; [|done]]; (split; [intros _|by intros _; apply Hset]).
  - exact (Hone _ _ (sd_used _ _ _ _ Hselected) Ho Hi Hc).
  - exact (Hone _ _ (sd_standby _ _ _ _ Hselected) Ho Hi Hk).
Qed.

Lemma reconfigured : configured (node_ID node) candidate = switch_transport (node_ID node) current target <$> configured (node_ID node) state.
Proof.
  unfold configured, candidate. destruct (selected_parts state generation (node_ID node) current target index completed) as (_ & _ & ->).
  apply filter_fmap_in. intros t Ht. by apply switch_transport_configured.
Qed.

Lemma reselected : current ≠ target → selected candidate (switch_node (node_ID node) target node) target current.
Proof.
  intros Hne. destruct Hselected as [Hl Hc Hn H2 (u & Hu & Hku & _) (v & Hv & Hkv & _)]. unfold switch_node. rewrite String.eqb_refl.
  assert (Hmove : ∀ t k s, t ∈ configured (node_ID node) state → tr_Kind t = k → (k = current ∧ s = TransportStandby ∨ k = target ∧ s = TransportActive) →
    ∃ t', t' ∈ configured (node_ID node) candidate ∧ tr_Kind t' = k ∧ tr_State t' = s).
  { intros t k s Ht Hk Hs. exists (switch_transport (node_ID node) current target t). rewrite reconfigured. split; [by apply list_elem_of_fmap_2|].
    apply configured_elem in Ht as (_ & Ho & Hi & _). unfold switch_transport. rewrite Ho Hi String.eqb_refl bool_decide_eq_true_2 //. cbn [negb orb].
    destruct Hs as [[-> ->]|[-> ->]]; [by rewrite bool_decide_eq_true_2|]. rewrite bool_decide_eq_false_2; [congruence|]. by rewrite bool_decide_eq_true_2. }
  split; cbn [node_ID node_Lifecycle node_ActiveTransport set_node_ActiveTransport]; rewrite ?reconfigured ?length_fmap //.
  - rewrite -list_fmap_compose. erewrite list_fmap_ext; [exact Hn|]. intros i t _. unfold compose, switch_transport. by repeat case_match.
  - rewrite -reconfigured. apply (Hmove v); auto.
  - rewrite -reconfigured. apply (Hmove u); auto.
Qed.
End reselect.

(** ** Requests *)

Section dispatcher.
Context `{!Sha256, !JSONTokens, !JSONValue (option (gmap string string)), !JSONValue DeferredSwitchRequest, !JSONValue DeferredSwitchReceipt,
          !JSONValue FinalizedSwitchReceipt}.

Lemma request_ok state request payload intent node : validateDeferredTransportSwitchRequest state request = Ok (payload, intent, node) ↔
  Validate state = Ok () ∧ host_Role (st_Host state) = RoleGateway ∧ DecodeRPCPayload (rq_Payload request) = Ok payload ∧
  sr_IntentTarget payload (rq_NodeID request) = Ok intent ∧ ∃ index, node_index (rq_NodeID request) state = Some (index, node).
Proof.
  unfold validateDeferredTransportSwitchRequest. split.
  - intros K. ok_step K. facts. apply is_ok_true in H1 as [[] ?]. destruct (DecodeRPCPayload (rq_Payload request)) as [p|]; [|done]. ok_step K.
    destruct (node_index _ _) as [[i n]|]; [|done]. injection K as <- <- <-. by eauto 8.
  - intros (-> & -> & -> & Hi & index & Hn). cbn [is_ok]. rewrite bool_decide_eq_true_2 //. cbn [negb orb reject mbind result_bind]. by rewrite Hi Hn.
Qed.

Lemma node_index_id nodeID state index node : node_index nodeID state = Some (index, node) → node_ID node = nodeID ∧ items (st_Nodes state) !! index = Some node.
Proof. intros (? & ? & _)%list_find_Some. done. Qed.

Lemma intent_of payload nodeID intent : sr_IntentTarget payload nodeID = Ok intent → it_Target intent = sr_Target payload ∧ sr_Current payload ≠ sr_Target payload.
Proof.
  unfold sr_IntentTarget, NewSwitchIntentTarget. intros K. ok_step K. facts. split; [|done]. ok_inv K. by injection K as <-.
Qed.

(** What is known of a registration and a finalization that were dispatched. *)
Record registers (state : State) (request : RPCRequest) (payload : DeferredSwitchRequest) (intent : SwitchIntentTarget) (node : Node) (candidate : State)
    (result : NodeMutationResult) (operation : Operation) : Prop := {
  rg_request : is_ok (sr_ValidateRegistration payload (node_ID node) (rq_ExpectedStateGeneration request) (rq_RequestID request)) = true;
  rg_selected : selected state node (sr_Current payload) (sr_Target payload);
  rg_alone : no_open_switch (node_ID node) (items (st_Operations state)) = Ok ();
  rg_generation : (st_Generation state ≠ max_uint64) ∧ (st_Generation state + 1 ≠ max_uint64)%N;
  rg_operation : ∃ operationID at_, SwitchOperationID (rq_RequestID request) = Ok operationID ∧
    operation = switch_operation operationID (rq_RequestID request) intent (st_Generation state) (st_Generation state + 2) at_;
  rg_candidate : candidate = registered_state state (st_Generation state + 1) operation;
  rg_accepted : accepted state candidate;
  rg_result : transportSwitchMutationResult (MkDeferredSwitchReceipt (op_ID operation) (rq_RequestID request) (node_ID node) (sr_Current payload)
    (sr_Target payload) (st_Generation state + 1) (st_Generation state + 2) (it_ExpectedNodeGeneration intent) (it_DesiredNodeGeneration intent))
    ResultPending = Ok result
}.

Record finalizes (state : State) (request : RPCRequest) (payload : DeferredSwitchRequest) (intent : SwitchIntentTarget) (node : Node) (candidate : State)
    (result : NodeMutationResult) (operation : Operation) : Prop := {
  fz_request : is_ok (sr_ValidateFinalization payload (node_ID node) (rq_ExpectedStateGeneration request) (rq_RequestID request)) = true;
  fz_selected : selected state node (sr_Current payload) (sr_Target payload);
  fz_generation : st_Generation state ≠ max_uint64;
  fz_operation : ∃ index at_, items (st_Operations state) !! index = Some operation ∧ op_ID operation = sr_OperationID payload ∧
    retained_switch_ok operation intent = true ∧ op_State operation = OperationPending ∧
    candidate = selected_state state (st_Generation state + 1) (node_ID node) (sr_Current payload) (sr_Target payload) index (finished at_ operation);
  fz_accepted : accepted state candidate;
  fz_result : finalizedTransportSwitchMutationResult (finalization_receipt operation request payload intent node (st_Generation state + 1)) = Ok result
}.

Lemma registration_ok {W} (now : W → time * W) state request payload intent node candidate result w w' :
  dispatchRegistration now state request payload intent node w = (Ok (candidate, result), w') →
  ∃ operation, registers state request payload intent node candidate result operation.
Proof.
  unfold dispatchRegistration. destruct (registration_checks state request payload node) as [[[operationID g1] g2]|e] eqn:Ec; [|done].
  destruct (now w) as [at_ w1]. intros [= Hr _]. unfold registration_checks in Ec. do 6 ok_step Ec. injection Ec as <- <- <-.
  apply NextGeneration_ok in G3 as [Hm1 ->]. apply NextGeneration_ok in G4 as [Hm2 ->]. units.
  replace (st_Generation state + 1 + 1)%N with (st_Generation state + 2)%N in Hr by lia.
  unfold register_switch in Hr. do 3 ok_step Hr. injection Hr as <- <-. units.
  eexists. split; [by rewrite G|by apply selection_ok|done|done|by eexists _, (to_utc at_)|reflexivity|done|done].
Qed.

Lemma finalization_ok {W} (now : W → time * W) state request payload intent node candidate result w w' : Validate state = Ok () →
  dispatchFinalization now state request payload intent node w = (Ok (candidate, result), w') →
  ∃ operation, finalizes state request payload intent node candidate result operation.
Proof.
  unfold dispatchFinalization. intros Hv. destruct (finalization_checks state request payload intent node) as [[index operation]|e] eqn:Ec; [|done].
  destruct (now w) as [at_ w1]. intros [= Hr _]. unfold finalization_checks in Ec. do 2 ok_step Ec. ok_step Ec. destruct a1 as [i o]. ok_step Ec.
  injection Ec as <- <-. units. facts. unfold retainedTransportSwitchOperation in G1. destruct (list_find _ _) as [[j x]|] eqn:Hf; [|done]. ok_step G1. injection G1 as <- <-.
  apply list_find_Some in Hf as (Hi & Hid & _). facts. unfold finalize_switch in Hr. apply bind_ok in Hr as (completed & Hc & Hr).
  apply bind_ok in Hr as (g & [Hm ->]%NextGeneration_ok & Hr). do 2 ok_step Hr. injection Hr as <- <-. units.
  apply complete_exact in Hc as (_ & _ & ->); [|by eapply valid_operation, list_elem_of_lookup_2|done].
  exists x. split; [by rewrite G|by apply selection_ok|done|by eexists _, (to_utc at_)|done|done].
Qed.

(** ** Reconciliation *)

(** A later state in which the node and the operation are as they were. *)
Record as_before (candidate later : State) (nodeID operationID : string) : Prop := {
  ab_valid : Validate later = Ok ();
  ab_role : host_Role (st_Host later) = RoleGateway;
  ab_generation : (st_Generation candidate ≤ st_Generation later)%N;
  ab_node : ∀ index node, node_index nodeID candidate = Some (index, node) → ∃ index' node', node_index nodeID later = Some (index', node') ∧
    node_Lifecycle node' = node_Lifecycle node ∧ node_ActiveTransport node' = node_ActiveTransport node;
  ab_transports : configured nodeID later = configured nodeID candidate;
  ab_operation : ∀ index operation, list_find (λ o, op_ID o = operationID) (items (st_Operations candidate)) = Some (index, operation) →
    ∃ index', list_find (λ o, op_ID o = operationID) (items (st_Operations later)) = Some (index', operation)
}.

Lemma as_before_refl state nodeID operationID : Validate state = Ok () → host_Role (st_Host state) = RoleGateway → as_before state state nodeID operationID.
Proof.
  intros Hv Hr. split; [exact Hv|exact Hr|reflexivity| |reflexivity|].
  - intros index node Hn. by exists index, node.
  - intros index operation Ho. by exists index.
Qed.

Lemma selected_later candidate later nodeID operationID index node index' node' current target : as_before candidate later nodeID operationID →
  node_index nodeID candidate = Some (index, node) → node_index nodeID later = Some (index', node') → node_Lifecycle node' = node_Lifecycle node →
  node_ActiveTransport node' = node_ActiveTransport node → selected candidate node current target → selected later node' current target.
Proof.
  intros Hb [Hid _]%node_index_id [Hid' _]%node_index_id Hl Ha [? ? ? ? ? ?]. split; rewrite ?Hid' ?(ab_transports _ _ _ _ Hb) -?Hid; congruence.
Qed.

Lemma node_index_fmap (f : Node → Node) nodeID l : (∀ node, node_ID (f node) = node_ID node) →
  list_find (λ node, node_ID node = nodeID) (f <$> l) = prod_map id f <$> list_find (λ node, node_ID node = nodeID) l.
Proof.
  intros Hf. induction l as [|x l IH]; [done|]. cbn. rewrite Hf. destruct (decide (node_ID x = nodeID)); [done|].
  fold (fmap f l). rewrite IH. by destruct (list_find _ l) as [[? ?]|].
Qed.

Lemma switch_node_id nodeID target node : node_ID (switch_node nodeID target node) = node_ID node.
Proof. unfold switch_node. by destruct (String.eqb _ _). Qed.

Lemma registered_node nodeID state generation operation : node_index nodeID (registered_state state generation operation) = node_index nodeID state.
Proof. unfold node_index. by rewrite (proj1 (registered_parts _ _ _)). Qed.

Lemma selected_node nodeID state generation current target index completed i node : node_index nodeID state = Some (i, node) →
  node_index nodeID (selected_state state generation nodeID current target index completed) = Some (i, switch_node nodeID target node).
Proof. unfold node_index. intros Hi. rewrite (proj1 (selected_parts _ _ _ _ _ _ _)) node_index_fmap; [apply switch_node_id|]. by rewrite Hi. Qed.

Lemma registered_operation state request payload intent node candidate result operation : registers state request payload intent node candidate result operation →
  ∃ index, list_find (λ o, op_ID o = op_ID operation) (items (st_Operations candidate)) = Some (index, operation).
Proof.
  intros Hr. assert (Hv := tp_after _ _ (accepted_parts _ _ (rg_accepted _ _ _ _ _ _ _ _ Hr))).
  exists (length (items (st_Operations state))). apply found_operation; [done|]. rewrite (rg_candidate _ _ _ _ _ _ _ _ Hr). destruct (registered_parts state (st_Generation state + 1) operation) as (_ & -> & _).
  by rewrite lookup_app_r // Nat.sub_diag.
Qed.

Lemma finalized_operation state request payload intent node candidate result operation : finalizes state request payload intent node candidate result operation →
  ∃ index at_, list_find (λ o, op_ID o = op_ID operation) (items (st_Operations candidate)) = Some (index, finished at_ operation) ∧
    candidate = selected_state state (st_Generation state + 1) (node_ID node) (sr_Current payload) (sr_Target payload) index (finished at_ operation).
Proof.
  intros Hf. assert (Hv := tp_after _ _ (accepted_parts _ _ (fz_accepted _ _ _ _ _ _ _ _ Hf))).
  destruct (fz_operation _ _ _ _ _ _ _ _ Hf) as (index & at_ & Hi & _ & _ & _ & Hc). exists index, at_. split; [|exact Hc].
  apply (found_operation candidate index (finished at_ operation)); [done|]. rewrite Hc.
  destruct (selected_parts state (st_Generation state + 1) (node_ID node) (sr_Current payload) (sr_Target payload) index (finished at_ operation)) as (_ & -> & _).
  rewrite list_lookup_insert_eq //. by eapply lookup_lt_Some.
Qed.

Lemma registration_reconciles state request payload intent node candidate result operation later index' node' :
  registers state request payload intent node candidate result operation → rq_ExpectedStateGeneration request = st_Generation state →
  as_before candidate later (rq_NodeID request) (op_ID operation) → node_index (rq_NodeID request) later = Some (index', node') → node_ID node = rq_NodeID request →
  reconcileTransportSwitchRegistration later request payload intent node' = Ok (result, true).
Proof.
  intros Hr Hexp Hb [Hid _]%node_index_id Hn. assert (Hsame : node_ID node' = node_ID node) by congruence.
  destruct (registered_operation _ _ _ _ _ _ _ _ Hr) as [i Hi]. destruct (ab_operation _ _ _ _ Hb _ _ Hi) as [j Hj].
  destruct (rg_operation _ _ _ _ _ _ _ _ Hr) as (operationID & at_ & Hop & ->). cbn [op_ID switch_operation] in Hj. destruct (rg_generation _ _ _ _ _ _ _ _ Hr) as [Hm1 Hm2].
  unfold reconcileTransportSwitchRegistration. rewrite Hsame. pose proof (rg_request _ _ _ _ _ _ _ _ Hr) as [intent' Hq]%is_ok_true. rewrite Hq Hop. cbn [mbind result_bind].
  rewrite Hj. unfold next_or_zero. cbn [op_Type op_TargetKind op_TargetID op_RequestID op_ExpectedGeneration op_DesiredGeneration op_State switch_operation].
  rewrite !String.eqb_refl Hexp N.eqb_refl. unfold NextGeneration. rewrite (proj2 (N.eqb_neq _ _) Hm1) (proj2 (N.eqb_neq _ _) Hm2).
  replace (st_Generation state + 1 + 1)%N with (st_Generation state + 2)%N by lia. rewrite N.eqb_refl. cbn [status_of_operation].
  rewrite (bool_decide_eq_true_2 (OperationTransportSwitch = OperationTransportSwitch)) //. cbn [is_ok negb orb reject mbind result_bind].
  pose proof (rg_result _ _ _ _ _ _ _ _ Hr) as Hres. cbn [op_ID switch_operation] in Hres |- *. by rewrite Hres.
Qed.

(** Encoding a record of texts and numbers cannot fail. *)
Definition encodes_receipts : Prop := ∀ receipt : FinalizedSwitchReceipt, is_ok (marshal receipt) = true.

Lemma later_receipt operation request payload intent node generation generation' : (generation ≤ generation')%N →
  fr_Validate (finalization_receipt operation request payload intent node generation) = Ok () →
  fr_Validate (finalization_receipt operation request payload intent node generation') = Ok ().
Proof.
  intros Hle. unfold fr_Validate. cbn [finalization_receipt fr_OperationID fr_RequestID fr_NodeID fr_ExpectedNodeGeneration fr_DesiredNodeGeneration
    fr_ExpectedGatewayGeneration fr_Previous fr_Active fr_GatewayGeneration]. intros Hv. do 3 ok_step Hv. units. rewrite G G0 G1. cbn [wrap mbind result_bind].
  destruct (SwitchFinalizeRequestID _ _ _); [|done]. apply reject_ok in Hv. apply reject_ok. rewrite !orb_false_iff in Hv |- *. destruct Hv as (Hv & Hg). split; [exact Hv|].
  apply N.leb_gt in Hg. apply N.leb_gt. lia.
Qed.

Lemma finalization_reconciles state request payload intent node candidate result operation later index index' node' : Validate state = Ok () →
  finalizes state request payload intent node candidate result operation → node_index (rq_NodeID request) state = Some (index, node) →
  sr_Current payload ≠ sr_Target payload → encodes_receipts →
  as_before candidate later (rq_NodeID request) (op_ID operation) → node_index (rq_NodeID request) later = Some (index', node') →
  ∃ result', reconcileTransportSwitchFinalization later request payload intent node' = Ok (result', true) ∧ nm_Status result' = nm_Status result ∧
    (st_Generation later = st_Generation candidate → result' = result).
Proof.
  intros Hv Hf Hnode Hne Henc Hb Hnode'. destruct (node_index_id _ _ _ _ Hnode) as [Hid _]. destruct (node_index_id _ _ _ _ Hnode') as [Hid' _].
  rewrite -Hid in Hnode Hnode' Hb.
  destruct (finalized_operation _ _ _ _ _ _ _ _ Hf) as (i & at_ & Hi & Hc). destruct (ab_operation _ _ _ _ Hb _ _ Hi) as [j Hj].
  destruct (fz_operation _ _ _ _ _ _ _ _ Hf) as (_ & _ & _ & Hop & Hok & _ & _).
  assert (Hcand := selected_node (node_ID node) state (st_Generation state + 1) (sr_Current payload) (sr_Target payload) i (finished at_ operation) _ _ Hnode).
  rewrite -Hc in Hcand.
  destruct (ab_node _ _ _ _ Hb _ _ Hcand) as (k & x & Hx & Hl & Ha). rewrite Hnode' in Hx. injection Hx as <- <-.
  assert (Hsel : selected later node' (sr_Target payload) (sr_Current payload)).
  { refine (selected_later candidate later _ _ _ _ _ _ _ _ Hb Hcand Hnode' Hl Ha _). rewrite Hc.
    apply reselected; [done|by apply fz_selected in Hf|done]. }
  unfold reconcileTransportSwitchFinalization. rewrite Hid' -Hid. pose proof (fz_request _ _ _ _ _ _ _ _ Hf) as [intent' Hq]%is_ok_true. rewrite Hq. cbn [mbind result_bind].
  unfold retainedTransportSwitchOperation. rewrite -Hop Hj. change (retained_switch_ok (finished at_ operation) intent) with (retained_switch_ok operation intent).
  rewrite Hok. cbn [negb reject mbind result_bind]. change (op_State (finished at_ operation)) with OperationCompleted. rewrite bool_decide_eq_true_2 //. cbn [negb].
  rewrite (proj2 (selection_ok _ _ _ _) Hsel). cbn [wrap mbind result_bind].
  assert (Hle : (st_Generation state + 1 ≤ st_Generation later)%N) by (etrans; [|exact (ab_generation _ _ _ _ Hb)]; by rewrite Hc).
  pose proof (fz_result _ _ _ _ _ _ _ _ Hf) as Hres. unfold finalizedTransportSwitchMutationResult in Hres |- *. ok_step Hres. ok_step Hres. injection Hres as <-. units.
  assert (Hrec : finalization_receipt (finished at_ operation) request payload intent node' (st_Generation later) =
    finalization_receipt operation request payload intent node (st_Generation later)) by (unfold finalization_receipt; by rewrite Hid' -Hid).
  rewrite Hrec (later_receipt _ _ _ _ _ _ (st_Generation later) Hle G). cbn [mbind result_bind].
  destruct (is_ok_true (marshal (finalization_receipt operation request payload intent node (st_Generation later)))) as [Hm _].
  destruct (Hm (Henc _)) as [text Ht]. rewrite Ht. cbn [mbind result_bind]. eexists. split; [done|]. split; [done|].
  intros Hg. assert (Hgen : st_Generation later = (st_Generation state + 1)%N) by by rewrite Hg Hc. rewrite Hgen in Ht |- *.
  rewrite Ht in G0. by injection G0 as ->.
Qed.

(** A switch request that was dispatched is answered again by reconciliation, in every
    later valid state in which the operation and the selection are as the dispatch left
    them: with the same status, and for a registration, or while the generation is the
    same, with exactly the same result. *)
Theorem dispatched_switch_reconciles {W} (now : W → time * W) state request candidate result w w1 :
  switch_Dispatch now false state request w = (Ok (candidate, result), w1) → rq_ExpectedStateGeneration request = st_Generation state → encodes_receipts →
  ∃ operationID, rs_ResourceIDs (nm_Response result) = Some (<["operation_id" := operationID]> {["node_id" := rq_NodeID request]}) ∧
  ∀ later w2, as_before candidate later (rq_NodeID request) operationID → ∃ result',
    switch_Reconcile (W:=W) false later request w2 = (Ok (result', true), w2) ∧ nm_Status result' = nm_Status result ∧
    (nm_Status result = ResultPending ∨ st_Generation later = st_Generation candidate → result' = result).
Proof.
  unfold switch_Dispatch. destruct (negb _); [done|]. destruct (validateDeferredTransportSwitchRequest state request) as [[[payload intent] node]|] eqn:Hq; [|done].
  apply request_ok in Hq as (Hv & _ & Hp & Hi & index & Hn). destruct (node_index_id _ _ _ _ Hn) as [Hid _]. intros Hd Hexp Henc.
  assert (Hlater : ∀ later op, as_before candidate later (rq_NodeID request) op → node_index (rq_NodeID request) candidate ≠ None → ∃ i' node',
    node_index (rq_NodeID request) later = Some (i', node') ∧ validateDeferredTransportSwitchRequest later request = Ok (payload, intent, node')).
  { intros later op Hb Hc. destruct (node_index (rq_NodeID request) candidate) as [[i x]|] eqn:Hx; [|done]. destruct (ab_node _ _ _ _ Hb _ _ Hx) as (i' & node' & Hn' & _).
    exists i', node'. split; [done|]. apply request_ok. destruct Hb. by eauto 8. }
  destruct (sr_Action payload) eqn:Ha; [| |done].
  - apply registration_ok in Hd as [operation Hr]. exists (op_ID operation). split.
    { pose proof (rg_result _ _ _ _ _ _ _ _ Hr) as Hres. unfold transportSwitchMutationResult in Hres. ok_inv Hres. injection Hres as <-. by rewrite -Hid. }
    intros later w2 Hb. destruct (Hlater _ _ Hb) as (i' & node' & Hn' & Hq'); [by rewrite (rg_candidate _ _ _ _ _ _ _ _ Hr) registered_node Hn|].
    exists result. unfold switch_Reconcile. rewrite Hq'. cbn [mbind result_bind reject]. rewrite Ha. by rewrite (registration_reconciles state request payload intent node candidate result operation later i' node').
  - apply finalization_ok in Hd as [operation Hf]; [|done]. exists (op_ID operation). split.
    { pose proof (fz_result _ _ _ _ _ _ _ _ Hf) as Hres. unfold finalizedTransportSwitchMutationResult in Hres. ok_inv Hres. injection Hres as <-. by rewrite -Hid. }
    intros later w2 Hb. destruct (finalized_operation _ _ _ _ _ _ _ _ Hf) as (j & at_ & _ & Hc). rewrite Hid in Hc.
    destruct (Hlater _ _ Hb) as (i' & node' & Hn' & Hq'); [by rewrite Hc (selected_node _ _ _ _ _ _ _ _ _ Hn)|].
    destruct (finalization_reconciles _ _ _ _ _ _ _ _ _ _ _ _ Hv Hf Hn (proj2 (intent_of _ _ _ Hi)) Henc Hb Hn') as (result' & Hr' & Hs & He).
    exists result'. unfold switch_Reconcile. rewrite Hq'. cbn [mbind result_bind reject]. rewrite Ha Hr'. split; [done|]. split; [done|]. intros [Hpend|Hg]; [|by apply He].
    exfalso. pose proof (fz_result _ _ _ _ _ _ _ _ Hf) as Hres. unfold finalizedTransportSwitchMutationResult in Hres. ok_inv Hres. injection Hres as <-. done.
Qed.

(** ** One open switch per node *)

(** The nodes whose switches are open; [None] for a switch whose intent cannot be read. *)
Definition switch_nodes (operations : list Operation) : list (option string) :=
  (λ o, it_NodeID <$> good (ParseSwitchIntentTarget (op_TargetID o))) <$> filter (λ o, open_switch o = true) operations.
Definition exclusive_switches (state : State) : Prop := NoDup (switch_nodes (items (st_Operations state))).

Lemma switch_nodes_snoc operations o : switch_nodes (operations ++ [o]) = switch_nodes operations ++ (if open_switch o then [it_NodeID <$> good (ParseSwitchIntentTarget (op_TargetID o))] else []).
Proof. unfold switch_nodes. rewrite filter_app filter_cons filter_nil fmap_app. by destruct (open_switch o). Qed.

Lemma no_open_switch_ok nodeID operations : no_open_switch nodeID operations = Ok () → Some nodeID ∉ switch_nodes operations.
Proof.
  intros Hc (o & Heq & [Ho [i Hi]%list_elem_of_lookup]%list_elem_of_filter)%list_elem_of_fmap. pose proof (proj1 (range_check_ok _ _ _) Hc i o Hi) as Hb. cbn beta in Hb.
  rewrite Ho in Hb. cbn [negb] in Hb. destruct (ParseSwitchIntentTarget (op_TargetID o)) as [t|]; [|done]. ok_step Hb. ok_step Hb. facts. by injection Heq as Heq.
Qed.

(** Numbers of the payload fit into the fields they are decoded to. *)
Definition decodes_uint64 : Prop := ∀ text payload, DecodeRPCPayload text = Ok payload → (sr_ExpectedNodeGeneration payload ≤ max_uint64)%N.

Lemma intent_readable payload nodeID intent : sr_IntentTarget payload nodeID = Ok intent → (sr_ExpectedNodeGeneration payload ≤ max_uint64)%N →
  ParseSwitchIntentTarget (it_String intent) = Ok intent ∧ it_NodeID intent = nodeID.
Proof.
  unfold sr_IntentTarget, NewSwitchIntentTarget. intros K Hle. do 4 ok_step K. injection K as <-. units. cbn [it_NodeID]. split; [|done]. apply intent_text.
  split_and!; [done|done|done|]. cbn. apply NextGeneration_ok in G0 as [Hm ->]. apply NextGeneration_ok in G1 as [Hm' ->]. lia.
Qed.

Lemma sublist_replaced operations index old new : operations !! index = Some old → open_switch new = false →
  switch_nodes (<[index := new]> operations) `sublist_of` switch_nodes operations.
Proof.
  intros Hi Hn. unfold switch_nodes. apply sublist_map. rewrite -{2}(take_drop_middle _ _ _ Hi) insert_take_drop; [by eapply lookup_lt_Some|].
  rewrite !filter_app !filter_cons. rewrite (decide_False (P:=open_switch new = true)); [by rewrite Hn|]. apply sublist_app; [done|].
  destruct (decide _); [by constructor|done].
Qed.

(** A change of the gateway: a switch request that is dispatched and recorded, or any other
    accepted transition, which may change operations but adds no switch. *)
Inductive gateway_step {W} (now : W → time * W) : State → State → Prop :=
  | switch_handled state request candidate result w w' index node record at_ final :
      switch_Dispatch now false state request w = (Ok (candidate, result), w') →
      record_result candidate index node record at_ = Recorded final → gateway_step now state final
  | other_change before after : accepted before after →
      (∀ o, o ∈ items (st_Operations after) → op_ID o ∉ op_ID <$> items (st_Operations before) → op_Type o ≠ OperationTransportSwitch) →
      gateway_step now before after.

Lemma open_switch_spec o : open_switch o = true ↔ op_Type o = OperationTransportSwitch ∧ terminalOperationState (op_State o) = false.
Proof. unfold open_switch, terminalOperationState. repeat case_bool_decide; cbn; naive_solver. Qed.

(** An open switch that a transition did not add was open before, with the same target. *)
Lemma open_before before after o' : accepted before after → o' ∈ items (st_Operations after) → open_switch o' = true →
  op_ID o' ∈ op_ID <$> items (st_Operations before) →
  ∃ o, o ∈ items (st_Operations before) ∧ op_ID o = op_ID o' ∧ open_switch o = true ∧ op_TargetID o = op_TargetID o'.
Proof.
  intros Ha Ho' [Ht Hopen]%open_switch_spec (o & Hid & Ho)%list_elem_of_fmap. destruct (operations_are_durable _ _ Ha) as (Hkept & Hfinished & _).
  destruct (terminalOperationState (op_State o)) eqn:Eo; [by rewrite (Hfinished o o' Ho Ho' Hid Eo) Eo in Hopen|].
  destruct (Hkept o Ho Eo) as (o'' & Ho'' & Hid'' & Hev). apply accepted_parts in Ha. destruct (valid_NoDup _ (tp_after _ _ Ha)) as (_ & _ & _ & Hnd).
  assert (o'' = o') as -> by (by eapply (NoDup_key_inj op_ID); [exact Hnd|done|done|congruence]).
  unfold validateOperationEvolution in Hev. ok_step Hev. facts. exists o. split_and!; [done|done| |done]. apply open_switch_spec. by split; [congruence|].
Qed.

Lemma other_change_exclusive before after : accepted before after →
  (∀ o, o ∈ items (st_Operations after) → op_ID o ∉ op_ID <$> items (st_Operations before) → op_Type o ≠ OperationTransportSwitch) →
  exclusive_switches before → exclusive_switches after.
Proof.
  intros Ha Hnew Hex. unfold exclusive_switches, switch_nodes in *. pose proof (accepted_parts _ _ Ha) as Hp.
  destruct (valid_NoDup _ (tp_after _ _ Hp)) as (_ & _ & _ & Hnd). apply NoDup_fmap_2_strong; [|by apply NoDup_filter, (NoDup_fmap_1 op_ID)].
  assert (Hold : ∀ o, o ∈ filter (λ o, open_switch o = true) (items (st_Operations after)) → ∃ o0,
    o0 ∈ filter (λ o, open_switch o = true) (items (st_Operations before)) ∧ op_ID o0 = op_ID o ∧ op_TargetID o0 = op_TargetID o).
  { intros o [Ho Hin]%list_elem_of_filter. destruct (decide (op_ID o ∈ op_ID <$> items (st_Operations before))) as [Hid|Hid].
    - destruct (open_before _ _ _ Ha Hin Ho Hid) as (o0 & Hin0 & Hid0 & Hopen0 & Ht). exists o0. by rewrite list_elem_of_filter.
    - by apply open_switch_spec in Ho as [Ht _]; destruct (Hnew o Hin Hid). }
  intros x y Hx Hy Heq. destruct (Hold x Hx) as (x0 & Hx0 & Hidx & Htx), (Hold y Hy) as (y0 & Hy0 & Hidy & Hty).
  assert (x0 = y0) as -> by (eapply (NoDup_key_inj _ _ _ _ Hex Hx0 Hy0); cbn; by rewrite Htx Hty).
  apply list_elem_of_filter in Hx as [_ Hx], Hy as [_ Hy]. by eapply (NoDup_key_inj op_ID); [exact Hnd|done|done|congruence].
Qed.

Lemma dispatch_exclusive {W} (now : W → time * W) state request candidate result w w' : decodes_uint64 → exclusive_switches state →
  switch_Dispatch now false state request w = (Ok (candidate, result), w') → exclusive_switches candidate.
Proof.
  unfold exclusive_switches, switch_Dispatch. intros Hdec Hex. destruct (negb _); [done|].
  destruct (validateDeferredTransportSwitchRequest state request) as [[[payload intent] node]|] eqn:Hq; [|done].
  apply request_ok in Hq as (Hv & _ & Hp & Hi & index & Hn). destruct (node_index_id _ _ _ _ Hn) as [Hid _]. destruct (sr_Action payload); [| |done]; intros Hd.
  - apply registration_ok in Hd as [operation Hr]. rewrite (rg_candidate _ _ _ _ _ _ _ _ Hr). destruct (registered_parts state (st_Generation state + 1) operation) as (_ & -> & _).
    destruct (rg_operation _ _ _ _ _ _ _ _ Hr) as (operationID & at_ & _ & ->). rewrite switch_nodes_snoc. destruct (open_switch _); [|by rewrite app_nil_r].
    cbn [op_TargetID switch_operation]. destruct (intent_readable _ _ _ Hi (Hdec _ _ Hp)) as [-> Hnode]. cbn [good]. apply NoDup_app. split_and!; [done| |apply NoDup_singleton].
    intros x Hx ->%list_elem_of_singleton. revert Hx. cbn. rewrite Hnode -Hid. apply no_open_switch_ok, Hr.
  - apply finalization_ok in Hd as [operation Hf]; [|done]. destruct (fz_operation _ _ _ _ _ _ _ _ Hf) as (i & at_ & Hi' & _ & _ & _ & ->).
    destruct (selected_parts state (st_Generation state + 1) (node_ID node) (sr_Current payload) (sr_Target payload) i (finished at_ operation)) as (_ & -> & _).
    eapply sublist_NoDup; [exact Hex|]. eapply sublist_replaced; [exact Hi'|]. unfold open_switch, finished. cbn. by rewrite andb_false_r.
Qed.

(** C29: along any history of dispatched switch requests and other accepted transitions that
    add no switch operation, which starts in a state where no node has two open switches,
    no node ever has two. *)
Theorem one_open_switch_per_node {W} (now : W → time * W) first last : decodes_uint64 →
  rtc (gateway_step now) first last → exclusive_switches first → exclusive_switches last.
Proof.
  intros Hdec. induction 1 as [|first next last Hstep _ IH]; [done|]. intros Hex. apply IH. destruct Hstep as [? ? ? ? ? ? ? ? ? ? ? Hd Hr|? ? Ha Hnew].
  - unfold record_result in Hr. destruct (StoreIdempotencyResult _ _ _) as [[[? ?] []]|]; [done| |done]. injection Hr as <-.
    exact (dispatch_exclusive _ _ _ _ _ _ _ Hdec Hex Hd).
  - by eapply other_change_exclusive.
Qed.
End dispatcher.

(** ** Witnesses *)

(** The payloads that ask for the switch of the samples, under their names. *)
Definition register_payload : DeferredSwitchRequest := MkDeferredSwitchRequest SwitchMutationRegister TransportStandard TransportRestricted 4 0 "".
Definition finalize_payload : DeferredSwitchRequest :=
  MkDeferredSwitchRequest SwitchMutationFinalize TransportStandard TransportRestricted 4 6 switch_operation_id.
#[export] Instance named_payloads : JSONValue DeferredSwitchRequest := {
  marshal payload := Ok (match sr_Action payload with SwitchMutationRegister => "{register}" | _ => "{finalize}" end);
  decode text := Ok (if String.eqb text "{register}" then register_payload else finalize_payload, AtEOF)
}.
#[export] Instance deferred_text : JSONValue DeferredSwitchReceipt := { marshal r := Ok (dsr_OperationID r); decode _ := Err EOF }.
#[export] Instance finalized_text : JSONValue FinalizedSwitchReceipt := { marshal r := Ok (fr_OperationID r); decode _ := Ok (finalized_receipt, AtEOF) }.

Definition switch_rpc (requestID : string) (generation : N) (payload : string) : RPCRequest :=
  MkRPCRequest 1 0 requestID generation (uuid "11") 1 (day 5) sample_nonce "transport-switch" payload.
Definition fifth_day (w : unit) : time * unit := (day 5, w).
Abbreviation registration_run := (switch_Dispatch fifth_day false (gateway_state 9 []) (switch_rpc switch_request 9 "{register}") ()).
Definition dispatched (run : result (State * NodeMutationResult) * unit) : State * NodeMutationResult :=
  match run.1 with Ok r => r | Err _ => (gateway_state 0 [], zero_mutation_result) end.
Definition registered_gateway : State := (dispatched registration_run).1.
Definition registration_answer : NodeMutationResult := (dispatched registration_run).2.

Lemma registration_dispatched : registration_run = (Ok (registered_gateway, registration_answer), ()).
Proof. by vm_compute. Qed.

Lemma registered_gateway_later : as_before registered_gateway registered_gateway (uuid "11") switch_operation_id.
Proof. by apply as_before_refl; vm_compute. Qed.

Lemma inserted_inj (k a b : string) (m m' : gmap string string) : Some (<[k:=a]> m) = Some (<[k:=b]> m') → a = b.
Proof. intros K. apply (inj Some) in K. apply (f_equal (λ m : gmap string string, m !! k)) in K. rewrite !lookup_insert_eq in K. by injection K. Qed.

Lemma registration_ids : rs_ResourceIDs (nm_Response registration_answer) = Some (<["operation_id" := switch_operation_id]> {["node_id" := uuid "11"]}).
Proof. by vm_compute. Qed.

Lemma dispatched_switch_reconciles_witness :
  switch_Reconcile false registered_gateway (switch_rpc switch_request 9 "{register}") () = (Ok (registration_answer, true), ()).
Proof.
  destruct (dispatched_switch_reconciles fifth_day (gateway_state 9 []) (switch_rpc switch_request 9 "{register}") _ _ () () registration_dispatched eq_refl)
    as (operationID & Hid & Hlater); [intros receipt; reflexivity|].
  assert (Hop : operationID = switch_operation_id).
  { exact (inserted_inj _ _ _ _ _ (eq_trans (eq_sym Hid) registration_ids)). }
  rewrite Hop in Hlater. destruct (Hlater registered_gateway () registered_gateway_later) as (result' & Hr & _ & He). rewrite Hr He; [|done]. by right.
Defined.

Definition switch_record : IdempotencyRecord :=
  MkIdempotencyRecord switch_request OperationTransportSwitch ResultPending sample_hash 10 (day 5).
Definition recorded_gateway : State :=
  match record_result registered_gateway 0 (gateway_node "11" "edge" "10.67.0.2") switch_record (day 5) with Recorded final => final | _ => registered_gateway end.

Lemma payloads_decode : decodes_uint64.
Proof.
  intros text payload Hp. unfold DecodeRPCPayload in Hp. ok_step Hp. unfold decodeStrictJSONWithDepth in Hp.
  apply wrap_ok, bind_ok in Hp as (_ & _ & Hp). destruct (tokens text) as [ts stop]. apply bind_ok in Hp as ([|] & _ & Hp); [|done]. destruct stop; [done|]. cbn in Hp. injection Hp as <-. by destruct (String.eqb _ _).
Qed.

Lemma registered_gateway_saved : record_result registered_gateway 0 (gateway_node "11" "edge" "10.67.0.2") switch_record (day 5) = Recorded recorded_gateway.
Proof. by vm_compute. Qed.

Lemma one_open_switch_per_node_witness : exclusive_switches recorded_gateway ∧ length (switch_nodes (items (st_Operations recorded_gateway))) = 1%nat.
Proof.
  split; [|vm_compute; reflexivity]. apply (one_open_switch_per_node fifth_day (gateway_state 9 [])).
  - exact payloads_decode.
  - eapply rtc_once, switch_handled; [exact registration_dispatched|exact registered_gateway_saved].
  - constructor.
Defined.
