(* ===== verification/SwitchRemote.v ===== *)
(** * The gateway as a node sees it ([internal/operations/transport_switch_rpc.go])

    The requests a node sends to register and to finalize a deferred switch, and what it
    makes of the answers: a receipt, or the mark of a replayed result from which the
    receipt is built again. *)

From S2P Require Import Prelude GoTime GoText GoNet GoConv Proc Types Checks Identity Expose Codec SwitchIntent SwitchState Rpc RpcServer Controller NodeMutation.

Local Open Scope string_scope.
Local Open Scope list_scope.

(** ** The gateway *)

Record RPCCallResult := MkRPCCallResult { cr_StatusCode : Z; cr_Response : RPCResponse }.

(** The management connection, the entropy of nonces and the clock. *)
Class RemoteCaller (W : Type) := {
  CallManagement : RPCRequest → W → result RPCCallResult * W;
  read_entropy : nat → W → result (list N) * W;
  remote_now : W → time * W
}.

Record RemoteTransportSwitchGateway := MkRemoteTransportSwitchGateway {
  rg_protocol : RPCProtocolVersion;
  rg_nodeID : string;
  rg_credentialGeneration : N;
  rg_lastKnownGeneration : N
}.

Definition NewRemoteTransportSwitchGateway (protocol : RPCProtocolVersion) (nodeID : string) (credentialGeneration lastKnownGeneration : N)
    : result RemoteTransportSwitchGateway :=
  reject ((pv_Major protocol <? 1)%Z || (pv_Minor protocol <? 0)%Z || negb (is_ok (ValidateResourceID nodeID)) || (credentialGeneration =? 0)%N
          || (lastKnownGeneration =? 0)%N) (Message "remote transport switch gateway identity is invalid");;
  Ok (MkRemoteTransportSwitchGateway protocol nodeID credentialGeneration lastKnownGeneration).

Inductive remote_event := ManagementCalled (request : RPCRequest) (r : result RPCCallResult).

(** An answer that is not a success. *)
Definition refused (response : RPCResponse) (failed : string) : error :=
  if String.eqb (rs_Category response) "conflict" || String.eqb (rs_Category response) "validation" then Sentinel ErrTransportSwitchStale
  else if String.eqb (rs_Category response) "unavailable" then Sentinel ErrTransportSwitchGatewayUnavailable
  else Message failed.

Definition is_success (answer : RPCCallResult) : bool :=
  (cr_StatusCode answer =? StatusOK)%Z && String.eqb (rs_Category (cr_Response answer)) "success".

Section remote.
Context `{!Sha256, !JSONTokens, !JSONValue (option (gmap string string)), !JSONValue DeferredSwitchRequest, !JSONValue DeferredSwitchReceipt,
          !JSONValue FinalizedSwitchReceipt, !JSONValue replay_data}.

(** The mark of a replayed result with the status. *)
Definition is_replay (data : string) (status : ResultStatus) : bool :=
  match DecodeRPCPayload (T:=replay_data) data with
  | Ok replay => rd_Replayed replay && bool_decide (rd_ResultStatus replay = status)
  | Err _ => false
  end.

(** ** Answers *)

Definition registration_receipt (gateway : RemoteTransportSwitchGateway) (current target : TransportKind) (expectedNodeGeneration : N)
    (intent : SwitchIntentTarget) (requestID operationID : string) (answer : RPCCallResult) : result DeferredSwitchReceipt :=
  let response := cr_Response answer in
  reject (negb (is_success answer)) (refused response "gateway transport switch registration failed");;
  reject (rs_AuthoritativeGeneration response =? 0)%N (Message "gateway transport switch response has no authoritative generation");;
  let replayed :=
    reject (negb (is_replay (rs_Data response) ResultPending)) (Message "gateway returned an invalid transport switch replay receipt");;
    desiredGatewayGeneration ← NextGeneration (rs_AuthoritativeGeneration response);
    let receipt := MkDeferredSwitchReceipt operationID requestID (rg_nodeID gateway) current target (rs_AuthoritativeGeneration response)
      desiredGatewayGeneration (it_ExpectedNodeGeneration intent) (it_DesiredNodeGeneration intent) in
    reject (negb (is_ok (dsr_Validate receipt))) (Message "gateway returned an invalid transport switch replay receipt");;
    Ok receipt in
  match DecodeRPCPayload (T:=DeferredSwitchReceipt) (rs_Data response) with
  | Ok receipt =>
      if String.eqb (dsr_OperationID receipt) "" then replayed else
      reject (negb (is_ok (dsr_Validate receipt)) || negb (String.eqb (dsr_OperationID receipt) operationID)
              || negb (String.eqb (dsr_RequestID receipt) requestID) || negb (String.eqb (dsr_NodeID receipt) (rg_nodeID gateway))
              || negb (bool_decide (dsr_Current receipt = current)) || negb (bool_decide (dsr_Target receipt = target))
              || negb (dsr_ExpectedNodeGeneration receipt =? expectedNodeGeneration)%N
              || (rs_AuthoritativeGeneration response <? dsr_GatewayGeneration receipt)%N)
        (Message "gateway returned an invalid transport switch receipt");;
      Ok receipt
  | Err _ => replayed
  end.

Definition finalization_receipt_of (gateway : RemoteTransportSwitchGateway) (operation : Operation) (current : TransportKind) (expectedGatewayGeneration : N)
    (intent : SwitchIntentTarget) (requestID : string) (answer : RPCCallResult) : result FinalizedSwitchReceipt :=
  let response := cr_Response answer in
  reject (negb (is_success answer)) (refused response "gateway transport switch finalization failed");;
  reject (rs_AuthoritativeGeneration response <=? expectedGatewayGeneration)%N
    (Message "gateway transport switch finalization did not advance authoritative generation");;
  let replayed :=
    reject (negb (is_replay (rs_Data response) ResultOK)) (Message "gateway returned an invalid transport switch finalization replay receipt");;
    let receipt := MkFinalizedSwitchReceipt (op_ID operation) requestID (rg_nodeID gateway) current (it_Target intent) expectedGatewayGeneration
      (rs_AuthoritativeGeneration response) (it_ExpectedNodeGeneration intent) (it_DesiredNodeGeneration intent) in
    reject (negb (is_ok (fr_Validate receipt))) (Message "gateway returned an invalid transport switch finalization replay receipt");;
    Ok receipt in
  match DecodeRPCPayload (T:=FinalizedSwitchReceipt) (rs_Data response) with
  | Ok receipt =>
      if String.eqb (fr_OperationID receipt) "" then replayed else
      reject (negb (is_ok (fr_Validate receipt)) || negb (String.eqb (fr_OperationID receipt) (op_ID operation))
              || negb (String.eqb (fr_RequestID receipt) requestID) || negb (String.eqb (fr_NodeID receipt) (rg_nodeID gateway))
              || negb (bool_decide (fr_Previous receipt = current)) || negb (bool_decide (fr_Active receipt = it_Target intent))
              || negb (fr_ExpectedGatewayGeneration receipt =? expectedGatewayGeneration)%N
              || negb (fr_GatewayGeneration receipt =? rs_AuthoritativeGeneration response)%N
              || negb (fr_ExpectedNodeGeneration receipt =? it_ExpectedNodeGeneration intent)%N
              || negb (fr_DesiredNodeGeneration receipt =? it_DesiredNodeGeneration intent)%N)
        (Message "gateway returned an invalid transport switch finalization receipt");;
      Ok receipt
  | Err _ => replayed
  end.

(** ** Requests *)

Definition management_request (gateway : RemoteTransportSwitchGateway) (requestID : string) (expectedStateGeneration : N) (at_ : time) (nonce : list N)
    (payload : string) : RPCRequest :=
  MkRPCRequest (pv_Major (rg_protocol gateway)) (pv_Minor (rg_protocol gateway)) requestID expectedStateGeneration (rg_nodeID gateway)
    (rg_credentialGeneration gateway) at_ (base64url_encode nonce) (OperationType_string OperationTransportSwitch) payload.

Context {W : Type} `{!RemoteCaller W}.

(** A nonce is drawn, the payload encoded, the clock read and the gateway called. *)
Definition send_switch (gateway : RemoteTransportSwitchGateway) (label : string) (requestID : string) (expectedStateGeneration : N)
    (payload : DeferredSwitchRequest) : proc W remote_event (result RPCCallResult) :=
  drawn ← call (read_entropy RPCNonceBytes) (λ _, []);
  match wrap label drawn with
  | Err e => mret (Err e)
  | Ok nonce =>
      match marshal payload with
      | Err e => mret (Err e)
      | Ok encoded =>
          at_ ← call remote_now (λ _, []);
          let request := management_request gateway requestID expectedStateGeneration (to_utc at_) nonce encoded in
          answer ← call (CallManagement request) (λ r, [ManagementCalled request r]);
          mret (match answer with Ok a => Ok a | Err _ => Err (Sentinel ErrTransportSwitchGatewayUnavailable) end)
      end
  end.

Definition RegisterDeferred (gateway : RemoteTransportSwitchGateway) (current target : TransportKind) (expectedNodeGeneration : N)
    : proc W remote_event (result DeferredSwitchReceipt) :=
  let payload := MkDeferredSwitchRequest SwitchMutationRegister current target expectedNodeGeneration 0 "" in
  let identity :=
    intent ← sr_IntentTarget payload (rg_nodeID gateway);
    requestID ← SwitchRequestID intent current (rg_lastKnownGeneration gateway);
    operationID ← SwitchOperationID requestID;
    Ok (intent, requestID, operationID) in
  match identity with
  | Err e => mret (Err e)
  | Ok (intent, requestID, operationID) =>
      sent ← send_switch gateway "generate transport switch RPC nonce" requestID (rg_lastKnownGeneration gateway) payload;
      mret (answer ← sent; registration_receipt gateway current target expectedNodeGeneration intent requestID operationID answer)
  end.

Definition FinalizeDeferred (gateway : RemoteTransportSwitchGateway) (operation : Operation) (current : TransportKind) (expectedGatewayGeneration : N)
    : proc W remote_event (result FinalizedSwitchReceipt) :=
  match ParseSwitchIntentTarget (op_TargetID operation) with
  | Err _ => mret (Err (Sentinel ErrTransportSwitchStale))
  | Ok intent =>
      if negb (bool_decide (op_Type operation = OperationTransportSwitch)) || negb (String.eqb (op_TargetKind operation) "transport")
         || negb (bool_decide (op_State operation = OperationPending)) || String.eqb (op_ID operation) ""
         || negb (String.eqb (it_NodeID intent) (rg_nodeID gateway)) || (expectedGatewayGeneration =? 0)%N
      then mret (Err (Sentinel ErrTransportSwitchStale)) else
      let payload := MkDeferredSwitchRequest SwitchMutationFinalize current (it_Target intent) (it_ExpectedNodeGeneration intent)
        (it_DesiredNodeGeneration intent) (op_ID operation) in
      let identity :=
        requestID ← SwitchFinalizeRequestID (op_ID operation) (it_DesiredNodeGeneration intent) expectedGatewayGeneration;
        sr_ValidateFinalization payload (rg_nodeID gateway) expectedGatewayGeneration requestID;;
        Ok requestID in
      match identity with
      | Err e => mret (Err e)
      | Ok requestID =>
          sent ← send_switch gateway "generate transport switch finalization RPC nonce" requestID expectedGatewayGeneration payload;
          mret (answer ← sent; finalization_receipt_of gateway operation current expectedGatewayGeneration intent requestID answer)
      end
  end.

(** [None] when the gateway does not prove that the switch is complete. *)
Definition ReconcileDeferred (gateway : RemoteTransportSwitchGateway) (operation : Operation) (current : TransportKind)
    : proc W remote_event (result (option FinalizedSwitchReceipt)) :=
  if (op_ExpectedGeneration operation =? 0)%N then mret (Err (Sentinel ErrTransportSwitchStale)) else
  receipt ← FinalizeDeferred gateway operation current (op_ExpectedGeneration operation);
  mret (match receipt with
    | Ok receipt => Ok (Some receipt)
    | Err e => if errors_is e ErrTransportSwitchStale then Ok None else Err e
    end).
End remote.
