(* ===== verification/SwitchAgreement.v ===== *)
(** * Both ends of a deferred switch agree

    The node, the gateway and the messages between them: when the gateway saved the
    finalization a node asked for, it selects the target, the node accepts the receipt it is
    sent, and the node then selects the same target.  The nonce of a request is one the
    gateway accepts. *)

From S2P Require Import Prelude GoTime GoText GoNet GoConv Proc Types Checks Identity Address Expose Idempotency Resources StateValidate Codec Samples StateFacts Operation Transition NodeOperation SwitchIntent SwitchState SwitchFacts DeferredFacts Rpc RpcServer RpcSamples Controller ControllerFacts NodeMutation NodeMutationFacts SwitchMutation SwitchMutationFacts SwitchRemote.

Local Open Scope string_scope.
Local Open Scope list_scope.

(** ** Nonces *)

Lemma base64url_inverse v : (v < 64)%N → base64url_value (base64url_char v) = Some v.
Proof.
  intros Hv. assert (Hall : forallb (λ n, bool_decide (base64url_value (base64url_char (N.of_nat n)) = Some (N.of_nat n))) (seq 0 64) = true) by by vm_compute.
  rewrite forallb_forall in Hall. specialize (Hall (N.to_nat v)). rewrite N2Nat.id in Hall. eapply bool_decide_eq_true_1, Hall. apply in_seq. lia.
Qed.

Ltac digits := zify; Z.to_euclidean_division_equations; lia.

Lemma sextets a b c : (a < 256 → b < 256 → c < 256 →
  (a / 4 < 64 ∧ (a mod 4) * 16 + b / 16 < 64 ∧ (b mod 16) * 4 + c / 64 < 64 ∧ c mod 64 < 64) ∧
  a / 4 * 4 + ((a mod 4) * 16 + b / 16) / 16 = a ∧ ((a mod 4) * 16 + b / 16) mod 16 * 16 + ((b mod 16) * 4 + c / 64) / 4 = b ∧
  ((b mod 16) * 4 + c / 64) mod 4 * 64 + c mod 64 = c)%N.
Proof. intros Ha Hb Hc. split_and!; digits. Qed.

Lemma last_sextets a b : (a < 256 → b < 256 →
  ((a mod 4) * 16 < 64 ∧ (b mod 16) * 4 < 64) ∧ ((a mod 4) * 16) mod 16 = 0 ∧ ((b mod 16) * 4) mod 4 = 0 ∧
  a / 4 * 4 + (a mod 4) * 16 / 16 = a ∧ ((a mod 4) * 16 + b / 16) mod 16 * 16 + (b mod 16) * 4 / 4 = b)%N.
Proof. intros Ha Hb. split_and!; digits. Qed.

Lemma base64url_decode_encode bs : Forall (λ b, b < 256)%N bs → base64url_decode (base64url_encode bs) = Some bs.
Proof.
  assert (Hind : ∀ (n : nat) (bs : list N), (List.length bs ≤ n)%nat → Forall (λ b, b < 256)%N bs → base64url_decode (base64url_encode bs) = Some bs); [|eauto].
  clear bs. intros n. induction n as [|n IH]; intros [|a [|b [|c rest]]] Hlen Hb; try done; try (cbn in Hlen; lia).
  - apply Forall_cons in Hb as [Ha _]. destruct (last_sextets a 0 Ha eq_refl) as ((? & _) & Hz & _ & Hd & _). destruct (sextets a 0 0 Ha eq_refl eq_refl) as ((? & _) & _).
    cbn -[N.div N.modulo base64url_value base64url_char].
    rewrite !base64url_inverse //. cbn -[N.div N.modulo]. by rewrite Hz Hd.
  - apply Forall_cons in Hb as [Ha [Hb _]%Forall_cons]. destruct (last_sextets a b Ha Hb) as ((_ & ?) & _ & Hz & _ & Hd). destruct (sextets a b 0 Ha Hb eq_refl) as ((? & ? & _) & He & _).
    cbn -[N.div N.modulo base64url_value base64url_char]. rewrite !base64url_inverse //. cbn -[N.div N.modulo]. by rewrite Hz He Hd.
  - apply Forall_cons in Hb as [Ha [Hb [Hc Hr]%Forall_cons]%Forall_cons]. destruct (sextets a b c Ha Hb Hc) as ((? & ? & ? & ?) & He1 & He2 & He3).
    cbn -[N.div N.modulo base64url_value base64url_char]. rewrite !base64url_inverse //. cbn -[N.div N.modulo]. rewrite IH; [cbn in Hlen; lia|done|]. cbn -[N.div N.modulo].
    by rewrite He1 He2 He3.
Qed.

(** A request of a node passes the checks of the gateway. *)
Lemma management_request_valid `{!JSONTokens, !JSONValue (option (gmap string string))} gateway requestID expected at_ nonce payload :
  (1 ≤ pv_Major (rg_protocol gateway))%Z → (0 ≤ pv_Minor (rg_protocol gateway))%Z → ValidateResourceID (rg_nodeID gateway) = Ok () → rg_credentialGeneration gateway ≠ 0%N →
  ValidateResourceID requestID = Ok () → IsZero at_ = false → length nonce = RPCNonceBytes → Forall (λ b, b < 256)%N nonce →
  payload ≠ "" → (String.length payload ≤ RPCMaximumRequestBytes)%nat → validateJSONObject payload = Ok () →
  rpc_Validate (management_request gateway requestID expected at_ nonce payload) = Ok ().
Proof.
  intros Hmaj Hmin Hn Hc Hr Ht Hlen Hb Hp Hl Hj. unfold rpc_Validate, management_request.
  cbn [rq_Payload rq_ProtocolMajor rq_ProtocolMinor rq_RequestID rq_NodeID rq_CredentialGeneration rq_Timestamp rq_Nonce rq_Operation].
  unfold ValidateResourceID, validateUUID in Hn, Hr. apply reject_ok, negb_false_iff in Hn, Hr.
  rewrite (proj2 (String.eqb_neq _ _) Hp) (proj2 (Nat.ltb_ge _ _) Hl) (proj2 (Z.ltb_ge _ _) Hmaj) (proj2 (Z.ltb_ge _ _) Hmin) Hr Hn (proj2 (N.eqb_neq _ _) Hc) Ht.
  unfold canonical_base64url. rewrite base64url_decode_encode // bool_decide_eq_true_2 //. cbn [negb orb reject mbind result_bind]. by rewrite Hj.
Qed.

(** ** What the handler dispatched *)

Section handler.
Context `{!Sha256, !JSONTokens, !JSONValue (option (gmap string string)), !JSONValue hash_material, !JSONValue replay_data}.
Context {W : Type} `{!ControllerStateStore W, !PassiveObserver W, !ControllerClock W}.

Definition dispatched_by (dispatcher : NodeMutationDispatcher W) (e : mutation_event) : Prop :=
  match e with NodeDispatched state request r => ∃ w w', nd_Dispatch dispatcher state request w = (r, w') | _ => True end.

(** Programs whose dispatches are those of the dispatcher. *)
Definition honest (dispatcher : NodeMutationDispatcher W) {A} (m : mutation_run (W:=W) A) : Prop := ∀ c, wp m c (λ _ es _, Forall (dispatched_by dispatcher) es).

Lemma honest_ret dispatcher {A} (a : A) : honest dispatcher (mret a).
Proof. intros c. by apply wp_ret. Qed.
Lemma honest_bind dispatcher {A B} (m : mutation_run (W:=W) A) (f : A → mutation_run (W:=W) B) : honest dispatcher m → (∀ a, honest dispatcher (f a)) → honest dispatcher (m ≫= f).
Proof.
  intros Hm Hf c. apply wp_bind. eapply wp_mono; [apply Hm|]. intros a es c' Hes. eapply wp_mono; [apply Hf|]. intros b es' c'' Hes'. by apply Forall_app_2.
Qed.
Lemma honest_controller dispatcher {A} (m : run W A) : honest dispatcher (tagged ControllerCall m).
Proof. intros c. apply wp_tagged, wp_intro. intros a es c' _. apply Forall_fmap, Forall_true. done. Qed.
Lemma honest_dispatch dispatcher state request : honest dispatcher (dispatcher_call (nd_Dispatch dispatcher state request) (NodeDispatched state request)).
Proof. intros c. apply wp_dispatcher. intros r w Hr. constructor; [by eexists _, _|constructor]. Qed.
Lemma honest_reconcile dispatcher state request : honest dispatcher (dispatcher_call (nd_Reconcile dispatcher state request) (NodeReconciled state request)).
Proof. intros c. apply wp_dispatcher. intros r w Hr. by repeat constructor. Qed.

Lemma handler_honest dispatcher cancelled request : honest dispatcher (node_HandleRPC dispatcher cancelled request).
Proof.
  unfold node_HandleRPC, answer_in_state, commit_mutation, reconcileEvicted, fail_with.
  repeat first [apply honest_ret|apply honest_controller|apply honest_dispatch|apply honest_reconcile|apply honest_bind; [|intros ?]|case_match].
Qed.

(** What was saved for a request, with the dispatch it came from. *)
Lemma saved_dispatch (dispatcher : NodeMutationDispatcher W) cancelled request c first es c' generation final :
  node_HandleRPC dispatcher cancelled request c = (Ok first, es, c') → ControllerCall (StateCall (StateSaved generation final (Ok ()))) ∈ es →
  ∃ state w w' now candidate outcome response index node, nd_Dispatch dispatcher state request w = (Ok (candidate, outcome), w') ∧
    rq_ExpectedStateGeneration request = st_Generation state ∧ normalizeMutationResult request (st_Generation candidate) outcome = Ok response ∧
    node_index (rq_NodeID request) candidate = Some (index, node) ∧
    final = with_record candidate index node (record_of request outcome response candidate now) now ∧ first = answered response.
Proof.
  intros Hrun Hin. pose proof (wp_run _ _ _ _ _ _ (handler_honest dispatcher cancelled request c) Hrun) as Hall. rewrite Forall_forall in Hall.
  destruct (node_mutation_script_holds dispatcher cancelled request c _ _ _ Hrun) as (result & [= <-] & Hh). apply saved_in_steps in Hin.
  assert (Hsub : ∀ e, e ∈ mutation_steps es → e ∈ es) by (intros e [_ ?]%list_elem_of_filter; done).
  destruct Hh; rewrite ?elem_of_cons in Hin; try (exfalso; set_solver).
  destruct Hin as [?|[?|[Heq|?]]]; [done|done| |set_solver]. injection Heq as -> -> <-.
  destruct (Hall (NodeDispatched state request (Ok (candidate, outcome)))) as (w & w' & Hd); [apply Hsub; set_solver|].
  by exists state, w, w', now, candidate, outcome, response, index, node.
Qed.
End handler.

(** ** The finalization as both ends see it *)

Section agreement.
Context `{!Sha256, !JSONTokens, !JSONValue (option (gmap string string)), !JSONValue hash_material, !JSONValue replay_data, !JSONValue DeferredSwitchRequest,
          !JSONValue DeferredSwitchReceipt, !JSONValue FinalizedSwitchReceipt}.

(** A valid payload and a valid receipt are read as they were written. *)
Definition payload_codec : Prop := ∀ payload nodeID generation requestID text,
  is_ok (sr_ValidateFinalization payload nodeID generation requestID) = true → marshal payload = Ok text → DecodeRPCPayload text = Ok payload.
Definition receipt_codec : Prop := ∀ (receipt : FinalizedSwitchReceipt) text, fr_Validate receipt = Ok () → marshal receipt = Ok text → DecodeRPCPayload text = Ok receipt.

Definition finalize_request_payload (operation : Operation) (current : TransportKind) (intent : SwitchIntentTarget) : DeferredSwitchRequest :=
  MkDeferredSwitchRequest SwitchMutationFinalize current (it_Target intent) (it_ExpectedNodeGeneration intent) (it_DesiredNodeGeneration intent) (op_ID operation).

(** What a node asked for that got a receipt. *)
Lemma finalize_run {W} `{!RemoteCaller W} gateway operation current expected (w : W) receipt request answer w' :
  FinalizeDeferred gateway operation current expected w = (Ok receipt, [ManagementCalled request (Ok answer)], w') →
  ∃ intent text, ParseSwitchIntentTarget (op_TargetID operation) = Ok intent ∧ it_NodeID intent = rg_nodeID gateway ∧
    is_ok (sr_ValidateFinalization (finalize_request_payload operation current intent) (rg_nodeID gateway) expected (rq_RequestID request)) = true ∧
    marshal (finalize_request_payload operation current intent) = Ok text ∧ rq_Payload request = text ∧ rq_NodeID request = rg_nodeID gateway ∧
    rq_ExpectedStateGeneration request = expected ∧
    finalization_receipt_of gateway operation current expected intent (rq_RequestID request) answer = Ok receipt.
Proof.
  unfold FinalizeDeferred. destruct (ParseSwitchIntentTarget (op_TargetID operation)) as [intent|] eqn:Hp; [|done].
  destruct (_ || _) eqn:Hc; [done|]. rewrite !orb_false_iff !negb_false_iff in Hc. destruct Hc as (((_ & _) & Hn) & _). apply String.eqb_eq in Hn.
  fold (finalize_request_payload operation current intent). destruct (SwitchFinalizeRequestID _ _ _) as [requestID|]; [|done]. cbn [mbind result_bind].
  destruct (sr_ValidateFinalization _ _ _ _) as [intent'|] eqn:Hv; [|done]. cbn [mbind result_bind]. unfold send_switch, mbind, proc_bind, call.
  destruct (read_entropy RPCNonceBytes w) as [[nonce|e] w1]; cbn [wrap]; [|done]. destruct (marshal (finalize_request_payload operation current intent)) as [text|] eqn:Hm; [|done].
  destruct (remote_now w1) as [at_ w2]. destruct (CallManagement _ w2) as [[a|e] w3]; intros [= Hr <- <- <-].
  exists intent, text. cbn [rq_RequestID rq_Payload rq_NodeID rq_ExpectedStateGeneration management_request]. rewrite Hv. done.
Qed.

(** A receipt the node took is one the gateway sent, about the operation it asked for. *)
Lemma taken_receipt gateway operation current expected intent requestID answer receipt sent : ValidateResourceID (fr_OperationID sent) = Ok () →
  DecodeRPCPayload (rs_Data (cr_Response answer)) = Ok sent → finalization_receipt_of gateway operation current expected intent requestID answer = Ok receipt →
  receipt = sent ∧ fr_Validate receipt = Ok () ∧ fr_OperationID receipt = op_ID operation ∧ fr_NodeID receipt = rg_nodeID gateway ∧ fr_Previous receipt = current ∧
  fr_Active receipt = it_Target intent ∧ fr_ExpectedNodeGeneration receipt = it_ExpectedNodeGeneration intent ∧ fr_DesiredNodeGeneration receipt = it_DesiredNodeGeneration intent.
Proof.
  intros Hid Hd. unfold finalization_receipt_of. rewrite Hd. intros K. ok_step K. ok_step K. destruct (String.eqb_spec (fr_OperationID sent) "") as [He|_].
  { by rewrite He in Hid. }
  ok_step K. injection K as <-. facts. apply is_ok_true in H1 as [[] ?]. done.
Qed.

(** What the gateway sent when it saved a finalization. *)
Lemma finalized_answer {W} (now : W → time * W) state request payload intent w w1 candidate outcome response :
  switch_Dispatch now false state request w = (Ok (candidate, outcome), w1) → DecodeRPCPayload (rq_Payload request) = Ok payload → sr_Action payload = SwitchMutationFinalize →
  sr_IntentTarget payload (rq_NodeID request) = Ok intent → receipt_codec → normalizeMutationResult request (st_Generation candidate) outcome = Ok response →
  ∃ sent index node, DecodeRPCPayload (rs_Data response) = Ok sent ∧ ValidateResourceID (fr_OperationID sent) = Ok () ∧ fr_GatewayGeneration sent = st_Generation candidate ∧
    node_index (rq_NodeID request) candidate = Some (index, node) ∧ selected candidate node (sr_Target payload) (sr_Current payload).
Proof.
  intros Hd Hp Ha Hi Hcodec Hn. unfold switch_Dispatch in Hd. destruct (negb _); [done|].
  destruct (validateDeferredTransportSwitchRequest state request) as [[[payload' intent'] node]|] eqn:Hq; [|done].
  apply request_ok in Hq as (Hv & _ & Hp' & Hi' & index & Hnode). rewrite Hp in Hp'. injection Hp' as <-. rewrite Hi in Hi'. injection Hi' as <-. rewrite Ha in Hd.
  apply finalization_ok in Hd as [operation Hf]; [|done]. destruct (finalized_operation _ _ _ _ _ _ _ _ Hf) as (j & at_ & _ & Hc). destruct (node_index_id _ _ _ _ Hnode) as [Hid _].
  pose proof (fz_result _ _ _ _ _ _ _ _ Hf) as Hres. unfold finalizedTransportSwitchMutationResult in Hres. apply bind_ok in Hres as ([] & Hrv & Hres).
  apply bind_ok in Hres as (text & Hm & [= <-]). assert (Hdec := Hcodec _ _ Hrv Hm).
  assert (Hdata : rs_Data response = text).
  { assert (Hne : text ≠ "") by (intros ->; by vm_compute in Hdec).
    unfold normalizeMutationResult in Hn. ok_inv Hn. injection Hn as <-. cbn. unfold or_object. rewrite !(proj2 (String.eqb_neq _ _) Hne) //. }
  eexists _, index, (switch_node (node_ID node) (sr_Target payload) node). rewrite Hdata. split; [exact Hdec|].
  split; [by unfold fr_Validate in Hrv; ok_step Hrv; units|]. split; [by rewrite Hc|]. rewrite Hc -Hid. split; [by apply selected_node; rewrite Hid|].
  apply reselected; [done|by apply fz_selected in Hf|by apply (intent_of _ _ _ Hi)].
Qed.

Lemma recorded_selection candidate index node record now nodeID target current : node_index nodeID candidate = Some (index, node) →
  selected candidate node target current → let final := with_record candidate index node record now in
  st_Generation final = st_Generation candidate ∧ ∃ node', node_index nodeID final = Some (index, node') ∧ selected final node' target current.
Proof.
  intros Hi Hs final. destruct (node_index_id _ _ _ _ Hi) as [Hid _]. split; [done|]. eexists. split.
  - unfold node_index, final, with_record. cbn. by eapply list_find_replace.
  - by destruct Hs as [? ? ? ? ? ?].
Qed.

(** C27: when a node got a receipt for a finalization the gateway saved, the gateway selects
    the target, and the node, as long as it still awaits the switch, its clock is not behind
    and it knows no later generation, accepts the receipt and then selects the same target;
    the receipt names the generation that was saved. *)
Theorem deferred_switch_agrees {W V} `{!ControllerStateStore W, !PassiveObserver W, !ControllerClock W, !RemoteCaller V} (now : W → time * W) gateway operation current
    expected (v : V) receipt request first v' cancelled c es c' generation final :
  payload_codec → receipt_codec →
  FinalizeDeferred gateway operation current expected v =
    (Ok receipt, [ManagementCalled request (Ok (MkRPCCallResult (hr_StatusCode first) (hr_Response first)))], v') →
  node_HandleRPC (TransportSwitchMutationDispatcher now false) cancelled request c = (Ok first, es, c') →
  ControllerCall (StateCall (StateSaved generation final (Ok ()))) ∈ es →
  ∃ intent, ParseSwitchIntentTarget (op_TargetID operation) = Ok intent ∧
    (∃ index node, node_index (it_NodeID intent) final = Some (index, node) ∧ selected final node (it_Target intent) current) ∧
    fr_GatewayGeneration receipt = st_Generation final ∧
    ∀ state node trust at_, Validate state = Ok () → awaits state operation intent node → node_ActiveTransport node = current →
      enrolled_node state = Some (node, trust) → (gw_LastKnownGatewayGeneration trust ≤ st_Generation final)%N →
      Forall (can_finish (to_utc at_)) (items (op_Steps operation)) → in_time operation (to_utc at_) →
      ∃ after completed, FinalizeDeferredSwitchNodeState state operation receipt at_ = Ok (after, completed) ∧
        node_ActiveTransport <$> head (items (st_Nodes after)) = Some (it_Target intent).
Proof.
  intros Hpc Hrc Hf Hh Hsaved. apply finalize_run in Hf as (intent & text & Hp & Hnode & Hv & Hm & Hreq & Hid & Hexp & Hr).
  destruct (saved_dispatch _ _ _ _ _ _ _ _ _ Hh Hsaved) as (state & w & w' & at_ & candidate & outcome & response & index & node & Hd & _ & Hn & Hi & -> & ->).
  assert (Hdec := Hpc _ _ _ _ _ Hv Hm). rewrite -Hreq in Hdec. set (payload := finalize_request_payload operation current intent) in *.
  destruct (is_ok_true (sr_ValidateFinalization payload (rg_nodeID gateway) expected (rq_RequestID request))) as [Hok _]. destruct (Hok Hv) as [intent' Hint].
  assert (Hi' : sr_IntentTarget payload (rq_NodeID request) = Ok intent').
  { rewrite Hid. unfold sr_ValidateFinalization in Hint. destruct (sr_IntentTarget payload (rg_nodeID gateway)) as [i|]; [|done]. ok_step Hint. ok_step Hint.
    destruct (SwitchFinalizeRequestID _ _ _); [|done]. ok_step Hint. exact Hint. }
  destruct (finalized_answer now state request payload intent' w w' candidate outcome response Hd Hdec eq_refl Hi' Hrc Hn) as (sent & j & n & Hsent & Hsid & Hgen & Hni & Hsel).
  rewrite Hi in Hni. injection Hni as <- <-. destruct (recorded_selection _ _ _ (record_of request outcome response candidate at_) at_ _ _ _ Hi Hsel) as (Hg & n' & Hn' & Hsel').
  destruct (taken_receipt _ _ _ _ _ _ (MkRPCCallResult (hr_StatusCode (answered response)) response) _ _ Hsid Hsent Hr) as (-> & Hrv & H1 & H2 & H3 & H4 & H5 & H6).
  exists intent. split; [done|]. split; [exists index, n'; by rewrite Hnode -Hid|]. split; [by rewrite Hgen Hg|].
  intros s node' trust clock Hs Haw Hcur He Hknown Hcan Htime. destruct (retained_at s operation intent node' trust Hs Haw He) as (_ & i & Hfi & _).
  apply list_find_Some in Hfi as (Hop & _ & _). set (completed := finished (to_utc clock) operation).
  assert (Hfin : FinalizeDeferredSwitchNodeState s operation sent clock = Ok (finalized s node' trust (it_Target intent) (fr_GatewayGeneration sent) i completed, completed)).
  { apply finalize_iff; [done|]. split; [done|]. exists intent, node', trust, i. split_and!; try done. unfold receipt_matches.
    rewrite H1 H2 H3 H4 H5 H6 Hgen -Hg -Hnode (aw_node _ _ _ _ Haw). done. }
  eexists _, _. split; [exact Hfin|reflexivity].
Qed.
End agreement.

(** ** Witness *)

#[export] Instance DeferredSwitchRequest_eq_dec : EqDecision DeferredSwitchRequest.
Proof. solve_decision. Defined.
#[export] Instance FinalizedSwitchReceipt_eq_dec : EqDecision FinalizedSwitchReceipt.
Proof. solve_decision. Defined.

(** A codec of one payload and one receipt. *)
#[local] Instance exact_payload : JSONValue DeferredSwitchRequest := {
  marshal payload := if bool_decide (payload = finalize_payload) then Ok "{payload}" else Err EOF;
  decode _ := Ok (finalize_payload, AtEOF)
}.
#[local] Instance exact_receipt : JSONValue FinalizedSwitchReceipt := {
  marshal receipt := if bool_decide (receipt = finalized_receipt) then Ok "{receipt}" else Err EOF;
  decode _ := Ok (finalized_receipt, AtEOF)
}.

(** The node calls the gateway directly. *)
Abbreviation switch_dispatcher := (TransportSwitchMutationDispatcher (λ w : State, (day 5, w)) false).
#[local] Instance direct_caller : RemoteCaller (Controller State) := {
  CallManagement request c :=
    let '(r, _, c') := node_HandleRPC switch_dispatcher false request c in ((λ h, MkRPCCallResult (hr_StatusCode h) (hr_Response h)) <$> r, c');
  read_entropy n w := (Ok (replicate n 7%N), w);
  remote_now w := (day 5, w)
}.

Definition remote_gateway : RemoteTransportSwitchGateway := MkRemoteTransportSwitchGateway (MkRPCProtocolVersion 1 0) (uuid "11") 1 12.
Definition waiting_gateway : Controller State := idle_controller (gateway_state 12 [retained_operation]).
Definition finalize_rpc : RPCRequest :=
  management_request remote_gateway (fr_RequestID finalized_receipt) 12 (to_utc (day 5)) (replicate 16 7%N) "{payload}".
Abbreviation finalizing_run := (node_HandleRPC switch_dispatcher false finalize_rpc waiting_gateway).
Definition finalized_answer_sample : RPCHandlerResult :=
  match finalizing_run.1.1 with Ok result => result | Err _ => mutationFailure finalize_rpc 0 "" 0 "" "" end.
Definition finalized_gateway : State := ctl_host finalizing_run.2.

Lemma finalizing_run_ok : finalizing_run = (Ok finalized_answer_sample, finalizing_run.1.2, finalizing_run.2).
Proof. by vm_compute. Qed.

Lemma finalizing_saved : finalizing_run.1.2 !! 2%nat = Some (ControllerCall (StateCall (StateSaved 12 finalized_gateway (Ok ())))).
Proof. by vm_compute. Qed.

Lemma finalize_deferred_run : ∃ c, FinalizeDeferred remote_gateway retained_operation TransportStandard 12 waiting_gateway =
  (Ok finalized_receipt, [ManagementCalled finalize_rpc (Ok (MkRPCCallResult (hr_StatusCode finalized_answer_sample) (hr_Response finalized_answer_sample)))], c).
Proof. eexists. vm_compute. reflexivity. Qed.

Lemma codecs_exact : payload_codec ∧ receipt_codec.
Proof.
  split.
  - intros payload nodeID generation requestID text _ Hm. cbn in Hm. case_bool_decide as Hp; [|done]. injection Hm as <-. subst payload. by vm_compute.
  - intros receipt text _ Hm. cbn in Hm. case_bool_decide as Hp; [|done]. injection Hm as <-. subst receipt. by vm_compute.
Qed.

Lemma deferred_switch_agrees_witness : fr_GatewayGeneration finalized_receipt = st_Generation finalized_gateway ∧
  ∃ index node, node_index (uuid "11") finalized_gateway = Some (index, node) ∧ node_ActiveTransport node = TransportRestricted.
Proof.
  destruct codecs_exact as [Hpc Hrc]. destruct finalize_deferred_run as [c Hf].
  destruct (deferred_switch_agrees (λ w : State, (day 5, w)) remote_gateway retained_operation TransportStandard 12 waiting_gateway _ _ _ _ false waiting_gateway _ _ 12%N finalized_gateway
    Hpc Hrc Hf finalizing_run_ok (list_elem_of_lookup_2 _ _ _ finalizing_saved)) as (intent & Hp & (index & node & Hn & Hs) & Hg & _).
  assert (Hi : intent = sample_intent_target) by (vm_compute in Hp; injection Hp as <-; reflexivity). subst intent.
  split; [exact Hg|]. exists index, node. split; [exact Hn|exact (sd_current _ _ _ _ Hs)].
Defined.
