(* ===== verification/Store.v ===== *)
(** * The state store ([internal/store/state.go])

    The authoritative state is one file, replaced by compare-and-swap on the generation.
    The directory is modelled with what is durable and what is only in memory, so that a
    crash can be placed after every call: file contents survive once synced, directory
    operations once the directory is synced, and before that any subset of them may have
    reached the disk.  Every call may fail. *)

From S2P Require Import Prelude GoTime Proc GoText GoNet Types Checks Resources StateValidate Codec Identity Operation Transition.

Local Open Scope string_scope.
Local Open Scope list_scope.

(** ** Files *)

(** A file: whether it is a regular file, its bytes, and whether they are on the disk. *)
Record inode := MkInode { in_regular : bool; in_bytes : string; in_synced : bool }.

(** Operations on the entries of the directory; a rename is one operation. *)
Inductive dir_op :=
  | Link (name : string) (i : N)
  | Move (from to : string) (i : N)
  | Unlink (name : string).

Definition apply_op (dir : gmap string N) (op : dir_op) : gmap string N :=
  match op with
  | Link name i => <[name := i]> dir
  | Move from to i => <[to := i]> (delete from dir)
  | Unlink name => delete name dir
  end.

(** The state directory: whether it is a real directory, its files, the entries as
    processes see them, the entries on the disk and the operations in between. *)
Record disk := MkDisk {
  dk_real : bool;
  dk_inodes : gmap N inode;
  dk_dir : gmap string N;
  dk_durable : gmap string N;
  dk_pending : list dir_op;
  dk_next : N
}.

Definition file_at (d : disk) (name : string) : option inode := i ← dk_dir d !! name; dk_inodes d !! i.

Definition enter (op : dir_op) (d : disk) : disk :=
  MkDisk (dk_real d) (dk_inodes d) (apply_op (dk_dir d) op) (dk_durable d) (dk_pending d ++ [op]) (dk_next d).
Definition set_inode (i : N) (f : inode) (d : disk) : disk :=
  MkDisk (dk_real d) (<[i := f]> (dk_inodes d)) (dk_dir d) (dk_durable d) (dk_pending d) (dk_next d).

(** A crash: some of the pending operations reached the disk, in their order, and the bytes
    of files that were not synced are unknown. *)
Definition crashes (d d' : disk) : Prop :=
  ∃ kept, sublist kept (dk_pending d) ∧
    dk_dir d' = foldl apply_op (dk_durable d) kept ∧ dk_durable d' = dk_dir d' ∧ dk_pending d' = [] ∧
    dk_real d' = dk_real d ∧ dk_next d' = dk_next d ∧
    ∀ i, match dk_inodes d !! i with
         | None => dk_inodes d' !! i = None
         | Some f => ∃ f', dk_inodes d' !! i = Some f' ∧ in_regular f' = in_regular f ∧ in_synced f' = true ∧
                      (in_synced f = true → in_bytes f' = in_bytes f)
         end.

(** ** Calls

    The world is the disk and the failures to come; a failing write leaves the bytes it
    names.  The disk after every call is logged. *)
Definition fault : Type := option (error * string).
Record host := MkHost { ho_disk : disk; ho_faults : list fault }.
Definition on_disk (A : Type) : Type := proc host disk A.

(** A call with its effect and its effect when it fails. *)
Definition attempt {A} (run : disk → result A * disk) (failing : string → disk → disk) : on_disk (result A) := λ h,
  let '(f, rest) := match ho_faults h with [] => (None, []) | f :: rest => (f, rest) end in
  let '(a, d) := match f with Some (e, torn) => (Err e, failing torn (ho_disk h)) | None => run (ho_disk h) end in
  (a, [d], MkHost d rest).
Definition unchanged (_ : string) (d : disk) : disk := d.

Definition ErrNotExist : error := Message "file does not exist".

(** [os.Lstat] on the state directory. *)
Definition lstat_dir : on_disk (result bool) := attempt (λ d, (Ok (dk_real d), d)) unchanged.
(** [os.Lstat] on an entry, [None] when there is none. *)
Definition lstat (name : string) : on_disk (result (option inode)) := attempt (λ d, (Ok (file_at d name), d)) unchanged.
(** [os.Open] and [io.ReadAll] of the bytes. *)
Definition read (name : string) : on_disk (result (option string)) := attempt (λ d, (Ok (in_bytes <$> file_at d name), d)) unchanged.
Definition rename (from to : string) : on_disk (result unit) :=
  attempt (λ d, match dk_dir d !! from with None => (Err ErrNotExist, d) | Some i => (Ok (), enter (Move from to i) d) end) unchanged.
Definition remove (name : string) : on_disk (result unit) :=
  attempt (λ d, match dk_dir d !! name with None => (Err ErrNotExist, d) | Some _ => (Ok (), enter (Unlink name) d) end) unchanged.
Definition sync_dir : on_disk (result unit) :=
  attempt (λ d, (Ok (), MkDisk (dk_real d) (dk_inodes d) (dk_dir d) (dk_dir d) [] (dk_next d))) unchanged.
Definition create (name : string) : on_disk (result N) :=
  attempt (λ d, let i := dk_next d in
    (Ok i, enter (Link name i) (MkDisk (dk_real d) (<[i := MkInode true "" false]> (dk_inodes d)) (dk_dir d) (dk_durable d) (dk_pending d) (i + 1)%N)))
    unchanged.
Definition write (i : N) (bytes : string) : on_disk (result unit) :=
  attempt (λ d, (Ok (), set_inode i (MkInode true bytes false) d)) (λ torn d, set_inode i (MkInode true torn false) d).
Definition sync_file (i : N) : on_disk (result unit) :=
  attempt (λ d, (Ok (), match dk_inodes d !! i with Some f => set_inode i (MkInode (in_regular f) (in_bytes f) true) d | None => d end)) unchanged.
(** [Chmod] and [Close]: calls that change nothing modelled. *)
Definition plain_call : on_disk (result unit) := attempt (λ d, (Ok (), d)) unchanged.

(** The name [os.CreateTemp] picks: it begins with the pattern and is not taken. *)
Class TempNames := {
  temp_name : gmap string N → string → string;
  temp_fresh dir pattern : dir !! temp_name dir pattern = None;
  temp_prefix dir pattern : HasPrefix (temp_name dir pattern) pattern = true
}.

Section store.
Context `{!JSONTokens} `{!JSONValue State} `{!TempNames}.

(** ** The store *)

Inductive writeStage :=
  | stageCandidateSynced | stagePreviousRenamed | stagePreviousDirectorySynced | stageStateRenamed | stageStateDirectorySynced.

(** The names of the two files in the state directory, and the hook of tests. *)
Record StateStore := MkStateStore {
  ss_StateFile : string;
  ss_PreviousStateFile : string;
  ss_hook : option (writeStage → option error)
}.

Definition MaxStateBytes : N := 16777216.

Definition checkpoint (store : StateStore) (stage : writeStage) : result unit :=
  match ss_hook store with
  | None => Ok ()
  | Some hook => match hook stage with None => Ok () | Some e => Err (Wrapped "state write checkpoint" e) end
  end.

(** Continue when the call succeeded. *)
Definition try {A B} (m : on_disk (result A)) (k : A → on_disk (result B)) : on_disk (result B) :=
  a ← m; match a with Err e => mret (Err e) | Ok a => k a end.
Notation "x ←? m ; k" := (try m (λ x, k)) (at level 20, m at level 100, k at level 200, right associativity).
Notation "m ;;? k" := (try m (λ _, k)) (at level 100, k at level 200, right associativity).

Definition named {A} (context : string) (m : on_disk (result A)) : on_disk (result A) := a ← m; mret (wrap context a).

(** [defer os.Remove(name)]: its failure is ignored. *)
Definition deferred_remove {A} (name : string) (m : on_disk (result A)) : on_disk (result A) :=
  a ← m; _ ← remove name; mret a.

(** [None] stands for an error [os.ErrNotExist]. *)
Definition readBoundedRegularFile (path : string) (maximum : N) : on_disk (result (option string)) :=
  info ←? lstat path;
  match info with
  | None => mret (Ok None)
  | Some info =>
      if negb (in_regular info) then mret (Err (Message "must be a regular file"))
      else if (maximum <? N.of_nat (String.length (in_bytes info)))%N then mret (Err (Message "exceeds the maximum"))
      else
        data ←? read path;
        match data with
        | None => mret (Ok None)
        | Some data => if (maximum <? N.of_nat (String.length data))%N then mret (Err (Message "exceeds the maximum")) else mret (Ok (Some data))
        end
  end.

(** [None] stands for an error that is [ErrStateNotFound]; no other error is. *)
Definition loadData (path : string) : on_disk (result (option (string * State))) :=
  data ←? named "read state" (readBoundedRegularFile path MaxStateBytes);
  match data with
  | None => mret (Ok None)
  | Some data => mret (state ← wrap "decode state" (DecodeState data); Ok (Some (data, state)))
  end.

Definition load (path : string) : on_disk (result State) :=
  loaded ←? loadData path;
  mret (match loaded with None => Err (Sentinel ErrStateNotFound) | Some loaded => Ok loaded.2 end).
Definition Load (store : StateStore) : on_disk (result State) := load (ss_StateFile store).
Definition LoadPrevious (store : StateStore) : on_disk (result State) := load (ss_PreviousStateFile store).

Definition validateStateDirectory : on_disk (result unit) :=
  real ←? named "inspect state directory" lstat_dir;
  mret (reject (negb real) (Message "state directory must be a real directory")).

(** The name of the temporary file; on failure the file is removed again. *)
Definition writeSyncedTemporary (pattern data : string) : on_disk (result string) := λ h,
  let path := temp_name (dk_dir (ho_disk h)) pattern in
  (i ←? named "create state temporary file" (create path);
   written ← (named "set state temporary mode" plain_call;;?
              named "write state temporary file" (write i data);;?
              named "sync state temporary file" (sync_file i);;?
              named "close state temporary file" plain_call);
   match written with
   | Ok _ => mret (Ok path)
   | Err e => _ ← remove path; mret (Err e)
   end) h.

Definition syncDirectory : on_disk (result unit) :=
  named "open state directory for sync" plain_call;;?
  named "sync state directory" sync_dir.

Definition activateInitial (store : StateStore) (candidate : string) : on_disk (result unit) :=
  temporary ←? writeSyncedTemporary ".state.json." candidate;
  deferred_remove temporary (
    mret (checkpoint store stageCandidateSynced);;?
    named "activate initial state" (rename temporary (ss_StateFile store));;?
    mret (checkpoint store stageStateRenamed);;?
    syncDirectory;;?
    mret (checkpoint store stageStateDirectorySynced)).

Definition activateNext (store : StateStore) (current candidate : string) : on_disk (result unit) :=
  candidateTemporary ←? writeSyncedTemporary ".state.json." candidate;
  deferred_remove candidateTemporary (
    mret (checkpoint store stageCandidateSynced);;?
    previousTemporary ←? writeSyncedTemporary ".state.previous.json." current;
    deferred_remove previousTemporary (
      named "activate previous state" (rename previousTemporary (ss_PreviousStateFile store));;?
      mret (checkpoint store stagePreviousRenamed);;?
      syncDirectory;;?
      mret (checkpoint store stagePreviousDirectorySynced);;?
      named "activate candidate state" (rename candidateTemporary (ss_StateFile store));;?
      mret (checkpoint store stageStateRenamed);;?
      syncDirectory;;?
      mret (checkpoint store stageStateDirectorySynced))).

Definition stateConflict : error := Sentinel ErrStateConflict.

Definition Save (store : StateStore) (expectedGeneration : N) (candidate : State) : on_disk (result unit) :=
  match wrap "encode candidate state" (EncodeState candidate) with
  | Err e => mret (Err e)
  | Ok encoded =>
      if (MaxStateBytes <? N.of_nat (String.length encoded))%N then mret (Err (Message "candidate state exceeds the maximum")) else
      validateStateDirectory;;?
      loaded ←? loadData (ss_StateFile store);
      match loaded with
      | None =>
          if negb (expectedGeneration =? 0)%N then mret (Err stateConflict) else
          previous ←? named "inspect previous state" (lstat (ss_PreviousStateFile store));
          match previous with
          | Some _ => mret (Err stateConflict)
          | None =>
              if negb (st_Generation candidate =? 1)%N then mret (Err stateConflict)
              else activateInitial store encoded
          end
      | Some (currentData, current) =>
          if (expectedGeneration =? 0)%N || negb (st_Generation current =? expectedGeneration)%N then mret (Err stateConflict) else
          match wrap "validate state transition" (ValidateTransition current candidate) with
          | Err e => mret (Err e)
          | Ok _ => activateNext store currentData encoded
          end
      end
  end.
End store.
