(* ===== verification/StoreFacts.v ===== *)
(** * The state store: what every call preserves

    [shows] reads a file from a set of entries; [holds] says which contents the two files
    have now and which they may have after a crash.  The rules for the calls are proved
    once; the store's procedures are walked through with them. *)

From S2P Require Import Prelude GoTime Proc GoText GoNet Types Checks Resources StateValidate Codec Identity Operation Transition Store.

Local Open Scope string_scope.
Local Open Scope list_scope.

(** ** Contents of files *)

(** [None] when there is no entry, the bytes when it is a regular, synced file. *)
Definition shows (inodes : gmap N inode) (dir : gmap string N) (name : string) (v : option string) : Prop :=
  match v with
  | None => dir !! name = None
  | Some b => ∃ i, dir !! name = Some i ∧ inodes !! i = Some (MkInode true b true)
  end.

Lemma shows_fun inodes dir name v v' : shows inodes dir name v → shows inodes dir name v' → v = v'.
Proof. destruct v, v'; cbn; naive_solver. Qed.

Lemma shows_dir inodes dir dir' name v : dir !! name = dir' !! name → shows inodes dir name v → shows inodes dir' name v.
Proof. intros Heq. destruct v; cbn; rewrite Heq; done. Qed.

(** Files that are not synced can change without being noticed. *)
Lemma shows_inodes inodes inodes' dir name v :
  (∀ i b, inodes !! i = Some (MkInode true b true) → inodes' !! i = Some (MkInode true b true)) →
  shows inodes dir name v → shows inodes' dir name v.
Proof. intros H. destruct v; cbn; naive_solver. Qed.

Section contents.
Context (sf pf : string).

Definition both (inodes : gmap N inode) (dir : gmap string N) (v p : option string) : Prop :=
  shows inodes dir sf v ∧ shows inodes dir pf p.

(** The two files as processes see them. *)
Definition now (d : disk) (v p : option string) : Prop := both (dk_inodes d) (dk_dir d) v p.

(** After a crash, and now, the two files are one of the pairs of [Q]. *)
Definition always (d : disk) (Q : option string → option string → Prop) : Prop :=
  ∀ kept, sublist kept (dk_pending d) → ∃ v p, Q v p ∧ both (dk_inodes d) (foldl apply_op (dk_durable d) kept) v p.

Definition sound (d : disk) : Prop :=
  dk_dir d = foldl apply_op (dk_durable d) (dk_pending d) ∧ ∀ i f, dk_inodes d !! i = Some f → (i < dk_next d)%N.

Definition holds (d : disk) (v p : option string) (Q : option string → option string → Prop) : Prop :=
  sound d ∧ now d v p ∧ always d Q.

Definition exactly (v p v' p' : option string) : Prop := v' = v ∧ p' = p.

Lemma always_mono d (Q Q' : option string → option string → Prop) : (∀ v p, Q v p → Q' v p) → always d Q → always d Q'.
Proof. intros H Ha kept Hk. destruct (Ha kept Hk) as (v & p & HQ & Hb). exists v, p. auto. Qed.

Lemma holds_mono d v p (Q Q' : option string → option string → Prop) : (∀ v p, Q v p → Q' v p) → holds d v p Q → holds d v p Q'.
Proof. intros H (Hs & Hn & Ha). split_and!; [done|done|]. by eapply always_mono. Qed.

(** What is seen now is one of the possibilities. *)
Lemma holds_now d v p Q : holds d v p Q → Q v p.
Proof.
  intros ([Hd _] & [Hv Hp] & Ha). destruct (Ha (dk_pending d)) as (v' & p' & HQ & Hv' & Hp'); [done|]. rewrite -Hd in Hv', Hp'.
  rewrite (shows_fun _ _ _ _ _ Hv Hv') (shows_fun _ _ _ _ _ Hp Hp'). done.
Qed.

(** A crash leaves one of the possibilities, and nothing pending. *)
Lemma crash_holds d d' Q : sound d → always d Q → crashes d d' → ∃ v p, Q v p ∧ holds d' v p (exactly v p).
Proof.
  intros [_ Hids] Ha (kept & Hk & Hdir & Hdur & Hpend & _ & Hnext & Hin). destruct (Ha kept Hk) as (v & p & HQ & Hv & Hp).
  assert (Hi : ∀ i b, dk_inodes d !! i = Some (MkInode true b true) → dk_inodes d' !! i = Some (MkInode true b true)).
  { intros i b Hi. specialize (Hin i). rewrite Hi in Hin. destruct Hin as ([r b' s] & -> & Hr & Hs & Hb). cbn in *. by rewrite Hr Hs Hb. }
  exists v, p. split; [done|]. assert (Hn : now d' v p) by (rewrite /now Hdir; split; by eapply shows_inodes).
  split_and!; [|done|].
  - split; [by rewrite Hpend Hdur|]. intros i f Hf. rewrite Hnext. specialize (Hin i). destruct (dk_inodes d !! i) as [g|] eqn:Hg; [by eapply Hids|congruence].
  - intros kept' Hk'. rewrite Hpend in Hk'. apply sublist_nil_r in Hk' as ->. exists v, p. split; [done|]. by rewrite Hdur.
Qed.

(** ** What calls do to the contents *)

Lemma sublist_snoc {A} (k l : list A) x : sublist k (l ++ [x]) → sublist k l ∨ ∃ k', k = k' ++ [x] ∧ sublist k' l.
Proof.
  intros (k1 & k2 & -> & H1 & H2)%sublist_app_r. apply sublist_cons_r in H2 as [H2|(k' & -> & H2)].
  - apply sublist_nil_r in H2 as ->. left. by rewrite app_nil_r.
  - apply sublist_nil_r in H2 as ->. right. by exists k1.
Qed.

Definition touches (op : dir_op) : list string :=
  match op with Link name _ => [name] | Move from to _ => [from; to] | Unlink name => [name] end.

Lemma apply_op_other dir op name : (name ∉ touches op) → apply_op dir op !! name = dir !! name.
Proof.
  destruct op as [n i|from to i|n]; cbn; intros Hn.
  - apply lookup_insert_ne. set_solver.
  - rewrite lookup_insert_ne; [set_solver|]. apply lookup_delete_ne. set_solver.
  - apply lookup_delete_ne. set_solver.
Qed.

(** An operation on other names changes nothing of the two files. *)
Lemma enter_other op d v p Q : (sf ∉ touches op) → (pf ∉ touches op) → holds d v p Q → holds (enter op d) v p Q.
Proof.
  intros Hs Hp ([Hd Hi] & [Hv Hpv] & Ha). split_and!.
  - split; [|done]. cbn. by rewrite foldl_app Hd.
  - split; cbn; (eapply shows_dir; [symmetry; by apply apply_op_other|done]).
  - intros kept Hk. cbn in Hk. apply sublist_snoc in Hk as [Hk|(k' & -> & Hk)]; destruct (Ha _ Hk) as (v' & p' & HQ & Hv' & Hp').
    + by exists v', p'.
    + exists v', p'. split; [done|]. cbn. rewrite foldl_app. split; (eapply shows_dir; [symmetry; by apply apply_op_other|done]).
Qed.

(** Changing a file that is not synced, or a new one, is not noticed. *)
Lemma set_inode_other i f d v p Q :
  (∀ g, dk_inodes d !! i = Some g → in_synced g = false) → (i < dk_next d)%N → holds d v p Q → holds (set_inode i f d) v p Q.
Proof.
  intros Hun Hlt ([Hd Hi] & [Hv Hpv] & Ha).
  assert (Hin : ∀ j b, dk_inodes d !! j = Some (MkInode true b true) → dk_inodes (set_inode i f d) !! j = Some (MkInode true b true)).
  { intros j b Hj. cbn. destruct (decide (i = j)) as [<-|Hne]; [by apply Hun in Hj|]. by rewrite lookup_insert_ne. }
  split_and!.
  - split; [done|]. intros j g. cbn. intros [[<- _]|[_ Hj]]%lookup_insert_Some; [done|by eapply Hi].
  - split; by eapply shows_inodes.
  - intros kept Hk. destruct (Ha kept Hk) as (v' & p' & HQ & Hv' & Hp'). exists v', p'. split; [done|]. split; by eapply shows_inodes.
Qed.

(** Renaming a synced file over the previous state. *)
Lemma enter_previous from i b d v p Q : sf ≠ pf → sf ≠ from → pf ≠ from → dk_inodes d !! i = Some (MkInode true b true) → holds d v p Q →
  holds (enter (Move from pf i) d) v (Some b) (λ v' p', Q v' p' ∨ ((∃ p0, Q v' p0) ∧ p' = Some b)).
Proof.
  intros Hne Hsf Hpf Hi ([Hd Hids] & [Hv Hpv] & Ha).
  assert (Hmove : ∀ dir w, shows (dk_inodes d) dir sf w → both (dk_inodes d) (apply_op dir (Move from pf i)) w (Some b)).
  { intros dir w Hw. split.
    - eapply shows_dir; [symmetry; apply apply_op_other; cbn; set_solver|done].
    - exists i. split; [by rewrite /= lookup_insert_eq|done]. }
  split_and!.
  - split; [|done]. cbn. by rewrite foldl_app Hd.
  - by apply Hmove.
  - intros kept Hk. cbn in Hk. apply sublist_snoc in Hk as [Hk|(k' & -> & Hk)]; destruct (Ha _ Hk) as (v' & p' & HQ & Hv' & Hp').
    + exists v', p'. split; [by left|done].
    + exists v', (Some b). split; [right; eauto|]. cbn. rewrite foldl_app. by apply Hmove.
Qed.

(** Renaming a synced file over the state. *)
Lemma enter_state from i b d v p Q : sf ≠ pf → sf ≠ from → pf ≠ from → dk_inodes d !! i = Some (MkInode true b true) → holds d v p Q →
  holds (enter (Move from sf i) d) (Some b) p (λ v' p', Q v' p' ∨ (v' = Some b ∧ ∃ v0, Q v0 p')).
Proof.
  intros Hne Hsf Hpf Hi ([Hd Hids] & [Hv Hpv] & Ha).
  assert (Hmove : ∀ dir w, shows (dk_inodes d) dir pf w → both (dk_inodes d) (apply_op dir (Move from sf i)) (Some b) w).
  { intros dir w Hw. split.
    - exists i. split; [by rewrite /= lookup_insert_eq|done].
    - eapply shows_dir; [symmetry; apply apply_op_other; cbn; set_solver|done]. }
  split_and!.
  - split; [|done]. cbn. by rewrite foldl_app Hd.
  - by apply Hmove.
  - intros kept Hk. cbn in Hk. apply sublist_snoc in Hk as [Hk|(k' & -> & Hk)]; destruct (Ha _ Hk) as (v' & p' & HQ & Hv' & Hp').
    + exists v', p'. split; [by left|done].
    + exists (Some b), p'. split; [right; eauto|]. cbn. rewrite foldl_app. by apply Hmove.
Qed.

(** Syncing the directory leaves only what is seen now. *)
Lemma sync_exactly d v p Q : holds d v p Q →
  holds (MkDisk (dk_real d) (dk_inodes d) (dk_dir d) (dk_dir d) [] (dk_next d)) v p (exactly v p).
Proof.
  intros ([Hd Hi] & Hn & Ha). split_and!; [done|done|]. intros kept Hk. cbn in Hk. apply sublist_nil_r in Hk as ->. by exists v, p.
Qed.
End contents.

(** ** Triples over disks

    [L] holds of the disk after every call; when [calm] no call fails. *)
Section triples.
Context (L : disk → Prop) (calm : Prop).

Definition triple {A} (P : disk → Prop) (m : on_disk A) (Q : A → disk → Prop) : Prop :=
  ∀ h, (calm → ho_faults h = []) → P (ho_disk h) →
    wp m h (λ a es h', Forall L es ∧ (calm → ho_faults h' = []) ∧ Q a (ho_disk h')).

Lemma triple_ret {A} (a : A) (P : disk → Prop) (Q : A → disk → Prop) : (∀ d, P d → Q a d) → triple P (mret a) Q.
Proof. intros H h Hc HP. apply wp_ret. split_and!; [constructor|done|auto]. Qed.

Lemma triple_bind {A B} (m : on_disk A) (f : A → on_disk B) P R Q :
  triple P m R → (∀ a, triple (R a) (f a) Q) → triple P (m ≫= f) Q.
Proof.
  intros Hm Hf h Hc HP. apply wp_bind. eapply wp_mono; [exact (Hm h Hc HP)|]. intros a es h1 (Hes & Hc1 & HR).
  eapply wp_mono; [exact (Hf a h1 Hc1 HR)|]. intros b es' h2 (Hes' & Hc2 & HQ). split_and!; [by apply Forall_app|done|done].
Qed.

Lemma triple_conseq {A} (m : on_disk A) (P P' : disk → Prop) (Q Q' : A → disk → Prop) :
  (∀ d, P' d → P d) → (∀ a d, Q a d → Q' a d) → triple P m Q → triple P' m Q'.
Proof.
  intros HP HQ Hm h Hc HP'. eapply wp_mono; [exact (Hm h Hc (HP _ HP'))|]. intros a es h1 (? & ? & ?). split_and!; auto.
Qed.

Lemma triple_pre {A} (m : on_disk A) (P : disk → Prop) Q : (∀ d, P d → triple (λ d', d' = d) m Q) → triple P m Q.
Proof. intros H h Hc HP. by apply (H (ho_disk h) HP h Hc). Qed.

(** A program that looks at the disk first. *)
Lemma triple_here {A} (f : disk → on_disk A) P Q : (∀ d, P d → triple (λ d', d' = d) (f d) Q) → triple P (λ h, f (ho_disk h) h) Q.
Proof. intros H h Hc HP. exact (H (ho_disk h) HP h Hc eq_refl). Qed.

Lemma triple_attempt {A} (run : disk → result A * disk) failing P (Q : result A → disk → Prop) :
  (∀ d, P d → L (run d).2 ∧ Q (run d).1 (run d).2) →
  (∀ d e torn, ¬ calm → P d → L (failing torn d) ∧ Q (Err e) (failing torn d)) →
  triple P (attempt run failing) Q.
Proof.
  intros Hrun Hfail h Hc HP. unfold wp, attempt. destruct (ho_faults h) as [|[[e torn]|] rest] eqn:Hf.
  - destruct (run (ho_disk h)) as [a d] eqn:Hr. specialize (Hrun _ HP). rewrite Hr in Hrun. destruct Hrun. cbn. split_and!; [by repeat constructor|done|done].
  - assert (Hnc : ¬ calm) by (intros H%Hc; done). destruct (Hfail _ e torn Hnc HP). cbn. split_and!; [by repeat constructor|done|done].
  - assert (Hnc : ¬ calm) by (intros H%Hc; done). destruct (run (ho_disk h)) as [a d] eqn:Hr. specialize (Hrun _ HP). rewrite Hr in Hrun.
    destruct Hrun. cbn. split_and!; [by repeat constructor|done|done].
Qed.

(** A call that only reads. *)
Lemma triple_reads {A} (get : disk → result A) P (Q : result A → disk → Prop) :
  (∀ d, P d → L d) → (∀ d, P d → Q (get d) d) → (∀ d e, ¬ calm → P d → Q (Err e) d) →
  triple P (attempt (λ d, (get d, d)) unchanged) Q.
Proof. intros HL Hg Hf. apply triple_attempt; [intros d Hd; cbn; auto|intros d e torn Hn Hd; cbn; auto]. Qed.

(** The outcome of a call that may fail: [S] after success, [E] after any error. *)
Definition outcome {A} (S : A → disk → Prop) (E : disk → Prop) (r : result A) (d : disk) : Prop :=
  match r with Ok a => S a d | Err _ => E d end.

Lemma triple_try {A B} (m : on_disk (result A)) (k : A → on_disk (result B)) P S E Q :
  triple P m (outcome S E) → (∀ a, triple (S a) (k a) Q) → (∀ e d, E d → Q (Err e) d) → triple P (try m k) Q.
Proof. intros Hm Hk He. unfold try. eapply triple_bind; [exact Hm|]. intros [a|e]; [apply Hk|apply triple_ret, He]. Qed.

Lemma triple_named {A} context (m : on_disk (result A)) P S E : triple P m (outcome S E) → triple P (named context m) (outcome S E).
Proof. intros Hm. unfold named. eapply triple_bind; [exact Hm|]. intros [a|e]; by apply triple_ret. Qed.

(** A check of values, such as a checkpoint. *)
Lemma triple_pure {A} (r : result A) P S E : (∀ a d, r = Ok a → P d → S a d) → (∀ e d, r = Err e → P d → E d) → triple P (mret r) (outcome S E).
Proof. intros HS HE. apply triple_ret. intros d Hd. destruct r; cbn; eauto. Qed.

Lemma triple_deferred {A} name (m : on_disk (result A)) P R Q :
  triple P m R → (∀ a, triple (R a) (remove name) (λ _, Q a)) → triple P (deferred_remove name m) Q.
Proof.
  intros Hm Hr. unfold deferred_remove. eapply triple_bind; [exact Hm|]. intros a. eapply triple_bind; [apply Hr|]. intros r. by apply triple_ret.
Qed.
End triples.

(** ** Temporary files *)

Definition plain (name : string) : Prop := HasPrefix name "." = false.

Lemma HasPrefix_dot s p : HasPrefix s p = true → HasPrefix p "." = true → HasPrefix s "." = true.
Proof.
  unfold HasPrefix. destruct s as [|c s], p as [|c' p]; [done|done|done|].
  assert (Hp : ∀ a t b u, String.prefix (String a t) (String b u) = if ascii_dec a b then String.prefix t u else false) by done.
  rewrite !Hp. destruct (ascii_dec c' c) as [->|]; [|done]. intros _ H. destruct (ascii_dec "." c); [|done]. by destruct s.
Qed.

Section files.
Context `{!JSONTokens} `{!JSONValue State} `{!TempNames} (sf pf : string) (Hsf : plain sf) (Hpf : plain pf) (Hne : sf ≠ pf).
Context (QL : option string → option string → Prop) (calm : Prop).

Abbreviation L := (λ d, sound d ∧ always sf pf d QL).
Abbreviation holds := (holds sf pf).

(** A finished temporary file. *)
Definition temp_at (d : disk) (path b : string) : Prop :=
  path ≠ sf ∧ path ≠ pf ∧ ∃ i, dk_dir d !! path = Some i ∧ dk_inodes d !! i = Some (MkInode true b true).
(** A temporary file being written. *)
Definition open_at (d : disk) (path : string) (i : N) : Prop :=
  path ≠ sf ∧ path ≠ pf ∧ dk_dir d !! path = Some i ∧ ∃ b, dk_inodes d !! i = Some (MkInode true b false).

Lemma temp_other d op path b : (path ∉ touches op) → temp_at d path b → temp_at (enter op d) path b.
Proof. intros Hn (? & ? & i & Hi & Hf). split_and!; [done|done|]. exists i. split; [|done]. cbn. by rewrite apply_op_other. Qed.

Lemma temp_set d i f path b : (∀ g, dk_inodes d !! i = Some g → in_synced g = false) → temp_at d path b → temp_at (set_inode i f d) path b.
Proof.
  intros Hun (? & ? & j & Hj & Hf). split_and!; [done|done|]. exists j. split; [done|]. cbn.
  destruct (decide (i = j)) as [->|]; [by apply Hun in Hf|]. by rewrite lookup_insert_ne.
Qed.

(** Another temporary file that must survive, if any. *)
Definition frame (other : option (string * string)) (d : disk) : Prop :=
  match other with None => True | Some (path, b) => temp_at d path b end.

Section steps.
Context (v p : option string) (Q : option string → option string → Prop) (HQ : ∀ v p, Q v p → QL v p) (other : option (string * string)).

Definition steady (d : disk) : Prop := holds d v p Q ∧ frame other d.

Lemma steady_L d : steady d → L d.
Proof. intros [(Hs & _ & Ha) _]. split; [done|]. by eapply always_mono. Qed.

Lemma steady_enter op d : (sf ∉ touches op) → (pf ∉ touches op) → (∀ path b, other = Some (path, b) → path ∉ touches op) →
  steady d → steady (enter op d).
Proof.
  intros Hs Hp Ho [Hh Hf]. split; [by apply enter_other|]. unfold frame in *. destruct other as [[path b]|]; [|done].
  apply temp_other; [by eapply Ho|done].
Qed.

Lemma steady_set i f d : (∀ g, dk_inodes d !! i = Some g → in_synced g = false) → (i < dk_next d)%N → steady d → steady (set_inode i f d).
Proof.
  intros Hun Hlt [Hh Hf]. split; [by apply set_inode_other|]. unfold frame in *. destruct other as [[path b]|]; [|done]. by apply temp_set.
Qed.

Lemma open_lt d path i : holds d v p Q → open_at d path i → (i < dk_next d)%N.
Proof. intros ([_ Hids] & _) (_ & _ & _ & b & Hb). by eapply Hids. Qed.

Lemma open_unsynced d path i : open_at d path i → ∀ g, dk_inodes d !! i = Some g → in_synced g = false.
Proof. intros (_ & _ & _ & b & Hb) g Hg. rewrite Hb in Hg. by injection Hg as <-. Qed.

Lemma create_triple pattern d0 : HasPrefix pattern "." = true → steady d0 → let path := temp_name (dk_dir d0) pattern in
  triple L calm (λ d, d = d0) (create path)
    (outcome (λ i d, steady d ∧ open_at d path i) (λ d, ¬ calm ∧ steady d)).
Proof.
  intros Hdot Hst path. assert (Hdotp : HasPrefix path "." = true) by (eapply HasPrefix_dot; [apply temp_prefix|done]).
  assert (Hp1 : path ≠ sf) by (intros Heq; unfold plain in Hsf; congruence).
  assert (Hp2 : path ≠ pf) by (intros Heq; unfold plain in Hpf; congruence).
  assert (Hfresh := temp_fresh (dk_dir d0) pattern). fold path in Hfresh.
  apply triple_attempt.
  - intros d ->. cbn [fst snd]. set (i := dk_next d0).
    assert (Hnone : dk_inodes d0 !! i = None).
    { destruct (dk_inodes d0 !! i) as [f|] eqn:Hi; [|done]. destruct Hst as [([_ Hids] & _) _]. apply Hids in Hi. unfold i in Hi. lia. }
    set (d1 := MkDisk (dk_real d0) (<[i:=MkInode true "" false]> (dk_inodes d0)) (dk_dir d0) (dk_durable d0) (dk_pending d0) (i + 1)).
    assert (Hst1 : steady d1).
    { assert (Hin : ∀ j b, dk_inodes d0 !! j = Some (MkInode true b true) → dk_inodes d1 !! j = Some (MkInode true b true)).
      { intros j b Hj. cbn. rewrite lookup_insert_ne; [congruence|done]. }
      destruct Hst as [([Hd Hids] & [Hv Hp] & Ha) Hf]. split.
      - split_and!.
        + split; [done|]. intros j f. cbn. intros [[<- _]|[_ Hj]]%lookup_insert_Some; [lia|]. apply Hids in Hj. unfold i. lia.
        + split; by eapply shows_inodes.
        + intros kept Hk. destruct (Ha kept Hk) as (v' & p' & HQ' & Hv' & Hp'). exists v', p'. split; [done|]. split; by eapply shows_inodes.
      - unfold frame in *. destruct other as [[q b]|]; [|done]. destruct Hf as (? & ? & j & Hj & Hjf). split_and!; [done|done|]. exists j. auto. }
    assert (Hst2 : steady (enter (Link path i) d1)).
    { apply steady_enter; [set_solver|set_solver| |done]. intros q b Heq. cbn.
      destruct Hst as [_ Hf]. unfold frame in Hf. rewrite Heq in Hf. destruct Hf as (_ & _ & j & Hj & _).
      intros ->%list_elem_of_singleton. congruence. }
    split; [by apply steady_L|]. split; [done|]. split_and!; [done|done|by cbn; rewrite lookup_insert_eq|]. exists "". cbn. by rewrite lookup_insert_eq.
  - intros d e torn Hn ->. split; [by apply steady_L|done].
Qed.

Lemma plain_triple (P : disk → Prop) : (∀ d, P d → L d) → triple L calm P plain_call (outcome (λ _ d, P d) (λ d, ¬ calm ∧ P d)).
Proof. intros HL. apply triple_reads; cbn; auto. Qed.

Lemma write_triple path i data : triple L calm (λ d, steady d ∧ open_at d path i) (write i data)
  (outcome (λ _ d, steady d ∧ open_at d path i ∧ dk_inodes d !! i = Some (MkInode true data false))
     (λ d, ¬ calm ∧ steady d ∧ open_at d path i)).
Proof.
  assert (Hset : ∀ d b, steady d ∧ open_at d path i → steady (set_inode i (MkInode true b false) d) ∧ open_at (set_inode i (MkInode true b false) d) path i).
  { intros d b [Hst Ho]. split.
    - apply steady_set; [by eapply open_unsynced|eapply open_lt; [apply Hst|done]|done].
    - destruct Ho as (? & ? & ? & _). split_and!; [done|done|done|]. exists b. cbn. by rewrite lookup_insert_eq. }
  apply triple_attempt.
  - intros d Hd. cbn [fst snd]. destruct (Hset d data Hd). split; [by apply steady_L|]. split_and!; [done|done|]. cbn. by rewrite lookup_insert_eq.
  - intros d e torn Hn Hd. destruct (Hset d torn Hd). split; [by apply steady_L|done].
Qed.

Lemma sync_file_triple path i data : triple L calm (λ d, steady d ∧ open_at d path i ∧ dk_inodes d !! i = Some (MkInode true data false)) (sync_file i)
  (outcome (λ _ d, steady d ∧ temp_at d path data) (λ d, ¬ calm ∧ steady d ∧ open_at d path i)).
Proof.
  apply triple_attempt.
  - intros d (Hst & Ho & Hi). cbn [fst snd]. rewrite Hi. cbn [in_regular in_bytes].
    assert (Hst' : steady (set_inode i (MkInode true data true) d)).
    { apply steady_set; [by eapply open_unsynced|eapply open_lt; [apply Hst|done]|done]. }
    split; [by apply steady_L|]. split; [done|]. destruct Ho as (? & ? & ? & _). split_and!; [done|done|]. exists i. split; [done|].
    cbn. by rewrite lookup_insert_eq.
  - intros d e torn Hn (Hst & Ho & Hi). split; [by apply steady_L|done].
Qed.

(** Removing a temporary file, or finding it gone. *)
Lemma remove_triple path : path ≠ sf → path ≠ pf → (∀ q b, other = Some (q, b) → q ≠ path) →
  triple L calm steady (remove path) (λ _ d, steady d).
Proof.
  intros H1 H2 H3. apply triple_attempt.
  - intros d Hst. destruct (dk_dir d !! path) as [j|]; cbn [fst snd]; [|split; [by apply steady_L|done]].
    assert (Hst' : steady (enter (Unlink path) d)).
    { apply steady_enter; [set_solver|set_solver| |done]. intros q b Heq. specialize (H3 q b Heq). cbn. set_solver. }
    split; [by apply steady_L|done].
  - intros d e torn _ Hst. split; [by apply steady_L|done].
Qed.

(** The temporary file is complete and synced, or it is gone and a call failed. *)
Lemma temporary_triple pattern data : HasPrefix pattern "." = true →
  triple L calm steady (writeSyncedTemporary pattern data)
    (outcome (λ path d, steady d ∧ temp_at d path data ∧ (∀ q b, other = Some (q, b) → q ≠ path)) (λ d, ¬ calm ∧ steady d)).
Proof.
  intros Hdot. apply (triple_here _ _ (λ d, let path := temp_name (dk_dir d) pattern in
    try (named "create state temporary file" (create path)) (λ i,
      written ← try (named "set state temporary mode" plain_call) (λ _, try (named "write state temporary file" (write i data))
        (λ _, try (named "sync state temporary file" (sync_file i)) (λ _, named "close state temporary file" plain_call)));
      match written with Ok _ => mret (Ok path) | Err e => _ ← remove path; mret (Err e) end))).
  intros d0 Hst. cbv zeta. set (path := temp_name (dk_dir d0) pattern).
  assert (Hother : ∀ q b, other = Some (q, b) → q ≠ path).
  { intros q b Heq ->. destruct Hst as [_ Hf]. unfold frame in Hf. rewrite Heq in Hf. destruct Hf as (_ & _ & j & Hj & _).
    rewrite temp_fresh in Hj. done. }

  assert (Hopen : ∀ i d, open_at d path i → path ≠ sf ∧ path ≠ pf) by (by intros i d (? & ? & _)).
  eapply triple_try; [apply triple_named, (create_triple pattern d0 Hdot Hst)| |by intros e d Hd].
  intros i. eapply (triple_bind _ _ _ _ _ (outcome (λ _ d, steady d ∧ temp_at d path data) (λ d, ¬ calm ∧ steady d ∧ path ≠ sf ∧ path ≠ pf))).
  - eapply triple_try; [apply triple_named, plain_triple; by intros d [? _]; apply steady_L| |intros e d (? & ? & ?); naive_solver].
    intros u; cbn beta; clear u. eapply triple_try; [apply triple_named, write_triple| |intros e d (? & ? & ?); naive_solver].
    intros u; cbn beta; clear u. eapply triple_try; [apply triple_named, sync_file_triple| |intros e d (? & ? & ?); naive_solver].
    intros u; cbn beta; clear u. apply triple_named. eapply triple_conseq; [| |apply (plain_triple (λ d, steady d ∧ temp_at d path data)); by intros d [? _]; apply steady_L]; [done|].
    intros [[]|e] d Hd; [exact Hd|]. destruct Hd as (? & ? & (? & ? & _)). done.
  - intros [[]|e].
    + apply triple_ret. intros d [? ?]. done.
    + eapply triple_bind; [|intros a; apply triple_ret; intros d Hd; exact Hd]. apply triple_pre. intros d (Hn & Hs & H1 & H2).
      eapply triple_conseq; [| |apply (remove_triple path H1 H2 Hother)]; [by intros ? ->|]. intros u d' Hd'. done.
Qed.
End steps.

(** ** Activation *)

(** Some call failed; the files are one of the allowed pairs. *)
Definition failed (d : disk) : Prop := ¬ calm ∧ ∃ v p, holds d v p QL.

Lemma steady_failed v p (Q : option string → option string → Prop) other d : (∀ v p, Q v p → QL v p) → ¬ calm ∧ steady v p Q other d → failed d.
Proof. intros HQ [Hn [Hh _]]. split; [done|]. exists v, p. by eapply holds_mono. Qed.

Lemma rename_triple path name b v p Q v' p' Q' other :
  (∀ v p, Q v p → QL v p) → (∀ v p, Q' v p → QL v p) →
  (∀ d i, dk_inodes d !! i = Some (MkInode true b true) → holds d v p Q → holds (enter (Move path name i) d) v' p' Q') →
  name = sf ∨ name = pf → (∀ q c, other = Some (q, c) → q ≠ path) →
  triple L calm (λ d, steady v p Q other d ∧ temp_at d path b) (rename path name) (outcome (λ _, steady v' p' Q' other) failed).
Proof.
  intros HQ HQ' Hmove Hname Hother. apply triple_attempt.
  - intros d [[Hh Hf] (H1 & H2 & i & Hi & Hb)]. rewrite Hi. cbn [fst snd]. specialize (Hmove d i Hb Hh).
    assert (Hst : steady v' p' Q' other (enter (Move path name i) d)).
    { split; [done|]. unfold frame in *. destruct other as [[q c]|]; [|done]. specialize (Hother q c eq_refl). apply temp_other; [|done].
      destruct Hf as (? & ? & _). cbn. rewrite !not_elem_of_cons. destruct Hname as [->| ->]; (split_and!; [done|done|apply not_elem_of_nil]). }
    split; [exact (steady_L _ _ _ HQ' _ _ Hst)|done].
  - intros d e torn Hn [Hst _]. split; [exact (steady_L _ _ _ HQ _ _ Hst)|exact (steady_failed _ _ _ _ _ HQ (conj Hn Hst))].
Qed.

Lemma syncDirectory_triple v p Q other : (∀ v p, Q v p → QL v p) →
  triple L calm (steady v p Q other) syncDirectory (outcome (λ _, steady v p (exactly v p) other) failed).
Proof.
  intros HQ. unfold syncDirectory.
  eapply triple_try; [apply triple_named, plain_triple; intros d; by apply steady_L| |intros e d; by apply steady_failed].
  intros u; cbn beta; clear u. apply triple_named, triple_attempt.
  - intros d [Hh Hf]. cbn [fst snd].
    assert (Hst : steady v p (exactly v p) other (MkDisk (dk_real d) (dk_inodes d) (dk_dir d) (dk_dir d) [] (dk_next d))).
    { split; [by eapply sync_exactly|]. unfold frame in *. by destruct other as [[q c]|]. }
    split; [|done]. eapply steady_L; [|exact Hst]. intros v' p' [-> ->]. apply HQ. by eapply holds_now.
  - intros d e torn Hn Hst. split; [exact (steady_L _ _ _ HQ _ _ Hst)|exact (steady_failed _ _ _ _ _ HQ (conj Hn Hst))].
Qed.

Context (store : StateStore) (Hcalm : calm → ss_hook store = None).

Lemma checkpoint_any stage (P : disk → Prop) : (∀ d, P d → ∃ v p, holds d v p QL) →
  triple L calm P (mret (checkpoint store stage)) (outcome (λ _, P) failed).
Proof.
  intros HP. apply triple_pure; [done|]. intros e d He Hd. split; [|by apply HP].
  intros Hc%Hcalm. unfold checkpoint in He. by rewrite Hc in He.
Qed.

Lemma checkpoint_triple stage v p Q other : (∀ v p, Q v p → QL v p) →
  triple L calm (steady v p Q other) (mret (checkpoint store stage)) (outcome (λ _, steady v p Q other) failed).
Proof. intros HQ. apply checkpoint_any. intros d [Hh _]. exists v, p. by eapply holds_mono. Qed.

(** Removing a leftover temporary file changes nothing that matters. *)
Lemma leftover_triple {A} path v p Q (r : result A) : path ≠ sf → path ≠ pf → (∀ v p, Q v p → QL v p) →
  triple L calm (outcome (λ _, steady v p Q None) failed r) (remove path) (λ _, outcome (λ _, steady v p Q None) failed r).
Proof.
  intros H1 H2 HQ. destruct r as [a|e]; cbn [outcome].
  - by apply remove_triple.
  - apply triple_pre. intros d (Hn & v' & p' & Hh). eapply triple_conseq; [| |apply (remove_triple v' p' QL (λ _ _ H, H) None path H1 H2)]; [| |done].
    + intros d' ->. by split.
    + intros u d' [Hh' _]. split; [done|]. by exists v', p'.
Qed.

Lemma deferred_triple {A} path b (m : on_disk (result A)) P v p Q : (∀ v p, Q v p → QL v p) →
  triple L calm (λ d, P d ∧ temp_at d path b) m (outcome (λ _, steady v p Q None) failed) →
  triple L calm (λ d, P d ∧ temp_at d path b) (deferred_remove path m) (outcome (λ _, steady v p Q None) failed).
Proof.
  intros HQ Hm. apply triple_pre. intros d [HP Ht]. assert (Hp := Ht). destruct Hp as (H1 & H2 & _).
  eapply triple_deferred; [|intros a; by apply leftover_triple].
  eapply triple_conseq; [| |exact Hm]; [by intros d' ->|done].
Qed.

Context (Estate : ss_StateFile store = sf) (Eprevious : ss_PreviousStateFile store = pf).

(** One more step of an activation. *)
Ltac advance lemma := eapply triple_try; [exact lemma| |by intros e d].

Lemma state_move path b v p : path ≠ sf → path ≠ pf → ∀ d i, dk_inodes d !! i = Some (MkInode true b true) → holds d v p (exactly v p) →
  holds (enter (Move path sf i) d) (Some b) p (λ v' p', exactly v p v' p' ∨ exactly (Some b) p v' p').
Proof.
  intros H1 H2 d i Hi Hh. eapply holds_mono; [|by eapply (enter_state sf pf path i b d v p)]. unfold exactly. naive_solver.
Qed.

Lemma previous_move path b v p : path ≠ sf → path ≠ pf → ∀ d i, dk_inodes d !! i = Some (MkInode true b true) → holds d v p (exactly v p) →
  holds (enter (Move path pf i) d) v (Some b) (λ v' p', exactly v p v' p' ∨ exactly v (Some b) v' p').
Proof.
  intros H1 H2 d i Hi Hh. eapply holds_mono; [|by eapply (enter_previous sf pf path i b d v p)]. unfold exactly. naive_solver.
Qed.

(** From the rename of the state on. *)
Lemma commit_triple context path b v p : (∀ v' p', exactly v p v' p' ∨ exactly (Some b) p v' p' → QL v' p') →
  triple L calm (λ d, steady v p (exactly v p) None d ∧ temp_at d path b)
    (try (named context (rename path (ss_StateFile store))) (λ _, try (mret (checkpoint store stageStateRenamed)) (λ _,
       try syncDirectory (λ _, mret (checkpoint store stageStateDirectorySynced)))))
    (outcome (λ _, steady (Some b) p (exactly (Some b) p) None) failed).
Proof.
  intros HQL. rewrite Estate. apply triple_pre. intros d0 [Hst0 Ht0]. assert (Hp := Ht0). destruct Hp as (H1 & H2 & _).
  eapply (triple_conseq _ _ _ (λ d, steady v p (exactly v p) None d ∧ temp_at d path b)); [by intros d ->|intros a d Hd; exact Hd|].
  advance (triple_named L calm context _ _ _ _ (rename_triple path sf b v p _ (Some b) p _ None (λ v p H, HQL v p (or_introl H)) HQL (state_move path b v p H1 H2) (or_introl eq_refl) ltac:(done))).
  intros u; cbn beta; clear u. advance (checkpoint_triple stageStateRenamed (Some b) p _ None HQL).
  intros u; cbn beta; clear u. advance (syncDirectory_triple (Some b) p _ None HQL).
  intros u; cbn beta; clear u. apply checkpoint_triple. auto.
Qed.

Lemma activateInitial_triple b : (∀ v' p', exactly None None v' p' ∨ exactly (Some b) None v' p' → QL v' p') →
  triple L calm (steady None None (exactly None None) None) (activateInitial store b)
    (outcome (λ _, steady (Some b) None (exactly (Some b) None) None) failed).
Proof.
  intros HQL. assert (HQ : ∀ v p, exactly None None v p → QL v p) by auto.
  eapply triple_try; [apply (temporary_triple None None _ HQ None ".state.json." b eq_refl)| |intros e d; by apply steady_failed].
  intros path. eapply triple_conseq; [| |apply (deferred_triple path b _ (steady None None (exactly None None) None) (Some b) None (exactly (Some b) None))];
    [by intros d (? & ? & _)|intros a d Hd; exact Hd|auto|].
  eapply triple_try; [apply checkpoint_any; intros d [[Hh _] _]; eexists _, _; by eapply holds_mono| |by intros e d].
  intros u; cbn beta; clear u. by apply commit_triple.
Qed.

(** The pairs an update goes through. *)
Definition update_pairs (cur : string) (p : option string) (b : string) (v' p' : option string) : Prop :=
  exactly (Some cur) p v' p' ∨ exactly (Some cur) (Some cur) v' p' ∨ exactly (Some b) (Some cur) v' p'.

(** The candidate is complete and the current bytes are in a second temporary file. *)
Lemma switch_triple cur b p path q : (∀ v' p', update_pairs cur p b v' p' → QL v' p') → path ≠ q →
  triple L calm (λ d, steady (Some cur) p (exactly (Some cur) p) (Some (path, b)) d ∧ temp_at d q cur)
    (try (named "activate previous state" (rename q (ss_PreviousStateFile store))) (λ _, try (mret (checkpoint store stagePreviousRenamed)) (λ _,
       try syncDirectory (λ _, try (mret (checkpoint store stagePreviousDirectorySynced)) (λ _,
       try (named "activate candidate state" (rename path (ss_StateFile store))) (λ _, try (mret (checkpoint store stageStateRenamed)) (λ _,
       try syncDirectory (λ _, mret (checkpoint store stageStateDirectorySynced)))))))))
    (outcome (λ _, steady (Some b) (Some cur) (exactly (Some b) (Some cur)) None) failed).
Proof.
  intros HQL Hpq. rewrite Eprevious. apply triple_pre. intros d0 [Hst0 Ht0]. assert (Hq := Ht0). destruct Hq as (H1 & H2 & _).
  eapply (triple_conseq _ _ _ (λ d, steady (Some cur) p (exactly (Some cur) p) (Some (path, b)) d ∧ temp_at d q cur));
    [by intros d ->|intros a d Hd; exact Hd|].
  assert (HQ0 : ∀ v' p', exactly (Some cur) p v' p' → QL v' p') by (unfold update_pairs in HQL; auto).
  assert (HQ1 : ∀ v' p', exactly (Some cur) p v' p' ∨ exactly (Some cur) (Some cur) v' p' → QL v' p') by (unfold update_pairs in HQL; naive_solver).
  assert (HQ2 : ∀ v' p', exactly (Some cur) (Some cur) v' p' ∨ exactly (Some b) (Some cur) v' p' → QL v' p') by (unfold update_pairs in HQL; naive_solver).
  assert (Hne' : ∀ x c, Some (path, b) = Some (x, c) → x ≠ q) by (by intros x c [= <- <-]).
  advance (triple_named L calm "activate previous state" _ _ _ _ (rename_triple q pf cur (Some cur) p _ (Some cur) (Some cur) _ _ HQ0 HQ1
    (previous_move q cur (Some cur) p H1 H2) (or_intror eq_refl) Hne')).
  intros u; cbn beta; clear u. advance (checkpoint_triple stagePreviousRenamed (Some cur) (Some cur) _ (Some (path, b)) HQ1).
  intros u; cbn beta; clear u. advance (syncDirectory_triple (Some cur) (Some cur) _ (Some (path, b)) HQ1).
  intros u; cbn beta; clear u. advance (checkpoint_triple stagePreviousDirectorySynced (Some cur) (Some cur) _ (Some (path, b)) (λ v p Hp, HQ2 v p (or_introl Hp))).
  intros u; cbn beta; clear u. eapply triple_conseq; [| |by apply commit_triple]; [|intros a d Hd; exact Hd].
  intros d [Hh Hf]. done.
Qed.

Lemma activateNext_triple cur b p : (∀ v' p', update_pairs cur p b v' p' → QL v' p') →
  triple L calm (steady (Some cur) p (exactly (Some cur) p) None) (activateNext store cur b)
    (outcome (λ _, steady (Some b) (Some cur) (exactly (Some b) (Some cur)) None) failed).
Proof.
  intros HQL. set (Q := exactly (Some cur) p). assert (HQ : ∀ v' p', Q v' p' → QL v' p') by (unfold update_pairs in HQL; auto).
  assert (HQ' : ∀ v' p', exactly (Some b) (Some cur) v' p' → QL v' p') by (unfold update_pairs in HQL; auto).
  eapply triple_try; [apply (temporary_triple (Some cur) p Q HQ None ".state.json." b eq_refl)| |intros e d; by apply steady_failed].
  intros path. eapply triple_conseq; [| |apply (deferred_triple path b _ (steady (Some cur) p Q None) (Some b) (Some cur) _ HQ')];
    [by intros d (? & ? & _)|intros a d Hd; exact Hd|].
  eapply triple_conseq with (P := steady (Some cur) p Q (Some (path, b))); [by intros d [[? _] ?]|intros a d Hd; exact Hd|].
  eapply triple_try; [by apply checkpoint_triple| |by intros e d].
  intros u; cbn beta; clear u.
  eapply triple_try; [apply (temporary_triple (Some cur) p Q HQ (Some (path, b)) ".state.previous.json." cur eq_refl)| |intros e d; by apply steady_failed].
  intros q. eapply triple_pre. intros d0 (Hst & Hq & Hne0). assert (Hpq : path ≠ q) by (by apply (Hne0 path b)).
  eapply triple_conseq; [| |apply (deferred_triple q cur _ (steady (Some cur) p Q (Some (path, b))) (Some b) (Some cur) _ HQ')];
    [by intros d ->|intros a d Hd; exact Hd|].
  by apply switch_triple.
Qed.

(** ** Reading *)

(** What the store makes of the contents of a state file. *)
Definition loaded (v : option string) : result (option (string * State)) :=
  match v with
  | None => Ok None
  | Some b =>
      wrap "read state" (reject (MaxStateBytes <? N.of_nat (String.length b))%N (Message "exceeds the maximum"));;
      state ← wrap "decode state" (DecodeState b); Ok (Some (b, state))
  end.

(** Nothing changed; the result is [r] unless a call failed. *)
Definition answers {A} (P : disk → Prop) (r : result A) (r' : result A) (d : disk) : Prop :=
  P d ∧ (r' = r ∨ (¬ calm ∧ ∃ e, r' = Err e)).

Lemma answers_call {A} (get : disk → result A) (P : disk → Prop) r : (∀ d, P d → L d) → (∀ d, P d → get d = r) →
  triple L calm P (attempt (λ d, (get d, d)) unchanged) (answers P r).
Proof.
  intros HL Hg. apply triple_reads; [done| |].
  - intros d Hd. split; [done|]. left. by apply Hg.
  - intros d e Hn Hd. split; [done|]. right. eauto.
Qed.

Lemma answers_named {A} context (m : on_disk (result A)) P r : triple L calm P m (answers P r) → triple L calm P (named context m) (answers P (wrap context r)).
Proof.
  intros Hm. eapply triple_bind; [exact Hm|]. intros r'. apply triple_ret. intros d [HP [->|[Hn [e ->]]]]; (split; [done|]); [by left|right; by eauto].
Qed.

Lemma answers_ret {A} (r : result A) (P : disk → Prop) : triple L calm P (mret r) (answers P r).
Proof. apply triple_ret. intros d Hd. split; [done|by left]. Qed.

Lemma answers_try {A B} (m : on_disk (result A)) (k : A → on_disk (result B)) P r f :
  triple L calm P m (answers P r) → (∀ a, r = Ok a → triple L calm P (k a) (answers P (f a))) → triple L calm P (try m k) (answers P (r ≫= f)).
Proof.
  intros Hm Hk. eapply triple_bind; [exact Hm|]. intros [a|e]; cbn beta iota.
  - apply triple_pre. intros d [HP [Hr|[_ [e He]]]]; [|done]. subst r. eapply triple_conseq; [| |by apply Hk]; [by intros d' ->|done].
  - apply triple_ret. intros d [HP [<-|[Hn [e' He]]]]; (split; [done|]); [by left|right; by eauto].
Qed.

Lemma answers_conv {A} (m : on_disk (result A)) P r r' : r = r' → triple L calm P m (answers P r) → triple L calm P m (answers P r').
Proof. by intros ->. Qed.

Section reads.
Context (P : disk → Prop) (HL : ∀ d, P d → L d).

Lemma file_shown d name w : shows (dk_inodes d) (dk_dir d) name w → file_at d name = (λ b, MkInode true b true) <$> w.
Proof. unfold file_at, shows. destruct w as [b|]; [intros (i & -> & Hi); exact Hi|by intros ->]. Qed.

Lemma read_answers name w : (∀ d, P d → file_at d name = (λ b, MkInode true b true) <$> w) →
  triple L calm P (loadData name) (answers P (loaded w)).
Proof.
  intros Hw. unfold loadData, loaded.
  eapply answers_conv; [|apply (answers_try _ _ P (wrap "read state" (match w with None => Ok None
    | Some b => reject (MaxStateBytes <? N.of_nat (String.length b))%N (Message "exceeds the maximum");; Ok (Some b) end))
    (λ data, match data with None => Ok None | Some b => state ← wrap "decode state" (DecodeState b); Ok (Some (b, state)) end))].
  - destruct w as [b|]; [|done]. by destruct (_ <? _)%N.
  - apply answers_named. unfold readBoundedRegularFile.
    eapply answers_conv; [|apply (answers_try _ _ P (Ok ((λ b, MkInode true b true) <$> w)) (λ info, match info with None => Ok None
      | Some info => reject (MaxStateBytes <? N.of_nat (String.length (in_bytes info)))%N (Message "exceeds the maximum");; Ok (Some (in_bytes info)) end))].
    + by destruct w.
    + apply answers_call; [done|]. intros d Hd. by rewrite Hw.
    + intros info [= <-]. destruct w as [b|]; cbn; [|by apply answers_ret].
      destruct (MaxStateBytes <? _)%N eqn:Hlen; [by apply answers_ret|].
      eapply answers_conv; [|apply (answers_try _ _ P (Ok (Some b)) (λ _, Ok (Some b)))]; [done| |].
      * apply answers_call; [done|]. intros d Hd. by rewrite Hw.
      * intros a [= <-]. rewrite Hlen. apply answers_ret.
  - intros [b|] _; apply answers_ret.
Qed.
End reads.

(** ** Saving *)

(** What saving does to the contents of the two files when there is no state, when there is
    one, and altogether. *)
Definition initial_spec (expectedGeneration : N) (candidate : State) (encoded : string) (p : option string) : result (option string * option string) :=
  reject (negb (expectedGeneration =? 0)%N) stateConflict;;
  reject (bool_decide (p ≠ None)) stateConflict;;
  reject (negb (st_Generation candidate =? 1)%N) stateConflict;;
  Ok (Some encoded, None).

Definition update_spec (expectedGeneration : N) (candidate : State) (encoded currentData : string) (current : State) : result (option string * option string) :=
  reject ((expectedGeneration =? 0)%N || negb (st_Generation current =? expectedGeneration)%N) stateConflict;;
  wrap "validate state transition" (ValidateTransition current candidate);;
  Ok (Some encoded, Some currentData).

Definition save_spec (expectedGeneration : N) (candidate : State) (real : bool) (v p : option string) : result (option string * option string) :=
  encoded ← wrap "encode candidate state" (EncodeState candidate);
  reject (MaxStateBytes <? N.of_nat (String.length encoded))%N (Message "candidate state exceeds the maximum");;
  reject (negb real) (Message "state directory must be a real directory");;
  current ← loaded v;
  match current with
  | None => initial_spec expectedGeneration candidate encoded p
  | Some (currentData, current) => update_spec expectedGeneration candidate encoded currentData current
  end.

(** The pairs of contents on the way from one to the other: the previous state first. *)
Definition transitional (v p : option string) (spec : result (option string * option string)) (v' p' : option string) : Prop :=
  exactly v p v' p' ∨ match spec with Ok (v2, p2) => exactly v p2 v' p' ∨ exactly v2 p2 v' p' | Err _ => False end.

Lemma loaded_contents v cur : loaded v = Ok cur → v = fst <$> cur.
Proof.
  unfold loaded. destruct v as [b|]; [|by intros [= <-]]. by intros (? & _ & (? & _ & [= <-])%bind_ok)%bind_ok.
Qed.

Section save.
Context (v p : option string) (real : bool).
Context (HQ0 : ∀ v' p', exactly v p v' p' → QL v' p').

Definition before (d : disk) : Prop := steady v p (exactly v p) None d ∧ dk_real d = real.

Definition saved (spec : result (option string * option string)) (r : result unit) (d : disk) : Prop :=
  match spec with
  | Err e => before d ∧ (r = Err e ∨ (¬ calm ∧ ∃ e', r = Err e'))
  | Ok (v', p') => outcome (λ _, steady v' p' (exactly v' p') None) failed r d
  end.

Lemma before_L d : before d → L d.
Proof. intros [Hst _]. exact (steady_L _ _ _ HQ0 _ _ Hst). Qed.

Lemma saved_early spec e d : ¬ calm → before d → saved spec (Err e) d.
Proof.
  intros Hn Hb. destruct spec as [[v' p']|e']; cbn; [|split; [done|right; by eauto]].
  destruct Hb as [Hst _]. by eapply steady_failed.
Qed.

Lemma saved_try {A} (m : on_disk (result A)) (k : A → on_disk (result unit)) r f :
  triple L calm before m (answers before r) → (∀ a, r = Ok a → triple L calm before (k a) (saved (f a))) → triple L calm before (try m k) (saved (r ≫= f)).
Proof.
  intros Hm Hk. eapply triple_bind; [exact Hm|]. intros [a|e]; cbn beta iota.
  - apply triple_pre. intros d [HP [Hr|[_ [e He]]]]; [|done]. subst r. eapply triple_conseq; [| |by apply Hk]; [by intros d' ->|done].
  - apply triple_ret. intros d [HP [<-|[Hn [e' He]]]]; [split; [done|by left]|by apply saved_early].
Qed.

Lemma saved_reject (b : bool) e (k : on_disk (result unit)) spec :
  (b = false → triple L calm before k (saved spec)) → triple L calm before (if b then mret (Err e) else k) (saved (reject b e;; spec)).
Proof. intros Hk. destruct b; [|by apply Hk]. apply triple_ret. intros d Hd. split; [done|by left]. Qed.

Lemma saved_reply e : triple L calm before (mret (Err e)) (saved (Err e)).
Proof. apply triple_ret. intros d Hd. split; [done|by left]. Qed.

Lemma directory_answers : triple L calm before validateStateDirectory (answers before (reject (negb real) (Message "state directory must be a real directory"))).
Proof.
  unfold validateStateDirectory.
  eapply answers_conv; [|apply (answers_try _ _ _ (Ok real) (λ b, reject (negb b) (Message "state directory must be a real directory")))].
  - done.
  - apply (answers_named "inspect state directory" lstat_dir before (Ok real)). apply answers_call; [apply before_L|]. by intros d [_ ->].
  - intros a _. apply answers_ret.
Qed.

Lemma previous_answers : triple L calm before (named "inspect previous state" (lstat (ss_PreviousStateFile store)))
  (answers before (Ok ((λ b, MkInode true b true) <$> p))).
Proof.
  apply (answers_named "inspect previous state" (lstat (ss_PreviousStateFile store)) before (Ok _)). apply answers_call; [apply before_L|].
  intros d [[(_ & [_ Hp] & _) _] _]. rewrite Eprevious. by rewrite (file_shown _ _ _ Hp).
Qed.

Lemma initial_saved expected candidate encoded : v = None → (∀ v' p', transitional v p (initial_spec expected candidate encoded p) v' p' → QL v' p') →
  triple L calm before
    (if negb (expected =? 0)%N then mret (Err stateConflict) else
     try (named "inspect previous state" (lstat (ss_PreviousStateFile store))) (λ previous,
       match previous with Some _ => mret (Err stateConflict)
       | None => if negb (st_Generation candidate =? 1)%N then mret (Err stateConflict) else activateInitial store encoded end))
    (saved (initial_spec expected candidate encoded p)).
Proof.
  intros Hv HQL. unfold initial_spec in *. apply saved_reject. intros H1. rewrite H1 in HQL.
  apply (saved_try _ _ (Ok ((λ b, MkInode true b true) <$> p)) (λ _, _) previous_answers). intros a [= <-].
  destruct p as [c|] eqn:Hp; cbn [fmap option_fmap option_map]; [rewrite bool_decide_eq_true_2; [done|]; apply saved_reply|].
  rewrite bool_decide_eq_false_2 in HQL |- *; [intros Hn; by apply Hn|]. apply saved_reject. intros H2. rewrite H2 in HQL.
  eapply triple_conseq; [| |apply activateInitial_triple]; [intros d [Hst _]; by rewrite Hv Hp in Hst|done|].
  intros v' p' Hp'. apply HQL. unfold transitional. rewrite Hv. cbn. tauto.
Qed.

Lemma update_saved expected candidate encoded cur current : v = Some cur →
  (∀ v' p', transitional v p (update_spec expected candidate encoded cur current) v' p' → QL v' p') →
  triple L calm before
    (if (expected =? 0)%N || negb (st_Generation current =? expected)%N then mret (Err stateConflict) else
     match wrap "validate state transition" (ValidateTransition current candidate) with
     | Err e => mret (Err e) | Ok _ => activateNext store cur encoded end)
    (saved (update_spec expected candidate encoded cur current)).
Proof.
  intros Hv HQL. unfold update_spec in *. apply saved_reject. intros Hgen. rewrite Hgen in HQL.
  destruct (wrap _ (ValidateTransition current candidate)) as [[]|e]; [|apply saved_reply].
  eapply triple_conseq; [| |apply (activateNext_triple cur encoded p)]; [intros d [Hst _]; by rewrite -Hv|done|].
  intros v' p' Hp'. apply HQL. rewrite Hv. exact Hp'.
Qed.

Lemma save_triple expected candidate : (∀ v' p', transitional v p (save_spec expected candidate real v p) v' p' → QL v' p') →
  triple L calm before (Save store expected candidate) (saved (save_spec expected candidate real v p)).
Proof.
  intros HQL. unfold save_spec, Save in *. destruct (wrap _ (EncodeState candidate)) as [encoded|e]; [|apply saved_reply].
  cbn [mbind result_bind] in HQL |- *. apply saved_reject. intros Hlen. rewrite Hlen in HQL.
  apply (saved_try _ _ _ (λ _, _) directory_answers). intros u Hreal. rewrite Hreal in HQL.
  apply (saved_try (loadData (ss_StateFile store)) _ (loaded v)).
  { apply read_answers; [apply before_L|]. intros d [[(_ & [Hv _] & _) _] _]. rewrite Estate. by apply file_shown. }
  intros [[cur current]|] Hcur; rewrite Hcur in HQL; apply loaded_contents in Hcur; [by apply update_saved|by apply initial_saved].
Qed.
End save.
End files.
