(* ===== verification/StoreClaims.v ===== *)
(** * The state store: what it promises

    A save replaces the state and keeps the state it replaced.  Wherever a call fails or
    the machine stops, the two files hold complete states; without failures the store is a
    register with compare-and-swap; over any history of saves and crashes the state is the
    result of accepted transitions. *)

From S2P Require Import Prelude GoTime Proc GoText GoNet Types Checks Resources StateValidate Codec Samples Identity Operation Transition Store StoreFacts.

Local Open Scope string_scope.
Local Open Scope list_scope.

(** The two files have these contents, and a crash does not change them. *)
Definition settled (store : StateStore) (d : disk) (v p : option string) : Prop :=
  holds (ss_StateFile store) (ss_PreviousStateFile store) d v p (exactly v p).

(** The names of the files cannot be names of temporary files. *)
Definition proper_names (store : StateStore) : Prop :=
  plain (ss_StateFile store) ∧ plain (ss_PreviousStateFile store) ∧ ss_StateFile store ≠ ss_PreviousStateFile store.

(** No call fails and no test hook is set. *)
Definition undisturbed (store : StateStore) (h : host) : Prop := ss_hook store = None ∧ ho_faults h = [].

Section facts.
Context `{!JSONTokens} `{!JSONValue State} `{!TempNames}.

Lemma settled_before store d v p : settled store d v p → before (ss_StateFile store) (ss_PreviousStateFile store) v p (dk_real d) d.
Proof. intros Hs. by repeat split; try apply Hs. Qed.

Lemma save_walk store expected candidate h v p (calm : Prop) : proper_names store → (calm → undisturbed store h) → settled store (ho_disk h) v p →
  let spec := save_spec expected candidate (dk_real (ho_disk h)) v p in
  wp (Save store expected candidate) h (λ r es h',
    Forall (λ d, sound d ∧ always (ss_StateFile store) (ss_PreviousStateFile store) d (transitional v p spec)) es ∧ (calm → ho_faults h' = []) ∧
    saved (ss_StateFile store) (ss_PreviousStateFile store) (transitional v p spec) calm v p (dk_real (ho_disk h)) spec r (ho_disk h')).
Proof.
  intros (Hs & Hp & Hne) Hcalm Hset spec.
  eapply wp_mono; [apply (save_triple (ss_StateFile store) (ss_PreviousStateFile store) Hs Hp Hne (transitional v p spec) calm store
    (λ c, proj1 (Hcalm c)) eq_refl eq_refl v p (dk_real (ho_disk h)))|by intros r es h'].
  - by left.
  - done.
  - intros c. by apply Hcalm.
  - by apply settled_before.
Qed.

(** What a rejected save leaves. *)
Lemma before_settled store v p real d : before (ss_StateFile store) (ss_PreviousStateFile store) v p real d → settled store d v p.
Proof. by intros [[Hh _] _]. Qed.

(** Reading a settled file. *)
Lemma load_settled store h v p name w : proper_names store → undisturbed store h → settled store (ho_disk h) v p →
  (name = ss_StateFile store ∧ w = v) ∨ (name = ss_PreviousStateFile store ∧ w = p) →
  (load name h).1.1 = (cur ← loaded w; match cur with None => Err (Sentinel ErrStateNotFound) | Some cur => Ok cur.2 end).
Proof.
  intros (Hs & Hp & Hne) [_ Hf] Hset Hw.
  assert (Hread : wp (loadData name) h (λ r _ _, r = loaded w)).
  { eapply wp_mono; [apply (read_answers (ss_StateFile store) (ss_PreviousStateFile store) (exactly v p) True (λ d, d = ho_disk h))|].
    - intros d ->. destruct Hset as (? & _ & ?). done.
    - intros d ->. apply file_shown. destruct Hset as (_ & [Hv Hp'] & _). by destruct Hw as [[-> ->]|[-> ->]].
    - done.
    - done.
    - intros r es h' (_ & _ & _ & [->|[Hc _]]); [done|by destruct Hc]. }
  unfold load, try, mbind, proc_bind, wp in *. destruct (loadData name h) as [[r es] h']. subst r. by destruct (loaded w) as [[cur|]|e].
Qed.

(** C2: a save never tears the state: wherever a call fails or the machine stops during a
    save, the state file and the previous-state file hold complete contents, either both as
    before, or the old state with itself as previous state, or the new state with the old one
    as previous state; and a save that reports success is durable. *)
Theorem save_crash_safe store expected candidate h v p r es h' : proper_names store → settled store (ho_disk h) v p →
  Save store expected candidate h = (r, es, h') →
  let spec := save_spec expected candidate (dk_real (ho_disk h)) v p in
  (∀ d d', d ∈ es → crashes d d' → ∃ v' p', transitional v p spec v' p' ∧ settled store d' v' p') ∧
  (r = Ok () → ∃ v' p', spec = Ok (v', p') ∧ settled store (ho_disk h') v' p').
Proof.
  intros Hn Hset Hrun spec.
  destruct (wp_run _ _ _ _ _ _ (save_walk store expected candidate h v p False Hn ltac:(done) Hset) Hrun) as (Hes & _ & Hsaved). split.
  - intros d d' Hd Hcrash. rewrite Forall_forall in Hes. destruct (Hes d Hd) as [Hsound Ha]. by apply (crash_holds _ _ d).
  - intros ->. fold spec in Hsaved. unfold saved in Hsaved. destruct spec as [[v' p']|e].
    + exists v', p'. split; [done|]. apply Hsaved.
    + by destruct Hsaved as [_ [?|[_ [? ?]]]].
Qed.

(** C10: without failures the store is a compare-and-swap register: a save succeeds and
    fails exactly as [save_spec] says, with its error, the two files then hold what it says, and
    loading returns the decoded contents of the state file and of the previous-state file. *)
Theorem save_refines_register store expected candidate h v p : proper_names store → undisturbed store h → settled store (ho_disk h) v p →
  let spec := save_spec expected candidate (dk_real (ho_disk h)) v p in
  let '(r, _, h') := Save store expected candidate h in
  let '(v', p') := match spec with Ok q => q | Err _ => (v, p) end in
  r = (spec;; Ok ()) ∧ settled store (ho_disk h') v' p' ∧
  (Load store h').1.1 = (cur ← loaded v'; match cur with None => Err (Sentinel ErrStateNotFound) | Some cur => Ok cur.2 end) ∧
  (LoadPrevious store h').1.1 = (cur ← loaded p'; match cur with None => Err (Sentinel ErrStateNotFound) | Some cur => Ok cur.2 end).
Proof.
  intros Hn Hu Hset spec. destruct (Save store expected candidate h) as [[r es] h'] eqn:Hrun.
  destruct (wp_run _ _ _ _ _ _ (save_walk store expected candidate h v p True Hn (λ _, Hu) Hset) Hrun) as (_ & Hf & Hsaved). fold spec in Hsaved.
  destruct (match spec with Ok q => q | Err _ => (v, p) end) as [v' p'] eqn:Hq.
  assert (Hfin : r = (spec;; Ok ()) ∧ settled store (ho_disk h') v' p').
  { unfold saved in Hsaved. destruct spec as [[v2 p2]|e]; injection Hq as -> ->.
    - destruct r as [[]|e]; [by destruct Hsaved|]. by destruct Hsaved as [Hc _].
    - destruct Hsaved as [Hb [->|[Hc _]]]; [|done]. split; [done|]. by eapply before_settled. }
  destruct Hfin as [Hr Hset']. split_and!; [done|done| |].
  - eapply load_settled; [done|split; [apply Hu|by apply Hf]|done|by left].
  - eapply load_settled; [done|split; [apply Hu|by apply Hf]|done|by right].
Qed.

(** ** Histories *)

(** Disks that saves and crashes lead to: a save that succeeded, or a machine that stopped
    before a save, during it or after it failed. *)
Inductive history (store : StateStore) : disk → Prop :=
  | history_fresh d : settled store d None None → history store d
  | history_saved d hook faults expected candidate es h' : history store d →
      Save (MkStateStore (ss_StateFile store) (ss_PreviousStateFile store) hook) expected candidate (MkHost d faults) = (Ok (), es, h') →
      history store (ho_disk h')
  | history_stopped d hook faults expected candidate r es h' d1 d2 : history store d →
      Save (MkStateStore (ss_StateFile store) (ss_PreviousStateFile store) hook) expected candidate (MkHost d faults) = (r, es, h') →
      d1 ∈ es → crashes d1 d2 → history store d2.

(** The bytes of a first state. *)
Definition initial_bytes (b : string) : Prop := ∃ candidate, EncodeState candidate = Ok b ∧ st_Generation candidate = 1%N.
(** The bytes of a state that is an accepted successor of the state in other bytes. *)
Definition succeeds (c b : string) : Prop :=
  ∃ current candidate, DecodeState c = Ok current ∧ ValidateTransition current candidate = Ok () ∧ EncodeState candidate = Ok b.

(** What the two files can hold: nothing; a first state; a state and its predecessor; a state and itself. *)
Definition lineage (v p : option string) : Prop :=
  match v, p with
  | None, None => True
  | None, Some _ => False
  | Some b, None => initial_bytes b
  | Some b, Some c => c = b ∨ succeeds c b
  end.

Lemma save_lineage expected candidate real v p v' p' v2 p2 : lineage v p → save_spec expected candidate real v p = Ok (v2, p2) →
  exactly v p2 v' p' ∨ exactly v2 p2 v' p' → lineage v' p'.
Proof.
  unfold save_spec. intros Hl (encoded & Henc%wrap_ok & (? & _ & (? & _ & (cur & Hcur & Hs)%bind_ok)%bind_ok)%bind_ok)%bind_ok.
  apply loaded_contents in Hcur as Hv. destruct cur as [[b current]|]; cbn in Hv; subst v.
  - unfold update_spec in Hs. apply bind_ok in Hs as (? & _ & ([] & Hval%wrap_ok & [= <- <-])%bind_ok).
    unfold loaded in Hcur. apply bind_ok in Hcur as (? & _ & (st & Hdec%wrap_ok & [= <-])%bind_ok).
    intros [[-> ->]|[-> ->]]; [by left|]. right. by exists st, candidate.
  - unfold initial_spec in Hs. apply bind_ok in Hs as (? & _ & (? & Hp%reject_ok & (? & Hg%reject_ok & [= <- <-])%bind_ok)%bind_ok).
    intros [[-> ->]|[-> ->]]; [done|]. exists candidate. split; [done|]. by apply negb_false_iff, N.eqb_eq in Hg.
Qed.

(** Over any history of saves, failures and crashes, the state file and the
    previous-state file always hold complete contents; a state without a predecessor is a
    first state of generation 1, and a state with a predecessor is an accepted transition of
    the decoded predecessor, or equal to it when an update was interrupted. *)
Theorem store_history_linked store d : proper_names store → history store d →
  ∃ v p, settled store d v p ∧ lineage v p.
Proof.
  intros Hn. induction 1 as [d Hs|d hook faults expected candidate es h' _ IH Hrun|d hook faults expected candidate r es h' d1 d2 _ IH Hrun Hd1 Hcrash].
  - by exists None, None.
  - destruct IH as (v & p & Hset & Hl).
    destruct (wp_run _ _ _ _ _ _ (save_walk (MkStateStore _ _ hook) expected candidate (MkHost d faults) v p False Hn ltac:(done) Hset) Hrun) as (_ & _ & Hsaved).
    unfold saved in Hsaved. destruct (save_spec _ _ _ _ _) as [[v2 p2]|e] eqn:Hspec; [|by destruct Hsaved as [_ [?|[_ [? ?]]]]].
    exists v2, p2. split; [apply Hsaved|]. by eapply save_lineage; [exact Hl|exact Hspec|right].
  - destruct IH as (v & p & Hset & Hl).
    destruct (wp_run _ _ _ _ _ _ (save_walk (MkStateStore _ _ hook) expected candidate (MkHost d faults) v p False Hn ltac:(done) Hset) Hrun) as (Hes & _ & _).
    rewrite Forall_forall in Hes. destruct (Hes d1 Hd1) as [Hsound Ha]. destruct (crash_holds _ _ d1 d2 _ Hsound Ha Hcrash) as (v' & p' & HQ & Hset').
    exists v', p'. split; [done|]. destruct HQ as [[-> ->]|HQ]; [done|]. destruct (save_spec _ _ _ _ _) as [[v2 p2]|e] eqn:Hspec; [|done].
    by eapply save_lineage.
Qed.
End facts.

(** ** Witnesses *)

(** Two states in a made-up encoding, and names longer than any name in use. *)
#[local] Instance sample_tokens : JSONTokens := {| tokens _ := ([Scalar], None) |}.
#[local] Instance sample_json : JSONValue State := {|
  marshal s := Ok (if (st_Generation s =? 9)%N then "nine" else "ten");
  decode b := if String.eqb b ("nine" +:+ newline) then Ok (sample_state, AtEOF)
              else if String.eqb b ("ten" +:+ newline) then Ok (next_state, AtEOF) else Err (Message "syntax")
|}.

Fixpoint dots (n : nat) : string := match n with O => "" | S n => String "." (dots n) end.
Definition longest (dir : gmap string N) : nat := foldr (λ k n, Nat.max (String.length k) n) 0%nat (map_to_list dir).*1.

Lemma longest_ge dir name i : dir !! name = Some i → (String.length name ≤ longest dir)%nat.
Proof.
  unfold longest. intros Hi. apply elem_of_map_to_list in Hi. assert (Hk : name ∈ (map_to_list dir).*1) by (apply list_elem_of_fmap; by exists (name, i)).
  clear Hi. induction Hk as [|k l' k' _ IH]; cbn; lia.
Qed.

Lemma length_dots n : String.length (dots n) = n.
Proof. induction n; cbn; congruence. Qed.

Lemma length_append s t : String.length (s +:+ t) = (String.length s + String.length t)%nat.
Proof. induction s as [|c s IH]; [done|]. change (S (String.length (s +:+ t)) = S (String.length s + String.length t)). by rewrite IH. Qed.

Lemma prefix_append p t : String.prefix p (p +:+ t) = true.
Proof.
  induction p as [|c p IH]; [by destruct t|]. change ((if ascii_dec c c then String.prefix p (p +:+ t) else false) = true). by destruct (ascii_dec c c).
Qed.

#[local] Program Instance sample_names : TempNames := {| temp_name dir pattern := pattern +:+ dots (S (longest dir)) |}.
Next Obligation.
  intros dir pattern. destruct (dir !! _) as [i|] eqn:Hi; [|done]. apply longest_ge in Hi. rewrite length_append length_dots in Hi. lia.
Qed.
Next Obligation. intros dir pattern. apply prefix_append. Qed.

Definition sample_store : StateStore := MkStateStore "state.json" "state.previous.json" None.
Definition sample_disk : disk :=
  MkDisk true {[0%N := MkInode true ("nine" +:+ newline) true]} {["state.json" := 0%N]} {["state.json" := 0%N]} [] 1.

Lemma sample_settled : settled sample_store sample_disk (Some ("nine" +:+ newline)) None.
Proof.
  split_and!.
  - split; [done|]. intros i f. unfold sample_disk, dk_inodes, dk_next. intros [<- _]%lookup_singleton_Some. lia.
  - split; [by exists 0%N|done].
  - intros kept ->%sublist_nil_r. exists (Some ("nine" +:+ newline)), None. split; [done|]. split; [by exists 0%N|done].
Qed.

Lemma sample_proper : proper_names sample_store.
Proof. by repeat split; vm_compute. Qed.

Lemma sample_accepts : save_spec 9 next_state true (Some ("nine" +:+ newline)) None = Ok (Some ("ten" +:+ newline), Some ("nine" +:+ newline)).
Proof. by vm_compute. Qed.

(** A save during which the last sync of the directory fails. *)
Definition failing_sync : list fault := replicate 18 None ++ [Some (Message "input/output error", "")].

Lemma save_crash_safe_witness :
  (Save sample_store 9 next_state (MkHost sample_disk failing_sync)).1.1 = Err (Wrapped "sync state directory" (Message "input/output error")) ∧
  ∀ d d', d ∈ (Save sample_store 9 next_state (MkHost sample_disk failing_sync)).1.2 → crashes d d' →
    ∃ v p, transitional (Some ("nine" +:+ newline)) None (Ok (Some ("ten" +:+ newline), Some ("nine" +:+ newline))) v p ∧ settled sample_store d' v p.
Proof.
  split; [by vm_compute|]. rewrite -sample_accepts.
  destruct (Save sample_store 9 next_state (MkHost sample_disk failing_sync)) as [[r es] h'] eqn:Hrun.
  exact (proj1 (save_crash_safe sample_store 9 next_state (MkHost sample_disk failing_sync) _ _ r es h' sample_proper sample_settled Hrun)).
Defined.

Lemma save_refines_register_witness :
  (LoadPrevious sample_store (Save sample_store 9 next_state (MkHost sample_disk [])).2).1.1 = Ok sample_state.
Proof.
  assert (H := save_refines_register sample_store 9 next_state (MkHost sample_disk []) _ _ sample_proper (conj eq_refl eq_refl) sample_settled).
  cbv zeta in H. cbn [ho_disk dk_real sample_disk] in H. rewrite sample_accepts in H.
  destruct (Save sample_store 9 next_state (MkHost sample_disk [])) as [[r es] h']. destruct H as (_ & _ & _ & H). cbn [snd]. rewrite H. by vm_compute.
Defined.

Definition empty_disk : disk := MkDisk true ∅ ∅ ∅ [] 0.
Definition first_state : State :=
  MkState 1 1 sample_host None None None None (Some []) (Some []) (Some []) (Some []) (Some []) (Some []) (Some []) (Some []) (Some []) (Some []) (Some []) sample_manifest.

Lemma empty_history : history sample_store empty_disk.
Proof.
  apply history_fresh. split_and!; [split; [done|]; by intros i f|done|]. intros kept ->%sublist_nil_r. exists None, None. done.
Qed.

Lemma first_saved : (Save sample_store 0 first_state (MkHost empty_disk [])).1.1 = Ok ().
Proof. by vm_compute. Qed.

Lemma store_history_linked_witness :
  ∃ v p, settled sample_store (ho_disk (Save sample_store 0 first_state (MkHost empty_disk [])).2) v p ∧ lineage v p.
Proof.
  apply (store_history_linked sample_store _ sample_proper).
  destruct (Save sample_store 0 first_state (MkHost empty_disk [])) as [[r es] h'] eqn:Hrun.
  apply (history_saved sample_store empty_disk None [] 0 first_state es h' empty_history).
  assert (Hr := first_saved). rewrite Hrun in Hr. cbn in Hr. subst r. exact Hrun.
Defined.
