(* ===== verification/Network.v ===== *)
(** * The owned network state ([internal/platform/linux/watchdog_network.go])

    What vpnctl owns of the host's network: one nftables table, three route tables, four
    policy rules and a few sysctls.  It is read and written back with [nft], [ip] and
    [sysctl]; every command is logged. *)

From S2P Require Import Prelude GoTime Proc GoText GoNet Types Checks GoConv Ordered Codec.

Local Open Scope string_scope.
Local Open Scope list_scope.

(** ** Data *)

Record Route := MkRoute {
  rt_Family : string; rt_Destination : string; rt_Gateway : string; rt_Device : string; rt_PreferredSource : string;
  rt_Table : string; rt_Protocol : string; rt_Scope : string; rt_Type : string; rt_Metric : Z
}.
Record PolicyRule := MkPolicyRule {
  rule_Family : string; rule_Priority : Z; rule_From : string; rule_To : string; rule_Table : string;
  rule_FWMark : string; rule_FWMask : string
}.
Record NFTablesTable := MkNFTablesTable { nt_Family : string; nt_Name : string }.
Record NFTablesSnapshot := MkNFTablesSnapshot { ns_Present : bool; ns_Definition : string }.
Record SysctlSnapshot := MkSysctlSnapshot { sy_Name : string; sy_Value : string }.
Record OwnedNetworkScope := MkOwnedNetworkScope { sc_Sysctls : slice string }.
Record NetworkSnapshot := MkNetworkSnapshot {
  sn_SchemaVersion : Z; sn_NFTables : NFTablesSnapshot; sn_Routes : slice Route; sn_PolicyRules : slice PolicyRule; sn_Sysctls : slice SysctlSnapshot
}.

#[export] Instance Route_dec : EqDecision Route.
Proof. solve_decision. Defined.
#[export] Instance PolicyRule_dec : EqDecision PolicyRule.
Proof. solve_decision. Defined.
#[export] Instance NFTablesSnapshot_dec : EqDecision NFTablesSnapshot.
Proof. solve_decision. Defined.
#[export] Instance SysctlSnapshot_dec : EqDecision SysctlSnapshot.
Proof. solve_decision. Defined.
#[export] Instance NetworkSnapshot_dec : EqDecision NetworkSnapshot.
Proof. solve_decision. Defined.

Definition NetworkSnapshotSchemaVersion : Z := 1.
Definition VPNCTLNFTablesFamily : string := "inet".
Definition VPNCTLNFTablesTable : string := "vpnctl".

Definition VPNCTLSelectedRouteTable : string := "20001".
Definition VPNCTLGatewayRouteTable : string := "20002".
Definition VPNCTLStandardProbeRouteTable : string := "20003".
Definition ownedRouteTables : list string := [VPNCTLSelectedRouteTable; VPNCTLGatewayRouteTable; VPNCTLStandardProbeRouteTable].

Definition VPNCTLRecoveryRulePriority : Z := 10000.
Definition VPNCTLIngressRulePriority : Z := 10010.
Definition VPNCTLSelectedRulePriority : Z := 10020.
Definition VPNCTLStandardProbeRulePriority : Z := 10030.

Definition owned_rule (priority : Z) (table mark : string) : PolicyRule := MkPolicyRule "ipv4" priority "all" "" table mark "0xff000000".
Definition owned_rules : list PolicyRule :=
  [ owned_rule VPNCTLRecoveryRulePriority VPNCTLGatewayRouteTable "0x03000000";
    owned_rule VPNCTLIngressRulePriority VPNCTLGatewayRouteTable "0x04000000";
    owned_rule VPNCTLSelectedRulePriority VPNCTLSelectedRouteTable "0x02000000";
    owned_rule VPNCTLStandardProbeRulePriority VPNCTLStandardProbeRouteTable "0x05000000" ].
(** The map from priorities to rules. *)
Definition ownedPolicyRules (priority : Z) : option PolicyRule :=
  find (λ rule, rule_Priority rule =? priority)%Z owned_rules.

(** ** Checks *)

Definition interface_tail (c : ascii) : bool := alnum c || in_chars "_.-" c.
Definition sysctlInterfacePattern : re := Cat (Class alnum) (upto (Class interface_tail) 14).
Definition interfaceNamePattern : re := Cat (Class alnum) (upto (Class interface_tail) 14).
Definition routeTokenPattern : re := plus (Class interface_tail).

Definition sysctl_names : list string :=
  ["net.ipv4.ip_forward"; "net.ipv4.conf.all.accept_redirects"; "net.ipv4.conf.all.src_valid_mark"; "net.ipv4.conf.all.rp_filter";
   "net.ipv4.conf.default.rp_filter"].

Definition allowedSysctl (name : string) : bool :=
  if bool_decide (name ∈ sysctl_names) then true
  else if negb (HasPrefix name "net.ipv4.conf.") || negb (HasSuffix name ".rp_filter") then false
  else let interfaceName := TrimSuffix (TrimPrefix name "net.ipv4.conf.") ".rp_filter" in
       negb (String.eqb interfaceName "all") && negb (String.eqb interfaceName "default") && matches sysctlInterfacePattern interfaceName.

Definition validSysctlValue (value : string) : bool :=
  if String.eqb value "" || (32 <? String.length value)%nat then false
  else match Atoi value with Some _ => true | None => false end.

Definition forwarding : string := "net.ipv4.ip_forward".
(** [net.ipv4.ip_forward] first, then by name. *)
Definition sysctl_le (a b : SysctlSnapshot) : Prop :=
  let leftForwarding := String.eqb (sy_Name a) forwarding in
  let rightForwarding := String.eqb (sy_Name b) forwarding in
  if bool_decide (leftForwarding ≠ rightForwarding) then leftForwarding = true else str_leb (sy_Name a) (sy_Name b) = true.
#[export] Instance sysctl_le_dec a b : Decision (sysctl_le a b).
Proof. unfold sysctl_le. case_match; apply _. Defined.
Definition sysctlRestoreOrder (values : slice SysctlSnapshot) : list SysctlSnapshot := merge_sort sysctl_le (items values).

Definition table_header : string := "table " +:+ VPNCTLNFTablesFamily +:+ " " +:+ VPNCTLNFTablesTable +:+ " {".
Definition forbidden_commands : list string :=
  map (λ command, newline +:+ command +:+ " ") ["include"; "add"; "delete"; "destroy"; "flush"; "rename"; "import"; "export"].

(** The scan of the braces; [closed] says whether the last character closed the outermost one. *)
Record brace_scan := MkScan { bs_depth : Z; bs_string : bool; bs_escaped : bool; bs_closed : bool }.
Definition quote : ascii := byte 34.
Definition backslash : ascii := byte 92.
Definition scan_character (s : brace_scan) (c : ascii) : result brace_scan :=
  if bs_string s then
    if bs_escaped s then Ok (MkScan (bs_depth s) true false false)
    else if Ascii.eqb c backslash then Ok (MkScan (bs_depth s) true true false)
    else Ok (MkScan (bs_depth s) (negb (Ascii.eqb c quote)) false false)
  else if Ascii.eqb c quote then Ok (MkScan (bs_depth s) true (bs_escaped s) false)
  else if Ascii.eqb c "{"%char then Ok (MkScan (bs_depth s + 1) false (bs_escaped s) false)
  else if Ascii.eqb c "}"%char then
    let depth := (bs_depth s - 1)%Z in
    if (depth <? 0)%Z then Err (Message "nftables definition has unbalanced braces")
    else Ok (MkScan depth false (bs_escaped s) (depth =? 0)%Z)
  else Ok (MkScan (bs_depth s) false (bs_escaped s) false).
Fixpoint scan_text (s : brace_scan) (text : string) : result brace_scan :=
  match text with EmptyString => Ok s | String c text => s ← scan_character s c; scan_text s text end.

Definition validateOwnedNFTablesDefinition (definition : string) : result unit :=
  let trimmed := TrimSpace definition in
  reject (negb (HasPrefix trimmed table_header)) (Message "nftables definition must contain only the owned table");;
  reject (existsb (Contains (newline +:+ trimmed)) forbidden_commands) (Message "nftables definition contains a forbidden command");;
  s ← scan_text (MkScan 0 false false false) trimmed;
  reject (bs_string s || negb (bs_depth s =? 0)%Z || negb (bs_closed s)) (Message "nftables definition must be one complete table");;
  reject (negb (Count trimmed table_header =? 1)%nat) (Message "nftables definition must contain one owned table").

Definition route_types : list string := [""; "unicast"; "blackhole"; "unreachable"; "prohibit"; "throw"].

Definition validateOwnedRoute (route : Route) : result unit :=
  let ipv4 := String.eqb (rt_Family route) "ipv4" in
  reject (negb ipv4 && negb (String.eqb (rt_Family route) "ipv6")) (Message "unsupported family");;
  reject (negb (bool_decide (rt_Table route ∈ ownedRouteTables))) (Message "table is outside vpnctl ownership");;
  let bits := if String.eqb (rt_Family route) "ipv6" then 128%N else 32%N in
  (if String.eqb (rt_Destination route) "default" then Ok ()
   else match ParsePrefix (rt_Destination route) with
        | None => Err (Message "invalid destination")
        | Some prefix => reject ((bits <? prefix_bits prefix)%N || negb (Bool.eqb (Is4 (prefix_addr prefix)) ipv4)) (Message "invalid destination")
        end);;
  range_check (λ _ value,
    if String.eqb value "" then Ok ()
    else match ParseAddr value with
         | None => Err (Message "invalid address")
         | Some address => reject (negb (Bool.eqb (Is4 address) ipv4)) (Message "invalid address")
         end) [rt_Gateway route; rt_PreferredSource route];;
  reject (negb (String.eqb (rt_Device route) "") && negb (matches interfaceNamePattern (rt_Device route))) (Message "invalid device");;
  range_check (λ _ value, reject (negb (String.eqb value "") && negb (matches routeTokenPattern value)) (Message "invalid token"))
    [rt_Protocol route; rt_Scope route];;
  reject (negb (bool_decide (rt_Type route ∈ route_types))) (Message "unsupported route type");;
  reject (rt_Metric route <? 0)%Z (Message "metric must not be negative").

Definition normalizeRouteTable (value : string) : string :=
  if String.eqb value "20001" then VPNCTLSelectedRouteTable
  else if String.eqb value "20002" then VPNCTLGatewayRouteTable
  else if String.eqb value "20003" then VPNCTLStandardProbeRouteTable
  else value.

Definition normalizeHex32 (value : string) : option string := hex32 <$> ParseUint0 value 4294967295.

Definition or_all (s : string) : string := if String.eqb s "" then "all" else s.

Definition normalizeOwnedPolicyRule (rule : PolicyRule) : option PolicyRule :=
  expected ← ownedPolicyRules (rule_Priority rule);
  if negb (String.eqb (rule_Family rule) "ipv4") then None else
  let table := normalizeRouteTable (rule_Table rule) in
  match normalizeHex32 (rule_FWMark rule), normalizeHex32 (rule_FWMask rule) with
  | Some mark, Some mask =>
      if negb (String.eqb table (rule_Table expected)) || negb (String.eqb mark (rule_FWMark expected)) || negb (String.eqb mask (rule_FWMask expected))
         || negb (String.eqb (or_all (rule_From rule)) "all") || negb (String.eqb (or_all (rule_To rule)) "all")
      then None else Some expected
  | _, _ => None
  end.

(** A check that adds an issue. *)
Definition has_issue {A} (r : result A) : bool := match r with Ok _ => false | Err _ => true end.

(** The loop over the policy rules: whether there was an issue, and the keys seen. *)
Definition rule_key (rule : PolicyRule) : string := rule_Family rule +:+ ":" +:+ Itoa (rule_Priority rule).
Definition check_rule (s : bool * list string) (rule : PolicyRule) : bool * list string :=
  let '(issue, seen) := s in
  match normalizeOwnedPolicyRule rule with
  | None => (true, seen)
  | Some normalized => (issue || bool_decide (rule_key normalized ∈ seen), rule_key normalized :: seen)
  end.
Definition check_sysctl (s : bool * list string) (sysctl : SysctlSnapshot) : bool * list string :=
  let '(issue, seen) := s in
  (issue || negb (allowedSysctl (sy_Name sysctl)) || negb (validSysctlValue (sy_Value sysctl)) || bool_decide (sy_Name sysctl ∈ seen),
   sy_Name sysctl :: seen).

Definition sn_Validate (snapshot : NetworkSnapshot) : result unit :=
  let nftables := sn_NFTables snapshot in
  let issues :=
    negb (sn_SchemaVersion snapshot =? NetworkSnapshotSchemaVersion)%Z
    || (is_nil (sn_Routes snapshot) || is_nil (sn_PolicyRules snapshot) || is_nil (sn_Sysctls snapshot))
    || (if ns_Present nftables then has_issue (validateOwnedNFTablesDefinition (ns_Definition nftables))
        else negb (String.eqb (ns_Definition nftables) ""))
    || existsb (λ route, has_issue (validateOwnedRoute route)) (items (sn_Routes snapshot))
    || (foldl check_rule (false, []) (items (sn_PolicyRules snapshot))).1
    || (foldl check_sysctl (false, []) (items (sn_Sysctls snapshot))).1 in
  reject issues (Sentinel ErrInvalidNetworkSnapshot).

Definition normalizeSysctlScope (values : slice string) : result (list string) :=
  let sorted := sort_strings (items values) in
  range_check (λ index value,
    reject (negb (allowedSysctl value)) (Message "sysctl is outside vpnctl's network ownership allowlist");;
    reject ((0 <? index)%nat && bool_decide (sorted !! (index - 1)%nat = Some value)) (Message "sysctl is duplicated")) sorted;;
  Ok sorted.

(** ** Commands *)

Record ProbeCommand := MkProbeCommand { pc_Name : string; pc_Args : list string; pc_Stdin : string }.
Record ProbeResult := MkProbeResult { pr_Stdout : string; pr_Stderr : string; pr_ExitCode : Z }.

Definition unless_empty (word value : string) : list string := if String.eqb value "" then [] else [word; value].
(** The words between the action and the table. *)
Definition route_words (route : Route) : list string :=
  (if String.eqb (rt_Type route) "" || String.eqb (rt_Type route) "unicast" then [] else [rt_Type route])
  ++ [rt_Destination route]
  ++ unless_empty "via" (rt_Gateway route)
  ++ unless_empty "dev" (rt_Device route)
  ++ unless_empty "src" (rt_PreferredSource route)
  ++ unless_empty "proto" (rt_Protocol route)
  ++ unless_empty "scope" (rt_Scope route)
  ++ (if (rt_Metric route =? 0)%Z then [] else ["metric"; Itoa (rt_Metric route)]).

Definition routeRestoreArgs (route : Route) : result (list string) :=
  validateOwnedRoute route;;
  let familyFlag := if String.eqb (rt_Family route) "ipv6" then "-6" else "-4" in
  Ok ([familyFlag; "route"; "add"] ++ route_words route ++ ["table"; rt_Table route]).

Definition policyRuleArgs (action : string) (rule : PolicyRule) : list string :=
  ["-4"; "rule"; action; "priority"; Itoa (rule_Priority rule); "fwmark"; rule_FWMark rule +:+ "/" +:+ rule_FWMask rule; "table"; rule_Table rule].

(** ** Reading [nft] and [ip] output ([discovery_parse.go]) *)

Record raw_route := MkRawRoute {
  rr_Destination : string; rr_Gateway : string; rr_Device : string; rr_PreferredSource : string; rr_Table : string;
  rr_Protocol : string; rr_Scope : string; rr_Type : string; rr_Metric : Z
}.
Record raw_rule := MkRawRule { ru_Priority : Z; ru_From : string; ru_To : string; ru_Table : string; ru_FWMark : string; ru_FWMask : string }.
(** The objects of a ruleset; [None] for one that is not a table. *)
Record nft_document := MkNFTDocument { nd_NFTables : slice (option (string * string)) }.

(** [encoding/json] into a type, unknown fields ignored, and on scalars. *)
Class JSONReader (T : Type) := { read_json : string → result (T * rest_of_input) }.
Class JSONScalar := { unmarshal_string : string → option string; unmarshal_number : string → option string }.

(** Running a command, and the error of the context. *)
Class ProbeRunner (W : Type) := {
  Run : ProbeCommand → W → result ProbeResult * W;
  ctx_Err : W → option error
}.

Definition network_event : Type := ProbeCommand * result ProbeResult.

(** [errors.Join] of the errors collected. *)
Definition join_errors (es : list error) : result unit :=
  match es with [] => Ok () | e :: rest => Err (errors_join e (Some <$> rest)) end.

Section manager.
Context {W : Type} `{!ProbeRunner W} `{!JSONReader (list raw_route)} `{!JSONReader (list raw_rule)} `{!JSONReader nft_document} `{!JSONScalar}.

Definition decodeJSON {T} `{!JSONReader T} (data : string) : result T :=
  '(value, rest) ← read_json data;
  match rest with
  | AtEOF => Ok value
  | AnotherDocument => Err (Message "trailing JSON document")
  | TrailingError e => Err (Wrapped "trailing JSON" e)
  end.

Definition rawScalar (raw fallback : string) : result string :=
  if String.eqb raw "" || String.eqb raw "null" then Ok fallback
  else match unmarshal_string raw with
       | Some s => Ok s
       | None => match unmarshal_number raw with Some s => Ok s | None => Err (Message "expected string or number") end
       end.

Fixpoint collect {A B} (f : A → result B) (xs : list A) : result (list B) :=
  match xs with [] => Ok [] | x :: xs => y ← f x; ys ← collect f xs; Ok (y :: ys) end.

Definition parse_route (family : string) (entry : raw_route) : result Route :=
  table ← wrap "route table" (rawScalar (rr_Table entry) "main");
  let destination :=
    if String.eqb (rr_Destination entry) "" then "default"
    else match ParseAddr (rr_Destination entry) with
         | Some address => if String.eqb family "ipv4" && Is4 address then prefix_string (Prefix address 32) else rr_Destination entry
         | None => rr_Destination entry
         end in
  Ok (MkRoute family destination (rr_Gateway entry) (rr_Device entry) (rr_PreferredSource entry) table (rr_Protocol entry) (rr_Scope entry)
        (rr_Type entry) (rr_Metric entry)).
Definition parseRoutes (data family : string) : result (list Route) :=
  raw ← decodeJSON data; collect (parse_route family) raw.

Definition parse_rule (family : string) (entry : raw_rule) : result PolicyRule :=
  table ← wrap "policy table" (rawScalar (ru_Table entry) "");
  mark ← wrap "policy fwmark" (rawScalar (ru_FWMark entry) "");
  mask ← wrap "policy fwmask" (rawScalar (ru_FWMask entry) "");
  Ok (MkPolicyRule family (ru_Priority entry) (ru_From entry) (ru_To entry) table mark mask).
Definition parsePolicyRules (data family : string) : result (list PolicyRule) :=
  raw ← decodeJSON data; collect (parse_rule family) raw.

Fixpoint nft_tables (objects : list (option (string * string))) : result (list NFTablesTable) :=
  match objects with
  | [] => Ok []
  | None :: objects => nft_tables objects
  | Some (family, name) :: objects =>
      reject (String.eqb family "" || String.eqb name "") (Message "nftables table lacks family or name");;
      tables ← nft_tables objects;
      Ok (MkNFTablesTable family name :: tables)
  end.
Definition parseNFTables (data : string) : result (list NFTablesTable) :=
  document ← decodeJSON data; nft_tables (items (nd_NFTables document)).

(** ** The manager *)

Abbreviation run A := (proc W network_event A).
Definition issue (command : ProbeCommand) : run (result ProbeResult) := call (Run command) (λ r, [(command, r)]).
Definition context_error : run (option error) := λ w, (ctx_Err w, [], w).
Definition command (name : string) (args : list string) : ProbeCommand := MkProbeCommand name args "".

Definition exited (stdout stderr : string) : error := Message "command failed".

Definition runChecked (c : ProbeCommand) : run (result ProbeResult) :=
  result ← issue c;
  match result with
  | Err e => cancelled ← context_error; mret (Err (default e cancelled))
  | Ok result => mret (reject (negb (pr_ExitCode result =? 0)%Z) (exited (pr_Stdout result) (pr_Stderr result));; Ok result)
  end.

Definition runRouteTableCommand (c : ProbeCommand) : run (result ProbeResult) :=
  result ← issue c;
  match result with
  | Err e => cancelled ← context_error; mret (Err (default e cancelled))
  | Ok result =>
      if (pr_ExitCode result =? 0)%Z then mret (Ok result)
      else if Contains (ToLower (pr_Stderr result)) "fib table does not exist" then mret (Ok (MkProbeResult ("[]" +:+ newline) "" 0))
      else mret (Err (exited (pr_Stdout result) (pr_Stderr result)))
  end.

Notation "x ←? m ; k" := (mbind (λ r, match r with Err e => mret (Err e) | Ok x => k end) (m : run (result _))) (at level 20, m at level 100, k at level 200, right associativity).

Definition list_tables : ProbeCommand := command "nft" ["--json"; "list"; "tables"].
Definition show_table : ProbeCommand := command "nft" ["--stateless"; "-nn"; "list"; "table"; VPNCTLNFTablesFamily; VPNCTLNFTablesTable].

Definition snapshotNFTables : run (result NFTablesSnapshot) :=
  result ←? (r ← runChecked list_tables; mret (wrap "list nftables tables" r));
  match wrap "parse nftables tables" (parseNFTables (pr_Stdout result)) with
  | Err e => mret (Err e)
  | Ok tables =>
      if negb (existsb (λ table, String.eqb (nt_Family table) VPNCTLNFTablesFamily && String.eqb (nt_Name table) VPNCTLNFTablesTable) tables)
      then mret (Ok (MkNFTablesSnapshot false ""))
      else
        definition ←? (r ← runChecked show_table; mret (wrap "snapshot nftables table" r));
        mret (validateOwnedNFTablesDefinition (pr_Stdout definition);; Ok (MkNFTablesSnapshot true (pr_Stdout definition)))
  end.

Definition families : list (string * string) := [("ipv4", "-4"); ("ipv6", "-6")].
Definition family_tables : list (string * string * string) := family ← families; table ← ownedRouteTables; [(family.1, family.2, table)].

Definition set_rt_Table (table : string) (route : Route) : Route :=
  MkRoute (rt_Family route) (rt_Destination route) (rt_Gateway route) (rt_Device route) (rt_PreferredSource route) table
    (rt_Protocol route) (rt_Scope route) (rt_Type route) (rt_Metric route).

Definition nul_char : string := bytes [0%N].
Definition route_key (route : Route) : string :=
  rt_Family route +:+ nul_char +:+ rt_Table route +:+ nul_char +:+ rt_Destination route +:+ nul_char +:+ rt_Type route +:+ nul_char
  +:+ rt_Gateway route +:+ nul_char +:+ rt_Device route +:+ nul_char +:+ Itoa (rt_Metric route).
(** Routes with the same key may come in any order. *)
Definition sortRoutes (routes : list Route) : list Route := sort_by route_key routes.

Fixpoint snapshot_tables (tables : list (string * string * string)) (routes : list Route) : run (result (list Route)) :=
  match tables with
  | [] => mret (Ok routes)
  | (family, flag, table) :: tables =>
      result ←? runRouteTableCommand (command "ip" ["-json"; flag; "route"; "show"; "table"; table]);
      match wrap "parse route table" (parseRoutes (pr_Stdout result) family) with
      | Err e => mret (Err e)
      | Ok parsed =>
          match wrap "snapshot route table" (collect (λ route, let route := set_rt_Table table route in validateOwnedRoute route;; Ok route) parsed) with
          | Err e => mret (Err e)
          | Ok owned => snapshot_tables tables (routes ++ owned)
          end
      end
  end.
Definition snapshotRoutes : run (result (list Route)) :=
  routes ←? snapshot_tables family_tables []; mret (Ok (sortRoutes routes)).

(** One family's rules: other priorities are skipped, reserved ones must be vpnctl's and unique. *)
Fixpoint reserved_rules (family : string) (seen : list Z) (parsed : list PolicyRule) : result (list PolicyRule) :=
  match parsed with
  | [] => Ok []
  | rule :: parsed =>
      match ownedPolicyRules (rule_Priority rule) with
      | None => reserved_rules family seen parsed
      | Some _ =>
          match normalizeOwnedPolicyRule rule with
          | None => Err (Message "reserved policy priority is occupied")
          | Some normalized =>
              reject (negb (String.eqb family "ipv4")) (Message "reserved policy priority is occupied");;
              reject (bool_decide (rule_Priority rule ∈ seen)) (Message "reserved policy priority has duplicate rules");;
              rules ← reserved_rules family (rule_Priority rule :: seen) parsed;
              Ok (normalized :: rules)
          end
      end
  end.

Definition priority_le (a b : PolicyRule) : Prop := (rule_Priority a <= rule_Priority b)%Z.
#[export] Instance priority_le_dec a b : Decision (priority_le a b).
Proof. unfold priority_le. apply _. Defined.

Fixpoint snapshot_families (fs : list (string * string)) (rules : list PolicyRule) : run (result (list PolicyRule)) :=
  match fs with
  | [] => mret (Ok rules)
  | (family, flag) :: fs =>
      result ←? (r ← runChecked (command "ip" ["-json"; flag; "rule"; "show"]); mret (wrap "snapshot policy rules" r));
      match parsed ← wrap "parse policy rules" (parsePolicyRules (pr_Stdout result) family); reserved_rules family [] parsed with
      | Err e => mret (Err e)
      | Ok found => snapshot_families fs (rules ++ found)
      end
  end.
Definition snapshotPolicyRules : run (result (list PolicyRule)) :=
  rules ←? snapshot_families families []; mret (Ok (merge_sort priority_le rules)).

Fixpoint snapshot_sysctls (names : list string) (values : list SysctlSnapshot) : run (result (list SysctlSnapshot)) :=
  match names with
  | [] => mret (Ok values)
  | name :: names =>
      result ←? (r ← runChecked (command "sysctl" ["-n"; name]); mret (wrap "snapshot sysctl" r));
      let value := TrimSpace (pr_Stdout result) in
      if negb (validSysctlValue value) then mret (Err (Message "unsupported value"))
      else snapshot_sysctls names (values ++ [MkSysctlSnapshot name value])
  end.

Definition Snapshot (scope : OwnedNetworkScope) : run (result NetworkSnapshot) :=
  match normalizeSysctlScope (sc_Sysctls scope) with
  | Err e => mret (Err e)
  | Ok sysctls =>
      nftables ←? snapshotNFTables;
      routes ←? snapshotRoutes;
      rules ←? snapshotPolicyRules;
      values ←? snapshot_sysctls sysctls [];
      let snapshot := MkNetworkSnapshot NetworkSnapshotSchemaVersion nftables (Some routes) (Some rules) (Some values) in
      mret (sn_Validate snapshot;; Ok snapshot)
  end.

(** ** Restoring *)

Definition nft_batch (present : bool) (snapshot : NFTablesSnapshot) : string :=
  (if present then "delete table " +:+ VPNCTLNFTablesFamily +:+ " " +:+ VPNCTLNFTablesTable +:+ newline else "")
  +:+ (if ns_Present snapshot then ns_Definition snapshot +:+ (if HasSuffix (ns_Definition snapshot) newline then "" else newline) else "").

Definition restoreNFTables (snapshot : NFTablesSnapshot) : run (result unit) :=
  current ←? snapshotNFTables;
  let batch := nft_batch (ns_Present current) snapshot in
  if (String.length batch =? 0)%nat then mret (Ok ())
  else
    _ ←? (r ← runChecked (MkProbeCommand "nft" ["--check"; "--file"; "-"] batch); mret (wrap "validate nftables rollback" r));
    _ ←? (r ← runChecked (MkProbeCommand "nft" ["--file"; "-"] batch); mret (wrap "restore nftables table" r));
    mret (Ok ()).

(** Runs every step and collects the errors. *)
Fixpoint attempt_all {A} (step : A → run (result unit)) (xs : list A) : run (list error) :=
  match xs with
  | [] => mret []
  | x :: xs => r ← step x; es ← attempt_all step xs; mret (match r with Ok _ => es | Err e => e :: es end)
  end.

Definition forget {A} (context : string) (m : run (result A)) : run (result unit) := r ← m; mret (wrap context r;; Ok ()).

Definition flush_table (table : string * string * string) : run (result unit) :=
  forget "flush route table" (runRouteTableCommand (command "ip" [table.1.2; "route"; "flush"; "table"; table.2])).
Definition restore_route (route : Route) : run (result unit) :=
  match routeRestoreArgs route with
  | Err e => mret (Err e)
  | Ok args => forget "restore route" (runChecked (command "ip" args))
  end.
Definition restoreRoutes (routes : slice Route) : run (result unit) :=
  flushed ← attempt_all flush_table family_tables;
  restored ← attempt_all restore_route (items routes);
  mret (join_errors (flushed ++ restored)).

Definition currentOwnedPolicyRules : run (result (list PolicyRule)) :=
  result ←? (r ← runChecked (command "ip" ["-json"; "-4"; "rule"; "show"]); mret (wrap "list current IPv4 policy rules" r));
  mret (parsed ← wrap "parse current IPv4 policy rules" (parsePolicyRules (pr_Stdout result) "ipv4");
        Ok (merge_sort priority_le (omap normalizeOwnedPolicyRule parsed))).

Definition change_rule (action : string) (rule : PolicyRule) : run (result unit) :=
  forget "policy rule" (runChecked (command "ip" (policyRuleArgs action rule))).
Definition restorePolicyRules (prior : slice PolicyRule) : run (result unit) :=
  current ← currentOwnedPolicyRules;
  removed ← match current with Err e => mret [e] | Ok current => attempt_all (change_rule "del") current end;
  added ← attempt_all (change_rule "add") (items prior);
  mret (join_errors (removed ++ added)).

Definition restore_sysctl (sysctl : SysctlSnapshot) : run (result unit) :=
  forget "restore sysctl" (runChecked (command "sysctl" ["-q"; "-w"; sy_Name sysctl +:+ "=" +:+ sy_Value sysctl])).

Definition error_list (r : result unit) : list error := match r with Ok _ => [] | Err e => [e] end.

Definition Restore (snapshot : NetworkSnapshot) : run (result unit) :=
  match sn_Validate snapshot with
  | Err e => mret (Err e)
  | Ok _ =>
      nft ← restoreNFTables (sn_NFTables snapshot);
      routes ← restoreRoutes (sn_Routes snapshot);
      rules ← restorePolicyRules (sn_PolicyRules snapshot);
      sysctls ← attempt_all restore_sysctl (sysctlRestoreOrder (sn_Sysctls snapshot));
      mret (join_errors (error_list nft ++ error_list routes ++ error_list rules ++ sysctls))
  end.
End manager.
