(* ===== verification/NetworkFacts.v ===== *)
(** * The owned network state: what snapshots and restores do

    A restore issues only checked commands, tries every change whatever fails before it, and
    reports success only when every command succeeded; a snapshot only reads. *)

From S2P Require Import Prelude GoTime Proc GoText GoNet Types Checks GoConv Ordered Codec Network.

Local Open Scope string_scope.
Local Open Scope list_scope.

(** ** Commands *)

Definition flush_command (table : string * string * string) : ProbeCommand := command "ip" [table.1.2; "route"; "flush"; "table"; table.2].
Definition add_command (route : Route) : ProbeCommand := command "ip" (match routeRestoreArgs route with Ok args => args | Err _ => [] end).
Definition rule_command (action : string) (rule : PolicyRule) : ProbeCommand := command "ip" (policyRuleArgs action rule).
Definition write_command (sysctl : SysctlSnapshot) : ProbeCommand := command "sysctl" ["-q"; "-w"; sy_Name sysctl +:+ "=" +:+ sy_Value sysctl].

(** What is owned, spelled out: the route tables, the policy rules as priority, table and
    mark under the mask of the highest byte, and the sysctls. *)
Definition ip_families : list string := ["-4"; "-6"].
Definition owned_tables : list string := ["20001"; "20002"; "20003"].
Definition owned_marks : list (string * string * N) :=
  [("10000", "20002", 50331648); ("10010", "20002", 67108864); ("10020", "20001", 33554432); ("10030", "20003", 83886080)]%N.
Definition owned_mask : N := 4278190080.
Definition owned_sysctl (name : string) : Prop :=
  name ∈ ["net.ipv4.ip_forward"; "net.ipv4.conf.all.accept_redirects"; "net.ipv4.conf.all.src_valid_mark"; "net.ipv4.conf.all.rp_filter";
          "net.ipv4.conf.default.rp_filter"] ∨
  (HasPrefix name "net.ipv4.conf." = true ∧ HasSuffix name ".rp_filter" = true).

(** A definition that opens the owned table first and only once and starts no line with a
    command that changes tables; the text for [nft] deletes the owned table when it is
    there, before the definition. *)
Definition owned_definition (definition : string) : Prop :=
  HasPrefix (TrimSpace definition) "table inet vpnctl {" = true ∧ Count (TrimSpace definition) "table inet vpnctl {" = 1 ∧
  ∀ word, word ∈ ["include"; "add"; "delete"; "destroy"; "flush"; "rename"; "import"; "export"] →
    Contains (newline +:+ TrimSpace definition) (newline +:+ word +:+ " ") = false.
Definition owned_batch (text : string) : Prop :=
  ∃ (present : bool) loaded, text = (if present then "delete table inet vpnctl" +:+ newline else "") +:+ loaded ∧
    (loaded = "" ∨ ∃ definition, owned_definition definition ∧ (loaded = definition ∨ loaded = definition +:+ newline)).

(** Commands that change nothing. *)
Inductive reading : ProbeCommand → Prop :=
  | reads_tables : reading (MkProbeCommand "nft" ["--json"; "list"; "tables"] "")
  | reads_table : reading (MkProbeCommand "nft" ["--stateless"; "-nn"; "list"; "table"; "inet"; "vpnctl"] "")
  | reads_routes flag table : flag ∈ ip_families → table ∈ owned_tables → reading (MkProbeCommand "ip" ["-json"; flag; "route"; "show"; "table"; table] "")
  | reads_rules flag : flag ∈ ip_families → reading (MkProbeCommand "ip" ["-json"; flag; "rule"; "show"] "")
  | reads_sysctl name : owned_sysctl name → reading (MkProbeCommand "sysctl" ["-n"; name] "")
  | checks_batch text : owned_batch text → reading (MkProbeCommand "nft" ["--check"; "--file"; "-"] text).

(** The words of a route: a kind, a destination of the family, and options with a value each,
    none of which names a table. *)
Definition route_kinds : list string := ["blackhole"; "unreachable"; "prohibit"; "throw"].
Definition route_options : list string := ["via"; "dev"; "src"; "proto"; "scope"; "metric"].
Definition option_words (options : list (string * string)) : list string := option ← options; [option.1; option.2].
Definition route_arguments (flag : string) (words : list string) : Prop :=
  ∃ kind destination options, words = kind ++ destination :: option_words options ∧
    (kind = [] ∨ ∃ t, kind = [t] ∧ t ∈ route_kinds) ∧
    (destination = "default" ∨ ∃ prefix, ParsePrefix destination = Some prefix ∧ Is4 (prefix_addr prefix) = bool_decide (flag = "-4")) ∧
    Forall (λ option, option.1 ∈ route_options) options ∧ NoDup options.*1.

(** Changes: the definition that was checked replaces the owned table, a route of an owned
    table, an owned policy rule, an owned sysctl. *)
Inductive changing : ProbeCommand → Prop :=
  | loads_batch text : owned_batch text → changing (MkProbeCommand "nft" ["--file"; "-"] text)
  | flushes flag table : flag ∈ ip_families → table ∈ owned_tables → changing (MkProbeCommand "ip" [flag; "route"; "flush"; "table"; table] "")
  | adds_route flag words table : flag ∈ ip_families → route_arguments flag words → table ∈ owned_tables →
      changing (MkProbeCommand "ip" ([flag; "route"; "add"] ++ words ++ ["table"; table]) "")
  | changes_rule action priority table mark fwmark fwmask : action ∈ ["add"; "del"] → (priority, table, mark) ∈ owned_marks →
      ParseUint0 fwmark 4294967295 = Some mark → ParseUint0 fwmask 4294967295 = Some owned_mask →
      changing (MkProbeCommand "ip" ["-4"; "rule"; action; "priority"; priority; "fwmark"; fwmark +:+ "/" +:+ fwmask; "table"; table] "")
  | writes_sysctl name value : owned_sysctl name → value ≠ "" → (String.length value ≤ 32)%nat → is_Some (Atoi value) →
      changing (MkProbeCommand "sysctl" ["-q"; "-w"; name +:+ "=" +:+ value] "").

(** A command that succeeded; flushing a table that does not exist counts. *)
Definition succeeded (e : network_event) : Prop :=
  ∃ result, e.2 = Ok result ∧ (pr_ExitCode result = 0%Z ∨ ("flush" ∈ pc_Args e.1 ∧ Contains (ToLower (pr_Stderr result)) "fib table does not exist" = true)).

Lemma join_errors_ok es : join_errors es = Ok () ↔ es = [].
Proof. destruct es; naive_solver. Qed.

Lemma error_list_nil r : error_list r = [] ↔ r = Ok ().
Proof. destruct r as [[]|]; naive_solver. Qed.

(** Rules in the form of the table are their own normal form. *)
Lemma owned_rules_normal rule : rule ∈ owned_rules → normalizeOwnedPolicyRule rule = Some rule.
Proof.
  unfold owned_rules. rewrite !elem_of_cons. intros [->|[->|[->|[->|[]%elem_of_nil]]]]; by vm_compute.
Qed.

Lemma normalize_owned rule normalized : normalizeOwnedPolicyRule rule = Some normalized → normalized ∈ owned_rules.
Proof.
  unfold normalizeOwnedPolicyRule, ownedPolicyRules. intros (expected & Hf & H)%bind_Some. apply List.find_some in Hf as [Hin _].
  apply list_elem_of_In in Hin. repeat case_match; naive_solver.
Qed.

Lemma normalizeRouteTable_id table : normalizeRouteTable table = table.
Proof. unfold normalizeRouteTable. repeat case_match; by (match goal with H : String.eqb _ _ = true |- _ => apply String.eqb_eq in H as -> end) || done. Qed.

(** The printed mark of a 32-bit number determines it. *)
Lemma hex_digit_inj a b : (a < 16)%N → (b < 16)%N → hex_digit a = hex_digit b → a = b.
Proof.
  intros Ha Hb Heq. assert (Hnd : NoDup (hex_digit <$> (N.of_nat <$> seq 0 16))) by (by apply (bool_decide_eq_true_1 _); vm_compute).
  assert (Hl : ∀ k, (k < 16)%N → (hex_digit <$> (N.of_nat <$> seq 0 16)) !! N.to_nat k = Some (hex_digit k)).
  { intros k Hk. rewrite !list_lookup_fmap lookup_seq_lt; [lia|]. cbn. by rewrite N2Nat.id. }
  apply N2Nat.inj, (NoDup_lookup _ _ _ (hex_digit a) Hnd); [by apply Hl|by rewrite Heq; apply Hl].
Qed.

Lemma base16_inj (k : nat) a b : (a < 16 ^ N.of_nat k)%N → (b < 16 ^ N.of_nat k)%N →
  (∀ i, (i < N.of_nat k)%N → ((a / 16 ^ i) mod 16 = (b / 16 ^ i) mod 16)%N) → a = b.
Proof.
  revert a b. induction k as [|k IH]; intros a b Ha Hb Hd; [change (16 ^ N.of_nat 0)%N with 1%N in *; lia|].
  rewrite Nat2N.inj_succ N.pow_succ_r in Ha, Hb; [lia|]. assert (H0 := Hd 0%N ltac:(lia)). rewrite N.pow_0_r !N.div_1_r in H0.
  assert (Hq : (a / 16 = b / 16)%N).
  { apply IH; [by apply N.Div0.div_lt_upper_bound|by apply N.Div0.div_lt_upper_bound|]. intros i Hi. rewrite !N.Div0.div_div -N.pow_succ_r; [lia|]. apply Hd. lia. }
  rewrite (N.div_mod a 16) // (N.div_mod b 16) // Hq H0. done.
Qed.

Lemma hex32_inj a b : (a < 4294967296)%N → (b < 4294967296)%N → hex32 a = hex32 b → a = b.
Proof.
  intros Ha Hb Heq. apply (base16_inj 8); [done|done|]. unfold hex32 in Heq. cbn [foldr] in Heq. injection Heq as H7 H6 H5 H4 H3 H2 H1 H0.
  intros i Hi. assert (Hi' : i ∈ [7; 6; 5; 4; 3; 2; 1; 0]%N) by (change (N.of_nat 8) with 8%N in Hi; clear -Hi; rewrite !elem_of_cons; lia).
  apply hex_digit_inj; [by apply N.mod_lt|by apply N.mod_lt|]. rewrite !elem_of_cons in Hi'. by destruct Hi' as [->|[->|[->|[->|[->|[->|[->|[->|[]%elem_of_nil]]]]]]]].
Qed.

Lemma uint_digits_bound base maximum s acc n : (acc <= maximum)%N → uint_digits base maximum acc s = Some n → (n <= maximum)%N.
Proof.
  revert acc. induction s as [|c s IH]; intros acc Hacc; cbn; [by intros [= <-]|]. destruct (Ascii.eqb c underscore); [by apply IH|].
  destruct (digit36 c) as [d|]; [|done]. cbn. destruct (_ || _) eqn:Hor; [done|]. apply orb_false_iff in Hor as [_ Hle]. by apply IH, N.ltb_ge.
Qed.

Lemma ParseUint0_bound s maximum n : ParseUint0 s maximum = Some n → (n <= maximum)%N.
Proof.
  unfold ParseUint0. destruct (String.eqb s ""); [done|]. destruct (base_prefix s) as [base digits]. intros (m & Hm & H)%bind_Some.
  destruct (_ && _); [done|]. injection H as <-. eapply uint_digits_bound; [|exact Hm]. lia.
Qed.

Lemma hex32_same a b text : normalizeHex32 a = Some text → normalizeHex32 b = Some text → ParseUint0 a 4294967295 = ParseUint0 b 4294967295.
Proof.
  unfold normalizeHex32. destruct (ParseUint0 a _) as [m|] eqn:Ha; [|done]. destruct (ParseUint0 b _) as [n|] eqn:Hb; [|done].
  intros H1%(inj Some) H2%(inj Some). f_equal. apply ParseUint0_bound in Ha, Hb. apply hex32_inj; [lia|lia|congruence].
Qed.

Lemma owned_text owned : owned ∈ owned_rules → normalizeHex32 (rule_FWMark owned) = Some (rule_FWMark owned) ∧
  normalizeHex32 (rule_FWMask owned) = Some (rule_FWMask owned).
Proof. unfold owned_rules. rewrite !elem_of_cons. intros [->|[->|[->|[->|[]%elem_of_nil]]]]; by vm_compute. Qed.

(** What an accepted rule is: it has the priority, the table, the mark and the mask of an
    owned one. *)
Lemma normalize_spec rule owned : normalizeOwnedPolicyRule rule = Some owned →
  owned ∈ owned_rules ∧ rule_Priority rule = rule_Priority owned ∧ rule_Table rule = rule_Table owned ∧
  ParseUint0 (rule_FWMark rule) 4294967295 = ParseUint0 (rule_FWMark owned) 4294967295 ∧
  ParseUint0 (rule_FWMask rule) 4294967295 = ParseUint0 (rule_FWMask owned) 4294967295.
Proof.
  intros Hn. assert (Hin := normalize_owned _ _ Hn). unfold normalizeOwnedPolicyRule, ownedPolicyRules in Hn. apply bind_Some in Hn as (expected & Hf & Hn).
  apply List.find_some in Hf as [_ Hprio]. destruct (negb _); [done|]. destruct (normalizeHex32 (rule_FWMark rule)) as [mark|] eqn:Hmark; [|done].
  destruct (normalizeHex32 (rule_FWMask rule)) as [mask|] eqn:Hmask; [|done]. destruct (_ || _) eqn:Hor; [done|]. injection Hn as ->.
  rewrite !orb_false_iff !negb_false_iff !String.eqb_eq normalizeRouteTable_id in Hor. destruct Hor as [[[[Ht Hm] Hk] _] _]. split; [done|]. split; [lia|]. split; [done|].
  destruct (owned_text owned Hin) as [H1 H2]. split; eapply hex32_same; [by rewrite Hmark Hm|exact H1|by rewrite Hmask Hk|exact H2].
Qed.

(** The rules of the table, spelled out. *)
Lemma owned_spelled owned : owned ∈ owned_rules → ∃ mark, (Itoa (rule_Priority owned), rule_Table owned, mark) ∈ owned_marks ∧
  ParseUint0 (rule_FWMark owned) 4294967295 = Some mark ∧ ParseUint0 (rule_FWMask owned) 4294967295 = Some owned_mask.
Proof.
  unfold owned_rules. rewrite !elem_of_cons. intros [->|[->|[->|[->|[]%elem_of_nil]]]]; eexists; (split; [|split; by vm_compute]);
    apply (bool_decide_eq_true_1 _); by vm_compute.
Qed.

Lemma rule_spelled action rule owned : action ∈ ["add"; "del"] → normalizeOwnedPolicyRule rule = Some owned → changing (rule_command action rule).
Proof.
  intros Ha (Hin & Hp & Ht & Hm & Hk)%normalize_spec. destruct (owned_spelled owned Hin) as (mark & H1 & H2 & H3).
  unfold rule_command, policyRuleArgs, command. rewrite Hp Ht. apply (changes_rule _ _ _ mark); congruence || done.
Qed.

Lemma family_table_spelled family flag table : (family, flag, table) ∈ family_tables → flag ∈ ip_families ∧ table ∈ owned_tables.
Proof.
  intros Hin. assert (Hall : Forall (λ t : string * string * string, t.1.2 ∈ ip_families ∧ t.2 ∈ owned_tables) family_tables).
  { apply (bool_decide_eq_true_1 _). by vm_compute. }
  rewrite Forall_forall in Hall. exact (Hall _ Hin).
Qed.

Lemma families_spelled f : f ∈ families → f.2 ∈ ip_families.
Proof. unfold families. rewrite !elem_of_cons. intros [->|[->|[]%elem_of_nil]]; cbn; set_solver. Qed.

Lemma allowed_spelled name : allowedSysctl name = true → owned_sysctl name.
Proof.
  unfold allowedSysctl. case_bool_decide as Hn; [by left|]. destruct (HasPrefix _ _) eqn:H1; [|done]. destruct (HasSuffix _ _) eqn:H2; [|done]. by right.
Qed.

Lemma value_spelled value : validSysctlValue value = true → value ≠ "" ∧ (String.length value ≤ 32)%nat ∧ is_Some (Atoi value).
Proof.
  unfold validSysctlValue. destruct (String.eqb_spec value ""); [done|]. destruct (Nat.ltb_spec 32 (String.length value)); [done|]. cbn.
  destruct (Atoi value); [by eauto|done].
Qed.

Lemma definition_spelled definition : validateOwnedNFTablesDefinition definition = Ok () → owned_definition definition.
Proof.
  unfold validateOwnedNFTablesDefinition.
  intros (_ & Hp%reject_ok%negb_false_iff & (_ & Hf%reject_ok & (s & _ & (_ & _ & Hc%reject_ok%negb_false_iff%Nat.eqb_eq)%bind_ok)%bind_ok)%bind_ok)%bind_ok.
  split_and!; [done|done|]. intros word Hw. apply not_true_is_false. intros Hc'. apply not_true_iff_false in Hf. apply Hf.
  apply existsb_exists. exists (newline +:+ word +:+ " "). split; [|done]. apply list_elem_of_In, list_elem_of_fmap. by exists word.
Qed.

Lemma batch_spelled present snapshot : (ns_Present snapshot = true → validateOwnedNFTablesDefinition (ns_Definition snapshot) = Ok ()) →
  owned_batch (nft_batch present snapshot).
Proof.
  intros Hd. eexists present, _. split; [reflexivity|]. destruct (ns_Present snapshot); [right|by left]. eexists. split; [by apply definition_spelled, Hd|].
  destruct (HasSuffix _ _); [left|by right]. apply str_app_nil_r.
Qed.

Definition option_pair (word value : string) : list (string * string) := if String.eqb value "" then [] else [(word, value)].

Lemma option_words_app os os' : option_words (os ++ os') = option_words os ++ option_words os'.
Proof. unfold option_words. apply bind_app. Qed.
Lemma option_pair_words word value : option_words (option_pair word value) = unless_empty word value.
Proof. unfold option_pair, unless_empty. by destruct (String.eqb value ""). Qed.

(** The options of a route, in their order. *)
Definition options_of (route : Route) : list (string * string) :=
  option_pair "via" (rt_Gateway route) ++ option_pair "dev" (rt_Device route) ++ option_pair "src" (rt_PreferredSource route)
  ++ option_pair "proto" (rt_Protocol route) ++ option_pair "scope" (rt_Scope route)
  ++ (if (rt_Metric route =? 0)%Z then [] else [("metric", Itoa (rt_Metric route))]).

Lemma options_of_words route : option_words (options_of route) =
  unless_empty "via" (rt_Gateway route) ++ unless_empty "dev" (rt_Device route) ++ unless_empty "src" (rt_PreferredSource route)
  ++ unless_empty "proto" (rt_Protocol route) ++ unless_empty "scope" (rt_Scope route)
  ++ (if (rt_Metric route =? 0)%Z then [] else ["metric"; Itoa (rt_Metric route)]).
Proof. unfold options_of. rewrite !option_words_app !option_pair_words. by destruct (_ =? _)%Z. Qed.

Lemma options_of_names route : (options_of route).*1 `sublist_of` route_options.
Proof.
  unfold options_of, option_pair, route_options. rewrite !fmap_app.
  repeat (case_match; cbn [fmap list_fmap app fst]; first [apply sublist_skip|apply sublist_cons|idtac]); apply sublist_nil_l || done.
Qed.

Lemma add_command_shape route : validateOwnedRoute route = Ok () → ∃ flag words, flag ∈ ["-4"; "-6"] ∧ route_arguments flag words ∧
  rt_Table route ∈ ownedRouteTables ∧ add_command route = command "ip" ([flag; "route"; "add"] ++ words ++ ["table"; rt_Table route]).
Proof.
  intros Hv. unfold add_command, routeRestoreArgs. rewrite Hv. cbn [mbind result_bind]. unfold validateOwnedRoute in Hv.
  apply bind_ok in Hv as (_ & Hfamily%reject_ok & (_ & Ht%reject_ok & (u & Hdest & (_ & _ & (_ & _ & (_ & _ & (_ & Htype%reject_ok & _)%bind_ok)%bind_ok)%bind_ok)%bind_ok)%bind_ok)%bind_ok).
  apply negb_false_iff, bool_decide_eq_true in Ht. apply negb_false_iff, bool_decide_eq_true in Htype.
  exists (if String.eqb (rt_Family route) "ipv6" then "-6" else "-4"), (route_words route). split_and!; [destruct (String.eqb _ "ipv6"); set_solver| |done|reflexivity]. unfold route_words. rewrite -options_of_words.
  eexists _, (rt_Destination route), (options_of route). split_and!; [reflexivity| | | |].
  - destruct (String.eqb_spec (rt_Type route) ""); [by left|]. destruct (String.eqb_spec (rt_Type route) "unicast"); [by left|]. right. eexists. split; [done|].
    unfold route_types in Htype. unfold route_kinds. set_solver.
  - destruct (String.eqb_spec (rt_Destination route) "default") as [|]; [by left|right]. destruct (ParsePrefix _) as [prefix|]; [|done]. exists prefix. split; [done|].
    apply reject_ok, orb_false_iff in Hdest as [_ H4%negb_false_iff%Bool.eqb_prop]. rewrite H4.
    destruct (String.eqb_spec (rt_Family route) "ipv4") as [->|Hn]; [done|]. by destruct (String.eqb (rt_Family route) "ipv6").
  - apply Forall_forall. intros o Ho. eapply elem_of_sublist; [|apply options_of_names]. by apply list_elem_of_fmap_2.
  - eapply sublist_NoDup; [|apply options_of_names]. by apply (bool_decide_eq_true_1 _); vm_compute.
Qed.

Section manager.
Context {W : Type} `{!ProbeRunner W} `{!JSONReader (list raw_route)} `{!JSONReader (list raw_rule)} `{!JSONReader nft_document} `{!JSONScalar}.
Abbreviation run A := (proc W network_event A).

(** A program that issues exactly one command, and succeeds only if it did. *)
Definition one {A} (m : run (result A)) (c : ProbeCommand) : Prop :=
  ∀ w, wp m w (λ r es _, ∃ o, es = [(c, o)] ∧ ((∃ a, r = Ok a) → succeeded (c, o))).

Lemma checked_one c : one (runChecked c) c.
Proof.
  intros w. unfold runChecked, issue. wp_step. wp_step. destruct a as [result|e].
  - wp_step. exists (Ok result). split; [done|]. intros (a & (u & Hexit%reject_ok & _)%bind_ok). exists result. split; [done|]. left. cbn. lia.
  - apply wp_bind. unfold context_error, wp. cbn. exists (Err e). split; [done|]. by intros [a Ha].
Qed.

Lemma table_one c : "flush" ∈ pc_Args c → one (runRouteTableCommand c) c.
Proof.
  intros Hc w. unfold runRouteTableCommand, issue. wp_step. wp_step. destruct a as [result|e].
  - destruct (_ =? _)%Z eqn:Hexit; [wp_step; exists (Ok result); split; [done|]; intros _; exists result; split; [done|]; left; cbn; lia|].
    destruct (Contains _ _) eqn:Hfib; wp_step; exists (Ok result); (split; [done|]); [intros _; exists result; split; [done|by right]|by intros [a Ha]].
  - apply wp_bind. unfold context_error, wp. cbn. exists (Err e). split; [done|]. by intros [a Ha].
Qed.

Lemma forget_one {A} context (m : run (result A)) c : one m c → one (forget context m) c.
Proof.
  intros Hm w. unfold forget. wp_step. eapply wp_mono; [exact (Hm w)|]. intros r es w' (o & -> & Ho). wp_step. exists o. split; [done|].
  intros [[] (a & Ha & _)%bind_ok]. apply Ho. exists a. by destruct r.
Qed.

(** Every step is tried, in order. *)
Lemma attempt_all_commands {A} (step : A → run (result unit)) (c : A → ProbeCommand) xs : (∀ x, x ∈ xs → one (step x) (c x)) →
  ∀ w, wp (attempt_all step xs) w (λ errs es _, es.*1 = c <$> xs ∧ (errs = [] → Forall succeeded es)).
Proof.
  induction xs as [|x xs IH]; intros Hone w; cbn [attempt_all]; [by wp_step|]. wp_step. eapply wp_mono; [apply Hone; left|]. intros r es w1 (o & -> & Ho).
  wp_step. eapply wp_mono; [apply IH; intros y Hy; apply Hone; by right|]. intros errs es' w2 (Hes & Herrs). wp_step.
  rewrite app_nil_r. split; [by cbn [app]; rewrite fmap_cons Hes|]. destruct r as [[]|e]; [|done]. intros ->. constructor; [apply Ho; by exists ()|by apply Herrs].
Qed.

(** ** Restoring *)

(** What is sent to [nft]. *)
Definition nft_commands (snapshot : NFTablesSnapshot) (es : list network_event) : Prop :=
  ∃ present, Forall (λ e, e.1 ∈ [list_tables; show_table; MkProbeCommand "nft" ["--check"; "--file"; "-"] (nft_batch present snapshot);
                                 MkProbeCommand "nft" ["--file"; "-"] (nft_batch present snapshot)]) es.

(** A command in the middle of a program. *)
Lemma one_step {A B} (m : run (result A)) (k : A → run (result B)) c w Q :
  one m c → (∀ o e w', Q (Err e) [(c, o)] w') →
  (∀ o a w', succeeded (c, o) → wp (k a) w' (λ r es w2, Q r ((c, o) :: es) w2)) →
  wp (mbind (λ r, match r with Err e => mret (Err e) | Ok x => k x end) m) w Q.
Proof.
  intros Hm He Hk. wp_step. eapply wp_mono; [exact (Hm w)|]. intros [a|e] es w' (o & -> & Ho); [|wp_step; apply He].
  apply Hk. apply Ho. by exists a.
Qed.

Lemma wrap_one {A} context (m : run (result A)) c : one m c → one (r ← m; mret (wrap context r)) c.
Proof.
  intros Hm w. wp_step. eapply wp_mono; [exact (Hm w)|]. intros r es w' (o & -> & Ho). wp_step. exists o. split; [done|].
  intros [a Ha]. apply Ho. exists a. by destruct r.
Qed.

Lemma snapshotNFTables_commands w : wp snapshotNFTables w (λ r es _,
  Forall (λ e, e.1 ∈ [list_tables; show_table]) es ∧
  ∀ s, r = Ok s → Forall succeeded es ∧ (ns_Present s = true → validateOwnedNFTablesDefinition (ns_Definition s) = Ok ())).
Proof.
  unfold snapshotNFTables. apply (one_step _ _ list_tables); [apply wrap_one, checked_one|..].
  - intros o e w'. split; [by repeat constructor|done].
  - intros o result w1 Ho. destruct (wrap _ (parseNFTables _)) as [tables|e]; [|wp_step; split; [by repeat constructor|done]].
    destruct (negb _); [wp_step; split; [by repeat constructor|]; intros s [= <-]; split; [by repeat constructor|done]|].
    apply (one_step _ _ show_table); [apply wrap_one, checked_one|..].
    + intros o' e w'. split; [repeat constructor; set_solver|done].
    + intros o' definition w2 Ho'. wp_step. split; [repeat constructor; set_solver|]. intros s ([] & Hd & [= <-])%bind_ok. split; [by repeat constructor|done].
Qed.

Lemma restoreNFTables_commands snapshot w : wp (restoreNFTables snapshot) w (λ r es _,
  nft_commands snapshot es ∧ (r = Ok () → Forall succeeded es)).
Proof.
  unfold restoreNFTables. wp_step. eapply wp_mono; [apply snapshotNFTables_commands|]. intros [current|e] es w1 (Hes & Hs).
  2:{ wp_step. rewrite app_nil_r. split; [|done]. exists false. eapply Forall_impl; [exact Hes|]. intros x Hx. cbn in *. set_solver. }
  destruct (Hs current eq_refl) as [Hok _]. cbv zeta. set (batch := nft_batch (ns_Present current) snapshot).
  assert (Hes' : Forall (λ e, e.1 ∈ [list_tables; show_table; MkProbeCommand "nft" ["--check"; "--file"; "-"] batch; MkProbeCommand "nft" ["--file"; "-"] batch]) es).
  { eapply Forall_impl; [exact Hes|]. intros x Hx. cbn in *. set_solver. }
  destruct (_ =? _)%nat; [wp_step; rewrite app_nil_r; split; [by exists (ns_Present current)|done]|].
  apply (one_step _ _ (MkProbeCommand "nft" ["--check"; "--file"; "-"] batch)); [apply wrap_one, checked_one|..].
  - intros o e w'. split; [|done]. exists (ns_Present current). fold batch. apply Forall_app. split; [done|]. repeat constructor; set_solver.
  - intros o u w2 Ho. apply (one_step _ _ (MkProbeCommand "nft" ["--file"; "-"] batch)); [apply wrap_one, checked_one|..].
    + intros o' e w'. split; [|done]. exists (ns_Present current). fold batch. apply Forall_app. split; [done|]. repeat constructor; set_solver.
    + intros o' u' w3 Ho'. wp_step. split; [|intros _; apply Forall_app; split; [done|by repeat constructor]].
      exists (ns_Present current). fold batch. apply Forall_app. split; [done|]. repeat constructor; set_solver.
Qed.

Lemma app_nil {A} (l k : list A) : l ++ k = [] ↔ l = [] ∧ k = [].
Proof. split; [apply app_eq_nil|by intros [-> ->]]. Qed.

Lemma family_flush table : table ∈ family_tables → one (flush_table table) (flush_command table).
Proof. intros _. apply forget_one, table_one. cbn. set_solver. Qed.

Lemma valid_route_one route : validateOwnedRoute route = Ok () → one (restore_route route) (add_command route).
Proof.
  intros Hv. unfold restore_route, add_command, routeRestoreArgs. rewrite Hv. cbn [mbind result_bind]. apply forget_one, checked_one.
Qed.

Lemma restoreRoutes_commands routes w : Forall (λ route, validateOwnedRoute route = Ok ()) (items routes) →
  wp (restoreRoutes routes) w (λ r es _,
    es.*1 = (flush_command <$> family_tables) ++ (add_command <$> items routes) ∧ (r = Ok () → Forall succeeded es)).
Proof.
  intros Hv. unfold restoreRoutes. wp_step. eapply wp_mono; [apply (attempt_all_commands _ flush_command), family_flush|]. intros errs es w1 (Hes & Hok).
  wp_step. eapply wp_mono; [apply (attempt_all_commands _ add_command); intros x Hx; apply valid_route_one; by eapply Forall_forall in Hv|].
  intros errs' es' w2 (Hes' & Hok'). wp_step. rewrite app_nil_r fmap_app Hes Hes'. split; [done|].
  intros [H1 H2]%join_errors_ok%app_nil. apply Forall_app. auto.
Qed.

Definition show_rules : ProbeCommand := command "ip" ["-json"; "-4"; "rule"; "show"].

Lemma currentOwnedPolicyRules_commands w : wp currentOwnedPolicyRules w (λ r es _,
  ∃ o, es = [(show_rules, o)] ∧ ∀ rules, r = Ok rules → succeeded (show_rules, o) ∧ ∀ rule, rule ∈ rules → rule ∈ owned_rules).
Proof.
  unfold currentOwnedPolicyRules. apply (one_step _ _ show_rules); [apply wrap_one, checked_one|intros o e w'; by exists o|].
  intros o result w1 Ho. wp_step. exists o. split; [done|]. intros rules (parsed & _ & [= <-])%bind_ok. split; [done|].
  intros rule. rewrite merge_sort_Permutation list_elem_of_omap. intros (x & _ & Hx). by eapply normalize_owned.
Qed.

Lemma change_rule_one action rule : one (change_rule action rule) (rule_command action rule).
Proof. apply forget_one, checked_one. Qed.

Lemma restorePolicyRules_commands prior w : wp (restorePolicyRules prior) w (λ r es _,
  ∃ removed, (∀ rule, rule ∈ removed → rule ∈ owned_rules) ∧
    es.*1 = show_rules :: (rule_command "del" <$> removed) ++ (rule_command "add" <$> items prior) ∧ (r = Ok () → Forall succeeded es)).
Proof.
  unfold restorePolicyRules. wp_step. eapply wp_mono; [apply currentOwnedPolicyRules_commands|]. intros current es w1 (o & -> & Hcur).
  wp_step. apply (wp_mono _ _ (λ errs es _, ∃ removed, (∀ rule, rule ∈ removed → rule ∈ owned_rules) ∧
    es.*1 = rule_command "del" <$> removed ∧ (errs = [] → succeeded (show_rules, o) ∧ Forall succeeded es))).
  - destruct current as [rules|e]; [|wp_step; exists []; split_and!; [by intros ? ?%elem_of_nil|done|done]]. destruct (Hcur rules eq_refl) as [Ho Hin].
    eapply wp_mono; [apply (attempt_all_commands _ (rule_command "del")); intros; apply change_rule_one|].
    intros errs es w2 (Hes & Hok). exists rules. auto.
  - intros errs es w2 (removed & Hin & Hes & Hok). wp_step.
    eapply wp_mono; [apply (attempt_all_commands _ (rule_command "add")); intros; apply change_rule_one|].
    intros errs' es' w3 (Hes' & Hok'). wp_step. exists removed. rewrite app_nil_r. split; [done|]. cbn [app]. rewrite fmap_cons fmap_app Hes Hes'.
    split; [done|]. intros [H1 H2]%join_errors_ok%app_nil. destruct (Hok H1). constructor; [done|]. apply Forall_app. auto.
Qed.

Lemma restore_sysctl_one sysctl : one (restore_sysctl sysctl) (write_command sysctl).
Proof. apply forget_one, checked_one. Qed.

(** A loop that remembers an issue finds none in any element. *)
Lemma no_issue {A S} (body : bool * S → A → bool * S) (bad : A → Prop) xs s :
  (∀ s x, (body s x).1 = false → s.1 = false ∧ ¬ bad x) → (foldl body s xs).1 = false → s.1 = false ∧ ∀ x, x ∈ xs → ¬ bad x.
Proof.
  intros Hbody. revert s. induction xs as [|x xs IH]; intros s; cbn; [intros ->; split; [done|set_solver]|].
  intros (Hs & Hin)%IH. apply Hbody in Hs as [Hs Hx]. split; [done|]. intros y [->|Hy]%elem_of_cons; auto.
Qed.

Lemma valid_rules rules : (foldl check_rule (false, []) rules).1 = false → ∀ rule, rule ∈ rules → is_Some (normalizeOwnedPolicyRule rule).
Proof.
  intros Hf rule Hin. apply not_eq_None_Some. revert rule Hin.
  apply (no_issue check_rule (λ rule, normalizeOwnedPolicyRule rule = None) rules (false, [])); [|done].
  intros [issue seen] rule. unfold check_rule. destruct (normalizeOwnedPolicyRule rule); [|done]. cbn. intros [-> _]%orb_false_iff. done.
Qed.

Lemma valid_sysctls sysctls : (foldl check_sysctl (false, []) sysctls).1 = false →
  ∀ sysctl, sysctl ∈ sysctls → allowedSysctl (sy_Name sysctl) = true ∧ validSysctlValue (sy_Value sysctl) = true.
Proof.
  intros Hf sysctl Hin.
  destruct (no_issue check_sysctl (λ s, ¬ (allowedSysctl (sy_Name s) = true ∧ validSysctlValue (sy_Value s) = true)) sysctls (false, [])) as [_ Hno]; [|done|].
  - intros [issue seen] x. cbn. rewrite !orb_false_iff !negb_false_iff. intros (((-> & ->) & ->) & _). split; [done|]. intros Hn. by apply Hn.
  - specialize (Hno sysctl Hin). destruct (allowedSysctl _), (validSysctlValue _); naive_solver.
Qed.

Lemma valid_snapshot snapshot : sn_Validate snapshot = Ok () →
  (ns_Present (sn_NFTables snapshot) = true → validateOwnedNFTablesDefinition (ns_Definition (sn_NFTables snapshot)) = Ok ()) ∧
  (∀ route, route ∈ items (sn_Routes snapshot) → validateOwnedRoute route = Ok ()) ∧
  (∀ rule, rule ∈ items (sn_PolicyRules snapshot) → is_Some (normalizeOwnedPolicyRule rule)) ∧
  (∀ sysctl, sysctl ∈ items (sn_Sysctls snapshot) → allowedSysctl (sy_Name sysctl) = true ∧ validSysctlValue (sy_Value sysctl) = true).
Proof.
  intros Hi%reject_ok. rewrite !orb_false_iff in Hi. destruct Hi as [[[[_ Hn] Hr] Hp] Hs]. split_and!.
  - intros Hpres. rewrite Hpres in Hn. by destruct (validateOwnedNFTablesDefinition _) as [[]|].
  - intros route Hin. destruct (validateOwnedRoute route) as [[]|e] eqn:Hv; [done|]. exfalso.
    assert (Ht : existsb (λ route, has_issue (validateOwnedRoute route)) (items (sn_Routes snapshot)) = true); [|congruence].
    apply existsb_exists. exists route. split; [by apply list_elem_of_In|by rewrite Hv].
  - by apply valid_rules.
  - by apply valid_sysctls.
Qed.

(** The commands of a restore, and what its success means. *)
Definition restores (snapshot : NetworkSnapshot) (r : result unit) (es : list network_event) : Prop :=
  ∃ nft removed, nft_commands (sn_NFTables snapshot) nft ∧ (∀ rule, rule ∈ removed → rule ∈ owned_rules) ∧
    es.*1 = nft.*1 ++ (flush_command <$> family_tables) ++ (add_command <$> items (sn_Routes snapshot))
            ++ show_rules :: (rule_command "del" <$> removed) ++ (rule_command "add" <$> items (sn_PolicyRules snapshot))
            ++ (write_command <$> sysctlRestoreOrder (sn_Sysctls snapshot)) ∧
    (r = Ok () → Forall succeeded es).

Lemma restore_walk snapshot w : sn_Validate snapshot = Ok () → wp (Restore snapshot) w (λ r es _, restores snapshot r es).
Proof.
  intros Hv. unfold Restore. rewrite Hv.
  wp_step. eapply wp_mono; [apply restoreNFTables_commands|]. intros rn nft w1 (Hn & Hnok).
  wp_step. eapply wp_mono; [apply restoreRoutes_commands, Forall_forall; by apply valid_snapshot|]. intros rr es2 w2 (H2 & H2ok).
  wp_step. eapply wp_mono; [apply restorePolicyRules_commands|]. intros rp es3 w3 (removed & Hrem & H3 & H3ok).
  wp_step. eapply wp_mono; [apply (attempt_all_commands _ write_command); intros; apply restore_sysctl_one|]. intros errs es4 w4 (H4 & H4ok).
  wp_step. exists nft, removed. rewrite app_nil_r !fmap_app H2 H3 H4 -!app_assoc. cbn [app]. rewrite -!app_assoc. split_and!; [done|done|done|].
  intros (?%error_list_nil & (?%error_list_nil & (?%error_list_nil & ?)%app_nil)%app_nil)%join_errors_ok%app_nil.
  repeat (apply Forall_app; split); auto.
Qed.

(** Restoring a valid snapshot tries every change whatever fails before it: after the
    commands to [nft] all six route tables are flushed, every route of the snapshot is added,
    the policy rules found are deleted and those of the snapshot added, and every sysctl is
    written in the restore order; success is reported only if every command succeeded. *)
Theorem restore_attempts_everything snapshot w r es w' : sn_Validate snapshot = Ok () → Restore snapshot w = (r, es, w') →
  ∃ nft removed, nft_commands (sn_NFTables snapshot) nft ∧ (∀ rule, rule ∈ removed → rule ∈ owned_rules) ∧
    es.*1 = nft.*1 ++ (flush_command <$> family_tables) ++ (add_command <$> items (sn_Routes snapshot))
            ++ show_rules :: (rule_command "del" <$> removed) ++ (rule_command "add" <$> items (sn_PolicyRules snapshot))
            ++ (write_command <$> sysctlRestoreOrder (sn_Sysctls snapshot)) ∧
    (r = Ok () → Forall succeeded es).
Proof. intros Hv Hrun. exact (wp_run _ _ _ _ _ _ (restore_walk snapshot w Hv) Hrun). Qed.

Lemma commands_owned snapshot r es : sn_Validate snapshot = Ok () → restores snapshot r es → ∀ e, e ∈ es → reading e.1 ∨ changing e.1.
Proof.
  intros (Hn & Hr & Hp & Hs)%valid_snapshot (nft & removed & [present Hnft] & Hrem & Hes & _) e He.
  assert (Hc : e.1 ∈ es.*1) by (apply list_elem_of_fmap; eauto). revert Hc. generalize (e.1). clear e He. intros c.
  rewrite Hes !elem_of_app elem_of_cons !elem_of_app !list_elem_of_fmap.
  intros [(e & -> & He)|[(t & -> & Ht)|[(x & -> & Hx)|[->|[(x & -> & Hx)|[(x & -> & Hx)|(x & -> & Hx)]]]]]].
  - rewrite Forall_forall in Hnft. specialize (Hnft e He). rewrite !elem_of_cons in Hnft.
    destruct Hnft as [->|[->|[->|[->|[]%elem_of_nil]]]].
    + left. apply reads_tables.
    + left. apply reads_table.
    + left. by apply checks_batch, batch_spelled.
    + right. by apply loads_batch, batch_spelled.
  - right. destruct t as [[family flag] table]. apply family_table_spelled in Ht as [Hf Ht]. by apply flushes.
  - right. destruct (add_command_shape x) as (flag & words & Hf & Hw & Ht & ->); [auto|]. by apply adds_route.
  - left. apply reads_rules. by left.
  - right. apply (rule_spelled "del" x x); [set_solver|by apply owned_rules_normal, Hrem].
  - right. destruct (Hp x Hx) as [owned Ho]. apply (rule_spelled "add" x owned); [set_solver|done].
  - right. unfold sysctlRestoreOrder in Hx. rewrite merge_sort_Permutation in Hx. destruct (Hs x Hx) as [Ha%allowed_spelled (? & ? & ?)%value_spelled].
    by apply writes_sysctl.
Qed.


(** ** Snapshots *)

Abbreviation only_reads es := (Forall (λ e : network_event, reading e.1) es).

Lemma table_reads c w : reading c → wp (runRouteTableCommand c) w (λ _ es _, only_reads es).
Proof.
  intros Hc. unfold runRouteTableCommand, issue. wp_step. wp_step. destruct a as [result|e].
  - repeat case_match; wp_step; by repeat constructor.
  - apply wp_bind. unfold context_error, wp. cbn. by repeat constructor.
Qed.

Lemma reads_bind {A B} (m : run (result A)) (k : A → run (result B)) w :
  wp m w (λ _ es _, only_reads es) → (∀ a w', wp (k a) w' (λ _ es _, only_reads es)) →
  wp (mbind (λ r, match r with Err e => mret (Err e) | Ok x => k x end) m) w (λ _ es _, only_reads es).
Proof.
  intros Hm Hk. wp_step. eapply wp_mono; [exact Hm|]. intros [a|e] es w' Hes.
  - eapply wp_mono; [apply Hk|]. intros r es' w2 Hes'. by apply Forall_app.
  - wp_step. by rewrite app_nil_r.
Qed.

Lemma checked_reads {A} context (m : run (result A)) c w : one m c → reading c → wp (r ← m; mret (wrap context r)) w (λ _ es _, only_reads es).
Proof.
  intros Hm Hc. wp_step. eapply wp_mono; [apply Hm|]. intros r es w' (o & -> & _). wp_step. by repeat constructor.
Qed.

Lemma snapshot_tables_reads tables routes w : (∀ t, t ∈ tables → t ∈ family_tables) → wp (snapshot_tables tables routes) w (λ _ es _, only_reads es).
Proof.
  revert routes w. induction tables as [|[[family flag] table] tables IH]; intros routes w Hin; cbn [snapshot_tables]; [by wp_step|].
  apply reads_bind; [apply table_reads; apply reads_routes; eapply (family_table_spelled family); apply Hin; by left|]. intros result w1.
  repeat case_match; [|by wp_step..]. apply IH. intros t Ht. apply Hin. by right.
Qed.

Lemma snapshot_families_reads fs rules w : (∀ f, f ∈ fs → f.2 ∈ ip_families) → wp (snapshot_families fs rules) w (λ _ es _, only_reads es).
Proof.
  revert rules w. induction fs as [|[family flag] fs IH]; intros rules w Hin; cbn [snapshot_families]; [by wp_step|].
  apply reads_bind; [eapply checked_reads; [apply checked_one|]; apply reads_rules; apply (Hin (family, flag)); by left|]. intros result w1.
  case_match; [|by wp_step]. apply IH. intros f Hf. apply Hin. by right.
Qed.

Lemma snapshot_sysctls_reads names values w : (∀ n, n ∈ names → allowedSysctl n = true) → wp (snapshot_sysctls names values) w (λ _ es _, only_reads es).
Proof.
  revert values w. induction names as [|name names IH]; intros values w Hin; cbn [snapshot_sysctls]; [by wp_step|].
  apply reads_bind; [eapply checked_reads; [apply checked_one|]; apply reads_sysctl, allowed_spelled, Hin; by left|]. intros result w1. cbv zeta.
  destruct (negb _); [by wp_step|]. apply IH. intros n Hn. apply Hin. by right.
Qed.

Lemma scope_allowed values sorted : normalizeSysctlScope values = Ok sorted → sorted = sort_strings (items values) ∧ ∀ n, n ∈ sorted → allowedSysctl n = true.
Proof.
  unfold normalizeSysctlScope. intros ([] & Hc & [= <-])%bind_ok. split; [done|]. intros n Hn.
  apply list_elem_of_lookup_1 in Hn as [i Hi]. rewrite range_check_ok in Hc. specialize (Hc i n Hi).
  apply bind_ok in Hc as ([] & Ha%reject_ok & _). by apply negb_false_iff in Ha.
Qed.

(** A snapshot changes nothing, and what it returns can be restored: every command it
    runs only reads what vpnctl owns, and a snapshot it returns is valid, so that a restore
    does not refuse it. *)
Theorem snapshot_reads_and_restorable scope w r es w' : Snapshot scope w = (r, es, w') →
  (∀ e, e ∈ es → reading e.1) ∧ (∀ snapshot, r = Ok snapshot → sn_Validate snapshot = Ok ()).
Proof.
  intros Hrun. split.
  - apply Forall_forall. revert r es w' Hrun. enough (wp (Snapshot scope) w (λ _ es _, only_reads es)) as Hw by (intros r es w' Hrun; exact (wp_run _ _ _ _ _ _ Hw Hrun)).
    unfold Snapshot. destruct (normalizeSysctlScope _) as [sysctls|e] eqn:Hs; [|by wp_step]. apply scope_allowed in Hs as [_ Hs].
    apply reads_bind.
    { eapply wp_mono; [apply snapshotNFTables_commands|]. intros r es w' [Hes _]. eapply Forall_impl; [exact Hes|].
      intros x. cbn. rewrite !elem_of_cons. intros [->|[->|[]%elem_of_nil]]; constructor. }
    intros nftables w1. apply reads_bind; [unfold snapshotRoutes; apply reads_bind; [by apply snapshot_tables_reads|intros ? ?; by wp_step]|].
    intros routes w2. apply reads_bind; [unfold snapshotPolicyRules; apply reads_bind; [apply snapshot_families_reads, families_spelled|intros ? ?; by wp_step]|].
    intros rules w3. apply reads_bind; [by apply snapshot_sysctls_reads|]. intros values w4. by wp_step.
  - enough (wp (Snapshot scope) w (λ r _ _, ∀ snapshot, r = Ok snapshot → sn_Validate snapshot = Ok ())) as Hw by exact (wp_run _ _ _ _ _ _ Hw Hrun).
    unfold Snapshot. destruct (normalizeSysctlScope _) as [sysctls|e]; [|by wp_step].
    do 4 (wp_step; apply wp_intro; intros [?|?] ? ? _; [|by wp_step]). wp_step. intros snapshot ([] & Hv & [= <-])%bind_ok. done.
Qed.
End manager.

(** ** Definitions with a second table *)

(** The scan of a definition accepts a foreign table after the owned one. *)
Lemma definition_admits_second_table : validateOwnedNFTablesDefinition "table inet vpnctl { } table ip filter { }" = Ok ().
Proof. by vm_compute. Qed.

(** ** Witnesses *)

Section witness.
(** A host where every command succeeds, with one IPv4 rule of vpnctl's. *)
#[local] Instance quiet : ProbeRunner unit := {| Run c w := (Ok (MkProbeResult (if bool_decide ("-4" ∈ pc_Args c) then "4" else "") "" 0), w); ctx_Err _ := None |}.
#[local] Instance no_routes : JSONReader (list raw_route) := {| read_json _ := Ok ([], AtEOF) |}.
#[local] Instance one_rule : JSONReader (list raw_rule) := {|
  read_json data := Ok (if String.eqb data "4" then [MkRawRule 10020 "all" "" "20001" "0x2000000" "0xff000000"] else [], AtEOF)
|}.
#[local] Instance no_tables : JSONReader nft_document := {| read_json _ := Ok (MkNFTDocument None, AtEOF) |}.
#[local] Instance bare_scalars : JSONScalar := {| unmarshal_string s := Some s; unmarshal_number _ := None |}.

Definition sample_network : NetworkSnapshot :=
  MkNetworkSnapshot 1 (MkNFTablesSnapshot true "table inet vpnctl { }")
    (Some [MkRoute "ipv4" "10.67.0.0/24" "" "vpn0" "" "20001" "static" "link" "" 0])
    (Some [owned_rule 10000 "20002" "0x03000000"])
    (Some [MkSysctlSnapshot "net.ipv4.conf.all.rp_filter" "2"; MkSysctlSnapshot "net.ipv4.ip_forward" "0"]).

Lemma sample_network_valid : sn_Validate sample_network = Ok ().
Proof. by vm_compute. Qed.

Lemma restore_attempts_everything_witness : (Restore sample_network ()).1.1 = Ok () ∧ length (Restore sample_network ()).1.2 = 15.
Proof.
  split; [|by vm_compute]. destruct (Restore sample_network ()) as [[r es] w'] eqn:Hrun.
  destruct (restore_attempts_everything sample_network () r es w' sample_network_valid Hrun) as (nft & removed & _ & _ & _ & _).
  assert (Hr : (Restore sample_network ()).1.1 = Ok ()) by (by vm_compute). by rewrite Hrun in Hr.
Defined.


Definition taken_network : NetworkSnapshot :=
  MkNetworkSnapshot 1 (MkNFTablesSnapshot false "") (Some []) (Some [owned_rule 10020 "20001" "0x02000000"]) (Some []).

Lemma snapshot_reads_and_restorable_witness : (Snapshot (MkOwnedNetworkScope None) ()).1.1 = Ok taken_network ∧ sn_Validate taken_network = Ok ().
Proof.
  assert (Hr : (Snapshot (MkOwnedNetworkScope None) ()).1.1 = Ok taken_network) by (by vm_compute). split; [exact Hr|].
  destruct (Snapshot (MkOwnedNetworkScope None) ()) as [[r es] w'] eqn:Hrun.
  exact (proj2 (snapshot_reads_and_restorable (MkOwnedNetworkScope None) () r es w' Hrun) taken_network Hr).
Defined.
End witness.
