(* ===== verification/Watchdog.v ===== *)
(** * The network watchdog ([internal/operations/watchdog.go])

    Before a change that may lock the operator out, the network state is recorded in a
    transaction directory and a timer is started that restores it; only a confirmation from an
    SSH session begun after the activation commits.  Markers in the directory, created once
    and under a lock, decide between the two.  The directory is the one of [Store]: calls may
    fail, and what is not synced may be lost in a crash. *)

From S2P Require Import Prelude GoTime Proc GoText GoNet Types Checks GoConv Codec Store Network.

Local Open Scope string_scope.
Local Open Scope list_scope.

Definition WatchdogTransactionSchemaVersion : Z := 1.
Definition maximumWatchdogTransactionBytes : N := 8388608.
Definition watchdogSnapshotFile : string := "snapshot.json".
Definition watchdogLockFile : string := "transaction.lock".
Definition watchdogActivatedFile : string := "activated.json".
Definition watchdogCommittedFile : string := "committed.json".
Definition watchdogRolledBackFile : string := "rolled-back.json".
Definition watchdogIDCharacters : string := "0123456789ABCDEFGHJKMNPQRSTVWXYZ".
Definition watchdogIDRandomLength : nat := 6.
Definition maximumWatchdogIDAttempts : nat := 16.
Definition WatchdogSeconds : Z := 120.

Definition watchdog_char (c : ascii) : bool :=
  is_digit c || between "A"%char "H"%char c || in_chars "JKMN" c || between "P"%char "T"%char c || between "V"%char "Z"%char c.
Definition watchdogIDPattern : re := Cat (lit "fw-") (times (Class watchdog_char) 6).
Definition hex_run (n : nat) : re := times (Class hex_lower) n.
Definition watchdogBootIDPattern : re :=
  Cat (hex_run 8) (Cat (lit "-") (Cat (hex_run 4) (Cat (lit "-") (Cat (hex_run 4) (Cat (lit "-") (Cat (hex_run 4) (Cat (lit "-") (hex_run 12)))))))).

(** ** Data *)

Record SSHOrigin := MkSSHOrigin { so_ClientAddress : string; so_ClientPort : Z; so_ServerAddress : string; so_ServerPort : Z }.
Record SSHConnection := MkSSHConnection { co_ClientAddress : string; co_ClientPort : Z; co_ServerAddress : string; co_ServerPort : Z }.
Record MonotonicBoundary := MkMonotonicBoundary { mb_BootID : string; mb_MonotonicNanos : Z }.
Record SSHSessionProof := MkSSHSessionProof {
  sp_Connection : SSHConnection; sp_BootID : string; sp_StartedMonotonicNanos : Z; sp_ObservedMonotonicNanos : Z
}.
Record WatchdogTransaction := MkWatchdogTransaction {
  wt_SchemaVersion : Z; wt_ID : string; wt_PreparedAt : time; wt_Deadline : time; wt_AllowedSSHPort : Z;
  wt_Origin : option SSHOrigin; wt_NetworkSHA256 : string; wt_Network : NetworkSnapshot
}.
Record WatchdogArmInput := MkWatchdogArmInput { ai_AllowedSSHPort : Z; ai_Origin : option SSHConnection; ai_NetworkScope : OwnedNetworkScope }.
Record WatchdogActivation := MkWatchdogActivation { wa_TransactionID : string; wa_ActivatedAt : time; wa_SessionBoundary : MonotonicBoundary }.
Record WatchdogConfirmation := MkWatchdogConfirmation { wc_TransactionID : string; wc_CommittedAt : time; wc_TimerStopped : bool }.
Inductive WatchdogTransactionStatus := WatchdogStatusArmed | WatchdogStatusActive | WatchdogStatusCommitted | WatchdogStatusRolledBack.

(** The marker of a commit. *)
Record commit_marker := MkCommitMarker { cm_CommittedAt : time; cm_BootID : string; cm_SSHSessionStarted : Z; cm_SSHServerPort : Z }.

(** [encoding/json] on the files of a transaction, and the digest of a snapshot: the SHA-256 of
    its JSON in hexadecimal. *)
Class WatchdogCodec := {
  marshal_transaction : WatchdogTransaction → result string;
  decode_transaction : string → result (WatchdogTransaction * rest_of_input);
  marshal_activation : WatchdogActivation → result string;
  decode_activation : string → result (WatchdogActivation * rest_of_input);
  marshal_commit : commit_marker → result string;
  marshal_rollback : time → result string;
  networkDigest : NetworkSnapshot → string
}.

(** What the watchdog calls: the network manager, the timers, the clock, the sessions and the
    source of identifiers. *)
Class WatchdogHost (W : Type) := {
  host_Snapshot : OwnedNetworkScope → W → result NetworkSnapshot * W;
  host_Restore : NetworkSnapshot → W → result unit * W;
  StartTimer : string → W → result unit * W;
  TriggerRollback : string → W → result unit * W;
  StopTimer : string → W → result unit * W;
  watchdog_Now : W → time * W;
  ActivationBoundary : W → result MonotonicBoundary * W;
  CurrentSSHSession : string → W → result SSHSessionProof * W;
  watchdog_newID : W → result string * W
}.

(** [newWatchdogID] of the random bytes read. *)
Definition id_char (value : N) : ascii := default "0"%char (String.get (N.to_nat (N.land value 31)) watchdogIDCharacters).
Definition newWatchdogID (random : list N) : string := "fw-" +:+ foldr (λ value s, String (id_char value) s) "" random.
Definition ValidWatchdogID (value : string) : bool := matches watchdogIDPattern value.

(** [int64] addition. *)
Definition int64_add (a b : Z) : Z := ((a + b + 2 ^ 63) mod 2 ^ 64 - 2 ^ 63)%Z.
Definition window : Z := (WatchdogSeconds * second)%Z.

Definition sshOrigin (connection : option SSHConnection) : option SSHOrigin :=
  (λ c, MkSSHOrigin (co_ClientAddress c) (co_ClientPort c) (co_ServerAddress c) (co_ServerPort c)) <$> connection.

Definition good_port (port : Z) : bool := (1 <=? port)%Z && (port <=? 65535)%Z.

Section watchdog.
Context `{!WatchdogCodec} `{!TempNames}.

Definition wt_Validate (transaction : WatchdogTransaction) : result unit :=
  let issues :=
    negb (wt_SchemaVersion transaction =? WatchdogTransactionSchemaVersion)%Z
    || negb (matches watchdogIDPattern (wt_ID transaction))
    || (IsZero (wt_PreparedAt transaction) || negb (in_utc (wt_PreparedAt transaction)))
    || negb (Equal (wt_Deadline transaction) (Add (wt_PreparedAt transaction) window))
    || negb (good_port (wt_AllowedSSHPort transaction))
    || match wt_Origin transaction with
       | None => false
       | Some origin =>
           String.eqb (so_ClientAddress origin) "" || String.eqb (so_ServerAddress origin) "" || negb (good_port (so_ClientPort origin))
           || negb (so_ServerPort origin =? wt_AllowedSSHPort transaction)%Z
       end
    || has_issue (sn_Validate (wt_Network transaction))
    || negb (String.eqb (wt_NetworkSHA256 transaction) (networkDigest (wt_Network transaction))) in
  reject issues (Message "invalid watchdog transaction").

Definition wa_Validate (activation : WatchdogActivation) (transaction : WatchdogTransaction) : result unit :=
  reject (negb (String.eqb (wa_TransactionID activation) (wt_ID transaction)) || negb (matches watchdogIDPattern (wa_TransactionID activation)))
    (Message "watchdog activation transaction ID mismatch");;
  reject (IsZero (wa_ActivatedAt activation) || negb (in_utc (wa_ActivatedAt activation))) (Message "watchdog activation timestamp must be non-zero UTC");;
  reject (negb (matches watchdogBootIDPattern (mb_BootID (wa_SessionBoundary activation)))) (Message "watchdog activation boot ID is invalid");;
  reject ((mb_MonotonicNanos (wa_SessionBoundary activation) <=? 0)%Z || (max_int64 - window <? mb_MonotonicNanos (wa_SessionBoundary activation))%Z)
    (Message "watchdog activation monotonic boundary must be positive").

(** ** Files of a transaction *)

Notation "x ←? m ; k" := (try m (λ x, k)) (at level 20, m at level 100, k at level 200, right associativity).
Notation "m ;;? k" := (try m (λ _, k)) (at level 100, k at level 200, right associativity).

Definition ErrExist : error := Message "file exists".
Definition link (from to : string) : on_disk (result unit) :=
  attempt (λ d, match dk_dir d !! from, dk_dir d !! to with
                | None, _ => (Err ErrNotExist, d)
                | Some _, Some _ => (Err ErrExist, d)
                | Some i, None => (Ok (), enter (Link to i) d)
                end) unchanged.
Definition open_existing (name : string) : on_disk (result unit) :=
  attempt (λ d, match dk_dir d !! name with None => (Err ErrNotExist, d) | Some _ => (Ok (), d) end) unchanged.
Definition create_exclusive (name : string) : on_disk (result N) :=
  attempt (λ d, match dk_dir d !! name with
                | Some _ => (Err ErrExist, d)
                | None => let i := dk_next d in
                    (Ok i, enter (Link name i) (MkDisk (dk_real d) (<[i := MkInode true "" false]> (dk_inodes d)) (dk_dir d) (dk_durable d) (dk_pending d) (i + 1)%N))
                end) unchanged.

(** The directory is real and root-only. *)
Definition validateWatchdogDirectory : on_disk (result unit) :=
  real ←? lstat_dir; mret (reject (negb real) (Message "watchdog path must be a root-only real directory")).

Definition syncWatchdogDirectory : on_disk (result unit) :=
  named "open watchdog directory for sync" plain_call;;? named "sync watchdog directory" sync_dir.

(** The temporary file is written and synced, then linked or renamed to the name. *)
Definition write_through (name data : string) (exclusive : bool) (temporaryPath : string) : on_disk (result unit) :=
  i ←? named "create watchdog temporary file" (create temporaryPath);
  activated ← (named "set watchdog file mode" plain_call;;?
               named "write watchdog file" (write i data);;?
               named "sync watchdog file" (sync_file i);;?
               named "close watchdog file" plain_call;;?
               if exclusive then
                 named "activate watchdog file" (link temporaryPath name);;?
                 named "remove linked watchdog temporary file" (remove temporaryPath)
               else named "activate watchdog file" (rename temporaryPath name));
  match activated with
  | Ok _ => syncWatchdogDirectory
  | Err e => _ ← remove temporaryPath; mret (Err e)
  end.

Definition writeWatchdogFile (name data : string) (exclusive : bool) : on_disk (result unit) :=
  if String.eqb name "" || Contains name "/" || String.eqb name "." then mret (Err (Message "invalid watchdog filename")) else
  validateWatchdogDirectory;;?
  (λ h, write_through name data exclusive (temp_name (dk_dir (ho_disk h)) ("." +:+ name +:+ ".")) h).

Definition readWatchdogFile (name : string) (maximum : N) : on_disk (result string) :=
  info ←? named "inspect watchdog file" (lstat name);
  match info with
  | None => mret (Err (Wrapped "inspect watchdog file" ErrNotExist))
  | Some info =>
      if negb (in_regular info) then mret (Err (Message "watchdog file must be a root-only regular file"))
      else if (maximum <? N.of_nat (String.length (in_bytes info)))%N then mret (Err (Message "watchdog file is too large"))
      else
        data ←? named "read watchdog file" (read name);
        match data with
        | None => mret (Err (Wrapped "open watchdog file" ErrNotExist))
        | Some data => mret (reject (maximum <? N.of_nat (String.length data))%N (Message "watchdog file is too large");; Ok data)
        end
  end.

Definition watchdogMarkerExists (name : string) : on_disk (result bool) :=
  info ←? named "inspect watchdog marker" (lstat name);
  mret (match info with
        | None => Ok false
        | Some info => reject (negb (in_regular info)) (Message "watchdog marker must be a root-only regular file");; Ok true
        end).

Definition decoded {T} (context : string) (r : result (T * rest_of_input)) : result T :=
  '(value, rest) ← wrap context r;
  match rest with AtEOF => Ok value | AnotherDocument => Err (Message "trailing JSON document") | TrailingError e => Err (Wrapped context e) end.

Definition readWatchdogActivation (transaction : WatchdogTransaction) : on_disk (result WatchdogActivation) :=
  present ←? watchdogMarkerExists watchdogActivatedFile;
  if negb present then mret (Err (Sentinel ErrWatchdogNotActivated)) else
  data ←? readWatchdogFile watchdogActivatedFile 4096;
  mret (activation ← decoded "decode watchdog activation" (decode_activation data);
        wa_Validate activation transaction;;
        Ok activation).

(** ** The store of transactions *)

(** The directories above the transactions: the state directory, and the other two when they
    exist; [true] for one that is real and root-only. *)
Record roots := MkRoots { ro_state : bool; ro_operations : option bool; ro_watchdog : option bool }.

Context {W : Type} `{!WatchdogHost W}.

Record world := MkWorld { ww_roots : roots; ww_dirs : gmap string disk; ww_faults : list fault; ww_host : W }.

Inductive watchdog_event :=
  | Files (id : string) (d : disk)
  | NetworkRead (r : result NetworkSnapshot)
  | NetworkRestored (snapshot : NetworkSnapshot) (r : result unit)
  | TimerStarted (id : string) (r : result unit)
  | TimerStopped (id : string) (r : result unit)
  | RollbackTriggered (id : string) (r : result unit)
  | SessionChecked (proof : result SSHSessionProof)
  | TransactionPrepared (transaction : WatchdogTransaction) (r : result unit).

Abbreviation run A := (proc world watchdog_event A).

(** Calls on the files of one transaction. *)
Definition in_dir {A} (id : string) (m : on_disk (result A)) : run (result A) := λ w,
  match ww_dirs w !! id with
  | None => (Err ErrNotExist, [], w)
  | Some d =>
      let '(a, ds, h) := m (MkHost d (ww_faults w)) in
      (a, Files id <$> ds, MkWorld (ww_roots w) (<[id := ho_disk h]> (ww_dirs w)) (ho_faults h) (ww_host w))
  end.

(** Calls on the directories themselves. *)
Definition root_call {A} (f : world → result A * world * list watchdog_event) : run (result A) := λ w,
  let '(fault, rest) := match ww_faults w with [] => (None, []) | f :: rest => (f, rest) end in
  let w := MkWorld (ww_roots w) (ww_dirs w) rest (ww_host w) in
  match fault with Some (e, _) => (Err e, [], w) | None => let '(a, w', es) := f w in (a, es, w') end.

(** Calls on the host. *)
Definition on_host {A} (f : W → A * W) (log : A → list watchdog_event) : run A := λ w,
  let '(a, out) := f (ww_host w) in (a, log a, MkWorld (ww_roots w) (ww_dirs w) (ww_faults w) out).

Definition then_ {A B} (m : run (result A)) (k : A → run (result B)) : run (result B) :=
  a ← m; match a with Err e => mret (Err e) | Ok a => k a end.
Notation "x ←! m ; k" := (then_ m (λ x, k)) (at level 20, m at level 100, k at level 200, right associativity).
Notation "m ;;! k" := (then_ m (λ _, k)) (at level 100, k at level 200, right associativity).

Definition empty_directory : disk := MkDisk true ∅ ∅ ∅ [] 0.

Definition set_roots (r : roots) (w : world) : world := MkWorld r (ww_dirs w) (ww_faults w) (ww_host w).
Definition must_be_private (found : option bool) : result unit :=
  match found with None => Err ErrNotExist | Some ok => reject (negb ok) (Message "watchdog path must be a root-only real directory") end.

Definition ensureWatchdogDirectory (get : roots → option bool) (set : roots → roots) : run (result unit) :=
  root_call (λ w, (Ok (), match get (ww_roots w) with None => set_roots (set (ww_roots w)) w | Some _ => w end, []));;!
  root_call (λ w, (must_be_private (get (ww_roots w)), w, [])).

Definition ensureRoots : run (result unit) :=
  root_call (λ w, (must_be_private (Some (ro_state (ww_roots w))), w, []));;!
  ensureWatchdogDirectory ro_operations (λ r, MkRoots (ro_state r) (Some true) (ro_watchdog r));;!
  ensureWatchdogDirectory ro_watchdog (λ r, MkRoots (ro_state r) (ro_operations r) (Some true)).

Definition create_directory (id : string) : run (result unit) :=
  root_call (λ w, match ww_dirs w !! id with
                  | Some _ => (Err (Sentinel ErrWatchdogIDConflict), w, [])
                  | None => (Ok (), MkWorld (ww_roots w) (<[id := empty_directory]> (ww_dirs w)) (ww_faults w) (ww_host w), [Files id empty_directory])
                  end).

Definition store_Create (transaction : WatchdogTransaction) : run (result unit) :=
  match wt_Validate transaction;; data ← wrap "encode watchdog transaction" (marshal_transaction transaction); Ok (data +:+ newline) with
  | Err e => mret (Err e)
  | Ok encoded =>
      if (maximumWatchdogTransactionBytes <? N.of_nat (String.length encoded))%N then mret (Err (Message "watchdog transaction is too large")) else
      let id := wt_ID transaction in
      ensureRoots;;!
      create_directory id;;!
      root_call (λ w, (Ok (), w, []));;!
      root_call (λ w, (Ok (), w, []));;!
      in_dir id (writeWatchdogFile watchdogSnapshotFile encoded true);;!
      in_dir id (try (named "create watchdog transaction lock" (create_exclusive watchdogLockFile)) (λ i,
                 try (named "sync watchdog transaction lock" (sync_file i)) (λ _,
                 try (named "close watchdog transaction lock" plain_call) (λ _, syncWatchdogDirectory))))
  end.

Definition load_files (transactionID : string) : on_disk (result WatchdogTransaction) :=
  try validateWatchdogDirectory (λ _,
  try (readWatchdogFile watchdogSnapshotFile maximumWatchdogTransactionBytes) (λ data,
  mret (transaction ← decoded "decode watchdog transaction" (decode_transaction data);
        reject (negb (String.eqb (wt_ID transaction) transactionID)) (Message "watchdog transaction ID/path mismatch");;
        wt_Validate transaction;;
        Ok transaction))).

Definition store_Load (transactionID : string) : run (result WatchdogTransaction) := λ w,
  if negb (matches watchdogIDPattern transactionID) then (Err (Message "invalid watchdog transaction ID"), [], w)
  else match ww_dirs w !! transactionID with
       | None => (Err (Sentinel ErrWatchdogTransactionNotFound), [], w)
       | Some _ => in_dir transactionID (load_files transactionID) w
       end.

(** The lock file is opened and locked; other processes wait, so that the action runs alone. *)
Definition withLock {A} (transactionID : string) (action : WatchdogTransaction → run (result A)) : run (result A) :=
  _ ←! store_Load transactionID;
  in_dir transactionID (named "open watchdog transaction lock" (open_existing watchdogLockFile));;!
  in_dir transactionID (named "lock watchdog transaction" plain_call);;!
  transaction ←! store_Load transactionID;
  action transaction.

Definition marker (id name : string) : run (result bool) := in_dir id (watchdogMarkerExists name).

Definition store_Status (id : string) : run (result WatchdogTransactionStatus) :=
  withLock id (λ _,
    committed ←! marker id watchdogCommittedFile;
    rolledBack ←! marker id watchdogRolledBackFile;
    activated ←! marker id watchdogActivatedFile;
    mret (if committed && rolledBack then Err (Message "watchdog transaction has conflicting terminal markers")
          else if committed then Ok WatchdogStatusCommitted
          else if rolledBack then Ok WatchdogStatusRolledBack
          else if activated then Ok WatchdogStatusActive
          else Ok WatchdogStatusArmed)).

Definition store_MarkActivated (id : string) (activation : WatchdogActivation) : run (result unit) :=
  withLock id (λ transaction,
    committed ←! marker id watchdogCommittedFile;
    if committed then mret (Err (Sentinel ErrWatchdogAlreadyCommitted)) else
    rolledBack ←! marker id watchdogRolledBackFile;
    if rolledBack then mret (Err (Sentinel ErrWatchdogAlreadyRolledBack)) else
    match wa_Validate activation transaction;; marshal_activation activation with
    | Err e => mret (Err e)
    | Ok data => in_dir id (writeWatchdogFile watchdogActivatedFile (data +:+ newline) true)
    end).

Definition store_Commit (id : string) (committedAt : time) (verify : WatchdogTransaction → WatchdogActivation → run (result SSHSessionProof))
    : run (result WatchdogTransaction) :=
  withLock id (λ transaction,
    rolledBack ←! marker id watchdogRolledBackFile;
    if rolledBack then mret (Err (Sentinel ErrWatchdogExpired)) else
    alreadyCommitted ←! marker id watchdogCommittedFile;
    if alreadyCommitted then mret (Err (Sentinel ErrWatchdogAlreadyCommitted)) else
    activation ←! in_dir id (readWatchdogActivation transaction);
    proof ←! verify transaction activation;
    match reject (IsZero committedAt || negb (in_utc committedAt)) (Message "commit timestamp is invalid");;
          marshal_commit (MkCommitMarker committedAt (sp_BootID proof) (sp_StartedMonotonicNanos proof) (co_ServerPort (sp_Connection proof))) with
    | Err e => mret (Err e)
    | Ok data => in_dir id (writeWatchdogFile watchdogCommittedFile (data +:+ newline) true);;! mret (Ok transaction)
    end).

Definition store_Rollback (id : string) (now : time) : run (result unit) :=
  withLock id (λ transaction,
    committed ←! marker id watchdogCommittedFile;
    if committed then mret (Ok ()) else
    rolledBack ←! marker id watchdogRolledBackFile;
    if rolledBack then mret (Ok ()) else
    (r ← on_host (host_Restore (wt_Network transaction)) (λ r, [NetworkRestored (wt_Network transaction) r]);
     mret (wrap "restore watchdog network snapshot" r));;!
    match marshal_rollback (to_utc now) with
    | Err e => mret (Err e)
    | Ok data => in_dir id (writeWatchdogFile watchdogRolledBackFile (data +:+ newline) true)
    end).

(** ** The watchdog *)

(** A transaction is created under a fresh identifier: a taken one is tried again. *)
Fixpoint create_transaction (attempts : nat) (input : WatchdogArmInput) (preparedAt : time) (network : NetworkSnapshot) : run (result WatchdogTransaction) :=
  match attempts with
  | O => mret (Err (Message "generate unique watchdog transaction ID"))
  | S attempts =>
      id ←! (r ← on_host watchdog_newID (λ _, []); mret (wrap "generate watchdog transaction ID" r));
      let transaction := MkWatchdogTransaction WatchdogTransactionSchemaVersion id preparedAt (Add preparedAt window) (ai_AllowedSSHPort input)
        (sshOrigin (ai_Origin input)) (networkDigest network) network in
      match wt_Validate transaction with
      | Err e => mret (Err e)
      | Ok _ =>
          created ← store_Create transaction;
          match created with
          | Ok _ => mret (Ok transaction)
          | Err e => if errors_is e ErrWatchdogIDConflict then create_transaction attempts input preparedAt network else mret (Err e)
          end
      end
  end.

Definition arm (input : WatchdogArmInput) (prepared : option (WatchdogTransaction → W → result unit * W)) : run (result WatchdogTransaction) :=
  match reject (negb (good_port (ai_AllowedSSHPort input))) (Message "allowed SSH port must be between 1 and 65535");;
        match ai_Origin input with
        | None => Ok ()
        | Some origin => reject (negb (co_ServerPort origin =? ai_AllowedSSHPort input)%Z) (Message "origin SSH server port does not match the allowed listener")
        end with
  | Err e => mret (Err e)
  | Ok _ =>
      network ←! (r ← on_host (host_Snapshot (ai_NetworkScope input)) (λ r, [NetworkRead r]); mret (wrap "snapshot prior vpnctl network state" r));
      now ← on_host watchdog_Now (λ _, []);
      transaction ←! create_transaction maximumWatchdogIDAttempts input (to_utc now) network;
      match prepared with
      | None => mret (Ok ())
      | Some hook => r ← on_host (hook transaction) (λ r, [TransactionPrepared transaction r]); mret (wrap "persist watchdog transaction reference" r)
      end;;!
      (r ← on_host (StartTimer (wt_ID transaction)) (λ r, [TimerStarted (wt_ID transaction) r]); mret (wrap "start independent watchdog timer" r));;!
      mret (Ok transaction)
  end.

Definition Arm (input : WatchdogArmInput) : run (result WatchdogTransaction) := arm input None.
Definition ArmWithPreparedHook (input : WatchdogArmInput) (prepared : WatchdogTransaction → W → result unit * W) : run (result WatchdogTransaction) :=
  arm input (Some prepared).

Definition MarkActivated (transactionID : string) : run (result unit) :=
  boundary ←! (r ← on_host ActivationBoundary (λ _, []); mret (wrap "record watchdog activation boundary" r));
  now ← on_host watchdog_Now (λ _, []);
  store_MarkActivated transactionID (MkWatchdogActivation transactionID (to_utc now) boundary).

(** The session is one of this boot, begun after the activation and within its window, on
    the allowed port. *)
Definition check_session (transaction : WatchdogTransaction) (activation : WatchdogActivation) (proof : SSHSessionProof) : result SSHSessionProof :=
  let boundary := wa_SessionBoundary activation in
  reject (negb (String.eqb (sp_BootID proof) (mb_BootID boundary))) (Sentinel ErrWatchdogExpired);;
  reject ((sp_ObservedMonotonicNanos proof <? mb_MonotonicNanos boundary)%Z || (sp_ObservedMonotonicNanos proof <? sp_StartedMonotonicNanos proof)%Z)
    (Sentinel ErrWatchdogConfirmationProof);;
  reject (int64_add (mb_MonotonicNanos boundary) window <=? sp_ObservedMonotonicNanos proof)%Z (Sentinel ErrWatchdogExpired);;
  reject (sp_StartedMonotonicNanos proof <=? mb_MonotonicNanos boundary)%Z (Sentinel ErrWatchdogOriginalSession);;
  reject (negb (co_ServerPort (sp_Connection proof) =? wt_AllowedSSHPort transaction)%Z) (Sentinel ErrWatchdogWrongSSHPort);;
  Ok proof.

(** The check of the current session that a commit asks for. *)
Definition verify_session (rawSSHConnection : string) (transaction : WatchdogTransaction) (activation : WatchdogActivation) : run (result SSHSessionProof) :=
  r ← on_host (CurrentSSHSession rawSSHConnection) (λ r, [SessionChecked r]);
  mret (match r with Err _ => Err (Sentinel ErrWatchdogConfirmationProof) | Ok proof => check_session transaction activation proof end).

(** Once committed, a timer that cannot be stopped is reported with the confirmation. *)
Definition Confirm (transactionID rawSSHConnection : string) : run (result (WatchdogConfirmation * result unit)) :=
  now ← on_host watchdog_Now (λ _, []);
  let committedAt := to_utc now in
  transaction ←! store_Commit transactionID committedAt (verify_session rawSSHConnection);
  r ← on_host (StopTimer (wt_ID transaction)) (λ r, [TimerStopped (wt_ID transaction) r]);
  mret (Ok (MkWatchdogConfirmation (wt_ID transaction) committedAt (is_ok r), wrap "stop committed watchdog timer" r)).

Definition RollbackNow (transactionID : string) : run (result unit) :=
  (r ← on_host (TriggerRollback transactionID) (λ r, [RollbackTriggered transactionID r]); mret r);;!
  (r ← on_host (StopTimer transactionID) (λ r, [TimerStopped transactionID r]); mret (wrap "stop watchdog timer after rollback" r)).

(** ** All transactions *)

Fixpoint load_all (ids : list string) : run (result (list WatchdogTransaction)) :=
  match ids with
  | [] => mret (Ok [])
  | id :: ids => t ←! store_Load id; ts ←! load_all ids; mret (Ok (t :: ts))
  end.

(** Every entry must be named like a transaction and load. *)
Fixpoint check_entries (names : list string) : run (result unit) :=
  match names with
  | [] => mret (Ok ())
  | name :: names =>
      if negb (matches watchdogIDPattern name) then mret (Err (Message "unexpected watchdog transaction entry")) else
      _ ←! store_Load name;
      check_entries names
  end.

Definition TransactionIDs : run (result (list string)) :=
  entries ←! root_call (λ w, (Ok (match ro_watchdog (ww_roots w) with None => [] | Some _ => sort_strings (map_to_list (ww_dirs w)).*1 end), w, []));
  check_entries entries;;!
  mret (Ok (sort_strings entries)).

(** The older of two: by preparation time, then by identifier. *)
Definition older (oldest : option WatchdogTransaction) (t : WatchdogTransaction) : option WatchdogTransaction :=
  match oldest with
  | None => Some t
  | Some o =>
      if Before (wt_PreparedAt t) (wt_PreparedAt o) || (Equal (wt_PreparedAt t) (wt_PreparedAt o) && str_ltb (wt_ID t) (wt_ID o))
      then Some t else Some o
  end.

Definition InitialNetworkSnapshot : run (result NetworkSnapshot) :=
  ids ←! TransactionIDs;
  if (length ids =? 0)%nat then mret (Err (Message "gateway has no retained watchdog network snapshot")) else
  transactions ←! load_all ids;
  mret (match foldl older None transactions with Some t => Ok (wt_Network t) | None => Err (Message "no transaction") end).
End watchdog.

(** ** The timers of systemd *)

Section systemd.
Context {W : Type} `{!ProbeRunner W}.
Abbreviation run A := (proc W network_event A).

Definition WatchdogTimerInstance (transactionID : string) : result string :=
  reject (negb (matches watchdogIDPattern transactionID)) (Message "invalid watchdog transaction ID");;
  Ok ("vpnctl-watchdog@" +:+ transactionID +:+ ".timer").
Definition WatchdogServiceInstance (transactionID : string) : result string :=
  reject (negb (matches watchdogIDPattern transactionID)) (Message "invalid watchdog transaction ID");;
  Ok ("vpnctl-watchdog@" +:+ transactionID +:+ ".service").

Definition systemctl (action unit_ : string) : run (result unit) :=
  r ← issue (command "systemctl" [action; unit_]);
  mret (result ← r; reject (negb (pr_ExitCode result =? 0)%Z) (Message "systemctl failed")).

Definition on_unit (unit_ : result string) (action : string) : run (result unit) :=
  match unit_ with Err e => mret (Err e) | Ok unit_ => systemctl action unit_ end.
Definition systemd_StartTimer (transactionID : string) : run (result unit) := on_unit (WatchdogTimerInstance transactionID) "start".
Definition systemd_TriggerRollback (transactionID : string) : run (result unit) := on_unit (WatchdogServiceInstance transactionID) "start".
Definition systemd_StopTimer (transactionID : string) : run (result unit) := on_unit (WatchdogTimerInstance transactionID) "stop".
End systemd.
