(* ===== verification/WatchdogFacts.v ===== *)
(** * The watchdog: what its file operations preserve

    [flag] says whether a name is visible in a directory or was never entered; [stored] that
    a file has certain bytes now and after any crash.  Writing a marker keeps both for every
    other file, and the rules for programs over one transaction directory are proved once. *)

From S2P Require Import Prelude GoTime Proc GoText GoNet Types Checks GoConv Codec Store StoreFacts Network Watchdog.

Local Open Scope string_scope.
Local Open Scope list_scope.

(** ** Names and contents *)

(** Whenever the name is found, now or after a crash, the file exists. *)
Definition solid (name : string) (d : disk) : Prop :=
  ∀ kept i, sublist kept (dk_pending d) → foldl apply_op (dk_durable d) kept !! name = Some i → is_Some (dk_inodes d !! i).

(** [true]: the name is visible; [false]: it was never entered. *)
Definition flag (name : string) (b : bool) (d : disk) : Prop :=
  if b then is_Some (dk_dir d !! name) ∧ solid name d
  else dk_dir d !! name = None ∧ dk_durable d !! name = None ∧ ∀ op, op ∈ dk_pending d → name ∉ touches op.

(** The file has these bytes, now and after any crash. *)
Definition stored (d : disk) (name bytes : string) : Prop :=
  ∀ kept, sublist kept (dk_pending d) → shows (dk_inodes d) (foldl apply_op (dk_durable d) kept) name (Some bytes).

(** From [d0] to [d] only [name] was entered, and no file changed. *)
Definition grows (name : string) (d0 d : disk) : Prop :=
  sound d ∧ ∀ m, plain m →
    (∀ b, stored d0 m b → stored d m b) ∧
    (m ≠ name → ∀ b, flag m b d0 → flag m b d) ∧
    (∀ b, flag m b d0 → ∃ b', flag m b' d ∧ (b = true → b' = true)).

Lemma grows_refl name d : sound d → grows name d d.
Proof. intros Hs. split; [done|]. intros m _. split_and!; [done|done|eauto]. Qed.

Lemma grows_trans name d1 d2 d3 : grows name d1 d2 → grows name d2 d3 → grows name d1 d3.
Proof.
  intros [_ H1] [Hs H2]. split; [done|]. intros m Hm. destruct (H1 m Hm) as (A1 & B1 & C1), (H2 m Hm) as (A2 & B2 & C2). split_and!; [auto|auto|].
  intros b (b1 & H & Hb1)%C1. destruct (C2 b1 H) as (b2 & ? & ?). exists b2. auto.
Qed.

Lemma stored_now d name b : sound d → stored d name b → shows (dk_inodes d) (dk_dir d) name (Some b).
Proof. intros [-> _] H. by apply H. Qed.

Lemma apply_ops_other dir ops name : (∀ op, op ∈ ops → name ∉ touches op) → foldl apply_op dir ops !! name = dir !! name.
Proof.
  revert dir. induction ops as [|op ops IH]; intros dir Hn; cbn; [done|]. rewrite IH; [intros o Ho; apply Hn; by right|].
  apply apply_op_other, Hn. by left.
Qed.

(** A crash cannot make a name appear, and keeps what is stored. *)
Lemma crash_flag d d' name : crashes d d' → flag name false d → flag name false d'.
Proof.
  intros (kept & Hk & Hdir & Hdur & Hpend & _) (H1 & H2 & H3).
  assert (Hn : dk_dir d' !! name = None).
  { rewrite Hdir apply_ops_other; [|done]. intros op Hop. apply H3. eapply elem_of_submseteq; [exact Hop|by apply sublist_submseteq]. }
  split_and!; [done|by rewrite Hdur|]. rewrite Hpend. by intros op ?%elem_of_nil.
Qed.

Lemma crash_visible d d' name : sound d → crashes d d' → flag name true d → ∃ b, flag name b d'.
Proof.
  intros Hs (kept & Hk & Hdir & Hdur & Hpend & _ & _ & Hin) [_ Hsol].
  assert (Hn : ∀ op : dir_op, op ∈ dk_pending d' → name ∉ touches op) by (rewrite Hpend; by intros op ?%elem_of_nil).
  destruct (dk_dir d' !! name) as [i|] eqn:Hi; [exists true|exists false; split_and!; [done|by rewrite Hdur|done]].
  split; [eauto|]. intros kept' j Hk'. rewrite Hpend in Hk'. apply sublist_nil_r in Hk' as ->. cbn. rewrite Hdur Hi. intros [= <-].
  assert (Hex : is_Some (dk_inodes d !! i)) by (apply (Hsol kept); [done|by rewrite -Hdir]). destruct Hex as [f Hf].
  specialize (Hin i). rewrite Hf in Hin. destruct Hin as (f' & -> & _). eauto.
Qed.

Lemma visible_file d name : sound d → flag name true d → is_Some (file_at d name).
Proof.
  intros [Hd _] [[i Hi] Hsol]. unfold file_at. rewrite Hi. cbn. apply (Hsol (dk_pending d)); [done|by rewrite -Hd].
Qed.

Lemma crash_stored d d' name b : crashes d d' → stored d name b → stored d' name b.
Proof.
  intros (kept & Hk & Hdir & Hdur & Hpend & _ & _ & Hin) H kept' Hk'. rewrite Hpend in Hk'. apply sublist_nil_r in Hk' as ->. cbn [foldl].
  rewrite Hdur Hdir. eapply shows_inodes; [|exact (H kept Hk)]. intros i c Hi. specialize (Hin i). rewrite Hi in Hin.
  destruct Hin as ([r' b' s] & -> & Hr & Hs & Hb). cbn in *. by rewrite Hr Hs Hb.
Qed.

Lemma crash_sound d d' : sound d → crashes d d' → sound d'.
Proof.
  intros [_ Hids] (kept & _ & Hdir & Hdur & Hpend & _ & Hnext & Hin). split; [by rewrite Hpend Hdur|].
  intros i f Hf. rewrite Hnext. specialize (Hin i). destruct (dk_inodes d !! i) as [g|] eqn:Hg; [by eapply Hids|congruence].
Qed.

(** ** Single calls *)

Lemma flag_enter_other m b op d : (m ∉ touches op) → flag m b d → flag m b (enter op d).
Proof.
  intros Hn. unfold flag. destruct b; cbn; rewrite apply_op_other //.
  - intros [Hv Hsol]. split; [done|]. intros kept i Hk. cbn [enter dk_pending dk_durable dk_inodes] in *.
    apply sublist_snoc in Hk as [Hk|(k' & -> & Hk)]; [by apply Hsol|]. rewrite foldl_app. cbn [foldl]. rewrite apply_op_other //. by apply Hsol.
  - intros (H1 & H2 & H3). split_and!; [done|done|]. intros o. rewrite elem_of_app list_elem_of_singleton. intros [Ho| ->]; auto.
Qed.

Lemma stored_enter_other m b op d : (m ∉ touches op) → stored d m b → stored (enter op d) m b.
Proof.
  intros Hn H kept Hk. cbn [enter dk_pending dk_durable dk_inodes] in *. apply sublist_snoc in Hk as [Hk|(k' & -> & Hk)]; [by apply H|].
  rewrite foldl_app. cbn [foldl]. eapply shows_dir; [symmetry; by apply apply_op_other|by apply H].
Qed.

Lemma sound_enter op d : sound d → sound (enter op d).
Proof. intros [Hd Hi]. split; [|done]. cbn. by rewrite foldl_app Hd. Qed.

(** Entering or removing a name that is not plain, or the name itself for the first time. *)
Lemma grows_enter_temp name op d : sound d → (∀ m, m ∈ touches op → ¬ plain m) → grows name d (enter op d).
Proof.
  intros Hs Hop. split; [by apply sound_enter|]. intros m Hm. assert (Hn : m ∉ touches op) by (intros Hin; by apply (Hop m Hin)).
  split_and!; [by intros b; apply stored_enter_other|by intros _ b; apply flag_enter_other|]. intros b Hb. exists b. split; [by apply flag_enter_other|done].
Qed.

Lemma grows_link name i d : sound d → dk_dir d !! name = None → is_Some (dk_inodes d !! i) → grows name d (enter (Link name i) d).
Proof.
  intros Hs Hnone Hi. split; [by apply sound_enter|]. intros m Hm. destruct (decide (m = name)) as [->|Hne].
  - split_and!; [|done|].
    + intros b Hb. apply stored_now in Hb as (j & Hj & _); [congruence|done].
    + intros [] Hb; [destruct Hb as [[? ?] _]; congruence|]. exists true. split; [|done]. split; [cbn; rewrite lookup_insert_eq; eauto|].
      destruct Hb as (_ & Hdur & Hpend). intros kept j Hk. cbn [enter dk_pending dk_durable dk_inodes] in *.
      apply sublist_snoc in Hk as [Hk|(k' & -> & Hk)].
      * rewrite apply_ops_other; [|by rewrite Hdur]. intros op Hop. apply Hpend. eapply elem_of_submseteq; [exact Hop|by apply sublist_submseteq].
      * rewrite foldl_app. cbn. rewrite lookup_insert_eq. by intros [= <-].
  - assert (Hn : m ∉ touches (Link name i)) by (cbn; set_solver).
    split_and!; [by intros b; apply stored_enter_other|by intros _ b; apply flag_enter_other|]. intros b Hb. exists b. split; [by apply flag_enter_other|done].
Qed.

Lemma grows_inodes name d d' : sound d' → dk_dir d' = dk_dir d → dk_durable d' = dk_durable d → dk_pending d' = dk_pending d →
  (∀ j b, dk_inodes d !! j = Some (MkInode true b true) → dk_inodes d' !! j = Some (MkInode true b true)) →
  (∀ j, is_Some (dk_inodes d !! j) → is_Some (dk_inodes d' !! j)) → grows name d d'.
Proof.
  intros Hs H1 H2 H3 Hin Hex. split; [done|]. intros m _.
  assert (Hf : ∀ b, flag m b d → flag m b d').
  { intros []; unfold flag, solid; rewrite H1 H2 H3; [|done]. intros [Hv Hsol]. split; [done|]. eauto. }
  split_and!; [|by intros _|by eauto]. intros b Hb kept Hk. rewrite H3 in Hk. rewrite H2. eapply shows_inodes; [exact Hin|by apply Hb].
Qed.

Lemma grows_set_inode name i f d : sound d → (i < dk_next d)%N → (∀ g, dk_inodes d !! i = Some g → in_synced g = false) → grows name d (set_inode i f d).
Proof.
  intros [Hd Hids] Hlt Hun. apply grows_inodes; [|done|done|done| |].
  - split; [done|]. intros j g. cbn. intros [[<- _]|[_ Hj]]%lookup_insert_Some; [done|by eapply Hids].
  - intros j b Hj. cbn. destruct (decide (i = j)) as [<-|]; [by apply Hun in Hj|]. by rewrite lookup_insert_ne.
  - intros j Hj. cbn. destruct (decide (i = j)) as [<-|]; [rewrite lookup_insert_eq; eauto|by rewrite lookup_insert_ne].
Qed.

Lemma grows_sync_file name i f d : sound d → dk_inodes d !! i = Some f → grows name d (set_inode i (MkInode (in_regular f) (in_bytes f) true) d).
Proof.
  intros [Hd Hids] Hf. apply grows_inodes; [|done|done|done| |].
  - split; [done|]. intros j g. cbn. intros [[<- _]|[_ Hj]]%lookup_insert_Some; by eapply Hids.
  - intros j b Hj. cbn. destruct (decide (i = j)) as [<-|]; [|by rewrite lookup_insert_ne]. rewrite lookup_insert_eq. rewrite Hf in Hj. by injection Hj as ->.
  - intros j Hj. cbn. destruct (decide (i = j)) as [<-|]; [rewrite lookup_insert_eq; eauto|by rewrite lookup_insert_ne].
Qed.

Definition synced (d : disk) : disk := MkDisk (dk_real d) (dk_inodes d) (dk_dir d) (dk_dir d) [] (dk_next d).

Lemma grows_sync_dir name d : sound d → grows name d (synced d).
Proof.
  intros Hs. assert (Hs' := Hs). destruct Hs' as [Hd Hids]. split; [by split|]. intros m _.
  assert (Hf : ∀ b, flag m b d → flag m b (synced d)).
  { intros b. unfold flag. destruct b; cbn.
    - intros [Hv Hsol]. split; [done|]. intros kept i Hk. cbn in Hk. apply sublist_nil_r in Hk as ->. cbn. intros Hi.
      apply (Hsol (dk_pending d)); [done|by rewrite -Hd].
    - intros (H1 & _). split_and!; [done|done|]. by intros op ?%elem_of_nil. }
  split_and!; [|by intros _|by eauto]. intros b Hb kept Hk. cbn in Hk. apply sublist_nil_r in Hk as ->. cbn. by apply stored_now.
Qed.

Lemma stored_synced d name b : shows (dk_inodes d) (dk_dir d) name (Some b) → stored (synced d) name b.
Proof. intros H kept Hk. cbn in Hk. by apply sublist_nil_r in Hk as ->. Qed.

(** A new file without a name. *)
Definition with_file (d : disk) : disk :=
  MkDisk (dk_real d) (<[dk_next d := MkInode true "" false]> (dk_inodes d)) (dk_dir d) (dk_durable d) (dk_pending d) (dk_next d + 1)%N.

Lemma grows_fresh name d : sound d → grows name d (with_file d).
Proof.
  intros [Hd Hids]. apply grows_inodes; [|done|done|done| |].
  - split; [done|]. intros j g. cbn. intros [[<- _]|[_ Hj]]%lookup_insert_Some; [lia|]. apply Hids in Hj. lia.
  - intros j b Hj. cbn. rewrite lookup_insert_ne; [|done]. intros Heq. apply Hids in Hj. lia.
  - intros j Hj. cbn. destruct (decide (dk_next d = j)) as [<-|]; [rewrite lookup_insert_eq; eauto|by rewrite lookup_insert_ne].
Qed.

Lemma grows_create name path d : sound d → ¬ plain path → grows name d (enter (Link path (dk_next d)) (with_file d)).
Proof.
  intros Hs Hp. assert (H1 := grows_fresh name d Hs).
  eapply grows_trans; [exact H1|]. apply grows_enter_temp; [apply H1|]. intros m. cbn. by intros ->%list_elem_of_singleton.
Qed.

(** ** Writing a marker *)

Section write.
Context `{!TempNames} (name data : string) (d0 : disk) (Hname : plain name).

Abbreviation G := (grows name d0).

(** The temporary file is entered under [path] with this content. *)
Definition entered (path : string) (i : N) (bytes : string) (done : bool) (d : disk) : Prop :=
  G d ∧ dk_dir d !! path = Some i ∧ dk_inodes d !! i = Some (MkInode true bytes done).

Lemma keeps_call {A} (get : disk → result A) P : (∀ d, P d → G d) → triple G False P (attempt (λ d, (get d, d)) unchanged) (λ _, P).
Proof. intros HP. apply triple_attempt; [by intros d Hd; cbn; auto|]. intros d e torn _ Hd. cbn. auto. Qed.

Lemma keeps_outcome {A} (m : on_disk (result A)) P (E : disk → Prop) : (∀ d, P d → E d) → triple G False P m (λ _, P) → triple G False P m (outcome (λ _, P) E).
Proof. intros HE Hm. eapply triple_conseq; [| |exact Hm]; [done|]. intros [a|e] d Hd; cbn; auto. Qed.

Lemma plain_keeps P : (∀ d, P d → G d) → triple G False P plain_call (outcome (λ _, P) G).
Proof. intros HP. apply keeps_outcome; [done|]. by apply (keeps_call (λ _, Ok ())). Qed.

Lemma create_enters path : ¬ plain path → triple G False G (create path) (outcome (λ i d, entered path i "" false d) G).
Proof.
  intros Hp. apply triple_attempt; [|by intros d e torn _ Hd; cbn].
  intros d Hd. cbn [fst snd]. assert (Hg : G (enter (Link path (dk_next d)) (MkDisk (dk_real d) (<[dk_next d:=MkInode true "" false]> (dk_inodes d)) (dk_dir d)
    (dk_durable d) (dk_pending d) (dk_next d + 1)))) by (eapply grows_trans; [exact Hd|apply grows_create; [apply Hd|done]]).
  split; [done|]. split_and!; [done|by cbn; rewrite lookup_insert_eq|by cbn; rewrite lookup_insert_eq].
Qed.

Lemma entered_lt path i bytes done d : entered path i bytes done d → (i < dk_next d)%N.
Proof. intros ([[_ Hids] _] & _ & Hi). by eapply Hids. Qed.

Lemma write_enters path i bytes : triple G False (entered path i bytes false) (write i data) (outcome (λ _, entered path i data false) G).
Proof.
  assert (Hset : ∀ d b, entered path i bytes false d → entered path i b false (set_inode i (MkInode true b false) d)).
  { intros d b He. assert (Hlt := entered_lt _ _ _ _ _ He). destruct He as (Hg & Hp & Hi). split_and!; [|done|by cbn; rewrite lookup_insert_eq].
    eapply grows_trans; [exact Hg|]. apply grows_set_inode; [apply Hg|done|]. intros g Hg'. rewrite Hi in Hg'. by injection Hg' as <-. }
  apply triple_attempt.
  - intros d Hd. cbn [fst snd]. specialize (Hset d data Hd). split; [apply Hset|done].
  - intros d e torn _ Hd. specialize (Hset d torn Hd). split; apply Hset.
Qed.

Lemma sync_enters path i bytes : triple G False (entered path i bytes false) (sync_file i) (outcome (λ _, entered path i bytes true) G).
Proof.
  apply triple_attempt; [|by intros d e torn _ (Hg & _); cbn].
  intros d (Hg & Hp & Hi). cbn [fst snd]. rewrite Hi. cbn [in_regular in_bytes].
  assert (Hg' : G (set_inode i (MkInode true bytes true) d)).
  { eapply grows_trans; [exact Hg|]. exact (grows_sync_file name i (MkInode true bytes false) d (proj1 Hg) Hi). }
  split; [done|]. split_and!; [done|done|by cbn; rewrite lookup_insert_eq].
Qed.

(** The marker is published under its name. *)
Definition published (i : N) (bytes : string) (d : disk) : Prop := entered name i bytes true d.

Lemma link_publishes path i bytes : triple G False (entered path i bytes true) (link path name) (outcome (λ _ d, entered path i bytes true d ∧ published i bytes d) G).
Proof.
  apply triple_attempt; [|by intros d e torn _ (Hg & _); cbn].
  intros d (Hg & Hp & Hi). rewrite Hp. destruct (dk_dir d !! name) as [j|] eqn:Hn; cbn [fst snd]; [done|].
  assert (Hg' : G (enter (Link name i) d)) by (eapply grows_trans; [exact Hg|apply grows_link; [apply Hg|done|by rewrite Hi]]).
  split; [done|]. split; (split_and!; [done| |done]); cbn.
  - destruct (decide (path = name)) as [->|]; [by rewrite lookup_insert_eq|by rewrite lookup_insert_ne].
  - by rewrite lookup_insert_eq.
Qed.

Lemma remove_temp path (P : disk → Prop) : ¬ plain path → (∀ d, P d → G d) → (∀ d, P d → P (enter (Unlink path) d)) →
  triple G False P (remove path) (λ _, P).
Proof.
  intros Hp HG HP. apply triple_attempt; [|intros d e torn _ Hd; cbn; auto].
  intros d Hd. destruct (dk_dir d !! path); cbn [fst snd]; split; auto.
Qed.

Lemma G_unlink path d : ¬ plain path → G d → G (enter (Unlink path) d).
Proof. intros Hp Hd. eapply grows_trans; [exact Hd|]. apply grows_enter_temp; [apply Hd|]. intros m. cbn. by intros ->%list_elem_of_singleton. Qed.

Lemma sync_stores i bytes : triple G False (published i bytes) syncWatchdogDirectory (λ r d, G d ∧ (r = Ok () → stored d name bytes)).
Proof.
  unfold syncWatchdogDirectory. eapply triple_try; [apply triple_named, plain_keeps; by intros d (? & _)| |by intros e d Hd].
  intros u; cbn beta; clear u. eapply triple_conseq with (Q := outcome (λ _ d, G d ∧ stored d name bytes) G); [done|by intros [[]|e] d Hd; cbn in *; naive_solver|].
  apply triple_named. apply triple_attempt; [|by intros d e torn _ (Hg & _); cbn].
  intros d (Hg & Hp & Hi). cbn [fst snd]. assert (Hg' : G (synced d)) by (eapply grows_trans; [exact Hg|apply grows_sync_dir, Hg]).
  split; [done|]. split; [done|]. apply stored_synced. by exists i.
Qed.

Lemma temp_not_plain dir : ¬ plain (temp_name dir ("." +:+ name +:+ ".")).
Proof.
  unfold plain. assert (H1 : HasPrefix ("." +:+ name +:+ ".") "." = true); [|by rewrite (HasPrefix_dot _ _ (temp_prefix dir _) H1)].
  change (String.prefix "." (String "." (name +:+ ".")) = true). cbn. by destruct (name +:+ ".").
Qed.

Lemma directory_keeps : triple G False G validateWatchdogDirectory (outcome (λ _, G) G).
Proof.
  unfold validateWatchdogDirectory. eapply triple_try; [apply keeps_outcome; [done|by apply keeps_call]| |by intros e d].
  intros real. apply triple_ret. intros d Hd. by destruct real.
Qed.

(** The steps up to the link, and the removal of the temporary name. *)
Lemma activation_steps path i : ¬ plain path → triple G False (entered path i "" false)
  (try (named "set watchdog file mode" plain_call) (λ _, try (named "write watchdog file" (write i data)) (λ _,
   try (named "sync watchdog file" (sync_file i)) (λ _, try (named "close watchdog file" plain_call) (λ _,
   try (named "activate watchdog file" (link path name)) (λ _, named "remove linked watchdog temporary file" (remove path)))))))
  (outcome (λ _, published i data) G).
Proof.
  intros Hp.
  eapply triple_try; [apply triple_named, plain_keeps; by intros d (? & _)| |by intros e d Hd]. intros u; cbn beta; clear u.
  eapply triple_try; [apply triple_named, write_enters| |by intros e d Hd]. intros u; cbn beta; clear u.
  eapply triple_try; [apply triple_named, sync_enters| |by intros e d Hd]. intros u; cbn beta; clear u.
  eapply triple_try; [apply triple_named, plain_keeps; by intros d (? & _)| |by intros e d Hd]. intros u; cbn beta; clear u.
  eapply triple_try; [apply triple_named, link_publishes| |by intros e d Hd]. intros u; cbn beta; clear u.
  apply triple_named. eapply triple_conseq; [| |apply (remove_temp path (published i data) Hp)].
  - by intros d [_ ?].
  - intros [[]|e] d Hd; [exact Hd|apply Hd].
  - by intros d (? & _).
  - intros d (Hg & Hn & Hi). split_and!; [by apply G_unlink| |done]. cbn. rewrite lookup_delete_ne; [|done]. intros ->. done.
Qed.

Lemma write_file_triple : G d0 → triple G False (λ d, d = d0) (writeWatchdogFile name data true) (λ r d, G d ∧ (r = Ok () → stored d name data)).
Proof.
  intros Hd0. unfold writeWatchdogFile. destruct (_ || _ || _); [apply triple_ret; by intros d ->|].
  eapply triple_conseq with (P := G); [by intros d ->|intros r d Hd; exact Hd|].
  eapply triple_try; [apply directory_keeps| |by intros e d Hd]. intros u; cbn beta; clear u.
  apply (triple_here _ _ (λ d, write_through name data true (temp_name (dk_dir d) ("." +:+ name +:+ ".")))).
  intros d1 Hd1. unfold write_through. set (path := temp_name (dk_dir d1) ("." +:+ name +:+ ".")). assert (Hp : ¬ plain path) by apply temp_not_plain.
  eapply triple_conseq with (P := G); [by intros d ->|intros r d Hd; exact Hd|].
  eapply triple_try; [apply triple_named, (create_enters path Hp)| |by intros e d Hd]. intros i. cbn beta iota.
  eapply triple_bind; [apply (activation_steps path i Hp)|]. intros [[]|e]; cbn [outcome].
  - apply sync_stores.
  - eapply triple_bind; [apply (remove_temp path G Hp); [done|by intros d; apply G_unlink]|]. intros r. apply triple_ret. by intros d Hd.
Qed.
End write.

(** ** Reading *)

Section reads.
Context `{!WatchdogCodec} `{!TempNames} (d0 : disk).

(** The disk stays as it is and the result satisfies [φ]. *)
Definition views {A} (m : on_disk (result A)) (φ : result A → Prop) : Prop :=
  triple (λ d, d = d0) False (λ d, d = d0) m (λ r d, d = d0 ∧ φ r).

Lemma views_call {A} (get : disk → result A) (φ : result A → Prop) : φ (get d0) → (∀ e, φ (Err e)) → views (attempt (λ d, (get d, d)) unchanged) φ.
Proof. intros Hg He. apply triple_attempt; [by intros d ->|by intros d e torn _ ->]. Qed.

Lemma views_ret {A} (r : result A) (φ : result A → Prop) : φ r → views (mret r) φ.
Proof. intros Hr. apply triple_ret. by intros d ->. Qed.

Lemma views_named {A} context (m : on_disk (result A)) (φ : A → Prop) : views m (λ r, ∀ a, r = Ok a → φ a) → views (named context m) (λ r, ∀ a, r = Ok a → φ a).
Proof.
  intros Hm. eapply triple_bind; [exact Hm|]. intros r. apply triple_ret. intros d [-> Hr]. split; [done|]. intros a Ha. apply Hr. by destruct r.
Qed.

Lemma views_try {A B} (m : on_disk (result A)) (k : A → on_disk (result B)) φ (ψ : result B → Prop) :
  views m (λ r, ∀ a, r = Ok a → φ a) → (∀ e, ψ (Err e)) → (∀ a, φ a → views (k a) ψ) → views (try m k) ψ.
Proof.
  intros Hm He Hk. eapply triple_bind; [exact Hm|]. intros [a|e].
  - apply triple_pre. intros d [-> Ha]. eapply triple_conseq; [| |exact (Hk a (Ha a eq_refl))]; [by intros d ->|done].
  - apply triple_ret. intros d [-> _]. split; [done|apply He].
Qed.

Lemma views_mono {A} (m : on_disk (result A)) (φ ψ : result A → Prop) : (∀ r, φ r → ψ r) → views m φ → views m ψ.
Proof. intros Himp Hm h Hc Hd. eapply wp_mono; [exact (Hm h Hc Hd)|]. intros r es h' (? & ? & ? & ?). auto. Qed.

(** The bytes of a file that can be read. *)
Definition bytes_of (name b : string) : Prop := ∃ f, file_at d0 name = Some f ∧ in_bytes f = b.

Lemma readWatchdogFile_views name maximum : views (readWatchdogFile name maximum) (λ r, ∀ b, r = Ok b → bytes_of name b).
Proof.
  unfold readWatchdogFile.
  eapply views_try with (φ := λ info, info = file_at d0 name); [apply views_named, views_call; [by intros a [= <-]|done]|done|]. intros info ->.
  destruct (file_at d0 name) as [info|] eqn:Hf; [|by apply views_ret]. destruct (negb _); [by apply views_ret|]. destruct (_ <? _)%N; [by apply views_ret|].
  eapply views_try with (φ := λ data, data = in_bytes <$> file_at d0 name); [apply views_named, views_call; [by intros a [= <-]|done]|done|].
  intros data ->. rewrite Hf. cbn. apply views_ret. intros b ([] & _ & [= <-])%bind_ok. by exists info.
Qed.

Lemma marker_views name : views (watchdogMarkerExists name) (λ r, ∀ b, r = Ok b → (b = true ↔ is_Some (file_at d0 name))).
Proof.
  unfold watchdogMarkerExists.
  eapply views_try with (φ := λ info, info = file_at d0 name); [apply views_named, views_call; [by intros a [= <-]|done]|done|]. intros info ->.
  apply views_ret. destruct (file_at d0 name) as [f|]; [|by intros b [= <-]; split; [done|intros [? [=]]]].
  intros b ([] & _ & [= <-])%bind_ok. by split; [eauto|].
Qed.

Lemma directory_views : views validateWatchdogDirectory (λ _, True).
Proof. eapply views_try with (φ := λ _, True); [by apply views_call|done|]. intros real _. by apply views_ret. Qed.

(** The transaction the directory holds. *)
Definition loads (id : string) (t : WatchdogTransaction) : Prop :=
  ∃ b, bytes_of watchdogSnapshotFile b ∧ decode_transaction b = Ok (t, AtEOF) ∧ wt_ID t = id ∧ wt_Validate t = Ok ().

Lemma decoded_ok {T} context (r : result (T * rest_of_input)) v : decoded context r = Ok v → r = Ok (v, AtEOF).
Proof. unfold decoded. destruct r as [[v' []]|e]; cbn; naive_solver. Qed.

Lemma load_views id : views (load_files id) (λ r, ∀ t, r = Ok t → loads id t).
Proof.
  eapply views_try with (φ := λ _, True); [by eapply views_mono, directory_views|done|]. intros _ _.
  eapply views_try with (φ := bytes_of watchdogSnapshotFile); [apply readWatchdogFile_views|done|]. intros b Hb.
  apply views_ret. intros t (t' & Hd%decoded_ok & ([] & Hid%reject_ok & ([] & Hv & [= <-])%bind_ok)%bind_ok)%bind_ok.
  exists b. split_and!; [done|done| |done]. apply negb_false_iff in Hid. by apply String.eqb_eq in Hid.
Qed.

(** The activation recorded in the directory. *)
Definition activated_with (t : WatchdogTransaction) (a : WatchdogActivation) : Prop :=
  ∃ b, bytes_of watchdogActivatedFile b ∧ decode_activation b = Ok (a, AtEOF) ∧ wa_Validate a t = Ok ().

Lemma activation_views t : views (readWatchdogActivation t) (λ r, ∀ a, r = Ok a → activated_with t a).
Proof.
  eapply views_try with (φ := λ _, True); [by eapply views_mono, marker_views|done|]. intros present _.
  destruct (negb present); [by apply views_ret|].
  eapply views_try with (φ := bytes_of watchdogActivatedFile); [apply readWatchdogFile_views|done|]. intros b Hb.
  apply views_ret. intros a (a' & Hd%decoded_ok & ([] & Hv & [= <-])%bind_ok)%bind_ok. by exists b.
Qed.

Lemma open_views name : views (open_existing name) (λ _, True).
Proof. apply triple_attempt; [|by intros d e torn _ ->]. intros d ->. by destruct (dk_dir d0 !! name). Qed.
End reads.

(** ** Programs over one transaction directory *)

Section programs.
Context `{!WatchdogCodec} `{!TempNames} {W : Type} `{!WatchdogHost W} (id : string).
Abbreviation run A := (proc (@world W) watchdog_event A).

Definition walks {A} (P : disk → Prop) (m : run A) (Q : A → list watchdog_event → disk → Prop) : Prop :=
  ∀ w d, ww_dirs w !! id = Some d → P d → wp m w (λ a es w', ∃ d', ww_dirs w' = <[id := d']> (ww_dirs w) ∧ Q a es d').

Lemma walks_ret {A} (a : A) (P : disk → Prop) Q : (∀ d, P d → Q a [] d) → walks P (mret a) Q.
Proof. intros HQ w d Hd HP. apply wp_ret. exists d. split; [by rewrite insert_id|auto]. Qed.

Lemma walks_bind {A B} (m : run A) (k : A → run B) P R Q : walks P m R → (∀ a es, walks (R a es) (k a) (λ b es' d, Q b (es ++ es') d)) → walks P (m ≫= k) Q.
Proof.
  intros Hm Hk w d Hd HP. apply wp_bind. eapply wp_mono; [exact (Hm w d Hd HP)|]. intros a es w1 (d1 & Hw1 & HR).
  assert (Hd1 : ww_dirs w1 !! id = Some d1) by (rewrite Hw1; apply lookup_insert_eq).
  eapply wp_mono; [exact (Hk a es w1 d1 Hd1 HR)|]. intros b es' w2 (d2 & Hw2 & HQ). exists d2. split; [|done]. by rewrite Hw2 Hw1 insert_insert_eq.
Qed.

Lemma walks_then {A B} (m : run (result A)) (k : A → run (result B)) P R Q :
  walks P m R → (∀ e es d, R (Err e) es d → Q (Err e) es d) → (∀ a es, walks (R (Ok a) es) (k a) (λ b es' d, Q b (es ++ es') d)) → walks P (then_ m k) Q.
Proof.
  intros Hm He Hk. unfold then_. eapply walks_bind; [exact Hm|]. intros [a|e] es; [apply Hk|]. apply walks_ret. intros d Hd. rewrite app_nil_r. auto.
Qed.

Lemma walks_mono {A} (m : run A) (P P' : disk → Prop) (Q Q' : A → list watchdog_event → disk → Prop) :
  (∀ d, P' d → P d) → (∀ a es d, Q a es d → Q' a es d) → walks P m Q → walks P' m Q'.
Proof. intros HP HQ Hm w d Hd Hp. eapply wp_mono; [exact (Hm w d Hd (HP d Hp))|]. intros a es w' (d' & ? & ?). eauto. Qed.

Lemma walks_host {A} (f : W → A * W) log (P : disk → Prop) (Q : A → list watchdog_event → disk → Prop) : (∀ a d, P d → Q a (log a) d) → walks P (on_host f log) Q.
Proof. intros HQ w d Hd HP. unfold wp, on_host. destruct (f (ww_host w)) as [a out]. exists d. cbn. split; [by rewrite insert_id|auto]. Qed.

Lemma walks_in_dir {A} (m : on_disk (result A)) (L P : disk → Prop) (R : result A → disk → Prop) :
  triple L False P m R → walks P (in_dir id m) (λ r es d, (∃ ds, es = Files id <$> ds ∧ Forall L ds) ∧ R r d).
Proof.
  intros Hm w d Hd HP. unfold wp, in_dir. rewrite Hd. assert (Hrun := Hm (MkHost d (ww_faults w)) ltac:(done) HP). unfold wp in Hrun.
  destruct (m (MkHost d (ww_faults w))) as [[r ds] h]. destruct Hrun as (HL & _ & HR). exists (ho_disk h). cbn. split; [done|]. split; [by exists ds|done].
Qed.

(** Only looked at. *)
Definition quiet (d0 : disk) (es : list watchdog_event) : Prop := ∀ e, e ∈ es → e = Files id d0.

Lemma quiet_nil d0 : quiet d0 [].
Proof. by intros e ?%elem_of_nil. Qed.
Lemma quiet_app d0 es es' : quiet d0 es → quiet d0 es' → quiet d0 (es ++ es').
Proof. intros H1 H2 e [?|?]%elem_of_app; auto. Qed.

Lemma views_walks {A} (m : on_disk (result A)) φ d0 : views d0 m φ → walks (λ d, d = d0) (in_dir id m) (λ r es d, d = d0 ∧ quiet d0 es ∧ φ r).
Proof.
  intros Hm. eapply walks_mono; [| |apply walks_in_dir, Hm]; [done|]. intros r es d ((ds & -> & Hds) & -> & Hφ). split_and!; [done| |done].
  intros e (d & -> & Hd)%list_elem_of_fmap. rewrite Forall_forall in Hds. by rewrite (Hds d Hd).
Qed.

Lemma load_walks d0 : walks (λ d, d = d0) (store_Load id) (λ r es d, d = d0 ∧ quiet d0 es ∧ ∀ t, r = Ok t → loads d0 id t).
Proof.
  intros w d Hd ->. unfold wp, store_Load. destruct (negb _).
  - exists d0. split; [by rewrite insert_id|]. split_and!; [done|apply quiet_nil|done].
  - rewrite Hd. exact (views_walks _ _ d0 (load_views d0 id) w d0 Hd eq_refl).
Qed.

(** A step that only looks, then the rest. *)
Lemma quiet_then {A B} (m : run (result A)) (k : A → run (result B)) d0 (φ : result A → Prop) Q :
  walks (λ d, d = d0) m (λ r es d, d = d0 ∧ quiet d0 es ∧ φ r) → (∀ e es, quiet d0 es → Q (Err e) es d0) →
  (∀ a es, quiet d0 es → φ (Ok a) → walks (λ d, d = d0) (k a) (λ r es' d, Q r (es ++ es') d)) → walks (λ d, d = d0) (then_ m k) Q.
Proof.
  intros Hm He Hk. eapply walks_then; [exact Hm|by intros e es d (-> & ? & _); auto|]. intros a es w d Hd (-> & Hq & Hφ). by apply (Hk a es Hq Hφ w d0).
Qed.

Lemma withLock_walks {A} (action : WatchdogTransaction → run (result A)) d0 Q :
  (∀ e es, quiet d0 es → Q (Err e) es d0) →
  (∀ t es, loads d0 id t → quiet d0 es → walks (λ d, d = d0) (action t) (λ r es' d, Q r (es ++ es') d)) →
  walks (λ d, d = d0) (withLock id action) Q.
Proof.
  intros He Ha. unfold withLock. eapply quiet_then; [apply load_walks|done|]. intros t0 es0 Hq0 _.
  eapply quiet_then; [apply (views_walks _ (λ r, ∀ a, r = Ok a → True)), views_named; by eapply views_mono, open_views| |].
  { intros e es Hq. by apply He, quiet_app. }
  intros u1 es1 Hq1 _. eapply quiet_then; [apply (views_walks _ (λ r, ∀ a, r = Ok a → True)), views_named; by apply views_call| |].
  { intros e es Hq. apply He. by repeat apply quiet_app. }
  intros u2 es2 Hq2 _. eapply quiet_then; [apply load_walks| |].
  { intros e es Hq. apply He. by repeat apply quiet_app. }
  intros t es3 Hq3 Ht. assert (Hq : quiet d0 (es0 ++ es1 ++ es2 ++ es3)) by (by repeat apply quiet_app).
  eapply walks_mono; [|intros r es d Hr|exact (Ha t _ (Ht t eq_refl) Hq)]; [done|]. by rewrite -!app_assoc in Hr |- *.
Qed.
End programs.
