(* ===== verification/WatchdogClaims.v ===== *)
(** * The watchdog: what it guarantees

    Whatever fails, and wherever a process or the machine stops: a transaction is never both
    committed and rolled back; it is committed only from a session begun after the activation,
    in time, on the allowed port; a rollback restores the recorded network state unless the
    transaction was committed; and the timer is started only once that state is on the disk. *)

From S2P Require Import Prelude GoTime Proc GoText GoNet Types Checks GoConv Codec Idempotency Resources StateValidate Samples Identity Operation Transition Store StoreFacts StoreClaims Ordered Network NetworkFacts Watchdog WatchdogFacts.

Local Open Scope string_scope.
Local Open Scope list_scope.

Lemma committed_plain : plain watchdogCommittedFile.
Proof. done. Qed.
Lemma rolled_back_plain : plain watchdogRolledBackFile.
Proof. done. Qed.
Lemma activated_plain : plain watchdogActivatedFile.
Proof. done. Qed.
Lemma snapshot_plain : plain watchdogSnapshotFile.
Proof. done. Qed.

(** Not both markers, now and after any crash. *)
Definition exclusive (d : disk) : Prop :=
  sound d ∧ ∃ c r, flag watchdogCommittedFile c d ∧ flag watchdogRolledBackFile r d ∧ c && r = false.

Section ops.
Context `{!WatchdogCodec} `{!TempNames} {W : Type} `{!WatchdogHost W} (id : string) (d0 : disk) (Hsound : sound d0).
Abbreviation run A := (proc (@world W) watchdog_event A).
Abbreviation walks := (walks (W:=W) id).

(** A marker that is looked up is found exactly when its flag is set. *)
Lemma marker_walks name f : flag name f d0 → walks (λ d, d = d0) (marker id name) (λ r es d, d = d0 ∧ quiet id d0 es ∧ ∀ b, r = Ok b → b = f).
Proof.
  intros Hf. eapply walks_mono; [| |apply (views_walks id _ _ d0 (marker_views d0 name))]; [done|].
  intros r es d (-> & Hq & Hr). split_and!; [done|done|]. intros b Hb. apply Hr in Hb. destruct f.
  - apply Hb. by apply visible_file.
  - destruct b; [|done]. destruct Hf as (Hnone & _). destruct (proj1 Hb eq_refl) as [g Hg]. unfold file_at in Hg. by rewrite Hnone in Hg.
Qed.

(** Only [name] is entered, and every event is one of files. *)
Definition writes (name : string) (es : list watchdog_event) : Prop := ∀ e, e ∈ es → ∃ d, e = Files id d ∧ grows name d0 d.

Lemma write_walks name data : plain name → walks (λ d, d = d0) (in_dir id (writeWatchdogFile name data true))
  (λ r es d, writes name es ∧ grows name d0 d ∧ (r = Ok () → stored d name data)).
Proof.
  intros Hn. eapply walks_mono; [| |apply walks_in_dir, (write_file_triple name data d0 Hn), grows_refl, Hsound]; [done|].
  intros r es d ((ds & -> & Hds) & Hg & Hr). split_and!; [|done|done]. intros e (d1 & -> & Hd1)%list_elem_of_fmap. exists d1. split; [done|].
  rewrite Forall_forall in Hds. auto.
Qed.

Lemma quiet_writes name es : quiet id d0 es → writes name es.
Proof. intros Hq e He. exists d0. split; [auto|by apply grows_refl]. Qed.

(** ** Rollback *)

(** The network was restored to what the directory records. *)
Definition restored (es : list watchdog_event) : Prop := ∃ t, loads d0 id t ∧ NetworkRestored (wt_Network t) (Ok ()) ∈ es.

Definition rolled (c rb : bool) (r : result unit) (es : list watchdog_event) (d : disk) : Prop :=
  grows watchdogRolledBackFile d0 d ∧
  (∀ d1, Files id d1 ∈ es → grows watchdogRolledBackFile d0 d1) ∧
  (c = true ∨ rb = true → quiet id d0 es ∧ d = d0) ∧
  (∀ s o, NetworkRestored s o ∈ es → ∃ t, loads d0 id t ∧ s = wt_Network t) ∧
  (∀ d1, Files id d1 ∈ es → d1 = d0 ∨ restored es) ∧
  (r = Ok () → c = true ∨ rb = true ∨ (restored es ∧ ∃ b, stored d watchdogRolledBackFile b)).

Lemma quiet_rolled c rb r es : quiet id d0 es → (r = Ok () → c = true ∨ rb = true) → rolled c rb r es d0.
Proof.
  intros Hq Hr. split_and!; [by apply grows_refl| |done| | |naive_solver].
  - intros d1 [= ->]%Hq. by apply grows_refl.
  - by intros s o ?%Hq.
  - intros d1 [= ->]%Hq. by left.
Qed.

(** After the restore: quiet events, the restore, and the marker if it is written. *)
Lemma restored_rolled t o r es es' d : loads d0 id t → quiet id d0 es → writes watchdogRolledBackFile es' → grows watchdogRolledBackFile d0 d →
  (o = Ok () ∨ es' = []) → (r = Ok () → o = Ok () ∧ ∃ b, stored d watchdogRolledBackFile b) →
  rolled false false r (es ++ NetworkRestored (wt_Network t) o :: es') d.
Proof.
  intros Ht Hq Hw Hg Ho Hr. split_and!; [done| |naive_solver| | |].
  - intros d1 [[= ->]%Hq|[[=]|(d2 & [= ->] & Hd2)%Hw]%elem_of_cons]%elem_of_app; [by apply grows_refl|done].
  - intros s o' [[=]%Hq|[[= -> ->]|(d2 & [=] & _)%Hw]%elem_of_cons]%elem_of_app. by exists t.
  - intros d1 [[= ->]%Hq|[[=]|Hd1]%elem_of_cons]%elem_of_app; [by left|]. right. exists t. split; [done|].
    destruct Ho as [->| ->]; [set_solver|by apply elem_of_nil in Hd1].
  - intros Hok. apply Hr in Hok as [-> Hb]. right. right. split; [|done]. exists t. split; [done|set_solver].
Qed.

Lemma rollback_walks c rb now : flag watchdogCommittedFile c d0 → flag watchdogRolledBackFile rb d0 →
  walks (λ d, d = d0) (store_Rollback id now) (rolled c rb).
Proof.
  intros Hc Hrb. unfold store_Rollback. apply withLock_walks; [intros e es Hq; by apply quiet_rolled|]. intros t es0 Ht Hq0.
  eapply quiet_then; [by apply (marker_walks _ c)|intros e es Hq; apply quiet_rolled; [by apply quiet_app|done]|]. intros b es1 Hq1 Hb. specialize (Hb b eq_refl).
  subst b. destruct c; [apply walks_ret; intros d ->; apply quiet_rolled; [by rewrite app_nil_r; apply quiet_app|by left]|].
  eapply quiet_then; [by apply (marker_walks _ rb)|intros e es Hq; apply quiet_rolled; [by repeat apply quiet_app|done]|]. intros b es2 Hq2 Hb. specialize (Hb b eq_refl).
  subst b. destruct rb; [apply walks_ret; intros d ->; apply quiet_rolled; [by rewrite app_nil_r; repeat apply quiet_app|by right]|].
  assert (Hq : quiet id d0 (es0 ++ es1 ++ es2)) by (by repeat apply quiet_app).
  eapply walks_then with (R := λ r es d, d = d0 ∧ ∃ o, es = [NetworkRestored (wt_Network t) o] ∧ (r = Ok () → o = Ok ())).
  { eapply walks_bind with (R := λ o es d, d = d0 ∧ es = [NetworkRestored (wt_Network t) o]); [apply walks_host; by intros o d ->|]. intros o es. apply walks_ret. intros d [-> ->]. split; [done|].
    exists o. split; [done|]. by destruct o as [[]|]. }
  { intros e es d (-> & o & -> & _). rewrite !app_assoc -(app_assoc es0). apply (restored_rolled t o (Err e) _ []); [done|done|by intros x ?%elem_of_nil|by apply grows_refl|by right|done]. }
  intros u es w d Hd (-> & o & -> & Ho). destruct u. specialize (Ho eq_refl). subst o. refine ((_ : walks (λ d, d = d0) _ _) w d0 Hd eq_refl).
  destruct (marshal_rollback _) as [data|e].
  - eapply walks_mono; [| |by apply write_walks]; [done|]. intros r es d (Hw & Hg & Hr). rewrite !app_assoc -(app_assoc es0) -app_assoc. cbn [app].
    apply restored_rolled; [done|done|done|done|by left|]. intros Hok. split; [done|]. eauto.
  - apply walks_ret. intros d ->. rewrite app_nil_r !app_assoc -(app_assoc es0). apply (restored_rolled t (Ok ()) (Err e) _ []);
      [done|done|by intros x ?%elem_of_nil|by apply grows_refl|by left|done].
Qed.

(** ** Commit *)

(** The session was checked against the recorded activation. *)
Definition confirmed (es : list watchdog_event) : Prop :=
  ∃ t a proof, loads d0 id t ∧ activated_with d0 t a ∧ SessionChecked (Ok proof) ∈ es ∧ check_session t a proof = Ok proof.

Definition commits (c rb ok : bool) (es : list watchdog_event) (d : disk) : Prop :=
  grows watchdogCommittedFile d0 d ∧
  (∀ d1, Files id d1 ∈ es → grows watchdogCommittedFile d0 d1) ∧
  (c = true ∨ rb = true → ok = false ∧ quiet id d0 es ∧ d = d0) ∧
  (∀ s o, NetworkRestored s o ∉ es) ∧
  (∀ d1, Files id d1 ∈ es → d1 = d0 ∨ confirmed es) ∧
  (ok = true → confirmed es ∧ ∃ b, stored d watchdogCommittedFile b).

Lemma quiet_commits c rb es : quiet id d0 es → commits c rb false es d0.
Proof.
  intros Hq. split_and!; [by apply grows_refl| |done| | |done].
  - intros d1 [= ->]%Hq. by apply grows_refl.
  - by intros s o ?%Hq.
  - intros d1 [= ->]%Hq. by left.
Qed.

Lemma session_commits es es' o ok d : quiet id d0 es → writes watchdogCommittedFile es' → grows watchdogCommittedFile d0 d →
  (es' = [] ∨ confirmed [SessionChecked o]) → (ok = true → confirmed [SessionChecked o] ∧ ∃ b, stored d watchdogCommittedFile b) →
  commits false false ok (es ++ SessionChecked o :: es') d.
Proof.
  intros Hq Hw Hg Ho Hok.
  assert (Hin : confirmed [SessionChecked o] → confirmed (es ++ SessionChecked o :: es')).
  { intros (t & a & proof & Ht & Ha & Hs%list_elem_of_singleton & Hch). exists t, a, proof. split_and!; [done|done|set_solver|done]. }
  split_and!; [done| |naive_solver| | |].
  - intros d1 [[= ->]%Hq|[[=]|(d2 & [= ->] & Hd2)%Hw]%elem_of_cons]%elem_of_app; [by apply grows_refl|done].
  - intros s o' [[=]%Hq|[[=]|(d2 & [=] & _)%Hw]%elem_of_cons]%elem_of_app.
  - intros d1 [[= ->]%Hq|[[=]|Hd1]%elem_of_cons]%elem_of_app; [by left|]. destruct Ho as [->|Ho]; [by apply elem_of_nil in Hd1|]. right. by apply Hin.
  - intros [Hco Hb]%Hok. split; [by apply Hin|done].
Qed.

Lemma check_session_same t a proof proof' : check_session t a proof = Ok proof' → proof' = proof.
Proof. unfold check_session. by repeat (intros (? & _ & H')%bind_ok; revert H'); intros [= <-]. Qed.

Lemma commit_walks c rb committedAt raw : flag watchdogCommittedFile c d0 → flag watchdogRolledBackFile rb d0 →
  walks (λ d, d = d0) (store_Commit id committedAt (verify_session raw))
    (λ r es d, commits c rb (is_ok r) es d ∧ ∀ t, r = Ok t → loads d0 id t).
Proof.
  intros Hc Hrb. unfold store_Commit. apply withLock_walks; [intros e es Hq; by split; [apply quiet_commits|]|]. intros t es0 Ht Hq0.
  eapply quiet_then; [by apply (marker_walks _ rb)|intros e es Hq; split; [apply quiet_commits; by apply quiet_app|done]|]. intros b es1 Hq1 Hb. specialize (Hb b eq_refl).
  subst b. destruct rb; [apply walks_ret; intros d ->; split; [apply quiet_commits; by rewrite app_nil_r; apply quiet_app|done]|].
  eapply quiet_then; [by apply (marker_walks _ c)|intros e es Hq; split; [apply quiet_commits; by repeat apply quiet_app|done]|]. intros b es2 Hq2 Hb. specialize (Hb b eq_refl).
  subst b. destruct c; [apply walks_ret; intros d ->; split; [apply quiet_commits; by rewrite app_nil_r; repeat apply quiet_app|done]|].
  eapply quiet_then; [apply (views_walks id _ _ d0 (activation_views d0 t))|intros e es Hq; split; [apply quiet_commits; by repeat apply quiet_app|done]|].
  intros a es3 Hq3 Ha. specialize (Ha a eq_refl). assert (Hq : quiet id d0 (es0 ++ es1 ++ es2 ++ es3)) by (by repeat apply quiet_app).
  eapply walks_then with (R := λ r es d, d = d0 ∧ ∃ o, es = [SessionChecked o] ∧ ∀ proof, r = Ok proof → confirmed [SessionChecked o]).
  { eapply walks_bind with (R := λ o es d, d = d0 ∧ es = [SessionChecked o]); [apply walks_host; by intros o d ->|]. intros o es.
    apply walks_ret. intros d [-> ->]. split; [done|]. exists o. split; [done|]. intros proof Hp. destruct o as [proof'|]; [|done].
    assert (Heq := check_session_same _ _ _ _ Hp). subst proof'. exists t, a, proof. split_and!; [done|done|set_solver|done]. }
  { intros e es d (-> & o & -> & _). split; [|done]. rewrite !app_assoc -(app_assoc (es0 ++ es1)) -(app_assoc es0). 
    apply (session_commits _ []); [done|by intros x ?%elem_of_nil|by apply grows_refl|by left|done]. }
  intros proof es w d Hd (-> & o & -> & Ho). specialize (Ho proof eq_refl). refine ((_ : walks (λ d, d = d0) _ _) w d0 Hd eq_refl).
  assert (Hfinal : ∀ r es d, writes watchdogCommittedFile es → grows watchdogCommittedFile d0 d → (is_ok r = true → ∃ b, stored d watchdogCommittedFile b) →
    (∀ t', r = Ok t' → t' = t) →
    commits false false (is_ok r) (es0 ++ es1 ++ es2 ++ es3 ++ [SessionChecked o] ++ es) d ∧ ∀ t', r = Ok t' → loads d0 id t').
  { intros r es d Hw Hg Hr Hsame. split; [|by intros t' ->%Hsame]. rewrite !app_assoc -(app_assoc (es0 ++ es1)) -(app_assoc es0) -app_assoc. cbn [app].
    apply session_commits; [done|done|done|by right|]. intros Hk. split; [done|auto]. }
  destruct (reject _ _;; _) as [data|e].
  - eapply walks_then; [by apply write_walks|intros e es d (Hw & Hg & _); apply Hfinal; done|]. intros [] es. apply walks_ret. intros d (Hw & Hg & Hr). rewrite app_nil_r.
    apply Hfinal; [done|done|by eauto|by intros t' [= <-]].
  - apply walks_ret. intros d ->. apply Hfinal; [by intros x ?%elem_of_nil|by apply grows_refl|done|done].
Qed.

(** ** Activation and status *)

Lemma mark_walks c rb activation : flag watchdogCommittedFile c d0 → flag watchdogRolledBackFile rb d0 →
  walks (λ d, d = d0) (store_MarkActivated id activation)
    (λ r es d, writes watchdogActivatedFile es ∧ grows watchdogActivatedFile d0 d ∧ (c = true ∨ rb = true → is_ok r = false ∧ d = d0)).
Proof.
  intros Hc Hrb.
  assert (Hquiet : ∀ (r : result unit) es, quiet id d0 es → is_ok r = false →
    writes watchdogActivatedFile es ∧ grows watchdogActivatedFile d0 d0 ∧ (c = true ∨ rb = true → is_ok r = false ∧ d0 = d0)).
  { intros r es Hq Hr. split_and!; [by apply quiet_writes|by apply grows_refl|done]. }
  unfold store_MarkActivated. apply withLock_walks; [intros e es Hq; by apply (Hquiet (Err e))|]. intros t es0 Ht Hq0.
  eapply quiet_then; [by apply (marker_walks _ c)|intros e es Hq; by apply (Hquiet (Err e)), eq_refl; apply quiet_app|]. intros b es1 Hq1 Hb. specialize (Hb b eq_refl).
  subst b. destruct c; [apply walks_ret; intros d ->; apply Hquiet; [by rewrite app_nil_r; apply quiet_app|done]|].
  eapply quiet_then; [by apply (marker_walks _ rb)|intros e es Hq; by apply (Hquiet (Err e)), eq_refl; repeat apply quiet_app|]. intros b es2 Hq2 Hb.
  specialize (Hb b eq_refl). subst b. destruct rb; [apply walks_ret; intros d ->; apply Hquiet; [by rewrite app_nil_r; repeat apply quiet_app|done]|].
  destruct (wa_Validate _ _;; _) as [data|e].
  - eapply walks_mono; [| |by apply write_walks]; [done|]. intros r es d (Hw & Hg & _). split_and!; [|done|naive_solver].
    intros x [Hx|[Hx|[Hx|Hx]%elem_of_app]%elem_of_app]%elem_of_app; [by apply (quiet_writes _ es0)|by apply (quiet_writes _ es1)|by apply (quiet_writes _ es2)|by apply Hw].
  - apply walks_ret. intros d ->. apply Hquiet; [by rewrite app_nil_r; repeat apply quiet_app|done].
Qed.

(** The status the markers show. *)
Definition status_of (c rb a : bool) : result WatchdogTransactionStatus :=
  if c && rb then Err (Message "watchdog transaction has conflicting terminal markers")
  else if c then Ok WatchdogStatusCommitted else if rb then Ok WatchdogStatusRolledBack
  else if a then Ok WatchdogStatusActive else Ok WatchdogStatusArmed.

Lemma status_quiet : walks (λ d, d = d0) (store_Status id) (λ r es d, d = d0 ∧ quiet id d0 es).
Proof.
  assert (Hm : ∀ name, walks (λ d, d = d0) (marker id name) (λ r es d, d = d0 ∧ quiet id d0 es ∧ True)).
  { intros name. eapply walks_mono; [| |apply (views_walks id _ _ d0 (marker_views d0 name))]; [done|]. by intros r es d (? & ? & _). }
  unfold store_Status. apply withLock_walks; [done|]. intros t es0 Ht Hq0.
  eapply quiet_then; [apply Hm|intros e es Hq; split; [done|by apply quiet_app]|]. intros b1 es1 Hq1 _.
  eapply quiet_then; [apply Hm|intros e es Hq; split; [done|by repeat apply quiet_app]|]. intros b2 es2 Hq2 _.
  eapply quiet_then; [apply Hm|intros e es Hq; split; [done|by repeat apply quiet_app]|]. intros b3 es3 Hq3 _.
  apply walks_ret. intros d ->. split; [done|by rewrite app_nil_r; repeat apply quiet_app].
Qed.

Lemma status_walks c rb a : flag watchdogCommittedFile c d0 → flag watchdogRolledBackFile rb d0 → flag watchdogActivatedFile a d0 →
  walks (λ d, d = d0) (store_Status id) (λ r es d, d = d0 ∧ quiet id d0 es ∧ ∀ s, r = Ok s → status_of c rb a = Ok s).
Proof.
  intros Hc Hrb Ha. unfold store_Status. apply withLock_walks; [done|]. intros t es0 Ht Hq0.
  eapply quiet_then; [by apply (marker_walks _ c)|intros e es Hq; split_and!; [done|by apply quiet_app|done]|]. intros b1 es1 Hq1 Hb1.
  eapply quiet_then; [by apply (marker_walks _ rb)|intros e es Hq; split_and!; [done|by repeat apply quiet_app|done]|]. intros b2 es2 Hq2 Hb2.
  eapply quiet_then; [by apply (marker_walks _ a)|intros e es Hq; split_and!; [done|by repeat apply quiet_app|done]|]. intros b3 es3 Hq3 Hb3.
  rewrite (Hb1 b1 eq_refl) (Hb2 b2 eq_refl) (Hb3 b3 eq_refl). apply walks_ret. intros d ->. split_and!; [done|by rewrite app_nil_r; repeat apply quiet_app|done].
Qed.

(** ** Confirmation *)

Lemma confirm_walks c rb raw : flag watchdogCommittedFile c d0 → flag watchdogRolledBackFile rb d0 →
  walks (λ d, d = d0) (Confirm id raw) (λ r es d,
    grows watchdogCommittedFile d0 d ∧ (∀ d1, Files id d1 ∈ es → grows watchdogCommittedFile d0 d1 ∧ (d1 = d0 ∨ (c = false ∧ rb = false ∧ confirmed es))) ∧
    (∀ s o, NetworkRestored s o ∉ es) ∧ (is_ok r = true → c = false ∧ rb = false ∧ confirmed es ∧ ∃ b, stored d watchdogCommittedFile b)).
Proof.
  intros Hc Hrb. unfold Confirm. eapply walks_bind with (R := λ _ es d, d = d0 ∧ es = []); [apply walks_host; by intros now d ->|].
  intros now es w d Hd [-> ->]. refine ((_ : walks (λ d, d = d0) _ _) w d0 Hd eq_refl). cbn [app].
  assert (Hpost : ∀ ok es d, commits c rb ok es d → (∀ d1, Files id d1 ∈ es → grows watchdogCommittedFile d0 d1 ∧ (d1 = d0 ∨ (c = false ∧ rb = false ∧ confirmed es))) ∧
    (ok = true → c = false ∧ rb = false)).
  { intros ok es d (Hg & Hgs & Hcr & _ & Hco & _). split.
    - intros d1 Hd1. split; [auto|]. destruct (Hco d1 Hd1) as [|Hcf]; [by left|]. destruct c; [left; destruct Hcr as (_ & Hq & _); [by left|]; by apply Hq in Hd1 as [= ->]|].
      destruct rb; [left; destruct Hcr as (_ & Hq & _); [by right|]; by apply Hq in Hd1 as [= ->]|]. by right.
    - intros ->. destruct c; [by destruct Hcr as [? _]; [left|]|]. destruct rb; [by destruct Hcr as [? _]; [right|]|]. done. }
  eapply walks_then; [by apply (commit_walks c rb)| |].
  - intros e es d [Hcm _]. destruct (Hpost _ _ _ Hcm) as [H1 _]. destruct Hcm as (Hg & _ & _ & Hn & _). done.
  - intros t es. eapply walks_bind with (R := λ o es' d, es' = [TimerStopped (wt_ID t) o] ∧ commits c rb true es d); [apply walks_host; by intros o d [? _]|].
    intros o es'. apply walks_ret. intros d [-> Hcm]. rewrite app_nil_r. destruct (Hpost _ _ _ Hcm) as [H1 H2]. destruct (H2 eq_refl) as [-> ->].
    destruct Hcm as (Hg & _ & _ & Hn & _ & Hok). destruct (Hok eq_refl) as [Hcf Hst].
    assert (Hmore : confirmed (es ++ [TimerStopped (wt_ID t) o])).
    { destruct Hcf as (t' & a & proof & ? & ? & Hin & ?). exists t', a, proof. split_and!; [done|done|set_solver|done]. }
    split_and!; [done| |intros s o' [?|[=]%list_elem_of_singleton]%elem_of_app; by eapply Hn|done].
    intros d1 [Hd1|[=]%list_elem_of_singleton]%elem_of_app. destruct (H1 d1 Hd1) as [? [?|(_ & _ & _)]]; split; auto.
Qed.
End ops.

(** ** The life of a transaction directory *)

Section life.
Context `{!WatchdogCodec} `{!TempNames} {W : Type} `{!WatchdogHost W}.
Abbreviation run A := (proc (@world W) watchdog_event A).

Inductive watchdog_op := OpMarkActivated (activation : WatchdogActivation) | OpConfirm (rawSSHConnection : string) | OpRollback (now : time) | OpStatus.

Definition op_run (id : string) (op : watchdog_op) : run (result unit) :=
  match op with
  | OpMarkActivated activation => store_MarkActivated id activation
  | OpConfirm raw => r ← Confirm id raw; mret (r;; Ok ())
  | OpRollback now => store_Rollback id now
  | OpStatus => r ← store_Status id; mret (r;; Ok ())
  end.

(** A directory a process leaves behind, wherever it stops in an operation, or a crash. *)
Inductive moves (id : string) (d : disk) : disk → Prop :=
  | moves_op op w r es w' d' : ww_dirs w !! id = Some d → op_run id op w = (r, es, w') → Files id d' ∈ es → moves id d d'
  | moves_crash d' : crashes d d' → moves id d d'.

(** What every operation keeps: the directory stays sound, and what is stored stays stored. *)
Definition keeps (d d' : disk) : Prop := exclusive d' ∧ ∀ m b, plain m → stored d m b → stored d' m b.

Lemma grows_keeps name d d' : grows name d d' → exclusive d →
  (name = watchdogCommittedFile → flag watchdogRolledBackFile false d) → (name = watchdogRolledBackFile → flag watchdogCommittedFile false d) → keeps d d'.
Proof.
  intros [Hs Hg] (_ & c & r & Hc & Hr & Hcr) H1 H2. split; [|by intros m b Hm; apply Hg].
  destruct (Hg watchdogCommittedFile committed_plain) as (_ & Hc' & Hc''), (Hg watchdogRolledBackFile rolled_back_plain) as (_ & Hr' & Hr''). split; [done|].
  destruct (decide (name = watchdogCommittedFile)) as [->|Hn1].
  - destruct (Hc'' c Hc) as (c' & Hcf & _). exists c', false. split_and!; [done|apply Hr'; auto|by rewrite andb_false_r].
  - destruct (decide (name = watchdogRolledBackFile)) as [->|Hn2].
    + destruct (Hr'' r Hr) as (r' & Hrf & _). exists false, r'. split_and!; [apply Hc'; auto|done|done].
    + exists c, r. split_and!; [apply Hc'; auto|apply Hr'; auto|done].
Qed.

Lemma keeps_refl d : exclusive d → keeps d d.
Proof. done. Qed.

(** Neither marker is entered when the operation starts, or nothing changes. *)
Lemma grows_from name d d' c r : exclusive d → flag watchdogCommittedFile c d → flag watchdogRolledBackFile r d →
  grows name d d' → d' = d ∨ (c = false ∧ r = false) → keeps d d'.
Proof. intros He Hc Hr Hg [->|[-> ->]]; [by apply keeps_refl|]. by apply (grows_keeps name). Qed.

(** The disks an operation leaves on the way. *)
Definition leaves_kept (d : disk) (es : list watchdog_event) (id : string) : Prop := ∀ d', Files id d' ∈ es → keeps d d'.

Lemma op_keeps id op w d : ww_dirs w !! id = Some d → exclusive d → wp (op_run id op) w (λ _ es _, leaves_kept d es id).
Proof.
  intros Hd He. assert (Hx := He). destruct Hx as (Hs & c & r & Hc & Hr & Hcr).
  assert (Hquiet : ∀ es, quiet id d es → leaves_kept d es id) by (intros es Hq d' [= ->]%Hq; by apply keeps_refl).
  destruct op as [activation|raw|now|]; cbn [op_run].
  - eapply wp_mono; [exact (mark_walks id d Hs c r activation Hc Hr w d Hd eq_refl)|]. intros a es w' (d1 & _ & Hw & _ & _) d' (d2 & [= ->] & Hg)%Hw.
    by apply (grows_keeps watchdogActivatedFile).
  - wp_step. eapply wp_mono; [exact (confirm_walks id d Hs c r raw Hc Hr w d Hd eq_refl)|]. intros a es w' (d1 & _ & _ & Hw & _ & _). wp_step. rewrite app_nil_r.
    intros d' Hd'. destruct (Hw d' Hd') as [Hg Hor]. eapply grows_from; [done|done|done|done|]. destruct Hor as [->|(? & ? & _)]; auto.
  - eapply wp_mono; [exact (rollback_walks id d Hs c r now Hc Hr w d Hd eq_refl)|]. intros a es w' (d1 & _ & _ & Hg & Hq & _) d' Hd'.
    destruct c; [exact (Hquiet es (proj1 (Hq (or_introl eq_refl))) d' Hd')|]. destruct r; [exact (Hquiet es (proj1 (Hq (or_intror eq_refl))) d' Hd')|].
    by apply (grows_keeps watchdogRolledBackFile); [apply Hg|..].
  - wp_step. eapply wp_mono; [exact (status_quiet id d w d Hd eq_refl)|]. intros a es w' (d1 & _ & _ & Hq). wp_step. rewrite app_nil_r. by apply Hquiet.
Qed.

Lemma crash_keeps d d' : exclusive d → crashes d d' → keeps d d'.
Proof.
  intros (Hs & c & r & Hc & Hr & Hcr) Hcrash. split; [|by intros m b _; apply crash_stored]. split; [by eapply crash_sound|].
  assert (Hany : ∀ name b, flag name b d → ∃ b', flag name b' d' ∧ (b = false → b' = false)).
  { intros name [] Hb; [destruct (crash_visible d d' name Hs Hcrash Hb) as [b' ?]; by exists b'|]. exists false. split; [by eapply crash_flag|done]. }
  destruct (Hany _ _ Hc) as (c' & ? & Hc'), (Hany _ _ Hr) as (r' & ? & Hr'). exists c', r'. split_and!; [done|done|].
  destruct c; [|by rewrite Hc']. destruct r; [done|]. by rewrite Hr' // andb_false_r.
Qed.

Lemma moves_keeps id d d' : exclusive d → moves id d d' → keeps d d'.
Proof.
  intros He [op w r es w' d1 Hd Hrun Hin|d1 Hcrash]; [|by apply crash_keeps]. exact (wp_run _ _ _ _ _ _ (op_keeps id op w d Hd He) Hrun d1 Hin).
Qed.

Lemma history_keeps id d d' : exclusive d → rtc (moves id) d d' → keeps d d'.
Proof.
  intros He. induction 1 as [d|d d1 d2 Hm _ IH]; [by apply keeps_refl|]. apply moves_keeps in Hm as [He1 Hst1]; [|done].
  destruct (IH He1) as [He2 Hst2]. split; [done|]. auto.
Qed.

(** A directory in which neither outcome was ever recorded. *)
Definition undecided (d : disk) : Prop := sound d ∧ flag watchdogCommittedFile false d ∧ flag watchdogRolledBackFile false d.

Lemma undecided_exclusive d : undecided d → exclusive d.
Proof. intros (Hs & Hc & Hr). split; [done|]. by exists false, false. Qed.

Definition visible (d : disk) (name : string) : Prop := is_Some (dk_dir d !! name).

Lemma flag_visible name b d : flag name b d → visible d name → b = true.
Proof. destruct b; [done|]. intros (Hn & _) [i Hi]. congruence. Qed.

(** C4: a transaction is never both committed and rolled back: from a directory without
    outcome, after any sequence of activations, confirmations, rollbacks and status queries by
    any process, each stopped anywhere, with any failing calls and with crashes of the machine
    in between, at most one of the two markers is there. *)
Theorem outcomes_are_exclusive id d0 d : undecided d0 → rtc (moves id) d0 d →
  ¬ (visible d watchdogCommittedFile ∧ visible d watchdogRolledBackFile).
Proof.
  intros Hu Hm [Hvc Hvr]. apply undecided_exclusive in Hu. destruct (history_keeps id d0 d Hu Hm) as [(_ & c & r & Hc & Hr & Hcr) _].
  by rewrite (flag_visible _ _ _ Hc Hvc) (flag_visible _ _ _ Hr Hvr) in Hcr.
Qed.

(** A session that may confirm: of the same boot, begun after the activation, seen before the
    window ends, on the allowed port. *)
Definition fresh_session (t : WatchdogTransaction) (a : WatchdogActivation) (proof : SSHSessionProof) : Prop :=
  let boundary := wa_SessionBoundary a in
  sp_BootID proof = mb_BootID boundary ∧ co_ServerPort (sp_Connection proof) = wt_AllowedSSHPort t ∧
  (mb_MonotonicNanos boundary < sp_StartedMonotonicNanos proof <= sp_ObservedMonotonicNanos proof)%Z ∧
  (sp_ObservedMonotonicNanos proof < mb_MonotonicNanos boundary + 120 * second)%Z.

Lemma session_is_fresh t a proof : wa_Validate a t = Ok () → check_session t a proof = Ok proof → fresh_session t a proof.
Proof.
  unfold wa_Validate, check_session. intros (_ & _ & (_ & _ & (_ & _ & Hb%reject_ok)%bind_ok)%bind_ok)%bind_ok.
  intros (_ & H1%reject_ok & (_ & H2%reject_ok & (_ & H3%reject_ok & (_ & H4%reject_ok & (_ & H5%reject_ok & _)%bind_ok)%bind_ok)%bind_ok)%bind_ok)%bind_ok.
  assert (Hadd : int64_add (mb_MonotonicNanos (wa_SessionBoundary a)) window = (mb_MonotonicNanos (wa_SessionBoundary a) + 120 * second)%Z).
  { unfold int64_add, window, WatchdogSeconds, max_int64 in *. rewrite orb_false_iff in Hb. rewrite Z.mod_small; [|lia]. unfold second, millisecond, nanosecond in *. lia. }
  rewrite Hadd in H3. rewrite !orb_false_iff in H2. apply negb_false_iff, String.eqb_eq in H1. apply negb_false_iff, Z.eqb_eq in H5. split_and!; [done|done|lia|lia|lia].
Qed.

(** C8: a transaction is committed only from a fresh SSH session: when a confirmation
    succeeds, or leaves the committed marker behind anywhere on its way, the recorded
    activation is valid and the session checked is of the same boot, on the allowed port,
    begun after the activation and seen less than 120 seconds after it, without overflow in
    the 64-bit comparison; and a transaction that was rolled back is never confirmed. *)
Theorem commit_needs_fresh_session id raw w d0 r es w' : ww_dirs w !! id = Some d0 → exclusive d0 → Confirm id raw w = (r, es, w') →
  ¬ visible d0 watchdogCommittedFile →
  is_ok r = true ∨ (∃ d, Files id d ∈ es ∧ visible d watchdogCommittedFile) →
  ¬ visible d0 watchdogRolledBackFile ∧
  ∃ t a proof, loads d0 id t ∧ activated_with d0 t a ∧ SessionChecked (Ok proof) ∈ es ∧ fresh_session t a proof.
Proof.
  intros Hd (Hs & c & rb & Hc & Hrb & _) Hrun Hnot Hor.
  destruct (wp_run _ _ _ _ _ _ (confirm_walks id d0 Hs c rb raw Hc Hrb w d0 Hd eq_refl) Hrun) as (d' & _ & _ & Hfiles & _ & Hok).
  assert (Hcf : rb = false ∧ confirmed id d0 es).
  { destruct Hor as [Hr|(d & Hin & Hv)]; [by destruct (Hok Hr) as (_ & ? & ? & _)|]. destruct (Hfiles d Hin) as [_ [->|(_ & ? & ?)]]; done. }
  destruct Hcf as [-> (t & a & proof & Ht & Ha & Hin & Hch)]. split; [intros Hv; by apply (flag_visible _ _ _ Hrb) in Hv|].
  exists t, a, proof. split_and!; [done|done|done|]. destruct Ha as (b & _ & _ & Hv). by apply session_is_fresh.
Qed.

(** ** Creating a transaction *)

(** A step that touches no transaction directory. *)
Definition aside {A} (m : run A) : Prop := ∀ w, wp m w (λ _ es w', es = [] ∧ ww_dirs w' = ww_dirs w).

Lemma root_aside {A} (f : world → result A * world * list watchdog_event) : (∀ w, (f w).2 = [] ∧ ww_dirs (f w).1.2 = ww_dirs w) → aside (root_call f).
Proof.
  intros Hf w. unfold wp, root_call. destruct (ww_faults w) as [|[[e torn]|] rest].
  - specialize (Hf (MkWorld (ww_roots w) (ww_dirs w) [] (ww_host w))). destruct (f _) as [[a w1] es]. destruct Hf as [? ?]. done.
  - done.
  - specialize (Hf (MkWorld (ww_roots w) (ww_dirs w) rest (ww_host w))). destruct (f _) as [[a w1] es]. destruct Hf as [? ?]. done.
Qed.

Lemma then_aside {A B} (m : run (result A)) (k : A → run (result B)) : aside m → (∀ a, aside (k a)) → aside (then_ m k).
Proof.
  intros Hm Hk w. unfold then_. wp_step. eapply wp_mono; [apply Hm|]. intros [a|e] es w1 [-> Hw1]; [|by wp_step].
  eapply wp_mono; [apply Hk|]. intros b es w2 [-> Hw2]. by rewrite Hw2.
Qed.

Lemma ensureRoots_aside : aside ensureRoots.
Proof.
  assert (He : ∀ get set, aside (ensureWatchdogDirectory get set)).
  { intros get set. apply then_aside; [apply root_aside; intros w; by destruct (get (ww_roots w))|]. intros u. by apply root_aside. }
  unfold ensureRoots. apply then_aside; [by apply root_aside|]. intros u. apply then_aside; [done|]. intros u'. done.
Qed.

(** Aside first, then the rest. *)
Lemma aside_then {A B} (m : run (result A)) (k : A → run (result B)) w Q : aside m →
  (∀ e w', ww_dirs w' = ww_dirs w → Q (Err e) [] w') → (∀ a w', ww_dirs w' = ww_dirs w → wp (k a) w' Q) → wp (then_ m k) w Q.
Proof.
  intros Hm He Hk. unfold then_. wp_step. eapply wp_mono; [apply Hm|]. intros [a|e] es w1 [-> Hw1]; [by apply Hk|wp_step; by apply He].
Qed.

Lemma lock_triple d1 : sound d1 → triple (grows watchdogLockFile d1) False (λ d, d = d1)
  (try (named "create watchdog transaction lock" (create_exclusive watchdogLockFile)) (λ i,
     try (named "sync watchdog transaction lock" (sync_file i)) (λ _,
     try (named "close watchdog transaction lock" plain_call) (λ _, syncWatchdogDirectory))))
  (λ _ d, grows watchdogLockFile d1 d).
Proof.
  intros Hs. assert (Hp : plain watchdogLockFile) by done. set (G := grows watchdogLockFile d1).
  eapply triple_try with (S := λ _, G) (E := G); [|intros i|by intros e d].
  - apply triple_named, triple_attempt; [|by intros d e torn _ ->; split; apply grows_refl].
    intros d ->. destruct (dk_dir d1 !! watchdogLockFile) as [j|] eqn:Hn; cbn [fst snd outcome]; [split; by apply grows_refl|].
    assert (Hg : G (enter (Link watchdogLockFile (dk_next d1)) (MkDisk (dk_real d1) (<[dk_next d1:=MkInode true "" false]> (dk_inodes d1)) (dk_dir d1) (dk_durable d1) (dk_pending d1) (dk_next d1 + 1)))).
    { eapply grows_trans; [|apply grows_link; [|done|cbn; rewrite lookup_insert_eq; eauto]].
      - by apply grows_fresh.
      - by apply (grows_fresh watchdogLockFile). }
    by split.
  - eapply triple_try with (S := λ _, G) (E := G); [|intros u; cbn beta; clear u|by intros e d].
    + apply triple_named, triple_attempt; [|by intros d e torn _ Hd; split]. intros d Hd. cbn [fst snd outcome].
      assert (Hg : G (match dk_inodes d !! i with Some f => set_inode i (MkInode (in_regular f) (in_bytes f) true) d | None => d end)).
      { destruct (dk_inodes d !! i) as [f|] eqn:Hf; [|done]. eapply grows_trans; [exact Hd|]. apply grows_sync_file; [apply Hd|done]. }
      by split.
    + eapply triple_try with (S := λ _, G) (E := G); [apply triple_named, plain_keeps; by intros d Hd|intros u; cbn beta; clear u|by intros e d].
      unfold syncWatchdogDirectory. eapply triple_try with (S := λ _, G) (E := G); [apply triple_named, plain_keeps; by intros d Hd|intros u; cbn beta; clear u|by intros e d].
      eapply triple_conseq with (Q := outcome (λ _, G) G); [done|by intros [[]|e] d Hd|]. apply triple_named, triple_attempt; [|by intros d e torn _ Hd; split].
      intros d Hd. cbn [fst snd outcome]. assert (Hg : G (synced d)) by (eapply grows_trans; [exact Hd|apply grows_sync_dir, Hd]). by split.
Qed.

Lemma grows_undecided name d d' : name ≠ watchdogCommittedFile → name ≠ watchdogRolledBackFile → undecided d → grows name d d' → undecided d'.
Proof.
  intros H1 H2 (_ & Hc & Hr) [Hs Hg]. destruct (Hg _ committed_plain) as (_ & Hc' & _), (Hg _ rolled_back_plain) as (_ & Hr' & _).
  split_and!; [done|by apply Hc'|by apply Hr'].
Qed.

Lemma empty_undecided : undecided empty_directory.
Proof.
  split_and!; [|split_and!; [done|done|by intros op ?%elem_of_nil]..]. split; [done|]. intros i f Hf. unfold empty_directory in Hf. cbn in Hf. by rewrite lookup_empty in Hf.
Qed.

(** Only files of the transaction, without outcome. *)
Definition undecided_files (id : string) (es : list watchdog_event) : Prop := ∀ e, e ∈ es → ∃ d, e = Files id d ∧ undecided d.

Lemma create_files_walks id encoded : walks id (W := W) (λ d, d = empty_directory)
  (then_ (in_dir id (writeWatchdogFile watchdogSnapshotFile encoded true)) (λ _,
     in_dir id (try (named "create watchdog transaction lock" (create_exclusive watchdogLockFile)) (λ i,
       try (named "sync watchdog transaction lock" (sync_file i)) (λ _,
       try (named "close watchdog transaction lock" plain_call) (λ _, syncWatchdogDirectory))))))
  (λ r es d, undecided_files id es ∧ (r = Ok () → undecided d ∧ stored d watchdogSnapshotFile encoded)).
Proof.
  assert (Hs : sound empty_directory) by apply empty_undecided. assert (Hu := empty_undecided).
  eapply walks_then; [by apply (write_walks id empty_directory Hs watchdogSnapshotFile)| |].
  - intros e es d (Hw & _). split; [|done]. intros x (d1 & -> & Hd1)%Hw. exists d1. split; [done|]. by eapply (grows_undecided watchdogSnapshotFile).
  - intros [] es w d Hd (Hw & Hg & Hst). assert (Hu1 : undecided d) by (by eapply (grows_undecided watchdogSnapshotFile)).
    eapply wp_mono; [exact (walks_in_dir id _ _ _ _ (lock_triple d (proj1 Hu1)) w d Hd eq_refl)|]. intros r es' w' (d2 & Hw2 & (ds & -> & Hds) & Hg2).
    assert (Hu2 : ∀ d', grows watchdogLockFile d d' → undecided d') by (intros d' ?; by eapply (grows_undecided watchdogLockFile)).
    exists d2. split; [done|]. split.
    + intros x [(d1 & -> & Hd1)%Hw|(d1 & -> & Hd1)%list_elem_of_fmap]%elem_of_app; exists d1; (split; [done|]).
      * by apply (grows_undecided watchdogSnapshotFile empty_directory).
      * rewrite Forall_forall in Hds. auto.
    + intros _. split; [auto|]. destruct Hg2 as [_ Hg2]. by apply (Hg2 _ snapshot_plain), Hst.
Qed.

(** The transaction is on the disk, in a directory that was not there before. *)
Definition recorded (w w' : world (W := W)) (t : WatchdogTransaction) : Prop :=
  ww_dirs w !! wt_ID t = None ∧ wt_Validate t = Ok () ∧
  ∃ d b, ww_dirs w' !! wt_ID t = Some d ∧ undecided d ∧ marshal_transaction t = Ok b ∧ stored d watchdogSnapshotFile (b +:+ newline).

Definition more_dirs (w w' : world (W := W)) : Prop := ∀ k, ww_dirs w' !! k = None → ww_dirs w !! k = None.

Lemma create_walks t w : wp (store_Create t) w (λ r es w', more_dirs w w' ∧ undecided_files (wt_ID t) es ∧ (r = Ok () → recorded w w' t)).
Proof.
  assert (Hnil : undecided_files (wt_ID t) []) by (by intros x ?%elem_of_nil).
  assert (Hsame : ∀ e w1, ww_dirs w1 = ww_dirs w → more_dirs w w1 ∧ undecided_files (wt_ID t) [] ∧ (Err e = Ok () → recorded w w1 t)).
  { intros e w1 Hw1. split_and!; [by intros k; rewrite Hw1|done|done]. }
  unfold store_Create. destruct (wt_Validate t) as [[]|e] eqn:Hv; cbn [mbind result_bind]; [|wp_step; by apply Hsame].
  destruct (marshal_transaction t) as [b|e] eqn:Hb; cbn [wrap mbind result_bind]; [|wp_step; by apply Hsame]. destruct (_ <? _)%N; [wp_step; by apply Hsame|].
  apply aside_then; [apply ensureRoots_aside|done|]. intros u w1 Hw1.
  unfold then_ at 1. wp_step.
  assert (Hcd : wp (create_directory (wt_ID t)) w1 (λ r es w2, match r with
    | Err _ => es = [] ∧ ww_dirs w2 = ww_dirs w1
    | Ok _ => ww_dirs w1 !! wt_ID t = None ∧ es = [Files (wt_ID t) empty_directory] ∧ ww_dirs w2 = <[wt_ID t := empty_directory]> (ww_dirs w1) end)).
  { unfold wp, create_directory, root_call. destruct (ww_faults w1) as [|[[e torn]|] rest]; cbn; [|done|]; by destruct (ww_dirs w1 !! wt_ID t) eqn:?. }
  eapply wp_mono; [exact Hcd|]. intros [u2|e] es w2 H2; [|destruct H2 as [-> H2]; wp_step; apply Hsame; by rewrite H2].
  destruct H2 as (Hnone & -> & H2). rewrite Hw1 in Hnone, H2.
  assert (Hmore : ∀ w3, ww_dirs w3 = <[wt_ID t := empty_directory]> (ww_dirs w) → more_dirs w w3).
  { intros w3 Hw3 k. rewrite Hw3 lookup_insert_None. by intros [? _]. }
  assert (Hfirst : ∀ es, undecided_files (wt_ID t) es → undecided_files (wt_ID t) ([Files (wt_ID t) empty_directory] ++ es)).
  { intros es Hes x [->%list_elem_of_singleton|?]%elem_of_app; [exists empty_directory; split; [done|apply empty_undecided]|auto]. }
  apply aside_then; [by apply root_aside|intros e w3 H3; split_and!; [apply Hmore; by rewrite H3|by apply Hfirst|done]|]. intros u3 w3 H3.
  apply aside_then; [by apply root_aside|intros e w4 H4; split_and!; [apply Hmore; by rewrite H4 H3|by apply Hfirst|done]|]. intros u4 w4 H4.
  assert (Hd4 : ww_dirs w4 !! wt_ID t = Some empty_directory) by (rewrite H4 H3 H2; apply lookup_insert_eq).
  eapply wp_mono; [exact (create_files_walks (wt_ID t) (b +:+ newline) w4 empty_directory Hd4 eq_refl)|]. intros r es w5 (d & Hw5 & Hes & Hr).
  rewrite H4 H3 H2 insert_insert_eq in Hw5. split_and!.
  - intros k. rewrite Hw5 lookup_insert_None. by intros [? _].
  - by apply Hfirst.
  - intros [Hu Hst]%Hr. split_and!; [done|done|]. exists d, b. split_and!; [by rewrite Hw5 lookup_insert_eq|done|done|done].
Qed.

Lemma host_wp {A} (f : W → A * W) log w (Q : A → list watchdog_event → world → Prop) :
  (∀ a w', ww_dirs w' = ww_dirs w → Q a (log a) w') → wp (on_host f log) w Q.
Proof. intros HQ. unfold wp, on_host. destruct (f (ww_host w)) as [a out]. by apply HQ. Qed.

(** A call to the host whose error gets a context. *)
Lemma host_then {A B} context (f : W → result A * W) log (k : A → run (result B)) w Q :
  (∀ e o w', ww_dirs w' = ww_dirs w → Q (Err e) (log o) w') →
  (∀ a w', ww_dirs w' = ww_dirs w → wp (k a) w' (λ r es w2, Q r (log (Ok a) ++ es) w2)) →
  wp (then_ (r ← on_host f log; mret (wrap context r)) k) w Q.
Proof.
  intros He Hk. unfold then_. wp_step. wp_step. apply host_wp. intros [a|e] w1 Hw1; wp_step; cbn [wrap].
  - rewrite app_nil_r. by apply Hk.
  - wp_step. rewrite !app_nil_r. by apply He.
Qed.

Definition only_files (es : list watchdog_event) : Prop := ∀ e, e ∈ es → ∃ id d, e = Files id d.

Lemma create_transaction_walks attempts input preparedAt network w :
  wp (create_transaction attempts input preparedAt network) w (λ r es w', more_dirs w w' ∧ only_files es ∧
    ∀ t, r = Ok t → recorded w w' t ∧ wt_Network t = network ∧ wt_Deadline t = Add (wt_PreparedAt t) window).
Proof.
  assert (Hnil : only_files []) by (by intros e ?%elem_of_nil).
  revert w. induction attempts as [|attempts IH]; intros w; cbn [create_transaction]; [wp_step; split_and!; [by intros k|done|done]|].
  apply host_then; [intros e o w1 Hw1; split_and!; [by intros k; rewrite Hw1|done|done]|]. intros id w1 Hw1. cbv zeta. set (t := MkWatchdogTransaction _ _ _ _ _ _ _ _).
  destruct (wt_Validate t) as [[]|e] eqn:Hv; [|wp_step; split_and!; [by intros k; rewrite Hw1|done|done]].
  wp_step. eapply wp_mono; [apply create_walks|]. intros created es w2 (Hm & Hes & Hr).
  assert (Hm2 : more_dirs w w2) by (intros k Hk; rewrite -Hw1; by apply Hm).
  assert (Hf : only_files es) by (intros e (d & -> & _)%Hes; by exists (wt_ID t), d).
  destruct created as [[]|e].
  - wp_step. rewrite app_nil_r. split_and!; [done|done|]. intros t' [= <-]. split_and!; [|done|done]. destruct (Hr eq_refl) as (Hn & Hrest). split; [by rewrite -Hw1|done].
  - destruct (errors_is _ _); [|wp_step; rewrite app_nil_r; by split_and!]. eapply wp_mono; [apply IH|]. intros r es' w3 (Hm3 & Hes' & Hr3). split_and!.
    + intros k Hk. by apply Hm2, Hm3.
    + intros x. cbn [app]. intros [Hx|Hx]%elem_of_app; [exact (Hf x Hx)|exact (Hes' x Hx)].
    + intros t' Ht'. destruct (Hr3 t' Ht') as ((Hn & Hrest) & Hsame). split; [|done]. split; [by apply Hm2|done].
Qed.

Definition armed (w : world (W := W)) (r : result WatchdogTransaction) (es : list watchdog_event) (w' : world (W := W)) : Prop :=
  (∀ id o, TimerStarted id o ∈ es → ∃ t, wt_ID t = id ∧ recorded w w' t ∧ NetworkRead (Ok (wt_Network t)) ∈ es ∧ wt_Deadline t = Add (wt_PreparedAt t) window) ∧
  (∀ t, r = Ok t → recorded w w' t ∧ TimerStarted (wt_ID t) (Ok ()) ∈ es).

(** Where an event of a log comes from. *)
Ltac find_event := repeat match goal with
  | H : _ ∈ _ ++ _ |- _ => apply elem_of_app in H as [H|H]
  | H : _ ∈ _ :: _ |- _ => apply elem_of_cons in H as [H|H]
  | H : _ ∈ [] |- _ => by apply elem_of_nil in H
  | H : TimerStarted _ _ = NetworkRead _ |- _ => discriminate H
  | H : TimerStarted _ _ = TransactionPrepared _ _ |- _ => discriminate H
  end.

Lemma arm_walks input prepared w : wp (arm input prepared) w (armed w).
Proof.
  assert (Hfail : ∀ e es w', (∀ id o, TimerStarted id o ∉ es) → armed w (Err e) es w').
  { intros e es1 w1 Hn. split; [|done]. by intros id o ?%Hn. }
  unfold arm. destruct (reject _ _;; _) as [u|e]; [|wp_step; apply Hfail; by intros id o ?%elem_of_nil].
  apply host_then; [intros e o w1 _; apply Hfail; intros id o' Hin; find_event|]. intros network w1 Hw1. wp_step. apply host_wp. intros now w2 Hw2.
  unfold then_ at 1. wp_step. eapply wp_mono; [apply create_transaction_walks|]. intros [t|e] es3 w3 (Hm3 & Hf3 & Hr3);
    [|wp_step; apply Hfail; intros id o Hin; find_event; by apply Hf3 in Hin as (? & ? & [=])].
  destruct (Hr3 t eq_refl) as ((Hnone & Hv & Hd) & <- & Hdl). rewrite Hw2 Hw1 in Hnone.
  assert (Hrec : ∀ w4, ww_dirs w4 = ww_dirs w3 → recorded w w4 t) by (intros w4 Hw4; split_and!; [done|done|by rewrite Hw4]).
  unfold then_ at 1. wp_step. set (hooked := match prepared with None => _ | Some _ => _ end).
  assert (Hhook : wp hooked w3 (λ _ es w4, ww_dirs w4 = ww_dirs w3 ∧ ∀ id o, TimerStarted id o ∉ es)).
  { unfold hooked. destruct prepared as [hook|]; [|wp_step; split; [done|]; by intros id o ?%elem_of_nil]. wp_step. apply host_wp. intros o w4 Hw4. wp_step.
    split; [done|]. intros id o' Hin. find_event. }
  eapply wp_mono; [exact Hhook|]. intros [[]|e] es4 w4 (Hw4 & Hn4);
    [|wp_step; apply Hfail; intros id o Hin; find_event; [by apply Hf3 in Hin as (? & ? & [=])|by apply Hn4 in Hin]].
  apply host_then.
  - intros e o w5 Hw5. split; [|done]. intros id o' Hin. exists t. split_and!; [|apply Hrec; by rewrite Hw5|set_solver|done].
    find_event; [by apply Hf3 in Hin as (? & ? & [=])|by apply Hn4 in Hin|by injection Hin as ->].
  - intros u5 w5 Hw5. wp_step. split.
    + intros id o' Hin. exists t. split_and!; [|apply Hrec; by rewrite Hw5|set_solver|done].
      find_event; [by apply Hf3 in Hin as (? & ? & [=])|by apply Hn4 in Hin|by injection Hin as ->].
    + intros t' [= <-]. destruct u5. split; [apply Hrec; by rewrite Hw5|set_solver].
Qed.

(** The timer is started only after the rollback input is safe: when arming starts the
    timer of a transaction, its directory did not exist before, and the file with the
    transaction, that is valid and holds the network state read just before and a deadline 120
    seconds after its preparation, is on the disk whatever crash follows; arming succeeds only
    when the timer was started. *)
Theorem timer_starts_after_recording input prepared w r es w' : arm input prepared w = (r, es, w') →
  (∀ id o, TimerStarted id o ∈ es → ∃ t, wt_ID t = id ∧ recorded w w' t ∧ NetworkRead (Ok (wt_Network t)) ∈ es ∧ wt_Deadline t = Add (wt_PreparedAt t) window) ∧
  (∀ t, r = Ok t → recorded w w' t ∧ TimerStarted (wt_ID t) (Ok ()) ∈ es).
Proof. intros Hrun. exact (wp_run _ _ _ _ _ _ (arm_walks input prepared w) Hrun). Qed.

Lemma stored_loads d id b t t' : sound d → stored d watchdogSnapshotFile b → decode_transaction b = Ok (t, AtEOF) → loads d id t' → t' = t.
Proof.
  intros Hs Hst%stored_now Hdec (b' & (f & Hf & Hb) & Hdec' & _); [|done]. rewrite (file_shown _ _ _ Hst) in Hf. injection Hf as <-. cbn in Hb. subst b'.
  rewrite Hdec in Hdec'. by injection Hdec' as ->.
Qed.

(** C9: a rollback restores exactly the network state that was recorded when the transaction
    was armed, unless it was committed: after any history of the armed transaction, every
    restore a rollback performs is of that state, none is performed once the transaction was
    committed or rolled back, and a rollback that reports success found one of these outcomes
    or restored the state and left a durable marker. *)
Theorem rollback_restores_armed_network input prepared w0 t es0 w1 d0 d now w r es w' :
  (∀ b, marshal_transaction t = Ok b → decode_transaction (b +:+ newline) = Ok (t, AtEOF)) →
  arm input prepared w0 = (Ok t, es0, w1) → ww_dirs w1 !! wt_ID t = Some d0 → rtc (moves (wt_ID t)) d0 d →
  ww_dirs w !! wt_ID t = Some d → store_Rollback (wt_ID t) now w = (r, es, w') →
  (∀ s o, NetworkRestored s o ∈ es → s = wt_Network t ∧ ¬ visible d watchdogCommittedFile ∧ ¬ visible d watchdogRolledBackFile) ∧
  (r = Ok () → visible d watchdogCommittedFile ∨ visible d watchdogRolledBackFile ∨
     (NetworkRestored (wt_Network t) (Ok ()) ∈ es ∧ ∃ d' b, ww_dirs w' !! wt_ID t = Some d' ∧ stored d' watchdogRolledBackFile b)).
Proof.
  intros Hcodec Harm Hd0 Hhist Hd Hrun. destruct (wp_run _ _ _ _ _ _ (arm_walks input prepared w0) Harm) as [_ Hrec].
  destruct (Hrec t eq_refl) as [(_ & _ & d0' & b & Hd0' & Hu & Hb & Hst) _]. rewrite Hd0 in Hd0'. injection Hd0' as <-.
  destruct (history_keeps _ _ _ (undecided_exclusive _ Hu) Hhist) as [(Hs & c & rb & Hc & Hrb & _) Hkept].
  assert (Hload : ∀ t', loads d (wt_ID t) t' → t' = t).
  { intros t' Ht'. eapply stored_loads; [done|by apply Hkept|by apply Hcodec|done]. }
  destruct (wp_run _ _ _ _ _ _ (rollback_walks (wt_ID t) d Hs c rb now Hc Hrb w d Hd eq_refl) Hrun) as (d' & Hw' & _ & _ & Hq & Hres & _ & Hok). split.
  - intros s o Hin. destruct (Hres s o Hin) as (t' & ->%Hload & ->). split; [done|].
    assert (Hcr : c = false ∧ rb = false); [|destruct Hcr as [-> ->]; split; intros Hv; [by apply (flag_visible _ _ _ Hc) in Hv|by apply (flag_visible _ _ _ Hrb) in Hv]].
    destruct c; [destruct Hq as [Hq _]; [by left|]; by apply Hq in Hin|]. destruct rb; [destruct Hq as [Hq _]; [by right|]; by apply Hq in Hin|]. done.
  - intros Hr. destruct (Hok Hr) as [->|[->|((t' & ->%Hload & Hin) & b' & Hb')]]; [left; apply Hc|right; left; apply Hrb|right; right].
    split; [done|]. exists d', b'. split; [by rewrite Hw' lookup_insert_eq|done].
Qed.
End life.

(** ** Identifiers *)

Definition id_at (n : nat) : ascii := default "0"%char (String.get n watchdogIDCharacters).

Lemma low_bits value : (N.to_nat (N.land value 31) < 32)%nat.
Proof.
  assert (H := N.land_ones value 5). change (N.ones 5) with 31%N in H. rewrite H. assert (H' := N.mod_lt value (2 ^ 5) ltac:(done)).
  change (2 ^ 5)%N with 32%N in H' |- *. lia.
Qed.

Lemma id_at_canonical n : (n < 32)%nat → watchdog_char (id_at n) = true.
Proof.
  intros Hn. assert (Hall : forallb (λ n, watchdog_char (id_at n)) (seq 0 32) = true) by (by vm_compute).
  rewrite forallb_forall in Hall. apply Hall, in_seq. lia.
Qed.

Lemma id_at_inj m n : (m < 32)%nat → (n < 32)%nat → id_at m = id_at n → m = n.
Proof.
  intros Hm Hn. assert (Hnd : NoDup (id_at <$> seq 0 32)) by (by apply (bool_decide_eq_true_1 _); vm_compute).
  assert (Hl : ∀ k, (k < 32)%nat → (id_at <$> seq 0 32) !! k = Some (id_at k)).
  { intros k Hk. rewrite list_lookup_fmap lookup_seq_lt; [lia|]. done. }
  intros Heq. apply (NoDup_lookup _ m n (id_at m) Hnd); [by apply Hl|by rewrite Heq; apply Hl].
Qed.

Lemma lang_digits values : lang (times (Class watchdog_char) (length values)) (foldr (λ value s, String (id_char value) s) "" values).
Proof.
  induction values as [|v values IH]; cbn [length foldr times]; [constructor|].
  rewrite -(str_app_nil_l (foldr _ _ _)) -str_app_cons. apply lang_cat; [|exact IH]. constructor. apply id_at_canonical, low_bits.
Qed.

(** A generated transaction identifier is always a canonical one, so that it passes every
    check that guards the store and the timer units; and two draws give the same identifier
    only if they agree on the five low bits of every byte. *)
Theorem generated_ids_are_canonical random random' : length random = watchdogIDRandomLength → length random' = watchdogIDRandomLength →
  ValidWatchdogID (newWatchdogID random) = true ∧
  (newWatchdogID random = newWatchdogID random' → (λ v, N.land v 31) <$> random = (λ v, N.land v 31) <$> random').
Proof.
  intros Hlen Hlen'. split.
  - apply matches_lang. apply lang_cat; [apply matches_lang; by vm_compute|]. change 6%nat with watchdogIDRandomLength. rewrite -Hlen. apply lang_digits.
  - unfold newWatchdogID. intros Heq. assert (Hbody : foldr (λ value s, String (id_char value) s) "" random = foldr (λ value s, String (id_char value) s) "" random').
    { by injection Heq as Heq. }
    rewrite -Hlen' in Hlen. clear Heq Hlen'. revert random' Hlen Hbody. induction random as [|v l IH]; intros [|v' l'] Hlen Hbody; [done|done|done|].
    cbn in Hbody. injection Hbody as Hc Hrest. rewrite !fmap_cons. f_equal; [|apply IH; [by injection Hlen|done]].
    apply N2Nat.inj. apply id_at_inj; [apply low_bits|apply low_bits|exact Hc].
Qed.

(** ** Witnesses *)

Section witness.
#[local] Existing Instance sample_names.

Definition watchdog_id : string := "fw-0A1B2C".
Definition armed_transaction : WatchdogTransaction :=
  MkWatchdogTransaction 1 watchdog_id (day 3) (Add (day 3) window) 22 None "digest" sample_network.
Definition sample_activation : WatchdogActivation :=
  MkWatchdogActivation watchdog_id (day 3) (MkMonotonicBoundary "01234567-89ab-cdef-0123-456789abcdef" 1000).
Definition sample_proof : SSHSessionProof :=
  MkSSHSessionProof (MkSSHConnection "203.0.113.9" 50000 "203.0.113.7" 22) "01234567-89ab-cdef-0123-456789abcdef" 2000 3000.

#[local] Instance sample_codec : WatchdogCodec := {|
  marshal_transaction _ := Ok "transaction"; decode_transaction _ := Ok (armed_transaction, AtEOF);
  marshal_activation _ := Ok "activation"; decode_activation _ := Ok (sample_activation, AtEOF);
  marshal_commit _ := Ok "committed"; marshal_rollback _ := Ok "rolled back"; networkDigest _ := "digest"
|}.
#[local] Instance sample_watchdog_host : WatchdogHost unit := {|
  host_Snapshot _ w := (Ok sample_network, w); host_Restore _ w := (Ok (), w);
  StartTimer _ w := (Ok (), w); TriggerRollback _ w := (Ok (), w); StopTimer _ w := (Ok (), w);
  watchdog_Now w := (day 3, w); ActivationBoundary w := (Ok (wa_SessionBoundary sample_activation), w);
  CurrentSSHSession _ w := (Ok sample_proof, w); watchdog_newID w := (Ok watchdog_id, w)
|}.

Definition sample_input : WatchdogArmInput := MkWatchdogArmInput 22 None (MkOwnedNetworkScope None).
Definition bare_world : world (W := unit) := MkWorld (MkRoots true None None) ∅ [] ().
Definition armed_run := arm sample_input None bare_world.
Definition armed_world : world := armed_run.2.
Definition directory_of (w : world (W := unit)) : disk := default empty_directory (ww_dirs w !! watchdog_id).
Definition activated_run := store_MarkActivated watchdog_id sample_activation armed_world.
Definition confirmed_run := Confirm watchdog_id "203.0.113.9 50000 203.0.113.7 22" activated_run.2.

Lemma armed_ok : armed_run.1.1 = Ok armed_transaction.
Proof. by vm_compute. Qed.
Lemma armed_directory : ww_dirs armed_world !! watchdog_id = Some (directory_of armed_world).
Proof. by vm_compute. Qed.

Lemma timer_starts_after_recording_witness :
  recorded bare_world armed_world armed_transaction ∧ TimerStarted watchdog_id (Ok ()) ∈ armed_run.1.2.
Proof.
  assert (Hok := armed_ok). unfold armed_world. destruct armed_run as [[r es] w'] eqn:Hrun. cbn in Hok. subst r.
  exact (proj2 (timer_starts_after_recording sample_input None bare_world _ es w' Hrun) armed_transaction eq_refl).
Defined.

Lemma rollback_restores_armed_network_witness :
  visible (directory_of armed_world) watchdogCommittedFile ∨ visible (directory_of armed_world) watchdogRolledBackFile ∨
  (NetworkRestored sample_network (Ok ()) ∈ (store_Rollback watchdog_id (day 3) armed_world).1.2 ∧
   ∃ d b, ww_dirs (store_Rollback watchdog_id (day 3) armed_world).2 !! watchdog_id = Some d ∧ stored d watchdogRolledBackFile b).
Proof.
  assert (Hdir := armed_directory). assert (Hr : (store_Rollback watchdog_id (day 3) armed_world).1.1 = Ok ()) by (by vm_compute).
  assert (Hok := armed_ok). unfold armed_world in *. destruct armed_run as [[r es] w1] eqn:Hrun. cbn [fst snd] in *. subst r.
  destruct (store_Rollback watchdog_id (day 3) w1) as [[r es'] w2] eqn:Hrb. cbn in Hr. subst r.
  exact (proj2 (rollback_restores_armed_network sample_input None bare_world armed_transaction es w1 _ _ (day 3) w1 (Ok ()) es' w2
    (λ b _, eq_refl) Hrun Hdir (rtc_refl _ _) Hdir Hrb) eq_refl).
Defined.

Lemma armed_undecided : undecided (directory_of armed_world).
Proof.
  assert (Hok := armed_ok). assert (Hdir := armed_directory). unfold armed_world in *. destruct armed_run as [[r es] w1] eqn:Hrun. cbn [fst snd] in *. subst r.
  destruct (wp_run _ _ _ _ _ _ (arm_walks sample_input None bare_world) Hrun) as [_ Hrec].
  destruct (Hrec _ eq_refl) as [(_ & _ & d & b & Hd & Hu & _) _]. rewrite Hdir in Hd. injection Hd as Hd. by rewrite Hd.
Qed.

Lemma activated_directory : ww_dirs activated_run.2 !! watchdog_id = Some (directory_of activated_run.2) ∧ exclusive (directory_of activated_run.2).
Proof.
  destruct armed_undecided as (Hs & Hc & Hr). assert (Hu := armed_undecided).
  assert (Hw := mark_walks watchdog_id _ Hs false false sample_activation Hc Hr armed_world _ armed_directory eq_refl).
  unfold activated_run, wp in *. destruct (store_MarkActivated _ _ _) as [[r es] w']. destruct Hw as (d & Hd & _ & Hg & _). cbn [snd].
  unfold directory_of. rewrite Hd lookup_insert_eq. split; [done|]. apply undecided_exclusive. by eapply (grows_undecided watchdogActivatedFile); [..|exact Hg].
Qed.

Lemma commit_needs_fresh_session_witness :
  ∃ t a proof, loads (directory_of activated_run.2) watchdog_id t ∧ activated_with (directory_of activated_run.2) t a ∧
    SessionChecked (Ok proof) ∈ confirmed_run.1.2 ∧ fresh_session t a proof.
Proof.
  destruct activated_directory as [Hd He]. assert (Hok : is_ok confirmed_run.1.1 = true) by (by vm_compute).
  assert (Hn : dk_dir (directory_of activated_run.2) !! watchdogCommittedFile = None) by (by vm_compute).
  unfold confirmed_run in *. destruct (Confirm _ _ _) as [[r es] w'] eqn:Hrun. cbn [fst snd] in *.
  refine (proj2 (commit_needs_fresh_session watchdog_id _ activated_run.2 _ r es w' Hd He Hrun _ (or_introl Hok))).
  intros [i Hi]. congruence.
Defined.

Lemma outcomes_are_exclusive_witness :
  ∃ d, rtc (moves watchdog_id) (directory_of armed_world) d ∧ visible d watchdogRolledBackFile ∧
    ¬ (visible d watchdogCommittedFile ∧ visible d watchdogRolledBackFile).
Proof.
  set (es := (op_run watchdog_id (OpRollback (day 3)) armed_world).1.2).
  set (n := (length es - 1)%nat). set (d := match es !! n with Some (Files _ d) => d | _ => empty_directory end).
  assert (Hin : es !! n = Some (Files watchdog_id d)) by (by vm_compute).
  assert (Hm : rtc (moves watchdog_id) (directory_of armed_world) d).
  { apply rtc_once. unfold es in *. destruct (op_run watchdog_id (OpRollback (day 3)) armed_world) as [[r es'] w'] eqn:Hrun.
    eapply (moves_op _ _ (OpRollback (day 3)) armed_world r es' w'); [apply armed_directory|exact Hrun|]. by eapply list_elem_of_lookup_2. }
  exists d. split_and!; [exact Hm|by vm_compute; eauto|]. apply (outcomes_are_exclusive watchdog_id (directory_of armed_world) d armed_undecided Hm).
Defined.

Lemma generated_ids_are_canonical_witness : ValidWatchdogID (newWatchdogID [255; 1; 2; 33; 4; 90]%N) = true.
Proof. apply (generated_ids_are_canonical [255; 1; 2; 33; 4; 90]%N [0; 0; 0; 0; 0; 0]%N); reflexivity. Defined.
End witness.
