(* ===== verification/Loopback.v ===== *)
(** * Loopback ports of tunnels ([internal/tunnel/allocator.go])

    The gateway forwards each expose through a loopback port of its own.  Ports of
    foreign listeners are unavailable; saved assignments survive a restart unless
    their port is no longer usable, in which case they are remapped. *)

From S2P Require Import Prelude GoTime GoText GoNet Types Checks Identity Address Expose Idempotency Resources.

Local Open Scope string_scope.
Local Open Scope list_scope.
Local Open Scope Z_scope.

Definition DefaultLoopbackPortFirst : Z := 20000.
Definition DefaultLoopbackPortLast : Z := 29999.

Record PortAssignment := MkPortAssignment { pa_ExposeID : string; pa_Port : Z }.
Record PortRemap := MkPortRemap { remap_ExposeID : string; remap_PreviousPort : Z; remap_Port : Z }.

#[export] Instance PortAssignment_eq_dec : EqDecision PortAssignment.
Proof. solve_decision. Defined.

Record LoopbackAllocator := MkLoopbackAllocator {
  lb_first : Z;
  lb_last : Z;
  lb_assignments : gmap string PortAssignment;
  lb_used : gmap Z string;
  lb_unavailable : gset Z
}.

Definition lb_validateUUID (value : string) : result unit := reject (negb (matches uuidPattern value)) (Message "tunnel expose ID").

Definition validatePortRange (first last : Z) : result unit :=
  reject ((first <? 1024) || (65535 <? last) || (last <? first)) (Message "tunnel loopback port range").

(** Both views of one assignment. *)
Definition lb_assign (a : LoopbackAllocator) (exposeID : string) (port : Z) : LoopbackAllocator :=
  MkLoopbackAllocator (lb_first a) (lb_last a) (<[exposeID := MkPortAssignment exposeID port]> (lb_assignments a))
    (<[port := exposeID]> (lb_used a)) (lb_unavailable a).

(** [for port := first; port <= last; port++]: the first port that is neither used nor
    unavailable; a range of ports has at most [last - first + 1] candidates. *)
Fixpoint free_port (fuel : nat) (a : LoopbackAllocator) (port : Z) : option Z :=
  match fuel with
  | O => None
  | S fuel' =>
      if port <=? lb_last a then
        if bool_decide (is_Some (lb_used a !! port)) then free_port fuel' a (port + 1)
        else if bool_decide (port ∈ lb_unavailable a) then free_port fuel' a (port + 1)
        else Some port
      else None
  end.

Definition lb_Allocate (a : LoopbackAllocator) (exposeID : string) : result (LoopbackAllocator * Z) :=
  lb_validateUUID exposeID;;
  match lb_assignments a !! exposeID with
  | Some assignment => Ok (a, pa_Port assignment)
  | None =>
      match free_port (Z.to_nat (lb_last a - lb_first a + 1)) a (lb_first a) with
      | Some port => Ok (lb_assign a exposeID port, port)
      | None => Err (Sentinel ErrLoopbackPoolExhausted)
      end
  end.

Definition lb_Reserve (a : LoopbackAllocator) (exposeID : string) (port : Z) : result LoopbackAllocator :=
  lb_validateUUID exposeID;;
  reject ((port <? lb_first a) || (lb_last a <? port)) (Sentinel ErrLoopbackPortConflict);;
  reject (bool_decide (port ∈ lb_unavailable a)) (Sentinel ErrLoopbackPortConflict);;
  match lb_assignments a !! exposeID with
  | Some existing => if pa_Port existing =? port then Ok a else Err (Sentinel ErrLoopbackPortConflict)
  | None =>
      match lb_used a !! port with
      | Some _ => Err (Sentinel ErrLoopbackPortConflict)
      | None => Ok (lb_assign a exposeID port)
      end
  end.

Definition lb_Release (a : LoopbackAllocator) (exposeID : string) : result (LoopbackAllocator * bool) :=
  lb_validateUUID exposeID;;
  match lb_assignments a !! exposeID with
  | None => Ok (a, false)
  | Some assignment =>
      Ok (MkLoopbackAllocator (lb_first a) (lb_last a) (delete exposeID (lb_assignments a))
            (delete (pa_Port assignment) (lb_used a)) (lb_unavailable a), true)
  end.

Definition lb_Lookup (a : LoopbackAllocator) (exposeID : string) : option Z := pa_Port <$> lb_assignments a !! exposeID.

Definition pa_le (x y : PortAssignment) : Prop := str_le (pa_ExposeID x) (pa_ExposeID y).
#[export] Instance pa_le_dec : RelDecision pa_le.
Proof. intros x y. unfold pa_le, str_le. apply _. Defined.
#[export] Instance pa_le_total : Total pa_le.
Proof. intros x y. apply (total str_le). Qed.
#[export] Instance pa_le_trans : Transitive pa_le.
Proof. intros x y z. unfold pa_le. apply transitivity. Qed.

Definition lb_Assignments (a : LoopbackAllocator) : list PortAssignment :=
  merge_sort pa_le ((map_to_list (lb_assignments a)).*2).

(** The unavailable ports inside the range. *)
Definition collect_unavailable (first last : Z) (unavailable : list Z) : result (gset Z) :=
  range (λ _ port seen,
    reject ((port <? 1) || (65535 <? port)) (Message "unavailable port");;
    Ok (if (first <=? port) && (port <=? last) then {[port]} ∪ seen else seen)) unavailable ∅.

(** Saved assignments must be well formed and distinct in both fields. *)
Definition check_saved (ordered : list PortAssignment) : result (gset string * gset Z) :=
  range (λ _ assignment '(seenIDs, savedPorts),
    wrap "restore assignment" (lb_validateUUID (pa_ExposeID assignment));;
    reject ((pa_Port assignment <? 1024) || (65535 <? pa_Port assignment)) (Message "restore assignment");;
    reject (bool_decide (pa_ExposeID assignment ∈ (seenIDs : gset string))) (Sentinel ErrLoopbackPortConflict);;
    reject (bool_decide (pa_Port assignment ∈ (savedPorts : gset Z))) (Sentinel ErrLoopbackPortConflict);;
    Ok ({[pa_ExposeID assignment]} ∪ seenIDs, {[pa_Port assignment]} ∪ savedPorts)) ordered (∅, ∅).

(** A saved port that can be kept. *)
Definition usable (first last : Z) (unavailable : gset Z) (assignment : PortAssignment) : bool :=
  negb ((pa_Port assignment <? first) || (last <? pa_Port assignment)) && negb (bool_decide (pa_Port assignment ∈ unavailable)).

(** The first pass keeps the usable assignments and collects the others. *)
Definition keep_usable (first last : Z) (ordered : list PortAssignment) (a : LoopbackAllocator) : LoopbackAllocator * list PortAssignment :=
  foldl (λ '(a, needsRemap) assignment,
    if usable first last (lb_unavailable a) assignment then (lb_assign a (pa_ExposeID assignment) (pa_Port assignment), needsRemap)
    else (a, needsRemap ++ [assignment])) (a, []) ordered.

Definition remap_all (needsRemap : list PortAssignment) (a : LoopbackAllocator) : result (LoopbackAllocator * list PortRemap) :=
  range (λ _ assignment '(a, remaps),
    '(a, port) ← wrap "restore expose" (lb_Allocate a (pa_ExposeID assignment));
    Ok (a, remaps ++ [MkPortRemap (pa_ExposeID assignment) (pa_Port assignment) port])) needsRemap (a, []).

Definition RestoreLoopbackAllocator (first last : Z) (restored : list PortAssignment) (unavailable : list Z)
    : result (LoopbackAllocator * list PortRemap) :=
  validatePortRange first last;;
  unavailable ← collect_unavailable first last unavailable;
  let allocator := MkLoopbackAllocator first last ∅ ∅ unavailable in
  let ordered := merge_sort pa_le restored in
  _ ← check_saved ordered;
  let '(allocator, needsRemap) := keep_usable first last ordered allocator in
  remap_all needsRemap allocator.

Definition NewLoopbackAllocator (first last : Z) (restored : list PortAssignment) : result LoopbackAllocator :=
  '(allocator, remaps) ← RestoreLoopbackAllocator first last restored [];
  reject (negb (length remaps =? 0)%nat) (Sentinel ErrLoopbackPortConflict);;
  Ok allocator.

Definition DefaultLoopbackAllocator (restored : list PortAssignment) (unavailable : list Z) : result (LoopbackAllocator * list PortRemap) :=
  RestoreLoopbackAllocator DefaultLoopbackPortFirst DefaultLoopbackPortLast restored unavailable.

Definition DefaultLoopbackAllocatorFromExposes (exposes : list Expose) (unavailable : list Z) : result (LoopbackAllocator * list PortRemap) :=
  assignments ← range (λ _ expose assignments,
    wrap "persisted expose" (expose_Validate expose);;
    Ok (assignments ++ [MkPortAssignment (expose_ID expose) (expose_TunnelPort expose)])) exposes [];
  DefaultLoopbackAllocator assignments unavailable.

(** ** Well-formed allocators *)

Record lb_wf (a : LoopbackAllocator) : Prop := {
  lb_range : 1024 ≤ lb_first a ∧ lb_last a ≤ 65535;
  lb_assigned id x : lb_assignments a !! id = Some x →
    pa_ExposeID x = id ∧ lb_first a ≤ pa_Port x ≤ lb_last a ∧ (pa_Port x ∉ lb_unavailable a) ∧ lb_used a !! pa_Port x = Some id;
  lb_owner p id : lb_used a !! p = Some id → lb_assignments a !! id = Some (MkPortAssignment id p)
}.

(** A port an allocation may hand out. *)
Definition port_free (a : LoopbackAllocator) (p : Z) : Prop :=
  lb_first a ≤ p ≤ lb_last a ∧ lb_used a !! p = None ∧ (p ∉ lb_unavailable a).

Lemma lb_assign_wf a id p : lb_wf a → lb_assignments a !! id = None → port_free a p → lb_wf (lb_assign a id p).
Proof.
  intros [Hr Ha Ho] Hid (Hp & Hu & Hav). constructor; cbn; [done|..].
  - intros id' x [[<- <-]|[Hne Hx]]%lookup_insert_Some; [by rewrite lookup_insert_eq|].
    destruct (Ha _ _ Hx) as (? & ? & ? & Hux). split_and!; try done; try lia. rewrite lookup_insert_ne //. intros Heq. by rewrite Heq Hux in Hu.
  - intros q id' [[<- <-]|[Hne Hq]]%lookup_insert_Some; [by rewrite lookup_insert_eq|].
    apply Ho in Hq. rewrite lookup_insert_ne //. intros ->. by rewrite Hq in Hid.
Qed.

Lemma free_port_some fuel a port p : free_port fuel a port = Some p → lb_first a ≤ port →
  port_free a p ∧ ∀ q, port ≤ q < p → ¬ port_free a q.
Proof.
  revert port. induction fuel as [|fuel IH]; intros port; cbn; [done|].
  destruct (port <=? lb_last a) eqn:E; [|done]. apply Z.leb_le in E.
  assert (Hstep : ∀ H : ¬ port_free a port, free_port fuel a (port + 1) = Some p → lb_first a ≤ port →
    port_free a p ∧ ∀ q, port ≤ q < p → ¬ port_free a q).
  { intros Hno Hf Hle. destruct (IH (port + 1) Hf) as [Hp Hall]; [lia|]. split; [done|]. intros q Hq.
    destruct (decide (q = port)) as [->|]; [done|]. apply Hall. lia. }
  case_bool_decide as Hu.
  { intros Hf Hle. apply Hstep; [|done|done]. intros (_ & Hn & _). rewrite Hn in Hu. by destruct Hu. }
  case_bool_decide as Hav.
  { intros Hf Hle. apply Hstep; [|done|done]. by intros (_ & _ & Hn). }
  intros [= <-] Hle. apply eq_None_not_Some in Hu. split; [by split_and!|]. intros q Hq. lia.
Qed.

Lemma free_port_none fuel a port : free_port fuel a port = None → lb_last a - port < Z.of_nat fuel →
  ∀ q, port ≤ q → ¬ port_free a q.
Proof.
  revert port. induction fuel as [|fuel IH]; intros port; cbn [free_port].
  { intros _ Hf q Hq (Hr & _). lia. }
  destruct (port <=? lb_last a) eqn:E; [apply Z.leb_le in E|apply Z.leb_gt in E; intros _ _ q Hq (Hr & _); lia].
  assert (Hstep : ¬ port_free a port → free_port fuel a (port + 1) = None → lb_last a - port < Z.of_nat (S fuel) →
    ∀ q, port ≤ q → ¬ port_free a q).
  { intros Hno Hf Hlt q Hq. destruct (decide (q = port)) as [->|]; [done|]. apply (IH (port + 1) Hf); lia. }
  case_bool_decide as Hu.
  { apply Hstep. intros (_ & Hn & _). rewrite Hn in Hu. by destruct Hu. }
  case_bool_decide as Hav; [|done]. apply Hstep. by intros (_ & _ & Hn).
Qed.

Lemma lb_Allocate_ok a id a' p : lb_Allocate a id = Ok (a', p) →
  matches uuidPattern id = true ∧
  ((a' = a ∧ ∃ x, lb_assignments a !! id = Some x ∧ pa_Port x = p) ∨
   (a' = lb_assign a id p ∧ lb_assignments a !! id = None ∧ port_free a p ∧ ∀ q, lb_first a ≤ q < p → ¬ port_free a q)).
Proof.
  unfold lb_Allocate, lb_validateUUID. intros H. ok_step H. facts. split; [done|].
  destruct (lb_assignments a !! id) as [x|] eqn:Hx; [injection H as <- <-; left; eauto|right].
  destruct (free_port _ a _) as [q|] eqn:Hf; [|done]. injection H as <- <-.
  destruct (free_port_some _ _ _ _ Hf) as [? ?]; [done|]. done.
Qed.

Lemma lb_Allocate_wf a id a' p : lb_wf a → lb_Allocate a id = Ok (a', p) → lb_wf a'.
Proof. intros Hwf (_ & [[-> _]|(-> & ? & ? & _)])%lb_Allocate_ok; [done|]. by apply lb_assign_wf. Qed.

Lemma lb_Reserve_ok a id p a' : lb_Reserve a id p = Ok a' →
  (a' = a ∧ lb_Lookup a id = Some p) ∨ (a' = lb_assign a id p ∧ lb_assignments a !! id = None ∧ port_free a p).
Proof.
  unfold lb_Reserve, lb_validateUUID, lb_Lookup. intros H. do 3 ok_step H. facts.
  destruct (lb_assignments a !! id) as [x|] eqn:Hx; cbn.
  - destruct (Z.eqb_spec (pa_Port x) p) as [<-|]; [|done]. injection H as <-. auto.
  - destruct (lb_used a !! p) eqn:Hu; [done|]. injection H as <-. right. by split_and!.
Qed.

Lemma lb_Release_ok a id a' released : lb_wf a → lb_Release a id = Ok (a', released) →
  lb_wf a' ∧ lb_assignments a' = delete id (lb_assignments a) ∧ lb_unavailable a' = lb_unavailable a ∧
  lb_first a' = lb_first a ∧ lb_last a' = lb_last a.
Proof.
  unfold lb_Release, lb_validateUUID. intros Hwf H. ok_step H.
  destruct (lb_assignments a !! id) as [x|] eqn:Hx; injection H as <- _; cbn; [|by rewrite delete_id].
  destruct Hwf as [Hr Ha Ho]. destruct (Ha _ _ Hx) as (_ & _ & _ & Hux). split; [|done]. constructor; cbn; [done|..].
  - intros id' y [Hne Hy]%lookup_delete_Some. destruct (Ha _ _ Hy) as (? & ? & ? & Huy). split_and!; try done; try lia.
    rewrite lookup_delete_ne //. intros Heq. rewrite Heq in Hux. congruence.
  - intros q id' [Hne Hq]%lookup_delete_Some. apply Ho in Hq. rewrite lookup_delete_ne //. intros ->. rewrite Hx in Hq. by simplify_eq.
Qed.

(** ** Restoring *)

Lemma check_saved_ok ordered s : check_saved ordered = Ok s →
  NoDup (pa_ExposeID <$> ordered) ∧ NoDup (pa_Port <$> ordered).
Proof.
  unfold check_saved. intros H.
  apply (range_inv _ (λ p '(ids, ports), NoDup (pa_ExposeID <$> p) ∧ ids = list_to_set (pa_ExposeID <$> p) ∧
    NoDup (pa_Port <$> p) ∧ ports = list_to_set (pa_Port <$> p))) in H.
  - destruct s. tauto.
  - intros p x q [ids ports] [ids' ports'] _ (Hi & -> & Hp & ->) Hb. ok_inv Hb. injection Hb as <- <-. facts.
    rewrite !fmap_app !list_to_set_app_L. split_and!; [|set_solver| |set_solver]; apply NoDup_app; cbn;
      (split_and!; [done|set_solver|apply NoDup_singleton]).
  - cbn. split_and!; (constructor || done).
Qed.

Section restore.
Context (first last : Z) (unavailable : gset Z).
Context (Hrange : 1024 ≤ first ∧ last ≤ 65535).

Let fresh := MkLoopbackAllocator first last ∅ ∅ unavailable.

Lemma fresh_wf : lb_wf fresh.
Proof. constructor; cbn; [done|intros ? ?|intros ? ?]; by rewrite lookup_empty. Qed.

(** What the first pass leaves. *)
Lemma keep_usable_spec ordered : NoDup (pa_ExposeID <$> ordered) → NoDup (pa_Port <$> ordered) →
  let r := keep_usable first last ordered fresh in
  lb_wf r.1 ∧ lb_first r.1 = first ∧ lb_last r.1 = last ∧ lb_unavailable r.1 = unavailable ∧
  r.2 = filter (λ x, usable first last unavailable x = false) ordered ∧
  ∀ id x, lb_assignments r.1 !! id = Some x ↔ x ∈ ordered ∧ usable first last unavailable x = true ∧ pa_ExposeID x = id.
Proof.
  induction ordered as [|x ordered IH] using rev_ind; intros Hi Hp; cbn zeta.
  { cbn. split_and!; [apply fresh_wf|done..|]. intros id x. rewrite lookup_empty. set_solver. }
  rewrite !fmap_app in Hi, Hp. apply NoDup_app in Hi as (Hi & Hid & _). apply NoDup_app in Hp as (Hp & Hpd & _).
  destruct (IH Hi Hp) as (Hwf & Hf & Hl & Hun & Hneed & Ha). unfold keep_usable. rewrite foldl_app. fold (keep_usable first last ordered fresh).
  destruct (keep_usable first last ordered fresh) as [a need]. cbn in Hwf, Hf, Hl, Hun, Hneed, Ha |- *. rewrite Hun filter_app.
  assert (Hnew : lb_assignments a !! pa_ExposeID x = None).
  { destruct (lb_assignments a !! pa_ExposeID x) as [y|] eqn:Hy; [|done]. apply Ha in Hy as (Hin & _ & Heq).
    exfalso. apply (Hid (pa_ExposeID y)); [by apply list_elem_of_fmap_2|]. rewrite Heq. left. }
  destruct (usable first last unavailable x) eqn:Hu; cbn [fst snd].
  - rewrite filter_cons_False ?Hu // app_nil_r. split_and!; try done.
    + apply lb_assign_wf; [done..|]. unfold usable in Hu. facts. split_and!; [lia..| |by rewrite Hun].
      destruct (lb_used a !! pa_Port x) as [o|] eqn:Ho; [|done]. apply (lb_owner a Hwf), Ha in Ho as (Hin & _ & _).
      exfalso. apply (Hpd (pa_Port x)); [|left]. by apply (list_elem_of_fmap_2 pa_Port) in Hin.
    + intros id y. cbn. rewrite lookup_insert_Some Ha elem_of_app list_elem_of_singleton. destruct x as [i p]; cbn in *. split.
      * intros [[<- <-]|[_ ?]]; naive_solver.
      * intros ([Hin| ->] & Hy & <-); [right|by left]. split; [|done]. intros ->. apply (Hid (pa_ExposeID y)); [by apply list_elem_of_fmap_2|left].
  - rewrite filter_cons_True // Hneed. split_and!; try done.
    intros id y. rewrite Ha elem_of_app list_elem_of_singleton. split; [naive_solver|]. intros ([Hin| ->] & Hy & Heq); [done|congruence].
Qed.
End restore.

Lemma lb_Allocate_frame a id a' p : lb_Allocate a id = Ok (a', p) →
  lb_Lookup a' id = Some p ∧ lb_first a' = lb_first a ∧ lb_last a' = lb_last a ∧ lb_unavailable a' = lb_unavailable a ∧
  (∀ id' x, lb_assignments a !! id' = Some x → lb_assignments a' !! id' = Some x) ∧
  (∀ id', is_Some (lb_assignments a' !! id') → id' = id ∨ is_Some (lb_assignments a !! id')).
Proof.
  unfold lb_Lookup. intros (_ & [(-> & x & Hx & <-)|(-> & Hn & _)])%lb_Allocate_ok; [rewrite Hx; auto 10|].
  cbn. rewrite lookup_insert_eq. split_and!; try done.
  - intros id' x Hx. rewrite lookup_insert_ne //. intros ->. congruence.
  - intros id' Hs. destruct (decide (id' = id)) as [->|]; [by left|right]. rewrite lookup_insert_ne // in Hs.
Qed.

(** A remap record of an assignment, and the port it got. *)
Definition remapped (a : LoopbackAllocator) (x : PortAssignment) (r : PortRemap) : Prop :=
  remap_ExposeID r = pa_ExposeID x ∧ remap_PreviousPort r = pa_Port x ∧ lb_Lookup a (pa_ExposeID x) = Some (remap_Port r).

Lemma remap_all_ok need a a' remaps : lb_wf a → remap_all need a = Ok (a', remaps) →
  lb_wf a' ∧ lb_first a' = lb_first a ∧ lb_last a' = lb_last a ∧ lb_unavailable a' = lb_unavailable a ∧
  (∀ id x, lb_assignments a !! id = Some x → lb_assignments a' !! id = Some x) ∧ Forall2 (remapped a') need remaps ∧
  (∀ id, is_Some (lb_assignments a' !! id) → is_Some (lb_assignments a !! id) ∨ ∃ x, x ∈ need ∧ pa_ExposeID x = id).
Proof.
  intros Hwf H. unfold remap_all in H.
  refine (range_inv _ (λ p '(s, rs), lb_wf s ∧ lb_first s = lb_first a ∧ lb_last s = lb_last a ∧ lb_unavailable s = lb_unavailable a ∧
    (∀ id x, lb_assignments a !! id = Some x → lb_assignments s !! id = Some x) ∧ Forall2 (remapped s) p rs ∧
    (∀ id, is_Some (lb_assignments s !! id) → is_Some (lb_assignments a !! id) ∨ ∃ x, x ∈ p ∧ pa_ExposeID x = id))
    need (a, []) (a', remaps) _ _ H).
  2:{ split_and!; try done; auto. }
  clear H. intros p x q [s rs] [s' rs'] _ (Hs & Hf & Hl & Hu & Hk & Hr & Hd) Hb. cbn beta iota in Hb. ok_step Hb. destruct a0 as [s1 port].
  injection Hb as <- <-. destruct (lb_Allocate_frame _ _ _ _ G) as (Hport & Hf' & Hl' & Hu' & Hk' & Hd').
  split_and!; [by eapply lb_Allocate_wf|congruence..|by auto| |].
  - apply Forall2_app; [|by constructor]. eapply Forall2_impl; [exact Hr|]. intros y r (? & ? & Hy). split_and!; try done.
    unfold lb_Lookup in *. destruct (lb_assignments s !! pa_ExposeID y) as [z|] eqn:Hz; [|done]. by rewrite (Hk' _ _ Hz).
  - intros id [->|Hid]%Hd'; [right; exists x; set_solver|]. destruct (Hd id Hid) as [?|(y & ? & ?)]; [by left|right; exists y; set_solver].
Qed.

Lemma Restore_ok first last restored unavailable a remaps :
  RestoreLoopbackAllocator first last restored unavailable = Ok (a, remaps) →
  let un := lb_unavailable a in
  lb_wf a ∧ lb_first a = first ∧ lb_last a = last ∧
  NoDup (pa_ExposeID <$> restored) ∧ collect_unavailable first last unavailable = Ok un ∧
  (∀ x, x ∈ restored → usable first last un x = true → lb_Lookup a (pa_ExposeID x) = Some (pa_Port x)) ∧
  Forall2 (remapped a) (filter (λ x, usable first last un x = false) (merge_sort pa_le restored)) remaps ∧
  (∀ id, is_Some (lb_Lookup a id) → id ∈ pa_ExposeID <$> restored).
Proof.
  unfold RestoreLoopbackAllocator. intros H. do 3 ok_step H. apply check_saved_ok in G1 as [Hi Hp]. rename a1 into un.
  unfold validatePortRange in G. ok_inv G. facts.
  destruct (keep_usable_spec first last un ltac:(lia) (merge_sort pa_le restored) Hi Hp) as (Hwf & Hf & Hl & Hu & Hneed & Ha).
  destruct (keep_usable first last _ _) as [a1 need]. cbn [fst snd] in *.
  apply remap_all_ok in H as (Hwf' & Hf' & Hl' & Hu' & Hk & Hr & Hd); [|done]. rewrite Hu' Hu. rewrite Hneed in Hr.
  split_and!; [done|congruence..|by rewrite merge_sort_Permutation in Hi|done| |done|].
  - intros x Hx Hus. unfold lb_Lookup. assert (Hx1 : lb_assignments a1 !! pa_ExposeID x = Some x).
    { apply Ha. split; [|done]. by rewrite merge_sort_Permutation. }
    by rewrite (Hk _ _ Hx1).
  - intros id Hid. unfold lb_Lookup in Hid. rewrite fmap_is_Some in Hid. destruct (Hd id Hid) as [[x Hx]|(x & Hx & <-)].
    + apply Ha in Hx as (Hx & _ & <-). rewrite merge_sort_Permutation in Hx. by apply list_elem_of_fmap_2.
    + rewrite Hneed in Hx. apply list_elem_of_filter in Hx as [_ Hx]. rewrite merge_sort_Permutation in Hx. by apply list_elem_of_fmap_2.
Qed.

(** ** Executions *)

Inductive lb_step (a a' : LoopbackAllocator) : Prop :=
  | lb_step_allocate id p : lb_Allocate a id = Ok (a', p) → lb_step a a'
  | lb_step_reserve id p : lb_Reserve a id p = Ok a' → lb_step a a'
  | lb_step_release id released : lb_Release a id = Ok (a', released) → lb_step a a'.

Definition lb_reachable (first last : Z) (a : LoopbackAllocator) : Prop :=
  ∃ restored unavailable a0 remaps,
    RestoreLoopbackAllocator first last restored unavailable = Ok (a0, remaps) ∧ rtc lb_step a0 a.

Lemma lb_step_frame a a' : lb_wf a → lb_step a a' →
  lb_wf a' ∧ lb_first a' = lb_first a ∧ lb_last a' = lb_last a ∧ lb_unavailable a' = lb_unavailable a.
Proof.
  intros Hwf [id p H|id p H|id released H].
  - destruct (lb_Allocate_frame _ _ _ _ H) as (_ & ? & ? & ? & _). split; [by eapply lb_Allocate_wf|done].
  - apply lb_Reserve_ok in H as [[-> _]|(-> & ? & ?)]; [done|]. split; [by apply lb_assign_wf|done].
  - by apply lb_Release_ok in H as (? & _ & ? & ? & ?).
Qed.

Lemma lb_reachable_wf first last a : lb_reachable first last a → lb_wf a ∧ lb_first a = first ∧ lb_last a = last.
Proof.
  intros (restored & unavailable & a0 & remaps & (Hwf & Hf & Hl & _)%Restore_ok & Hs). rewrite -Hf -Hl. clear Hf Hl.
  induction Hs as [|x y z Hxy _ IH]; [done|]. destruct (lb_step_frame _ _ Hwf Hxy) as (Hy & ? & ? & _).
  destruct (IH Hy) as (? & ? & ?). split_and!; [done|congruence..].
Qed.

Lemma pa_sort_unique l l' : NoDup (pa_ExposeID <$> l) → l ≡ₚ l' → merge_sort pa_le l = merge_sort pa_le l'.
Proof.
  intros Hn Hp. apply (StronglySorted_unique_strong pa_le); [|apply (StronglySorted_merge_sort _ _)..|by rewrite !merge_sort_Permutation].
  intros x y Hx Hy Hxy Hyx. rewrite merge_sort_Permutation in Hx. rewrite merge_sort_Permutation -Hp in Hy.
  assert (Hid : pa_ExposeID x = pa_ExposeID y) by by apply (anti_symm str_le).
  apply list_elem_of_lookup in Hx as [i Hi], Hy as [j Hj]. assert (i = j) as ->; [|congruence].
  apply (NoDup_lookup _ i j (pa_ExposeID x) Hn); rewrite list_lookup_fmap ?Hi ?Hj //= Hid //.
Qed.

(** ** Claims *)

(** In every allocator reached from a restored one by allocations, reservations
    and releases a loopback port belongs to one expose, lies in the configured range
    and is never one of the unavailable ports. *)
Theorem loopback_ports_exclusive first last a id1 id2 p : lb_reachable first last a →
  lb_Lookup a id1 = Some p → (first ≤ p ≤ last ∧ 1024 ≤ p ≤ 65535) ∧ (p ∉ lb_unavailable a) ∧ (lb_Lookup a id2 = Some p → id1 = id2).
Proof.
  intros ([Hr Ha Ho] & Hf & Hl)%lb_reachable_wf. unfold lb_Lookup.
  destruct (lb_assignments a !! id1) as [x|] eqn:Hx; intros [= <-]. destruct (Ha _ _ Hx) as (_ & Hp & Hu & Hux).
  split_and!; try lia; [done|]. destruct (lb_assignments a !! id2) as [y|] eqn:Hy; intros [= Heq].
  destruct (Ha _ _ Hy) as (_ & _ & _ & Huy). rewrite Heq in Huy. congruence.
Qed.

(** Allocation is first fit and complete: for a well-formed identifier without a
    port it fails exactly when the range has no free port, and otherwise hands out the
    lowest one. *)
Theorem loopback_allocate_first_fit first last a id : lb_reachable first last a → matches uuidPattern id = true →
  lb_Lookup a id = None →
  (lb_Allocate a id = Err (Sentinel ErrLoopbackPoolExhausted) ∧ (∀ p, ¬ port_free a p)) ∨
  (∃ a' p, lb_Allocate a id = Ok (a', p) ∧ port_free a p ∧ (∀ q, q < p → ¬ port_free a q) ∧ lb_Lookup a' id = Some p).
Proof.
  intros (Hwf & Hf & Hl)%lb_reachable_wf Hid Hnone. assert (Ha : lb_assignments a !! id = None).
  { unfold lb_Lookup in Hnone. by destruct (lb_assignments a !! id). }
  destruct (lb_Allocate a id) as [[a' p]|e] eqn:E.
  - right. exists a', p. split; [done|]. destruct (lb_Allocate_frame _ _ _ _ E) as (Hlook & _).
    apply lb_Allocate_ok in E as (_ & [(_ & x & Hx & _)|(_ & _ & Hfree & Hlow)]); [congruence|]. split_and!; try done.
    intros q Hq Hfq. apply (Hlow q); [|done]. destruct Hfq as [? _]. lia.
  - left. unfold lb_Allocate, lb_validateUUID in E. rewrite Hid Ha in E. cbn in E.
    destruct (free_port _ a _) eqn:Hfp; [done|]. injection E as <-. split; [done|]. intros p Hp.
    apply (free_port_none _ _ _ Hfp) with (q := p); [|by destruct Hp; lia|done]. destruct Hp as [Hp _]. rewrite Z2Nat.id; lia.
Qed.

(** A restart keeps ports.  A successful restore gives every saved expose a port:
    the saved one when it is in range and available, and otherwise a new one, with one
    remap record per such expose and no others; no expose that was not saved gets a
    port, and the outcome does not depend on the order of the saved assignments. *)
Theorem restore_keeps_usable_ports first last restored unavailable a remaps :
  RestoreLoopbackAllocator first last restored unavailable = Ok (a, remaps) →
  let un := lb_unavailable a in
  (∀ x, x ∈ restored → usable first last un x = true → lb_Lookup a (pa_ExposeID x) = Some (pa_Port x)) ∧
  (∃ moved, moved ≡ₚ filter (λ x, usable first last un x = false) restored ∧ Forall2 (remapped a) moved remaps) ∧
  (∀ id, is_Some (lb_Lookup a id) → id ∈ pa_ExposeID <$> restored) ∧
  (∀ restored', restored' ≡ₚ restored → RestoreLoopbackAllocator first last restored' unavailable = Ok (a, remaps)).
Proof.
  intros H. destruct (Restore_ok _ _ _ _ _ _ H) as (_ & _ & _ & Hn & _ & Hk & Hr & Hd). split_and!; try done.
  - eexists. split; [|exact Hr]. by rewrite merge_sort_Permutation.
  - intros restored' Hp. unfold RestoreLoopbackAllocator in *. rewrite -(pa_sort_unique restored restored') //.
Qed.

(** ** Witnesses *)

Definition port_id (n : N) : string := "00000000-0000-4000-8000-00000000000" +:+ itoa n.
Definition saved_ports : list PortAssignment :=
  [MkPortAssignment (port_id 2) 20001; MkPortAssignment (port_id 1) 20000; MkPortAssignment (port_id 3) 40000].
Definition restored_ports : result (LoopbackAllocator * list PortRemap) := RestoreLoopbackAllocator 20000 20003 saved_ports [20001; 22].
Definition restored_loopback : LoopbackAllocator :=
  match restored_ports with Ok (a, _) => a | Err _ => MkLoopbackAllocator 0 0 ∅ ∅ ∅ end.
Definition restored_remaps : list PortRemap := match restored_ports with Ok (_, r) => r | Err _ => [] end.

Lemma restored_ports_eta : restored_ports = Ok (restored_loopback, restored_remaps).
Proof.
  assert (H : is_ok restored_ports = true) by by vm_compute. unfold restored_loopback, restored_remaps.
  by destruct restored_ports as [[]|].
Qed.

Lemma restored_reachable : lb_reachable 20000 20003 restored_loopback.
Proof. exists saved_ports, [20001; 22], restored_loopback, restored_remaps. split; [apply restored_ports_eta|apply rtc_refl]. Qed.

Lemma loopback_ports_exclusive_witness : port_id 1 = port_id 1 ∧ lb_Lookup restored_loopback (port_id 2) = Some 20002.
Proof.
  split; [|by vm_compute].
  apply (loopback_ports_exclusive 20000 20003 restored_loopback (port_id 1) (port_id 1) 20000 restored_reachable); by vm_compute.
Defined.

Lemma loopback_allocate_first_fit_witness :
  ∃ e, lb_Allocate restored_loopback (port_id 4) = Err e.
Proof.
  destruct (loopback_allocate_first_fit 20000 20003 restored_loopback (port_id 4) restored_reachable) as [[H _]|(a' & p & H & _)].
  - by vm_compute.
  - by vm_compute.
  - by eexists.
  - exfalso. assert (Hno : is_ok (lb_Allocate restored_loopback (port_id 4)) = false) by by vm_compute. by rewrite H in Hno.
Defined.

Lemma restore_keeps_usable_ports_witness : lb_Lookup restored_loopback (port_id 1) = Some 20000.
Proof.
  destruct (restore_keeps_usable_ports 20000 20003 saved_ports [20001; 22] restored_loopback restored_remaps restored_ports_eta) as (H & _).
  apply (H (MkPortAssignment (port_id 1) 20000)); [right; left|by vm_compute].
Defined.
