(* ===== verification/Saga.v ===== *)
(** * Cross-host sagas ([internal/operations/cross_host_saga.go])

    A change that involves the gateway and a node proceeds through persisted phases.
    The coordinator runs against a store and an adapter it does not control; both,
    and the clock, are an interface over an arbitrary world.  Every call is logged,
    so that theorems can speak about the order of calls. *)

From S2P Require Import Prelude Proc GoTime GoText GoNet Types Checks Identity Address Expose Idempotency Resources StateValidate Samples Operation.

Local Open Scope string_scope.
Local Open Scope list_scope.

Definition CrossHostSagaSchemaVersion : Z := 1.
Definition MaximumCrossHostDrain : Z := 10 * second.
Definition maximumCrossHostResumeSteps : nat := 8.

Inductive CrossHostSagaPhase :=
  | CrossHostPhaseValidate | CrossHostPhaseStage | CrossHostPhaseActivatePrivate | CrossHostPhaseConfirmPrivate
  | CrossHostPhasePublishPublic | CrossHostPhaseDrain | CrossHostPhaseFinalize | CrossHostPhaseComplete
  | CrossHostPhaseUnsupported (raw : string).

#[export] Instance CrossHostSagaPhase_eq_dec : EqDecision CrossHostSagaPhase.
Proof. solve_decision. Defined.

Record CrossHostSagaIntent := MkCrossHostSagaIntent {
  si_RequestID : string;
  si_Type : OperationType;
  si_TargetKind : string;
  si_TargetID : string;
  si_ExpectedGatewayGeneration : N;
  si_DesiredGatewayGeneration : N;
  si_ExpectedNodeGeneration : N;
  si_DesiredNodeGeneration : N;
  si_Drain : Z
}.

#[export] Instance CrossHostSagaIntent_eq_dec : EqDecision CrossHostSagaIntent.
Proof. solve_decision. Defined.

(** The intent the record was created for, and the progress made.  The Go record is
    flat; an empty [LastErrorPhase] is [None]. *)
Record CrossHostSagaRecord := MkCrossHostSagaRecord {
  sg_SchemaVersion : Z;
  sg_Revision : N;
  sg_ID : string;
  sg_Intent : CrossHostSagaIntent;
  sg_State : OperationState;
  sg_Phase : CrossHostSagaPhase;
  sg_GatewayGeneration : N;
  sg_NodeGeneration : N;
  sg_PrivateReady : bool;
  sg_PublicRoutePublished : bool;
  sg_Drained : bool;
  sg_PublishedAt : time;
  sg_DrainDeadline : time;
  sg_LastErrorPhase : option CrossHostSagaPhase;
  sg_CreatedAt : time;
  sg_UpdatedAt : time
}.

#[export] Instance CrossHostSagaRecord_eq_dec : EqDecision CrossHostSagaRecord.
Proof. solve_decision. Defined.

Inductive CrossHostStepStatus :=
  | CrossHostStepNotApplied | CrossHostStepApplied | CrossHostStepUnknown
  | CrossHostStepUnsupported (raw : string).

#[export] Instance CrossHostStepStatus_eq_dec : EqDecision CrossHostStepStatus.
Proof. solve_decision. Defined.

Record CrossHostStepReceipt := MkCrossHostStepReceipt {
  rc_OperationID : string;
  rc_Phase : CrossHostSagaPhase;
  rc_GatewayGeneration : N;
  rc_NodeGeneration : N;
  rc_PrivateReady : bool;
  rc_PublicRoutePublished : bool;
  rc_Drained : bool;
  rc_EffectiveAt : time
}.

#[export] Instance CrossHostStepReceipt_eq_dec : EqDecision CrossHostStepReceipt.
Proof. solve_decision. Defined.

Definition empty_receipt : CrossHostStepReceipt :=
  MkCrossHostStepReceipt "" (CrossHostPhaseUnsupported "") 0 0 false false false zero_time.

Record CrossHostStepObservation := MkCrossHostStepObservation {
  ob_Status : CrossHostStepStatus;
  ob_Receipt : CrossHostStepReceipt
}.

(** ** Validation *)

Definition validCrossHostPhase (phase : CrossHostSagaPhase) : bool :=
  match phase with CrossHostPhaseUnsupported _ => false | _ => true end.

Definition validCrossHostOperationState (s : OperationState) : bool :=
  match s with OperationStateUnsupported _ => false | _ => true end.

Definition phaseBeforePublic (phase : CrossHostSagaPhase) : bool :=
  match phase with
  | CrossHostPhaseValidate | CrossHostPhaseStage | CrossHostPhaseActivatePrivate | CrossHostPhaseConfirmPrivate
  | CrossHostPhasePublishPublic => true
  | _ => false
  end.

Definition validCrossHostTime (value : time) : bool := negb (IsZero value) && in_utc value && (Nanosecond value =? 0)%Z.

Definition saga_steps : list string :=
  ["validate"; "stage"; "activate-private"; "confirm-private"; "publish-public"; "drain"; "finalize"].

Definition si_Validate (intent : CrossHostSagaIntent) : result unit :=
  match ValidateResourceID (si_RequestID intent) with Ok _ => Ok () | Err _ => Err (Sentinel ErrCrossHostSagaInvalid) end;;
  match intent_Validate (MkOperationIntent (si_Type intent) (si_TargetKind intent) (si_TargetID intent) (Some saga_steps)) with
  | Ok _ => Ok () | Err _ => Err (Sentinel ErrCrossHostSagaInvalid) end;;
  reject ((si_ExpectedGatewayGeneration intent =? 0)%N || (si_DesiredGatewayGeneration intent <=? si_ExpectedGatewayGeneration intent)%N
          || (si_ExpectedNodeGeneration intent =? 0)%N || (si_DesiredNodeGeneration intent <=? si_ExpectedNodeGeneration intent)%N)
    (Sentinel ErrCrossHostSagaInvalid);;
  reject ((si_Drain intent <? 0) || (MaximumCrossHostDrain <? si_Drain intent))%Z (Sentinel ErrCrossHostSagaInvalid).

Definition is_error_state (s : OperationState) : bool := bool_decide (s = OperationDegraded) || bool_decide (s = OperationFailed).

(** The metadata a phase requires. *)
Definition phase_metadata_ok (r : CrossHostSagaRecord) : result unit :=
  (if phaseBeforePublic (sg_Phase r) then
     reject (sg_PublicRoutePublished r || negb (IsZero (sg_PublishedAt r)) || negb (IsZero (sg_DrainDeadline r)) || sg_Drained r)
       (Message "public route or drain metadata appeared before publish phase")
   else
     reject (negb (sg_PublicRoutePublished r) || negb (validCrossHostTime (sg_PublishedAt r)) || negb (validCrossHostTime (sg_DrainDeadline r))
             || negb (Equal (sg_DrainDeadline r) (Add (sg_PublishedAt r) (si_Drain (sg_Intent r)))))
       (Message "published route deadline metadata is invalid"));;
  reject (if bool_decide (sg_Phase r = CrossHostPhaseFinalize) || bool_decide (sg_Phase r = CrossHostPhaseComplete)
          then negb (sg_Drained r) else sg_Drained r) (Message "drain does not match phase");;
  reject (negb (Bool.eqb (sg_PrivateReady r)
                 (bool_decide (sg_Phase r = CrossHostPhasePublishPublic) || negb (phaseBeforePublic (sg_Phase r)))))
    (Message "private readiness does not match phase").

(** The phases a state allows. *)
Definition state_phase_ok (r : CrossHostSagaRecord) : result unit :=
  match sg_State r with
  | OperationPending => reject (negb (bool_decide (sg_Phase r = CrossHostPhaseValidate))) (Message "pending state requires validate phase")
  | OperationStaging =>
      reject (bool_decide (sg_Phase r = CrossHostPhaseValidate) || negb (phaseBeforePublic (sg_Phase r))) (Message "staging state has invalid phase")
  | OperationActive =>
      reject (phaseBeforePublic (sg_Phase r) || bool_decide (sg_Phase r = CrossHostPhaseComplete)) (Message "active state has invalid phase")
  | OperationCompleted =>
      reject (negb (bool_decide (sg_Phase r = CrossHostPhaseComplete))
              || negb (sg_GatewayGeneration r =? si_DesiredGatewayGeneration (sg_Intent r))%N
              || negb (sg_NodeGeneration r =? si_DesiredNodeGeneration (sg_Intent r))%N
              || negb (sg_PrivateReady r) || negb (sg_PublicRoutePublished r) || negb (sg_Drained r)) (Message "completed state is incomplete")
  | OperationDegraded | OperationFailed =>
      reject (bool_decide (sg_Phase r = CrossHostPhaseComplete)) (Message "completed phase cannot be degraded or failed")
  | OperationStateUnsupported _ => Err (Message "unsupported operation state")
  end.

Definition sg_Validate (r : CrossHostSagaRecord) : result unit :=
  reject (negb (sg_SchemaVersion r =? CrossHostSagaSchemaVersion)%Z || (sg_Revision r =? 0)%N) (Message "schema version or revision is invalid");;
  wrap "ID" (ValidateResourceID (sg_ID r));;
  si_Validate (sg_Intent r);;
  reject (negb (validCrossHostPhase (sg_Phase r)) || negb (validCrossHostOperationState (sg_State r))) (Message "phase or operation state is invalid");;
  reject ((sg_GatewayGeneration r <? si_ExpectedGatewayGeneration (sg_Intent r))%N
          || (si_DesiredGatewayGeneration (sg_Intent r) <? sg_GatewayGeneration r)%N
          || (sg_NodeGeneration r <? si_ExpectedNodeGeneration (sg_Intent r))%N
          || (si_DesiredNodeGeneration (sg_Intent r) <? sg_NodeGeneration r)%N) (Message "observed host generation is outside the intent range");;
  reject (negb (validCrossHostTime (sg_CreatedAt r)) || negb (validCrossHostTime (sg_UpdatedAt r)) || Before (sg_UpdatedAt r) (sg_CreatedAt r))
    (Message "record timestamps are invalid");;
  reject (match sg_LastErrorPhase r with Some phase => negb (bool_decide (phase = sg_Phase r)) | None => false end)
    (Message "last error phase must match current phase");;
  reject (negb (Bool.eqb (is_error_state (sg_State r)) (bool_decide (sg_LastErrorPhase r ≠ None))))
    (Message "degraded or failed state and last error phase must agree");;
  phase_metadata_ok r;;
  state_phase_ok r.

Definition receipt_Validate (receipt : CrossHostStepReceipt) (r : CrossHostSagaRecord) (now : time) : result unit :=
  reject (negb (String.eqb (rc_OperationID receipt) (sg_ID r)) || negb (bool_decide (rc_Phase receipt = sg_Phase r))) (Sentinel ErrCrossHostSagaInvalid);;
  reject ((rc_GatewayGeneration receipt <? sg_GatewayGeneration r)%N
          || (si_DesiredGatewayGeneration (sg_Intent r) <? rc_GatewayGeneration receipt)%N
          || (rc_NodeGeneration receipt <? sg_NodeGeneration r)%N
          || (si_DesiredNodeGeneration (sg_Intent r) <? rc_NodeGeneration receipt)%N) (Sentinel ErrCrossHostSagaInvalid);;
  let wantPrivate := match sg_Phase r with
    | CrossHostPhaseConfirmPrivate | CrossHostPhasePublishPublic | CrossHostPhaseDrain | CrossHostPhaseFinalize => true | _ => false end in
  let wantPublic := match sg_Phase r with
    | CrossHostPhasePublishPublic | CrossHostPhaseDrain | CrossHostPhaseFinalize => true | _ => false end in
  let wantDrained := match sg_Phase r with CrossHostPhaseDrain | CrossHostPhaseFinalize => true | _ => false end in
  reject (negb (Bool.eqb (rc_PrivateReady receipt) wantPrivate) || negb (Bool.eqb (rc_PublicRoutePublished receipt) wantPublic)
          || negb (Bool.eqb (rc_Drained receipt) wantDrained)) (Sentinel ErrCrossHostSagaInvalid);;
  reject (if bool_decide (sg_Phase r = CrossHostPhasePublishPublic)
          then negb (validCrossHostTime (rc_EffectiveAt receipt)) || After (rc_EffectiveAt receipt) now
          else negb (IsZero (rc_EffectiveAt receipt))) (Sentinel ErrCrossHostSagaInvalid);;
  reject (bool_decide (sg_Phase r = CrossHostPhaseFinalize) &&
          (negb (rc_GatewayGeneration receipt =? si_DesiredGatewayGeneration (sg_Intent r))%N
           || negb (rc_NodeGeneration receipt =? si_DesiredNodeGeneration (sg_Intent r))%N)) (Sentinel ErrCrossHostSagaInvalid).

Definition observation_Validate (o : CrossHostStepObservation) (r : CrossHostSagaRecord) (now : time) : result unit :=
  match ob_Status o with
  | CrossHostStepApplied => receipt_Validate (ob_Receipt o) r now
  | CrossHostStepNotApplied | CrossHostStepUnknown => reject (negb (bool_decide (ob_Receipt o = empty_receipt))) (Sentinel ErrCrossHostSagaInvalid)
  | CrossHostStepUnsupported _ => Err (Sentinel ErrCrossHostSagaInvalid)
  end.

(** ** Moving a record *)

Definition uint64 (n : N) : N := (n mod 18446744073709551616)%N.

(** The phase after, and the state it is entered in. *)
Definition next_phase (phase : CrossHostSagaPhase) : option (CrossHostSagaPhase * OperationState) :=
  match phase with
  | CrossHostPhaseValidate => Some (CrossHostPhaseStage, OperationStaging)
  | CrossHostPhaseStage => Some (CrossHostPhaseActivatePrivate, OperationStaging)
  | CrossHostPhaseActivatePrivate => Some (CrossHostPhaseConfirmPrivate, OperationStaging)
  | CrossHostPhaseConfirmPrivate => Some (CrossHostPhasePublishPublic, OperationStaging)
  | CrossHostPhasePublishPublic => Some (CrossHostPhaseDrain, OperationActive)
  | CrossHostPhaseDrain => Some (CrossHostPhaseFinalize, OperationActive)
  | CrossHostPhaseFinalize => Some (CrossHostPhaseComplete, OperationCompleted)
  | CrossHostPhaseComplete | CrossHostPhaseUnsupported _ => None
  end.

Definition advance (r : CrossHostSagaRecord) (receipt : CrossHostStepReceipt) (now : time) : result CrossHostSagaRecord :=
  let validating := bool_decide (sg_Phase r = CrossHostPhaseValidate) in
  (if validating then Ok () else receipt_Validate receipt r now);;
  match next_phase (sg_Phase r) with
  | None => Err (Message "cannot advance phase")
  | Some (phase, s) =>
      let publishing := bool_decide (sg_Phase r = CrossHostPhasePublishPublic) in
      let next := MkCrossHostSagaRecord (sg_SchemaVersion r) (uint64 (sg_Revision r + 1)) (sg_ID r) (sg_Intent r) s phase
        (if validating then sg_GatewayGeneration r else rc_GatewayGeneration receipt)
        (if validating then sg_NodeGeneration r else rc_NodeGeneration receipt)
        (if validating then sg_PrivateReady r else rc_PrivateReady receipt)
        (if validating then sg_PublicRoutePublished r else rc_PublicRoutePublished receipt)
        (if validating then sg_Drained r else rc_Drained receipt)
        (if publishing then rc_EffectiveAt receipt else sg_PublishedAt r)
        (if publishing then Add (rc_EffectiveAt receipt) (si_Drain (sg_Intent r)) else sg_DrainDeadline r)
        None (sg_CreatedAt r) now in
      sg_Validate next;;
      Ok next
  end.

(** The record [markDegraded] and [markFailed] write. *)
Definition marked (s : OperationState) (r : CrossHostSagaRecord) (now : time) : CrossHostSagaRecord :=
  MkCrossHostSagaRecord (sg_SchemaVersion r) (uint64 (sg_Revision r + 1)) (sg_ID r) (sg_Intent r) s (sg_Phase r)
    (sg_GatewayGeneration r) (sg_NodeGeneration r) (sg_PrivateReady r) (sg_PublicRoutePublished r) (sg_Drained r)
    (sg_PublishedAt r) (sg_DrainDeadline r) (Some (sg_Phase r)) (sg_CreatedAt r) now.

Definition initial_record (id : string) (intent : CrossHostSagaIntent) (now : time) : CrossHostSagaRecord :=
  MkCrossHostSagaRecord CrossHostSagaSchemaVersion 1 id intent OperationPending CrossHostPhaseValidate
    (si_ExpectedGatewayGeneration intent) (si_ExpectedNodeGeneration intent) false false false zero_time zero_time None now now.

(** ** The hosts and the store *)

(** What the coordinator is given: [CrossHostSagaStore], [CrossHostSagaAdapter], the
    clock and the identity generator.  Each call may change the world. *)
Class SagaHosts (W : Type) := {
  now : W → time * W;
  generate : generator;
  ListCrossHostSagas : call_bound → W → result (slice CrossHostSagaRecord) * W;
  CreateCrossHostSaga : call_bound → CrossHostSagaRecord → W → result unit * W;
  LoadCrossHostSaga : call_bound → string → W → result CrossHostSagaRecord * W;
  SaveCrossHostSaga : call_bound → N → CrossHostSagaRecord → W → result unit * W;
  ValidateCrossHost : call_bound → CrossHostSagaRecord → W → result unit * W;
  ReconcileCrossHost : call_bound → CrossHostSagaPhase → CrossHostSagaRecord → W → result CrossHostStepObservation * W;
  ExecuteCrossHost : call_bound → CrossHostSagaPhase → CrossHostSagaRecord → W → result CrossHostStepReceipt * W
}.

(** The calls the theorems speak about; reads of the store and the clock are not logged. *)
Inductive saga_event :=
  | Created (r : CrossHostSagaRecord) (outcome : result unit)
  | Saved (revision : N) (r : CrossHostSagaRecord) (outcome : result unit)
  | Validated (r : CrossHostSagaRecord) (outcome : result unit)
  | Reconciled (phase : CrossHostSagaPhase) (r : CrossHostSagaRecord) (outcome : result CrossHostStepObservation)
  | Executed (bound : call_bound) (phase : CrossHostSagaPhase) (r : CrossHostSagaRecord) (outcome : result CrossHostStepReceipt).

Definition DefaultCrossHostStepTimeout : Z := 30 * second.

(** The step limit of a coordinator; the store and the adapter are always present here. *)
Definition NewCrossHostSagaCoordinator (limits_Step : Z) : result Z :=
  let step := if (limits_Step =? 0)%Z then DefaultCrossHostStepTimeout else limits_Step in
  reject ((step <? minimumLocalTransactionTimeout) || (maximumLocalTransactionTimeout <? step))%Z (Message "step timeout out of range");;
  Ok step.

Definition phase_text (phase : CrossHostSagaPhase) : string :=
  match phase with
  | CrossHostPhaseValidate => "validate" | CrossHostPhaseStage => "stage"
  | CrossHostPhaseActivatePrivate => "activate-private" | CrossHostPhaseConfirmPrivate => "confirm-private"
  | CrossHostPhasePublishPublic => "publish-public" | CrossHostPhaseDrain => "drain"
  | CrossHostPhaseFinalize => "finalize" | CrossHostPhaseComplete => "complete"
  | CrossHostPhaseUnsupported raw => raw
  end.

(** [CrossHostSagaError] carries the operation, the phase and the joined cause. *)
Definition sagaError (r : CrossHostSagaRecord) (s : sentinel) (cause : list (option error)) : error :=
  Wrapped ("cross-host saga " +:+ sg_ID r +:+ " phase " +:+ phase_text (sg_Phase r)) (errors_join (Sentinel s) cause).

(** [return record, err]: a Go function that returns both. *)
Abbreviation outcome := (CrossHostSagaRecord * option error)%type.

Definition saga_matches (r : CrossHostSagaRecord) (intent : CrossHostSagaIntent) : bool := bool_decide (sg_Intent r = intent).

Section coordinator.
Context {W : Type} `{Hosts : SagaHosts W} (stepLimit : Z).

(** The state threaded through: the world, and the number of identities drawn. *)
Abbreviation saga := (proc (W * nat) saga_event).

Definition outside {A} (f : W → A * W) (log : A → list saga_event) : saga A :=
  call (λ '(w, cursor), let '(a, w') := f w in (a, (w', cursor))) log.

Definition limited : call_bound := WithTimeout stepLimit.

Definition currentTime : saga (result time) :=
  t ← outside now (λ _, []);
  mret (if IsZero t then Err (Sentinel ErrCrossHostSagaInvalid) else Ok (Truncate (to_utc t) second)).

Definition save (before after : CrossHostSagaRecord) : saga (result unit) :=
  outside (SaveCrossHostSaga limited (sg_Revision before) after) (λ res, [Saved (sg_Revision before) after res]).

Definition persistAdvance (before after : CrossHostSagaRecord) : saga outcome :=
  res ← save before after;
  mret (match res with
        | Ok _ => (after, None)
        | Err e => (after, Some (sagaError before ErrCrossHostSagaUncertain [Some e]))
        end).

(** [markDegraded] ([s = OperationDegraded]) and [markFailed] ([s = OperationFailed]). *)
Definition mark (s : OperationState) (r : CrossHostSagaRecord) : saga outcome :=
  if bool_decide (sg_State r = s) && bool_decide (sg_LastErrorPhase r = Some (sg_Phase r)) then mret (r, None) else
  t ← currentTime;
  match t with
  | Err e => mret (r, Some e)
  | Ok at_ =>
      let r' := marked s r at_ in
      match sg_Validate r' with
      | Err e => mret (r, Some e)
      | Ok _ => res ← save r r'; mret (r', error_of res)
      end
  end.

Definition markDegraded : CrossHostSagaRecord → saga outcome := mark OperationDegraded.
Definition markFailed : CrossHostSagaRecord → saga outcome := mark OperationFailed.

(** [degraded, persistErr := markDegraded(record); return degraded, sagaError(record, ErrUncertain, Join(cause, persistErr))] *)
Definition degrade (r : CrossHostSagaRecord) (cause : option error) : saga outcome :=
  d ← markDegraded r;
  mret (d.1, Some (sagaError r ErrCrossHostSagaUncertain [cause; d.2])).

Definition validatePhase (r : CrossHostSagaRecord) : saga outcome :=
  res ← outside (ValidateCrossHost limited r) (λ res, [Validated r res]);
  match res with
  | Err e =>
      if errors_is e ErrCrossHostSagaConflict then
        f ← markFailed r;
        mret (f.1, Some (match f.2 with
          | Some p => sagaError r ErrCrossHostSagaConflict [Some (Sentinel ErrCrossHostSagaUncertain); Some e; Some p]
          | None => sagaError r ErrCrossHostSagaConflict [Some e]
          end))
      else degrade r (Some e)
  | Ok _ =>
      t ← currentTime;
      match t ≫= advance r empty_receipt with
      | Err e => mret (r, Some (sagaError r ErrCrossHostSagaInvalid [Some e]))
      | Ok next => persistAdvance r next
      end
  end.

Definition executePhase (r : CrossHostSagaRecord) : saga (result CrossHostStepReceipt) :=
  let bound := if bool_decide (sg_Phase r = CrossHostPhaseDrain) then WithDeadline (sg_DrainDeadline r) else limited in
  outside (ExecuteCrossHost bound (sg_Phase r) r) (λ res, [Executed bound (sg_Phase r) r res]).

(** The tail of [resumeSideEffect]: the receipt is checked and the record advanced. *)
Definition accept_receipt (r : CrossHostSagaRecord) (receipt : CrossHostStepReceipt) (at_ : time) : saga outcome :=
  match receipt_Validate receipt r at_ with
  | Err e => degrade r (Some e)
  | Ok _ =>
      match advance r receipt at_ with
      | Err e => degrade r (Some e)
      | Ok next => persistAdvance r next
      end
  end.

(** The receipt of a drain whose deadline has passed: nothing is executed. *)
Definition expired_drain_receipt (r : CrossHostSagaRecord) : CrossHostStepReceipt :=
  MkCrossHostStepReceipt (sg_ID r) (sg_Phase r) (sg_GatewayGeneration r) (sg_NodeGeneration r) true true true zero_time.

(** The branch of [resumeSideEffect] for positive absence. *)
Definition perform_phase (r : CrossHostSagaRecord) : saga outcome :=
  t ← currentTime;
  match t with
  | Err e => mret (r, Some (sagaError r ErrCrossHostSagaInvalid [Some e]))
  | Ok at_ =>
      if bool_decide (sg_Phase r = CrossHostPhaseDrain) && negb (Before at_ (sg_DrainDeadline r))
      then accept_receipt r (expired_drain_receipt r) at_
      else
        res ← executePhase r;
        match res with
        | Err e => degrade r (Some e)
        | Ok receipt =>
            t' ← currentTime;
            match t' with
            | Err e => degrade r (Some e)
            | Ok at' => accept_receipt r receipt at'
            end
        end
  end.

Definition resumeSideEffect (r : CrossHostSagaRecord) : saga outcome :=
  res ← outside (ReconcileCrossHost limited (sg_Phase r) r) (λ res, [Reconciled (sg_Phase r) r res]);
  match res with
  | Err e => degrade r (Some e)
  | Ok observation =>
      t ← currentTime;
      match t with
      | Err e => mret (r, Some (sagaError r ErrCrossHostSagaInvalid [Some e]))
      | Ok observedAt =>
          match observation_Validate observation r observedAt with
          | Err e => degrade r (Some e)
          | Ok _ =>
              match ob_Status observation with
              | CrossHostStepApplied =>
                  match advance r (ob_Receipt observation) observedAt with
                  | Err e => degrade r (Some e)
                  | Ok next => persistAdvance r next
                  end
              | CrossHostStepUnknown => degrade r None
              | CrossHostStepNotApplied => perform_phase r
              | CrossHostStepUnsupported _ =>
                  mret (r, Some (sagaError r ErrCrossHostSagaInvalid [Some (Message "unsupported reconciliation status")]))
              end
          end
      end
  end.

(** The loop of [Resume], with the attempts left. *)
Fixpoint resume_loop (attempts : nat) (r : CrossHostSagaRecord) : saga outcome :=
  match attempts with
  | O => mret (r, Some (sagaError r ErrCrossHostSagaInvalid [Some (Message "resume exceeded phase bound")]))
  | S attempts' =>
      match sg_Validate r with
      | Err _ => mret (r, Some (Sentinel ErrCrossHostSagaInvalid))
      | Ok _ =>
          if bool_decide (sg_State r = OperationCompleted) && bool_decide (sg_Phase r = CrossHostPhaseComplete) then mret (r, None)
          else if bool_decide (sg_State r = OperationFailed) then
            mret (r, Some (sagaError r ErrCrossHostSagaConflict [Some (Message "operation is terminally failed")]))
          else
            step ← (if bool_decide (sg_Phase r = CrossHostPhaseValidate) then validatePhase r else resumeSideEffect r);
            match step with
            | (next, Some e) => mret (next, Some e)
            | (next, None) => resume_loop attempts' next
            end
      end
  end.

Definition empty_intent : CrossHostSagaIntent := MkCrossHostSagaIntent "" (OperationTypeUnsupported "") "" "" 0 0 0 0 0.
Definition empty_record : CrossHostSagaRecord :=
  MkCrossHostSagaRecord 0 0 "" empty_intent (OperationStateUnsupported "") (CrossHostPhaseUnsupported "") 0 0 false false false
    zero_time zero_time None zero_time zero_time.

Definition Resume (operationID : string) : saga outcome :=
  match ValidateResourceID operationID with
  | Err _ => mret (empty_record, Some (Sentinel ErrCrossHostSagaInvalid))
  | Ok _ =>
      res ← outside (LoadCrossHostSaga limited operationID) (λ _, []);
      match res with
      | Err e => mret (empty_record, Some (Wrapped "load cross-host saga" e))
      | Ok r => resume_loop maximumCrossHostResumeSteps r
      end
  end.

(** The scan of the stored sagas in [Begin]: identities seen, and the saga of the
    same request. *)
Definition begin_scan (intent : CrossHostSagaIntent) (_ : nat) (r : CrossHostSagaRecord)
    (acc : gset string * option CrossHostSagaRecord) : result (gset string * option CrossHostSagaRecord) :=
  let '(occupied, prior) := acc in
  match sg_Validate r with Err _ => Err (Sentinel ErrCrossHostSagaInvalid) | Ok _ => Ok () end;;
  reject (bool_decide (sg_ID r ∈ occupied)) (Sentinel ErrCrossHostSagaInvalid);;
  let occupied := {[sg_ID r]} ∪ occupied in
  reject (bool_decide (si_RequestID (sg_Intent r) ∈ occupied)) (Sentinel ErrCrossHostSagaInvalid);;
  let occupied := {[si_RequestID (sg_Intent r)]} ∪ occupied in
  if String.eqb (si_RequestID (sg_Intent r)) (si_RequestID intent) then
    reject (negb (saga_matches r intent)) (Sentinel ErrCrossHostSagaConflict);;
    Ok (occupied, Some r)
  else Ok (occupied, prior).

Definition draw_identity (occupied : gset string) : saga (result string) := λ '(w, cursor),
  let '(res, cursor') := AllocateUUID occupied generate cursor in
  (fst <$> res, [], (w, cursor')).

(** The tail of [Begin]: no stored saga has the request. *)
Definition begin_new (intent : CrossHostSagaIntent) (occupied : gset string) : saga (CrossHostSagaRecord * bool * option error) :=
  id ← draw_identity ({[si_RequestID intent]} ∪ occupied);
  match id with
  | Err e => mret (empty_record, false, Some e)
  | Ok id =>
      t ← currentTime;
      match t with
      | Err e => mret (empty_record, false, Some e)
      | Ok at_ =>
          let r := initial_record id intent at_ in
          match sg_Validate r with
          | Err _ => mret (empty_record, false, Some (Sentinel ErrCrossHostSagaInvalid))
          | Ok _ =>
              res ← outside (CreateCrossHostSaga limited r) (λ res, [Created r res]);
              mret (match res with
                    | Err e => (r, false, Some (sagaError r ErrCrossHostSagaUncertain [Some e]))
                    | Ok _ => (r, false, None)
                    end)
          end
      end
  end.

Definition Begin (intent : CrossHostSagaIntent) : saga (CrossHostSagaRecord * bool * option error) :=
  match si_Validate intent with
  | Err e => mret (empty_record, false, Some e)
  | Ok _ =>
      listed ← outside (ListCrossHostSagas limited) (λ _, []);
      match listed with
      | Err e => mret (empty_record, false, Some (Wrapped "list cross-host sagas" e))
      | Ok None => mret (empty_record, false, Some (Sentinel ErrCrossHostSagaInvalid))
      | Ok (Some records) =>
          match range (begin_scan intent) records (∅, None) with
          | Err e => mret (empty_record, false, Some e)
          | Ok (_, Some prior) => mret (prior, true, None)
          | Ok (occupied, None) => begin_new intent occupied
          end
      end
  end.
End coordinator.
