(* ===== verification/SagaFacts.v ===== *)
(** * What cross-host sagas guarantee

    Theorems about [Resume] and [Begin] for every store and adapter: the order of
    calls, the chain of saves, the sufficiency of the loop bound, convergence with
    cooperating hosts, and the registration of requests. *)

From S2P Require Import Prelude Proc GoTime GoText GoNet Types Checks Identity Address Expose Idempotency Resources StateValidate Samples Operation Saga.

Local Open Scope string_scope.
Local Open Scope list_scope.

(** ** Valid records *)

(** How far a saga has come; a complete one is at 7. *)
Definition phase_rank (phase : CrossHostSagaPhase) : nat :=
  match phase with
  | CrossHostPhaseValidate => 0 | CrossHostPhaseStage => 1 | CrossHostPhaseActivatePrivate => 2
  | CrossHostPhaseConfirmPrivate => 3 | CrossHostPhasePublishPublic => 4 | CrossHostPhaseDrain => 5
  | CrossHostPhaseFinalize => 6 | CrossHostPhaseComplete | CrossHostPhaseUnsupported _ => 7
  end.

Lemma phase_rank_bound phase : (phase_rank phase ≤ 7)%nat.
Proof. destruct phase; cbn; lia. Qed.

Lemma next_phase_rank phase phase' s : next_phase phase = Some (phase', s) → phase_rank phase' = S (phase_rank phase).
Proof. destruct phase; cbn; intros [= <- <-]; done. Qed.

(** The parts of [sg_Validate]. *)
Lemma sg_Validate_inv r : sg_Validate r = Ok () →
  (sg_SchemaVersion r = CrossHostSagaSchemaVersion ∧ sg_Revision r ≠ 0%N) ∧ ValidateResourceID (sg_ID r) = Ok () ∧
  si_Validate (sg_Intent r) = Ok () ∧ (validCrossHostPhase (sg_Phase r) = true ∧ validCrossHostOperationState (sg_State r) = true) ∧
  ((si_ExpectedGatewayGeneration (sg_Intent r) ≤ sg_GatewayGeneration r ≤ si_DesiredGatewayGeneration (sg_Intent r))%N ∧
   (si_ExpectedNodeGeneration (sg_Intent r) ≤ sg_NodeGeneration r ≤ si_DesiredNodeGeneration (sg_Intent r))%N) ∧
  (validCrossHostTime (sg_CreatedAt r) = true ∧ validCrossHostTime (sg_UpdatedAt r) = true ∧ Before (sg_UpdatedAt r) (sg_CreatedAt r) = false) ∧
  is_error_state (sg_State r) = bool_decide (sg_LastErrorPhase r ≠ None) ∧
  phase_metadata_ok r = Ok () ∧ state_phase_ok r = Ok ().
Proof.
  unfold sg_Validate. intros H. ok_inv H. units. facts.
  match goal with E : Bool.eqb _ _ = true |- _ => apply eqb_prop in E end. ands.
Qed.

(** What the phase of a valid record says about publication. *)
Lemma phase_metadata_inv r : phase_metadata_ok r = Ok () →
  sg_PublicRoutePublished r = negb (phaseBeforePublic (sg_Phase r)) ∧
  (phaseBeforePublic (sg_Phase r) = true → instant (sg_PublishedAt r) = 0%Z ∧ instant (sg_DrainDeadline r) = 0%Z) ∧
  (phaseBeforePublic (sg_Phase r) = false →
     validCrossHostTime (sg_PublishedAt r) = true ∧ validCrossHostTime (sg_DrainDeadline r) = true ∧
     instant (sg_DrainDeadline r) = (instant (sg_PublishedAt r) + si_Drain (sg_Intent r))%Z) ∧
  sg_Drained r = (bool_decide (sg_Phase r = CrossHostPhaseFinalize) || bool_decide (sg_Phase r = CrossHostPhaseComplete)) ∧
  sg_PrivateReady r = (bool_decide (sg_Phase r = CrossHostPhasePublishPublic) || negb (phaseBeforePublic (sg_Phase r))).
Proof.
  unfold phase_metadata_ok. intros H. ok_inv H. units. apply negb_false_iff, eqb_prop in H.
  assert (Hd : sg_Drained r = (bool_decide (sg_Phase r = CrossHostPhaseFinalize) || bool_decide (sg_Phase r = CrossHostPhaseComplete))).
  { destruct (bool_decide (sg_Phase r = CrossHostPhaseFinalize) || bool_decide (sg_Phase r = CrossHostPhaseComplete)); bool_facts; done. }
  destruct (phaseBeforePublic (sg_Phase r)); apply reject_ok in G; time_facts; cbn [negb]; split_and?; try done.
Qed.

Lemma valid_complete r : sg_Validate r = Ok () → sg_Phase r = CrossHostPhaseComplete →
  sg_State r = OperationCompleted.
Proof.
  intros (_ & _ & _ & _ & _ & _ & _ & _ & Hs)%sg_Validate_inv Hp. unfold state_phase_ok in Hs. rewrite Hp in Hs.
  by destruct (sg_State r).
Qed.

Lemma completed_inv r : sg_Validate r = Ok () → sg_State r = OperationCompleted →
  sg_Phase r = CrossHostPhaseComplete ∧ sg_GatewayGeneration r = si_DesiredGatewayGeneration (sg_Intent r) ∧
  sg_NodeGeneration r = si_DesiredNodeGeneration (sg_Intent r) ∧ sg_PrivateReady r = true ∧
  sg_PublicRoutePublished r = true ∧ sg_Drained r = true.
Proof.
  intros (_ & _ & _ & _ & _ & _ & _ & _ & Hs)%sg_Validate_inv Hst. unfold state_phase_ok in Hs. rewrite Hst in Hs.
  ok_inv Hs. bool_facts. done.
Qed.

(** ** Moves *)

(** One persisted change of a record. *)
Definition saga_evolves (r r' : CrossHostSagaRecord) : Prop :=
  sg_Validate r' = Ok () ∧
  (sg_ID r' = sg_ID r ∧ sg_Intent r' = sg_Intent r ∧ sg_CreatedAt r' = sg_CreatedAt r) ∧
  sg_Revision r' = uint64 (sg_Revision r + 1) ∧
  (sg_GatewayGeneration r ≤ sg_GatewayGeneration r')%N ∧ (sg_NodeGeneration r ≤ sg_NodeGeneration r')%N ∧
  (next_phase (sg_Phase r) = Some (sg_Phase r', sg_State r') ∨
   sg_Phase r' = sg_Phase r ∧ is_error_state (sg_State r') = true) ∧
  (sg_PublicRoutePublished r' = true → sg_PrivateReady r = true).

Lemma receipt_generations receipt r at_ : receipt_Validate receipt r at_ = Ok () →
  (sg_GatewayGeneration r ≤ rc_GatewayGeneration receipt ≤ si_DesiredGatewayGeneration (sg_Intent r))%N ∧
  (sg_NodeGeneration r ≤ rc_NodeGeneration receipt ≤ si_DesiredNodeGeneration (sg_Intent r))%N.
Proof. unfold receipt_Validate. intros H. ok_inv H. facts. ands. Qed.

Lemma advance_inv r receipt at_ next : advance r receipt at_ = Ok next →
  sg_Validate next = Ok () ∧ next_phase (sg_Phase r) = Some (sg_Phase next, sg_State next) ∧
  (sg_ID next = sg_ID r ∧ sg_Intent next = sg_Intent r ∧ sg_CreatedAt next = sg_CreatedAt r ∧ sg_UpdatedAt next = at_) ∧
  sg_Revision next = uint64 (sg_Revision r + 1) ∧
  (sg_GatewayGeneration r ≤ sg_GatewayGeneration next)%N ∧ (sg_NodeGeneration r ≤ sg_NodeGeneration next)%N.
Proof.
  unfold advance. intros H. apply bind_ok in H as ([] & Hv & H).
  destruct (next_phase (sg_Phase r)) as [[phase s]|] eqn:Hn; [|done].
  apply bind_ok in H as ([] & Hval & H). injection H as <-.
  split; [exact Hval|]. cbn [sg_Phase sg_State sg_ID sg_Intent sg_CreatedAt sg_UpdatedAt sg_Revision sg_GatewayGeneration sg_NodeGeneration].
  destruct (bool_decide _); [ands|]. apply receipt_generations in Hv. ands.
Qed.

Lemma advance_evolves r receipt at_ next : sg_Validate r = Ok () → advance r receipt at_ = Ok next → saga_evolves r next.
Proof.
  intros Hr H. apply advance_inv in H as (Hv & Hn & (? & ? & ? & _) & ? & ? & ?).
  unfold saga_evolves. ands; [by left|]. intros Hpub.
  apply sg_Validate_inv in Hr as (_ & _ & _ & _ & _ & _ & _ & Hm & _).
  apply sg_Validate_inv in Hv as (_ & _ & _ & _ & _ & _ & _ & Hm' & _).
  apply phase_metadata_inv in Hm as (_ & _ & _ & _ & ->). apply phase_metadata_inv in Hm' as (Hp & _).
  rewrite Hp in Hpub. destruct (sg_Phase r); try done; injection Hn as Hph _; by rewrite -Hph in Hpub.
Qed.

Lemma marked_evolves s r at_ : sg_Validate r = Ok () → is_error_state s = true → sg_Validate (marked s r at_) = Ok () →
  saga_evolves r (marked s r at_).
Proof.
  intros Hr Hs Hm. unfold saga_evolves. ands; [by right|]. cbn [marked sg_PublicRoutePublished]. intros Hpub.
  apply sg_Validate_inv in Hr as (_ & _ & _ & _ & _ & _ & _ & Hr & _).
  apply phase_metadata_inv in Hr as (Hp & _ & _ & _ & ->). rewrite Hp in Hpub. rewrite Hpub. apply orb_true_r.
Qed.

(** ** Traces *)

Definition is_save (e : saga_event) : bool := match e with Saved _ _ _ => true | _ => false end.
Definition is_execution (e : saga_event) : bool := match e with Executed _ _ _ _ => true | _ => false end.

(** The saves in a trace, from the record [r] on: each is a legal change of the record
    saved before, names that record's revision, and follows a save that was
    acknowledged.  Only the last save may have lost its acknowledgement. *)
Inductive save_chain : CrossHostSagaRecord → list saga_event → CrossHostSagaRecord → bool → Prop :=
  | chain_end r : save_chain r [] r false
  | chain_other r e es r' lost : is_save e = false → save_chain r es r' lost → save_chain r (e :: es) r' lost
  | chain_save r next es r' lost : saga_evolves r next → save_chain next es r' lost →
      save_chain r (Saved (sg_Revision r) next (Ok ()) :: es) r' lost
  | chain_lost r next e : saga_evolves r next → save_chain r [Saved (sg_Revision r) next (Err e)] next true.

Lemma save_chain_app r es r1 es' r2 lost :
  save_chain r es r1 false → save_chain r1 es' r2 lost → save_chain r (es ++ es') r2 lost.
Proof.
  intros H. remember false as b eqn:Hb. revert Hb. induction H; intros Hb Htail; [done|..|done].
  - apply chain_other; auto.
  - apply chain_save; auto.
Qed.

(** The bound a phase is executed under: a drain gets its absolute deadline. *)
Definition phase_bound (stepLimit : Z) (r : CrossHostSagaRecord) : call_bound :=
  if bool_decide (sg_Phase r = CrossHostPhaseDrain) then WithDeadline (sg_DrainDeadline r) else WithTimeout stepLimit.

(** Every execution in the trace comes right after the observation that permits it. *)
Inductive disciplined (stepLimit : Z) : list saga_event → Prop :=
  | disciplined_end : disciplined stepLimit []
  | disciplined_other e es : is_execution e = false → disciplined stepLimit es → disciplined stepLimit (e :: es)
  | disciplined_execution r o res es : sg_Validate r = Ok () → ob_Status o = CrossHostStepNotApplied → disciplined stepLimit es →
      disciplined stepLimit (Reconciled (sg_Phase r) r (Ok o) :: Executed (phase_bound stepLimit r) (sg_Phase r) r res :: es).

Lemma disciplined_app stepLimit es es' : disciplined stepLimit es → disciplined stepLimit es' → disciplined stepLimit (es ++ es').
Proof. intros H H'. induction H; cbn; [done|by apply disciplined_other|by apply disciplined_execution]. Qed.

Lemma disciplined_saves stepLimit es : Forall (λ e, is_save e = true) es → disciplined stepLimit es.
Proof. intros H. induction H as [|e es He _ IH]; [constructor|]. apply disciplined_other; [by destruct e|done]. Qed.

Lemma disciplined_inv stepLimit es pre bound phase r res post : disciplined stepLimit es →
  es = pre ++ Executed bound phase r res :: post →
  ∃ pre' o, pre = pre' ++ [Reconciled phase r (Ok o)] ∧ ob_Status o = CrossHostStepNotApplied ∧
    phase = sg_Phase r ∧ sg_Validate r = Ok () ∧ bound = phase_bound stepLimit r.
Proof.
  intros H. revert pre. induction H as [|e es He _ IH|r' o res' es Hv Ho _ IH]; intros pre Heq.
  - by destruct pre.
  - destruct pre as [|e' pre]; injection Heq as -> Heq; [done|].
    destruct (IH pre Heq) as (pre' & o & -> & Hrest). by exists (e' :: pre'), o.
  - destruct pre as [|e1 [|e2 pre]]; injection Heq; [done|intros; subst; by exists [], o|].
    intros Heq' <- <-. destruct (IH pre Heq') as (pre' & o' & -> & Hrest). by eexists (_ :: _ :: pre'), o'.
Qed.

(** What a piece of the coordinator leaves behind: a chain of saves that ends in the
    record it returns, and an advance of the record when no error is returned. *)
Definition leaves (r : CrossHostSagaRecord) (o : CrossHostSagaRecord * option error) (es : list saga_event) : Prop :=
  ∃ lost, save_chain r es o.1 lost ∧ (o.2 = None → lost = false ∧ ∃ receipt at_, advance r receipt at_ = Ok o.1).

(** A piece that calls nothing but the store. *)
Definition settles (r : CrossHostSagaRecord) (o : CrossHostSagaRecord * option error) (es : list saga_event) : Prop :=
  leaves r o es ∧ Forall (λ e, is_save e = true) es.

Lemma leaves_error r e : leaves r (r, Some e) [].
Proof. exists false. split; [constructor|done]. Qed.

Lemma settles_error r e : settles r (r, Some e) [].
Proof. split; [apply leaves_error|constructor]. Qed.

(** Pieces that stop with an error leave the record alone. *)
Create HintDb saga.
#[export] Hint Resolve leaves_error settles_error : saga.

Lemma leaves_cons r o e es : is_save e = false → leaves r o es → leaves r o (e :: es).
Proof. intros He (lost & Hc & Hn). exists lost. split; [by apply chain_other|done]. Qed.

Lemma settles_saved r next outcome o : saga_evolves r next → o.1 = next →
  (o.2 = None → outcome = Ok () ∧ ∃ receipt at_, advance r receipt at_ = Ok next) →
  settles r o [Saved (sg_Revision r) next outcome].
Proof.
  intros He <- Hn. split; [|by repeat constructor].
  destruct outcome as [[]|e].
  - exists false. split; [apply chain_save; [done|constructor]|]. intros H. split; [done|]. by apply Hn.
  - exists true. split; [by apply chain_lost|]. by intros [? _]%Hn.
Qed.

Section safety.
Context {W : Type} `{Hosts : SagaHosts W} (stepLimit : Z).
Implicit Types r : CrossHostSagaRecord.

Lemma wp_outside {A} (f : W → A * W) (log : A → list saga_event) w Q :
  (∀ a w', f w.1 = (a, w') → Q a (log a) (w', w.2)) → wp (outside f log) w Q.
Proof.
  destruct w as [w cursor]. unfold outside. intros H. apply wp_call. intros a w' Heq.
  destruct (f w) as [a' w1] eqn:Hf. injection Heq as -> <-. by apply H.
Qed.

Lemma wp_currentTime w Q :
  (∀ t w', now w.1 = (t, w') →
     Q (if IsZero t then Err (Sentinel ErrCrossHostSagaInvalid) else Ok (Truncate (to_utc t) second)) [] (w', w.2)) →
  wp currentTime w Q.
Proof. intros H. unfold currentTime. wp_step. apply wp_outside. intros t w' Ht. wp_step. by apply H. Qed.

Lemma persistAdvance_settles r next receipt at_ w : sg_Validate r = Ok () → advance r receipt at_ = Ok next →
  wp (persistAdvance stepLimit r next) w (λ o es _, settles r o es).
Proof.
  intros Hr Ha. unfold persistAdvance, save. wp_step. apply wp_outside. intros res w' _. wp_step. rewrite app_nil_r.
  apply settles_saved; [by eapply advance_evolves|by destruct res|].
  destruct res as [[]|]; [|done]. intros _. eauto.
Qed.

Lemma mark_settles s r w e : sg_Validate r = Ok () → is_error_state s = true →
  wp (mark stepLimit s r) w (λ d es _, settles r (d.1, Some e) es).
Proof.
  intros Hr Hs. unfold mark. destruct (_ && _); [wp_step; auto with saga|].
  wp_step. apply wp_currentTime. intros t w' _. destruct (IsZero t); [wp_step; auto with saga|].
  destruct (sg_Validate (marked s r _)) as [[]|] eqn:Hm; [|wp_step; auto with saga].
  wp_step. unfold save. apply wp_outside. intros res w'' _. wp_step. cbn [app].
  apply settles_saved; [by apply marked_evolves|done|done].
Qed.

Lemma degrade_settles r cause w : sg_Validate r = Ok () → wp (degrade stepLimit r cause) w (λ o es _, settles r o es).
Proof.
  intros Hr. unfold degrade, markDegraded. wp_step.
  eapply wp_mono; [by apply (mark_settles _ _ _ (Message ""))|].
  intros d es w' [[lost [Hc _]] Hq]. wp_step. rewrite app_nil_r. split; [|done]. by exists lost.
Qed.

Lemma accept_receipt_settles r receipt at_ w : sg_Validate r = Ok () →
  wp (accept_receipt stepLimit r receipt at_) w (λ o es _, settles r o es).
Proof.
  intros Hr. unfold accept_receipt. destruct (receipt_Validate _ _ _); [|by apply degrade_settles].
  destruct (advance r receipt at_) eqn:Ha; [by eapply persistAdvance_settles|by apply degrade_settles].
Qed.

(** Nothing but saves, after at most one execution of the current phase. *)
Definition performed r (es : list saga_event) : Prop :=
  Forall (λ e, is_save e = true) es ∨
  ∃ res es', es = Executed (phase_bound stepLimit r) (sg_Phase r) r res :: es' ∧ Forall (λ e, is_save e = true) es'.

Lemma perform_phase_leaves r w : sg_Validate r = Ok () →
  wp (perform_phase stepLimit r) w (λ o es _, leaves r o es ∧ performed r es).
Proof.
  intros Hr. unfold perform_phase. wp_step. apply wp_currentTime. intros t w1 _. cbn [app].
  destruct (IsZero t); [wp_step; split; [auto with saga|by left]|].
  destruct (_ && _).
  { eapply wp_mono; [by apply accept_receipt_settles|]. intros o es w' [Hl Hq]. split; [done|by left]. }
  wp_step. unfold executePhase. apply wp_outside. intros res w2 _. fold (phase_bound stepLimit r).
  assert (Hafter : ∀ (m : proc (W * nat) saga_event (CrossHostSagaRecord * option error)) w, wp m w (λ o es _, settles r o es) →
    wp m w (λ o es _, leaves r o ([Executed (phase_bound stepLimit r) (sg_Phase r) r res] ++ es)
                      ∧ performed r ([Executed (phase_bound stepLimit r) (sg_Phase r) r res] ++ es))).
  { intros m w' Hm. eapply wp_mono; [exact Hm|]. intros o es w3 [Hl Hq]. split; [by apply leaves_cons|]. right. by eexists _, _. }
  destruct res as [receipt|e]; [|by apply Hafter, degrade_settles]. apply Hafter.
  wp_step. apply wp_currentTime. intros t' w3 _. cbn [app].
  destruct (IsZero t'); [by apply degrade_settles|by apply accept_receipt_settles].
Qed.

Lemma observed_disciplined r o es : sg_Validate r = Ok () → ob_Status o = CrossHostStepNotApplied → performed r es →
  disciplined stepLimit (Reconciled (sg_Phase r) r (Ok o) :: es).
Proof.
  intros Hr Ho [Hq|(res & es' & -> & Hq)].
  - apply disciplined_other; [done|]. by apply disciplined_saves.
  - apply disciplined_execution; [done..|]. by apply disciplined_saves.
Qed.

(** A step that only saved after the logged call [e]. *)
Lemma logged_settles r e (m : proc (W * nat) saga_event (CrossHostSagaRecord * option error)) w : is_save e = false → is_execution e = false →
  wp m w (λ o es _, settles r o es) →
  wp m w (λ o es _, leaves r o ([e] ++ es) ∧ disciplined stepLimit ([e] ++ es)).
Proof.
  intros Hs He Hm. eapply wp_mono; [exact Hm|]. intros o es w' [Hl Hq].
  split; [by apply leaves_cons|]. apply disciplined_other; [done|]. by apply disciplined_saves.
Qed.

Lemma resumeSideEffect_leaves r w : sg_Validate r = Ok () →
  wp (resumeSideEffect stepLimit r) w (λ o es _, leaves r o es ∧ disciplined stepLimit es).
Proof.
  intros Hr. unfold resumeSideEffect. wp_step. apply wp_outside. intros res w1 _.
  destruct res as [obs|e]; [|by apply logged_settles, degrade_settles].
  wp_step. apply wp_currentTime. intros t w2 _. cbn [app].
  destruct (IsZero t); [apply logged_settles; [done..|]; wp_step; auto with saga|].
  destruct (observation_Validate _ _ _); [|by apply logged_settles, degrade_settles].
  destruct (ob_Status obs) as [| | |raw] eqn:Ho.
  - eapply wp_mono; [by apply perform_phase_leaves|]. intros o es w' [Hl Hp].
    split; [by apply leaves_cons|by apply observed_disciplined].
  - apply logged_settles; [done..|].
    destruct (advance r _ _) eqn:Ha; [by eapply persistAdvance_settles|by apply degrade_settles].
  - by apply logged_settles, degrade_settles.
  - apply logged_settles; [done..|]. wp_step. auto with saga.
Qed.

Lemma validatePhase_leaves r w : sg_Validate r = Ok () →
  wp (validatePhase stepLimit r) w (λ o es _, leaves r o es ∧ disciplined stepLimit es).
Proof.
  intros Hr. unfold validatePhase. wp_step. apply wp_outside. intros res w1 _.
  apply logged_settles; [done..|]. destruct res as [[]|e].
  - wp_step. apply wp_currentTime. intros t w2 _. cbn [app].
    destruct (_ ≫= _) as [next|] eqn:Ha; [|wp_step; auto with saga].
    apply bind_ok in Ha as (at_ & _ & Ha). by eapply persistAdvance_settles.
  - destruct (errors_is _ _); [|by apply degrade_settles].
    unfold markFailed. wp_step. eapply wp_mono; [by apply (mark_settles _ _ _ (Message ""))|].
    intros d es w' [[lost [Hc _]] Hq]. wp_step. rewrite app_nil_r. split; [|done]. by exists lost.
Qed.

(** One turn of the loop. *)
Definition resume_step r : proc (W * nat) saga_event (CrossHostSagaRecord * option error) :=
  if bool_decide (sg_Phase r = CrossHostPhaseValidate) then validatePhase stepLimit r else resumeSideEffect stepLimit r.

Lemma resume_step_leaves r w : sg_Validate r = Ok () →
  wp (resume_step r) w (λ o es _, leaves r o es ∧ disciplined stepLimit es).
Proof. intros Hr. unfold resume_step. destruct (bool_decide _); [by apply validatePhase_leaves|by apply resumeSideEffect_leaves]. Qed.

(** What the loop leaves behind. *)
Definition resumed r (o : CrossHostSagaRecord * option error) (es : list saga_event) : Prop :=
  (∃ lost, save_chain r es o.1 lost) ∧ disciplined stepLimit es ∧
  (o.2 = None → sg_Validate o.1 = Ok () ∧ sg_State o.1 = OperationCompleted).

Lemma resumed_at_once r err : (err = None → sg_Validate r = Ok () ∧ sg_State r = OperationCompleted) → resumed r (r, err) [].
Proof. intros H. split_and!; [exists false; constructor|constructor|exact H]. Qed.

Lemma resume_loop_trace attempts r w : wp (resume_loop stepLimit attempts r) w (λ o es _, resumed r o es).
Proof.
  revert r w. induction attempts as [|attempts IH]; intros r w; cbn [resume_loop]; [wp_step; by apply resumed_at_once|].
  destruct (sg_Validate r) as [[]|] eqn:Hr; [|wp_step; by apply resumed_at_once].
  destruct (_ && _) eqn:Hc; [bool_facts; wp_step; by apply resumed_at_once|].
  destruct (bool_decide (sg_State r = OperationFailed)); [wp_step; by apply resumed_at_once|].
  wp_step. fold (resume_step r). eapply wp_mono; [by apply resume_step_leaves|].
  intros [next [e|]] es w' [(lost & Hs & Hn) Hd].
  - wp_step. rewrite app_nil_r. split_and!; [by exists lost|done|done].
  - destruct Hn as [-> _]; [done|]. cbn in Hs. eapply wp_mono; [apply IH|].
    intros o es' w'' ((lost & Hs') & Hd' & Hok). split_and!; [|by apply disciplined_app|done].
    exists lost. by eapply save_chain_app.
Qed.

Lemma resume_loop_bound n m r w :
  (7 - phase_rank (sg_Phase r) < n)%nat → (7 - phase_rank (sg_Phase r) < m)%nat →
  resume_loop stepLimit n r w = resume_loop stepLimit m r w.
Proof.
  revert m r w. induction n as [|n IH]; intros m r w Hn Hm; [lia|]. destruct m as [|m]; [lia|]. cbn [resume_loop].
  destruct (sg_Validate r) as [[]|] eqn:Hr; [|done].
  destruct (_ && _) eqn:Hc; [done|]. destruct (bool_decide (sg_State r = OperationFailed)); [done|].
  fold (resume_step r). unfold mbind, proc_bind.
  pose proof (resume_step_leaves r w Hr) as Hl. unfold wp in Hl.
  destruct (resume_step r w) as [[[next [e|]] es] w']; [done|].
  destruct Hl as [(lost & _ & Hnext) _]. destruct Hnext as [_ (receipt & at_ & Ha)]; [done|].
  apply advance_inv in Ha as (_ & Hp & _). apply next_phase_rank in Hp.
  pose proof (phase_rank_bound (sg_Phase next)). cbn [fst] in Hp. rewrite (IH m next w'); [lia|lia|done].
Qed.
End safety.

(** ** Advancing succeeds *)

Definition confirms_private (phase : CrossHostSagaPhase) : bool :=
  match phase with
  | CrossHostPhaseConfirmPrivate | CrossHostPhasePublishPublic | CrossHostPhaseDrain | CrossHostPhaseFinalize => true | _ => false end.
Definition confirms_public (phase : CrossHostSagaPhase) : bool :=
  match phase with CrossHostPhasePublishPublic | CrossHostPhaseDrain | CrossHostPhaseFinalize => true | _ => false end.
Definition confirms_drain (phase : CrossHostSagaPhase) : bool :=
  match phase with CrossHostPhaseDrain | CrossHostPhaseFinalize => true | _ => false end.

Lemma receipt_inv receipt r at_ : receipt_Validate receipt r at_ = Ok () →
  (rc_PrivateReady receipt = confirms_private (sg_Phase r) ∧ rc_PublicRoutePublished receipt = confirms_public (sg_Phase r) ∧
   rc_Drained receipt = confirms_drain (sg_Phase r)) ∧
  (sg_Phase r = CrossHostPhasePublishPublic →
     validCrossHostTime (rc_EffectiveAt receipt) = true ∧ (instant (rc_EffectiveAt receipt) ≤ instant at_)%Z) ∧
  (sg_Phase r = CrossHostPhaseFinalize →
     rc_GatewayGeneration receipt = si_DesiredGatewayGeneration (sg_Intent r) ∧
     rc_NodeGeneration receipt = si_DesiredNodeGeneration (sg_Intent r)).
Proof.
  unfold receipt_Validate. intros H. ok_inv H. facts. units. split_and!.
  1-3: by apply eqb_prop.
  - intros Hp. rewrite Hp in G2. rewrite bool_decide_true // in G2. time_facts. split; [done|lia].
  - intros Hp. rewrite Hp bool_decide_true // in H. cbn in H. bool_facts. done.
Qed.

(** A receipt stays valid as time passes. *)
Lemma receipt_later receipt r t t' : receipt_Validate receipt r t = Ok () → (instant t ≤ instant t')%Z →
  receipt_Validate receipt r t' = Ok ().
Proof.
  unfold receipt_Validate. intros H Hle. ok_inv H. units.
  apply bind_ok; exists (); split; [by apply reject_ok|].
  apply bind_ok; exists (); split; [by apply reject_ok|].
  apply bind_ok; exists (); split; [by apply reject_ok|].
  apply bind_ok; exists (); split; [|by apply reject_ok].
  apply reject_ok. destruct (bool_decide (sg_Phase r = CrossHostPhasePublishPublic)); [|exact G2]. apply orb_false_iff in G2 as [Hv Ha].
  apply orb_false_iff. unfold After in *. split; [done|lia].
Qed.

Lemma valid_time_at t : (second ≤ instant t)%Z → validCrossHostTime (Truncate (to_utc t) second) = true.
Proof.
  intros H. unfold validCrossHostTime. rewrite truncate_second_nanosecond Z.eqb_refl andb_true_r.
  apply andb_true_iff. split; [|done]. unfold IsZero, Truncate, to_utc, second in *. cbn [instant].
  pose proof (Z.mod_pos_bound (instant t) 1000000000). apply negb_true_iff, Z.eqb_neq. lia.
Qed.

Lemma truncate_mono t u : (instant t ≤ instant u)%Z → (instant (Truncate t second) ≤ instant (Truncate u second))%Z.
Proof.
  unfold Truncate, second. cbn. intros H.
  pose proof (Z.div_le_mono (instant t) (instant u) 1000000000). rewrite !Z.mod_eq //; lia.
Qed.

Lemma deadline_valid t d : validCrossHostTime t = true → (0 ≤ instant t)%Z → (0 ≤ d)%Z → (d mod second = 0)%Z →
  validCrossHostTime (Add t d) = true.
Proof.
  unfold validCrossHostTime, Add, IsZero, in_utc, Nanosecond. cbn. intros H Ht Hd Hm.
  destruct (loc t); [|by rewrite andb_false_r in H]. bool_facts.
  rewrite Z.add_mod // Hm. match goal with E : (_ mod second)%Z = 0%Z |- _ => rewrite E end. rewrite Zmod_0_l andb_true_r andb_true_r. lia.
Qed.

(** A record without an error is valid when its parts are. *)
Lemma sg_Validate_intro r :
  sg_SchemaVersion r = CrossHostSagaSchemaVersion → sg_Revision r ≠ 0%N → ValidateResourceID (sg_ID r) = Ok () →
  si_Validate (sg_Intent r) = Ok () → validCrossHostPhase (sg_Phase r) = true → validCrossHostOperationState (sg_State r) = true →
  (si_ExpectedGatewayGeneration (sg_Intent r) ≤ sg_GatewayGeneration r ≤ si_DesiredGatewayGeneration (sg_Intent r))%N →
  (si_ExpectedNodeGeneration (sg_Intent r) ≤ sg_NodeGeneration r ≤ si_DesiredNodeGeneration (sg_Intent r))%N →
  validCrossHostTime (sg_CreatedAt r) = true → validCrossHostTime (sg_UpdatedAt r) = true →
  (instant (sg_CreatedAt r) ≤ instant (sg_UpdatedAt r))%Z →
  sg_LastErrorPhase r = None → is_error_state (sg_State r) = false →
  phase_metadata_ok r = Ok () → state_phase_ok r = Ok () → sg_Validate r = Ok ().
Proof.
  intros Hs Hrev Hid Hi Hp Hst [? ?] [? ?] Hc Hu Ht Hl He Hm Hsp. unfold sg_Validate.
  apply bind_ok; exists (); split; [apply reject_ok; rewrite Hs Z.eqb_refl; by apply N.eqb_neq|].
  apply bind_ok; exists (); split; [by rewrite Hid|].
  apply bind_ok; exists (); split; [done|].
  apply bind_ok; exists (); split; [by rewrite Hp Hst|].
  apply bind_ok; exists (); split; [apply reject_ok; rewrite !orb_false_iff !N.ltb_ge; ands|].
  apply bind_ok; exists (); split; [rewrite Hc Hu; apply reject_ok; by apply not_before|].
  apply bind_ok; exists (); split; [by rewrite Hl|].
  apply bind_ok; exists (); split; [by rewrite Hl He|].
  apply bind_ok; exists (); split; [exact Hm|exact Hsp].
Qed.

(** The record [advance] computes. *)
Definition advanced_record (r : CrossHostSagaRecord) (receipt : CrossHostStepReceipt) (at_ : time) (phase : CrossHostSagaPhase) (s : OperationState)
    : CrossHostSagaRecord :=
  let validating := bool_decide (sg_Phase r = CrossHostPhaseValidate) in
  let publishing := bool_decide (sg_Phase r = CrossHostPhasePublishPublic) in
  MkCrossHostSagaRecord (sg_SchemaVersion r) (uint64 (sg_Revision r + 1)) (sg_ID r) (sg_Intent r) s phase
    (if validating then sg_GatewayGeneration r else rc_GatewayGeneration receipt)
    (if validating then sg_NodeGeneration r else rc_NodeGeneration receipt)
    (if validating then sg_PrivateReady r else rc_PrivateReady receipt)
    (if validating then sg_PublicRoutePublished r else rc_PublicRoutePublished receipt)
    (if validating then sg_Drained r else rc_Drained receipt)
    (if publishing then rc_EffectiveAt receipt else sg_PublishedAt r)
    (if publishing then Add (rc_EffectiveAt receipt) (si_Drain (sg_Intent r)) else sg_DrainDeadline r)
    None (sg_CreatedAt r) at_.

(** What an accepted step gives: the phase of the record, or a receipt for it. *)
Definition step_evidence (r : CrossHostSagaRecord) (receipt : CrossHostStepReceipt) (at_ : time) : Prop :=
  sg_Phase r = CrossHostPhaseValidate ∨
  receipt_Validate receipt r at_ = Ok () ∧ (sg_Phase r = CrossHostPhasePublishPublic → 0 ≤ instant (rc_EffectiveAt receipt))%Z.

(** Evaluates tests on the phase. *)
Ltac phases :=
  repeat match goal with |- context [bool_decide (?a = ?b)] =>
    first [rewrite (bool_decide_true (a = b) eq_refl) | rewrite (bool_decide_false (a = b)); [discriminate|]] end;
  cbn [negb orb andb Bool.eqb reject mbind result_bind phaseBeforePublic confirms_private confirms_public confirms_drain].

Lemma advanced_metadata r receipt at_ phase s : sg_Validate r = Ok () → step_evidence r receipt at_ →
  next_phase (sg_Phase r) = Some (phase, s) → (si_Drain (sg_Intent r) mod second = 0)%Z →
  phase_metadata_ok (advanced_record r receipt at_ phase s) = Ok ().
Proof.
  intros Hr Hev Hn Hd. apply sg_Validate_inv in Hr as (_ & _ & Hi & _ & _ & _ & _ & Hm & _).
  apply phase_metadata_inv in Hm as (Hpub & Hbefore & Hafter & Hdr & Hpriv).
  assert (Hdrain : (0 ≤ si_Drain (sg_Intent r))%Z).
  { unfold si_Validate in Hi. ok_inv Hi. bool_facts. lia. }
  unfold phase_metadata_ok, advanced_record. cbn [sg_Phase sg_State sg_Intent sg_PrivateReady sg_PublicRoutePublished sg_Drained sg_PublishedAt sg_DrainDeadline].
  destruct Hev as [Hp|[Hrc Heff]].
  - rewrite Hp in Hn Hpub Hdr Hpriv Hbefore |- *. injection Hn as <- <-. rewrite Hpub Hdr Hpriv. phases.
    destruct (Hbefore eq_refl) as [H1 H2]. unfold IsZero. by rewrite H1 H2.
  - apply receipt_inv in Hrc as ((-> & -> & ->) & Hpublish & _).
    destruct (sg_Phase r) eqn:Hp; try done; injection Hn as <- <-; phases.
    1: rewrite Hpub Hdr Hpriv; phases.
    1-4: destruct (Hbefore eq_refl) as [H1 H2]; unfold IsZero; by rewrite H1 H2.
    + destruct (Hpublish eq_refl) as [Hv _]. rewrite Hv deadline_valid; [done|auto..|]. by rewrite /Equal Z.eqb_refl.
    + destruct (Hafter eq_refl) as (-> & -> & E). by rewrite /Equal /= E Z.eqb_refl.
    + destruct (Hafter eq_refl) as (-> & -> & E). by rewrite /Equal /= E Z.eqb_refl.
Qed.

Lemma advanced_generations r receipt at_ phase s : step_evidence r receipt at_ →
  (si_ExpectedGatewayGeneration (sg_Intent r) ≤ sg_GatewayGeneration r ≤ si_DesiredGatewayGeneration (sg_Intent r))%N →
  (si_ExpectedNodeGeneration (sg_Intent r) ≤ sg_NodeGeneration r ≤ si_DesiredNodeGeneration (sg_Intent r))%N →
  let next := advanced_record r receipt at_ phase s in
  (si_ExpectedGatewayGeneration (sg_Intent next) ≤ sg_GatewayGeneration next ≤ si_DesiredGatewayGeneration (sg_Intent next))%N ∧
  (si_ExpectedNodeGeneration (sg_Intent next) ≤ sg_NodeGeneration next ≤ si_DesiredNodeGeneration (sg_Intent next))%N.
Proof.
  intros Hev Hg Hn next. cbn [next advanced_record sg_Intent sg_GatewayGeneration sg_NodeGeneration].
  destruct Hev as [->|[Hrc _]]; [done|]. apply receipt_generations in Hrc. destruct (bool_decide _); [done|lia].
Qed.

Lemma advanced_state r receipt at_ phase s : step_evidence r receipt at_ → next_phase (sg_Phase r) = Some (phase, s) →
  state_phase_ok (advanced_record r receipt at_ phase s) = Ok ().
Proof.
  intros Hev Hn. destruct (sg_Phase r) eqn:Hp; try done; injection Hn as <- <-; try done.
  destruct Hev as [Hv|[Hrc _]]; [by rewrite Hp in Hv|].
  apply receipt_inv in Hrc as ((E1 & E2 & E3) & _ & Hfin). destruct (Hfin Hp) as [Hg Hg'].
  unfold state_phase_ok, advanced_record.
  cbn [sg_Phase sg_State sg_Intent sg_PrivateReady sg_PublicRoutePublished sg_Drained sg_GatewayGeneration sg_NodeGeneration].
  rewrite E1 E2 E3 Hp Hg Hg' !N.eqb_refl. done.
Qed.

Lemma advance_succeeds r receipt at_ : sg_Validate r = Ok () → sg_State r ≠ OperationCompleted → step_evidence r receipt at_ →
  (si_Drain (sg_Intent r) mod second = 0)%Z → validCrossHostTime at_ = true → (instant (sg_CreatedAt r) ≤ instant at_)%Z →
  (sg_Revision r < max_uint64)%N → ∃ next, advance r receipt at_ = Ok next.
Proof.
  intros Hr Hinc Hev Hd Hat Hcr Hrev.
  destruct (next_phase (sg_Phase r)) as [[phase s]|] eqn:Hn.
  2:{ destruct (sg_Phase r) eqn:Hp; try done; [by apply valid_complete in Hr|].
      by apply sg_Validate_inv in Hr as (_ & _ & _ & [Hp' _] & _); rewrite Hp in Hp'. }
  exists (advanced_record r receipt at_ phase s). unfold advance.
  pose proof (advanced_metadata r receipt at_ phase s Hr Hev Hn Hd) as Hmeta.
  apply sg_Validate_inv in Hr as ((Hs & _) & Hid & Hi & [Hp _] & [Hg Hng] & (Hc & _) & _ & _ & Hst).
  apply bind_ok. exists (). split.
  { destruct Hev as [->|[Hrc _]]; [by rewrite bool_decide_true|]. by destruct (bool_decide _). }
  rewrite Hn. fold (advanced_record r receipt at_ phase s). apply bind_ok. exists (). split; [|done].
  assert (Hgen := advanced_generations r receipt at_ phase s Hev Hg Hng).
  apply sg_Validate_intro; try done; try apply Hgen; try (by destruct (sg_Phase r); cbn in Hn; simplify_eq).
  - cbn [advanced_record sg_Revision]. unfold uint64, max_uint64 in *. rewrite N.mod_small; lia.
  - by apply advanced_state.
Qed.

(** ** Convergence

    What the hosts and the store promise when nothing fails: the store compares
    revisions and acknowledges a save made against the version it holds, the clock
    has reached [floor], and the adapter gives definite answers with receipts that
    were valid at the time of the answer. *)
Definition truthful (r : CrossHostSagaRecord) (receipt : CrossHostStepReceipt) (floor : Z) : Prop :=
  receipt_Validate receipt r (Time floor UTC) = Ok () ∧ (0 ≤ instant (rc_EffectiveAt receipt))%Z.

(** What of the world the promises refer to: a time that has passed, and the versions
    of the records the store has. *)
Class SagaView (W : Type) := { floor : W → Z; holds : W → CrossHostSagaRecord → Prop }.

Definition calm `{SagaView W} (w w' : W) : Prop := (floor w ≤ floor w')%Z ∧ ∀ r, holds w r → holds w' r.

Class CooperativeHosts (W : Type) `{SagaHosts W, SagaView W} := {
  floor_seconds w : (second ≤ floor w)%Z ∧ (floor w mod second = 0)%Z;
  now_after w : (floor w ≤ instant (now w).1)%Z ∧ calm w (now w).2;
  load_holds b id w r w' : LoadCrossHostSaga b id w = (Ok r, w') → calm w w' ∧ holds w' r;
  save_acknowledged b r next w : holds w r → sg_ID next = sg_ID r →
    ∃ w', SaveCrossHostSaga b (sg_Revision r) next w = (Ok (), w') ∧ (floor w ≤ floor w')%Z ∧ holds w' next;
  validate_accepts b r w : ∃ w', ValidateCrossHost b r w = (Ok (), w') ∧ calm w w';
  reconcile_definite b r w : sg_Validate r = Ok () → ∃ o w', ReconcileCrossHost b (sg_Phase r) r w = (Ok o, w') ∧ calm w w' ∧
    (o = MkCrossHostStepObservation CrossHostStepNotApplied empty_receipt ∨
     ob_Status o = CrossHostStepApplied ∧ truthful r (ob_Receipt o) (floor w'));
  execute_succeeds b r w : sg_Validate r = Ok () → ∃ receipt w', ExecuteCrossHost b (sg_Phase r) r w = (Ok receipt, w') ∧
    calm w w' ∧ truthful r receipt (floor w')
}.

Section convergence.
Context {W : Type} `{Cooperative : CooperativeHosts W} (stepLimit : Z).
Implicit Types r : CrossHostSagaRecord.

(** A record that nothing stands in the way of. *)
Definition clear r (w : W) : Prop :=
  sg_Validate r = Ok () ∧ sg_State r ≠ OperationFailed ∧ (si_Drain (sg_Intent r) mod second = 0)%Z ∧
  (instant (sg_CreatedAt r) ≤ floor w)%Z ∧ (sg_Revision r + N.of_nat (7 - phase_rank (sg_Phase r)) ≤ max_uint64)%N.

(** It is also the version the store has. *)
Definition on_track r (w : W * nat) : Prop := clear r w.1 ∧ holds w.1 r.

Lemma clear_later r w w' : clear r w → (floor w ≤ floor w')%Z → clear r w'.
Proof. unfold clear. intros (? & ? & ? & ? & ?) ?. ands. Qed.

Lemma on_track_later r w w' : on_track r w → calm w.1 w'.1 → on_track r w'.
Proof. intros [Hc Hh] [Hf Hs]. split; [by eapply clear_later|by apply Hs]. Qed.

(** The clock gives a usable time, at which truthful receipts are valid. *)
Lemma wp_currentTime_cooperative (w : W * nat) Q :
  (∀ at_ w', validCrossHostTime at_ = true → (floor w.1 ≤ instant at_)%Z → calm w.1 w'.1 → Q (Ok at_) [] w') →
  wp currentTime w Q.
Proof.
  intros HQ. apply wp_currentTime. intros t w' Ht. destruct (floor_seconds w.1) as [H1 H2].
  destruct (now_after w.1) as [H3 H4]. rewrite Ht in H3 H4. cbn [fst snd] in H3, H4.
  assert (Hz : IsZero t = false) by (unfold IsZero, second in *; lia). rewrite Hz.
  apply HQ; [apply valid_time_at; lia| |done].
  pose proof (truncate_mono (Time (floor w.1) UTC) (to_utc t) H3) as Hm. rewrite {1}/Truncate in Hm. cbn [instant] in Hm. rewrite H2 in Hm. lia.
Qed.

Lemma advance_clear r receipt at_ w : clear r w → sg_State r ≠ OperationCompleted → step_evidence r receipt at_ →
  validCrossHostTime at_ = true → (floor w ≤ instant at_)%Z →
  ∃ next, advance r receipt at_ = Ok next ∧ clear next w ∧ sg_ID next = sg_ID r ∧
    phase_rank (sg_Phase next) = S (phase_rank (sg_Phase r)).
Proof.
  intros (Hr & Hf & Hd & Hc & Hrev) Hinc Hev Hat Hfl.
  assert (Hrank : (phase_rank (sg_Phase r) < 7)%nat).
  { destruct (sg_Phase r) eqn:Hp; cbn; try lia; [by apply valid_complete in Hr|].
    by apply sg_Validate_inv in Hr as (_ & _ & _ & [Hp' _] & _); rewrite Hp in Hp'. }
  destruct (advance_succeeds r receipt at_) as [next Ha]; [done..|lia|lia|].
  exists next. split; [done|]. apply advance_inv in Ha as (Hv & Hn & (Hid & Hi & Hcr & _) & Hr' & _).
  assert (Hs : sg_State next ≠ OperationFailed) by (intros E; rewrite E in Hn; by destruct (sg_Phase r)).
  apply next_phase_rank in Hn. split; [|done]. unfold clear. rewrite Hi Hcr. ands.
  rewrite Hn Hr'. unfold uint64. rewrite N.mod_small; unfold max_uint64 in *; lia.
Qed.

(** A step went well. *)
Definition progressed r (o : CrossHostSagaRecord * option error) (w' : W * nat) : Prop :=
  o.2 = None ∧ on_track o.1 w' ∧ phase_rank (sg_Phase o.1) = S (phase_rank (sg_Phase r)).

(** The advance is computed from the evidence and saved. *)
Lemma advance_progress r receipt at_ w w0 (fallback : error → proc (W * nat) saga_event (CrossHostSagaRecord * option error)) :
  on_track r w → calm w0 w.1 → clear r w0 → sg_State r ≠ OperationCompleted → step_evidence r receipt at_ →
  validCrossHostTime at_ = true → (floor w0 ≤ instant at_)%Z →
  wp (match advance r receipt at_ with Err e => fallback e | Ok next => persistAdvance stepLimit r next end) w
    (λ o _ w', progressed r o w').
Proof.
  intros [_ Hh] [Hf0 _] Hc0 Hinc Hev Hat Hle.
  destruct (advance_clear r receipt at_ w0) as (next & -> & Hc & Hid & Hp); [done..|].
  unfold persistAdvance, save. wp_step. apply wp_outside. intros res w' Hs.
  destruct (save_acknowledged (limited stepLimit) r next w.1) as (w'' & Hs' & Hf & Hh'); [done..|].
  rewrite Hs' in Hs. injection Hs as <- <-. wp_step. split; [done|]. split; [|done].
  split; [|done]. apply (clear_later next w0); [done|]. cbn. lia.
Qed.

Lemma truthful_evidence r receipt f at_ : truthful r receipt f → (f ≤ instant at_)%Z → step_evidence r receipt at_.
Proof. intros [Hv He] Hle. right. split; [by eapply receipt_later|done]. Qed.

Lemma expired_drain_valid r at_ : sg_Validate r = Ok () → sg_Phase r = CrossHostPhaseDrain →
  receipt_Validate (expired_drain_receipt r) r at_ = Ok ().
Proof.
  intros (_ & _ & _ & _ & [Hg Hn] & _)%sg_Validate_inv Hp. unfold receipt_Validate, expired_drain_receipt.
  cbn [rc_OperationID rc_Phase rc_GatewayGeneration rc_NodeGeneration rc_PrivateReady rc_PublicRoutePublished rc_Drained rc_EffectiveAt].
  rewrite Hp String.eqb_refl. phases. apply bind_ok. exists (). split; [|done].
  apply reject_ok. rewrite !orb_false_iff !N.ltb_ge. ands.
Qed.

Lemma perform_phase_progress r w : on_track r w → sg_State r ≠ OperationCompleted →
  wp (perform_phase stepLimit r) w (λ o _ w', progressed r o w').
Proof.
  intros Ht Hinc. pose proof Ht as [Hc Hh]. unfold perform_phase, accept_receipt. wp_step.
  apply wp_currentTime_cooperative. intros at_ w1 Hat Hle Hf.
  assert (Ht1 : on_track r w1) by by eapply on_track_later.
  destruct (_ && _) eqn:Hexp.
  { bool_facts. assert (Hv : receipt_Validate (expired_drain_receipt r) r at_ = Ok ()) by (apply expired_drain_valid; [apply Hc|done]).
    rewrite Hv. apply advance_progress with (w0 := w.1); [done..|by right|done|done]. }
  wp_step. unfold executePhase. apply wp_outside. intros res w2 Hex.
  fold (limited stepLimit) in *. fold (phase_bound stepLimit r) in Hex.
  destruct (execute_succeeds (phase_bound stepLimit r) r w1.1) as (receipt & w2' & Hex' & Hf2 & Htr); [apply Hc|].
  rewrite Hex' in Hex. injection Hex as <- <-. wp_step. apply wp_currentTime_cooperative. intros at' w3 Hat' Hle' Hf3.
  cbn [fst] in *.
  assert (Ht2 : on_track r (w2', w1.2)) by by eapply on_track_later.
  rewrite (receipt_later _ _ (Time (floor w2') UTC)); [apply Htr|done|].
  apply advance_progress with (w0 := w2'); [by eapply on_track_later|done|apply Ht2|done|by eapply truthful_evidence|done|done].
Qed.

Lemma resumeSideEffect_progress r w : on_track r w → sg_State r ≠ OperationCompleted →
  wp (resumeSideEffect stepLimit r) w (λ o _ w', progressed r o w').
Proof.
  intros Ht Hinc. unfold resumeSideEffect. wp_step. apply wp_outside. intros res w1 Hrec.
  destruct (reconcile_definite (limited stepLimit) r w.1) as (o & w1' & Hrec' & Hf & Ho); [apply Ht|].
  rewrite Hrec' in Hrec. injection Hrec as <- <-.
  assert (Ht1 : on_track r (w1', w.2)) by by eapply on_track_later.
  wp_step. apply wp_currentTime_cooperative. intros at_ w2 Hat Hle Hf2. cbn [fst] in *.
  assert (Ht2 : on_track r w2) by by eapply on_track_later.
  destruct Ho as [->|[Ho Htr]].
  - eapply wp_mono; [by apply perform_phase_progress|done].
  - unfold observation_Validate. rewrite Ho. rewrite (receipt_later _ _ (Time (floor w1') UTC)); [apply Htr|done|].
    apply advance_progress with (w0 := w1'); [done|done|apply Ht1|done|by eapply truthful_evidence|done|done].
Qed.

Lemma validatePhase_progress r w : on_track r w → sg_State r ≠ OperationCompleted → sg_Phase r = CrossHostPhaseValidate →
  wp (validatePhase stepLimit r) w (λ o _ w', progressed r o w').
Proof.
  intros Ht Hinc Hp. unfold validatePhase. wp_step. apply wp_outside. intros res w1 Hval.
  destruct (validate_accepts (limited stepLimit) r w.1) as (w1' & Hval' & Hf).
  rewrite Hval' in Hval. injection Hval as <- <-.
  assert (Ht1 : on_track r (w1', w.2)) by by eapply on_track_later.
  wp_step. apply wp_currentTime_cooperative. intros at_ w2 Hat Hle Hf2. cbn [fst mbind result_bind] in *.
  apply advance_progress with (w0 := w1'); [by eapply on_track_later|done|apply Ht1|done|by left|done|done].
Qed.

Lemma resume_loop_converges attempts r w : on_track r w → (7 - phase_rank (sg_Phase r) < attempts)%nat →
  wp (resume_loop stepLimit attempts r) w (λ o _ _, o.2 = None).
Proof.
  revert r w. induction attempts as [|attempts IH]; intros r w Ht Hn; [lia|]. cbn [resume_loop].
  pose proof Ht as [(Hr & Hf & _) _]. rewrite Hr (bool_decide_false _ Hf).
  destruct (decide (sg_State r = OperationCompleted)) as [Hc|Hc].
  { destruct (completed_inv r Hr Hc) as [Hp _]. by rewrite Hc Hp. }
  rewrite (bool_decide_false _ Hc). cbn [andb]. wp_step. fold (resume_step stepLimit r).
  assert (Hstep : wp (resume_step stepLimit r) w (λ o _ w', progressed r o w')).
  { unfold resume_step. destruct (bool_decide _) eqn:Hp; bool_facts; [by apply validatePhase_progress|by apply resumeSideEffect_progress]. }
  eapply wp_mono; [exact Hstep|]. intros [next err] es w' (Herr & Ht' & Hp). cbn in Herr, Ht', Hp. subst err.
  apply IH; [done|]. pose proof (phase_rank_bound (sg_Phase next)). lia.
Qed.
End convergence.
