(* ===== verification/SagaClaims.v ===== *)
(** * Cross-host sagas: the theorems

    [Begin] registers a request once; [Resume] executes only what is observed to be
    absent, saves a chain of legal versions, never runs out of attempts and, with
    cooperating hosts, completes.  A small in-memory store with an obedient adapter
    instantiates the interfaces. *)

From S2P Require Import Prelude Proc GoTime GoText GoNet Types Checks Identity Address Expose Idempotency Resources StateValidate Samples Operation Saga SagaFacts.

Local Open Scope string_scope.
Local Open Scope list_scope.

(** ** [Begin] *)

(** After the scan of [records]. *)
Definition scanned (intent : CrossHostSagaIntent) (records : list CrossHostSagaRecord)
    (acc : gset string * option CrossHostSagaRecord) : Prop :=
  (∀ x, x ∈ acc.1 ↔ ∃ r, r ∈ records ∧ (x = sg_ID r ∨ x = si_RequestID (sg_Intent r))) ∧
  (∀ r, r ∈ records → sg_Validate r = Ok ()) ∧
  match acc.2 with
  | Some r => r ∈ records ∧ sg_Intent r = intent
  | None => ∀ r, r ∈ records → si_RequestID (sg_Intent r) ≠ si_RequestID intent
  end.

Lemma begin_scan_ok intent i r acc acc' : begin_scan intent i r acc = Ok acc' →
  sg_Validate r = Ok () ∧ acc'.1 = {[si_RequestID (sg_Intent r)]} ∪ ({[sg_ID r]} ∪ acc.1) ∧
  (si_RequestID (sg_Intent r) = si_RequestID intent ∧ sg_Intent r = intent ∧ acc'.2 = Some r ∨
   si_RequestID (sg_Intent r) ≠ si_RequestID intent ∧ acc'.2 = acc.2).
Proof.
  destruct acc as [occupied prior]. unfold begin_scan. intros H. do 3 ok_step H.
  destruct (sg_Validate r) as [[]|]; [|done]. split; [done|].
  destruct (String.eqb_spec (si_RequestID (sg_Intent r)) (si_RequestID intent)).
  - ok_step H. unfold saga_matches in *. bool_facts. injection H as <-. split; [done|]. by left.
  - injection H as <-. split; [done|]. by right.
Qed.

Lemma begin_scan_range intent records acc : range (begin_scan intent) records (∅, None) = Ok acc → scanned intent records acc.
Proof.
  apply range_inv.
  - intros p x q acc0 acc1 _ (Hocc & Hval & Hprior) (Hv & Hocc' & Hcase)%begin_scan_ok. split_and!.
    + intros y. rewrite Hocc' !elem_of_union !elem_of_singleton Hocc. setoid_rewrite elem_of_app. setoid_rewrite list_elem_of_singleton.
      naive_solver.
    + intros r [Hr|Hr%list_elem_of_singleton]%elem_of_app; [by apply Hval|by subst].
    + destruct Hcase as [(_ & Hi & ->)|(Hne & ->)]; [split; [apply elem_of_app; right; by apply list_elem_of_singleton|done]|].
      destruct (acc0.2) as [r|]; [destruct Hprior; split; [apply elem_of_app; by left|done]|].
      intros r [Hr|Hr%list_elem_of_singleton]%elem_of_app; [by apply Hprior|by subst].
  - split_and!; cbn; [set_solver|set_solver|set_solver].
Qed.

Section begin_facts.
Context {W : Type} `{Hosts : SagaHosts W} (stepLimit : Z).

Lemma begin_new_ok intent occupied w :
  wp (begin_new stepLimit intent occupied) w (λ o es _, o.2 = None → ∃ id at_,
    let r := initial_record id intent at_ in
    (id ∉ {[si_RequestID intent]} ∪ occupied) ∧ sg_Validate r = Ok () ∧ o = (r, false, None) ∧ es = [Created r (Ok ())]).
Proof.
  unfold begin_new. wp_step. apply wp_intro. intros id es w1 Hdraw. destruct w as [w cursor]. unfold draw_identity in Hdraw.
  destruct (AllocateUUID _ _ _) as [res cursor'] eqn:Ha. injection Hdraw as <- <- <-. cbn [app].
  destruct res as [[id occupied']|e]; cbn [fmap result_fmap fst]; [|by wp_step].
  apply allocate_loop_ok in Ha as (Hid & _). wp_step. apply wp_currentTime. intros t w2 _. cbn [app].
  destruct (IsZero t); [by wp_step|].
  destruct (sg_Validate _) as [[]|] eqn:Hv; [|by wp_step].
  wp_step. apply wp_outside. intros [[]|e] w3 _; wp_step; [|done]. intros _. by eexists _, _.
Qed.

(** The sagas the store lists in a world. *)
Definition lists (w : W) (records : list CrossHostSagaRecord) : Prop :=
  ∃ w', ListCrossHostSagas (limited stepLimit) w = (Ok (Some records), w').

(** The record is new: it starts in the first phase under an identity that is not
    in use, and is created once. *)
Definition registered (intent : CrossHostSagaIntent) (records : list CrossHostSagaRecord) (r : CrossHostSagaRecord)
    (es : list saga_event) : Prop :=
  es = [Created r (Ok ())] ∧ sg_Phase r = CrossHostPhaseValidate ∧ sg_State r = OperationPending ∧
  ∃ occupied, range (begin_scan intent) records (∅, None) = Ok (occupied, None) ∧ (sg_ID r ∉ {[si_RequestID intent]} ∪ occupied).

Lemma saga_begin_outcome intent w cursor records r replayed es w' : lists w records →
  Begin stepLimit intent (w, cursor) = ((r, replayed, None), es, w') →
  si_Validate intent = Ok () ∧ sg_Validate r = Ok () ∧ sg_Intent r = intent ∧
  if replayed then r ∈ records ∧ es = [] ∧ w'.2 = cursor
  else registered intent records r es.
Proof.
  intros [w1 Hl] Hb. unfold Begin in Hb. destruct (si_Validate intent) as [[]|]; [|done]. split; [done|].
  refine (wp_run _ _ (λ (o : CrossHostSagaRecord * bool * option error) es (w' : W * nat), o.2 = None → sg_Validate o.1.1 = Ok () ∧ sg_Intent o.1.1 = intent ∧
    if o.1.2 then o.1.1 ∈ records ∧ es = [] ∧ w'.2 = cursor else registered intent records o.1.1 es) _ _ _ _ Hb eq_refl).
  wp_step. apply wp_outside. intros listed w2 Hl'. cbn [fst] in Hl'.
  rewrite Hl in Hl'. injection Hl' as <- <-.
  destruct (range _ _ _) as [[occupied [prior|]]|e] eqn:Hr; [..|by wp_step].
  - wp_step. intros _. apply begin_scan_range in Hr as (_ & Hv & [Hin Hi]). cbn in *. ands. by apply Hv.
  - eapply wp_mono; [apply begin_new_ok|]. cbn [app]. intros o es' w3 Ho Hnone.
    destruct (Ho Hnone) as (id & at_ & Hid & Hv & -> & ->). cbn in Hid |- *. unfold registered. split_and!; try done. by exists occupied.
Qed.

(** A retry finds the saga, whatever progress it has made. *)
Lemma begin_retry intent records occupied r' w cursor :
  si_Validate intent = Ok () → range (begin_scan intent) records (∅, None) = Ok (occupied, None) →
  (sg_ID r' ∉ {[si_RequestID intent]} ∪ occupied) → (∀ r0, r0 ∈ records → sg_ID r0 ≠ si_RequestID intent) →
  sg_Validate r' = Ok () → sg_Intent r' = intent → lists w (records ++ [r']) →
  ∃ w', Begin stepLimit intent (w, cursor) = ((r', true, None), [], (w', cursor)).
Proof.
  intros Hi Hscan Hid Hreq Hv Hint [w1 Hl]. exists w1. unfold Begin. rewrite Hi.
  unfold mbind at 1, proc_bind, outside, call. cbn beta iota. rewrite Hl.
  unfold range. rewrite range_loop_app. rewrite /range in Hscan. rewrite Hscan. cbn [mbind result_bind range_loop begin_scan].
  apply begin_scan_range in Hscan as (Hocc & _ & Hno). cbn in Hocc, Hno.
  assert (Hfresh : si_RequestID intent ∉ {[sg_ID r']} ∪ occupied).
  { intros [Hin%elem_of_singleton|(r0 & Hr0 & [E|E])%Hocc]%elem_of_union; [set_solver|by eapply Hreq|].
    by eapply Hno; [exact Hr0|]. }
  rewrite Hv Hint (bool_decide_false _ Hfresh) bool_decide_false; [set_solver|]. cbn [mbind result_bind reject].
  by rewrite String.eqb_refl /saga_matches Hint bool_decide_true.
Qed.

(** A request that carries the identity of a stored saga is registered, and the
    list the store then has is refused by every later [Begin]. *)
Lemma begin_scan_poisoned records r r0 : r0 ∈ records → si_RequestID (sg_Intent r) = sg_ID r0 →
  ∀ intent', ∃ e, range (begin_scan intent') (records ++ [r]) (∅, None) = Err e.
Proof.
  intros Hr0 Hreq intent'. unfold range. rewrite range_loop_app. fold (range (begin_scan intent') records (∅, None)).
  destruct (range (begin_scan intent') records (∅, None)) as [[occ prior]|e] eqn:Hr; [|by exists e].
  apply begin_scan_range in Hr as (Hocc & _). cbn in Hocc. cbn [mbind result_bind range_loop begin_scan].
  destruct (sg_Validate r); [|by eexists]. cbn [mbind result_bind reject].
  destruct (bool_decide (sg_ID r ∈ occ)); [by eexists|]. cbn [mbind result_bind reject].
  rewrite bool_decide_true; [|by eexists]. apply elem_of_union_r. apply Hocc. exists r0. auto.
Qed.
End begin_facts.

(** Once the public route is published, the drain is a whole number of seconds. *)
Lemma whole_second_drain r : sg_Validate r = Ok () → sg_State r = OperationCompleted → (si_Drain (sg_Intent r) mod second = 0)%Z.
Proof.
  intros Hv Hs. destruct (completed_inv r Hv Hs) as [Hp _].
  apply sg_Validate_inv in Hv as (_ & _ & _ & _ & _ & _ & _ & Hm & _).
  apply phase_metadata_inv in Hm as (_ & _ & Hafter & _). rewrite Hp in Hafter. destruct (Hafter eq_refl) as (Ht & Hd & E).
  unfold validCrossHostTime, Nanosecond in *. bool_facts.
  replace (si_Drain (sg_Intent r)) with (instant (sg_DrainDeadline r) - instant (sg_PublishedAt r))%Z by lia.
  rewrite Zminus_mod. by repeat match goal with E : (_ mod second)%Z = 0%Z |- _ => rewrite E end.
Qed.

(** ** An in-memory store and an obedient adapter *)

Definition memory : Type := list CrossHostSagaRecord.
Definition memory_time : time := Time (63000000000 * second) UTC.
Definition has_id (id : string) (r : CrossHostSagaRecord) : bool := String.eqb (sg_ID r) id.

Definition memory_load (id : string) (w : memory) : result CrossHostSagaRecord :=
  match List.find (has_id id) w with Some r => Ok r | None => Err (Sentinel ErrStateNotFound) end.
Definition memory_save (revision : N) (next : CrossHostSagaRecord) (w : memory) : result unit * memory :=
  match List.find (has_id (sg_ID next)) w with
  | Some r => if (sg_Revision r =? revision)%N then (Ok (), map (λ x, if has_id (sg_ID next) x then next else x) w)
              else (Err (Sentinel ErrStateConflict), w)
  | None => (Err (Sentinel ErrStateNotFound), w)
  end.

(** The receipt of a phase done as asked. *)
Definition obedient_receipt (r : CrossHostSagaRecord) : CrossHostStepReceipt :=
  let final := bool_decide (sg_Phase r = CrossHostPhaseFinalize) in
  MkCrossHostStepReceipt (sg_ID r) (sg_Phase r)
    (if final then si_DesiredGatewayGeneration (sg_Intent r) else sg_GatewayGeneration r)
    (if final then si_DesiredNodeGeneration (sg_Intent r) else sg_NodeGeneration r)
    (confirms_private (sg_Phase r)) (confirms_public (sg_Phase r)) (confirms_drain (sg_Phase r))
    (if bool_decide (sg_Phase r = CrossHostPhasePublishPublic) then memory_time else zero_time).

#[export] Instance memory_hosts : SagaHosts memory := {
  now w := (memory_time, w);
  generate := entropy_generator sample_draws;
  ListCrossHostSagas _ w := (Ok (Some w), w);
  CreateCrossHostSaga _ r w := (Ok (), w ++ [r]);
  LoadCrossHostSaga _ id w := (memory_load id w, w);
  SaveCrossHostSaga _ revision next w := memory_save revision next w;
  ValidateCrossHost _ _ w := (Ok (), w);
  ReconcileCrossHost _ _ _ w := (Ok (MkCrossHostStepObservation CrossHostStepNotApplied empty_receipt), w);
  ExecuteCrossHost _ _ r w := (Ok (obedient_receipt r), w)
}.

#[export] Instance memory_view : SagaView memory := {
  floor _ := (63000000000 * second)%Z;
  holds w r := List.find (has_id (sg_ID r)) w = Some r
}.

Lemma memory_find_save id next w r : sg_ID next = id → List.find (has_id id) w = Some r →
  List.find (has_id id) (map (λ x, if has_id id x then next else x) w) = Some next.
Proof.
  intros Hid. assert (Hnext : has_id id next = true) by (unfold has_id; rewrite Hid; apply String.eqb_refl).
  induction w as [|x w IH]; cbn; [done|]. destruct (has_id id x) eqn:Hx; [by rewrite Hnext|]. rewrite Hx. exact IH.
Qed.

Lemma obedient_truthful r : sg_Validate r = Ok () → truthful r (obedient_receipt r) (63000000000 * second).
Proof.
  intros (_ & _ & _ & _ & [Hg Hn] & _)%sg_Validate_inv.
  split; [|by cbn [rc_EffectiveAt obedient_receipt]; destruct (bool_decide _)].
  unfold receipt_Validate, obedient_receipt.
  cbn [rc_OperationID rc_Phase rc_GatewayGeneration rc_NodeGeneration rc_PrivateReady rc_PublicRoutePublished rc_Drained rc_EffectiveAt].
  rewrite String.eqb_refl (bool_decide_true (sg_Phase r = sg_Phase r) eq_refl). cbn [negb orb reject mbind result_bind].
  apply bind_ok. exists (). split.
  { apply reject_ok. rewrite !orb_false_iff !N.ltb_ge. destruct (bool_decide _); ands. }
  destruct (sg_Phase r); phases; rewrite ?N.eqb_refl; done.
Qed.

#[export] Instance memory_cooperative : CooperativeHosts memory.
Proof.
  split.
  - done.
  - intros w. split; [done|]. by split.
  - intros b id w r w'. cbn. unfold memory_load. destruct (List.find _ w) as [r0|] eqn:Hf; [|done]. intros [= <- <-].
    split; [by split|]. apply List.find_some in Hf as Hid. destruct Hid as [_ Hid%String.eqb_eq]. by rewrite Hid.
  - intros b r next w Hh Hid. cbn in Hh |- *. unfold memory_save. rewrite Hid Hh N.eqb_refl. eexists. split; [done|]. split; [done|].
    by eapply memory_find_save.
  - intros b r w. exists w. by split.
  - intros b r w _. eexists _, w. split; [done|]. split; [by split|]. by left.
  - intros b r w Hr. exists (obedient_receipt r), w. split; [done|]. split; [by split|]. by apply obedient_truthful.
Qed.

(** ** Theorems *)

Section theorems.
Context {W : Type} `{Hosts : SagaHosts W} (stepLimit : Z).

Lemma resume_inv id w o es w' : Resume stepLimit id w = (o, es, w') →
  (es = [] ∧ o.2 ≠ None) ∨
  ∃ r w1, LoadCrossHostSaga (limited stepLimit) id w.1 = (Ok r, w1) ∧
    resume_loop stepLimit maximumCrossHostResumeSteps r (w1, w.2) = (o, es, w').
Proof.
  destruct w as [w cursor]. unfold Resume. destruct (ValidateResourceID id); [|intros [= <- <- <-]; by left].
  unfold mbind at 1, proc_bind, outside, call. cbn beta iota. cbn [fst snd].
  destruct (LoadCrossHostSaga (limited stepLimit) id w) as [[r|e] w1]; [|intros [= <- <- <-]; by left].
  destruct (resume_loop _ _ _ _) as [[o1 es1] w2] eqn:Hl. intros [= <- <- <-]. right. by exists r, w1.
Qed.

(** C3: whatever the store and the adapter answer, every execution of a phase that
    [Resume] makes comes directly after a reconciliation of the same phase of the
    same valid record that reported the phase as not applied; a drain is executed
    under its absolute deadline, every other phase under the step limit. *)
Theorem execution_follows_observed_absence id w o pre bound phase r res post w' :
  Resume stepLimit id w = (o, pre ++ Executed bound phase r res :: post, w') →
  ∃ pre' obs, pre = pre' ++ [Reconciled phase r (Ok obs)] ∧ ob_Status obs = CrossHostStepNotApplied ∧
    phase = sg_Phase r ∧ sg_Validate r = Ok () ∧
    bound = if bool_decide (phase = CrossHostPhaseDrain) then WithDeadline (sg_DrainDeadline r) else WithTimeout stepLimit.
Proof.
  intros [[Hnil _]|(r0 & w1 & _ & Hl)]%resume_inv; [by destruct pre|].
  apply (wp_run _ _ _ _ _ _ (resume_loop_trace stepLimit _ r0 (w1, w.2))) in Hl as (_ & Hd & _).
  destruct (disciplined_inv _ _ _ _ _ _ _ _ Hd eq_refl) as (pre' & obs & -> & Ho & -> & Hv & ->). by exists pre', obs.
Qed.

(** The saves [Resume] attempts form a chain from the loaded record to the one it
    returns: each names the revision of the version before it and writes a valid
    version with the next revision, the same identity, intent and creation time,
    generations that do not decrease and the next phase (or the same phase marked
    degraded or failed); a version with the public route published is only written
    over one whose private side is ready; nothing is saved after a save whose
    acknowledgement was lost. *)
Theorem saves_form_a_chain id w r0 w1 o es w' : LoadCrossHostSaga (limited stepLimit) id w.1 = (Ok r0, w1) →
  ValidateResourceID id = Ok () → Resume stepLimit id w = (o, es, w') → ∃ lost, save_chain r0 es o.1 lost.
Proof.
  intros Hload Hid Hr. unfold Resume in Hr. rewrite Hid in Hr. destruct w as [w cursor].
  unfold mbind at 1, proc_bind, outside, call in Hr. cbn beta iota in Hr. cbn [fst snd] in Hload. rewrite Hload in Hr.
  pose proof (resume_loop_trace stepLimit maximumCrossHostResumeSteps r0 (w1, cursor)) as Ht. unfold wp in Ht.
  destruct (resume_loop _ _ _ _) as [[o1 es1] w2]. injection Hr as <- <- <-. apply Ht.
Qed.

(** C40: the eight attempts of [Resume] are enough: with any larger bound the outcome,
    the calls and the final world are the same, so the bound never cuts a saga
    short; and when no error is returned the saga is complete, with both hosts at
    the desired generations, the public route published and the drain done. *)
Theorem resume_bound_suffices extra r w :
  resume_loop stepLimit (maximumCrossHostResumeSteps + extra) r w = resume_loop stepLimit maximumCrossHostResumeSteps r w ∧
  wp (resume_loop stepLimit maximumCrossHostResumeSteps r) w (λ o _ _, o.2 = None →
    sg_Validate o.1 = Ok () ∧ sg_State o.1 = OperationCompleted ∧
    sg_GatewayGeneration o.1 = si_DesiredGatewayGeneration (sg_Intent o.1) ∧
    sg_NodeGeneration o.1 = si_DesiredNodeGeneration (sg_Intent o.1) ∧
    sg_PublicRoutePublished o.1 = true ∧ sg_Drained o.1 = true).
Proof.
  split; [apply resume_loop_bound; unfold maximumCrossHostResumeSteps; lia|].
  eapply wp_mono; [apply resume_loop_trace|]. intros o es w' (_ & _ & Hok) Hnone.
  destruct (Hok Hnone) as [Hv Hs]. pose proof (completed_inv _ Hv Hs). naive_solver.
Qed.

(** A saga whose drain is not a whole number of seconds never completes, although
    such an intent is accepted: when [Resume] returns without an error the drain
    is a whole number of seconds. *)
Theorem completed_drain_is_whole_seconds id w r es w' :
  Resume stepLimit id w = ((r, None), es, w') → (si_Drain (sg_Intent r) mod second = 0)%Z.
Proof.
  intros [[_ Hn]|(r0 & w1 & _ & Hl)]%resume_inv; [by destruct Hn|].
  apply (wp_run _ _ _ _ _ _ (resume_loop_trace stepLimit _ r0 (w1, w.2))) in Hl as (_ & _ & Hok).
  destruct (Hok eq_refl) as [Hv Hs]. by apply whole_second_drain.
Qed.
End theorems.

Section registration.
Context {W : Type} `{Hosts : SagaHosts W} (stepLimit : Z).

(** A successful first [Begin] creates exactly one record, in the first phase, under
    an identity no stored saga uses, and a retry of the same intent, once the store
    lists that saga in whatever version it has reached, returns that version without
    creating anything or drawing another identity.  The request identity must not be
    the identity of a stored saga. *)
Theorem begin_is_idempotent intent w cursor records r es w1 r' w2 cursor2 : lists stepLimit w records →
  (∀ r0, r0 ∈ records → sg_ID r0 ≠ si_RequestID intent) →
  Begin stepLimit intent (w, cursor) = ((r, false, None), es, w1) →
  sg_Validate r' = Ok () → sg_ID r' = sg_ID r → sg_Intent r' = intent → lists stepLimit w2 (records ++ [r']) →
  es = [Created r (Ok ())] ∧ sg_Validate r = Ok () ∧ sg_Intent r = intent ∧ sg_Phase r = CrossHostPhaseValidate ∧
  (∀ r0, r0 ∈ records → sg_ID r ≠ sg_ID r0 ∧ sg_ID r ≠ si_RequestID (sg_Intent r0)) ∧
  ∃ w3, Begin stepLimit intent (w2, cursor2) = ((r', true, None), [], (w3, cursor2)).
Proof.
  intros Hl Hreq Hb Hv' Hid' Hi' Hl2.
  destruct (saga_begin_outcome stepLimit _ _ _ _ _ _ _ _ Hl Hb) as (Hiv & Hv & Hi & Hes & Hp & _ & occupied & Hscan & Hfresh).
  split_and!; try done.
  - apply begin_scan_range in Hscan as (Hocc & _). cbn in Hocc. intros r0 Hr0.
    split; intros E; apply Hfresh, elem_of_union_r, Hocc; eauto.
  - by eapply begin_retry; try done; rewrite Hid'.
Qed.

(** [Begin] accepts a request whose identifier is the identity of a stored saga, and
    the store that then lists the new saga is refused by every later [Begin], for any
    intent, without a call to the store. *)
Theorem reused_identity_blocks_begin intent w cursor records r r0 es w1 intent' w2 cursor2 : lists stepLimit w records →
  r0 ∈ records → sg_ID r0 = si_RequestID intent → Begin stepLimit intent (w, cursor) = ((r, false, None), es, w1) →
  lists stepLimit w2 (records ++ [r]) →
  ∃ e w3, Begin stepLimit intent' (w2, cursor2) = ((empty_record, false, Some e), [], w3).
Proof.
  intros Hl Hr0 Hid Hb [w2' Hl2].
  destruct (saga_begin_outcome stepLimit _ _ _ _ _ _ _ _ Hl Hb) as (_ & _ & Hi & _ & _ & _ & occupied & Hscan & _).
  destruct (begin_scan_poisoned records r r0 Hr0) with intent' as [e He]; [by rewrite Hi|].
  unfold Begin. destruct (si_Validate intent') as [[]|e']; [|by eexists _, _].
  unfold mbind at 1, proc_bind, outside, call. cbn beta iota. rewrite Hl2 He. by eexists _, _.
Qed.
End registration.

Section completion.
Context {W : Type} `{Cooperative : CooperativeHosts W} (stepLimit : Z).

(** C39: when saves against the version the store has are acknowledged, the clock runs
    and the adapter gives definite, truthful answers, [Resume] of any stored saga that
    has not failed (degraded ones included), whose drain is a whole number of seconds
    and whose revision leaves room, returns without an error and with the saga
    completed. *)
Theorem cooperative_saga_completes id w r w1 : ValidateResourceID id = Ok () →
  LoadCrossHostSaga (limited stepLimit) id w.1 = (Ok r, w1) → clear r w1 →
  ∃ o es w', Resume stepLimit id w = (o, es, w') ∧ o.2 = None ∧ sg_Validate o.1 = Ok () ∧ sg_State o.1 = OperationCompleted.
Proof.
  intros Hid Hload Hc. destruct w as [w cursor]. unfold Resume. rewrite Hid.
  unfold mbind at 1, proc_bind, outside, call. cbn beta iota. cbn [fst snd] in Hload. rewrite Hload.
  assert (Ht : on_track r (w1, cursor)) by (split; [done|by eapply load_holds]).
  pose proof (resume_loop_converges stepLimit maximumCrossHostResumeSteps r (w1, cursor) Ht) as Hconv.
  pose proof (resume_loop_trace stepLimit maximumCrossHostResumeSteps r (w1, cursor)) as Htr. unfold wp in *.
  destruct (resume_loop _ _ _ _) as [[o es] w2]. exists o, es, w2. split; [done|].
  assert (Hn : o.2 = None) by (apply Hconv; unfold maximumCrossHostResumeSteps; lia).
  split; [done|]. by apply Htr.
Qed.
End completion.

(** ** Witnesses *)

Definition saga_intent (drain : Z) : CrossHostSagaIntent :=
  MkCrossHostSagaIntent (uuid "51") OperationTransportSwitch "node" (uuid "11") 4 5 7 9 drain.
Definition sample_saga (drain : Z) : CrossHostSagaRecord := initial_record (uuid "61") (saga_intent drain) (Time (62000000000 * second) UTC).
Definition saga_limit : Z := 30 * second.

(** The run of the sample saga on the in-memory store. *)
Definition sample_run := Resume (W := memory) saga_limit (uuid "61") ([sample_saga (2 * second)], O).
Definition run_events {A} (m : A * list saga_event * (memory * nat)) : list saga_event := m.1.2.

Lemma run_eta {A} (m : A * list saga_event * (memory * nat)) : m = (m.1.1, run_events m, m.2).
Proof. by destruct m as [[]]. Qed.

(** The trace of the run: one validation, and per phase a reconciliation, an execution
    and a save. *)
Example sample_run_completes : sample_run.1.1.2 = None ∧ length (run_events sample_run) = 20%nat.
Proof. split; vm_compute; reflexivity. Qed.

Lemma execution_follows_observed_absence_witness : ∃ pre bound phase r res post,
  run_events sample_run = pre ++ Executed bound phase r res :: post ∧
  ∃ pre' obs, pre = pre' ++ [Reconciled phase r (Ok obs)] ∧ ob_Status obs = CrossHostStepNotApplied.
Proof.
  set (es := run_events sample_run).
  assert (He : ∃ bound phase r res, es !! 3%nat = Some (Executed bound phase r res)).
  { eexists _, _, _, _. vm_compute. reflexivity. }
  destruct He as (bound & phase & r & res & He).
  exists (take 3 es), bound, phase, r, res, (drop 4 es).
  assert (Hes : es = take 3 es ++ Executed bound phase r res :: drop 4 es) by (symmetry; by apply take_drop_middle).
  split; [exact Hes|].
  destruct (execution_follows_observed_absence saga_limit (uuid "61") ([sample_saga (2 * second)], O) sample_run.1.1
    (take 3 es) bound phase r res (drop 4 es) sample_run.2) as (pre' & obs & H1 & H2 & _).
  { rewrite -Hes. apply run_eta. }
  exists pre', obs. split; [exact H1|exact H2].
Defined.

Lemma saves_form_a_chain_witness : ∃ lost, save_chain (sample_saga (2 * second)) (run_events sample_run) sample_run.1.1.1 lost.
Proof.
  apply (saves_form_a_chain saga_limit (uuid "61") ([sample_saga (2 * second)], O) (sample_saga (2 * second)) [sample_saga (2 * second)]
    sample_run.1.1 (run_events sample_run) sample_run.2); [vm_compute; reflexivity|vm_compute; reflexivity|apply run_eta].
Defined.

Lemma completed_drain_is_whole_seconds_witness : (si_Drain (sg_Intent sample_run.1.1.1) mod second = 0)%Z.
Proof.
  apply (completed_drain_is_whole_seconds saga_limit (uuid "61") ([sample_saga (2 * second)], O) sample_run.1.1.1
    (run_events sample_run) sample_run.2).
  assert (Hn : sample_run.1.1.2 = None) by (vm_compute; reflexivity). rewrite -Hn -surjective_pairing. apply run_eta.
Defined.

Definition fractional_run := Resume (W := memory) saga_limit (uuid "61") ([sample_saga (500 * millisecond)], O).
Definition published (e : saga_event) : bool :=
  match e with Executed _ CrossHostPhasePublishPublic _ (Ok _) => true | _ => false end.

(** An intent with a drain of half a second is accepted and registered, and its saga
    stays degraded in the publication phase after the route was published. *)
Example fractional_drain_degrades :
  si_Validate (saga_intent (500 * millisecond)) = Ok () ∧ sg_Validate (sample_saga (500 * millisecond)) = Ok () ∧
  sg_State fractional_run.1.1.1 = OperationDegraded ∧ sg_Phase fractional_run.1.1.1 = CrossHostPhasePublishPublic ∧
  existsb published (run_events fractional_run) = true.
Proof. split_and!; vm_compute; reflexivity. Qed.

Lemma cooperative_saga_completes_witness : ∃ o es w',
  Resume (W := memory) saga_limit (uuid "61") ([sample_saga (2 * second)], O) = (o, es, w') ∧ o.2 = None.
Proof.
  destruct (cooperative_saga_completes (W := memory) saga_limit (uuid "61") ([sample_saga (2 * second)], O) (sample_saga (2 * second))
    [sample_saga (2 * second)]) as (o & es & w' & H1 & H2 & _); [vm_compute; reflexivity|vm_compute; reflexivity| |exists o, es, w'; split; [exact H1|exact H2]].
  unfold clear. split_and!; [vm_compute; reflexivity|done|done|by vm_compute|by vm_compute].
Defined.

Definition later_intent : CrossHostSagaIntent :=
  MkCrossHostSagaIntent (uuid "52") OperationTransportSwitch "node" (uuid "11") 4 5 7 9 second.
Definition new_begin := Begin (W := memory) saga_limit later_intent ([sample_saga (2 * second)], O).
Definition new_saga : CrossHostSagaRecord := new_begin.1.1.1.1.

Lemma begin_is_idempotent_witness : ∃ w3,
  Begin (W := memory) saga_limit later_intent ([sample_saga (2 * second); new_saga], 5%nat) = ((new_saga, true, None), [], (w3, 5%nat)).
Proof.
  destruct (begin_is_idempotent (W := memory) saga_limit later_intent [sample_saga (2 * second)] O [sample_saga (2 * second)] new_saga
    (run_events new_begin) new_begin.2 new_saga [sample_saga (2 * second); new_saga] 5%nat) as (_ & _ & _ & _ & _ & H).
  - eexists. reflexivity.
  - intros r0 Hr0%list_elem_of_singleton. subst r0. discriminate.
  - assert (Hn : new_begin.1.1 = (new_saga, false, None)) by (vm_compute; reflexivity). rewrite -Hn. apply run_eta.
  - vm_compute. reflexivity.
  - reflexivity.
  - vm_compute. reflexivity.
  - eexists. reflexivity.
  - exact H.
Defined.

(** A request that carries the identity of a stored saga is registered without a
    complaint, and from then on the list the store has is refused for every intent. *)
Definition stolen_intent : CrossHostSagaIntent :=
  MkCrossHostSagaIntent (uuid "61") OperationTransportSwitch "node" (uuid "11") 4 5 7 9 second.
Definition stolen_begin := Begin (W := memory) saga_limit stolen_intent ([sample_saga (2 * second)], O).

Definition stolen_saga : CrossHostSagaRecord := stolen_begin.1.1.1.1.

Lemma reused_identity_blocks_begin_witness : ∃ e w3,
  Begin (W := memory) saga_limit later_intent ([sample_saga (2 * second); stolen_saga], 5%nat) = ((empty_record, false, Some e), [], w3).
Proof.
  apply (reused_identity_blocks_begin (W := memory) saga_limit stolen_intent [sample_saga (2 * second)] O [sample_saga (2 * second)] stolen_saga
    (sample_saga (2 * second)) (run_events stolen_begin) stolen_begin.2 later_intent [sample_saga (2 * second); stolen_saga] 5%nat).
  - eexists. reflexivity.
  - by apply list_elem_of_singleton.
  - reflexivity.
  - assert (Hn : stolen_begin.1.1 = (stolen_saga, false, None)) by (vm_compute; reflexivity). rewrite -Hn. apply run_eta.
  - eexists. reflexivity.
Defined.
