(* ===== verification/LocalTx.v ===== *)
(** * Local component transactions ([internal/operations/local_transaction.go])

    A component is moved from one generation to the next by preparing, activating and
    committing, with a rollback under an independent bound when anything fails after
    the switch.  The component is an adapter over an arbitrary world; its handles are
    opaque.  Calls are logged. *)

From S2P Require Import Prelude GoTime Proc GoText GoNet Types Checks.

Local Open Scope string_scope.
Local Open Scope list_scope.

Definition DefaultLocalTransactionStepTimeout : Z := 30 * second.
Definition DefaultLocalTransactionRollbackTimeout : Z := 15 * second.

Inductive LocalTransactionPhase :=
  | LocalPhaseInspect | LocalPhaseValidate | LocalPhaseStage | LocalPhaseActivate | LocalPhaseHealth
  | LocalPhaseCommit | LocalPhaseDiscard | LocalPhaseRollback | LocalPhaseVerify.

Inductive LocalTransactionState :=
  | LocalTransactionPrepared | LocalTransactionActive | LocalTransactionCommitted
  | LocalTransactionRolledBack | LocalTransactionUncertain.

#[export] Instance LocalTransactionState_eq_dec : EqDecision LocalTransactionState.
Proof. solve_decision. Defined.

Record LocalGeneration := MkLocalGeneration {
  lg_Generation : N;
  lg_Present : bool;
  lg_RevisionSHA256 : string;
  lg_RuntimeSHA256 : string
}.

#[export] Instance LocalGeneration_eq_dec : EqDecision LocalGeneration.
Proof. solve_decision. Defined.

Record LocalCandidateDescriptor := MkLocalCandidateDescriptor {
  cd_Component : string;
  cd_Expected : LocalGeneration;
  cd_Desired : LocalGeneration
}.

#[export] Instance LocalCandidateDescriptor_eq_dec : EqDecision LocalCandidateDescriptor.
Proof. solve_decision. Defined.

Record LocalActivationDescriptor := MkLocalActivationDescriptor {
  ad_Component : string;
  ad_Previous : LocalGeneration;
  ad_Active : LocalGeneration
}.

#[export] Instance LocalActivationDescriptor_eq_dec : EqDecision LocalActivationDescriptor.
Proof. solve_decision. Defined.

Record LocalTransactionLimits := MkLocalTransactionLimits { lim_Step : Z; lim_Rollback : Z }.

Record LocalTransactionResult := MkLocalTransactionResult {
  tr_Component : string;
  tr_Previous : LocalGeneration;
  tr_Candidate : LocalGeneration;
  tr_Active : LocalGeneration;
  tr_State : LocalTransactionState;
  tr_Changed : bool;
  tr_Healthy : bool;
  tr_RolledBack : bool;
  tr_CleanupPending : bool
}.

(** ** Validation *)

(** [resourceComponentPattern] of convergence.go *)
Definition resourceComponentPattern : re :=
  let word := Class lower_alnum in
  Cat (Class lower_alpha) (Cat (Star word) (Star (Cat (Class (in_chars ".-")) (Cat word (Star word))))).

(** [validateFingerprint] of convergence.go: 32 bytes in lower-case hexadecimal. *)
Definition operations_validateFingerprint (value : string) : result unit :=
  reject (negb (String.length value =? 64)%nat) (Message "fingerprint must be a lowercase SHA-256");;
  reject (negb (str_forall hex_lower value)) (Message "fingerprint must be a lowercase SHA-256").

Definition lg_Validate (g : LocalGeneration) : result unit :=
  let hashed := negb (String.eqb (lg_RevisionSHA256 g) "") || negb (String.eqb (lg_RuntimeSHA256 g) "") in
  if (lg_Generation g =? 0)%N then reject (lg_Present g || hashed) (Message "generation zero must be absent and unhashed")
  else if negb (lg_Present g) then reject hashed (Message "absent generation must not carry hashes")
  else
    wrap "revision" (operations_validateFingerprint (lg_RevisionSHA256 g));;
    wrap "runtime" (operations_validateFingerprint (lg_RuntimeSHA256 g)).

Definition cd_Validate (d : LocalCandidateDescriptor) : result unit :=
  reject (negb (matches resourceComponentPattern (cd_Component d))) (Message "component must be a stable lower-case identifier");;
  wrap "expected generation" (lg_Validate (cd_Expected d));;
  wrap "desired generation" (lg_Validate (cd_Desired d));;
  if bool_decide (cd_Desired d = cd_Expected d) then Ok () else
  reject (lg_Generation (cd_Desired d) <=? lg_Generation (cd_Expected d))%N (Message "changed desired generation must advance expected generation").

Definition out_of_range (timeout : Z) : bool :=
  ((timeout <? minimumLocalTransactionTimeout) || (maximumLocalTransactionTimeout <? timeout))%Z.

Definition normalized (limits : LocalTransactionLimits) : result LocalTransactionLimits :=
  let step := if (lim_Step limits =? 0)%Z then DefaultLocalTransactionStepTimeout else lim_Step limits in
  let rollback := if (lim_Rollback limits =? 0)%Z then DefaultLocalTransactionRollbackTimeout else lim_Rollback limits in
  reject (out_of_range step) (Message "step timeout out of range");;
  reject (out_of_range rollback) (Message "rollback timeout out of range");;
  Ok (MkLocalTransactionLimits step rollback).

(** ** The component *)

(** [LocalComponentAdapter].  [Stage] and [Activate] may return a handle together with
    an error. *)
Class LocalComponent (W Candidate Staged Activation : Type) := {
  Component : string;
  candidate_descriptor : Candidate → LocalCandidateDescriptor;
  staged_descriptor : Staged → LocalCandidateDescriptor;
  activation_descriptor : Activation → LocalActivationDescriptor;
  comp_Current : call_bound → W → result LocalGeneration * W;
  comp_Validate : call_bound → Candidate → W → result unit * W;
  comp_Stage : call_bound → Candidate → W → (option Staged * option error) * W;
  comp_Activate : call_bound → Staged → W → (option Activation * option error) * W;
  comp_Health : call_bound → Activation → W → result unit * W;
  comp_Commit : call_bound → Activation → W → result unit * W;
  comp_Discard : call_bound → Staged → W → result unit * W;
  comp_Rollback : call_bound → option Activation → W → result unit * W
}.

Inductive local_event :=
  | Inspected (bound : call_bound) (outcome : result LocalGeneration)
  | Checked (outcome : result unit)
  | Staging (handle : bool) (err : option error)
  | Activating (handle : bool) (err : option error)
  | Health (outcome : result unit)
  | Committing (outcome : result unit)
  | Discarding (bound : call_bound) (outcome : result unit)
  | RollingBack (bound : call_bound) (outcome : result unit).

Definition local_phase_text (phase : LocalTransactionPhase) : string :=
  match phase with
  | LocalPhaseInspect => "inspect" | LocalPhaseValidate => "validate" | LocalPhaseStage => "stage"
  | LocalPhaseActivate => "activate" | LocalPhaseHealth => "health" | LocalPhaseCommit => "commit"
  | LocalPhaseDiscard => "discard" | LocalPhaseRollback => "rollback" | LocalPhaseVerify => "verify"
  end.

(** [&LocalTransactionError{Phase, Cause}] *)
Definition localTransactionError (phase : LocalTransactionPhase) (cause : error) : error :=
  Wrapped ("local transaction " +:+ local_phase_text phase +:+ " failed") cause.

(** [errors.Join(cause, a, b, ErrLocalTransactionUncertain)]; any of the first three may be nil. *)
Definition uncertain (causes : list (option error)) (also : list sentinel) : error :=
  errors_join (Sentinel ErrLocalTransactionUncertain) (causes ++ map (Some ∘ Sentinel) also).

(** ** The transaction *)

Section transaction.
Context {W Candidate Staged Activation : Type} `{Comp : LocalComponent W Candidate Staged Activation}.

Abbreviation local := (proc W local_event).

(** The mutex makes every operation atomic; the adapter is the interface. *)
Record PreparedLocalTransaction := MkPreparedLocalTransaction {
  tx_staged : option Staged;
  tx_activation : option Activation;
  tx_descriptor : LocalCandidateDescriptor;
  tx_limits : LocalTransactionLimits;
  tx_result : LocalTransactionResult
}.

Definition set_result (f : LocalTransactionResult → LocalTransactionResult) (tx : PreparedLocalTransaction) : PreparedLocalTransaction :=
  MkPreparedLocalTransaction (tx_staged tx) (tx_activation tx) (tx_descriptor tx) (tx_limits tx) (f (tx_result tx)).

Definition set_state (s : LocalTransactionState) : PreparedLocalTransaction → PreparedLocalTransaction :=
  set_result (λ x, MkLocalTransactionResult (tr_Component x) (tr_Previous x) (tr_Candidate x) (tr_Active x) s
    (tr_Changed x) (tr_Healthy x) (tr_RolledBack x) (tr_CleanupPending x)).

(** [result.State = LocalTransactionRolledBack; result.RolledBack = true] *)
Definition set_discarded : PreparedLocalTransaction → PreparedLocalTransaction :=
  set_result (λ x, MkLocalTransactionResult (tr_Component x) (tr_Previous x) (tr_Candidate x) (tr_Active x) LocalTransactionRolledBack
    (tr_Changed x) (tr_Healthy x) true (tr_CleanupPending x)).

(** The assignments of [rollbackAfter] when the rollback succeeded. *)
Definition set_rolled_back (tx : PreparedLocalTransaction) : PreparedLocalTransaction :=
  set_result (λ x, MkLocalTransactionResult (tr_Component x) (tr_Previous x) (tr_Candidate x) (cd_Expected (tx_descriptor tx))
    LocalTransactionRolledBack (tr_Changed x) false true (tr_CleanupPending x)) tx.

(** The assignments of [Activate] when the adapter returned a handle. *)
Definition set_activated (a : Activation) (tx : PreparedLocalTransaction) : PreparedLocalTransaction :=
  let x := tx_result tx in
  MkPreparedLocalTransaction (tx_staged tx) (Some a) (tx_descriptor tx) (tx_limits tx)
    (MkLocalTransactionResult (tr_Component x) (tr_Previous x) (tr_Candidate x) (cd_Desired (tx_descriptor tx)) LocalTransactionActive
      true (tr_Healthy x) (tr_RolledBack x) (tr_CleanupPending x)).

Definition set_healthy : PreparedLocalTransaction → PreparedLocalTransaction :=
  set_result (λ x, MkLocalTransactionResult (tr_Component x) (tr_Previous x) (tr_Candidate x) (tr_Active x) (tr_State x)
    (tr_Changed x) true (tr_RolledBack x) (tr_CleanupPending x)).

Definition set_committed (pending : bool) : PreparedLocalTransaction → PreparedLocalTransaction :=
  set_result (λ x, MkLocalTransactionResult (tr_Component x) (tr_Previous x) (tr_Candidate x) (tr_Active x) LocalTransactionCommitted
    (tr_Changed x) (tr_Healthy x) (tr_RolledBack x) (pending || tr_CleanupPending x)).

Definition verifyWithContext (bound : call_bound) (expected : LocalGeneration) : local (option error) :=
  res ← call (comp_Current bound) (λ res, [Inspected bound res]);
  mret (match res with
        | Err e => Some (Wrapped "verify active generation" e)
        | Ok observed =>
            match lg_Validate observed with
            | Err e => Some (Wrapped "verify active generation" e)
            | Ok _ => if bool_decide (observed = expected) then None else Some (Sentinel ErrLocalTransactionUncertain)
            end
        end).

(** A fresh context with the rollback timeout. *)
Definition cleanup (tx : PreparedLocalTransaction) : call_bound := Detached (lim_Rollback (tx_limits tx)).

Definition verify (tx : PreparedLocalTransaction) (expected : LocalGeneration) : local (option error) :=
  verifyWithContext (cleanup tx) expected.

Definition discard (tx : PreparedLocalTransaction) (staged : Staged) : local (option error) :=
  res ← call (comp_Discard (cleanup tx) staged) (λ res, [Discarding (cleanup tx) res]);
  mret (match res with Err e => Some (Wrapped "discard staged component" e) | Ok _ => None end).

Definition rollback (tx : PreparedLocalTransaction) : local (option error) :=
  res ← call (comp_Rollback (cleanup tx) (tx_activation tx)) (λ res, [RollingBack (cleanup tx) res]);
  match res with
  | Err e => mret (Some (Wrapped "rollback active component" e))
  | Ok _ => verifyWithContext (cleanup tx) (cd_Expected (tx_descriptor tx))
  end.

Definition is_none {A} (o : option A) : bool := match o with None => true | Some _ => false end.

(** [return nil, transaction.prepareFailure(...)] *)
Definition prepareFailure (tx : PreparedLocalTransaction) (phase : LocalTransactionPhase) (cause : error) (staged : option Staged)
    : local (result PreparedLocalTransaction) :=
  cleanupErr ← match staged with Some h => discard tx h | None => mret None end;
  verifyErr ← verify tx (cd_Expected (tx_descriptor tx));
  mret (Err (localTransactionError phase
    (if is_none cleanupErr && is_none verifyErr then cause else uncertain [Some cause; cleanupErr; verifyErr] []))).

(** [discard(staged)] followed by [verify(expected)], shared by [preActivationFailure] and [discardStaged]. *)
Definition abandon (tx : PreparedLocalTransaction) (staged : Staged) : local (PreparedLocalTransaction * option (option error * option error)) :=
  cleanupErr ← discard tx staged;
  verifyErr ← verify tx (cd_Expected (tx_descriptor tx));
  mret (if is_none cleanupErr && is_none verifyErr then (set_discarded tx, None)
        else (set_state LocalTransactionUncertain tx, Some (cleanupErr, verifyErr))).

Definition preActivationFailure (tx : PreparedLocalTransaction) (phase : LocalTransactionPhase) (cause : error) (staged : Staged)
    : local (PreparedLocalTransaction * option error) :=
  r ← abandon tx staged;
  mret (r.1, Some (localTransactionError phase
    (match r.2 with Some (a, b) => uncertain [Some cause; a; b] [] | None => cause end))).

Definition rollbackAfter (tx : PreparedLocalTransaction) (phase : LocalTransactionPhase) (cause : option error)
    : local (PreparedLocalTransaction * option error) :=
  rollbackErr ← rollback tx;
  mret (match rollbackErr with
        | Some e => (set_state LocalTransactionUncertain tx,
                     Some (localTransactionError phase (uncertain [cause; Some e] [ErrLocalTransactionRollback])))
        | None => (set_rolled_back tx, localTransactionError phase <$> cause)
        end).

Definition discardStaged (tx : PreparedLocalTransaction) (staged : Staged) : local (PreparedLocalTransaction * option error) :=
  r ← abandon tx staged;
  mret (r.1, match r.2 with Some (a, b) => Some (localTransactionError LocalPhaseDiscard (uncertain [a; b] [])) | None => None end).

Definition limited_step (tx : PreparedLocalTransaction) : call_bound := WithTimeout (lim_Step (tx_limits tx)).

Definition invalid_transaction : error := Sentinel ErrLocalTransactionInvalid.

Definition initial_transaction (d : LocalCandidateDescriptor) (limits : LocalTransactionLimits) : PreparedLocalTransaction :=
  MkPreparedLocalTransaction None None d limits
    (MkLocalTransactionResult (cd_Component d) (cd_Expected d) (cd_Desired d) (cd_Expected d) LocalTransactionPrepared false false false false).

Definition set_staged (s : Staged) (tx : PreparedLocalTransaction) : PreparedLocalTransaction :=
  MkPreparedLocalTransaction (Some s) (tx_activation tx) (tx_descriptor tx) (tx_limits tx) (tx_result tx).

(** The tail of [PrepareLocalTransaction]: the candidate is staged. *)
Definition stage_candidate (tx : PreparedLocalTransaction) (candidate : Candidate) : local (result PreparedLocalTransaction) :=
  st ← call (comp_Stage (limited_step tx) candidate) (λ st, [Staging (negb (is_none st.1)) st.2]);
  match st with
  | (staged, Some e) => prepareFailure tx LocalPhaseStage e staged
  | (None, None) => prepareFailure tx LocalPhaseStage invalid_transaction None
  | (Some staged, None) =>
      if bool_decide (staged_descriptor staged = tx_descriptor tx) then mret (Ok (set_staged staged tx))
      else prepareFailure tx LocalPhaseStage invalid_transaction (Some staged)
  end.

(** [PrepareLocalTransaction] from the inspection on: the descriptor and the limits are checked. *)
Definition prepare_checked (tx : PreparedLocalTransaction) (candidate : Candidate) : local (result PreparedLocalTransaction) :=
  let d := tx_descriptor tx in
  current ← call (comp_Current (limited_step tx)) (λ res, [Inspected (limited_step tx) res]);
  match current with
  | Err e => mret (Err (localTransactionError LocalPhaseInspect e))
  | Ok g =>
      match lg_Validate g with
      | Err _ => mret (Err (localTransactionError LocalPhaseInspect invalid_transaction))
      | Ok _ =>
          if negb (bool_decide (g = cd_Expected d)) then
            mret (Err (localTransactionError LocalPhaseInspect (Sentinel ErrLocalTransactionConflict)))
          else
            res ← call (comp_Validate (limited_step tx) candidate) (λ res, [Checked res]);
            match res with
            | Err e => prepareFailure tx LocalPhaseValidate e None
            | Ok _ =>
                if bool_decide (cd_Expected d = cd_Desired d) then mret (Ok (set_state LocalTransactionCommitted tx))
                else stage_candidate tx candidate
            end
      end
  end.

Definition PrepareLocalTransaction (candidate : Candidate) (limits : LocalTransactionLimits) : local (result PreparedLocalTransaction) :=
  match normalized limits with
  | Err e => mret (Err e)
  | Ok limits' =>
      let d := candidate_descriptor candidate in
      match cd_Validate d with
      | Err _ => mret (Err invalid_transaction)
      | Ok _ =>
          if negb (String.eqb Component (cd_Component d)) then mret (Err invalid_transaction)
          else prepare_checked (initial_transaction d limits') candidate
      end
  end.

(** The transaction never changed anything. *)
Definition unchanged_commit (tx : PreparedLocalTransaction) : bool :=
  bool_decide (tr_State (tx_result tx) = LocalTransactionCommitted) && negb (tr_Changed (tx_result tx)).

(** The end of [Activate]: the receipt was accepted. *)
Definition confirm_activation (tx : PreparedLocalTransaction) (a : Activation) : local (PreparedLocalTransaction * option error) :=
  v ← verify tx (cd_Desired (tx_descriptor tx));
  match v with
  | Some e => rollbackAfter tx LocalPhaseVerify (Some e)
  | None =>
      res ← call (comp_Health (limited_step tx) a) (λ res, [Health res]);
      match res with
      | Err e => rollbackAfter tx LocalPhaseHealth (Some e)
      | Ok _ => mret (set_healthy tx, None)
      end
  end.

Definition expected_activation (d : LocalCandidateDescriptor) : LocalActivationDescriptor :=
  MkLocalActivationDescriptor (cd_Component d) (cd_Expected d) (cd_Desired d).

(** [Activate] after the guards, with the staged handle. *)
Definition activate_staged (tx : PreparedLocalTransaction) (staged : Staged) : local (PreparedLocalTransaction * option error) :=
  act ← call (comp_Activate (limited_step tx) staged) (λ act, [Activating (negb (is_none act.1)) act.2]);
  match act with
  | (None, err) => preActivationFailure tx LocalPhaseActivate (default invalid_transaction err) staged
  | (Some a, err) =>
      let tx' := set_activated a tx in
      let err' := if bool_decide (activation_descriptor a = expected_activation (tx_descriptor tx)) then err
                  else Some (errors_join invalid_transaction [err]) in
      match err' with
      | Some e => rollbackAfter tx' LocalPhaseActivate (Some e)
      | None => confirm_activation tx' a
      end
  end.

Definition Activate (tx : PreparedLocalTransaction) : local (PreparedLocalTransaction * option error) :=
  if unchanged_commit tx then mret (tx, None) else
  match tr_State (tx_result tx), tx_staged tx with
  | LocalTransactionPrepared, Some staged => activate_staged tx staged
  | _, _ => mret (tx, Some invalid_transaction)
  end.

Definition Commit (tx : PreparedLocalTransaction) : local (PreparedLocalTransaction * option error) :=
  if unchanged_commit tx then mret (tx, None) else
  match tr_State (tx_result tx), tr_Healthy (tx_result tx), tx_activation tx with
  | LocalTransactionActive, true, Some a =>
      res ← call (comp_Commit (limited_step tx) a) (λ res, [Committing res]);
      mret (match res with
            | Err e => (set_committed true tx,
                        Some (localTransactionError LocalPhaseCommit (errors_join (Sentinel ErrLocalTransactionFinalize) [Some e])))
            | Ok _ => (set_committed false tx, None)
            end)
  | _, _, _ => mret (tx, Some invalid_transaction)
  end.

Definition Rollback (tx : PreparedLocalTransaction) : local (PreparedLocalTransaction * option error) :=
  match tr_State (tx_result tx) with
  | LocalTransactionPrepared =>
      match tx_staged tx with
      | None => mret (tx, Some invalid_transaction)
      | Some staged => discardStaged tx staged
      end
  | LocalTransactionActive => rollbackAfter tx LocalPhaseRollback None
  | LocalTransactionRolledBack => mret (tx, None)
  | LocalTransactionCommitted | LocalTransactionUncertain => mret (tx, Some invalid_transaction)
  end.

(** The result is absent when the transaction could not be prepared. *)
Definition RunLocalTransaction (candidate : Candidate) (limits : LocalTransactionLimits)
    : local (option LocalTransactionResult * option error) :=
  prepared ← PrepareLocalTransaction candidate limits;
  match prepared with
  | Err e => mret (None, Some e)
  | Ok tx =>
      if bool_decide (tr_State (tx_result tx) = LocalTransactionCommitted) then mret (Some (tx_result tx), None) else
      activated ← Activate tx;
      match activated with
      | (tx', Some e) => mret (Some (tx_result tx'), Some e)
      | (tx', None) => committed ← Commit tx'; mret (Some (tx_result committed.1), committed.2)
      end
  end.
End transaction.
