(* ===== verification/LocalTxFacts.v ===== *)
(** * What local component transactions guarantee

    For every component: a failed activation is undone and observed to be undone or
    reported as uncertain, success means one exact sequence of calls, and over any
    sequence of operations at most one decision (commit, rollback or discard) is put
    to the component. *)

From S2P Require Import Prelude GoTime Proc GoText GoNet Types Checks LocalTx.

Local Open Scope string_scope.
Local Open Scope list_scope.

Lemma uncertain_is causes also : errors_is (uncertain causes also) ErrLocalTransactionUncertain = true.
Proof. by apply errors_join_is. Qed.

Lemma failure_is_uncertain phase causes also :
  errors_is (localTransactionError phase (uncertain causes also)) ErrLocalTransactionUncertain = true.
Proof. apply uncertain_is. Qed.

Section facts.
Context {W Candidate Staged Activation : Type} `{Comp : LocalComponent W Candidate Staged Activation}.
Abbreviation tx_type := (@PreparedLocalTransaction Staged Activation).
Implicit Types tx : tx_type.

(** The generations of a transaction. *)
Definition expected tx : LocalGeneration := cd_Expected (tx_descriptor tx).
Definition desired tx : LocalGeneration := cd_Desired (tx_descriptor tx).
Definition state_of tx : LocalTransactionState := tr_State (tx_result tx).

(** ** Calls *)

Lemma verify_wp b g (w : W) : wp (verifyWithContext b g) w (λ err es _, ∃ res, es = [Inspected b res] ∧ (err = None → res = Ok g)).
Proof.
  unfold verifyWithContext. wp_step. wp_step. wp_step. exists a. split; [by rewrite app_nil_r|].
  destruct a as [observed|]; [|done]. destruct (lg_Validate observed); [|done]. case_bool_decide; [by subst|done].
Qed.

(** The calls of a successful undo: the call that undoes, and the inspection that shows
    the expected generation. *)
Definition undone tx (e : local_event) : list local_event := [e; Inspected (cleanup tx) (Ok (expected tx))].

Lemma abandon_wp tx staged (w : W) : wp (abandon tx staged) w (λ r es _,
  r = (set_discarded tx, None) ∧ es = undone tx (Discarding (cleanup tx) (Ok ())) ∨
  ∃ errs d i, r = (set_state LocalTransactionUncertain tx, Some errs) ∧ es = [Discarding (cleanup tx) d; Inspected (cleanup tx) i]).
Proof.
  unfold abandon, discard, verify. wp_step. wp_step. wp_step. wp_step. wp_step.
  eapply wp_mono; [apply verify_wp|]. intros err es w1 (res & -> & Hok). wp_step. rewrite !app_nil_r. cbn [app].
  destruct a as [[]|e]; cbn [is_none andb]; [|right; by eexists _, _, _].
  destruct err as [e|]; cbn [is_none]; [right; by eexists _, _, _|]. left. by rewrite (Hok eq_refl).
Qed.

(** What [rollbackAfter] leaves. *)
Definition rolled_back tx (cause : option error) (r : tx_type * option error) (es : list local_event) : Prop :=
  (r.1 = set_rolled_back tx ∧ es = undone tx (RollingBack (cleanup tx) (Ok ())) ∧ (cause = None → r.2 = None)) ∨
  (r.1 = set_state LocalTransactionUncertain tx ∧ (∃ e, r.2 = Some e ∧ errors_is e ErrLocalTransactionUncertain = true) ∧
   ∃ d rest, es = RollingBack (cleanup tx) d :: rest ∧ (rest = [] ∨ ∃ i, rest = [Inspected (cleanup tx) i])).

Lemma rollbackAfter_wp tx phase cause (w : W) : wp (rollbackAfter tx phase cause) w (λ r es _, rolled_back tx cause r es).
Proof.
  unfold rollbackAfter, rollback. wp_step. wp_step. wp_step. destruct a as [[]|e].
  - eapply wp_mono; [apply verify_wp|]. intros err es w1 (res & -> & Hok). wp_step. rewrite app_nil_r. cbn [app].
    destruct err as [e|].
    + right. split; [done|]. split; [eexists; split; [done|apply failure_is_uncertain]|]. eexists _, _. split; [done|]. right. by eexists.
    + left. rewrite (Hok eq_refl). split; [done|]. split; [done|]. by intros ->.
  - wp_step. wp_step. right. split; [done|]. split; [eexists; split; [done|apply failure_is_uncertain]|]. eexists _, _. split; [done|]. by left.
Qed.

(** ** Preparing *)

(** The transaction is as [PrepareLocalTransaction] returns it with a staged candidate. *)
Definition prepared tx : Prop :=
  state_of tx = LocalTransactionPrepared ∧ tx_staged tx ≠ None ∧ tx_activation tx = None ∧
  tr_Active (tx_result tx) = expected tx ∧ tr_Healthy (tx_result tx) = false ∧ tr_CleanupPending (tx_result tx) = false ∧
  tr_RolledBack (tx_result tx) = false.

Lemma prepareFailure_wp tx phase cause staged (w : W) :
  wp (prepareFailure tx phase cause staged) w (λ r _ _, ∃ e, r = Err e).
Proof.
  unfold prepareFailure. wp_step. apply wp_intro. intros. wp_step. apply wp_intro. intros. wp_step. by eexists.
Qed.

(** The calls of a successful preparation. *)
Definition prepare_events (limits : LocalTransactionLimits) (g : LocalGeneration) (staged : bool) : list local_event :=
  [Inspected (WithTimeout (lim_Step limits)) (Ok g); Checked (Ok ())] ++ if staged then [Staging true None] else [].

(** What a successful preparation returns. *)
Definition prepares (c : Candidate) (limits : LocalTransactionLimits) tx (es : list local_event) : Prop :=
  let d := candidate_descriptor c in
  normalized limits = Ok (tx_limits tx) ∧ tx_descriptor tx = d ∧ cd_Validate d = Ok () ∧
  if bool_decide (cd_Expected d = cd_Desired d)
  then tx = set_state LocalTransactionCommitted (initial_transaction d (tx_limits tx)) ∧ es = prepare_events (tx_limits tx) (cd_Expected d) false
  else (∃ staged, tx = set_staged staged (initial_transaction d (tx_limits tx)) ∧ staged_descriptor staged = d) ∧
       es = prepare_events (tx_limits tx) (cd_Expected d) true.

Lemma stage_candidate_wp tx c (w : W) : wp (stage_candidate tx c) w (λ r es _, ∀ tx', r = Ok tx' →
  es = [Staging true None] ∧ ∃ staged, tx' = set_staged staged tx ∧ staged_descriptor staged = tx_descriptor tx).
Proof.
  assert (Hfail : ∀ e cause staged (w : W), wp (prepareFailure tx LocalPhaseStage cause staged) w (λ r es _, ∀ tx', r = Ok tx' →
    [e] ++ es = [Staging true None] ∧ ∃ staged, tx' = set_staged staged tx ∧ staged_descriptor staged = tx_descriptor tx)).
  { intros. eapply wp_mono; [apply prepareFailure_wp|]. by intros r es w' [e' ->] tx'. }
  unfold stage_candidate. wp_step. wp_step. destruct a as [[staged|] [e|]]; try apply Hfail.
  case_bool_decide; [|apply Hfail]. wp_step. intros tx' [= <-]. split; [done|]. by exists staged.
Qed.

Lemma prepare_wp c limits (w : W) : wp (PrepareLocalTransaction c limits) w (λ r es _, ∀ tx, r = Ok tx → prepares c limits tx es).
Proof.
  unfold PrepareLocalTransaction. destruct (normalized limits) as [limits'|] eqn:Hlim; [|by wp_step].
  destruct (cd_Validate _) as [[]|] eqn:Hd; [|by wp_step]. destruct (negb _); [by wp_step|].
  unfold prepare_checked. cbn [tx_descriptor initial_transaction]. wp_step. wp_step.
  destruct a as [g|]; [|by wp_step]. destruct (lg_Validate g) as [[]|]; [|by wp_step].
  case_bool_decide as Hg; cbn [negb]; [|by wp_step]. subst g. wp_step. wp_step.
  destruct a as [[]|e].
  - case_bool_decide as He.
    + wp_step. intros tx [= <-]. unfold prepares. cbn [tx_descriptor tx_limits set_state set_result initial_transaction].
      by rewrite bool_decide_true.
    + eapply wp_mono; [apply stage_candidate_wp|]. intros r es w1 Hr tx Htx.
      destruct (Hr tx Htx) as (-> & staged & -> & Hs). unfold prepares. cbn [tx_descriptor tx_limits set_staged initial_transaction].
      rewrite bool_decide_false //. split_and!; try done. by exists staged.
  - eapply wp_mono; [apply prepareFailure_wp|]. by intros r es w1 [e' ->] tx.
Qed.

Lemma prepares_prepared c limits tx es : prepares c limits tx es → state_of tx ≠ LocalTransactionCommitted → prepared tx.
Proof.
  intros (_ & Hd & _ & Hcase) Hs. destruct (bool_decide _).
  - destruct Hcase as [E _]. by rewrite E in Hs.
  - destruct Hcase as [(staged & E & _) _]. by rewrite E.
Qed.

(** ** Activating *)

(** The calls of a successful activation. *)
Definition activate_events tx : list local_event :=
  [Activating true None; Inspected (cleanup tx) (Ok (desired tx)); Health (Ok ())].

(** The transaction after a failed activation. *)
Definition undone_or_uncertain tx tx' (e : error) (es : list local_event) : Prop :=
  tx_descriptor tx' = tx_descriptor tx ∧
  (state_of tx' = LocalTransactionRolledBack ∧ tr_RolledBack (tx_result tx') = true ∧ tr_Active (tx_result tx') = expected tx ∧
   tr_Healthy (tx_result tx') = false ∧ (∃ pre, es = pre ++ [Inspected (cleanup tx) (Ok (expected tx))]) ∨
   state_of tx' = LocalTransactionUncertain ∧ errors_is e ErrLocalTransactionUncertain = true).

Lemma rolled_back_undone tx tx0 cause r es pre e : rolled_back tx0 (Some cause) r es → tx_descriptor tx0 = tx_descriptor tx →
  tx_limits tx0 = tx_limits tx → r.2 = Some e → undone_or_uncertain tx r.1 e (pre ++ es).
Proof.
  intros [(Hr & -> & _)|(Hr & (e' & He' & Hu) & _)] Hd Hl He; rewrite Hr; split; try done.
  - left. unfold set_rolled_back, set_result, state_of, expected. cbn. rewrite Hd. split_and!; try done.
    exists (pre ++ [RollingBack (cleanup tx0) (Ok ())]). rewrite -app_assoc. cbn. unfold undone, cleanup, expected. by rewrite Hd Hl.
  - right. rewrite He' in He. by injection He as <-.
Qed.

(** [Activate] of a prepared transaction. *)
Definition activated tx (r : tx_type * option error) (es : list local_event) : Prop :=
  match r.2 with
  | None => ∃ a, r.1 = set_healthy (set_activated a tx) ∧ es = activate_events tx
  | Some e => undone_or_uncertain tx r.1 e es
  end.

Lemma rollback_activated tx a phase cause pre (w : W) :
  wp (rollbackAfter (set_activated a tx) phase (Some cause)) w (λ r es _, activated tx r (pre ++ es)).
Proof.
  apply wp_intro. intros r es w' Hr. pose proof (rollbackAfter_wp (set_activated a tx) phase (Some cause) w) as Hw.
  unfold wp in Hw. rewrite Hr in Hw.
  assert (He : ∃ e, r.2 = Some e).
  { revert Hr. unfold rollbackAfter, mbind, proc_bind. destruct (rollback _ _) as [[[e|] es'] w1]; intros [= <- <- <-]; by eexists. }
  destruct He as [e He]. unfold activated. rewrite He. by eapply rolled_back_undone.
Qed.

Lemma preActivation_activated tx phase cause staged e (w : W) : prepared tx →
  wp (preActivationFailure tx phase cause staged) w (λ r es _, activated tx r ([e] ++ es)).
Proof.
  intros (Hs & _ & _ & Ha & Hh & _). unfold preActivationFailure. wp_step. eapply wp_mono; [apply abandon_wp|].
  intros r es w' Hr. wp_step. rewrite app_nil_r. unfold activated. cbn [snd fst].
  destruct Hr as [[-> ->]|([x y] & d & i & -> & ->)]; split; try done.
  - left. split_and!; try done. by exists [e; Discarding (cleanup tx) (Ok ())].
  - right. split; [done|]. apply failure_is_uncertain.
Qed.

Lemma Activate_wp tx (w : W) : prepared tx → wp (Activate tx) w (λ r es _, activated tx r es).
Proof.
  intros Hp. pose proof Hp as (Hs & Hst & _). unfold Activate, unchanged_commit. unfold state_of in Hs. rewrite Hs. cbn [andb].
  destruct (tx_staged tx) as [staged|]; [|done]. rewrite bool_decide_false; [done|]. cbn [andb].
  unfold activate_staged. wp_step. wp_step. destruct a as [[a|] err]; [|by apply preActivation_activated].
  case_bool_decide; [|by apply rollback_activated].
  destruct err as [e|]; [by apply rollback_activated|].
  unfold confirm_activation, verify. wp_step. eapply wp_mono; [apply verify_wp|]. intros v es w1 (res & -> & Hok).
  destruct v as [e|].
  { eapply wp_mono; [apply (rollback_activated tx a LocalPhaseVerify e [Activating true None; Inspected (cleanup tx) res])|done]. }
  wp_step. wp_step. destruct a0 as [[]|e].
  - wp_step. rewrite (Hok eq_refl). by exists a.
  - eapply wp_mono; [apply (rollback_activated tx a LocalPhaseHealth e [Activating true None; Inspected (cleanup tx) res; Health (Err e)])|done].
Qed.

(** ** Sequences of operations *)

Inductive local_operation := OpActivate | OpCommit | OpRollback.

Definition run_operation (op : local_operation) tx : proc W local_event (tx_type * option error) :=
  match op with OpActivate => Activate tx | OpCommit => Commit tx | OpRollback => Rollback tx end.

(** The operations one after the other; their errors are seen by the callers only. *)
Fixpoint run_operations (ops : list local_operation) tx : proc W local_event tx_type :=
  match ops with
  | [] => mret tx
  | op :: ops' => r ← run_operation op tx; run_operations ops' r.1
  end.

(** The calls that decide the fate of the candidate. *)
Definition decides (e : local_event) : bool :=
  match e with Committing _ | Discarding _ _ | RollingBack _ _ => true | _ => false end.
Definition decisions (es : list local_event) : list local_event := List.filter decides es.

Definition is_commit (e : local_event) : bool := match e with Committing _ => true | _ => false end.

(** What the decisions made so far say about the state of the transaction. *)
Definition standing tx (made : list local_event) : Prop :=
  match state_of tx with
  | LocalTransactionPrepared => made = [] ∧ prepared tx
  | LocalTransactionActive => made = [] ∧ tr_Active (tx_result tx) = desired tx ∧ tr_Healthy (tx_result tx) = true ∧ tr_Changed (tx_result tx) = true
  | LocalTransactionCommitted => ∃ e, made = [e] ∧ is_commit e = true ∧ tr_Active (tx_result tx) = desired tx ∧ tr_Healthy (tx_result tx) = true ∧
      tr_Changed (tx_result tx) = true
  | LocalTransactionRolledBack => ∃ e, made = [e] ∧ is_commit e = false ∧ tr_Active (tx_result tx) = expected tx ∧ tr_RolledBack (tx_result tx) = true
  | LocalTransactionUncertain => ∃ e, made = [e] ∧ is_commit e = false
  end.

Lemma decisions_app es es' : decisions (es ++ es') = decisions es ++ decisions es'.
Proof. apply List.filter_app. Qed.

Lemma rolled_back_standing tx cause r es : rolled_back tx cause r es → standing r.1 (decisions es).
Proof.
  intros [(Hr & -> & _)|(Hr & _ & d & rest & -> & Hrest)]; rewrite Hr; cbn; [by eexists|].
  destruct Hrest as [->|[i ->]]; by eexists.
Qed.

Lemma rollbackAfter_standing tx phase cause pre (w : W) : decisions pre = [] →
  wp (rollbackAfter tx phase cause) w (λ r es _, standing r.1 (decisions (pre ++ es))).
Proof.
  intros Hpre. eapply wp_mono; [apply rollbackAfter_wp|]. intros r es w' Hr. rewrite decisions_app Hpre. cbn [app]. exact (rolled_back_standing _ _ _ _ Hr).
Qed.

Lemma abandon_standing tx staged (w : W) : prepared tx → wp (abandon tx staged) w (λ r es _, standing r.1 (decisions es)).
Proof.
  intros (_ & _ & _ & Ha & _). eapply wp_mono; [apply abandon_wp|].
  intros r es w' [[-> ->]|(errs & d & i & -> & ->)]; cbn; by eexists.
Qed.

Lemma Activate_standing tx (w : W) : prepared tx → wp (Activate tx) w (λ r es _, standing r.1 (decisions es)).
Proof.
  intros Hp. pose proof Hp as (Hs & Hst & _). unfold Activate, unchanged_commit. unfold state_of in Hs. rewrite Hs. cbn [andb].
  destruct (tx_staged tx) as [staged|]; [|done]. rewrite bool_decide_false; [done|]. cbn [andb].
  unfold activate_staged. wp_step. wp_step. destruct a as [[a|] err].
  2:{ unfold preActivationFailure. wp_step. eapply wp_mono; [by apply abandon_standing|].
      intros r es w1 Hr. wp_step. by rewrite app_nil_r. }
  case_bool_decide; [|by apply rollbackAfter_standing].
  destruct err as [e|]; [by apply rollbackAfter_standing|].
  unfold confirm_activation, verify. wp_step. eapply wp_mono; [apply verify_wp|]. intros v es w1 (res & -> & _).
  destruct v as [e|]; [by apply (rollbackAfter_standing _ _ _ [Activating _ _; Inspected _ _])|].
  wp_step. wp_step. destruct a0 as [[]|e]; [by wp_step|].
  by apply (rollbackAfter_standing _ _ _ [Activating _ _; Inspected _ _; Health _]).
Qed.

(** A decided transaction is left alone. *)
Lemma decided_frozen op tx made (w : W) : standing tx made → made ≠ [] →
  wp (run_operation op tx) w (λ r es _, r.1 = tx ∧ es = []).
Proof.
  unfold standing, state_of. intros Hst Hm.
  destruct op; cbn [run_operation]; unfold Activate, Commit, Rollback, unchanged_commit;
    destruct (tr_State (tx_result tx)); try (by destruct Hst); try (by wp_step);
    destruct Hst as (e & _ & _ & _ & _ & ->); cbn [negb]; rewrite bool_decide_true //; by wp_step.
Qed.

Lemma operation_standing op tx made (w : W) : standing tx made →
  wp (run_operation op tx) w (λ r es _, standing r.1 (made ++ decisions es)).
Proof.
  intros Hst. destruct (decide (made = [])) as [->|Hm].
  2:{ eapply wp_mono; [by eapply decided_frozen|]. intros r es w' [-> ->]. by rewrite app_nil_r. }
  cbn [app]. pose proof Hst as Hst'. unfold standing in Hst'.
  destruct (state_of tx) eqn:Hs; try (by destruct Hst' as (e & He & _)); unfold state_of in Hs.
  - destruct Hst' as [_ Hp]. destruct op; cbn [run_operation].
    + by apply Activate_standing.
    + unfold Commit, unchanged_commit. rewrite Hs bool_decide_false; [done|]. cbn [andb]. by wp_step.
    + unfold Rollback. rewrite Hs. destruct (tx_staged tx) as [staged|]; [|by wp_step].
      unfold discardStaged. wp_step. eapply wp_mono; [by apply abandon_standing|]. intros r es w' Hr. wp_step. by rewrite app_nil_r.
  - destruct Hst' as (_ & Ha & Hh & Hc). destruct op; cbn [run_operation].
    + unfold Activate, unchanged_commit. rewrite Hs bool_decide_false; [done|]. cbn [andb]. by wp_step.
    + unfold Commit, unchanged_commit. rewrite Hs Hh bool_decide_false; [done|]. cbn [andb].
      destruct (tx_activation tx) as [a|]; [|by wp_step].
      wp_step. wp_step. wp_step. destruct a0 as [[]|e]; cbn; by eexists.
    + unfold Rollback. rewrite Hs. by apply (rollbackAfter_standing _ _ _ []).
Qed.

Lemma operations_standing ops tx made (w : W) : standing tx made →
  wp (run_operations ops tx) w (λ tx' es _, standing tx' (made ++ decisions es)).
Proof.
  revert tx made w. induction ops as [|op ops IH]; intros tx made w Hst; cbn [run_operations].
  - wp_step. by rewrite app_nil_r.
  - wp_step. eapply wp_mono; [by apply operation_standing|]. intros r es w' Hr.
    eapply wp_mono; [exact (IH r.1 _ w' Hr)|]. intros tx' es' w'' H. by rewrite decisions_app app_assoc.
Qed.

(** ** Complete runs *)

(** The calls of a run that reaches the commit. *)
Definition commit_run (d : LocalCandidateDescriptor) (limits : LocalTransactionLimits) (committed : result unit) : list local_event :=
  [Inspected (WithTimeout (lim_Step limits)) (Ok (cd_Expected d)); Checked (Ok ()); Staging true None; Activating true None;
   Inspected (Detached (lim_Rollback limits)) (Ok (cd_Desired d)); Health (Ok ()); Committing committed].

(** A run that ends in the committed state. *)
Definition committed_run (d : LocalCandidateDescriptor) (given : LocalTransactionLimits) (res : LocalTransactionResult) (err : option error) (es : list local_event) : Prop :=
  tr_Active res = cd_Desired d ∧ tr_RolledBack res = false ∧ ∃ limits, normalized given = Ok limits ∧
  if bool_decide (cd_Expected d = cd_Desired d) then
    err = None ∧ tr_Changed res = false ∧ es = [Inspected (WithTimeout (lim_Step limits)) (Ok (cd_Expected d)); Checked (Ok ())]
  else
    tr_Changed res = true ∧ tr_Healthy res = true ∧ ∃ committed, es = commit_run d limits committed ∧
    match err with
    | None => committed = Ok () ∧ tr_CleanupPending res = false
    | Some e => tr_CleanupPending res = true ∧ errors_is e ErrLocalTransactionFinalize = true
    end.

Lemma unchanged_run c limits tx es : prepares c limits tx es → state_of tx = LocalTransactionCommitted →
  committed_run (candidate_descriptor c) limits (tx_result tx) None es.
Proof.
  intros (Hlim & Hd & _ & Hcase) Hs. unfold committed_run. destruct (bool_decide _) eqn:He; bool_facts.
  - destruct Hcase as [E ->]. rewrite E. cbn. split; [done|]. split; [done|]. by exists (tx_limits tx).
  - destruct Hcase as [(staged & E & _) _]. by rewrite E in Hs.
Qed.

Lemma commit_healthy c limits tx a es (w : W) : prepares c limits tx es → state_of tx ≠ LocalTransactionCommitted →
  wp (Commit (set_healthy (set_activated a tx))) w (λ r es' _,
    committed_run (candidate_descriptor c) limits (tx_result r.1) r.2 (es ++ activate_events tx ++ es')).
Proof.
  intros Hp Hs. pose proof (prepares_prepared c limits tx es Hp Hs) as (_ & _ & _ & _ & _ & Hcl & Hrb).
  destruct Hp as (Hlim & Hd & _ & Hcase). unfold Commit, unchanged_commit. cbn [set_healthy set_activated set_result tx_result tr_State tr_Healthy tx_activation].
  rewrite bool_decide_false; [done|]. cbn [andb]. wp_step. wp_step. wp_step.
  unfold committed_run. destruct (bool_decide (cd_Expected _ = _)); [by destruct Hcase as [E _]; rewrite E in Hs|].
  destruct Hcase as [_ ->]. rewrite app_nil_r. unfold prepare_events, activate_events, cleanup, desired. rewrite Hd. cbn [app].
  destruct a0 as [[]|e]; cbn; rewrite ?Hd; (split; [done|]; split; [done|]; exists (tx_limits tx); split; [done|]; split; [done|]; split; [done|]).
  - by exists (Ok ()).
  - exists (Err e). split; [done|]. split; [done|]. by rewrite bool_decide_true.
Qed.

Lemma undone_not_committed tx tx' e es : undone_or_uncertain tx tx' e es → state_of tx' ≠ LocalTransactionCommitted.
Proof. intros (_ & [(-> & _)|[-> _]]); done. Qed.

Lemma run_wp c limits (w : W) : wp (RunLocalTransaction c limits) w (λ o es _, ∀ res, o.1 = Some res →
  tr_State res = LocalTransactionCommitted → committed_run (candidate_descriptor c) limits res o.2 es).
Proof.
  unfold RunLocalTransaction. wp_step. eapply wp_mono; [apply prepare_wp|]. intros [tx|e] es w1 Hp; [|by wp_step].
  specialize (Hp tx eq_refl). case_bool_decide as Hs.
  { wp_step. rewrite app_nil_r. intros res [= <-] _. by eapply unchanged_run. }
  wp_step. eapply wp_mono; [by apply Activate_wp, (prepares_prepared c limits tx es)|].
  intros [tx' [e|]] es1 w2 Ha; cbn in Ha.
  - wp_step. intros res [= <-] Hc. by apply undone_not_committed in Ha.
  - destruct Ha as (a & -> & ->). wp_step. eapply wp_mono; [by apply (commit_healthy c limits tx a es)|].
    intros r es2 w3 Hr. wp_step. rewrite app_nil_r. by intros res [= <-] _.
Qed.

(** ** Theorems *)

(** When [Activate] of a prepared transaction fails, whatever the component answered,
    either the transaction is rolled back and the last thing the component was asked
    is its current generation, which was exactly the expected one, or the state is
    uncertain and the error says so. *)
Theorem failed_activation_is_undone_or_uncertain tx tx' e es (w w' : W) : prepared tx →
  Activate tx w = ((tx', Some e), es, w') → undone_or_uncertain tx tx' e es.
Proof. intros Hp Ha. exact (wp_run _ _ _ _ _ _ (Activate_wp tx w Hp) Ha). Qed.

(** A run that ends committed made one exact sequence of calls: the expected
    generation was inspected, the candidate checked, staged and activated, the desired
    generation inspected under an independent bound, the component found healthy and
    only then committed (or, when nothing changes, only inspected and checked); a
    failed commit keeps the desired generation and is reported as pending cleanup. *)
Theorem committed_run_is_exact c limits res err es (w w' : W) :
  RunLocalTransaction c limits w = ((Some res, err), es, w') → tr_State res = LocalTransactionCommitted →
  committed_run (candidate_descriptor c) limits res err es.
Proof. intros Hr Hs. exact (wp_run _ _ _ _ _ _ (run_wp c limits w) Hr res eq_refl Hs). Qed.

(** C6: over any sequence of activations, commits and rollbacks of a prepared
    transaction, the component is asked to decide at most once: after a commit it is
    never rolled back or discarded, after a rollback or discard it is never committed
    and never rolled back again, and the state of the transaction says which of them
    happened, with the generation that is active. *)
Theorem local_transaction_decides_once ops tx tx' es (w w' : W) : prepared tx →
  run_operations ops tx w = (tx', es, w') → (length (decisions es) ≤ 1)%nat ∧ standing tx' (decisions es).
Proof.
  intros Hp Hr. assert (Hst : standing tx []) by (unfold standing; destruct Hp as (Hs & Hp); rewrite Hs; split; [done|by split]).
  pose proof (wp_run _ _ _ _ _ _ (operations_standing ops tx [] w Hst) Hr) as H. cbn [app] in H. split; [|exact H].
  unfold standing in H. destruct (state_of tx'); [destruct H as [-> _]|destruct H as [-> _]|destruct H as (x & -> & _)..]; cbn; lia.
Qed.
End facts.

(** ** A component *)

(** A component that holds one generation, and is or is not healthy. *)
Record sample_component := MkSampleComponent { sc_current : LocalGeneration; sc_healthy : bool }.

#[export] Instance sample_adapter : LocalComponent sample_component LocalCandidateDescriptor LocalCandidateDescriptor LocalActivationDescriptor := {
  Component := "nginx";
  candidate_descriptor c := c;
  staged_descriptor s := s;
  activation_descriptor a := a;
  comp_Current _ w := (Ok (sc_current w), w);
  comp_Validate _ _ w := (Ok (), w);
  comp_Stage _ c w := ((Some c, None), w);
  comp_Activate _ s w := ((Some (expected_activation s), None), MkSampleComponent (cd_Desired s) (sc_healthy w));
  comp_Health _ _ w := (if sc_healthy w then Ok () else Err (Message "unhealthy"), w);
  comp_Commit _ _ w := (Ok (), w);
  comp_Discard _ _ w := (Ok (), w);
  comp_Rollback _ a w := (Ok (), match a with Some d => MkSampleComponent (ad_Previous d) (sc_healthy w) | None => w end)
}.

Definition sample_sha : string := "0123456789abcdef0123456789abcdef0123456789abcdef0123456789abcdef".
Definition old_generation : LocalGeneration := MkLocalGeneration 3 true sample_sha sample_sha.
Definition new_generation : LocalGeneration := MkLocalGeneration 4 true sample_sha sample_sha.
Definition sample_candidate : LocalCandidateDescriptor := MkLocalCandidateDescriptor "nginx" old_generation new_generation.
Definition default_limits : LocalTransactionLimits := MkLocalTransactionLimits 0 0.
Definition sample_transaction : @PreparedLocalTransaction LocalCandidateDescriptor LocalActivationDescriptor :=
  set_staged sample_candidate (initial_transaction sample_candidate (MkLocalTransactionLimits (30 * second) (15 * second))).

Lemma failed_activation_is_undone_or_uncertain_witness :
  ∃ tx' e es, Activate sample_transaction (MkSampleComponent old_generation false) = ((tx', Some e), es, MkSampleComponent old_generation false) ∧
    undone_or_uncertain sample_transaction tx' e es.
Proof.
  eexists _, _, _. split; [vm_compute; reflexivity|].
  apply (failed_activation_is_undone_or_uncertain sample_transaction _ _ _ (MkSampleComponent old_generation false) (MkSampleComponent old_generation false));
    [done|vm_compute; reflexivity].
Defined.

Lemma committed_run_is_exact_witness :
  ∃ res es, RunLocalTransaction sample_candidate default_limits (MkSampleComponent old_generation true) =
    ((Some res, None), es, MkSampleComponent new_generation true) ∧ committed_run sample_candidate default_limits res None es.
Proof.
  eexists _, _. split; [vm_compute; reflexivity|].
  refine (committed_run_is_exact sample_candidate default_limits _ None _ (MkSampleComponent old_generation true)
    (MkSampleComponent new_generation true) _ _); vm_compute; reflexivity.
Defined.

Lemma local_transaction_decides_once_witness :
  ∃ tx' es, run_operations [OpActivate; OpCommit; OpRollback; OpCommit] sample_transaction (MkSampleComponent old_generation true) =
    (tx', es, MkSampleComponent new_generation true) ∧ standing tx' (decisions es).
Proof.
  eexists _, _. split; [vm_compute; reflexivity|].
  apply (local_transaction_decides_once [OpActivate; OpCommit; OpRollback; OpCommit] sample_transaction _ _ (MkSampleComponent old_generation true)
    (MkSampleComponent new_generation true)); [done|vm_compute; reflexivity].
Defined.
