(* ===== verification/Convergence.v ===== *)
(** * Convergence planning ([internal/operations/convergence.go])

    A plan compares three things: the desired manifest with the manifest last applied
    (pending changes, each owed to one registered operation) and the applied manifest
    with what is observed on the host (drift).  The source of the snapshot and the
    discovery of owned resources are the class [ConvergenceHost]. *)

From S2P Require Import Prelude GoTime Proc GoText GoNet Types Checks Ordered Resources LocalTx.

Local Open Scope string_scope.
Local Open Scope list_scope.

Definition ConvergenceManifestSchemaVersion : Z := 1.

Definition operationTypePattern : re :=
  let word := Class lower_alnum in
  Cat (Class lower_alpha) (Cat (Star word) (Star (Cat (chr "-"%char) (Cat word (Star word))))).

Inductive ConvergenceImpact :=
  | ConvergenceImpactNone | ConvergenceImpactAvailability | ConvergenceImpactDestructive
  | ConvergenceImpactUnsupported (raw : string).

#[export] Instance ConvergenceImpact_eq_dec : EqDecision ConvergenceImpact.
Proof. solve_decision. Defined.

Inductive ManagedResourceKind :=
  | ManagedResourceState | ManagedResourceFile | ManagedResourceUnit | ManagedResourceNetwork
  | ManagedResourceUnsupported (raw : string).

#[export] Instance ManagedResourceKind_eq_dec : EqDecision ManagedResourceKind.
Proof. solve_decision. Defined.

(** [string(kind)] *)
Definition ManagedResourceKind_string (kind : ManagedResourceKind) : string :=
  match kind with
  | ManagedResourceState => "state" | ManagedResourceFile => "file" | ManagedResourceUnit => "unit"
  | ManagedResourceNetwork => "network" | ManagedResourceUnsupported raw => raw
  end.

Record ManagedResourceKey := MkManagedResourceKey {
  key_Component : string;
  key_Kind : ManagedResourceKind;
  key_ID : string
}.

#[export] Instance ManagedResourceKey_eq_dec : EqDecision ManagedResourceKey.
Proof. solve_decision. Defined.

Record ManagedResource := MkManagedResource {
  mr_Key : ManagedResourceKey;
  mr_RevisionSHA256 : string;
  mr_RuntimeSHA256 : string;
  mr_ApplyImpact : ConvergenceImpact;
  mr_RemoveImpact : ConvergenceImpact
}.

#[export] Instance ManagedResource_eq_dec : EqDecision ManagedResource.
Proof. solve_decision. Defined.

Record OwnedResourceObservation := MkOwnedResourceObservation {
  ob_Key : ManagedResourceKey;
  ob_RuntimeSHA256 : string;
  ob_RemoveImpact : ConvergenceImpact
}.

Record ConvergenceManifest := MkConvergenceManifest {
  cm_SchemaVersion : Z;
  cm_Generation : N;
  cm_Resources : slice ManagedResource
}.

Record PendingOperation := MkPendingOperation {
  po_ID : string;
  po_Type : string;
  po_TargetKind : string;
  po_TargetID : string;
  po_ExpectedGeneration : N;
  po_DesiredGeneration : N;
  po_Resources : slice ManagedResourceKey
}.

#[export] Instance PendingOperation_eq_dec : EqDecision PendingOperation.
Proof. solve_decision. Defined.

Record ConvergenceSnapshot := MkConvergenceSnapshot {
  sn_Desired : ConvergenceManifest;
  sn_Applied : ConvergenceManifest;
  sn_Pending : slice PendingOperation
}.

Inductive DesiredChangeKind :=
  | DesiredCreate | DesiredUpdate | DesiredDelete
  | DesiredChangeUnsupported (raw : string).

#[export] Instance DesiredChangeKind_eq_dec : EqDecision DesiredChangeKind.
Proof. solve_decision. Defined.

Record DesiredChange := MkDesiredChange {
  ch_OperationID : string;
  ch_OperationType : string;
  ch_OperationExpectedGeneration : N;
  ch_OperationDesiredGeneration : N;
  ch_TargetKind : string;
  ch_TargetID : string;
  ch_Resource : ManagedResourceKey;
  ch_Kind : DesiredChangeKind;
  ch_Impact : ConvergenceImpact;
  ch_FromSHA256 : string;
  ch_ToSHA256 : string
}.

#[export] Instance DesiredChange_eq_dec : EqDecision DesiredChange.
Proof. solve_decision. Defined.

Inductive OwnedDriftKind :=
  | OwnedDriftMissing | OwnedDriftModified | OwnedDriftUnexpected
  | OwnedDriftUnsupported (raw : string).

#[export] Instance OwnedDriftKind_eq_dec : EqDecision OwnedDriftKind.
Proof. solve_decision. Defined.

Record OwnedDrift := MkOwnedDrift {
  dr_Resource : ManagedResourceKey;
  dr_Kind : OwnedDriftKind;
  dr_Impact : ConvergenceImpact;
  dr_ExpectedSHA256 : string;
  dr_ActualSHA256 : string
}.

#[export] Instance OwnedDrift_eq_dec : EqDecision OwnedDrift.
Proof. solve_decision. Defined.

Record ConvergencePlan := MkConvergencePlan {
  pl_DesiredGeneration : N;
  pl_AppliedGeneration : N;
  pl_Impact : ConvergenceImpact;
  pl_Changes : slice DesiredChange;
  pl_Drift : slice OwnedDrift
}.

#[export] Instance ConvergencePlan_eq_dec : EqDecision ConvergencePlan.
Proof. solve_decision. Defined.

(** ** Validation *)

(** [strings.TrimSpace(s) == s]: no Unicode white space at either end. *)
Definition any_text : re := Star (Class (λ _, true)).
Definition is_trimmed (s : string) : bool :=
  negb (matches (Cat space_re any_text) s) && negb (matches (Cat any_text space_re) s).

Definition nul_crlf : string := bytes [0; 13; 10]%N.

Definition key_validate (key : ManagedResourceKey) : result unit :=
  reject (negb (matches resourceComponentPattern (key_Component key))) (Message "component must be a stable lower-case identifier");;
  reject (match key_Kind key with ManagedResourceUnsupported _ => true | _ => false end) (Message "resource kind is unsupported");;
  reject (String.eqb (key_ID key) "" || (4096 <? String.length (key_ID key))%nat
          || negb (is_trimmed (key_ID key)) || ContainsAny (key_ID key) nul_crlf)
    (Message "resource ID must be a non-empty trimmed single line of at most 4096 bytes").

Definition resourceOrder (key : ManagedResourceKey) : string :=
  key_Component key +:+ bytes [0%N] +:+ ManagedResourceKind_string (key_Kind key) +:+ bytes [0%N] +:+ key_ID key.

Definition validateOperationID (value : string) : result unit :=
  reject (String.eqb value "" || (128 <? String.length value)%nat || negb (is_trimmed value) || ContainsAny value nul_crlf)
    (Message "operation ID must be a non-empty trimmed single line of at most 128 bytes").

Definition validateOperationTarget (kind id : string) : result unit :=
  reject (negb (Bool.eqb (String.eqb kind "") (String.eqb id ""))) (Message "target kind and ID must be present together");;
  reject (negb (String.eqb kind "")
          && (negb (matches resourceComponentPattern kind) || (128 <? String.length id)%nat || is_blank id || ContainsAny id nul_crlf))
    (Message "target is invalid").

Definition validConvergenceImpact (impact : ConvergenceImpact) : bool :=
  match impact with ConvergenceImpactUnsupported _ => false | _ => true end.

Definition convergenceImpactRank (impact : ConvergenceImpact) : Z :=
  match impact with ConvergenceImpactAvailability => 1 | ConvergenceImpactDestructive => 2 | _ => 0 end.

Definition maximumConvergenceImpact (left right : ConvergenceImpact) : ConvergenceImpact :=
  if (convergenceImpactRank left <? convergenceImpactRank right)%Z then right else left.

Definition mr_validate (resource : ManagedResource) : result unit :=
  key_validate (mr_Key resource);;
  wrap "revision" (operations_validateFingerprint (mr_RevisionSHA256 resource));;
  wrap "runtime" (operations_validateFingerprint (mr_RuntimeSHA256 resource));;
  reject (negb (validConvergenceImpact (mr_ApplyImpact resource)) || negb (validConvergenceImpact (mr_RemoveImpact resource)))
    (Message "resource impacts are unsupported").

Definition po_validate (operation : PendingOperation) (minimumGeneration maximumGeneration : N) : result unit :=
  validateOperationID (po_ID operation);;
  reject (negb (matches operationTypePattern (po_Type operation))) (Message "type must be a stable lower-case identifier");;
  validateOperationTarget (po_TargetKind operation) (po_TargetID operation);;
  reject ((po_ExpectedGeneration operation <? minimumGeneration) || (po_DesiredGeneration operation <=? po_ExpectedGeneration operation)
          || (maximumGeneration <? po_DesiredGeneration operation))%N (Message "operation generations are invalid");;
  reject (is_nil (po_Resources operation) || (length (items (po_Resources operation)) =? 0)%nat)
    (Message "resources must be present and non-empty");;
  _ ← range (λ _ resource seen,
    wrap "resource" (key_validate resource);;
    check_unique (resourceOrder resource) (Message "resource is duplicated") seen) (items (po_Resources operation)) ∅;
  Ok ().

Definition fingerprint_ok (value : string) : bool := is_ok (operations_validateFingerprint value).

Definition ch_validate (change : DesiredChange) : result unit :=
  reject (negb (is_ok (validateOperationID (ch_OperationID change))) || negb (matches operationTypePattern (ch_OperationType change)))
    (Message "operation identity is invalid");;
  reject ((ch_OperationExpectedGeneration change =? 0) || (ch_OperationDesiredGeneration change <=? ch_OperationExpectedGeneration change))%N
    (Message "operation generations are invalid");;
  validateOperationTarget (ch_TargetKind change) (ch_TargetID change);;
  key_validate (ch_Resource change);;
  reject (negb (validConvergenceImpact (ch_Impact change))) (Message "impact is unsupported");;
  let from := ch_FromSHA256 change in
  let to := ch_ToSHA256 change in
  match ch_Kind change with
  | DesiredCreate => reject (negb (String.eqb from "") || negb (fingerprint_ok to)) (Message "create hashes are invalid")
  | DesiredUpdate => reject (negb (fingerprint_ok from) || negb (fingerprint_ok to) || String.eqb from to) (Message "update hashes are invalid")
  | DesiredDelete => reject (negb (fingerprint_ok from) || negb (String.eqb to "")) (Message "delete hashes are invalid")
  | DesiredChangeUnsupported _ => Err (Message "change kind is unsupported")
  end.

Definition dr_validate (drift : OwnedDrift) : result unit :=
  key_validate (dr_Resource drift);;
  reject (negb (validConvergenceImpact (dr_Impact drift))) (Message "impact is unsupported");;
  let expected := dr_ExpectedSHA256 drift in
  let actual := dr_ActualSHA256 drift in
  match dr_Kind drift with
  | OwnedDriftMissing => reject (negb (fingerprint_ok expected) || negb (String.eqb actual "")) (Message "missing drift hashes are invalid")
  | OwnedDriftModified =>
      reject (negb (fingerprint_ok expected) || negb (fingerprint_ok actual) || String.eqb expected actual) (Message "modified drift hashes are invalid")
  | OwnedDriftUnexpected => reject (negb (String.eqb expected "") || negb (fingerprint_ok actual)) (Message "unexpected drift hashes are invalid")
  | OwnedDriftUnsupported _ => Err (Message "drift kind is unsupported")
  end.

(** [fmt.Errorf("%w: ...: %v", ErrConvergencePlanInvalid, err)] *)
Definition plan_invalid : error := Sentinel ErrConvergencePlanInvalid.
Definition or_plan_invalid {A} (m : result A) : result A := match m with Ok a => Ok a | Err _ => Err plan_invalid end.

(** ** Canonical input *)

Definition canonicalResources (resources : slice ManagedResource) : result (list ManagedResource) :=
  reject (is_nil resources) plan_invalid;;
  range_check (λ _ resource, or_plan_invalid (mr_validate resource)) (items resources);;
  let result := sort_by (λ r, resourceOrder (mr_Key r)) (items resources) in
  reject_neighbours (λ r, resourceOrder (mr_Key r)) plan_invalid result;;
  Ok result.

Definition canonicalObservations (observed : slice OwnedResourceObservation) : result (list OwnedResourceObservation) :=
  reject (is_nil observed) plan_invalid;;
  range_check (λ _ observation,
    or_plan_invalid (key_validate (ob_Key observation));;
    or_plan_invalid (operations_validateFingerprint (ob_RuntimeSHA256 observation));;
    reject (negb (validConvergenceImpact (ob_RemoveImpact observation))) plan_invalid) (items observed);;
  let result := sort_by (λ o, resourceOrder (ob_Key o)) (items observed) in
  reject_neighbours (λ o, resourceOrder (ob_Key o)) plan_invalid result;;
  Ok result.

Definition cm_Validate (manifest : ConvergenceManifest) : result unit :=
  reject (negb (cm_SchemaVersion manifest =? ConvergenceManifestSchemaVersion)%Z) (Message "schema version must be 1");;
  reject (cm_Generation manifest =? 0)%N (Message "generation must be positive");;
  reject (is_nil (cm_Resources manifest)) (Message "resources must be present");;
  _ ← canonicalResources (cm_Resources manifest); Ok ().

Definition NewConvergenceManifest (generation : N) (resources : slice ManagedResource) : result ConvergenceManifest :=
  canonical ← canonicalResources resources;
  let manifest := MkConvergenceManifest ConvergenceManifestSchemaVersion generation (Some canonical) in
  cm_Validate manifest;;
  Ok manifest.

Definition set_po_Resources (resources : slice ManagedResourceKey) (operation : PendingOperation) : PendingOperation :=
  MkPendingOperation (po_ID operation) (po_Type operation) (po_TargetKind operation) (po_TargetID operation)
    (po_ExpectedGeneration operation) (po_DesiredGeneration operation) resources.

(** The keys of a validated operation are distinct, so the order of sorting is fixed. *)
Definition sorted_operation (operation : PendingOperation) : PendingOperation :=
  set_po_Resources (Some (sort_by resourceOrder (items (po_Resources operation)))) operation.

Definition bindPendingOperationAtGenerations (operation : Operation) (expectedGeneration desiredGeneration : N)
    (resources : slice ManagedResourceKey) : result PendingOperation :=
  wrap "validate authoritative operation" (op_Validate operation);;
  reject (negb (bool_decide (op_State operation = OperationPending))) plan_invalid;;
  let pending := MkPendingOperation (op_ID operation) (OperationType_string (op_Type operation)) (op_TargetKind operation)
                   (op_TargetID operation) expectedGeneration desiredGeneration (append None (items resources)) in
  or_plan_invalid (po_validate pending expectedGeneration desiredGeneration);;
  Ok (sorted_operation pending).

Definition BindPendingOperation (operation : Operation) (resources : slice ManagedResourceKey) : result PendingOperation :=
  bindPendingOperationAtGenerations operation (op_ExpectedGeneration operation) (op_DesiredGeneration operation) resources.

Definition BindPendingOperationAtGenerations (operation : Operation) (expectedGeneration desiredGeneration : N)
    (resources : slice ManagedResourceKey) : result PendingOperation :=
  bindPendingOperationAtGenerations operation expectedGeneration desiredGeneration resources.

(** A manifest of the snapshot, with the schema version it was read with. *)
Definition canonical_manifest (manifest : ConvergenceManifest) : result ConvergenceManifest :=
  canonical ← or_plan_invalid (NewConvergenceManifest (cm_Generation manifest) (cm_Resources manifest));
  reject (negb (cm_SchemaVersion manifest =? ConvergenceManifestSchemaVersion)%Z) plan_invalid;;
  Ok canonical.

Definition canonicalSnapshot (snapshot : ConvergenceSnapshot) : result ConvergenceSnapshot :=
  desired ← canonical_manifest (sn_Desired snapshot);
  applied ← canonical_manifest (sn_Applied snapshot);
  reject (cm_Generation desired <? cm_Generation applied)%N plan_invalid;;
  reject (is_nil (sn_Pending snapshot)) plan_invalid;;
  range_check (λ _ operation, or_plan_invalid (po_validate operation (cm_Generation applied) (cm_Generation desired)))
    (items (sn_Pending snapshot));;
  let pending := sort_by po_ID (sorted_operation <$> items (sn_Pending snapshot)) in
  reject_neighbours po_ID plan_invalid pending;;
  Ok (MkConvergenceSnapshot desired applied (Some pending)).

(** ** Pending changes *)

Definition resourcesByKey (resources : list ManagedResource) : gmap string ManagedResource :=
  by_key (λ r, resourceOrder (mr_Key r)) resources.
Definition observationsByKey (observations : list OwnedResourceObservation) : gmap string OwnedResourceObservation :=
  by_key (λ o, resourceOrder (ob_Key o)) observations.
Definition unionResourceKeys (left right : gmap string ManagedResource) : list string := union_keys left right.
Definition unionObservationKeys (left : gmap string ManagedResource) (right : gmap string OwnedResourceObservation) : list string :=
  union_keys left right.

Section changes.
Context (desired applied : gmap string ManagedResource).

Definition difference_at (key : string) : option DesiredChangeKind :=
  match applied !! key, desired !! key with
  | None, _ => Some DesiredCreate
  | Some _, None => Some DesiredDelete
  | Some before, Some after =>
      if negb (String.eqb (mr_RevisionSHA256 before) (mr_RevisionSHA256 after)) then Some DesiredUpdate else None
  end.

Definition find_differences (keys : list string) : gmap string DesiredChangeKind :=
  foldl (λ differences key,
    match difference_at key with Some kind => <[key := kind]> differences | None => differences end) ∅ keys.

Definition bind_resource (differences : gmap string DesiredChangeKind) (operation : PendingOperation)
    (_ : nat) (resource : ManagedResourceKey) (s : gmap string PendingOperation * bool) : result (gmap string PendingOperation * bool) :=
  let key := resourceOrder resource in
  match differences !! key with
  | None => Err plan_invalid
  | Some _ =>
      match s.1 !! key with
      | Some _ => Err plan_invalid
      | None => Ok (<[key := operation]> s.1, true)
      end
  end.

Definition bind_operation (differences : gmap string DesiredChangeKind) (_ : nat) (operation : PendingOperation)
    (bindings : gmap string PendingOperation) : result (gmap string PendingOperation) :=
  bound ← range (bind_resource differences operation) (items (po_Resources operation)) (bindings, false);
  reject (negb bound.2) plan_invalid;;
  Ok bound.1.

(** The zero value of a resource, for a missing map entry. *)
Definition zero_key : ManagedResourceKey := MkManagedResourceKey "" (ManagedResourceUnsupported "") "".
Definition zero_resource : ManagedResource :=
  MkManagedResource zero_key "" "" (ConvergenceImpactUnsupported "") (ConvergenceImpactUnsupported "").

Definition change_at (operation : PendingOperation) (kind : DesiredChangeKind) (key : string) : DesiredChange :=
  let before := default zero_resource (applied !! key) in
  let after := default zero_resource (desired !! key) in
  let change resource impact from to :=
    MkDesiredChange (po_ID operation) (po_Type operation) (po_ExpectedGeneration operation) (po_DesiredGeneration operation)
      (po_TargetKind operation) (po_TargetID operation) resource kind impact from to in
  match kind with
  | DesiredCreate => change (mr_Key after) (mr_ApplyImpact after) "" (mr_RevisionSHA256 after)
  | DesiredUpdate => change (mr_Key after) (mr_ApplyImpact after) (mr_RevisionSHA256 before) (mr_RevisionSHA256 after)
  | DesiredDelete => change (mr_Key before) (mr_RemoveImpact before) (mr_RevisionSHA256 before) ""
  | DesiredChangeUnsupported _ => change zero_key (ConvergenceImpactUnsupported "") "" ""
  end.

Definition collect_change (differences : gmap string DesiredChangeKind) (bindings : gmap string PendingOperation)
    (_ : nat) (key : string) (changes : list DesiredChange) : result (list DesiredChange) :=
  match differences !! key with
  | None => Ok changes
  | Some kind =>
      match bindings !! key with
      | None => Err plan_invalid
      | Some operation =>
          reject ((bool_decide (applied !! key = None) && negb (bool_decide (kind = DesiredCreate)))
                  || (bool_decide (desired !! key = None) && negb (bool_decide (kind = DesiredDelete)))) plan_invalid;;
          Ok (changes ++ [change_at operation kind key])
      end
  end.
End changes.

Definition desiredChanges (snapshot : ConvergenceSnapshot) : result (list DesiredChange) :=
  let desired := resourcesByKey (items (cm_Resources (sn_Desired snapshot))) in
  let applied := resourcesByKey (items (cm_Resources (sn_Applied snapshot))) in
  let keys := unionResourceKeys desired applied in
  let differences := find_differences desired applied keys in
  bindings ← range (bind_operation differences) (items (sn_Pending snapshot)) ∅;
  range (collect_change desired applied differences bindings) keys [].

(** ** Drift *)

Definition drift_at (expected : gmap string ManagedResource) (actual : gmap string OwnedResourceObservation) (key : string)
    : option OwnedDrift :=
  match expected !! key, actual !! key with
  | None, Some got => Some (MkOwnedDrift (ob_Key got) OwnedDriftUnexpected (ob_RemoveImpact got) "" (ob_RuntimeSHA256 got))
  | None, None => Some (MkOwnedDrift zero_key OwnedDriftUnexpected (ConvergenceImpactUnsupported "") "" "")
  | Some want, None => Some (MkOwnedDrift (mr_Key want) OwnedDriftMissing (mr_ApplyImpact want) (mr_RuntimeSHA256 want) "")
  | Some want, Some got =>
      if negb (String.eqb (mr_RuntimeSHA256 want) (ob_RuntimeSHA256 got))
      then Some (MkOwnedDrift (mr_Key want) OwnedDriftModified (mr_ApplyImpact want) (mr_RuntimeSHA256 want) (ob_RuntimeSHA256 got))
      else None
  end.

Definition ownedDrift (applied : list ManagedResource) (observed : list OwnedResourceObservation) : list OwnedDrift :=
  let expected := resourcesByKey applied in
  let actual := observationsByKey observed in
  omap (drift_at expected actual) (unionObservationKeys expected actual).

(** ** The plan *)

(** The body shared by the two loops of [ConvergencePlan.Validate]: unique resources in
    ascending order, and the impact so far. *)
Definition ascending_impact {A} (resource : A → ManagedResourceKey) (impact : A → ConvergenceImpact) (check : A → result unit)
    (index : nat) (x : A) (s : string * ConvergenceImpact) : result (string * ConvergenceImpact) :=
  check x;;
  let order := resourceOrder (resource x) in
  reject ((0 <? index)%nat && str_leb order s.1) (Message "unique resources in ascending order");;
  Ok (order, maximumConvergenceImpact s.2 (impact x)).

Definition pl_Validate (plan : ConvergencePlan) : result unit :=
  reject ((pl_DesiredGeneration plan =? 0) || (pl_AppliedGeneration plan =? 0))%N (Message "generations must be positive");;
  reject (pl_DesiredGeneration plan <? pl_AppliedGeneration plan)%N (Message "desired generation precedes applied generation");;
  reject (negb (validConvergenceImpact (pl_Impact plan))) (Message "unsupported aggregate impact");;
  reject (is_nil (pl_Changes plan) || is_nil (pl_Drift plan)) (Message "changes and drift must be present");;
  changes ← range (ascending_impact ch_Resource ch_Impact (λ change,
    ch_validate change;;
    reject ((ch_OperationExpectedGeneration change <? pl_AppliedGeneration plan)
            || (pl_DesiredGeneration plan <? ch_OperationDesiredGeneration change))%N (Message "outside the plan range")))
    (items (pl_Changes plan)) ("", ConvergenceImpactNone);
  drift ← range (ascending_impact dr_Resource dr_Impact dr_validate) (items (pl_Drift plan)) ("", changes.2);
  reject (negb (bool_decide (pl_Impact plan = drift.2))) (Message "aggregate impact does not match").

(** The two interfaces of the planner and the context it polls. *)
Class ConvergenceHost (W : Type) := {
  ctx_Err : W → option error * W;
  ReadConvergenceSnapshot : W → result ConvergenceSnapshot * W;
  DiscoverOwnedResources : ConvergenceManifest → W → result (slice OwnedResourceObservation) * W
}.

Inductive convergence_event :=
  | SnapshotRead (outcome : result ConvergenceSnapshot)
  | Discovered (applied : ConvergenceManifest) (outcome : result (slice OwnedResourceObservation)).

Definition plan_of (canonical : ConvergenceSnapshot) (changes : list DesiredChange) (drift : list OwnedDrift) : ConvergencePlan :=
  MkConvergencePlan (cm_Generation (sn_Desired canonical)) (cm_Generation (sn_Applied canonical))
    (foldl maximumConvergenceImpact (foldl maximumConvergenceImpact ConvergenceImpactNone (ch_Impact <$> changes)) (dr_Impact <$> drift))
    (Some changes) (Some drift).

(** The part of [Plan] after the observation. *)
Definition plan_from (canonical : ConvergenceSnapshot) (observed : slice OwnedResourceObservation) : result ConvergencePlan :=
  observed ← canonicalObservations observed;
  changes ← desiredChanges canonical;
  let drift := ownedDrift (items (cm_Resources (sn_Applied canonical))) observed in
  let plan := plan_of canonical changes drift in
  or_plan_invalid (pl_Validate plan);;
  Ok plan.

Section planner.
Context {W : Type} `{!ConvergenceHost W}.

Definition Plan : proc W convergence_event (result ConvergencePlan) :=
  cancelled ← call ctx_Err (λ _, []);
  match cancelled with
  | Some e => mret (Err e)
  | None =>
      snapshot ← call ReadConvergenceSnapshot (λ res, [SnapshotRead res]);
      match snapshot with
      | Err e => mret (Err (Wrapped "read convergence snapshot" e))
      | Ok snapshot =>
          match canonicalSnapshot snapshot with
          | Err e => mret (Err e)
          | Ok canonical =>
              observed ← call (DiscoverOwnedResources (sn_Applied canonical)) (λ res, [Discovered (sn_Applied canonical) res]);
              match observed with
              | Err e => mret (Err (Wrapped "discover vpnctl-owned resources" e))
              | Ok observed =>
                  cancelled ← call ctx_Err (λ _, []);
                  match cancelled with
                  | Some e => mret (Err e)
                  | None => mret (plan_from canonical observed)
                  end
              end
          end
      end
  end.
End planner.
