(* ===== verification/ConvergenceFacts.v ===== *)
(** * Convergence planning: facts and theorems

    Resource keys that pass validation are told apart by [resourceOrder]; the planner
    succeeds exactly on snapshots in which every difference is owed to one pending
    operation, and its result states the differences and nothing else. *)

From S2P Require Import Prelude GoTime Proc GoText GoNet Types Checks Ordered Resources LocalTx Convergence.

Local Open Scope string_scope.
Local Open Scope list_scope.

(** ** Texts without a separator *)

Lemma Cut_app s t sep : str_forall (λ c, negb (Ascii.eqb c sep)) s = true → Cut (s +:+ String sep t) sep = Some (s, t).
Proof.
  induction s as [|c s IH]; intros H.
  - rewrite str_app_nil_l. cbn. by rewrite Ascii.eqb_refl.
  - rewrite str_app_cons. cbn in *. apply andb_true_iff in H as [Hc H]. apply negb_true_iff in Hc.
    rewrite Hc IH //.
Qed.

Definition nul : ascii := byte 0.
Definition no_nul (c : ascii) : bool := negb (Ascii.eqb c nul).

Lemma class_no_nul f : f nul = false → ∀ c, f c = true → no_nul c = true.
Proof. intros Hf c Hc. apply negb_true_iff, Ascii.eqb_neq. congruence. Qed.

Lemma component_no_nul s : matches resourceComponentPattern s = true → str_forall no_nul s = true.
Proof. apply matches_chars. cbn -[no_nul]. split_and!; by apply class_no_nul. Qed.

Lemma key_validate_ok key u : key_validate key = Ok u →
  matches resourceComponentPattern (key_Component key) = true ∧
  (∀ raw, key_Kind key ≠ ManagedResourceUnsupported raw) ∧ key_ID key ≠ "".
Proof.
  unfold key_validate. intros H. ok_inv H. bool_facts. split_and!; [done|by destruct (key_Kind key)|].
  by apply String.eqb_neq.
Qed.

(** The order of resources determines the resource. *)
Lemma resourceOrder_inj k1 k2 : key_validate k1 = Ok () → key_validate k2 = Ok () → resourceOrder k1 = resourceOrder k2 → k1 = k2.
Proof.
  intros (Hc1 & Hk1 & _)%key_validate_ok (Hc2 & Hk2 & _)%key_validate_ok.
  destruct k1 as [c1 kind1 id1], k2 as [c2 kind2 id2]. cbn in *. unfold resourceOrder. cbn [key_Component key_Kind key_ID].
  change (bytes [0%N]) with (String nul ""). rewrite !str_app_cons !str_app_nil_l. intros Heq.
  assert (Hkind : ∀ kind, (∀ raw, kind ≠ ManagedResourceUnsupported raw) → str_forall no_nul (ManagedResourceKind_string kind) = true).
  { intros [| | | |raw] Hk; try reflexivity. by destruct (Hk raw). }
  assert (Heq' := f_equal (λ s, Cut s nul) Heq). cbn beta in Heq'.
  rewrite !Cut_app in Heq'; [by apply component_no_nul|by apply component_no_nul|].
  injection Heq' as <- Heq2. assert (Heq2' := f_equal (λ s, Cut s nul) Heq2). cbn beta in Heq2'.
  rewrite !Cut_app in Heq2'; [by apply Hkind|by apply Hkind|].
  injection Heq2' as Hks <-. f_equal.
  destruct kind1 as [| | | |r1], kind2 as [| | | |r2]; try done; try (by destruct (Hk1 r1)); by destruct (Hk2 r2).
Qed.

(** ** Canonical input *)

Abbreviation mr_order := (λ r, resourceOrder (mr_Key r)).
Abbreviation ob_order := (λ o, resourceOrder (ob_Key o)).

Lemma or_plan_invalid_ok {A} (m : result A) a : or_plan_invalid m = Ok a ↔ m = Ok a.
Proof. destruct m; cbn; naive_solver. Qed.

Lemma range_check_forall {A} (body : nat → A → result unit) (P : A → Prop) (Hb : ∀ i x, body i x = Ok () ↔ P x) xs u :
  range_check body xs = Ok u ↔ ∀ x, x ∈ xs → P x.
Proof.
  rewrite range_check_ok. split.
  - intros H x [i Hi]%list_elem_of_lookup. by apply (Hb i), H.
  - intros H i x Hi. apply Hb, H. by eapply list_elem_of_lookup_2.
Qed.

Lemma canonicalResources_ok rs l : canonicalResources rs = Ok l ↔
  rs ≠ None ∧ (∀ r, r ∈ items rs → mr_validate r = Ok ()) ∧ NoDup (mr_order <$> items rs) ∧ l = sort_by mr_order (items rs).
Proof.
  unfold canonicalResources. split.
  - intros H. ok_inv H. units. rewrite (range_check_forall _ _ (λ _ r, or_plan_invalid_ok (mr_validate r) ())) in G0.
    apply sorted_unique_ok in G1. injection H as <-. split_and!; [by destruct rs|done|done|done].
  - intros (Hn & Hv & Hd & ->). destruct rs as [rs|]; [|done]. cbn [is_nil reject]. cbn [items default] in *.
    apply bind_ok. exists (). split; [done|]. apply bind_ok. exists (). split.
    { by apply (range_check_forall _ _ (λ _ r, or_plan_invalid_ok (mr_validate r) ())). }
    cbv zeta. apply bind_ok. exists (). split; [by apply sorted_unique_ok|done].
Qed.

Definition ob_valid (o : OwnedResourceObservation) : Prop :=
  key_validate (ob_Key o) = Ok () ∧ operations_validateFingerprint (ob_RuntimeSHA256 o) = Ok () ∧
  validConvergenceImpact (ob_RemoveImpact o) = true.

Lemma canonicalObservations_ok os l : canonicalObservations os = Ok l ↔
  os ≠ None ∧ (∀ o, o ∈ items os → ob_valid o) ∧ NoDup (ob_order <$> items os) ∧ l = sort_by ob_order (items os).
Proof.
  set (body := λ (_ : nat) observation,
    or_plan_invalid (key_validate (ob_Key observation));;
    or_plan_invalid (operations_validateFingerprint (ob_RuntimeSHA256 observation));;
    reject (negb (validConvergenceImpact (ob_RemoveImpact observation))) plan_invalid).
  assert (Hbody : ∀ i o, body i o = Ok () ↔ ob_valid o).
  { intros i o. unfold body, ob_valid. split.
    - intros H. ok_inv H. units. rewrite or_plan_invalid_ok in G. rewrite or_plan_invalid_ok in G0. apply negb_false_iff in H. done.
    - intros (-> & -> & ->). done. }
  unfold canonicalObservations. fold body. split.
  - intros H. ok_inv H. units. rewrite (range_check_forall _ _ Hbody) in G0.
    apply sorted_unique_ok in G1. injection H as <-. split_and!; [by destruct os|done|done|done].
  - intros (Hn & Hv & Hd & ->). destruct os as [os|]; [|done]. cbn [is_nil reject]. cbn [items default] in *.
    apply bind_ok. exists (). split; [done|]. apply bind_ok. exists (). split; [by apply (range_check_forall _ _ Hbody)|].
    cbv zeta. apply bind_ok. exists (). split; [by apply sorted_unique_ok|done].
Qed.

(** A manifest is accepted when its resources are, and becomes its sorted form. *)
Definition manifest_ok (m : ConvergenceManifest) : Prop :=
  cm_SchemaVersion m = ConvergenceManifestSchemaVersion ∧ cm_Generation m ≠ 0%N ∧ cm_Resources m ≠ None ∧
  (∀ r, r ∈ items (cm_Resources m) → mr_validate r = Ok ()) ∧ NoDup (mr_order <$> items (cm_Resources m)).

Definition sorted_manifest (m : ConvergenceManifest) : ConvergenceManifest :=
  MkConvergenceManifest ConvergenceManifestSchemaVersion (cm_Generation m) (Some (sort_by mr_order (items (cm_Resources m)))).

Lemma NewConvergenceManifest_ok generation rs m : NewConvergenceManifest generation rs = Ok m ↔
  manifest_ok (MkConvergenceManifest ConvergenceManifestSchemaVersion generation rs) ∧
  m = sorted_manifest (MkConvergenceManifest ConvergenceManifestSchemaVersion generation rs).
Proof.
  unfold NewConvergenceManifest, manifest_ok, sorted_manifest. cbn [cm_SchemaVersion cm_Generation cm_Resources]. split.
  - intros H. ok_inv H. units. apply canonicalResources_ok in G as (Hn & Hv & Hd & ->). injection H as <-.
    unfold cm_Validate in G0. ok_inv G0. bool_facts. done.
  - intros ((_ & Hg & Hn & Hv & Hd) & ->). apply bind_ok. exists (sort_by mr_order (items rs)). split; [by apply canonicalResources_ok|].
    cbv zeta. apply bind_ok. exists (). split; [|done]. unfold cm_Validate. cbn [cm_SchemaVersion cm_Generation cm_Resources is_nil].
    rewrite Z.eqb_refl (proj2 (N.eqb_neq _ _) Hg). cbn [negb reject]. apply bind_ok. exists (). split; [done|].
    apply bind_ok. exists (). split; [done|]. apply bind_ok. exists (). split; [done|].
    apply bind_ok. exists (sort_by mr_order (items rs)). split; [|done]. apply canonicalResources_ok. cbn [items default].
    split_and!; [done| | |].
    + intros r. rewrite elem_of_sort_by. apply Hv.
    + by rewrite sort_by_perm.
    + symmetry. apply sort_by_fixed. by apply sort_by_lt.
Qed.

Lemma canonical_manifest_ok m c : canonical_manifest m = Ok c ↔ manifest_ok m ∧ c = sorted_manifest m.
Proof.
  unfold canonical_manifest. rewrite bind_ok. split.
  - intros (c' & H1 & H). rewrite or_plan_invalid_ok NewConvergenceManifest_ok in H1. destruct H1 as [(_ & Hm) ->]. ok_inv H. bool_facts.
    injection H as <-. done.
  - intros [Hm ->]. assert (Hs := Hm). destruct Hs as [Hs Hm']. exists (sorted_manifest m). split.
    + apply or_plan_invalid_ok, NewConvergenceManifest_ok. done.
    + rewrite Hs Z.eqb_refl. done.
Qed.

Definition po_ok (applied desired : N) (o : PendingOperation) : Prop := po_validate o applied desired = Ok ().

(** What a snapshot must satisfy before it is compared. *)
Definition snapshot_ok (s : ConvergenceSnapshot) : Prop :=
  manifest_ok (sn_Desired s) ∧ manifest_ok (sn_Applied s) ∧
  (cm_Generation (sn_Applied s) ≤ cm_Generation (sn_Desired s))%N ∧ sn_Pending s ≠ None ∧
  (∀ o, o ∈ items (sn_Pending s) → po_ok (cm_Generation (sn_Applied s)) (cm_Generation (sn_Desired s)) o) ∧
  NoDup (po_ID <$> items (sn_Pending s)).

Definition sorted_snapshot (s : ConvergenceSnapshot) : ConvergenceSnapshot :=
  MkConvergenceSnapshot (sorted_manifest (sn_Desired s)) (sorted_manifest (sn_Applied s))
    (Some (sort_by po_ID (sorted_operation <$> items (sn_Pending s)))).

Lemma sorted_operation_ids (l : list PendingOperation) : po_ID <$> (sorted_operation <$> l) = po_ID <$> l.
Proof. rewrite -list_fmap_compose. by apply list_fmap_ext. Qed.

Lemma canonicalSnapshot_ok s c : canonicalSnapshot s = Ok c ↔ snapshot_ok s ∧ c = sorted_snapshot s.
Proof.
  unfold canonicalSnapshot, snapshot_ok.
  set (body := λ applied desired (_ : nat) operation, or_plan_invalid (po_validate operation applied desired)).
  assert (Hbody : ∀ a d i o, body a d i o = Ok () ↔ po_ok a d o) by (intros; apply or_plan_invalid_ok).
  split.
  - intros H. ok_step H. ok_step H. rewrite canonical_manifest_ok in G. rewrite canonical_manifest_ok in G0.
    destruct G as [Hd ->], G0 as [Ha ->]. cbn [sorted_manifest cm_Generation] in H. ok_inv H. units. injection H as <-.
    rewrite (range_check_forall _ _ (Hbody _ _)) in G1. rewrite sorted_unique_ok sorted_operation_ids in G2. bool_facts.
    split; [|done]. split_and!; [done|done|lia|by destruct (sn_Pending s)|done|done].
  - intros ((Hd & Ha & Hg & Hn & Hp & Hi) & ->). apply bind_ok. eexists. split; [by apply canonical_manifest_ok|].
    apply bind_ok. eexists. split; [by apply canonical_manifest_ok|]. cbn [sorted_manifest cm_Generation].
    apply bind_ok. exists (). split; [by apply reject_ok, N.ltb_ge|]. apply bind_ok. exists (). split.
    { apply reject_ok. by destruct (sn_Pending s). }
    apply bind_ok. exists (). split; [by apply (range_check_forall _ _ (Hbody _ _))|]. cbv zeta.
    apply bind_ok. exists (). split; [|done]. apply sorted_unique_ok. by rewrite sorted_operation_ids.
Qed.

Lemma distinct_keys_ok rs s :
  range (λ _ resource seen,
    wrap "resource" (key_validate resource);;
    check_unique (resourceOrder resource) (Message "resource is duplicated") seen) rs ∅ = Ok s ↔
  (∀ r, r ∈ rs → key_validate r = Ok ()) ∧ NoDup (resourceOrder <$> rs) ∧ s = list_to_set (resourceOrder <$> rs).
Proof.
  rewrite (range_unique_ok _ (λ _ r, key_validate r = Ok ()) resourceOrder).
  - intros i r t t' _. rewrite bind_ok. split.
    + intros ([] & Hw & Hc). apply wrap_ok in Hw. apply check_unique_ok in Hc. naive_solver.
    + intros (Hw & Hc). exists (). rewrite wrap_ok check_unique_ok. naive_solver.
  - split; intros (Hv & ? & ?); split_and!; try done.
    + intros r [i Hi]%list_elem_of_lookup. by eapply Hv.
    + intros i r Hi. apply Hv. by eapply list_elem_of_lookup_2.
Qed.

(** What validation of an operation leaves for the planner. *)
Lemma po_ok_inv a d o : po_ok a d o →
  validateOperationID (po_ID o) = Ok () ∧ matches operationTypePattern (po_Type o) = true ∧
  validateOperationTarget (po_TargetKind o) (po_TargetID o) = Ok () ∧
  (a ≤ po_ExpectedGeneration o < po_DesiredGeneration o ∧ po_DesiredGeneration o ≤ d)%N ∧
  items (po_Resources o) ≠ [] ∧ (∀ r, r ∈ items (po_Resources o) → key_validate r = Ok ()) ∧
  NoDup (resourceOrder <$> items (po_Resources o)).
Proof.
  unfold po_ok, po_validate. intros H. do 5 ok_step H. apply bind_ok in H as (seen & Hr & _). units.
  assert (Hne : items (po_Resources o) ≠ []) by (intros Heq; by rewrite Heq orb_true_r in G3). bool_facts.
  rewrite distinct_keys_ok in Hr. destruct Hr as (Hv & Hd & _). by split_and!; try lia.
Qed.

(** ** Differences and their bindings *)

Section binding.
Context (desired applied : gmap string ManagedResource).

Definition differs (key : string) : Prop :=
  (is_Some (desired !! key) ∨ is_Some (applied !! key)) ∧ difference_at desired applied key ≠ None.

Lemma find_differences_lookup keys k :
  find_differences desired applied keys !! k = if decide (k ∈ keys) then difference_at desired applied k else None.
Proof.
  unfold find_differences. induction keys as [|x keys IH] using rev_ind; [done|]. rewrite foldl_app. cbn.
  destruct (difference_at desired applied x) as [kind|] eqn:Hx.
  - destruct (decide (x = k)) as [->|Hne].
    + rewrite lookup_insert_eq decide_True; [set_solver|done].
    + rewrite lookup_insert_ne // IH. destruct (decide (k ∈ keys)), (decide (k ∈ keys ++ [x])); set_solver.
  - rewrite IH. destruct (decide (k ∈ keys)) as [Hk|Hk], (decide (k ∈ keys ++ [x])) as [Hk'|Hk']; [done|set_solver| |done].
    assert (k = x) as -> by set_solver. done.
Qed.

Lemma differences_some k :
  is_Some (find_differences desired applied (unionResourceKeys desired applied) !! k) ↔ differs k.
Proof.
  rewrite find_differences_lookup. unfold differs, unionResourceKeys. destruct (decide _) as [Hk|Hk].
  - rewrite elem_of_union_keys in Hk. rewrite -not_eq_None_Some. tauto.
  - rewrite elem_of_union_keys in Hk. split; [by intros []|tauto].
Qed.
End binding.

Definition po_orders (o : PendingOperation) : list string := resourceOrder <$> items (po_Resources o).
Definition bind_all (b : gmap string PendingOperation) (o : PendingOperation) : gmap string PendingOperation :=
  foldl (λ b r, <[resourceOrder r := o]> b) b (items (po_Resources o)).

Lemma bind_all_lookup b o k : bind_all b o !! k = if decide (k ∈ po_orders o) then Some o else b !! k.
Proof.
  unfold bind_all, po_orders. induction (items (po_Resources o)) as [|r rs IH] using rev_ind; [done|].
  rewrite foldl_app fmap_app. cbn. destruct (decide (resourceOrder r = k)) as [<-|Hne].
  - rewrite lookup_insert_eq decide_True; [set_solver|done].
  - rewrite lookup_insert_ne // IH. destruct (decide (k ∈ _)), (decide (k ∈ _)); set_solver.
Qed.

Section bindings.
Context (differences : gmap string DesiredChangeKind).

Lemma bind_resources_ok o i rs b f s :
  range_loop (bind_resource differences o) i rs (b, f) = Ok s ↔
  (∀ r, r ∈ rs → is_Some (differences !! resourceOrder r) ∧ b !! resourceOrder r = None) ∧
  NoDup (resourceOrder <$> rs) ∧ s = (foldl (λ b r, <[resourceOrder r := o]> b) b rs, f || negb (length rs =? 0)%nat).
Proof.
  revert i b f. induction rs as [|r rs IH]; intros i b f; cbn [range_loop foldl length fmap list_fmap].
  - rewrite orb_false_r. split; [intros [= <-]|intros (_ & _ & ->); done]. split_and!; [set_solver|constructor|done].
  - rewrite bind_ok. cbn [Nat.eqb negb]. rewrite orb_true_r. unfold bind_resource at 1. cbv zeta. cbn [fst].
    destruct (differences !! resourceOrder r) as [kind|] eqn:Hd.
    2: { split; [by intros (? & ? & ?)|]. intros (H & _). destruct (H r) as [[? ?] _]; [left|congruence]. }
    destruct (b !! resourceOrder r) as [prior|] eqn:Hb.
    { split; [by intros (? & ? & ?)|]. intros (H & _). destruct (H r) as [_ ?]; [left|congruence]. }
    rewrite NoDup_cons. split.
    + intros (s' & [= <-] & Hs). apply IH in Hs as (Hr & Hn & ->). cbn [orb]. split_and!; [| |done|done].
      * intros x [->|Hx]%elem_of_cons; [naive_solver|]. destruct (Hr x Hx) as [Hsome Hnone]. split; [done|].
        by apply lookup_insert_None in Hnone as [? _].
      * intros (x & Heq & Hx)%list_elem_of_fmap. destruct (Hr x Hx) as [_ Hnone].
        apply lookup_insert_None in Hnone as [_ Hne]. done.
    + intros (Hr & [Hni Hn] & ->). eexists. split; [done|]. apply IH. split_and!; [|done|done].
      intros x Hx. destruct (Hr x) as [? ?]; [by right|]. split; [done|]. apply lookup_insert_None. split; [done|].
      intros Heq. apply Hni. apply list_elem_of_fmap. eauto.
Qed.

Lemma bind_operations_ok i ops b b' :
  range_loop (bind_operation differences) i ops b = Ok b' ↔
  (∀ o, o ∈ ops → po_orders o ≠ [] ∧ ∀ k, k ∈ po_orders o → is_Some (differences !! k) ∧ b !! k = None) ∧
  NoDup (ops ≫= po_orders) ∧ b' = foldl bind_all b ops.
Proof.
  revert i b. induction ops as [|o ops IH]; intros i b; cbn [range_loop foldl].
  { split; [intros [= <-]|intros (_ & _ & ->); done]. split_and!; [set_solver|constructor|done]. }
  assert (Hnil : (length (items (po_Resources o)) =? 0)%nat = false ↔ po_orders o ≠ []).
  { rewrite Nat.eqb_neq. unfold po_orders. by destruct (items (po_Resources o)). }
  assert (Hone : ∀ b1, bind_operation differences i o b = Ok b1 ↔
    po_orders o ≠ [] ∧ (∀ k, k ∈ po_orders o → is_Some (differences !! k) ∧ b !! k = None) ∧ NoDup (po_orders o) ∧ b1 = bind_all b o).
  { intros b1. unfold bind_operation, range. rewrite bind_ok. split.
    - intros (s & Hs & H). apply bind_resources_ok in Hs as (Hr & Hn & ->). ok_inv H. cbn [snd fst orb] in *.
      bool_facts. apply Hnil in G. injection H as <-. split_and!; [done| |done|done].
      intros k (r & -> & Hk)%list_elem_of_fmap. by apply Hr.
    - intros (Hne & Hr & Hn & ->). eexists. split.
      + apply bind_resources_ok. split_and!; [|done|done]. intros r Hk. apply Hr, list_elem_of_fmap. eauto.
      + cbn [snd fst orb]. apply Hnil in Hne. rewrite Hne. done. }
  assert (Hlook : ∀ k, bind_all b o !! k = None ↔ (k ∉ po_orders o) ∧ b !! k = None).
  { intros k. rewrite bind_all_lookup. destruct (decide (k ∈ po_orders o)); naive_solver. }
  rewrite bind_ok bind_cons NoDup_app. split.
  - intros (b1 & Hb1 & Hs). apply Hone in Hb1 as (Hne & Hr & Hn & ->). apply IH in Hs as (Hr' & Hn' & ->).
    split_and!; [| | |done|done].
    + intros x [->|Hx]%elem_of_cons; [done|]. destruct (Hr' x Hx) as [Hxe Hxk]. split; [done|].
      intros k Hk. destruct (Hxk k Hk) as [? [_ ?]%Hlook]. done.
    + done.
    + intros k Hk (x & Hx & Hxo)%list_elem_of_bind. destruct (Hr' x Hxo) as [_ Hxk]. by destruct (Hxk k Hx) as [_ [? _]%Hlook].
  - intros (Hr & (Hn & Hdis & Hn') & ->). eexists. split; [apply Hone; split_and!; try done; apply Hr; left|].
    apply IH. split_and!; [|done|done]. intros x Hx. destruct (Hr x) as [Hxe Hxk]; [by right|]. split; [done|].
    intros k Hk. destruct (Hxk k Hk) as [? ?]. split; [done|]. apply Hlook. split; [|done].
    intros Hk'. apply (Hdis k Hk'). apply list_elem_of_bind. eauto.
Qed.

(** The operation a resource is bound to. *)
Lemma bindings_lookup ops k o : NoDup (ops ≫= po_orders) →
  foldl bind_all ∅ ops !! k = Some o ↔ o ∈ ops ∧ k ∈ po_orders o.
Proof.
  induction ops as [|x ops IH] using rev_ind; intros Hn; [rewrite lookup_empty; set_solver|].
  rewrite bind_app NoDup_app in Hn. destruct Hn as (Hn & Hdis & Hx). rewrite foldl_app. cbn [foldl].
  rewrite bind_all_lookup. destruct (decide (k ∈ po_orders x)) as [Hk|Hk].
  - split; [intros [= <-]; set_solver|]. intros [[Ho|Ho]%elem_of_app Hko]; [|set_solver].
    destruct (Hdis k); [apply list_elem_of_bind; eauto|]. apply list_elem_of_bind. set_solver.
  - rewrite IH //. set_solver.
Qed.
End bindings.

Section collecting.
Context (desired applied : gmap string ManagedResource).

(** Every difference is owed to exactly one operation, and an operation owes only
    differences, at least one. *)
Definition differences_bound (ops : list PendingOperation) : Prop :=
  (∀ o, o ∈ ops → po_orders o ≠ [] ∧ ∀ k, k ∈ po_orders o → differs desired applied k) ∧
  NoDup (ops ≫= po_orders) ∧
  (∀ k, differs desired applied k → ∃ o, o ∈ ops ∧ k ∈ po_orders o).

Definition bound_change (ops : list PendingOperation) (k : string) : option DesiredChange :=
  kind ← find_differences desired applied (unionResourceKeys desired applied) !! k;
  o ← foldl bind_all ∅ ops !! k;
  Some (change_at desired applied o kind k).

Lemma collect_ok ops i keys acc l :
  (∀ k, k ∈ keys → k ∈ unionResourceKeys desired applied) →
  let differences := find_differences desired applied (unionResourceKeys desired applied) in
  range_loop (collect_change desired applied differences (foldl bind_all ∅ ops)) i keys acc = Ok l ↔
  (∀ k, k ∈ keys → is_Some (differences !! k) → is_Some (foldl bind_all ∅ ops !! k)) ∧
  l = acc ++ omap (bound_change ops) keys.
Proof.
  intros Hkeys differences. revert i acc. induction keys as [|k keys IH]; intros i acc; cbn [range_loop].
  { cbn. rewrite app_nil_r. split; [intros [= <-]; split; [set_solver|done]|]. by intros [_ ->]. }
  specialize (IH ltac:(set_solver)). rewrite bind_ok. unfold collect_change at 1.
  cbn [omap list_omap]. unfold bound_change at 1. fold differences.
  destruct (differences !! k) as [kind|] eqn:Hd; cbn [mbind option_bind].
  2: { split.
    - intros (s & [= <-] & Hs). apply IH in Hs as [Hb ->]. split; [|done].
      intros x [->|Hx]%elem_of_cons; [by rewrite Hd; intros []|]. by apply Hb.
    - intros [Hb ->]. exists acc. split; [done|]. apply IH. split; [|done]. set_solver. }
  destruct (foldl bind_all ∅ ops !! k) as [o|] eqn:Hb; cbn [mbind option_bind].
  2: { split; [by intros (? & ? & ?)|]. intros [H _]. destruct (H k) as [? ?]; [left|by rewrite Hd|congruence]. }
  assert (Hcons : (bool_decide (applied !! k = None) && negb (bool_decide (kind = DesiredCreate)))
    || (bool_decide (desired !! k = None) && negb (bool_decide (kind = DesiredDelete))) = false).
  { unfold differences in Hd. rewrite find_differences_lookup in Hd. destruct (decide _) as [Hk|]; [|done].
    unfold unionResourceKeys in Hk. rewrite elem_of_union_keys in Hk. unfold difference_at in Hd.
    destruct (applied !! k), (desired !! k); [| | |by destruct Hk as [[]|[]]]; repeat case_match; simplify_eq; reflexivity. }
  rewrite Hcons. split.
  - intros (s & Hs' & Hs). cbn in Hs'. injection Hs' as <-. apply IH in Hs as [Hbs ->]. split; [|by rewrite -app_assoc].
    intros x [->|Hx]%elem_of_cons; [by rewrite Hb|by apply Hbs].
  - intros [Hbs ->]. eexists. split; [done|]. apply IH. split; [set_solver|by rewrite -app_assoc].
Qed.
End collecting.

Abbreviation desired_of s := (resourcesByKey (items (cm_Resources (sn_Desired s)))).
Abbreviation applied_of s := (resourcesByKey (items (cm_Resources (sn_Applied s)))).

Lemma desiredChanges_ok s l : desiredChanges s = Ok l ↔
  differences_bound (desired_of s) (applied_of s) (items (sn_Pending s)) ∧
  l = omap (bound_change (desired_of s) (applied_of s) (items (sn_Pending s))) (unionResourceKeys (desired_of s) (applied_of s)).
Proof.
  unfold desiredChanges, range, differences_bound. cbv zeta. rewrite bind_ok.
  set (D := desired_of s). set (A := applied_of s). set (ops := items (sn_Pending s)). split.
  - intros (b & Hb & Hc). apply bind_operations_ok in Hb as (Ho & Hn & ->).
    apply collect_ok in Hc as [Hc ->]; [|done]. split; [|done]. split_and!; [|done|].
    + intros o Hin. destruct (Ho o Hin) as [? Hk]. split; [done|]. intros k Hko. by apply differences_some, Hk.
    + intros k Hk. assert (Hk' := Hk). apply differences_some in Hk'. destruct (Hc k) as [o Hbo]; [|done|].
      * unfold unionResourceKeys. rewrite elem_of_union_keys. apply Hk.
      * exists o. by apply bindings_lookup.
  - intros [(Ho & Hn & Hc) ->]. eexists. split.
    + apply bind_operations_ok. split_and!; [|done|done]. intros o Hin. destruct (Ho o Hin) as [? Hk]. split; [done|].
      intros k Hko. split; [by apply differences_some, Hk|done].
    + apply collect_ok; [done|]. split; [|done]. intros k _ Hk%differences_some. destruct (Hc k Hk) as (o & Hin & Hko).
      exists o. by apply bindings_lookup.
Qed.

(** ** Ascending results and the aggregate impact *)

Lemma last_default {A} (l : list A) x p : List.last (x :: l) p = List.last l x.
Proof.
  revert x p. induction l as [|y l IH]; intros x p; [done|].
  change (List.last (x :: y :: l) p) with (List.last (y :: l) p). rewrite (IH y p). by rewrite -(IH y x).
Qed.

Lemma ascending_tail {A} (resource : A → ManagedResourceKey) impact check i xs p imp s :
  range_loop (ascending_impact resource impact check) (S i) xs (p, imp) = Ok s ↔
  (∀ x, x ∈ xs → check x = Ok ()) ∧ StronglySorted str_lt (p :: ((λ x, resourceOrder (resource x)) <$> xs)) ∧
  s.2 = foldl maximumConvergenceImpact imp (impact <$> xs) ∧ s.1 = List.last ((λ x, resourceOrder (resource x)) <$> xs) p.
Proof.
  revert i p imp. induction xs as [|x xs IH]; intros i p imp; cbn [range_loop fmap list_fmap foldl].
  { destruct s as [s1 s2]. cbn. split; [intros [= <- <-]|by intros (_ & _ & -> & ->)]. split_and!; [set_solver|repeat constructor|done|done]. }
  rewrite bind_ok. set (o := resourceOrder (resource x)).
  assert (Hbody : ∀ t, ascending_impact resource impact check (S i) x (p, imp) = Ok t ↔
    check x = Ok () ∧ str_lt p o ∧ t = (o, maximumConvergenceImpact imp (impact x))).
  { intros t. unfold ascending_impact. cbn [fst snd Nat.ltb Nat.leb andb]. fold o. split.
    - intros H. ok_inv H. units. injection H as <-. by apply str_leb_false in G0.
    - intros (-> & Ho & ->). cbn. apply str_leb_false in Ho. by rewrite Ho. }
  assert (Hss : ∀ l, StronglySorted str_lt (p :: o :: l) ↔ str_lt p o ∧ StronglySorted str_lt (o :: l)).
  { intros l. split; [intros [? Hf]%StronglySorted_inv; by apply Forall_cons in Hf as [? _]|].
    intros [Hp Hs]. constructor; [done|]. constructor; [done|]. apply StronglySorted_inv in Hs as [_ Hs].
    eapply Forall_impl; [exact Hs|]. intros z Hz. cbn. by etrans. }
  rewrite Hss last_default. split.
  - intros (t & Ht & Hr). apply Hbody in Ht as (Hc & Ho & ->). apply IH in Hr as (Hcs & Hs & Hi & Hl). split_and!; try done.
    intros y [->|Hy]%elem_of_cons; [done|by apply Hcs].
  - intros (Hc & [Ho Hs] & Hi & Hl). eexists. split; [apply Hbody; split_and!; [apply Hc; left|done|done]|].
    apply IH. split_and!; try done. set_solver.
Qed.

Lemma ascending_ok {A} (resource : A → ManagedResourceKey) impact check xs imp s :
  range (ascending_impact resource impact check) xs ("", imp) = Ok s →
  (∀ x, x ∈ xs → check x = Ok ()) ∧ StronglySorted str_lt ((λ x, resourceOrder (resource x)) <$> xs) ∧
  s.2 = foldl maximumConvergenceImpact imp (impact <$> xs).
Proof.
  destruct xs as [|x xs]; unfold range; cbn [range_loop].
  { intros [= <-]. split_and!; [set_solver|constructor|done]. }
  intros H. ok_step H. unfold ascending_impact in G. cbn [fst snd Nat.ltb Nat.leb andb] in G. ok_inv G. units. injection G as <-.
  apply ascending_tail in H as (Hc & Hs & Hi & _). split_and!; [|done|done]. intros y [->|Hy]%elem_of_cons; [done|by apply Hc].
Qed.

Lemma ascending_total {A} (resource : A → ManagedResourceKey) impact check xs imp :
  (∀ x, x ∈ xs → check x = Ok ()) → StronglySorted str_lt ((λ x, resourceOrder (resource x)) <$> xs) →
  ∃ s, range (ascending_impact resource impact check) xs ("", imp) = Ok s ∧ s.2 = foldl maximumConvergenceImpact imp (impact <$> xs).
Proof.
  intros Hc Hs. destruct xs as [|x xs]; unfold range; cbn [range_loop]; [by eexists|].
  exists (List.last ((λ x, resourceOrder (resource x)) <$> xs) (resourceOrder (resource x)), foldl maximumConvergenceImpact imp (impact <$> x :: xs)).
  split; [|done]. apply bind_ok. eexists. split.
  - unfold ascending_impact. rewrite Hc; [left|]. cbn. done.
  - apply ascending_tail. split_and!; [set_solver|done|done|done].
Qed.

Lemma maximum_valid l r : validConvergenceImpact l = true → validConvergenceImpact r = true →
  validConvergenceImpact (maximumConvergenceImpact l r) = true.
Proof. unfold maximumConvergenceImpact. by case_match. Qed.

Lemma foldl_maximum_valid (l : list ConvergenceImpact) i : validConvergenceImpact i = true →
  (∀ x, x ∈ l → validConvergenceImpact x = true) → validConvergenceImpact (foldl maximumConvergenceImpact i l) = true.
Proof.
  revert i. induction l as [|x l IH]; intros i Hi Hl; cbn; [done|]. apply IH; [|set_solver].
  apply maximum_valid; [done|]. apply Hl. left.
Qed.

Lemma foldl_maximum_bound (l : list ConvergenceImpact) i :
  (∀ x, x ∈ l → (convergenceImpactRank x ≤ convergenceImpactRank (foldl maximumConvergenceImpact i l))%Z) ∧
  (foldl maximumConvergenceImpact i l = i ∨ foldl maximumConvergenceImpact i l ∈ l).
Proof.
  induction l as [|x l [IHb IHm]] using rev_ind; [split; [set_solver|by left]|]. rewrite foldl_app. cbn.
  unfold maximumConvergenceImpact at 1 3 5. destruct (_ <? _)%Z eqn:Hlt; [apply Z.ltb_lt in Hlt|apply Z.ltb_ge in Hlt].
  - split; [|right; set_solver]. intros y [Hy|Hy]%elem_of_app; [specialize (IHb y Hy); lia|].
    apply list_elem_of_singleton in Hy as ->. lia.
  - split; [|set_solver]. intros y [Hy|Hy]%elem_of_app; [by apply IHb|]. by apply list_elem_of_singleton in Hy as ->.
Qed.

(** ** The results are well formed *)

Lemma mr_validate_inv r : mr_validate r = Ok () → key_validate (mr_Key r) = Ok () ∧
  fingerprint_ok (mr_RevisionSHA256 r) = true ∧ fingerprint_ok (mr_RuntimeSHA256 r) = true ∧
  validConvergenceImpact (mr_ApplyImpact r) = true ∧ validConvergenceImpact (mr_RemoveImpact r) = true.
Proof.
  unfold mr_validate, fingerprint_ok. intros H. ok_inv H. units. bool_facts. rewrite G0 G1. done.
Qed.

Lemma omap_ordered {A B} (f : A → option B) (g : B → A) (R : relation A) keys :
  (∀ k c, k ∈ keys → f k = Some c → g c = k) → StronglySorted R keys → StronglySorted R (g <$> omap f keys).
Proof.
  intros Hf Hs. induction Hs as [|k keys Hs IH Hk]; [constructor|]. cbn [omap list_omap].
  assert (IH' := IH ltac:(set_solver)). destruct (f k) as [c|] eqn:Hc; [|done]. cbn.
  constructor; [done|]. rewrite (Hf k c); [left|done|]. rewrite Forall_forall. intros x (c' & -> & Hc')%list_elem_of_fmap.
  apply list_elem_of_omap in Hc' as (k' & Hk' & Hfk). rewrite (Hf k' c'); [by right|done|]. rewrite Forall_forall in Hk. by apply Hk.
Qed.

(** An index of validated resources. *)
Definition resource_index (m : gmap string ManagedResource) : Prop :=
  ∀ k r, m !! k = Some r → resourceOrder (mr_Key r) = k ∧ mr_validate r = Ok ().

Lemma resource_index_of (l : list ManagedResource) : (∀ r, r ∈ l → mr_validate r = Ok ()) → resource_index (resourcesByKey l).
Proof. intros Hv k r [Hr Hk]%by_key_some. auto. Qed.

Definition observation_index (m : gmap string OwnedResourceObservation) : Prop :=
  ∀ k o, m !! k = Some o → resourceOrder (ob_Key o) = k ∧ ob_valid o.

Lemma observation_index_of l : (∀ o, o ∈ l → ob_valid o) → observation_index (observationsByKey l).
Proof. intros Hv k o [Ho Hk]%by_key_some. auto. Qed.

Section wellformed.
Context (D A : gmap string ManagedResource) (HD : resource_index D) (HA : resource_index A).

Lemma fingerprint_ne_empty s : fingerprint_ok s = true → s ≠ "".
Proof. by intros H ->. Qed.

(** The change of a key, by cases on what is there. *)
Lemma bound_change_inv ops k c : NoDup (ops ≫= po_orders) → k ∈ unionResourceKeys D A → bound_change D A ops k = Some c →
  ∃ o kind, o ∈ ops ∧ k ∈ po_orders o ∧ difference_at D A k = Some kind ∧ c = change_at D A o kind k.
Proof.
  intros Hn Hk. unfold bound_change. rewrite find_differences_lookup decide_True //.
  destruct (difference_at D A k) as [kind|]; [|done]. cbn. destruct (foldl bind_all ∅ ops !! k) as [o|] eqn:Hb; [|done]. cbn.
  intros [= <-]. apply bindings_lookup in Hb; [|done]. naive_solver.
Qed.

Lemma change_at_valid a d o k kind : a ≠ 0%N → po_ok a d o → k ∈ unionResourceKeys D A → difference_at D A k = Some kind →
  resourceOrder (ch_Resource (change_at D A o kind k)) = k ∧ ch_validate (change_at D A o kind k) = Ok () ∧
  validConvergenceImpact (ch_Impact (change_at D A o kind k)) = true ∧
  (a ≤ ch_OperationExpectedGeneration (change_at D A o kind k))%N ∧ (ch_OperationDesiredGeneration (change_at D A o kind k) ≤ d)%N.
Proof.
  intros Ha (Hid & Hty & Htg & (Hg1 & Hg2) & _)%po_ok_inv Hk Hdiff.
  unfold unionResourceKeys in Hk. rewrite elem_of_union_keys in Hk. unfold difference_at in Hdiff.
  assert (Hvalid : ∀ key impact from to, key_validate key = Ok () → validConvergenceImpact impact = true →
    ch_validate (MkDesiredChange (po_ID o) (po_Type o) (po_ExpectedGeneration o) (po_DesiredGeneration o) (po_TargetKind o) (po_TargetID o)
      key kind impact from to) = match kind with
      | DesiredCreate => reject (negb (String.eqb from "") || negb (fingerprint_ok to)) (Message "create hashes are invalid")
      | DesiredUpdate => reject (negb (fingerprint_ok from) || negb (fingerprint_ok to) || String.eqb from to) (Message "update hashes are invalid")
      | DesiredDelete => reject (negb (fingerprint_ok from) || negb (String.eqb to "")) (Message "delete hashes are invalid")
      | DesiredChangeUnsupported _ => Err (Message "change kind is unsupported") end).
  { intros key impact from to Hkey Himp. unfold ch_validate. cbn [ch_OperationID ch_OperationType ch_OperationExpectedGeneration
      ch_OperationDesiredGeneration ch_TargetKind ch_TargetID ch_Resource ch_Impact ch_FromSHA256 ch_ToSHA256 ch_Kind].
    rewrite Hid Hty Htg Hkey Himp. replace ((po_ExpectedGeneration o =? 0) || (po_DesiredGeneration o <=? po_ExpectedGeneration o))%N with false; [done|].
    symmetry. apply orb_false_iff. split; [apply N.eqb_neq|apply N.leb_gt]; lia. }
  destruct (A !! k) as [b|] eqn:Hb, (D !! k) as [r|] eqn:Hr; [| | |by destruct Hk as [[]|[]]].
  - destruct (HA k b Hb) as [Hbo (Hbk & Hbr & _)%mr_validate_inv]. destruct (HD k r Hr) as [Hro (Hrk & Hrr & _ & Hri & _)%mr_validate_inv].
    destruct (String.eqb (mr_RevisionSHA256 b) (mr_RevisionSHA256 r)) eqn:He; [done|]. injection Hdiff as <-.
    unfold change_at. rewrite ?Hb ?Hr. cbn [default from_option id]. split_and!; [done| |done|by cbn; lia|by cbn; lia]. rewrite Hvalid // Hbr Hrr He //.
  - destruct (HA k b Hb) as [Hbo (Hbk & Hbr & _ & _ & Hbi)%mr_validate_inv]. injection Hdiff as <-.
    unfold change_at. rewrite ?Hb ?Hr. cbn [default from_option id]. split_and!; [done| |done|by cbn; lia|by cbn; lia]. rewrite Hvalid // Hbr //.
  - destruct (HD k r Hr) as [Hro (Hrk & Hrr & _ & Hri & _)%mr_validate_inv]. injection Hdiff as <-.
    unfold change_at. rewrite ?Hb ?Hr. cbn [default from_option id]. split_and!; [done| |done|by cbn; lia|by cbn; lia]. rewrite Hvalid // Hrr //.
Qed.

Lemma drift_at_valid (O : gmap string OwnedResourceObservation) k x : observation_index O → k ∈ unionObservationKeys A O →
  drift_at A O k = Some x →
  resourceOrder (dr_Resource x) = k ∧ dr_validate x = Ok () ∧ validConvergenceImpact (dr_Impact x) = true.
Proof.
  intros HO Hk. unfold unionObservationKeys in Hk. rewrite elem_of_union_keys in Hk. unfold drift_at.
  destruct (A !! k) as [w|] eqn:Hw, (O !! k) as [g|] eqn:Hg; [| | |by destruct Hk as [[]|[]]].
  - destruct (HA k w Hw) as [Hwo (Hwk & _ & Hwr & Hwi & _)%mr_validate_inv]. destruct (HO k g Hg) as (Hgo & Hgk & Hgr & Hgi).
    destruct (String.eqb (mr_RuntimeSHA256 w) (ob_RuntimeSHA256 g)) eqn:He; [done|]. intros [= <-]. cbn [dr_Resource dr_Impact].
    split_and!; [done| |done]. unfold dr_validate. cbn [dr_Resource dr_Impact dr_ExpectedSHA256 dr_ActualSHA256 dr_Kind].
    rewrite Hwk Hwi Hwr He. unfold fingerprint_ok at 1. rewrite Hgr. done.
  - destruct (HA k w Hw) as [Hwo (Hwk & _ & Hwr & Hwi & _)%mr_validate_inv]. intros [= <-]. cbn [dr_Resource dr_Impact].
    split_and!; [done| |done]. unfold dr_validate. cbn [dr_Resource dr_Impact dr_ExpectedSHA256 dr_ActualSHA256 dr_Kind].
    rewrite Hwk Hwi Hwr. done.
  - destruct (HO k g Hg) as (Hgo & Hgk & Hgr & Hgi). intros [= <-]. cbn [dr_Resource dr_Impact].
    split_and!; [done| |done]. unfold dr_validate. cbn [dr_Resource dr_Impact dr_ExpectedSHA256 dr_ActualSHA256 dr_Kind].
    rewrite Hgk Hgi. unfold fingerprint_ok. rewrite Hgr. done.
Qed.
End wellformed.
