(* ===== verification/ConvergenceClaims.v ===== *)
(** * Convergence planning: the theorems

    The changes of a plan are the differences of the two manifests, each owed to the one
    pending operation that lists it; the drift is the difference between the applied
    manifest and the observations; the planner refuses exactly the inputs in which a
    difference is not accounted for, and does not depend on the order of its input. *)

From S2P Require Import Prelude GoTime Proc GoText GoNet Types Checks Ordered Resources LocalTx Convergence ConvergenceFacts.

Local Open Scope string_scope.
Local Open Scope list_scope.

(** ** What a plan is about *)

(** A change of revision between two lists of resources: the key, the kind of change,
    its impact and the two digests. *)
Inductive revision_change (desired applied : list ManagedResource)
    : ManagedResourceKey → DesiredChangeKind → ConvergenceImpact → string → string → Prop :=
  | revision_created r :
      r ∈ desired → (∀ x, x ∈ applied → mr_Key x ≠ mr_Key r) →
      revision_change desired applied (mr_Key r) DesiredCreate (mr_ApplyImpact r) "" (mr_RevisionSHA256 r)
  | revision_updated b r :
      b ∈ applied → r ∈ desired → mr_Key b = mr_Key r → mr_RevisionSHA256 b ≠ mr_RevisionSHA256 r →
      revision_change desired applied (mr_Key r) DesiredUpdate (mr_ApplyImpact r) (mr_RevisionSHA256 b) (mr_RevisionSHA256 r)
  | revision_deleted b :
      b ∈ applied → (∀ x, x ∈ desired → mr_Key x ≠ mr_Key b) →
      revision_change desired applied (mr_Key b) DesiredDelete (mr_RemoveImpact b) (mr_RevisionSHA256 b) "".

Definition change_of (o : PendingOperation) (key : ManagedResourceKey) (kind : DesiredChangeKind) (impact : ConvergenceImpact)
    (from to : string) : DesiredChange :=
  MkDesiredChange (po_ID o) (po_Type o) (po_ExpectedGeneration o) (po_DesiredGeneration o) (po_TargetKind o) (po_TargetID o)
    key kind impact from to.

(** A difference between the applied resources and the observed ones. *)
Inductive runtime_drift (applied : list ManagedResource) (observed : list OwnedResourceObservation) : OwnedDrift → Prop :=
  | drift_unexpected o :
      o ∈ observed → (∀ r, r ∈ applied → mr_Key r ≠ ob_Key o) →
      runtime_drift applied observed (MkOwnedDrift (ob_Key o) OwnedDriftUnexpected (ob_RemoveImpact o) "" (ob_RuntimeSHA256 o))
  | drift_missing r :
      r ∈ applied → (∀ o, o ∈ observed → ob_Key o ≠ mr_Key r) →
      runtime_drift applied observed (MkOwnedDrift (mr_Key r) OwnedDriftMissing (mr_ApplyImpact r) (mr_RuntimeSHA256 r) "")
  | drift_modified r o :
      r ∈ applied → o ∈ observed → ob_Key o = mr_Key r → mr_RuntimeSHA256 r ≠ ob_RuntimeSHA256 o →
      runtime_drift applied observed
        (MkOwnedDrift (mr_Key r) OwnedDriftModified (mr_ApplyImpact r) (mr_RuntimeSHA256 r) (ob_RuntimeSHA256 o)).

(** Lists of valid records with distinct keys. *)
Definition resources_ok (l : list ManagedResource) : Prop :=
  (∀ r, r ∈ l → mr_validate r = Ok ()) ∧ NoDup (mr_order <$> l).
Definition observations_ok (l : list OwnedResourceObservation) : Prop :=
  (∀ o, o ∈ l → ob_valid o) ∧ NoDup (ob_order <$> l).

Lemma resource_key_ok r : mr_validate r = Ok () → key_validate (mr_Key r) = Ok ().
Proof. by intros [? _]%mr_validate_inv. Qed.
#[export] Hint Resolve resource_key_ok : core.

Lemma resources_none l k : resources_ok l → key_validate k = Ok () →
  resourcesByKey l !! resourceOrder k = None ↔ ∀ x, x ∈ l → mr_Key x ≠ k.
Proof.
  intros [Hv _] Hk. unfold resourcesByKey. rewrite by_key_none. split.
  - intros H x Hx <-. by destruct (H x Hx).
  - intros H x Hx Heq. destruct (H x Hx). apply resourceOrder_inj; auto.
Qed.

Lemma resources_some l r : resources_ok l → r ∈ l → resourcesByKey l !! resourceOrder (mr_Key r) = Some r.
Proof. intros [_ Hn] Hr. unfold resourcesByKey. by apply by_key_lookup. Qed.

Lemma observations_none l k : observations_ok l → key_validate k = Ok () →
  observationsByKey l !! resourceOrder k = None ↔ ∀ x, x ∈ l → ob_Key x ≠ k.
Proof.
  intros [Hv _] Hk. unfold observationsByKey. rewrite by_key_none. split.
  - intros H x Hx <-. by destruct (H x Hx).
  - intros H x Hx Heq. destruct (H x Hx). apply resourceOrder_inj; [apply (Hv x Hx)|done|done].
Qed.

Lemma observations_some l o : observations_ok l → o ∈ l → observationsByKey l !! resourceOrder (ob_Key o) = Some o.
Proof. intros [_ Hn] Ho. unfold observationsByKey. by apply by_key_lookup. Qed.

Section difference.
Context (dl al : list ManagedResource) (Hdl : resources_ok dl) (Hal : resources_ok al).
Abbreviation D := (resourcesByKey dl).
Abbreviation A := (resourcesByKey al).

(** The difference at a key of the two indexes is a change of revision. *)
Lemma difference_revision o k kind : k ∈ unionResourceKeys D A → difference_at D A k = Some kind →
  ∃ key impact from to, resourceOrder key = k ∧ change_at D A o kind k = change_of o key kind impact from to ∧
    revision_change dl al key kind impact from to.
Proof.
  intros Hk. unfold unionResourceKeys in Hk. rewrite elem_of_union_keys in Hk. unfold difference_at, change_at.
  destruct Hdl as [Hdv Hdn], Hal as [Hav Han].
  destruct (A !! k) as [b|] eqn:Hb, (D !! k) as [r|] eqn:Hr; [| | |by destruct Hk as [[]|[]]].
  - destruct (String.eqb (mr_RevisionSHA256 b) (mr_RevisionSHA256 r)) eqn:He; [done|]. intros [= <-].
    apply by_key_some in Hb as [Hbl Hbk], Hr as [Hrl Hrk]. exists (mr_Key r). do 3 eexists. split_and!; [done|done|]. cbn.
    apply String.eqb_neq in He. constructor; [done|done| |done]. apply resourceOrder_inj; [auto|auto|congruence].
  - intros [= <-]. apply by_key_some in Hb as [Hbl Hbk]. exists (mr_Key b). do 3 eexists. split_and!; [done|done|]. cbn.
    constructor; [done|]. apply resources_none; [done|auto|]. by rewrite Hbk.
  - intros [= <-]. apply by_key_some in Hr as [Hrl Hrk]. exists (mr_Key r). do 3 eexists. split_and!; [done|done|]. cbn.
    constructor; [done|]. apply resources_none; [done|auto|]. by rewrite Hrk.
Qed.

Lemma revision_difference o key kind impact from to : revision_change dl al key kind impact from to →
  key_validate key = Ok () ∧ resourceOrder key ∈ unionResourceKeys D A ∧ difference_at D A (resourceOrder key) = Some kind ∧
  change_at D A o kind (resourceOrder key) = change_of o key kind impact from to.
Proof.
  unfold unionResourceKeys, difference_at, change_at. rewrite elem_of_union_keys.
  destruct Hdl as [Hdv Hdn], Hal as [Hav Han].
  intros [r Hr Hno|b r Hb Hr Heq Hne|b Hb Hno].
  - apply (resources_none al) in Hno; [|done|auto]. rewrite Hno (resources_some dl r) //. cbn. split_and!; [auto|by left|done|done].
  - assert (Hb' := resources_some al b Hal Hb). rewrite Heq in Hb'. rewrite Hb' (resources_some dl r) //. cbn.
    apply String.eqb_neq in Hne. rewrite Hne. split_and!; [auto|by left|done|done].
  - apply (resources_none dl) in Hno; [|done|auto]. rewrite Hno (resources_some al b) //. cbn. split_and!; [auto|by right|done|done].
Qed.

Lemma differs_revision key : key_validate key = Ok () →
  differs D A (resourceOrder key) ↔ ∃ kind impact from to, revision_change dl al key kind impact from to.
Proof.
  intros Hv. unfold differs. split.
  - intros [Hin Hd]. destruct (difference_at D A (resourceOrder key)) as [kind|] eqn:Hk; [|done].
    destruct (difference_revision (MkPendingOperation "" "" "" "" 0 0 None) (resourceOrder key) kind) as (key' & i & f & t & Ho & _ & Hr); [|done|].
    + unfold unionResourceKeys. by rewrite elem_of_union_keys.
    + assert (key' = key) as <-; [|eauto]. apply resourceOrder_inj; [|done|done].
      by apply (revision_difference (MkPendingOperation "" "" "" "" 0 0 None)) in Hr as [? _].
  - intros (kind & i & f & t & Hr). apply (revision_difference (MkPendingOperation "" "" "" "" 0 0 None)) in Hr as (_ & Hin & Hd & _).
    unfold unionResourceKeys in Hin. rewrite elem_of_union_keys in Hin. split; [done|]. by rewrite Hd.
Qed.
End difference.

Lemma ownedDrift_exact al os d : resources_ok al → observations_ok os → d ∈ ownedDrift al os ↔ runtime_drift al os d.
Proof.
  intros Hal Hos. unfold ownedDrift. cbv zeta. rewrite list_elem_of_omap. unfold unionObservationKeys. split.
  - intros (k & Hk & Hd). rewrite elem_of_union_keys in Hk. unfold drift_at in Hd. destruct Hal as [Hav Han] eqn:HeqA, Hos as [Hov Hon] eqn:HeqO.
    destruct (resourcesByKey al !! k) as [w|] eqn:Hw, (observationsByKey os !! k) as [g|] eqn:Hg; [| | |by destruct Hk as [[]|[]]].
    + destruct (String.eqb (mr_RuntimeSHA256 w) (ob_RuntimeSHA256 g)) eqn:He; [done|]. injection Hd as <-.
      apply by_key_some in Hw as [Hwl Hwk], Hg as [Hgl Hgk]. apply String.eqb_neq in He. constructor; [done|done| |done].
      apply resourceOrder_inj; [apply (Hov g Hgl)|auto|congruence].
    + injection Hd as <-. apply by_key_some in Hw as [Hwl Hwk]. constructor; [done|]. apply observations_none; [done|auto|by rewrite Hwk].
    + injection Hd as <-. apply by_key_some in Hg as [Hgl Hgk]. constructor; [done|]. apply resources_none; [done|apply (Hov g Hgl)|by rewrite Hgk].
  - intros Hr. exists (resourceOrder (dr_Resource d)). rewrite elem_of_union_keys. unfold drift_at.
    destruct Hr as [o Ho Hno|r Hr Hno|r o Hr Ho Heq Hne]; cbn [dr_Resource].
    + apply (resources_none al) in Hno; [|done|apply Hos, Ho]. rewrite Hno (observations_some os o) //. by split; [right|].
    + apply (observations_none os) in Hno; [|done|by apply resource_key_ok, Hal]. rewrite Hno (resources_some al r) //. by split; [left|].
    + assert (Ho' := observations_some os o Hos Ho). rewrite Heq in Ho'. rewrite Ho' (resources_some al r) //.
      apply String.eqb_neq in Hne. rewrite Hne. by split; [left|].
Qed.

(** ** The outcome of planning *)

(** [Plan] between the reads: a function of the snapshot and the observations. *)
Definition plan_result (s : ConvergenceSnapshot) (os : slice OwnedResourceObservation) : result ConvergencePlan :=
  c ← canonicalSnapshot s; plan_from c os.

Abbreviation desired_list s := (items (cm_Resources (sn_Desired s))).
Abbreviation applied_list s := (items (cm_Resources (sn_Applied s))).
Abbreviation pending_list s := (items (sn_Pending s)).

Lemma snapshot_resources s : snapshot_ok s → resources_ok (desired_list s) ∧ resources_ok (applied_list s).
Proof. intros ((_ & _ & _ & Hd) & (_ & _ & _ & Ha) & _). done. Qed.

Lemma sorted_index l : resources_ok l → resourcesByKey (sort_by mr_order l) = resourcesByKey l.
Proof. intros [_ Hn]. symmetry. apply by_key_perm; [done|]. by rewrite sort_by_perm. Qed.

Lemma sorted_observation_index l : observations_ok l → observationsByKey (sort_by ob_order l) = observationsByKey l.
Proof. intros [_ Hn]. symmetry. apply by_key_perm; [done|]. by rewrite sort_by_perm. Qed.

Lemma sorted_po_ok a d o : po_ok a d o → po_ok a d (sorted_operation o).
Proof.
  intros H. destruct (po_ok_inv _ _ _ H) as (_ & _ & _ & _ & Hne & Hv & Hn). revert H. unfold po_ok, po_validate.
  intros H. do 5 ok_step H. units. cbn [sorted_operation set_po_Resources po_ID po_Type po_TargetKind po_TargetID po_ExpectedGeneration
    po_DesiredGeneration po_Resources]. rewrite G G1 G0 G2. cbn [reject is_nil orb items default].
  assert (Hlen : (length (sort_by resourceOrder (items (po_Resources o))) =? 0)%nat = false).
  { rewrite sort_by_perm. apply Nat.eqb_neq. by destruct (items (po_Resources o)). }
  rewrite Hlen. cbn [reject]. do 5 (apply bind_ok; exists (); split; [done|]). apply bind_ok. eexists. split; [|done].
  apply distinct_keys_ok. split_and!; [|by rewrite sort_by_perm|done]. intros r Hr. by apply Hv, (elem_of_sort_by resourceOrder).
Qed.

Lemma sorted_pending_elem s o : o ∈ pending_list (sorted_snapshot s) ↔ ∃ o', o = sorted_operation o' ∧ o' ∈ pending_list s.
Proof. cbn. by rewrite elem_of_sort_by list_elem_of_fmap. Qed.

Lemma sorted_orders o : po_orders (sorted_operation o) ≡ₚ po_orders o.
Proof. unfold po_orders. cbn. by rewrite sort_by_perm. Qed.

(** ** Valid plans *)

Definition change_in (desired applied : N) (c : DesiredChange) : Prop :=
  ch_validate c = Ok () ∧ validConvergenceImpact (ch_Impact c) = true ∧
  (applied ≤ ch_OperationExpectedGeneration c)%N ∧ (ch_OperationDesiredGeneration c ≤ desired)%N.
Definition drift_in (d : OwnedDrift) : Prop := dr_validate d = Ok () ∧ validConvergenceImpact (dr_Impact d) = true.

Lemma ch_validate_impact c : ch_validate c = Ok () → validConvergenceImpact (ch_Impact c) = true.
Proof. unfold ch_validate. intros H. do 5 ok_step H. by apply negb_false_iff. Qed.
Lemma dr_validate_impact d : dr_validate d = Ok () → validConvergenceImpact (dr_Impact d) = true.
Proof. unfold dr_validate. intros H. do 2 ok_step H. by apply negb_false_iff. Qed.

(** The impact of a plan is the largest of its changes and drift. *)
Definition total_impact (changes : list DesiredChange) (drift : list OwnedDrift) : ConvergenceImpact :=
  foldl maximumConvergenceImpact (foldl maximumConvergenceImpact ConvergenceImpactNone (ch_Impact <$> changes)) (dr_Impact <$> drift).

Lemma total_impact_valid changes drift : (∀ c, c ∈ changes → validConvergenceImpact (ch_Impact c) = true) →
  (∀ d, d ∈ drift → validConvergenceImpact (dr_Impact d) = true) → validConvergenceImpact (total_impact changes drift) = true.
Proof.
  intros Hc Hd. apply foldl_maximum_valid; [apply foldl_maximum_valid; [done|]|].
  - intros i (c & -> & Hin)%list_elem_of_fmap. auto.
  - intros i (d & -> & Hin)%list_elem_of_fmap. auto.
Qed.

Lemma pl_Validate_ok p : pl_Validate p = Ok () ↔
  pl_DesiredGeneration p ≠ 0%N ∧ pl_AppliedGeneration p ≠ 0%N ∧ (pl_AppliedGeneration p ≤ pl_DesiredGeneration p)%N ∧
  pl_Changes p ≠ None ∧ pl_Drift p ≠ None ∧
  (∀ c, c ∈ items (pl_Changes p) → change_in (pl_DesiredGeneration p) (pl_AppliedGeneration p) c) ∧
  StronglySorted str_lt ((λ c, resourceOrder (ch_Resource c)) <$> items (pl_Changes p)) ∧
  (∀ d, d ∈ items (pl_Drift p) → drift_in d) ∧
  StronglySorted str_lt ((λ d, resourceOrder (dr_Resource d)) <$> items (pl_Drift p)) ∧
  pl_Impact p = total_impact (items (pl_Changes p)) (items (pl_Drift p)).
Proof.
  unfold pl_Validate. split.
  - intros H. do 4 ok_step H. ok_step H. ok_step H. ok_inv H. bool_facts. rewrite H.
    apply ascending_ok in G3 as (Hc & Hcs & Hci). apply ascending_ok in G4 as (Hd & Hds & Hdi). rewrite Hdi Hci.
    destruct (pl_Changes p) as [cs|], (pl_Drift p) as [ds|]; try done. cbn [items default] in *.
    split_and!; try done.
    + intros c Hin. assert (Hcc := Hc c Hin). ok_inv Hcc. units. bool_facts. split_and!; try done. by apply ch_validate_impact.
    + intros d Hin. assert (Hdd := Hd d Hin). split; [done|by apply dr_validate_impact].
  - intros (Hd & Ha & Hle & Hcn & Hdn & Hc & Hcs & Hdr & Hds & Hi). rewrite Hi.
    destruct (ascending_total ch_Resource ch_Impact (λ change, ch_validate change;;
      reject ((ch_OperationExpectedGeneration change <? pl_AppliedGeneration p)
            || (pl_DesiredGeneration p <? ch_OperationDesiredGeneration change))%N (Message "outside the plan range"))
      (items (pl_Changes p)) ConvergenceImpactNone) as (s1 & Hs1 & Hi1); [|done|].
    { intros c Hin. destruct (Hc c Hin) as (-> & _ & H1 & H2). apply bind_ok. exists (). split; [done|].
      apply reject_ok, orb_false_iff. split; by apply N.ltb_ge. }
    destruct (ascending_total dr_Resource dr_Impact dr_validate (items (pl_Drift p)) s1.2) as (s2 & Hs2 & Hi2); [intros d Hin; by apply Hdr|done|].
    apply bind_ok. exists (). split; [by apply reject_ok, orb_false_iff; split; apply N.eqb_neq|].
    apply bind_ok. exists (). split; [by apply reject_ok, N.ltb_ge|]. apply bind_ok. exists (). split.
    { apply reject_ok, negb_false_iff, total_impact_valid; [intros c Hin; by apply Hc|intros d Hin; by apply Hdr]. }
    apply bind_ok. exists (). split; [by destruct (pl_Changes p), (pl_Drift p)|].
    apply bind_ok. eexists. split; [exact Hs1|]. apply bind_ok. eexists. split; [exact Hs2|].
    apply reject_ok, negb_false_iff, bool_decide_eq_true. by rewrite Hi2 Hi1.
Qed.

(** The plan for accepted input. *)
Definition changes_of (s : ConvergenceSnapshot) : list DesiredChange :=
  omap (bound_change (desired_of s) (applied_of s) (pending_list (sorted_snapshot s))) (unionResourceKeys (desired_of s) (applied_of s)).
Definition accounted (s : ConvergenceSnapshot) : Prop :=
  differences_bound (desired_of s) (applied_of s) (pending_list (sorted_snapshot s)).
Definition the_plan (s : ConvergenceSnapshot) (os : list OwnedResourceObservation) : ConvergencePlan :=
  plan_of (sorted_snapshot s) (changes_of s) (ownedDrift (applied_list s) os).

(** The check of the result never fails. *)
Lemma the_plan_valid s os : snapshot_ok s → observations_ok os → accounted s → pl_Validate (the_plan s os) = Ok ().
Proof.
  intros Hs Hos (Hb1 & Hb2 & _). destruct (snapshot_resources s Hs) as [Hd Ha].
  destruct Hs as ((_ & Hdg & _) & (_ & Hag & _) & Hle & _ & Hpo & _).
  assert (HD := resource_index_of _ (proj1 Hd)). assert (HA := resource_index_of _ (proj1 Ha)).
  assert (HO := observation_index_of _ (proj1 Hos)).
  assert (Hch : ∀ k c, k ∈ unionResourceKeys (desired_of s) (applied_of s) →
    bound_change (desired_of s) (applied_of s) (pending_list (sorted_snapshot s)) k = Some c → resourceOrder (ch_Resource c) = k ∧
    change_in (cm_Generation (sn_Desired s)) (cm_Generation (sn_Applied s)) c).
  { intros k c Hk Hc. apply bound_change_inv in Hc as (o & kind & Ho & _ & Hdiff & ->); [|done|done].
    apply sorted_pending_elem in Ho as (o' & -> & Ho'). apply change_at_valid; [done|done|done|by apply sorted_po_ok, Hpo|done|done]. }
  apply pl_Validate_ok. cbn [the_plan plan_of pl_DesiredGeneration pl_AppliedGeneration pl_Impact pl_Changes pl_Drift items default
    sorted_snapshot sn_Desired sn_Applied sorted_manifest cm_Generation].
  split_and!; [done|done|done|done|done| | | | |done].
  - intros c (k & Hk & Hc)%list_elem_of_omap. by apply (Hch k c).
  - apply (omap_ordered _ (λ c, resourceOrder (ch_Resource c))).
    + intros k c Hk Hc. exact (proj1 (Hch k c Hk Hc)).
    + apply (union_keys_sorted (desired_of s) (applied_of s)).
  - intros d (k & Hk & Hx)%list_elem_of_omap. by apply (drift_at_valid (applied_of s) HA _ k d HO).
  - apply (omap_ordered _ (λ d, resourceOrder (dr_Resource d))).
    + intros k d Hk Hx. by apply (drift_at_valid (applied_of s) HA _ k d HO).
    + apply (union_keys_sorted (applied_of s) (observationsByKey os)).
Qed.

Lemma plan_result_ok s os p : plan_result s os = Ok p ↔
  snapshot_ok s ∧ os ≠ None ∧ observations_ok (items os) ∧ accounted s ∧ p = the_plan s (items os).
Proof.
  unfold plan_result, plan_from. rewrite bind_ok. split.
  - intros (c & Hc & H). apply canonicalSnapshot_ok in Hc as [Hs ->]. destruct (snapshot_resources s Hs) as [Hd Ha].
    ok_step H. rewrite canonicalObservations_ok in G. destruct G as (Hn & Hv & Hu & ->). ok_step H. rewrite desiredChanges_ok in G.
    cbn [sorted_snapshot sn_Desired sn_Applied sorted_manifest cm_Resources items default] in *. destruct G as [Hb ->].
    rewrite !sorted_index // in Hb H. ok_inv H. injection H as <-. split_and!; [done|done|done|done|].
    unfold the_plan, changes_of, ownedDrift. rewrite sorted_observation_index; [done|]. rewrite sorted_index //.
  - intros (Hs & Hn & Hos & Hb & ->). destruct (snapshot_resources s Hs) as [Hd Ha]. exists (sorted_snapshot s).
    split; [by apply canonicalSnapshot_ok|]. apply bind_ok. exists (sort_by ob_order (items os)).
    split; [apply canonicalObservations_ok; destruct Hos; done|]. apply bind_ok. exists (changes_of s). split.
    + apply desiredChanges_ok. cbn [sorted_snapshot sn_Desired sn_Applied sorted_manifest cm_Resources items default].
      rewrite !sorted_index //.
    + cbv zeta. assert (Heq : plan_of (sorted_snapshot s) (changes_of s) (ownedDrift (items (cm_Resources (sn_Applied (sorted_snapshot s)))) (sort_by ob_order (items os))) = the_plan s (items os)).
      { unfold the_plan, ownedDrift. cbn [sorted_snapshot sn_Applied sorted_manifest cm_Resources items default].
        rewrite sorted_index // sorted_observation_index //. }
      rewrite Heq the_plan_valid //.
Qed.

(** Every failure is the sentinel of the planner. *)
Lemma or_plan_invalid_only {A} (m : result A) : only_err plan_invalid (or_plan_invalid m).
Proof. by destruct m. Qed.
Lemma reject_neighbours_only {A} (order : A → string) e l : only_err e (reject_neighbours order e l).
Proof. destruct (reject_neighbours order e l) as [|e'] eqn:H; [done|]. by apply reject_neighbours_err in H. Qed.
Lemma bind_resource_only differences o i r s : only_err plan_invalid (bind_resource differences o i r s).
Proof. unfold bind_resource. cbv zeta. by repeat case_match. Qed.
#[export] Hint Resolve or_plan_invalid_only reject_neighbours_only bind_resource_only : errs.

Lemma canonical_manifest_only m : only_err plan_invalid (canonical_manifest m).
Proof. unfold canonical_manifest. auto with errs. Qed.
Lemma collect_change_only D A differences b i k l : only_err plan_invalid (collect_change D A differences b i k l).
Proof. unfold collect_change. repeat case_match; eauto with errs. Qed.
Lemma bind_operation_only differences i o b : only_err plan_invalid (bind_operation differences i o b).
Proof. unfold bind_operation. eauto with errs. Qed.
#[export] Hint Resolve canonical_manifest_only collect_change_only bind_operation_only : errs.

Lemma plan_result_only s os : only_err plan_invalid (plan_result s os).
Proof.
  unfold plan_result, plan_from, canonicalSnapshot, canonicalObservations, desiredChanges. cbv zeta.
  repeat (apply only_err_bind; [eauto 8 with errs|intros ?]); eauto 8 with errs.
Qed.

(** ** The changes *)

Lemma accounted_unique s o o' key : accounted s → o ∈ pending_list s → o' ∈ pending_list s →
  key ∈ items (po_Resources o) → key ∈ items (po_Resources o') → sorted_operation o = sorted_operation o'.
Proof.
  intros (_ & Hn & _) Ho Ho' Hk Hk'.
  assert (Hin : ∀ x, key ∈ items (po_Resources x) → resourceOrder key ∈ po_orders (sorted_operation x)).
  { intros x Hx. rewrite sorted_orders. unfold po_orders. apply list_elem_of_fmap. eauto. }
  assert (H1 : foldl bind_all ∅ (pending_list (sorted_snapshot s)) !! resourceOrder key = Some (sorted_operation o)).
  { apply bindings_lookup; [done|]. split; [apply sorted_pending_elem; eauto|auto]. }
  assert (H2 : foldl bind_all ∅ (pending_list (sorted_snapshot s)) !! resourceOrder key = Some (sorted_operation o')).
  { apply bindings_lookup; [done|]. split; [apply sorted_pending_elem; eauto|auto]. }
  congruence.
Qed.

Lemma changes_exact s c : snapshot_ok s → accounted s →
  c ∈ changes_of s ↔ ∃ o key kind impact from to, o ∈ pending_list s ∧ key ∈ items (po_Resources o) ∧
    revision_change (desired_list s) (applied_list s) key kind impact from to ∧ c = change_of o key kind impact from to.
Proof.
  intros Hs Hacc. destruct (snapshot_resources s Hs) as [Hd Ha]. destruct Hs as (_ & _ & _ & _ & Hpo & _).
  unfold changes_of. rewrite list_elem_of_omap. assert (Hacc' := Hacc). destruct Hacc' as (Hb & Hn & _). split.
  - intros (k & Hk & Hc). apply bound_change_inv in Hc as (o' & kind & Ho & Hko & Hdiff & ->); [|done|done].
    apply sorted_pending_elem in Ho as (o & -> & Ho). rewrite sorted_orders in Hko.
    apply list_elem_of_fmap in Hko as (key & -> & Hkey).
    destruct (difference_revision _ _ Hd Ha o _ _ Hk Hdiff) as (key' & i & f & t & Heq & Hch & Hr).
    assert (key' = key) as ->.
    { destruct (revision_difference _ _ Hd Ha o _ _ _ _ _ Hr) as [Hv _]. apply resourceOrder_inj; [done| |done].
      by apply (po_ok_inv _ _ o (Hpo o Ho)). }
    exists o, key, kind, i, f, t. done.
  - intros (o & key & kind & i & f & t & Ho & Hkey & Hr & ->).
    destruct (revision_difference _ _ Hd Ha o _ _ _ _ _ Hr) as (Hv & Hk & Hdiff & Hch). exists (resourceOrder key). split; [done|].
    unfold bound_change. rewrite find_differences_lookup decide_True // Hdiff. cbn [mbind option_bind].
    assert (Hl : foldl bind_all ∅ (pending_list (sorted_snapshot s)) !! resourceOrder key = Some (sorted_operation o)).
    { apply bindings_lookup; [done|]. split; [apply sorted_pending_elem; eauto|]. rewrite sorted_orders.
      apply list_elem_of_fmap. eauto. }
    rewrite Hl. cbn. rewrite -Hch. done.
Qed.

(** The operations account for the differences, in the terms of the snapshot. *)
Definition changes_accounted_for (s : ConvergenceSnapshot) : Prop :=
  (∀ o key, o ∈ pending_list s → key ∈ items (po_Resources o) →
     ∃ kind impact from to, revision_change (desired_list s) (applied_list s) key kind impact from to) ∧
  (∀ key kind impact from to, revision_change (desired_list s) (applied_list s) key kind impact from to →
     ∃ o, o ∈ pending_list s ∧ key ∈ items (po_Resources o)) ∧
  (∀ o o' key, o ∈ pending_list s → o' ∈ pending_list s →
     key ∈ items (po_Resources o) → key ∈ items (po_Resources o') → o = o').

Lemma same_id_same s o o' : snapshot_ok s → o ∈ pending_list s → o' ∈ pending_list s → po_ID o = po_ID o' → o = o'.
Proof.
  intros (_ & _ & _ & _ & _ & Hn) [i Hi]%list_elem_of_lookup [j Hj]%list_elem_of_lookup Heq.
  assert (i = j) as ->; [|congruence]. apply (NoDup_lookup _ _ _ (po_ID o) Hn); rewrite list_lookup_fmap; [by rewrite Hi|by rewrite Hj Heq].
Qed.

Lemma accounted_iff s : snapshot_ok s → accounted s ↔ changes_accounted_for s.
Proof.
  intros Hs. destruct (snapshot_resources s Hs) as [Hd Ha]. assert (Hpo := Hs). destruct Hpo as (_ & _ & _ & _ & Hpo & Hids).
  assert (Hkv : ∀ o key, o ∈ pending_list s → key ∈ items (po_Resources o) → key_validate key = Ok ()).
  { intros o key Ho Hk. by apply (po_ok_inv _ _ o (Hpo o Ho)). }
  split.
  - intros Hacc. assert (Hb := Hacc). destruct Hb as (Hb & Hn & Hc). split_and!.
    + intros o key Ho Hkey. apply (differs_revision _ _ Hd Ha); [by eapply Hkv|]. destruct (Hb (sorted_operation o)) as [_ Hk].
      * apply sorted_pending_elem. eauto.
      * apply Hk. rewrite sorted_orders. apply list_elem_of_fmap. eauto.
    + intros key kind i f t Hr. assert (Hv : key_validate key = Ok ()).
      { by apply (revision_difference _ _ Hd Ha (MkPendingOperation "" "" "" "" 0 0 None)) in Hr as [? _]. }
      destruct (Hc (resourceOrder key)) as (o' & Ho & Hko); [apply differs_revision; eauto 6|].
      apply sorted_pending_elem in Ho as (o & -> & Ho). rewrite sorted_orders in Hko. apply list_elem_of_fmap in Hko as (key' & Heq & Hkey).
      exists o. split; [done|]. assert (key = key') as ->; [|done]. apply resourceOrder_inj; [done|by eapply Hkv|done].
    + intros o o' key Ho Ho' Hk Hk'. apply (same_id_same s); [done|done|done|].
      exact (f_equal po_ID (accounted_unique s o o' key Hacc Ho Ho' Hk Hk')).
  - intros (H1 & H2 & H3). split_and!.
    + intros o' (o & -> & Ho)%sorted_pending_elem. destruct (po_ok_inv _ _ o (Hpo o Ho)) as (_ & _ & _ & _ & Hne & _ & _). split.
      * intros Hnil. assert (Hp := sorted_orders o). rewrite Hnil in Hp. apply Permutation_nil_l in Hp.
        unfold po_orders in Hp. by destruct (items (po_Resources o)).
      * intros k Hk. rewrite sorted_orders in Hk. apply list_elem_of_fmap in Hk as (key & -> & Hkey).
        apply (differs_revision _ _ Hd Ha); [by eapply Hkv|by eapply H1].
    + cbn. rewrite sort_by_perm. apply NoDup_bind.
      * intros x x' k (o & -> & Ho)%list_elem_of_fmap (o' & -> & Ho')%list_elem_of_fmap. rewrite !sorted_orders.
        intros (key & -> & Hk)%list_elem_of_fmap (key' & Heq & Hk')%list_elem_of_fmap. f_equal.
        assert (key = key') as <-; [|by apply (H3 o o' key)].
        apply resourceOrder_inj; [exact (Hkv o key Ho Hk)|exact (Hkv o' key' Ho' Hk')|done].
      * intros x (o & -> & Ho)%list_elem_of_fmap. rewrite sorted_orders. apply (po_ok_inv _ _ o (Hpo o Ho)).
      * apply (NoDup_fmap_1 po_ID). by rewrite sorted_operation_ids.
    + intros k [Hin Hdf]. destruct (difference_at (desired_of s) (applied_of s) k) as [kind|] eqn:Hk; [|done].
      destruct (difference_revision _ _ Hd Ha (MkPendingOperation "" "" "" "" 0 0 None) k kind) as (key & i & f & t & <- & _ & Hr); [|done|].
      { unfold unionResourceKeys. by rewrite elem_of_union_keys. }
      destruct (H2 _ _ _ _ _ Hr) as (o & Ho & Hkey). exists (sorted_operation o). split; [apply sorted_pending_elem; eauto|].
      rewrite sorted_orders. apply list_elem_of_fmap. eauto.
Qed.

(** ** Reordered input *)

Definition same_operation (o o' : PendingOperation) : Prop :=
  set_po_Resources None o = set_po_Resources None o' ∧ is_nil (po_Resources o) = is_nil (po_Resources o') ∧
  items (po_Resources o) ≡ₚ items (po_Resources o').
Definition same_manifest (m m' : ConvergenceManifest) : Prop :=
  cm_SchemaVersion m = cm_SchemaVersion m' ∧ cm_Generation m = cm_Generation m' ∧
  is_nil (cm_Resources m) = is_nil (cm_Resources m') ∧ items (cm_Resources m) ≡ₚ items (cm_Resources m').
(** The same snapshot with resources, operations and their resources in another order. *)
Definition same_snapshot (s s' : ConvergenceSnapshot) : Prop :=
  same_manifest (sn_Desired s) (sn_Desired s') ∧ same_manifest (sn_Applied s) (sn_Applied s') ∧
  is_nil (sn_Pending s) = is_nil (sn_Pending s') ∧
  ∃ ops, pending_list s ≡ₚ ops ∧ Forall2 same_operation ops (pending_list s').

#[export] Instance same_operation_sym : Symmetric same_operation.
Proof. intros o o' (? & ? & ?). by repeat split; symmetry. Qed.
#[export] Instance same_manifest_sym : Symmetric same_manifest.
Proof. intros m m' (? & ? & ? & ?). by repeat split; symmetry. Qed.
#[export] Instance same_snapshot_sym : Symmetric same_snapshot.
Proof.
  intros s s' (Hd & Ha & Hn & ops & Hp & Hf). split; [by apply symmetry|]. split; [by apply symmetry|]. split; [by apply symmetry|].
  destruct (Permutation.Permutation_Forall2 (Permutation_sym Hp) Hf) as (ops' & Hp' & Hf'). exists ops'. split; [done|].
  apply Forall2_flip. eapply Forall2_impl; [exact Hf'|]. intros o o' H. by apply same_operation_sym.
Qed.

Lemma same_po_ok a d o o' : same_operation o o' → po_ok a d o → po_ok a d o'.
Proof.
  intros (Heq & Hnil & Hp) H. injection Heq as H1 H2 H3 H4 H5 H6. destruct (po_ok_inv _ _ _ H) as (_ & _ & _ & _ & Hne & Hv & Hn).
  revert H. unfold po_ok, po_validate. intros H. do 5 ok_step H. units. rewrite -H1 -H2 -H3 -H4 -H5 -H6 -Hnil -(Permutation_length Hp) G G0 G1 G2 G3.
  cbn [reject]. do 5 (apply bind_ok; exists (); split; [done|]). apply bind_ok. eexists. split; [|done].
  apply distinct_keys_ok. split_and!; [|by rewrite -Hp|done]. intros r Hr. apply Hv. by rewrite Hp.
Qed.

Lemma same_sorted a d o o' : same_operation o o' → po_ok a d o → sorted_operation o = sorted_operation o'.
Proof.
  intros (Heq & _ & Hp) (_ & _ & _ & _ & _ & _ & Hn)%po_ok_inv. injection Heq as H1 H2 H3 H4 H5 H6. unfold sorted_operation, set_po_Resources.
  rewrite H1 H2 H3 H4 H5 H6. do 2 f_equal. by apply sort_by_unique.
Qed.

Lemma same_manifest_ok m m' : same_manifest m m' → manifest_ok m → manifest_ok m'.
Proof.
  intros (Hs & Hg & Hn & Hp) (H1 & H2 & H3 & H4 & H5). rewrite Hs in H1. rewrite Hg in H2. split_and!; [done|done| | |].
  - by destruct (cm_Resources m), (cm_Resources m').
  - intros r Hr. apply H4. by rewrite Hp.
  - by rewrite -Hp.
Qed.

Lemma same_snapshot_sorted s s' : same_snapshot s s' → snapshot_ok s →
  (sorted_operation <$> pending_list s) ≡ₚ (sorted_operation <$> pending_list s').
Proof.
  intros (_ & _ & _ & ops & Hp & Hf) (_ & _ & _ & _ & Hpo & _). rewrite Hp. apply (reflexive_eq (R := Permutation)).
  assert (Hpo' : ∀ o, o ∈ ops → po_ok (cm_Generation (sn_Applied s)) (cm_Generation (sn_Desired s)) o) by (intros o Ho; apply Hpo; by rewrite Hp).
  clear Hp Hpo. induction Hf as [|o o' ops l Ho Hf IH]; [done|]. cbn. f_equal; [|apply IH; set_solver].
  eapply same_sorted; [done|]. apply Hpo'. left.
Qed.

Lemma same_snapshot_ok s s' : same_snapshot s s' → snapshot_ok s → snapshot_ok s'.
Proof.
  intros Hsame Hs. assert (Hperm := same_snapshot_sorted s s' Hsame Hs).
  destruct Hsame as (Hd & Ha & Hn & ops & Hp & Hf). destruct Hs as (H1 & H2 & H3 & H4 & H5 & H6).
  split_and!; [by eapply same_manifest_ok|by eapply same_manifest_ok| | | |].
  - destruct Hd as (_ & <- & _), Ha as (_ & <- & _). done.
  - by destruct (sn_Pending s), (sn_Pending s').
  - intros o' [i Hi]%list_elem_of_lookup. destruct (Forall2_lookup_r _ _ _ _ _ Hf Hi) as (o & Ho & Hso).
    destruct Hd as (_ & <- & _), Ha as (_ & <- & _). apply (same_po_ok _ _ o); [done|]. apply H5. rewrite Hp. by eapply list_elem_of_lookup_2.
  - rewrite -sorted_operation_ids -Hperm sorted_operation_ids. done.
Qed.

Lemma same_sorted_manifest m m' : same_manifest m m' → manifest_ok m → sorted_manifest m = sorted_manifest m'.
Proof.
  intros (_ & Hg & _ & Hp) (_ & _ & _ & _ & Hn). unfold sorted_manifest. rewrite Hg. do 2 f_equal. by apply sort_by_unique.
Qed.

Lemma same_plan s s' os os' p : same_snapshot s s' → is_nil os = is_nil os' → items os ≡ₚ items os' →
  plan_result s os = Ok p → plan_result s' os' = Ok p.
Proof.
  intros Hsame Hnil Hp. rewrite !plan_result_ok. intros (Hs & Hn & [Hv Hu] & Hacc & ->).
  assert (Hs' := same_snapshot_ok s s' Hsame Hs). destruct (snapshot_resources s Hs) as [Hd Ha].
  assert (Heq : sorted_snapshot s = sorted_snapshot s').
  { assert (Hperm := same_snapshot_sorted s s' Hsame Hs). unfold sorted_snapshot. destruct Hsame as (H1 & H2 & _), Hs as (Hok1 & Hok2 & _ & _ & _ & Hids).
    rewrite (same_sorted_manifest _ _ H1) // (same_sorted_manifest _ _ H2) //. do 2 f_equal. apply sort_by_unique; [|done].
    by rewrite sorted_operation_ids. }
  destruct Hsame as ((_ & _ & _ & Hpd) & (_ & _ & _ & Hpa) & _).
  assert (HD : desired_of s = desired_of s') by (apply by_key_perm; [apply Hd|done]).
  assert (HA : applied_of s = applied_of s') by (apply by_key_perm; [apply Ha|done]).
  assert (HO : observationsByKey (items os) = observationsByKey (items os')) by (by apply by_key_perm).
  split_and!; [done|by destruct os, os'| | |].
  - split; [intros o Ho; apply Hv; by rewrite Hp|by rewrite -Hp].
  - unfold accounted. by rewrite -HD -HA -Heq.
  - unfold the_plan, changes_of, ownedDrift. by rewrite -HD -HA -Heq -HO.
Qed.

(** ** The planner *)

Section claims.
Context {W : Type} `{!ConvergenceHost W}.

Lemma Plan_ok w p es w' : Plan w = (Ok p, es, w') →
  ∃ s os, es = [SnapshotRead (Ok s); Discovered (sorted_manifest (sn_Applied s)) (Ok os)] ∧ plan_result s os = Ok p.
Proof.
  intros H. refine (wp_run Plan w (λ r es _, r = Ok p → ∃ s os,
    es = [SnapshotRead (Ok s); Discovered (sorted_manifest (sn_Applied s)) (Ok os)] ∧ plan_result s os = Ok p) _ es w' _ H eq_refl).
  unfold Plan. wp_step. wp_step. destruct a as [e|]; [by wp_step|]. wp_step. wp_step.
  destruct a as [s|e]; [|by wp_step]. destruct (canonicalSnapshot s) as [c|] eqn:Hc; [|by wp_step]. wp_step. wp_step.
  destruct a as [os|e]; [|by wp_step]. wp_step. wp_step. destruct a as [e|]; [by wp_step|]. wp_step. intros Hp. exists s, os.
  assert (Hc' := Hc). apply canonicalSnapshot_ok in Hc' as [_ Hcs]. split; [by rewrite Hcs|]. unfold plan_result. by rewrite Hc.
Qed.

(** A plan was computed from one snapshot and one discovery of the applied manifest,
    and its changes are exactly the differences of revision between the desired and the
    applied manifest: each is bound to the one pending operation that lists the resource,
    each listed resource changes, and no difference is left out. *)
Theorem plan_changes_exact w p es w' : Plan w = (Ok p, es, w') →
  ∃ s os, es = [SnapshotRead (Ok s); Discovered (sorted_manifest (sn_Applied s)) (Ok os)] ∧
    pl_DesiredGeneration p = cm_Generation (sn_Desired s) ∧ pl_AppliedGeneration p = cm_Generation (sn_Applied s) ∧
    (∀ c, c ∈ items (pl_Changes p) ↔ ∃ o key kind impact from to, o ∈ items (sn_Pending s) ∧ key ∈ items (po_Resources o) ∧
       revision_change (desired_list s) (applied_list s) key kind impact from to ∧ c = change_of o key kind impact from to) ∧
    changes_accounted_for s.
Proof.
  intros (s & os & Hes & Hp)%Plan_ok. apply plan_result_ok in Hp as (Hs & _ & _ & Hacc & ->). exists s, os.
  split_and!; [done|done|done| |by apply accounted_iff]. intros c. by apply changes_exact.
Qed.

(** The drift of a plan is exactly the difference between the applied manifest and the
    observations: unexpected, missing and modified resources, independently of the desired
    manifest; and the impact of the plan bounds the impact of every change and drift and
    is one of them or none. *)
Theorem plan_drift_exact w p es w' : Plan w = (Ok p, es, w') →
  ∃ s os, es = [SnapshotRead (Ok s); Discovered (sorted_manifest (sn_Applied s)) (Ok os)] ∧
    (∀ d, d ∈ items (pl_Drift p) ↔ runtime_drift (applied_list s) (items os) d) ∧
    (∀ i, i ∈ (ch_Impact <$> items (pl_Changes p)) ++ (dr_Impact <$> items (pl_Drift p)) →
       (convergenceImpactRank i ≤ convergenceImpactRank (pl_Impact p))%Z) ∧
    (pl_Impact p = ConvergenceImpactNone ∨ pl_Impact p ∈ (ch_Impact <$> items (pl_Changes p)) ++ (dr_Impact <$> items (pl_Drift p))).
Proof.
  intros (s & os & Hes & Hp)%Plan_ok. apply plan_result_ok in Hp as (Hs & _ & Hos & Hacc & ->). exists s, os.
  destruct (snapshot_resources s Hs) as [_ Ha]. split; [done|]. split; [intros d; by apply ownedDrift_exact|].
  cbn [the_plan plan_of pl_Impact pl_Changes pl_Drift items default]. rewrite -foldl_app. apply foldl_maximum_bound.
Qed.

(** Planning succeeds exactly when both manifests, the pending operations and the
    observations are valid with distinct keys, the desired generation does not precede the
    applied one and every difference is owed to exactly one operation; in every other case
    the error is the planner's sentinel, and the final check of the result never fails. *)
Theorem plan_accepts_exactly s os :
  ((∃ p, (c ← canonicalSnapshot s; plan_from c os) = Ok p) ↔
     snapshot_ok s ∧ os ≠ None ∧ observations_ok (items os) ∧ changes_accounted_for s) ∧
  only_err (Sentinel ErrConvergencePlanInvalid) (c ← canonicalSnapshot s; plan_from c os) ∧
  (∀ c observed changes, canonicalSnapshot s = Ok c → canonicalObservations os = Ok observed → desiredChanges c = Ok changes →
     pl_Validate (plan_of c changes (ownedDrift (items (cm_Resources (sn_Applied c))) observed)) = Ok ()).
Proof.
  split_and!; [|apply plan_result_only|].
  - split.
    + intros [p Hp]. fold (plan_result s os) in Hp. apply plan_result_ok in Hp as (Hs & Hn & Hos & Hacc & _).
      by rewrite -accounted_iff.
    + intros (Hs & Hn & Hos & Hacc). exists (the_plan s (items os)). apply plan_result_ok. by rewrite accounted_iff.
  - intros c observed changes Hc Ho Hch. assert (Hp : ∃ p, plan_result s os = Ok p).
    { exists (the_plan s (items os)). apply canonicalSnapshot_ok in Hc as [Hs ->]. destruct (snapshot_resources s Hs) as [Hd Ha].
      apply canonicalObservations_ok in Ho as (Hn & Hv & Hu & ->). apply desiredChanges_ok in Hch as [Hb _].
      cbn [sorted_snapshot sn_Desired sn_Applied sorted_manifest cm_Resources items default] in Hb. rewrite !sorted_index // in Hb.
      by apply plan_result_ok. }
    destruct Hp as [p Hp]. unfold plan_result, plan_from in Hp. rewrite Hc in Hp. apply bind_ok in Hp as (c' & [= <-] & Hp).
    rewrite Ho in Hp. apply bind_ok in Hp as (o' & [= <-] & Hp). rewrite Hch in Hp. apply bind_ok in Hp as (h' & [= <-] & Hp).
    cbv zeta in Hp. apply bind_ok in Hp as ([] & Hv & _). by rewrite or_plan_invalid_ok in Hv.
Qed.

(** The order in which a source lists resources, operations and their resources, and in
    which a discoverer lists observations, does not matter: the outcome is the same plan or
    the same error. *)
Theorem plan_order_irrelevant s s' os os' : same_snapshot s s' → is_nil os = is_nil os' → items os ≡ₚ items os' →
  (c ← canonicalSnapshot s; plan_from c os) = (c ← canonicalSnapshot s'; plan_from c os').
Proof.
  intros Hs Hn Hp. apply (only_err_ext plan_invalid); [apply plan_result_only|apply plan_result_only|]. intros p. split.
  - by apply same_plan.
  - apply same_plan; [by apply same_snapshot_sym|done|by symmetry].
Qed.
End claims.

(** ** A host with one update, one creation and one modified file *)

Definition sample_sha (c : ascii) : string := foldr (λ _ s, String c s) "" (seq 0 64).
Definition sample_resource (id : string) (revision runtime : ascii) : ManagedResource :=
  MkManagedResource (MkManagedResourceKey "mihomo" ManagedResourceFile id) (sample_sha revision) (sample_sha runtime)
    ConvergenceImpactAvailability ConvergenceImpactDestructive.
Definition sample_pending (id : string) (resources : list string) : PendingOperation :=
  MkPendingOperation id "apply" "" "" 4 5 (Some ((λ r, MkManagedResourceKey "mihomo" ManagedResourceFile r) <$> resources)).
Definition sample_snapshot : ConvergenceSnapshot :=
  MkConvergenceSnapshot
    (MkConvergenceManifest 1 5 (Some [sample_resource "b" "2" "2"; sample_resource "a" "1" "1"; sample_resource "c" "3" "3"]%char))
    (MkConvergenceManifest 1 4 (Some [sample_resource "c" "3" "3"; sample_resource "a" "0" "0"]%char))
    (Some [sample_pending "op-2" ["b"]; sample_pending "op-1" ["a"]]).
Definition sample_observations : slice OwnedResourceObservation :=
  Some [MkOwnedResourceObservation (MkManagedResourceKey "mihomo" ManagedResourceFile "c") (sample_sha "9"%char) ConvergenceImpactNone;
        MkOwnedResourceObservation (MkManagedResourceKey "mihomo" ManagedResourceFile "a") (sample_sha "0"%char) ConvergenceImpactNone].

#[export] Instance sample_convergence_host : ConvergenceHost () := {|
  ctx_Err := λ w, (None, w);
  ReadConvergenceSnapshot := λ w, (Ok sample_snapshot, w);
  DiscoverOwnedResources := λ _ w, (Ok sample_observations, w)
|}.

Definition sample_plan : ConvergencePlan :=
  Eval vm_compute in match (Plan ()).1.1 with Ok p => p | Err _ => MkConvergencePlan 0 0 ConvergenceImpactNone None None end.
Definition sample_events : list convergence_event := (Plan ()).1.2.

Lemma sample_plan_run : Plan () = (Ok sample_plan, sample_events, ()).
Proof. vm_compute. reflexivity. Qed.

Lemma plan_changes_exact_witness :
  length (items (pl_Changes sample_plan)) = 2 ∧ ∃ s os, sample_events = [SnapshotRead (Ok s); Discovered (sorted_manifest (sn_Applied s)) (Ok os)] ∧
    changes_accounted_for s.
Proof.
  split; [reflexivity|]. destruct (plan_changes_exact () sample_plan sample_events () sample_plan_run) as (s & os & Hes & _ & _ & _ & Hacc).
  exists s, os. split; [exact Hes|exact Hacc].
Defined.

Lemma plan_drift_exact_witness :
  length (items (pl_Drift sample_plan)) = 1 ∧ pl_Impact sample_plan = ConvergenceImpactAvailability ∧
  ∃ s os, sample_events = [SnapshotRead (Ok s); Discovered (sorted_manifest (sn_Applied s)) (Ok os)] ∧
    ∀ d, d ∈ items (pl_Drift sample_plan) ↔ runtime_drift (applied_list s) (items os) d.
Proof.
  split; [reflexivity|]. split; [reflexivity|].
  destruct (plan_drift_exact () sample_plan sample_events () sample_plan_run) as (s & os & Hes & Hd & _).
  exists s, os. split; [exact Hes|exact Hd].
Defined.

Definition reversed_snapshot : ConvergenceSnapshot :=
  MkConvergenceSnapshot (sn_Desired sample_snapshot)
    (MkConvergenceManifest 1 4 (Some (reverse (items (cm_Resources (sn_Applied sample_snapshot))))))
    (Some (reverse (items (sn_Pending sample_snapshot)))).

Lemma plan_order_irrelevant_witness :
  (c ← canonicalSnapshot sample_snapshot; plan_from c sample_observations) =
  (c ← canonicalSnapshot reversed_snapshot; plan_from c (Some (reverse (items sample_observations)))).
Proof.
  apply (plan_order_irrelevant sample_snapshot reversed_snapshot); [|reflexivity|symmetry; apply reverse_Permutation].
  split; [repeat split; reflexivity|]. split.
  { split; [reflexivity|]. split; [reflexivity|]. split; [reflexivity|]. symmetry. apply reverse_Permutation. }
  split; [reflexivity|]. exists (reverse (items (sn_Pending sample_snapshot))). split; [symmetry; apply reverse_Permutation|].
  repeat constructor.
Defined.
