(* ===== verification/Apply.v ===== *)
(** * Applying registered changes ([internal/operations/apply.go])

    A convergence plan is grouped by the operations that own its changes, each
    operation is placed on the host that must run it, and the executor of this host is
    called only for the plan the user approved, read again. *)

From S2P Require Import Prelude GoTime Proc GoText GoNet Types Checks Expose Ordered Resources LocalTx Convergence.

Local Open Scope string_scope.
Local Open Scope list_scope.

Record ApplyScope := MkApplyScope { as_Role : Role; as_NodeID : string }.

#[export] Instance ApplyScope_eq_dec : EqDecision ApplyScope.
Proof. solve_decision. Defined.

Record ApplyOperation := MkApplyOperation {
  ao_ID : string;
  ao_Type : string;
  ao_ExpectedGeneration : N;
  ao_DesiredGeneration : N;
  ao_TargetKind : string;
  ao_TargetID : string;
  ao_Scope : ApplyScope;
  ao_Impact : ConvergenceImpact;
  ao_Changes : slice DesiredChange
}.

#[export] Instance ApplyOperation_eq_dec : EqDecision ApplyOperation.
Proof. solve_decision. Defined.

Record ApplyPlan := MkApplyPlan {
  ap_Role : Role;
  ap_CurrentNodeID : string;
  ap_AppliedGeneration : N;
  ap_DesiredGeneration : N;
  ap_Impact : ConvergenceImpact;
  ap_Operations : slice ApplyOperation;
  ap_RemainingDrift : slice OwnedDrift;
  ap_Convergence : ConvergencePlan
}.

#[export] Instance ApplyPlan_eq_dec : EqDecision ApplyPlan.
Proof. solve_decision. Defined.

Record ApplyExecutionBatch := MkApplyExecutionBatch {
  ab_Role : Role;
  ab_CurrentNodeID : string;
  ab_AppliedGeneration : N;
  ab_DesiredGeneration : N;
  ab_Operations : slice ApplyOperation
}.

Record ApplyExecutionResult := MkApplyExecutionResult {
  ax_Changed : bool;
  ax_AppliedGeneration : N;
  ax_OperationIDs : slice string
}.

Record ApplyResult := MkApplyResult {
  ar_Changed : bool;
  ar_Generation : N;
  ar_OperationIDs : slice string;
  ar_RemainingDrift : slice OwnedDrift
}.

(** ** The coordinator *)

(** The planner and the resolver are always present; the flags say which executor is. *)
Record ApplyCoordinator := MkApplyCoordinator {
  ac_role : Role;
  ac_currentNodeID : string;
  ac_gateway : bool;
  ac_node : bool
}.

Definition NewGatewayApplyCoordinator : ApplyCoordinator := MkApplyCoordinator RoleGateway "" true false.

Definition NewNodeApplyCoordinator (currentNodeID : string) : result ApplyCoordinator :=
  wrap "current node ID" (ValidateResourceID currentNodeID);;
  Ok (MkApplyCoordinator RoleNode currentNodeID false true).

Definition ac_validate (c : ApplyCoordinator) : result unit :=
  match ac_role c with
  | RoleGateway =>
      reject (negb (String.eqb (ac_currentNodeID c) "") || negb (ac_gateway c) || ac_node c)
        (Message "gateway apply coordinator has invalid dependencies")
  | RoleNode =>
      reject (negb (is_ok (ValidateResourceID (ac_currentNodeID c))) || negb (ac_node c) || ac_gateway c)
        (Message "node apply coordinator has invalid dependencies")
  | RoleUnsupported _ => Err (Message "apply coordinator role is invalid")
  end.

Definition apply_invalid : error := Sentinel ErrApplyInvalid.
(** [fmt.Errorf("%w: ...: %v", ErrApplyInvalid, err)] *)
Definition or_apply_invalid {A} (m : result A) : result A := match m with Ok a => Ok a | Err _ => Err apply_invalid end.

Definition acceptScope (c : ApplyCoordinator) (scope : ApplyScope) : result unit :=
  match ac_role c with
  | RoleGateway => reject (bool_decide (as_Role scope = RoleNode)) (Sentinel ErrApplyNodeAgentUnavailable)
  | RoleNode =>
      reject (negb (bool_decide (as_Role scope = RoleNode)) || negb (String.eqb (as_NodeID scope) (ac_currentNodeID c))) (Sentinel ErrApplyConflict)
  | RoleUnsupported _ => Ok ()
  end.

Definition as_validate (scope : ApplyScope) : result unit :=
  match as_Role scope with
  | RoleGateway => reject (negb (String.eqb (as_NodeID scope) "")) (Message "gateway scope cannot contain a node ID")
  | RoleNode => wrap "node scope ID" (ValidateResourceID (as_NodeID scope))
  | RoleUnsupported _ => Err (Message "unsupported role")
  end.

(** ** Grouping *)

Definition overlappingApplyDrift (changes : list DesiredChange) (drift : list OwnedDrift) : list ManagedResourceKey :=
  let changed : gmap string ManagedResourceKey := foldl (λ m change, <[resourceOrder (ch_Resource change) := ch_Resource change]> m) ∅ changes in
  sort_by resourceOrder (omap (λ item, changed !! resourceOrder (dr_Resource item)) drift).

(** The zero value of a scope; the role of an unset scope is the empty string. *)
Definition zero_scope : ApplyScope := MkApplyScope (RoleUnsupported "") "".

Definition new_operation_of (change : DesiredChange) : ApplyOperation :=
  MkApplyOperation (ch_OperationID change) (ch_OperationType change) (ch_OperationExpectedGeneration change)
    (ch_OperationDesiredGeneration change) (ch_TargetKind change) (ch_TargetID change) zero_scope ConvergenceImpactNone (Some []).

Definition same_identity (operation : ApplyOperation) (change : DesiredChange) : bool :=
  String.eqb (ao_Type operation) (ch_OperationType change)
  && (ao_ExpectedGeneration operation =? ch_OperationExpectedGeneration change)%N
  && (ao_DesiredGeneration operation =? ch_OperationDesiredGeneration change)%N
  && String.eqb (ao_TargetKind operation) (ch_TargetKind change) && String.eqb (ao_TargetID operation) (ch_TargetID change).

Definition add_change (operation : ApplyOperation) (change : DesiredChange) : ApplyOperation :=
  MkApplyOperation (ao_ID operation) (ao_Type operation) (ao_ExpectedGeneration operation) (ao_DesiredGeneration operation)
    (ao_TargetKind operation) (ao_TargetID operation) (ao_Scope operation)
    (maximumConvergenceImpact (ao_Impact operation) (ch_Impact change)) (append (ao_Changes operation) [change]).

(** The map holds pointers: the operation found or created is updated in place. *)
Definition group_change (_ : nat) (change : DesiredChange) (byID : gmap string ApplyOperation) : result (gmap string ApplyOperation) :=
  let operation := default (new_operation_of change) (byID !! ch_OperationID change) in
  reject (negb (same_identity operation change)) apply_invalid;;
  Ok (<[ch_OperationID change := add_change operation change]> byID).

Definition groupApplyOperations (changes : list DesiredChange) : result (list ApplyOperation) :=
  byID ← range group_change changes ∅;
  Ok (sort_by ao_ID (map_to_list byID).*2).

Definition set_ao_Scope (scope : ApplyScope) (operation : ApplyOperation) : ApplyOperation :=
  MkApplyOperation (ao_ID operation) (ao_Type operation) (ao_ExpectedGeneration operation) (ao_DesiredGeneration operation)
    (ao_TargetKind operation) (ao_TargetID operation) scope (ao_Impact operation) (ao_Changes operation).

(** ** Validation of plans and results *)

Definition ao_validate (operation : ApplyOperation) : result unit :=
  reject (negb (is_ok (validateOperationID (ao_ID operation))) || negb (matches operationTypePattern (ao_Type operation)))
    (Message "operation identity is invalid");;
  validateOperationTarget (ao_TargetKind operation) (ao_TargetID operation);;
  reject ((ao_ExpectedGeneration operation =? 0) || (ao_DesiredGeneration operation <? ao_ExpectedGeneration operation))%N
    (Message "operation generations are invalid");;
  as_validate (ao_Scope operation);;
  reject (is_nil (ao_Changes operation) || (length (items (ao_Changes operation)) =? 0)%nat) (Message "changes must be present and non-empty");;
  wantImpact ← range (λ index change wantImpact,
    wrap "change" (ch_validate change);;
    reject (negb (String.eqb (ch_OperationID change) (ao_ID operation)) || negb (same_identity operation change))
      (Message "change belongs to another operation");;
    reject (match index with
            | O => false
            | S i => match items (ao_Changes operation) !! i with
                     | Some previous => str_leb (resourceOrder (ch_Resource change)) (resourceOrder (ch_Resource previous))
                     | None => false
                     end
            end) (Message "changes must use unique ascending resource identities");;
    Ok (maximumConvergenceImpact wantImpact (ch_Impact change))) (items (ao_Changes operation)) ConvergenceImpactNone;
  reject (negb (bool_decide (ao_Impact operation = wantImpact))) (Message "operation impact does not match changes").

Definition ap_Validate (plan : ApplyPlan) : result unit :=
  pl_Validate (ap_Convergence plan);;
  reject (match ap_Role plan with RoleUnsupported _ => true | _ => false end) (Message "role is invalid");;
  reject (bool_decide (ap_Role plan = RoleGateway) && negb (String.eqb (ap_CurrentNodeID plan) ""))
    (Message "gateway plan cannot contain a current node ID");;
  reject (bool_decide (ap_Role plan = RoleNode) && negb (is_ok (ValidateResourceID (ap_CurrentNodeID plan))))
    (Message "node plan requires a valid current node ID");;
  reject (negb (ap_AppliedGeneration plan =? pl_AppliedGeneration (ap_Convergence plan))%N
          || negb (ap_DesiredGeneration plan =? pl_DesiredGeneration (ap_Convergence plan))%N) (Message "plan generations differ from convergence input");;
  reject (is_nil (ap_Operations plan) || is_nil (ap_RemainingDrift plan)) (Message "operations and remaining drift must be present");;
  reject (negb (bool_decide (ap_RemainingDrift plan = pl_Drift (ap_Convergence plan)))) (Message "remaining drift differs from convergence input");;
  reject (negb (length (overlappingApplyDrift (items (pl_Changes (ap_Convergence plan))) (items (ap_RemainingDrift plan))) =? 0)%nat)
    (Message "remaining drift overlaps pending changes");;
  wantOperations ← groupApplyOperations (items (pl_Changes (ap_Convergence plan)));
  reject (negb (length wantOperations =? length (items (ap_Operations plan)))%nat) (Message "operation grouping differs from convergence input");;
  wantImpact ← range (λ index operation wantImpact,
    wrap "operation" (ao_validate operation);;
    reject (match index with
            | O => false
            | S i => match items (ap_Operations plan) !! i with
                     | Some previous => str_leb (ao_ID operation) (ao_ID previous)
                     | None => false
                     end
            end) (Message "operations must be ordered by unique ID");;
    reject (negb (bool_decide (Some (set_ao_Scope zero_scope operation) = wantOperations !! index))) (Message "operation differs from convergence input");;
    reject (bool_decide (ap_Role plan = RoleGateway) && negb (bool_decide (as_Role (ao_Scope operation) = RoleGateway)))
      (Message "gateway plan contains non-gateway operation");;
    reject (bool_decide (ap_Role plan = RoleNode)
            && (negb (bool_decide (as_Role (ao_Scope operation) = RoleNode)) || negb (String.eqb (as_NodeID (ao_Scope operation)) (ap_CurrentNodeID plan))))
      (Message "node plan contains foreign operation");;
    Ok (maximumConvergenceImpact wantImpact (ao_Impact operation))) (items (ap_Operations plan)) ConvergenceImpactNone;
  reject (negb (bool_decide (ap_Impact plan = wantImpact))) (Message "apply impact does not match");;
  reject ((length (items (ap_Operations plan)) =? 0)%nat && negb (ap_AppliedGeneration plan =? ap_DesiredGeneration plan)%N)
    (Message "generation gap has no registered operations").

Definition ax_validate (result : ApplyExecutionResult) (batch : ApplyExecutionBatch) : Prelude.result unit :=
  reject (negb (ax_AppliedGeneration result =? ab_DesiredGeneration batch)%N) (Message "applied generation does not equal desired");;
  let want := ao_ID <$> items (ab_Operations batch) in
  reject (negb (bool_decide (ax_OperationIDs result = Some want))) (Message "operation IDs do not match the applied batch").

Definition ar_Validate (result : ApplyResult) : Prelude.result unit :=
  reject (ar_Generation result =? 0)%N (Message "generation must be positive");;
  reject (is_nil (ar_OperationIDs result) || is_nil (ar_RemainingDrift result)) (Message "operation IDs and remaining drift must be present");;
  range_check (λ index id,
    wrap "operation ID" (validateOperationID id);;
    reject (match index with O => false | S i => str_leb id (default "" (items (ar_OperationIDs result) !! i)) end)
      (Message "operation IDs must be unique and ordered")) (items (ar_OperationIDs result));;
  _ ← range (λ index item previous,
    wrap "remaining drift" (dr_validate item);;
    let order := resourceOrder (dr_Resource item) in
    reject ((0 <? index)%nat && str_leb order previous) (Message "remaining drift must use unique ascending resources");;
    Ok order) (items (ar_RemainingDrift result)) "";
  Ok ().

(** ** Planning and applying *)

(** [ApplyScopeResolver], [GatewayApplyExecutor] and [CurrentNodeApplyExecutor]. *)
Class ApplyHost (W : Type) := {
  ResolveApplyScope : ApplyOperation → W → result ApplyScope * W;
  ApplyGateway : ApplyExecutionBatch → W → result ApplyExecutionResult * W;
  RequireGateway : string → W → result unit * W;
  ApplyCurrentNode : ApplyExecutionBatch → W → result ApplyExecutionResult * W
}.

Inductive apply_event :=
  | Convergence (e : convergence_event)
  | ScopeResolved (operation : ApplyOperation) (outcome : result ApplyScope)
  | GatewayRequired (nodeID : string) (outcome : result unit)
  | GatewayApplied (batch : ApplyExecutionBatch) (outcome : result ApplyExecutionResult)
  | NodeApplied (batch : ApplyExecutionBatch) (outcome : result ApplyExecutionResult).

Section apply.
Context {W : Type} `{!ConvergenceHost W} `{!ApplyHost W}.
Implicit Types c : ApplyCoordinator.

(** The loop of [buildPlan] over the grouped operations; [done] are the scoped ones. *)
Fixpoint resolve_scopes c (done rest : list ApplyOperation) (impact : ConvergenceImpact)
    : proc W apply_event (result (list ApplyOperation * ConvergenceImpact)) :=
  match rest with
  | [] => mret (Ok (done, impact))
  | operation :: rest' =>
      resolved ← call (ResolveApplyScope operation) (λ res, [ScopeResolved operation res]);
      match resolved with
      | Err e => mret (Err (Wrapped "resolve apply scope" e))
      | Ok scope =>
          match or_apply_invalid (as_validate scope);; acceptScope c scope with
          | Err e => mret (Err e)
          | Ok _ => resolve_scopes c (done ++ [set_ao_Scope scope operation]) rest' (maximumConvergenceImpact impact (ao_Impact operation))
          end
      end
  end.

(** The checks of [buildPlan] before a scope is resolved. *)
Definition groupable (convergence : ConvergencePlan) : result (list ApplyOperation) :=
  or_apply_invalid (pl_Validate convergence);;
  reject ((length (items (pl_Changes convergence)) =? 0)%nat
          && negb (pl_DesiredGeneration convergence =? pl_AppliedGeneration convergence)%N) apply_invalid;;
  reject (negb (length (overlappingApplyDrift (items (pl_Changes convergence)) (items (pl_Drift convergence))) =? 0)%nat)
    (Sentinel ErrApplyConflict);;
  groupApplyOperations (items (pl_Changes convergence)).

Definition apply_plan_of c (convergence : ConvergencePlan) (operations : list ApplyOperation) (impact : ConvergenceImpact) : ApplyPlan :=
  MkApplyPlan (ac_role c) (ac_currentNodeID c) (pl_AppliedGeneration convergence) (pl_DesiredGeneration convergence) impact
    (Some operations) (Some (items (pl_Drift convergence))) convergence.

Definition buildPlan c (convergence : ConvergencePlan) : proc W apply_event (result ApplyPlan) :=
  match groupable convergence with
  | Err e => mret (Err e)
  | Ok operations =>
      resolved ← resolve_scopes c [] operations ConvergenceImpactNone;
      match resolved with
      | Err e => mret (Err e)
      | Ok (operations, impact) =>
          let plan := apply_plan_of c convergence operations impact in
          mret (or_apply_invalid (ap_Validate plan);; Ok plan)
      end
  end.

Definition BuildApplyPlan (role : Role) (currentNodeID : string) (convergence : ConvergencePlan) : proc W apply_event (result ApplyPlan) :=
  match match role with
        | RoleGateway => reject (negb (String.eqb currentNodeID "")) apply_invalid
        | RoleNode => or_apply_invalid (ValidateResourceID currentNodeID)
        | RoleUnsupported _ => Err apply_invalid
        end with
  | Err e => mret (Err e)
  | Ok _ => buildPlan (MkApplyCoordinator role currentNodeID false false) convergence
  end.

Definition apply_Plan c : proc W apply_event (result ApplyPlan) :=
  match ac_validate c with
  | Err e => mret (Err e)
  | Ok _ =>
      convergence ← tagged Convergence Plan;
      match convergence with
      | Err e => mret (Err (Wrapped "plan registered pending changes" e))
      | Ok convergence => buildPlan c convergence
      end
  end.

Definition batch_of (fresh : ApplyPlan) : ApplyExecutionBatch :=
  MkApplyExecutionBatch (ap_Role fresh) (ap_CurrentNodeID fresh) (ap_AppliedGeneration fresh) (ap_DesiredGeneration fresh)
    (append None (items (ap_Operations fresh))).

(** The executor of the role. *)
Definition execute_batch c (batch : ApplyExecutionBatch) : proc W apply_event (result ApplyExecutionResult) :=
  match ac_role c with
  | RoleGateway =>
      res ← call (ApplyGateway batch) (λ res, [GatewayApplied batch res]);
      mret (wrap "execute registered pending apply" res)
  | RoleNode =>
      res ← call (ApplyCurrentNode batch) (λ res, [NodeApplied batch res]);
      mret (wrap "execute registered pending apply" res)
  | RoleUnsupported _ => mret (Err apply_invalid)
  end.

(** [Apply] once the preview was found to be current. *)
Definition run_plan c (fresh : ApplyPlan) : proc W apply_event (result ApplyResult) :=
  reachable ← (if bool_decide (ac_role c = RoleNode)
               then call (RequireGateway (ac_currentNodeID c)) (λ res, [GatewayRequired (ac_currentNodeID c) res])
               else mret (Ok ()));
  match reachable with
  | Err _ => mret (Err (Sentinel ErrApplyGatewayUnavailable))
  | Ok _ =>
      if (length (items (ap_Operations fresh)) =? 0)%nat
      then mret (Ok (MkApplyResult false (ap_AppliedGeneration fresh) (Some []) (Some (items (ap_RemainingDrift fresh)))))
      else
        executed ← execute_batch c (batch_of fresh);
        match executed with
        | Err e => mret (Err e)
        | Ok executed =>
            mret (or_apply_invalid (ax_validate executed (batch_of fresh));;
                  Ok (MkApplyResult (ax_Changed executed) (ax_AppliedGeneration executed) (append None (items (ax_OperationIDs executed)))
                        (Some (items (ap_RemainingDrift fresh)))))
        end
  end.

Definition Apply c (approved : ApplyPlan) : proc W apply_event (result ApplyResult) :=
  match ac_validate c;; or_apply_invalid (ap_Validate approved) with
  | Err e => mret (Err e)
  | Ok _ =>
      planned ← apply_Plan c;
      match planned with
      | Err e => mret (Err e)
      | Ok fresh =>
          if negb (bool_decide (approved = fresh)) then mret (Err (Sentinel ErrApplyConflict)) else run_plan c fresh
      end
  end.
End apply.
