(* ===== verification/ApplyFacts.v ===== *)
(** * Applying registered changes: facts and theorems *)

From S2P Require Import Prelude GoTime Proc GoText GoNet Types Checks Expose Ordered Resources LocalTx Convergence ConvergenceFacts ConvergenceClaims Apply.

Local Open Scope string_scope.
Local Open Scope list_scope.

(** ** Grouping *)

Definition own_changes (id : string) (changes : list DesiredChange) : list DesiredChange :=
  filter (λ c, ch_OperationID c = id) changes.

(** The operation made of the changes that name it, in their order. *)
Definition operation_of (changes : list DesiredChange) : option ApplyOperation :=
  match changes with
  | [] => None
  | c :: _ => Some (MkApplyOperation (ch_OperationID c) (ch_OperationType c) (ch_OperationExpectedGeneration c)
                      (ch_OperationDesiredGeneration c) (ch_TargetKind c) (ch_TargetID c) zero_scope
                      (foldl maximumConvergenceImpact ConvergenceImpactNone (ch_Impact <$> changes)) (Some changes))
  end.

Definition identity (c : DesiredChange) : string * N * N * string * string :=
  (ch_OperationType c, ch_OperationExpectedGeneration c, ch_OperationDesiredGeneration c, ch_TargetKind c, ch_TargetID c).

(** Changes of one operation agree on what the operation is. *)
Definition consistent (changes : list DesiredChange) : Prop :=
  ∀ c c', c ∈ changes → c' ∈ changes → ch_OperationID c = ch_OperationID c' → identity c = identity c'.

Lemma operation_of_snoc cs c : operation_of (cs ++ [c]) = Some (add_change (default (new_operation_of c) (operation_of cs)) c).
Proof. destruct cs as [|c0 cs]; [done|]. cbn. rewrite fmap_app foldl_app. done. Qed.

Lemma own_changes_snoc id cs c :
  own_changes id (cs ++ [c]) = own_changes id cs ++ (if decide (ch_OperationID c = id) then [c] else []).
Proof. unfold own_changes. rewrite filter_app. done. Qed.

Lemma elem_of_own id cs c : c ∈ own_changes id cs ↔ ch_OperationID c = id ∧ c ∈ cs.
Proof. unfold own_changes. by rewrite list_elem_of_filter. Qed.

Lemma same_identity_spec o c : same_identity o c = true ↔
  (ao_Type o, ao_ExpectedGeneration o, ao_DesiredGeneration o, ao_TargetKind o, ao_TargetID o) = identity c.
Proof.
  unfold same_identity, identity. rewrite !andb_true_iff !String.eqb_eq !N.eqb_eq. split.
  - by intros ((((-> & ->) & ->) & ->) & ->).
  - by intros [= -> -> -> -> ->].
Qed.

Lemma same_identity_default cs c : same_identity (default (new_operation_of c) (operation_of cs)) c = true ↔
  ∀ c', head cs = Some c' → identity c' = identity c.
Proof.
  rewrite same_identity_spec. destruct cs as [|c0 cs]; cbn; [naive_solver|]. split.
  - intros H c' [= <-]. exact H.
  - intros H. exact (H c0 eq_refl).
Qed.

Lemma head_elem {A} (l : list A) x : head l = Some x → x ∈ l.
Proof. destruct l; cbn; [done|]. intros [= ->]. left. Qed.

(** The loop invariant: the map holds the operation of every identity seen. *)
Definition grouped (p : list DesiredChange) (m : gmap string ApplyOperation) : Prop :=
  consistent p ∧ ∀ id, m !! id = operation_of (own_changes id p).

Lemma group_step p c m : grouped p m →
  same_identity (default (new_operation_of c) (m !! ch_OperationID c)) c = true ↔ consistent (p ++ [c]).
Proof.
  intros [Hc Hm]. rewrite Hm same_identity_default. split.
  - intros H. assert (Hall : ∀ x, x ∈ p → ch_OperationID x = ch_OperationID c → identity x = identity c).
    { intros x Hx Hid. assert (Hin : x ∈ own_changes (ch_OperationID c) p) by by apply elem_of_own.
      destruct (own_changes (ch_OperationID c) p) as [|h cs] eqn:Ho; [by apply not_elem_of_nil in Hin|].
      rewrite -(H h eq_refl). assert (Hh : h ∈ own_changes (ch_OperationID c) p) by (rewrite Ho; left).
      apply elem_of_own in Hh as [Hhid Hh]. apply Hc; [done|done|congruence]. }
    intros x y [Hx|Hx]%elem_of_app [Hy|Hy]%elem_of_app Hid; try apply list_elem_of_singleton in Hx as ->;
      try apply list_elem_of_singleton in Hy as ->; [by apply Hc|by apply Hall|symmetry; by apply Hall|done].
  - intros H c' Hh. apply head_elem, elem_of_own in Hh as [Hid Hc']. apply H; [set_solver|set_solver|done].
Qed.

Lemma group_post p c m : grouped p m → consistent (p ++ [c]) →
  grouped (p ++ [c]) (<[ch_OperationID c := add_change (default (new_operation_of c) (m !! ch_OperationID c)) c]> m).
Proof.
  intros [Hc Hm] Hcc. split; [done|]. intros id. rewrite own_changes_snoc. destruct (decide (ch_OperationID c = id)) as [<-|Hne].
  - rewrite lookup_insert_eq operation_of_snoc Hm //.
  - rewrite lookup_insert_ne // app_nil_r //.
Qed.

Lemma grouped_nil : grouped [] ∅.
Proof. split; [by intros c c' ?%not_elem_of_nil|done]. Qed.

Lemma group_loop_inv changes m : range group_change changes ∅ = Ok m → grouped changes m.
Proof.
  intros H. refine (range_inv group_change grouped changes ∅ m _ grouped_nil H).
  intros p c q t t' _ HP Hb. unfold group_change in Hb. cbv zeta in Hb. ok_inv Hb. injection Hb as <-. bool_facts.
  apply group_post; [done|by eapply group_step].
Qed.

Lemma group_loop_total changes : consistent changes → ∃ m, range group_change changes ∅ = Ok m ∧ grouped changes m.
Proof.
  intros Hc. apply (range_total group_change grouped); [|apply grouped_nil]. intros p c q t Heq HP.
  assert (Hpc : consistent (p ++ [c])) by (intros x y Hx Hy; apply Hc; rewrite Heq cons_middle app_assoc; set_solver).
  eexists. split; [|by apply group_post]. unfold group_change. cbv zeta. apply (group_step _ _ _ HP) in Hpc. rewrite Hpc. done.
Qed.

Lemma operation_of_own id changes o : operation_of (own_changes id changes) = Some o → ao_ID o = id.
Proof.
  destruct (own_changes id changes) as [|c cs] eqn:Ho; [done|]. cbn. intros [= <-].
  assert (Hc : c ∈ own_changes id changes) by (rewrite Ho; left). by apply elem_of_own in Hc as [? _].
Qed.

(** Grouping succeeds on consistent changes and yields one operation per identity, in
    ascending order, holding the changes that name it. *)
Lemma groupApplyOperations_ok changes ops : groupApplyOperations changes = Ok ops ↔
  consistent changes ∧ StronglySorted str_lt (ao_ID <$> ops) ∧
  (∀ o, o ∈ ops ↔ ∃ id, operation_of (own_changes id changes) = Some o).
Proof.
  unfold groupApplyOperations. rewrite bind_ok.
  assert (Hkey : ∀ m : gmap string ApplyOperation, (∀ id, m !! id = operation_of (own_changes id changes)) →
    StronglySorted str_lt (ao_ID <$> sort_by ao_ID (map_to_list m).*2) ∧
    ∀ o, o ∈ sort_by ao_ID (map_to_list m).*2 ↔ ∃ id, operation_of (own_changes id changes) = Some o).
  { intros m Hm. split.
    - apply sort_by_lt. rewrite -list_fmap_compose.
      assert (Heq : (ao_ID ∘ snd) <$> map_to_list m = (map_to_list m).*1).
      { apply list_fmap_ext. intros i [id o] Hi. apply list_elem_of_lookup_2, elem_of_map_to_list in Hi. rewrite Hm in Hi.
        by apply operation_of_own in Hi. }
      rewrite Heq. apply NoDup_fst_map_to_list.
    - intros o. rewrite elem_of_sort_by list_elem_of_fmap. split.
      + intros ([id o'] & -> & Hin%elem_of_map_to_list). rewrite Hm in Hin. eauto.
      + intros [id Ho]. exists (id, o). split; [done|]. apply elem_of_map_to_list. by rewrite Hm. }
  split.
  - intros (m & Hm & [= <-]). apply group_loop_inv in Hm as [Hc Hm]. split; [done|]. by apply Hkey.
  - intros (Hc & Hs & Ho). destruct (group_loop_total changes Hc) as (m & Hr & _ & Hm). exists m. split; [done|]. f_equal.
    destruct (Hkey m Hm) as [Hs' Ho']. apply (order_sorted_unique ao_ID); [done|done|]. intros o. by rewrite Ho Ho'.
Qed.

(** ** The plan that is built is valid *)

Definition scope_accepted (c : ApplyCoordinator) (scope : ApplyScope) : Prop :=
  as_validate scope = Ok () ∧ acceptScope c scope = Ok ().

Lemma operation_of_valid desired applied oid changes o scope : (∀ x, x ∈ changes → change_in desired applied x) →
  StronglySorted str_lt ((λ x, resourceOrder (ch_Resource x)) <$> changes) → consistent changes →
  operation_of (own_changes oid changes) = Some o → as_validate scope = Ok () → ao_validate (set_ao_Scope scope o) = Ok ().
Proof.
  intros Hv Hs Hc Ho Hscope.
  assert (Hown : ∀ x, x ∈ own_changes oid changes → ch_OperationID x = oid ∧ x ∈ changes) by (intros x; apply elem_of_own).
  assert (Hsorted := sorted_filter_fmap (λ x, resourceOrder (ch_Resource x)) (λ x, ch_OperationID x = oid) changes Hs).
  fold (own_changes oid changes) in Hsorted. revert Hown Hsorted Ho.
  generalize (own_changes oid changes). intros [|c cs] Hown Hsorted; [done|]. cbn [operation_of]. intros [= <-].
  destruct (Hown c) as [Hcid Hcin]; [left|]. destruct (Hv c Hcin) as (Hcv & _ & _ & _). unfold ch_validate in Hcv.
  apply bind_ok in Hcv as ([] & Hid & Hcv). apply reject_ok, orb_false_iff in Hid as [Hid Hty].
  apply bind_ok in Hcv as ([] & Hg & Hcv). apply reject_ok, orb_false_iff in Hg as [Hg0 Hg1]. apply N.leb_gt in Hg1.
  apply bind_ok in Hcv as ([] & Htg & _).
  unfold ao_validate, set_ao_Scope. cbn [ao_ID ao_Type ao_TargetKind ao_TargetID ao_ExpectedGeneration ao_DesiredGeneration ao_Scope ao_Changes ao_Impact
    is_nil items default from_option id length Nat.eqb orb].
  rewrite Hid Hty Htg Hg0 Hscope. cbn [orb reject]. apply bind_ok. exists (). split; [done|]. apply bind_ok. exists (). split; [done|].
  apply bind_ok. exists (). split; [apply reject_ok, N.ltb_ge; lia|].
  apply bind_ok. exists (). split; [done|]. apply bind_ok. exists (). split; [done|].
  match goal with |- mbind _ (range ?b _ _) = _ => set (body := b) end.
  destruct (range_total body (λ p imp, imp = foldl maximumConvergenceImpact ConvergenceImpactNone (ch_Impact <$> p)) (c :: cs) ConvergenceImpactNone)
    as (imp & Hr & ->); [|done|].
  - intros p x q imp Heq ->. assert (Hx : x ∈ c :: cs) by (rewrite Heq; set_solver). destruct (Hown x Hx) as [Hxid Hxin].
    eexists. split; [|by rewrite fmap_app foldl_app]. unfold body. destruct (Hv x Hxin) as (Hxv & _). rewrite Hxv.
    cbn [wrap]. apply bind_ok. exists (). split; [done|]. apply bind_ok. exists (). split.
    + apply reject_ok, orb_false_iff. split; [apply negb_false_iff, String.eqb_eq; congruence|]. apply negb_false_iff, same_identity_spec.
      cbn [ao_Type ao_ExpectedGeneration ao_DesiredGeneration ao_TargetKind ao_TargetID]. apply Hc; [done|done|congruence].
    + rewrite (ascending_check (λ x, resourceOrder (ch_Resource x)) (c :: cs) p q x); [done|done|]. done.
  - apply bind_ok. eexists. split; [exact Hr|]. apply reject_ok, negb_false_iff, bool_decide_eq_true. done.
Qed.

(** The scoped operation is the grouped one on an accepted host. *)
Definition scoped (c : ApplyCoordinator) (o o' : ApplyOperation) : Prop :=
  ∃ scope, o' = set_ao_Scope scope o ∧ scope_accepted c scope.

(** [RoleGateway] with no node or [RoleNode] with a valid one. *)
Definition role_ok (c : ApplyCoordinator) : Prop :=
  (ac_role c = RoleGateway ∧ ac_currentNodeID c = "") ∨ (ac_role c = RoleNode ∧ ValidateResourceID (ac_currentNodeID c) = Ok ()).

Lemma groupable_ok convergence ops : groupable convergence = Ok ops ↔
  pl_Validate convergence = Ok () ∧
  (items (pl_Changes convergence) = [] → pl_DesiredGeneration convergence = pl_AppliedGeneration convergence) ∧
  overlappingApplyDrift (items (pl_Changes convergence)) (items (pl_Drift convergence)) = [] ∧
  groupApplyOperations (items (pl_Changes convergence)) = Ok ops.
Proof.
  unfold groupable. rewrite bind_ok. split.
  - intros ([] & Hv & H). ok_inv H. split_and!; [by destruct (pl_Validate convergence) as [[]|]| | |done].
    + intros Hnil. rewrite Hnil in G. cbn in G. bool_facts. done.
    + bool_facts. apply Nat.eqb_eq, nil_length_inv in G0. done.
  - intros (-> & Hg & -> & Hops). exists (). split; [done|]. apply bind_ok. exists (). split.
    + apply reject_ok. destruct (items (pl_Changes convergence)); [|done]. cbn. rewrite Hg // N.eqb_refl //.
    + apply bind_ok. exists (). done.
Qed.

Lemma set_scope_back scope id changes o : operation_of (own_changes id changes) = Some o → set_ao_Scope zero_scope (set_ao_Scope scope o) = o.
Proof. destruct (own_changes id changes); [done|]. cbn. by intros [= <-]. Qed.

Lemma scoped_ids c ops ops' : Forall2 (scoped c) ops ops' → ao_ID <$> ops' = ao_ID <$> ops.
Proof. induction 1 as [|o o' ops ops' (scope & -> & _) _ IH]; [done|]. cbn. by rewrite IH. Qed.
Lemma scoped_impacts c ops ops' : Forall2 (scoped c) ops ops' → ao_Impact <$> ops' = ao_Impact <$> ops.
Proof. induction 1 as [|o o' ops ops' (scope & -> & _) _ IH]; [done|]. cbn. by rewrite IH. Qed.

Lemma apply_plan_valid c convergence ops ops' : role_ok c → groupable convergence = Ok ops → Forall2 (scoped c) ops ops' →
  ap_Validate (apply_plan_of c convergence ops' (foldl maximumConvergenceImpact ConvergenceImpactNone (ao_Impact <$> ops))) = Ok ().
Proof.
  intros Hrole (Hv & Hg & Hdrift & Hops)%groupable_ok Hf.
  assert (Hpl := Hv). apply pl_Validate_ok in Hpl as (_ & _ & _ & Hcn & Hdn & Hch & Hsorted & _).
  assert (Hgr := Hops). apply groupApplyOperations_ok in Hgr as (Hcons & Hids & Hmem).
  unfold ap_Validate, apply_plan_of. cbn [ap_Convergence ap_Role ap_CurrentNodeID ap_AppliedGeneration ap_DesiredGeneration ap_Operations ap_RemainingDrift
    ap_Impact is_nil]. change (items (Some ops')) with ops'.
  assert (HeqD : pl_Drift convergence = Some (items (pl_Drift convergence))) by by destruct (pl_Drift convergence).
  rewrite Hv -HeqD !N.eqb_refl Hdrift Hops -(Forall2_length _ _ _ Hf).
  rewrite (bool_decide_eq_true_2 (pl_Drift convergence = pl_Drift convergence)) //. cbn [mbind result_bind negb orb reject length Nat.eqb]. rewrite Nat.eqb_refl. cbn [negb reject].
  assert (Hr1 : match ac_role c with RoleUnsupported _ => true | _ => false end = false) by by destruct Hrole as [[-> _]|[-> _]].
  assert (Hr2 : bool_decide (ac_role c = RoleGateway) && negb (String.eqb (ac_currentNodeID c) "") = false) by by destruct Hrole as [[-> ->]|[-> _]].
  assert (Hr3 : bool_decide (ac_role c = RoleNode) && negb (is_ok (ValidateResourceID (ac_currentNodeID c))) = false) by by destruct Hrole as [[-> _]|[-> ->]].
  rewrite Hr1 Hr2 Hr3. cbn [reject].
  match goal with |- context [range ?b ops' _] => set (body := b) end.
  destruct (range_total body (λ p imp, imp = foldl maximumConvergenceImpact ConvergenceImpactNone (ao_Impact <$> p)) ops' ConvergenceImpactNone)
    as (imp & Hr & ->); [|done|].
  - intros p x q imp Heq ->. eexists. split; [|by rewrite fmap_app foldl_app].
    assert (Hx : ops' !! length p = Some x) by (rewrite Heq lookup_app_r // Nat.sub_diag //).
    destruct (Forall2_lookup_r _ _ _ _ _ Hf Hx) as (o & Ho & scope & -> & Hsv & Hsa).
    destruct (proj1 (Hmem o)) as [oid Hoid]; [by eapply list_elem_of_lookup_2|].
    unfold body. rewrite (operation_of_valid _ _ _ _ _ _ Hch Hsorted Hcons Hoid Hsv). cbn [wrap].
    apply bind_ok. exists (). split; [done|]. rewrite (ascending_check ao_ID ops' p q); [by rewrite (scoped_ids _ _ _ Hf)|done|].
    rewrite (set_scope_back _ _ _ _ Hoid) Ho (bool_decide_eq_true_2 (Some o = Some o)) //. cbn [reject negb ao_Scope set_ao_Scope].
    do 2 (apply bind_ok; exists (); split; [done|]). unfold acceptScope in Hsa. unfold as_validate in Hsv.
    assert (Hroles : bool_decide (ac_role c = RoleGateway) && negb (bool_decide (as_Role scope = RoleGateway)) = false ∧
      bool_decide (ac_role c = RoleNode) && (negb (bool_decide (as_Role scope = RoleNode)) || negb (String.eqb (as_NodeID scope) (ac_currentNodeID c))) = false).
    { destruct Hrole as [[Hrole _]|[Hrole _]]; rewrite Hrole in Hsa |- *; cbn [andb bool_decide].
      - split; [|done]. apply reject_ok in Hsa. by destruct (as_Role scope).
      - split; [done|]. by apply reject_ok in Hsa. }
    destruct Hroles as [-> ->]. done.
  - rewrite Hr. cbn [mbind result_bind]. rewrite (scoped_impacts _ _ _ Hf) bool_decide_eq_true_2 //. cbn [negb reject].
    apply bind_ok. exists (). split; [done|]. apply reject_ok. destruct ops as [|o ops]; [|by inversion Hf].
    destruct (items (pl_Changes convergence)) as [|x xs] eqn:Hxs; [rewrite Hg // N.eqb_refl; by rewrite andb_false_r|].
    exfalso. assert (Hin : operation_of (own_changes (ch_OperationID x) (x :: xs)) ≠ None).
    { unfold own_changes. cbn. by rewrite decide_True. }
    destruct (operation_of (own_changes (ch_OperationID x) (x :: xs))) as [o|] eqn:Ho; [|done].
    assert (H : o ∈ @nil ApplyOperation) by (apply Hmem; eauto). by apply not_elem_of_nil in H.
Qed.

(** Drift and changes overlap when they share a resource. *)
Lemma overlap_nil changes drift : (∀ c, c ∈ changes → key_validate (ch_Resource c) = Ok ()) →
  (∀ d, d ∈ drift → key_validate (dr_Resource d) = Ok ()) →
  overlappingApplyDrift changes drift = [] ↔ ∀ c d, c ∈ changes → d ∈ drift → ch_Resource c ≠ dr_Resource d.
Proof.
  intros Hc Hd. unfold overlappingApplyDrift. cbv zeta.
  set (m := foldl (λ m change, <[resourceOrder (ch_Resource change) := ch_Resource change]> m) ∅ changes).
  assert (Hm : ∀ k, m !! k = None ↔ ∀ c, c ∈ changes → resourceOrder (ch_Resource c) ≠ k).
  { intros k. unfold m. clear. induction changes as [|c cs IH] using rev_ind; [cbn; rewrite lookup_empty; set_solver|].
    rewrite foldl_app. cbn. rewrite lookup_insert_None IH. set_solver. }
  transitivity (omap (λ item, m !! resourceOrder (dr_Resource item)) drift = []).
  { split; intros H; [|by rewrite H]. assert (Hp := sort_by_perm resourceOrder (omap (λ item, m !! resourceOrder (dr_Resource item)) drift)).
    rewrite H in Hp. by apply Permutation_nil_l in Hp. }
  transitivity (∀ d, d ∈ drift → m !! resourceOrder (dr_Resource d) = None).
  { split.
    - intros H d Hin. destruct (m !! resourceOrder (dr_Resource d)) as [k|] eqn:Hk; [|done].
      assert (Hk' : k ∈ @nil ManagedResourceKey) by (rewrite -H; apply list_elem_of_omap; eauto). by apply not_elem_of_nil in Hk'.
    - intros H. destruct (omap _ drift) as [|k l] eqn:Ho; [done|]. exfalso.
      assert (Hk : k ∈ omap (λ item, m !! resourceOrder (dr_Resource item)) drift) by (rewrite Ho; left).
      apply list_elem_of_omap in Hk as (d & Hin & Hk). by rewrite H in Hk. }
  setoid_rewrite Hm. split.
  - intros H c d Hin Hdin Heq. apply (H d Hdin c Hin). by rewrite Heq.
  - intros H d Hdin c Hin Heq. apply (H c d Hin Hdin). apply resourceOrder_inj; auto.
Qed.

(** The changes of a planner's plan always group. *)
Lemma planned_consistent s os p : plan_result s os = Ok p → consistent (items (pl_Changes p)).
Proof.
  intros (Hs & _ & _ & Hacc & ->)%plan_result_ok c c' Hc Hc'. cbn [the_plan plan_of pl_Changes items default from_option id] in Hc, Hc'.
  apply changes_exact in Hc as (o & k & kind & i & f & t & Ho & _ & _ & ->); [|done|done].
  apply changes_exact in Hc' as (o' & k' & kind' & i' & f' & t' & Ho' & _ & _ & ->); [|done|done].
  intros Heq. cbn in Heq. by rewrite (same_id_same s o o').
Qed.

Lemma change_key_ok c : ch_validate c = Ok () → key_validate (ch_Resource c) = Ok ().
Proof. unfold ch_validate. intros H. do 4 ok_step H. units. done. Qed.
Lemma drift_key_ok d : dr_validate d = Ok () → key_validate (dr_Resource d) = Ok ().
Proof. unfold dr_validate. intros H. ok_step H. units. done. Qed.

(** ** Runs *)

Definition execution (e : apply_event) : Prop :=
  match e with GatewayApplied _ _ | NodeApplied _ _ => True | _ => False end.
Definition scope_event (e : apply_event) : Prop := match e with ScopeResolved _ _ => True | _ => False end.

(** The plan is built from the convergence plan for this coordinator. *)
Definition built_from (c : ApplyCoordinator) (convergence : ConvergencePlan) (plan : ApplyPlan) : Prop :=
  ∃ ops ops', groupable convergence = Ok ops ∧ Forall2 (scoped c) ops ops' ∧
    plan = apply_plan_of c convergence ops' (foldl maximumConvergenceImpact ConvergenceImpactNone (ao_Impact <$> ops)).

Section runs.
Context {W : Type} `{!ConvergenceHost W} `{!ApplyHost W}.

Lemma resolve_scopes_wp c done rest imp w : wp (resolve_scopes c done rest imp) w (λ r es _, Forall scope_event es ∧
  ∀ ops i, r = Ok (ops, i) → ∃ rest', ops = done ++ rest' ∧ Forall2 (scoped c) rest rest' ∧
    i = foldl maximumConvergenceImpact imp (ao_Impact <$> rest)).
Proof.
  revert done imp w. induction rest as [|o rest IH]; intros done imp w; cbn [resolve_scopes].
  { wp_step. split; [constructor|]. intros ops i [= <- <-]. exists []. split_and!; [by rewrite app_nil_r|constructor|done]. }
  wp_step. wp_step. destruct a as [scope|e]; [|wp_step; split; [by repeat constructor|done]].
  destruct (or_apply_invalid (as_validate scope);; acceptScope c scope) as [[]|e] eqn:Hok; [|wp_step; split; [by repeat constructor|done]].
  eapply wp_mono; [apply IH|]. cbn beta. intros r es w2 [Hes Hr]. split; [by constructor|]. intros ops i Hops.
  destruct (Hr ops i Hops) as (rest' & -> & Hf & ->). exists (set_ao_Scope scope o :: rest'). rewrite -app_assoc. split_and!; [done| |done].
  constructor; [|done]. exists scope. split; [done|]. apply bind_ok in Hok as ([] & Hv & Ha). split; [|done].
  by destruct (as_validate scope) as [[]|].
Qed.

Lemma buildPlan_wp c convergence w : wp (buildPlan c convergence) w (λ r es _, Forall scope_event es ∧
  ∀ plan, r = Ok plan → built_from c convergence plan ∧ ap_Validate plan = Ok ()).
Proof.
  unfold buildPlan. destruct (groupable convergence) as [ops|e] eqn:Hg; [|by wp_step; split; [constructor|]].
  wp_step. eapply wp_mono; [apply resolve_scopes_wp|]. cbn beta. intros r es w1 [Hes Hr].
  destruct r as [[ops' imp]|e]; [|wp_step; rewrite app_nil_r; by split]. cbv zeta. wp_step. rewrite app_nil_r. split; [done|].
  intros plan Hp. apply bind_ok in Hp as ([] & Hv & [= <-]). destruct (Hr ops' imp eq_refl) as (rest & -> & Hf & ->).
  split; [by exists ops, rest|]. by destruct (ap_Validate _) as [[]|].
Qed.

Lemma apply_Plan_wp c w : wp (apply_Plan c) w (λ r es _, Forall (λ e, ¬ execution e) es ∧ ∀ plan, r = Ok plan →
  ap_Validate plan = Ok () ∧ ∃ s os scopes, es = Convergence (SnapshotRead (Ok s)) :: Convergence (Discovered (sorted_manifest (sn_Applied s)) (Ok os)) :: scopes ∧
    plan_result s os = Ok (ap_Convergence plan) ∧ built_from c (ap_Convergence plan) plan).
Proof.
  assert (Hscope : ∀ es, Forall scope_event es → Forall (λ e, ¬ execution e) es).
  { intros es H. eapply Forall_impl; [exact H|]. intros [] Hs Hx; done. }
  unfold apply_Plan. destruct (ac_validate c) as [[]|e]; [|by wp_step; split; [constructor|]].
  wp_step. apply wp_tagged, wp_intro. intros r es w1 Hrun.
  assert (Hconv : Forall (λ e, ¬ execution e) (Convergence <$> es)) by (apply Forall_fmap, Forall_forall; intros ? _ []).
  destruct r as [p|e]; [|wp_step; rewrite app_nil_r; by split]. eapply wp_mono; [apply buildPlan_wp|]. cbn beta. intros r es' w2 [Hes' Hr].
  split; [apply Forall_app; auto|]. intros plan Hplan. destruct (Hr plan Hplan) as [Hb Hv]. split; [done|].
  apply Plan_ok in Hrun as (s & os & -> & Hp). exists s, os, es'. split; [done|]. destruct Hb as (ops & ops' & Hb). assert (Hb' := Hb).
  destruct Hb' as (_ & _ & ->). cbn [apply_plan_of ap_Convergence]. split; [done|]. by exists ops, ops'.
Qed.
End runs.

(** ** What a run of [Apply] may do *)

(** [e] runs the plan on the host of the coordinator, after the calls [before]. *)
Definition runs_plan (c : ApplyCoordinator) (plan : ApplyPlan) (before : list apply_event) (e : apply_event) : Prop :=
  match e with
  | GatewayApplied batch _ =>
      ac_role c = RoleGateway ∧ batch = batch_of plan ∧
      ∀ o, o ∈ items (ap_Operations plan) → ao_Scope o = MkApplyScope RoleGateway ""
  | NodeApplied batch _ =>
      ac_role c = RoleNode ∧ batch = batch_of plan ∧ GatewayRequired (ac_currentNodeID c) (Ok ()) ∈ before ∧
      ∀ o, o ∈ items (ap_Operations plan) → ao_Scope o = MkApplyScope RoleNode (ac_currentNodeID c)
  | _ => False
  end.

Lemma scope_gateway c scope : ac_role c = RoleGateway → scope_accepted c scope → scope = MkApplyScope RoleGateway "".
Proof.
  intros Hr [Hv Ha]. unfold acceptScope in Ha. rewrite Hr in Ha. apply reject_ok in Ha. unfold as_validate in Hv.
  destruct scope as [[| |raw] id]; cbn in *; try done. apply reject_ok, negb_false_iff, String.eqb_eq in Hv. by subst.
Qed.
Lemma scope_node c scope : ac_role c = RoleNode → scope_accepted c scope → scope = MkApplyScope RoleNode (ac_currentNodeID c).
Proof.
  intros Hr [Hv Ha]. unfold acceptScope in Ha. rewrite Hr in Ha. apply reject_ok in Ha. bool_facts.
  destruct scope as [role id]; cbn in *. apply String.eqb_eq in H0. by subst.
Qed.

Lemma built_scopes c convergence plan : built_from c convergence plan → ∀ o, o ∈ items (ap_Operations plan) →
  ∃ scope, ao_Scope o = scope ∧ scope_accepted c scope.
Proof.
  intros (ops & ops' & _ & Hf & ->) o [i Hi]%list_elem_of_lookup. cbn in Hi.
  destruct (Forall2_lookup_r _ _ _ _ _ Hf Hi) as (o0 & _ & scope & -> & Hs). by exists scope.
Qed.

Lemma executed_ids executed batch : ax_validate executed batch = Ok () →
  ax_AppliedGeneration executed = ab_DesiredGeneration batch ∧ ax_OperationIDs executed = Some (ao_ID <$> items (ab_Operations batch)).
Proof. unfold ax_validate. cbv zeta. intros H. ok_inv H. by bool_facts. Qed.

(** The result states the approved plan. *)
Definition result_of_plan (plan : ApplyPlan) (res : ApplyResult) : Prop :=
  ar_Generation res = ap_DesiredGeneration plan ∧ ar_OperationIDs res = Some (ao_ID <$> items (ap_Operations plan)) ∧
  ar_RemainingDrift res = Some (items (ap_RemainingDrift plan)).

Lemma ap_Validate_no_gap plan : ap_Validate plan = Ok () → items (ap_Operations plan) = [] →
  ap_AppliedGeneration plan = ap_DesiredGeneration plan.
Proof.
  unfold ap_Validate. intros Hv Hnil. do 12 ok_step Hv. apply reject_ok in Hv. rewrite Hnil in Hv. cbn in Hv. by bool_facts.
Qed.

Section apply_runs.
Context {W : Type} `{!ConvergenceHost W} `{!ApplyHost W}.

Lemma run_plan_wp c convergence plan w : built_from c convergence plan → ap_Validate plan = Ok () →
  wp (run_plan c plan) w (λ r es _,
    (Forall (λ e, ¬ execution e) es ∨
     ∃ before e, es = before ++ [e] ∧ Forall (λ e, ¬ execution e) before ∧ items (ap_Operations plan) ≠ [] ∧ runs_plan c plan before e) ∧
    ∀ res, r = Ok res → result_of_plan plan res ∧ (ar_Changed res = true → ∃ e, e ∈ es ∧ execution e)).
Proof.
  intros Hb Hv. assert (Hscopes := built_scopes c convergence plan Hb). unfold run_plan. apply wp_bind.
  set (pre := λ e : apply_event, ∃ res, e = GatewayRequired (ac_currentNodeID c) res).
  assert (Hpre : ∀ es, Forall pre es → Forall (λ e, ¬ execution e) es).
  { intros es H. eapply Forall_impl; [exact H|]. intros e [res ->] []. }
  eapply (wp_mono _ _ (λ r es _, Forall pre es ∧ (r = Ok () → ac_role c = RoleNode → GatewayRequired (ac_currentNodeID c) (Ok ()) ∈ es))).
  { case_bool_decide as Hrole; wp_step; [|by split; [constructor|]]. split; [by repeat constructor; eexists|]. intros -> _. left. }
  intros reach es w1 [Hes Hreach]. apply Hpre in Hes. destruct reach as [[]|e]; [|wp_step; rewrite app_nil_r; split; [by left|done]].
  destruct (length (items (ap_Operations plan)) =? 0)%nat eqn:Hlen.
  { apply Nat.eqb_eq in Hlen. wp_step. rewrite app_nil_r. split; [by left|]. intros res [= <-]. split; [|done].
    apply nil_length_inv in Hlen. unfold result_of_plan. cbn. rewrite Hlen. by rewrite ap_Validate_no_gap. }
  apply Nat.eqb_neq in Hlen. assert (Hne : items (ap_Operations plan) ≠ []) by by destruct (items (ap_Operations plan)).
  assert (Hitems : items (ab_Operations (batch_of plan)) = items (ap_Operations plan)) by by cbn; destruct (items (ap_Operations plan)).
  wp_step. unfold execute_batch. destruct (ac_role c) as [| |raw] eqn:Hrole.
  3: { wp_step. wp_step. rewrite !app_nil_r. split; [by left|done]. }
  all: wp_step; wp_step; wp_step; rewrite app_nil_r; destruct a as [executed|e]; cbn [wrap]; wp_step; rewrite app_nil_r.
  all: (split; [right; eexists es, _; split_and!; [reflexivity|done|done|]; cbn; split_and!; try done; try (by apply Hreach);
    intros o Ho; destruct (Hscopes o Ho) as (scope & -> & Hs); first [by apply (scope_gateway c)|by apply (scope_node c)]|]).
  all: intros res Hres; try done; apply bind_ok in Hres as ([] & Hx & [= <-]).
  all: assert (Hx' : ax_validate executed (batch_of plan) = Ok ()) by (by destruct (ax_validate executed (batch_of plan)) as [[]|]).
  all: apply executed_ids in Hx' as [Hgen Hids]; rewrite Hitems in Hids; split; [|intros _; eexists; split; [apply elem_of_app; right; left|done]].
  all: unfold result_of_plan; cbn [ar_Generation ar_OperationIDs ar_RemainingDrift]; rewrite Hids; cbn [items default from_option].
  all: split_and!; [done|by unfold id; destruct (items (ap_Operations plan))|done].
Qed.
End apply_runs.

Lemma built_ids c convergence plan : built_from c convergence plan →
  StronglySorted str_lt (ao_ID <$> items (ap_Operations plan)) ∧
  ∀ id, id ∈ ao_ID <$> items (ap_Operations plan) → validateOperationID id = Ok ().
Proof.
  intros (ops & ops' & (Hv & _ & _ & Hops)%groupable_ok & Hf & ->). cbn [apply_plan_of ap_Operations items default from_option id].
  change (id ops') with ops'. rewrite (scoped_ids _ _ _ Hf). apply groupApplyOperations_ok in Hops as (_ & Hs & Hm). split; [done|].
  intros i (o & -> & Ho)%list_elem_of_fmap. apply Hm in Ho as [oid Ho].
  apply pl_Validate_ok in Hv as (_ & _ & _ & _ & _ & Hch & _). destruct (own_changes oid _) as [|x xs] eqn:Hown; [done|].
  assert (Hx : x ∈ own_changes oid (items (pl_Changes convergence))) by (rewrite Hown; left).
  apply elem_of_own in Hx as [_ Hx]. destruct (Hch x Hx) as (Hxv & _). unfold ch_validate in Hxv.
  apply bind_ok in Hxv as ([] & Hid & _). apply reject_ok, orb_false_iff in Hid as [Hid%negb_false_iff _]. injection Ho as <-. cbn.
  by apply is_ok_true in Hid as [[] ?].
Qed.

Lemma drift_loop_ok (body : nat → OwnedDrift → string → result string) drift : (∀ d, d ∈ drift → dr_validate d = Ok ()) →
  StronglySorted str_lt ((λ d, resourceOrder (dr_Resource d)) <$> drift) →
  (∀ i d previous, body i d previous = (wrap "remaining drift" (dr_validate d);;
    let order := resourceOrder (dr_Resource d) in
    reject ((0 <? i)%nat && str_leb order previous) (Message "remaining drift must use unique ascending resources");; Ok order)) →
  ∃ s, range body drift "" = Ok s.
Proof.
  intros Hv Hs Hbody.
  destruct (range_total body (λ p s, ∀ d, last p = Some d → s = resourceOrder (dr_Resource d)) drift "") as (s & Hr & _); [|done|by exists s].
  intros p d q s Heq HP. assert (Hd : d ∈ drift) by (rewrite Heq; set_solver). eexists. split.
  2: { intros d'. rewrite last_snoc. intros [= <-]. reflexivity. }
  rewrite Hbody (Hv d Hd). cbn [wrap]. apply bind_ok. exists (). split; [done|]. cbv zeta. apply bind_ok. exists (). split; [|done].
  apply reject_ok. destruct (length p) as [|i] eqn:Hl; [done|]. cbn [Nat.ltb Nat.leb andb]. apply str_leb_false.
  destruct (last p) as [d'|] eqn:Hlast; [|by apply last_None in Hlast as ->]. rewrite (HP d' eq_refl).
  apply (sorted_lt_next _ i _ _ Hs); rewrite list_lookup_fmap Heq.
  - rewrite lookup_app_l; [lia|]. rewrite last_lookup Hl in Hlast. cbn in Hlast. by rewrite Hlast.
  - rewrite -Hl lookup_app_r // Nat.sub_diag //.
Qed.

Lemma result_wellformed c convergence plan res : built_from c convergence plan → result_of_plan plan res → ar_Validate res = Ok ().
Proof.
  intros Hb (Hg & Hi & Hd). destruct (built_ids _ _ _ Hb) as [Hs Hids]. destruct Hb as (ops & ops' & (Hv & _ & _ & _)%groupable_ok & Hf & ->).
  apply pl_Validate_ok in Hv as (Hdg & _ & _ & _ & _ & _ & _ & Hdr & Hds & _). unfold ar_Validate.
  rewrite Hg Hi Hd. cbn [apply_plan_of ap_DesiredGeneration ap_RemainingDrift is_nil orb reject].
  apply bind_ok. exists (). split; [by apply reject_ok, N.eqb_neq|]. apply bind_ok. exists (). split; [done|].
  apply bind_ok. exists (). split.
  - apply range_check_ok. intros i id Hid. apply bind_ok. exists (). split.
    + rewrite Hids; [by eapply list_elem_of_lookup_2|done].
    + apply reject_ok. destruct i as [|i]; [done|]. apply str_leb_false.
      destruct (items (Some (ao_ID <$> items (ap_Operations (apply_plan_of c convergence ops' (foldl maximumConvergenceImpact ConvergenceImpactNone (ao_Impact <$> ops)))))) !! i) as [y|] eqn:Hy.
      * cbn. by apply (sorted_lt_next _ i _ _ Hs).
      * apply lookup_ge_None in Hy. apply lookup_lt_Some in Hid. exfalso. cbn in *. lia.
  - apply bind_ok. change (items (Some (items (Some (items (pl_Drift convergence)))))) with (items (pl_Drift convergence)).
    edestruct drift_loop_ok as [s Hr]; [intros d Hin; apply (Hdr d Hin)|exact Hds|reflexivity|]. exists s. split; [exact Hr|done].
Qed.

Section theorems.
Context {W : Type} `{!ConvergenceHost W} `{!ApplyHost W}.

Lemma Apply_wp c approved w : wp (Apply c approved) w (λ r es _,
  (Forall (λ e, ¬ execution e) es ∨
   ∃ s os calls e, es = Convergence (SnapshotRead (Ok s)) :: Convergence (Discovered (sorted_manifest (sn_Applied s)) (Ok os)) :: calls ++ [e] ∧
     Forall (λ e, ¬ execution e) calls ∧ plan_result s os = Ok (ap_Convergence approved) ∧ ap_Validate approved = Ok () ∧
     items (ap_Operations approved) ≠ [] ∧ runs_plan c approved calls e) ∧
  ∀ res, r = Ok res → result_of_plan approved res ∧ ar_Validate res = Ok () ∧ (ar_Changed res = true → ∃ e, e ∈ es ∧ execution e)).
Proof.
  unfold Apply. destruct (ac_validate c;; or_apply_invalid (ap_Validate approved)) as [[]|e] eqn:Hok; [|wp_step; split; [by left; constructor|done]].
  wp_step. eapply wp_mono; [apply apply_Plan_wp|]. cbn beta. intros planned es w1 [Hes Hplan].
  destruct planned as [fresh|e]; [|wp_step; rewrite app_nil_r; split; [by left|done]].
  destruct (Hplan fresh eq_refl) as (Hv & s & os & scopes & -> & Hp & Hb). apply Forall_cons in Hes as [_ Hes]. apply Forall_cons in Hes as [_ Hes].
  case_bool_decide as Heq; cbn [negb]; [subst fresh|wp_step; rewrite app_nil_r; split; [left; repeat constructor; [by intros []|by intros []|done]|done]].
  eapply wp_mono; [exact (run_plan_wp c _ approved w1 Hb Hv)|]. cbn beta. intros r es' w2 [Hrun Hres]. split.
  - destruct Hrun as [Hnone|(before & e & -> & Hbefore & Hne & Hr)].
    + left. cbn. constructor; [by intros []|]. constructor; [by intros []|]. by apply Forall_app.
    + right. exists s, os, (scopes ++ before), e. cbn. rewrite app_assoc. split_and!; [done|by apply Forall_app|done|done|done|].
      destruct e; cbn in Hr |- *; try done. destruct Hr as (? & ? & ? & ?). split_and!; try done. set_solver.
  - intros res Hr. destruct (Hres res Hr) as [Hof Hch]. split; [done|]. split; [by eapply result_wellformed|].
    intros Hc. destruct (Hch Hc) as (e & He & Hx). exists e. split; [set_solver|done].
Qed.

(** C21: An executor is called at most once in a run of Apply, as the last call, and only for
    the approved plan: the plan was valid, was planned again from a snapshot and a discovery
    of this run and came out identical, has operations, and they all belong to this host; a
    node calls its executor only after the gateway was found reachable. *)
Theorem apply_runs_only_approved c approved w r es w' : Apply c approved w = (r, es, w') →
  Forall (λ e, ¬ execution e) es ∨
  ∃ s os calls e, es = Convergence (SnapshotRead (Ok s)) :: Convergence (Discovered (sorted_manifest (sn_Applied s)) (Ok os)) :: calls ++ [e] ∧
    Forall (λ e, ¬ execution e) calls ∧ (c ← canonicalSnapshot s; plan_from c os) = Ok (ap_Convergence approved) ∧
    ap_Validate approved = Ok () ∧ items (ap_Operations approved) ≠ [] ∧ runs_plan c approved calls e.
Proof. intros H. exact (proj1 (wp_run _ _ _ _ _ _ (Apply_wp c approved w) H)). Qed.

(** A result of Apply is well formed (valid, unique and ordered identifiers, valid and
    ordered drift, a positive generation): it has reached the desired generation of the
    approved plan, names exactly its operations and repeats its remaining drift, and it
    reports a change only when an executor ran. *)
Theorem apply_result_wellformed c approved w res es w' : Apply c approved w = (Ok res, es, w') →
  ar_Validate res = Ok () ∧ result_of_plan approved res ∧ (ar_Changed res = true → ∃ e, e ∈ es ∧ execution e).
Proof.
  intros H. destruct (wp_run _ _ _ _ _ _ (Apply_wp c approved w) H) as [_ Hr]. destruct (Hr res eq_refl) as (H1 & H2 & H3). done.
Qed.
End theorems.

(** ** Building the plan *)

Lemma grouped_partition changes ops : NoDup changes → groupApplyOperations changes = Ok ops →
  (ops ≫= λ o, items (ao_Changes o)) ≡ₚ changes ∧ ∀ o x, o ∈ ops → x ∈ items (ao_Changes o) → ch_OperationID x = ao_ID o.
Proof.
  intros Hnd (_ & Hs & Hm)%groupApplyOperations_ok.
  assert (Hch : ∀ o, o ∈ ops → items (ao_Changes o) = own_changes (ao_ID o) changes).
  { intros o [id Ho]%Hm. assert (Hid := operation_of_own _ _ _ Ho). rewrite Hid. destruct (own_changes id changes) eqn:Hown; [done|]. by injection Ho as <-. }
  assert (Hid : ∀ o x, o ∈ ops → x ∈ items (ao_Changes o) → ch_OperationID x = ao_ID o).
  { intros o x Ho. rewrite Hch // elem_of_own. by intros [? _]. }
  split; [|done]. apply NoDup_Permutation.
  - apply NoDup_bind.
    + intros o o' x Ho Ho' Hx Hx'. assert (Heq : ao_ID o = ao_ID o') by (rewrite -(Hid o x) // -(Hid o' x) //).
      apply sorted_lt_NoDup in Hs. apply list_elem_of_lookup in Ho as [i Hi], Ho' as [j Hj].
      assert (i = j) as ->; [|congruence]. apply (NoDup_lookup _ _ _ (ao_ID o) Hs); rewrite list_lookup_fmap; [by rewrite Hi|by rewrite Hj Heq].
    + intros o Ho. rewrite Hch //. by apply NoDup_filter.
    + by apply (NoDup_fmap_1 ao_ID), sorted_lt_NoDup.
  - done.
  - intros x. rewrite list_elem_of_bind. split.
    + intros (o & Hx & Ho). rewrite Hch // in Hx. by apply elem_of_own in Hx as [_ ?].
    + intros Hx. destruct (operation_of (own_changes (ch_OperationID x) changes)) as [o|] eqn:Ho.
      * assert (Hin : o ∈ ops) by (apply Hm; eauto). exists o. split; [|done]. rewrite Hch // (operation_of_own _ _ _ Ho). by apply elem_of_own.
      * assert (Hin : x ∈ own_changes (ch_OperationID x) changes) by by apply elem_of_own.
        destruct (own_changes (ch_OperationID x) changes); [by apply not_elem_of_nil in Hin|done].
Qed.

Section building.
Context {W : Type} `{!ConvergenceHost W} `{!ApplyHost W}.

Lemma resolve_scopes_total c done rest imp w :
  (∀ o w, ∃ scope w', ResolveApplyScope o w = (Ok scope, w') ∧ scope_accepted c scope) →
  ∃ rest' es w', resolve_scopes c done rest imp w = (Ok (done ++ rest', foldl maximumConvergenceImpact imp (ao_Impact <$> rest)), es, w') ∧
    Forall2 (scoped c) rest rest'.
Proof.
  intros Hres. revert done imp w. induction rest as [|o rest IH]; intros done imp w; cbn [resolve_scopes].
  { eexists [], _, _. rewrite app_nil_r. split; [reflexivity|constructor]. }
  destruct (Hres o w) as (scope & w1 & Hcall & Hacc). unfold mbind at 1, proc_bind, call. rewrite Hcall. cbn beta iota.
  assert (Hok : (or_apply_invalid (as_validate scope);; acceptScope c scope) = Ok ()) by (destruct Hacc as [-> ->]; done). rewrite Hok.
  destruct (IH (done ++ [set_ao_Scope scope o]) (maximumConvergenceImpact imp (ao_Impact o)) w1) as (rest' & es & w2 & Hrun & Hf).
  rewrite Hrun. exists (set_ao_Scope scope o :: rest'). do 2 eexists. rewrite -app_assoc. split; [reflexivity|]. constructor; [|done]. by exists scope.
Qed.

(** A plan of the planner whose drift touches none of its changes, and which does not
    advance the generation without a change, can always be built into a plan to apply when
    every operation is placed on this host: grouping never meets changes that disagree about
    their operation, the final check never fails, and the operations partition the changes. *)
Theorem build_plan_total c s os p w : role_ok c → (d ← canonicalSnapshot s; plan_from d os) = Ok p →
  (items (pl_Changes p) = [] → pl_DesiredGeneration p = pl_AppliedGeneration p) →
  (∀ x d, x ∈ items (pl_Changes p) → d ∈ items (pl_Drift p) → ch_Resource x ≠ dr_Resource d) →
  (∀ o w, ∃ scope w', ResolveApplyScope o w = (Ok scope, w') ∧ scope_accepted c scope) →
  ∃ plan es w', buildPlan c p w = (Ok plan, es, w') ∧ ap_Validate plan = Ok () ∧
    (items (ap_Operations plan) ≫= λ o, items (ao_Changes o)) ≡ₚ items (pl_Changes p) ∧
    ∀ o x, o ∈ items (ap_Operations plan) → x ∈ items (ao_Changes o) → ch_OperationID x = ao_ID o.
Proof.
  intros Hrole Hp Hgen Hdis Hres. fold (plan_result s os) in Hp. assert (Hcons := planned_consistent s os p Hp).
  assert (Hpv : pl_Validate p = Ok ()) by (apply plan_result_ok in Hp as (? & ? & ? & ? & ->); by apply the_plan_valid).
  assert (Hpl := Hpv). apply pl_Validate_ok in Hpl as (_ & _ & _ & _ & _ & Hch & Hs & Hdr & _).
  destruct (group_loop_total _ Hcons) as (m & Hm & _). assert (Hg : groupApplyOperations (items (pl_Changes p)) = Ok (sort_by ao_ID (map_to_list m).*2)).
  { unfold groupApplyOperations. by rewrite Hm. }
  set (ops := sort_by ao_ID (map_to_list m).*2) in Hg. assert (Hgo : groupable p = Ok ops).
  { apply groupable_ok. split_and!; [done|done| |done]. apply overlap_nil; [|intros d Hd; apply drift_key_ok, (Hdr d Hd)|done].
    intros x Hx. apply change_key_ok, (Hch x Hx). }
  destruct (resolve_scopes_total c [] ops ConvergenceImpactNone w Hres) as (ops' & es & w' & Hrun & Hf).
  assert (Hval := apply_plan_valid c p ops ops' Hrole Hgo Hf).
  eexists (apply_plan_of c p ops' _), _, w'. split; [|split; [exact Hval|]].
  - unfold buildPlan. rewrite Hgo. unfold mbind at 1, proc_bind. rewrite Hrun. cbn beta iota zeta. change ([] ++ ops') with ops'.
    rewrite Hval. reflexivity.
  - cbn [apply_plan_of ap_Operations]. change (items (Some ops')) with ops'.
    assert (Hnd : NoDup (items (pl_Changes p))) by by eapply NoDup_fmap_1, sorted_lt_NoDup.
    destruct (grouped_partition _ _ Hnd Hg) as [Hpart Hids].
    assert (Heq : (ops' ≫= λ o, items (ao_Changes o)) = (ops ≫= λ o, items (ao_Changes o))).
    { clear -Hf. induction Hf as [|o o' l l' (scope & -> & _) _ IH]; [done|]. by rewrite !bind_cons IH. }
    rewrite Heq. split; [done|]. intros o' x [i Hi]%list_elem_of_lookup. destruct (Forall2_lookup_r _ _ _ _ _ Hf Hi) as (o & Ho & scope & -> & _).
    cbn. apply Hids. by eapply list_elem_of_lookup_2.
Qed.
End building.

(** ** A gateway that runs its two operations *)

#[export] Instance sample_apply_host : ApplyHost () := {|
  ResolveApplyScope := λ _ w, (Ok (MkApplyScope RoleGateway ""), w);
  ApplyGateway := λ b w, (Ok (MkApplyExecutionResult true (ab_DesiredGeneration b) (Some (ao_ID <$> items (ab_Operations b)))), w);
  RequireGateway := λ _ w, (Ok (), w);
  ApplyCurrentNode := λ _ w, (Err (Message "not a node"), w)
|}.

Definition sample_approved : ApplyPlan :=
  Eval vm_compute in match (apply_Plan (W := ()) NewGatewayApplyCoordinator ()).1.1 with
    | Ok p => p
    | Err _ => MkApplyPlan RoleGateway "" 0 0 ConvergenceImpactNone None None sample_plan
    end.
Definition sample_apply_run : result ApplyResult * list apply_event * () := Apply NewGatewayApplyCoordinator sample_approved ().
Definition sample_apply_result : ApplyResult :=
  Eval vm_compute in match sample_apply_run.1.1 with Ok r => r | Err _ => MkApplyResult false 0 None None end.

Lemma sample_apply_ok : Apply NewGatewayApplyCoordinator sample_approved () = (Ok sample_apply_result, sample_apply_run.1.2, ()).
Proof. vm_compute. reflexivity. Qed.

Lemma apply_runs_only_approved_witness :
  (∃ s os calls e, sample_apply_run.1.2 = Convergence (SnapshotRead (Ok s)) :: Convergence (Discovered (sorted_manifest (sn_Applied s)) (Ok os)) :: calls ++ [e] ∧
    runs_plan NewGatewayApplyCoordinator sample_approved calls e).
Proof.
  destruct (apply_runs_only_approved _ _ _ _ _ _ sample_apply_ok) as [Hnone|(s & os & calls & e & Hes & _ & _ & _ & _ & Hr)].
  - exfalso. rewrite Forall_forall in Hnone. apply (Hnone (GatewayApplied (batch_of sample_approved) (Ok (MkApplyExecutionResult true 5 (Some ["op-1"; "op-2"]))))).
    + vm_compute. do 4 right. left.
    + exact I.
  - exists s, os, calls, e. split; [exact Hes|exact Hr].
Defined.

Lemma apply_result_wellformed_witness :
  ar_Validate sample_apply_result = Ok () ∧ ar_OperationIDs sample_apply_result = Some ["op-1"; "op-2"] ∧ ar_Generation sample_apply_result = 5%N.
Proof.
  destruct (apply_result_wellformed _ _ _ _ _ _ sample_apply_ok) as (Hv & (Hg & Hi & _) & _). split; [exact Hv|].
  split; [exact Hi|exact Hg].
Defined.

Lemma build_plan_total_witness :
  ∃ plan es w', buildPlan NewGatewayApplyCoordinator sample_plan () = (Ok plan, es, w') ∧ ap_Validate plan = Ok ().
Proof.
  destruct (build_plan_total NewGatewayApplyCoordinator sample_snapshot sample_observations sample_plan ()) as (plan & es & w' & Hb & Hv & _).
  - left. split; reflexivity.
  - vm_compute. reflexivity.
  - intros H. vm_compute in H. discriminate H.
  - intros x d Hx Hd Heq. apply (f_equal key_ID) in Heq. apply list_elem_of_In in Hx, Hd. vm_compute in Hx, Hd.
    repeat (destruct Hx as [<-|Hx]; [repeat (destruct Hd as [<-|Hd]; [vm_compute in Heq; discriminate Heq|]); destruct Hd|]). destruct Hx.
  - intros o w. exists (MkApplyScope RoleGateway ""), w. split; [reflexivity|]. split; reflexivity.
  - exists plan, es, w'. split; [exact Hb|exact Hv].
Defined.
