(* ===== verification/Repair.v ===== *)
(** * Repairing drift ([internal/operations/repair.go])

    Every drifted resource of a convergence plan becomes one action, placed on the host
    that owns the resource; the executor of this host runs the approved actions and must
    report that each resource reached the state of the last applied generation.  The second
    half shows that only an approved repair runs and that one that succeeds converges. *)

From S2P Require Import Prelude GoTime Proc GoText GoNet Types Checks Expose Ordered Resources LocalTx Convergence ConvergenceFacts ConvergenceClaims Apply ApplyFacts.

Local Open Scope string_scope.
Local Open Scope list_scope.

Inductive RepairActionKind :=
  | RepairRestore | RepairRemove
  | RepairActionUnsupported (raw : string).

#[export] Instance RepairActionKind_eq_dec : EqDecision RepairActionKind.
Proof. solve_decision. Defined.

Record RepairAction := MkRepairAction {
  ra_Resource : ManagedResourceKey;
  ra_DriftKind : OwnedDriftKind;
  ra_Action : RepairActionKind;
  ra_Impact : ConvergenceImpact;
  ra_Scope : ApplyScope;
  ra_TargetSHA256 : string;
  ra_ObservedSHA256 : string;
  ra_RestartUnits : slice string
}.

#[export] Instance RepairAction_eq_dec : EqDecision RepairAction.
Proof. solve_decision. Defined.

Record RepairPlan := MkRepairPlan {
  rp_Role : Role;
  rp_CurrentNodeID : string;
  rp_TargetGeneration : N;
  rp_Impact : ConvergenceImpact;
  rp_Actions : slice RepairAction;
  rp_Convergence : ConvergencePlan
}.

#[export] Instance RepairPlan_eq_dec : EqDecision RepairPlan.
Proof. solve_decision. Defined.

Record RepairExecutionBatch := MkRepairExecutionBatch {
  rb_Role : Role;
  rb_CurrentNodeID : string;
  rb_TargetGeneration : N;
  rb_Actions : slice RepairAction;
  rb_Convergence : ConvergencePlan
}.

Record RepairResourceResult := MkRepairResourceResult {
  rs_Resource : ManagedResourceKey;
  rs_Present : bool;
  rs_RuntimeSHA256 : string
}.

Record RepairExecutionResult := MkRepairExecutionResult {
  rx_Changed : bool;
  rx_TargetGeneration : N;
  rx_Resources : slice RepairResourceResult
}.

Record RepairResult := MkRepairResult {
  rr_Changed : bool;
  rr_Generation : N;
  rr_Actions : slice RepairAction;
  rr_Resources : slice RepairResourceResult
}.

(** As for apply: the flags say which executor is present. *)
Record RepairCoordinator := MkRepairCoordinator {
  rc_role : Role;
  rc_currentNodeID : string;
  rc_gateway : bool;
  rc_node : bool
}.

Definition NewGatewayRepairCoordinator : RepairCoordinator := MkRepairCoordinator RoleGateway "" true false.

Definition NewNodeRepairCoordinator (currentNodeID : string) : result RepairCoordinator :=
  wrap "current node ID" (ValidateResourceID currentNodeID);;
  Ok (MkRepairCoordinator RoleNode currentNodeID false true).

Definition rc_validate (c : RepairCoordinator) : result unit :=
  match rc_role c with
  | RoleGateway =>
      reject (negb (String.eqb (rc_currentNodeID c) "") || negb (rc_gateway c) || rc_node c)
        (Message "gateway repair coordinator has invalid dependencies")
  | RoleNode =>
      reject (negb (is_ok (ValidateResourceID (rc_currentNodeID c))) || negb (rc_node c) || rc_gateway c)
        (Message "node repair coordinator has invalid dependencies")
  | RoleUnsupported _ => Err (Message "repair coordinator role is invalid")
  end.

Definition repair_invalid : error := Sentinel ErrRepairInvalid.
Definition or_repair_invalid {A} (m : result A) : result A := match m with Ok a => Ok a | Err _ => Err repair_invalid end.

(** ** Actions *)

(** The kind of a valid drift decides the action; the zero scope and no restarts. *)
Definition repairActionFromDrift (drift : OwnedDrift) : result RepairAction :=
  or_repair_invalid (dr_validate drift);;
  let action kind :=
    MkRepairAction (dr_Resource drift) (dr_Kind drift) kind (dr_Impact drift) zero_scope (dr_ExpectedSHA256 drift) (dr_ActualSHA256 drift) None in
  match dr_Kind drift with
  | OwnedDriftMissing | OwnedDriftModified => Ok (action RepairRestore)
  | OwnedDriftUnexpected => Ok (action RepairRemove)
  | OwnedDriftUnsupported _ => Err repair_invalid
  end.

Definition acceptRepairScope (role : Role) (currentNodeID : string) (scope : ApplyScope) : result unit :=
  match role with
  | RoleGateway => reject (bool_decide (as_Role scope = RoleNode)) (Sentinel ErrRepairNodeAgentUnavailable)
  | RoleNode =>
      reject (negb (bool_decide (as_Role scope = RoleNode)) || negb (String.eqb (as_NodeID scope) currentNodeID)) (Sentinel ErrRepairConflict)
  | RoleUnsupported _ => Ok ()
  end.

Definition set_ra_Scope (scope : ApplyScope) (a : RepairAction) : RepairAction :=
  MkRepairAction (ra_Resource a) (ra_DriftKind a) (ra_Action a) (ra_Impact a) scope (ra_TargetSHA256 a) (ra_ObservedSHA256 a) (ra_RestartUnits a).
Definition set_ra_RestartUnits (units : slice string) (a : RepairAction) : RepairAction :=
  MkRepairAction (ra_Resource a) (ra_DriftKind a) (ra_Action a) (ra_Impact a) (ra_Scope a) (ra_TargetSHA256 a) (ra_ObservedSHA256 a) units.

Definition ra_validate (action : RepairAction) : result unit :=
  key_validate (ra_Resource action);;
  reject (negb (validConvergenceImpact (ra_Impact action))) (Message "impact is unsupported");;
  as_validate (ra_Scope action);;
  _ ← range (λ _ name seenRestart,
    reject (String.eqb name "") (Message "restart unit is empty");;
    check_unique name (Message "restart unit is duplicated") seenRestart) (items (ra_RestartUnits action)) ∅;
  reject (bool_decide (key_Kind (ra_Resource action) = ManagedResourceUnit) && negb (length (items (ra_RestartUnits action)) =? 0)%nat)
    (Message "unit repair cannot contain dependent restarts");;
  let target := ra_TargetSHA256 action in
  let observed := ra_ObservedSHA256 action in
  match ra_DriftKind action with
  | OwnedDriftMissing =>
      reject (negb (bool_decide (ra_Action action = RepairRestore)) || negb (fingerprint_ok target) || negb (String.eqb observed ""))
        (Message "missing-resource repair is invalid")
  | OwnedDriftModified =>
      reject (negb (bool_decide (ra_Action action = RepairRestore)) || negb (fingerprint_ok target) || negb (fingerprint_ok observed)
              || String.eqb target observed) (Message "modified-resource repair is invalid")
  | OwnedDriftUnexpected =>
      reject (negb (bool_decide (ra_Action action = RepairRemove)) || negb (String.eqb target "") || negb (fingerprint_ok observed))
        (Message "unexpected-resource repair is invalid")
  | OwnedDriftUnsupported _ => Err (Message "drift kind is unsupported")
  end.

(** ** Validation *)

Definition rp_Validate (plan : RepairPlan) : result unit :=
  pl_Validate (rp_Convergence plan);;
  reject (match rp_Role plan with RoleUnsupported _ => true | _ => false end) (Message "role is invalid");;
  reject (bool_decide (rp_Role plan = RoleGateway) && negb (String.eqb (rp_CurrentNodeID plan) ""))
    (Message "gateway plan cannot contain a current node ID");;
  reject (bool_decide (rp_Role plan = RoleNode) && negb (is_ok (ValidateResourceID (rp_CurrentNodeID plan))))
    (Message "node plan requires a valid current node ID");;
  reject (negb (rp_TargetGeneration plan =? pl_AppliedGeneration (rp_Convergence plan))%N)
    (Message "repair target must be the last applied generation");;
  reject (is_nil (rp_Actions plan) || negb (length (items (rp_Actions plan)) =? length (items (pl_Drift (rp_Convergence plan))))%nat)
    (Message "actions must exactly cover vpnctl-owned drift");;
  wantImpact ← range (λ index action wantImpact,
    wrap "action" (ra_validate action);;
    match items (pl_Drift (rp_Convergence plan)) !! index with
    | None => Err (Message "index out of range")
    | Some drift =>
        want ← repairActionFromDrift drift;
        let withoutScope := set_ra_RestartUnits None (set_ra_Scope zero_scope action) in
        reject (negb (bool_decide (withoutScope = want))) (Message "action differs from owned drift");;
        reject (bool_decide (rp_Role plan = RoleGateway) && negb (bool_decide (as_Role (ra_Scope action) = RoleGateway)))
          (Message "gateway plan contains non-gateway action");;
        reject (bool_decide (rp_Role plan = RoleNode)
                && (negb (bool_decide (as_Role (ra_Scope action) = RoleNode)) || negb (String.eqb (as_NodeID (ra_Scope action)) (rp_CurrentNodeID plan))))
          (Message "node plan contains foreign action");;
        Ok (maximumConvergenceImpact wantImpact (ra_Impact action))
    end) (items (rp_Actions plan)) ConvergenceImpactNone;
  reject (negb (bool_decide (rp_Impact plan = wantImpact))) (Message "repair impact does not match").

(** One reported resource against its action. *)
Definition check_resource (action : RepairAction) (resource : RepairResourceResult) : result unit :=
  reject (negb (bool_decide (rs_Resource resource = ra_Resource action))) (Message "resource result identity differs from repair action");;
  match ra_Action action with
  | RepairRestore =>
      reject (negb (rs_Present resource) || negb (String.eqb (rs_RuntimeSHA256 resource) (ra_TargetSHA256 action)))
        (Message "resource does not match target generation hash")
  | RepairRemove => reject (rs_Present resource || negb (String.eqb (rs_RuntimeSHA256 resource) "")) (Message "unexpected resource is still present")
  | RepairActionUnsupported _ => Err (Message "resource result has unsupported action")
  end.

Definition rx_validate (result : RepairExecutionResult) (batch : RepairExecutionBatch) : Prelude.result unit :=
  reject (negb (rx_TargetGeneration result =? rb_TargetGeneration batch)%N || is_nil (rx_Resources result)
          || negb (length (items (rx_Resources result)) =? length (items (rb_Actions batch)))%nat)
    (Message "target generation or resource result count differs from repair batch");;
  range_check (λ index resource,
    match items (rb_Actions batch) !! index with
    | None => Err (Message "index out of range")
    | Some action => check_resource action resource
    end) (items (rx_Resources result)).

(** [append([]T{}, xs...)] turns a nil slice into an empty one. *)
Definition cloneConvergencePlan (plan : ConvergencePlan) : ConvergencePlan :=
  MkConvergencePlan (pl_DesiredGeneration plan) (pl_AppliedGeneration plan) (pl_Impact plan)
    (Some (items (pl_Changes plan))) (Some (items (pl_Drift plan))).
Definition cloneRepairActions (actions : slice RepairAction) : slice RepairAction := Some (items actions).

Definition repairExecutionBatch (plan : RepairPlan) : RepairExecutionBatch :=
  MkRepairExecutionBatch (rp_Role plan) (rp_CurrentNodeID plan) (rp_TargetGeneration plan)
    (cloneRepairActions (rp_Actions plan)) (cloneConvergencePlan (rp_Convergence plan)).

Definition NewRepairExecutionBatch (plan : RepairPlan) : result RepairExecutionBatch :=
  or_repair_invalid (rp_Validate plan);;
  Ok (repairExecutionBatch plan).

Definition rb_Validate (batch : RepairExecutionBatch) : result unit :=
  let impact := foldl maximumConvergenceImpact ConvergenceImpactNone (ra_Impact <$> items (rb_Actions batch)) in
  rp_Validate (MkRepairPlan (rb_Role batch) (rb_CurrentNodeID batch) (rb_TargetGeneration batch) impact
                 (cloneRepairActions (rb_Actions batch)) (cloneConvergencePlan (rb_Convergence batch))).

Definition rx_Validate (result : RepairExecutionResult) (batch : RepairExecutionBatch) : Prelude.result unit :=
  wrap "repair execution batch" (rb_Validate batch);;
  rx_validate result batch.

Definition rr_Validate (result : RepairResult) : Prelude.result unit :=
  reject ((rr_Generation result =? 0)%N || is_nil (rr_Actions result) || is_nil (rr_Resources result)
          || negb (length (items (rr_Actions result)) =? length (items (rr_Resources result)))%nat) (Message "repair result is incomplete");;
  range_check (λ _ action, wrap "repair result action" (ra_validate action)) (items (rr_Actions result));;
  rx_validate (MkRepairExecutionResult (rr_Changed result) (rr_Generation result) (rr_Resources result))
    (MkRepairExecutionBatch (RoleUnsupported "") "" (rr_Generation result) (rr_Actions result)
       (MkConvergencePlan 0 0 (ConvergenceImpactUnsupported "") None None)).

(** ** Planning and repairing *)

(** [RepairScopeResolver], with the optional [RepairRestartResolver] it may also be,
    [GatewayRepairExecutor] and [CurrentNodeRepairExecutor]. *)
Class RepairHost (W : Type) := {
  ResolveRepairScope : RepairAction → W → result ApplyScope * W;
  ResolveRepairRestartUnits : option (RepairAction → W → result (slice string) * W);
  RepairGateway : RepairExecutionBatch → W → result RepairExecutionResult * W;
  repair_RequireGateway : string → W → result unit * W;
  RepairCurrentNode : RepairExecutionBatch → W → result RepairExecutionResult * W
}.

Inductive repair_event :=
  | RepairConvergence (e : convergence_event)
  | RepairScopeResolved (action : RepairAction) (outcome : result ApplyScope)
  | RestartsResolved (action : RepairAction) (outcome : result (slice string))
  | RepairGatewayRequired (nodeID : string) (outcome : result unit)
  | GatewayRepaired (batch : RepairExecutionBatch) (outcome : result RepairExecutionResult)
  | NodeRepaired (batch : RepairExecutionBatch) (outcome : result RepairExecutionResult).

Section repair.
Context {W : Type} `{!ConvergenceHost W} `{!RepairHost W}.
Implicit Types c : RepairCoordinator.

(** One step of the loop of [BuildRepairPlan]. *)
Definition plan_action (role : Role) (currentNodeID : string) (drift : OwnedDrift) : proc W repair_event (result RepairAction) :=
  match repairActionFromDrift drift with
  | Err e => mret (Err e)
  | Ok action =>
      resolved ← call (ResolveRepairScope action) (λ res, [RepairScopeResolved action res]);
      match scope ← or_repair_invalid resolved; or_repair_invalid (as_validate scope);; acceptRepairScope role currentNodeID scope;; Ok scope with
      | Err e => mret (Err e)
      | Ok scope =>
          let action := set_ra_Scope scope action in
          match ResolveRepairRestartUnits with
          | None => mret (Ok action)
          | Some resolve =>
              units ← call (resolve action) (λ res, [RestartsResolved action res]);
              mret (units ← or_repair_invalid units; Ok (set_ra_RestartUnits units action))
          end
      end
  end.

Fixpoint plan_actions (role : Role) (currentNodeID : string) (done : list RepairAction) (rest : list OwnedDrift) (impact : ConvergenceImpact)
    : proc W repair_event (result (list RepairAction * ConvergenceImpact)) :=
  match rest with
  | [] => mret (Ok (done, impact))
  | drift :: rest' =>
      action ← plan_action role currentNodeID drift;
      match action with
      | Err e => mret (Err e)
      | Ok action => plan_actions role currentNodeID (done ++ [action]) rest' (maximumConvergenceImpact impact (ra_Impact action))
      end
  end.

Definition repairable (role : Role) (currentNodeID : string) (convergence : ConvergencePlan) : result unit :=
  match role with
  | RoleGateway => reject (negb (String.eqb currentNodeID "")) repair_invalid
  | RoleNode => or_repair_invalid (ValidateResourceID currentNodeID)
  | RoleUnsupported _ => Err repair_invalid
  end;;
  or_repair_invalid (pl_Validate convergence).

Definition BuildRepairPlan (role : Role) (currentNodeID : string) (convergence : ConvergencePlan) : proc W repair_event (result RepairPlan) :=
  match repairable role currentNodeID convergence with
  | Err e => mret (Err e)
  | Ok _ =>
      planned ← plan_actions role currentNodeID [] (items (pl_Drift convergence)) ConvergenceImpactNone;
      match planned with
      | Err e => mret (Err e)
      | Ok (actions, impact) =>
          let plan := MkRepairPlan role currentNodeID (pl_AppliedGeneration convergence) impact (Some actions) convergence in
          mret (or_repair_invalid (rp_Validate plan);; Ok plan)
      end
  end.

Definition repair_Plan c : proc W repair_event (result RepairPlan) :=
  match rc_validate c with
  | Err e => mret (Err e)
  | Ok _ =>
      convergence ← tagged RepairConvergence Plan;
      match convergence with
      | Err e => mret (Err (Wrapped "plan vpnctl-owned repair" e))
      | Ok convergence => BuildRepairPlan (rc_role c) (rc_currentNodeID c) convergence
      end
  end.

Definition execute_repair c (batch : RepairExecutionBatch) : proc W repair_event (result RepairExecutionResult) :=
  match rc_role c with
  | RoleGateway =>
      res ← call (RepairGateway batch) (λ res, [GatewayRepaired batch res]);
      mret (wrap "execute vpnctl-owned repair" res)
  | RoleNode =>
      res ← call (RepairCurrentNode batch) (λ res, [NodeRepaired batch res]);
      mret (wrap "execute vpnctl-owned repair" res)
  | RoleUnsupported _ => mret (Err repair_invalid)
  end.

(** [Repair] once the preview was found to be current. *)
Definition run_repair c (fresh : RepairPlan) : proc W repair_event (result RepairResult) :=
  reachable ← (if bool_decide (rc_role c = RoleNode)
               then call (repair_RequireGateway (rc_currentNodeID c)) (λ res, [RepairGatewayRequired (rc_currentNodeID c) res])
               else mret (Ok ()));
  match reachable with
  | Err _ => mret (Err (Sentinel ErrRepairGatewayUnavailable))
  | Ok _ =>
      if (length (items (rp_Actions fresh)) =? 0)%nat
      then mret (Ok (MkRepairResult false (rp_TargetGeneration fresh) (Some []) (Some [])))
      else
        let batch := repairExecutionBatch fresh in
        executed ← execute_repair c batch;
        match executed with
        | Err e => mret (Err e)
        | Ok executed =>
            mret (or_repair_invalid (rx_validate executed batch);;
                  Ok (MkRepairResult (rx_Changed executed) (rx_TargetGeneration executed) (cloneRepairActions (rp_Actions fresh))
                        (Some (items (rx_Resources executed)))))
        end
  end.

Definition Repair c (approved : RepairPlan) : proc W repair_event (result RepairResult) :=
  match rc_validate c;; or_repair_invalid (rp_Validate approved) with
  | Err e => mret (Err e)
  | Ok _ =>
      planned ← repair_Plan c;
      match planned with
      | Err e => mret (Err e)
      | Ok fresh =>
          if negb (bool_decide (approved = fresh)) then mret (Err (Sentinel ErrRepairConflict)) else run_repair c fresh
      end
  end.
End repair.

(** * Repairing drift: facts and theorems *)

(** ** Actions and reported resources *)

(** The action planned for a drifted resource. *)
Definition action_for (role : Role) (currentNodeID : string) (d : OwnedDrift) (a : RepairAction) : Prop :=
  ∃ base scope units, repairActionFromDrift d = Ok base ∧ a = set_ra_RestartUnits units (set_ra_Scope scope base) ∧
    as_validate scope = Ok () ∧ acceptRepairScope role currentNodeID scope = Ok ().

(** What an executor must report of a drifted resource. *)
Definition settled (d : OwnedDrift) (r : RepairResourceResult) : Prop :=
  rs_Resource r = dr_Resource d ∧
  match dr_Kind d with
  | OwnedDriftUnexpected => rs_Present r = false
  | _ => rs_Present r = true ∧ rs_RuntimeSHA256 r = dr_ExpectedSHA256 d
  end.

Lemma repairActionFromDrift_ok d a : repairActionFromDrift d = Ok a →
  dr_validate d = Ok () ∧ ra_Resource a = dr_Resource d ∧ ra_DriftKind a = dr_Kind d ∧ ra_Impact a = dr_Impact d ∧
  ra_TargetSHA256 a = dr_ExpectedSHA256 d ∧ ra_Scope a = zero_scope ∧ ra_RestartUnits a = None ∧
  ra_Action a = match dr_Kind d with OwnedDriftUnexpected => RepairRemove | _ => RepairRestore end.
Proof.
  unfold repairActionFromDrift. intros H. apply bind_ok in H as ([] & Hv & H). cbv zeta in H.
  assert (Hv' : dr_validate d = Ok ()) by (by destruct (dr_validate d) as [[]|]). split; [done|].
  by destruct (dr_Kind d); try (injection H as <-; split_and!).
Qed.

Lemma action_settled role id d a r : action_for role id d a → check_resource a r = Ok () → settled d r.
Proof.
  intros (base & scope & units & (_ & Hres & _ & _ & Htarget & _ & _ & Hact)%repairActionFromDrift_ok & -> & _) Hc. unfold check_resource in Hc.
  apply bind_ok in Hc as ([] & Hid & Hc). apply reject_ok in Hid. bool_facts. cbn in Hid, Hc. split; [congruence|].
  rewrite Hact in Hc. destruct (dr_Kind d); apply reject_ok in Hc; bool_facts; try done.
  all: split; [done|]; by apply String.eqb_eq in H0 as ->.
Qed.

Lemma rx_validate_ok result batch : rx_validate result batch = Ok () →
  rx_TargetGeneration result = rb_TargetGeneration batch ∧ rx_Resources result ≠ None ∧
  Forall2 (λ a r, check_resource a r = Ok ()) (items (rb_Actions batch)) (items (rx_Resources result)).
Proof.
  unfold rx_validate. intros H. apply bind_ok in H as ([] & Hg & H). apply reject_ok in Hg. bool_facts. split; [done|].
  split; [by destruct (rx_Resources result)|]. rewrite range_check_ok in H. apply Forall2_same_length_lookup_2.
  - apply Nat.eqb_eq in H1. done.
  - intros i a r Ha Hr. specialize (H i r Hr). by rewrite Ha in H.
Qed.

(** ** The observations after a repair *)

(** Reported resources replace what was observed of them. *)
Definition observed_after (os : list OwnedResourceObservation) (rs : list RepairResourceResult) : list OwnedResourceObservation :=
  filter (λ o, ob_Key o ∉ rs_Resource <$> rs) os ++
  ((λ r, MkOwnedResourceObservation (rs_Resource r) (rs_RuntimeSHA256 r) ConvergenceImpactNone) <$> filter (λ r, rs_Present r = true) rs).

Lemma elem_of_observed_after os rs o : o ∈ observed_after os rs ↔
  (o ∈ os ∧ ob_Key o ∉ rs_Resource <$> rs) ∨
  (∃ r, r ∈ rs ∧ rs_Present r = true ∧ o = MkOwnedResourceObservation (rs_Resource r) (rs_RuntimeSHA256 r) ConvergenceImpactNone).
Proof.
  unfold observed_after. rewrite elem_of_app list_elem_of_filter. split.
  - intros [[? ?]|(r & -> & Hr)%list_elem_of_fmap]; [by left|]. apply list_elem_of_filter in Hr as [Hp Hr]. right. by exists r.
  - intros [[? ?]|(r & Hr & Hp & ->)]; [by left|]. right. apply list_elem_of_fmap. exists r. split; [done|]. by apply list_elem_of_filter.
Qed.

Section settling.
Context (al : list ManagedResource) (os : list OwnedResourceObservation) (Hal : resources_ok al).
Context (drift : list OwnedDrift) (Hdrift : ∀ d, d ∈ drift ↔ runtime_drift al os d).
Context (rs : list RepairResourceResult) (Hrs : Forall2 settled drift rs).

Lemma settled_of r : r ∈ rs → ∃ d, runtime_drift al os d ∧ settled d r.
Proof.
  intros [i Hi]%list_elem_of_lookup. destruct (Forall2_lookup_r _ _ _ _ _ Hrs Hi) as (d & Hd & Hs). exists d. split; [|done].
  apply Hdrift. by eapply list_elem_of_lookup_2.
Qed.

Lemma settled_for d : runtime_drift al os d → ∃ r, r ∈ rs ∧ settled d r.
Proof.
  intros [i Hi]%Hdrift%list_elem_of_lookup. destruct (Forall2_lookup_l _ _ _ _ _ Hrs Hi) as (r & Hr & Hs). exists r. split; [|done].
  by eapply list_elem_of_lookup_2.
Qed.

Lemma settled_key d : runtime_drift al os d → dr_Resource d ∈ rs_Resource <$> rs.
Proof. intros (r & Hr & Hk & _)%settled_for. apply list_elem_of_fmap. by exists r. Qed.

Lemma same_key_same r r' : r ∈ al → r' ∈ al → mr_Key r = mr_Key r' → r = r'.
Proof.
  intros Hr Hr' Heq. assert (H := resources_some al r Hal Hr). rewrite Heq (resources_some al r' Hal Hr') in H. congruence.
Qed.

(** A present reported resource is an expected one with its expected contents. *)
Lemma present_expected r : r ∈ rs → rs_Present r = true → ∃ w, w ∈ al ∧ mr_Key w = rs_Resource r ∧ mr_RuntimeSHA256 w = rs_RuntimeSHA256 r.
Proof.
  intros Hr Hp. destruct (settled_of r Hr) as (d & Hd & Hk & Hs).
  destruct Hd as [o Ho Hno|w Hw Hno|w o Hw Ho Heq Hne]; cbn in *; [congruence| |]; destruct Hs as [_ Hs]; by exists w.
Qed.

(** A reported expected resource is present. *)
Lemma expected_present w : w ∈ al → mr_Key w ∈ rs_Resource <$> rs →
  MkOwnedResourceObservation (mr_Key w) (mr_RuntimeSHA256 w) ConvergenceImpactNone ∈ observed_after os rs.
Proof.
  intros Hw (r & Heq & Hr)%list_elem_of_fmap. apply elem_of_observed_after. right. destruct (settled_of r Hr) as (d & Hd & Hk & Hs).
  assert (Hp : rs_Present r = true).
  { destruct Hd as [o Ho Hno|w' Hw' Hno|w' o Hw' Ho Hko Hne]; cbn in *; [|apply Hs|apply Hs].
    destruct (Hno w Hw). congruence. }
  destruct (present_expected r Hr Hp) as (w' & Hw' & Hk' & Hsha). exists r. split_and!; [done|done|].
  assert (w' = w) as -> by (apply same_key_same; [done|done|congruence]). by rewrite Heq Hsha.
Qed.

(** After the repair nothing drifts from the applied manifest. *)
Lemma no_drift_after d : ¬ runtime_drift al (observed_after os rs) d.
Proof.
  intros [o Ho Hno|w Hw Hno|w o Hw Ho Heq Hne].
  - apply elem_of_observed_after in Ho as [[Ho Hk]|(r & Hr & Hp & ->)].
    + apply Hk. exact (settled_key _ (drift_unexpected al os o Ho Hno)).
    + destruct (present_expected r Hr Hp) as (w & Hw & Hkw & _). by apply (Hno w Hw).
  - destruct (decide (mr_Key w ∈ rs_Resource <$> rs)) as [Hk|Hk].
    { by apply (Hno _ (expected_present w Hw Hk)). }
    destruct (decide (mr_Key w ∈ ob_Key <$> os)) as [(o & Ho & Hin)%list_elem_of_fmap|Ho].
    + apply (Hno o); [|done]. apply elem_of_observed_after. left. split; [done|]. by rewrite -Ho.
    + apply Hk. refine (settled_key _ (drift_missing al os w Hw _)). intros o Hin Heq. apply Ho, list_elem_of_fmap. by exists o.
  - apply elem_of_observed_after in Ho as [[Ho Hk]|(r & Hr & Hp & ->)].
    + apply Hk. rewrite Heq. exact (settled_key _ (drift_modified al os w o Hw Ho Heq Hne)).
    + destruct (present_expected r Hr Hp) as (w' & Hw' & Hkw & Hsha). cbn in Heq, Hne. apply Hne. rewrite -Hsha.
      f_equal. apply same_key_same; [done|done|congruence].
Qed.
End settling.

(** ** Runs *)

Definition repair_execution (e : repair_event) : Prop :=
  match e with GatewayRepaired _ _ | NodeRepaired _ _ => True | _ => False end.

Definition repair_built (role : Role) (currentNodeID : string) (convergence : ConvergencePlan) (plan : RepairPlan) : Prop :=
  ∃ actions impact, Forall2 (action_for role currentNodeID) (items (pl_Drift convergence)) actions ∧
    plan = MkRepairPlan role currentNodeID (pl_AppliedGeneration convergence) impact (Some actions) convergence.

Lemma rp_Validate_inv plan : rp_Validate plan = Ok () →
  pl_Validate (rp_Convergence plan) = Ok () ∧ rp_TargetGeneration plan = pl_AppliedGeneration (rp_Convergence plan) ∧
  ∀ a, a ∈ items (rp_Actions plan) → ra_validate a = Ok ().
Proof.
  unfold rp_Validate. intros H. do 6 ok_step H. apply bind_ok in H as (imp & Hr & _). units. bool_facts. split_and!; [done|done|].
  intros a [i Hi]%list_elem_of_lookup.
  refine (range_inv _ (λ p _, ∀ i a, p !! i = Some a → ra_validate a = Ok ()) _ _ _ _ _ Hr i a Hi); [|done].
  intros p x q s s' _ IH Hb j y Hy. apply lookup_app_Some in Hy as [Hy|[_ Hy]]; [by apply (IH j)|].
  apply list_lookup_singleton_Some in Hy as [_ <-]. apply bind_ok in Hb as ([] & Hw & _). by apply wrap_ok in Hw.
Qed.

(** [e] runs the repair on the host of the coordinator, after the calls [before]. *)
Definition runs_repair (c : RepairCoordinator) (plan : RepairPlan) (before : list repair_event) (e : repair_event) : Prop :=
  match e with
  | GatewayRepaired batch _ =>
      rc_role c = RoleGateway ∧ batch = repairExecutionBatch plan ∧
      ∀ a, a ∈ items (rp_Actions plan) → ra_Scope a = MkApplyScope RoleGateway ""
  | NodeRepaired batch _ =>
      rc_role c = RoleNode ∧ batch = repairExecutionBatch plan ∧ RepairGatewayRequired (rc_currentNodeID c) (Ok ()) ∈ before ∧
      ∀ a, a ∈ items (rp_Actions plan) → ra_Scope a = MkApplyScope RoleNode (rc_currentNodeID c)
  | _ => False
  end.

Lemma repair_scope role id scope : as_validate scope = Ok () → acceptRepairScope role id scope = Ok () →
  match role with RoleGateway => scope = MkApplyScope RoleGateway "" | RoleNode => scope = MkApplyScope RoleNode id | _ => True end.
Proof.
  intros Hv Ha. unfold acceptRepairScope in Ha. unfold as_validate in Hv. destruct role; [| |done]; apply reject_ok in Ha.
  - destruct scope as [[| |raw] sid]; cbn in *; try done. apply reject_ok, negb_false_iff, String.eqb_eq in Hv. by subst.
  - bool_facts. destruct scope as [sr sid]. cbn in *. apply String.eqb_eq in H0. by subst.
Qed.

Lemma built_repair_scopes role id convergence plan : repair_built role id convergence plan → ∀ a, a ∈ items (rp_Actions plan) →
  match role with RoleGateway => ra_Scope a = MkApplyScope RoleGateway "" | RoleNode => ra_Scope a = MkApplyScope RoleNode id | _ => True end.
Proof.
  intros (actions & imp & Hf & ->) a [i Hi]%list_elem_of_lookup. cbn in Hi.
  destruct (Forall2_lookup_r _ _ _ _ _ Hf Hi) as (d & _ & base & scope & units & _ & -> & Hv & Ha). cbn. by apply (repair_scope role id scope).
Qed.

(** The result of a repair: one report per drifted resource of the plan. *)
Definition result_of_repair (plan : RepairPlan) (res : RepairResult) : Prop :=
  rr_Generation res = rp_TargetGeneration plan ∧ rr_Actions res = Some (items (rp_Actions plan)) ∧ rr_Resources res ≠ None ∧
  Forall2 (λ a r, check_resource a r = Ok ()) (items (rp_Actions plan)) (items (rr_Resources res)).

Lemma repair_result_valid plan res : rp_Validate plan = Ok () → result_of_repair plan res → rr_Validate res = Ok ().
Proof.
  intros (Hpl & Htg & Ha)%rp_Validate_inv (Hg & Hact & Hrn & Hf). apply pl_Validate_ok in Hpl as (_ & Hag & _).
  assert (Hlen := Forall2_length _ _ _ Hf). unfold rr_Validate. rewrite Hact Hg Htg. cbn [is_nil]. change (items (Some (items (rp_Actions plan)))) with (items (rp_Actions plan)).
  apply bind_ok. exists (). split.
  { apply reject_ok. rewrite (proj2 (N.eqb_neq _ _) Hag) Hlen Nat.eqb_refl. by destruct (rr_Resources res). }
  apply bind_ok. exists (). split.
  { apply range_check_ok. intros i a Hi. rewrite Ha; [by eapply list_elem_of_lookup_2|done]. }
  unfold rx_validate. cbn [rx_TargetGeneration rb_TargetGeneration rx_Resources rb_Actions]. apply bind_ok. exists (). split.
  { apply reject_ok. rewrite N.eqb_refl. change (items (Some (items (rp_Actions plan)))) with (items (rp_Actions plan)). rewrite Hlen Nat.eqb_refl.
    by destruct (rr_Resources res). }
  apply range_check_ok. intros i r Hr. change (items (Some (items (rp_Actions plan)))) with (items (rp_Actions plan)).
  destruct (Forall2_lookup_r _ _ _ _ _ Hf Hr) as (a & -> & Hc). done.
Qed.

Section repair_runs.
Context {W : Type} `{!ConvergenceHost W} `{!RepairHost W}.

Lemma plan_action_wp role id d w : wp (plan_action role id d) w (λ r es _, Forall (λ e, ¬ repair_execution e) es ∧
  ∀ a, r = Ok a → action_for role id d a).
Proof.
  unfold plan_action. destruct (repairActionFromDrift d) as [base|e] eqn:Hbase; [|by wp_step; split; [constructor|]].
  wp_step. wp_step. assert (Hev : ∀ res, ¬ repair_execution (RepairScopeResolved base res)) by by intros ? [].
  destruct (scope ← or_repair_invalid a; or_repair_invalid (as_validate scope);; acceptRepairScope role id scope;; Ok scope) as [scope|e] eqn:Hs;
    [|wp_step; split; [by repeat constructor|done]].
  assert (Hacc : as_validate scope = Ok () ∧ acceptRepairScope role id scope = Ok ()).
  { apply bind_ok in Hs as (sc & _ & Hs). apply bind_ok in Hs as ([] & Hv & Hs). apply bind_ok in Hs as ([] & Ha & [= ->]).
    split; [by destruct (as_validate scope) as [[]|]|done]. }
  cbv zeta. destruct ResolveRepairRestartUnits as [resolve|].
  - wp_step. wp_step. wp_step. split; [constructor; [done|]; repeat constructor; by intros []|]. intros ra Hra. apply bind_ok in Hra as (units & _ & [= <-]).
    destruct Hacc. exists base, scope, units. done.
  - wp_step. split; [by repeat constructor|]. intros ra [= <-]. destruct Hacc. exists base, scope, None. split_and!; try done.
    apply repairActionFromDrift_ok in Hbase as (_ & _ & _ & _ & _ & _ & Hu & _). unfold set_ra_RestartUnits, set_ra_Scope. cbn. by rewrite Hu.
Qed.

Lemma plan_actions_wp role id done rest imp w : wp (plan_actions role id done rest imp) w (λ r es _, Forall (λ e, ¬ repair_execution e) es ∧
  ∀ actions i, r = Ok (actions, i) → ∃ rest', actions = done ++ rest' ∧ Forall2 (action_for role id) rest rest').
Proof.
  revert done imp w. induction rest as [|d rest IH]; intros done imp w; cbn [plan_actions].
  { wp_step. split; [constructor|]. intros actions i [= <- <-]. exists []. by rewrite app_nil_r. }
  wp_step. eapply wp_mono; [apply plan_action_wp|]. cbn beta. intros [a|e] es w1 [Hes Ha]; [|wp_step; rewrite app_nil_r; by split].
  eapply wp_mono; [apply IH|]. cbn beta. intros r es' w2 [Hes' Hr]. split; [by apply Forall_app|]. intros actions i Hok.
  destruct (Hr actions i Hok) as (rest' & -> & Hf). exists (a :: rest'). rewrite -app_assoc. split; [done|]. constructor; [by apply Ha|done].
Qed.

Lemma BuildRepairPlan_wp role id convergence w : wp (BuildRepairPlan role id convergence) w (λ r es _, Forall (λ e, ¬ repair_execution e) es ∧
  ∀ plan, r = Ok plan → repair_built role id convergence plan ∧ rp_Validate plan = Ok ()).
Proof.
  unfold BuildRepairPlan. destruct (repairable role id convergence) as [[]|e]; [|by wp_step; split; [constructor|]].
  wp_step. eapply wp_mono; [apply plan_actions_wp|]. cbn beta. intros [[actions imp]|e] es w1 [Hes Hr]; [|wp_step; rewrite app_nil_r; by split].
  cbv zeta. wp_step. rewrite app_nil_r. split; [done|]. intros plan Hp. apply bind_ok in Hp as ([] & Hv & [= <-]).
  destruct (Hr actions imp eq_refl) as (rest & -> & Hf). split; [by exists rest, imp|]. by destruct (rp_Validate _) as [[]|].
Qed.

Lemma repair_Plan_wp c w : wp (repair_Plan c) w (λ r es _, Forall (λ e, ¬ repair_execution e) es ∧ ∀ plan, r = Ok plan →
  rp_Validate plan = Ok () ∧ ∃ s os calls,
    es = RepairConvergence (SnapshotRead (Ok s)) :: RepairConvergence (Discovered (sorted_manifest (sn_Applied s)) (Ok os)) :: calls ∧
    plan_result s os = Ok (rp_Convergence plan) ∧ repair_built (rc_role c) (rc_currentNodeID c) (rp_Convergence plan) plan).
Proof.
  unfold repair_Plan. destruct (rc_validate c) as [[]|e]; [|by wp_step; split; [constructor|]].
  wp_step. apply wp_tagged, wp_intro. intros r es w1 Hrun.
  assert (Hconv : Forall (λ e, ¬ repair_execution e) (RepairConvergence <$> es)) by (apply Forall_fmap, Forall_forall; intros ? _ []).
  destruct r as [p|e]; [|wp_step; rewrite app_nil_r; by split]. eapply wp_mono; [apply BuildRepairPlan_wp|]. cbn beta. intros r es' w2 [Hes' Hr].
  split; [by apply Forall_app|]. intros plan Hplan. destruct (Hr plan Hplan) as [Hb Hv]. split; [done|].
  apply Plan_ok in Hrun as (s & os & -> & Hp). exists s, os, es'. split; [done|]. assert (Hc : rp_Convergence plan = p) by (by destruct Hb as (? & ? & _ & ->)).
  by rewrite Hc.
Qed.

Lemma run_repair_wp c convergence plan w : repair_built (rc_role c) (rc_currentNodeID c) convergence plan →
  wp (run_repair c plan) w (λ r es _,
    (Forall (λ e, ¬ repair_execution e) es ∨
     ∃ before e, es = before ++ [e] ∧ Forall (λ e, ¬ repair_execution e) before ∧ items (rp_Actions plan) ≠ [] ∧ runs_repair c plan before e) ∧
    ∀ res, r = Ok res → result_of_repair plan res).
Proof.
  intros Hb. assert (Hscopes := built_repair_scopes _ _ convergence plan Hb). unfold run_repair. apply wp_bind.
  eapply (wp_mono _ _ (λ r es _, Forall (λ e, ¬ repair_execution e) es ∧
    (r = Ok () → rc_role c = RoleNode → RepairGatewayRequired (rc_currentNodeID c) (Ok ()) ∈ es))).
  { case_bool_decide as Hrole; wp_step; [|by split; [constructor|]]. split; [repeat constructor; by intros []|]. intros -> _. left. }
  intros reach es w1 [Hes Hreach]. destruct reach as [[]|e]; [|wp_step; rewrite app_nil_r; split; [by left|done]].
  destruct (length (items (rp_Actions plan)) =? 0)%nat eqn:Hlen.
  { apply Nat.eqb_eq, nil_length_inv in Hlen. wp_step. rewrite app_nil_r. split; [by left|]. intros res [= <-].
    unfold result_of_repair. cbn. rewrite Hlen. split_and!; [done|done|done|constructor]. }
  apply Nat.eqb_neq in Hlen. assert (Hne : items (rp_Actions plan) ≠ []) by by destruct (items (rp_Actions plan)).
  cbv zeta. wp_step. unfold execute_repair. destruct (rc_role c) as [| |raw] eqn:Hrole.
  3: { wp_step. wp_step. rewrite !app_nil_r. split; [by left|done]. }
  all: wp_step; wp_step; wp_step; rewrite app_nil_r; destruct a as [executed|e]; cbn [wrap]; wp_step; rewrite app_nil_r.
  all: (split; [right; eexists es, _; split_and!; [reflexivity|done|done|]; cbn; split_and!; try done; by apply Hreach|]).
  all: intros res Hres; try done; apply bind_ok in Hres as ([] & Hx & [= <-]).
  all: assert (Hx' : rx_validate executed (repairExecutionBatch plan) = Ok ()) by (by destruct (rx_validate executed (repairExecutionBatch plan)) as [[]|]).
  all: apply rx_validate_ok in Hx' as (Hg & Hn & Hf); unfold result_of_repair; cbn; split_and!; done.
Qed.

Lemma Repair_wp c approved w : wp (Repair c approved) w (λ r es _,
  (Forall (λ e, ¬ repair_execution e) es ∨
   ∃ s os calls e, es = RepairConvergence (SnapshotRead (Ok s)) :: RepairConvergence (Discovered (sorted_manifest (sn_Applied s)) (Ok os)) :: calls ++ [e] ∧
     Forall (λ e, ¬ repair_execution e) calls ∧ plan_result s os = Ok (rp_Convergence approved) ∧ rp_Validate approved = Ok () ∧
     items (rp_Actions approved) ≠ [] ∧ runs_repair c approved calls e) ∧
  ∀ res, r = Ok res → rp_Validate approved = Ok () ∧ result_of_repair approved res ∧ ∃ s os calls,
     es = RepairConvergence (SnapshotRead (Ok s)) :: RepairConvergence (Discovered (sorted_manifest (sn_Applied s)) (Ok os)) :: calls ∧
     plan_result s os = Ok (rp_Convergence approved) ∧ repair_built (rc_role c) (rc_currentNodeID c) (rp_Convergence approved) approved).
Proof.
  unfold Repair. destruct (rc_validate c;; or_repair_invalid (rp_Validate approved)) as [[]|e] eqn:Hok; [|wp_step; split; [by left; constructor|done]].
  wp_step. eapply wp_mono; [apply repair_Plan_wp|]. cbn beta. intros planned es w1 [Hes Hplan].
  destruct planned as [fresh|e]; [|wp_step; rewrite app_nil_r; split; [by left|done]].
  destruct (Hplan fresh eq_refl) as (Hv & s & os & scopes & -> & Hp & Hb). assert (Hes' := Hes). apply Forall_cons in Hes' as [_ Hes'].
  apply Forall_cons in Hes' as [_ Hes'].
  case_bool_decide as Heq; cbn [negb]; [subst fresh|wp_step; rewrite app_nil_r; split; [by left|done]].
  eapply wp_mono; [exact (run_repair_wp c _ approved w1 Hb)|]. cbn beta. intros r es' w2 [Hrun Hres]. split.
  - destruct Hrun as [Hnone|(before & e & -> & Hbefore & Hne & Hr)]; [left; by apply Forall_app|].
    right. exists s, os, (scopes ++ before), e. cbn. rewrite app_assoc. split_and!; [done|by apply Forall_app|done|done|done|].
    destruct e; cbn in Hr |- *; try done. destruct Hr as (? & ? & ? & ?). split_and!; try done. set_solver.
  - intros res Hr. split; [done|]. split; [by apply Hres|]. exists s, os, (scopes ++ es'). done.
Qed.

(** An executor is called at most once in a run of Repair, as the last call, and only for
    the approved plan, planned again in this run with the same outcome, with every action
    on this host; a node only after the gateway was found reachable. *)
Theorem repair_runs_only_approved c approved w r es w' : Repair c approved w = (r, es, w') →
  Forall (λ e, ¬ repair_execution e) es ∨
  ∃ s os calls e, es = RepairConvergence (SnapshotRead (Ok s)) :: RepairConvergence (Discovered (sorted_manifest (sn_Applied s)) (Ok os)) :: calls ++ [e] ∧
    Forall (λ e, ¬ repair_execution e) calls ∧ (c ← canonicalSnapshot s; plan_from c os) = Ok (rp_Convergence approved) ∧
    rp_Validate approved = Ok () ∧ items (rp_Actions approved) ≠ [] ∧ runs_repair c approved calls e.
Proof. intros H. exact (proj1 (wp_run _ _ _ _ _ _ (Repair_wp c approved w) H)). Qed.

(** C38: A successful repair converges: the result is well formed, names the last applied
    generation, and with its reports in place of what was observed nothing differs from the
    applied manifest; only drifted resources are reported, each once. *)
Theorem repair_converges c approved w res es w' : Repair c approved w = (Ok res, es, w') →
  ∃ s os calls, es = RepairConvergence (SnapshotRead (Ok s)) :: RepairConvergence (Discovered (sorted_manifest (sn_Applied s)) (Ok os)) :: calls ∧
    rr_Validate res = Ok () ∧ rr_Generation res = cm_Generation (sn_Applied s) ∧
    (∀ d, ¬ runtime_drift (applied_list s) (observed_after (items os) (items (rr_Resources res))) d) ∧
    (∀ r, r ∈ items (rr_Resources res) → ∃ d, runtime_drift (applied_list s) (items os) d ∧ rs_Resource r = dr_Resource d) ∧
    NoDup (rs_Resource <$> items (rr_Resources res)).
Proof.
  intros H. destruct (wp_run _ _ _ _ _ _ (Repair_wp c approved w) H) as [_ Hr].
  destruct (Hr res eq_refl) as (Hv & Hof & s & os & calls & Hes & Hp & Hb). exists s, os, calls.
  assert (Hrv := repair_result_valid approved res Hv Hof). apply rp_Validate_inv in Hv as (Hpl & Htg & _).
  apply plan_result_ok in Hp as (Hs & _ & Hos & Hacc & Hpe). destruct (snapshot_resources s Hs) as [_ Ha].
  destruct Hb as (actions & imp & Hf & Heq). destruct Hof as (Hg & _ & _ & Hc). rewrite Heq in Hc. cbn [rp_Actions] in Hc. change (items (Some actions)) with actions in Hc.
  assert (Hset : Forall2 settled (items (pl_Drift (rp_Convergence approved))) (items (rr_Resources res))).
  { clear -Hf Hc. revert Hc. generalize (items (rr_Resources res)). induction Hf as [|d a ds as_ Hd _ IH]; intros rs Hc; [inversion Hc; constructor|].
    inversion Hc as [|x r ? rs' Hr Hrs]; subst. constructor; [by eapply action_settled|by apply IH]. }
  assert (Hdr : ∀ d, d ∈ items (pl_Drift (rp_Convergence approved)) ↔ runtime_drift (applied_list s) (items os) d).
  { intros d. rewrite Hpe. cbn. by apply ownedDrift_exact. }
  split; [done|]. split; [done|]. split; [by rewrite Hg Htg Hpe|]. split; [by apply (no_drift_after _ _ Ha _ Hdr _ Hset)|]. split.
  - intros r Hin. destruct (settled_of _ _ _ Hdr _ Hset r Hin) as (d & Hd & Hk & _). by exists d.
  - apply pl_Validate_ok in Hpl as (_ & _ & _ & _ & _ & _ & _ & _ & Hds & _). apply (NoDup_fmap_1 resourceOrder), sorted_lt_NoDup.
    replace (resourceOrder <$> (rs_Resource <$> items (rr_Resources res))) with ((λ d, resourceOrder (dr_Resource d)) <$> items (pl_Drift (rp_Convergence approved))); [done|].
    clear -Hset. induction Hset as [|d r ds rs [Hk _] _ IH]; [done|]. cbn. by rewrite IH Hk.
Qed.
End repair_runs.

(** ** A gateway that restores its modified file *)

Definition obedient_report (a : RepairAction) : RepairResourceResult :=
  match ra_Action a with
  | RepairRestore => MkRepairResourceResult (ra_Resource a) true (ra_TargetSHA256 a)
  | _ => MkRepairResourceResult (ra_Resource a) false ""
  end.

#[export] Instance sample_repair_host : RepairHost () := {|
  ResolveRepairScope := λ _ w, (Ok (MkApplyScope RoleGateway ""), w);
  ResolveRepairRestartUnits := Some (λ _ w, (Ok (Some ["mihomo.service"]), w));
  RepairGateway := λ b w, (Ok (MkRepairExecutionResult true (rb_TargetGeneration b) (Some (obedient_report <$> items (rb_Actions b)))), w);
  repair_RequireGateway := λ _ w, (Ok (), w);
  RepairCurrentNode := λ _ w, (Err (Message "not a node"), w)
|}.

Definition sample_repair : RepairPlan :=
  Eval vm_compute in match (repair_Plan (W := ()) NewGatewayRepairCoordinator ()).1.1 with
    | Ok p => p
    | Err _ => MkRepairPlan RoleGateway "" 0 ConvergenceImpactNone None sample_plan
    end.
Definition sample_repair_run : result RepairResult * list repair_event * () := Repair NewGatewayRepairCoordinator sample_repair ().
Definition sample_repair_result : RepairResult :=
  Eval vm_compute in match sample_repair_run.1.1 with Ok r => r | Err _ => MkRepairResult false 0 None None end.

Lemma sample_repair_ok : Repair NewGatewayRepairCoordinator sample_repair () = (Ok sample_repair_result, sample_repair_run.1.2, ()).
Proof. vm_compute. reflexivity. Qed.

Lemma repair_runs_only_approved_witness :
  length (items (rp_Actions sample_repair)) = 1 ∧
  ∃ s os calls e, sample_repair_run.1.2 = RepairConvergence (SnapshotRead (Ok s)) :: RepairConvergence (Discovered (sorted_manifest (sn_Applied s)) (Ok os)) :: calls ++ [e] ∧
    runs_repair NewGatewayRepairCoordinator sample_repair calls e.
Proof.
  split; [reflexivity|]. destruct (repair_runs_only_approved _ _ _ _ _ _ sample_repair_ok) as [Hnone|(s & os & calls & e & Hes & _ & _ & _ & _ & Hr)].
  - exfalso. rewrite Forall_forall in Hnone.
    apply (Hnone (GatewayRepaired (repairExecutionBatch sample_repair) (Ok (MkRepairExecutionResult true 4 (Some (obedient_report <$> items (rp_Actions sample_repair))))))).
    + vm_compute. do 4 right. left.
    + exact I.
  - exists s, os, calls, e. split; [exact Hes|exact Hr].
Defined.

Lemma repair_converges_witness : rr_Changed sample_repair_result = true ∧ rr_Validate sample_repair_result = Ok () ∧
  ∃ s os, ∀ d, ¬ runtime_drift (applied_list s) (observed_after (items os) (items (rr_Resources sample_repair_result))) d.
Proof.
  split; [reflexivity|]. destruct (repair_converges _ _ _ _ _ _ sample_repair_ok) as (s & os & calls & _ & Hv & _ & Hd & _).
  split; [exact Hv|]. exists s, os. exact Hd.
Defined.
