(* ===== verification/SwitchApply.v ===== *)
(** * Applying a deferred switch on the node ([internal/operations/transport_switch_apply.go])

    The executor of a switch the gateway registered: the target is activated, the gateway
    finalizes the selection, the node saves its final state and the convergence snapshot
    is promoted.  Each of these is a call to another part of the program.  The
    second half shows what it guarantees. *)

From S2P Require Import Prelude GoTime GoText GoConv GoNet Proc Types Checks Identity Expose Idempotency Resources StateValidate Samples StateFacts Transition NodeOperation SwitchIntent SwitchState SwitchFacts DeferredFacts Switch Convergence Apply.

Local Open Scope string_scope.
Local Open Scope list_scope.

#[export] Instance ConvergenceManifest_eq_dec : EqDecision ConvergenceManifest.
Proof. solve_decision. Defined.
#[export] Instance ConvergenceSnapshot_eq_dec : EqDecision ConvergenceSnapshot.
Proof. solve_decision. Defined.

(** The state store, the runtime with its activations, the gateway, the convergence store
    and the clock. *)
Class SwitchApplyHosts (W A : Type) := {
  sa_Load : W → result State * W;
  sa_Save : N → State → W → result unit * W;
  sa_Activate : State → Operation → W → result A * W;
  sa_Rollback : A → call_bound → W → result unit * W;
  sa_ReconcileDeferred : Operation → TransportKind → W → result (option FinalizedSwitchReceipt) * W;
  sa_FinalizeDeferred : Operation → TransportKind → N → W → result FinalizedSwitchReceipt * W;
  sa_GatewayGeneration : string → W → result N * W;
  sa_Read : W → result ConvergenceSnapshot * W;
  sa_CompareAndSwap : ConvergenceSnapshot → ConvergenceSnapshot → W → result bool * W;
  sa_now : W → time * W
}.

(** The calls that read or change something, with their outcome. *)
Inductive apply_switch_event :=
  | NodeLoaded (r : result State)
  | NodeSaved (expected : N) (state : State) (r : result unit)
  | SwitchActivated (current : State) (operation : Operation) (r : result unit)
  | ActivationRolledBack (bound : call_bound) (r : result unit)
  | SwitchReconciled (operation : Operation) (current : TransportKind) (r : result (option FinalizedSwitchReceipt))
  | SwitchFinalized (operation : Operation) (current : TransportKind) (expected : N) (r : result FinalizedSwitchReceipt)
  | GenerationAsked (nodeID : string) (r : result N)
  | ConvergenceRead (r : result ConvergenceSnapshot)
  | ConvergenceSwapped (current candidate : ConvergenceSnapshot) (r : result bool).

Definition apply_conflict : error := Sentinel ErrApplyConflict.
Definition switch_uncertain : error := Sentinel ErrTransportSwitchApplyUncertain.

(** The state of the operation agrees with the state of the node. *)
Definition check_pending (current : State) (node : Node) (operation : Operation) (intent : SwitchIntentTarget) : result unit :=
  match NextGeneration (it_ExpectedNodeGeneration intent), node_Gateway node with
  | Ok pendingGeneration, Some gateway =>
      reject (negb (st_Generation current =? pendingGeneration)%N || negb (String.eqb (gw_PendingRequestID gateway) (op_RequestID operation))
              || bool_decide (node_ActiveTransport node = it_Target intent)) apply_conflict
  | Ok _, None => Err apply_conflict
  | Err e, _ => Err (errors_join apply_conflict [Some e])
  end.
Definition check_completed (current : State) (node : Node) (intent : SwitchIntentTarget) : result unit :=
  match node_Gateway node with
  | Some gateway =>
      reject (negb (st_Generation current =? it_DesiredNodeGeneration intent)%N || negb (String.eqb (gw_PendingRequestID gateway) "")
              || negb (bool_decide (node_ActiveTransport node = it_Target intent))) apply_conflict
  | None => Err apply_conflict
  end.

(** [loadOperation] after the state was loaded. *)
Definition retained_operation_of (current : State) (batch : ApplyExecutionBatch) (requested : ApplyOperation) : result (Node * Operation * SwitchIntentTarget) :=
  match Validate current, items (st_Nodes current) with
  | Err e, _ => Err (errors_join apply_invalid [Some e])
  | Ok _, [node] =>
      reject (negb (bool_decide (host_Role (st_Host current) = RoleNode)) || negb (String.eqb (node_ID node) (ab_CurrentNodeID batch))) apply_invalid;;
      match list_find (λ operation, op_ID operation = ao_ID requested) (items (st_Operations current)) with
      | None => Err apply_conflict
      | Some (_, operation) =>
          match ParseSwitchIntentTarget (op_TargetID operation) with
          | Err e => Err (errors_join apply_conflict [Some e])
          | Ok intent =>
              reject (negb (bool_decide (op_Type operation = OperationTransportSwitch)) || negb (String.eqb (op_TargetKind operation) "transport")
                      || negb (String.eqb (op_TargetID operation) (ao_TargetID requested)) || negb (String.eqb (it_NodeID intent) (ab_CurrentNodeID batch))
                      || negb (it_ExpectedNodeGeneration intent =? ab_AppliedGeneration batch)%N
                      || negb (it_DesiredNodeGeneration intent =? ab_DesiredGeneration batch)%N
                      || negb (ao_ExpectedGeneration requested =? it_ExpectedNodeGeneration intent)%N
                      || negb (ao_DesiredGeneration requested =? it_DesiredNodeGeneration intent)%N) apply_conflict;;
              match op_State operation with
              | OperationPending => check_pending current node operation intent
              | OperationCompleted => check_completed current node intent
              | _ => Err apply_conflict
              end;;
              Ok (node, operation, intent)
          end
      end
  | Ok _, _ => Err apply_invalid
  end.

Definition clone_manifest (manifest : ConvergenceManifest) : ConvergenceManifest :=
  MkConvergenceManifest (cm_SchemaVersion manifest) (cm_Generation manifest) (Some (items (cm_Resources manifest))).

Definition promoted (current : ConvergenceSnapshot) : bool :=
  bool_decide (sn_Desired current = sn_Applied current) && (length (items (sn_Pending current)) =? 0)%nat.

Definition transportSwitchApplyResult (batch : ApplyExecutionBatch) (requested : ApplyOperation) : ApplyExecutionResult :=
  MkApplyExecutionResult true (ab_DesiredGeneration batch) (Some [ao_ID requested]).

Section executor.
Context `{!Sha256} {W A : Type} `{!SwitchApplyHosts W A}.

Definition apply_run (T : Type) : Type := proc W apply_switch_event T.
Definition node_load : apply_run (result State) := call sa_Load (λ r, [NodeLoaded r]).
Definition node_save (expected : N) (state : State) : apply_run (result unit) := call (sa_Save expected state) (λ r, [NodeSaved expected state r]).

Definition loadOperation (batch : ApplyExecutionBatch) (requested : ApplyOperation) : apply_run (result (State * (Node * Operation * SwitchIntentTarget))) :=
  loaded ← node_load;
  mret (current ← loaded; found ← retained_operation_of current batch requested; Ok (current, found)).

(** A save that may have succeeded although it reported an error is looked up; a save that
    left the state as it was is tried once more. *)
Definition commitNodeState (before final : State) : apply_run (result unit) :=
  saved ← node_save (st_Generation before) final;
  match saved with
  | Ok _ => mret (Ok ())
  | Err first =>
      loaded ← node_load;
      if bool_decide (loaded = Ok final) then mret (Ok ()) else
      if negb (bool_decide (loaded = Ok before)) then mret (Err (errors_join first [error_of loaded])) else
      retried ← node_save (st_Generation before) final;
      match retried with
      | Ok _ => mret (Ok ())
      | Err again =>
          loaded ← node_load;
          if bool_decide (loaded = Ok final) then mret (Ok ()) else mret (Err (errors_join first [Some again; error_of loaded]))
      end
  end.

(** What the snapshot is promoted to. *)
Definition promotion (current : ConvergenceSnapshot) (batch : ApplyExecutionBatch) (requested : ApplyOperation) : result ConvergenceSnapshot :=
  let conflict := Sentinel ErrConvergenceSnapshotConflict in
  match desiredChanges current with
  | Err e => Err (errors_join conflict [Some e])
  | Ok changes =>
      reject (negb (cm_Generation (sn_Applied current) =? ab_AppliedGeneration batch)%N || negb (cm_Generation (sn_Desired current) =? ab_DesiredGeneration batch)%N
              || negb (match items (sn_Pending current) with [pending] => String.eqb (po_ID pending) (ao_ID requested) | _ => false end)
              || negb (bool_decide (Some changes = ao_Changes requested))) conflict;;
      canonicalSnapshot (MkConvergenceSnapshot (clone_manifest (sn_Desired current)) (clone_manifest (sn_Desired current)) (Some []))
  end.

Definition promoteConvergence (batch : ApplyExecutionBatch) (requested : ApplyOperation) : apply_run (result unit) :=
  read ← call sa_Read (λ r, [ConvergenceRead r]);
  match read with
  | Err e => mret (Err e)
  | Ok current =>
      if promoted current && (cm_Generation (sn_Applied current) =? ab_DesiredGeneration batch)%N then mret (Ok ()) else
      match promotion current batch requested with
      | Err e => mret (Err e)
      | Ok candidate =>
          changed ← call (sa_CompareAndSwap current candidate) (λ r, [ConvergenceSwapped current candidate r]);
          if bool_decide (changed = Ok true) then mret (Ok ()) else
          loaded ← call sa_Read (λ r, [ConvergenceRead r]);
          if bool_decide (loaded = Ok candidate) then mret (Ok ()) else
          mret (Err (errors_join (match changed with Err e => e | Ok _ => Sentinel ErrConvergenceSnapshotConflict end) [error_of loaded]))
      end
  end.

Definition rollbackDeferredActivation (activation : A) : apply_run (result unit) :=
  let bound := Detached DefaultTransportSwitchRollbackTimeout in
  call (sa_Rollback activation bound) (λ r, [ActivationRolledBack bound r]).

(** The end of a switch: the state is saved and the snapshot promoted. *)
Definition settle_switch (batch : ApplyExecutionBatch) (requested : ApplyOperation) (current final : State) (intent : SwitchIntentTarget)
    : apply_run (result ApplyExecutionResult) :=
  committed ← commitNodeState current final;
  match committed with
  | Err e => mret (Err (errors_join switch_uncertain [Some e]))
  | Ok _ =>
      settled ← promoteConvergence batch requested;
      mret (match settled with
        | Err e => Err (errors_join switch_uncertain [Some e])
        | Ok _ => if negb (st_Generation final =? it_DesiredNodeGeneration intent)%N then Err apply_invalid else Ok (transportSwitchApplyResult batch requested)
        end)
  end.

(** The receipt of the gateway, with the activation undone when there is none. *)
Definition obtain_receipt (operation : Operation) (previous : TransportKind) (known : option FinalizedSwitchReceipt) (expectedGatewayGeneration : N) (activation : A)
    : apply_run (result FinalizedSwitchReceipt) :=
  match known with
  | Some receipt => mret (Ok receipt)
  | None =>
      finalized ← call (sa_FinalizeDeferred operation previous expectedGatewayGeneration) (λ r, [SwitchFinalized operation previous expectedGatewayGeneration r]);
      match finalized with
      | Ok receipt => mret (Ok receipt)
      | Err e =>
          reconciled ← call (sa_ReconcileDeferred operation previous) (λ r, [SwitchReconciled operation previous r]);
          match reconciled with
          | Err e' => mret (Err (errors_join switch_uncertain [Some e; Some e']))
          | Ok (Some receipt) => mret (Ok receipt)
          | Ok None =>
              undone ← rollbackDeferredActivation activation;
              mret (Err (errors_join e [error_of undone]))
          end
      end
  end.

(** From the activation to the end. *)
Definition activate_switch (batch : ApplyExecutionBatch) (requested : ApplyOperation) (current : State) (operation : Operation) (intent : SwitchIntentTarget)
    (previous : TransportKind) (known : option FinalizedSwitchReceipt) (expectedGatewayGeneration : N) : apply_run (result ApplyExecutionResult) :=
  activation ← call (sa_Activate current operation) (λ r, [SwitchActivated current operation ((λ _, ()) <$> r)]);
  match activation with
  | Err e => mret (Err (Wrapped "activate deferred transport switch runtime" e))
  | Ok activation =>
      latest ← node_load;
      if negb (bool_decide (latest = Ok current)) then
        undone ← rollbackDeferredActivation activation;
        mret (Err (errors_join apply_conflict [error_of latest; error_of undone]))
      else
        obtained ← obtain_receipt operation previous known expectedGatewayGeneration activation;
        match obtained with
        | Err e => mret (Err e)
        | Ok receipt =>
            at_ ← call sa_now (λ _, []);
            match FinalizeDeferredSwitchNodeState current operation receipt at_ with
            | Err e => mret (Err (errors_join switch_uncertain [Some e]))
            | Ok (final, _) => settle_switch batch requested current final intent
            end
        end
  end.

Definition switch_RequireGateway (nodeID : string) : apply_run (result unit) :=
  answer ← call (sa_GatewayGeneration nodeID) (λ r, [GenerationAsked nodeID r]);
  mret ((λ _, ()) <$> answer).

(** A batch with one switch of this node. *)
Definition requested_switch (batch : ApplyExecutionBatch) : result ApplyOperation :=
  match items (ab_Operations batch) with
  | [requested] =>
      reject (negb (bool_decide (ab_Role batch = RoleNode)) || negb (is_ok (ValidateResourceID (ab_CurrentNodeID batch)))) apply_invalid;;
      match ao_validate requested with
      | Err e => Err (errors_join apply_invalid [Some e])
      | Ok _ =>
          reject (negb (String.eqb (ao_Type requested) (OperationType_string OperationTransportSwitch)) || negb (bool_decide (as_Role (ao_Scope requested) = RoleNode))
                  || negb (String.eqb (as_NodeID (ao_Scope requested)) (ab_CurrentNodeID batch))) apply_invalid;;
          Ok requested
      end
  | _ => Err apply_invalid
  end.

Definition switch_ApplyCurrentNode (batch : ApplyExecutionBatch) : apply_run (result ApplyExecutionResult) :=
  match requested_switch batch with
  | Err e => mret (Err e)
  | Ok requested =>
      loaded ← loadOperation batch requested;
      match loaded with
      | Err e => mret (Err e)
      | Ok (current, (node, operation, intent)) =>
          if bool_decide (op_State operation = OperationCompleted) then
            settled ← promoteConvergence batch requested;
            mret (match settled with
              | Err e => Err (errors_join switch_uncertain [Some e])
              | Ok _ => Ok (transportSwitchApplyResult batch requested)
              end)
          else
            let previous := node_ActiveTransport node in
            reconciled ← call (sa_ReconcileDeferred operation previous) (λ r, [SwitchReconciled operation previous r]);
            match reconciled with
            | Err e => mret (Err (Wrapped "reconcile authoritative transport switch" e))
            | Ok (Some receipt) => activate_switch batch requested current operation intent previous (Some receipt) 0
            | Ok None =>
                observed ← call (sa_GatewayGeneration (ab_CurrentNodeID batch)) (λ r, [GenerationAsked (ab_CurrentNodeID batch) r]);
                match observed with
                | Err e => mret (Err (Wrapped "observe authoritative gateway generation" e))
                | Ok expectedGatewayGeneration => activate_switch batch requested current operation intent previous None expectedGatewayGeneration
                end
            end
      end
  end.
End executor.

(** * What applying a deferred switch guarantees

    The node saves its final state only with a receipt of the gateway; a failure that is
    not reported as uncertain leaves the saved state and the snapshot alone and rolls the
    activation back. *)

(** Calls that change nothing that is saved and leave no activation behind. *)
Definition is_quiet (e : apply_switch_event) : bool :=
  match e with NodeSaved _ _ _ | ConvergenceSwapped _ _ _ | SwitchActivated _ _ (Ok _) | ActivationRolledBack _ _ => false | _ => true end.
Definition quiet (es : list apply_switch_event) : Prop := Forall (λ e, is_quiet e = true) es.

Definition received (es : list apply_switch_event) (operation : Operation) (receipt : FinalizedSwitchReceipt) : Prop :=
  ∃ previous, SwitchReconciled operation previous (Ok (Some receipt)) ∈ es ∨ ∃ expected, SwitchFinalized operation previous expected (Ok receipt) ∈ es.

Lemma received_app es es' operation receipt : received es operation receipt ∨ received es' operation receipt → received (es ++ es') operation receipt.
Proof.
  intros [(p & Hr)|(p & Hr)]; exists p; (destruct Hr as [Hr|[g Hr]]; [left|right; exists g]); apply elem_of_app; by [left|right].
Qed.

Section finalize.
Context `{!Sha256}.

(** The state the node was in, and the one the gateway confirmed. *)
Definition confirmed_by (es : list apply_switch_event) (current : State) (operation : Operation) (final : State) : Prop :=
  ∃ receipt at_ completed, received es operation receipt ∧ FinalizeDeferredSwitchNodeState current operation receipt at_ = Ok (final, completed).

(** The last calls of a switch: the final state is saved and looked up, the snapshot read and
    swapped. *)
Definition is_settling (generation : N) (final : State) (e : apply_switch_event) : Prop :=
  match e with NodeSaved g s _ => g = generation ∧ s = final | NodeLoaded _ | ConvergenceRead _ | ConvergenceSwapped _ _ _ => True | _ => False end.
Definition stored_final (es : list apply_switch_event) (generation : N) (final : State) : Prop :=
  NodeSaved generation final (Ok ()) ∈ es ∨ NodeLoaded (Ok final) ∈ es.

(** An error that joins the failure of the rollback, if it failed. *)
Definition joins_rollback (e : error) (undone : result unit) : Prop := ∃ first rest, e = errors_join first (rest ++ [error_of undone]).

Abbreviation rolled_back undone := (ActivationRolledBack (Detached DefaultTransportSwitchRollbackTimeout) undone).

(** The calls and the outcome of an apply. *)
Inductive apply_outcome : list apply_switch_event → result ApplyExecutionResult → Prop :=
  | nothing_activated es e : quiet es → apply_outcome es (Err e)
  | activation_undone es es' current operation undone e : quiet es → quiet es' → joins_rollback e undone →
      apply_outcome (es ++ SwitchActivated current operation (Ok ()) :: es' ++ [rolled_back undone]) (Err e)
  | outcome_unknown es es' current operation e : quiet es → quiet es' → errors_is e ErrTransportSwitchApplyUncertain = true →
      apply_outcome (es ++ SwitchActivated current operation (Ok ()) :: es') (Err e)
  | settling es es' es'' current operation final r : quiet es → quiet es' → confirmed_by (es ++ es') current operation final →
      Forall (is_settling (st_Generation current) final) es'' →
      match r with Ok _ => stored_final es'' (st_Generation current) final | Err e => errors_is e ErrTransportSwitchApplyUncertain = true end →
      apply_outcome (es ++ SwitchActivated current operation (Ok ()) :: es' ++ es'') r
  | settled_before es current operation r : NodeLoaded (Ok current) ∈ es → op_State operation = OperationCompleted → operation ∈ items (st_Operations current) →
      Forall (λ e, is_quiet e = true ∨ ∃ s c r, e = ConvergenceSwapped s c r) es →
      match r with Ok _ => True | Err e => errors_is e ErrTransportSwitchApplyUncertain = true end → apply_outcome es r.

Section executor.
Context {W A : Type} `{!SwitchApplyHosts W A}.

Lemma joined_uncertain (es : list (option error)) : errors_is (errors_join switch_uncertain es) ErrTransportSwitchApplyUncertain = true.
Proof. by apply errors_join_is. Qed.

Lemma commit_wp before final (w : W) : wp (commitNodeState before final) w (λ r es _,
  Forall (is_settling (st_Generation before) final) es ∧ (r = Ok () → stored_final es (st_Generation before) final)).
Proof.
  unfold commitNodeState, node_save, node_load, stored_final. wp_step. wp_step.
  assert (Hs : ∀ r, is_settling (st_Generation before) final (NodeSaved (st_Generation before) final r)) by done.
  assert (Hl : ∀ r, is_settling (st_Generation before) final (NodeLoaded r)) by done.
  destruct a as [[]|first]; [wp_step; split; [by repeat constructor|intros _; left; left]|]. do 2 wp_step.
  case_bool_decide as Hf; [subst; wp_step; split; [by repeat constructor|intros _; right; set_solver]|].
  destruct (negb _); [wp_step; by split; [repeat constructor|]|]. do 2 wp_step.
  destruct a0 as [[]|again]; [wp_step; split; [by repeat constructor|intros _; left; set_solver]|]. do 2 wp_step.
  case_bool_decide as Hf'; [subst|]; wp_step; (split; [by repeat constructor|]); [intros _; right; set_solver|done].
Qed.

Definition is_promotion (e : apply_switch_event) : Prop := match e with ConvergenceRead _ | ConvergenceSwapped _ _ _ => True | _ => False end.

Lemma promote_wp batch requested (w : W) : wp (promoteConvergence batch requested) w (λ r es _, Forall is_promotion es).
Proof.
  unfold promoteConvergence. do 2 wp_step. destruct a as [current|e]; [|wp_step; by repeat constructor].
  destruct (_ && _); [wp_step; by repeat constructor|]. destruct (promotion _ _ _); [|wp_step; by repeat constructor]. do 2 wp_step.
  case_bool_decide; [wp_step; by repeat constructor|]. do 2 wp_step. case_bool_decide; wp_step; by repeat constructor.
Qed.

Lemma settle_wp batch requested current final intent (w : W) : st_Generation final = it_DesiredNodeGeneration intent →
  wp (settle_switch batch requested current final intent) w (λ r es _, Forall (is_settling (st_Generation current) final) es ∧
    match r with Ok _ => stored_final es (st_Generation current) final | Err e => errors_is e ErrTransportSwitchApplyUncertain = true end).
Proof.
  intros Hg. unfold settle_switch. wp_step. eapply wp_mono; [apply commit_wp|]. intros r es w1 [Hes Hr]. destruct r as [[]|e].
  2: { wp_step. rewrite app_nil_r. split; [done|apply joined_uncertain]. }
  wp_step. eapply wp_mono; [apply promote_wp|]. intros r es' w2 Hp. wp_step. rewrite app_nil_r.
  assert (Hs : Forall (is_settling (st_Generation current) final) (es ++ es')).
  { apply Forall_app_2; [done|]. eapply Forall_impl; [exact Hp|]. by intros []. }
  split; [done|]. destruct r as [[]|e]; [|apply joined_uncertain]. rewrite Hg N.eqb_refl. cbn [negb].
  destruct (Hr eq_refl) as [Hin|Hin]; [left|right]; apply elem_of_app; by left.
Qed.

Lemma obtain_wp operation previous known expected (activation : A) (w : W) : wp (obtain_receipt operation previous known expected activation) w (λ r es _,
  match r with
  | Ok receipt => quiet es ∧ (known = Some receipt ∨ received es operation receipt)
  | Err e => quiet es ∧ errors_is e ErrTransportSwitchApplyUncertain = true ∨ ∃ es' undone, quiet es' ∧ es = es' ++ [rolled_back undone] ∧ joins_rollback e undone
  end).
Proof.
  unfold obtain_receipt. destruct known as [receipt|]; [wp_step; split; [by constructor|by left]|]. do 2 wp_step. destruct a as [receipt|e].
  { wp_step. split; [by repeat constructor|]. right. exists previous. right. exists expected. left. }
  do 2 wp_step. destruct a as [[receipt|]|e']; [| |wp_step; left; split; [by repeat constructor|apply joined_uncertain]].
  - wp_step. split; [by repeat constructor|]. right. exists previous. left. set_solver.
  - wp_step. unfold rollbackDeferredActivation. wp_step. wp_step. right. eexists [_; _], _. split_and!; [|reflexivity|by exists e, []]. by repeat constructor.
Qed.

(** The last generation of a finalized state is the one its intent asks for. *)
Lemma finalized_generation current operation receipt at_ final completed intent : Validate current = Ok () →
  FinalizeDeferredSwitchNodeState current operation receipt at_ = Ok (final, completed) → ParseSwitchIntentTarget (op_TargetID operation) = Ok intent →
  st_Generation final = it_DesiredNodeGeneration intent ∧ node_ActiveTransport <$> head (items (st_Nodes final)) = Some (it_Target intent).
Proof.
  intros Hv (_ & intent' & node & trust & index & Haw & He & _ & _ & _ & _ & _ & ->)%finalize_iff Hp; [|done].
  rewrite (aw_intent _ _ _ _ Haw) in Hp. injection Hp as ->. destruct (awaits_intent current operation intent node Haw) as (_ & _ & Hd). split; [by rewrite Hd|done].
Qed.

Lemma activate_wp batch requested current operation intent previous known expected (es0 : list apply_switch_event) (w : W) : Validate current = Ok () →
  ParseSwitchIntentTarget (op_TargetID operation) = Ok intent → quiet es0 → (∀ receipt, known = Some receipt → received es0 operation receipt) →
  wp (activate_switch batch requested current operation intent previous known expected) w (λ r es _, apply_outcome (es0 ++ es) r).
Proof.
  intros Hv Hp Hq Hk. unfold activate_switch. do 2 wp_step. destruct a as [activation|e]; cbn [fmap result_fmap].
  2: { wp_step. apply nothing_activated. apply Forall_app_2; [done|by repeat constructor]. }
  unfold node_load. do 2 wp_step. destruct (negb _).
  { wp_step. unfold rollbackDeferredActivation. do 2 wp_step. apply (activation_undone es0 [_] current operation _ _ Hq); [by repeat constructor|].
    by exists apply_conflict, [error_of a]. }
  wp_step. eapply wp_mono; [apply obtain_wp|]. intros [receipt|e] es w1 Ho.
  2: { wp_step. destruct Ho as [[Hes Hu]|(es' & undone & Hes & -> & Hj)]; rewrite !app_nil_r.
    - cbn [app]. apply (outcome_unknown es0 (NodeLoaded a :: es)); [done|by constructor|done].
    - cbn [app]. apply (activation_undone es0 (NodeLoaded a :: es')); [done|by constructor|done]. }
  destruct Ho as [Hes Hr]. do 2 wp_step. destruct (FinalizeDeferredSwitchNodeState current operation receipt a0) as [[final completed]|e] eqn:Hf.
  2: { wp_step. cbn [app]. rewrite !app_nil_r. apply (outcome_unknown es0 (NodeLoaded a :: es)); [done|by constructor|apply joined_uncertain]. }
  eapply wp_mono; [apply settle_wp, (finalized_generation _ _ _ _ _ _ _ Hv Hf Hp)|]. intros r es' w2 [Hs Hr']. cbn [app].
  apply (settling es0 (NodeLoaded a :: es) es' current operation final r); [done|by constructor| |done|done].
  exists receipt, a0, completed. split; [|done]. apply received_app. destruct Hr as [Hr|(p & Hr)]; [left; by apply Hk|right].
  exists p. destruct Hr as [Hr|[g Hr]]; [left|right; exists g]; by right.
Qed.

Lemma retained_of_ok current batch requested node operation intent : retained_operation_of current batch requested = Ok (node, operation, intent) →
  Validate current = Ok () ∧ ParseSwitchIntentTarget (op_TargetID operation) = Ok intent ∧ operation ∈ items (st_Operations current) ∧
  items (st_Nodes current) = [node] ∧ (op_State operation = OperationCompleted → node_ActiveTransport node = it_Target intent).
Proof.
  unfold retained_operation_of. intros K. destruct (Validate current) as [[]|]; [|done]. destruct (items (st_Nodes current)) as [|n [|]]; try done.
  ok_step K. destruct (list_find _ _) as [[i o]|] eqn:Hf; [|done]. destruct (ParseSwitchIntentTarget (op_TargetID o)) as [t|] eqn:Hp; [|done].
  ok_step K. ok_step K. injection K as -> -> ->. split_and!; [done|done| |done|].
  - apply list_find_Some in Hf as (Hi & _). by eapply list_elem_of_lookup_2.
  - intros Hs. rewrite Hs in G1. unfold check_completed in G1. destruct (node_Gateway node); [|done]. ok_step G1. by facts.
Qed.

Lemma apply_wp batch (w : W) : wp (switch_ApplyCurrentNode batch) w (λ r es _, apply_outcome es r).
Proof.
  unfold switch_ApplyCurrentNode. destruct (requested_switch batch) as [requested|e]; [|wp_step; apply nothing_activated; by constructor].
  unfold loadOperation, node_load. do 4 wp_step. rewrite app_nil_r. destruct a as [current|e]; cbn [mbind result_bind]; [|wp_step; apply nothing_activated; by repeat constructor].
  destruct (retained_operation_of current batch requested) as [[[node operation] intent]|e] eqn:Hr; cbn [mbind result_bind]; [|wp_step; apply nothing_activated; by repeat constructor].
  apply retained_of_ok in Hr as (Hv & Hp & Hin & _ & _). case_bool_decide as Hs.
  - wp_step. eapply wp_mono; [apply promote_wp|]. intros r es w1 Hes. wp_step. rewrite app_nil_r. apply (settled_before _ current operation); [left|done|done| |].
    + constructor; [by left|]. eapply Forall_impl; [exact Hes|]. intros []; cbn; try done; [by left|]. intros _. right. eauto.
    + destruct r as [[]|e]; [done|apply joined_uncertain].
  - do 2 wp_step. destruct a as [[receipt|]|e]; [| |wp_step; apply nothing_activated; by repeat constructor].
    + eapply wp_mono; [apply (activate_wp _ _ _ _ _ _ _ _ [NodeLoaded (Ok current); SwitchReconciled operation (node_ActiveTransport node) (Ok (Some receipt))]); try done|].
      * by repeat constructor.
      * intros r [= <-]. exists (node_ActiveTransport node). left. right. left.
      * intros r es w1 Ho. exact Ho.
    + do 2 wp_step. destruct a as [g|e]; [|wp_step; apply nothing_activated; by repeat constructor].
      eapply wp_mono; [apply (activate_wp _ _ _ _ _ _ _ _ [NodeLoaded (Ok current); SwitchReconciled operation (node_ActiveTransport node) (Ok None); GenerationAsked (ab_CurrentNodeID batch) (Ok g)]); try done|].
      * by repeat constructor.
      * intros r es w1 Ho. exact Ho.
Qed.

(** Nothing is saved or swapped, and what was activated was rolled back last; a rollback that
    failed is told by the error. *)
Record changed_nothing (es : list apply_switch_event) (e : error) : Prop := {
  cn_saved : ∀ generation s r, NodeSaved generation s r ∉ es;
  cn_swapped : ∀ s c r, ConvergenceSwapped s c r ∉ es;
  cn_activated : ∀ current operation, SwitchActivated current operation (Ok ()) ∈ es →
    ∃ undone, last es = Some (rolled_back undone) ∧ joins_rollback e undone
}.

Lemma quiet_nothing es e : quiet es → e ∈ es → is_quiet e = true.
Proof. intros Hq. rewrite /quiet Forall_forall in Hq. apply Hq. Qed.

Lemma failed_changed_nothing es e : apply_outcome es (Err e) → errors_is e ErrTransportSwitchApplyUncertain = false → changed_nothing es e.
Proof.
  intros Ho Hu. inversion Ho as [? ? Hq|es1 es2 current operation undone ? Hq Hq' Hj|? ? ? ? ? _ _ Hu'|? ? ? ? ? ? ? _ _ _ _ Hu'|? ? ? ? _ _ _ _ Hu']; subst; try (by rewrite Hu in Hu').
  - split; [intros g s r Hin|intros s c r Hin|intros c o Hin]; by apply (quiet_nothing _ _ Hq) in Hin.
  - assert (Hin : ∀ x, x ∈ es1 ++ SwitchActivated current operation (Ok ()) :: es2 ++ [rolled_back undone] →
      is_quiet x = true ∨ x = SwitchActivated current operation (Ok ()) ∨ x = rolled_back undone).
    { intros x [Hx|[->|[Hx|Hx%list_elem_of_singleton]%elem_of_app]%elem_of_cons]%elem_of_app; [|by right; left| |by right; right];
        left; [by apply (quiet_nothing _ _ Hq)|by apply (quiet_nothing _ _ Hq')]. }
    split.
    + intros g s x [?|[?|?]]%Hin; done.
    + intros s c x [?|[?|?]]%Hin; done.
    + intros c o _. exists undone. split; [|done]. replace (es1 ++ SwitchActivated current operation (Ok ()) :: es2 ++ [rolled_back undone])
        with ((es1 ++ SwitchActivated current operation (Ok ()) :: es2) ++ [rolled_back undone]) by by rewrite -app_assoc. by rewrite last_snoc.
Qed.

(** C28: the apply of a deferred switch goes through the calls of [apply_outcome]: the target
    is activated before anything is saved, the saved state is the one a receipt of the
    gateway confirms, and success means that this state was stored.  A failure that is not
    reported as uncertain saved and promoted nothing, and its last call rolled the
    activation back if there was one; when that rollback fails too, the target may stay
    active and the error joins the failure. *)
Theorem switch_apply_commits_or_undoes batch (w : W) r es w' : switch_ApplyCurrentNode batch w = (r, es, w') →
  apply_outcome es r ∧ ∀ e, r = Err e → errors_is e ErrTransportSwitchApplyUncertain = false → changed_nothing es e.
Proof.
  intros Hr. assert (Ho := wp_run _ _ _ _ _ _ (apply_wp batch w) Hr). split; [exact Ho|]. intros e ->. by apply failed_changed_nothing.
Qed.
End executor.
End finalize.

(** ** Witness *)

(** A node, its convergence snapshot and a gateway that finalizes at once. *)
Record apply_world := ApplyWorld { aw_state : State; aw_snapshot : ConvergenceSnapshot; aw_active : bool }.
#[local] Instance sample_apply_hosts : SwitchApplyHosts apply_world () := {
  sa_Load w := (Ok (aw_state w), w);
  sa_Save _ s w := (Ok (), ApplyWorld s (aw_snapshot w) (aw_active w));
  sa_Activate _ _ w := (Ok (), ApplyWorld (aw_state w) (aw_snapshot w) true);
  sa_Rollback _ _ w := (Ok (), ApplyWorld (aw_state w) (aw_snapshot w) false);
  sa_ReconcileDeferred _ _ w := (Ok None, w);
  sa_FinalizeDeferred _ _ _ w := (Ok finalized_receipt, w);
  sa_GatewayGeneration _ w := (Ok 12%N, w);
  sa_Read w := (Ok (aw_snapshot w), w);
  sa_CompareAndSwap _ c w := (Ok true, ApplyWorld (aw_state w) c (aw_active w));
  sa_now w := (day 3, w)
}.

Definition switch_resource (digit : ascii) : ManagedResource :=
  MkManagedResource (MkManagedResourceKey "mihomo" ManagedResourceFile "config") (foldr (λ _ s, String digit s) "" (seq 0 64))
    (foldr (λ _ s, String digit s) "" (seq 0 64)) ConvergenceImpactAvailability ConvergenceImpactDestructive.
Definition switch_pending : PendingOperation :=
  MkPendingOperation switch_operation_id "transport-switch" "transport" (it_String sample_intent_target) 4 6 (Some [mr_Key (switch_resource "1"%char)]).
Definition switch_snapshot : ConvergenceSnapshot :=
  MkConvergenceSnapshot (MkConvergenceManifest 1 6 (Some [switch_resource "1"%char])) (MkConvergenceManifest 1 4 (Some [switch_resource "0"%char])) (Some [switch_pending]).
Definition switch_batch : ApplyExecutionBatch :=
  MkApplyExecutionBatch RoleNode (uuid "11") 4 6
    (Some [MkApplyOperation switch_operation_id "transport-switch" 4 6 "transport" (it_String sample_intent_target) (MkApplyScope RoleNode (uuid "11"))
      ConvergenceImpactAvailability (match desiredChanges switch_snapshot with Ok changes => Some changes | Err _ => None end)]).
Abbreviation sample_switch_apply := (switch_ApplyCurrentNode (A := ()) switch_batch (ApplyWorld awaiting_state switch_snapshot false)).

Lemma sample_switch_applied : ∃ es, sample_switch_apply =
  (Ok (MkApplyExecutionResult true 6 (Some [switch_operation_id])), es, ApplyWorld settled_state (MkConvergenceSnapshot (sn_Desired switch_snapshot) (sn_Desired switch_snapshot) (Some [])) true).
Proof. eexists. vm_compute. reflexivity. Qed.

Lemma switch_apply_commits_or_undoes_witness : ∃ es, apply_outcome es (Ok (MkApplyExecutionResult true 6 (Some [switch_operation_id]))).
Proof.
  destruct sample_switch_applied as [es Hr]. destruct (switch_apply_commits_or_undoes _ _ _ _ _ Hr) as [Ho _]. by exists es.
Defined.
