(* ===== verification/ExposePlan.v ===== *)
(** * Planning an expose ([internal/ingress/limits.go], [expose.go])

    The request of an operator becomes a plan: its upstream and path are normalized, its
    limits resolved, its identity and its path generated when none is given, and the plan
    is checked against the exposes the gateway already has. *)

From S2P Require Import Prelude GoTime GoText GoNet GoConv Types Checks Identity Expose Resources.

Local Open Scope string_scope.
Local Open Scope list_scope.

(** ** Limits *)

Definition DefaultIngressConnectionLimit : Z := 256.
Definition DefaultIngressGatewayConcurrentRequests : Z := 64.
Definition DefaultIngressHTTP2ConcurrentStreams : Z := 64.
Definition DefaultExposeConcurrentRequests : Z := MaximumExposeConcurrentRequests.
Definition DefaultIngressBodyLimitBytes : Z := MaximumExposeBodyLimitBytes.
Definition DefaultExposeBodyLimitBytes : Z := 1024 * 1024.
Definition DefaultExposeUpstreamTimeoutSeconds : Z := 15.
Definition DefaultIngressGracefulShutdownSeconds : Z := 10.
Definition DefaultIngressHeaderBufferCount : Z := 4.
Definition DefaultIngressHeaderBufferBytes : Z := 8192.

Record GatewayHardLimits := MkGatewayHardLimits {
  hl_ConnectionLimit : Z; hl_GatewayConcurrentRequests : Z; hl_HTTP2ConcurrentStreams : Z; hl_DefaultExposeConcurrent : Z;
  hl_MaximumBodyBytes : Z; hl_DefaultExposeBodyBytes : Z; hl_DefaultUpstreamTimeoutSeconds : Z; hl_MaximumUpstreamTimeoutSeconds : Z;
  hl_GracefulShutdownSeconds : Z; hl_HeaderBufferCount : Z; hl_HeaderBufferBytes : Z
}.
#[export] Instance GatewayHardLimits_eq_dec : EqDecision GatewayHardLimits.
Proof. solve_decision. Defined.

Definition DefaultGatewayHardLimits : GatewayHardLimits :=
  MkGatewayHardLimits DefaultIngressConnectionLimit DefaultIngressGatewayConcurrentRequests DefaultIngressHTTP2ConcurrentStreams
    DefaultExposeConcurrentRequests DefaultIngressBodyLimitBytes DefaultExposeBodyLimitBytes DefaultExposeUpstreamTimeoutSeconds
    MaximumExposeUpstreamTimeoutSeconds DefaultIngressGracefulShutdownSeconds DefaultIngressHeaderBufferCount DefaultIngressHeaderBufferBytes.

Definition hl_Validate (limits : GatewayHardLimits) : result unit :=
  reject (negb (bool_decide (limits = DefaultGatewayHardLimits))) (Sentinel ErrIngressLimitsInvalid).

Record ExposeLimitOverrides := MkExposeLimitOverrides { lo_BodyLimitSet : bool; lo_BodyBytes : Z; lo_TimeoutSet : bool; lo_TimeoutSeconds : Z }.
Record ExposeLimits := MkExposeLimits { el_BodyBytes : Z; el_UpstreamTimeoutSeconds : Z; el_ConcurrentRequests : Z }.
#[export] Instance ExposeLimits_eq_dec : EqDecision ExposeLimits.
Proof. solve_decision. Defined.

Definition limit_invalid : error := Sentinel ErrExposeLimitInvalid.

Definition el_Validate (limits : ExposeLimits) (gateway : GatewayHardLimits) : result unit :=
  hl_Validate gateway;;
  reject ((el_BodyBytes limits <? 1) || (hl_MaximumBodyBytes gateway <? el_BodyBytes limits) || (el_UpstreamTimeoutSeconds limits <? 1)
          || (hl_MaximumUpstreamTimeoutSeconds gateway <? el_UpstreamTimeoutSeconds limits)
          || negb (el_ConcurrentRequests limits =? hl_DefaultExposeConcurrent gateway))%Z limit_invalid.

(** A value inside its bounds when it is set, the default otherwise. *)
Definition override (is_set : bool) (value default maximum : Z) : result Z :=
  if is_set then reject ((value <? 1) || (maximum <? value))%Z limit_invalid;; Ok value else Ok default.

Definition ResolveExposeLimits (limits : GatewayHardLimits) (overrides : ExposeLimitOverrides) : result ExposeLimits :=
  hl_Validate limits;;
  reject ((negb (lo_BodyLimitSet overrides) && negb (lo_BodyBytes overrides =? 0)%Z)
          || (negb (lo_TimeoutSet overrides) && negb (lo_TimeoutSeconds overrides =? 0)%Z)) limit_invalid;;
  body ← override (lo_BodyLimitSet overrides) (lo_BodyBytes overrides) (hl_DefaultExposeBodyBytes limits) (hl_MaximumBodyBytes limits);
  timeout ← override (lo_TimeoutSet overrides) (lo_TimeoutSeconds overrides) (hl_DefaultUpstreamTimeoutSeconds limits)
              (hl_MaximumUpstreamTimeoutSeconds limits);
  let resolved := MkExposeLimits body timeout (hl_DefaultExposeConcurrent limits) in
  el_Validate resolved limits;;
  Ok resolved.

(** *** The options of the command line *)

Definition option_separators : string := ";" +:+ crlf +:+ bytes [0%N].
Definition bad_option (value : string) : bool :=
  String.eqb value "" || negb (String.eqb (TrimSpace value) value) || ContainsAny value option_separators.

Definition allDecimal (value : string) : bool := negb (String.eqb value "") && str_forall is_digit value.

(** [strconv.ParseUint(number, 10, 63)] *)
Definition parse_uint63 (number : string) : option N :=
  if String.eqb number "" then None else n ← digits_value 0 number; if (n <? 2 ^ 63)%N then Some n else None.

(** The loop over the suffixes stops at the first that fits. *)
Definition body_unit (value : string) : string * Z :=
  if HasSuffix value "MiB" then (TrimSuffix value "MiB", 1024 * 1024)%Z
  else if HasSuffix value "KiB" then (TrimSuffix value "KiB", 1024)%Z
  else if HasSuffix value "B" then (TrimSuffix value "B", 1)%Z
  else (value, 1)%Z.

Definition parseBodyLimit (value : string) : result Z :=
  reject (bad_option value) limit_invalid;;
  let '(number, multiplier) := body_unit value in
  match parse_uint63 number with
  | None => Err limit_invalid
  | Some parsed =>
      reject ((parsed =? 0)%N || (MaximumExposeBodyLimitBytes / multiplier <? Z.of_N parsed)%Z) limit_invalid;;
      Ok (Z.of_N parsed * multiplier)%Z
  end.

Definition parseUpstreamTimeout (value : string) : result Z :=
  reject (bad_option value) limit_invalid;;
  let seconds := if String.eqb value "1m" then "60" else if HasSuffix value "s" then TrimSuffix value "s" else value in
  reject (negb (allDecimal seconds)) limit_invalid;;
  match Atoi seconds with
  | None => Err limit_invalid
  | Some parsed => reject ((parsed <? 1) || (MaximumExposeUpstreamTimeoutSeconds <? parsed))%Z limit_invalid;; Ok parsed
  end.

(** One option with its value. *)
Definition set_option (name value : string) (parsed : ExposeLimitOverrides) : result ExposeLimitOverrides :=
  reject (String.eqb value "") limit_invalid;;
  if String.eqb name "--body-limit" then
    reject (lo_BodyLimitSet parsed) limit_invalid;;
    bytes ← parseBodyLimit value;
    Ok (MkExposeLimitOverrides true bytes (lo_TimeoutSet parsed) (lo_TimeoutSeconds parsed))
  else if String.eqb name "--timeout" then
    reject (lo_TimeoutSet parsed) limit_invalid;;
    seconds ← parseUpstreamTimeout value;
    Ok (MkExposeLimitOverrides (lo_BodyLimitSet parsed) (lo_BodyBytes parsed) true seconds)
  else Err (Sentinel ErrUnsupportedExposeLimitOption).

Fixpoint parse_options (arguments : list string) (parsed : ExposeLimitOverrides) : result ExposeLimitOverrides :=
  match arguments with
  | [] => Ok parsed
  | argument :: rest =>
      match Cut argument "="%char with
      | Some (name, value) =>
          reject (negb (HasPrefix name "--")) (Sentinel ErrUnsupportedExposeLimitOption);;
          parsed ← set_option name value parsed;
          parse_options rest parsed
      | None =>
          reject (negb (HasPrefix argument "--")) (Sentinel ErrUnsupportedExposeLimitOption);;
          match rest with
          | [] => Err limit_invalid
          | value :: rest => parsed ← set_option argument value parsed; parse_options rest parsed
          end
      end
  end.
Definition ParseExposeLimitOptions (arguments : list string) : result ExposeLimitOverrides :=
  parse_options arguments (MkExposeLimitOverrides false 0 false 0).

(** ** Upstreams *)

Record NormalizedExposeUpstream := MkNormalizedExposeUpstream { nu_Value : string; nu_Loopback : bool }.

Definition expose_input : error := Sentinel ErrExposeInvalidInput.

Definition parseExposePort (value : string) : result Z :=
  reject (negb (allDecimal value)) expose_input;;
  match Atoi value with
  | None => Err expose_input
  | Some port => reject ((port <? 1) || (65535 <? port))%Z expose_input;; Ok port
  end.

(** The predicates of [netip.Addr]; an IPv4 address in IPv6 form is one of the class of the
    IPv4 address, and is refused before they are asked. *)
Definition Is4In6 (a : addr) : bool := match a with V4 _ => false | V6 n _ => (n / 2 ^ 32 =? 65535)%N end.
Definition IsUnspecified (a : addr) : bool := match a with V4 n => (n =? 0)%N | V6 n zone => (n =? 0)%N && String.eqb zone "" end.
Definition IsMulticast (a : addr) : bool := match a with V4 n => (octet n 3 / 16 =? 14)%N | V6 n _ => (n / 2 ^ 120 =? 255)%N end.
Definition IsLoopback (a : addr) : bool := match a with V4 n => is_loopback4 n | V6 n _ => (n =? 1)%N end.
Definition IsGlobalUnicast (a : addr) : bool :=
  match a with
  | V4 n => is_global_unicast4 n
  | V6 n zone => negb (IsUnspecified a) && negb (n =? 1)%N && negb (n / 2 ^ 120 =? 255)%N && negb (n / 2 ^ 118 =? 1018)%N
  end.

Definition looksLikeIPv4Literal (value : string) : bool :=
  Contains value "." && str_forall (λ c, is_digit c || Ascii.eqb c "."%char) value.

Definition hostname_character (c : ascii) : bool := lower_alpha c || is_digit c || Ascii.eqb c "-"%char.

Definition validateExposeHostname (value : string) : result unit :=
  reject (String.eqb value "" || (253 <? String.length value)%nat || HasPrefix value "." || HasSuffix value ".") expose_input;;
  range_check (λ _ label,
    reject ((String.length label =? 0)%nat || (63 <? String.length label)%nat || HasPrefix label "-" || HasSuffix label "-") expose_input;;
    reject (negb (str_forall hostname_character label)) expose_input) (Split value "."%char).

Definition normalizeExposeHost (host : string) : result (string * bool) :=
  match ParseAddr host with
  | Some address =>
      reject (has_zone address || Is4In6 address || IsUnspecified address || IsMulticast address
              || (negb (IsLoopback address) && negb (IsGlobalUnicast address))) expose_input;;
      Ok (addr_string address, IsLoopback address)
  | None =>
      reject (looksLikeIPv4Literal host) expose_input;;
      let normalized := ToLowerUnicode host in
      validateExposeHostname normalized;;
      Ok (normalized, String.eqb normalized "localhost")
  end.

Definition NormalizeExposeUpstream (value : string) : result NormalizedExposeUpstream :=
  reject (String.eqb value "" || negb (String.eqb (TrimSpace value) value) || ContainsAny value (crlf +:+ bytes [0%N])) expose_input;;
  if allDecimal value then
    port ← parseExposePort value;
    Ok (MkNormalizedExposeUpstream (JoinHostPort "127.0.0.1" (Itoa port)) true)
  else
    match SplitHostPort value with
    | None => Err expose_input
    | Some (host, portText) =>
        reject (String.eqb host "" || String.eqb portText "") expose_input;;
        port ← parseExposePort portText;
        '(normalizedHost, loopback) ← normalizeExposeHost host;
        let normalized := JoinHostPort normalizedHost (Itoa port) in
        reject (negb (is_ok (ValidateExposeUpstream normalized))) expose_input;;
        Ok (MkNormalizedExposeUpstream normalized loopback)
    end.

(** ** Paths *)

Definition NormalizeExposePath (value : string) (mode : RouteMode) : result string :=
  reject (String.eqb value "" || negb (String.eqb (TrimSpace value) value)) expose_input;;
  let value := if bool_decide (mode = RoutePrefix) && negb (String.eqb value "/") then TrimSuffix value "/" else value in
  reject (IsReservedExposePath value) (Sentinel ErrExposeReservedPath);;
  reject (negb (is_ok (ValidateExposePath value mode))) expose_input;;
  Ok value.

(** The first expose that is not disabled and overlaps the route. *)
Definition findExposeRouteConflict (existing : list Expose) (mode : RouteMode) (path : string) : option string :=
  expose_ID ∘ snd <$> list_find (λ candidate, expose_State candidate ≠ ExposeDisabled ∧
    ExposeRoutesOverlap (expose_RouteMode candidate) (expose_Path candidate) mode path = true) existing.

Definition GeneratedExposePathPrefix : string := "/hooks/".
Definition GeneratedExposePathEntropyBytes : nat := 32.
Definition GeneratedExposePathRetryLimit : nat := 32.
Definition generated_path (raw : list N) : string := GeneratedExposePathPrefix +:+ base64url_encode raw.

(** What a normalizer reads: the reads of its entropy, its identities and the time. *)
Record ExposeNormalizerRuntime := MkExposeNormalizerRuntime {
  nr_Entropy : nat → result (list N);
  nr_NewUUID : generator;
  nr_Now : time
}.

Fixpoint generatePath (runtime : ExposeNormalizerRuntime) (attempts attempt : nat) (existing : list Expose) : result string :=
  match attempts with
  | O => Err (Sentinel ErrExposePathGeneration)
  | S attempts =>
      match nr_Entropy runtime attempt with
      | Err _ => Err (Sentinel ErrExposePathGeneration)
      | Ok raw =>
          match findExposeRouteConflict existing RouteExact (generated_path raw) with
          | Some _ => generatePath runtime attempts (S attempt) existing
          | None => Ok (generated_path raw)
          end
      end
  end.

(** ** Plans *)

Record ExposeNamespace := MkExposeNamespace { ns_NodeID : string; ns_StateGeneration : N; ns_Existing : list Expose }.
Record ExposeCreateRequest := MkExposeCreateRequest {
  cr_Upstream : string; cr_Name : string; cr_Path : string; cr_Prefix : bool; cr_AllowNonLoopback : bool; cr_LimitOverrides : ExposeLimitOverrides
}.
Record ExposePlanWarning := MkExposePlanWarning { pw_Code : string; pw_Message : string }.
#[export] Instance ExposePlanWarning_eq_dec : EqDecision ExposePlanWarning.
Proof. solve_decision. Defined.

Definition ExposeNonLoopbackWarning : ExposePlanWarning :=
  MkExposePlanWarning "non_loopback_upstream"
    "The application upstream is outside loopback; vpnctl will connect to a network endpoint from this node.".

Record ExposePlan := MkExposePlan {
  ep_ExposeID : string; ep_NodeID : string; ep_Name : string; ep_Upstream : string; ep_RouteMode : RouteMode; ep_Path : string;
  ep_NonLoopback : bool; ep_Warnings : list ExposePlanWarning; ep_Limits : ExposeLimits; ep_CreatedAt : time; ep_ExpectedStateGeneration : N
}.

Definition ep_Validate (plan : ExposePlan) : result unit :=
  reject (negb (is_ok (ValidateResourceID (ep_ExposeID plan)))) expose_input;;
  reject (negb (is_ok (ValidateResourceID (ep_NodeID plan)))) expose_input;;
  reject (negb (String.eqb (ep_Name plan) "") && negb (is_ok (ValidateExposeName (ep_Name plan)))) expose_input;;
  match NormalizeExposeUpstream (ep_Upstream plan) with
  | Err _ => Err expose_input
  | Ok upstream =>
      reject (negb (String.eqb (nu_Value upstream) (ep_Upstream plan)) || negb (Bool.eqb (ep_NonLoopback plan) (negb (nu_Loopback upstream)))) expose_input
  end;;
  match NormalizeExposePath (ep_Path plan) (ep_RouteMode plan) with
  | Err _ => Err expose_input
  | Ok path => reject (negb (String.eqb path (ep_Path plan))) expose_input
  end;;
  reject ((ep_ExpectedStateGeneration plan =? 0)%N || IsZero (ep_CreatedAt plan)) expose_input;;
  el_Validate (ep_Limits plan) DefaultGatewayHardLimits;;
  reject (negb (zone_offset (ep_CreatedAt plan) =? 0)%Z) expose_input;;
  reject (negb (bool_decide (ep_Warnings plan = if ep_NonLoopback plan then [ExposeNonLoopbackWarning] else []))) expose_input.

(** The namespace of the gateway: valid exposes, distinct, whose routes do not overlap. *)
Definition namespace_invalid : error := Sentinel ErrExposeNamespaceInvalid.

Definition validateExposeNamespace (namespace : ExposeNamespace) : result unit :=
  reject (negb (is_ok (ValidateResourceID (ns_NodeID namespace))) || (ns_StateGeneration namespace =? 0)%N) namespace_invalid;;
  _ ← range (λ _ existing '(ids, names),
    reject (negb (is_ok (expose_Validate existing))) namespace_invalid;;
    ids ← check_unique (expose_ID existing) namespace_invalid ids;
    if String.eqb (expose_Name existing) "" then Ok (ids, names) else
    let key := (expose_NodeID existing, ToLower (expose_Name existing)) in
    reject (bool_decide (key ∈ (names : gset (string * string)))) namespace_invalid;;
    Ok (ids, {[key]} ∪ names)) (ns_Existing namespace) (∅, ∅);
  _ ← range (λ _ existing routes,
    if bool_decide (expose_State existing = ExposeDisabled) then Ok routes else
    match Add_route routes (expose_RouteMode existing) (expose_Path existing) (expose_ID existing) with
    | Err _ => Err namespace_invalid
    | Ok (routes, owner) => reject (negb (String.eqb owner "")) namespace_invalid;; Ok routes
    end) (ns_Existing namespace) newRouteNode;
  Ok ().

Section normalizer.
Context (runtime : ExposeNormalizerRuntime).

(** The name is valid and not one of the node's, whatever its case. *)
Definition check_name (namespace : ExposeNamespace) (name : string) : result unit :=
  if String.eqb name "" then Ok () else
  reject (negb (is_ok (ValidateExposeName name))) expose_input;;
  range_check (λ _ existing,
    reject (String.eqb (expose_NodeID existing) (ns_NodeID namespace) && negb (String.eqb (expose_Name existing) "")
            && EqualFold (expose_Name existing) name) (Sentinel ErrExposeNameConflict)) (ns_Existing namespace).

Definition plan_path (namespace : ExposeNamespace) (request : ExposeCreateRequest) (mode : RouteMode) : result string :=
  if String.eqb (cr_Path request) "" then
    reject (cr_Prefix request) expose_input;;
    generatePath runtime GeneratedExposePathRetryLimit 0 (ns_Existing namespace)
  else
    path ← NormalizeExposePath (cr_Path request) mode;
    match findExposeRouteConflict (ns_Existing namespace) mode path with
    | Some _ => Err (Sentinel ErrExposeRouteConflict)
    | None => Ok path
    end.

Definition expose_Normalize (namespace : ExposeNamespace) (request : ExposeCreateRequest) : result ExposePlan :=
  validateExposeNamespace namespace;;
  limits ← ResolveExposeLimits DefaultGatewayHardLimits (cr_LimitOverrides request);
  check_name namespace (cr_Name request);;
  upstream ← NormalizeExposeUpstream (cr_Upstream request);
  reject (negb (nu_Loopback upstream) && negb (cr_AllowNonLoopback request)) (Sentinel ErrExposeNonLoopbackOptIn);;
  let mode := if cr_Prefix request then RoutePrefix else RouteExact in
  path ← plan_path namespace request mode;
  let occupied : gset string := list_to_set (expose_ID <$> ns_Existing namespace) in
  '(exposeID, _) ← wrap "allocate expose identity" (AllocateUUID occupied (nr_NewUUID runtime) 0).1;
  let createdAt := to_utc (nr_Now runtime) in
  reject (IsZero createdAt) expose_input;;
  let plan := MkExposePlan exposeID (ns_NodeID namespace) (cr_Name request) (nu_Value upstream) mode path (negb (nu_Loopback upstream))
                (if negb (nu_Loopback upstream) then [ExposeNonLoopbackWarning] else []) limits createdAt (ns_StateGeneration namespace) in
  ep_Validate plan;;
  Ok plan.
End normalizer.
