(* ===== verification/Tunnel.v ===== *)
(** * Tunnel plans and readiness ([internal/tunnel/provider.go], [readiness.go])

    The tunnel a state asks for: one session per node, one mapping per expose that is not
    disabled.  The readiness of a node tells, mapping by mapping, what the tunnel client
    reports about it. *)

From S2P Require Import Prelude GoTime GoText GoNet GoConv Types Checks Identity Address Expose Idempotency Resources StateValidate Loopback.

Local Open Scope string_scope.
Local Open Scope list_scope.

(** ** Patterns *)

Definition providerNamePattern : re := Cat (Class lower_alpha) (upto (Class (λ c, lower_alnum c || Ascii.eqb c "-"%char)) 31).
Definition configHashPattern : re := times (Class hex_lower) 64.
Definition domain_inside (c : ascii) : bool := lower_alnum c || in_chars ".-" c.
Definition domainPattern : re := Cat (Class lower_alnum) (opt (Cat (upto (Class domain_inside) 251) (Class lower_alnum))).

Definition is_transport (kind : TransportKind) : bool := bool_decide (kind = TransportStandard) || bool_decide (kind = TransportRestricted).

(** ** Candidates *)

Record tunnel_CandidateDescriptor := MkTunnelCandidateDescriptor {
  cd_Provider : string; cd_HostRole : Role; cd_HostID : string; cd_Generation : N; cd_NodeID : string; cd_CredentialGeneration : N;
  cd_ActiveTransport : TransportKind; cd_ConfigHash : string
}.
#[export] Instance tunnel_CandidateDescriptor_eq_dec : EqDecision tunnel_CandidateDescriptor.
Proof. solve_decision. Defined.

Definition tunnel_error : error := Message "tunnel".

Definition tcd_Validate (descriptor : tunnel_CandidateDescriptor) : result unit :=
  reject (negb (matches providerNamePattern (cd_Provider descriptor))) tunnel_error;;
  reject (negb (bool_decide (cd_HostRole descriptor = RoleGateway)) && negb (bool_decide (cd_HostRole descriptor = RoleNode))) tunnel_error;;
  lb_validateUUID (cd_HostID descriptor);;
  reject (cd_Generation descriptor =? 0)%N tunnel_error;;
  (if bool_decide (cd_HostRole descriptor = RoleGateway) then
     reject (negb (String.eqb (cd_NodeID descriptor) "") || negb (cd_CredentialGeneration descriptor =? 0)%N
             || negb (bool_decide (cd_ActiveTransport descriptor = TransportKindUnsupported ""))) tunnel_error
   else
     lb_validateUUID (cd_NodeID descriptor);;
     reject (cd_CredentialGeneration descriptor =? 0)%N tunnel_error;;
     reject (negb (is_transport (cd_ActiveTransport descriptor))) tunnel_error);;
  reject (negb (matches configHashPattern (cd_ConfigHash descriptor))) tunnel_error.

(** ** Mappings *)

(** A [netip.AddrPort]; [None] is the address that is not valid. *)
Record AddrPort := MkAddrPort { ap_Addr : option addr; ap_Port : N }.
#[export] Instance AddrPort_eq_dec : EqDecision AddrPort.
Proof. solve_decision. Defined.
Definition loopback_address : addr := V4 (ipv4_of_octets 127 0 0 1).

Definition MappingNamePrefix : string := "vpnctl-n-".

(** [strings.ReplaceAll(value, "-", "")] *)
Fixpoint without_dashes (s : string) : string :=
  match s with EmptyString => "" | String c s' => if Ascii.eqb c "-"%char then without_dashes s' else String c (without_dashes s') end.

Definition MappingName (nodeID exposeID : string) : result string :=
  lb_validateUUID nodeID;;
  lb_validateUUID exposeID;;
  Ok (MappingNamePrefix +:+ without_dashes nodeID +:+ "-e-" +:+ without_dashes exposeID).

(** [wantName, _ := MappingName(...)] *)
Definition want_name (nodeID exposeID : string) : string := match MappingName nodeID exposeID with Ok name => name | Err _ => "" end.

Definition tunnel_validateUpstream (value : string) : result unit :=
  match SplitHostPort value with
  | None => Err tunnel_error
  | Some (host, portText) =>
      reject (String.eqb host "" || String.eqb portText "") tunnel_error;;
      match Atoi portText with
      | None => Err tunnel_error
      | Some port =>
          reject ((port <? 1) || (65535 <? port))%Z tunnel_error;;
          match ParseAddr host with
          | Some address => reject (negb (String.eqb (addr_string address) host)) tunnel_error
          | None =>
              if String.eqb host "localhost" then Ok () else
              reject (negb (matches domainPattern host) || Contains host "..") tunnel_error;;
              range_check (λ _ label,
                reject ((63 <? String.length label)%nat || HasPrefix label "-" || HasSuffix label "-") tunnel_error) (Split host "."%char)
          end
      end
  end.

Record Mapping := MkMapping {
  mp_ExposeID : string; mp_NodeID : string; mp_Name : string; mp_Protocol : NetworkProtocol; mp_GatewayEndpoint : AddrPort;
  mp_NodeUpstream : string; mp_Generation : N
}.

Definition mp_Port (mapping : Mapping) : N := ap_Port (mp_GatewayEndpoint mapping).

Definition mp_Validate (mapping : Mapping) : result unit :=
  lb_validateUUID (mp_ExposeID mapping);;
  lb_validateUUID (mp_NodeID mapping);;
  reject (negb (String.eqb (mp_Name mapping) (want_name (mp_NodeID mapping) (mp_ExposeID mapping)))) tunnel_error;;
  reject (negb (bool_decide (mp_Protocol mapping = ProtocolTCP))) tunnel_error;;
  reject (negb (bool_decide (ap_Addr (mp_GatewayEndpoint mapping) = Some loopback_address))) tunnel_error;;
  reject ((Z.of_N (mp_Port mapping) <? DefaultLoopbackPortFirst) || (DefaultLoopbackPortLast <? Z.of_N (mp_Port mapping)))%Z tunnel_error;;
  tunnel_validateUpstream (mp_NodeUpstream mapping);;
  reject (mp_Generation mapping =? 0)%N tunnel_error.

Definition MappingFromExpose (expose : Expose) : result Mapping :=
  wrap "validate expose" (expose_Validate expose);;
  name ← MappingName (expose_NodeID expose) (expose_ID expose);
  let mapping := MkMapping (expose_ID expose) (expose_NodeID expose) name ProtocolTCP
                   (MkAddrPort (Some loopback_address) (Z.to_N (expose_TunnelPort expose mod 65536))) (expose_Upstream expose) (expose_Generation expose) in
  mp_Validate mapping;;
  Ok mapping.

(** ** Sessions and plans *)

Record NodeSession := MkNodeSession {
  ss_NodeID : string; ss_Generation : N; ss_CredentialGeneration : N; ss_ActiveTransport : TransportKind; ss_Mappings : slice Mapping
}.

Definition ss_Validate (session : NodeSession) : result unit :=
  lb_validateUUID (ss_NodeID session);;
  reject (ss_Generation session =? 0)%N tunnel_error;;
  reject (ss_CredentialGeneration session =? 0)%N tunnel_error;;
  reject (negb (is_transport (ss_ActiveTransport session))) tunnel_error;;
  reject (is_nil (ss_Mappings session)) tunnel_error;;
  _ ← range (λ _ mapping '(exposeIDs, names, ports),
    wrap "mapping" (mp_Validate mapping);;
    reject (negb (String.eqb (mp_NodeID mapping) (ss_NodeID session))) tunnel_error;;
    exposeIDs ← check_unique (mp_ExposeID mapping) tunnel_error exposeIDs;
    names ← check_unique (mp_Name mapping) tunnel_error names;
    reject (bool_decide (mp_Port mapping ∈ (ports : gset N))) tunnel_error;;
    Ok (exposeIDs, names, {[mp_Port mapping]} ∪ ports)) (items (ss_Mappings session)) (∅, ∅, ∅);
  Ok ().

Definition by_name (x y : Mapping) : Prop := str_le (mp_Name x) (mp_Name y).
#[export] Instance by_name_dec : RelDecision by_name.
Proof. intros x y. unfold by_name, str_le. apply _. Defined.
#[export] Instance by_name_total : Total by_name.
Proof. intros x y. apply (total str_le). Qed.
#[export] Instance by_name_trans : Transitive by_name.
Proof. intros x y z. unfold by_name. apply transitivity. Qed.

(** The mappings of a node: its exposes that are not disabled, in the order of the state. *)
Definition session_mappings (node : Node) (exposes : list Expose) : result (list Mapping) :=
  range (λ _ expose mappings,
    if negb (String.eqb (expose_NodeID expose) (node_ID node)) || bool_decide (expose_State expose = ExposeDisabled) then Ok mappings
    else mapping ← wrap "expose" (MappingFromExpose expose); Ok (mappings ++ [mapping])) exposes [].

Definition NewNodeSession (node : Node) (exposes : list Expose) (generation : N) : result NodeSession :=
  wrap "validate node" (node_Validate node);;
  reject (generation =? 0)%N tunnel_error;;
  mappings ← session_mappings node exposes;
  let session := MkNodeSession (node_ID node) generation (node_CredentialGeneration node) (node_ActiveTransport node)
                   (Some (merge_sort by_name mappings)) in
  ss_Validate session;;
  Ok session.

Record TunnelPlan := MkTunnelPlan {
  tp_HostRole : Role; tp_HostID : string; tp_Generation : N; tp_ServerEndpoint : AddrPort; tp_Nodes : slice NodeSession
}.

(** [IsPrivate] of an IPv4 address *)
Definition is_private4 (n : N) : bool :=
  ((octet n 3 =? 10) || ((octet n 3 =? 172) && (octet n 2 / 16 =? 1)) || ((octet n 3 =? 192) && (octet n 2 =? 168)))%N.

Definition endpoint_ok (endpoint : AddrPort) : bool :=
  match ap_Addr endpoint with Some (V4 n) => is_private4 n | _ => false end && negb (ap_Port endpoint =? 0)%N.

Definition tunnel_Plan_Validate (plan : TunnelPlan) : result unit :=
  reject (negb (bool_decide (tp_HostRole plan = RoleGateway)) && negb (bool_decide (tp_HostRole plan = RoleNode))) tunnel_error;;
  lb_validateUUID (tp_HostID plan);;
  reject (tp_Generation plan =? 0)%N tunnel_error;;
  reject (negb (endpoint_ok (tp_ServerEndpoint plan))) tunnel_error;;
  reject (is_nil (tp_Nodes plan)) tunnel_error;;
  reject (bool_decide (tp_HostRole plan = RoleNode) && negb (List.length (items (tp_Nodes plan)) =? 1)%nat) tunnel_error;;
  _ ← range (λ _ node '(nodeIDs, ports),
    wrap "node session" (ss_Validate node);;
    nodeIDs ← check_unique (ss_NodeID node) tunnel_error nodeIDs;
    ports ← range (λ _ mapping ports,
      reject (bool_decide (mp_Port mapping ∈ (ports : gset N))) tunnel_error;;
      Ok ({[mp_Port mapping]} ∪ ports)) (items (ss_Mappings node)) ports;
    Ok (nodeIDs, ports)) (items (tp_Nodes plan)) (∅, ∅);
  Ok ().

Definition FRPServerPort : N := 17000.

Definition by_node (x y : NodeSession) : Prop := str_le (ss_NodeID x) (ss_NodeID y).
#[export] Instance by_node_dec : RelDecision by_node.
Proof. intros x y. unfold by_node, str_le. apply _. Defined.
#[export] Instance by_node_total : Total by_node.
Proof. intros x y. apply (total str_le). Qed.
#[export] Instance by_node_trans : Transitive by_node.
Proof. intros x y z. unfold by_node. apply transitivity. Qed.

(** [Addr.Next]: the address above, not valid after the last one. *)
Definition next_address (a : addr) : option addr :=
  match a with
  | V4 n => if (n =? 4294967295)%N then None else Some (V4 (n + 1))
  | V6 n zone => if (n =? 2 ^ 128 - 1)%N then None else Some (V6 (n + 1) zone)
  end.

(** The sessions of the active nodes of a gateway. *)
Definition gateway_sessions (state : State) : result (list NodeSession) :=
  range (λ _ node sessions,
    if negb (bool_decide (node_Lifecycle node = LifecycleActive)) then Ok sessions
    else session ← wrap "compile gateway tunnel node" (NewNodeSession node (items (st_Exposes state)) (st_Generation state)); Ok (sessions ++ [session]))
    (items (st_Nodes state)) [].

(** The endpoint of the server and the sessions, by the role of the host. *)
Definition endpoint_and_sessions (state : State) : result (AddrPort * list NodeSession) :=
  match host_Role (st_Host state) with
  | RoleGateway =>
      match ParsePrefix (host_NodeCIDR (st_Host state)) with
      | None => Err tunnel_error
      | Some prefix => sessions ← gateway_sessions state; Ok (MkAddrPort (next_address (prefix_addr prefix)) FRPServerPort, sessions)
      end
  | RoleNode =>
      match items (st_Nodes state) with
      | [node] =>
          reject (negb (bool_decide (node_Lifecycle node = LifecycleActive))) tunnel_error;;
          match node_Gateway node with
          | None => Err tunnel_error
          | Some trust =>
              match ParseAddr (gw_GatewayOverlayIPv4 trust) with
              | None => Err tunnel_error
              | Some gateway =>
                  session ← wrap "compile node tunnel session" (NewNodeSession node (items (st_Exposes state)) (st_Generation state));
                  Ok (MkAddrPort (Some gateway) FRPServerPort, [session])
              end
          end
      | _ => Err tunnel_error
      end
  | RoleUnsupported _ => Err tunnel_error
  end.

Definition PlanFromState (state : State) : result TunnelPlan :=
  wrap "validate tunnel desired state" (Validate state);;
  '(endpoint, sessions) ← endpoint_and_sessions state;
  let plan := MkTunnelPlan (host_Role (st_Host state)) (host_ID (st_Host state)) (st_Generation state) endpoint (Some (merge_sort by_node sessions)) in
  wrap "validate compiled tunnel plan" (tunnel_Plan_Validate plan);;
  Ok plan.

(** ** Readiness *)

Inductive TunnelProbeState := TunnelProbePassed | TunnelProbeFailed | TunnelProbeUnsupported (raw : string).
#[export] Instance TunnelProbeState_eq_dec : EqDecision TunnelProbeState.
Proof. solve_decision. Defined.
Record TunnelProbeResult := MkTunnelProbeResult { pr_State : TunnelProbeState; pr_Code : string }.
#[export] Instance TunnelProbeResult_eq_dec : EqDecision TunnelProbeResult.
Proof. solve_decision. Defined.

Definition probe_passed (probe : TunnelProbeResult) : bool := bool_decide (pr_State probe = TunnelProbePassed).
Definition passedTunnelProbe (code : string) : TunnelProbeResult := MkTunnelProbeResult TunnelProbePassed code.
Definition failedTunnelProbe (code : string) : TunnelProbeResult := MkTunnelProbeResult TunnelProbeFailed code.

Definition probe_Validate (probe : TunnelProbeResult) : result unit :=
  reject (match pr_State probe with TunnelProbeUnsupported _ => true | _ => false end) tunnel_error;;
  reject (String.eqb (pr_Code probe) "" || negb (String.eqb (TrimSpace (pr_Code probe)) (pr_Code probe))
          || ContainsAny (pr_Code probe) (" " +:+ bytes [9%N] +:+ crlf)) tunnel_error.

Record TunnelMappingReadiness := MkTunnelMappingReadiness {
  mr_ExposeID : string; mr_Name : string; mr_Generation : N; mr_Registration : TunnelProbeResult; mr_Upstream : TunnelProbeResult
}.
Definition set_mr_Registration (probe : TunnelProbeResult) (m : TunnelMappingReadiness) : TunnelMappingReadiness :=
  MkTunnelMappingReadiness (mr_ExposeID m) (mr_Name m) (mr_Generation m) probe (mr_Upstream m).
Definition set_mr_Upstream (probe : TunnelProbeResult) (m : TunnelMappingReadiness) : TunnelMappingReadiness :=
  MkTunnelMappingReadiness (mr_ExposeID m) (mr_Name m) (mr_Generation m) (mr_Registration m) probe.

Definition tmr_validate (mapping : TunnelMappingReadiness) (nodeID : string) : result unit :=
  lb_validateUUID (mr_ExposeID mapping);;
  reject (negb (String.eqb (mr_Name mapping) (want_name nodeID (mr_ExposeID mapping))) || (mr_Generation mapping =? 0)%N) tunnel_error;;
  wrap "registration readiness" (probe_Validate (mr_Registration mapping));;
  wrap "upstream readiness" (probe_Validate (mr_Upstream mapping)).

Record TunnelReadinessResult := MkTunnelReadinessResult {
  trr_Candidate : tunnel_CandidateDescriptor; trr_Configuration : TunnelProbeResult; trr_Connection : TunnelProbeResult;
  trr_MappingSet : TunnelProbeResult; trr_Mappings : slice TunnelMappingReadiness
}.

Definition trr_Validate (readiness : TunnelReadinessResult) : result unit :=
  tcd_Validate (trr_Candidate readiness);;
  reject (negb (bool_decide (cd_HostRole (trr_Candidate readiness) = RoleNode))) tunnel_error;;
  range_check (λ _ probe, wrap "readiness" (probe_Validate probe))
    [trr_Configuration readiness; trr_Connection readiness; trr_MappingSet readiness];;
  reject (is_nil (trr_Mappings readiness)) tunnel_error;;
  _ ← range (λ _ mapping previousName,
    wrap "tunnel readiness mapping" (tmr_validate mapping (cd_NodeID (trr_Candidate readiness)));;
    reject (negb (String.eqb previousName "") && str_leb (mr_Name mapping) previousName) tunnel_error;;
    Ok (mr_Name mapping)) (items (trr_Mappings readiness)) "";
  Ok ().

Definition probes_passed (readiness : TunnelReadinessResult) : bool :=
  probe_passed (trr_Configuration readiness) && probe_passed (trr_Connection readiness) && probe_passed (trr_MappingSet readiness).

Definition Ready (readiness : TunnelReadinessResult) : bool :=
  is_ok (trr_Validate readiness) && probes_passed readiness
  && forallb (λ mapping, probe_passed (mr_Registration mapping) && probe_passed (mr_Upstream mapping)) (items (trr_Mappings readiness)).

Definition FRPIngressDegradedHTTPStatus : Z := 503.

(** Zero when the provider may forward. *)
Definition IngressHTTPStatus (readiness : TunnelReadinessResult) (expected : tunnel_CandidateDescriptor) (expose : Expose) : Z :=
  if negb (is_ok (trr_Validate readiness)) || negb (is_ok (tcd_Validate expected)) || negb (bool_decide (trr_Candidate readiness = expected))
     || negb (probes_passed readiness) || negb (is_ok (expose_Validate expose)) || bool_decide (expose_State expose = ExposeDisabled)
     || negb (String.eqb (expose_NodeID expose) (cd_NodeID expected))
  then FRPIngressDegradedHTTPStatus
  else if existsb (λ mapping, String.eqb (mr_ExposeID mapping) (expose_ID expose) && (mr_Generation mapping =? expose_Generation expose)%N
                              && probe_passed (mr_Registration mapping) && probe_passed (mr_Upstream mapping)) (items (trr_Mappings readiness))
  then 0%Z else FRPIngressDegradedHTTPStatus.

Definition EffectiveExposeState (readiness : TunnelReadinessResult) (expected : tunnel_CandidateDescriptor) (expose : Expose) : ExposeState :=
  if is_ok (expose_Validate expose) && bool_decide (expose_State expose = ExposeDisabled) then ExposeDisabled
  else if (IngressHTTPStatus readiness expected expose =? 0)%Z then ExposeReady else ExposeDegraded.

(** *** What the tunnel client reports *)

Record FRPProxyStatus := MkFRPProxyStatus {
  fs_Name : string; fs_Type : string; fs_Status : string; fs_Err : string; fs_LocalAddr : string; fs_Plugin : string; fs_RemoteAddr : string; fs_Source : string
}.

Definition newTunnelReadinessResult (descriptor : tunnel_CandidateDescriptor) (mappings : list Mapping) : TunnelReadinessResult :=
  MkTunnelReadinessResult descriptor (failedTunnelProbe "tunnel-generation-mismatch") (failedTunnelProbe "tunnel-connection-unavailable")
    (failedTunnelProbe "tunnel-mapping-set-unavailable")
    (Some ((λ mapping, MkTunnelMappingReadiness (mp_ExposeID mapping) (mp_Name mapping) (mp_Generation mapping)
       (failedTunnelProbe "tunnel-mapping-unavailable") (failedTunnelProbe "tunnel-upstream-unavailable")) <$> mappings)).

(** Each probe writes the entry of its own mapping, whichever order they run in; [reached]
    tells whether the application of an upstream answered before the context ended. *)
Definition probeTunnelUpstreams (reached : string → bool) (mappings : list Mapping) (results : list TunnelMappingReadiness) : list TunnelMappingReadiness :=
  zip_with (λ mapping entry, if reached (mp_NodeUpstream mapping) then set_mr_Upstream (passedTunnelProbe "tunnel-upstream-ready") entry else entry)
    mappings results.

Definition validFRPProxyPhase (value : string) : bool :=
  bool_decide (value ∈ ["new"; "wait start"; "start error"; "running"; "check failed"; "closed"]).

(** The statuses by name, unless two have one name. *)
Definition status_index (statuses : list FRPProxyStatus) : option (gmap string FRPProxyStatus) :=
  foldl (λ acc status, index ← acc; match index !! fs_Name status with Some _ => None | None => Some (<[fs_Name status := status]> index) end) (Some ∅) statuses.

(** The status of a mapping is the one its configuration asks for. *)
Definition status_exact (server : addr) (mapping : Mapping) (status : FRPProxyStatus) : bool :=
  String.eqb (fs_Type status) "tcp" && String.eqb (fs_LocalAddr status) (mp_NodeUpstream mapping)
  && String.eqb (fs_RemoteAddr status) (JoinHostPort (addr_string server) (itoa (mp_Port mapping)))
  && String.eqb (fs_Plugin status) "" && String.eqb (fs_Source status) "" && validFRPProxyPhase (fs_Status status).

Definition status_running (status : FRPProxyStatus) : bool := String.eqb (fs_Status status) "running" && String.eqb (fs_Err status) "".

(** A mapping with its entry; the entries of mappings that run are updated even when
    another mapping does not fit. *)
Definition apply_status (server : addr) (index : gmap string FRPProxyStatus) (mapping : Mapping) (entry : TunnelMappingReadiness) : TunnelMappingReadiness :=
  match index !! mp_Name mapping with
  | Some status =>
      if status_exact server mapping status && status_running status then set_mr_Registration (passedTunnelProbe "tunnel-mapping-ready") entry else entry
  | None => entry
  end.

Definition applyFRPStatus (server : addr) (mappings : list Mapping) (statuses : list FRPProxyStatus) (readiness : TunnelReadinessResult)
    : TunnelReadinessResult :=
  if (List.length mappings =? 0)%nat || negb (List.length statuses =? List.length mappings)%nat then readiness else
  match status_index statuses with
  | None => readiness
  | Some index =>
      let entries := zip_with (apply_status server index) mappings (items (trr_Mappings readiness)) in
      let allExact := forallb (λ mapping, match index !! mp_Name mapping with Some status => status_exact server mapping status | None => false end) mappings in
      if allExact then
        MkTunnelReadinessResult (trr_Candidate readiness) (trr_Configuration readiness) (passedTunnelProbe "tunnel-connection-ready")
          (passedTunnelProbe "tunnel-mapping-set-ready") (Some entries)
      else MkTunnelReadinessResult (trr_Candidate readiness) (trr_Configuration readiness) (trr_Connection readiness) (trr_MappingSet readiness) (Some entries)
  end.

(** [FRPClientSystemReadinessProber.Probe] once the candidate is parsed: whether the
    installed file is the candidate, which upstreams answered, and the statuses of the
    client unless it could not be asked. *)
Definition probe_readiness (descriptor : tunnel_CandidateDescriptor) (server : addr) (mappings : list Mapping) (installed : bool)
    (reached : string → bool) (statuses : option (list FRPProxyStatus)) : TunnelReadinessResult :=
  let started := newTunnelReadinessResult descriptor mappings in
  let probed := MkTunnelReadinessResult descriptor
    (if installed then passedTunnelProbe "tunnel-generation-ready" else trr_Configuration started)
    (trr_Connection started) (trr_MappingSet started) (Some (probeTunnelUpstreams reached mappings (items (trr_Mappings started)))) in
  if negb installed then probed else
  match statuses with None => probed | Some statuses => applyFRPStatus server mappings statuses probed end.
