(* ===== verification/ExposeSaga.v ===== *)
(** * Creating, listing and removing an expose
    ([internal/operations/expose_create.go], [expose_catalog.go], [expose_remove.go])

    The saga a node runs to publish an expose: the gateway reserves it, the tunnel of the
    node is activated, the pending expose is saved, the tunnel is observed, the gateway
    publishes it, and the final state is saved.  A failure before the publication is
    compensated.  Then the lists of exposes, and the saga that removes one. *)

From S2P Require Import Prelude GoTime GoText GoNet GoConv Proc Types Checks Identity Expose Resources StateValidate Codec Transition Loopback ExposePlan Tunnel.

Local Open Scope string_scope.
Local Open Scope list_scope.
Local Open Scope proc_scope.

Definition exposeCompensationTimeout : Z := 15 * second.

Definition expose_stale : error := Sentinel ErrExposePlanStale.
Definition saga_invalid : error := Sentinel ErrExposeSagaInvalid.
Definition tunnel_not_ready : error := Sentinel ErrExposeTunnelNotReady.
(** [ExposeOutcomeUncertainError] *)
Definition outcome_uncertain (stage : string) (cause : error) : error := Join (Sentinel ErrExposeOutcomeUncertain) cause.

(** The error with a [CommitPossible] method that [errors.As] finds: the outermost one, and
    among joined errors the first, whatever the errors below it say. *)
Fixpoint commit_mark (e : error) : option bool :=
  match e with
  | Sentinel ExposeCommitPossible => Some true
  | Sentinel ExposeCommitExcluded => Some false
  | Wrapped _ cause => commit_mark cause
  | Join first second => match commit_mark first with Some possible => Some possible | None => commit_mark second end
  | _ => None
  end.
Definition exposeCommitPossible (e : error) : bool := default false (commit_mark e).

(** An error with that method ([gatewayExposeCommitError], [remoteExposeRPCError]). *)
Definition commit_error (possible : bool) (cause : error) : error :=
  Join (Sentinel (if possible then ExposeCommitPossible else ExposeCommitExcluded)) cause.

Lemma commit_error_decides possible cause : exposeCommitPossible (commit_error possible cause) = possible.
Proof. by destruct possible. Qed.

(** ** Data *)

Record ExposeGatewaySnapshot := MkExposeGatewaySnapshot {
  gs_GatewayID : string; gs_Generation : N; gs_PublicIPv4 : string; gs_Node : Node; gs_Normalized : ExposePlan; gs_TunnelPort : Z;
  gs_Certificate : Certificate; gs_CertificateExportPath : string
}.
Record ExposeGatewayReservation := MkExposeGatewayReservation { er_ExposeID : string; er_PreviousGeneration : N; er_Generation : N }.
Record ExposeGatewayPublication := MkExposeGatewayPublication { pub_ExposeID : string; pub_Generation : N }.
Record ExposeDeferredRegistration := MkExposeDeferredRegistration { dr_ExposeID : string; dr_OperationID : string; dr_Generation : N }.

(** [ta_private] stands for the fields only the tunnel reads back. *)
Record ExposeTunnelActivation (A : Type) := MkExposeTunnelActivation { ta_ExposeID : string; ta_Candidate : tunnel_CandidateDescriptor; ta_private : A }.
Arguments MkExposeTunnelActivation {A}.
Arguments ta_ExposeID {A}.
Arguments ta_Candidate {A}.
Arguments ta_private {A}.

Record ExposeCreatePlan := MkExposeCreatePlan {
  cp_Normalized : ExposePlan; cp_Expose : Expose; cp_NodeHostID : string; cp_ExpectedLocalStateGeneration : N; cp_ExpectedGatewayStateGeneration : N;
  cp_GatewayID : string; cp_PublicIPv4 : string; cp_Certificate : Certificate; cp_CertificateExportPath : string
}.
Record ExposeCreateResult := MkExposeCreateResult {
  res_ExposeID : string; res_State : ExposeState; res_LocalStateGeneration : N; res_GatewayStateGeneration : N; res_PublicIPv4 : string;
  res_CertificateID : string; res_CertificateFingerprint : string; res_CertificateExportPath : string; res_publicURL : string
}.
Record ExposeCreateDeferredResult := MkExposeCreateDeferredResult { dres_ExposeID : string; dres_OperationID : string; dres_GatewayStateGeneration : N }.

(** ** Validation *)

Definition is_canonical_ipv4 (value : string) : bool := bool_decide (is_Some (canonical_ipv4 value)).
Definition path_breaks : string := crlf +:+ bytes [0%N].
Definition bad_export_path (path : string) : bool :=
  String.eqb path "" || negb (IsAbs path) || negb (String.eqb (Clean path) path) || ContainsAny path path_breaks.

Definition is_public_certificate (certificate : Certificate) (gatewayID : string) : bool :=
  is_ok (cert_Validate certificate) && bool_decide (cert_Kind certificate = CertificatePublicIngress)
  && String.eqb (cert_OwnerKind certificate) "host" && String.eqb (cert_OwnerID certificate) gatewayID.

(** The expose a normalized plan stands for. *)
Definition planned_expose (normalized : ExposePlan) (tunnelPort : Z) : Expose :=
  MkExpose ResourceSchemaVersion (ep_ExposeID normalized) (ep_NodeID normalized) (ep_Name normalized) (ep_Upstream normalized) (ep_RouteMode normalized)
    (ep_Path normalized) (el_BodyBytes (ep_Limits normalized)) (el_UpstreamTimeoutSeconds (ep_Limits normalized))
    (el_ConcurrentRequests (ep_Limits normalized)) tunnelPort ExposePending 1 (ep_CreatedAt normalized).

Definition expose_matches_plan (expose : Expose) (normalized : ExposePlan) : bool :=
  String.eqb (expose_ID expose) (ep_ExposeID normalized) && String.eqb (expose_NodeID expose) (ep_NodeID normalized)
  && String.eqb (expose_Name expose) (ep_Name normalized) && String.eqb (expose_Upstream expose) (ep_Upstream normalized)
  && bool_decide (expose_RouteMode expose = ep_RouteMode normalized) && String.eqb (expose_Path expose) (ep_Path normalized)
  && (expose_BodyLimitBytes expose =? el_BodyBytes (ep_Limits normalized))%Z
  && (expose_UpstreamTimeoutSeconds expose =? el_UpstreamTimeoutSeconds (ep_Limits normalized))%Z
  && (expose_ConcurrentRequests expose =? el_ConcurrentRequests (ep_Limits normalized))%Z
  && bool_decide (expose_State expose = ExposePending) && (expose_Generation expose =? 1)%N
  && Equal (expose_CreatedAt expose) (ep_CreatedAt normalized).

Definition cp_Validate (plan : ExposeCreatePlan) : result unit :=
  ep_Validate (cp_Normalized plan);;
  reject (negb (is_ok (expose_Validate (cp_Expose plan)))) saga_invalid;;
  reject (negb (expose_matches_plan (cp_Expose plan) (cp_Normalized plan))) saga_invalid;;
  reject (negb (is_ok (ValidateResourceID (cp_NodeHostID plan))) || (cp_ExpectedLocalStateGeneration plan =? 0)%N
          || (cp_ExpectedGatewayStateGeneration plan =? 0)%N
          || negb (cp_ExpectedGatewayStateGeneration plan =? ep_ExpectedStateGeneration (cp_Normalized plan))%N) saga_invalid;;
  reject (negb (is_ok (ValidateResourceID (cp_GatewayID plan)))) saga_invalid;;
  reject (negb (is_canonical_ipv4 (cp_PublicIPv4 plan))) saga_invalid;;
  reject (negb (is_public_certificate (cp_Certificate plan) (cp_GatewayID plan))) saga_invalid;;
  reject (bad_export_path (cp_CertificateExportPath plan) || String.eqb (Base (cp_CertificateExportPath plan)) ".") saga_invalid.

Definition validateExposeGatewaySnapshot (snapshot : ExposeGatewaySnapshot) (local : Node) : result unit :=
  let node := gs_Node snapshot in
  reject (negb (is_ok (ValidateResourceID (gs_GatewayID snapshot))) || (gs_Generation snapshot =? 0)%N) saga_invalid;;
  reject (negb (is_canonical_ipv4 (gs_PublicIPv4 snapshot))) saga_invalid;;
  reject (negb (is_ok (node_Validate node)) || negb (bool_decide (node_Gateway node = None)) || negb (String.eqb (node_ID node) (node_ID local))
          || negb (String.eqb (node_Name node) (node_Name local)) || negb (bool_decide (node_Lifecycle node = LifecycleActive))
          || negb (String.eqb (node_OverlayIPv4 node) (node_OverlayIPv4 local))
          || negb (node_CredentialGeneration node =? node_CredentialGeneration local)%N
          || negb (bool_decide (node_ActiveTransport node = node_ActiveTransport local))) expose_stale;;
  reject (negb (is_ok (ep_Validate (gs_Normalized snapshot))) || negb (String.eqb (ep_NodeID (gs_Normalized snapshot)) (node_ID local))
          || negb (ep_ExpectedStateGeneration (gs_Normalized snapshot) =? gs_Generation snapshot)%N
          || (gs_TunnelPort snapshot <? DefaultLoopbackPortFirst)%Z || (DefaultLoopbackPortLast <? gs_TunnelPort snapshot)%Z) saga_invalid;;
  reject (negb (is_public_certificate (gs_Certificate snapshot) (gs_GatewayID snapshot))) saga_invalid;;
  reject (bad_export_path (gs_CertificateExportPath snapshot)) saga_invalid.

Definition validateExposeReservation (receipt : ExposeGatewayReservation) (plan : ExposeCreatePlan) : result unit :=
  match NextGeneration (cp_ExpectedGatewayStateGeneration plan) with
  | Err _ => Err saga_invalid
  | Ok wantGeneration =>
      reject (negb (String.eqb (er_ExposeID receipt) (expose_ID (cp_Expose plan)))
              || negb (er_PreviousGeneration receipt =? cp_ExpectedGatewayStateGeneration plan)%N
              || negb (er_Generation receipt =? wantGeneration)%N) saga_invalid
  end.

(** The state is that of one joined, active node; each workflow has its own error. *)
Definition joined_local (invalid : error) (state : State) : result (State * Node * GatewayTrust) :=
  reject (negb (is_ok (Validate state)) || negb (bool_decide (host_Role (st_Host state) = RoleNode))) invalid;;
  match items (st_Nodes state) with
  | [node] =>
      reject (negb (bool_decide (node_Lifecycle node = LifecycleActive))) invalid;;
      match node_Gateway node with Some trust => Ok (state, node, trust) | None => Err invalid end
  | _ => Err invalid
  end.

(** ** States *)

Definition containsExpose (exposes : list Expose) (exposeID : string) : bool := existsb (λ expose, String.eqb (expose_ID expose) exposeID) exposes.

(** [candidate.Nodes[0].Gateway.LastKnownGatewayGeneration = generation]; a state without a
    joined node would stop the program. *)
Definition set_known_generation (generation : N) (state : State) : result State :=
  match items (st_Nodes state) with
  | node :: rest =>
      match node_Gateway node with
      | Some trust => Ok (set_st_Nodes (Some (set_node_Gateway (Some (set_gw_LastKnownGatewayGeneration generation trust)) node :: rest)) state)
      | None => Err (Message "nil pointer dereference")
      end
  | [] => Err (Message "index out of range")
  end.

(** The first expose with the identifier, changed. *)
Fixpoint change_first (exposeID : string) (change : Expose → result Expose) (exposes : list Expose) : result (list Expose) :=
  match exposes with
  | [] => Err expose_stale
  | expose :: rest =>
      if String.eqb (expose_ID expose) exposeID then expose ← change expose; Ok (expose :: rest)
      else rest ← change_first exposeID change rest; Ok (expose :: rest)
  end.

Definition without_expose (exposeID : string) (exposes : list Expose) : list Expose := filter (λ expose, expose_ID expose ≠ exposeID) exposes.

Section codec.
Context `{!JSONTokens} `{!JSONValue State}.

Definition cloneExposeState (source : State) : result State := encoded ← EncodeState source; DecodeState encoded.

(** A copy of the state with the next generation. *)
Definition next_copy (before : State) : result State :=
  candidate ← cloneExposeState before;
  generation ← NextGeneration (st_Generation before);
  Ok (set_st_Generation generation candidate).

Definition addPendingNodeExpose (before : State) (expose : Expose) (gatewayGeneration : N) : result State :=
  candidate ← next_copy before;
  let candidate := set_st_Exposes (append (st_Exposes candidate) [expose]) candidate in
  candidate ← set_known_generation gatewayGeneration candidate;
  wrap "build node pending expose state" (ValidateTransition before candidate);;
  Ok candidate.

Definition finalizeNodeExpose (pending : State) (exposeID : string) (state : ExposeState) (gatewayGeneration : N) : result State :=
  final ← next_copy pending;
  exposes ← change_first exposeID (λ expose, Ok (set_expose_State state expose)) (items (st_Exposes final));
  final ← set_known_generation gatewayGeneration (set_st_Exposes (Some exposes) final);
  wrap "build node final expose state" (ValidateTransition pending final);;
  Ok final.

Definition removePendingNodeExpose (pending : State) (exposeID : string) (gatewayGeneration : N) : result State :=
  rollback ← next_copy pending;
  let rollback := set_st_Exposes (Some (without_expose exposeID (items (st_Exposes rollback)))) rollback in
  rollback ← (if (gatewayGeneration =? 0)%N then Ok rollback else set_known_generation gatewayGeneration rollback);
  wrap "build node expose rollback state" (ValidateTransition pending rollback);;
  Ok rollback.
End codec.

(** ** The tunnel *)

Section tunnel.
Context {A : Type}.

Definition validateExposeTunnelActivation (activation : ExposeTunnelActivation A) (pending : State) (expose : Expose) : result unit :=
  let candidate := ta_Candidate activation in
  reject (negb (String.eqb (ta_ExposeID activation) (expose_ID expose)) || negb (is_ok (tcd_Validate candidate))
          || negb (bool_decide (cd_HostRole candidate = RoleNode)) || negb (String.eqb (cd_HostID candidate) (host_ID (st_Host pending)))
          || negb (String.eqb (cd_NodeID candidate) (expose_NodeID expose)) || negb (cd_Generation candidate =? st_Generation pending)%N) saga_invalid.

Definition effectiveExposeState (readiness : TunnelReadinessResult) (activation : ExposeTunnelActivation A) (expose : Expose) : result ExposeState :=
  reject (negb (is_ok (trr_Validate readiness)) || negb (bool_decide (trr_Candidate readiness = ta_Candidate activation))) tunnel_not_ready;;
  reject (negb (probes_passed readiness)) tunnel_not_ready;;
  wantedName ← MappingName (expose_NodeID expose) (expose_ID expose);
  match list_find (λ mapping, mr_ExposeID mapping = expose_ID expose) (items (trr_Mappings readiness)) with
  | None => Err tunnel_not_ready
  | Some (_, mapping) =>
      reject (negb (String.eqb (mr_Name mapping) wantedName) || negb (mr_Generation mapping =? expose_Generation expose)%N
              || negb (probe_passed (mr_Registration mapping))) tunnel_not_ready;;
      Ok (if probe_passed (mr_Upstream mapping) then ExposeReady else ExposeDegraded)
  end.
End tunnel.

(** ** Results *)

(** [output.NewSensitivePath] *)
Definition NewSensitivePath (value : string) : result string :=
  reject (String.eqb value "" || negb (String.eqb (TrimSpace value) value) || ContainsAny value path_breaks) (Message "sensitive path");;
  Ok value.

Definition exposePublicURL (publicIPv4 path : string) : result string := NewSensitivePath ("https://" +:+ publicIPv4 +:+ path).

Definition is_published (state : ExposeState) : bool := bool_decide (state = ExposeReady) || bool_decide (state = ExposeDegraded).

Definition NewExposeCreateResult (plan : ExposeCreatePlan) (state : ExposeState) (localGeneration gatewayGeneration : N) : result ExposeCreateResult :=
  cp_Validate plan;;
  match reserved ← NextGeneration (cp_ExpectedGatewayStateGeneration plan); NextGeneration reserved with
  | Err _ => Err saga_invalid
  | Ok wantGatewayGeneration =>
      reject (negb (is_published state) || (localGeneration =? 0)%N || negb (gatewayGeneration =? wantGatewayGeneration)%N) saga_invalid
  end;;
  publicURL ← exposePublicURL (cp_PublicIPv4 plan) (ep_Path (cp_Normalized plan));
  Ok (MkExposeCreateResult (expose_ID (cp_Expose plan)) state localGeneration gatewayGeneration (cp_PublicIPv4 plan) (cert_ID (cp_Certificate plan))
        (cert_Fingerprint (cp_Certificate plan)) (cp_CertificateExportPath plan) publicURL).

(** ** The saga *)

Class ExposeStateStore (W : Type) := {
  es_Load : W → result State * W;
  es_Save : N → State → W → result unit * W
}.

(** The gateway as the node calls it; the bound is the context of the call.  [Abort] returns
    a generation beside its error, and the caller reads it whether or not it failed. *)
Class ExposeGatewayCoordinator (W : Type) := {
  eg_Plan : string → ExposeCreateRequest → W → result ExposeGatewaySnapshot * W;
  eg_Reserve : ExposeCreatePlan → W → result ExposeGatewayReservation * W;
  eg_Publish : ExposeGatewayReservation → ExposeState → W → result ExposeGatewayPublication * W;
  eg_Abort : ExposeGatewayReservation → call_bound → W → (N * result unit) * W;
  eg_Defer : ExposeCreatePlan → W → result ExposeDeferredRegistration * W
}.

Class ExposeNodeTunnel (W A : Type) := {
  et_Activate : State → State → Expose → W → result (ExposeTunnelActivation A) * W;
  et_Observe : ExposeTunnelActivation A → Expose → W → result TunnelReadinessResult * W;
  et_Rollback : ExposeTunnelActivation A → call_bound → W → result unit * W
}.

(** The calls of the saga, with their outcome. *)
Inductive create_event (A : Type) :=
  | LocalLoaded (r : result State)
  | LocalSaved (expected : N) (state : State) (r : result unit)
  | ExposePlanned (nodeID : string) (r : result ExposeGatewaySnapshot)
  | ExposeReserved (plan : ExposeCreatePlan) (r : result ExposeGatewayReservation)
  | MappingActivated (pending : State) (r : result (ExposeTunnelActivation A))
  | MappingObserved (activation : ExposeTunnelActivation A) (r : result TunnelReadinessResult)
  | MappingRolledBack (activation : ExposeTunnelActivation A) (bound : call_bound) (r : result unit)
  | ExposePublished (reservation : ExposeGatewayReservation) (state : ExposeState) (r : result ExposeGatewayPublication)
  | ReservationAborted (reservation : ExposeGatewayReservation) (bound : call_bound) (generation : N) (r : result unit)
  | ExposeDeferred (plan : ExposeCreatePlan) (r : result ExposeDeferredRegistration).
Arguments LocalLoaded {A}.
Arguments LocalSaved {A}.
Arguments ExposePlanned {A}.
Arguments ExposeReserved {A}.
Arguments MappingActivated {A}.
Arguments MappingObserved {A}.
Arguments MappingRolledBack {A}.
Arguments ExposePublished {A}.
Arguments ReservationAborted {A}.
Arguments ExposeDeferred {A}.

Section saga.
Context `{!JSONTokens} `{!JSONValue State} {W A : Type} `{!ExposeStateStore W} `{!ExposeGatewayCoordinator W} `{!ExposeNodeTunnel W A}.

Definition create_run (T : Type) : Type := proc W (create_event A) T.

Definition local_save (expected : N) (state : State) : create_run (result unit) := call (es_Save expected state) (λ r, [LocalSaved expected state r]).

Definition loadJoinedNode : create_run (result (State * Node * GatewayTrust)) :=
  loaded ← call es_Load (λ r, [LocalLoaded r]);
  mret (state ← wrap "load node state" loaded; joined_local saga_invalid state).

Definition create_plan_of (local : State) (snapshot : ExposeGatewaySnapshot) : ExposeCreatePlan :=
  MkExposeCreatePlan (gs_Normalized snapshot) (planned_expose (gs_Normalized snapshot) (gs_TunnelPort snapshot)) (host_ID (st_Host local))
    (st_Generation local) (gs_Generation snapshot) (gs_GatewayID snapshot) (gs_PublicIPv4 snapshot) (gs_Certificate snapshot)
    (gs_CertificateExportPath snapshot).

Definition create_Plan (request : ExposeCreateRequest) : create_run (result ExposeCreatePlan) :=
  '(local, node, trust) ←? loadJoinedNode;
  planned ← call (eg_Plan (node_ID node) request) (λ r, [ExposePlanned (node_ID node) r]);
  match planned with
  | Err e => mret (Err (Join (Sentinel ErrExposeGatewayUnavailable) e))
  | Ok snapshot =>
      mret (validateExposeGatewaySnapshot snapshot node;;
            reject (negb (String.eqb (gs_PublicIPv4 snapshot) (gw_PublicIPv4 trust)) || (gs_Generation snapshot <? gw_LastKnownGatewayGeneration trust)%N)
              expose_stale;;
            cp_Validate (create_plan_of local snapshot);;
            Ok (create_plan_of local snapshot))
  end.

(** Undoes what was done, in reverse: the tunnel when it is active, the reservation, and
    the pending expose when it was saved. *)
Definition undo_mapping (activation : option (ExposeTunnelActivation A)) (bound : call_bound) : create_run (option error) :=
  match activation with
  | Some activation => r ← call (et_Rollback activation bound) (λ r, [MappingRolledBack activation bound r]); mret (error_of (wrap "rollback node tunnel mapping" r))
  | None => mret None
  end.

Definition drop_pending (pending : option State) (plan : ExposeCreatePlan) (gatewayGeneration : N) : create_run (option error) :=
  match pending with
  | Some pending =>
      match removePendingNodeExpose pending (expose_ID (cp_Expose plan)) gatewayGeneration with
      | Err e => mret (Some e)
      | Ok rollback => r ← local_save (st_Generation pending) rollback; mret (error_of (wrap "persist node expose rollback" r))
      end
  | None => mret None
  end.

Definition create_compensate (primary : error) (pending : option State) (plan : ExposeCreatePlan) (reservation : ExposeGatewayReservation)
    (activation : option (ExposeTunnelActivation A)) : create_run error :=
  let bound := Detached exposeCompensationTimeout in
  undone ← undo_mapping activation bound;
  '(gatewayGeneration, aborted) ← call (eg_Abort reservation bound) (λ '(generation, r), [ReservationAborted reservation bound generation r]);
  removed ← drop_pending pending plan gatewayGeneration;
  mret (errors_join primary [undone; error_of (wrap "abort gateway expose reservation" aborted); removed]).

(** The answer of the gateway is for this expose and one generation later. *)
Definition publication_fits (publication : ExposeGatewayPublication) (reservation : ExposeGatewayReservation) (plan : ExposeCreatePlan) : bool :=
  match NextGeneration (er_Generation reservation) with
  | Ok want => String.eqb (pub_ExposeID publication) (expose_ID (cp_Expose plan)) && (pub_Generation publication =? want)%N
  | Err _ => false
  end.

(** From the observed tunnel to the end. *)
Definition publish_expose (plan : ExposeCreatePlan) (pending : State) (reservation : ExposeGatewayReservation) (activation : ExposeTunnelActivation A)
    (effectiveState : ExposeState) : create_run (result ExposeCreateResult) :=
  published ← call (eg_Publish reservation effectiveState) (λ r, [ExposePublished reservation effectiveState r]);
  match published with
  | Err e =>
      if exposeCommitPossible e then mret (Err (outcome_uncertain "gateway_publish" e)) else
      failure ← create_compensate (Wrapped "publish gateway ingress" e) (Some pending) plan reservation (Some activation);
      mret (Err failure)
  | Ok publication =>
      if negb (publication_fits publication reservation plan) then mret (Err (outcome_uncertain "gateway_publication_receipt" saga_invalid)) else
      match finalizeNodeExpose pending (expose_ID (cp_Expose plan)) effectiveState (pub_Generation publication) with
      | Err e => mret (Err (outcome_uncertain "node_finalize_plan" e))
      | Ok final =>
          saved ← local_save (st_Generation pending) final;
          match saved with
          | Err e => mret (Err (outcome_uncertain "node_finalize_state" e))
          | Ok _ =>
              mret (match NewExposeCreateResult plan effectiveState (st_Generation final) (pub_Generation publication) with
                | Err e => Err (outcome_uncertain "result_url" e)
                | Ok result => Ok result
                end)
          end
      end
  end.

(** From the reservation to the publication. *)
Definition activate_expose (plan : ExposeCreatePlan) (before : State) (reservation : ExposeGatewayReservation) : create_run (result ExposeCreateResult) :=
  let failed primary pending activation := failure ← create_compensate primary pending plan reservation activation; mret (Err failure) in
  match addPendingNodeExpose before (cp_Expose plan) (er_Generation reservation) with
  | Err e => failed e None None
  | Ok pending =>
      activated ← call (et_Activate before pending (cp_Expose plan)) (λ r, [MappingActivated pending r]);
      match activated with
      | Err e => failed (Wrapped "activate node tunnel mapping" e) None None
      | Ok activation =>
          match validateExposeTunnelActivation activation pending (cp_Expose plan) with
          | Err e => failed e None (Some activation)
          | Ok _ =>
              saved ← local_save (st_Generation before) pending;
              match saved with
              | Err e => failed (Wrapped "persist node pending expose" e) None (Some activation)
              | Ok _ =>
                  observed ← call (et_Observe activation (cp_Expose plan)) (λ r, [MappingObserved activation r]);
                  match observed with
                  | Err e => failed (Wrapped "observe node tunnel mapping" e) (Some pending) (Some activation)
                  | Ok readiness =>
                      match effectiveExposeState readiness activation (cp_Expose plan) with
                      | Err e => failed e (Some pending) (Some activation)
                      | Ok effectiveState => publish_expose plan pending reservation activation effectiveState
                      end
                  end
              end
          end
      end
  end.

Definition create_Apply (plan : ExposeCreatePlan) : create_run (result ExposeCreateResult) :=
  match cp_Validate plan with
  | Err e => mret (Err e)
  | Ok _ =>
      '(before, node, trust) ←? loadJoinedNode;
      if negb (st_Generation before =? cp_ExpectedLocalStateGeneration plan)%N || negb (String.eqb (host_ID (st_Host before)) (cp_NodeHostID plan))
         || negb (String.eqb (node_ID node) (expose_NodeID (cp_Expose plan)))
         || (cp_ExpectedGatewayStateGeneration plan <? gw_LastKnownGatewayGeneration trust)%N
         || containsExpose (items (st_Exposes before)) (expose_ID (cp_Expose plan))
      then mret (Err expose_stale) else
      reserved ← call (eg_Reserve plan) (λ r, [ExposeReserved plan r]);
      match reserved with
      | Err e => mret (Err (if exposeCommitPossible e then outcome_uncertain "gateway_reserve" e else Wrapped "reserve authoritative expose" e))
      | Ok reservation =>
          match validateExposeReservation reservation plan with
          | Err e => mret (Err (outcome_uncertain "gateway_reservation_receipt" e))
          | Ok _ => activate_expose plan before reservation
          end
      end
  end.

Definition create_Defer (plan : ExposeCreatePlan) : create_run (result ExposeCreateDeferredResult) :=
  match cp_Validate plan with
  | Err e => mret (Err e)
  | Ok _ =>
      registered ← call (eg_Defer plan) (λ r, [ExposeDeferred plan r]);
      mret (match registered with
        | Err e => Err (Join (Sentinel ErrExposeGatewayUnavailable) e)
        | Ok registration =>
            match NextGeneration (cp_ExpectedGatewayStateGeneration plan) with
            | Err _ => Err saga_invalid
            | Ok want =>
                reject (negb (String.eqb (dr_ExposeID registration) (expose_ID (cp_Expose plan))) || negb (dr_Generation registration =? want)%N
                        || negb (is_ok (ValidateResourceID (dr_OperationID registration)))) saga_invalid;;
                Ok (MkExposeCreateDeferredResult (dr_ExposeID registration) (dr_OperationID registration) (dr_Generation registration))
            end
        end)
  end.
End saga.

(** * Listing exposes ([internal/operations/expose_catalog.go])

    What a node shows of its exposes: its own records, once those of the gateway agree with
    them, without the path of a webhook and without the port of a tunnel. *)

Record GatewayExposeCatalogSnapshot := MkGatewayExposeCatalogSnapshot {
  cs_GatewayID : string; cs_Generation : N; cs_PublicIPv4 : string; cs_NodeID : string; cs_Exposes : list Expose; cs_Certificate : Certificate;
  cs_CertificateExportPath : string; cs_CertificateAvailable : bool
}.
Record ExposeCertificateView := MkExposeCertificateView {
  cv_ID : string; cv_Fingerprint : string; cv_NotAfter : time; cv_Generation : N; cv_Available : bool; cv_OutputPath : string; cv_PublicIPv4 : string
}.
Record ExposeView := MkExposeView {
  ev_ID : string; ev_Name : string; ev_Upstream : string; ev_RouteMode : RouteMode; ev_BodyLimitBytes : Z; ev_UpstreamTimeoutSeconds : Z;
  ev_ConcurrentRequests : Z; ev_State : ExposeState; ev_Generation : N; ev_CreatedAt : time; ev_Certificate : ExposeCertificateView
}.
Record ExposeList := MkExposeList { li_LocalStateGeneration : N; li_GatewayStateGeneration : N; li_GatewayReachable : bool; li_Items : list ExposeView }.
Record ExposeShow := MkExposeShow {
  sh_LocalStateGeneration : N; sh_GatewayStateGeneration : N; sh_GatewayReachable : bool; sh_Resource : ExposeView; sh_publicURL : string
}.

Definition no_certificate : ExposeCertificateView := MkExposeCertificateView "" "" zero_time 0 false "" "".
Definition certificateView (snapshot : GatewayExposeCatalogSnapshot) : ExposeCertificateView :=
  let certificate := cs_Certificate snapshot in
  MkExposeCertificateView (cert_ID certificate) (cert_Fingerprint certificate) (cert_NotAfter certificate) (cert_Generation certificate)
    (cs_CertificateAvailable snapshot) (cs_CertificateExportPath snapshot) (cs_PublicIPv4 snapshot).

Definition buildExposeView (expose : Expose) (certificate : ExposeCertificateView) : ExposeView :=
  MkExposeView (expose_ID expose) (expose_Name expose) (expose_Upstream expose) (expose_RouteMode expose) (expose_BodyLimitBytes expose)
    (expose_UpstreamTimeoutSeconds expose) (expose_ConcurrentRequests expose) (expose_State expose) (expose_Generation expose)
    (expose_CreatedAt expose) certificate.

(** By name in lower case, then by identifier. *)
Definition view_leb (x y : ExposeView) : bool :=
  if String.eqb (ToLower (ev_Name x)) (ToLower (ev_Name y)) then str_leb (ev_ID x) (ev_ID y) else str_leb (ToLower (ev_Name x)) (ToLower (ev_Name y)).
Definition view_le (x y : ExposeView) : Prop := view_leb x y = true.
#[export] Instance view_le_dec : RelDecision view_le.
Proof. intros x y. unfold view_le. apply _. Defined.

Definition buildExposeViews (exposes : list Expose) (certificate : ExposeCertificateView) : list ExposeView :=
  merge_sort view_le ((λ expose, buildExposeView expose certificate) <$> exposes).

(** The one expose of the node with the identifier or, whatever its case, the name. *)
Definition expose_not_found : error := Sentinel ErrExposeNotFound.
Definition refers_to (nodeID reference : string) (expose : Expose) : bool :=
  String.eqb (expose_NodeID expose) nodeID
  && (String.eqb (expose_ID expose) reference || (negb (String.eqb (expose_Name expose) "") && EqualFold (expose_Name expose) reference)).

Definition resolveExpose (exposes : list Expose) (nodeID reference : string) : result Expose :=
  reject (String.eqb reference "" || negb (String.eqb (TrimSpace reference) reference) || ContainsAny reference path_breaks) expose_not_found;;
  match filter (λ expose, refers_to nodeID reference expose = true) exposes with
  | [expose] => Ok expose
  | _ => Err expose_not_found
  end.

(** The exposes of the gateway by identifier: valid ones of the node, each once. *)
Definition remote_exposes (snapshot : GatewayExposeCatalogSnapshot) (node : Node) : result (gmap string Expose) :=
  range (λ _ expose remote,
    reject (negb (is_ok (expose_Validate expose)) || negb (String.eqb (expose_NodeID expose) (node_ID node))) (Message "invalid owner");;
    match remote !! expose_ID expose with
    | Some _ => Err (Message "duplicate expose")
    | None => Ok (<[expose_ID expose := expose]> remote)
    end) (cs_Exposes snapshot) ∅.

Definition validateCatalogSnapshot (snapshot : GatewayExposeCatalogSnapshot) (local : State) (node : Node) (trust : GatewayTrust) : result unit :=
  reject (negb (is_ok (ValidateResourceID (cs_GatewayID snapshot))) || (cs_Generation snapshot =? 0)%N || negb (String.eqb (cs_NodeID snapshot) (node_ID node))
          || (cs_Generation snapshot <? gw_LastKnownGatewayGeneration trust)%N) expose_stale;;
  reject (negb (is_canonical_ipv4 (cs_PublicIPv4 snapshot)) || negb (String.eqb (cs_PublicIPv4 snapshot) (gw_PublicIPv4 trust))) expose_stale;;
  reject (negb (is_public_certificate (cs_Certificate snapshot) (cs_GatewayID snapshot))) (Message "certificate metadata");;
  reject (bad_export_path (cs_CertificateExportPath snapshot)) (Message "certificate export path");;
  reject (negb (List.length (cs_Exposes snapshot) =? List.length (items (st_Exposes local)))%nat) expose_stale;;
  remote ← remote_exposes snapshot node;
  range_check (λ _ expose,
    reject (negb (String.eqb (expose_NodeID expose) (node_ID node)) || negb (bool_decide (remote !! expose_ID expose = Some expose))) expose_stale)
    (items (st_Exposes local)).

Class ExposeGatewayCatalog (W : Type) := { eg_Inspect : string → bool → W → result GatewayExposeCatalogSnapshot * W }.

Inductive catalog_event := CatalogLoaded (r : result State) | CatalogInspected (nodeID : string) (refreshCertificate : bool) (r : result GatewayExposeCatalogSnapshot).

Section catalog.
Context {W : Type} `{!ExposeStateStore W} `{!ExposeGatewayCatalog W}.

Definition catalog_run (T : Type) : Type := proc W catalog_event T.
Definition catalog_load : catalog_run (result (State * Node * GatewayTrust)) :=
  loaded ← call es_Load (λ r, [CatalogLoaded r]);
  mret (state ← wrap "load node expose state" loaded; joined_local (Message "expose catalog requires one joined active node") state).

(** [cancelled] is the error of the context once the gateway was asked. *)
Definition List_exposes (cancelled : option error) : catalog_run (result ExposeList) :=
  '(local, node, trust) ←? catalog_load;
  inspected ← call (eg_Inspect (node_ID node) false) (λ r, [CatalogInspected (node_ID node) false r]);
  mret (match inspected with
    | Err _ =>
        match cancelled with
        | Some e => Err e
        | None => Ok (MkExposeList (st_Generation local) 0 false (buildExposeViews (items (st_Exposes local)) no_certificate))
        end
    | Ok snapshot =>
        validateCatalogSnapshot snapshot local node trust;;
        Ok (MkExposeList (st_Generation local) (cs_Generation snapshot) true (buildExposeViews (items (st_Exposes local)) (certificateView snapshot)))
    end).

Definition Show_expose (cancelled : option error) (reference : string) : catalog_run (result ExposeShow) :=
  '(local, node, trust) ←? catalog_load;
  match resolveExpose (items (st_Exposes local)) (node_ID node) reference with
  | Err e => mret (Err e)
  | Ok expose =>
      inspected ← call (eg_Inspect (node_ID node) true) (λ r, [CatalogInspected (node_ID node) true r]);
      mret (match inspected with
        | Err _ =>
            match cancelled with
            | Some e => Err e
            | None => Ok (MkExposeShow (st_Generation local) 0 false (buildExposeView expose no_certificate) "")
            end
        | Ok snapshot =>
            validateCatalogSnapshot snapshot local node trust;;
            publicURL ← exposePublicURL (cs_PublicIPv4 snapshot) (expose_Path expose);
            Ok (MkExposeShow (st_Generation local) (cs_Generation snapshot) true (buildExposeView expose (certificateView snapshot)) publicURL)
        end)
  end.
End catalog.

(** * Removing an expose ([internal/operations/expose_remove.go])

    The saga a node runs to remove an expose: the gateway unpublishes it, the node disables
    it, the requests in flight are drained, the tunnel drops the mapping, the gateway
    releases the port, and the node deletes the record.  After the first step it only goes
    forward. *)

Definition ExposeRemovalDrain : Z := DefaultIngressGracefulShutdownSeconds * second.

(** [ExposeRemovalIncompleteError] *)
Definition removal_incomplete (stage : string) (cause : error) : error := Join (Sentinel ErrExposeRemovalIncomplete) cause.

(** ** Data *)

Record ExposeRemovePlan := MkExposeRemovePlan {
  rm_Expose : Expose; rm_NodeHostID : string; rm_ExpectedLocalStateGeneration : N; rm_ExpectedGatewayStateGeneration : N; rm_GatewayID : string; rm_PublicIPv4 : string
}.
Record ExposeGatewayRemovalSnapshot := MkExposeGatewayRemovalSnapshot {
  rs_GatewayID : string; rs_Generation : N; rs_PublicIPv4 : string; rs_NodeID : string; rs_Expose : Expose
}.
Record ExposeGatewayUnpublication := MkExposeGatewayUnpublication {
  un_ExposeID : string; un_PreviousGeneration : N; un_Generation : N; un_Drain : Z; un_AlreadyUnpublished : bool
}.
Record ExposeRemovalDeferredRegistration := MkExposeRemovalDeferredRegistration { rd_ExposeID : string; rd_OperationID : string; rd_Generation : N }.
Record ExposeRemoveDeferredResult := MkExposeRemoveDeferredResult { rrd_ExposeID : string; rrd_OperationID : string; rrd_GatewayStateGeneration : N }.
Record ExposeTunnelDeactivation := MkExposeTunnelDeactivation { td_ExposeID : string; td_Candidate : tunnel_CandidateDescriptor }.
Record ExposeRemoveResult := MkExposeRemoveResult {
  rr_ExposeID : string; rr_LocalStateGeneration : N; rr_GatewayStateGeneration : N; rr_DrainSeconds : Z
}.

Definition rm_Validate (plan : ExposeRemovePlan) : result unit :=
  wrap "invalid expose removal target" (expose_Validate (rm_Expose plan));;
  reject (negb (is_published (expose_State (rm_Expose plan))) && negb (bool_decide (expose_State (rm_Expose plan) = ExposeDisabled)))
    (Message "expose removal target must be published or disabled");;
  reject (negb (is_ok (ValidateResourceID (rm_NodeHostID plan))) || negb (is_ok (ValidateResourceID (rm_GatewayID plan)))
          || (rm_ExpectedLocalStateGeneration plan =? 0)%N || (rm_ExpectedGatewayStateGeneration plan =? 0)%N)
    (Message "expose removal identity or generation is invalid");;
  reject (negb (is_canonical_ipv4 (rm_PublicIPv4 plan))) (Message "expose removal gateway public IPv4 is invalid").

Definition unpublication_invalid : error := Message "unpublication is invalid".

Definition validateExposeUnpublication (receipt : ExposeGatewayUnpublication) (plan : ExposeRemovePlan) : result unit :=
  reject (negb (String.eqb (un_ExposeID receipt) (expose_ID (rm_Expose plan)))
          || negb (un_PreviousGeneration receipt =? rm_ExpectedGatewayStateGeneration plan)%N) unpublication_invalid;;
  if bool_decide (expose_State (rm_Expose plan) = ExposeDisabled) then
    reject (negb (un_AlreadyUnpublished receipt) || negb (un_Generation receipt =? un_PreviousGeneration receipt)%N || negb (un_Drain receipt =? 0)%Z)
      unpublication_invalid
  else
    match NextGeneration (un_PreviousGeneration receipt) with
    | Err _ => Err unpublication_invalid
    | Ok want =>
        reject (un_AlreadyUnpublished receipt || negb (un_Generation receipt =? want)%N || negb (un_Drain receipt =? ExposeRemovalDrain)%Z)
          unpublication_invalid
    end.

(** ** States *)

(** Every expose with the identifier is disabled and one generation later; [None] when there
    is none. *)
Definition disable_all (exposeID : string) (exposes : list Expose) : result (list Expose * bool) :=
  range (λ _ expose '(disabled, found),
    if negb (String.eqb (expose_ID expose) exposeID) then Ok (disabled ++ [expose], found)
    else generation ← NextGeneration (expose_Generation expose);
         Ok (disabled ++ [set_expose_Generation generation (set_expose_State ExposeDisabled expose)], true)) exposes ([], false).

(** The exposes without those of the identifier, which must be disabled. *)
Definition delete_disabled (exposeID : string) (exposes : list Expose) : result (list Expose * bool) :=
  range (λ _ expose '(filtered, found),
    if negb (String.eqb (expose_ID expose) exposeID) then Ok (filtered ++ [expose], found)
    else reject (negb (bool_decide (expose_State expose = ExposeDisabled))) expose_stale;; Ok (filtered, true)) exposes ([], false).

Section codec.
Context `{!JSONTokens} `{!JSONValue State}.

(** Both changes of the node's state: the exposes, the generation of the gateway. *)
Definition change_exposes (label : string) (change : list Expose → result (list Expose * bool)) (before : State) (gatewayGeneration : N) : result State :=
  candidate ← next_copy before;
  '(exposes, found) ← change (items (st_Exposes candidate));
  reject (negb found) expose_stale;;
  candidate ← set_known_generation gatewayGeneration (set_st_Exposes (Some exposes) candidate);
  wrap label (ValidateTransition before candidate);;
  Ok candidate.

Definition disableNodeExpose (before : State) (exposeID : string) (gatewayGeneration : N) : result State :=
  change_exposes "build disabled node expose state" (disable_all exposeID) before gatewayGeneration.
Definition deleteNodeExpose (before : State) (exposeID : string) (gatewayGeneration : N) : result State :=
  change_exposes "build deleted node expose state" (delete_disabled exposeID) before gatewayGeneration.
End codec.

(** ** The saga *)

Class ExposeGatewayRemovalCoordinator (W : Type) := {
  eg_PlanRemoval : string → string → W → result ExposeGatewayRemovalSnapshot * W;
  eg_Unpublish : ExposeRemovePlan → W → result ExposeGatewayUnpublication * W;
  eg_FinalizeRemoval : ExposeGatewayUnpublication → W → result N * W;
  eg_DeferRemoval : ExposeRemovePlan → W → result ExposeRemovalDeferredRegistration * W
}.
Class ExposeTunnelRemoval (W : Type) := {
  et_Deactivate : State → Expose → W → result ExposeTunnelDeactivation * W;
  et_Wait : Z → W → result unit * W
}.

Inductive remove_event :=
  | RemovalLoaded (r : result State)
  | RemovalSaved (expected : N) (state : State) (r : result unit)
  | RemovalPlanned (nodeID reference : string) (r : result ExposeGatewayRemovalSnapshot)
  | ExposeUnpublished (plan : ExposeRemovePlan) (r : result ExposeGatewayUnpublication)
  | Drained (duration : Z) (r : result unit)
  | MappingRemoved (disabled : State) (r : result ExposeTunnelDeactivation)
  | PortReleased (unpublication : ExposeGatewayUnpublication) (r : result N)
  | RemovalDeferred (plan : ExposeRemovePlan) (r : result ExposeRemovalDeferredRegistration).

Section saga.
Context `{!JSONTokens} `{!JSONValue State} {W : Type} `{!ExposeStateStore W} `{!ExposeGatewayRemovalCoordinator W} `{!ExposeTunnelRemoval W}.

Definition remove_run (T : Type) : Type := proc W remove_event T.

Definition removal_load : remove_run (result (State * Node * GatewayTrust)) :=
  loaded ← call es_Load (λ r, [RemovalLoaded r]);
  mret (state ← wrap "load node expose state" loaded; joined_local (Message "expose removal requires one joined active node") state).
Definition removal_save (expected : N) (state : State) : remove_run (result unit) := call (es_Save expected state) (λ r, [RemovalSaved expected state r]).

Definition remove_Plan (reference : string) : remove_run (result ExposeRemovePlan) :=
  '(local, node, trust) ←? removal_load;
  match resolveExpose (items (st_Exposes local)) (node_ID node) reference with
  | Err e => mret (Err e)
  | Ok target =>
      planned ← call (eg_PlanRemoval (node_ID node) reference) (λ r, [RemovalPlanned (node_ID node) reference r]);
      match planned with
      | Err e => mret (Err (Join (Sentinel ErrExposeGatewayUnavailable) e))
      | Ok snapshot =>
          let plan := MkExposeRemovePlan target (host_ID (st_Host local)) (st_Generation local) (rs_Generation snapshot) (rs_GatewayID snapshot)
                        (rs_PublicIPv4 snapshot) in
          mret (reject (negb (is_ok (ValidateResourceID (rs_GatewayID snapshot))) || (rs_Generation snapshot <? gw_LastKnownGatewayGeneration trust)%N
                        || negb (String.eqb (rs_PublicIPv4 snapshot) (gw_PublicIPv4 trust)) || negb (String.eqb (rs_NodeID snapshot) (node_ID node))
                        || negb (bool_decide (rs_Expose snapshot = target))) expose_stale;;
                rm_Validate plan;;
                Ok plan)
      end
  end.

(** The disabled expose is saved unless it was disabled before. *)
Definition disable_local (plan : ExposeRemovePlan) (local : State) (unpublication : ExposeGatewayUnpublication) : remove_run (result State) :=
  if bool_decide (expose_State (rm_Expose plan) = ExposeDisabled) then mret (Ok local) else
  match disableNodeExpose local (expose_ID (rm_Expose plan)) (un_Generation unpublication) with
  | Err e => mret (Err (removal_incomplete "node_disable_plan" e))
  | Ok disabled =>
      saved ← removal_save (st_Generation local) disabled;
      mret (match saved with Err e => Err (removal_incomplete "node_disable_state" e) | Ok _ => Ok disabled end)
  end.

(** The drain and the end of the mapping. *)
Definition drop_mapping (plan : ExposeRemovePlan) (disabled : State) (unpublication : ExposeGatewayUnpublication) : remove_run (result unit) :=
  drained ← call (et_Wait (un_Drain unpublication)) (λ r, [Drained (un_Drain unpublication) r]);
  match drained with
  | Err e => mret (Err (removal_incomplete "bounded_drain" e))
  | Ok _ =>
      deactivated ← call (et_Deactivate disabled (rm_Expose plan)) (λ r, [MappingRemoved disabled r]);
      mret (match deactivated with
        | Err e => Err (removal_incomplete "node_tunnel_remove" e)
        | Ok deactivation =>
            reject (negb (String.eqb (td_ExposeID deactivation) (expose_ID (rm_Expose plan)))
                    || negb (cd_Generation (td_Candidate deactivation) =? st_Generation disabled)%N)
              (removal_incomplete "node_tunnel_receipt" (Message "invalid tunnel removal receipt"))
        end)
  end.

(** The port is released and the record deleted. *)
Definition release_and_delete (plan : ExposeRemovePlan) (disabled : State) (unpublication : ExposeGatewayUnpublication) : remove_run (result ExposeRemoveResult) :=
  finalized ← call (eg_FinalizeRemoval unpublication) (λ r, [PortReleased unpublication r]);
  match finalized with
  | Err e => mret (Err (removal_incomplete "gateway_port_release" e))
  | Ok gatewayGeneration =>
      if negb (bool_decide (NextGeneration (un_Generation unpublication) = Ok gatewayGeneration))
      then mret (Err (removal_incomplete "gateway_release_receipt" expose_stale)) else
      match deleteNodeExpose disabled (expose_ID (rm_Expose plan)) gatewayGeneration with
      | Err e => mret (Err (removal_incomplete "node_delete_plan" e))
      | Ok final =>
          saved ← removal_save (st_Generation disabled) final;
          mret (match saved with
            | Err e => Err (removal_incomplete "node_delete_state" e)
            | Ok _ => Ok (MkExposeRemoveResult (expose_ID (rm_Expose plan)) (st_Generation final) gatewayGeneration (un_Drain unpublication ÷ second))
            end)
      end
  end.

Definition remove_Apply (plan : ExposeRemovePlan) : remove_run (result ExposeRemoveResult) :=
  match rm_Validate plan with
  | Err e => mret (Err e)
  | Ok _ =>
      '(local, node, trust) ←? removal_load;
      if negb (bool_decide (resolveExpose (items (st_Exposes local)) (node_ID node) (expose_ID (rm_Expose plan)) = Ok (rm_Expose plan)))
         || negb (st_Generation local =? rm_ExpectedLocalStateGeneration plan)%N || negb (String.eqb (host_ID (st_Host local)) (rm_NodeHostID plan))
      then mret (Err expose_stale) else
      unpublished ← call (eg_Unpublish plan) (λ r, [ExposeUnpublished plan r]);
      match unpublished with
      | Err e => mret (Err (if exposeCommitPossible e then removal_incomplete "gateway_unpublish" e else Wrapped "unpublish gateway expose" e))
      | Ok unpublication =>
          match validateExposeUnpublication unpublication plan with
          | Err e => mret (Err (removal_incomplete "gateway_unpublication_receipt" e))
          | Ok _ =>
              disabled ←? disable_local plan local unpublication;
              _ ←? drop_mapping plan disabled unpublication;
              release_and_delete plan disabled unpublication
          end
      end
  end.

Definition remove_Defer (plan : ExposeRemovePlan) : remove_run (result ExposeRemoveDeferredResult) :=
  match rm_Validate plan with
  | Err e => mret (Err e)
  | Ok _ =>
      registered ← call (eg_DeferRemoval plan) (λ r, [RemovalDeferred plan r]);
      mret (match registered with
        | Err e => Err (Join (Sentinel ErrExposeGatewayUnavailable) e)
        | Ok registration =>
            reject (negb (bool_decide (NextGeneration (rm_ExpectedGatewayStateGeneration plan) = Ok (rd_Generation registration)))
                    || negb (String.eqb (rd_ExposeID registration) (expose_ID (rm_Expose plan)))
                    || negb (is_ok (ValidateResourceID (rd_OperationID registration)))) (Message "invalid deferred expose removal receipt");;
            Ok (MkExposeRemoveDeferredResult (rd_ExposeID registration) (rd_OperationID registration) (rd_Generation registration))
        end)
  end.
End saga.

(** The waiter of the program ([TimerExposeDrainWaiter]): a timer within the bound; [fired]
    tells whether the timer fired before the context ended. *)
Definition timer_Wait (fired : result unit) (duration : Z) : result unit :=
  reject ((duration <? 0) || (ExposeRemovalDrain <? duration))%Z (Message "expose drain duration is outside the bounded contract");;
  if (duration =? 0)%Z then Ok () else fired.
