(* ===== verification/ExposeGateway.v ===== *)
(** * Exposes on the gateway
    ([internal/operations/expose_gateway.go], [expose_remove_gateway.go], [expose_gateway_system.go])

    The authority behind both sagas: it plans an expose in the namespace of all nodes,
    reserves it, publishes it once the ingress serves it, takes a reservation back, and in
    the other direction unpublishes an expose and releases its port.  Then what it runs on,
    and the world of a node together with its gateway. *)

From S2P Require Import Prelude GoTime GoText GoNet GoConv Proc Types Checks Identity Expose Resources StateValidate Codec Transition Loopback ExposePlan Tunnel ExposeSaga.

Local Open Scope string_scope.
Local Open Scope list_scope.
Local Open Scope proc_scope.

(** [gatewayExposeCommitError]: the gateway may have committed. *)
Definition commit_possible (cause : error) : error := commit_error true cause.

(** [ia_private] stands for what only the publisher reads back. *)
Record GatewayExposeIngressActivation (A : Type) := MkGatewayExposeIngressActivation {
  ia_ExposeID : string; ia_StateGeneration : N; ia_ConfigHash : string; ia_private : A
}.
Arguments MkGatewayExposeIngressActivation {A}.
Arguments ia_ExposeID {A}.
Arguments ia_StateGeneration {A}.
Arguments ia_ConfigHash {A}.
Arguments ia_private {A}.

(** The certificate exporter, which may tell what is available, the ports in use, the
    publisher of the ingress, the writers of deferred work, and what the normalizer reads. *)
Class GatewayExposeHosts (W A : Type) := {
  gh_Ensure : State → string → W → result unit * W;
  gh_Available : option (State → string → W → result bool * W);
  gh_Unavailable : W → result (list Z) * W;
  gh_Activate : State → State → W → result (GatewayExposeIngressActivation A) * W;
  gh_Commit : GatewayExposeIngressActivation A → W → result unit * W;
  gh_Rollback : GatewayExposeIngressActivation A → call_bound → W → result unit * W;
  gh_Register : ExposeCreatePlan → W → result ExposeDeferredRegistration * W;
  gh_RegisterRemoval : ExposeRemovePlan → W → result ExposeRemovalDeferredRegistration * W;
  gh_Normalizer : W → ExposeNormalizerRuntime * W
}.

Inductive gateway_event (A : Type) :=
  | AuthorityLoaded (r : result State)
  | AuthoritySaved (expected : N) (state : State) (r : result unit)
  | CertificateEnsured (r : result unit)
  | CertificateInspected (r : result bool)
  | PortsInspected (r : result (list Z))
  | IngressActivated (before candidate : State) (r : result (GatewayExposeIngressActivation A))
  | IngressCommitted (activation : GatewayExposeIngressActivation A) (r : result unit)
  | IngressRolledBack (activation : GatewayExposeIngressActivation A) (bound : call_bound) (r : result unit)
  | WorkRegistered (r : result ExposeDeferredRegistration)
  | RemovalRegistered (r : result ExposeRemovalDeferredRegistration).
Arguments AuthorityLoaded {A}.
Arguments AuthoritySaved {A}.
Arguments CertificateEnsured {A}.
Arguments CertificateInspected {A}.
Arguments PortsInspected {A}.
Arguments IngressActivated {A}.
Arguments IngressCommitted {A}.
Arguments IngressRolledBack {A}.
Arguments WorkRegistered {A}.
Arguments RemovalRegistered {A}.

Definition validateGatewayExposeReservationShape (reservation : ExposeGatewayReservation) : result unit :=
  reject (negb (is_ok (ValidateResourceID (er_ExposeID reservation))) || (er_PreviousGeneration reservation =? 0)%N) (Message "reservation");;
  reject (negb (bool_decide (NextGeneration (er_PreviousGeneration reservation) = Ok (er_Generation reservation)))) (Message "reservation generation").

Definition authority_invalid : error := Message "gateway expose authoritative state is invalid".
Definition is_gateway (state : State) : bool := is_ok (Validate state) && bool_decide (host_Role (st_Host state) = RoleGateway).

(** The one public certificate. *)
Definition public_certificate (certificates : list Certificate) : result Certificate :=
  match filter (λ certificate, cert_Kind certificate = CertificatePublicIngress) certificates with
  | [] => Err (Sentinel ErrPublicCertificateNotFound)
  | [certificate] => Ok certificate
  | _ => Err (Message "multiple public ingress certificates")
  end.

Definition gateway_resources (state : State) (nodeID : string) : result (State * Node * Certificate) :=
  reject (negb (is_gateway state)) authority_invalid;;
  match list_find (λ node, node_ID node = nodeID) (items (st_Nodes state)) with
  | None => Err expose_stale
  | Some (_, node) =>
      reject (negb (bool_decide (node_Lifecycle node = LifecycleActive))) expose_stale;;
      certificate ← public_certificate (items (st_Certificates state));
      Ok (state, node, certificate)
  end.

(** [loadGatewayExposeNode] after the state was loaded. *)
Definition hosting_node (state : State) (nodeID : string) : result (State * Node) :=
  reject (negb (is_gateway state)) authority_invalid;;
  match list_find (λ node, node_ID node = nodeID ∧ node_Lifecycle node = LifecycleActive) (items (st_Nodes state)) with
  | Some (_, node) => Ok (state, node)
  | None => Err expose_stale
  end.

(** The state and the certificate are those the plan was made for. *)
Definition plan_current (plan : ExposeCreatePlan) (state : State) (certificate : Certificate) (exportPath : string) : bool :=
  (st_Generation state =? cp_ExpectedGatewayStateGeneration plan)%N && String.eqb (host_ID (st_Host state)) (cp_GatewayID plan)
  && String.eqb (host_PublicIPv4 (st_Host state)) (cp_PublicIPv4 plan) && String.eqb exportPath (cp_CertificateExportPath plan)
  && bool_decide (certificate = cp_Certificate plan).

(** A reservation is taken back while the expose is pending. *)
Definition take_back (exposeID : string) (exposes : list Expose) : result (list Expose * bool) :=
  range (λ _ expose '(filtered, found),
    if negb (String.eqb (expose_ID expose) exposeID) then Ok (filtered ++ [expose], found)
    else reject (negb (bool_decide (expose_State expose = ExposePending))) expose_stale;; Ok (filtered, true)) exposes ([], false).

Definition publish_pending (state : ExposeState) (expose : Expose) : result Expose :=
  reject (negb (bool_decide (expose_State expose = ExposePending))) expose_stale;; Ok (set_expose_State state expose).

(** The ports of listeners that are not those of exposes. *)
Definition foreign_ports (exposes : list Expose) (unavailable : list Z) : list Z :=
  filter (λ port, port ∉ expose_TunnelPort <$> exposes) unavailable.

Definition exposeOwner (exposes : list Expose) (exposeID : string) : string :=
  match list_find (λ expose, expose_ID expose = exposeID) exposes with Some (_, expose) => expose_NodeID expose | None => "" end.

(** The allocator restored from the exposes gives the port of the target back, and only it. *)
Definition release_port (exposes : list Expose) (target : Expose) : result unit :=
  '(allocator, remaps) ← wrap "restore gateway expose allocation" (DefaultLoopbackAllocatorFromExposes exposes []);
  reject (negb (List.length remaps =? 0)%nat) (Message "persisted ports require repair");;
  reject (negb (bool_decide (lb_Lookup allocator (expose_ID target) = Some (expose_TunnelPort target)))) expose_stale;;
  '(allocator, released) ← wrap "release gateway expose allocation" (lb_Release allocator (expose_ID target));
  reject (negb released) (Message "release gateway expose allocation");;
  range_check (λ _ expose,
    reject (negb (String.eqb (expose_ID expose) (expose_ID target))
            && negb (bool_decide (lb_Lookup allocator (expose_ID expose) = Some (expose_TunnelPort expose))))
      (Message "release affected another mapping")) exposes.

Section service.
Context `{!JSONTokens} `{!JSONValue State} {W A : Type} `{!ExposeStateStore W} `{!GatewayExposeHosts W A} (exportPath : string).

Definition gateway_run (T : Type) : Type := proc W (gateway_event A) T.

Definition authority_load : gateway_run (result State) := call es_Load (λ r, [AuthorityLoaded r]).
Definition authority_save (expected : N) (state : State) : gateway_run (result unit) := call (es_Save expected state) (λ r, [AuthoritySaved expected state r]).

Definition loadGatewayResources (nodeID : string) : gateway_run (result (State * Node * Certificate)) :=
  loaded ← authority_load;
  mret (state ← loaded; gateway_resources state nodeID).
Definition loadGatewayExposeNode (nodeID : string) : gateway_run (result (State * Node)) :=
  if negb (is_ok (ValidateResourceID nodeID)) then mret (Err expose_stale) else
  loaded ← authority_load;
  mret (state ← loaded; hosting_node state nodeID).

(** The plan in the namespace of the gateway and the ports that are free. *)
Definition plan_snapshot (state : State) (node : Node) (certificate : Certificate) (unavailable : list Z) (runtime : ExposeNormalizerRuntime)
    (request : ExposeCreateRequest) : result ExposeGatewaySnapshot :=
  let exposes := items (st_Exposes state) in
  normalized ← expose_Normalize runtime (MkExposeNamespace (node_ID node) (st_Generation state) exposes) request;
  '(allocator, remaps) ← DefaultLoopbackAllocatorFromExposes exposes (foreign_ports exposes unavailable);
  reject (negb (List.length remaps =? 0)%nat) expose_stale;;
  '(_, port) ← lb_Allocate allocator (ep_ExposeID normalized);
  let snapshot := MkExposeGatewaySnapshot (host_ID (st_Host state)) (st_Generation state) (host_PublicIPv4 (st_Host state)) node normalized port
                    certificate exportPath in
  validateExposeGatewaySnapshot snapshot node;;
  Ok snapshot.

Definition gateway_Plan (nodeID : string) (request : ExposeCreateRequest) : gateway_run (result ExposeGatewaySnapshot) :=
  if negb (is_ok (ValidateResourceID nodeID)) then mret (Err (Message "gateway expose node identity is invalid")) else
  '(state, node, certificate) ←? loadGatewayResources nodeID;
  ports ← call gh_Unavailable (λ r, [PortsInspected r]);
  match ports with
  | Err e => mret (Err (Wrapped "inspect gateway tunnel port namespace" e))
  | Ok unavailable =>
      runtime ← call gh_Normalizer (λ _, []);
      mret (plan_snapshot state node certificate unavailable runtime request)
  end.

(** Whether the certificate can be fetched; [show] refreshes it. *)
Definition certificate_available (refreshCertificate : bool) (state : State) : gateway_run (result bool) :=
  if refreshCertificate then
    ensured ← call (gh_Ensure state exportPath) (λ r, [CertificateEnsured r]);
    mret (wrap "refresh public ingress certificate export" ensured;; Ok true)
  else
    match gh_Available with
    | None => mret (Ok false)
    | Some available =>
        inspected ← call (available state exportPath) (λ r, [CertificateInspected r]);
        mret (wrap "inspect public ingress certificate export" inspected)
    end.

Definition gateway_Inspect (cancelled : option error) (nodeID : string) (refreshCertificate : bool) : gateway_run (result GatewayExposeCatalogSnapshot) :=
  match cancelled with
  | Some e => mret (Err e)
  | None =>
      '(state, node, certificate) ←? loadGatewayResources nodeID;
      available ←? certificate_available refreshCertificate state;
      mret (Ok (MkGatewayExposeCatalogSnapshot (host_ID (st_Host state)) (st_Generation state) (host_PublicIPv4 (st_Host state)) (node_ID node)
        (filter (λ expose, expose_NodeID expose = node_ID node) (items (st_Exposes state))) certificate exportPath available))
  end.

Definition gateway_Reserve (plan : ExposeCreatePlan) : gateway_run (result ExposeGatewayReservation) :=
  match cp_Validate plan with
  | Err e => mret (Err e)
  | Ok _ =>
      '(state, _, certificate) ←? loadGatewayResources (expose_NodeID (cp_Expose plan));
      if negb (plan_current plan state certificate exportPath) then mret (Err expose_stale) else
      ensured ← call (gh_Ensure state exportPath) (λ r, [CertificateEnsured r]);
      match ensured with
      | Err e => mret (Err (Wrapped "export public ingress certificate" e))
      | Ok _ =>
          match (copy ← next_copy state;
                 let candidate := set_st_Exposes (append (st_Exposes copy) [cp_Expose plan]) copy in
                 wrap "reserve gateway expose" (ValidateTransition state candidate);; Ok candidate) with
          | Err e => mret (Err e)
          | Ok candidate =>
              saved ← authority_save (st_Generation state) candidate;
              mret (saved;; Ok (MkExposeGatewayReservation (expose_ID (cp_Expose plan)) (st_Generation state) (st_Generation candidate)))
          end
      end
  end.

(** The ingress serves the candidate before it is saved; a failed save puts the ingress back. *)
Definition swap_ingress (exposeID : string) (state candidate : State) : gateway_run (result unit) :=
  activated ← call (gh_Activate state candidate) (λ r, [IngressActivated state candidate r]);
  match activated with
  | Err e => mret (Err e)
  | Ok activation =>
      if negb (String.eqb (ia_ExposeID activation) exposeID) || negb (ia_StateGeneration activation =? st_Generation candidate)%N
      then mret (Err (commit_possible (Message "ingress receipt is invalid"))) else
      saved ← authority_save (st_Generation state) candidate;
      match saved with
      | Err e =>
          let bound := Detached exposeCompensationTimeout in
          undone ← call (gh_Rollback activation bound) (λ r, [IngressRolledBack activation bound r]);
          mret (match undone with Err e' => Err (commit_possible (Join e e')) | Ok _ => Err e end)
      | Ok _ =>
          committed ← call (gh_Commit activation) (λ r, [IngressCommitted activation r]);
          mret (match committed with Err e => Err (commit_possible e) | Ok _ => Ok () end)
      end
  end.

(** The reserved state and its change, for [Publish] and [Abort]. *)
Definition reserved_state (loaded : result State) (reservation : ExposeGatewayReservation) : result State :=
  state ← loaded;
  reject (negb (is_gateway state) || negb (st_Generation state =? er_Generation reservation)%N) expose_stale;;
  Ok state.

Definition gateway_Publish (reservation : ExposeGatewayReservation) (effectiveState : ExposeState) : gateway_run (result ExposeGatewayPublication) :=
  if negb (is_published effectiveState) then mret (Err (Message "gateway expose publication state is invalid")) else
  match validateGatewayExposeReservationShape reservation with
  | Err e => mret (Err e)
  | Ok _ =>
      loaded ← authority_load;
      match (state ← reserved_state loaded reservation;
             copy ← next_copy state;
             exposes ← change_first (er_ExposeID reservation) (publish_pending effectiveState) (items (st_Exposes copy));
             let candidate := set_st_Exposes (Some exposes) copy in
             ValidateTransition state candidate;; Ok (state, candidate)) with
      | Err e => mret (Err e)
      | Ok (state, candidate) =>
          swapped ← swap_ingress (er_ExposeID reservation) state candidate;
          mret (swapped;; Ok (MkExposeGatewayPublication (er_ExposeID reservation) (st_Generation candidate)))
      end
  end.

Definition gateway_Abort (reservation : ExposeGatewayReservation) : gateway_run (result N) :=
  match validateGatewayExposeReservationShape reservation with
  | Err e => mret (Err e)
  | Ok _ =>
      loaded ← authority_load;
      match (state ← reserved_state loaded reservation;
             copy ← next_copy state;
             '(exposes, found) ← take_back (er_ExposeID reservation) (items (st_Exposes copy));
             reject (negb found) expose_stale;;
             let candidate := set_st_Exposes (Some exposes) copy in
             ValidateTransition state candidate;; Ok (state, candidate)) with
      | Err e => mret (Err e)
      | Ok (state, candidate) =>
          saved ← authority_save (st_Generation state) candidate;
          mret (saved;; Ok (st_Generation candidate))
      end
  end.

Definition gateway_Defer (plan : ExposeCreatePlan) : gateway_run (result ExposeDeferredRegistration) :=
  match cp_Validate plan with
  | Err e => mret (Err e)
  | Ok _ =>
      '(state, _, certificate) ←? loadGatewayResources (expose_NodeID (cp_Expose plan));
      if negb (plan_current plan state certificate exportPath) then mret (Err expose_stale) else
      registered ← call (gh_Register plan) (λ r, [WorkRegistered r]);
      mret (registration ← registered;
            reject (negb (bool_decide (NextGeneration (st_Generation state) = Ok (dr_Generation registration)))
                    || negb (String.eqb (dr_ExposeID registration) (expose_ID (cp_Expose plan)))
                    || negb (is_ok (ValidateResourceID (dr_OperationID registration)))) (commit_possible (Message "deferred registration receipt is invalid"));;
            Ok registration)
  end.

(** ** Removal *)

Definition gateway_PlanRemoval (nodeID reference : string) : gateway_run (result ExposeGatewayRemovalSnapshot) :=
  '(state, _) ←? loadGatewayExposeNode nodeID;
  mret (expose ← resolveExpose (items (st_Exposes state)) nodeID reference;
        Ok (MkExposeGatewayRemovalSnapshot (host_ID (st_Host state)) (st_Generation state) (host_PublicIPv4 (st_Host state)) nodeID expose)).

(** The state the removal was planned for, with its target. *)
Definition removal_current (plan : ExposeRemovePlan) (state : State) : bool :=
  String.eqb (host_ID (st_Host state)) (rm_GatewayID plan) && String.eqb (host_PublicIPv4 (st_Host state)) (rm_PublicIPv4 plan)
  && (st_Generation state =? rm_ExpectedGatewayStateGeneration plan)%N
  && bool_decide (resolveExpose (items (st_Exposes state)) (expose_NodeID (rm_Expose plan)) (expose_ID (rm_Expose plan)) = Ok (rm_Expose plan)).

Definition gateway_Unpublish (plan : ExposeRemovePlan) : gateway_run (result ExposeGatewayUnpublication) :=
  match rm_Validate plan with
  | Err e => mret (Err e)
  | Ok _ =>
      '(state, _) ←? loadGatewayExposeNode (expose_NodeID (rm_Expose plan));
      if negb (removal_current plan state) then mret (Err expose_stale) else
      let exposeID := expose_ID (rm_Expose plan) in
      if bool_decide (expose_State (rm_Expose plan) = ExposeDisabled)
      then mret (Ok (MkExposeGatewayUnpublication exposeID (st_Generation state) (st_Generation state) 0 true)) else
      match (copy ← next_copy state;
             '(exposes, _) ← disable_all exposeID (items (st_Exposes copy));
             let candidate := set_st_Exposes (Some exposes) copy in
             wrap "build gateway expose unpublication" (ValidateTransition state candidate);; Ok candidate) with
      | Err e => mret (Err e)
      | Ok candidate =>
          swapped ← swap_ingress exposeID state candidate;
          mret (swapped;; Ok (MkExposeGatewayUnpublication exposeID (st_Generation state) (st_Generation candidate) ExposeRemovalDrain false))
      end
  end.

(** The state in which the port of the target can be released, and the one without it. *)
Definition released_state (loaded : result State) (unpublication : ExposeGatewayUnpublication) : result (State * State) :=
  let exposeID := un_ExposeID unpublication in
  state ← loaded;
  reject (negb (is_gateway state) || negb (st_Generation state =? un_Generation unpublication)%N) expose_stale;;
  let exposes := items (st_Exposes state) in
  match resolveExpose exposes (exposeOwner exposes exposeID) exposeID with
  | Err _ => Err expose_stale
  | Ok target =>
      reject (negb (bool_decide (expose_State target = ExposeDisabled))) expose_stale;;
      release_port exposes target;;
      copy ← next_copy state;
      let candidate := set_st_Exposes (Some (without_expose (expose_ID target) (items (st_Exposes copy)))) copy in
      wrap "build gateway expose release" (ValidateTransition state candidate);;
      Ok (state, candidate)
  end.

Definition gateway_FinalizeRemoval (unpublication : ExposeGatewayUnpublication) : gateway_run (result N) :=
  if negb (is_ok (ValidateResourceID (un_ExposeID unpublication))) || (un_Generation unpublication =? 0)%N || (un_PreviousGeneration unpublication =? 0)%N
     || (un_Drain unpublication <? 0)%Z || (ExposeRemovalDrain <? un_Drain unpublication)%Z
  then mret (Err (Message "gateway expose unpublication is invalid")) else
  loaded ← authority_load;
  match released_state loaded unpublication with
  | Err e => mret (Err e)
  | Ok (state, candidate) =>
      saved ← authority_save (st_Generation state) candidate;
      mret (saved;; Ok (st_Generation candidate))
  end.

Definition gateway_DeferRemoval (plan : ExposeRemovePlan) : gateway_run (result ExposeRemovalDeferredRegistration) :=
  match rm_Validate plan with
  | Err e => mret (Err e)
  | Ok _ =>
      '(state, _) ←? loadGatewayExposeNode (expose_NodeID (rm_Expose plan));
      if negb (removal_current plan state) then mret (Err expose_stale) else
      registered ← call (gh_RegisterRemoval plan) (λ r, [RemovalRegistered r]);
      mret (registration ← registered;
            reject (negb (bool_decide (NextGeneration (st_Generation state) = Ok (rd_Generation registration)))
                    || negb (String.eqb (rd_ExposeID registration) (expose_ID (rm_Expose plan)))
                    || negb (is_ok (ValidateResourceID (rd_OperationID registration)))) (commit_possible (Message "deferred expose removal receipt is invalid"));;
            Ok registration)
  end.
End service.

(** * What the gateway's expose service runs on ([internal/operations/expose_gateway_system.go])

    The expose an ingress transaction is about, the ports of the listeners the kernel
    reports, and the writer of deferred creations. *)

(** ** The changed expose *)

Definition multiple_targets : error := Message "gateway ingress transaction changes multiple exposes".

(** What is left of the exposes before, and the one that changed. *)
Definition changed_step (expose : Expose) (acc : gmap string Expose * string) : result (gmap string Expose * string) :=
  let '(prior, changed) := acc in
  if bool_decide (prior !! expose_ID expose = Some expose) then Ok (delete (expose_ID expose) prior, changed)
  else reject (negb (String.eqb changed "")) multiple_targets;; Ok (delete (expose_ID expose) prior, expose_ID expose).

(** The map of what is left has no order, but with two entries any order is an error. *)
Definition changedGatewayExposeID (before candidate : list Expose) : result string :=
  let prior := foldl (λ m expose, <[expose_ID expose := expose]> m) ∅ before in
  '(left_over, changed) ← range (λ _, changed_step) candidate (prior, "");
  changed ← range (λ _ '(id, _) changed, reject (negb (String.eqb changed "")) multiple_targets;; Ok id) (map_to_list left_over) changed;
  reject (negb (is_ok (ValidateResourceID changed))) (Message "gateway ingress transaction has no unique expose target");;
  Ok changed.

(** ** Ports in use *)

(** [strings.Fields]; every step consumes a byte. *)
Fixpoint fields_loop (fuel : nat) (word s : string) : list string :=
  let emitted := if String.eqb word "" then [] else [word] in
  match fuel with
  | O => emitted
  | S fuel =>
      match strip_space s with
      | Some s' => emitted ++ fields_loop fuel "" s'
      | None => match s with EmptyString => emitted | String c s' => fields_loop fuel (word +:+ String c "") s' end
      end
  end.
Definition Fields (s : string) : list string := fields_loop (String.length s) "" s.

Definition line_feed : ascii := Ascii.ascii_of_N 10.

(** The local port of one listener. *)
Definition listener_port (line : string) : result Z :=
  match Fields line !! 3%nat, (5 <=? List.length (Fields line))%nat with
  | Some endpoint, true =>
      match CutLast endpoint ":"%char with
      | Some (_, port) =>
          reject (String.eqb port "") (Message "inspect gateway TCP listeners: malformed local endpoint");;
          match Atoi port with
          | Some port => reject ((port <? 1) || (65535 <? port))%Z (Message "inspect gateway TCP listeners: malformed local port");; Ok port
          | None => Err (Message "inspect gateway TCP listeners: malformed local port")
          end
      | None => Err (Message "inspect gateway TCP listeners: malformed local endpoint")
      end
  | _, _ => Err (Message "inspect gateway TCP listeners: malformed ss output")
  end.

Definition seen_ports (stdout : string) : result (gset Z) :=
  range (λ _ line seen,
    if String.eqb (TrimSpace line) "" then Ok seen else
    port ← listener_port line;
    Ok (if ((DefaultLoopbackPortFirst <=? port) && (port <=? DefaultLoopbackPortLast))%Z then {[port]} ∪ seen else seen)) (Split stdout line_feed) ∅.

(** [Unavailable] on the answer of [ss]: its output when it succeeded without a warning. *)
Definition managed_ports : list Z := seqZ DefaultLoopbackPortFirst (DefaultLoopbackPortLast - DefaultLoopbackPortFirst + 1).
Definition unavailable_ports (answer : result (Z * string * string)) : result (list Z) :=
  match answer with
  | Err _ => Err (Message "inspect gateway TCP listeners")
  | Ok (exitCode, stdout, stderr) =>
      reject (negb (exitCode =? 0)%Z || negb (String.eqb (TrimSpace stderr) "")) (Message "inspect gateway TCP listeners");;
      seen ← seen_ports stdout;
      Ok (filter (λ port, port ∈ seen) managed_ports)
  end.

(** ** Deferred creations *)

Definition occupiedGatewayExposeIDs (state : State) (extra : string) : gset string :=
  {[host_ID (st_Host state); extra]} ∪ list_to_set (node_ID <$> items (st_Nodes state)) ∪ list_to_set (expose_ID <$> items (st_Exposes state))
  ∪ list_to_set (op_ID <$> items (st_Operations state))
  ∪ list_to_set (op_RequestID <$> filter (λ operation, op_RequestID operation ≠ "") (items (st_Operations state))).

Definition deferred_operation (exposeID operationID : string) (current next : N) (at_ : time) : Operation :=
  MkOperation ResourceSchemaVersion operationID OperationExposeCreate OperationPending "expose" exposeID "" current next
    (Some [MkOperationStep "tunnel" OperationPending at_; MkOperationStep "ingress" OperationPending at_]) "" at_ at_.

Section deferred.
Context `{!JSONTokens} `{!JSONValue State}.

(** The state with the pending expose and the operation that will apply it. *)
Definition deferred_state (plan : ExposeCreatePlan) (draws : generator) (at_ : time) (state : State) : result (State * ExposeDeferredRegistration) :=
  reject (negb (st_Generation state =? cp_ExpectedGatewayStateGeneration plan)%N || negb (String.eqb (host_ID (st_Host state)) (cp_GatewayID plan))) expose_stale;;
  let exposeID := expose_ID (cp_Expose plan) in
  '(operationID, _) ← (AllocateUUID (occupiedGatewayExposeIDs state exposeID) draws 0).1;
  next ← NextGeneration (st_Generation state);
  let operation := deferred_operation exposeID operationID (st_Generation state) next at_ in
  op_Validate operation;;
  copy ← cloneExposeState state;
  let candidate := set_st_Operations (append (st_Operations copy) [operation])
                     (set_st_Exposes (append (st_Exposes copy) [cp_Expose plan]) (set_st_Generation next copy)) in
  ValidateTransition state candidate;;
  Ok (candidate, MkExposeDeferredRegistration exposeID operationID next).

Context {W A : Type} `{!ExposeStateStore W} (draw : W → (generator * time) * W).

(** [GatewayExposeStateDeferredWriter.Register]; [draw] yields what its identities and its
    clock return. *)
Definition deferred_Register (cancelled : option error) (plan : ExposeCreatePlan) : gateway_run (A := A) (result ExposeDeferredRegistration) :=
  match cancelled with
  | Some e => mret (Err e)
  | None =>
      match cp_Validate plan with
      | Err e => mret (Err e)
      | Ok _ =>
          loaded ← authority_load;
          drawn ← call draw (λ _, []);
          match (state ← loaded; built ← deferred_state plan drawn.1 (to_utc drawn.2) state; Ok (st_Generation state, built)) with
          | Err e => mret (Err e)
          | Ok (expected, (candidate, registration)) =>
              saved ← authority_save expected candidate;
              mret (saved;; Ok registration)
          end
      end
  end.
End deferred.

(** * A node with its gateway

    The world of both: a call of the node changes its half, and a call of the gateway runs
    the gateway's own service on the other half. *)

(** [Abort] returns 0 beside an error, on the gateway and in the client. *)
Definition abort_answer (r : result N) : N * result unit := match r with Ok generation => (generation, Ok ()) | Err e => (0%N, Err e) end.

Section pair.
Context `{!JSONTokens, !JSONValue State} {N G A B : Type} `{!ExposeStateStore N, !ExposeNodeTunnel N A, !ExposeTunnelRemoval N}.
Context `{!ExposeStateStore G, !GatewayExposeHosts G B} (exportPath : string).

(** A call of the node, and one that the gateway's service answers. *)
Definition on_node {T} (f : N → T * N) (w : N * G) : T * (N * G) := let '(r, n) := f w.1 in (r, (n, w.2)).
Definition on_gateway {T} (m : gateway_run (W := G) (A := B) T) (w : N * G) : T * (N * G) := let '(r, _, g) := m w.2 in (r, (w.1, g)).

Definition pair_store : ExposeStateStore (N * G) := {| es_Load := on_node es_Load; es_Save expected state := on_node (es_Save expected state) |}.
Definition pair_tunnel : ExposeNodeTunnel (N * G) A := {|
  et_Activate before pending expose := on_node (et_Activate before pending expose);
  et_Observe activation expose := on_node (et_Observe activation expose);
  et_Rollback activation bound := on_node (et_Rollback activation bound)
|}.
Definition pair_removal : ExposeTunnelRemoval (N * G) := {|
  et_Deactivate disabled expose := on_node (et_Deactivate disabled expose); et_Wait duration := on_node (et_Wait duration)
|}.
Definition pair_coordinator : ExposeGatewayCoordinator (N * G) := {|
  eg_Plan nodeID request := on_gateway (gateway_Plan exportPath nodeID request);
  eg_Reserve plan := on_gateway (gateway_Reserve exportPath plan);
  eg_Publish reservation state := on_gateway (gateway_Publish reservation state);
  eg_Abort reservation _ w := let '(r, w') := on_gateway (gateway_Abort reservation) w in (abort_answer r, w');
  eg_Defer plan := on_gateway (gateway_Defer exportPath plan)
|}.
Definition pair_removal_coordinator : ExposeGatewayRemovalCoordinator (N * G) := {|
  eg_PlanRemoval nodeID reference := on_gateway (gateway_PlanRemoval nodeID reference);
  eg_Unpublish plan := on_gateway (gateway_Unpublish plan);
  eg_FinalizeRemoval unpublication := on_gateway (gateway_FinalizeRemoval unpublication);
  eg_DeferRemoval plan := on_gateway (gateway_DeferRemoval plan)
|}.
End pair.
