(* ===== verification/ExposeRpc.v ===== *)
(** * The expose requests on the wire ([internal/operations/expose_rpc.go])

    The node's client of the gateway and the gateway's handler: each phase of a creation is
    one request, its answer is checked against the generation the gateway reports, and an
    error tells whether the gateway may have committed. *)

From S2P Require Import Prelude GoTime GoText GoNet GoConv Proc Types Checks Identity Expose Resources StateValidate Codec Transition Rpc RpcServer SwitchRemote SwitchMutation Loopback ExposePlan Tunnel ExposeSaga ExposeGateway.

Local Open Scope string_scope.
Local Open Scope list_scope.
Local Open Scope proc_scope.

Definition ExposePlanRPCOperation : string := "expose.plan".
Definition ExposeReserveRPCOperation : string := "expose.reserve".
Definition ExposePublishRPCOperation : string := "expose.publish".
Definition ExposeAbortRPCOperation : string := "expose.abort".
Definition ExposeDeferRPCOperation : string := "expose.defer".

(** ** Wire forms *)

Record exposeRequestWire := MkExposeRequestWire {
  rw_Upstream : string; rw_Name : string; rw_Path : string; rw_Prefix : bool; rw_AllowNonLoopback : bool; rw_BodyLimitSet : bool;
  rw_BodyBytes : Z; rw_TimeoutSet : bool; rw_TimeoutSeconds : Z
}.
Record normalizedExposePlanWire := MkNormalizedExposePlanWire {
  nw_ExposeID : string; nw_NodeID : string; nw_Name : string; nw_Upstream : string; nw_RouteMode : RouteMode; nw_Path : string; nw_NonLoopback : bool;
  nw_Warnings : list ExposePlanWarning; nw_BodyBytes : Z; nw_UpstreamTimeoutSeconds : Z; nw_ConcurrentRequests : Z; nw_CreatedAt : time;
  nw_ExpectedStateGeneration : N
}.
Record exposePlanWire := MkExposePlanWire {
  wp_Normalized : normalizedExposePlanWire; wp_Expose : Expose; wp_NodeHostID : string; wp_ExpectedLocalStateGeneration : N;
  wp_ExpectedGatewayStateGeneration : N; wp_GatewayID : string; wp_PublicIPv4 : string; wp_Certificate : Certificate; wp_CertificateExportPath : string
}.
Record exposeSnapshotWire := MkExposeSnapshotWire {
  sw_GatewayID : string; sw_Generation : N; sw_PublicIPv4 : string; sw_Node : Node; sw_Normalized : normalizedExposePlanWire; sw_TunnelPort : Z;
  sw_Certificate : Certificate; sw_CertificateExportPath : string
}.
Record exposeRPCPlanRequest := MkExposeRPCPlanRequest { pq_Request : exposeRequestWire }.
Record exposeRPCPlanResponse := MkExposeRPCPlanResponse { pa_Snapshot : exposeSnapshotWire }.
Record exposeRPCReserveRequest := MkExposeRPCReserveRequest { rvq_Plan : exposePlanWire }.
Record exposeRPCReserveResponse := MkExposeRPCReserveResponse { rva_Reservation : ExposeGatewayReservation }.
Record exposeRPCPublishRequest := MkExposeRPCPublishRequest { puq_NodeID : string; puq_Reservation : ExposeGatewayReservation; puq_EffectiveState : ExposeState }.
Record exposeRPCPublishResponse := MkExposeRPCPublishResponse { pua_Publication : ExposeGatewayPublication }.
Record exposeRPCAbortRequest := MkExposeRPCAbortRequest { abq_NodeID : string; abq_Reservation : ExposeGatewayReservation }.
Record exposeRPCAbortResponse := MkExposeRPCAbortResponse { aba_Generation : N }.
Record exposeRPCDeferRequest := MkExposeRPCDeferRequest { deq_Plan : exposePlanWire }.
Record exposeRPCDeferResponse := MkExposeRPCDeferResponse { dea_Registration : ExposeDeferredRegistration }.

Definition exposeRequestToWire (request : ExposeCreateRequest) : exposeRequestWire :=
  let limits := cr_LimitOverrides request in
  MkExposeRequestWire (cr_Upstream request) (cr_Name request) (cr_Path request) (cr_Prefix request) (cr_AllowNonLoopback request)
    (lo_BodyLimitSet limits) (lo_BodyBytes limits) (lo_TimeoutSet limits) (lo_TimeoutSeconds limits).
Definition request_domain (wire : exposeRequestWire) : ExposeCreateRequest :=
  MkExposeCreateRequest (rw_Upstream wire) (rw_Name wire) (rw_Path wire) (rw_Prefix wire) (rw_AllowNonLoopback wire)
    (MkExposeLimitOverrides (rw_BodyLimitSet wire) (rw_BodyBytes wire) (rw_TimeoutSet wire) (rw_TimeoutSeconds wire)).

Definition normalizedExposePlanToWire (plan : ExposePlan) : normalizedExposePlanWire :=
  MkNormalizedExposePlanWire (ep_ExposeID plan) (ep_NodeID plan) (ep_Name plan) (ep_Upstream plan) (ep_RouteMode plan) (ep_Path plan) (ep_NonLoopback plan)
    (ep_Warnings plan) (el_BodyBytes (ep_Limits plan)) (el_UpstreamTimeoutSeconds (ep_Limits plan)) (el_ConcurrentRequests (ep_Limits plan))
    (ep_CreatedAt plan) (ep_ExpectedStateGeneration plan).
Definition normalized_domain (wire : normalizedExposePlanWire) : ExposePlan :=
  MkExposePlan (nw_ExposeID wire) (nw_NodeID wire) (nw_Name wire) (nw_Upstream wire) (nw_RouteMode wire) (nw_Path wire) (nw_NonLoopback wire)
    (nw_Warnings wire) (MkExposeLimits (nw_BodyBytes wire) (nw_UpstreamTimeoutSeconds wire) (nw_ConcurrentRequests wire)) (nw_CreatedAt wire)
    (nw_ExpectedStateGeneration wire).

Definition exposePlanToWire (plan : ExposeCreatePlan) : exposePlanWire :=
  MkExposePlanWire (normalizedExposePlanToWire (cp_Normalized plan)) (cp_Expose plan) (cp_NodeHostID plan) (cp_ExpectedLocalStateGeneration plan)
    (cp_ExpectedGatewayStateGeneration plan) (cp_GatewayID plan) (cp_PublicIPv4 plan) (cp_Certificate plan) (cp_CertificateExportPath plan).
Definition plan_fields (wire : exposePlanWire) : ExposeCreatePlan :=
  MkExposeCreatePlan (normalized_domain (wp_Normalized wire)) (wp_Expose wire) (wp_NodeHostID wire) (wp_ExpectedLocalStateGeneration wire)
    (wp_ExpectedGatewayStateGeneration wire) (wp_GatewayID wire) (wp_PublicIPv4 wire) (wp_Certificate wire) (wp_CertificateExportPath wire).
Definition plan_domain (wire : exposePlanWire) : result ExposeCreatePlan := cp_Validate (plan_fields wire);; Ok (plan_fields wire).

Definition exposeSnapshotToWire (snapshot : ExposeGatewaySnapshot) : exposeSnapshotWire :=
  MkExposeSnapshotWire (gs_GatewayID snapshot) (gs_Generation snapshot) (gs_PublicIPv4 snapshot) (gs_Node snapshot)
    (normalizedExposePlanToWire (gs_Normalized snapshot)) (gs_TunnelPort snapshot) (gs_Certificate snapshot) (gs_CertificateExportPath snapshot).
Definition snapshot_domain (wire : exposeSnapshotWire) : ExposeGatewaySnapshot :=
  MkExposeGatewaySnapshot (sw_GatewayID wire) (sw_Generation wire) (sw_PublicIPv4 wire) (sw_Node wire) (normalized_domain (sw_Normalized wire))
    (sw_TunnelPort wire) (sw_Certificate wire) (sw_CertificateExportPath wire).

Section wire.
Context `{!JSONTokens, !JSONValue (option (gmap string string)), !JSONValue State, !JSONValue exposeRPCPlanRequest, !JSONValue exposeRPCPlanResponse,
          !JSONValue exposeRPCReserveRequest, !JSONValue exposeRPCReserveResponse, !JSONValue exposeRPCPublishRequest, !JSONValue exposeRPCPublishResponse,
          !JSONValue exposeRPCAbortRequest, !JSONValue exposeRPCAbortResponse, !JSONValue exposeRPCDeferRequest, !JSONValue exposeRPCDeferResponse}.

(** ** The client *)

Record RemoteExposeGatewayCoordinator := MkRemoteExposeGatewayCoordinator {
  re_protocol : RPCProtocolVersion; re_nodeID : string; re_credentialGeneration : N; re_lastKnownGeneration : N
}.

Definition NewRemoteExposeGatewayCoordinator (protocol : RPCProtocolVersion) (nodeID : string) (credentialGeneration lastKnownGeneration : N)
    : result RemoteExposeGatewayCoordinator :=
  reject ((pv_Major protocol <? 1)%Z || (pv_Minor protocol <? 0)%Z || negb (is_ok (ValidateResourceID nodeID)) || (credentialGeneration =? 0)%N
          || (lastKnownGeneration =? 0)%N) (Message "remote expose gateway identity is invalid");;
  Ok (MkRemoteExposeGatewayCoordinator protocol nodeID credentialGeneration lastKnownGeneration).

(** [remoteExposeRPCError]: what it says of a commit hides what its cause says. *)
Definition remote_error (possible : bool) (cause : error) : error := commit_error possible cause.

Definition rejection_cause (category : string) : error :=
  if String.eqb category "conflict" then expose_stale
  else if String.eqb category "unavailable" then Sentinel ErrExposeGatewayUnavailable
  else if String.eqb category "validation" then saga_invalid
  else Message "gateway rejected expose request".

Section client.
Context {W : Type} `{!RemoteCaller W} (new_uuid : W → result string * W) (client : RemoteExposeGatewayCoordinator).

Definition expose_request (requestID operation : string) (expectedGeneration : N) (at_ : time) (nonce : list N) (payload : string) : RPCRequest :=
  MkRPCRequest (pv_Major (re_protocol client)) (pv_Minor (re_protocol client)) requestID expectedGeneration (re_nodeID client)
    (re_credentialGeneration client) at_ (base64url_encode nonce) operation payload.

(** What the answer means: the generation of the gateway and the payload. *)
Definition expose_answer {R} `{!JSONValue R} (commitPossible : bool) (answer : result RPCCallResult) : result (N * R) :=
  match answer with
  | Err e => Err (remote_error false e)
  | Ok answer =>
      let response := cr_Response answer in
      reject (negb (cr_StatusCode answer =? StatusOK)%Z || negb (String.eqb (rs_Category response) "success"))
        (remote_error commitPossible (rejection_cause (rs_Category response)));;
      reject (rs_AuthoritativeGeneration response =? 0)%N (remote_error commitPossible (Message "gateway response has no authoritative generation"));;
      match DecodeRPCPayload (T := R) (rs_Data response) with
      | Err e => Err (remote_error commitPossible e)
      | Ok payload => Ok (rs_AuthoritativeGeneration response, payload)
      end
  end.

Definition expose_call {Q R} `{!JSONValue Q, !JSONValue R} (operation : string) (expectedGeneration : N) (payload : Q) (commitPossible : bool)
    : proc W remote_event (result (N * R)) :=
  identity ← call new_uuid (λ _, []);
  match identity with
  | Err _ => mret (Err (Message "allocate expose RPC request identity"))
  | Ok requestID =>
      if negb (is_ok (ValidateResourceID requestID)) then mret (Err (Message "allocate expose RPC request identity")) else
      drawn ← call (read_entropy RPCNonceBytes) (λ _, []);
      match (nonce ← wrap "generate expose RPC nonce" drawn; encoded ← wrap "encode expose RPC payload" (marshal payload); Ok (nonce, encoded)) with
      | Err e => mret (Err e)
      | Ok (nonce, encoded) =>
          at_ ← call remote_now (λ _, []);
          let request := expose_request requestID operation expectedGeneration (to_utc at_) nonce encoded in
          answer ← call (CallManagement request) (λ r, [ManagementCalled request r]);
          mret (expose_answer commitPossible answer)
      end
  end.

Definition rpc_differs (possible : bool) (what : string) : error := remote_error possible (Message what).

Definition remote_Plan (nodeID : string) (request : ExposeCreateRequest) : proc W remote_event (result ExposeGatewaySnapshot) :=
  if negb (String.eqb nodeID (re_nodeID client)) then mret (Err (Message "remote expose node identity differs")) else
  answer ← expose_call (R := exposeRPCPlanResponse) ExposePlanRPCOperation (re_lastKnownGeneration client)
             (MkExposeRPCPlanRequest (exposeRequestToWire request)) false;
  mret ('(generation, response) ← answer;
        let snapshot := snapshot_domain (pa_Snapshot response) in
        reject (negb (gs_Generation snapshot =? generation)%N) (rpc_differs false "gateway plan generation differs");;
        Ok snapshot).

Definition bad_plan (plan : ExposeCreatePlan) : bool :=
  negb (is_ok (cp_Validate plan)) || negb (String.eqb (expose_NodeID (cp_Expose plan)) (re_nodeID client)).

Definition remote_Reserve (plan : ExposeCreatePlan) : proc W remote_event (result ExposeGatewayReservation) :=
  if bad_plan plan then mret (Err (Message "remote expose reservation plan is invalid")) else
  answer ← expose_call (R := exposeRPCReserveResponse) ExposeReserveRPCOperation (cp_ExpectedGatewayStateGeneration plan)
             (MkExposeRPCReserveRequest (exposePlanToWire plan)) true;
  mret ('(generation, response) ← answer;
        reject (negb (er_Generation (rva_Reservation response) =? generation)%N) (rpc_differs true "gateway reservation generation differs");;
        Ok (rva_Reservation response)).

Definition remote_Publish (reservation : ExposeGatewayReservation) (state : ExposeState) : proc W remote_event (result ExposeGatewayPublication) :=
  if negb (is_ok (validateGatewayExposeReservationShape reservation)) then mret (Err (Message "remote expose publication input is invalid")) else
  answer ← expose_call (R := exposeRPCPublishResponse) ExposePublishRPCOperation (er_Generation reservation)
             (MkExposeRPCPublishRequest (re_nodeID client) reservation state) true;
  mret ('(generation, response) ← answer;
        reject (negb (pub_Generation (pua_Publication response) =? generation)%N) (rpc_differs true "gateway publication generation differs");;
        Ok (pua_Publication response)).

Definition remote_Abort (reservation : ExposeGatewayReservation) : proc W remote_event (result N) :=
  if negb (is_ok (validateGatewayExposeReservationShape reservation)) then mret (Err (Message "remote expose abort input is invalid")) else
  answer ← expose_call (R := exposeRPCAbortResponse) ExposeAbortRPCOperation (er_Generation reservation)
             (MkExposeRPCAbortRequest (re_nodeID client) reservation) true;
  mret ('(generation, response) ← answer;
        reject (negb (aba_Generation response =? generation)%N) (rpc_differs true "gateway abort generation differs");;
        Ok (aba_Generation response)).

Definition remote_Defer (plan : ExposeCreatePlan) : proc W remote_event (result ExposeDeferredRegistration) :=
  if bad_plan plan then mret (Err (Message "remote deferred expose plan is invalid")) else
  answer ← expose_call (R := exposeRPCDeferResponse) ExposeDeferRPCOperation (cp_ExpectedGatewayStateGeneration plan)
             (MkExposeRPCDeferRequest (exposePlanToWire plan)) true;
  mret ('(generation, response) ← answer;
        reject (negb (dr_Generation (dea_Registration response) =? generation)%N) (rpc_differs true "gateway deferred generation differs");;
        Ok (dea_Registration response)).
End client.

(** ** The handler *)

Definition exposeRPCSuccess {P} `{!JSONValue P} (request : RPCRequest) (generation : N) (resourceID : string) (payload : P) : result RPCHandlerResult :=
  encoded ← marshal payload;
  Ok (MkRPCHandlerResult StatusOK (set_resource_ids {["expose_id" := resourceID]}
    (set_version (rq_ProtocolMajor request) (rq_ProtocolMinor request) (NewRPCResponse "success" generation encoded)))).

Definition exposeRPCFailure (request : RPCRequest) (status : Z) (category : string) (generation : N) (code message : string) : RPCHandlerResult :=
  MkRPCHandlerResult status (set_failure code message
    (set_version (rq_ProtocolMajor request) (rq_ProtocolMinor request) (NewRPCResponse category generation "{}"))).

(** How [failure] classes an error. *)
Definition is_any (e : error) (sentinels : list sentinel) : bool := existsb (errors_is e) sentinels.
Definition failure_answer (request : RPCRequest) (generation : N) (e : error) : RPCHandlerResult :=
  if is_any e [ErrExposePlanStale; ErrStateConflict]
  then exposeRPCFailure request StatusConflict "conflict" generation "expose_conflict" "the expose conflicts with authoritative state"
  else if is_any e [ContextCanceled; ContextDeadlineExceeded]
  then exposeRPCFailure request StatusServiceUnavailable "unavailable" generation "expose_unavailable" "the expose operation did not finish before its deadline"
  else if is_any e [ErrExposeInvalidInput; ErrExposeNameConflict; ErrExposeRouteConflict; ErrExposeReservedPath; ErrExposeNonLoopbackOptIn; ErrExposeLimitInvalid]
  then exposeRPCFailure request StatusUnprocessableEntity "validation" generation "expose_validation" "the expose request is invalid"
  else exposeRPCFailure request StatusInternalServerError "internal" generation "expose_failed" "the gateway could not complete the expose operation".

Section handler.
Context {W A : Type} `{!ExposeStateStore W} `{!GatewayExposeHosts W A} (exportPath : string).

Definition currentGeneration : gateway_run (A := A) N :=
  loaded ← authority_load (A := A);
  mret (match loaded with Ok state => st_Generation state | Err _ => 0%N end).

Definition reservation_held (loaded : result State) (nodeID : string) (reservation : ExposeGatewayReservation) : bool :=
  match loaded with
  | Err _ => false
  | Ok state =>
      (st_Generation state =? er_Generation reservation)%N
      && match list_find (λ expose, expose_ID expose = er_ExposeID reservation) (items (st_Exposes state)) with
         | Some (_, expose) => String.eqb (expose_NodeID expose) nodeID && bool_decide (expose_State expose = ExposePending)
         | None => false
         end
  end.
Definition reservationBelongsToNode (nodeID : string) (reservation : ExposeGatewayReservation) : gateway_run (A := A) bool :=
  if negb (is_ok (validateGatewayExposeReservationShape reservation)) then mret false else
  loaded ← authority_load (A := A);
  mret (reservation_held loaded nodeID reservation).

(** An input the handler refuses, with the generation of the gateway. *)
Definition refuse_input (request : RPCRequest) (code message : string) : gateway_run (A := A) (result RPCHandlerResult) :=
  generation ← currentGeneration;
  mret (Ok (exposeRPCFailure request StatusUnprocessableEntity "validation" generation code message)).

(** The answer to what the service returned. *)
Definition respond {T P} `{!JSONValue P} (request : RPCRequest) (served : result T) (answer : T → N * string * P) : gateway_run (A := A) (result RPCHandlerResult) :=
  match served with
  | Err e => generation ← currentGeneration; mret (Ok (failure_answer request generation e))
  | Ok value => let '(generation, resourceID, payload) := answer value in mret (exposeRPCSuccess request generation resourceID payload)
  end.

(** The plan of a request of this node at this generation. *)
Definition requested_plan (request : RPCRequest) (wire : exposePlanWire) : option ExposeCreatePlan :=
  match plan_domain wire with
  | Err _ => None
  | Ok plan =>
      if negb (String.eqb (expose_NodeID (cp_Expose plan)) (rq_NodeID request)) || negb (rq_ExpectedStateGeneration request =? cp_ExpectedGatewayStateGeneration plan)%N
      then None else Some plan
  end.

Definition handle_plan (request : RPCRequest) : gateway_run (A := A) (result RPCHandlerResult) :=
  match DecodeRPCPayload (T := exposeRPCPlanRequest) (rq_Payload request) with
  | Err _ => refuse_input request "invalid_payload" "the expose plan payload is invalid"
  | Ok payload =>
      planned ← gateway_Plan exportPath (rq_NodeID request) (request_domain (pq_Request payload));
      respond request planned (λ snapshot, (gs_Generation snapshot, ep_ExposeID (gs_Normalized snapshot), MkExposeRPCPlanResponse (exposeSnapshotToWire snapshot)))
  end.

Definition handle_reserve (request : RPCRequest) : gateway_run (A := A) (result RPCHandlerResult) :=
  match DecodeRPCPayload (T := exposeRPCReserveRequest) (rq_Payload request) with
  | Err _ => refuse_input request "invalid_payload" "the expose reservation payload is invalid"
  | Ok payload =>
      match requested_plan request (rvq_Plan payload) with
      | None => refuse_input request "invalid_plan" "the expose reservation plan is invalid"
      | Some plan =>
          reserved ← gateway_Reserve exportPath plan;
          respond request reserved (λ reservation, (er_Generation reservation, er_ExposeID reservation, MkExposeRPCReserveResponse reservation))
      end
  end.

(** The reservation a request names is pending and belongs to its node. *)
Definition held_by (request : RPCRequest) (nodeID : string) (reservation : ExposeGatewayReservation) : gateway_run (A := A) bool :=
  if negb (String.eqb nodeID (rq_NodeID request)) || negb (rq_ExpectedStateGeneration request =? er_Generation reservation)%N then mret false
  else reservationBelongsToNode nodeID reservation.

Definition handle_publish (request : RPCRequest) : gateway_run (A := A) (result RPCHandlerResult) :=
  let refused := refuse_input request "invalid_publication" "the expose publication input is invalid" in
  match DecodeRPCPayload (T := exposeRPCPublishRequest) (rq_Payload request) with
  | Err _ => refused
  | Ok payload =>
      held ← held_by request (puq_NodeID payload) (puq_Reservation payload);
      if negb held then refused else
      published ← gateway_Publish (puq_Reservation payload) (puq_EffectiveState payload);
      respond request published (λ publication, (pub_Generation publication, pub_ExposeID publication, MkExposeRPCPublishResponse publication))
  end.

Definition handle_abort (request : RPCRequest) : gateway_run (A := A) (result RPCHandlerResult) :=
  let refused := refuse_input request "invalid_abort" "the expose abort input is invalid" in
  match DecodeRPCPayload (T := exposeRPCAbortRequest) (rq_Payload request) with
  | Err _ => refused
  | Ok payload =>
      held ← held_by request (abq_NodeID payload) (abq_Reservation payload);
      if negb held then refused else
      aborted ← gateway_Abort (abq_Reservation payload);
      respond request aborted (λ generation, (generation, er_ExposeID (abq_Reservation payload), MkExposeRPCAbortResponse generation))
  end.

Definition handle_defer (request : RPCRequest) : gateway_run (A := A) (result RPCHandlerResult) :=
  match DecodeRPCPayload (T := exposeRPCDeferRequest) (rq_Payload request) with
  | Err _ => refuse_input request "invalid_payload" "the deferred expose payload is invalid"
  | Ok payload =>
      match requested_plan request (deq_Plan payload) with
      | None => refuse_input request "invalid_plan" "the deferred expose plan is invalid"
      | Some plan =>
          deferred ← gateway_Defer exportPath plan;
          respond request deferred (λ registration, (dr_Generation registration, dr_ExposeID registration, MkExposeRPCDeferResponse registration))
      end
  end.

(** The handler holds the lock of the gateway's mutations throughout; [cancelled] is the
    state of the context once the lock is taken. *)
Definition expose_HandleRPC (cancelled : bool) (peer : RPCPeer) (request : RPCRequest) : gateway_run (A := A) (result RPCHandlerResult) :=
  if String.eqb (peer_NodeID peer) "" || negb (String.eqb (peer_NodeID peer) (rq_NodeID request))
  then mret (Ok (exposeRPCFailure request StatusForbidden "validation" 0 "identity_mismatch" "the certificate and request node identities differ")) else
  if cancelled
  then mret (Ok (exposeRPCFailure request StatusServiceUnavailable "unavailable" 0 "request_cancelled" "the expose request was cancelled")) else
  let operation := rq_Operation request in
  if String.eqb operation ExposePlanRPCOperation then handle_plan request
  else if String.eqb operation ExposeReserveRPCOperation then handle_reserve request
  else if String.eqb operation ExposePublishRPCOperation then handle_publish request
  else if String.eqb operation ExposeAbortRPCOperation then handle_abort request
  else if String.eqb operation ExposeDeferRPCOperation then handle_defer request
  else refuse_input request "invalid_operation" "the handler accepts only expose operations".
End handler.
End wire.
