(* ===== verification/ExposeSamples.v ===== *)
(** * A node and a gateway that publish an expose

    A concrete gateway and a concrete node whose stores, ingress and tunnel do what they
    are asked, the states they pass through while an expose is created and removed, and an
    encoding of those states; the witnesses of the theorems about exposes run on them. *)

From S2P Require Import Prelude GoTime GoText GoNet GoConv Proc Types Checks Identity Address Expose Idempotency Resources StateValidate Codec Samples Transition Loopback ExposePlan Tunnel ExposeSaga ExposeGateway ExposeStates.

Local Open Scope string_scope.
Local Open Scope list_scope.

(** ** States *)

Definition sample_public_certificate : Certificate :=
  MkCertificate 1 (uuid "51") CertificatePublicIngress "host" (uuid "01") sample_fingerprint "1f" "CN=ingress" (Some ["203.0.113.7"]) (day 0) (day 400) 30 1 0
    "ingress_cert:one" "ingress_key:one".
Definition sample_export_path : string := "/var/lib/vpnctl/public/ingress.pem".

Definition gateway_exposes_state (generation : N) (exposes : list Expose) : State :=
  MkState 1 generation sample_host None None None None (Some [])
    (Some [gateway_node "11" "edge" "10.67.0.2"; gateway_node "12" "core" "10.67.0.3"]) (Some []) (Some []) (Some [])
    (Some [standard_transport TargetNode "11" TransportActive; standard_transport TargetNode "12" TransportActive])
    (Some exposes) (Some [sample_public_certificate]) (Some []) (Some []) (Some []) sample_manifest.
Definition node_exposes_state (generation known : N) (exposes : list Expose) : State :=
  set_st_Exposes (Some exposes) (set_st_Nodes (Some [set_node_Gateway (Some (set_gw_LastKnownGatewayGeneration known (sample_trust ""))) (joined_node "")])
    (node_state generation "" [])).

Definition other_expose : Expose := sample_expose "32" "12" "/apiv2" RouteExact 20002.
Definition gateway_start : State := gateway_exposes_state 9 [other_expose].
Definition node_start : State := node_exposes_state 3 4 [].

(** The request of an operator and what the gateway plans for it. *)
Definition sample_request : ExposeCreateRequest := MkExposeCreateRequest "8080" "api" "/hooks/api" false false (MkExposeLimitOverrides false 0 false 0).
Definition sample_runtime : ExposeNormalizerRuntime := MkExposeNormalizerRuntime (λ _, Err (Message "no entropy")) (λ _, Ok (uuid "31")) (day 5).
Definition sample_plan_snapshot : result ExposeGatewaySnapshot :=
  plan_snapshot sample_export_path gateway_start (gateway_node "11" "edge" "10.67.0.2") sample_public_certificate [20003%Z] sample_runtime sample_request.
Definition sample_normalized : ExposePlan :=
  MkExposePlan (uuid "31") (uuid "11") "api" "127.0.0.1:8080" RouteExact "/hooks/api" false [] (MkExposeLimits 1048576 15 40) (day 5) 9.
Definition sample_snapshot : ExposeGatewaySnapshot :=
  MkExposeGatewaySnapshot (uuid "01") 9 "203.0.113.7" (gateway_node "11" "edge" "10.67.0.2") sample_normalized 20000 sample_public_certificate sample_export_path.
Definition sample_create_plan : ExposeCreatePlan := create_plan_of node_start sample_snapshot.
Definition new_expose (state : ExposeState) : Expose := set_expose_State state (planned_expose sample_normalized 20000).
Definition disabled_expose : Expose := set_expose_Generation 2 (new_expose ExposeDisabled).

Lemma sample_planned : sample_plan_snapshot = Ok sample_snapshot.
Proof. by vm_compute. Qed.

Lemma sample_plan_valid : cp_Validate sample_create_plan = Ok ().
Proof. by vm_compute. Qed.

(** The states of both sides, in the order of a creation and a removal. *)
Definition sample_states : list State :=
  [gateway_start; gateway_exposes_state 10 [other_expose; new_expose ExposePending]; gateway_exposes_state 11 [other_expose; new_expose ExposeReady];
   gateway_exposes_state 12 [other_expose; disabled_expose];
   node_start; node_exposes_state 4 10 [new_expose ExposePending]; node_exposes_state 5 11 [new_expose ExposeReady]; node_exposes_state 6 12 [disabled_expose]].

(** Only these states have an encoding; the host and the generation tell them apart. *)
Definition state_tag (state : State) : string := host_ID (st_Host state) +:+ "/" +:+ itoa (st_Generation state).
Definition tagged_state (text : string) : option State := snd <$> list_find (λ state, state_tag state +:+ newline = text) sample_states.

#[export] Instance object_tokens : JSONTokens := { tokens _ := ([Delim ObjectOpen; Delim ObjectClose], None) }.
#[export] Instance tagged_states : JSONValue State := {
  marshal state := if bool_decide (tagged_state (state_tag state +:+ newline) = Some state) then Ok (state_tag state) else Err EOF;
  decode text := match tagged_state text with Some state => Ok (state, AtEOF) | None => Err EOF end
}.

Lemma tagged_same state copy : cloneExposeState state = Ok copy → copy = state.
Proof.
  unfold cloneExposeState, EncodeState, encodeIndented. intros K. ok_step K. ok_step G. ok_step G. injection G as <-.
  cbn [marshal tagged_states] in G1. case_bool_decide as Ht; [|done]. injection G1 as <-.
  unfold DecodeState in K. ok_step K. ok_step K. injection K as <-. destruct (decodeStrict _) as [state'|] eqn:Hd; [|done]. injection G as <-.
  unfold decodeStrict in Hd. ok_step Hd. cbn [decode tagged_states] in Hd. rewrite Ht in Hd. by injection Hd.
Qed.

(** ** The gateway *)

Record gateway_world := MkGatewayWorld { gwd_State : State; gwd_Serving : list Expose; gwd_Draws : generator; gwd_Clock : time }.

Definition serve_exposes (exposes : list Expose) (w : gateway_world) : gateway_world := MkGatewayWorld (gwd_State w) exposes (gwd_Draws w) (gwd_Clock w).
Definition store_state (state : State) (w : gateway_world) : gateway_world := MkGatewayWorld state (gwd_Serving w) (gwd_Draws w) (gwd_Clock w).
Definition served_exposes (state : State) : list Expose := filter (λ e, is_published (expose_State e) = true) (items (st_Exposes state)).

#[export] Instance gateway_store : ExposeStateStore gateway_world := {
  es_Load w := (Ok (gwd_State w), w);
  es_Save expected state w := if (st_Generation (gwd_State w) =? expected)%N then (Ok (), store_state state w) else (Err (Sentinel ErrStateConflict), w)
}.

Definition gateway_draw (w : gateway_world) : (generator * time) * gateway_world := (gwd_Draws w, gwd_Clock w, w).

(** The ingress remembers what it served. *)
#[export] Instance gateway_hosts : GatewayExposeHosts gateway_world (list Expose) := {
  gh_Ensure _ _ w := (Ok (), w);
  gh_Available := None;
  gh_Unavailable w := (Ok [20003%Z], w);
  gh_Activate before candidate w :=
    match changedGatewayExposeID (items (st_Exposes before)) (items (st_Exposes candidate)) with
    | Ok exposeID => (Ok (MkGatewayExposeIngressActivation exposeID (st_Generation candidate) sample_hash (gwd_Serving w)), serve_exposes (served_exposes candidate) w)
    | Err e => (Err e, w)
    end;
  gh_Commit _ w := (Ok (), w);
  gh_Rollback activation _ w := (Ok (), serve_exposes (ia_private activation) w);
  gh_Register plan w := let '(r, _, w') := deferred_Register (A := list Expose) gateway_draw None plan w in (r, w');
  gh_RegisterRemoval _ w := (Err (Message "no removal is deferred here"), w);
  gh_Normalizer w := (sample_runtime, w)
}.

(** ** The node *)

Record node_world := MkNodeWorld { nwd_State : State; nwd_Reached : string → bool }.

#[export] Instance node_store : ExposeStateStore node_world := {
  es_Load w := (Ok (nwd_State w), w);
  es_Save expected state w := if (st_Generation (nwd_State w) =? expected)%N then (Ok (), MkNodeWorld state (nwd_Reached w)) else (Err (Sentinel ErrStateConflict), w)
}.

Definition sample_descriptor (state : State) : tunnel_CandidateDescriptor :=
  MkTunnelCandidateDescriptor "frp" RoleNode (host_ID (st_Host state)) (st_Generation state) (uuid "11") 1 TransportStandard sample_hash.
Definition tunnel_server : addr := V4 (ipv4_of_octets 10 67 0 1).

(** The client runs every mapping as it was planned. *)
Definition runs_mapping (mapping : Mapping) : FRPProxyStatus :=
  MkFRPProxyStatus (mp_Name mapping) "tcp" "running" "" (mp_NodeUpstream mapping) "" (JoinHostPort (addr_string tunnel_server) (itoa (mp_Port mapping))) "".

#[export] Instance node_tunnel : ExposeNodeTunnel node_world unit := {
  et_Activate _ pending expose w := (Ok (MkExposeTunnelActivation (expose_ID expose) (sample_descriptor pending) ()), w);
  et_Observe activation _ w :=
    (session ← NewNodeSession (Samples.joined_node "") (items (st_Exposes (nwd_State w))) (st_Generation (nwd_State w));
     let mappings := items (ss_Mappings session) in
     Ok (probe_readiness (ta_Candidate activation) tunnel_server mappings true (nwd_Reached w) (Some (runs_mapping <$> mappings))), w);
  et_Rollback _ _ w := (Ok (), w)
}.
#[export] Instance node_removal : ExposeTunnelRemoval node_world := {
  et_Deactivate disabled expose w := (Ok (MkExposeTunnelDeactivation (expose_ID expose) (sample_descriptor disabled)), w);
  et_Wait duration w := (timer_Wait (Ok ()) duration, w)
}.

Definition gateway_at (state : State) : gateway_world := MkGatewayWorld state (served_exposes state) (λ _, Ok (uuid "61")) (day 6).
Definition node_in (state : State) : node_world := MkNodeWorld state (λ _, true).

(** ** Both, while an expose is created and while it is removed *)

#[export] Instance sample_pair_store : ExposeStateStore (node_world * gateway_world) := pair_store.
#[export] Instance sample_pair_tunnel : ExposeNodeTunnel (node_world * gateway_world) unit := pair_tunnel.
#[export] Instance sample_pair_removal : ExposeTunnelRemoval (node_world * gateway_world) := pair_removal.
#[export] Instance sample_pair_coordinator : ExposeGatewayCoordinator (node_world * gateway_world) := pair_coordinator sample_export_path.
#[export] Instance sample_pair_remover : ExposeGatewayRemovalCoordinator (node_world * gateway_world) := pair_removal_coordinator.

Definition before_creation : node_world * gateway_world := (node_in node_start, gateway_at gateway_start).
Definition after_creation : node_world * gateway_world :=
  (node_in (node_exposes_state 5 11 [new_expose ExposeReady]), gateway_at (gateway_exposes_state 11 [other_expose; new_expose ExposeReady])).
Definition sample_remove_plan : ExposeRemovePlan := MkExposeRemovePlan (new_expose ExposeReady) (uuid "02") 5 11 (uuid "01") "203.0.113.7".
