(* ===== verification/ExposeSagaFacts.v ===== *)
(** * A creation publishes or undoes, a removal goes forward

    What the saga did at the point where it stopped, and that a failure calls the
    compensations of exactly the steps whose call succeeded, unless the gateway may have
    committed; then the order of the steps of a removal. *)

From S2P Require Import Prelude GoTime GoText GoNet GoConv Proc Types Checks Identity Address Expose Idempotency Resources StateValidate Codec Samples StateFacts Operation Transition Loopback ExposePlan Tunnel ExposeSaga ExposeGateway ExposeStates ExposeSamples.

Local Open Scope string_scope.
Local Open Scope list_scope.

(** What decodes from the encoding of a state is that state. *)
Class FaithfulStateCodec `{!JSONTokens, !JSONValue State} : Prop := clone_same state copy : cloneExposeState state = Ok copy → copy = state.

(** ** The states of the saga *)

Section states.
Context `{!JSONTokens, !JSONValue State, !FaithfulStateCodec}.

Lemma next_copy_ok before candidate : next_copy before = Ok candidate →
  ∃ g, NextGeneration (st_Generation before) = Ok g ∧ candidate = set_st_Generation g before.
Proof. unfold next_copy. intros K. ok_step K. apply clone_same in G as ->. ok_step K. injection K as <-. by eexists. Qed.

Lemma known_generation_ok g state state' : set_known_generation g state = Ok state' →
  st_Exposes state' = st_Exposes state ∧ st_Generation state' = st_Generation state ∧ st_Host state' = st_Host state.
Proof.
  unfold set_known_generation. destruct (items (st_Nodes state)) as [|node rest]; [done|]. destruct (node_Gateway node); [|done]. by intros [= <-].
Qed.

Lemma addPending_ok before expose g pending : addPendingNodeExpose before expose g = Ok pending →
  accepted before pending ∧ items (st_Exposes pending) = items (st_Exposes before) ++ [expose].
Proof.
  unfold addPendingNodeExpose. intros K. ok_step K. apply next_copy_ok in G as (n & Hn & ->). ok_inv K. injection K as <-. units.
  apply known_generation_ok in G as (He & _). split; [done|]. rewrite He. apply items_append.
Qed.

Lemma finalize_ok pending exposeID state g final : finalizeNodeExpose pending exposeID state g = Ok final →
  accepted pending final ∧ change_first exposeID (λ expose, Ok (set_expose_State state expose)) (items (st_Exposes pending)) = Ok (items (st_Exposes final)).
Proof.
  unfold finalizeNodeExpose. intros K. ok_step K. apply next_copy_ok in G as (n & Hn & ->). ok_inv K. injection K as <-. units.
  apply known_generation_ok in G0 as (He & _). split; [done|]. by rewrite He.
Qed.

Lemma removePending_ok pending exposeID g rollback : removePendingNodeExpose pending exposeID g = Ok rollback →
  accepted pending rollback ∧ items (st_Exposes rollback) = without_expose exposeID (items (st_Exposes pending)).
Proof.
  unfold removePendingNodeExpose. intros K. ok_step K. apply next_copy_ok in G as (n & Hn & ->). ok_inv K. injection K as <-. units. split; [done|].
  destruct (g =? 0)%N; [by injection G as <-|]. by apply known_generation_ok in G as (-> & _).
Qed.
End states.

Lemma without_absent exposeID (l : list Expose) : containsExpose l exposeID = false → without_expose exposeID l = l.
Proof.
  unfold without_expose. induction l as [|e l IH]; intros H; [done|]. cbn in H. apply orb_false_iff in H as [Hne H]. apply String.eqb_neq in Hne.
  rewrite filter_cons_True // IH //.
Qed.

(** The last expose is the one that is changed, and the one that is removed. *)
Lemma without_last e (l : list Expose) : containsExpose l (expose_ID e) = false → without_expose (expose_ID e) (l ++ [e]) = l.
Proof.
  intros H. unfold without_expose. rewrite filter_app filter_cons_False; [by intros []|]. rewrite filter_nil app_nil_r. by apply without_absent.
Qed.

Lemma change_last change e e' (l : list Expose) : containsExpose l (expose_ID e) = false → change e = Ok e' →
  change_first (expose_ID e) change (l ++ [e]) = Ok (l ++ [e']).
Proof.
  intros H Hc. induction l as [|x l IH]; cbn.
  - by rewrite String.eqb_refl Hc.
  - cbn in H. apply orb_false_iff in H as [-> H]. by rewrite IH.
Qed.

Lemma joined_local_ok invalid state state' node trust : joined_local invalid state = Ok (state', node, trust) →
  state' = state ∧ Validate state = Ok () ∧ host_Role (st_Host state) = RoleNode ∧ items (st_Nodes state) = [node] ∧
  node_Lifecycle node = LifecycleActive ∧ node_Gateway node = Some trust.
Proof.
  unfold joined_local. intros K. ok_step K. facts. apply is_ok_true in H as [[] H]. destruct (items (st_Nodes state)) as [|x [|]] eqn:Ex; try done.
  ok_step K. facts. destruct (node_Gateway x) eqn:Eg; [|done]. by injection K as <- <- <-.
Qed.

(** ** How far the saga came *)

Definition is_load {A} (event : create_event A) : Prop := match event with LocalLoaded _ => True | _ => False end.

Section saga.
Context `{!JSONTokens, !JSONValue State, !FaithfulStateCodec} {W A : Type} `{!ExposeStateStore W, !ExposeGatewayCoordinator W, !ExposeNodeTunnel W A}.
Context (plan : ExposeCreatePlan).

Local Abbreviation expose := (cp_Expose plan).
Local Abbreviation event := (create_event A).
Local Abbreviation bound := (Detached exposeCompensationTimeout).

(** What was done after the reservation: the mapping of the tunnel that is active, and the
    state with the pending expose that was saved. *)
Inductive came_to (before : State) (reservation : ExposeGatewayReservation) : option (ExposeTunnelActivation A) → option State → list event → Prop :=
  | came_to_reservation : came_to before reservation None None [LocalLoaded (Ok before); ExposeReserved plan (Ok reservation)]
  | came_to_mapping pending activation done : came_to before reservation None None done →
      accepted before pending → items (st_Exposes pending) = items (st_Exposes before) ++ [expose] →
      came_to before reservation (Some activation) None (done ++ [MappingActivated pending (Ok activation)])
  | came_to_pending pending activation done : came_to before reservation (Some activation) None (done ++ [MappingActivated pending (Ok activation)]) →
      validateExposeTunnelActivation activation pending expose = Ok () →
      came_to before reservation (Some activation) (Some pending)
        (done ++ [MappingActivated pending (Ok activation); LocalSaved (st_Generation before) pending (Ok ())]).

(** The call at which it stopped before the publication, with the error it gives: one that
    failed, or a tunnel that is not ready, or none when the next state could not be built. *)
Definition stopped_at (last : list event) (primary : error) : Prop :=
  match last with
  | [] => True
  | [MappingActivated _ (Err e)] => primary = Wrapped "activate node tunnel mapping" e
  | [LocalSaved _ _ (Err e)] => primary = Wrapped "persist node pending expose" e
  | [MappingObserved _ (Err e)] => primary = Wrapped "observe node tunnel mapping" e
  | [MappingObserved activation (Ok readiness)] => effectiveExposeState readiness activation expose = Err primary
  | [MappingObserved activation (Ok readiness); ExposePublished _ state (Err e)] =>
      effectiveExposeState readiness activation expose = Ok state ∧ exposeCommitPossible e = false ∧ primary = Wrapped "publish gateway ingress" e
  | _ => False
  end.

(** The compensation calls and the failures they report: the rollback of the mapping when it
    was activated, the abort of the reservation, and, when the pending expose was saved,
    the save of the state without it. *)
Definition undoes_mapping (activation : option (ExposeTunnelActivation A)) (undo : list event) (failure : option error) : Prop :=
  match activation with
  | None => undo = [] ∧ failure = None
  | Some activation => ∃ r, undo = [MappingRolledBack activation bound r] ∧ failure = error_of (wrap "rollback node tunnel mapping" r)
  end.

Definition drops_pending (before : State) (pending : option State) (g : N) (undo : list event) (failure : option error) : Prop :=
  match pending with
  | None => undo = [] ∧ failure = None
  | Some pending =>
      (∃ e, removePendingNodeExpose pending (expose_ID expose) g = Err e ∧ undo = [] ∧ failure = Some e) ∨
      (∃ rollback r, undo = [LocalSaved (st_Generation pending) rollback r] ∧ failure = error_of (wrap "persist node expose rollback" r) ∧
         accepted pending rollback ∧ items (st_Exposes rollback) = items (st_Exposes before))
  end.

Definition undoes (before : State) (reservation : ExposeGatewayReservation) (activation : option (ExposeTunnelActivation A)) (pending : option State)
    (undo : list event) (failures : list (option error)) : Prop :=
  ∃ rolled unrolled g aborted removed unremoved, undo = rolled ++ [ReservationAborted reservation bound g aborted] ++ removed ∧
    failures = [unrolled; error_of (wrap "abort gateway expose reservation" aborted); unremoved] ∧
    undoes_mapping activation rolled unrolled ∧ drops_pending before pending g removed unremoved.

(** Every compensation call succeeded; the state saved last has the exposes of before. *)
Definition undone (before : State) (reservation : ExposeGatewayReservation) (activation : option (ExposeTunnelActivation A)) (pending : option State)
    (undo : list event) : Prop :=
  let rolled := match activation with None => [] | Some activation => [MappingRolledBack activation bound (Ok ())] end in
  ∃ g, match pending with
    | None => undo = rolled ++ [ReservationAborted reservation bound g (Ok ())]
    | Some pending => ∃ rollback, undo = rolled ++ [ReservationAborted reservation bound g (Ok ()); LocalSaved (st_Generation pending) rollback (Ok ())] ∧
        accepted pending rollback ∧ items (st_Exposes rollback) = items (st_Exposes before)
    end.

Definition undo_event (event : event) : Prop := match event with MappingRolledBack _ _ _ | ReservationAborted _ _ _ _ => True | _ => False end.

(** The gateway may have committed: its error says so, or its answer is not the expected
    one, or it has published. *)
Definition may_commit (event : event) : Prop :=
  match event with
  | ExposeReserved _ (Err e) | ExposePublished _ _ (Err e) => exposeCommitPossible e = true
  | ExposeReserved _ (Ok reservation) => ∃ e, validateExposeReservation reservation plan = Err e
  | ExposePublished _ _ (Ok _) => True
  | _ => False
  end.

Inductive create_outcome : result ExposeCreateResult → list event → Prop :=
  | create_refused e es : Forall is_load es → create_outcome (Err e) es
  | create_unreserved e before e' : exposeCommitPossible e' = false →
      create_outcome (Err e) [LocalLoaded (Ok before); ExposeReserved plan (Err e')]
  | create_undone primary before reservation activation pending done last undo : came_to before reservation activation pending done →
      stopped_at last primary → undone before reservation activation pending undo → create_outcome (Err primary) (done ++ last ++ undo)
  | create_half_undone primary before reservation activation pending done last undo failures : came_to before reservation activation pending done →
      stopped_at last primary → undoes before reservation activation pending undo failures → Exists is_Some failures →
      create_outcome (Err (errors_join primary failures)) (done ++ last ++ undo)
  | create_uncertain stage cause es : Exists may_commit es → Forall (λ event, ¬ undo_event event) es →
      create_outcome (Err (outcome_uncertain stage cause)) es
  | create_published before reservation activation pending done readiness state publication final url :
      came_to before reservation (Some activation) (Some pending) done →
      effectiveExposeState readiness activation expose = Ok state → publication_fits publication reservation plan = true →
      accepted pending final → items (st_Exposes final) = items (st_Exposes before) ++ [set_expose_State state expose] →
      create_outcome
        (Ok (MkExposeCreateResult (expose_ID expose) state (st_Generation final) (pub_Generation publication) (cp_PublicIPv4 plan)
               (cert_ID (cp_Certificate plan)) (cert_Fingerprint (cp_Certificate plan)) (cp_CertificateExportPath plan) url))
        (done ++ [MappingObserved activation (Ok readiness); ExposePublished reservation state (Ok publication);
                  LocalSaved (st_Generation pending) final (Ok ())]).

Lemma came_to_pending_exposes before reservation activation pending done : came_to before reservation activation (Some pending) done →
  items (st_Exposes pending) = items (st_Exposes before) ++ [expose].
Proof. inversion 1 as [| |? ? ? Hm]; subst. by inversion Hm; simplify_list_eq. Qed.

Lemma came_to_nothing_undone before reservation activation pending done : came_to before reservation activation pending done →
  Forall (λ event, ¬ undo_event event) done.
Proof.
  induction 1 as [|pending activation done Hc IH|pending activation done Hc IH]; try rewrite !Forall_app in IH; rewrite ?Forall_app !Forall_cons Forall_nil; cbn; tauto.
Qed.

Lemma drop_pending_wp before reservation activation pending done g w : came_to before reservation activation pending done →
  containsExpose (items (st_Exposes before)) (expose_ID expose) = false →
  wp (drop_pending pending plan g) w (λ failure removed _, drops_pending before pending g removed failure).
Proof.
  intros Hc Hfresh. destruct pending as [pending|]; [|by apply wp_ret]. cbn [drop_pending drops_pending].
  destruct (removePendingNodeExpose _ _ _) as [rollback|e] eqn:Hrem; [|apply wp_ret; left; by exists e].
  apply wp_bind. unfold local_save. wp_step. apply wp_ret. right. exists rollback, a. apply removePending_ok in Hrem as [Ha He].
  split_and!; [done..|]. rewrite He (came_to_pending_exposes _ _ _ _ _ Hc). by apply without_last.
Qed.

Lemma undo_mapping_wp activation w : wp (undo_mapping activation bound) w (λ failure rolled _, undoes_mapping activation rolled failure).
Proof. destruct activation as [activation|]; [|by apply wp_ret]. apply wp_bind. wp_step. apply wp_ret. by exists a. Qed.

Lemma compensate_wp primary before reservation activation pending done w : came_to before reservation activation pending done →
  containsExpose (items (st_Exposes before)) (expose_ID expose) = false →
  wp (create_compensate primary pending plan reservation activation) w
    (λ e es _, ∃ failures, e = errors_join primary failures ∧ undoes before reservation activation pending es failures).
Proof.
  intros Hc Hfresh. unfold create_compensate. cbv zeta. apply wp_bind. eapply wp_mono; [apply undo_mapping_wp|]. intros unrolled rolled w1 Hr.
  apply wp_bind. wp_step. destruct a as [g aborted]. apply wp_bind. eapply wp_mono; [by eapply drop_pending_wp|]. intros unremoved removed w2 Hu. apply wp_ret.
  eexists. split; [done|]. exists rolled, unrolled, g, aborted, removed, unremoved. by rewrite app_nil_r.
Qed.

(** Without a failure all is undone. *)
Lemma undoes_all before reservation activation pending undo failures : undoes before reservation activation pending undo failures →
  ¬ Exists is_Some failures → failures = [None; None; None] ∧ undone before reservation activation pending undo.
Proof.
  intros (rolled & unrolled & g & aborted & removed & unremoved & -> & -> & Hr & Hd) Hnone. rewrite !Exists_cons in Hnone.
  destruct unrolled; [destruct Hnone; by left; eexists|]. destruct aborted as [[]|]; [|destruct Hnone; by right; left; eexists].
  destruct unremoved; [destruct Hnone; by right; right; left; eexists|]. split; [done|]. exists g.
  assert (rolled = match activation with None => [] | Some activation => [MappingRolledBack activation bound (Ok ())] end) as ->.
  { destruct activation as [activation|]; [|by destruct Hr]. by destruct Hr as ([[]|] & -> & ?). }
  destruct pending as [pending|]; [|by destruct Hd as [-> _]]. destruct Hd as [(? & _ & _ & [=])|(rollback & r & -> & Hs & Ha & He)].
  destruct r as [[]|]; [|done]. by exists rollback.
Qed.

(** A failure after the reservation. *)
Lemma failed_wp primary before reservation activation pending done last w :
  came_to before reservation activation pending done → containsExpose (items (st_Exposes before)) (expose_ID expose) = false → stopped_at last primary →
  wp (create_compensate primary pending plan reservation activation ≫= λ failure, mret (Err failure)) w
    (λ r es _, create_outcome r (done ++ last ++ es)).
Proof.
  intros Hc Hfresh Hlast. apply wp_bind. eapply wp_mono; [by eapply compensate_wp|]. intros e es w' (failures & -> & Hu). apply wp_ret. rewrite app_nil_r.
  destruct (decide (Exists is_Some failures)) as [Hf|Hf]; [by eapply create_half_undone|].
  apply undoes_all in Hu as [-> Hu]; [|done]. by eapply create_undone.
Qed.

Lemma publish_wp before reservation activation pending done readiness state w :
  came_to before reservation (Some activation) (Some pending) done → containsExpose (items (st_Exposes before)) (expose_ID expose) = false →
  effectiveExposeState readiness activation expose = Ok state →
  wp (publish_expose plan pending reservation activation state) w
    (λ r es _, create_outcome r (done ++ MappingObserved activation (Ok readiness) :: es)).
Proof.
  intros Hc Hfresh Hready. assert (Hdone := came_to_nothing_undone _ _ _ _ _ Hc).
  assert (Hunknown : ∀ stage cause es, Exists may_commit es → Forall (λ event, ¬ undo_event event) es →
    create_outcome (Err (outcome_uncertain stage cause)) (done ++ MappingObserved activation (Ok readiness) :: es)).
  { intros stage cause es Hm Hes. apply create_uncertain; [by apply Exists_app; right; right|]. apply Forall_app; split; [done|]. by constructor; [intros []|]. }
  unfold publish_expose. apply wp_bind. wp_step. destruct a as [publication|e].
  - destruct (publication_fits publication reservation plan) eqn:Hfits; cbn [negb]; [|apply wp_ret, Hunknown; [by left|by repeat constructor; intros []]].
    destruct (finalizeNodeExpose _ _ _ _) as [final|e] eqn:Hfin; [|apply wp_ret, Hunknown; [by left|by repeat constructor; intros []]].
    apply finalize_ok in Hfin as [Hacc Hx]. rewrite (came_to_pending_exposes _ _ _ _ _ Hc) (change_last _ _ (set_expose_State state expose)) // in Hx.
    injection Hx as Hx. apply wp_bind. unfold local_save. wp_step. destruct a as [[]|e]; apply wp_ret; [|apply Hunknown; [by left|by repeat constructor; intros []]].
    rewrite app_nil_r. destruct (NewExposeCreateResult _ _ _ _) as [result|e] eqn:Hres; [|apply Hunknown; [by left|by repeat constructor; intros []]].
    unfold NewExposeCreateResult in Hres. ok_inv Hres. injection Hres as <-. by eapply create_published.
  - destruct (exposeCommitPossible e) eqn:Hp; [apply wp_ret, Hunknown; [by left|by repeat constructor; intros []]|].
    eapply wp_mono; [by eapply (failed_wp _ _ _ _ _ _ [MappingObserved activation (Ok readiness); ExposePublished reservation state (Err e)])|]. done.
Qed.

(** The steps of [activate_expose], each after those that succeeded. *)
Lemma observe_wp before reservation activation pending done w : came_to before reservation (Some activation) (Some pending) done →
  containsExpose (items (st_Exposes before)) (expose_ID expose) = false →
  wp (call (et_Observe activation expose) (λ r, [MappingObserved activation r]) ≫= λ observed,
    match observed with
    | Err e => create_compensate (Wrapped "observe node tunnel mapping" e) (Some pending) plan reservation (Some activation) ≫= λ failure, mret (Err failure)
    | Ok readiness =>
        match effectiveExposeState readiness activation expose with
        | Err e => create_compensate e (Some pending) plan reservation (Some activation) ≫= λ failure, mret (Err failure)
        | Ok effectiveState => publish_expose plan pending reservation activation effectiveState
        end
    end) w (λ r es _, create_outcome r (done ++ es)).
Proof.
  intros Hc Hfresh. apply wp_bind. wp_step. destruct a as [readiness|e].
  - destruct (effectiveExposeState readiness activation expose) as [state|e] eqn:He; [by eapply publish_wp|].
    eapply wp_mono; [by eapply (failed_wp _ _ _ _ _ _ [MappingObserved activation (Ok readiness)]); [..|exact He]|]. done.
  - eapply wp_mono; [by eapply (failed_wp _ _ _ _ _ _ [MappingObserved activation (Err e)])|]. done.
Qed.

Lemma activate_expose_wp before reservation w : containsExpose (items (st_Exposes before)) (expose_ID expose) = false →
  wp (activate_expose plan before reservation) w
    (λ r es _, create_outcome r ([LocalLoaded (Ok before); ExposeReserved plan (Ok reservation)] ++ es)).
Proof.
  intros Hfresh. unfold activate_expose. cbv zeta. assert (Hc := came_to_reservation before reservation).
  destruct (addPendingNodeExpose _ _ _) as [pending|e] eqn:Hp; [|eapply (failed_wp _ _ _ _ _ _ []); [exact Hc|done|exact I]].
  apply addPending_ok in Hp as [Hacc Hx]. apply wp_bind. wp_step. destruct a as [activation|e]; [|by eapply (failed_wp _ _ _ _ _ _ [MappingActivated pending (Err e)])].
  apply (came_to_mapping _ _ pending activation) in Hc as Hm; [|done..]. rewrite -/(wp _ _ _).
  destruct (validateExposeTunnelActivation _ _ _) as [[]|e] eqn:Hv; [|eapply wp_mono; [by eapply (failed_wp _ _ _ _ _ _ []); [exact Hm|..]|]; done].
  apply (came_to_pending _ _ pending) in Hm as Hs; [|done]. apply wp_bind. unfold local_save. wp_step. destruct a as [[]|e].
  - eapply wp_mono; [by eapply observe_wp|]. done.
  - eapply wp_mono; [by eapply (failed_wp _ _ _ _ _ _ [LocalSaved (st_Generation before) pending (Err e)]); [exact Hm|..]|]. done.
Qed.

(** C11: in a creation that returns success the reservation, the mapping, the saved pending
    expose, the observation of the tunnel that allows the published state, the publication,
    and the saved final state happened in this order, and the final state has the expose
    published and the others as they were.  Every failure is of one of four kinds: nothing was asked of the gateway; the
    gateway refused the reservation; the gateway may have committed, the error says so, and
    nothing is undone; or the saga calls the compensation of each step whose call succeeded
    and of no other: the mapping first, then the reservation, then the pending expose.  The
    error is then the one it stopped at when every compensation succeeded, and the state it
    saved last has the exposes of before; otherwise it joins the error of each compensation
    that failed.  A save of the pending expose that reports a failure counts as not done,
    even where it replaced the state. *)
Theorem creation_publishes_or_undoes w : wp (create_Apply plan) w (λ r es _, create_outcome r es).
Proof.
  unfold create_Apply. destruct (cp_Validate plan); [|by apply wp_ret, create_refused; constructor].
  apply wp_attempt. unfold loadJoinedNode. apply wp_bind. wp_step. apply wp_ret. destruct a0 as [before|e].
  2:{ apply create_refused. by repeat constructor. }
  cbn [wrap mbind result_bind]. destruct (joined_local saga_invalid before) as [[[state node] trust]|e] eqn:Hj; [|by apply create_refused; repeat constructor].
  apply joined_local_ok in Hj as (-> & _). destruct (_ || containsExpose _ _) eqn:Hstale; [by apply wp_ret, create_refused; repeat constructor|].
  apply orb_false_iff in Hstale as [_ Hfresh]. apply wp_bind. wp_step. destruct a0 as [reservation|e].
  - destruct (validateExposeReservation reservation plan) as [[]|e] eqn:Hreceipt; [by eapply wp_mono; [by apply activate_expose_wp|]|].
    apply wp_ret, create_uncertain; [right; left; by eexists|]. by repeat constructor; intros [].
  - apply wp_ret. destruct (exposeCommitPossible e) eqn:Hp; [|by apply create_unreserved].
    apply create_uncertain; [by right; left|]. by repeat constructor; intros [].
Qed.
End saga.

#[export] Instance tagged_states_faithful : FaithfulStateCodec.
Proof. exact tagged_same. Qed.

Lemma creation_publishes_or_undoes_witness : let run := create_Apply (A := unit) sample_create_plan before_creation in
  is_ok run.1.1 = true ∧ create_outcome sample_create_plan run.1.1 run.1.2.
Proof.
  cbv zeta. split; [by vm_compute|]. destruct (create_Apply sample_create_plan before_creation) as [[r es] w'] eqn:Hrun.
  exact (wp_run _ _ _ _ _ _ (creation_publishes_or_undoes sample_create_plan before_creation) Hrun).
Defined.

(** * The removal of an expose goes forward only

    The order of the steps of a removal, what each saved state holds, and how far a removal
    that failed came. *)

(** ** The states of the saga *)

(** An expose with the identifier is disabled and one generation later; another stays. *)
Definition disabled_as (exposeID : string) (e e' : Expose) : Prop :=
  if decide (expose_ID e = exposeID)
  then NextGeneration (expose_Generation e) = Ok (expose_Generation e') ∧
       e' = set_expose_Generation (expose_Generation e') (set_expose_State ExposeDisabled e)
  else e' = e.

Lemma disable_all_ok exposeID l l' found : disable_all exposeID l = Ok (l', found) → Forall2 (disabled_as exposeID) l l'.
Proof.
  intros K. refine (range_inv _ (λ p '(l', _), Forall2 (disabled_as exposeID) p l') _ ([], false) (l', found) _ _ K); [|constructor].
  clear. intros p e q [l' found] [l'' found'] _ Hp Hb. cbn beta iota in Hb. destruct (String.eqb_spec (expose_ID e) exposeID) as [Heq|Hne]; cbn [negb] in Hb.
  - ok_step Hb. injection Hb as <- <-. apply Forall2_app; [done|]. constructor; [|done]. by rewrite /disabled_as decide_True.
  - injection Hb as <- <-. apply Forall2_app; [done|]. constructor; [|done]. by rewrite /disabled_as decide_False.
Qed.

Lemma delete_disabled_ok exposeID l l' found : delete_disabled exposeID l = Ok (l', found) →
  l' = without_expose exposeID l ∧ ∀ e, e ∈ l → expose_ID e = exposeID → expose_State e = ExposeDisabled.
Proof.
  intros K. refine (range_inv _ (λ p '(l', _), l' = without_expose exposeID p ∧ ∀ e, e ∈ p → expose_ID e = exposeID → expose_State e = ExposeDisabled)
    _ ([], false) (l', found) _ _ K); [|split; [done|set_solver]].
  clear. intros p e q [l' found] [l'' found'] _ [-> Hp] Hb. cbn beta iota in Hb. unfold without_expose. rewrite filter_app.
  destruct (String.eqb_spec (expose_ID e) exposeID) as [Heq|Hne]; cbn [negb] in Hb.
  - ok_step Hb. facts. injection Hb as <- <-. rewrite filter_cons_False ?filter_nil ?app_nil_r; [by intros []|]. split; [done|]. set_solver.
  - injection Hb as <- <-. rewrite filter_cons_True // filter_nil. split; [done|]. set_solver.
Qed.

Lemma without_disabled exposeID l l' : Forall2 (disabled_as exposeID) l l' → without_expose exposeID l' = without_expose exposeID l.
Proof.
  unfold without_expose. induction 1 as [|e e' l l' He Hl IH]; [done|]. unfold disabled_as in He. destruct (decide (expose_ID e = exposeID)) as [Heq|Hne].
  - destruct He as [_ ->]. rewrite !filter_cons_False //; cbn; by intros [].
  - subst e'. by rewrite !filter_cons_True // IH.
Qed.

Section states.
Context `{!JSONTokens, !JSONValue State, !FaithfulStateCodec}.

Lemma change_exposes_ok label change before g after : change_exposes label change before g = Ok after →
  accepted before after ∧ ∃ found, change (items (st_Exposes before)) = Ok (items (st_Exposes after), found).
Proof.
  unfold change_exposes. intros K. ok_step K. apply next_copy_ok in G as (n & Hn & ->). ok_step K. destruct a as [exposes found]. ok_inv K. injection K as <-.
  units. apply known_generation_ok in G1 as (He & _). split; [done|]. exists found. by rewrite He.
Qed.
End states.

(** ** How far the saga came *)

Section saga.
Context `{!JSONTokens, !JSONValue State, !FaithfulStateCodec} {W : Type} `{!ExposeStateStore W, !ExposeGatewayRemovalCoordinator W, !ExposeTunnelRemoval W}.
Context (plan : ExposeRemovePlan).

Local Abbreviation exposeID := (expose_ID (rm_Expose plan)).

(** What has succeeded; each stage holds the state of the node with the expose disabled. *)
Inductive removal_stage := AtUnpublished | AtDisabled (disabled : State) | AtDrained (disabled : State) | AtUnmapped (disabled : State)
  | AtReleased (disabled : State) (generation : N).

(** The calls that led to a stage, in the only order in which they are made. *)
Inductive removed_to (before : State) (unpublication : ExposeGatewayUnpublication) : removal_stage → list remove_event → Prop :=
  | to_unpublished : validateExposeUnpublication unpublication plan = Ok () →
      removed_to before unpublication AtUnpublished [RemovalLoaded (Ok before); ExposeUnpublished plan (Ok unpublication)]
  | to_kept done : removed_to before unpublication AtUnpublished done → expose_State (rm_Expose plan) = ExposeDisabled →
      removed_to before unpublication (AtDisabled before) done
  | to_disabled disabled done : removed_to before unpublication AtUnpublished done → expose_State (rm_Expose plan) ≠ ExposeDisabled →
      accepted before disabled → Forall2 (disabled_as exposeID) (items (st_Exposes before)) (items (st_Exposes disabled)) →
      removed_to before unpublication (AtDisabled disabled) (done ++ [RemovalSaved (st_Generation before) disabled (Ok ())])
  | to_drained disabled done : removed_to before unpublication (AtDisabled disabled) done →
      removed_to before unpublication (AtDrained disabled) (done ++ [Drained (un_Drain unpublication) (Ok ())])
  | to_unmapped disabled deactivation done : removed_to before unpublication (AtDrained disabled) done →
      td_ExposeID deactivation = exposeID → cd_Generation (td_Candidate deactivation) = st_Generation disabled →
      removed_to before unpublication (AtUnmapped disabled) (done ++ [MappingRemoved disabled (Ok deactivation)])
  | to_released disabled g done : removed_to before unpublication (AtUnmapped disabled) done →
      NextGeneration (un_Generation unpublication) = Ok g →
      removed_to before unpublication (AtReleased disabled g) (done ++ [PortReleased unpublication (Ok g)]).

(** The call that failed or whose answer was refused, if one was made. *)
Definition failed_at (unpublication : ExposeGatewayUnpublication) (stage : removal_stage) (last : list remove_event) : Prop :=
  match stage, last with
  | AtUnpublished, [] | AtUnpublished, [RemovalSaved _ _ (Err _)] => True
  | AtDisabled _, [Drained duration (Err _)] => duration = un_Drain unpublication
  | AtDrained disabled, [MappingRemoved state _] => state = disabled
  | AtUnmapped _, [PortReleased released _] => released = unpublication
  | AtReleased disabled _, [] => True
  | AtReleased disabled _, [RemovalSaved g _ (Err _)] => g = st_Generation disabled
  | _, _ => False
  end.

Definition is_removal_load (event : remove_event) : Prop := match event with RemovalLoaded _ => True | _ => False end.

Inductive remove_outcome : result ExposeRemoveResult → list remove_event → Prop :=
  | remove_refused e es : Forall is_removal_load es → remove_outcome (Err e) es
  | remove_denied e e' before : exposeCommitPossible e' = false → remove_outcome (Err e) [RemovalLoaded (Ok before); ExposeUnpublished plan (Err e')]
  | remove_unknown stage cause before r : match r with Err e => exposeCommitPossible e = true | Ok u => ∃ e, validateExposeUnpublication u plan = Err e end →
      remove_outcome (Err (removal_incomplete stage cause)) [RemovalLoaded (Ok before); ExposeUnpublished plan r]
  | remove_incomplete stage cause before unpublication reached done last : removed_to before unpublication reached done →
      failed_at unpublication reached last → remove_outcome (Err (removal_incomplete stage cause)) (done ++ last)
  | remove_done before unpublication disabled g done final : removed_to before unpublication (AtReleased disabled g) done →
      accepted disabled final → items (st_Exposes final) = without_expose exposeID (items (st_Exposes before)) →
      remove_outcome (Ok (MkExposeRemoveResult exposeID (st_Generation final) g (un_Drain unpublication ÷ second)))
        (done ++ [RemovalSaved (st_Generation disabled) final (Ok ())]).

(** The state of a stage follows the one before, with the same other exposes. *)
Definition stage_state (stage : removal_stage) : option State :=
  match stage with AtUnpublished => None | AtDisabled s | AtDrained s | AtUnmapped s | AtReleased s _ => Some s end.

Lemma stage_exposes before unpublication stage done disabled : removed_to before unpublication stage done → stage_state stage = Some disabled →
  without_expose exposeID (items (st_Exposes disabled)) = without_expose exposeID (items (st_Exposes before)).
Proof.
  induction 1; cbn; intros Hs; simplify_eq; auto. by apply without_disabled.
Qed.

Lemma incomplete_wp before unpublication stage done last name cause (w : W) : removed_to before unpublication stage done → failed_at unpublication stage last →
  wp (mret (Err (removal_incomplete name cause)) : remove_run (result ExposeRemoveResult)) w (λ r es _, remove_outcome r (done ++ last ++ es)).
Proof. intros Hr Hl. apply wp_ret. rewrite app_nil_r. by eapply remove_incomplete. Qed.

Lemma release_wp before unpublication disabled done (w : W) : removed_to before unpublication (AtUnmapped disabled) done →
  wp (release_and_delete plan disabled unpublication) w (λ r es _, remove_outcome r (done ++ es)).
Proof.
  intros Hr. unfold release_and_delete. apply wp_bind. wp_step. destruct a as [g|e]; [|by eapply incomplete_wp].
  case_bool_decide as Hg; cbn [negb]; [|by eapply incomplete_wp]. apply (to_released _ _ _ g) in Hr as Hr'; [|done].
  destruct (deleteNodeExpose _ _ _) as [final|e] eqn:Hd.
  2:{ eapply wp_mono; [by eapply (incomplete_wp _ _ _ _ [])|]. intros r es w'' Ho. by rewrite -app_assoc in Ho. }
  apply change_exposes_ok in Hd as (Hacc & found & [Hx _]%delete_disabled_ok).
  apply wp_bind. unfold removal_save. wp_step. apply wp_ret. rewrite app_nil_r.
  assert (Happ : ∀ es, done ++ PortReleased unpublication (Ok g) :: es = (done ++ [PortReleased unpublication (Ok g)]) ++ es) by (intros es; by rewrite -app_assoc).
  cbn [app]. rewrite Happ. destruct a as [[]|e]; [|by eapply remove_incomplete].
  eapply remove_done; [done..|]. rewrite Hx. by eapply stage_exposes.
Qed.

(** From the disabled expose on. *)
Lemma drop_wp before unpublication disabled done (w : W) : removed_to before unpublication (AtDisabled disabled) done →
  wp (attempt (drop_mapping plan disabled unpublication) (λ _, release_and_delete plan disabled unpublication)) w
    (λ r es _, remove_outcome r (done ++ es)).
Proof.
  intros Hr. apply wp_attempt. unfold drop_mapping. apply wp_bind. wp_step. destruct a as [[]|e].
  2:{ apply wp_ret. cbn. by eapply remove_incomplete. }
  apply to_drained in Hr. apply wp_bind. wp_step. apply wp_ret.
  assert (Happ : ∀ es r, remove_outcome r ((done ++ [Drained (un_Drain unpublication) (Ok ())]) ++ es) →
    remove_outcome r (done ++ [Drained (un_Drain unpublication) (Ok ())] ++ es)) by (intros es r; by rewrite -app_assoc).
  destruct a as [deactivation|e]; [|apply Happ; by eapply remove_incomplete].
  destruct (reject _ _) as [[]|e] eqn:Hreceipt; [|apply reject_err in Hreceipt as [_ <-]; apply Happ; by eapply remove_incomplete].
  apply reject_ok in Hreceipt. facts. eapply wp_mono; [eapply release_wp; by eapply (to_unmapped _ _ _ deactivation)|]. intros r es w'' Ho. by rewrite -!app_assoc in Ho.
Qed.

(** C13: a removal makes its calls in one order only: the gateway withdraws the expose from
    its ingress, the node saves it as disabled, the requests in flight are drained for the
    time the gateway told, the mapping of the tunnel is removed, the gateway releases the
    port, and the node saves the state without the expose.  It returns success when all of
    them succeeded, and then the other exposes are as they were; when one fails it stops
    there and says that the removal is incomplete; nothing is ever put back. *)
Theorem removal_goes_forward (w : W) : wp (remove_Apply plan) w (λ r es _, remove_outcome r es).
Proof.
  unfold remove_Apply. destruct (rm_Validate plan); [|by apply wp_ret, remove_refused; constructor].
  apply wp_attempt. unfold removal_load. apply wp_bind. wp_step. apply wp_ret. destruct a0 as [before|e]; [|by apply remove_refused; repeat constructor].
  cbn [wrap mbind result_bind]. destruct (joined_local _ before) as [[[state node] trust]|e] eqn:Hj; [|by apply remove_refused; repeat constructor].
  apply joined_local_ok in Hj as (-> & _). destruct (_ || _ : bool); [by apply wp_ret, remove_refused; repeat constructor|]. apply wp_bind. wp_step.
  destruct a0 as [unpublication|e].
  2:{ apply wp_ret. destruct (exposeCommitPossible e) eqn:Hp; [by apply remove_unknown|by apply remove_denied]. }
  destruct (validateExposeUnpublication unpublication plan) as [[]|e] eqn:Hv; [|by apply wp_ret, remove_unknown; exists e].
  apply (to_unpublished before) in Hv as Hr. apply wp_attempt. unfold disable_local. case_bool_decide as Hstate.
  - apply wp_ret. eapply wp_mono; [eapply drop_wp; by apply to_kept|]. done.
  - destruct (disableNodeExpose _ _ _) as [disabled|e] eqn:Hd; [|by apply wp_ret, (remove_incomplete _ _ _ _ _ _ [] Hr)].
    apply change_exposes_ok in Hd as (Hacc & found & Hx%disable_all_ok). apply wp_bind. unfold removal_save. wp_step. apply wp_ret.
    destruct a0 as [[]|e]; [|by apply (remove_incomplete _ _ _ _ _ _ [RemovalSaved (st_Generation before) disabled (Err e)] Hr)].
    eapply wp_mono; [eapply drop_wp; by apply (to_disabled _ _ disabled)|]. done.
Qed.
End saga.

Lemma removal_goes_forward_witness : let run := remove_Apply sample_remove_plan after_creation in
  is_ok run.1.1 = true ∧ remove_outcome sample_remove_plan run.1.1 run.1.2.
Proof.
  cbv zeta. split; [by vm_compute|]. destruct (remove_Apply sample_remove_plan after_creation) as [[r es] w'] eqn:Hrun.
  exact (wp_run _ _ _ _ _ _ (removal_goes_forward sample_remove_plan after_creation) Hrun).
Defined.
