(* ===== verification/ExposeGatewayFacts.v ===== *)
(** * The ingress follows the state, and a planned expose is exclusive

    The operations of the gateway's expose service against a store and an ingress: the
    ingress always serves exactly the published exposes of the stored state.  Then that what
    the gateway plans is free in its whole namespace. *)

From S2P Require Import Prelude GoTime GoText GoNet GoConv Proc Types Checks Identity Address Expose Idempotency Resources StateValidate Codec Samples StateFacts Operation Transition NodeOperation Loopback ExposePlan Tunnel ExposeSaga ExposeGateway ExposeStates ExposeSamples ExposeSagaFacts.

Local Open Scope string_scope.
Local Open Scope list_scope.

(** ** Published exposes *)

(** The renderer leaves out disabled and pending exposes. *)
Definition published (exposes : list Expose) : list Expose := filter (λ e, is_published (expose_State e) = true) exposes.

Lemma published_pending e l : expose_State e = ExposePending → published (l ++ [e]) = published l.
Proof. intros He. unfold published. rewrite filter_app filter_cons_False; [by rewrite He|]. by rewrite filter_nil app_nil_r. Qed.

Lemma published_without exposeID l : (∀ e, e ∈ l → expose_ID e = exposeID → is_published (expose_State e) = false) →
  published (without_expose exposeID l) = published l.
Proof.
  unfold published, without_expose. induction l as [|e l IH]; intros Hl; [done|]. assert (IH' := IH (λ x Hx, Hl x (list_elem_of_further _ _ _ Hx))).
  destruct (decide (expose_ID e = exposeID)) as [Heq|Hne].
  - rewrite (filter_cons_False (λ x, expose_ID x ≠ exposeID)); [by intros []|]. rewrite IH'. rewrite filter_cons_False //.
    rewrite Hl //. left.
  - rewrite (filter_cons_True (λ x, expose_ID x ≠ exposeID)) // !filter_cons IH' //.
Qed.

Lemma take_back_ok exposeID l l' found : take_back exposeID l = Ok (l', found) →
  l' = without_expose exposeID l ∧ ∀ e, e ∈ l → expose_ID e = exposeID → expose_State e = ExposePending.
Proof.
  intros K. refine (range_inv _ (λ p '(l', _), l' = without_expose exposeID p ∧ ∀ e, e ∈ p → expose_ID e = exposeID → expose_State e = ExposePending)
    _ ([], false) (l', found) _ _ K); [|split; [done|set_solver]].
  clear. intros p e q [l' found] [l'' found'] _ [-> Hp] Hb. cbn beta iota in Hb. unfold without_expose. rewrite filter_app.
  destruct (String.eqb_spec (expose_ID e) exposeID) as [Heq|Hne]; cbn [negb] in Hb.
  - ok_step Hb. facts. injection Hb as <- <-. rewrite filter_cons_False ?filter_nil ?app_nil_r; [by intros []|]. split; [done|]. set_solver.
  - injection Hb as <- <-. rewrite filter_cons_True // filter_nil. split; [done|]. set_solver.
Qed.

(** ** A gateway *)

Section gateway.
Context `{!JSONTokens, !JSONValue State, !FaithfulStateCodec} {W A : Type} `{!ExposeStateStore W, !GatewayExposeHosts W A} (exportPath : string).
(** The stored state, and the exposes the ingress serves. *)
Variables (authority : W → State) (serving : W → list Expose).
(** The exposes the ingress served before an activation, which it keeps to go back to. *)
Variable served_before : GatewayExposeIngressActivation A → list Expose.

Definition still (w w' : W) : Prop := authority w' = authority w ∧ serving w' = serving w.

Class FaithfulGateway : Prop := {
  authority_loaded w r w' : es_Load w = (r, w') → still w w' ∧ ∀ state, r = Ok state → state = authority w;
  (** A failed save may have replaced the state. *)
  authority_saved expected candidate w r w' : es_Save expected candidate w = (r, w') →
    serving w' = serving w ∧ match r with Ok _ => authority w' = candidate | Err _ => authority w' = authority w ∨ authority w' = candidate end;
  certificate_ensured state path w r w' : gh_Ensure state path w = (r, w') → still w w';
  ingress_activated before candidate w r w' : gh_Activate before candidate w = (r, w') → authority w' = authority w ∧
    match r with Ok a => serving w' = published (items (st_Exposes candidate)) ∧ served_before a = serving w | Err _ => serving w' = serving w end;
  ingress_committed a w r w' : gh_Commit a w = (r, w') → still w w';
  ingress_rolled_back a bound w r w' : gh_Rollback a bound w = (r, w') → authority w' = authority w ∧ (r = Ok () → serving w' = served_before a)
}.
Context `{!FaithfulGateway}.

Definition in_step (w : W) : Prop := serving w = published (items (st_Exposes (authority w))).

(** What an operation that did not keep the two in step must admit: its error tells that
    it may have committed, or a save that failed replaced the state all the same. *)
Definition follows (w : W) (error : option error) (es : list (gateway_event A)) : Prop :=
  in_step w ∨ (∃ e, error = Some e ∧ exposeCommitPossible e = true) ∨
  (∃ expected candidate e, AuthoritySaved expected candidate (Err e) ∈ es ∧ authority w = candidate).

Lemma still_in_step w w' : in_step w → still w w' → in_step w'.
Proof. unfold in_step, still. by intros ? [-> ->]. Qed.

(** A save that changes no published expose. *)
Lemma save_in_step w expected candidate r w' : in_step w → published (items (st_Exposes candidate)) = published (items (st_Exposes (authority w))) →
  es_Save expected candidate w = (r, w') → in_step w'.
Proof.
  unfold in_step. intros Hs Hp [Hserving Hr]%authority_saved. rewrite Hserving Hs. destruct r as [u|e]; [by rewrite Hr|by destruct Hr as [-> | ->]].
Qed.

Lemma swap_follows exposeID candidate w : in_step w →
  wp (swap_ingress exposeID (authority w) candidate) w (λ r es w', follows w' (error_of r) es).
Proof.
  intros Hs. unfold swap_ingress. apply wp_bind, wp_call. intros r w1 [Ha Hr]%ingress_activated. destruct r as [activation|e].
  2:{ apply wp_ret. left. unfold in_step in *. by rewrite Ha Hr. }
  destruct Hr as [Hserving Hbefore]. destruct (_ || _ : bool); [apply wp_ret; right; left; by eexists|]. apply wp_bind, wp_call.
  intros r w2 [Hserving' Hr]%authority_saved. destruct r as [[]|e].
  - apply wp_bind, wp_call. intros r w3 [Ha' Hs']%ingress_committed. apply wp_ret. destruct r as [u|e]; [|right; left; by eexists].
    left. unfold in_step. by rewrite Hs' Ha' Hserving' Hserving Hr.
  - apply wp_bind, wp_call. intros r w3 [Ha' Hs']%ingress_rolled_back. apply wp_ret. destruct r as [[]|e']; [|right; left; by eexists].
    destruct Hr as [Hr|Hr]; [left|right; right].
    + unfold in_step in *. by rewrite Hs' // Hbefore Ha' Hr Ha.
    + exists (st_Generation (authority w)), candidate, e. split; [set_solver|]. by rewrite Ha' Hr.
Qed.

Lemma follows_later w error es es' : follows w error es' → follows w error (es ++ es').
Proof. intros [Hs|[He|(expected & candidate & e & Hin & Ha)]]; [by left|by right; left|]. right. right. exists expected, candidate, e. split; [set_solver|done]. Qed.

(** An operation that only reads. *)
Lemma loaded_wp {T} nodeID (k : State * Node * Certificate → gateway_run (result T)) w : in_step w →
  (∀ node certificate w', still w w' → gateway_resources (authority w) nodeID = Ok (authority w, node, certificate) →
    wp (k (authority w, node, certificate)) w' (λ r es w'', follows w'' (error_of r) es)) →
  wp (attempt (loadGatewayResources nodeID) k) w (λ r es w', follows w' (error_of r) es).
Proof.
  intros Hs Hk. apply wp_attempt. unfold loadGatewayResources. apply wp_bind, wp_call. intros r w1 [Hst Hr]%authority_loaded. apply wp_ret.
  destruct r as [state|e]; [|left; by eapply still_in_step]. rewrite (Hr state eq_refl). cbn [mbind result_bind].
  destruct (gateway_resources (authority w) nodeID) as [[[state' node] certificate]|e] eqn:Hg; [|left; by eapply still_in_step].
  assert (state' = authority w) as ->.
  { unfold gateway_resources in Hg. ok_step Hg. destruct (list_find _ _) as [[i n]|]; [|done]. ok_step Hg. ok_step Hg. by injection Hg. }
  eapply wp_mono; [by apply Hk|]. intros r es w'' Hf. by apply follows_later.
Qed.

Lemma reserve_follows plan w : in_step w → wp (gateway_Reserve exportPath plan) w (λ r es w', follows w' (error_of r) es).
Proof.
  intros Hs. unfold gateway_Reserve. destruct (cp_Validate plan) as [[]|e] eqn:Hv; [|by apply wp_ret; left]. apply loaded_wp; [done|].
  intros node certificate w1 Hst _. destruct (negb _); [apply wp_ret; left; by eapply still_in_step|]. apply wp_bind, wp_call.
  intros r w2 Hst2%certificate_ensured. assert (Hs2 : in_step w2) by (eapply still_in_step; [|exact Hst2]; by eapply still_in_step).
  destruct r as [[]|e]; [|apply wp_ret; by left].
  destruct (next_copy _ ≫= _) as [candidate|e] eqn:Hc; [|apply wp_ret; by left]. ok_step Hc. apply next_copy_ok in G as (g & _ & ->). ok_step Hc. injection Hc as <-.
  apply wp_bind, wp_call. intros r w3 Hsave. apply wp_ret. left. eapply save_in_step; [exact Hs2| |exact Hsave].
  cbn [st_Exposes set_st_Exposes set_st_Generation]. rewrite items_append published_pending.
  - unfold cp_Validate in Hv. ok_inv Hv. facts. unfold expose_matches_plan in *. by facts.
  - by rewrite (proj1 Hst2) (proj1 Hst).
Qed.

(** An operation that loads the state and builds a candidate from it. *)
Lemma built_wp {S T} (build : result State → result S) (k : S → gateway_run (result T)) w : in_step w →
  (∀ e, ∃ e', build (Err e) = Err e') →
  (∀ s w', still w w' → build (Ok (authority w)) = Ok s → wp (k s) w' (λ r es w'', follows w'' (error_of r) es)) →
  wp (authority_load ≫= λ loaded, match build loaded with Err e => mret (Err e) | Ok s => k s end) w (λ r es w', follows w' (error_of r) es).
Proof.
  intros Hs Herr Hk. apply wp_bind, wp_call. intros r w1 [Hst Hr]%authority_loaded. destruct r as [state|e].
  - rewrite (Hr state eq_refl). destruct (build (Ok (authority w))) as [s|e] eqn:Hb; [|apply wp_ret; left; by eapply still_in_step].
    eapply wp_mono; [by apply Hk|]. intros r es w'' Hf. by apply follows_later.
  - destruct (Herr e) as [e' ->]. apply wp_ret. left. by eapply still_in_step.
Qed.

(** After the swap the answer is made; its error is that of the swap. *)
Lemma swapped_wp {T} exposeID state candidate (a : T) w w' : in_step w → still w w' → state = authority w →
  wp (swap_ingress exposeID state candidate ≫= λ swapped, mret (swapped;; Ok a)) w' (λ r es w'', follows w'' (error_of r) es).
Proof.
  intros Hs Hst ->. rewrite -(proj1 Hst). apply wp_bind. eapply wp_mono; [eapply swap_follows; by eapply still_in_step|]. intros r es w'' Hf. apply wp_ret.
  rewrite app_nil_r. by destruct r.
Qed.

Lemma saved_wp {T} state candidate (a : T) w w' : in_step w → still w w' → state = authority w →
  published (items (st_Exposes candidate)) = published (items (st_Exposes state)) →
  wp (authority_save (st_Generation state) candidate ≫= λ saved, mret (saved;; Ok a)) w' (λ r es w'', follows w'' (error_of r) es).
Proof.
  intros Hs Hst -> Hp. apply wp_bind, wp_call. intros r w2 Hsave. apply wp_ret. left. eapply save_in_step; [by eapply still_in_step| |exact Hsave].
  by rewrite (proj1 Hst).
Qed.

Lemma reserved_state_ok loaded reservation state : reserved_state loaded reservation = Ok state → loaded = Ok state.
Proof. unfold reserved_state. intros K. ok_inv K. injection K as <-. done. Qed.

Lemma publish_follows reservation effectiveState w : in_step w →
  wp (gateway_Publish reservation effectiveState) w (λ r es w', follows w' (error_of r) es).
Proof.
  intros Hs. unfold gateway_Publish. destruct (negb _); [by apply wp_ret; left|]. destruct (validateGatewayExposeReservationShape reservation); [|by apply wp_ret; left].
  apply (built_wp (λ loaded, state ← reserved_state loaded reservation; copy ← next_copy state;
    exposes ← change_first (er_ExposeID reservation) (publish_pending effectiveState) (items (st_Exposes copy));
    ValidateTransition state (set_st_Exposes (Some exposes) copy);; Ok (state, set_st_Exposes (Some exposes) copy))
    (λ '(state, candidate), swap_ingress (er_ExposeID reservation) state candidate ≫= λ swapped,
       mret (swapped;; Ok (MkExposeGatewayPublication (er_ExposeID reservation) (st_Generation candidate))))); [done|by eexists|].
  intros [state candidate] w' Hst Hb. ok_step Hb. apply reserved_state_ok in G as [= <-]. ok_inv Hb. injection Hb as <- <-. by eapply swapped_wp.
Qed.

Lemma abort_follows reservation w : in_step w → wp (gateway_Abort reservation) w (λ r es w', follows w' (error_of r) es).
Proof.
  intros Hs. unfold gateway_Abort. destruct (validateGatewayExposeReservationShape reservation); [|by apply wp_ret; left].
  apply (built_wp (λ loaded, state ← reserved_state loaded reservation; copy ← next_copy state;
    '(exposes, found) ← take_back (er_ExposeID reservation) (items (st_Exposes copy)); reject (negb found) expose_stale;;
    ValidateTransition state (set_st_Exposes (Some exposes) copy);; Ok (state, set_st_Exposes (Some exposes) copy))
    (λ '(state, candidate), authority_save (st_Generation state) candidate ≫= λ saved, mret (saved;; Ok (st_Generation candidate)))); [done|by eexists|].
  intros [state candidate] w' Hst Hb. ok_step Hb. apply reserved_state_ok in G as [= <-]. ok_step Hb. apply next_copy_ok in G as (g & _ & ->).
  ok_step Hb. destruct a0 as [exposes found]. apply take_back_ok in G as [-> Hpending]. ok_inv Hb. injection Hb as <- <-.
  eapply saved_wp; [done..|]. apply published_without. intros e He Hid. by rewrite (Hpending e He Hid).
Qed.

Lemma resolved_in exposes nodeID reference target : resolveExpose exposes nodeID reference = Ok target → target ∈ exposes.
Proof.
  unfold resolveExpose. intros K. ok_step K. destruct (filter _ exposes) as [|x [|]] eqn:Hf; try done. injection K as ->.
  assert (Hin : target ∈ [target]) by left. rewrite -Hf in Hin. by apply list_elem_of_filter in Hin as [_ Hin].
Qed.

Lemma same_expose (exposes : list Expose) e f : NoDup (expose_ID <$> exposes) → e ∈ exposes → f ∈ exposes → expose_ID e = expose_ID f → e = f.
Proof.
  intros Hn [i Hi]%list_elem_of_lookup [j Hj]%list_elem_of_lookup Heq.
  assert (i = j); [|congruence]. apply (NoDup_lookup _ i j (expose_ID e) Hn); rewrite list_lookup_fmap ?Hi ?Hj; cbn; congruence.
Qed.

Lemma gateway_NoDup state : is_gateway state = true → NoDup (expose_ID <$> items (st_Exposes state)).
Proof. unfold is_gateway. intros [[[] Hv]%is_ok_true _]%andb_true_iff. by destruct (records_NoDup _ Hv) as (_ & _ & _ & Hn). Qed.

Lemma finalize_follows unpublication w : in_step w → wp (gateway_FinalizeRemoval unpublication) w (λ r es w', follows w' (error_of r) es).
Proof.
  intros Hs. unfold gateway_FinalizeRemoval. destruct (_ || _ : bool); [by apply wp_ret; left|].
  apply (built_wp (λ loaded, released_state loaded unpublication)
    (λ '(state, candidate), authority_save (st_Generation state) candidate ≫= λ saved, mret (saved;; Ok (st_Generation candidate)))); [done|by eexists|].
  intros [state candidate] w' Hst Hb. unfold released_state in Hb. cbn [mbind result_bind] in Hb. ok_step Hb. apply orb_false_iff in G as [Hg _].
  apply negb_false_iff, gateway_NoDup in Hg. destruct (resolveExpose _ _ _) as [target|e] eqn:Ht; [|done]. ok_step Hb. ok_step Hb. ok_step Hb.
  apply next_copy_ok in G1 as (g & _ & ->). ok_inv Hb. injection Hb as <- <-. facts. eapply saved_wp; [done..|]. apply published_without.
  intros e He Hid. rewrite (same_expose _ _ _ Hg He (resolved_in _ _ _ _ Ht) Hid). by destruct (expose_State target).
Qed.

Lemma unpublish_follows plan w : in_step w → wp (gateway_Unpublish plan) w (λ r es w', follows w' (error_of r) es).
Proof.
  intros Hs. unfold gateway_Unpublish. destruct (rm_Validate plan); [|by apply wp_ret; left]. apply wp_attempt. unfold loadGatewayExposeNode.
  destruct (negb _); [by apply wp_ret; left|]. apply wp_bind, wp_call. intros r w1 [Hst Hr]%authority_loaded. apply wp_ret.
  destruct r as [state|e]; [|left; by eapply still_in_step]. rewrite (Hr state eq_refl). cbn [mbind result_bind].
  destruct (hosting_node (authority w) (expose_NodeID (rm_Expose plan))) as [[state' node]|e] eqn:Hg; [|left; by eapply still_in_step].
  assert (state' = authority w) as ->. { unfold hosting_node in Hg. ok_step Hg. destruct (list_find _ _) as [[i n]|]; [|done]. by injection Hg. }
  eapply wp_mono; [|intros r es w'' Hf; apply follows_later; exact Hf].
  destruct (negb _); [apply wp_ret; left; by eapply still_in_step|]. case_bool_decide; [apply wp_ret; left; by eapply still_in_step|].
  destruct (next_copy _ ≫= _) as [candidate|e]; [by eapply swapped_wp|apply wp_ret; left; by eapply still_in_step].
Qed.

(** Deferred creations are registered by the writer of the program; what draws its identities
    and its time changes nothing. *)
Context (draw : W → (generator * time) * W).
Class FaithfulWriter : Prop := {
  drawn_still w r w' : draw w = (r, w') → still w w';
  written_by_program plan w r w' : gh_Register plan w = (r, w') → ∃ cancelled es, deferred_Register (A := A) draw cancelled plan w = (r, es, w')
}.
Context {Hwriter : FaithfulWriter}.

Lemma deferred_state_ok plan draws at_ state candidate registration : deferred_state plan draws at_ state = Ok (candidate, registration) →
  items (st_Exposes candidate) = items (st_Exposes state) ++ [cp_Expose plan].
Proof.
  unfold deferred_state. intros K. ok_step K. ok_step K. destruct a as [operationID draws']. ok_step K. ok_step K. ok_step K. apply clone_same in G3 as ->.
  ok_step K. injection K as <- _. apply items_append.
Qed.

Lemma register_in_step cancelled plan w : in_step w → wp (deferred_Register (A := A) draw cancelled plan) w (λ _ _ w', in_step w').
Proof.
  intros Hs. unfold deferred_Register. destruct cancelled; [by apply wp_ret|]. destruct (cp_Validate plan) as [[]|e] eqn:Hv; [|by apply wp_ret].
  apply wp_bind, wp_call. intros r w1 [Hst Hr]%authority_loaded. apply wp_bind, wp_call. intros drawn w2 Hd%drawn_still.
  assert (Hs2 : in_step w2) by (eapply still_in_step; [by eapply still_in_step|done]).
  destruct r as [state|e]; [|by apply wp_ret]. rewrite (Hr state eq_refl). cbn [mbind result_bind].
  destruct (deferred_state _ _ _ _) as [[candidate registration]|e] eqn:Hc; [|by apply wp_ret]. cbn [mbind result_bind].
  apply wp_bind, wp_call. intros r w3 Hsave. apply wp_ret. eapply save_in_step; [exact Hs2| |exact Hsave].
  rewrite (deferred_state_ok _ _ _ _ _ _ Hc) published_pending; [|by rewrite (proj1 Hd) (proj1 Hst)].
  unfold cp_Validate in Hv. ok_inv Hv. facts. unfold expose_matches_plan in *. by facts.
Qed.

Lemma defer_follows plan w : in_step w → wp (gateway_Defer (A := A) exportPath plan) w (λ r es w', follows w' (error_of r) es).
Proof.
  intros Hs. unfold gateway_Defer. destruct (cp_Validate plan); [|by apply wp_ret; left]. apply loaded_wp; [done|].
  intros node certificate w1 Hst _. destruct (negb _); [apply wp_ret; left; by eapply still_in_step|]. apply wp_bind, wp_call.
  intros r w2 (cancelled & es & Hrun)%written_by_program. apply wp_ret. left.
  eapply (wp_run _ _ (λ _ _ w', in_step w')) in Hrun; [exact Hrun|]. apply register_in_step. by eapply still_in_step.
Qed.

(** One operation of the service that changes the state. *)
Inductive service_ran (w : W) : option error → list (gateway_event A) → W → Prop :=
  | ran_reserve plan r es w' : gateway_Reserve exportPath plan w = (r, es, w') → service_ran w (error_of r) es w'
  | ran_publish reservation effectiveState r es w' : gateway_Publish reservation effectiveState w = (r, es, w') → service_ran w (error_of r) es w'
  | ran_abort reservation r es w' : gateway_Abort reservation w = (r, es, w') → service_ran w (error_of r) es w'
  | ran_defer plan r es w' : gateway_Defer exportPath plan w = (r, es, w') → service_ran w (error_of r) es w'
  | ran_unpublish plan r es w' : gateway_Unpublish plan w = (r, es, w') → service_ran w (error_of r) es w'
  | ran_finalize unpublication r es w' : gateway_FinalizeRemoval unpublication w = (r, es, w') → service_ran w (error_of r) es w'.

End gateway.

(** The gateway of the samples: what an activation keeps is what was served before it. *)
#[export] Instance sample_gateway_faithful : FaithfulGateway (A := list Expose) gwd_State gwd_Serving ia_private.
Proof.
  split.
  - intros w r w' [= <- <-]. split; [done|]. by intros state [= <-].
  - intros expected candidate w r w'. cbn. destruct (_ =? _)%N; intros [= <- <-]; [done|]. split; [done|]. by left.
  - by intros state path w r w' [= <- <-].
  - intros before candidate w r w'. cbn. by destruct (changedGatewayExposeID _ _); intros [= <- <-].
  - by intros a w r w' [= <- <-].
  - by intros a bound w r w' [= <- <-].
Qed.

#[export] Instance sample_writer_faithful : FaithfulWriter (A := list Expose) gwd_State gwd_Serving gateway_draw.
Proof.
  split; [by intros w r w' [= <- <-]|]. intros plan w r w'. cbn [gh_Register gateway_hosts].
  destruct (deferred_Register gateway_draw None plan w) as [[r1 es] w1] eqn:Hrun. intros [= <- <-]. by exists None, es.
Qed.

Definition sample_reservation : ExposeGatewayReservation := MkExposeGatewayReservation (uuid "31") 9 10.
Definition reserved_gateway : gateway_world := gateway_at (gateway_exposes_state 10 [other_expose; new_expose ExposePending]).


(** * A planned expose is exclusive and accepted

    What the gateway plans is free in its whole namespace: identifier, route, name and port;
    and the plan is accepted while the state is the one it was made for. *)

(** ** Names *)

Definition is_ascii (c : ascii) : bool := (code c <? 128)%N.

Lemma ascii_fold s : str_forall is_ascii s = true → map_case [long_s] [kelvin_sign] s = ToLower s.
Proof.
  induction s as [|a s IH]; [done|]. cbn [str_forall]. intros [Ha Hs]%andb_true_iff. unfold is_ascii in Ha. apply N.ltb_lt in Ha.
  specialize (IH Hs). destruct s as [|b s]; [done|]. cbn [map_case] in IH |- *.
  assert (list_find (λ p : list N * ascii, p.1 = [code a; code b]) [long_s] = None) as ->.
  { cbn. rewrite decide_False //. intros [= Heq _]. lia. }
  destruct s as [|c s]; [by rewrite IH|].
  assert (list_find (λ p : list N * ascii, p.1 = [code a; code b; code c]) [kelvin_sign] = None) as ->.
  { cbn. rewrite decide_False //. intros [= Heq _]. lia. }
  by rewrite IH.
Qed.

Lemma tail_ascii c : name_tail c = true → is_ascii c = true.
Proof. by destruct c as [[] [] [] [] [] [] [] []]. Qed.

Lemma head_ascii c : alnum c = true → is_ascii c = true.
Proof. intros Hc. apply tail_ascii. unfold name_tail. by rewrite Hc. Qed.

Lemma name_ascii s : matches namePattern s = true → str_forall is_ascii s = true.
Proof. apply matches_chars. cbn -[is_ascii name_tail alnum]. split_and!; exact tail_ascii || exact head_ascii || done. Qed.

Lemma valid_expose_name e : expose_Validate e = Ok () → expose_Name e ≠ "" → matches namePattern (expose_Name e) = true.
Proof.
  unfold expose_Validate. intros H Hne. do 4 ok_step H. apply String.eqb_neq in Hne. rewrite Hne in G2. unfold validateName in G2. apply reject_ok in G2. by facts.
Qed.

(** ** Routes *)

Lemma overlap_sym r s : overlap r s = overlap s r.
Proof.
  unfold overlap, ExposeRoutesOverlap. destruct (rt_mode r), (rt_mode s); try done; [apply String.eqb_sym|apply orb_comm].
Qed.

Lemma conflict_none existing mode path f : findExposeRouteConflict existing mode path = None → f ∈ existing → active_expose f →
  ExposeRoutesOverlap (expose_RouteMode f) (expose_Path f) mode path = false.
Proof.
  unfold findExposeRouteConflict. intros Hn Hf Ha. destruct (list_find _ existing) as [[i x]|] eqn:E; [done|].
  apply list_find_None in E. rewrite Forall_forall in E. apply not_true_iff_false. intros Ho. by apply (E f Hf).
Qed.

Lemma generated_free runtime attempts attempt existing path : generatePath runtime attempts attempt existing = Ok path →
  findExposeRouteConflict existing RouteExact path = None.
Proof.
  revert attempt. induction attempts as [|attempts IH]; intros attempt; cbn; [done|]. destruct (nr_Entropy runtime attempt) as [raw|]; [|done].
  destruct (findExposeRouteConflict existing RouteExact (generated_path raw)) eqn:E; [apply IH|]. by intros [= <-].
Qed.

Lemma planned_free runtime namespace request path : let mode := if cr_Prefix request then RoutePrefix else RouteExact in
  plan_path runtime namespace request mode = Ok path → findExposeRouteConflict (ns_Existing namespace) mode path = None.
Proof.
  cbn zeta. unfold plan_path. destruct (String.eqb (cr_Path request) "").
  - intros K. ok_step K. facts. rewrite G in K |- *. by eapply generated_free.
  - intros K. ok_step K. destruct (findExposeRouteConflict _ _ _) eqn:E; [done|]. by injection K as <-.
Qed.

Lemma checked_name namespace name f : check_name namespace name = Ok () → name ≠ "" → f ∈ ns_Existing namespace → expose_Validate f = Ok () →
  expose_NodeID f = ns_NodeID namespace → expose_Name f ≠ "" → ToLower (expose_Name f) ≠ ToLower name.
Proof.
  unfold check_name. intros K Hne [i Hi]%list_elem_of_lookup Hv Hnode Hf Heq. apply String.eqb_neq in Hne. rewrite Hne in K. ok_step K.
  rewrite range_check_ok in K. specialize (K i f Hi). apply reject_ok in K. rewrite Hnode String.eqb_refl in K. apply String.eqb_neq in Hf as Hf'. rewrite Hf' in K.
  apply negb_false_iff, is_ok_true in G as [u Hname]. unfold ValidateExposeName, validateName in Hname. apply reject_ok, negb_false_iff in Hname.
  unfold EqualFold in K. rewrite (ascii_fold _ (name_ascii _ (valid_expose_name _ Hv Hf))) (ascii_fold _ (name_ascii _ Hname)) Heq String.eqb_refl in K. done.
Qed.

(** ** Plans *)

Record exclusive (existing : list Expose) (plan : ExposePlan) : Prop := {
  ex_id f : f ∈ existing → expose_ID f ≠ ep_ExposeID plan;
  ex_route f : f ∈ existing → active_expose f → ExposeRoutesOverlap (expose_RouteMode f) (expose_Path f) (ep_RouteMode plan) (ep_Path plan) = false;
  ex_name f : f ∈ existing → expose_Validate f = Ok () → expose_NodeID f = ep_NodeID plan → expose_Name f ≠ "" → ep_Name plan ≠ "" →
    ToLower (expose_Name f) ≠ ToLower (ep_Name plan)
}.

Lemma normalized_exclusive runtime namespace request plan : expose_Normalize runtime namespace request = Ok plan →
  exclusive (ns_Existing namespace) plan ∧ ep_NodeID plan = ns_NodeID namespace ∧ ep_ExpectedStateGeneration plan = ns_StateGeneration namespace.
Proof.
  unfold expose_Normalize. intros K. do 7 ok_step K. destruct a4 as [exposeID occupied]. do 2 ok_step K. injection K as <-. units. split; [|done].
  constructor; cbn.
  - intros f Hf Heq. destruct (AllocateUUID _ _ _) as [r cursor] eqn:Hu. cbn in G5. subst r.
    apply AllocateUUID_fresh in Hu as (Hn & _ & _). apply Hn. rewrite elem_of_list_to_set -Heq. by apply list_elem_of_fmap_2.
  - intros f Hf Ha. eapply conflict_none; [|done|done]. by eapply planned_free.
  - intros f Hf Hv Hnode Hne Hne'. by eapply checked_name.
Qed.

(** ** Ports *)

Lemma assigned_exposes exposes assignments :
  range (λ _ expose assignments, wrap "persisted expose" (expose_Validate expose);; Ok (assignments ++ [MkPortAssignment (expose_ID expose) (expose_TunnelPort expose)]))
    exposes [] = Ok assignments → assignments = (λ e, MkPortAssignment (expose_ID e) (expose_TunnelPort e)) <$> exposes.
Proof.
  intros K. refine (range_inv _ (λ p l, l = (λ e, MkPortAssignment (expose_ID e) (expose_TunnelPort e)) <$> p) _ [] assignments _ _ K); [|done].
  clear. intros p e q l l' _ -> Hb. ok_step Hb. injection Hb as <-. by rewrite fmap_app.
Qed.

Lemma unavailable_collected first last ports un p : collect_unavailable first last ports = Ok un → p ∈ ports → (first ≤ p ≤ last)%Z → p ∈ un.
Proof.
  intros K Hp Hr. refine (range_inv _ (λ q un, p ∈ q → p ∈ un) _ ∅ un _ _ K Hp); [|set_solver].
  clear -Hr. intros q x rest un un' _ IH Hb. ok_step Hb. injection Hb as <-. intros [Hq|Hx%list_elem_of_singleton]%elem_of_app.
  - destruct (_ && _); set_solver.
  - subst x. assert (((first <=? p) && (p <=? last))%Z = true) as ->; [|set_solver]. apply andb_true_iff. rewrite !Z.leb_le. lia.
Qed.

(** The port of a new expose in an allocator that needed no repair. *)
Lemma allocated_port exposes unavailable allocator id allocator' port :
  DefaultLoopbackAllocatorFromExposes exposes (foreign_ports exposes unavailable) = Ok (allocator, []) → (∀ f, f ∈ exposes → expose_ID f ≠ id) →
  lb_Allocate allocator id = Ok (allocator', port) →
  (DefaultLoopbackPortFirst ≤ port ≤ DefaultLoopbackPortLast)%Z ∧ (port ∉ expose_TunnelPort <$> exposes) ∧ (port ∉ unavailable).
Proof.
  unfold DefaultLoopbackAllocatorFromExposes, DefaultLoopbackAllocator. intros K Hfresh Ha. ok_step K. apply assigned_exposes in G as ->.
  apply Restore_ok in K as (Hwf & Hf & Hl & _ & Hun & Hkept & Hr & Hids).
  assert (Hall : ∀ x, x ∈ ((λ e, MkPortAssignment (expose_ID e) (expose_TunnelPort e)) <$> exposes) →
    usable DefaultLoopbackPortFirst DefaultLoopbackPortLast (lb_unavailable allocator) x = true).
  { apply Forall2_nil_inv_r in Hr. intros x Hx. apply not_false_iff_true. intros Hu. assert (Hin : x ∈ ([] : list PortAssignment)); [|by apply not_elem_of_nil in Hin].
    rewrite -Hr. apply list_elem_of_filter. split; [done|]. by rewrite merge_sort_Permutation. }
  assert (Hfresh_ids : ∀ id, id ∈ pa_ExposeID <$> ((λ e, MkPortAssignment (expose_ID e) (expose_TunnelPort e)) <$> exposes) → ∃ f, f ∈ exposes ∧ expose_ID f = id).
  { intros i. rewrite -list_fmap_compose. intros (f & -> & Hin)%list_elem_of_fmap. by exists f. }
  apply lb_Allocate_ok in Ha as (_ & [(_ & x & Hx & _)|(_ & _ & (Hrange & Hused & Hfree) & _)]).
  - destruct (Hfresh_ids id) as (f & Hf' & Hid); [apply Hids; by rewrite /lb_Lookup Hx|]. by destruct (Hfresh f).
  - split; [by rewrite -Hf -Hl|]. rewrite Hf Hl in Hrange. assert (Hports : port ∉ expose_TunnelPort <$> exposes).
    { intros (f & -> & Hin)%list_elem_of_fmap.
      assert (Hlook : lb_Lookup allocator (expose_ID f) = Some (expose_TunnelPort f)).
      { apply (Hkept (MkPortAssignment (expose_ID f) (expose_TunnelPort f))); [apply list_elem_of_fmap; by exists f|]. by apply Hall, list_elem_of_fmap; exists f. }
      unfold lb_Lookup in Hlook. apply fmap_Some in Hlook as (x & Hx & Hp). destruct (lb_assigned _ Hwf _ _ Hx) as (_ & _ & _ & Hu). congruence. }
    split; [done|]. intros Hin. apply Hfree. eapply unavailable_collected; [exact Hun| |exact Hrange]. by apply list_elem_of_filter.
Qed.

(** ** What the gateway plans *)

Lemma gateway_resources_ok state nodeID state' node certificate : gateway_resources state nodeID = Ok (state', node, certificate) →
  state' = state ∧ Validate state = Ok () ∧ host_Role (st_Host state) = RoleGateway ∧ node ∈ items (st_Nodes state) ∧ node_ID node = nodeID ∧
  node_Lifecycle node = LifecycleActive.
Proof.
  unfold gateway_resources. intros K. ok_step K. apply negb_false_iff, andb_true_iff in G as [[[] Hv]%is_ok_true Hr%bool_decide_eq_true].
  destruct (list_find _ _) as [[i n]|] eqn:Hf; [|done]. apply list_find_Some in Hf as (Hi & Hid & _). ok_step K. ok_step K. facts.
  injection K as <- <- <-. split_and!; try done. by eapply list_elem_of_lookup_2.
Qed.

Lemma plan_snapshot_ok exportPath state node certificate unavailable runtime request snapshot :
  plan_snapshot exportPath state node certificate unavailable runtime request = Ok snapshot →
  let existing := items (st_Exposes state) in
  exclusive existing (gs_Normalized snapshot) ∧ ep_NodeID (gs_Normalized snapshot) = node_ID node ∧
  (DefaultLoopbackPortFirst ≤ gs_TunnelPort snapshot ≤ DefaultLoopbackPortLast)%Z ∧ (gs_TunnelPort snapshot ∉ expose_TunnelPort <$> existing) ∧
  (gs_TunnelPort snapshot ∉ unavailable) ∧
  snapshot = MkExposeGatewaySnapshot (host_ID (st_Host state)) (st_Generation state) (host_PublicIPv4 (st_Host state)) node (gs_Normalized snapshot)
               (gs_TunnelPort snapshot) certificate exportPath.
Proof.
  cbn zeta. unfold plan_snapshot. intros K. ok_step K. apply normalized_exclusive in G as (Hex & Hnode & _). cbn [ns_Existing ns_NodeID] in Hex, Hnode.
  ok_step K. destruct a0 as [allocator remaps]. ok_step K. apply negb_false_iff, Nat.eqb_eq, nil_length_inv in G0 as ->.
  ok_step K. destruct a0 as [allocator' port]. ok_step K. injection K as <-. cbn [gs_Normalized gs_TunnelPort].
  destruct (allocated_port _ _ _ _ _ _ G (ex_id _ _ Hex) G0) as ([] & Hp & Hu). by split_and!.
Qed.

(** The exposes with the planned one are a set a state may hold. *)
Lemma planned_fit state nodes plan port node : Validate state = Ok () → exclusive (items (st_Exposes state)) plan →
  (port ∉ expose_TunnelPort <$> items (st_Exposes state)) → expose_Validate (planned_expose plan port) = Ok () →
  keyed node_ID (items (st_Nodes state)) nodes → node ∈ items (st_Nodes state) → node_ID node = ep_NodeID plan → node_Lifecycle node = LifecycleActive →
  exposes_fit nodes (items (st_Exposes state) ++ [planned_expose plan port]).
Proof.
  intros Hv Hex Hport He Hk Hn Hid Hlife. apply Validate_parts in Hv as (nodes' & clients & presets & policies & states & operations & Hp).
  destruct (valid_collections _ _ _ _ _ _ _ Hp) as (Hk' & _). destruct (vp_exposes _ _ _ _ _ _ _ Hp) as [seen Hseen].
  assert (nodes' = nodes) as ->. { apply map_eq. intros i. apply option_eq. intros x. by rewrite (proj2 Hk') (proj2 Hk). }
  apply validate_exposes_fit in Hseen as [Hi Hpo Hro Hna Hea]. constructor.
  - rewrite fmap_app. apply NoDup_app. split_and!; [done| |apply NoDup_singleton]. intros x (f & -> & Hf)%list_elem_of_fmap Hx%list_elem_of_singleton.
    by apply (ex_id _ _ Hex f).
  - rewrite fmap_app. apply NoDup_app. split_and!; [done| |apply NoDup_singleton]. intros x Hx ->%list_elem_of_singleton. done.
  - intros e f [He'| ->%list_elem_of_singleton]%elem_of_app [Hf'| ->%list_elem_of_singleton]%elem_of_app Hae Haf Hne; [by apply Hro| | |done].
    + by apply (ex_route _ _ Hex e).
    + rewrite overlap_sym. by apply (ex_route _ _ Hex f).
  - rewrite filter_app fmap_app. apply NoDup_app. split_and!; [done| |].
    + intros x (f & -> & [Hne Hf]%list_elem_of_filter)%list_elem_of_fmap (g & Heq & [Hne' ->%list_elem_of_singleton]%list_elem_of_filter)%list_elem_of_fmap.
      injection Heq as Hnode Hname. by apply (ex_name _ _ Hex f Hf (proj1 (Hea f Hf))).
    + rewrite filter_cons filter_nil. case_decide; [apply NoDup_singleton|constructor].
  - intros e [He'| ->%list_elem_of_singleton]%elem_of_app; [by apply Hea|]. split; [done|]. exists node. split; [by apply Hk|]. by rewrite Hlife.
Qed.

(** The transition to the state with the planned expose is accepted. *)
Lemma planned_accepted exportPath state nodeID node certificate unavailable runtime request snapshot local g :
  gateway_resources state nodeID = Ok (state, node, certificate) → plan_snapshot exportPath state node certificate unavailable runtime request = Ok snapshot →
  cp_Validate (create_plan_of local snapshot) = Ok () → NextGeneration (st_Generation state) = Ok g →
  accepted state (with_exposes (items (st_Exposes state) ++ [cp_Expose (create_plan_of local snapshot)]) g state).
Proof.
  intros Hres Hsnap Hvalid Hg. destruct (gateway_resources_ok _ _ _ _ _ Hres) as (_ & Hv & Hrole & Hin & Hid & Hlife).
  destruct (plan_snapshot_ok _ _ _ _ _ _ _ _ Hsnap) as (Hex & Hnode & _ & Hport & _).
  assert (He : expose_Validate (planned_expose (gs_Normalized snapshot) (gs_TunnelPort snapshot)) = Ok ()).
  { unfold cp_Validate in Hvalid. ok_step Hvalid. ok_step Hvalid. by apply negb_false_iff, is_ok_true in G0 as [[] ?]. }
  apply exposes_accepted; [done..| |].
  - intros nodes Hk. cbn. apply (planned_fit _ _ _ _ node); done.
  - intros e He'. destruct (records_NoDup _ Hv) as (_ & _ & _ & Hn). apply elem_of_app in He' as [Hold| ->%list_elem_of_singleton].
    + rewrite (index_by_in expose_ID _ e Hn Hold). cbn. split_and!; [done..|by left].
    + destruct (index_by expose_ID _ !! _) as [old|] eqn:Hi; [|done]. apply index_by_some in Hi as [Hold Heq]; [|done]. by apply (ex_id _ _ Hex old) in Hold.
Qed.

(** ** The reservation *)

Section reserve.
Context `{!JSONTokens, !JSONValue State, !FaithfulStateCodec} {W A : Type} `{!ExposeStateStore W, !GatewayExposeHosts W A} (exportPath : string).
Variables (authority : W → State) (serving : W → list Expose) (served_before : GatewayExposeIngressActivation A → list Expose).
Context {Hgateway : FaithfulGateway authority serving served_before}.

(** A call of the store or of the certificate exporter that failed. *)
Definition call_failed (event : gateway_event A) : Prop :=
  match event with AuthorityLoaded (Err _) | AuthoritySaved _ _ (Err _) | CertificateEnsured (Err _) => True | _ => False end.

Lemma failed_in event es : event ∈ es → call_failed event → Exists call_failed es.
Proof. intros Hin Hf. apply Exists_exists. by exists event. Qed.

Lemma gateway_plan_ok nodeID request w snapshot es w' : gateway_Plan exportPath nodeID request w = (Ok snapshot, es, w') →
  ∃ node certificate unavailable runtime, gateway_resources (authority w) nodeID = Ok (authority w, node, certificate) ∧
    PortsInspected (Ok unavailable) ∈ es ∧ plan_snapshot exportPath (authority w) node certificate unavailable runtime request = Ok snapshot.
Proof.
  intros Hrun. refine (wp_run _ _ (λ r es _, r = Ok snapshot → ∃ node certificate unavailable runtime, _) _ _ _ _ Hrun eq_refl). clear Hrun es w'.
  unfold gateway_Plan. destruct (negb _); [by apply wp_ret|]. apply wp_attempt. unfold loadGatewayResources. apply wp_bind, wp_call.
  intros r w1 [Hst Hr]%(authority_loaded authority serving served_before). apply wp_ret. destruct r as [state|e]; [|done]. rewrite (Hr state eq_refl). cbn [mbind result_bind].
  destruct (gateway_resources (authority w) nodeID) as [[[state' node] certificate]|e] eqn:Hg; [|done]. apply gateway_resources_ok in Hg as Hg'. destruct Hg' as (-> & _).
  apply wp_bind, wp_call. intros ports w2 Hports. destruct ports as [unavailable|e]; [|by apply wp_ret]. apply wp_bind, wp_call. intros runtime w3 Hn. apply wp_ret.
  intros Hs. exists node, certificate, unavailable, runtime. split_and!; [done| |done]. set_solver.
Qed.

Lemma current_plan state node certificate local normalized port :
  let snapshot := MkExposeGatewaySnapshot (host_ID (st_Host state)) (st_Generation state) (host_PublicIPv4 (st_Host state)) node normalized port certificate exportPath in
  plan_current (create_plan_of local snapshot) state certificate exportPath = true.
Proof. cbn zeta. unfold plan_current. cbn. by rewrite N.eqb_refl !String.eqb_refl bool_decide_eq_true_2. Qed.

(** C16: what the gateway plans is exclusive and reservable.  The planned expose has an
    identifier and a port that no expose has, in the range of the gateway and outside the
    ports in use, its route overlaps that of no expose that is not disabled, and its name is
    not one of the node's, whatever its case; and when the node asks for the reservation of
    a valid plan while the state is the one it was planned for, the gateway grants it, with
    the next generation and the expose as the only change, unless a call to the store or to
    the certificate exporter fails. *)
Theorem planned_expose_is_reserved nodeID request w snapshot es w1 local w2 g :
  gateway_Plan exportPath nodeID request w = (Ok snapshot, es, w1) → authority w2 = authority w →
  cp_Validate (create_plan_of local snapshot) = Ok () → cloneExposeState (authority w) = Ok (authority w) →
  NextGeneration (st_Generation (authority w)) = Ok g →
  let plan := create_plan_of local snapshot in
  let existing := items (st_Exposes (authority w)) in
  (exclusive existing (gs_Normalized snapshot) ∧ (gs_TunnelPort snapshot ∉ expose_TunnelPort <$> existing) ∧
   (DefaultLoopbackPortFirst ≤ gs_TunnelPort snapshot ≤ DefaultLoopbackPortLast)%Z ∧
   ∃ unavailable, PortsInspected (Ok unavailable) ∈ es ∧ (gs_TunnelPort snapshot ∉ unavailable)) ∧
  wp (gateway_Reserve exportPath plan) w2 (λ r es' w3, Exists call_failed es' ∨
    r = Ok (MkExposeGatewayReservation (expose_ID (cp_Expose plan)) (st_Generation (authority w)) g) ∧
    accepted (authority w) (authority w3) ∧ authority w3 = with_exposes (existing ++ [cp_Expose plan]) g (authority w)).
Proof.
  intros Hrun Hsame Hvalid Hclone Hg. apply gateway_plan_ok in Hrun as (node & certificate & unavailable & runtime & Hres & Hports & Hsnap).
  destruct (plan_snapshot_ok _ _ _ _ _ _ _ _ Hsnap) as (Hex & Hnode & [Hfirst Hlast] & Hport & Hun & Heq).
  cbn zeta. split; [split_and!; try done; by exists unavailable|]. assert (Hacc := planned_accepted _ _ _ _ _ _ _ _ _ _ _ Hres Hsnap Hvalid Hg).
  assert (Hid : expose_NodeID (cp_Expose (create_plan_of local snapshot)) = nodeID).
  { cbn. rewrite Hnode. by apply gateway_resources_ok in Hres as (_ & _ & _ & _ & ? & _). }
  unfold gateway_Reserve. rewrite Hvalid Hid. apply wp_attempt. unfold loadGatewayResources. apply wp_bind, wp_call.
  intros r w3 [Hst Hr]%(authority_loaded authority serving served_before). apply wp_ret. destruct r as [state|e]; [|left; by apply (failed_in (AuthorityLoaded (Err e))); [set_solver|]].
  rewrite (Hr state eq_refl) Hsame. cbn [mbind result_bind]. rewrite Hres. cbn beta iota.
  rewrite {1}Heq current_plan. cbn [negb]. apply wp_bind, wp_call.
  intros r w4 Hst'%(certificate_ensured authority serving served_before). destruct r as [[]|e]; [|apply wp_ret; left; by apply (failed_in (CertificateEnsured (Err e))); [set_solver|]].
  unfold next_copy. rewrite Hclone Hg. cbn [mbind result_bind].
  assert (Hc : set_st_Exposes (append (st_Exposes (set_st_Generation g (authority w))) [cp_Expose (create_plan_of local snapshot)]) (set_st_Generation g (authority w)) =
    with_exposes (items (st_Exposes (authority w)) ++ [cp_Expose (create_plan_of local snapshot)]) g (authority w)).
  { unfold with_exposes. f_equal. cbn. by destruct (st_Exposes (authority w)). }
  rewrite Hc Hacc. cbn [wrap mbind result_bind]. apply wp_bind, wp_call.
  intros r w5 [_ Hsaved]%(authority_saved authority serving served_before). apply wp_ret. destruct r as [[]|e]; [right|left; rewrite !Exists_app !Exists_cons /=; tauto].
  rewrite Hsaved. split_and!; done.
Qed.
End reserve.

Lemma planned_expose_is_reserved_witness : let w := gateway_at gateway_start in
  let reserved := gateway_Reserve (A := list Expose) sample_export_path sample_create_plan w in
  reserved.1.1 = Ok (MkExposeGatewayReservation (uuid "31") 9 10) ∧
  (Exists call_failed reserved.1.2 ∨
   reserved.1.1 = Ok (MkExposeGatewayReservation (uuid "31") 9 10) ∧ accepted gateway_start (gwd_State reserved.2) ∧
   gwd_State reserved.2 = with_exposes [other_expose; new_expose ExposePending] 10 gateway_start).
Proof.
  cbv zeta. split; [by vm_compute|].
  assert (Hplan : gateway_Plan (A := list Expose) sample_export_path (uuid "11") sample_request (gateway_at gateway_start) =
    (Ok sample_snapshot, [AuthorityLoaded (Ok gateway_start); PortsInspected (Ok [20003%Z])], gateway_at gateway_start)).
  { unfold gateway_Plan. cbn. by vm_compute. }
  assert (Hclone : cloneExposeState gateway_start = Ok gateway_start) by by vm_compute.
  assert (Hnext : NextGeneration (st_Generation gateway_start) = Ok 10%N) by done.
  destruct (planned_expose_is_reserved sample_export_path gwd_State gwd_Serving ia_private (uuid "11") sample_request (gateway_at gateway_start)
    sample_snapshot _ _ node_start (gateway_at gateway_start) 10 Hplan eq_refl sample_plan_valid Hclone Hnext) as [_ Hreserved].
  destruct (gateway_Reserve sample_export_path sample_create_plan (gateway_at gateway_start)) as [[r es] w'] eqn:Hrun.
  exact (wp_run _ _ _ _ _ _ Hreserved Hrun).
Defined.
