(* ===== verification/ExposeAgreement.v ===== *)
(** * Node and gateway agree on the exposes of the node

    Both sagas run against the gateway's service itself: after a creation or a removal that
    returns success the node and the gateway hold the same exposes of the node. *)

From S2P Require Import Prelude GoTime GoText GoNet GoConv Proc Types Checks Identity Address Expose Idempotency Resources StateValidate Codec Samples StateFacts Operation Transition Loopback ExposePlan Tunnel ExposeSaga ExposeStates ExposeSamples ExposeSagaFacts ExposeGatewayFacts ExposeGateway.

Local Open Scope string_scope.
Local Open Scope list_scope.

(** The expose with an identifier is the one resolved, since no other bears it. *)
Lemma resolved_by_id exposes f target : NoDup (expose_ID <$> exposes) → f ∈ exposes →
  resolveExpose exposes (exposeOwner exposes (expose_ID f)) (expose_ID f) = Ok target → target = f.
Proof.
  intros Hn Hf. unfold resolveExpose. intros K. ok_step K.
  assert (Howner : exposeOwner exposes (expose_ID f) = expose_NodeID f).
  { unfold exposeOwner. destruct (list_find _ exposes) as [[i x]|] eqn:Hx.
    - apply list_find_Some in Hx as (Hi & Hid & _). rewrite (same_expose exposes x f) //. by eapply list_elem_of_lookup_2.
    - apply list_find_None in Hx. rewrite Forall_forall in Hx. by destruct (Hx f Hf). }
  assert (Hin : f ∈ filter (λ e, refers_to (exposeOwner exposes (expose_ID f)) (expose_ID f) e = true) exposes).
  { apply list_elem_of_filter. split; [|done]. unfold refers_to. by rewrite Howner !String.eqb_refl. }
  destruct (filter _ exposes) as [|x [|]]; try done. injection K as ->. by apply list_elem_of_singleton in Hin.
Qed.

(** ** What a call of the service that succeeds has stored *)

Section gateway.
Context `{!JSONTokens, !JSONValue State, !FaithfulStateCodec} {W A : Type} `{!ExposeStateStore W, !GatewayExposeHosts W A} (exportPath : string).
Variables (authority : W → State) (serving : W → list Expose) (served_before : GatewayExposeIngressActivation A → list Expose).
Context {Hgateway : FaithfulGateway authority serving served_before}.

Local Abbreviation exposes_of w := (items (st_Exposes (authority w))).

Lemma swapped_stored {T} exposeID state candidate (a : T) w :
  wp (swap_ingress exposeID state candidate ≫= λ swapped, mret (swapped;; Ok a)) w (λ r _ w', ∀ b, r = Ok b → b = a ∧ authority w' = candidate).
Proof.
  apply wp_bind. unfold swap_ingress. apply wp_bind, wp_call. intros r w1 [Ha _]%(ingress_activated authority serving served_before).
  destruct r as [activation|e]; [|by apply wp_ret, wp_ret]. destruct (_ || _ : bool); [by apply wp_ret, wp_ret|]. apply wp_bind, wp_call.
  intros r w2 [_ Hr]%(authority_saved authority serving served_before). destruct r as [[]|e].
  - apply wp_bind, wp_call. intros r w3 [Hs _]%(ingress_committed authority serving served_before). apply wp_ret, wp_ret. intros b.
    destruct r as [[]|e]; [|done]. intros [= <-]. split; [done|]. by rewrite Hs.
  - apply wp_bind, wp_call. intros r w3 _. apply wp_ret, wp_ret. by destruct r.
Qed.

Lemma reserve_stored plan w : wp (gateway_Reserve exportPath plan) w (λ r _ w', ∀ b, r = Ok b →
  accepted (authority w) (authority w') ∧ exposes_of w' = exposes_of w ++ [cp_Expose plan]).
Proof.
  unfold gateway_Reserve. destruct (cp_Validate plan); [|by apply wp_ret]. apply wp_attempt. unfold loadGatewayResources. apply wp_bind, wp_call.
  intros r w1 [[Hst _] Hr]%(authority_loaded authority serving served_before). apply wp_ret. destruct r as [state|e]; [|done]. rewrite (Hr state eq_refl). cbn [mbind result_bind].
  destruct (gateway_resources _ _) as [[[state' node] certificate]|e] eqn:Hg; [|done].
  assert (state' = authority w) as ->.
  { unfold gateway_resources in Hg. ok_step Hg. destruct (list_find _ _) as [[i n]|]; [|done]. ok_step Hg. ok_step Hg. by injection Hg. }
  destruct (negb _); [by apply wp_ret|]. apply wp_bind, wp_call. intros r w2 [Hst' _]%(certificate_ensured authority serving served_before).
  destruct r as [[]|e]; [|by apply wp_ret]. destruct (next_copy _ ≫= _) as [candidate|e] eqn:Hc; [|by apply wp_ret].
  ok_step Hc. apply next_copy_ok in G as (g & _ & ->). ok_step Hc. injection Hc as <-. units. apply wp_bind, wp_call.
  intros r w3 [_ Hs]%(authority_saved authority serving served_before). apply wp_ret. intros b. destruct r as [[]|e]; [|done]. intros _. rewrite Hs. split; [done|].
  apply items_append.
Qed.

Lemma publish_stored reservation state w : wp (gateway_Publish reservation state) w (λ r _ w', ∀ b, r = Ok b →
  change_first (er_ExposeID reservation) (publish_pending state) (exposes_of w) = Ok (exposes_of w')).
Proof.
  unfold gateway_Publish. destruct (negb _); [by apply wp_ret|]. destruct (validateGatewayExposeReservationShape _); [|by apply wp_ret]. apply wp_bind, wp_call.
  intros r w1 [[Hst _] Hr]%(authority_loaded authority serving served_before). destruct r as [s|e]; [|by apply wp_ret].
  rewrite (Hr s eq_refl). destruct (reserved_state _ _ ≫= _) as [[s' candidate]|e] eqn:Hc; [|by apply wp_ret].
  ok_step Hc. apply reserved_state_ok in G as [= <-]. ok_step Hc. apply next_copy_ok in G as (g & _ & ->). ok_inv Hc. injection Hc as <- <-.
  eapply wp_mono; [apply swapped_stored|]. intros r es w2 Hb b Hr'. by destruct (Hb b Hr') as [_ ->].
Qed.

Lemma disabled_ids exposeID l l' : Forall2 (disabled_as exposeID) l l' → expose_ID <$> l' = expose_ID <$> l.
Proof.
  induction 1 as [|e e' l l' He _ IH]; [done|]. cbn. rewrite IH. f_equal. unfold disabled_as in He. case_decide; [by destruct He as [_ ->]|by subst].
Qed.

Lemma unpublish_stored plan w : wp (gateway_Unpublish plan) w (λ r _ w', ∀ u, r = Ok u →
  un_ExposeID u = expose_ID (rm_Expose plan) ∧ (rm_Expose plan ∈ exposes_of w) ∧ (expose_ID (rm_Expose plan) ∈ expose_ID <$> exposes_of w') ∧
  NoDup (expose_ID <$> exposes_of w') ∧
  without_expose (expose_ID (rm_Expose plan)) (exposes_of w') = without_expose (expose_ID (rm_Expose plan)) (exposes_of w)).
Proof.
  unfold gateway_Unpublish. destruct (rm_Validate plan); [|by apply wp_ret]. apply wp_attempt. unfold loadGatewayExposeNode.
  destruct (negb _); [by apply wp_ret|]. apply wp_bind, wp_call. intros r w1 [[Hst _] Hr]%(authority_loaded authority serving served_before). apply wp_ret.
  destruct r as [state|e]; [|done]. rewrite (Hr state eq_refl). cbn [mbind result_bind].
  destruct (hosting_node _ _) as [[state' node]|e] eqn:Hg; [|done].
  assert (state' = authority w ∧ is_gateway (authority w) = true) as [-> Hvalid].
  { unfold hosting_node in Hg. ok_step Hg. destruct (list_find _ _) as [[i n]|]; [|done]. injection Hg as <- <-. by apply negb_false_iff in G. }
  destruct (removal_current plan (authority w)) eqn:Hcur; [|by apply wp_ret]. cbn [negb].
  assert (Hin : rm_Expose plan ∈ exposes_of w). { unfold removal_current in Hcur. apply andb_true_iff in Hcur as [_ Hres%bool_decide_eq_true]. by eapply resolved_in. }
  case_bool_decide.
  - apply wp_ret. intros u [= <-]. rewrite Hst. split_and!; [done..| |by apply gateway_NoDup|done]. by apply list_elem_of_fmap_2.
  - destruct (next_copy _ ≫= _) as [candidate|e] eqn:Hc; [|by apply wp_ret].
    ok_step Hc. apply next_copy_ok in G as (g & _ & ->). ok_step Hc. destruct a0 as [exposes found]. apply disable_all_ok in G. ok_step Hc. injection Hc as <-.
    eapply wp_mono; [apply swapped_stored|]. intros r es w2 Hb u Hr'. destruct (Hb u Hr') as [-> ->]. split_and!; [done..| | |by eapply without_disabled].
    2:{ units. by destruct (records_NoDup _ (tp_after _ _ (accepted_parts _ _ G0))) as (_ & _ & _ & Hn). }
    rewrite (disabled_ids _ _ _ G). by apply list_elem_of_fmap_2.
Qed.

Lemma finalize_stored u w : NoDup (expose_ID <$> exposes_of w) → (un_ExposeID u ∈ expose_ID <$> exposes_of w) →
  wp (gateway_FinalizeRemoval (A := A) u) w (λ r _ w', ∀ g, r = Ok g → exposes_of w' = without_expose (un_ExposeID u) (exposes_of w)).
Proof.
  intros Hn (f & Hid & Hf)%list_elem_of_fmap. unfold gateway_FinalizeRemoval. destruct (_ || _ : bool); [by apply wp_ret|]. apply wp_bind, wp_call.
  intros r w1 [_ Hr]%(authority_loaded authority serving served_before). destruct r as [state|e]; [|by apply wp_ret]. rewrite (Hr state eq_refl).
  destruct (released_state _ u) as [[s candidate]|e] eqn:Hrel; [|by apply wp_ret]. unfold released_state in Hrel. cbn [mbind result_bind] in Hrel. ok_step Hrel.
  destruct (resolveExpose _ _ _) as [target|e] eqn:Ht; [|done]. ok_step Hrel. ok_step Hrel. ok_step Hrel. apply next_copy_ok in G2 as (g & _ & ->).
  ok_step Hrel. injection Hrel as <- <-. apply wp_bind, wp_call. intros r w2 [_ Hs]%(authority_saved authority serving served_before). apply wp_ret.
  intros n. destruct r as [[]|e]; [|done]. intros _. rewrite Hs. cbn. rewrite Hid in Ht |- *. by rewrite (resolved_by_id _ _ _ Hn Hf Ht).
Qed.
End gateway.

(** ** The sagas *)

Section sagas.
Context `{!JSONTokens, !JSONValue State, !FaithfulStateCodec} {N G A B : Type} `{!ExposeStateStore N, !ExposeNodeTunnel N A, !ExposeTunnelRemoval N}.
Context `{!ExposeStateStore G, !GatewayExposeHosts G B} (exportPath : string).
Variables (authority : G → State) (serving : G → list Expose) (served_before : GatewayExposeIngressActivation B → list Expose).
Context {Hgateway : FaithfulGateway authority serving served_before}.
Variable node_state : N → State.

(** The store of the node; its tunnel leaves the state alone. *)
Class FaithfulNode : Prop := {
  node_loaded n r n' : es_Load n = (r, n') → node_state n' = node_state n ∧ ∀ state, r = Ok state → state = node_state n;
  node_saved expected candidate n r n' : es_Save expected candidate n = (r, n') → r = Ok () → node_state n' = candidate;
  mapping_activated before pending expose n r n' : et_Activate before pending expose n = (r, n') → node_state n' = node_state n;
  mapping_observed (activation : ExposeTunnelActivation A) expose n r n' : et_Observe activation expose n = (r, n') → node_state n' = node_state n;
  mapping_removed disabled expose n r n' : et_Deactivate disabled expose n = (r, n') → node_state n' = node_state n;
  drain_waited duration n r n' : et_Wait duration n = (r, n') → node_state n' = node_state n
}.
Context {Hnode : FaithfulNode}.

#[local] Instance the_store : ExposeStateStore (N * G) := pair_store.
#[local] Instance the_tunnel : ExposeNodeTunnel (N * G) A := pair_tunnel.
#[local] Instance the_removal : ExposeTunnelRemoval (N * G) := pair_removal.
#[local] Instance the_coordinator : ExposeGatewayCoordinator (N * G) := pair_coordinator exportPath.
#[local] Instance the_removal_coordinator : ExposeGatewayRemovalCoordinator (N * G) := pair_removal_coordinator.

Local Abbreviation node_exposes w := (items (st_Exposes (node_state (fst w)))).
Local Abbreviation gateway_exposes w := (items (st_Exposes (authority (snd w)))).
Local Abbreviation exposeID plan := (expose_ID (rm_Expose plan)).

(** The gateway's exposes of the node are the node's. *)
Definition agree (nodeID : string) (ours theirs : list Expose) : Prop := ours ≡ₚ filter (λ e, expose_NodeID e = nodeID) theirs.

Lemma wp_on_node {E T} (f : N → T * N) (log : T → list E) w (Q : T → list E → N * G → Prop) :
  (∀ r n', f w.1 = (r, n') → Q r (log r) (n', w.2)) → wp (call (on_node f) log) w Q.
Proof. intros Hq. apply wp_call. intros r w' Hf. unfold on_node in Hf. destruct (f w.1) as [r' n'] eqn:E'. injection Hf as <- <-. by apply Hq. Qed.

Lemma wp_on_gateway {E T} (m : gateway_run (W := G) (A := B) T) (log : T → list E) w (P : T → G → Prop) (Q : T → list E → N * G → Prop) :
  wp m w.2 (λ r _ g', P r g') → (∀ r g', P r g' → Q r (log r) (w.1, g')) → wp (call (on_gateway m) log) w Q.
Proof.
  intros Hm Hq. apply wp_call. intros r w' Hf. unfold on_gateway in Hf. unfold wp in Hm. destruct (m w.2) as [[r' es] g'] eqn:E'. injection Hf as <- <-. by apply Hq.
Qed.

(** A compensated creation returns an error. *)
Lemma compensated_fails {T} primary pending plan reservation activation w (Q : T → N * G → Prop) :
  wp (create_compensate primary pending plan reservation activation ≫= λ failure, mret (Err failure)) w (λ r _ w', ∀ result, r = Ok result → Q result w').
Proof. apply wp_bind, wp_intro. intros e es w' _. by apply wp_ret. Qed.

(** What a creation that returns success leaves on both sides. *)
Definition ends_with (plan : ExposeCreatePlan) (ours theirs : list Expose) (r : result ExposeCreateResult) (w : N * G) : Prop := ∀ result, r = Ok result →
  node_exposes w = ours ++ [set_expose_State (res_State result) (cp_Expose plan)] ∧
  gateway_exposes w = theirs ++ [set_expose_State (res_State result) (cp_Expose plan)].

(** An expose that was appended is new. *)
Lemma fresh_after before after l e : accepted before after → items (st_Exposes after) = l ++ [e] → containsExpose l (expose_ID e) = false.
Proof.
  intros Ha He. apply accepted_parts in Ha. destruct (records_NoDup _ (tp_after _ _ Ha)) as (_ & _ & _ & Hn). rewrite He fmap_app in Hn.
  apply NoDup_app in Hn as (_ & Hd & _). unfold containsExpose. apply not_true_iff_false. intros (f & Hf & Hid%String.eqb_eq)%existsb_exists.
  apply list_elem_of_In in Hf. apply (Hd (expose_ID f)); [by apply list_elem_of_fmap_2|]. rewrite Hid. cbn. left.
Qed.

Lemma publish_agrees plan pending reservation activation state ours theirs w :
  er_ExposeID reservation = expose_ID (cp_Expose plan) → containsExpose ours (expose_ID (cp_Expose plan)) = false →
  containsExpose theirs (expose_ID (cp_Expose plan)) = false → expose_State (cp_Expose plan) = ExposePending →
  items (st_Exposes pending) = ours ++ [cp_Expose plan] → gateway_exposes w = theirs ++ [cp_Expose plan] →
  wp (publish_expose plan pending reservation (activation : ExposeTunnelActivation A) state) w (λ r _ w', ends_with plan ours theirs r w').
Proof.
  intros Hid Hours Htheirs Hpending Hp Hg. unfold publish_expose. apply wp_bind.
  eapply wp_on_gateway; [eapply (publish_stored authority serving served_before)|]. intros r g' Hpub. destruct r as [publication|e].
  2:{ destruct (exposeCommitPossible e); [by apply wp_ret|]. eapply wp_mono; [apply compensated_fails|]. intros r es w' Hr. exact Hr. }
  specialize (Hpub publication eq_refl). rewrite Hg Hid (change_last _ _ (set_expose_State state (cp_Expose plan))) // in Hpub; [by rewrite /publish_pending Hpending|].
  injection Hpub as Hpub. destruct (negb _); [by apply wp_ret|]. destruct (finalizeNodeExpose _ _ _ _) as [final|e] eqn:Hfin; [|by apply wp_ret].
  apply finalize_ok in Hfin as [_ Hx]. rewrite Hp (change_last _ _ (set_expose_State state (cp_Expose plan))) // in Hx. injection Hx as Hx.
  apply wp_bind, wp_on_node. intros r n' Hs. destruct r as [[]|e]; [|by apply wp_ret]. apply (node_saved _ _ _ _ _) in Hs; [|done]. apply wp_ret.
  intros result Hres. destruct (NewExposeCreateResult _ _ _ _) as [result'|e] eqn:Hn; [|done]. injection Hres as ->.
  unfold NewExposeCreateResult in Hn. ok_inv Hn. injection Hn as <-. cbn. by rewrite Hs -Hx -Hpub.
Qed.

Lemma activate_agrees plan before reservation ours theirs w :
  er_ExposeID reservation = expose_ID (cp_Expose plan) → containsExpose ours (expose_ID (cp_Expose plan)) = false →
  containsExpose theirs (expose_ID (cp_Expose plan)) = false → expose_State (cp_Expose plan) = ExposePending →
  items (st_Exposes before) = ours → gateway_exposes w = theirs ++ [cp_Expose plan] →
  wp (activate_expose (A := A) plan before reservation) w (λ r _ w', ends_with plan ours theirs r w').
Proof.
  intros Hid Hours Htheirs Hpending Hb Hg. unfold activate_expose. cbv zeta.
  destruct (addPendingNodeExpose _ _ _) as [pending|e] eqn:Hp; [|apply compensated_fails]. apply addPending_ok in Hp as [_ Hp]. rewrite Hb in Hp.
  apply wp_bind, wp_on_node. intros r n1 _. destruct r as [activation|e]; [|apply compensated_fails].
  destruct (validateExposeTunnelActivation _ _ _); [|apply compensated_fails].
  apply wp_bind, wp_on_node. intros r n2 _. destruct r as [u|e]; [|apply compensated_fails].
  apply wp_bind, wp_on_node. intros r n3 _. destruct r as [readiness|e]; [|apply compensated_fails].
  destruct (effectiveExposeState _ _ _) as [state|e]; [|apply compensated_fails]. by apply publish_agrees.
Qed.

Lemma create_agrees plan w : wp (create_Apply (A := A) plan) w (λ r _ w', ends_with plan (node_exposes w) (gateway_exposes w) r w').
Proof.
  unfold create_Apply. destruct (cp_Validate plan) as [[]|e] eqn:Hv; [|by apply wp_ret]. apply wp_attempt. unfold loadJoinedNode.
  apply wp_bind, wp_on_node. intros r n1 [Hst Hr]%node_loaded. apply wp_ret. destruct r as [before|e]; [|done]. rewrite (Hr before eq_refl).
  cbn [wrap mbind result_bind]. destruct (joined_local _ _) as [[[state node] trust]|e] eqn:Hj; [|done]. apply joined_local_ok in Hj as (-> & _).
  destruct (_ || containsExpose _ _) eqn:Hstale; [by apply wp_ret|]. apply orb_false_iff in Hstale as [_ Hfresh].
  apply wp_bind. eapply wp_on_gateway; [eapply (reserve_stored exportPath authority serving served_before)|]. cbn [fst snd]. intros r g' Hres.
  destruct r as [reservation|e]; [|by apply wp_ret]. destruct (Hres reservation eq_refl) as [Hacc Hg].
  destruct (validateExposeReservation reservation plan) as [[]|e] eqn:Hreceipt; [|by apply wp_ret].
  unfold validateExposeReservation in Hreceipt. destruct (NextGeneration _); [|done]. apply reject_ok in Hreceipt. facts.
  eapply wp_mono; [apply (activate_agrees plan (node_state w.1) reservation (node_exposes w) (gateway_exposes w)); try done|].
  - by eapply fresh_after.
  - unfold cp_Validate in Hv. ok_inv Hv. facts. unfold expose_matches_plan in *. by facts.
  - intros r es w' Hends. exact Hends.
Qed.

(** C12: node and gateway agree after a creation.  When a creation run against the gateway's
    own service returns success, both hold their exposes of before and, as the last one, the
    same published expose; so if the gateway's exposes of the node were the node's before,
    they still are. *)
Theorem creation_agrees plan w result es w' : create_Apply plan w = (Ok result, es, w') →
  let e := set_expose_State (res_State result) (cp_Expose plan) in
  (node_exposes w' = node_exposes w ++ [e] ∧ gateway_exposes w' = gateway_exposes w ++ [e]) ∧
  (agree (expose_NodeID e) (node_exposes w) (gateway_exposes w) → agree (expose_NodeID e) (node_exposes w') (gateway_exposes w')).
Proof.
  intros Hrun. assert (Hends : ends_with plan (node_exposes w) (gateway_exposes w) (Ok result) w').
  { refine (wp_run _ _ (λ r _ w', ends_with plan (node_exposes w) (gateway_exposes w) r w') _ _ _ _ Hrun). clear Hrun. apply create_agrees. }
  destruct (Hends result eq_refl) as [Hn Hg]. cbn zeta. split; [done|]. rewrite Hn Hg. unfold agree. intros Ha.
  rewrite filter_app filter_cons_True // filter_nil. by rewrite Ha.
Qed.

(** *** The removal *)

Definition removed_both (plan : ExposeRemovePlan) (ours theirs : list Expose) (r : result ExposeRemoveResult) (w : N * G) : Prop := ∀ result, r = Ok result →
  node_exposes w = without_expose (exposeID plan) ours ∧ gateway_exposes w = without_expose (exposeID plan) theirs.

Lemma release_agrees plan disabled u ours theirs w : un_ExposeID u = exposeID plan →
  without_expose (exposeID plan) (items (st_Exposes disabled)) = without_expose (exposeID plan) ours →
  without_expose (exposeID plan) (gateway_exposes w) = without_expose (exposeID plan) theirs →
  NoDup (expose_ID <$> gateway_exposes w) → exposeID plan ∈ expose_ID <$> gateway_exposes w →
  wp (release_and_delete plan disabled u) w (λ r _ w', removed_both plan ours theirs r w').
Proof.
  intros Hid Hn Hg Hnodup Hin. unfold release_and_delete. apply wp_bind. eapply wp_on_gateway.
  { apply (finalize_stored authority serving served_before); [done|by rewrite Hid]. }
  intros r g' Hfin. destruct r as [generation|e]; [|by apply wp_ret]. specialize (Hfin generation eq_refl). destruct (negb _); [by apply wp_ret|].
  destruct (deleteNodeExpose _ _ _) as [final|e] eqn:Hd; [|by apply wp_ret]. apply change_exposes_ok in Hd as (_ & found & [Hx _]%delete_disabled_ok).
  apply wp_bind, wp_on_node. intros r n' Hs. apply wp_ret. intros result Hr. destruct r as [[]|e]; [|done]. apply node_saved in Hs; [|done].
  cbn [fst snd]. by rewrite Hs Hx Hfin Hn Hid Hg.
Qed.

Lemma drop_agrees plan disabled u ours theirs w : un_ExposeID u = exposeID plan →
  without_expose (exposeID plan) (items (st_Exposes disabled)) = without_expose (exposeID plan) ours →
  without_expose (exposeID plan) (gateway_exposes w) = without_expose (exposeID plan) theirs →
  NoDup (expose_ID <$> gateway_exposes w) → exposeID plan ∈ expose_ID <$> gateway_exposes w →
  wp (attempt (drop_mapping plan disabled u) (λ _, release_and_delete plan disabled u)) w (λ r _ w', removed_both plan ours theirs r w').
Proof.
  intros Hid Hn Hg Hnodup Hin. apply wp_attempt. unfold drop_mapping. apply wp_bind, wp_on_node. intros r n1 _. destruct r as [[]|e]; [|by apply wp_ret].
  apply wp_bind, wp_on_node. intros r n2 _. apply wp_ret. destruct r as [deactivation|e]; [|done]. destruct (reject _ _); [|done]. by apply release_agrees.
Qed.

Lemma remove_agrees plan w : wp (remove_Apply plan) w (λ r _ w', removed_both plan (node_exposes w) (gateway_exposes w) r w').
Proof.
  unfold remove_Apply. destruct (rm_Validate plan); [|by apply wp_ret]. apply wp_attempt. unfold removal_load.
  apply wp_bind, wp_on_node. intros r n1 [Hst Hr]%node_loaded. apply wp_ret. destruct r as [before|e]; [|done]. rewrite (Hr before eq_refl).
  cbn [wrap mbind result_bind]. destruct (joined_local _ _) as [[[state node] trust]|e] eqn:Hj; [|done]. apply joined_local_ok in Hj as (-> & _).
  destruct (_ || _ : bool); [by apply wp_ret|].
  apply wp_bind. eapply wp_on_gateway; [eapply (unpublish_stored authority serving served_before)|]. cbn [fst snd]. intros r g' Hun.
  destruct r as [u|e]; [|by apply wp_ret]. destruct (Hun u eq_refl) as (Hid & _ & Hin & Hn & Hg).
  destruct (validateExposeUnpublication u plan) as [[]|e]; [|by apply wp_ret]. apply wp_attempt. unfold disable_local. case_bool_decide.
  - apply wp_ret. eapply wp_mono; [by apply (drop_agrees _ _ _ (node_exposes w) (gateway_exposes w))|]. intros r es w' Hr'. exact Hr'.
  - destruct (disableNodeExpose _ _ _) as [disabled|e] eqn:Hd; [|by apply wp_ret]. apply change_exposes_ok in Hd as (_ & found & Hx%disable_all_ok).
    apply wp_bind, wp_on_node. intros r n2 _. apply wp_ret. destruct r as [[]|e]; [|done].
    eapply wp_mono; [apply (drop_agrees _ _ _ (node_exposes w) (gateway_exposes w)); try done; by eapply without_disabled|]. intros r es w' Hr'. exact Hr'.
Qed.

(** C17: node and gateway agree after a removal.  When a removal run against the gateway's
    own service returns success, both hold their exposes of before without the removed one;
    so if the gateway's exposes of a node were that node's before, they still are. *)
Theorem removal_agrees plan w result es w' nodeID : remove_Apply plan w = (Ok result, es, w') →
  (node_exposes w' = without_expose (exposeID plan) (node_exposes w) ∧ gateway_exposes w' = without_expose (exposeID plan) (gateway_exposes w)) ∧
  (agree nodeID (node_exposes w) (gateway_exposes w) → agree nodeID (node_exposes w') (gateway_exposes w')).
Proof.
  intros Hrun. assert (Hends : removed_both plan (node_exposes w) (gateway_exposes w) (Ok result) w').
  { refine (wp_run _ _ (λ r _ w', removed_both plan (node_exposes w) (gateway_exposes w) r w') _ _ _ _ Hrun). apply remove_agrees. }
  destruct (Hends result eq_refl) as [Hn Hg]. split; [done|]. rewrite Hn Hg. unfold agree, without_expose. intros ->.
  apply reflexive_eq. rewrite !list_filter_filter. apply list_filter_iff. intros e. tauto.
Qed.
End sagas.

#[export] Instance sample_node_faithful : FaithfulNode (A := unit) nwd_State.
Proof.
  split.
  - intros w r w' [= <- <-]. split; [done|]. by intros state [= <-].
  - intros expected candidate w r w'. cbn. by destruct (_ =? _)%N; intros [= <- <-].
  - by intros before pending expose w r w' [= <- <-].
  - by intros activation expose w r w' [= <- <-].
  - by intros disabled expose w r w' [= <- <-].
  - by intros duration w r w' [= <- <-].
Qed.

Lemma creation_agrees_witness : let run := create_Apply (A := unit) sample_create_plan before_creation in
  nwd_State run.2.1 = nwd_State after_creation.1 ∧
  agree (uuid "11") (items (st_Exposes (nwd_State run.2.1))) (items (st_Exposes (gwd_State run.2.2))).
Proof.
  cbv zeta. split; [by vm_compute|].
  destruct (create_Apply (A := unit) sample_create_plan before_creation) as [[[result|e] es] w'] eqn:Hrun.
  2:{ assert (Hok : is_ok (create_Apply (A := unit) sample_create_plan before_creation).1.1 = true) by by vm_compute. by rewrite Hrun in Hok. }
  apply (creation_agrees sample_export_path gwd_State gwd_Serving ia_private nwd_State sample_create_plan before_creation result es w' Hrun). by vm_compute.
Defined.

Lemma removal_agrees_witness : let run := remove_Apply sample_remove_plan after_creation in
  is_ok run.1.1 = true ∧ agree (uuid "11") (items (st_Exposes (nwd_State run.2.1))) (items (st_Exposes (gwd_State run.2.2))).
Proof.
  cbv zeta. assert (Hok : is_ok (remove_Apply sample_remove_plan after_creation).1.1 = true) by by vm_compute. split; [done|].
  destruct (remove_Apply sample_remove_plan after_creation) as [[[result|e] es] w'] eqn:Hrun; [|done].
  apply (removal_agrees gwd_State gwd_Serving ia_private nwd_State sample_remove_plan after_creation result es w' (uuid "11") Hrun). by vm_compute.
Defined.
