(* ===== verification/ExposeRpcFacts.v ===== *)
(** * The expose requests of a node touch its own exposes only

    What the gateway's handler may change for a node, and how the node's client reads the
    errors of the gateway. *)

From S2P Require Import Prelude GoTime GoText GoNet GoConv Proc Types Checks Identity Address Expose Idempotency Resources StateValidate Codec Samples StateFacts Operation Transition Rpc RpcServer SwitchRemote SwitchMutation Loopback ExposePlan Tunnel ExposeSaga ExposeGateway ExposeRpc ExposeStates ExposeSamples ExposeSagaFacts ExposeGatewayFacts.

Local Open Scope string_scope.
Local Open Scope list_scope.

(** ** What of the state a node may change *)

Definition others (nodeID : string) (exposes : list Expose) : list Expose := filter (λ e, expose_NodeID e ≠ nodeID) exposes.

Lemma others_append nodeID l e : expose_NodeID e = nodeID → others nodeID (l ++ [e]) = others nodeID l.
Proof. intros He. unfold others. rewrite filter_app filter_cons_False ?filter_nil ?app_nil_r //. by intros []. Qed.

Lemma others_without nodeID exposeID l : (∀ e, e ∈ l → expose_ID e = exposeID → expose_NodeID e = nodeID) →
  others nodeID (without_expose exposeID l) = others nodeID l.
Proof.
  unfold others, without_expose. induction l as [|e l IH]; intros Hl; [done|]. assert (IH' := IH (λ x Hx, Hl x (list_elem_of_further _ _ _ Hx))).
  destruct (decide (expose_ID e = exposeID)) as [Heq|Hne].
  - rewrite (filter_cons_False (λ x, expose_ID x ≠ exposeID)); [by intros []|]. rewrite IH' filter_cons_False //. intros Hn. apply Hn, Hl; [left|done].
  - rewrite (filter_cons_True (λ x, expose_ID x ≠ exposeID)) // !filter_cons IH' //.
Qed.

Lemma others_changed nodeID exposeID change l l' : (∀ e e', change e = Ok e' → expose_NodeID e' = expose_NodeID e) →
  change_first exposeID change l = Ok l' → (∃ i e, list_find (λ e, expose_ID e = exposeID) l = Some (i, e) ∧ expose_NodeID e = nodeID) →
  others nodeID l' = others nodeID l.
Proof.
  intros Hc. revert l'. induction l as [|x l IH]; intros l' K Hf; [done|]. cbn in K. destruct (String.eqb_spec (expose_ID x) exposeID) as [Heq|Hne].
  - ok_step K. injection K as <-. destruct Hf as (i & e & Hf & Hn). cbn in Hf. rewrite decide_True // in Hf. injection Hf as <- <-. unfold others.
    rewrite !filter_cons_False //; rewrite ?(Hc _ _ G); by intros [].
  - ok_step K. injection K as <-. destruct Hf as (i & e & Hf & Hn). cbn in Hf. rewrite decide_False // in Hf.
    assert (Hrest : others nodeID a = others nodeID l).
    { apply IH; [done|]. destruct (list_find _ l) as [[j y]|] eqn:E; [|done]. exists j, y. split; [done|]. cbn in Hf. by injection Hf as _ ->. }
    unfold others in Hrest |- *. by rewrite !filter_cons Hrest.
Qed.

(** ** The handler *)

Section handler.
Context `{!JSONTokens, !JSONValue (option (gmap string string)), !JSONValue State, !JSONValue exposeRPCPlanRequest, !JSONValue exposeRPCPlanResponse,
          !JSONValue exposeRPCReserveRequest, !JSONValue exposeRPCReserveResponse, !JSONValue exposeRPCPublishRequest, !JSONValue exposeRPCPublishResponse,
          !JSONValue exposeRPCAbortRequest, !JSONValue exposeRPCAbortResponse, !JSONValue exposeRPCDeferRequest, !JSONValue exposeRPCDeferResponse}.
Context `{!FaithfulStateCodec} {W A : Type} `{!ExposeStateStore W, !GatewayExposeHosts W A} (exportPath : string).
Variables (authority : W → State) (serving : W → list Expose) (served_before : GatewayExposeIngressActivation A → list Expose).
Context {Hgateway : FaithfulGateway authority serving served_before}.
(** The inspections change nothing, and deferred creations are registered by the writer of
    the program. *)
Context (draw : W → (generator * time) * W).
Class FaithfulHosts : Prop := {
  ports_inspected w r w' : gh_Unavailable w = (r, w') → authority w' = authority w;
  runtime_read w r w' : gh_Normalizer w = (r, w') → authority w' = authority w;
  drawn_apart w r w' : draw w = (r, w') → authority w' = authority w;
  registered_by_writer plan w r w' : gh_Register plan w = (r, w') → ∃ cancelled es, deferred_Register (A := A) draw cancelled plan w = (r, es, w')
}.
Context {Hhosts : FaithfulHosts}.

Local Abbreviation run := (gateway_run (W := W) (A := A)).

(** A program that leaves a property of the stored state alone. *)
Definition keeping (P : State → Prop) {T} (m : run T) : Prop := ∀ w, P (authority w) → wp m w (λ _ _ w', P (authority w')).

Section keeping.
Context (P : State → Prop).

Lemma keeping_ret {T} (a : T) : keeping P (mret a).
Proof. intros w Hw. by apply wp_ret. Qed.

Lemma keeping_bind {S T} (m : run S) (f : S → run T) : keeping P m → (∀ a, keeping P (f a)) → keeping P (m ≫= f).
Proof. intros Hm Hf w Hw. apply wp_bind. eapply wp_mono; [by apply Hm|]. intros a es w1 Hw1. by apply Hf. Qed.

Lemma keeping_attempt {S T} (m : run (result S)) (f : S → run (result T)) : keeping P m → (∀ a, keeping P (f a)) → keeping P (attempt m f).
Proof. intros Hm Hf. apply keeping_bind; [done|]. intros [a|e]; [apply Hf|apply keeping_ret]. Qed.

Lemma keeping_load : keeping P (authority_load (A := A)).
Proof. intros w Hw. apply wp_call. intros r w' [[Hst _] _]%(authority_loaded authority serving served_before). by rewrite Hst. Qed.

Lemma keeping_save expected candidate : P candidate → keeping P (authority_save (A := A) expected candidate).
Proof.
  intros Hc w Hw. apply wp_call. intros r w' [_ Hs]%(authority_saved authority serving served_before). destruct r; [by rewrite Hs|by destruct Hs as [-> | ->]].
Qed.

Lemma keeping_swap exposeID state candidate : P candidate → keeping P (swap_ingress exposeID state candidate).
Proof.
  intros Hc. unfold swap_ingress. apply keeping_bind.
  { intros w Hw. apply wp_call. intros r w' [Ha _]%(ingress_activated authority serving served_before). by rewrite Ha. }
  intros [activation|e]; [|apply keeping_ret]. destruct (_ || _ : bool); [apply keeping_ret|]. apply keeping_bind; [by apply keeping_save|]. intros [[]|e].
  - apply keeping_bind; [|intros r; apply keeping_ret]. intros w Hw. apply wp_call. intros r w' [Ha _]%(ingress_committed authority serving served_before). by rewrite Ha.
  - apply keeping_bind; [|intros r; apply keeping_ret]. intros w Hw. apply wp_call. intros r w' [Ha _]%(ingress_rolled_back authority serving served_before). by rewrite Ha.
Qed.

(** What was loaded has the property too. *)
Lemma keeping_loaded {T} (k : result State → run T) : (∀ r, (∀ state, r = Ok state → P state) → keeping P (k r)) → keeping P (authority_load ≫= k).
Proof.
  intros Hk w Hw. apply wp_bind, wp_call. intros r w' [[Hst _] Hr]%(authority_loaded authority serving served_before).
  apply Hk; [|by rewrite Hst]. intros state Hs. by rewrite (Hr state Hs).
Qed.
End keeping.

(** The exposes of the other nodes stay. *)
Definition same_others (nodeID : string) (kept : list Expose) (state : State) : Prop := others nodeID (items (st_Exposes state)) = kept.

Lemma resources_state state nodeID state' node certificate : gateway_resources state nodeID = Ok (state', node, certificate) → state' = state.
Proof. unfold gateway_resources. intros K. ok_step K. destruct (list_find _ _) as [[i n]|]; [|done]. ok_step K. ok_step K. by injection K. Qed.

Lemma keeping_resources P {T} nodeID (k : State * Node * Certificate → run (result T)) :
  (∀ state node certificate, P state → keeping P (k (state, node, certificate))) → keeping P (attempt (loadGatewayResources nodeID) k).
Proof.
  intros Hk w Hw. apply wp_attempt. unfold loadGatewayResources. apply wp_bind, wp_call.
  intros r w' [[Hst _] Hr]%(authority_loaded authority serving served_before). apply wp_ret. rewrite -Hst in Hw.
  destruct r as [state|e]; [|done]. rewrite (Hr state eq_refl). cbn [mbind result_bind].
  destruct (gateway_resources _ _) as [[[state' node] certificate]|e] eqn:Hg; [|done]. apply resources_state in Hg as ->. apply Hk; by rewrite -?Hst.
Qed.

Lemma reserve_confined nodeID kept plan : expose_NodeID (cp_Expose plan) = nodeID → keeping (same_others nodeID kept) (gateway_Reserve exportPath plan).
Proof.
  intros Hnode. unfold gateway_Reserve. destruct (cp_Validate plan); [|apply keeping_ret]. apply keeping_resources. intros state node certificate Hs.
  destruct (negb _); [apply keeping_ret|]. apply keeping_bind.
  { intros w Hw. apply wp_call. intros r w' [Hst _]%(certificate_ensured authority serving served_before). by rewrite Hst. }
  intros [[]|e]; [|apply keeping_ret]. destruct (next_copy _ ≫= _) as [candidate|e] eqn:Hc; [|apply keeping_ret].
  ok_step Hc. apply next_copy_ok in G as (g & _ & ->). ok_step Hc. injection Hc as <-. apply keeping_bind; [|intros r; apply keeping_ret].
  apply keeping_save. unfold same_others in *. cbn [st_Exposes set_st_Exposes set_st_Generation]. by rewrite items_append others_append.
Qed.

Lemma register_confined nodeID kept cancelled plan : expose_NodeID (cp_Expose plan) = nodeID →
  keeping (same_others nodeID kept) (deferred_Register (A := A) draw cancelled plan).
Proof.
  intros Hnode. unfold deferred_Register. destruct cancelled; [apply keeping_ret|]. destruct (cp_Validate plan) as [[]|]; [|apply keeping_ret].
  apply keeping_loaded. intros r Hr. apply keeping_bind. { intros w Hw. apply wp_call. intros d w' Hd%drawn_apart. by rewrite Hd. }
  intros [draws at_]. destruct r as [state|e]; [|apply keeping_ret]. cbn [mbind result_bind fst snd].
  destruct (deferred_state _ _ _ _) as [[candidate registration]|e] eqn:Hd; [|apply keeping_ret]. cbn [mbind result_bind].
  apply keeping_bind; [|intros s; apply keeping_ret]. apply keeping_save. specialize (Hr state eq_refl).
  unfold same_others in *. by rewrite (deferred_state_ok _ _ _ _ _ _ Hd) others_append.
Qed.

Lemma defer_confined nodeID kept plan : expose_NodeID (cp_Expose plan) = nodeID → keeping (same_others nodeID kept) (gateway_Defer exportPath plan).
Proof.
  intros Hnode. unfold gateway_Defer. destruct (cp_Validate plan); [|apply keeping_ret]. apply keeping_resources. intros state node certificate Hs.
  destruct (negb _); [apply keeping_ret|]. apply keeping_bind; [|intros r; apply keeping_ret]. intros w Hw. apply wp_call.
  intros r w' (cancelled & es & Hr)%registered_by_writer. eapply (wp_run _ _ (λ _ _ w', same_others nodeID kept (authority w'))); [|exact Hr].
  by apply register_confined.
Qed.

(** A reservation the node holds is for an expose of the node. *)
Lemma held_find state nodeID reservation : reservation_held (Ok state) nodeID reservation = true →
  ∃ i e, list_find (λ e, expose_ID e = er_ExposeID reservation) (items (st_Exposes state)) = Some (i, e) ∧ expose_NodeID e = nodeID.
Proof.
  unfold reservation_held. intros [_ Hf]%andb_true_iff. destruct (list_find _ _) as [[i e]|]; [|done]. exists i, e. split; [done|]. by facts.
Qed.

Lemma publish_confined nodeID reservation effectiveState w : reservation_held (Ok (authority w)) nodeID reservation = true →
  wp (gateway_Publish reservation effectiveState) w (λ _ _ w', same_others nodeID (others nodeID (items (st_Exposes (authority w)))) (authority w')).
Proof.
  intros Hheld%held_find. unfold gateway_Publish. destruct (negb _); [by apply wp_ret|]. destruct (validateGatewayExposeReservationShape _); [|by apply wp_ret].
  apply wp_bind, wp_call. intros r w1 [[Hst _] Hr]%(authority_loaded authority serving served_before). destruct r as [s|e]; [|apply wp_ret; by rewrite Hst].
  rewrite (Hr s eq_refl). destruct (reserved_state _ _ ≫= _) as [[s' candidate]|e] eqn:Hc; [|apply wp_ret; by rewrite Hst].
  ok_step Hc. apply reserved_state_ok in G as [= <-]. ok_step Hc. apply next_copy_ok in G as (g & _ & ->). ok_step Hc. ok_step Hc. injection Hc as <- <-.
  apply wp_bind. eapply wp_mono; [apply (keeping_swap (same_others nodeID (others nodeID (items (st_Exposes (authority w))))))|]; [|by rewrite Hst|by intros; apply wp_ret].
  unfold same_others. cbn [st_Exposes set_st_Exposes set_st_Generation]. eapply others_changed; [|exact G|exact Hheld].
  intros e e' He. unfold publish_pending in He. ok_step He. by injection He as <-.
Qed.

Lemma abort_confined nodeID reservation w : reservation_held (Ok (authority w)) nodeID reservation = true →
  wp (gateway_Abort (A := A) reservation) w (λ _ _ w', same_others nodeID (others nodeID (items (st_Exposes (authority w)))) (authority w')).
Proof.
  intros (i & e & Hf & Hnode)%held_find. unfold gateway_Abort. destruct (validateGatewayExposeReservationShape _); [|by apply wp_ret].
  apply wp_bind, wp_call. intros r w1 [[Hst _] Hr]%(authority_loaded authority serving served_before). destruct r as [s|e']; [|apply wp_ret; by rewrite Hst].
  rewrite (Hr s eq_refl). destruct (reserved_state _ _ ≫= _) as [[s' candidate]|e'] eqn:Hc; [|apply wp_ret; by rewrite Hst].
  ok_step Hc. assert (Hgate : is_gateway (authority w) = true). { unfold reserved_state in G. ok_step G. ok_step G. apply orb_false_iff in G1 as [G1 _]. apply negb_false_iff in G1. injection G0 as <-. done. }
  apply reserved_state_ok in G as [= <-]. ok_step Hc. apply next_copy_ok in G as (g & _ & ->). ok_step Hc. destruct a0 as [exposes found]. apply take_back_ok in G as [-> _].
  ok_step Hc. ok_step Hc. injection Hc as <- <-. apply wp_bind.
  eapply wp_mono; [apply (keeping_save (same_others nodeID (others nodeID (items (st_Exposes (authority w))))))|]; [|by rewrite Hst|by intros; apply wp_ret].
  unfold same_others. cbn [st_Exposes set_st_Exposes set_st_Generation]. apply others_without. intros x Hx Hid.
  apply list_find_Some in Hf as (Hi & He & _). rewrite (same_expose _ x e (gateway_NoDup _ Hgate) Hx) //; [by eapply list_elem_of_lookup_2|congruence].
Qed.

Lemma held_wp request nodeID reservation w : wp (held_by (A := A) request nodeID reservation) w
  (λ held _ w', authority w' = authority w ∧ (held = true → nodeID = rq_NodeID request ∧ reservation_held (Ok (authority w)) nodeID reservation = true)).
Proof.
  unfold held_by. destruct (_ || _) eqn:E; [by apply wp_ret|]. apply orb_false_iff in E as [En _]. apply negb_false_iff, String.eqb_eq in En.
  unfold reservationBelongsToNode. destruct (negb _); [by apply wp_ret|]. apply wp_bind, wp_call.
  intros r w1 [[Hst _] Hr]%(authority_loaded authority serving served_before). apply wp_ret. split; [done|]. intros Hheld. split; [done|].
  destruct r as [s|e]; [|done]. by rewrite (Hr s eq_refl) in Hheld.
Qed.

Section request.
Context (request : RPCRequest) (kept : list Expose).

Local Abbreviation confined := (keeping (same_others (rq_NodeID request) kept)).

Lemma refuse_confined code message : confined (refuse_input request code message).
Proof. apply keeping_bind; [|intros n; apply keeping_ret]. apply keeping_bind; [apply keeping_load|intros r; apply keeping_ret]. Qed.

Lemma respond_confined {T P} `{!JSONValue P} (served : result T) (answer : T → N * string * P) : confined (respond request served answer).
Proof.
  unfold respond. destruct served as [value|e].
  - destruct (answer value) as [[generation resourceID] payload]. apply keeping_ret.
  - apply keeping_bind; [|intros n; apply keeping_ret]. apply keeping_bind; [apply keeping_load|intros r; apply keeping_ret].
Qed.

Lemma requested_node wire plan : requested_plan request wire = Some plan → expose_NodeID (cp_Expose plan) = rq_NodeID request.
Proof.
  unfold requested_plan. destruct (plan_domain wire); [|done]. destruct (_ || _) eqn:E; [done|]. intros [= <-].
  by apply orb_false_iff in E as [?%negb_false_iff%String.eqb_eq _].
Qed.

Lemma plan_confined : confined (handle_plan exportPath request).
Proof.
  unfold handle_plan. destruct (DecodeRPCPayload _) as [payload|e]; [|apply refuse_confined]. apply keeping_bind; [|intros r; apply respond_confined].
  unfold gateway_Plan. destruct (negb _); [apply keeping_ret|]. apply keeping_resources. intros state node certificate _. apply keeping_bind.
  { intros w Hw. apply wp_call. intros r w' Hp%ports_inspected. by rewrite Hp. }
  intros [ports|e]; [|apply keeping_ret]. apply keeping_bind; [|intros r; apply keeping_ret]. intros w Hw. apply wp_call. intros r w' Hp%runtime_read. by rewrite Hp.
Qed.

(** A program that reads whether a reservation is the node's, then acts on it. *)
Lemma held_confined {T} nodeID reservation (act : run (result T)) (refused : run (result RPCHandlerResult)) (k : result T → run (result RPCHandlerResult)) :
  (∀ w, reservation_held (Ok (authority w)) (rq_NodeID request) reservation = true →
     wp act w (λ _ _ w', same_others (rq_NodeID request) (others (rq_NodeID request) (items (st_Exposes (authority w)))) (authority w'))) →
  confined refused → (∀ r, confined (k r)) →
  confined (held_by request nodeID reservation ≫= λ held, if negb held then refused else act ≫= k).
Proof.
  intros Hact Hrefused Hk w Hw. apply wp_bind. eapply wp_mono; [apply held_wp|]. intros held es w1 [Hst Hheld]. rewrite -Hst in Hw.
  destruct held; cbn [negb]; [|by apply Hrefused]. destruct (Hheld eq_refl) as [Hn Hres]. rewrite Hn -Hst in Hres. apply wp_bind.
  eapply wp_mono; [by apply Hact|]. intros r es' w2 Hs. apply Hk. by rewrite Hw in Hs.
Qed.

Lemma handler_confined cancelled peer : peer_NodeID peer = rq_NodeID request → confined (expose_HandleRPC exportPath cancelled peer request).
Proof.
  intros Hpeer. unfold expose_HandleRPC. destruct (_ || _ : bool); [apply keeping_ret|]. destruct cancelled; [apply keeping_ret|]. cbv zeta.
  destruct (String.eqb _ ExposePlanRPCOperation); [apply plan_confined|]. destruct (String.eqb _ ExposeReserveRPCOperation).
  { unfold handle_reserve. destruct (DecodeRPCPayload _) as [payload|e]; [|apply refuse_confined].
    destruct (requested_plan _ _) as [plan|] eqn:Hp; [|apply refuse_confined]. apply keeping_bind; [|intros r; apply respond_confined].
    apply reserve_confined. by eapply requested_node. }
  destruct (String.eqb _ ExposePublishRPCOperation).
  { unfold handle_publish. cbv zeta. destruct (DecodeRPCPayload _) as [payload|e]; [|apply refuse_confined].
    apply held_confined; [intros w Hw; by apply publish_confined|apply refuse_confined|intros r; apply respond_confined]. }
  destruct (String.eqb _ ExposeAbortRPCOperation).
  { unfold handle_abort. cbv zeta. destruct (DecodeRPCPayload _) as [payload|e]; [|apply refuse_confined].
    apply held_confined; [intros w Hw; by apply abort_confined|apply refuse_confined|intros r; apply respond_confined]. }
  destruct (String.eqb _ ExposeDeferRPCOperation); [|apply refuse_confined].
  unfold handle_defer. destruct (DecodeRPCPayload _) as [payload|e]; [|apply refuse_confined].
  destruct (requested_plan _ _) as [plan|] eqn:Hp; [|apply refuse_confined]. apply keeping_bind; [|intros r; apply respond_confined].
  by apply defer_confined; eapply requested_node.
Qed.
End request.

(** C15: a node's requests touch its own exposes only.  Whatever an authenticated node sends
    to the gateway's expose handler, and whatever fails, the exposes of all other nodes in
    the stored state stay as they are; a request in the name of another node changes
    nothing. *)
Theorem requests_touch_own_exposes cancelled peer request w :
  wp (expose_HandleRPC (A := A) exportPath cancelled peer request) w (λ _ _ w',
    others (peer_NodeID peer) (items (st_Exposes (authority w'))) = others (peer_NodeID peer) (items (st_Exposes (authority w)))).
Proof.
  destruct (decide (peer_NodeID peer = rq_NodeID request)) as [Heq|Hne].
  - rewrite Heq. by apply (handler_confined request (others (rq_NodeID request) (items (st_Exposes (authority w))))).
  - unfold expose_HandleRPC. apply String.eqb_neq in Hne. rewrite Hne orb_true_r. by apply wp_ret.
Qed.
End handler.

(** ** How the client reads errors *)

Section client.
Context `{!JSONTokens, !JSONValue (option (gmap string string)), !JSONValue exposeRPCReserveRequest, !JSONValue exposeRPCReserveResponse,
          !JSONValue exposeRPCPublishRequest, !JSONValue exposeRPCPublishResponse, !JSONValue exposeRPCAbortRequest, !JSONValue exposeRPCAbortResponse,
          !JSONValue exposeRPCDeferRequest, !JSONValue exposeRPCDeferResponse}.
Context {W : Type} `{!RemoteCaller W} (new_uuid : W → result string * W) (client : RemoteExposeGatewayCoordinator).

(** A request that may change the gateway is sent at most once, and its error says that the
    gateway may have committed when an answer arrived and not otherwise. *)
Definition marked_when_answered {T} (r : result T) (es : list remote_event) : Prop :=
  match r, es with
  | Ok _, [ManagementCalled _ answer] => is_ok answer = true
  | Err e, [ManagementCalled _ answer] => exposeCommitPossible e = is_ok answer
  | Err _, [] => True
  | _, _ => False
  end.

Lemma answer_error {R} `{!JSONValue R} answer e : expose_answer (R := R) true answer = Err e → exposeCommitPossible e = is_ok answer.
Proof.
  unfold expose_answer, remote_error. destruct answer as [answer|cause]; [|by intros [= <-]; rewrite commit_error_decides].
  unfold reject. destruct (_ || _); [by intros [= <-]; rewrite commit_error_decides|]. cbn [mbind result_bind].
  destruct (_ =? 0)%N; [by intros [= <-]; rewrite commit_error_decides|]. cbn [mbind result_bind].
  destruct (DecodeRPCPayload _); [done|]. by intros [= <-]; rewrite commit_error_decides.
Qed.

Lemma answer_value {R} `{!JSONValue R} possible answer v : expose_answer (R := R) possible answer = Ok v → is_ok answer = true.
Proof. by destruct answer. Qed.

Lemma call_marked {Q R} `{!JSONValue Q, !JSONValue R} operation expected (payload : Q) w :
  wp (expose_call (R := R) new_uuid client operation expected payload true) w (λ r es _, marked_when_answered r es).
Proof.
  unfold expose_call. apply wp_bind, wp_call. intros identity w1 _. destruct identity as [requestID|e]; [|by apply wp_ret].
  destruct (negb _); [by apply wp_ret|]. apply wp_bind, wp_call. intros drawn w2 _. destruct (wrap _ drawn ≫= _) as [[nonce encoded]|e]; [|by apply wp_ret].
  apply wp_bind, wp_call. intros at_ w3 _. apply wp_bind, wp_call. intros answer w4 _. apply wp_ret. cbn [app marked_when_answered].
  destruct (expose_answer true answer) eqn:He; [by apply answer_value in He|by apply answer_error in He].
Qed.

(** The check of the answer against the generation of the gateway. *)
Lemma checked_marked {Q R T} `{!JSONValue Q, !JSONValue R} operation expected (payload : Q) (bad : N → R → bool) (what : string) (k : R → T) w :
  wp (answer ← expose_call (R := R) new_uuid client operation expected payload true;
      mret ('(generation, response) ← answer; reject (bad generation response) (rpc_differs true what);; Ok (k response))) w
    (λ r es _, marked_when_answered r es).
Proof.
  apply wp_bind. eapply wp_mono; [apply call_marked|]. intros r es w' Hm. apply wp_ret. rewrite app_nil_r. destruct r as [[generation response]|e]; [|exact Hm].
  cbn [mbind result_bind]. destruct es as [|[request answer] [|]]; [done| |done]. cbn in Hm.
  destruct (bad generation response); [|done]. cbn. by rewrite Hm.
Qed.

(** C20: the client marks an error as one after which the gateway may have committed exactly
    when the gateway answered.  A reservation, a publication, an abort or a deferred
    registration sends at most one request.  When it fails after an answer of the gateway
    arrived, even a refusal, the error is marked; when none arrived it is not marked,
    whatever the error of the transport says and whether or not the gateway carried the
    request out; otherwise nothing was sent. *)
Theorem client_marks_answered_errors plan reservation state w :
  wp (remote_Reserve new_uuid client plan) w (λ r es _, marked_when_answered r es) ∧
  wp (remote_Publish new_uuid client reservation state) w (λ r es _, marked_when_answered r es) ∧
  wp (remote_Abort new_uuid client reservation) w (λ r es _, marked_when_answered r es) ∧
  wp (remote_Defer new_uuid client plan) w (λ r es _, marked_when_answered r es).
Proof.
  unfold remote_Reserve, remote_Publish, remote_Abort, remote_Defer. split_and!.
  - destruct (bad_plan client plan); [by apply wp_ret|]. apply (checked_marked _ _ _ (λ g response, negb (er_Generation (rva_Reservation response) =? g)%N)).
  - destruct (negb _); [by apply wp_ret|]. apply (checked_marked _ _ _ (λ g response, negb (pub_Generation (pua_Publication response) =? g)%N)).
  - destruct (negb _); [by apply wp_ret|]. apply (checked_marked _ _ _ (λ g response, negb (aba_Generation response =? g)%N)).
  - destruct (bad_plan client plan); [by apply wp_ret|]. apply (checked_marked _ _ _ (λ g response, negb (dr_Generation (dea_Registration response) =? g)%N)).
Qed.
End client.

(** ** Witness *)

#[export] Instance no_fields : JSONValue (option (gmap string string)) := { marshal _ := Ok "{}"; decode _ := Ok (Some ∅, AtEOF) }.
#[export] Instance publication_request : JSONValue exposeRPCPublishRequest := {
  marshal _ := Ok "{}"; decode _ := Ok (MkExposeRPCPublishRequest (uuid "11") sample_reservation ExposeReady, AtEOF)
}.
#[local] Instance no_payload {T} : JSONValue T | 1000 := { marshal _ := Ok "{}"; decode _ := Err EOF }.

#[export] Instance sample_hosts_faithful : FaithfulHosts (A := list Expose) gwd_State gateway_draw.
Proof.
  split.
  - by intros w r w' [= <- <-].
  - by intros w r w' [= <- <-].
  - by intros w r w' [= <- <-].
  - intros plan w r w'. cbn [gh_Register gateway_hosts]. destruct (deferred_Register gateway_draw None plan w) as [[r1 es] w1] eqn:Hrun.
    intros [= <- <-]. by exists None, es.
Qed.

Definition publish_request : RPCRequest :=
  MkRPCRequest 1 0 (uuid "71") 10 (uuid "11") 1 (day 5) "AAECAwQFBgcICQoLDA0ODw" ExposePublishRPCOperation "{}".
Definition sample_peer : RPCPeer := MkRPCPeer (uuid "11") sample_fingerprint.

(** The publication is granted, and the other node's expose is untouched. *)
Lemma requests_touch_own_exposes_witness :
  let run := expose_HandleRPC (A := list Expose) sample_export_path false sample_peer publish_request reserved_gateway in
  others (uuid "11") (items (st_Exposes (gwd_State run.2))) = [other_expose] ∧ gwd_Serving run.2 = [other_expose; new_expose ExposeReady].
Proof.
  cbv zeta. split; [|by vm_compute].
  destruct (expose_HandleRPC sample_export_path false sample_peer publish_request reserved_gateway) as [[r es] w'] eqn:Hrun.
  exact (wp_run _ _ _ _ _ _ (requests_touch_own_exposes sample_export_path gwd_State gwd_Serving ia_private gateway_draw false sample_peer publish_request
    reserved_gateway) Hrun).
Defined.
