(* ===== verification/TunnelFacts.v ===== *)
(** * What the readiness of a tunnel tells

    The mappings of a node session are those of its exposes, and an expose is published as
    ready exactly when the tunnel client reports the planned tunnel and the application
    answered. *)

From S2P Require Import Prelude GoTime GoText GoNet GoConv Proc Types Checks Identity Address Expose Idempotency Resources StateValidate Codec Samples StateFacts Operation Transition Loopback ExposePlan Tunnel ExposeSaga ExposeGateway ExposeStates ExposeSamples.

Local Open Scope string_scope.
Local Open Scope list_scope.

(** ** Sessions *)

Definition in_session (node : Node) (e : Expose) : Prop := expose_NodeID e = node_ID node ∧ expose_State e ≠ ExposeDisabled.
#[export] Instance in_session_dec node e : Decision (in_session node e) := _.

Lemma session_mappings_ok node exposes l : session_mappings node exposes = Ok l →
  Forall2 (λ e m, MappingFromExpose e = Ok m) (filter (in_session node) exposes) l.
Proof.
  intros K. refine (range_inv _ (λ p l, Forall2 (λ e m, MappingFromExpose e = Ok m) (filter (in_session node) p) l) _ [] l _ _ K); [|constructor].
  clear. intros p e q l l' _ IH Hb. cbn beta in Hb. rewrite filter_app. destruct (_ || _) eqn:E.
  - injection Hb as <-. rewrite filter_cons_False ?filter_nil ?app_nil_r //. intros [Hn Hs]. apply orb_true_iff in E as [E|E]; by facts.
  - ok_step Hb. injection Hb as <-. apply orb_false_iff in E as [E1 E2]. facts. rewrite filter_cons_True // filter_nil. apply Forall2_app; [done|by repeat constructor].
Qed.

Lemma mapping_of_expose e m : MappingFromExpose e = Ok m →
  mp_ExposeID m = expose_ID e ∧ mp_NodeID m = expose_NodeID e ∧ mp_Name m = want_name (expose_NodeID e) (expose_ID e) ∧
  MappingName (expose_NodeID e) (expose_ID e) = Ok (mp_Name m) ∧ mp_NodeUpstream m = expose_Upstream e ∧ mp_Generation m = expose_Generation e ∧
  mp_Validate m = Ok ().
Proof. unfold MappingFromExpose, want_name. intros K. do 3 ok_step K. injection K as <-. units. cbn. by rewrite G0. Qed.

Lemma mapping_shape e m : MappingFromExpose e = Ok m →
  m = MkMapping (expose_ID e) (expose_NodeID e) (want_name (expose_NodeID e) (expose_ID e)) ProtocolTCP
        (MkAddrPort (Some loopback_address) (Z.to_N (expose_TunnelPort e))) (expose_Upstream e) (expose_Generation e).
Proof.
  unfold MappingFromExpose, want_name. intros K. do 3 ok_step K. injection K as <-. units. rewrite G0 Z.mod_small //.
  unfold expose_Validate in G. do 10 ok_step G. facts. lia.
Qed.

Lemma session_valid session : ss_Validate session = Ok () → NoDup (mp_ExposeID <$> items (ss_Mappings session)) ∧ NoDup (mp_Name <$> items (ss_Mappings session)).
Proof.
  unfold ss_Validate. intros K. do 6 ok_step K. clear K. destruct a0 as [[ids names] ports].
  refine (proj1 (range_inv _ (λ p '(ids, names, _), (NoDup (mp_ExposeID <$> p) ∧ NoDup (mp_Name <$> p)) ∧
    ids = list_to_set (mp_ExposeID <$> p) ∧ names = list_to_set (mp_Name <$> p)) _ (∅, ∅, ∅) (ids, names, ports) _ _ G4)); [|split_and!; by repeat constructor].
  clear. intros p m q [[ids names] ports] [[ids' names'] ports'] _ [[Hi Hn] [-> ->]] Hb. cbn beta iota in Hb.
  ok_step Hb. ok_step Hb. ok_step Hb. ok_step Hb. ok_step Hb. injection Hb as <- <- <-. apply check_unique_ok in G1 as [G1 ->]. apply check_unique_ok in G2 as [G2 ->].
  rewrite !fmap_app !list_to_set_app_L. split; [split|split; set_solver].
  - apply NoDup_app. split_and!; [done| |apply NoDup_singleton]. intros x Hx Hx'%list_elem_of_singleton. subst x. apply G1. by apply elem_of_list_to_set.
  - apply NoDup_app. split_and!; [done| |apply NoDup_singleton]. intros x Hx Hx'%list_elem_of_singleton. subst x. apply G2. by apply elem_of_list_to_set.
Qed.

Lemma node_session_ok node exposes generation session : NewNodeSession node exposes generation = Ok session →
  let mappings := items (ss_Mappings session) in
  (∃ l, Forall2 (λ e m, MappingFromExpose e = Ok m) (filter (in_session node) exposes) l ∧ mappings = merge_sort by_name l) ∧
  NoDup (mp_ExposeID <$> mappings) ∧ NoDup (mp_Name <$> mappings) ∧ ss_NodeID session = node_ID node.
Proof.
  cbn zeta. unfold NewNodeSession. intros K. ok_step K. ok_step K. ok_step K. ok_step K. injection K as <-. units.
  apply session_mappings_ok in G1. destruct (session_valid _ G2) as [Hi Hn]. split_and!; try done. by exists a0.
Qed.

(** The mapping of an expose, and the expose of a mapping. *)
Lemma session_mapping node exposes generation session e : NewNodeSession node exposes generation = Ok session → e ∈ exposes → in_session node e →
  ∃ m, m ∈ items (ss_Mappings session) ∧ MappingFromExpose e = Ok m.
Proof.
  intros (( l & Hl & ->) & _)%node_session_ok Hin He. assert (Hf : e ∈ filter (in_session node) exposes) by by apply list_elem_of_filter.
  apply list_elem_of_lookup in Hf as [i Hi]. destruct (Forall2_lookup_l _ _ _ _ _ Hl Hi) as (m & Hm & Hok). exists m. split; [|done].
  rewrite merge_sort_Permutation. by eapply list_elem_of_lookup_2.
Qed.

Lemma session_expose node exposes generation session m : NewNodeSession node exposes generation = Ok session → m ∈ items (ss_Mappings session) →
  ∃ e, e ∈ exposes ∧ in_session node e ∧ MappingFromExpose e = Ok m.
Proof.
  intros (( l & Hl & ->) & _)%node_session_ok Hm. rewrite merge_sort_Permutation in Hm. apply list_elem_of_lookup in Hm as [i Hi].
  destruct (Forall2_lookup_r _ _ _ _ _ Hl Hi) as (e & He & Hok). apply list_elem_of_lookup_2, list_elem_of_filter in He as [? ?]. by exists e.
Qed.

(** ** The probe *)

Section probe.
Context (server : addr) (mappings : list Mapping) (reached : string → bool).

Definition probed_entry (registered : Mapping → bool) (m : Mapping) : TunnelMappingReadiness :=
  MkTunnelMappingReadiness (mp_ExposeID m) (mp_Name m) (mp_Generation m)
    (if registered m then passedTunnelProbe "tunnel-mapping-ready" else failedTunnelProbe "tunnel-mapping-unavailable")
    (if reached (mp_NodeUpstream m) then passedTunnelProbe "tunnel-upstream-ready" else failedTunnelProbe "tunnel-upstream-unavailable").

Lemma zip_with_same {A B C} (f : A → B → C) (g : A → B) (l : list A) : zip_with f l (g <$> l) = (λ x, f x (g x)) <$> l.
Proof. induction l as [|x l IH]; [done|]. cbn. by rewrite IH. Qed.

Lemma upstreams_probed entries : entries = items (trr_Mappings (newTunnelReadinessResult (MkTunnelCandidateDescriptor "" RoleNode "" 0 "" 0 TransportStandard "") mappings)) →
  probeTunnelUpstreams reached mappings entries = probed_entry (λ _, false) <$> mappings.
Proof.
  intros ->. unfold probeTunnelUpstreams. cbn [newTunnelReadinessResult trr_Mappings items default]. rewrite zip_with_same. apply list_fmap_ext.
  intros i m _. unfold probed_entry. cbn. by destruct (reached (mp_NodeUpstream m)).
Qed.

(** The client reports every mapping and nothing else, each as it was planned. *)
Record reports_exactly (statuses : list FRPProxyStatus) : Prop := {
  rep_some : mappings ≠ [];
  rep_length : List.length statuses = List.length mappings;
  rep_names : NoDup (fs_Name <$> statuses);
  rep_each m : m ∈ mappings → ∃ s, s ∈ statuses ∧ fs_Name s = mp_Name m ∧ status_exact server m s = true
}.

Lemma status_index_keyed statuses : match status_index statuses with Some index => keyed fs_Name statuses index | None => ¬ NoDup (fs_Name <$> statuses) end.
Proof.
  unfold status_index. induction statuses as [|s l IH] using rev_ind; [apply keyed_nil|]. rewrite foldl_app. cbn.
  destruct (foldl _ (Some ∅) l) as [index|]; cbn.
  - destruct (index !! fs_Name s) as [x|] eqn:E; [|by apply keyed_snoc].
    apply IH in E as [Hx Heq]. rewrite fmap_app. intros (_ & Hd & _)%NoDup_app. apply (Hd (fs_Name x)); [by apply list_elem_of_fmap_2|]. rewrite Heq. cbn. left.
  - rewrite fmap_app. by intros [Hn _]%NoDup_app.
Qed.

(** What the statuses tell, when they were asked for and have the right number. *)
Definition reported (installed : bool) (statuses : option (list FRPProxyStatus)) : option (gmap string FRPProxyStatus) :=
  if negb installed then None else
  match statuses with
  | None => None
  | Some l => if (List.length mappings =? 0)%nat || negb (List.length l =? List.length mappings)%nat then None else status_index l
  end.

Definition runs (index : option (gmap string FRPProxyStatus)) (m : Mapping) : bool :=
  match index with
  | Some index => match index !! mp_Name m with Some s => status_exact server m s && status_running s | None => false end
  | None => false
  end.
Definition all_exact (index : option (gmap string FRPProxyStatus)) : bool :=
  match index with
  | Some index => forallb (λ m, match index !! mp_Name m with Some s => status_exact server m s | None => false end) mappings
  | None => false
  end.

Lemma probe_shape descriptor installed statuses : let index := reported installed statuses in
  probe_readiness descriptor server mappings installed reached statuses =
  MkTunnelReadinessResult descriptor
    (if installed then passedTunnelProbe "tunnel-generation-ready" else failedTunnelProbe "tunnel-generation-mismatch")
    (if all_exact index then passedTunnelProbe "tunnel-connection-ready" else failedTunnelProbe "tunnel-connection-unavailable")
    (if all_exact index then passedTunnelProbe "tunnel-mapping-set-ready" else failedTunnelProbe "tunnel-mapping-set-unavailable")
    (Some (probed_entry (runs index) <$> mappings)).
Proof.
  cbn zeta. unfold probe_readiness. rewrite (upstreams_probed _ eq_refl).
  destruct installed; cbn [negb]; [|reflexivity]. unfold reported. cbn [negb]. destruct statuses as [l|]; [|reflexivity].
  unfold applyFRPStatus. destruct (_ || _); [reflexivity|]. destruct (status_index l) as [index|]; [|reflexivity].
  cbn [trr_Mappings items default]. rewrite zip_with_same.
  assert (Hentries : (λ m, apply_status server index m (probed_entry (λ _, false) m)) <$> mappings = probed_entry (runs (Some index)) <$> mappings).
  { apply list_fmap_ext. intros i m _. unfold apply_status, probed_entry, runs. destruct (index !! mp_Name m) as [s|]; [|done]. by destruct (_ && _). }
  rewrite Hentries. cbn [all_exact]. by destruct (forallb _ mappings).
Qed.

Lemma all_exact_iff installed statuses : all_exact (reported installed statuses) = true ↔ installed = true ∧ ∃ l, statuses = Some l ∧ reports_exactly l.
Proof.
  unfold reported. destruct installed; cbn [negb]; [|split; [done|by intros [? _]]]. destruct statuses as [l|]; [|split; [done|by intros (_ & l & ? & _)]].
  destruct (_ || _) eqn:E.
  { split; [done|]. intros (_ & l' & [= <-] & [Hne Hlen _ _]). apply orb_true_iff in E as [E|E].
    - apply Nat.eqb_eq, nil_length_inv in E. done.
    - rewrite Hlen Nat.eqb_refl in E. done. }
  apply orb_false_iff in E as [E1 E2]. apply Nat.eqb_neq in E1. apply negb_false_iff, Nat.eqb_eq in E2.
  pose proof (status_index_keyed l) as Hk. destruct (status_index l) as [index|]; cbn [all_exact].
  - rewrite forallb_forall. split.
    + intros Hall. split; [done|]. exists l. split; [done|]. constructor; [by intros ->|done|by destruct Hk|]. intros m Hm. apply list_elem_of_In in Hm. specialize (Hall m Hm).
      destruct (index !! mp_Name m) as [s|] eqn:Hs; [|done]. apply Hk in Hs as [Hs Hn]. by exists s.
    + intros (_ & l' & [= <-] & [_ _ _ Hall]) m Hm. apply list_elem_of_In in Hm. destruct (Hall m Hm) as (s & Hs & Hn & Hex).
      assert (index !! mp_Name m = Some s) as -> by by apply Hk. done.
  - split; [done|]. intros (_ & l' & [= <-] & [_ _ Hn _]). by destruct Hk.
Qed.

(** A mapping runs when its status, the only one with its name, is the planned one. *)
Lemma runs_iff l m : reports_exactly l → m ∈ mappings →
  runs (reported true (Some l)) m = true ↔ ∃ s, s ∈ l ∧ fs_Name s = mp_Name m ∧ status_running s = true.
Proof.
  intros [Hne Hlen Hn Hall] Hm. unfold reported. cbn [negb]. assert (Hne' : (List.length mappings =? 0)%nat = false) by by destruct mappings.
  rewrite Hne' Hlen Nat.eqb_refl. cbn [orb negb]. pose proof (status_index_keyed l) as Hk. destruct (status_index l) as [index|]; [|done]. cbn [runs].
  destruct (Hall m Hm) as (s & Hs & Hname & Hex). assert (Hi : index !! mp_Name m = Some s) by by apply Hk. rewrite Hi Hex. cbn. split.
  - intros Hr. by exists s.
  - intros (s' & Hs' & Hname' & Hr). assert (index !! mp_Name m = Some s') by by apply Hk. congruence.
Qed.
End probe.

(** ** The readiness of a session *)

Section session.
Context (node : Node) (exposes : list Expose) (generation : N) (session : NodeSession) (Hsession : NewNodeSession node exposes generation = Ok session).
Context (descriptor : tunnel_CandidateDescriptor) (Hdescriptor : tcd_Validate descriptor = Ok ()) (Hrole : cd_HostRole descriptor = RoleNode)
  (Hnode : cd_NodeID descriptor = node_ID node).
Context (server : addr) (reached : string → bool).

Local Abbreviation mappings := (items (ss_Mappings session)).

Lemma entry_valid registered m : m ∈ mappings → tmr_validate (probed_entry reached registered m) (cd_NodeID descriptor) = Ok ().
Proof.
  intros (e & _ & [He _] & Hm)%(session_expose _ _ _ _ _ Hsession). apply mapping_of_expose in Hm as (Hid & _ & Hname & _ & _ & _ & Hv).
  unfold mp_Validate in Hv. do 6 ok_step Hv. ok_step Hv. unfold tmr_validate, probed_entry. cbn [mr_ExposeID mr_Name mr_Generation mr_Registration mr_Upstream].
  units. rewrite G Hnode -He Hid Hname String.eqb_refl. cbn [negb orb mbind result_bind]. apply reject_ok in Hv. rewrite Hv.
  by destruct (registered m), (reached (mp_NodeUpstream m)).
Qed.

(** The names ascend, so the loop over the entries accepts them. *)
Lemma entries_ascend registered l i previous : (∀ m, m ∈ l → m ∈ mappings) → NoDup (mp_Name <$> l) → StronglySorted by_name l →
  (∀ m, m ∈ l → previous = "" ∨ str_lt previous (mp_Name m)) →
  ∃ name, range_loop (λ _ mapping previousName,
    wrap "tunnel readiness mapping" (tmr_validate mapping (cd_NodeID descriptor));;
    reject (negb (String.eqb previousName "") && str_leb (mr_Name mapping) previousName) tunnel_error;;
    Ok (mr_Name mapping)) i (probed_entry reached registered <$> l) previous = Ok name.
Proof.
  revert i previous. induction l as [|m l IH]; intros i previous Hall Hn Hs Hp; [by exists previous|]. cbn [fmap list_fmap range_loop].
  rewrite (entry_valid registered m); [apply Hall; left|]. cbn [wrap mbind result_bind].
  assert (negb (String.eqb previous "") && str_leb (mr_Name (probed_entry reached registered m)) previous = false) as ->.
  { destruct (Hp m) as [->|Hlt]; [left|done|]. apply andb_false_iff. right. by apply str_leb_false. }
  cbn [reject mbind result_bind]. apply NoDup_cons in Hn as [Hnin Hn]. apply StronglySorted_inv in Hs as [Hs Hle].
  apply IH; [|done|done|]. { intros x Hx. apply Hall. by right. }
  intros x Hx. right. rewrite Forall_forall in Hle. apply Hle in Hx as Hx'. apply str_leb_spec in Hx' as [Heq|]; [|done].
  destruct Hnin. cbn in Heq. rewrite Heq. by apply list_elem_of_fmap_2.
Qed.

Lemma probe_valid installed statuses : trr_Validate (probe_readiness descriptor server mappings installed reached statuses) = Ok ().
Proof.
  rewrite probe_shape. unfold trr_Validate. cbn [trr_Candidate trr_Configuration trr_Connection trr_MappingSet trr_Mappings is_nil].
  rewrite Hdescriptor Hrole. cbn [mbind result_bind].
  assert (Hprobes : ∀ a b : bool, range_check (λ _ probe, wrap "readiness" (probe_Validate probe))
    [(if a then passedTunnelProbe "tunnel-generation-ready" else failedTunnelProbe "tunnel-generation-mismatch");
     (if b then passedTunnelProbe "tunnel-connection-ready" else failedTunnelProbe "tunnel-connection-unavailable");
     (if b then passedTunnelProbe "tunnel-mapping-set-ready" else failedTunnelProbe "tunnel-mapping-set-unavailable")] = Ok ()) by by intros [] [].
  rewrite Hprobes. cbn [mbind result_bind]. destruct (node_session_ok _ _ _ _ Hsession) as ((l & _ & Hl) & _ & Hn & _).
  unfold range. assert (Hitems : ∀ l : list TunnelMappingReadiness, items (Some l) = l) by done. rewrite Hitems. destruct (entries_ascend (runs server (reported mappings installed statuses)) mappings 0 "") as [name ->]; try done.
  - rewrite Hl. apply StronglySorted_merge_sort; apply _.
  - by left.
Qed.

(** The first entry with the identifier is that of its mapping. *)
Lemma found_entry registered m : m ∈ mappings →
  ∃ i, list_find (λ entry, mr_ExposeID entry = mp_ExposeID m) (probed_entry reached registered <$> mappings) = Some (i, probed_entry reached registered m).
Proof.
  intros Hm. destruct (list_find _ _) as [[i x]|] eqn:Hf.
  - exists i. apply list_find_Some in Hf as (Hi & Hid & _). apply list_lookup_fmap_Some in Hi as (m' & -> & Hm'). cbn in Hid.
    destruct (node_session_ok _ _ _ _ Hsession) as (_ & Hn & _). apply list_elem_of_lookup in Hm as [j Hj].
    assert (i = j); [|by simplify_eq]. apply (NoDup_lookup _ i j (mp_ExposeID m) Hn); rewrite list_lookup_fmap ?Hm' ?Hj; cbn; congruence.
  - apply list_find_None in Hf. rewrite Forall_forall in Hf. by destruct (Hf (probed_entry reached registered m)); [apply list_elem_of_fmap_2|].
Qed.

(** C18: an expose is published as what the tunnel was observed to be.  For a node session and
    one of its exposes, the state in which the creation publishes the expose is decided by
    the probe exactly: there is one when the installed configuration is the candidate and
    the tunnel client reports every mapping of the session, each once and as planned, and
    nothing else, and the mapping of the expose as running without an error; it is ready
    when the application answered and degraded otherwise. *)
Theorem observation_decides_state e installed statuses state {A} (activation : ExposeTunnelActivation A) :
  e ∈ exposes → in_session node e → ta_Candidate activation = descriptor →
  effectiveExposeState (probe_readiness descriptor server mappings installed reached statuses) activation e = Ok state ↔
    installed = true ∧
    (∃ l, statuses = Some l ∧ reports_exactly server mappings l ∧
       ∃ s, s ∈ l ∧ fs_Name s = want_name (expose_NodeID e) (expose_ID e) ∧ status_running s = true) ∧
    state = (if reached (expose_Upstream e) then ExposeReady else ExposeDegraded).
Proof.
  intros He Hin Hact. destruct (session_mapping _ _ _ _ _ Hsession He Hin) as (m & Hm & Hok).
  destruct (mapping_of_expose _ _ Hok) as (Hid & Hn & Hname & Hmn & Hup & Hgen & _). unfold effectiveExposeState.
  rewrite probe_valid Hact (bool_decide_eq_true_2 (trr_Candidate _ = descriptor)); [by rewrite probe_shape|]. cbn [is_ok negb orb reject mbind result_bind].
  rewrite Hmn probe_shape. unfold probes_passed. cbn [trr_Configuration trr_Connection trr_MappingSet trr_Mappings mbind result_bind].
  assert (Hitems : ∀ l : list TunnelMappingReadiness, items (Some l) = l) by done. rewrite Hitems.
  destruct (found_entry (runs server (reported mappings installed statuses)) m Hm) as [i Hfind]. rewrite Hid in Hfind. rewrite Hfind. clear Hfind.
  cbn [probed_entry mr_Name mr_Generation mr_Registration mr_Upstream]. rewrite String.eqb_refl Hgen N.eqb_refl Hup -Hname.
  destruct (all_exact server mappings (reported mappings installed statuses)) eqn:Hexact.
  - apply all_exact_iff in Hexact as [-> (l & -> & Hrep)]. cbn [probe_passed andb negb orb reject mbind result_bind].
    destruct (runs server (reported mappings true (Some l)) m) eqn:Hruns.
    + apply runs_iff in Hruns; [|done..]. cbn. split.
      * intros Hst. split_and!; [done|by exists l|]. injection Hst as <-. by destruct (reached (expose_Upstream e)).
      * intros (_ & _ & ->). by destruct (reached (expose_Upstream e)).
    + cbn. split; [done|]. intros (_ & (l' & [= <-] & _ & Hs) & _). by apply (runs_iff server mappings l m Hrep Hm) in Hs; rewrite Hruns in Hs.
  - assert (Hneg : negb (probe_passed (if installed then passedTunnelProbe "tunnel-generation-ready" else failedTunnelProbe "tunnel-generation-mismatch") &&
      probe_passed (failedTunnelProbe "tunnel-connection-unavailable") && probe_passed (failedTunnelProbe "tunnel-mapping-set-unavailable")) = true) by by destruct installed.
    rewrite Hneg. cbn [reject mbind result_bind]. split; [done|]. intros (-> & (l & -> & Hrep & _) & _).
    assert (Ht : all_exact server mappings (reported mappings true (Some l)) = true) by by apply all_exact_iff; split; [|exists l].
    by rewrite Ht in Hexact.
Qed.
End session.

(** ** The plan of a state *)

Definition plan_mappings (plan : TunnelPlan) : list Mapping := mjoin ((λ session, items (ss_Mappings session)) <$> items (tp_Nodes plan)).

(** The session of a node that has one. *)
Definition session_of (state : State) (session : NodeSession) : Prop :=
  ∃ node, node ∈ items (st_Nodes state) ∧ node_Lifecycle node = LifecycleActive ∧
    NewNodeSession node (items (st_Exposes state)) (st_Generation state) = Ok session.

Lemma gateway_sessions_ok state sessions : gateway_sessions state = Ok sessions →
  (∀ session, session ∈ sessions → session_of state session) ∧
  (∀ node, node ∈ items (st_Nodes state) → node_Lifecycle node = LifecycleActive →
     ∃ session, session ∈ sessions ∧ NewNodeSession node (items (st_Exposes state)) (st_Generation state) = Ok session).
Proof.
  intros K. assert (Hinv : Forall2 (λ node session, NewNodeSession node (items (st_Exposes state)) (st_Generation state) = Ok session)
    (filter (λ node, node_Lifecycle node = LifecycleActive) (items (st_Nodes state))) sessions).
  { refine (range_inv _ (λ p l, Forall2 (λ node session, NewNodeSession node (items (st_Exposes state)) (st_Generation state) = Ok session)
      (filter (λ node, node_Lifecycle node = LifecycleActive) p) l) _ [] sessions _ _ K); [|constructor].
    clear. intros p node q l l' _ IH Hb. cbn beta in Hb. rewrite filter_app. case_bool_decide as Hl; cbn [negb] in Hb.
    - ok_step Hb. injection Hb as <-. rewrite filter_cons_True // filter_nil. apply Forall2_app; [done|by repeat constructor].
    - injection Hb as <-. by rewrite filter_cons_False // filter_nil app_nil_r. }
  split.
  - intros session Hs. apply list_elem_of_lookup in Hs as [i Hi]. destruct (Forall2_lookup_r _ _ _ _ _ Hinv Hi) as (node & Hn & Hok).
    apply list_elem_of_lookup_2, list_elem_of_filter in Hn as [Hl Hn]. by exists node.
  - intros node Hn Hl. assert (Hf : node ∈ filter (λ node, node_Lifecycle node = LifecycleActive) (items (st_Nodes state))) by by apply list_elem_of_filter.
    apply list_elem_of_lookup in Hf as [i Hi]. destruct (Forall2_lookup_l _ _ _ _ _ Hinv Hi) as (session & Hs & Hok). exists session.
    split; [by eapply list_elem_of_lookup_2|done].
Qed.

Lemma sessions_ok state endpoint sessions : endpoint_and_sessions state = Ok (endpoint, sessions) →
  (∀ session, session ∈ sessions → session_of state session) ∧
  (∀ node, node ∈ items (st_Nodes state) → node_Lifecycle node = LifecycleActive →
     ∃ session, session ∈ sessions ∧ NewNodeSession node (items (st_Exposes state)) (st_Generation state) = Ok session).
Proof.
  unfold endpoint_and_sessions. destruct (host_Role (st_Host state)).
  - destruct (ParsePrefix _); [|done]. intros K. ok_step K. injection K as _ <-. by apply gateway_sessions_ok.
  - destruct (items (st_Nodes state)) as [|node [|]] eqn:Hn; try done. intros K. ok_step K. destruct (node_Gateway node); [|done]. destruct (ParseAddr _); [|done].
    ok_step K. injection K as _ <-. facts. split.
    + intros session ->%list_elem_of_singleton. exists node. rewrite Hn. by split; [left|].
    + intros n ->%list_elem_of_singleton _. eexists. by split; [left|].
  - done.
Qed.

(** An expose that is not disabled is hosted by an active node of the state. *)
Lemma active_hosted state e : Validate state = Ok () → e ∈ items (st_Exposes state) → active_expose e →
  ∃ node, node ∈ items (st_Nodes state) ∧ node_Lifecycle node = LifecycleActive ∧ node_ID node = expose_NodeID e.
Proof.
  intros (nodes & clients & presets & policies & states & operations & Hp)%Validate_parts He Ha.
  destruct (valid_collections _ _ _ _ _ _ _ Hp) as (Hk & _). destruct (vp_exposes _ _ _ _ _ _ _ Hp) as [seen Hseen].
  apply validate_exposes_ok in Hseen as (_ & _ & _ & _ & _ & _ & Hall). destruct (Hall e He) as (_ & node & Hnode & Hl). apply Hk in Hnode as [Hin Hid].
  exists node. split_and!; [done| |done]. destruct (decide (node_Lifecycle node = LifecycleActive)) as [|Hne]; [done|]. by destruct Ha; apply Hl.
Qed.

(** C19: the tunnel plan of a state maps its exposes exactly.  The mappings of the plan, over
    all its sessions, are those of the exposes of the state that are not disabled: there is
    one for each of them, with its identifier, node, upstream and generation and with its
    port on the loopback address, and there is no other. *)
Theorem plan_maps_exposes state plan m : PlanFromState state = Ok plan →
  m ∈ plan_mappings plan ↔ ∃ e, e ∈ items (st_Exposes state) ∧ active_expose e ∧ MappingFromExpose e = Ok m ∧
    m = MkMapping (expose_ID e) (expose_NodeID e) (want_name (expose_NodeID e) (expose_ID e)) ProtocolTCP
          (MkAddrPort (Some loopback_address) (Z.to_N (expose_TunnelPort e))) (expose_Upstream e) (expose_Generation e).
Proof.
  unfold PlanFromState. intros K. ok_step K. ok_step K. destruct a0 as [endpoint sessions]. ok_step K. injection K as <-. units.
  apply sessions_ok in G0 as [Hsound Hcomplete]. unfold plan_mappings. cbn [tp_Nodes].
  assert (Hitems : ∀ l : list NodeSession, items (Some l) = l) by done. rewrite Hitems list_elem_of_join. split.
  - intros (l & Hm & (session & -> & Hs)%list_elem_of_fmap). rewrite merge_sort_Permutation in Hs. destruct (Hsound session Hs) as (node & Hn & Hl & Hok).
    destruct (session_expose _ _ _ _ _ Hok Hm) as (e & He & [_ Ha] & Hmap). exists e. split_and!; [done..|]. by apply mapping_shape.
  - intros (e & He & Ha & Hmap & _). destruct (active_hosted _ _ G He Ha) as (node & Hn & Hl & Hid). destruct (Hcomplete node Hn Hl) as (session & Hs & Hok).
    destruct (session_mapping _ _ _ _ e Hok He) as (m' & Hm' & Hmap'); [by split|]. rewrite Hmap in Hmap'. injection Hmap' as <-.
    exists (items (ss_Mappings session)). split; [done|]. apply list_elem_of_fmap. exists session. split; [done|]. by rewrite merge_sort_Permutation.
Qed.

(** ** Witnesses *)

Definition published_node_state : State := node_exposes_state 5 11 [new_expose ExposeReady].
Definition sample_session : NodeSession :=
  match NewNodeSession (Samples.joined_node "") [new_expose ExposeReady] 5 with Ok session => session | Err _ => MkNodeSession "" 0 0 TransportStandard None end.
Definition sample_activation : ExposeTunnelActivation unit := MkExposeTunnelActivation (uuid "31") (sample_descriptor published_node_state) ().

(** The tunnel runs as planned, and the application does not answer. *)
Lemma observation_decides_state_witness :
  let mappings := items (ss_Mappings sample_session) in
  let observed := effectiveExposeState (probe_readiness (sample_descriptor published_node_state) tunnel_server mappings true (λ _, false) (Some (runs_mapping <$> mappings)))
    sample_activation (new_expose ExposeReady) in
  observed = Ok ExposeDegraded ∧ reports_exactly tunnel_server mappings (runs_mapping <$> mappings).
Proof.
  cbv zeta. assert (Hrun : effectiveExposeState (probe_readiness (sample_descriptor published_node_state) tunnel_server (items (ss_Mappings sample_session)) true
    (λ _, false) (Some (runs_mapping <$> items (ss_Mappings sample_session)))) sample_activation (new_expose ExposeReady) = Ok ExposeDegraded) by by vm_compute.
  split; [done|].
  assert (Hsession : NewNodeSession (Samples.joined_node "") [new_expose ExposeReady] 5 = Ok sample_session) by by vm_compute.
  assert (Hdescriptor : tcd_Validate (sample_descriptor published_node_state) = Ok ()) by by vm_compute.
  assert (Hin : in_session (Samples.joined_node "") (new_expose ExposeReady)) by by split.
  assert (He : new_expose ExposeReady ∈ [new_expose ExposeReady]) by left.
  apply (observation_decides_state _ _ _ _ Hsession _ Hdescriptor eq_refl eq_refl _ _ _ _ _ _ sample_activation He Hin eq_refl) in Hrun.
  destruct Hrun as (_ & (l & Hl & Hrep & _) & _). apply (inj Some) in Hl. rewrite -Hl in Hrep. exact Hrep.
Defined.

Definition sample_plan : TunnelPlan :=
  match PlanFromState published_node_state with Ok plan => plan | Err _ => MkTunnelPlan RoleNode "" 0 (MkAddrPort None 0) None end.

Lemma plan_maps_exposes_witness :
  PlanFromState published_node_state = Ok sample_plan ∧
  ∀ m, m ∈ plan_mappings sample_plan → mp_NodeUpstream m = "127.0.0.1:8080" ∧ mp_Port m = 20000%N.
Proof.
  assert (Hplan : PlanFromState published_node_state = Ok sample_plan) by by vm_compute. split; [done|].
  intros m (e & He & _ & _ & ->)%(plan_maps_exposes published_node_state sample_plan m Hplan). cbn in He. by apply list_elem_of_singleton in He as ->.
Defined.
